(* ===== verification/_CoqProject ===== *)
-Q . S2P
Prelude.v
PyBytes.v
PyText.v
PyFloat.v
PyRound.v
PyStruct.v
Checksums.v
Framing.v
Frames.v
SbgFraming.v
VnFields.v
VnFraming.v
Bus.v
Calendar.v
RawLog.v
RawIndex.v
EnvFile.v
SbgLogs.v
InsLink.v
SbgCommands.v
Alerts.v
Jobs.v
VnParse.v
VnRegisters.v
PyCodecs.v
NtripCaster.v
StateModels.v
StateStore.v
StateEpochs.v
StateBooks.v
PyNet.v
WebGuard.v
NtripClient.v
NtripHandshake.v
NtripLink.v
Geo.v
Database.v
Sessions.v
Points.v
Link.v
UbxConfig.v
ReceiverConfig.v
Sites.v
BaseMode.v
Receiver.v
Replay.v
Sinks.v
Nmea.v
NmeaOut.v
WsHub.v
Sampler.v
RinexHeader.v
PpkTrack.v
PpkEvents.v
RinexFiles.v
InsCapture.v
VnConfig.v
