(* ===== verification/Prelude.v ===== *)
(** * mtrtk: a verification library for the RTK base and rover daemon

    mtrtk (src/src/mtrtk/) talks to a GNSS receiver or an inertial unit, cuts its byte stream
    into protocol frames, publishes them on an in-process bus, keeps raw logs, derives a live
    state, raises alerts, serves corrections, and runs exports as background jobs. The library
    models the parts whose behaviour is decided by the program itself, as executable
    functions and state machines over explicit states, and proves what makes each one
    correct. Bytes are lists of integers in 0..255; Python integers are [Z]; datetimes are
    microseconds since the epoch; dictionaries are finite maps (or association lists where
    their order is observable); exceptions are [None] or a value of an error type; a coroutine
    is a machine whose steps are its stretches between two awaits.

    ** Files and what they model

    Shared ground
    - [Prelude]: notation for byte strings and slices, little-endian integers, stable
      sorting, first-index search, linear maps over bits, the tactics and hint databases.
    - [PyBytes], [PyText], [PyFloat], [PyStruct]: the Python operations the code leans on -
      find, int(), formatting; str.strip and friends; IEEE double and single arithmetic on
      bit patterns (round to nearest even); struct.pack and struct.unpack as one typed
      format, with their round trips. [PyRound]: what the rounding of doubles is worth, as
      errors in whole units, used by [PpkEvents].
    - [Calendar]: proleptic Gregorian dates and hours for file names.

    From the wire to the bus
    - [Checksums] (core/crc.py, rover/drivers/sbg/crc.py, vectornav/checksum.py): the table
      driven CRCs against bit-serial definitions, single-byte error detection, residues.
    - [Framing]: the loop every framer runs, with its fuel (one more than the buffered bytes:
      each turn consumes a byte or stops), its partition of the stream and its chunking lemma.
    - [Frames] (core/frames.py), [SbgFraming] (sbg/framer.py, sbg/ids.py), [VnFields] and
      [VnFraming] (vectornav/fields.py, vectornav/framer.py): the three stream framers.
      Sound: input bytes are exactly frames, counted garbage and the kept rest. Complete:
      well-formed frames back to back are all found, if they fit the buffer. Chunking: how bytes are cut into calls
      of feed does not matter (for [Frames], within a bound a counterexample shows necessary).
    - [Bus] (core/bus.py, core/router.py): subscriptions with drop-oldest and unbounded
      policies; what is offered is queued, taken, or counted as dropped; the router delivers
      every frame, in order, under its topics. A class [FrameSplitter] is what the router
      needs of a framer; the three framers are instances.

    The live state
    - [StateModels] (core/state.py), [StateStore] (core/statestore.py): UBX messages applied
      to the receiver state by handlers that may raise midway; [StateEpochs]: the epochs that
      are published are those of the stream, with NAV-EOE, without it, or losing it;
      [StateBooks]: counts of RTCM frames and their rate, corrections received, time marks,
      epoch numbers, the satellite list and its summary.

    Logs and settings
    - [RawLog] (rawlog/writer.py): hour files with JSON sidecars. The sidecar of a closed file
      describes its bytes; nothing offered is lost; a closed hour stays closed; recovery.
    - [RawIndex] (rawlog/index.py, rawlog/retention.py): names, listing, windows, pruning.
    - [EnvFile] (web/envfile.py): what reads back after an update is the update.

    The inertial unit's messages
    - [SbgLogs] (sbg/logs.py): payload parsers fail only on short payloads; satellite list
      round trip. [InsLink] (ins_common.py): what a request finds in the frames that arrive
      while it waits. [SbgCommands] (sbg/commands.py): payload codecs and the command exchange
      with retries. [VnParse] (vectornav/parse.py): every framed message parses, to the fields
      its groups name. [VnRegisters] (vectornav/registers.py): the register exchange ends as its
      replies say; the binary output configuration round-trips. [VnConfig]
      (vectornav/config.py): a configure run, over any unit that answers, refuses, stays silent
      or loses the link: without leave to apply it writes nothing; ASCII output is turned off,
      and flash written, only after a binary frame has arrived; flash is written at most once.
    - [InsCapture] (ins_common.py): the hourly capture of the raw stream with its sidecars, and
      the publishing half of the adapters.

    Receiver
    - [Link] (core/link.py): requests and the correlation of their answers, with the credits for
      late ones: sequential writes get their own verdict from a receiver that answers in order.
    - [UbxConfig] (core/ubx_config.py): the profiles of each role. [ReceiverConfig]
      (core/receiver.py): probe, configure, bisection, readback and verification, over any link
      ([Class Ops]): a configure that returns has shown the receiver to hold the profile; the
      refused keys are found exactly; a receiver that has the profile is not written to.
    - [Receiver] (core/receiver.py): the supervisor of the sessions: an outage is reported once,
      the ladder of retries, and that a stopped supervisor ends: a wait ends by its time or, a
      different event that needs the stop, by the stop.
    - [Replay] (core/source.py), over [Frames]: a recording is replayed whole, in bounded pieces.
    - [BaseMode] (base/basemode.py), over [Sites] and [UbxConfig]: the timing mode of a base under
      any interleaving of requests, polls, broadcast positions and answers of the receiver.
    - [Sites] (store/repos.py): base sites; at most one is active, the last one activated.

    Services
    - [Alerts] (alerts.py): the alert engine: raised and cleared events alternate; loss alerts
      and port errors are exactly what the messages say.
    - [NtripCaster] (base/ntrip_caster.py), over the codecs of [PyCodecs] (Latin-1 case, UTF-8,
      base64, fixed-point formatting): who is given a stream; what one rover receives, through
      a bounded queue and a write loop that may stall; the caster's rovers under every
      interleaving, and that [stop] ends their streams.
    - [NtripClient] (rover/ntrip_client.py): the rover's side, from the bytes of a caster to the
      driver, with its retries; [NtripHandshake] and [NtripLink] put the two sides together: which
      requests are admitted, and that what the caster sends is what the driver is given.
    - [WebGuard] (web/hostguard.py, web/auth.py), over the address and URL syntax of [PyNet]:
      which names pass the guard of an interface without a password, with the MagicDNS cache
      and lookups in progress; the throttle of failed logins.
    - [Database] (store/db.py): the shared SQLite connection with its transactions, tables and
      migrations; [Sessions] (rover/sessions.py): whatever the interleaving, readers see the
      sessions as after whole calls of [start] and [stop], at most one of them open.
    - [Geo] (core/geo.py): coordinates, over any type of numbers; theorems in the reals: the
      round trip of a point on the ellipsoid, tangent-plane offsets as an isometry, UTM zones.
    - [Points] (rover/points.py), over [Geo] and [Database]: the averaging of survey points: what
      is stored, that a collection ends, and that averaging in the plane or in space is the same.
    - [Nmea], [NmeaOut] (rover/nmea_out.py), [Sinks] (rover/sinks.py): the sentences of an epoch,
      which the framer of [Frames] finds again; the publisher with its retries; what the reader
      of a serial output sees, whatever the kernel takes and flushes.
    - [WsHub] (web/ws.py): the sockets of the web interface; each is given what the bus brought
      for it, in order, until it falls behind or ends.
    - [Sampler] (store/sampler.py): rows per second and per minute, over failures, restarts and
      crashes; each minute is the aggregate of all its seconds.
    - [RinexHeader], [RinexFiles] (rinex/rinexhdr.py, naming.py, splice.py): what is read of
      observation files, their names, and the splicing of hourly logs, all or nothing.
    - [PpkTrack], [PpkEvents] (ppk/pos.py, ppk/events.py): solution tracks and their tables; camera
      events, with the time of a mark exact to half a microsecond through the doubles.
    - [Jobs] (jobs.py): the job runner under every interleaving of submissions, running
      jobs, cancellations, deletions, shutdowns and restarts.

    ** What is not modelled

    Input and output proper (serial ports, sockets, HTTP, SQL text, subprocesses), logging,
    and the code that only forwards to them. A database write is one step that succeeds
    unless a definition takes the failure as a parameter. Trigonometry on floats has no model: where
    it matters ([Geo], [Points]) definitions take the numbers as a parameter, and theorems about
    values are about the reals. Times are the values the clock
    returned, arguments of the operations. The manifest lists every part of the program with
    its status. *)

From stdpp Require Export base list numbers option.
From Stdlib Require Export ZArith Lia Sorted.

(** ** Notation *)

Declare Scope mtrtk_scope.
Delimit Scope mtrtk_scope with mtrtk.

#[global] Open Scope Z_scope.

(** Python [bytes] and [bytearray]: the integers Python's indexing yields. *)
Abbreviation bytes := (list Z).

(** [buf[i]] under a guard that makes [i] in range. *)
Definition at_ (buf : bytes) (i : nat) : Z := nth i buf 0.
(** [buf[i:j]]. *)
Definition slice {A} (i j : nat) (l : list A) : list A := take (j - i) (drop i l).

Notation "b .[ i ]" := (at_ b i) (at level 1, left associativity, format "b .[ i ]") : mtrtk_scope.
#[global] Open Scope mtrtk_scope.

Definition is_byte (b : Z) : Prop := 0 <= b < 256.
Abbreviation bytes_ok := (Forall is_byte).

#[export] Instance is_byte_dec b : Decision (is_byte b).
Proof. unfold is_byte. apply _. Defined.

(** [len(x)] as the integer Python returns. *)
Abbreviation len x := (Z.of_nat (length x)).

(** [int.from_bytes(b, "little")]. *)
Fixpoint le_int (b : bytes) : Z :=
  match b with
  | [] => 0
  | x :: r => x + 256 * le_int r
  end.

(** [n] little-endian bytes of [v] ([struct.pack] of an in-range unsigned value). *)
Fixpoint le_bytes (n : nat) (v : Z) : bytes :=
  match n with
  | O => []
  | S k => v mod 256 :: le_bytes k (v / 256)
  end.

(** ** Automation *)

Create HintDb mtrtk discriminated.
Create HintDb lin discriminated.
Create Rewrite HintDb len.

(** Case on the innermost [if]/[match] of the goal or of a hypothesis. *)
Ltac break :=
  match goal with
  | |- context [match ?x with _ => _ end] =>
      lazymatch x with
      | context [match _ with _ => _ end] => fail
      | _ => destruct x eqn:?
      end
  end.
Ltac break_in H :=
  match type of H with
  | context [match ?x with _ => _ end] =>
      lazymatch x with
      | context [match _ with _ => _ end] => fail
      | _ => destruct x eqn:?
      end
  end.

(** Boolean comparisons of the code as propositions. *)
Ltac zbool :=
  repeat match goal with
  | H : (_ && _)%bool = true |- _ => apply andb_true_iff in H; destruct H
  | H : (_ || _)%bool = false |- _ => apply orb_false_iff in H; destruct H
  | H : negb _ = true |- _ => apply negb_true_iff in H
  | H : negb _ = false |- _ => apply negb_false_iff in H
  | H : (_ =? _) = true |- _ => apply Z.eqb_eq in H
  | H : (_ =? _) = false |- _ => apply Z.eqb_neq in H
  | H : (_ <? _) = true |- _ => apply Z.ltb_lt in H
  | H : (_ <? _) = false |- _ => apply Z.ltb_ge in H
  | H : (_ <=? _) = true |- _ => apply Z.leb_le in H
  | H : (_ <=? _) = false |- _ => apply Z.leb_gt in H
  | H : (_ >? _) = true |- _ => rewrite Z.gtb_ltb in H
  | H : (_ >? _) = false |- _ => rewrite Z.gtb_ltb in H
  | H : (_ >=? _) = true |- _ => rewrite Z.geb_leb in H
  | H : (_ >=? _) = false |- _ => rewrite Z.geb_leb in H
  | H : (_ <? _)%nat = true |- _ => apply Nat.ltb_lt in H
  | H : (_ <? _)%nat = false |- _ => apply Nat.ltb_ge in H
  | H : (_ <=? _)%nat = true |- _ => apply Nat.leb_le in H
  | H : (_ <=? _)%nat = false |- _ => apply Nat.leb_gt in H
  | H : (_ =? _)%nat = true |- _ => apply Nat.eqb_eq in H
  | H : (_ =? _)%nat = false |- _ => apply Nat.eqb_neq in H
  end.

(** ** Lists *)

Lemma at_app_l (a b : bytes) i : (i < length a)%nat -> (a ++ b).[i] = a.[i].
Proof. apply app_nth1. Qed.

Lemma at_app_r (a b : bytes) i : (length a <= i)%nat -> (a ++ b).[i] = b.[i - length a].
Proof. apply app_nth2. Qed.

Lemma slice_app_l {A} i j (a b : list A) :
  (j <= length a)%nat -> slice i j (a ++ b) = slice i j a.
Proof.
  intros. unfold slice. rewrite drop_app, take_app.
  rewrite length_drop.
  destruct (decide (i <= length a)%nat).
  - replace (j - i - (length a - i))%nat with 0%nat by lia.
    rewrite take_0, app_nil_r. done.
  - replace (j - i)%nat with 0%nat by lia. rewrite !take_0. done.
Qed.

Lemma length_slice {A} i j (l : list A) :
  (j <= length l)%nat -> length (slice i j l) = (j - i)%nat.
Proof. intros. unfold slice. rewrite length_take, length_drop. lia. Qed.

Lemma take_app_short {A} n (a b : list A) :
  (n <= length a)%nat -> take n (a ++ b) = take n a.
Proof. intros. apply take_app_le. done. Qed.

Lemma app_ne_l {A} (a b : list A) : a <> [] -> a ++ b <> [].
Proof. by destruct a. Qed.

Lemma drop_ne {A} n (a : list A) : (n < length a)%nat -> drop n a <> [].
Proof. intros H E. apply (f_equal length) in E. rewrite length_drop in E. simpl in E. lia. Qed.

Lemma sublist_same_length {A} (l k : list A) : l `sublist_of` k -> length l = length k -> l = k.
Proof.
  induction 1 as [|x l k H IH|x l k H IH]; simpl; intros E; [done| |].
  - f_equal. auto.
  - apply sublist_length in H. lia.
Qed.

Lemma at_drop (l : bytes) k i : (drop k l).[i] = l.[k + i].
Proof.
  unfold at_. revert k. induction l as [|x l IH]; intros [|k]; simpl; try done.
  by destruct i.
Qed.

Lemma at_lookup (l : bytes) i : (i < length l)%nat -> l !! i = Some l.[i].
Proof.
  intros H. unfold at_. apply lookup_lt_is_Some_2 in H as [x Hx].
  rewrite Hx. symmetry. f_equal. by apply nth_lookup_Some.
Qed.

Lemma bytes_ok_at (l : bytes) i : bytes_ok l -> is_byte l.[i].
Proof.
  intros H. destruct (decide (i < length l)%nat) as [Hi|Hi].
  - eapply Forall_lookup_1; [done|]. by apply at_lookup.
  - unfold at_. rewrite nth_overflow by lia. unfold is_byte. lia.
Qed.

Lemma slice_cons {A} i j (x : A) l : slice (S i) (S j) (x :: l) = slice i j l.
Proof. done. Qed.

Lemma slice_0 {A} j (l : list A) : slice 0 j l = take j l.
Proof. unfold slice. by rewrite drop_0, Nat.sub_0_r. Qed.

Lemma slice_join {A} i j k (l : list A) :
  (i <= j <= k)%nat -> slice i j l ++ slice j k l = slice i k l.
Proof.
  intros H. unfold slice. replace (drop j l) with (drop (j - i) (drop i l))
    by (rewrite drop_drop; f_equal; lia).
  rewrite take_take_drop. f_equal. lia.
Qed.

Lemma slice_one (l : bytes) i : (i < length l)%nat -> slice i (S i) l = [l.[i]].
Proof.
  intros H. unfold slice. replace (S i - i)%nat with 1%nat by lia.
  destruct (drop i l) as [|x r] eqn:E.
  - apply (f_equal length) in E. rewrite length_drop in E. simpl in E. lia.
  - pose proof (at_drop l i 0) as A. rewrite E, Nat.add_0_r in A. unfold at_ in A at 1. simpl in A.
    simpl. by rewrite A.
Qed.

Lemma slice_mid {A} i j (a b c : list A) :
  i = length a -> j = (length a + length b)%nat -> slice i j (a ++ b ++ c) = b.
Proof.
  intros -> ->. unfold slice. rewrite drop_app_length.
  replace (length a + length b - length a)%nat with (length b) by lia. apply take_app_length.
Qed.

Lemma slice_three (l : bytes) i :
  (i + 3 <= length l)%nat -> slice i (i + 3) l = [l.[i]; l.[i + 1]; l.[i + 2]].
Proof.
  intros H. rewrite <- (slice_join i (S i)), <- (slice_join (S i) (S (S i))) by lia.
  replace (i + 3)%nat with (S (S (S i))) by lia. rewrite !slice_one by lia.
  replace (i + 1)%nat with (S i) by lia. replace (i + 2)%nat with (S (S i)) by lia. done.
Qed.

Lemma bytes_ok_take n (l : bytes) : bytes_ok l -> bytes_ok (take n l).
Proof. apply Forall_take. Qed.
Lemma bytes_ok_drop n (l : bytes) : bytes_ok l -> bytes_ok (drop n l).
Proof. apply Forall_drop. Qed.
Lemma bytes_ok_slice i j (l : bytes) : bytes_ok l -> bytes_ok (slice i j l).
Proof. intros. by apply Forall_take, Forall_drop. Qed.
#[export] Hint Resolve bytes_ok_at bytes_ok_take bytes_ok_drop bytes_ok_slice : mtrtk.

(** [sorted(l, key=...)]: stable, by an integer key. *)
Section Sorted.
Context {A : Type} (key : A -> Z).

Fixpoint insert_by (x : A) (l : list A) : list A :=
  match l with
  | [] => [x]
  | y :: r => if key x <=? key y then x :: l else y :: insert_by x r
  end.
Definition sort_by (l : list A) : list A := foldr insert_by [] l.

Definition sorted_by : list A -> Prop := StronglySorted (fun x y => key x <= key y).

Lemma insert_by_perm x l : insert_by x l ≡ₚ x :: l.
Proof.
  induction l as [|y l IH]; simpl; [done|]. destruct (_ <=? _); [done|].
  rewrite IH. constructor.
Qed.

Lemma sort_by_perm l : sort_by l ≡ₚ l.
Proof. induction l as [|x l IH]; simpl; [done|]. by rewrite insert_by_perm, IH. Qed.

Lemma insert_by_sorted x l : sorted_by l -> sorted_by (insert_by x l).
Proof.
  unfold sorted_by. induction 1 as [|y l Hs IH Hy]; simpl; [repeat constructor|].
  destruct (_ <=? _) eqn:E; zbool.
  - constructor; [by constructor|]. constructor; [done|]. revert Hy. apply List.Forall_impl. lia.
  - constructor; [done|]. rewrite insert_by_perm. constructor; [lia|done].
Qed.

Lemma sort_by_sorted l : sorted_by (sort_by l).
Proof. induction l; simpl; [constructor|]. by apply insert_by_sorted. Qed.

Lemma sorted_by_sublist l k : l `sublist_of` k -> sorted_by k -> sorted_by l.
Proof.
  unfold sorted_by. induction 1 as [|x l k Hs IH|x l k Hs IH]; intros H; [constructor| |].
  - inversion H; subst. constructor; [auto|].
    match goal with h : Forall _ k |- _ => rewrite List.Forall_forall in h; rename h into Hk end.
    apply List.Forall_forall. intros y Hy. apply Hk.
    rewrite <- list_elem_of_In in *. by eapply elem_of_sublist.
  - inversion H; subst. auto.
Qed.
End Sorted.

(** First index at or after which a predicate holds. *)
Fixpoint find_idx {A} (p : A -> bool) (l : list A) : option nat :=
  match l with
  | [] => None
  | x :: r => if p x then Some O else S <$> find_idx p r
  end.

Lemma find_idx_app_Some {A} (p : A -> bool) l m k :
  find_idx p l = Some k -> find_idx p (l ++ m) = Some k.
Proof.
  revert k. induction l as [|x l IH]; intros k; simpl; [done|].
  destruct (p x); [done|].
  destruct (find_idx p l); simpl; intros [= <-]. by rewrite (IH n).
Qed.

Lemma find_idx_app_None {A} (p : A -> bool) l m :
  find_idx p l = None -> find_idx p (l ++ m) = Nat.add (length l) <$> find_idx p m.
Proof.
  induction l as [|x l IH]; simpl.
  - intros _. destruct (find_idx p m); done.
  - destruct (p x); [done|]. destruct (find_idx p l); [done|].
    intros _. rewrite IH by done. destruct (find_idx p m); done.
Qed.

Lemma find_idx_lt {A} (p : A -> bool) l k : find_idx p l = Some k -> (k < length l)%nat.
Proof.
  revert k. induction l as [|x l IH]; intros k; simpl; [done|].
  destruct (p x); [intros [= <-]; lia|].
  destruct (find_idx p l) as [n|] eqn:E; simpl; intros [= <-].
  specialize (IH n eq_refl). lia.
Qed.

(** ** Little-endian integers *)

Lemma le_int_le_bytes n v : 0 <= v < 256 ^ Z.of_nat n -> le_int (le_bytes n v) = v.
Proof.
  revert v. induction n as [|n IH]; intros v H.
  - simpl in *. lia.
  - simpl. rewrite Nat2Z.inj_succ, Z.pow_succ_r in H by lia.
    rewrite IH by (split; [apply Z.div_pos; lia | apply Z.div_lt_upper_bound; lia]).
    pose proof (Z.div_mod v 256). lia.
Qed.

Lemma length_le_bytes n v : length (le_bytes n v) = n.
Proof. revert v. induction n; intros; simpl; auto. Qed.

Lemma bytes_ok_le_bytes n v : bytes_ok (le_bytes n v).
Proof.
  revert v. induction n; intros; simpl; constructor; auto.
  unfold is_byte. apply Z.mod_pos_bound. lia.
Qed.
#[export] Hint Resolve bytes_ok_le_bytes : mtrtk.
#[export] Hint Rewrite @length_take @length_drop @length_app length_le_bytes : len.

(** A [bytes_ok] goal on a literal concatenation. *)
Ltac bytes_tac :=
  repeat lazymatch goal with
  | H : Forall _ ?l |- Forall _ ?l => exact H
  | |- Forall _ (_ ++ _) => apply Forall_app_2
  | |- Forall _ (_ :: _) => apply Forall_cons_2
  | |- Forall _ (le_bytes _ _) => apply bytes_ok_le_bytes
  | |- Forall _ [] => apply Forall_nil_2
  end;
  try (unfold is_byte; lia); try assumption.

(** ** Bit operations on bounded integers *)

Lemma lxor_bound n a b :
  0 <= n -> 0 <= a < 2 ^ n -> 0 <= b < 2 ^ n -> 0 <= Z.lxor a b < 2 ^ n.
Proof.
  intros Hn Ha Hb. split; [apply Z.lxor_nonneg; lia|].
  destruct (Z.eq_dec (Z.lxor a b) 0) as [->|]; [lia|].
  apply Z.log2_lt_pow2; [pose proof (proj2 (Z.lxor_nonneg a b)); lia|].
  eapply Z.le_lt_trans; [apply Z.log2_lxor; lia|].
  destruct (Z.eq_dec n 0) as [->|]; [simpl in *; replace a with 0 in * by lia; replace b with 0 in * by lia; done|].
  apply Z.max_lub_lt.
  - destruct (Z.eq_dec a 0) as [->|]; [simpl; lia|]. apply Z.log2_lt_pow2; lia.
  - destruct (Z.eq_dec b 0) as [->|]; [simpl; lia|]. apply Z.log2_lt_pow2; lia.
Qed.

Lemma land_ones_bound n a : 0 <= n -> 0 <= Z.land a (Z.ones n) < 2 ^ n.
Proof. intros. rewrite Z.land_ones by lia. apply Z.mod_pos_bound. lia. Qed.

Lemma testbit_high n a k : 0 <= a < 2 ^ n -> n <= k -> 0 <= n -> Z.testbit a k = false.
Proof.
  intros Ha Hk Hn. rewrite <- (Z.mod_small a (2 ^ n)) by done. by apply Z.mod_pow2_bits_high.
Qed.

(** [low | (high << n)] is addition when [low] fits in [n] bits. *)
Lemma lor_shiftl n a b :
  0 <= n -> 0 <= a < 2 ^ n -> Z.lor a (Z.shiftl b n) = a + 2 ^ n * b.
Proof.
  intros Hn Ha.
  assert (D : Z.land a (Z.shiftl b n) = 0).
  { apply Z.bits_inj'. intros k Hk. rewrite Z.land_spec, Z.bits_0.
    destruct (Z.ltb_spec k n).
    - rewrite Z.shiftl_spec_low by done. apply andb_false_r.
    - by rewrite (testbit_high n a k). }
  rewrite <- Z.lxor_lor, <- Z.add_nocarry_lxor by done. rewrite Z.shiftl_mul_pow2 by done. lia.
Qed.

Lemma is_byte_land a : is_byte (Z.land a 255).
Proof. apply (land_ones_bound 8). lia. Qed.
#[export] Hint Resolve is_byte_land : mtrtk.

(** Functions linear over GF(2), agreeing on a basis, agree everywhere. *)
Definition lin (f : Z -> Z) : Prop := forall x y, f (Z.lxor x y) = Z.lxor (f x) (f y).

Lemma lin_0 f : lin f -> f 0 = 0.
Proof. intros H. specialize (H 0 0). rewrite !Z.lxor_nilpotent in H. done. Qed.
Lemma lin_id : lin (fun x => x).
Proof. done. Qed.
Lemma lin_comp f g : lin f -> lin g -> lin (fun x => f (g x)).
Proof. intros Hf Hg x y. by rewrite Hg, Hf. Qed.
Lemma lin_lxor f g : lin f -> lin g -> lin (fun x => Z.lxor (f x) (g x)).
Proof.
  intros Hf Hg x y. rewrite Hf, Hg, !Z.lxor_assoc. f_equal.
  rewrite <- !Z.lxor_assoc. f_equal. apply Z.lxor_comm.
Qed.
Lemma lin_shiftl n : lin (fun x => Z.shiftl x n).
Proof. intros x y. apply Z.shiftl_lxor. Qed.
Lemma lin_shiftr n : lin (fun x => Z.shiftr x n).
Proof. intros x y. apply Z.shiftr_lxor. Qed.
Lemma lin_land m : lin (fun x => Z.land x m).
Proof.
  intros x y. apply Z.bits_inj'. intros n _.
  rewrite !Z.lxor_spec, !Z.land_spec, Z.lxor_spec.
  destruct (Z.testbit x n), (Z.testbit y n), (Z.testbit m n); done.
Qed.
Lemma lin_if_testbit n p : lin (fun x => if Z.testbit x n then p else 0).
Proof.
  intros x y. rewrite Z.lxor_spec.
  destruct (Z.testbit x n), (Z.testbit y n); simpl; rewrite ?Z.lxor_0_r, ?Z.lxor_0_l, ?Z.lxor_nilpotent; done.
Qed.
Lemma lin_iter f n : lin f -> lin (Nat.iter n f).
Proof.
  intros Hf. induction n as [|n IH]; simpl; [apply lin_id|].
  apply (lin_comp f); done.
Qed.
#[export] Hint Resolve lin_id lin_comp lin_lxor lin_shiftl lin_shiftr lin_land lin_if_testbit lin_iter : lin.

Lemma lin_basis f g (n : nat) :
  lin f -> lin g ->
  (forall i, (i < n)%nat -> f (2 ^ Z.of_nat i) = g (2 ^ Z.of_nat i)) ->
  forall x, 0 <= x < 2 ^ Z.of_nat n -> f x = g x.
Proof.
  intros Hf Hg. induction n as [|n IH]; intros Hb x Hx.
  - replace x with 0 by (simpl in Hx; lia). by rewrite !lin_0.
  - rewrite Nat2Z.inj_succ, Z.pow_succ_r in Hx by lia.
    set (r := x mod 2 ^ Z.of_nat n).
    assert (Hr : 0 <= r < 2 ^ Z.of_nat n) by (apply Z.mod_pos_bound; lia).
    assert (Hc : x = r \/ x = Z.lxor r (2 ^ Z.of_nat n)).
    { destruct (Z_lt_dec x (2 ^ Z.of_nat n)).
      - left. symmetry. apply Z.mod_small. lia.
      - right. assert (x = r + 2 ^ Z.of_nat n).
        { unfold r. rewrite (Z.mod_eq x (2 ^ Z.of_nat n)) by lia.
          replace (x / 2 ^ Z.of_nat n) with 1; [lia|].
          apply (Z.div_unique x _ 1 (x - 2 ^ Z.of_nat n)); lia. }
        rewrite H at 1. apply Z.add_nocarry_lxor.
        apply Z.bits_inj'. intros k Hk. rewrite Z.land_spec, Z.bits_0.
        destruct (Z.eq_dec k (Z.of_nat n)) as [->|].
        + rewrite <- (Z.mod_small r (2 ^ Z.of_nat n)) by lia.
          rewrite Z.mod_pow2_bits_high by lia. done.
        + rewrite Z.pow2_bits_false by lia. apply andb_false_r. }
    clearbody r.
    assert (IHr : f r = g r) by (apply IH; [intros; apply Hb; lia | done]).
    destruct Hc as [Hc|Hc]; rewrite Hc; [done|]. rewrite Hf, Hg, IHr, Hb by lia. done.
Qed.

(** Decide a statement about every natural below a literal bound. *)
Lemma below_forallb (n : nat) (p : nat -> bool) :
  forallb p (seq 0 n) = true -> forall i, (i < n)%nat -> p i = true.
Proof.
  intros H i Hi. rewrite forallb_forall in H. apply H. apply in_seq. lia.
Qed.
