(* ===== verification/PyBytes.v ===== *)
(** * The operations of Python's [bytes], [str] and [int] that the program uses

    Strings are lists of code points, bytes are lists of octets, both as [list Z]. [bfind],
    [rfind_byte], [startswith], [rstrip_of], [int(text, base)] with CPython's grammar
    (surrounding ASCII white space, sign, [0x] prefix in base 16, single underscores between
    digits) and the zero-padded formats [f"{v:0kX}"] and [str(v)]. *)

From Stdlib Require Import String Ascii.
From S2P Require Import Prelude.

(** A literal's code points. *)
Definition str (s : string) : bytes := map (fun a => Z.of_nat (nat_of_ascii a)) (list_ascii_of_string s).
Arguments str s%_string.

(** ** Searching *)

(** [s.startswith(p)]. *)
Fixpoint startswith (s p : bytes) {struct p} : bool :=
  match p, s with
  | [], _ => true
  | x :: p', y :: s' => (x =? y) && startswith s' p'
  | _ :: _, [] => false
  end.

(** [s.find(pat)]: the first offset at which [pat] occurs. *)
Fixpoint bfind (pat s : bytes) : option nat :=
  if startswith s pat then Some O
  else match s with
       | [] => None
       | _ :: r => S <$> bfind pat r
       end.

(** [s.rfind(b)] for one byte. *)
Fixpoint rfind_byte (b : Z) (s : bytes) : option nat :=
  match s with
  | [] => None
  | x :: r => match rfind_byte b r with
              | Some k => Some (S k)
              | None => if x =? b then Some O else None
              end
  end.

Definition mem_byte (b : Z) (cs : list Z) : bool := existsb (Z.eqb b) cs.

(** [s.lstrip(chars)] and [s.rstrip(chars)]. *)
Fixpoint lstrip_of (chars : list Z) (s : bytes) : bytes :=
  match s with
  | [] => []
  | x :: r => if mem_byte x chars then lstrip_of chars r else s
  end.
Definition rstrip_of (chars : list Z) (s : bytes) : bytes := rev (lstrip_of chars (rev s)).

Lemma startswith_app p s : startswith (p ++ s) p = true.
Proof. induction p as [|x p IH]; simpl; [done|]. by rewrite Z.eqb_refl. Qed.

Lemma startswith_spec s p : startswith s p = true <-> exists r, s = p ++ r.
Proof.
  revert s. induction p as [|x p IH]; intros s; simpl.
  - split; eauto.
  - destruct s as [|y s]; [split; [done|intros [r ?]; done]|].
    rewrite andb_true_iff, Z.eqb_eq, IH. split.
    + intros [-> [r ->]]. by exists r.
    + intros [r [= -> ->]]. split; eauto.
Qed.

Lemma startswith_app_mono s t p : startswith s p = true -> startswith (s ++ t) p = true.
Proof.
  rewrite !startswith_spec. intros [r ->]. exists (r ++ t). by rewrite app_assoc.
Qed.

Lemma startswith_long s t p :
  (length p <= length s)%nat -> startswith (s ++ t) p = startswith s p.
Proof.
  revert s. induction p as [|x p IH]; intros [|y s]; simpl; intros H; try done; [lia|].
  rewrite IH by lia. done.
Qed.

Lemma bfind_bound pat s k : bfind pat s = Some k -> (k + length pat <= length s)%nat.
Proof.
  revert k. induction s as [|x s IH]; intros k; simpl.
  - destruct pat; simpl; [intros [= <-]; lia|done].
  - destruct (startswith (x :: s) pat) eqn:E.
    + intros [= <-]. apply startswith_spec in E as [r E].
      apply (f_equal length) in E. rewrite length_app in E. simpl in *. lia.
    + destruct (bfind pat s) as [n|]; simpl; intros [= <-]. specialize (IH n eq_refl). lia.
Qed.

Lemma bfind_Some pat s k :
  bfind pat s = Some k -> startswith (drop k s) pat = true.
Proof.
  revert k. induction s as [|x s IH]; intros k; simpl.
  - destruct pat; simpl; [intros [= <-]; done|done].
  - destruct (startswith (x :: s) pat) eqn:E; [intros [= <-]; done|].
    destruct (bfind pat s) as [n|]; simpl; intros [= <-]. simpl. by apply IH.
Qed.

Lemma bfind_app_Some pat s t k : bfind pat s = Some k -> bfind pat (s ++ t) = Some k.
Proof.
  revert k. induction s as [|x s IH]; intros k; simpl.
  - destruct pat; simpl; [|done]. intros [= <-]. by destruct t.
  - destruct (startswith (x :: s) pat) eqn:E.
    + intros [= <-]. pose proof (startswith_app_mono _ t _ E) as E'. simpl in E'. by rewrite E'.
    + destruct (bfind pat s) as [n|] eqn:En; simpl; intros [= <-].
      rewrite (IH n eq_refl). destruct (startswith (x :: s ++ t) pat) eqn:E2; [|done].
      exfalso. apply bfind_bound in En.
      pose proof (startswith_long (x :: s) t pat ltac:(simpl; lia)) as L. simpl in L. congruence.
Qed.

Lemma bfind_None pat s k : bfind pat s = None -> startswith (drop k s) pat = false.
Proof.
  revert k. induction s as [|x l IH]; intros k Hn.
  - rewrite drop_nil. cbn [bfind] in Hn. by destruct (startswith [] pat).
  - cbn [bfind] in Hn. destruct (startswith (x :: l) pat) eqn:E; [done|].
    destruct (bfind pat l) eqn:El; [done|]. destruct k as [|k]; [done|]. by apply IH.
Qed.

Lemma rfind_byte_lt b s k : rfind_byte b s = Some k -> (k < length s)%nat /\ s.[k] = b.
Proof.
  revert k. induction s as [|x s IH]; intros k; simpl; [done|].
  destruct (rfind_byte b s) as [n|].
  - intros [= <-]. destruct (IH n eq_refl). split; [lia|done].
  - destruct (x =? b) eqn:E; [|done]. intros [= <-]. zbool. split; [lia|done].
Qed.

Lemma rfind_byte_app b s t :
  rfind_byte b t = None -> rfind_byte b (s ++ b :: t) = Some (length s).
Proof.
  intros H. induction s as [|x s IH]; simpl.
  - by rewrite H, Z.eqb_refl.
  - by rewrite IH.
Qed.

Lemma rfind_byte_last b s k i :
  rfind_byte b s = Some k -> (k < i < length s)%nat -> s.[i] <> b.
Proof.
  revert k i. induction s as [|x s IH]; intros k i; simpl; [done|].
  destruct (rfind_byte b s) as [n|] eqn:E.
  - intros [= <-] Hi. destruct i as [|i]; [lia|]. apply (IH n i eq_refl). lia.
  - destruct (x =? b); [|done]. intros [= <-] Hi. destruct i as [|i]; [lia|].
    intros Hb. assert (Hi' : (i < length s)%nat) by lia. clear - E Hb Hi'.
    revert i Hb Hi'. induction s as [|y s IH]; intros i Hb Hi; simpl in *; [lia|].
    destruct (rfind_byte b s); [done|]. destruct (y =? b) eqn:Ey; [done|].
    destruct i as [|i]; unfold at_ in Hb; simpl in Hb; [subst; by rewrite Z.eqb_refl in Ey|].
    apply (IH eq_refl i); [done|lia].
Qed.

Lemma bfind_take pat s k n :
  bfind pat s = Some k -> (k + length pat <= n)%nat -> bfind pat (take n s) = Some k.
Proof.
  intros Hk Hn. destruct (bfind pat (take n s)) as [j|] eqn:E.
  - pose proof (bfind_app_Some _ _ (drop n s) _ E) as Hj. rewrite take_drop in Hj. congruence.
  - exfalso. pose proof (bfind_Some _ _ _ Hk) as Hs. pose proof (bfind_bound _ _ _ Hk) as Hb.
    pose proof (bfind_None _ _ k E) as Hf.
    rewrite <- (take_drop n s), drop_app_le in Hs by (rewrite length_take; lia).
    rewrite startswith_long in Hs by (rewrite length_drop, length_take; lia). congruence.
Qed.

(** ** Digits *)

Definition digit_char (d : Z) : Z := if d <? 10 then 48 + d else 55 + d.

Definition digit_val (c : Z) : option Z :=
  if (48 <=? c) && (c <=? 57) then Some (c - 48)
  else if (65 <=? c) && (c <=? 90) then Some (c - 55)
  else if (97 <=? c) && (c <=? 122) then Some (c - 87)
  else None.

Definition is_digit (base c : Z) : option Z :=
  match digit_val c with
  | Some d => if d <? base then Some d else None
  | None => None
  end.

(** The digit run of [int()]: the value, whether a digit was read and the rest, [None] on two
    underscores in a row or a trailing one. *)
Fixpoint scan_digits (base : Z) (acc : Z) (seen prev_us : bool) (s : bytes)
  : option (Z * bool * bytes) :=
  match s with
  | [] => if prev_us then None else Some (acc, seen, [])
  | c :: r =>
      if c =? 95 then (if prev_us then None else scan_digits base acc seen true r)
      else match is_digit base c with
           | Some d => scan_digits base (acc * base + d) true false r
           | None => if prev_us then None else Some (acc, seen, s)
           end
  end.

Definition ascii_space : list Z := [9; 10; 11; 12; 13; 32].

(** [int(text, base)] for [base] 10 or 16; [None] is [ValueError]. *)
Definition py_int (base : Z) (text : bytes) : option Z :=
  let s := lstrip_of ascii_space text in
  let '(neg, s) := match s with
                   | 43 :: r => (false, r)
                   | 45 :: r => (true, r)
                   | _ => (false, s)
                   end in
  let s := match s with
           | 48 :: x :: r =>
               if (base =? 16) && mem_byte x [120; 88]
               then match r with 95 :: r' => r' | _ => r end
               else s
           | _ => s
           end in
  match s with
  | 95 :: _ => None
  | _ => match scan_digits base 0 false false s with
         | Some (v, true, rest) =>
             match lstrip_of ascii_space rest with
             | [] => Some (if neg : bool then - v else v)
             | _ => None
             end
         | _ => None
         end
  end.

(** Exactly [k] big-endian digits of [v]. *)
Fixpoint fixed_digits (base : Z) (k : nat) (v : Z) : bytes :=
  match k with
  | O => []
  | S k => fixed_digits base k (v / base) ++ [digit_char (v mod base)]
  end.

(** The shortest digit string of [v >= 0]. *)
Fixpoint min_digits_fuel (base : Z) (fuel : nat) (v : Z) : bytes :=
  match fuel with
  | O => []
  | S f => if v <? base then [digit_char v]
           else min_digits_fuel base f (v / base) ++ [digit_char (v mod base)]
  end.
Definition min_digits (base v : Z) : bytes := min_digits_fuel base (S (Z.to_nat (Z.log2 v))) v.

(** [f"{v:0kX}"] and [f"{v:0kd}"]: [v >= 0] padded with zeros to at least [k] digits. *)
Definition fmt_digits (base : Z) (k : nat) (v : Z) : bytes :=
  let d := min_digits base v in replicate (k - length d) 48 ++ d.

(** [str(v)]. *)
Definition str_int (v : Z) : bytes :=
  if v <? 0 then 45 :: min_digits 10 (- v) else min_digits 10 v.

Definition base_ok (base : Z) : Prop := base = 10 \/ base = 16.

Lemma is_digit_char base d : base_ok base -> 0 <= d < base -> is_digit base (digit_char d) = Some d.
Proof.
  intros Hb Hd. unfold is_digit, digit_val, digit_char.
  destruct Hb as [-> | ->]; destruct (d <? 10) eqn:E; zbool;
    repeat (break; zbool); try lia; f_equal; lia.
Qed.

Lemma digit_char_ascii d :
  0 <= d < 16 -> 48 <= digit_char d <= 57 \/ 65 <= digit_char d <= 70.
Proof. intros. unfold digit_char. destruct (d <? 10) eqn:E; zbool; lia. Qed.

Lemma length_fixed_digits base k v : length (fixed_digits base k v) = k.
Proof. revert v. induction k; intros; simpl; [done|]. rewrite length_app, IHk. simpl. lia. Qed.
#[export] Hint Rewrite length_fixed_digits : len.

(** A character [scan_digits] stops at. *)
Definition non_digit (base c : Z) : Prop := c <> 95 /\ is_digit base c = None.

Lemma is_digit_not_us base c d : is_digit base c = Some d -> c <> 95.
Proof. unfold is_digit, digit_val. intros H ->. simpl in H. done. Qed.

Lemma scan_fixed base k v acc rest seen :
  base_ok base -> 0 <= v < base ^ Z.of_nat k ->
  scan_digits base acc seen false (fixed_digits base k v ++ rest)
  = scan_digits base (acc * base ^ Z.of_nat k + v) (seen || (0 <? k)%nat) false rest.
Proof.
  intros Hb. revert v acc rest seen. induction k as [|k IH]; intros v acc rest seen Hv.
  - simpl in *. replace v with 0 by lia. rewrite orb_false_r. f_equal. lia.
  - assert (0 < base) by (destruct Hb; lia).
    rewrite Nat2Z.inj_succ, Z.pow_succ_r in Hv by lia.
    simpl fixed_digits. rewrite <- app_assoc.
    rewrite IH by (split; [apply Z.div_pos; lia | apply Z.div_lt_upper_bound; lia]).
    pose proof (Z.mod_pos_bound v base ltac:(lia)) as Hm.
    simpl app. cbn [scan_digits].
    pose proof (is_digit_char base _ Hb Hm) as Hd.
    rewrite (proj2 (Z.eqb_neq _ 95)) by (by eapply is_digit_not_us).
    rewrite Hd. rewrite Nat2Z.inj_succ, Z.pow_succ_r by lia. rewrite orb_true_r.
    f_equal. pose proof (Z.div_mod v base ltac:(lia)). nia.
Qed.

Lemma fixed_digits_head base k v :
  base_ok base -> 0 <= v ->
  exists d r, fixed_digits base (S k) v = digit_char d :: r /\ 0 <= d < base
              /\ (k = O -> r = []) /\
              (forall x r', r = x :: r' -> exists e, x = digit_char e /\ 0 <= e < base).
Proof.
  intros Hb. revert v. induction k as [|k IH]; intros v Hv.
  - exists (v mod base), []. simpl. split_and!; try done.
    all: destruct Hb; subst; apply Z.mod_pos_bound; lia.
  - assert (0 < base) by (destruct Hb; lia).
    destruct (IH (v / base)) as (d & r & E & Hd & H0 & Hr); [apply Z.div_pos; lia|].
    change (fixed_digits base (S (S k)) v) with
      (fixed_digits base (S k) (v / base) ++ [digit_char (v mod base)]).
    rewrite E. exists d, (r ++ [digit_char (v mod base)]). split_and!; try done; try lia.
    intros x r' Er. destruct r as [|y r]; simpl in Er.
    + injection Er as <- _. exists (v mod base). split; [done|]. apply Z.mod_pos_bound. lia.
    + injection Er as <- _. eauto.
Qed.

Lemma lstrip_of_no chars c r : mem_byte c chars = false -> lstrip_of chars (c :: r) = c :: r.
Proof. intros H. simpl. by rewrite H. Qed.

Lemma digit_char_not_space d : 0 <= d < 16 -> mem_byte (digit_char d) ascii_space = false.
Proof.
  intros H. pose proof (digit_char_ascii d H). unfold mem_byte, ascii_space. simpl.
  rewrite !(proj2 (Z.eqb_neq _ _)) by lia. done.
Qed.

Lemma digit_char_not_x d : 0 <= d < 16 -> mem_byte (digit_char d) [120; 88] = false.
Proof.
  intros H. pose proof (digit_char_ascii d H). unfold mem_byte. simpl.
  rewrite !(proj2 (Z.eqb_neq _ _)) by lia. done.
Qed.

(** [py_int] on text that starts with a digit and has no [0x] prefix. *)
Lemma py_int_plain base d r :
  base_ok base -> 0 <= d < base ->
  (forall x r', r = x :: r' -> mem_byte x [120; 88] = false) ->
  py_int base (digit_char d :: r)
  = match scan_digits base 0 false false (digit_char d :: r) with
    | Some (v, true, rest) => match lstrip_of ascii_space rest with [] => Some v | _ => None end
    | _ => None
    end.
Proof.
  intros Hb Hd Hx. assert (0 <= d < 16) by (destruct Hb; lia).
  unfold py_int. rewrite lstrip_of_no by (by apply digit_char_not_space).
  pose proof (digit_char_ascii d ltac:(lia)) as Ha.
  set (c := digit_char d) in *. clearbody c.
  set (scan := scan_digits base 0 false false). clearbody scan.
  assert (Hc : c = 48 \/ (c <> 48 /\ c <> 43 /\ c <> 45 /\ c <> 95)) by lia.
  destruct Hc as [->|(H1 & H2 & H3 & H4)].
  - destruct r as [|x r']; [done|]. rewrite (Hx x r' eq_refl), andb_false_r. done.
  - destruct c as [|p|p]; try lia.
    do 7 (destruct p as [p|p|]; try lia; try done).
Qed.

(** [int(f"{v:0kX}", 16) == v], and the same in base 10. *)
Lemma py_int_fixed base k v :
  base_ok base -> (0 < k)%nat -> 0 <= v < base ^ Z.of_nat k ->
  py_int base (fixed_digits base k v) = Some v.
Proof.
  intros Hb Hk Hv. destruct k as [|k]; [lia|].
  destruct (fixed_digits_head base k v Hb ltac:(lia)) as (d & r & E & Hd & _ & Hr).
  assert (Hb16 : base <= 16) by (destruct Hb; lia).
  rewrite E, py_int_plain; [|done|done|].
  - rewrite <- E. rewrite <- (app_nil_r (fixed_digits _ _ _)).
    rewrite scan_fixed by done. simpl. done.
  - intros x r' ->. destruct (Hr x r' eq_refl) as (e & -> & He).
    apply digit_char_not_x. lia.
Qed.

Lemma min_digits_fuel_fixed base fuel v :
  base_ok base -> (0 < fuel)%nat -> 0 <= v < 2 ^ Z.of_nat fuel ->
  exists k, (0 < k)%nat /\ min_digits_fuel base fuel v = fixed_digits base k v
            /\ v < base ^ Z.of_nat k /\ (k = 1%nat \/ base ^ (Z.of_nat k - 1) <= v).
Proof.
  intros Hb. revert v. induction fuel as [|f IH]; intros v Hf Hv; [lia|].
  assert (10 <= base) by (destruct Hb; lia).
  cbn [min_digits_fuel]. destruct (v <? base) eqn:E; zbool.
  - exists 1%nat. cbn [fixed_digits]. rewrite Z.mod_small by lia.
    split_and!; [lia|done|lia|by left].
  - rewrite Nat2Z.inj_succ, Z.pow_succ_r in Hv by lia.
    destruct f as [|f]; [simpl in Hv; lia|].
    destruct (IH (v / base)) as (k & Hk & Ek & Hlt & Hmin); [lia| |].
    { split; [apply Z.div_pos; lia | apply Z.div_lt_upper_bound; nia]. }
    exists (S k). rewrite Ek. split_and!; [lia|done| |right].
    + rewrite Nat2Z.inj_succ, Z.pow_succ_r by lia.
      pose proof (Z.div_mod v base). pose proof (Z.mod_pos_bound v base). nia.
    + rewrite Nat2Z.inj_succ. replace (Z.succ (Z.of_nat k) - 1) with (Z.succ (Z.of_nat k - 1)) by lia.
      rewrite Z.pow_succ_r by lia.
      pose proof (Z.div_mod v base ltac:(lia)). pose proof (Z.mod_pos_bound v base ltac:(lia)).
      destruct Hmin as [->|Hmin].
      * change (Z.of_nat 1 - 1) with 0. rewrite Z.pow_0_r. lia.
      * nia.
Qed.

Lemma min_digits_fixed base v :
  base_ok base -> 0 <= v ->
  exists k, (0 < k)%nat /\ min_digits base v = fixed_digits base k v
            /\ v < base ^ Z.of_nat k /\ (k = 1%nat \/ base ^ (Z.of_nat k - 1) <= v).
Proof.
  intros Hb Hv. apply min_digits_fuel_fixed; [done|lia|]. split; [done|].
  rewrite Nat2Z.inj_succ, Z2Nat.id by apply Z.log2_nonneg.
  destruct (Z.eq_dec v 0) as [->|]; [done|]. apply Z.log2_spec. lia.
Qed.

Lemma fixed_digits_pad base j k v :
  base_ok base -> 0 <= v < base ^ Z.of_nat k ->
  fixed_digits base (j + k) v = replicate j 48 ++ fixed_digits base k v.
Proof.
  intros Hb. assert (0 < base) by (destruct Hb; lia).
  revert v. induction k as [|k IH]; intros v Hv.
  - simpl in Hv. replace v with 0 by lia. rewrite Nat.add_0_r, app_nil_r. clear Hv v.
    induction j as [|j IHj]; simpl; [done|].
    rewrite Z.div_0_l, Z.mod_0_l, IHj by lia.
    change (digit_char 0) with 48. symmetry. change (48 :: replicate j 48) with (replicate (S j) 48).
    by rewrite replicate_S_end.
  - rewrite Nat2Z.inj_succ, Z.pow_succ_r in Hv by lia.
    rewrite Nat.add_succ_r. cbn [fixed_digits].
    rewrite IH by (split; [apply Z.div_pos; lia | apply Z.div_lt_upper_bound; lia]).
    by rewrite app_assoc.
Qed.

Lemma fmt_digits_fixed base k v :
  base_ok base -> (0 < k)%nat -> 0 <= v < base ^ Z.of_nat k ->
  fmt_digits base k v = fixed_digits base k v.
Proof.
  intros Hb Hk Hv. destruct (min_digits_fixed base v Hb ltac:(lia)) as (m & Hm & E & Hlt & Hmin).
  assert (1 < base) by (destruct Hb; lia).
  unfold fmt_digits. rewrite E, length_fixed_digits.
  assert (m <= k)%nat.
  { destruct Hmin as [->|Hmin]; [lia|]. assert (Z.of_nat m - 1 < Z.of_nat k); [|lia].
    apply (Z.pow_lt_mono_r_iff base); lia. }
  rewrite <- fixed_digits_pad by (done || lia). f_equal. lia.
Qed.

Lemma py_int_min_digits base v : base_ok base -> 0 <= v -> py_int base (min_digits base v) = Some v.
Proof.
  intros Hb Hv. destruct (min_digits_fixed base v Hb Hv) as (m & Hm & -> & Hlt & _).
  by apply py_int_fixed.
Qed.

Lemma fmt_digits_width base k v :
  base_ok base -> 0 <= v -> (k <= length (fmt_digits base k v))%nat.
Proof. intros. unfold fmt_digits. rewrite length_app, length_replicate. lia. Qed.

(** Every character of a digit string is a digit: no separator, sign or white space. *)
Lemma fixed_digits_chars base k v (P : Z -> Prop) :
  base_ok base -> (forall d, 0 <= d < base -> P (digit_char d)) ->
  Forall P (fixed_digits base k v).
Proof.
  intros Hb HP. revert v. induction k as [|k IH]; intros v; simpl; [constructor|].
  apply Forall_app_2; [apply IH|]. apply Forall_singleton, HP.
  destruct Hb; subst; apply Z.mod_pos_bound; lia.
Qed.

Lemma min_digits_chars base v (P : Z -> Prop) :
  base_ok base -> 0 <= v -> (forall d, 0 <= d < base -> P (digit_char d)) ->
  Forall P (min_digits base v).
Proof.
  intros Hb Hv HP. destruct (min_digits_fixed base v Hb Hv) as (m & _ & -> & _).
  by apply fixed_digits_chars.
Qed.

Lemma rstrip_of_id chars s c :
  mem_byte c chars = false -> rstrip_of chars (s ++ [c]) = s ++ [c].
Proof.
  intros H. unfold rstrip_of. rewrite rev_app_distr. simpl rev at 2. cbn [app].
  rewrite lstrip_of_no by done. change (c :: rev s) with (rev [c] ++ rev s).
  rewrite <- rev_app_distr, rev_involutive. done.
Qed.

Lemma rstrip_of_app chars s t :
  Forall (fun c => mem_byte c chars = true) t -> rstrip_of chars (s ++ t) = rstrip_of chars s.
Proof.
  intros H. unfold rstrip_of. rewrite rev_app_distr. f_equal.
  assert (Forall (fun c => mem_byte c chars = true) (rev t)) as H'.
  { by apply Forall_rev. }
  induction H' as [|c r Hc Hr IH]; simpl; [done|]. by rewrite Hc.
Qed.

Definition ascii_digit (c : Z) : bool := (48 <=? c) && (c <=? 57).

(** A zero-padded decimal field of [k] digits: its width, its characters, and reading it back. *)
Lemma fmt_digits_field k v :
  (0 < k)%nat -> 0 <= v < 10 ^ Z.of_nat k ->
  length (fmt_digits 10 k v) = k /\ forallb ascii_digit (fmt_digits 10 k v) = true
  /\ py_int 10 (fmt_digits 10 k v) = Some v.
Proof.
  intros Hk Hv. assert (Hb : base_ok 10) by by left. rewrite fmt_digits_fixed by done.
  split_and!; [apply length_fixed_digits| |by apply py_int_fixed].
  apply forallb_forall. intros x Hx.
  pose proof (fixed_digits_chars 10 k v (fun c => ascii_digit c = true) Hb) as H.
  rewrite List.Forall_forall in H. apply H; [|done]. intros d Hd. unfold ascii_digit, digit_char.
  rewrite (proj2 (Z.ltb_lt _ _)) by lia. rewrite !(proj2 (Z.leb_le _ _)) by lia. done.
Qed.

(** [str.rpartition]-like: the part after the last separator ([PurePath.name]). *)
Definition after_last (sep : Z) (s : bytes) : bytes :=
  match rfind_byte sep s with Some k => drop (S k) s | None => s end.

Lemma after_last_app sep a b : rfind_byte sep b = None -> after_last sep (a ++ sep :: b) = b.
Proof.
  intros H. unfold after_last. rewrite rfind_byte_app by done.
  rewrite drop_app_ge by lia. replace (S (length a) - length a)%nat with 1%nat by lia. done.
Qed.

Lemma rfind_byte_none b s : forallb (fun c => negb (c =? b)) s = true -> rfind_byte b s = None.
Proof.
  induction s as [|c s IH]; [done|]. cbn [forallb rfind_byte]. intros H. zbool. rewrite IH by done.
  by rewrite (proj2 (Z.eqb_neq _ _)).
Qed.
