(* ===== verification/PyText.v ===== *)
(** * Python text: white space ([str.isspace], [str.strip])

    Text is a list of code points. *)

From S2P Require Import Prelude.
From S2P Require Import PyBytes.

Definition is_space (c : Z) : bool :=
  ((9 <=? c) && (c <=? 13)) || ((28 <=? c) && (c <=? 32)) || ((8192 <=? c) && (c <=? 8202))
  || mem_byte c [133; 160; 5760; 8232; 8233; 8239; 8287; 12288].

(** [str.lstrip()], [rstrip()], [strip()]. *)
Fixpoint drop_while (p : Z -> bool) (s : bytes) : bytes :=
  match s with [] => [] | c :: r => if p c then drop_while p r else s end.
Fixpoint take_while (p : Z -> bool) (s : bytes) : bytes :=
  match s with [] => [] | c :: r => if p c then c :: take_while p r else [] end.
Definition rstrip (s : bytes) : bytes := rev (drop_while is_space (rev s)).
Definition strip (s : bytes) : bytes := rstrip (drop_while is_space s).
