(* ===== verification/PyFloat.v ===== *)
(** * Python floats: IEEE 754 doubles as 64-bit patterns

    A float is the bit pattern of its double. The module gives the conversions that
    [struct] makes between doubles and singles, correctly rounded arithmetic where the code
    uses it ([+], [*], [/], the modulo of a float), and the rounding of a decimal. *)

From S2P Require Import Prelude.

(** ** Formats *)

(** What a pattern of a binary format with [p] bits of precision and [w] of exponent
    denotes: [m * 2^e], an infinity, or a NaN with its payload. *)
Inductive FVal := FFin (neg : bool) (m e : Z) | FInf (neg : bool) | FNan (neg : bool) (payload : Z).

Definition emin (p w : Z) : Z := 3 - 2 ^ (w - 1) - p.
Definition inf_bits (p w : Z) : Z := (2 ^ w - 1) * 2 ^ (p - 1).
Definition sign_bits (p w : Z) (neg : bool) : Z := if neg then 2 ^ (p - 1 + w) else 0.

Definition fval (p w b : Z) : FVal :=
  let neg := 2 ^ (p - 1 + w) <=? b in
  let E := (b / 2 ^ (p - 1)) mod 2 ^ w in
  let M := b mod 2 ^ (p - 1) in
  if E =? 2 ^ w - 1 then if M =? 0 then FInf neg else FNan neg M
  else if E =? 0 then FFin neg M (emin p w)
  else FFin neg (M + 2 ^ (p - 1)) (emin p w + E - 1).

(** [n / d] to the nearest integer, ties to even. *)
Definition rne (n d : Z) : Z :=
  let q := n / d in
  let r := n mod d in
  if 2 * r <? d then q else if d <? 2 * r then q + 1 else if Z.even q then q else q + 1.

Definition pow2 (e : Z) : Z := 2 ^ Z.max 0 e.

(** The exponent of the leading bit of [n / d]. *)
Definition ratio_log2 (n d : Z) : Z :=
  let l := Z.log2 n - Z.log2 d in
  if d * pow2 l <=? n * pow2 (- l) then l else l - 1.

(** The magnitude bits of [n / d], for positive [n] and [d], correctly rounded: subnormals
    and the carry into the next exponent come out of the same sum. *)
Definition round_ratio (p w n d : Z) : Z :=
  let e := Z.max (emin p w) (ratio_log2 n d + 1 - p) in
  (e - emin p w) * 2 ^ (p - 1) + rne (n * pow2 (- e)) (d * pow2 e).

Definition round_dyadic (p w m e : Z) : Z :=
  if m =? 0 then 0 else round_ratio p w (m * pow2 e) (pow2 (- e)).

(** ** Doubles and singles *)

Definition f64 (b : Z) : FVal := fval 53 11 b.
Definition f32 (b : Z) : FVal := fval 24 8 b.
Definition INF64 : Z := Eval vm_compute in inf_bits 53 11.
Definition INF32 : Z := Eval vm_compute in inf_bits 24 8.
Definition sign64 (neg : bool) : Z := if neg then 2 ^ 63 else 0.
Definition sign32 (neg : bool) : Z := if neg then 2 ^ 31 else 0.

(** A rounded magnitude as a double: overflow is an infinity. *)
Definition double (neg : bool) (mag : Z) : Z := sign64 neg + Z.min mag INF64.
Definition nan64 : Z := INF64 + 2 ^ 51.

(** [struct.unpack("<f")]: a single as a double. *)
Definition widen (b : Z) : Z :=
  match f32 b with
  | FFin neg m e => double neg (round_dyadic 53 11 m e)
  | FInf neg => sign64 neg + INF64
  | FNan neg payload => sign64 neg + INF64 + Z.lor (2 ^ 51) (payload * 2 ^ 29)
  end.

(** [struct.pack("<f")]: the nearest single; [None] is the [OverflowError]. *)
Definition narrow (x : Z) : option Z :=
  match f64 x with
  | FFin neg m e =>
      let r := round_dyadic 24 8 m e in
      if INF32 <=? r then None else Some (sign32 neg + r)
  | FInf neg => Some (sign32 neg + INF32)
  | FNan neg payload => Some (sign32 neg + INF32 + Z.lor (2 ^ 22) (payload / 2 ^ 29))
  end.

(** ** Arithmetic *)

Definition signed (neg : bool) (m : Z) : Z := if neg then - m else m.

(** A signed dyadic as a double; a zero result is positive unless [neg0]. *)
Definition of_dyadic (neg0 : bool) (v e : Z) : Z :=
  if v =? 0 then sign64 neg0 else double (v <? 0) (round_dyadic 53 11 (Z.abs v) e).

Definition fadd (x y : Z) : Z :=
  match f64 x, f64 y with
  | FFin nx mx ex, FFin ny my ey =>
      let e := Z.min ex ey in
      of_dyadic (nx && ny) (signed nx mx * 2 ^ (ex - e) + signed ny my * 2 ^ (ey - e)) e
  | FInf nx, FInf ny => if Bool.eqb nx ny then x else nan64
  | FInf _, FFin _ _ _ => x
  | FFin _ _ _, FInf _ => y
  | FNan _ _, _ => x
  | _, FNan _ _ => y
  end.

Definition fmul (x y : Z) : Z :=
  match f64 x, f64 y with
  | FFin nx mx ex, FFin ny my ey => of_dyadic (xorb nx ny) (signed nx mx * signed ny my) (ex + ey)
  | FNan _ _, _ => x
  | _, FNan _ _ => y
  | FInf nx, FFin ny my _ => if my =? 0 then nan64 else sign64 (xorb nx ny) + INF64
  | FFin nx mx _, FInf ny => if mx =? 0 then nan64 else sign64 (xorb nx ny) + INF64
  | FInf nx, FInf ny => sign64 (xorb nx ny) + INF64
  end.

(** An [int] over a positive [int] ([i / j] of Python, correctly rounded). *)
Definition fdiv_int (i j : Z) : Z :=
  if i =? 0 then 0 else double (i <? 0) (round_ratio 53 11 (Z.abs i) j).

(** A float over a positive integer that is a double ([x / j] of Python). *)
Definition fdiv_pos (x j : Z) : Z :=
  match f64 x with
  | FFin neg m e => if m =? 0 then sign64 neg else double neg (round_ratio 53 11 (m * pow2 e) (j * pow2 (- e)))
  | _ => x
  end.

(** [x % y] for a positive finite [y]: [fmod], moved into the range of [y]'s sign, the move
    being a rounded addition; a zero is positive. *)
Definition fmod_pos (x y : Z) : Z :=
  match f64 x, f64 y with
  | FFin nx mx ex, FFin _ my ey =>
      let e := Z.min ex ey in
      let r := Z.rem (signed nx mx * 2 ^ (ex - e)) (my * 2 ^ (ey - e)) in
      if r <? 0 then of_dyadic false (r + my * 2 ^ (ey - e)) e else of_dyadic false r e
  | FInf _, _ => nan64
  | _, _ => x
  end.

(** [x >= y] on floats. *)
Definition fge (x y : Z) : bool :=
  match f64 x, f64 y with
  | FFin nx mx ex, FFin ny my ey =>
      let e := Z.min ex ey in signed ny my * 2 ^ (ey - e) <=? signed nx mx * 2 ^ (ex - e)
  | FInf nx, FInf ny => negb nx || ny
  | FInf nx, FFin _ _ _ => negb nx
  | FFin _ _ _, FInf ny => ny
  | _, _ => false
  end.

(** The double of a small integer, and of a decimal [d * 10^k]. *)
Definition of_int (i : Z) : Z := of_dyadic false i 0.
Definition of_decimal (neg : bool) (d k : Z) : Z :=
  if d =? 0 then sign64 neg
  else double neg (round_ratio 53 11 (d * 10 ^ Z.max 0 k) (10 ^ Z.max 0 (- k))).

(** [x:.{digits}g] as the decimal it prints: [digits] significant digits [d] and the power
    [k] of ten they are scaled by. *)
Definition sig_digits (digits m e : Z) : Z * Z :=
  let n := m * pow2 e in
  let d := pow2 (- e) in
  let at_scale k := rne (n * 10 ^ Z.max 0 (- k)) (d * 10 ^ Z.max 0 k) in
  let fits k :=
    (10 ^ (digits - 1) * (d * 10 ^ Z.max 0 k) <=? n * 10 ^ Z.max 0 (- k))
    && (n * 10 ^ Z.max 0 (- k) <? 10 ^ digits * (d * 10 ^ Z.max 0 k)) in
  let guess := (ratio_log2 n d * 30103) / 100000 - digits + 1 in
  let k := if fits guess then guess else if fits (guess + 1) then guess + 1 else guess - 1 in
  (at_scale k, k).

(** ** Exact conversions *)

Lemma rne_exact q d : 0 < d -> rne (q * d) d = q.
Proof.
  intros Hd. unfold rne. rewrite Z.div_mul, Z.mod_mul by lia. rewrite Z.mul_0_r.
  destruct (0 <? d) eqn:E; [done|]. zbool. lia.
Qed.

Lemma pow2_pos e : 0 < pow2 e.
Proof. unfold pow2. apply Z.pow_pos_nonneg; lia. Qed.

Lemma pow2_add a b : pow2 a * pow2 b = 2 ^ (Z.max 0 a + Z.max 0 b).
Proof. unfold pow2. rewrite <- Z.pow_add_r by lia. done. Qed.

Lemma ratio_log2_dyadic m e : 0 < m -> ratio_log2 (m * pow2 e) (pow2 (- e)) = Z.log2 m + e.
Proof.
  intros Hm. unfold ratio_log2. cbv zeta.
  assert (E1 : Z.log2 (m * pow2 e) = Z.log2 m + Z.max 0 e) by (unfold pow2; rewrite Z.log2_mul_pow2; lia).
  assert (E2 : Z.log2 (pow2 (- e)) = Z.max 0 (- e)) by (unfold pow2; apply Z.log2_pow2; lia).
  rewrite E1, E2. clear E1 E2. assert (El : Z.log2 m + Z.max 0 e - Z.max 0 (- e) = Z.log2 m + e) by lia. rewrite El. clear El.
  set (l := Z.log2 m + e).
  assert (H : pow2 (- e) * pow2 l <= m * pow2 e * pow2 (- l)); [|destruct (_ <=? _) eqn:E; [done|zbool; lia]].
  rewrite <- Z.mul_assoc, !pow2_add. pose proof (Z.log2_spec m Hm) as [Hl _]. pose proof (Z.log2_nonneg m).
  replace (Z.max 0 (- e) + Z.max 0 l) with (Z.log2 m + (Z.max 0 e + Z.max 0 (- l))) by lia.
  rewrite Z.pow_add_r by lia. apply Z.mul_le_mono_nonneg_r; [|done]. apply Z.pow_nonneg. lia.
Qed.

(** A dyadic that has a representation [q] at the exponent of the format is rounded to it. *)
Lemma round_dyadic_exact p w m e q :
  0 < m ->
  let e' := Z.max (emin p w) (Z.log2 m + e + 1 - p) in
  m * 2 ^ (e - Z.min e e') = q * 2 ^ (e' - Z.min e e') ->
  round_dyadic p w m e = (e' - emin p w) * 2 ^ (p - 1) + q.
Proof.
  intros Hm e' H. unfold round_dyadic. destruct (m =? 0) eqn:E0; [zbool; lia|]. clear E0.
  unfold round_ratio. rewrite ratio_log2_dyadic by done. fold e'. f_equal.
  rewrite <- Z.mul_assoc, !pow2_add. set (t := Z.min e e') in *.
  set (c := Z.max 0 (- e) + Z.max 0 (- e') + t).
  replace (Z.max 0 e + Z.max 0 (- e')) with ((e - t) + c) by lia.
  replace (Z.max 0 (- e) + Z.max 0 e') with ((e' - t) + c) by lia.
  rewrite !Z.pow_add_r by lia. rewrite Z.mul_assoc, H, <- Z.mul_assoc.
  apply rne_exact. apply Z.mul_pos_pos; apply Z.pow_pos_nonneg; lia.
Qed.

(** The fields of a pattern. *)
Lemma fval_fields p w neg E M :
  0 < p -> 0 < w -> 0 <= E < 2 ^ w -> 0 <= M < 2 ^ (p - 1) ->
  fval p w (sign_bits p w neg + (E * 2 ^ (p - 1) + M)) =
    if E =? 2 ^ w - 1 then if M =? 0 then FInf neg else FNan neg M
    else if E =? 0 then FFin neg M (emin p w) else FFin neg (M + 2 ^ (p - 1)) (emin p w + E - 1).
Proof.
  intros Hp Hw HE HM. unfold fval. set (P := 2 ^ (p - 1)) in *. set (W := 2 ^ w) in *.
  assert (HPW : 2 ^ (p - 1 + w) = W * P) by (unfold W, P; rewrite <- Z.pow_add_r by lia; f_equal; lia).
  unfold sign_bits. rewrite HPW. assert (HP : 0 < P) by (apply Z.pow_pos_nonneg; lia).
  assert (HW : 0 < W) by (apply Z.pow_pos_nonneg; lia).
  assert (Hlow : 0 <= E * P + M < W * P) by nia.
  set (s := if neg then W * P else 0).
  assert (Hneg : (W * P <=? s + (E * P + M)) = neg) by (subst s; destruct neg; [apply Z.leb_le|apply Z.leb_gt]; lia).
  assert (HEq : (s + (E * P + M)) / P mod W = E).
  { assert (Hs : s + (E * P + M) = ((if neg then W else 0) + E) * P + M) by (subst s; destruct neg; lia).
    rewrite Hs, Z.div_add_l, Z.div_small, Z.add_0_r by lia. destruct neg.
    - replace (W + E) with (E + 1 * W) by lia. rewrite Z.mod_add by lia. by apply Z.mod_small.
    - rewrite Z.add_0_l. by apply Z.mod_small. }
  assert (HMq : (s + (E * P + M)) mod P = M).
  { assert (Hs : s + (E * P + M) = M + ((if neg then W else 0) + E) * P) by (subst s; destruct neg; lia).
    rewrite Hs, Z.mod_add by lia. by apply Z.mod_small. }
  by rewrite Hneg, HEq, HMq.
Qed.

Lemma pattern_fields p w b : 0 < p -> 0 < w -> 0 <= b < 2 ^ (p + w) ->
  exists neg E M, b = sign_bits p w neg + (E * 2 ^ (p - 1) + M) /\ 0 <= E < 2 ^ w /\ 0 <= M < 2 ^ (p - 1).
Proof.
  intros Hp Hw Hb. set (P := 2 ^ (p - 1)). set (W := 2 ^ w).
  assert (HPW : 2 ^ (p - 1 + w) = W * P) by (unfold W, P; rewrite <- Z.pow_add_r by lia; f_equal; lia).
  assert (HT : 2 ^ (p + w) = 2 * (W * P)).
  { rewrite <- HPW. replace (p + w) with (1 + (p - 1 + w)) by lia. rewrite Z.pow_add_r by lia. done. }
  assert (HP : 0 < P) by (apply Z.pow_pos_nonneg; lia). assert (HW : 0 < W) by (apply Z.pow_pos_nonneg; lia).
  set (c := b mod (W * P)).
  assert (Hc : 0 <= c < W * P) by (apply Z.mod_pos_bound; nia).
  exists (W * P <=? b), (c / P), (c mod P). unfold sign_bits. rewrite HPW. split; [|split].
  - rewrite (Z.mul_comm (c / P)), <- Z.div_mod by lia. subst c.
    destruct (W * P <=? b) eqn:E; zbool.
    + rewrite <- (Z.mod_unique b (W * P) 1 (b - W * P)) by lia. lia.
    + rewrite Z.mod_small by lia. lia.
  - split; [apply Z.div_pos; lia|]. apply Z.div_lt_upper_bound; lia.
  - apply Z.mod_pos_bound. lia.
Qed.

(** A normalised value, as a pattern. *)
Lemma fval_normal p w neg k q :
  0 < p -> 0 < w -> 0 <= k -> k + 1 < 2 ^ w - 1 -> 2 ^ (p - 1) <= q < 2 ^ p ->
  fval p w (sign_bits p w neg + (k * 2 ^ (p - 1) + q)) = FFin neg q (emin p w + k).
Proof.
  intros Hp Hw Hk Hk2 Hq. assert (H2 : 2 ^ p = 2 * 2 ^ (p - 1)) by (rewrite <- Z.pow_succ_r by lia; f_equal; lia).
  replace (k * 2 ^ (p - 1) + q) with ((k + 1) * 2 ^ (p - 1) + (q - 2 ^ (p - 1))) by lia.
  rewrite fval_fields by lia.
  destruct (k + 1 =? 2 ^ w - 1) eqn:E1; zbool; [lia|]. destruct (k + 1 =? 0) eqn:E2; zbool; [lia|].
  f_equal; lia.
Qed.

(** ** A single read as a double and written back is the same single *)

Definition is_nan32 (b : Z) : bool := match f32 b with FNan _ _ => true | _ => false end.

Lemma widen_finite neg m e :
  0 < m < 2 ^ 24 -> -149 <= e <= 104 ->
  f64 (double neg (round_dyadic 53 11 m e)) = FFin neg (m * 2 ^ (52 - Z.log2 m)) (e - (52 - Z.log2 m)).
Proof.
  intros Hm He. pose proof (Z.log2_nonneg m). pose proof (Z.log2_spec m ltac:(lia)) as [Hl1 Hl2].
  assert (Hl : Z.log2 m < 24) by (apply Z.log2_lt_pow2; lia).
  assert (He' : Z.max (emin 53 11) (Z.log2 m + e + 1 - 53) = e - (52 - Z.log2 m)) by (change (emin 53 11) with (-1074); lia).
  set (q := m * 2 ^ (52 - Z.log2 m)).
  assert (Hq : 2 ^ (53 - 1) <= q < 2 ^ 53).
  { change (53 - 1) with 52. subst q. replace 52 with (Z.log2 m + (52 - Z.log2 m)) at 1 by lia.
    replace 53 with (Z.succ (Z.log2 m) + (52 - Z.log2 m)) by lia.
    rewrite !Z.pow_add_r by lia. assert (0 < 2 ^ (52 - Z.log2 m)) by (apply Z.pow_pos_nonneg; lia). nia. }
  rewrite (round_dyadic_exact 53 11 m e q).
  2: lia.
  2: { cbv zeta. rewrite He'. rewrite Z.min_r by lia. rewrite Z.sub_diag. subst q.
       replace (e - (e - (52 - Z.log2 m))) with (52 - Z.log2 m) by lia. change (2 ^ 0) with 1. lia. }
  cbv zeta. rewrite He'. change (emin 53 11) with (-1074). unfold double, f64.
  change (sign64 neg) with (sign_bits 53 11 neg). rewrite Z.min_l.
  - rewrite (fval_normal 53 11 neg (e - (52 - Z.log2 m) - -1074)); [|lia..|done].
    change (emin 53 11) with (-1074). f_equal. lia.
  - change INF64 with (2047 * 2 ^ 52). change (53 - 1) with 52 in *. change (2 ^ 53) with (2 * 2 ^ 52) in Hq. nia.
Qed.

Lemma narrow_finite neg m e q x :
  f64 x = FFin neg q (e - (52 - Z.log2 m)) -> q = m * 2 ^ (52 - Z.log2 m) ->
  0 < m < 2 ^ 24 -> -149 <= e <= 104 -> (e = -149 \/ 2 ^ 23 <= m) ->
  narrow x = Some (sign32 neg + ((e + 149) * 2 ^ 23 + m)).
Proof.
  intros Hx -> Hm He Hn. unfold narrow. rewrite Hx.
  pose proof (Z.log2_nonneg m). pose proof (Z.log2_spec m ltac:(lia)) as [Hl1 Hl2].
  assert (Hl : Z.log2 m < 24) by (apply Z.log2_lt_pow2; lia).
  assert (He' : Z.max (emin 24 8) (Z.log2 (m * 2 ^ (52 - Z.log2 m)) + (e - (52 - Z.log2 m)) + 1 - 24) = e).
  { rewrite Z.log2_mul_pow2 by lia. change (emin 24 8) with (-149).
    assert (e = -149 \/ Z.log2 m = 23) as [->|H23]; [|lia|lia].
    destruct Hn as [Hn|Hn]; [by left|right]. apply Z.log2_le_mono in Hn. change (Z.log2 (2 ^ 23)) with 23 in Hn. lia. }
  assert (H2 : 0 < 2 ^ (52 - Z.log2 m)) by (apply Z.pow_pos_nonneg; lia).
  rewrite (round_dyadic_exact 24 8 _ _ m).
  2: { apply Z.mul_pos_pos; lia. }
  2: { cbv zeta. rewrite He'. rewrite Z.min_l by lia. rewrite Z.sub_diag.
       replace (e - (e - (52 - Z.log2 m))) with (52 - Z.log2 m) by lia. change (2 ^ 0) with 1. lia. }
  cbv zeta. rewrite He'. change (emin 24 8) with (-149). change (24 - 1) with 23.
  assert (Hb : (INF32 <=? (e - -149) * 2 ^ 23 + m) = false).
  { apply Z.leb_gt. change INF32 with (255 * 2 ^ 23). change (2 ^ 24) with (2 * 2 ^ 23) in Hm.
    destruct (decide (e = 104)); [|nia]. subst e. nia. }
  by rewrite Hb.
Qed.

Lemma narrow_widen b : 0 <= b < 2 ^ 32 -> is_nan32 b = false -> narrow (widen b) = Some b.
Proof.
  intros Hb Hnan. destruct (pattern_fields 24 8 b ltac:(lia) ltac:(lia) Hb) as (neg & E & M & -> & HE & HM).
  change (24 - 1) with 23 in *. change (sign_bits 24 8 neg) with (sign32 neg) in *.
  unfold is_nan32, widen in *. unfold f32 in *. change (sign32 neg) with (sign_bits 24 8 neg) in *.
  pose proof (fval_fields 24 8 neg E M ltac:(lia) ltac:(lia) HE HM) as Hf. change (24 - 1) with 23 in Hf.
  rewrite Hf in *. change (emin 24 8) with (-149) in *. change (2 ^ 8 - 1) with 255 in *.
  change (sign_bits 24 8 neg) with (sign32 neg). clear Hf.
  destruct (E =? 255) eqn:E1.
  { destruct (M =? 0) eqn:E2; [|done]. zbool. subst. by destruct neg. }
  destruct (E =? 0) eqn:E2; zbool.
  - subst E. destruct (decide (M = 0)) as [->|HM0]; [by destruct neg|].
    rewrite (narrow_finite neg M (-149) _ _ (widen_finite neg M (-149) ltac:(lia) ltac:(lia)) eq_refl) by lia. done.
  - rewrite (narrow_finite neg (M + 2 ^ 23) (-149 + E - 1) _ _
      (widen_finite neg (M + 2 ^ 23) (-149 + E - 1) ltac:(lia) ltac:(lia)) eq_refl) by lia.
    f_equal. lia.
Qed.
