(* ===== verification/PyRound.v ===== *)
(** * Rounding of doubles: what an operation's result is worth

    A double that is not negative is worth a whole number of units of [2^-1074], so that errors are
    differences of integers. *)

From S2P Require Import Prelude.
From S2P Require Import PyFloat.

(** The units of one. *)
Definition ONE : Z := 2 ^ 1074.

(** [x] is worth [u] units. *)
Definition worth (x u : Z) : Prop :=
  0 <= x < 2 ^ 63 /\ exists m e, f64 x = FFin false m e /\ -1074 <= e /\ 0 <= m < 2 ^ 53 /\ u = m * 2 ^ (e + 1074).

Lemma pow2_ratio e : pow2 e = pow2 (- e) * 2 ^ e \/ e < 0.
Proof. destruct (decide (e < 0)); [by right|left]. unfold pow2. rewrite Z.max_r, (Z.max_l 0 (- e)), Z.pow_0_r by lia. lia. Qed.

(** [x * 2^e] as a ratio of integers, scaled. *)
Lemma pow2_scale e k : 0 <= e + k -> 0 <= k -> pow2 e * 2 ^ k = pow2 (- e) * 2 ^ (e + k).
Proof.
  intros H H0. unfold pow2. destruct (decide (e < 0)).
  - rewrite (Z.max_l 0 e), (Z.max_r 0 (- e)), Z.pow_0_r, Z.mul_1_l by lia. rewrite <- Z.pow_add_r by lia. f_equal. lia.
  - rewrite (Z.max_r 0 e), (Z.max_l 0 (- e)), Z.pow_0_r, Z.mul_1_l by lia. rewrite <- Z.pow_add_r by lia. done.
Qed.

Lemma ratio_log2_spec n d : 0 < n -> 0 < d ->
  let l := ratio_log2 n d in d * pow2 l <= n * pow2 (- l) /\ n * pow2 (- (l + 1)) < d * pow2 (l + 1).
Proof.
  intros Hn Hd. unfold ratio_log2. set (l := Z.log2 n - Z.log2 d).
  destruct (Z.log2_spec n Hn) as [N1 N2]. destruct (Z.log2_spec d Hd) as [D1 D2]. pose proof (Z.log2_nonneg n). pose proof (Z.log2_nonneg d).
  rewrite Z.pow_succ_r in N2, D2 by lia.
  (* scaled to a common exponent *)
  assert (Hup : n * pow2 (- (l + 1)) < d * pow2 (l + 1)).
  { unfold pow2. destruct (decide (0 <= l + 1)).
    - rewrite (Z.max_l 0), (Z.max_r 0 (l + 1)), Z.pow_0_r, Z.mul_1_r by lia.
      assert (2 ^ Z.log2 n * 2 = 2 ^ Z.log2 d * 2 ^ (l + 1)).
      { rewrite <- Z.pow_add_r by lia. rewrite Z.mul_comm, <- Z.pow_succ_r by lia. f_equal. lia. }
      assert (0 < 2 ^ (l + 1)) by (apply Z.pow_pos_nonneg; lia). nia.
    - rewrite (Z.max_r 0), (Z.max_l 0 (l + 1)), Z.pow_0_r, Z.mul_1_r by lia.
      assert (2 * 2 ^ Z.log2 n * 2 ^ (- (l + 1)) = 2 ^ Z.log2 d).
      { rewrite <- Z.pow_succ_r, <- Z.pow_add_r by lia. f_equal. lia. }
      assert (0 < 2 ^ (- (l + 1))) by (apply Z.pow_pos_nonneg; lia). nia. }
  assert (Hlow : d * pow2 (l - 1) <= n * pow2 (- (l - 1))).
  { unfold pow2. destruct (decide (0 <= l - 1)).
    - rewrite (Z.max_r 0 (l - 1)), (Z.max_l 0 (- _)), Z.pow_0_r, Z.mul_1_r by lia.
      assert (2 * 2 ^ Z.log2 d * 2 ^ (l - 1) = 2 ^ Z.log2 n).
      { rewrite <- Z.pow_succ_r, <- Z.pow_add_r by lia. f_equal. lia. }
      assert (0 < 2 ^ (l - 1)) by (apply Z.pow_pos_nonneg; lia). nia.
    - rewrite (Z.max_l 0 (l - 1)), (Z.max_r 0 (- _)), Z.pow_0_r, Z.mul_1_r by lia.
      assert (2 ^ Z.log2 n * 2 ^ (- (l - 1)) = 2 * 2 ^ Z.log2 d).
      { rewrite <- Z.pow_succ_r, <- Z.pow_add_r by lia. f_equal. lia. }
      assert (0 < 2 ^ (- (l - 1))) by (apply Z.pow_pos_nonneg; lia). nia. }
  destruct (_ <=? _) eqn:E; zbool; [done|]. split; [exact Hlow|]. by replace (l - 1 + 1) with l by lia.
Qed.

Lemma rne_spec n d : 0 < d -> 2 * Z.abs (rne n d * d - n) <= d.
Proof.
  intros Hd. unfold rne. pose proof (Z.div_mod n d ltac:(lia)). pose proof (Z.mod_pos_bound n d Hd).
  set (q := n / d) in *. set (r := n mod d) in *. destruct (2 * r <? d) eqn:E1; zbool; [nia|]. destruct (d <? 2 * r) eqn:E2; zbool; [nia|].
  destruct (Z.even q); nia.
Qed.

Lemma rne_near n d q : 0 < d -> 2 * Z.abs (q * d - n) < d -> rne n d = q.
Proof. intros Hd H. pose proof (rne_spec n d Hd). assert (Z.abs ((rne n d - q) * d) < d) by lia. nia. Qed.

Lemma rne_le n d q : 0 < d -> n <= q * d -> rne n d <= q.
Proof. intros Hd H. pose proof (rne_spec n d Hd). assert (2 * (rne n d * d) <= 2 * n + d) by lia.
  destruct (Z.eq_dec n (q * d)) as [->|]; [by rewrite rne_exact|]. nia.
Qed.
Lemma rne_ge n d q : 0 < d -> q * d <= n -> q <= rne n d.
Proof. intros Hd H. pose proof (rne_spec n d Hd). destruct (Z.eq_dec n (q * d)) as [->|]; [by rewrite rne_exact|]. nia. Qed.

Lemma rne_scale c n d : 0 < c -> 0 < d -> rne (c * n) (c * d) = rne n d.
Proof.
  intros Hc Hd. unfold rne. rewrite Z.div_mul_cancel_l, Z.mul_mod_distr_l by lia.
  assert (E1 : (2 * (c * (n mod d)) <? c * d) = (2 * (n mod d) <? d)) by (apply Bool.eq_iff_eq_true; rewrite !Z.ltb_lt; nia).
  assert (E2 : (c * d <? 2 * (c * (n mod d))) = (d <? 2 * (n mod d))) by (apply Bool.eq_iff_eq_true; rewrite !Z.ltb_lt; nia).
  by rewrite E1, E2.
Qed.

Lemma one_pos : 0 < ONE.
Proof. unfold ONE. apply Z.pow_pos_nonneg; lia. Qed.

Lemma pow2_one e : -1074 <= e -> pow2 e * ONE = pow2 (- e) * 2 ^ (e + 1074).
Proof. intros H. unfold ONE. apply pow2_scale; lia. Qed.

(** A magnitude pattern with its exponent and its rounded significand. *)
Lemma pattern_worth e q : -1074 <= e <= 900 -> 0 <= q <= 2 ^ 53 -> (e = -1074 \/ 2 ^ 52 <= q) ->
  worth (double false ((e - emin 53 11) * 2 ^ (53 - 1) + q)) (q * 2 ^ (e + 1074)).
Proof.
  intros He Hq Hn. change (emin 53 11) with (-1074). change (53 - 1) with 52. set (x := (e - -1074) * 2 ^ 52 + q).
  assert (Ed : double false x = x).
  { unfold double. change (sign64 false) with 0. rewrite Z.min_l; [lia|]. unfold INF64, x. change (2 ^ 53) with (2 * 2 ^ 52) in Hq.
    change 9218868437227405312 with (2047 * 2 ^ 52). nia. }
  rewrite Ed. split; [unfold x; change (2 ^ 63) with (2048 * 2 ^ 52); change (2 ^ 53) with (2 * 2 ^ 52) in Hq; nia|].
  destruct (decide (q < 2 ^ 52)) as [Hs|Hs].
  - assert (e = -1074) as -> by lia. exists q, (-1074). split_and!; [|lia|lia|lia|done]. unfold f64, x.
    change ((-1074 - -1074) * 2 ^ 52 + q) with (sign_bits 53 11 false + (0 * 2 ^ (53 - 1) + q)).
    rewrite fval_fields; [done|lia|lia|lia|]. change (2 ^ (53 - 1)) with (2 ^ 52). lia.
  - destruct (decide (q = 2 ^ 53)) as [->|Hc].
    + exists (2 ^ 52), (e + 1). split_and!; [|lia|lia|lia|].
      * unfold f64, x. replace ((e - -1074) * 2 ^ 52 + 2 ^ 53) with (sign_bits 53 11 false + ((e + 1075) * 2 ^ (53 - 1) + 2 ^ 52)) by (change (sign_bits 53 11 false) with 0; lia).
        rewrite fval_normal by (cbn; lia). change (emin 53 11) with (-1074). f_equal. lia.
      * change (2 ^ 53) with (2 ^ 52 * 2 ^ 1). rewrite <- Z.mul_assoc, <- Z.pow_add_r by lia. do 2 f_equal. lia.
    + exists q, e. split_and!; [|lia|lia|lia|done]. unfold f64, x.
      replace ((e - -1074) * 2 ^ 52 + q) with (sign_bits 53 11 false + ((e + 1074) * 2 ^ (53 - 1) + q)) by (change (sign_bits 53 11 false) with 0; lia).
      rewrite fval_normal; [|lia|lia|lia|cbn; lia|change (53 - 1) with 52; lia]. change (emin 53 11) with (-1074). f_equal. lia.
Qed.

(** The rounded ratio is within half a unit in the last place of [n / d]. *)
Lemma round_ratio_worth n d : 0 < n -> 0 < d -> n < d * 2 ^ 900 ->
  exists r, worth (double false (round_ratio 53 11 n d)) r
    /\ 2 * 2 ^ 52 * Z.abs (r * d - n * ONE) <= Z.max (d * 2 ^ 52) (n * ONE)
    /\ (forall m k, 0 <= m < 2 ^ 53 -> -1074 <= k -> n * ONE = m * 2 ^ (k + 1074) * d -> r * d = n * ONE).
Proof.
  intros Hn Hd Hlt. pose proof one_pos as H1. destruct (ratio_log2_spec n d Hn Hd) as [L1 L2]. unfold round_ratio.
  set (l := ratio_log2 n d) in *. set (e := Z.max (emin 53 11) (l + 1 - 53)). change (emin 53 11) with (-1074) in e.
  pose proof (pow2_pos e) as HB. pose proof (pow2_pos (- e)) as HA. set (A := pow2 (- e)) in *. set (B := pow2 e) in *.
  set (S := 2 ^ (e + 1074)). assert (HS : 0 < S) by (apply Z.pow_pos_nonneg; lia).
  assert (HAB : B * ONE = A * S) by (apply pow2_one; lia).
  (* the bounds of n / d in units *)
  assert (Hup : -1074 <= l + 1 -> n * ONE < d * 2 ^ (l + 1 + 1074)).
  { intros Hl. pose proof (pow2_one (l + 1) Hl). pose proof (pow2_pos (- (l + 1))). nia. }
  assert (Hlow : -1074 <= l -> d * 2 ^ (l + 1074) <= n * ONE).
  { intros Hl. pose proof (pow2_one l Hl). pose proof (pow2_pos (- l)). nia. }
  assert (Hl9 : l < 900).
  { destruct (decide (l < 900)); [done|]. exfalso. specialize (Hlow ltac:(lia)). unfold ONE in Hlow.
    assert (d * 2 ^ (900 + 1074) <= d * 2 ^ (l + 1074)) by (apply Z.mul_le_mono_nonneg_l; [lia|apply Z.pow_le_mono_r; lia]).
    rewrite Z.pow_add_r in H by lia. unfold ONE in H1. nia. }
  set (q := rne (n * A) (d * B)).
  assert (HdB : 0 < d * B) by nia.
  assert (Hq0 : 0 <= q) by (apply rne_ge; [done|nia]).
  assert (Hq1 : q <= 2 ^ 53).
  { apply rne_le; [done|]. assert (n * ONE <= d * (S * 2 ^ 53)); [|nia].
    destruct (decide (-1074 <= l + 1)) as [Hl|Hl].
    - specialize (Hup Hl). assert (2 ^ (l + 1 + 1074) <= S * 2 ^ 53); [|nia].
      unfold S. rewrite <- Z.pow_add_r by lia. apply Z.pow_le_mono_r; lia.
    - assert (He : e = -1074) by lia. assert (S = 1) as -> by (unfold S; by rewrite He).
      assert (n * ONE < d).
      { assert (pow2 (- (l + 1)) >= ONE). { unfold pow2, ONE. apply Z.le_ge, Z.pow_le_mono_r; lia. }
        assert (pow2 (l + 1) = 1) by (unfold pow2; rewrite Z.max_l by lia; done). nia. }
      lia. }
  assert (Hq2 : e = -1074 \/ 2 ^ 52 <= q).
  { destruct (decide (e = -1074)) as [|He]; [by left|right]. apply rne_ge; [done|].
    specialize (Hlow ltac:(lia)). replace (l + 1074) with (52 + (e + 1074)) in Hlow by lia. rewrite Z.pow_add_r in Hlow by lia. fold S in Hlow. nia. }
  exists (q * S). split; [apply pattern_worth; [lia|done|done]|].
  pose proof (rne_spec (n * A) (d * B) HdB) as Hr. fold q in Hr.
  assert (Herr : 2 * Z.abs (q * S * d - n * ONE) <= S * d).
  { assert (Habs : A * Z.abs (q * S * d - n * ONE) = ONE * Z.abs (q * (d * B) - n * A)).
    { rewrite <- (Z.abs_eq A) at 1 by lia. rewrite <- (Z.abs_eq ONE) at 2 by lia. rewrite <- !Z.abs_mul. f_equal.
      transitivity (q * d * (A * S) - A * n * ONE); [ring|]. rewrite <- HAB. ring. }
    apply (Z.mul_le_mono_pos_l _ _ A); [done|].
    replace (A * (2 * Z.abs (q * S * d - n * ONE))) with (2 * (A * Z.abs (q * S * d - n * ONE))) by ring. rewrite Habs.
    replace (A * (S * d)) with (ONE * (d * B)) by (transitivity (d * (B * ONE)); [ring|rewrite HAB; ring]).
    replace (2 * (ONE * Z.abs (q * (d * B) - n * A))) with (ONE * (2 * Z.abs (q * (d * B) - n * A))) by ring.
    apply Z.mul_le_mono_nonneg_l; lia. }
  split.
  - destruct (decide (e = -1074)) as [He|He].
    + assert (S = 1) as HS1 by (unfold S; by rewrite He). rewrite HS1 in Herr at 2. etrans; [|apply Z.le_max_l].
      replace (2 * 2 ^ 52 * Z.abs (q * S * d - n * ONE)) with (2 ^ 52 * (2 * Z.abs (q * S * d - n * ONE))) by ring.
      rewrite (Z.mul_comm d). apply Z.mul_le_mono_nonneg_l; lia.
    + specialize (Hlow ltac:(lia)). replace (l + 1074) with (52 + (e + 1074)) in Hlow by lia. rewrite Z.pow_add_r in Hlow by lia. fold S in Hlow.
      etrans; [|apply Z.le_max_r]. etrans; [|exact Hlow].
      replace (2 * 2 ^ 52 * Z.abs (q * S * d - n * ONE)) with (2 ^ 52 * (2 * Z.abs (q * S * d - n * ONE))) by ring.
      replace (d * (2 ^ 52 * S)) with (2 ^ 52 * (S * d)) by ring. apply Z.mul_le_mono_nonneg_l; lia.
  - intros m k Hm Hk E.
    (* the representable value is a multiple of the last place *)
    assert (Hke : e <= k).
    { destruct (decide (e = -1074)) as [->|He]; [lia|]. specialize (Hlow ltac:(lia)).
      assert (d * 2 ^ (l + 1074) <= m * 2 ^ (k + 1074) * d) by lia.
      assert (HY : 0 < 2 ^ (k + 1074)) by (apply Z.pow_pos_nonneg; lia).
      assert (HX : 2 ^ (l + 1074) < 2 ^ 53 * 2 ^ (k + 1074)).
      { apply Z.le_lt_trans with (m * 2 ^ (k + 1074)); [apply (Z.mul_le_mono_pos_l _ _ d); lia|apply Z.mul_lt_mono_pos_r; lia]. }
      rewrite <- Z.pow_add_r in HX by lia. apply Z.pow_lt_mono_r_iff in HX; lia. }
    assert (Ek : 2 ^ (k + 1074) = 2 ^ (k - e) * S) by (unfold S; rewrite <- Z.pow_add_r by lia; f_equal; lia).
    assert (q = m * 2 ^ (k - e)) as ->; [|rewrite E, Ek; ring].
    unfold q. replace (n * A) with (m * 2 ^ (k - e) * (d * B)); [by apply rne_exact|].
    rewrite Ek in E. apply (Z.mul_reg_l _ _ ONE); [lia|].
    replace (ONE * (n * A)) with (A * (n * ONE)) by ring. rewrite E.
    transitivity (m * 2 ^ (k - e) * d * (B * ONE)); [ring|]. rewrite HAB. ring.
Qed.

Lemma worth_nonneg x u : worth x u -> 0 <= u.
Proof. intros (_ & m & e & _ & He & Hm & ->). assert (0 < 2 ^ (e + 1074)) by (apply Z.pow_pos_nonneg; lia). nia. Qed.

Lemma worth_zero : worth 0 0.
Proof. split; [done|]. exists 0, (-1074). done. Qed.

Lemma units_ratio m e u : -1074 <= e -> u = m * 2 ^ (e + 1074) -> m * pow2 e * ONE = pow2 (- e) * u.
Proof. intros He ->. rewrite <- Z.mul_assoc, pow2_one by done. ring. Qed.

Lemma units_div m e u : -1074 <= e -> u = m * 2 ^ (e + 1074) -> m * pow2 e / pow2 (- e) = u / ONE.
Proof.
  intros He Hu. pose proof one_pos. pose proof (pow2_pos (- e)).
  rewrite <- (Z.div_mul_cancel_r _ _ ONE) by lia. rewrite (units_ratio m e u He Hu). by rewrite Z.div_mul_cancel_l by lia.
Qed.

Lemma units_rne m e u c : -1074 <= e -> u = m * 2 ^ (e + 1074) -> rne (m * pow2 e * c) (pow2 (- e)) = rne (u * c) ONE.
Proof.
  intros He Hu. pose proof one_pos. pose proof (pow2_pos (- e)).
  rewrite <- (rne_scale ONE) by done. rewrite <- (rne_scale (pow2 (- e)) (u * c)) by done. f_equal; [|ring].
  transitivity (m * pow2 e * ONE * c); [ring|]. rewrite (units_ratio m e u He Hu). ring.
Qed.

(** What rounding a dyadic gives; [k] makes its exponent one of units. *)
Lemma of_dyadic_worth v e k : 0 < v -> 0 <= k -> 0 <= e + 1074 + k -> v * pow2 e < pow2 (- e) * 2 ^ 900 ->
  exists r, worth (of_dyadic false v e) r
    /\ 2 * 2 ^ 52 * Z.abs (r * 2 ^ k - v * 2 ^ (e + 1074 + k)) <= Z.max (2 ^ 52 * 2 ^ k) (v * 2 ^ (e + 1074 + k))
    /\ (forall m j, 0 <= m < 2 ^ 53 -> -1074 <= j -> v * 2 ^ (e + 1074 + k) = m * 2 ^ (j + 1074) * 2 ^ k -> r * 2 ^ k = v * 2 ^ (e + 1074 + k)).
Proof.
  intros Hv Hk He Hlt. pose proof (pow2_pos e) as HB. pose proof (pow2_pos (- e)) as HA. assert (HK : 0 < 2 ^ k) by (apply Z.pow_pos_nonneg; lia).
  unfold of_dyadic. rewrite (proj2 (Z.eqb_neq v 0)), (proj2 (Z.ltb_ge v 0)) by lia. rewrite Z.abs_eq by lia.
  unfold round_dyadic. rewrite (proj2 (Z.eqb_neq v 0)) by lia.
  destruct (round_ratio_worth (v * pow2 e) (pow2 (- e))) as (r & Hw & Herr & Hex); [nia|done|done|].
  exists r. split; [done|].
  assert (Hs : v * pow2 e * ONE * 2 ^ k = pow2 (- e) * (v * 2 ^ (e + 1074 + k))).
  { pose proof (pow2_scale e (1074 + k) ltac:(lia) ltac:(lia)) as E. rewrite Z.pow_add_r in E by lia. fold ONE in E.
    transitivity (v * (pow2 e * (ONE * 2 ^ k))); [ring|]. rewrite E. replace (e + (1074 + k)) with (e + 1074 + k) by lia. ring. }
  set (w := v * 2 ^ (e + 1074 + k)) in *. set (A := pow2 (- e)) in *. set (N := v * pow2 e * ONE) in *.
  split.
  - apply (Z.mul_le_mono_pos_l _ _ A); [done|].
    assert (E1 : A * (2 * 2 ^ 52 * Z.abs (r * 2 ^ k - w)) = 2 ^ k * (2 * 2 ^ 52 * Z.abs (r * A - N))).
    { rewrite (Z.mul_comm A), <- Z.mul_assoc. rewrite (Z.mul_comm (2 ^ k)), <- (Z.mul_assoc _ _ (2 ^ k)). f_equal.
      rewrite <- (Z.abs_eq A) at 1 by lia. rewrite <- (Z.abs_eq (2 ^ k)) at 2 by lia. rewrite <- !Z.abs_mul. f_equal.
      transitivity (r * A * 2 ^ k - A * w); [ring|]. rewrite <- Hs. ring. }
    rewrite E1. rewrite <- Z.mul_max_distr_nonneg_l by lia.
    replace (A * (2 ^ 52 * 2 ^ k)) with (2 ^ k * (A * 2 ^ 52)) by ring. rewrite <- Hs, (Z.mul_comm N), Z.mul_max_distr_nonneg_l by lia.
    apply Z.mul_le_mono_nonneg_l; lia.
  - intros m j Hm Hj E. apply (Z.mul_reg_l _ _ A); [lia|].
    assert (r * A = N) as Er.
    { apply (Hex m j Hm Hj). apply (Z.mul_reg_r _ _ (2 ^ k)); [lia|]. rewrite Hs, E. ring. }
    rewrite <- Hs, <- Er. ring.
Qed.

(** ** Signs, integers and comparisons *)

Lemma f64_range b neg m e : f64 b = FFin neg m e -> 0 <= m < 2 ^ 53 /\ -1074 <= e.
Proof.
  unfold f64, fval. change (53 - 1) with 52. change (emin 53 11) with (-1074).
  pose proof (Z.mod_pos_bound b (2 ^ 52) ltac:(lia)). pose proof (Z.mod_pos_bound (b / 2 ^ 52) (2 ^ 11) ltac:(lia)).
  destruct (_ =? 2 ^ 11 - 1); [by destruct (_ =? 0)|]. destruct (_ =? 0) eqn:E; intros [= <- <- <-]; zbool; lia.
Qed.

(** The sign bit is apart from the other fields. *)
Lemma fields_unsigned b k : (b + k * 2 ^ 63) / 2 ^ 52 mod 2 ^ 11 = b / 2 ^ 52 mod 2 ^ 11 /\ (b + k * 2 ^ 63) mod 2 ^ 52 = b mod 2 ^ 52.
Proof.
  replace (b + k * 2 ^ 63) with (b + k * 2 ^ 11 * 2 ^ 52) by lia. split; [|by rewrite Z.mod_add].
  rewrite Z.div_add by lia. by rewrite Z.mod_add.
Qed.

Lemma f64_resign b k s neg m e : (2 ^ 63 <=? b + k * 2 ^ 63) = s -> f64 b = FFin neg m e -> f64 (b + k * 2 ^ 63) = FFin s m e.
Proof.
  intros Hs. destruct (fields_unsigned b k) as [H1 H2]. unfold f64, fval. change (53 - 1 + 11) with 63. change (53 - 1) with 52.
  rewrite Hs, H1, H2. destruct (_ =? 2 ^ 11 - 1); [by destruct (_ =? 0)|]. by destruct (_ =? 0); intros [= _ <- <-].
Qed.

Lemma f64_sign b m e : 0 <= b < 2 ^ 63 -> f64 b = FFin false m e -> f64 (b + 2 ^ 63) = FFin true m e.
Proof. intros Hb E. replace (b + 2 ^ 63) with (b + 1 * 2 ^ 63) by lia. eapply f64_resign; [|exact E]. apply Z.leb_le. lia. Qed.

Lemma f64_unsign b m e neg : 0 <= b < 2 ^ 64 -> f64 b = FFin neg m e ->
  worth (if 2 ^ 63 <=? b then b - 2 ^ 63 else b) (m * 2 ^ (e + 1074)).
Proof.
  intros Hb E. destruct (f64_range _ _ _ _ E) as [Hm He]. destruct (2 ^ 63 <=? b) eqn:Es; zbool; (split; [lia|]); exists m, e; split_and!; try lia.
  - replace (b - 2 ^ 63) with (b + -1 * 2 ^ 63) by lia. eapply f64_resign; [|exact E]. apply Z.leb_gt. lia.
  - replace b with (b + 0 * 2 ^ 63) by lia. eapply f64_resign; [|exact E]. apply Z.leb_gt. lia.
Qed.

Lemma of_int_worth d : 0 <= d < 2 ^ 53 -> worth (of_int d) (d * ONE).
Proof.
  intros Hd. unfold of_int. destruct (decide (d = 0)) as [->|Hn]; [apply worth_zero|].
  destruct (of_dyadic_worth d 0 0) as (r & Hr & _ & Hex); [lia|lia|lia|change (pow2 0) with 1; change (pow2 (- 0)) with 1; lia|].
  specialize (Hex d 0 Hd ltac:(lia)). change (2 ^ 0) with 1 in Hex. rewrite !Z.mul_1_r in Hex. change (2 ^ (0 + 1074 + 0)) with ONE in Hex.
  rewrite <- Hex; [done|reflexivity].
Qed.

Lemma fge_worth x y u w : worth x u -> worth y w -> fge x y = (w <=? u).
Proof.
  intros (_ & m & e & E & He & Hm & ->) (_ & m' & e' & E' & He' & Hm' & ->). unfold fge. rewrite E, E'. cbn [signed].
  assert (Ht : -1074 <= Z.min e e' <= e /\ Z.min e e' <= e') by lia. set (t := Z.min e e') in *. clearbody t. assert (HT : 0 < 2 ^ (t + 1074)) by (apply Z.pow_pos_nonneg; lia).
  replace (e + 1074) with ((e - t) + (t + 1074)) by lia. replace (e' + 1074) with ((e' - t) + (t + 1074)) by lia.
  rewrite (Z.pow_add_r 2 (e - t)), (Z.pow_add_r 2 (e' - t)), !Z.mul_assoc by lia. apply Bool.eq_iff_eq_true. rewrite !Z.leb_le. by apply Z.mul_le_mono_pos_r.
Qed.

(** The fraction of a float, by subtracting its integer, is exact. *)
Lemma fraction_worth x y u : worth x u -> worth y (u / ONE * ONE) -> worth (fadd x (y + 2 ^ 63)) (u mod ONE).
Proof.
  intros (_ & m & e & E & He & Hm & Hu) (Hy & m' & e' & E' & He' & Hm' & Hd). pose proof one_pos as H1.
  apply f64_sign in E'; [|done]. unfold fadd. rewrite E, E'. cbn [andb signed].
  assert (Ht : -1074 <= Z.min e e' <= e /\ Z.min e e' <= e') by lia. set (t := Z.min e e') in *. clearbody t.
  set (v := m * 2 ^ (e - t) + - m' * 2 ^ (e' - t)).
  assert (Hv : v * 2 ^ (t + 1074) = u mod ONE).
  { rewrite Z.mod_eq by lia. rewrite (Z.mul_comm ONE), Hd, Hu. unfold v.
    replace (e + 1074) with ((e - t) + (t + 1074)) by lia. replace (e' + 1074) with ((e' - t) + (t + 1074)) by lia.
    rewrite (Z.pow_add_r 2 (e - t)), (Z.pow_add_r 2 (e' - t)) by lia. ring. }
  pose proof (Z.mod_pos_bound u ONE H1) as Ha. assert (HT : 0 < 2 ^ (t + 1074)) by (apply Z.pow_pos_nonneg; lia).
  destruct (decide (v = 0)) as [Hz|Hz].
  - rewrite <- Hv, Hz. apply worth_zero.
  - assert (Hpos : 0 < v) by nia. pose proof (pow2_pos (- t)) as HA.
    destruct (of_dyadic_worth v t 0) as (r & Hr & _ & Hex); [done|lia|lia| |].
    { apply (Z.mul_lt_mono_pos_r ONE); [done|]. rewrite (units_ratio v t (u mod ONE)) by (done || lia).
      assert (HP : 1 <= 2 ^ 900) by lia. set (P := 2 ^ 900) in *. clearbody P.
      rewrite <- Z.mul_assoc. apply Z.mul_lt_mono_pos_l; [done|]. nia. }
    change (2 ^ 0) with 1 in Hex. rewrite !Z.mul_1_r in Hex. rewrite Z.add_0_r, Hv in Hex.
    replace (u mod ONE) with r; [done|].
    destruct (decide (0 <= e)) as [Hep|Hen].
    + exfalso. assert (u mod ONE = 0); [|lia]. rewrite Hu. rewrite Z.pow_add_r by lia. rewrite Z.mul_assoc. apply Z.mod_mul. lia.
    + apply (Hex (m mod 2 ^ (- e)) e); [|lia|].
      * assert (0 < 2 ^ (- e)) by (apply Z.pow_pos_nonneg; lia). pose proof (Z.mod_pos_bound m (2 ^ (- e)) ltac:(done)).
        pose proof (Z.mod_le m (2 ^ (- e)) ltac:(lia) ltac:(done)). lia.
      * rewrite Hu. rewrite Z.mul_1_r. replace ONE with (2 ^ (- e) * 2 ^ (e + 1074)).
        { apply Z.mul_mod_distr_r; apply Z.pow_nonzero; lia. }
        rewrite <- Z.pow_add_r by lia. unfold ONE. f_equal. lia.
Qed.

(** A product of two floats: the error of one rounding. *)
Lemma fmul_worth x y u m' e' k : worth x u -> f64 y = FFin false m' e' -> 0 < m' -> 0 <= k -> e' + k = 0 -> u * m' < 2 ^ 900 * (ONE * 2 ^ k) ->
  exists r, worth (fmul x y) r /\ 2 * 2 ^ 52 * Z.abs (r * 2 ^ k - u * m') <= Z.max (2 ^ 52 * 2 ^ k) (u * m').
Proof.
  intros (_ & m & e & E & He & Hm & Hu) E' Hm' Hk Hek Hlt. unfold fmul. rewrite E, E'. cbn [xorb signed].
  destruct (decide (m = 0)) as [->|Hn].
  - exists 0. rewrite Hu. split; [apply worth_zero|]. rewrite !Z.mul_0_l. change (Z.abs (0 - 0)) with 0. assert (0 < 2 ^ k) by (apply Z.pow_pos_nonneg; lia). lia.
  - assert (Hval : m * m' * 2 ^ (e + e' + 1074 + k) = u * m').
    { rewrite Hu. replace (e + e' + 1074 + k) with (e + 1074) by lia. ring. }
    destruct (of_dyadic_worth (m * m') (e + e') k) as (r & Hr & Herr & _); [nia|lia|lia| |].
    { pose proof (pow2_pos (- (e + e'))) as HA. assert (HK : 0 < 2 ^ k) by (apply Z.pow_pos_nonneg; lia).
      pose proof (pow2_scale (e + e') (1074 + k) ltac:(lia) ltac:(lia)) as Es. rewrite Z.pow_add_r in Es by lia. fold ONE in Es.
      pose proof one_pos. apply (Z.mul_lt_mono_pos_r (ONE * 2 ^ k)); [nia|].
      replace (m * m' * pow2 (e + e') * (ONE * 2 ^ k)) with (m * m' * (pow2 (e + e') * (ONE * 2 ^ k))) by ring. rewrite Es.
      replace (m * m' * (pow2 (- (e + e')) * 2 ^ (e + e' + (1074 + k)))) with (pow2 (- (e + e')) * (m * m' * 2 ^ (e + e' + 1074 + k)))
        by (replace (e + e' + (1074 + k)) with (e + e' + 1074 + k) by lia; ring).
      rewrite Hval. set (P := 2 ^ 900) in *. clearbody P.
      replace (pow2 (- (e + e')) * P * (ONE * 2 ^ k)) with (pow2 (- (e + e')) * (P * (ONE * 2 ^ k))) by ring. by apply Z.mul_lt_mono_pos_l. }
    exists r. split; [done|]. by rewrite Hval in Herr.
Qed.
