(* ===== verification/PyStruct.v ===== *)
(** * Python's [struct]: little-endian formats, typed

    A format is a list of codes; [calcsize], [pack] and [unpack] are read off it, and the
    values have the type the format says. [pack] is [None] where [struct] raises. *)

From S2P Require Import Prelude.
From S2P Require Import PyFloat.

(** [B H I Q], [b h i], [f], [d], [?] and [<n>s]. *)
Inductive Code := U8 | U16 | U32 | U64 | I8 | I16 | I32 | F32 | F64 | Flag | Str (n : nat).

Definition code_size (c : Code) : nat :=
  match c with
  | U8 | I8 | Flag => 1
  | U16 | I16 => 2
  | U32 | I32 | F32 => 4
  | U64 | F64 => 8
  | Str n => n
  end.

Definition val (c : Code) : Type :=
  match c with
  | Flag => bool
  | Str _ => bytes
  | _ => Z
  end.

Fixpoint tuple (fmt : list Code) : Type :=
  match fmt with
  | [] => unit
  | c :: fmt => (val c * tuple fmt)%type
  end.

Notation "[# ]" := tt (format "[# ]") : mtrtk_scope.
Notation "[# x ; .. ; y ]" := (pair x .. (pair y tt) ..) : mtrtk_scope.

Fixpoint calcsize (fmt : list Code) : nat :=
  match fmt with
  | [] => 0
  | c :: fmt => code_size c + calcsize fmt
  end.

(** The integer of a two's complement pattern of [n] bytes, and back. *)
Definition to_signed (n : nat) (v : Z) : Z :=
  if v <? 2 ^ (8 * Z.of_nat n - 1) then v else v - 2 ^ (8 * Z.of_nat n).

Definition unsigned_ok (n : nat) (v : Z) : bool := (0 <=? v) && (v <? 2 ^ (8 * Z.of_nat n)).
Definition signed_ok (n : nat) (v : Z) : bool :=
  (- 2 ^ (8 * Z.of_nat n - 1) <=? v) && (v <? 2 ^ (8 * Z.of_nat n - 1)).

Definition unpack_code (c : Code) : bytes -> val c :=
  match c return bytes -> val c with
  | U8 | U16 | U32 | U64 => le_int
  | I8 => fun b => to_signed 1 (le_int b)
  | I16 => fun b => to_signed 2 (le_int b)
  | I32 => fun b => to_signed 4 (le_int b)
  | F32 => fun b => widen (le_int b)
  | F64 => le_int
  | Flag => fun b => negb (le_int b =? 0)
  | Str _ => fun b => b
  end.

Fixpoint unpack (fmt : list Code) (raw : bytes) : tuple fmt :=
  match fmt return tuple fmt with
  | [] => tt
  | c :: fmt => (unpack_code c (take (code_size c) raw), unpack fmt (drop (code_size c) raw))
  end.

Definition pack_unsigned (n : nat) (v : Z) : option bytes :=
  if unsigned_ok n v then Some (le_bytes n v) else None.
Definition pack_signed (n : nat) (v : Z) : option bytes :=
  if signed_ok n v then Some (le_bytes n (v mod 2 ^ (8 * Z.of_nat n))) else None.

Definition pack_code (c : Code) : val c -> option bytes :=
  match c return val c -> option bytes with
  | U8 => pack_unsigned 1
  | U16 => pack_unsigned 2
  | U32 => pack_unsigned 4
  | U64 => pack_unsigned 8
  | I8 => pack_signed 1
  | I16 => pack_signed 2
  | I32 => pack_signed 4
  | F32 => fun x => b ← narrow x; Some (le_bytes 4 b)
  | F64 => fun x => Some (le_bytes 8 x)
  | Flag => fun b => Some [if b then 1 else 0]
  | Str n => fun s => Some (take n s ++ replicate (n - length s) 0)
  end.

Fixpoint pack (fmt : list Code) : tuple fmt -> option bytes :=
  match fmt return tuple fmt -> option bytes with
  | [] => fun _ => Some []
  | c :: fmt => fun v => x ← pack_code c v.1; y ← pack fmt v.2; Some (x ++ y)
  end.

(** ** Round trips *)

(** Patterns that only one value packs to: a flag is 0 or 1, a single is not a NaN. *)
Definition canonical_code (c : Code) (raw : bytes) : Prop :=
  match c with
  | Flag => raw = [0] \/ raw = [1]
  | F32 => is_nan32 (le_int raw) = false
  | _ => True
  end.

Fixpoint canonical (fmt : list Code) (raw : bytes) : Prop :=
  match fmt with
  | [] => True
  | c :: fmt => canonical_code c (take (code_size c) raw) /\ canonical fmt (drop (code_size c) raw)
  end.

Lemma le_int_bound b : bytes_ok b -> 0 <= le_int b < 2 ^ (8 * len b).
Proof.
  induction 1 as [|x b Hx Hb IH]; [simpl; lia|]. cbn [le_int length]. unfold is_byte in Hx.
  rewrite Nat2Z.inj_succ. replace (8 * Z.succ (len b)) with (8 + 8 * len b) by lia.
  rewrite Z.pow_add_r by lia. change (2 ^ 8) with 256. lia.
Qed.

Lemma le_bytes_le_int b : bytes_ok b -> le_bytes (length b) (le_int b) = b.
Proof.
  induction 1 as [|x b Hx Hb IH]; [done|]. cbn [le_int length le_bytes]. unfold is_byte in Hx.
  replace (x + 256 * le_int b) with (le_int b * 256 + x) by lia.
  rewrite Z.div_add_l, (Z.div_small x), Z.add_0_r by lia. rewrite IH. f_equal.
  rewrite Z.add_comm, Z.mod_add by lia. apply Z.mod_small. lia.
Qed.

Lemma pack_unsigned_le n b : length b = n -> bytes_ok b -> pack_unsigned n (le_int b) = Some b.
Proof.
  intros Hn Hb. pose proof (le_int_bound b Hb) as H. rewrite Hn in H. unfold pack_unsigned, unsigned_ok.
  rewrite (proj2 (Z.leb_le _ _)), (proj2 (Z.ltb_lt _ _)) by lia. cbn [andb]. by rewrite <- Hn, le_bytes_le_int.
Qed.

Lemma pack_signed_le n b : (0 < n)%nat -> length b = n -> bytes_ok b -> pack_signed n (to_signed n (le_int b)) = Some b.
Proof.
  intros Hpos Hn Hb. pose proof (le_int_bound b Hb) as H. rewrite Hn in H. unfold pack_signed, signed_ok, to_signed.
  assert (H2 : 2 ^ (8 * Z.of_nat n) = 2 * 2 ^ (8 * Z.of_nat n - 1)) by (rewrite <- Z.pow_succ_r by lia; f_equal; lia).
  destruct (le_int b <? 2 ^ (8 * Z.of_nat n - 1)) eqn:E; zbool.
  - rewrite (proj2 (Z.leb_le _ _)), (proj2 (Z.ltb_lt _ _)) by lia. cbn [andb].
    rewrite Z.mod_small by lia. by rewrite <- Hn, le_bytes_le_int.
  - rewrite (proj2 (Z.leb_le _ _)), (proj2 (Z.ltb_lt _ _)) by lia. cbn [andb].
    rewrite <- (Z.mod_unique _ (2 ^ (8 * Z.of_nat n)) (-1) (le_int b)) by lia.
    by rewrite <- Hn, le_bytes_le_int.
Qed.

Lemma pack_unpack_code c raw :
  length raw = code_size c -> bytes_ok raw -> canonical_code c raw -> pack_code c (unpack_code c raw) = Some raw.
Proof.
  intros Hl Hb Hc. destruct c; cbn [pack_code unpack_code code_size canonical_code] in *;
    try (by apply pack_unsigned_le); try (apply pack_signed_le; [lia|done|done]).
  - pose proof (le_int_bound raw Hb) as H. rewrite Hl in H. rewrite narrow_widen by done. cbn [mbind option_bind].
    by rewrite <- Hl, le_bytes_le_int.
  - by rewrite <- Hl, le_bytes_le_int.
  - by destruct Hc as [-> | ->].
  - rewrite <- Hl, firstn_all, Nat.sub_diag. cbn. by rewrite app_nil_r.
Qed.

(** Unpacking a payload and packing it again gives back the bytes that were read. *)
Lemma pack_unpack fmt raw :
  (calcsize fmt <= length raw)%nat -> bytes_ok raw -> canonical fmt raw ->
  pack fmt (unpack fmt raw) = Some (take (calcsize fmt) raw).
Proof.
  revert raw. induction fmt as [|c fmt IH]; intros raw Hl Hb Hc; [done|].
  cbn [calcsize canonical] in *. destruct Hc as [Hc1 Hc2]. cbn [pack unpack fst snd].
  rewrite pack_unpack_code; [|rewrite length_take; lia|by apply Forall_take|done]. cbn [mbind option_bind].
  rewrite IH; [|rewrite length_drop; lia|by apply Forall_drop|done]. cbn [mbind option_bind].
  by rewrite take_take_drop.
Qed.

(** Values a pattern of the code denotes. *)
Definition fits_code (c : Code) (v : val c) : Prop :=
  exists raw, length raw = code_size c /\ bytes_ok raw /\ canonical_code c raw /\ v = unpack_code c raw.

Fixpoint fits (fmt : list Code) : tuple fmt -> Prop :=
  match fmt return tuple fmt -> Prop with
  | [] => fun _ => True
  | c :: fmt => fun v => fits_code c v.1 /\ fits fmt v.2
  end.

(** What was packed is read back, whatever follows it. *)
Lemma unpack_pack fmt (v : tuple fmt) rest :
  fits fmt v -> exists raw, pack fmt v = Some raw /\ length raw = calcsize fmt /\ bytes_ok raw
                            /\ canonical fmt (raw ++ rest) /\ unpack fmt (raw ++ rest) = v.
Proof.
  revert v. induction fmt as [|c fmt IH]; intros v H.
  - exists []. destruct v. by repeat split.
  - destruct v as [x v]. destruct H as [(rx & Hl & Hb & Hc & Hx) H]. cbn [fst snd] in *.
    destruct (IH v H) as (ry & Hp & Hly & Hby & Hcy & Hu).
    exists (rx ++ ry). cbn [pack unpack fst snd calcsize canonical]. subst x.
    rewrite pack_unpack_code by done. cbn [mbind option_bind]. rewrite Hp. cbn [mbind option_bind].
    rewrite <- app_assoc, <- Hl, take_app_length, drop_app_length, Hu.
    repeat split; try done; [rewrite length_app; lia|by apply Forall_app_2].
Qed.

(** The ranges, for the codes without rounding. *)
Lemma fits_unsigned n v : 0 <= v < 2 ^ (8 * Z.of_nat n) -> exists raw, length raw = n /\ bytes_ok raw /\ v = le_int raw.
Proof.
  intros H. exists (le_bytes n v). rewrite length_le_bytes. repeat split; [apply bytes_ok_le_bytes|].
  rewrite le_int_le_bytes; [done|]. change 256 with (2 ^ 8). by rewrite <- Z.pow_mul_r by lia.
Qed.

Lemma fits_U8 v : 0 <= v < 256 -> fits_code U8 v.
Proof. intros H. destruct (fits_unsigned 1 v) as (raw & ? & ? & ?); [done|]. by exists raw. Qed.
Lemma fits_U16 v : 0 <= v < 65536 -> fits_code U16 v.
Proof. intros H. destruct (fits_unsigned 2 v) as (raw & ? & ? & ?); [done|]. by exists raw. Qed.
Lemma fits_U32 v : 0 <= v < 2 ^ 32 -> fits_code U32 v.
Proof. intros H. destruct (fits_unsigned 4 v) as (raw & ? & ? & ?); [done|]. by exists raw. Qed.
Lemma fits_F64 v : 0 <= v < 2 ^ 64 -> fits_code F64 v.
Proof. intros H. destruct (fits_unsigned 8 v) as (raw & ? & ? & ?); [done|]. by exists raw. Qed.
Lemma fits_Flag (b : bool) : fits_code Flag b.
Proof. exists [if b then 1 else 0]. destruct b; repeat split; try (by constructor); auto; by left || by right. Qed.
Lemma fits_F32 b : 0 <= b < 2 ^ 32 -> is_nan32 b = false -> fits_code F32 (widen b).
Proof.
  intros H Hn. destruct (fits_unsigned 4 b) as (raw & ? & ? & ->); [done|]. by exists raw.
Qed.

#[export] Hint Resolve fits_U8 fits_U16 fits_U32 fits_F64 fits_Flag fits_F32 : mtrtk.
