(* ===== verification/Checksums.v ===== *)
(** * Checksums of the framed protocols

    [core/crc.py] (UBX Fletcher-8, CRC-24Q, NMEA XOR), [rover/drivers/sbg/crc.py]
    (CRC-16/KERMIT) and [rover/drivers/vectornav/checksum.py] (CRC-16/XMODEM, XOR-8).
    The table-driven CRCs are shown equal to bit-serial references, and every checksum to
    detect the corruption of a single byte. *)

From S2P Require Import Prelude.
From S2P Require Import PyBytes.

(** ** core/crc.py *)

Definition fletcher_step (ck : Z * Z) (byte : Z) : Z * Z :=
  let ck_a := Z.land (ck.1 + byte) 0xFF in
  let ck_b := Z.land (ck.2 + ck_a) 0xFF in
  (ck_a, ck_b).

Definition ubx_checksum (data : bytes) : bytes :=
  let '(ck_a, ck_b) := fold_left fletcher_step data (0, 0) in [ck_a; ck_b].

Definition crc24q_shift (crc : Z) : Z :=
  let crc := Z.shiftl crc 1 in
  if Z.land crc 0x1000000 =? 0 then crc else Z.lxor crc 0x1864CFB.

Definition build_crc24q_table : list Z :=
  map (fun i => Z.land (Nat.iter 8 crc24q_shift (Z.shiftl (Z.of_nat i) 16)) 0xFFFFFF) (seq 0 256).

Definition CRC24Q_TABLE : list Z := Eval vm_compute in build_crc24q_table.

Definition crc24q_step (crc byte : Z) : Z :=
  Z.lxor (Z.land (Z.shiftl crc 8) 0xFFFFFF)
         (CRC24Q_TABLE.[Z.to_nat (Z.land (Z.lxor (Z.shiftr crc 16) byte) 0xFF)]).

Definition crc24q (data : bytes) : Z := fold_left crc24q_step data 0.

Definition nmea_checksum (body : bytes) : Z := fold_left Z.lxor body 0.

(** ** rover/drivers/sbg/crc.py *)

Definition kermit_shift (crc : Z) : Z :=
  if Z.land crc 1 =? 0 then Z.shiftr crc 1 else Z.lxor (Z.shiftr crc 1) 0x8408.

Definition kermit_table : list Z :=
  map (fun i => Nat.iter 8 kermit_shift (Z.of_nat i)) (seq 0 256).

Definition KERMIT_TABLE : list Z := Eval vm_compute in kermit_table.

Definition kermit_step (crc b : Z) : Z :=
  Z.lxor (KERMIT_TABLE.[Z.to_nat (Z.land (Z.lxor b crc) 0xFF)]) (Z.shiftr crc 8).

Definition crc16_kermit (data : bytes) : Z := fold_left kermit_step data 0.

(** ** rover/drivers/vectornav/checksum.py *)

Definition xmodem_shift (crc : Z) : Z :=
  if Z.land crc 0x8000 =? 0 then Z.shiftl crc 1 else Z.lxor (Z.shiftl crc 1) 0x1021.

Definition xmodem_table : list Z :=
  map (fun i => Z.land (Nat.iter 8 xmodem_shift (Z.shiftl (Z.of_nat i) 8)) 0xFFFF) (seq 0 256).

Definition XMODEM_TABLE : list Z := Eval vm_compute in xmodem_table.

Definition xmodem_step (crc b : Z) : Z :=
  Z.lxor (Z.land (Z.shiftl crc 8) 0xFFFF)
         (XMODEM_TABLE.[Z.to_nat (Z.land (Z.lxor (Z.shiftr crc 8) b) 0xFF)]).

Definition crc16_xmodem (data : bytes) : Z := fold_left xmodem_step data 0.

Definition xor8 (data : bytes) : Z := fold_left Z.lxor data 0.

(** [verify_ascii]: [$...*XX] or [$...*XXXX], CR/LF optional. *)
Definition verify_ascii (line : bytes) : bool :=
  let text := rstrip_of [13; 10] line in
  if negb (startswith text [36]) then false
  else match rfind_byte 42 text with
       | None => false
       | Some star =>
           let body := slice 1 star text in
           let given := drop (S star) text in
           match py_int 16 given with
           | None => false
           | Some value =>
               if (length given =? 2)%nat then value =? xor8 body
               else if (length given =? 4)%nat then value =? crc16_xmodem body
               else false
           end
       end.

Definition finalize_ascii (raw : bytes) (crc : bool) : bytes :=
  let cs := if crc then fmt_digits 16 4 (crc16_xmodem raw) else fmt_digits 16 2 (xor8 raw) in
  [36] ++ raw ++ [42] ++ cs ++ [13; 10].

(** ** Bit-serial references

    The textbook shift registers: one message bit per step, most significant bit first for
    CRC-24Q and XMODEM, least significant bit first (reflected) for KERMIT. *)

Definition serial_msb (w poly crc : Z) (bit : bool) : Z :=
  Z.lxor (Z.land (Z.shiftl crc 1) (Z.ones w))
         (if xorb (Z.testbit crc (w - 1)) bit then poly else 0).

Definition serial_lsb (poly crc : Z) (bit : bool) : Z :=
  Z.lxor (Z.shiftr crc 1) (if xorb (Z.testbit crc 0) bit then poly else 0).

Definition bits_msb (b : Z) : list bool := map (Z.testbit b) [7; 6; 5; 4; 3; 2; 1; 0].
Definition bits_lsb (b : Z) : list bool := map (Z.testbit b) [0; 1; 2; 3; 4; 5; 6; 7].

Definition crc_serial_msb (w poly : Z) (data : bytes) : Z :=
  fold_left (serial_msb w poly) (flat_map bits_msb data) 0.
Definition crc_serial_lsb (poly : Z) (data : bytes) : Z :=
  fold_left (serial_lsb poly) (flat_map bits_lsb data) 0.

(** ** Linearity of one byte step, jointly in the register and the byte *)

Lemma lin_if_xorb F G n m p :
  lin F -> lin G ->
  lin (fun x => if xorb (Z.testbit (F x) n) (Z.testbit (G x) m) then p else 0).
Proof.
  intros HF HG x y. rewrite HF, HG, !Z.lxor_spec.
  destruct (Z.testbit (F x) n), (Z.testbit (G x) m), (Z.testbit (F y) n), (Z.testbit (G y) m);
    simpl; rewrite ?Z.lxor_0_r, ?Z.lxor_0_l, ?Z.lxor_nilpotent; done.
Qed.

Lemma lin_serial_msb w poly F G m :
  lin F -> lin G -> lin (fun x => serial_msb w poly (F x) (Z.testbit (G x) m)).
Proof.
  intros HF HG. unfold serial_msb. apply lin_lxor.
  - apply (lin_comp (fun y => Z.land y (Z.ones w))); [apply lin_land|].
    apply (lin_comp (fun y => Z.shiftl y 1)); [apply lin_shiftl | done].
  - by apply lin_if_xorb.
Qed.

Lemma lin_serial_lsb poly F G m :
  lin F -> lin G -> lin (fun x => serial_lsb poly (F x) (Z.testbit (G x) m)).
Proof.
  intros HF HG. unfold serial_lsb. apply lin_lxor.
  - apply (lin_comp (fun y => Z.shiftr y 1)); [apply lin_shiftr | done].
  - by apply lin_if_xorb.
Qed.

Lemma land_pow2_testbit x n : 0 <= n -> (Z.land x (2 ^ n) =? 0) = negb (Z.testbit x n).
Proof.
  intros Hn. destruct (Z.testbit x n) eqn:E; simpl.
  - apply Z.eqb_neq. intros H. apply (f_equal (fun y => Z.testbit y n)) in H.
    rewrite Z.land_spec, Z.pow2_bits_true, Z.bits_0, E in H by done. done.
  - apply Z.eqb_eq. apply Z.bits_inj'. intros k Hk.
    rewrite Z.land_spec, Z.bits_0. destruct (Z.eq_dec k n) as [->|].
    + by rewrite E.
    + rewrite Z.pow2_bits_false by lia. apply andb_false_r.
Qed.

Lemma lin_ext f g : (forall x, f x = g x) -> lin f -> lin g.
Proof. intros H Hf x y. by rewrite <- !H, Hf. Qed.

Lemma lin_crc24q_shift : lin crc24q_shift.
Proof.
  apply (lin_ext (fun x => Z.lxor (Z.shiftl x 1)
           (if Z.testbit (Z.shiftl x 1) 24 then 0x1864CFB else 0))).
  - intros x. unfold crc24q_shift. change 0x1000000 with (2 ^ 24).
    rewrite land_pow2_testbit by lia. destruct (Z.testbit _ _); simpl; [done|apply Z.lxor_0_r].
  - apply lin_lxor; [apply lin_shiftl|].
    apply (lin_comp (fun y => if Z.testbit y 24 then 0x1864CFB else 0)); auto with lin.
Qed.

Lemma lin_kermit_shift : lin kermit_shift.
Proof.
  apply (lin_ext (fun x => Z.lxor (Z.shiftr x 1) (if Z.testbit x 0 then 0x8408 else 0))).
  - intros x. unfold kermit_shift. change (Z.land x 1) with (Z.land x (2 ^ 0)).
    rewrite land_pow2_testbit by lia. destruct (Z.testbit x 0); simpl; [done|apply Z.lxor_0_r].
  - auto with lin.
Qed.

Lemma lin_xmodem_shift : lin xmodem_shift.
Proof.
  apply (lin_ext (fun x => Z.lxor (Z.shiftl x 1) (if Z.testbit x 15 then 0x1021 else 0))).
  - intros x. unfold xmodem_shift. change 0x8000 with (2 ^ 15).
    rewrite land_pow2_testbit by lia. destruct (Z.testbit x 15); simpl; [done|apply Z.lxor_0_r].
  - auto with lin.
Qed.

(** Two byte steps that are linear in (register, byte) and agree on the unit vectors agree. *)
Lemma joint_basis (F G : Z -> Z -> Z) (w n : nat) :
  n = (w + 8)%nat ->
  lin (fun x => F (Z.land x (Z.ones (Z.of_nat w))) (Z.shiftr x (Z.of_nat w))) ->
  lin (fun x => G (Z.land x (Z.ones (Z.of_nat w))) (Z.shiftr x (Z.of_nat w))) ->
  forallb (fun i => let x := 2 ^ Z.of_nat i in
     F (Z.land x (Z.ones (Z.of_nat w))) (Z.shiftr x (Z.of_nat w))
     =? G (Z.land x (Z.ones (Z.of_nat w))) (Z.shiftr x (Z.of_nat w))) (seq 0 n) = true ->
  forall c b, 0 <= c < 2 ^ Z.of_nat w -> is_byte b -> F c b = G c b.
Proof.
  intros -> HF HG Hb c b Hc [Hb0 Hb1].
  set (W := Z.of_nat w) in *.
  set (x := c + b * 2 ^ W).
  assert (Hx : 0 <= x < 2 ^ Z.of_nat (w + 8)).
  { unfold x. rewrite Nat2Z.inj_add. fold W. rewrite Z.pow_add_r by lia. simpl (2 ^ Z.of_nat 8). nia. }
  assert (E1 : Z.land x (Z.ones W) = c).
  { unfold x. rewrite Z.land_ones, Z.mod_add, Z.mod_small by lia. done. }
  assert (E2 : Z.shiftr x W = b).
  { unfold x. rewrite Z.shiftr_div_pow2, Z.div_add, Z.div_small by lia. lia. }
  pose proof (lin_basis _ _ (w + 8) HF HG) as L. cbv beta in L.
  rewrite <- E1 at 1 2. rewrite <- E2. rewrite L; [done| |done].
  intros i Hi. apply Z.eqb_eq. apply (below_forallb _ _ Hb i Hi).
Qed.

(** ** The tables, as linear functions of the index *)

Definition tab24q (i : Z) := Z.land (Nat.iter 8 crc24q_shift (Z.shiftl i 16)) 0xFFFFFF.
Definition tabkermit (i : Z) := Nat.iter 8 kermit_shift i.
Definition tabxmodem (i : Z) := Z.land (Nat.iter 8 xmodem_shift (Z.shiftl i 8)) 0xFFFF.

Lemma table_lookup (t : list Z) (f : Z -> Z) :
  forallb (fun i => t.[i] =? f (Z.of_nat i)) (seq 0 256) = true ->
  forall x, t.[Z.to_nat (Z.land x 0xFF)] = f (Z.land x 0xFF).
Proof.
  intros H x. pose proof (is_byte_land x) as [H0 H1]. change 255 with 0xFF in *.
  set (y := Z.land x 0xFF) in *. clearbody y.
  pose proof (below_forallb _ _ H (Z.to_nat y) ltac:(lia)) as E.
  apply Z.eqb_eq in E. rewrite E. f_equal. lia.
Qed.

Lemma crc24q_table_eq x : CRC24Q_TABLE.[Z.to_nat (Z.land x 0xFF)] = tab24q (Z.land x 0xFF).
Proof. apply table_lookup. vm_compute. reflexivity. Qed.
Lemma kermit_table_eq x : KERMIT_TABLE.[Z.to_nat (Z.land x 0xFF)] = tabkermit (Z.land x 0xFF).
Proof. apply table_lookup. vm_compute. reflexivity. Qed.
Lemma xmodem_table_eq x : XMODEM_TABLE.[Z.to_nat (Z.land x 0xFF)] = tabxmodem (Z.land x 0xFF).
Proof. apply table_lookup. vm_compute. reflexivity. Qed.

Lemma lin_tab24q : lin tab24q.
Proof.
  unfold tab24q. apply (lin_comp (fun y => Z.land y 0xFFFFFF)); [apply lin_land|].
  apply (lin_comp (Nat.iter 8 crc24q_shift)); [apply lin_iter, lin_crc24q_shift | apply lin_shiftl].
Qed.
Lemma lin_tabkermit : lin tabkermit.
Proof. apply lin_iter, lin_kermit_shift. Qed.
Lemma lin_tabxmodem : lin tabxmodem.
Proof.
  unfold tabxmodem. apply (lin_comp (fun y => Z.land y 0xFFFF)); [apply lin_land|].
  apply (lin_comp (Nat.iter 8 xmodem_shift)); [apply lin_iter, lin_xmodem_shift | apply lin_shiftl].
Qed.
#[export] Hint Resolve lin_tab24q lin_tabkermit lin_tabxmodem : lin.

(** The byte steps with the table read as its linear function. *)
Definition crc24q_lin (c b : Z) : Z :=
  Z.lxor (Z.land (Z.shiftl c 8) 0xFFFFFF) (tab24q (Z.land (Z.lxor (Z.shiftr c 16) b) 0xFF)).
Definition kermit_lin (c b : Z) : Z :=
  Z.lxor (tabkermit (Z.land (Z.lxor b c) 0xFF)) (Z.shiftr c 8).
Definition xmodem_lin (c b : Z) : Z :=
  Z.lxor (Z.land (Z.shiftl c 8) 0xFFFF) (tabxmodem (Z.land (Z.lxor (Z.shiftr c 8) b) 0xFF)).

Lemma crc24q_step_lin c b : crc24q_step c b = crc24q_lin c b.
Proof. unfold crc24q_step, crc24q_lin. by rewrite crc24q_table_eq. Qed.
Lemma kermit_step_lin c b : kermit_step c b = kermit_lin c b.
Proof. unfold kermit_step, kermit_lin. by rewrite kermit_table_eq. Qed.
Lemma xmodem_step_lin c b : xmodem_step c b = xmodem_lin c b.
Proof. unfold xmodem_step, xmodem_lin. by rewrite xmodem_table_eq. Qed.

(** Closes linearity goals built from shifts, masks, xors and the tables. *)
Ltac lin_tac :=
  repeat first
    [ match goal with
      | |- lin (fun x => x) => apply lin_id
      | |- lin (fun x => Z.lxor (@?f x) (@?g x)) => refine (lin_lxor f g _ _)
      | |- lin (fun x => Z.land (@?f x) ?m) =>
          refine (lin_comp (fun y => Z.land y m) f (lin_land m) _)
      | |- lin (fun x => Z.shiftl (@?f x) ?m) =>
          refine (lin_comp (fun y => Z.shiftl y m) f (lin_shiftl m) _)
      | |- lin (fun x => Z.shiftr (@?f x) ?m) =>
          refine (lin_comp (fun y => Z.shiftr y m) f (lin_shiftr m) _)
      | |- lin (fun x => tab24q (@?f x)) => refine (lin_comp tab24q f lin_tab24q _)
      | |- lin (fun x => tabkermit (@?f x)) => refine (lin_comp tabkermit f lin_tabkermit _)
      | |- lin (fun x => tabxmodem (@?f x)) => refine (lin_comp tabxmodem f lin_tabxmodem _)
      | |- lin (fun x => serial_msb ?w ?p (@?f x) (Z.testbit (@?g x) ?m)) =>
          refine (lin_serial_msb w p f g m _ _)
      | |- lin (fun x => serial_lsb ?p (@?f x) (Z.testbit (@?g x) ?m)) =>
          refine (lin_serial_lsb p f g m _ _)
      end ].

Definition serial_byte_msb (w poly crc b : Z) : Z := fold_left (serial_msb w poly) (bits_msb b) crc.
Definition serial_byte_lsb (poly crc b : Z) : Z := fold_left (serial_lsb poly) (bits_lsb b) crc.

Lemma crc24q_step_serial c b :
  0 <= c < 2 ^ 24 -> is_byte b -> crc24q_step c b = serial_byte_msb 24 0x864CFB c b.
Proof.
  rewrite crc24q_step_lin. apply (joint_basis crc24q_lin (serial_byte_msb 24 0x864CFB) 24 32).
  - done.
  - unfold crc24q_lin. lin_tac.
  - unfold serial_byte_msb. cbv [bits_msb map fold_left]. lin_tac.
  - vm_compute. reflexivity.
Qed.

Lemma xmodem_step_serial c b :
  0 <= c < 2 ^ 16 -> is_byte b -> xmodem_step c b = serial_byte_msb 16 0x1021 c b.
Proof.
  rewrite xmodem_step_lin. apply (joint_basis xmodem_lin (serial_byte_msb 16 0x1021) 16 24).
  - done.
  - unfold xmodem_lin. lin_tac.
  - unfold serial_byte_msb. cbv [bits_msb map fold_left]. lin_tac.
  - vm_compute. reflexivity.
Qed.

Lemma kermit_step_serial c b :
  0 <= c < 2 ^ 16 -> is_byte b -> kermit_step c b = serial_byte_lsb 0x8408 c b.
Proof.
  rewrite kermit_step_lin. apply (joint_basis kermit_lin (serial_byte_lsb 0x8408) 16 24).
  - done.
  - unfold kermit_lin. lin_tac.
  - unfold serial_byte_lsb. cbv [bits_lsb map fold_left]. lin_tac.
  - vm_compute. reflexivity.
Qed.

(** ** Ranges *)

Lemma serial_msb_bound w poly c bit :
  0 <= w -> 0 <= poly < 2 ^ w -> 0 <= serial_msb w poly c bit < 2 ^ w.
Proof.
  intros Hw Hp. unfold serial_msb. apply lxor_bound; [done|by apply land_ones_bound|].
  destruct (xorb _ _); [done|]. pose proof (Z.pow_pos_nonneg 2 w). lia.
Qed.

Lemma serial_lsb_bound poly c bit :
  0 <= poly < 2 ^ 16 -> 0 <= c < 2 ^ 16 -> 0 <= serial_lsb poly c bit < 2 ^ 16.
Proof.
  intros Hp Hc. unfold serial_lsb. apply lxor_bound; [done| |destruct (xorb _ _); lia].
  rewrite Z.shiftr_div_pow2 by lia.
  split; [apply Z.div_pos; lia | apply Z.div_lt_upper_bound; lia].
Qed.

Section FoldSerial.
Context (step : Z -> Z -> Z) (sbit : Z -> bool -> Z) (bits : Z -> list bool) (inRange : Z -> Prop).
Hypothesis step_serial : forall c b, inRange c -> is_byte b -> step c b = fold_left sbit (bits b) c.
Hypothesis range_bit : forall c b, inRange c -> inRange (sbit c b).

Lemma fold_bits_range l c : inRange c -> inRange (fold_left sbit l c).
Proof. revert c. induction l; simpl; auto. Qed.

Lemma fold_step_serial data c :
  bytes_ok data -> inRange c ->
  fold_left step data c = fold_left sbit (flat_map bits data) c
  /\ inRange (fold_left step data c).
Proof.
  intros Hd. revert c. induction Hd as [|b data Hb Hd IH]; intros c Hc; simpl; [done|].
  rewrite fold_left_app, <- step_serial by done. apply IH.
  rewrite step_serial by done. by apply fold_bits_range.
Qed.
End FoldSerial.

Lemma crc24q_fold data c :
  bytes_ok data -> 0 <= c < 2 ^ 24 ->
  fold_left crc24q_step data c = fold_left (serial_msb 24 0x864CFB) (flat_map bits_msb data) c
  /\ 0 <= fold_left crc24q_step data c < 2 ^ 24.
Proof.
  apply (fold_step_serial _ _ bits_msb (fun c => 0 <= c < 2 ^ 24)).
  - intros. rewrite crc24q_step_serial by done. reflexivity.
  - intros. by apply serial_msb_bound.
Qed.

Lemma xmodem_fold data c :
  bytes_ok data -> 0 <= c < 2 ^ 16 ->
  fold_left xmodem_step data c = fold_left (serial_msb 16 0x1021) (flat_map bits_msb data) c
  /\ 0 <= fold_left xmodem_step data c < 2 ^ 16.
Proof.
  apply (fold_step_serial _ _ bits_msb (fun c => 0 <= c < 2 ^ 16)).
  - intros. rewrite xmodem_step_serial by done. reflexivity.
  - intros. by apply serial_msb_bound.
Qed.

Lemma kermit_fold data c :
  bytes_ok data -> 0 <= c < 2 ^ 16 ->
  fold_left kermit_step data c = fold_left (serial_lsb 0x8408) (flat_map bits_lsb data) c
  /\ 0 <= fold_left kermit_step data c < 2 ^ 16.
Proof.
  apply (fold_step_serial _ _ bits_lsb (fun c => 0 <= c < 2 ^ 16)).
  - intros. rewrite kermit_step_serial by done. reflexivity.
  - intros. by apply serial_lsb_bound.
Qed.

Lemma crc24q_range data : bytes_ok data -> 0 <= crc24q data < 2 ^ 24.
Proof. intros. by apply crc24q_fold. Qed.
Lemma crc16_kermit_range data : bytes_ok data -> 0 <= crc16_kermit data < 2 ^ 16.
Proof. intros. by apply kermit_fold. Qed.
Lemma crc16_xmodem_range data : bytes_ok data -> 0 <= crc16_xmodem data < 2 ^ 16.
Proof. intros. by apply xmodem_fold. Qed.

(** The three table-driven CRCs compute the bit-serial shift registers of
    their polynomials: CRC-24Q (0x864CFB) and XMODEM (0x1021) most significant bit first,
    KERMIT (0x8408) reflected, on every byte string. *)
Theorem crc_tables_are_bit_serial data :
  bytes_ok data ->
  crc24q data = crc_serial_msb 24 0x864CFB data
  /\ crc16_xmodem data = crc_serial_msb 16 0x1021 data
  /\ crc16_kermit data = crc_serial_lsb 0x8408 data.
Proof.
  intros H. split_and!; [apply crc24q_fold | apply xmodem_fold | apply kermit_fold]; done.
Qed.

Lemma crc_tables_are_bit_serial_witness :
  crc24q [0xD3; 0; 1] = crc_serial_msb 24 0x864CFB [0xD3; 0; 1]
  /\ crc16_xmodem [0xD3; 0; 1] = crc_serial_msb 16 0x1021 [0xD3; 0; 1]
  /\ crc16_kermit [0xD3; 0; 1] = crc_serial_lsb 0x8408 [0xD3; 0; 1].
Proof. apply (crc_tables_are_bit_serial [0xD3; 0; 1]). repeat constructor; unfold is_byte; lia. Defined.

(** ** Detection of a corrupted byte *)

(** [m] and [m'] have the same length and differ in exactly one byte. *)
Definition one_byte_off (m m' : bytes) : Prop :=
  exists p a b s, m = p ++ a :: s /\ m' = p ++ b :: s /\ a <> b.

(** A left fold whose step cancels on both sides separates such messages. *)
Section Detect.
Context {S : Type} (step : S -> Z -> S) (inRange : S -> Prop).
Hypothesis range : forall c b, inRange c -> is_byte b -> inRange (step c b).
Hypothesis cancel_state : forall c c' b,
  inRange c -> inRange c' -> is_byte b -> step c b = step c' b -> c = c'.
Hypothesis cancel_byte : forall c a b,
  inRange c -> is_byte a -> is_byte b -> step c a = step c b -> a = b.

Lemma fold_range data c : bytes_ok data -> inRange c -> inRange (fold_left step data c).
Proof. intros H. revert c. induction H; simpl; auto. Qed.

Lemma fold_cancel s c c' :
  bytes_ok s -> inRange c -> inRange c' -> fold_left step s c = fold_left step s c' -> c = c'.
Proof.
  intros H. revert c c'. induction H as [|b s Hb Hs IH]; intros c c' Hc Hc'; simpl; [done|].
  intros E. apply IH in E; auto. by apply (cancel_state c c' b).
Qed.

Lemma fold_detects m m' c :
  bytes_ok m -> bytes_ok m' -> inRange c -> one_byte_off m m' ->
  fold_left step m c <> fold_left step m' c.
Proof.
  intros Hm Hm' Hc (p & a & b & s & -> & -> & Hab) E.
  apply Forall_app in Hm as [Hp Ha], Hm' as [_ Hb].
  inversion_clear Ha as [|? ? Ha1 Hs]. inversion_clear Hb as [|? ? Hb1 _].
  rewrite !fold_left_app in E. simpl in E.
  pose proof (fold_range p c Hp Hc) as Hr.
  apply fold_cancel in E; auto.
  apply Hab. by apply (cancel_byte (fold_left step p c)).
Qed.
End Detect.

(** A linear map with a left inverse on its unit vectors is injective there. *)
Lemma lin_left_inverse_cancel f g (n : nat) x y :
  lin f -> lin g ->
  forallb (fun i => g (f (2 ^ Z.of_nat i)) =? 2 ^ Z.of_nat i) (seq 0 n) = true ->
  0 <= x < 2 ^ Z.of_nat n -> 0 <= y < 2 ^ Z.of_nat n -> f x = f y -> x = y.
Proof.
  intros Hf Hg Hb Hx Hy E.
  assert (forall z, 0 <= z < 2 ^ Z.of_nat n -> g (f z) = z) as I.
  { intros z. apply (lin_basis (fun z => g (f z)) (fun z => z) n).
    - by apply lin_comp.
    - apply lin_id.
    - intros i Hi. apply Z.eqb_eq. apply (below_forallb _ _ Hb i Hi). }
  rewrite <- (I x), <- (I y), E by done. done.
Qed.

(** A linear table without zero entries past index 0 is injective on bytes. *)
Lemma lin_tab_inj (t : Z -> Z) x y :
  lin t -> forallb (fun i => negb (t (Z.of_nat (S i)) =? 0)) (seq 0 255) = true ->
  is_byte x -> is_byte y -> t x = t y -> x = y.
Proof.
  intros Ht Hz Hx Hy E. unfold is_byte in *.
  assert (E0 : t (Z.lxor x y) = 0) by (rewrite Ht, E; apply Z.lxor_nilpotent).
  pose proof (lxor_bound 8 x y ltac:(lia) Hx Hy) as Hb.
  destruct (Z.eq_dec (Z.lxor x y) 0) as [Z0|N0]; [by apply Z.lxor_eq in Z0|].
  pose proof (below_forallb _ _ Hz (Z.to_nat (Z.lxor x y - 1)) ltac:(lia)) as Q. cbv beta in Q.
  replace (Z.of_nat (S (Z.to_nat (Z.lxor x y - 1)))) with (Z.lxor x y) in Q by lia.
  rewrite E0 in Q. done.
Qed.

(** The inverse shift registers. *)
Definition unshift_msb (poly x : Z) : Z :=
  Z.shiftr (Z.lxor x (if Z.testbit x 0 then poly else 0)) 1.
Definition unshift_lsb (x : Z) : Z :=
  Z.lxor (Z.shiftl (Z.lxor x (if Z.testbit x 15 then 0x8408 else 0)) 1)
         (if Z.testbit x 15 then 1 else 0).

Lemma lin_unshift_msb p : lin (unshift_msb p).
Proof.
  apply (lin_comp (fun y => Z.shiftr y 1)); [apply lin_shiftr|].
  apply lin_lxor; [apply lin_id | apply lin_if_testbit].
Qed.
Lemma lin_unshift_lsb : lin unshift_lsb.
Proof.
  apply lin_lxor; [|apply lin_if_testbit].
  apply (lin_comp (fun y => Z.shiftl y 1)); [apply lin_shiftl|].
  apply lin_lxor; [apply lin_id | apply lin_if_testbit].
Qed.

(** The byte step splits into a register part and a byte part. *)
Lemma crc24q_lin_split c b :
  is_byte b -> crc24q_lin c b = Z.lxor (crc24q_lin c 0) (tab24q b).
Proof.
  intros Hb. unfold crc24q_lin. rewrite Z.lxor_0_r, Z.lxor_assoc. f_equal.
  rewrite (lin_land 0xFF), lin_tab24q. f_equal. f_equal.
  change 0xFF with (Z.ones 8). rewrite Z.land_ones, Z.mod_small by (unfold is_byte in Hb; lia). done.
Qed.
Lemma xmodem_lin_split c b :
  is_byte b -> xmodem_lin c b = Z.lxor (xmodem_lin c 0) (tabxmodem b).
Proof.
  intros Hb. unfold xmodem_lin. rewrite Z.lxor_0_r, Z.lxor_assoc. f_equal.
  rewrite (lin_land 0xFF), lin_tabxmodem. f_equal. f_equal.
  change 0xFF with (Z.ones 8). rewrite Z.land_ones, Z.mod_small by (unfold is_byte in Hb; lia). done.
Qed.
Lemma kermit_lin_split c b :
  is_byte b -> kermit_lin c b = Z.lxor (kermit_lin c 0) (tabkermit b).
Proof.
  intros Hb. unfold kermit_lin. rewrite Z.lxor_0_l.
  rewrite (lin_land 0xFF), lin_tabkermit.
  replace (Z.land b 0xFF) with b.
  - rewrite (Z.lxor_comm (tabkermit b)), !Z.lxor_assoc. f_equal. apply Z.lxor_comm.
  - change 0xFF with (Z.ones 8). rewrite Z.land_ones, Z.mod_small by (unfold is_byte in Hb; lia). done.
Qed.

Lemma lxor_cancel_r a b c : Z.lxor a c = Z.lxor b c -> a = b.
Proof.
  intros E. apply (f_equal (fun z => Z.lxor z c)) in E.
  rewrite !Z.lxor_assoc, Z.lxor_nilpotent, !Z.lxor_0_r in E. done.
Qed.
Lemma lxor_cancel_l a b c : Z.lxor c a = Z.lxor c b -> a = b.
Proof. rewrite !(Z.lxor_comm c). apply lxor_cancel_r. Qed.

Lemma lin_crc24q_lin_0 : lin (fun c => crc24q_lin c 0).
Proof.
  apply (lin_ext (fun c => Z.lxor (Z.land (Z.shiftl c 8) 0xFFFFFF)
                             (tab24q (Z.land (Z.shiftr c 16) 0xFF)))).
  - intros. unfold crc24q_lin. by rewrite Z.lxor_0_r.
  - lin_tac.
Qed.
Lemma lin_xmodem_lin_0 : lin (fun c => xmodem_lin c 0).
Proof.
  apply (lin_ext (fun c => Z.lxor (Z.land (Z.shiftl c 8) 0xFFFF)
                             (tabxmodem (Z.land (Z.shiftr c 8) 0xFF)))).
  - intros. unfold xmodem_lin. by rewrite Z.lxor_0_r.
  - lin_tac.
Qed.
Lemma lin_kermit_lin_0 : lin (fun c => kermit_lin c 0).
Proof.
  apply (lin_ext (fun c => Z.lxor (tabkermit (Z.land c 0xFF)) (Z.shiftr c 8))).
  - intros. unfold kermit_lin. by rewrite Z.lxor_0_l.
  - lin_tac.
Qed.

Lemma crc24q_cancel_state c c' b :
  0 <= c < 2 ^ 24 -> 0 <= c' < 2 ^ 24 -> is_byte b -> crc24q_step c b = crc24q_step c' b -> c = c'.
Proof.
  rewrite !crc24q_step_lin. intros Hc Hc' Hb. rewrite (crc24q_lin_split c), (crc24q_lin_split c') by done.
  intros E%lxor_cancel_r.
  apply (lin_left_inverse_cancel (fun c => crc24q_lin c 0) (Nat.iter 8 (unshift_msb 0x1864CFB)) 24);
    try done; [apply lin_crc24q_lin_0 | apply lin_iter, lin_unshift_msb].
Qed.
Lemma xmodem_cancel_state c c' b :
  0 <= c < 2 ^ 16 -> 0 <= c' < 2 ^ 16 -> is_byte b -> xmodem_step c b = xmodem_step c' b -> c = c'.
Proof.
  rewrite !xmodem_step_lin. intros Hc Hc' Hb. rewrite (xmodem_lin_split c), (xmodem_lin_split c') by done.
  intros E%lxor_cancel_r.
  apply (lin_left_inverse_cancel (fun c => xmodem_lin c 0) (Nat.iter 8 (unshift_msb 0x11021)) 16);
    try done; [apply lin_xmodem_lin_0 | apply lin_iter, lin_unshift_msb].
Qed.
Lemma kermit_cancel_state c c' b :
  0 <= c < 2 ^ 16 -> 0 <= c' < 2 ^ 16 -> is_byte b -> kermit_step c b = kermit_step c' b -> c = c'.
Proof.
  rewrite !kermit_step_lin. intros Hc Hc' Hb. rewrite (kermit_lin_split c), (kermit_lin_split c') by done.
  intros E%lxor_cancel_r.
  apply (lin_left_inverse_cancel (fun c => kermit_lin c 0) (Nat.iter 8 unshift_lsb) 16);
    try done; [apply lin_kermit_lin_0 | apply lin_iter, lin_unshift_lsb].
Qed.

Lemma crc24q_cancel_byte c a b :
  is_byte a -> is_byte b -> crc24q_step c a = crc24q_step c b -> a = b.
Proof.
  rewrite !crc24q_step_lin. intros Ha Hb. rewrite (crc24q_lin_split c a), (crc24q_lin_split c b) by done.
  intros E%lxor_cancel_l. by apply (lin_tab_inj tab24q); [apply lin_tab24q| | | |].
Qed.
Lemma xmodem_cancel_byte c a b :
  is_byte a -> is_byte b -> xmodem_step c a = xmodem_step c b -> a = b.
Proof.
  rewrite !xmodem_step_lin. intros Ha Hb. rewrite (xmodem_lin_split c a), (xmodem_lin_split c b) by done.
  intros E%lxor_cancel_l. by apply (lin_tab_inj tabxmodem); [apply lin_tabxmodem| | | |].
Qed.
Lemma kermit_cancel_byte c a b :
  is_byte a -> is_byte b -> kermit_step c a = kermit_step c b -> a = b.
Proof.
  rewrite !kermit_step_lin. intros Ha Hb. rewrite (kermit_lin_split c a), (kermit_lin_split c b) by done.
  intros E%lxor_cancel_l. by apply (lin_tab_inj tabkermit); [apply lin_tabkermit| | | |].
Qed.

Lemma crc24q_step_range c b : 0 <= c < 2 ^ 24 -> is_byte b -> 0 <= crc24q_step c b < 2 ^ 24.
Proof. intros Hc Hb. apply (crc24q_fold [b] c); [by apply Forall_singleton|done]. Qed.
Lemma xmodem_step_range c b : 0 <= c < 2 ^ 16 -> is_byte b -> 0 <= xmodem_step c b < 2 ^ 16.
Proof. intros Hc Hb. apply (xmodem_fold [b] c); [by apply Forall_singleton|done]. Qed.
Lemma kermit_step_range c b : 0 <= c < 2 ^ 16 -> is_byte b -> 0 <= kermit_step c b < 2 ^ 16.
Proof. intros Hc Hb. apply (kermit_fold [b] c); [by apply Forall_singleton|done]. Qed.

Lemma crc24q_detects m m' :
  bytes_ok m -> bytes_ok m' -> one_byte_off m m' -> crc24q m <> crc24q m'.
Proof.
  intros. apply (fold_detects crc24q_step (fun c => 0 <= c < 2 ^ 24)); try done;
    eauto using crc24q_step_range, crc24q_cancel_state, crc24q_cancel_byte.
Qed.
Lemma crc16_xmodem_detects m m' :
  bytes_ok m -> bytes_ok m' -> one_byte_off m m' -> crc16_xmodem m <> crc16_xmodem m'.
Proof.
  intros. apply (fold_detects xmodem_step (fun c => 0 <= c < 2 ^ 16)); try done;
    eauto using xmodem_step_range, xmodem_cancel_state, xmodem_cancel_byte.
Qed.
Lemma crc16_kermit_detects m m' :
  bytes_ok m -> bytes_ok m' -> one_byte_off m m' -> crc16_kermit m <> crc16_kermit m'.
Proof.
  intros. apply (fold_detects kermit_step (fun c => 0 <= c < 2 ^ 16)); try done;
    eauto using kermit_step_range, kermit_cancel_state, kermit_cancel_byte.
Qed.
Lemma nmea_checksum_detects m m' :
  bytes_ok m -> bytes_ok m' -> one_byte_off m m' -> nmea_checksum m <> nmea_checksum m'.
Proof.
  intros. apply (fold_detects Z.lxor (fun _ => True)); try done;
    eauto using lxor_cancel_l, lxor_cancel_r.
Qed.

(** *** Fletcher-8 *)

Lemma land_255 x : Z.land x 0xFF = x mod 256.
Proof. change 0xFF with (Z.ones 8). by rewrite Z.land_ones by lia. Qed.

Lemma mod_cancel a b c : is_byte a -> is_byte b -> (a + c) mod 256 = (b + c) mod 256 -> a = b.
Proof.
  unfold is_byte. intros Ha Hb E.
  pose proof (Z.div_mod (a + c) 256). pose proof (Z.div_mod (b + c) 256). lia.
Qed.

Definition fletcher_range (ck : Z * Z) : Prop := is_byte ck.1 /\ is_byte ck.2.

Lemma fletcher_range_step ck b : fletcher_range (fletcher_step ck b).
Proof. split; simpl; apply is_byte_land. Qed.

Lemma ubx_checksum_detects m m' :
  bytes_ok m -> bytes_ok m' -> one_byte_off m m' -> ubx_checksum m <> ubx_checksum m'.
Proof.
  intros Hm Hm' Ho E. unfold ubx_checksum in E.
  destruct (fold_left fletcher_step m (0, 0)) as [a1 b1] eqn:E1.
  destruct (fold_left fletcher_step m' (0, 0)) as [a2 b2] eqn:E2.
  injection E as -> ->. rewrite <- E2 in E1. revert E1.
  apply (fold_detects fletcher_step fletcher_range); try done.
  - intros. apply fletcher_range_step.
  - intros [a b] [a' b'] c [Ha Hb] [Ha' Hb'] _ [= H1 H2]. simpl in *.
    rewrite !land_255 in *.
    assert (a = a') as -> by (by apply (mod_cancel a a' c)).
    f_equal. by eapply (mod_cancel b b').
  - intros [a b] c d _ Hc Hd [= H1 _]. simpl in H1. rewrite !land_255 in H1.
    rewrite !(Z.add_comm a) in H1. by eapply mod_cancel.
Qed.

Lemma is_byte_ubx_checksum data : bytes_ok data -> bytes_ok (ubx_checksum data).
Proof.
  intros _. unfold ubx_checksum.
  assert (fletcher_range (fold_left fletcher_step data (0, 0))) as H.
  { assert (forall ck, fletcher_range ck -> fletcher_range (fold_left fletcher_step data ck)) as F.
    { induction data; simpl; intros; [done|]. apply IHdata, fletcher_range_step. }
    apply F. split; unfold is_byte; simpl; lia. }
  destruct (fold_left _ _ _) as [a b], H as [Ha Hb]. simpl in *.
  constructor; [done|]. by apply Forall_singleton.
Qed.

Lemma length_ubx_checksum data : length (ubx_checksum data) = 2%nat.
Proof. unfold ubx_checksum. by destruct (fold_left _ _ _). Qed.
#[export] Hint Rewrite length_ubx_checksum : len.
#[export] Hint Resolve is_byte_ubx_checksum : mtrtk.

(** C19.  Every checksum of the framed protocols (UBX Fletcher-8, RTCM
    CRC-24Q, NMEA XOR, SBG CRC-16/KERMIT, VectorNav CRC-16/XMODEM) changes when exactly one
    byte of the message changes. *)
Theorem checksums_detect_one_byte m m' :
  bytes_ok m -> bytes_ok m' -> one_byte_off m m' ->
  ubx_checksum m <> ubx_checksum m' /\ crc24q m <> crc24q m' /\ nmea_checksum m <> nmea_checksum m'
  /\ crc16_kermit m <> crc16_kermit m' /\ crc16_xmodem m <> crc16_xmodem m'.
Proof.
  intros. split_and!;
    auto using ubx_checksum_detects, crc24q_detects, nmea_checksum_detects,
      crc16_kermit_detects, crc16_xmodem_detects.
Qed.

Lemma checksums_detect_one_byte_witness :
  crc24q [1; 2; 3] <> crc24q [1; 7; 3] /\ nmea_checksum [1; 2; 3] <> nmea_checksum [1; 7; 3].
Proof.
  destruct (checksums_detect_one_byte [1; 2; 3] [1; 7; 3]) as (_ & H1 & H2 & _).
  - repeat constructor; unfold is_byte; lia.
  - repeat constructor; unfold is_byte; lia.
  - exists [1], 2, 7, [3]. by repeat split.
  - by split.
Defined.

(** ** Residues and the VectorNav ASCII line *)

(** A table index with a clear low byte in its entry is 0. *)
Lemma xmodem_low_byte i : is_byte i -> Z.land (tabxmodem i) 0xFF = 0 -> i = 0.
Proof.
  intros Hi E. destruct (Z.eq_dec i 0) as [|N]; [done|]. exfalso.
  assert (Q : forallb (fun i => negb (Z.land (tabxmodem (Z.of_nat (S i))) 0xFF =? 0)) (seq 0 255) = true)
    by (vm_compute; reflexivity).
  unfold is_byte in Hi.
  pose proof (below_forallb _ _ Q (Z.to_nat (i - 1)) ltac:(lia)) as H. cbv beta in H.
  replace (Z.of_nat (S (Z.to_nat (i - 1)))) with i in H by lia. by rewrite E in H.
Qed.

Lemma xmodem_step_low c b :
  0 <= c < 2 ^ 16 -> is_byte b -> Z.land (xmodem_step c b) 0xFF = 0 -> b = Z.shiftr c 8.
Proof.
  intros Hc Hb. rewrite xmodem_step_lin. unfold xmodem_lin.
  assert (Hs : 0 <= Z.shiftr c 8 < 2 ^ 8).
  { rewrite Z.shiftr_div_pow2 by lia. split; [apply Z.div_pos; lia | apply Z.div_lt_upper_bound; lia]. }
  rewrite (lin_land 0xFF).
  replace (Z.land (Z.land (Z.shiftl c 8) 0xFFFF) 0xFF) with 0.
  - rewrite Z.lxor_0_l. intros E.
    assert (E2 : Z.land (Z.lxor (Z.shiftr c 8) b) 0xFF = 0)
      by (apply xmodem_low_byte; [apply is_byte_land | done]).
    rewrite land_255, Z.mod_small in E2 by (apply (lxor_bound 8); [lia|done|done]).
    symmetry. by apply Z.lxor_eq.
  - rewrite <- Z.land_assoc. change (Z.land 0xFFFF 0xFF) with (Z.ones 8).
    rewrite Z.land_ones, Z.shiftl_mul_pow2, Z.mod_mul by lia. done.
Qed.

(** Feeding the register its own high byte only shifts it. *)
Lemma xmodem_step_self c : xmodem_step c (Z.shiftr c 8) = Z.land (Z.shiftl c 8) 0xFFFF.
Proof.
  rewrite xmodem_step_lin. unfold xmodem_lin. rewrite Z.lxor_nilpotent. apply Z.lxor_0_r.
Qed.

Lemma shl8_testbit c n :
  0 <= n -> Z.testbit (Z.land (Z.shiftl c 8) 0xFFFF) n = ((8 <=? n) && (n <? 16) && Z.testbit c (n - 8))%bool.
Proof.
  intros Hn. change 0xFFFF with (Z.ones 16). rewrite Z.land_spec, Z.testbit_ones_nonneg by lia.
  destruct (Z.leb_spec 8 n).
  - rewrite Z.shiftl_spec by lia. destruct (n <? 16); simpl; by destruct (Z.testbit _ _).
  - rewrite Z.shiftl_spec_low by lia. done.
Qed.

Lemma shl8_high c : Z.shiftr (Z.land (Z.shiftl c 8) 0xFFFF) 8 = Z.land c 0xFF.
Proof.
  apply Z.bits_inj'. intros n Hn. rewrite Z.shiftr_spec, shl8_testbit, Z.land_spec by lia.
  change 0xFF with (Z.ones 8). rewrite Z.testbit_ones_nonneg by lia.
  replace (n + 8 - 8) with n by lia.
  destruct (Z.leb_spec 8 (n + 8)), (Z.ltb_spec (n + 8) 16), (Z.ltb_spec n 8); try lia;
    by destruct (Z.testbit c n).
Qed.

Lemma shl8_zero c : Z.land (Z.shiftl c 8) 0xFFFF = 0 -> Z.land c 0xFF = 0.
Proof. intros E. rewrite <- shl8_high, E. done. Qed.

Lemma shl8_twice c : Z.land (Z.shiftl (Z.land (Z.shiftl c 8) 0xFFFF) 8) 0xFFFF = 0.
Proof.
  apply Z.bits_inj'. intros n Hn. rewrite !shl8_testbit, Z.bits_0 by lia.
  destruct (Z.leb_spec 8 n), (Z.ltb_spec n 16); simpl; try done.
  rewrite shl8_testbit by lia. rewrite (proj2 (Z.leb_gt 8 (n - 8))) by lia. done.
Qed.

(** The check of the binary VectorNav framer: the CRC over a message
    followed by two bytes is 0 exactly when those bytes are the message's CRC, big-endian. *)
Theorem xmodem_residue data hi lo :
  bytes_ok data -> is_byte hi -> is_byte lo ->
  crc16_xmodem (data ++ [hi; lo]) = 0 <->
  hi = Z.shiftr (crc16_xmodem data) 8 /\ lo = Z.land (crc16_xmodem data) 0xFF.
Proof.
  intros Hd Hhi Hlo. pose proof (crc16_xmodem_range data Hd) as Hc.
  unfold crc16_xmodem in *. rewrite fold_left_app. simpl fold_left at 1.
  set (c := fold_left xmodem_step data 0) in *. clearbody c. split.
  - intros E. pose proof (xmodem_step_range c hi Hc Hhi) as Hr.
    assert (Hl : lo = Z.shiftr (xmodem_step c hi) 8)
      by (apply xmodem_step_low; [done..|by rewrite E]).
    rewrite Hl, xmodem_step_self in E.
    assert (Hh : hi = Z.shiftr c 8) by (apply xmodem_step_low; [done..|by apply shl8_zero]).
    subst hi. rewrite xmodem_step_self, shl8_high in Hl. done.
  - intros [-> ->]. rewrite xmodem_step_self, <- shl8_high, xmodem_step_self. apply shl8_twice.
Qed.

Lemma xmodem_residue_witness :
  bytes_ok [1; 2; 3] /\ crc16_xmodem ([1; 2; 3] ++ [0x61; 0x31]) = 0.
Proof.
  assert (H : bytes_ok [1; 2; 3]) by (repeat (constructor; [unfold is_byte; lia|]); constructor).
  split; [exact H|].
  apply (xmodem_residue [1; 2; 3] 0x61 0x31); [exact H | unfold is_byte; lia | unfold is_byte; lia |].
  split; vm_compute; reflexivity.
Defined.

Lemma rfind_byte_None b s : Forall (fun c => c <> b) s -> rfind_byte b s = None.
Proof.
  induction 1 as [|c r Hcr _ IH]; simpl; [done|]. rewrite IH. by rewrite (proj2 (Z.eqb_neq c b)).
Qed.

Lemma fixed_hex_no_star k v : rfind_byte 42 (fixed_digits 16 k v) = None.
Proof.
  apply rfind_byte_None, fixed_digits_chars; [by right|].
  intros d Hd. pose proof (digit_char_ascii d Hd). lia.
Qed.

(** Stripping CR/LF from a line that ends in a digit and CR LF. *)
Lemma rstrip_line s k v :
  rstrip_of [13; 10] ((s ++ fixed_digits 16 (S k) v) ++ [13; 10]) = s ++ fixed_digits 16 (S k) v.
Proof.
  rewrite rstrip_of_app by (repeat constructor). cbn [fixed_digits].
  rewrite !app_assoc. apply rstrip_of_id.
  pose proof (digit_char_ascii _ (Z.mod_pos_bound v 16 ltac:(lia))).
  unfold mem_byte. simpl. rewrite !(proj2 (Z.eqb_neq _ _)) by lia. done.
Qed.

(** [verify_ascii] on a well-formed line of [k] hex digits compares the checksum. *)
Lemma verify_ascii_line raw k v :
  0 <= v < 16 ^ Z.of_nat (S k) ->
  verify_ascii (((36 :: raw ++ [42]) ++ fixed_digits 16 (S k) v) ++ [13; 10])
  = if (S k =? 2)%nat then v =? xor8 raw else if (S k =? 4)%nat then v =? crc16_xmodem raw else false.
Proof.
  intros Hv. unfold verify_ascii. rewrite rstrip_line.
  set (D := fixed_digits 16 (S k) v).
  replace ((36 :: raw ++ [42]) ++ D) with ((36 :: raw) ++ 42 :: D)
    by (simpl; rewrite <- app_assoc; done).
  cbn [startswith app]. rewrite Z.eqb_refl. cbn [andb negb].
  change (36 :: raw ++ 42 :: D) with ((36 :: raw) ++ 42 :: D).
  rewrite rfind_byte_app by apply fixed_hex_no_star. cbn [length].
  replace (slice 1 (S (length raw)) ((36 :: raw) ++ 42 :: D)) with raw
    by (unfold slice; simpl; rewrite Nat.sub_0_r; symmetry; by apply take_app_length').
  replace (drop (S (S (length raw))) ((36 :: raw) ++ 42 :: D)) with D.
  2:{ change (42 :: D) with ([42] ++ D). rewrite app_assoc, drop_app_length'; [done|].
      rewrite length_app. simpl. lia. }
  unfold D. rewrite py_int_fixed, length_fixed_digits by first [by right | done | lia]. done.
Qed.

(** Every line [finalize_ascii] builds, with either checksum, is accepted by
    [verify_ascii]. *)
Theorem verify_finalize_ascii raw crc :
  bytes_ok raw -> verify_ascii (finalize_ascii raw crc) = true.
Proof.
  intros Hr.
  assert (Hx : 0 <= xor8 raw < 256).
  { unfold xor8. apply (fold_range Z.lxor is_byte); [|done|unfold is_byte; lia].
    intros. by apply (lxor_bound 8). }
  pose proof (crc16_xmodem_range raw Hr) as Hc.
  pose (k := if crc then 3%nat else 1%nat).
  pose (v := if crc then crc16_xmodem raw else xor8 raw).
  assert (Hv : 0 <= v < 16 ^ Z.of_nat (S k)) by (subst v k; destruct crc; simpl; lia).
  transitivity (verify_ascii (((36 :: raw ++ [42]) ++ fixed_digits 16 (S k) v) ++ [13; 10])).
  - f_equal. unfold finalize_ascii, v, k.
    destruct crc; rewrite fmt_digits_fixed by first [by right | exact Hv | lia];
      cbn [app]; f_equal; rewrite <- !app_assoc; done.
  - rewrite verify_ascii_line by done. subst k v. destruct crc; simpl; apply Z.eqb_refl.
Qed.

Lemma verify_finalize_ascii_witness :
  verify_ascii (finalize_ascii [86; 78; 87; 78; 86] false) = true.
Proof. apply (verify_finalize_ascii [86; 78; 87; 78; 86] false). repeat constructor; unfold is_byte; lia. Defined.
