(* ===== verification/Framing.v ===== *)
(** * Incremental framing: the interface the three framers implement

    [core/frames.py] ([Framer]), [rover/drivers/sbg/framer.py] ([SbgFramer]) and
    [rover/drivers/vectornav/framer.py] ([VnFramer]) share one shape: [feed] appends to a
    buffer, then a [while] loop drops or emits from its front until it must wait. [Incremental]
    names the loop body ([iter]), [IncrementalLaws] what the body promises, and the theorems
    here follow for every framer: the loop terminates, chunking does not matter, and the
    stream is partitioned into frames, skipped bytes and the pending buffer. *)

From S2P Require Import Prelude.

(** ** Frames (core/frames.py) *)

Inductive Proto := UBX | RTCM3 | NMEA | SBG | VN.

#[export] Instance Proto_eq_dec : EqDecision Proto.
Proof. solve_decision. Defined.

(** The wire part of [Frame]: the two receive stamps and the parse cache are left out. *)
Record Frame := mkFrame { proto : Proto; raw : bytes }.

#[export] Instance Frame_eq_dec : EqDecision Frame.
Proof. solve_decision. Defined.

(** [Frame.payload]. *)
Definition frame_payload (f : Frame) : bytes :=
  let r := raw f in
  match proto f with
  | UBX => slice 6 (length r - 2) r
  | RTCM3 => slice 3 (length r - 3) r
  | SBG => if negb (Z.land r.[3] 0x80 =? 0) then slice 11 (length r - 3) r
           else slice 6 (length r - 3) r
  | NMEA | VN => r
  end.

(** [Frame.ubx_class_id] and [Frame.rtcm_type]; [None] is the [ValueError] of another protocol. *)
Definition ubx_class_id (f : Frame) : option (Z * Z) :=
  if decide (proto f = UBX) then Some ((raw f).[2], (raw f).[3]) else None.
Definition rtcm_type (f : Frame) : option Z :=
  if decide (proto f = RTCM3) then Some (Z.lor (Z.shiftl (raw f).[3] 4) (Z.shiftr (raw f).[4] 4)) else None.

(** [Frame/False/None] of the framers' [_try_*] methods. *)
Inductive Result := Got (f : Frame) | Invalid | Incomplete.

(** [_next_sync] of [Framer] and [VnFramer]: the first sync byte at or after index 1. *)
Definition next_sync_of (is_sync : Z -> bool) (buf : bytes) : nat :=
  match find_idx is_sync (tail buf) with
  | Some i => S i
  | None => length buf
  end.

Lemma next_sync_of_bound p s : (0 < length s)%nat -> (0 < next_sync_of p s <= length s)%nat.
Proof.
  intros H. unfold next_sync_of. destruct (find_idx p (tail s)) as [i|] eqn:E; [|lia].
  apply find_idx_lt in E. destruct s; simpl in *; lia.
Qed.

Lemma next_sync_of_app p a d :
  (0 < length a)%nat ->
  next_sync_of p (a ++ d) = next_sync_of p a \/
  (next_sync_of p a = length a /\ next_sync_of p (a ++ d) = (length a +
     match find_idx p d with Some i => i | None => length d end)%nat).
Proof.
  intros H. destruct a as [|x a]; [simpl in H; lia|]. unfold next_sync_of. cbn [tail app].
  destruct (find_idx p a) as [i|] eqn:E.
  - left. by rewrite (find_idx_app_Some _ _ d _ E).
  - right. split; [done|]. rewrite (find_idx_app_None _ _ d E).
    destruct (find_idx p d); simpl; [lia|]. rewrite length_app. lia.
Qed.

(** What one turn of the loop does: leave it, or go on, perhaps with a frame. *)
Inductive signal := Stop | Go (o : option Frame).

Definition olist {A} (o : option A) : list A := match o with Some x => [x] | None => [] end.

Class Incremental (S : Type) := {
  ibuf : S -> bytes;
  push : bytes -> S -> S;            (** [self._buf += data] *)
  iter : S -> S * signal             (** the body of [while self._buf:] *)
}.

Section Loop.
Context {S : Type} {I : Incremental S}.

(** The loop, with one unit of fuel per turn. *)
Fixpoint loop (fuel : nat) (s : S) : S * list Frame :=
  match fuel with
  | O => (s, [])
  | Datatypes.S f =>
      match iter s with
      | (s', Stop) => (s', [])
      | (s', Go o) => let '(s'', out) := loop f s' in (s'', olist o ++ out)
      end
  end.

(** Every turn that goes on shortens the buffer, so this fuel is enough ([run_step]). *)
Definition run (s : S) : S * list Frame := loop (Datatypes.S (length (ibuf s))) s.

Definition ifeed (data : bytes) (s : S) : S * list Frame := run (push data s).

(** A sequence of [feed] calls, frames in order of emission. *)
Fixpoint ifeed_all (chunks : list bytes) (s : S) : S * list Frame :=
  match chunks with
  | [] => (s, [])
  | d :: ds =>
      let '(s1, o1) := ifeed d s in
      let '(s2, o2) := ifeed_all ds s1 in (s2, o1 ++ o2)
  end.
End Loop.

(** What an implementation promises. [adm] is the set of streams on which verdicts do not
    depend on how much of the stream has arrived. *)
Class IncrementalLaws (S : Type) {I : Incremental S} (adm : bytes -> Prop) := {
  ibuf_push : forall d s, ibuf (push d s) = ibuf s ++ d;
  push_push : forall d e s, push e (push d s) = push (d ++ e) s;
  push_nil : forall s, push [] s = s;
  adm_suffix : forall a b, adm (a ++ b) -> adm b;
  iter_nil : forall s, ibuf s = [] -> iter s = (s, Stop);
  iter_stop_suffix : forall s s', iter s = (s', Stop) -> exists x, ibuf s = x ++ ibuf s';
  iter_go_suffix : forall s s' o, bytes_ok (ibuf s) -> iter s = (s', Go o) ->
    exists x, x <> [] /\ ibuf s = x ++ ibuf s';
  iter_stop : forall s s' d,
    adm (ibuf s ++ d) -> iter s = (s', Stop) -> iter (push d s) = iter (push d s');
  iter_go : forall s s' o d,
    adm (ibuf s ++ d) -> iter s = (s', Go o) ->
    iter (push d s) = (push d s', Go o) \/ (o = None /\ iter (push d s) = iter (push d s'))
}.

Section Theory.
Context {S : Type} {I : Incremental S} {adm : bytes -> Prop} {L : IncrementalLaws S adm}.
Implicit Types s : S.

Lemma iter_go_ok s s' o :
  bytes_ok (ibuf s) -> iter s = (s', Go o) ->
  bytes_ok (ibuf s') /\ (length (ibuf s') < length (ibuf s))%nat.
Proof.
  intros Hok E. destruct (iter_go_suffix s s' o Hok E) as (x & Hx & Hb).
  rewrite Hb in *. apply Forall_app in Hok as [_ Hok]. split; [done|].
  rewrite length_app. destruct x; [done|]. simpl. lia.
Qed.

Lemma loop_fuel f g s :
  bytes_ok (ibuf s) ->
  (length (ibuf s) < f)%nat -> (length (ibuf s) < g)%nat -> loop f s = loop g s.
Proof.
  revert g s. induction f as [|f IH]; intros [|g] s Hok Hf Hg; try lia. simpl.
  destruct (iter s) as [s' [|o]] eqn:E; [done|].
  destruct (iter_go_ok s s' o Hok E). rewrite (IH g s') by (done || lia). done.
Qed.

(** The unfolding of the [while] loop: the fuel of [run] never runs out. *)
Lemma run_step s :
  bytes_ok (ibuf s) ->
  run s = match iter s with
          | (s', Stop) => (s', [])
          | (s', Go o) => let '(s'', out) := run s' in (s'', olist o ++ out)
          end.
Proof.
  intros Hok. unfold run. cbn [loop]. destruct (iter s) as [s' [|o]] eqn:E; [done|].
  destruct (iter_go_ok s s' o Hok E).
  rewrite (loop_fuel (length (ibuf s)) (Datatypes.S (length (ibuf s'))) s') by (done || lia). done.
Qed.

Lemma run_iter_eq s t :
  bytes_ok (ibuf s) -> bytes_ok (ibuf t) -> iter s = iter t -> run s = run t.
Proof. intros Hs Ht E. by rewrite (run_step s), (run_step t), E. Qed.

(** Induction along the turns of the loop. *)
Lemma run_ind (P : S -> S * list Frame -> Prop) :
  (forall s s', bytes_ok (ibuf s) -> iter s = (s', Stop) -> P s (s', [])) ->
  (forall s s' o r out, bytes_ok (ibuf s) -> iter s = (s', Go o) -> run s' = (r, out) ->
                        P s' (r, out) -> P s (r, olist o ++ out)) ->
  forall s, bytes_ok (ibuf s) -> P s (run s).
Proof.
  intros Hstop Hgo s. remember (length (ibuf s)) as n eqn:En.
  revert s En. induction (lt_wf n) as [n _ IH]. intros s -> Hok.
  rewrite run_step by done. destruct (iter s) as [s' [|o]] eqn:E; [by apply Hstop|].
  destruct (iter_go_ok s s' o Hok E) as [Hok' Hlt].
  specialize (IH _ Hlt s' eq_refl Hok'). destruct (run s') as [r out] eqn:Er.
  by eapply Hgo.
Qed.

Lemma run_suffix s : bytes_ok (ibuf s) -> exists x, ibuf s = x ++ ibuf (run s).1.
Proof.
  apply (run_ind (fun s r => exists x, ibuf s = x ++ ibuf r.1)).
  - intros. by apply iter_stop_suffix.
  - intros t t' o r out Hok E _ [y Hy]. destruct (iter_go_suffix t t' o Hok E) as (x & _ & Hx).
    exists (x ++ y). simpl in *. by rewrite Hx, Hy, app_assoc.
Qed.

(** Running, then receiving more, is the same as having received it all before running. *)
Lemma run_push s d :
  bytes_ok (ibuf s) -> bytes_ok d -> adm (ibuf s ++ d) ->
  run (push d s) = let '(s1, o1) := run s in let '(s2, o2) := run (push d s1) in (s2, o1 ++ o2).
Proof.
  intros Hs Hd. revert s Hs.
  apply (run_ind (fun s r => adm (ibuf s ++ d) ->
    run (push d s) = let '(s1, o1) := r in let '(s2, o2) := run (push d s1) in (s2, o1 ++ o2))).
  - intros t t' Hok E Ha.
    assert (bytes_ok (ibuf t')).
    { destruct (iter_stop_suffix t t' E) as [x Hx]. rewrite Hx in Hok. by apply Forall_app in Hok as []. }
    rewrite (run_iter_eq (push d t) (push d t')).
    + by destruct (run (push d t')).
    + rewrite ibuf_push. by apply Forall_app_2.
    + rewrite ibuf_push. by apply Forall_app_2.
    + by apply iter_stop.
  - intros t t' o r out Hok E Er IH Ha. cbv beta iota in IH |- *.
    destruct (iter_go_ok t t' o Hok E) as [Hok' _].
    assert (Ha' : adm (ibuf t' ++ d)).
    { destruct (iter_go_suffix t t' o Hok E) as (x & _ & Hx).
      rewrite Hx, <- app_assoc in Ha. by eapply adm_suffix. }
    specialize (IH Ha').
    assert (bytes_ok (ibuf (push d t))) by (rewrite ibuf_push; by apply Forall_app_2).
    assert (bytes_ok (ibuf (push d t'))) by (rewrite ibuf_push; by apply Forall_app_2).
    destruct (iter_go t t' o d Ha E) as [C|[-> C]].
    + rewrite run_step, C, IH by done. destruct (run (push d r)). by rewrite app_assoc.
    + rewrite (run_iter_eq (push d t) (push d t')), IH by done. by destruct (run (push d r)).
Qed.

Lemma feed_app s d e :
  bytes_ok (ibuf s ++ d ++ e) -> adm (ibuf s ++ d ++ e) ->
  ifeed (d ++ e) s = let '(s1, o1) := ifeed d s in let '(s2, o2) := ifeed e s1 in (s2, o1 ++ o2).
Proof.
  intros Hok Ha. unfold ifeed. rewrite <- push_push.
  rewrite !Forall_app in Hok. destruct Hok as (? & ? & ?).
  apply run_push; rewrite ?ibuf_push, <- ?app_assoc; [by apply Forall_app_2|done|done].
Qed.

(** Chunking does not matter: from a settled state, any cutting of the stream gives the same
    final state and the same frames as one [feed]. *)
Lemma feed_all_concat chunks s :
  iter s = (s, Stop) -> bytes_ok (ibuf s ++ concat chunks) -> adm (ibuf s ++ concat chunks) ->
  ifeed_all chunks s = ifeed (concat chunks) s.
Proof.
  intros Hs. destruct chunks as [|d ds].
  - simpl. rewrite app_nil_r. intros Hok _. unfold ifeed. by rewrite push_nil, run_step, Hs.
  - clear Hs. revert d s. induction ds as [|e ds IH]; intros d s Hok Ha.
    + simpl. rewrite app_nil_r. destruct (ifeed d s). by rewrite app_nil_r.
    + change (concat (d :: e :: ds)) with (d ++ concat (e :: ds)) in *.
      rewrite feed_app by done.
      change (ifeed_all (d :: e :: ds) s) with
        (let '(s1, o1) := ifeed d s in let '(s2, o2) := ifeed_all (e :: ds) s1 in (s2, o1 ++ o2)).
      destruct (ifeed d s) as [s1 o1] eqn:E. unfold ifeed in E.
      rewrite app_assoc in Hok, Ha. apply Forall_app in Hok as [Hok1 Hok2].
      pose proof (run_suffix (push d s) ltac:(by rewrite ibuf_push)) as [x Hx].
      rewrite E, ibuf_push in Hx. simpl in Hx. rewrite Hx in Hok1, Ha.
      apply Forall_app in Hok1 as [_ Hok1]. rewrite <- app_assoc in Ha.
      rewrite IH; [done|by apply Forall_app_2|by eapply adm_suffix].
Qed.

(** A predicate on states that every turn keeps, and one on frames that every turn
    guarantees, hold of the result. *)
Lemma run_invariant (P : S -> Prop) (Q : Frame -> Prop) s :
  bytes_ok (ibuf s) ->
  (forall t t', bytes_ok (ibuf t) -> P t -> iter t = (t', Stop) -> P t') ->
  (forall t t' o, bytes_ok (ibuf t) -> P t -> iter t = (t', Go o) -> P t' /\ Forall Q (olist o)) ->
  P s -> P (run s).1 /\ Forall Q (run s).2.
Proof.
  intros Hok Hstop Hgo. revert s Hok.
  apply (run_ind (fun s r => P s -> P r.1 /\ Forall Q r.2)).
  - intros t t' Hok E Ht. split; [by eapply Hstop|constructor].
  - intros t t' o r out Hok E _ IH Ht. destruct (Hgo t t' o Hok Ht E) as [Ht' Ho].
    destruct (IH Ht') as [H1 H2]. split; [done|]. by apply Forall_app.
Qed.

(** A state in which the loop leaves satisfies what leaving guarantees. *)
Lemma run_settled (P : S -> Prop) s :
  bytes_ok (ibuf s) ->
  (forall t t', bytes_ok (ibuf t) -> iter t = (t', Stop) -> P t') -> P (run s).1.
Proof.
  intros Hok Hstop. revert s Hok. by apply (run_ind (fun _ r => P r.1)).
Qed.
End Theory.

(** A projection that commutes with the loop body commutes with the loop. *)
Section Simulation.
Context {S T : Type} {IS : Incremental S} {IT : Incremental T} (proj : S -> T).
Hypothesis proj_buf : forall s, ibuf (proj s) = ibuf s.
Hypothesis proj_push : forall d s, push d (proj s) = proj (push d s).
Hypothesis proj_iter : forall s, iter (proj s) = (proj (iter s).1, (iter s).2).

Lemma run_proj s : run (proj s) = (proj (run s).1, (run s).2).
Proof.
  unfold run. rewrite proj_buf. generalize (Datatypes.S (length (ibuf s))) as f.
  intros f. revert s. induction f as [|f IH]; intros s; [done|]. simpl. rewrite proj_iter.
  destruct (iter s) as [s' [|o]]; [done|]. simpl. rewrite IH. by destruct (loop f s').
Qed.

Lemma ifeed_all_proj ds s : ifeed_all ds (proj s) = (proj (ifeed_all ds s).1, (ifeed_all ds s).2).
Proof.
  revert s. induction ds as [|d ds IH]; intros s; [done|]. simpl. unfold ifeed.
  rewrite proj_push, run_proj. destruct (run (push d s)) as [s1 o1]. simpl. rewrite IH.
  by destruct (ifeed_all ds s1).
Qed.
End Simulation.

(** ** Partition of the stream

    [Skipped] bytes are dropped outside frames and counted by the implementation; [Swallowed]
    ones are whole frames it recognises but does not pass on. *)
Inductive segment := Skipped (b : bytes) | Swallowed (b : bytes) | Emitted (f : Frame).

Definition seg_bytes (g : segment) : bytes :=
  match g with Skipped b | Swallowed b => b | Emitted f => raw f end.
Definition seg_frames (g : segment) : list Frame :=
  match g with Skipped _ | Swallowed _ => [] | Emitted f => [f] end.
Definition seg_skip (g : segment) : Z :=
  match g with Skipped b => len b | Swallowed _ | Emitted _ => 0 end.
Definition skip_total (gs : list segment) : Z := foldr (fun g n => seg_skip g + n) 0 gs.

Lemma skip_total_app a b : skip_total (a ++ b) = skip_total a + skip_total b.
Proof. induction a as [|x a IH]; simpl; [done|]. rewrite IH. lia. Qed.

(** A segment that is either a frame or counted as skipped. *)
Definition accounted (g : segment) : Prop := match g with Swallowed _ => False | Skipped _ | Emitted _ => True end.

Section Partition.
Context {S : Type} {I : Incremental S} {adm : bytes -> Prop} {L : IncrementalLaws S adm}.
Context (skipped : S -> Z) (good : segment -> Prop).
Hypothesis good_skipped : forall b, good (Skipped b).
Hypothesis stop_partition : forall s s', iter s = (s', Stop) ->
  exists b, ibuf s = b ++ ibuf s' /\ skipped s' = skipped s + len b.
Hypothesis go_partition : forall s s' o, bytes_ok (ibuf s) -> iter s = (s', Go o) ->
  exists gs, ibuf s = flat_map seg_bytes gs ++ ibuf s' /\ Forall good gs
             /\ flat_map seg_frames gs = olist o /\ skipped s' = skipped s + skip_total gs.

Lemma run_partition_good s :
  bytes_ok (ibuf s) ->
  exists gs, ibuf s = flat_map seg_bytes gs ++ ibuf (run s).1 /\ Forall good gs
             /\ flat_map seg_frames gs = (run s).2
             /\ skipped (run s).1 = skipped s + skip_total gs.
Proof.
  apply (run_ind (fun s r => exists gs, ibuf s = flat_map seg_bytes gs ++ ibuf r.1 /\ Forall good gs
           /\ flat_map seg_frames gs = r.2 /\ skipped r.1 = skipped s + skip_total gs)).
  - intros t t' _ E. destruct (stop_partition t t' E) as (b & Hb & Hs).
    exists [Skipped b]. simpl. rewrite app_nil_r. split_and!; [done|by repeat constructor|done|lia].
  - intros t t' o r out Hok E _ (gs & Hb & Hg & Hf & Hs). simpl in *.
    destruct (go_partition t t' o Hok E) as (gs0 & Hb0 & Hg0 & Hf0 & Hs0).
    exists (gs0 ++ gs). rewrite !flat_map_app, Hb0, Hb, Hf, Hf0, skip_total_app, <- app_assoc.
    split_and!; [done|by apply Forall_app_2|done|lia].
Qed.
End Partition.

(** Without asking anything of the segments: framers that swallow frames. *)
Lemma run_partition {S} {I : Incremental S} {adm} {L : IncrementalLaws S adm} (skipped : S -> Z) :
  (forall s s', iter s = (s', Stop) -> exists b, ibuf s = b ++ ibuf s' /\ skipped s' = skipped s + len b) ->
  (forall s s' o, bytes_ok (ibuf s) -> iter s = (s', Go o) ->
     exists gs, ibuf s = flat_map seg_bytes gs ++ ibuf s'
                /\ flat_map seg_frames gs = olist o /\ skipped s' = skipped s + skip_total gs) ->
  forall s, bytes_ok (ibuf s) ->
  exists gs, ibuf s = flat_map seg_bytes gs ++ ibuf (run s).1
             /\ flat_map seg_frames gs = (run s).2 /\ skipped (run s).1 = skipped s + skip_total gs.
Proof.
  intros Hst Hgo s Hs. destruct (run_partition_good (L := L) skipped (fun _ => True)) with (s := s)
    as (gs & ? & _ & ? & ?); [done..| |done|by exists gs].
  intros u u' o Hu E. destruct (Hgo u u' o Hu E) as (gs & ? & ? & ?).
  exists gs. split_and!; [done|by apply Forall_true|done|done].
Qed.
