(* ===== verification/Frames.v ===== *)
(** * The UBX / RTCM3 / NMEA framer ([core/frames.py])

    [Framer.feed] as an instance of the [Incremental] interface. Every verdict of the
    three parsers is stable under later bytes, except one: a ['$'] line whose CR LF sits at
    offset 255 or 256 is rejected once 256 bytes are in, but accepted when they arrive
    together ([framer_chunk_dependent]). On all other streams chunking does not matter. *)

From S2P Require Import Prelude.
From S2P Require Import PyBytes.
From S2P Require Import Checksums.
From S2P Require Import Framing.

Definition UBX_SYNC1 : Z := 0xB5.
Definition UBX_SYNC2 : Z := 0x62.
Definition RTCM_PREAMBLE : Z := 0xD3.
Definition NMEA_START : Z := 0x24.
Definition UBX_MAX_PAYLOAD : Z := 8192.
Definition NMEA_MAX_LEN : Z := 256.
Definition SYNC_BYTES : list Z := [UBX_SYNC1; RTCM_PREAMBLE; NMEA_START].
Definition is_sync (b : Z) : bool := mem_byte b SYNC_BYTES.

Record FramerStats := mkStats {
  frames_ubx : Z; frames_rtcm3 : Z; frames_nmea : Z;
  garbage_bytes : Z; checksum_errors : Z
}.

Record Framer := mkFramer { fbuf : bytes; max_buffer : Z; fstats : FramerStats }.

Definition new_framer (max_buffer : Z) : Framer := mkFramer [] max_buffer (mkStats 0 0 0 0 0).

Definition add_garbage (n : Z) (s : Framer) : Framer :=
  let st := fstats s in
  mkFramer (fbuf s) (max_buffer s)
    (mkStats (frames_ubx st) (frames_rtcm3 st) (frames_nmea st) (garbage_bytes st + n) (checksum_errors st)).

Definition add_checksum_error (s : Framer) : Framer :=
  let st := fstats s in
  mkFramer (fbuf s) (max_buffer s)
    (mkStats (frames_ubx st) (frames_rtcm3 st) (frames_nmea st) (garbage_bytes st) (checksum_errors st + 1)).

(** [del self._buf[:n]]. *)
Definition del_front (n : nat) (s : Framer) : Framer :=
  mkFramer (drop n (fbuf s)) (max_buffer s) (fstats s).

Definition count_frame (p : Proto) (st : FramerStats) : FramerStats :=
  match p with
  | UBX => mkStats (frames_ubx st + 1) (frames_rtcm3 st) (frames_nmea st) (garbage_bytes st) (checksum_errors st)
  | RTCM3 => mkStats (frames_ubx st) (frames_rtcm3 st + 1) (frames_nmea st) (garbage_bytes st) (checksum_errors st)
  | _ => mkStats (frames_ubx st) (frames_rtcm3 st) (frames_nmea st + 1) (garbage_bytes st) (checksum_errors st)
  end.

(** [_emit]. *)
Definition emit (p : Proto) (length_ : nat) (s : Framer) : Framer * Result :=
  let raw := take length_ (fbuf s) in
  let s := del_front length_ s in
  (mkFramer (fbuf s) (max_buffer s) (count_frame p (fstats s)), Got (mkFrame p raw)).

(** [_next_sync]. *)
Definition next_sync (buf : bytes) : nat := next_sync_of is_sync buf.

(** [_try_ubx]. *)
Definition try_ubx (s : Framer) : Framer * Result :=
  let buf := fbuf s in
  if len buf <? 2 then (s, Incomplete)
  else if negb (buf.[1] =? UBX_SYNC2) then (s, Invalid)
  else if len buf <? 6 then (s, Incomplete)
  else
    let length_ := Z.lor buf.[4] (Z.shiftl buf.[5] 8) in
    if UBX_MAX_PAYLOAD <? length_ then (s, Invalid)
    else
      let total := 6 + length_ + 2 in
      if len buf <? total then (s, Incomplete)
      else
        let t := Z.to_nat total in
        if bool_decide (slice (t - 2) t buf = ubx_checksum (slice 2 (t - 2) buf))
        then emit UBX t s
        else (add_checksum_error s, Invalid).

(** [_try_rtcm]. *)
Definition try_rtcm (s : Framer) : Framer * Result :=
  let buf := fbuf s in
  if len buf <? 3 then (s, Incomplete)
  else if negb (Z.land buf.[1] 0xFC =? 0) then (s, Invalid)
  else
    let length_ := Z.lor (Z.shiftl (Z.land buf.[1] 0x03) 8) buf.[2] in
    let total := 3 + length_ + 3 in
    if len buf <? total then (s, Incomplete)
    else
      let t := Z.to_nat total in
      let expected := crc24q (slice 0 (t - 3) buf) in
      let got := Z.lor (Z.lor (Z.shiftl buf.[t - 3] 16) (Z.shiftl buf.[t - 2] 8)) buf.[t - 1] in
      if negb (expected =? got) then (add_checksum_error s, Invalid)
      else emit RTCM3 t s.

(** [_try_nmea]. *)
Definition try_nmea (s : Framer) : Framer * Result :=
  let buf := fbuf s in
  match bfind [13; 10] (take (Z.to_nat (NMEA_MAX_LEN + 2)) buf) with
  | None => (s, if len buf <? NMEA_MAX_LEN then Incomplete else Invalid)
  | Some end_ =>
      match rfind_byte 42 (take end_ buf) with
      | None => (s, Invalid)
      | Some star =>
          if negb (Z.of_nat end_ - Z.of_nat star =? 3) then (s, Invalid)
          else match py_int 16 (slice (star + 1) end_ buf) with
               | None => (s, Invalid)
               | Some given =>
                   if negb (given =? nmea_checksum (slice 1 star buf))
                   then (add_checksum_error s, Invalid)
                   else emit NMEA (end_ + 2) s
               end
      end
  end.

(** One turn of [feed]'s loop. *)
Definition framer_iter (s : Framer) : Framer * signal :=
  match fbuf s with
  | [] => (s, Stop)
  | first :: _ =>
      if negb (is_sync first) then
        let skip := next_sync (fbuf s) in
        (add_garbage (Z.of_nat skip) (del_front skip s), Go None)
      else
        let '(s, result) :=
          if first =? UBX_SYNC1 then try_ubx s
          else if first =? RTCM_PREAMBLE then try_rtcm s
          else try_nmea s in
        match result with
        | Incomplete => (s, Stop)
        | Invalid => (add_garbage 1 (del_front 1 s), Go None)
        | Got f => (s, Go (Some f))
        end
  end.

Definition framer_push (data : bytes) (s : Framer) : Framer :=
  mkFramer (fbuf s ++ data) (max_buffer s) (fstats s).

#[export] Instance framer_incremental : Incremental Framer :=
  {| ibuf := fbuf; push := framer_push; iter := framer_iter |}.

(** [if len(self._buf) > self._max_buffer]: drop from the front. *)
Definition framer_cap (s : Framer) : Framer :=
  if max_buffer s <? len (fbuf s) then
    let dropped := len (fbuf s) - max_buffer s in
    add_garbage dropped (del_front (Z.to_nat dropped) s)
  else s.

(** [Framer.feed]. *)
Definition framer_feed (data : bytes) (s : Framer) : Framer * list Frame :=
  run (framer_cap (framer_push data s)).

Fixpoint framer_feed_all (chunks : list bytes) (s : Framer) : Framer * list Frame :=
  match chunks with
  | [] => (s, [])
  | d :: ds =>
      let '(s1, o1) := framer_feed d s in
      let '(s2, o2) := framer_feed_all ds s1 in (s2, o1 ++ o2)
  end.

(** ** Streams whose NMEA verdicts do not depend on chunking *)

(** No CR LF at offset 255 or 256 of a candidate line. *)
Definition nmea_line_clear (t : bytes) : bool :=
  match t with
  | 36 :: _ =>
      match bfind [13; 10] (take 258 t) with
      | Some e => negb ((e =? 255)%nat || (e =? 256)%nat)
      | None => true
      end
  | _ => true
  end.

Fixpoint nmea_clear (s : bytes) : bool :=
  nmea_line_clear s && match s with [] => true | _ :: r => nmea_clear r end.

Lemma nmea_clear_suffix a b : nmea_clear (a ++ b) = true -> nmea_clear b = true.
Proof.
  induction a as [|x a IH]; [done|]. intros H. cbn [app nmea_clear] in H.
  apply andb_true_iff in H as [_ H]. auto.
Qed.

Lemma nmea_clear_line s : nmea_clear s = true -> nmea_line_clear s = true.
Proof. destruct s; cbn [nmea_clear]; intros H; by apply andb_true_iff in H as [H _]. Qed.

(** ** Stability of the verdicts *)

Lemma del_front_push n d s :
  (n <= length (fbuf s))%nat -> del_front n (framer_push d s) = framer_push d (del_front n s).
Proof.
  intros H. unfold del_front, framer_push. simpl. f_equal. by apply drop_app_le.
Qed.

Lemma emit_push p n d s :
  (n <= length (fbuf s))%nat ->
  emit p n (framer_push d s) = (framer_push d (emit p n s).1, (emit p n s).2).
Proof.
  intros H. unfold emit. rewrite del_front_push by done. simpl. by rewrite take_app_le.
Qed.

Definition stable (r : Framer * Result) (r' : Framer * Result) (d : bytes) : Prop :=
  r.2 <> Incomplete -> r' = (framer_push d r.1, r.2).

(** Case on the guards of a parser, with the same guard on the longer buffer. *)
Lemma ltb_app_false (a d : bytes) n : (len a <? n) = false -> (len (a ++ d) <? n) = false.
Proof. rewrite !Z.ltb_ge, length_app. lia. Qed.

Lemma try_ubx_push d s : stable (try_ubx s) (try_ubx (framer_push d s)) d.
Proof.
  unfold stable, try_ubx. cbn [framer_push fbuf].
  destruct (len (fbuf s) <? 2) eqn:E2; [done|]. rewrite (ltb_app_false _ d _ E2). zbool.
  rewrite at_app_l by lia.
  destruct (negb _); [done|].
  destruct (len (fbuf s) <? 6) eqn:E6; [done|]. rewrite (ltb_app_false _ d _ E6). zbool.
  rewrite !at_app_l by lia.
  set (l := Z.lor _ _). destruct (UBX_MAX_PAYLOAD <? l); [done|].
  destruct (len (fbuf s) <? 6 + l + 2) eqn:Et; [done|]. rewrite (ltb_app_false _ d _ Et). zbool.
  rewrite !slice_app_l by lia. case_bool_decide; [|done].
  intros _. rewrite emit_push by lia. done.
Qed.

Lemma try_rtcm_push d s : stable (try_rtcm s) (try_rtcm (framer_push d s)) d.
Proof.
  unfold stable, try_rtcm. cbn [framer_push fbuf].
  destruct (len (fbuf s) <? 3) eqn:E3; [done|]. rewrite (ltb_app_false _ d _ E3). zbool.
  rewrite !at_app_l by lia.
  destruct (negb _); [done|].
  set (l := Z.lor _ _).
  destruct (len (fbuf s) <? 3 + l + 3) eqn:Et; [done|]. rewrite (ltb_app_false _ d _ Et). zbool.
  destruct (decide (0 < Z.to_nat (3 + l + 3))%nat).
  - rewrite !slice_app_l, !at_app_l by lia.
    destruct (negb _); [done|]. intros _. rewrite emit_push by lia. done.
  - replace (Z.to_nat (3 + l + 3)) with 0%nat by lia. cbn [Nat.sub].
    rewrite !slice_app_l, !at_app_l by lia.
    destruct (negb _); [done|]. intros _. rewrite emit_push by lia. done.
Qed.

(** A CR LF the longer buffer shows inside the search window and the shorter one does not. *)
Lemma bfind_window (a d : bytes) n e :
  bfind [13; 10] (take n a) = None -> bfind [13; 10] (take n (a ++ d)) = Some e ->
  (length a <= e + 1)%nat /\ (e + 2 <= n)%nat.
Proof.
  intros Ha Hd. pose proof (bfind_bound _ _ _ Hd) as Hb. rewrite length_take, length_app in Hb.
  simpl in Hb. split; [|lia].
  destruct (decide (length a <= e + 1)%nat) as [|Hlt]; [done|]. exfalso.
  assert (Hlen : (e + 2 <= length a)%nat) by lia.
  pose proof (bfind_Some _ _ _ Hd) as Hs. apply startswith_spec in Hs as [r Hr].
  assert (Hx : exists r', drop e (take n a) = [13; 10] ++ r').
  { exists (drop (e + 2) (take n a)).
    assert (take 2 (drop e (take n (a ++ d))) = [13; 10]) as T by (rewrite Hr; done).
    rewrite <- (take_drop 2 (drop e (take n a))), drop_drop. f_equal.
    rewrite <- T.
    apply list_eq. intros i. destruct (decide (i < 2)%nat) as [Hi|Hi].
    - rewrite !lookup_take_lt, !lookup_drop, !lookup_take_lt by lia.
      by rewrite lookup_app_l by lia.
    - rewrite !lookup_take_ge by lia. done. }
  destruct Hx as [r' Hr'].
  assert (Hstart : startswith (drop e (take n a)) [13; 10] = true) by (rewrite Hr'; apply startswith_app).
  by rewrite (bfind_None _ _ e Ha) in Hstart.
Qed.

Lemma try_nmea_push d s :
  (bfind [13; 10] (take 258 (fbuf s)) = None -> nmea_line_clear (fbuf s ++ d) = true) ->
  (fbuf s).[0] = NMEA_START ->
  stable (try_nmea s) (try_nmea (framer_push d s)) d.
Proof.
  intros Hclear H0. unfold stable, try_nmea. cbn [framer_push fbuf].
  change (Z.to_nat (NMEA_MAX_LEN + 2)) with 258%nat.
  destruct (bfind [13; 10] (take 258 (fbuf s))) as [e|] eqn:E.
  - pose proof (bfind_bound _ _ _ E) as Hb. rewrite length_take in Hb. cbn [length] in Hb.
    assert (E' : bfind [13; 10] (take 258 (fbuf s ++ d)) = Some e).
    { rewrite take_app. by apply bfind_app_Some. }
    rewrite E', take_app_le by lia.
    destruct (rfind_byte 42 (take e (fbuf s))) as [star|] eqn:Er; [|done].
    apply rfind_byte_lt in Er as [Hs _]. rewrite length_take in Hs.
    destruct (negb _); [done|]. rewrite !slice_app_l by lia.
    destruct (py_int 16 _); [|done]. destruct (negb _); [done|].
    intros _. rewrite emit_push by lia. done.
  - destruct (len (fbuf s) <? NMEA_MAX_LEN) eqn:Hl; [done|].
    rewrite (ltb_app_false _ d _ Hl). zbool. unfold NMEA_MAX_LEN in Hl. intros _.
    destruct (bfind [13; 10] (take 258 (fbuf s ++ d))) as [e|] eqn:E'; [|done].
    exfalso. destruct (bfind_window _ _ _ _ E E') as [He1 He2].
    specialize (Hclear eq_refl). unfold nmea_line_clear in Hclear. destruct (fbuf s) as [|b r]; [simpl in Hl; lia|].
    unfold at_ in H0. simpl in H0. subst b. unfold NMEA_START in *.
    cbn [app] in Hclear, E', E. rewrite E' in Hclear.
    apply negb_true_iff, orb_false_iff in Hclear as [N1 N2]. zbool.
    cbn [length] in *. lia.
Qed.

(** ** The laws *)

Lemma framer_push_buf d s : fbuf (framer_push d s) = fbuf s ++ d.
Proof. done. Qed.

(** A parser leaves the buffer alone unless it emits; emission takes a non-empty prefix. *)
Definition front_only (s : Framer) (p : Framer * Result) : Prop :=
  match p.2 with
  | Got f => raw f <> [] /\ fbuf s = raw f ++ fbuf p.1
  | _ => fbuf p.1 = fbuf s
  end.

Lemma emit_front p n s : (0 < n <= length (fbuf s))%nat -> front_only s (emit p n s).
Proof.
  intros Hn. unfold front_only, emit. simpl. split; [|by rewrite take_drop].
  intros E. apply (f_equal length) in E. rewrite length_take in E. simpl in E. lia.
Qed.

Lemma try_ubx_front s : bytes_ok (fbuf s) -> front_only s (try_ubx s).
Proof.
  intros Hok. unfold try_ubx.
  repeat (match goal with |- front_only _ (if ?b then _ else _) => destruct b eqn:? end; [done|]).
  cbv zeta. case_bool_decide; [|done]. zbool.
  apply emit_front. pose proof (bytes_ok_at _ 4 Hok). pose proof (bytes_ok_at _ 5 Hok).
  unfold is_byte in *.
  assert (0 <= Z.lor (fbuf s).[4] (Z.shiftl (fbuf s).[5] 8))
    by (apply Z.lor_nonneg; split; [lia | apply Z.shiftl_nonneg; lia]).
  lia.
Qed.

Lemma try_rtcm_front s : bytes_ok (fbuf s) -> front_only s (try_rtcm s).
Proof.
  intros Hok. unfold try_rtcm.
  repeat (match goal with |- front_only _ (if ?b then _ else _) => destruct b eqn:? end; [done|]).
  cbv zeta. destruct (negb _); [done|]. zbool.
  apply emit_front. pose proof (bytes_ok_at _ 2 Hok). unfold is_byte in *.
  assert (0 <= Z.land (fbuf s).[1] 3) by (apply Z.land_nonneg; lia).
  assert (0 <= Z.lor (Z.shiftl (Z.land (fbuf s).[1] 3) 8) (fbuf s).[2])
    by (apply Z.lor_nonneg; split; [apply Z.shiftl_nonneg|]; lia).
  lia.
Qed.

Lemma try_nmea_front s : front_only s (try_nmea s).
Proof.
  unfold try_nmea.
  destruct (bfind _ _) as [e|] eqn:E; [|by destruct (_ <? _)].
  destruct (rfind_byte _ _) as [star|] eqn:Er; [|done].
  destruct (negb _); [done|]. destruct (py_int 16 _); [|done]. destruct (negb _); [done|].
  apply emit_front. pose proof (bfind_bound _ _ _ E) as Hb. rewrite length_take in Hb.
  cbn [length] in Hb. lia.
Qed.

(** The parser the first byte selects. *)
Definition try_first (s : Framer) : Framer * Result :=
  if (fbuf s).[0] =? UBX_SYNC1 then try_ubx s
  else if (fbuf s).[0] =? RTCM_PREAMBLE then try_rtcm s
  else try_nmea s.

Definition step_result (p : Framer * Result) (s : Framer) : Framer * signal :=
  let '(s1, r) := p in
  match r with
  | Incomplete => (s1, Stop)
  | Invalid => (add_garbage 1 (del_front 1 s1), Go None)
  | Got f => (s1, Go (Some f))
  end.

Lemma framer_iter_eq s :
  framer_iter s =
  if (length (fbuf s) =? 0)%nat then (s, Stop)
  else if negb (is_sync (fbuf s).[0]) then
    (add_garbage (Z.of_nat (next_sync (fbuf s))) (del_front (next_sync (fbuf s)) s), Go None)
  else step_result (try_first s) s.
Proof.
  unfold framer_iter, try_first, step_result, at_.
  destruct (fbuf s) as [|b r] eqn:E; [done|]. simpl nth. cbn [length Nat.eqb].
  destruct (negb (is_sync b)); [done|].
  destruct (b =? UBX_SYNC1); [done|]. by destruct (b =? RTCM_PREAMBLE).
Qed.

Lemma try_first_front s : bytes_ok (fbuf s) -> front_only s (try_first s).
Proof.
  intros H. unfold try_first. destruct (_ =? _); [by apply try_ubx_front|].
  destruct (_ =? _); [by apply try_rtcm_front|apply try_nmea_front].
Qed.

Lemma is_sync_cases b : is_sync b = true -> b = UBX_SYNC1 \/ b = RTCM_PREAMBLE \/ b = NMEA_START.
Proof.
  unfold is_sync, mem_byte, SYNC_BYTES. simpl.
  destruct (b =? UBX_SYNC1) eqn:E1; zbool; [by left|].
  destruct (b =? RTCM_PREAMBLE) eqn:E2; zbool; [by right; left|].
  destruct (b =? NMEA_START) eqn:E3; zbool; [by right; right|done].
Qed.

Lemma try_first_push d s :
  (0 < length (fbuf s))%nat -> is_sync (fbuf s).[0] = true -> nmea_line_clear (fbuf s ++ d) = true ->
  stable (try_first s) (try_first (framer_push d s)) d.
Proof.
  intros Hl Hs Hc. unfold try_first. rewrite framer_push_buf, at_app_l by done.
  destruct (_ =? UBX_SYNC1) eqn:E1; [apply try_ubx_push|].
  destruct (_ =? RTCM_PREAMBLE) eqn:E2; [apply try_rtcm_push|].
  apply try_nmea_push; [done|]. apply is_sync_cases in Hs. zbool. tauto.
Qed.

(** A parser that waits changes nothing, and one that rejects leaves the buffer alone. *)
Lemma try_first_rejects s s' r :
  try_first s = (s', r) ->
  match r with Got _ => True | Invalid => fbuf s' = fbuf s | Incomplete => s' = s end.
Proof.
  unfold try_first, try_ubx, try_rtcm, try_nmea, emit.
  destruct (_ =? _).
  { repeat match goal with |- (if ?b then _ else _) = _ -> _ => destruct b end; by intros [= <- <-]. }
  destruct (_ =? _).
  { repeat match goal with |- (if ?b then _ else _) = _ -> _ => destruct b end; by intros [= <- <-]. }
  destruct (bfind _ _); [|by destruct (_ <? _); intros [= <- <-]].
  destruct (rfind_byte _ _); [|by intros [= <- <-]]. destruct (negb _); [by intros [= <- <-]|].
  destruct (py_int _ _); [|by intros [= <- <-]]. destruct (negb _); by intros [= <- <-].
Qed.

Lemma try_first_incomplete s s' : try_first s = (s', Incomplete) -> s' = s.
Proof. apply (try_first_rejects s s' Incomplete). Qed.
Lemma try_first_invalid s s' : try_first s = (s', Invalid) -> fbuf s' = fbuf s.
Proof. apply (try_first_rejects s s' Invalid). Qed.

Lemma next_sync_bound s : (0 < length s)%nat -> (0 < next_sync s <= length s)%nat.
Proof. apply next_sync_of_bound. Qed.

Lemma next_sync_app a d :
  (0 < length a)%nat ->
  next_sync (a ++ d) = next_sync a \/
  (next_sync a = length a /\ next_sync (a ++ d) = (length a +
     match find_idx is_sync d with Some i => i | None => length d end)%nat).
Proof. apply next_sync_of_app. Qed.

Lemma add_garbage_twice m n k j s :
  add_garbage m (del_front k (add_garbage n (del_front j s))) = add_garbage (n + m) (del_front (j + k) s).
Proof. unfold add_garbage, del_front. simpl. f_equal; [by rewrite drop_drop|]. f_equal. lia. Qed.

Lemma framer_skip_push s d :
  (0 < length (fbuf s))%nat -> is_sync (fbuf s).[0] = false ->
  let s' := add_garbage (Z.of_nat (next_sync (fbuf s))) (del_front (next_sync (fbuf s)) s) in
  framer_iter (framer_push d s) = (framer_push d s', Go None)
  \/ framer_iter (framer_push d s) = framer_iter (framer_push d s').
Proof.
  intros Hl Hs s'. pose proof (next_sync_bound _ Hl) as Hb.
  assert (Hit : framer_iter (framer_push d s) =
    (add_garbage (Z.of_nat (next_sync (fbuf s ++ d))) (del_front (next_sync (fbuf s ++ d)) (framer_push d s)), Go None)).
  { rewrite framer_iter_eq, framer_push_buf, at_app_l, Hs by done.
    rewrite length_app, (proj2 (Nat.eqb_neq _ 0)) by lia. done. }
  destruct (next_sync_app (fbuf s) d Hl) as [E|[Ea E]].
  - left. rewrite Hit, E, del_front_push by lia. done.
  - assert (Hd : s' = add_garbage (Z.of_nat (length (fbuf s))) (del_front (length (fbuf s)) s))
      by (subst s'; by rewrite Ea).
    assert (Hb' : fbuf s' = []) by (rewrite Hd; simpl; apply drop_all).
    destruct d as [|y d].
    { left. rewrite Hit, app_nil_r, del_front_push by lia. done. }
    destruct (is_sync y) eqn:Ey.
    + left. rewrite Hit, E. cbn [find_idx]. rewrite Ey, Nat.add_0_r, del_front_push by lia.
      by rewrite Hd.
    + right. rewrite Hit, E, (framer_iter_eq (framer_push (y :: d) s')), framer_push_buf, Hb'.
      cbn [app length Nat.eqb at_ nth]. unfold at_. cbn [nth]. rewrite Ey. cbn [negb].
      f_equal. unfold next_sync, next_sync_of. cbn [tail find_idx]. rewrite Ey. rewrite Hd.
      set (k := match find_idx is_sync d with Some i => S i | None => length (y :: d) end).
      replace (match S <$> find_idx is_sync d with Some i => i | None => length (y :: d) end) with k
        by (subst k; by destruct (find_idx is_sync d)).
      unfold framer_push, add_garbage, del_front. simpl. f_equal; [|f_equal; lia].
      rewrite <- drop_drop, drop_app_length, drop_all. done.
Qed.

#[export] Instance framer_laws : IncrementalLaws Framer (fun s => nmea_clear s = true).
Proof.
  split; cbn [ibuf push iter framer_incremental].
  - done.
  - intros d e s. unfold framer_push. simpl. by rewrite app_assoc.
  - intros [b m st]. unfold framer_push. simpl. by rewrite app_nil_r.
  - apply nmea_clear_suffix.
  - intros s E. unfold framer_iter. by rewrite E.
  - intros s s'. rewrite framer_iter_eq.
    destruct (_ =? _)%nat; [intros [= <-]; by exists []|]. destruct (negb _); [done|].
    unfold step_result. destruct (try_first s) as [s1 r] eqn:E.
    destruct r; intros [=]; subst. apply try_first_incomplete in E as ->. by exists [].
  - intros s s' o Hok. rewrite framer_iter_eq.
    destruct (_ =? _)%nat eqn:E0; [done|]. zbool. destruct (negb _) eqn:Es.
    + intros [= <- _]. exists (take (next_sync (fbuf s)) (fbuf s)). simpl. rewrite take_drop.
      split; [|done]. pose proof (next_sync_bound (fbuf s) ltac:(lia)).
      intros E. apply (f_equal length) in E. rewrite length_take in E. simpl in E. lia.
    + pose proof (try_first_front s Hok) as Hf. unfold front_only, step_result in *.
      destruct (try_first s) as [s1 r]. simpl in Hf. destruct r; intros [= <- _]; simpl.
      * destruct Hf as [H1 H2]. eauto.
      * rewrite Hf. destruct (fbuf s) as [|b l]; [done|]. by exists [b].
  - intros s s' d Ha. rewrite framer_iter_eq.
    destruct (_ =? _)%nat eqn:E0.
    + intros [= <-]. done.
    + destruct (negb _); [done|]. unfold step_result. destruct (try_first s) as [s1 r] eqn:E.
      destruct r; intros [=]; subst. apply try_first_incomplete in E as ->. done.
  - intros s s' o d Ha. rewrite framer_iter_eq.
    destruct (_ =? _)%nat eqn:E0; [done|]. zbool. destruct (negb _) eqn:Es.
    + intros [= <- <-]. apply negb_true_iff in Es.
      destruct (framer_skip_push s d ltac:(lia) Es) as [C|C]; [by left|by right].
    + apply negb_false_iff in Es. unfold step_result. destruct (try_first s) as [s1 r] eqn:E.
      pose proof (try_first_push d s ltac:(lia) Es (nmea_clear_line _ Ha)) as Hst.
      unfold stable in Hst. rewrite E in Hst. simpl in Hst.
      intros Hr. left. rewrite framer_iter_eq, framer_push_buf, at_app_l, Es by lia.
      rewrite length_app, (proj2 (Nat.eqb_neq _ 0)) by lia. cbn [negb]. unfold step_result.
      destruct r; try done; injection Hr as <- <-.
      * rewrite Hst by done. done.
      * rewrite Hst by done. f_equal. rewrite del_front_push; [done|].
        rewrite (try_first_invalid _ _ E). lia.
Qed.

(** ** Well-formed wire frames *)

Definition ubx_body (cls id : Z) (payload : bytes) : bytes :=
  [cls; id; Z.land (len payload) 0xFF; Z.shiftr (len payload) 8] ++ payload.

Definition be24 (v : Z) : bytes := [Z.shiftr v 16; Z.land (Z.shiftr v 8) 0xFF; Z.land v 0xFF].

Definition rtcm_body (payload : bytes) : bytes :=
  [RTCM_PREAMBLE; Z.shiftr (len payload) 8; Z.land (len payload) 0xFF] ++ payload.

(** The frames the three protocols define, checksum included. *)
Inductive wire_valid : Frame -> Prop :=
| wire_ubx cls id payload :
    is_byte cls -> is_byte id -> bytes_ok payload -> len payload <= UBX_MAX_PAYLOAD ->
    wire_valid (mkFrame UBX ([UBX_SYNC1; UBX_SYNC2] ++ ubx_body cls id payload
                             ++ ubx_checksum (ubx_body cls id payload)))
| wire_rtcm payload :
    bytes_ok payload -> len payload < 1024 ->
    wire_valid (mkFrame RTCM3 (rtcm_body payload ++ be24 (crc24q (rtcm_body payload))))
| wire_nmea body h1 h2 :
    bytes_ok (body ++ [h1; h2]) -> py_int 16 [h1; h2] = Some (nmea_checksum body) ->
    len body <= 252 -> mem_byte 42 [h1; h2] = false ->
    bfind [13; 10] ([NMEA_START] ++ body ++ [42; h1; h2; 13; 10]) = Some (length body + 4)%nat ->
    wire_valid (mkFrame NMEA ([NMEA_START] ++ body ++ [42; h1; h2; 13; 10])).

Lemma len_bytes_split n : 0 <= n < 65536 ->
  n = Z.land n 0xFF + 256 * Z.shiftr n 8 /\ is_byte (Z.land n 0xFF) /\ is_byte (Z.shiftr n 8).
Proof.
  intros H. rewrite land_255, Z.shiftr_div_pow2 by lia. change (2 ^ 8) with 256.
  pose proof (Z.div_mod n 256). pose proof (Z.mod_pos_bound n 256). unfold is_byte.
  assert (0 <= n / 256 < 256) by (split; [apply Z.div_pos; lia | apply Z.div_lt_upper_bound; lia]).
  lia.
Qed.

Lemma emit_got p n s s' f :
  emit p n s = (s', Got f) -> f = mkFrame p (take n (fbuf s)).
Proof. unfold emit. by intros [= _ <-]. Qed.

Lemma try_ubx_sound s s' f :
  bytes_ok (fbuf s) -> (fbuf s).[0] = UBX_SYNC1 -> try_ubx s = (s', Got f) -> wire_valid f.
Proof.
  intros Hok H0. unfold try_ubx.
  destruct (_ <? 2) eqn:E2; [done|]. destruct (negb _) eqn:Ey; [done|].
  destruct (_ <? 6) eqn:E6; [done|].
  set (buf := fbuf s) in *. set (l := Z.lor _ _).
  destruct (_ <? l) eqn:El; [done|]. destruct (_ <? 6 + l + 2) eqn:Et; [done|]. zbool.
  pose proof (bytes_ok_at buf 4 Hok) as B4. pose proof (bytes_ok_at buf 5 Hok) as B5.
  assert (Hl : l = buf.[4] + 256 * buf.[5]) by (apply (lor_shiftl 8); [lia|done]).
  unfold is_byte, UBX_MAX_PAYLOAD in *.
  set (t := Z.to_nat (6 + l + 2)). case_bool_decide as Hck; [|done].
  intros ->%emit_got. fold buf.
  set (payload := slice 6 (t - 2) buf).
  assert (Hlen : len payload = l) by (unfold payload; rewrite length_slice; lia).
  assert (Hbody : slice 2 (t - 2) buf = ubx_body buf.[2] buf.[3] payload).
  { unfold ubx_body. rewrite Hlen, Hl, land_255, Z.shiftr_div_pow2 by lia.
    change (2 ^ 8) with 256.
    replace ((buf.[4] + 256 * buf.[5]) mod 256) with buf.[4]
      by (rewrite Z.mul_comm, Z_mod_plus_full, Z.mod_small; lia).
    replace ((buf.[4] + 256 * buf.[5]) / 256) with buf.[5]
      by (rewrite Z.mul_comm, Z_div_plus_full, Z.div_small; lia).
    rewrite <- (slice_join 2 6) by lia. f_equal.
    rewrite <- (slice_join 2 3), <- (slice_join 3 4), <- (slice_join 4 5) by lia.
    rewrite !slice_one by lia. done. }
  replace (take t buf) with
    ([UBX_SYNC1; UBX_SYNC2] ++ ubx_body buf.[2] buf.[3] payload
       ++ ubx_checksum (ubx_body buf.[2] buf.[3] payload)).
  - apply wire_ubx; [by apply bytes_ok_at..|by apply bytes_ok_slice|]. unfold UBX_MAX_PAYLOAD. lia.
  - rewrite <- Hbody, <- Hck, slice_join by lia.
    rewrite <- (slice_0 t buf), <- (slice_join 0 2 t) by lia. f_equal.
    rewrite <- (slice_join 0 1 2), !slice_one by lia. by rewrite H0, Ey.
Qed.

Lemma be24_bytes b0 b1 b2 :
  is_byte b0 -> is_byte b1 -> is_byte b2 ->
  be24 (Z.lor (Z.lor (Z.shiftl b0 16) (Z.shiftl b1 8)) b2) = [b0; b1; b2].
Proof.
  intros H0 H1 H2. unfold is_byte in *.
  assert (E : Z.lor (Z.lor (Z.shiftl b0 16) (Z.shiftl b1 8)) b2 = b2 + 256 * (b1 + 256 * b0)).
  { rewrite Z.lor_comm.
    replace (Z.lor (Z.shiftl b0 16) (Z.shiftl b1 8)) with (Z.shiftl (Z.lor b1 (Z.shiftl b0 8)) 8).
    - rewrite (lor_shiftl 8 b1), (lor_shiftl 8 b2) by lia. done.
    - rewrite Z.shiftl_lor, Z.shiftl_shiftl by lia. apply Z.lor_comm. }
  rewrite E. unfold be24. rewrite !land_255, !Z.shiftr_div_pow2 by lia.
  change (2 ^ 16) with 65536. change (2 ^ 8) with 256.
  replace ((b2 + 256 * (b1 + 256 * b0)) / 65536) with b0
    by (apply (Z.div_unique _ _ _ (b2 + 256 * b1)); lia).
  replace ((b2 + 256 * (b1 + 256 * b0)) / 256) with (b1 + 256 * b0)
    by (apply (Z.div_unique _ _ _ b2); lia).
  rewrite !(Z.mul_comm 256), !Z_mod_plus_full, !Z.mod_small by lia. done.
Qed.

Lemma land_FC b : is_byte b -> Z.land b 0xFC = 0 -> Z.land b 3 = b.
Proof.
  intros Hb E. unfold is_byte in Hb.
  assert (D : Z.land b 0xFF = b) by (rewrite land_255; apply Z.mod_small; lia).
  rewrite <- D at 2. change 0xFF with (Z.lor 0xFC 3). rewrite Z.land_lor_distr_r, E. done.
Qed.

Lemma try_rtcm_sound s s' f :
  bytes_ok (fbuf s) -> (fbuf s).[0] = RTCM_PREAMBLE -> try_rtcm s = (s', Got f) -> wire_valid f.
Proof.
  intros Hok H0. unfold try_rtcm.
  destruct (_ <? 3) eqn:E3; [done|]. destruct (negb _) eqn:Ey; [done|].
  set (buf := fbuf s) in *. set (l := Z.lor (Z.shiftl _ _) _).
  destruct (_ <? 3 + l + 3) eqn:Et; [done|]. zbool.
  pose proof (bytes_ok_at buf 1 Hok) as B1. pose proof (bytes_ok_at buf 2 Hok) as B2.
  pose proof (land_FC _ B1 Ey) as Hb1.
  assert (Hsmall : 0 <= buf.[1] < 4).
  { rewrite <- Hb1. apply (land_ones_bound 2). lia. }
  assert (Hl : l = buf.[2] + 256 * buf.[1])
    by (unfold l; rewrite Hb1, Z.lor_comm; apply (lor_shiftl 8); [lia|done]).
  unfold is_byte in *. set (t := Z.to_nat (3 + l + 3)).
  destruct (negb _) eqn:Hck; [done|]. zbool. intros ->%emit_got. fold buf.
  set (payload := slice 3 (t - 3) buf).
  assert (Hlen : len payload = l) by (unfold payload; rewrite length_slice; lia).
  assert (Hbody : slice 0 (t - 3) buf = rtcm_body payload).
  { unfold rtcm_body. rewrite Hlen, Hl, land_255, Z.shiftr_div_pow2 by lia.
    change (2 ^ 8) with 256.
    replace ((buf.[2] + 256 * buf.[1]) mod 256) with buf.[2]
      by (rewrite Z.mul_comm, Z_mod_plus_full, Z.mod_small; lia).
    replace ((buf.[2] + 256 * buf.[1]) / 256) with buf.[1]
      by (rewrite Z.mul_comm, Z_div_plus_full, Z.div_small; lia).
    rewrite <- (slice_join 0 3) by lia. f_equal.
    rewrite <- (slice_join 0 1), <- (slice_join 1 2) by lia.
    rewrite !slice_one by lia. by rewrite H0. }
  replace (take t buf) with (rtcm_body payload ++ be24 (crc24q (rtcm_body payload))).
  - apply wire_rtcm; [by apply bytes_ok_slice|lia].
  - rewrite <- Hbody, Hck, be24_bytes by (by apply bytes_ok_at).
    rewrite <- (slice_0 t buf), <- (slice_join 0 (t - 3) t) by lia. f_equal.
    pose proof (slice_three buf (t - 3) ltac:(lia)) as H3.
    replace (t - 3 + 3)%nat with t in H3 by lia. replace (t - 3 + 1)%nat with (t - 2)%nat in H3 by lia.
    replace (t - 3 + 2)%nat with (t - 1)%nat in H3 by lia. done.
Qed.

Lemma try_nmea_sound s s' f :
  bytes_ok (fbuf s) -> (fbuf s).[0] = NMEA_START -> try_nmea s = (s', Got f) -> wire_valid f.
Proof.
  intros Hok H0. unfold try_nmea. change (Z.to_nat (NMEA_MAX_LEN + 2)) with 258%nat.
  set (buf := fbuf s) in *.
  destruct (bfind _ _) as [e|] eqn:E; [|by destruct (_ <? _)].
  destruct (rfind_byte _ _) as [star|] eqn:Er; [|done].
  destruct (negb (_ - _ =? 3)) eqn:E3; [done|]. destruct (py_int 16 _) as [g|] eqn:Eg; [|done].
  destruct (negb (g =? _)) eqn:Ec; [done|]. zbool. intros ->%emit_got. fold buf.
  pose proof (bfind_bound _ _ _ E) as Hb. rewrite length_take in Hb. cbn [length] in Hb.
  destruct (rfind_byte_lt _ _ _ Er) as [Hs Hstar]. rewrite length_take in Hs.
  assert (He : e = (star + 3)%nat) by lia. subst e.
  assert (Hat : buf.[star] = 42).
  { rewrite <- (take_drop (star + 3) buf), at_app_l by (rewrite length_take; lia). done. }
  assert (Hpos : (0 < star)%nat) by (destruct star; [rewrite H0 in Hat; done|lia]).
  set (body := slice 1 star buf).
  pose proof (slice_three buf star ltac:(lia)) as S3.
  assert (Hh : slice (star + 1) (star + 3) buf = [buf.[star + 1]; buf.[star + 2]]).
  { rewrite <- (slice_join star (star + 1)) in S3 by lia.
    replace (star + 1)%nat with (S star) in S3 at 1 by lia. rewrite slice_one in S3 by lia.
    by injection S3. }
  assert (Hcr : slice (star + 3) (star + 5) buf = [13; 10]).
  { pose proof (bfind_Some _ _ _ E) as Hf. apply startswith_spec in Hf as [r Hr].
    transitivity (slice (star + 3) (star + 5) (take 258 buf)).
    - rewrite <- (take_drop 258 buf) at 1. by rewrite slice_app_l by (rewrite length_take; lia).
    - unfold slice. rewrite Hr. by replace (star + 5 - (star + 3))%nat with 2%nat by lia. }
  assert (Hraw : take (star + 3 + 2) buf = [NMEA_START] ++ body ++ [42; buf.[star + 1]; buf.[star + 2]; 13; 10]).
  { rewrite <- slice_0. replace (star + 3 + 2)%nat with (star + 5)%nat by lia.
    rewrite <- (slice_join 0 1), <- (slice_join 1 star), <- (slice_join star (star + 3)) by lia.
    rewrite S3, Hcr, Hat, slice_one, H0 by lia. done. }
  assert (Hbl : length body = (star - 1)%nat) by (unfold body; apply length_slice; lia).
  rewrite Hraw. apply wire_nmea.
  - apply Forall_app_2; [by apply bytes_ok_slice|]. rewrite <- Hh. by apply bytes_ok_slice.
  - rewrite <- Hh, Eg. f_equal. done.
  - lia.
  - unfold mem_byte. cbn [existsb]. rewrite !(proj2 (Z.eqb_neq _ _)); [done|..]; intros Hx.
    all: match type of Hx with _ = at_ _ ?i =>
      apply (rfind_byte_last _ _ _ i Er); [rewrite length_take; lia|];
      rewrite <- (take_drop (star + 3) buf), at_app_l in Hx by (rewrite length_take; lia); done end.
  - rewrite <- Hraw. replace (length body + 4)%nat with (star + 3)%nat by lia.
    replace (take (star + 3 + 2) buf) with (take (star + 3 + 2) (take 258 buf))
      by (rewrite take_take; f_equal; lia).
    apply bfind_take; [done|]. cbn [length]. lia.
Qed.

Lemma try_first_sound s s' f :
  bytes_ok (fbuf s) -> is_sync (fbuf s).[0] = true -> try_first s = (s', Got f) -> wire_valid f.
Proof.
  intros Hok Hs. unfold try_first.
  destruct (_ =? UBX_SYNC1) eqn:E1; zbool; [by apply try_ubx_sound|].
  destruct (_ =? RTCM_PREAMBLE) eqn:E2; zbool; [by apply try_rtcm_sound|].
  apply try_nmea_sound; [done|]. apply is_sync_cases in Hs. tauto.
Qed.

(** ** Every well-formed frame is recognised *)

Lemma take_app_exact {A} n (a b : list A) : n = length a -> take n (a ++ b) = a.
Proof. intros ->. by apply take_app_length'. Qed.

Lemma try_ubx_complete cls id payload m st :
  bytes_ok payload -> len payload <= UBX_MAX_PAYLOAD ->
  let body := ubx_body cls id payload in
  let raw := [UBX_SYNC1; UBX_SYNC2] ++ body ++ ubx_checksum body in
  try_ubx (mkFramer raw m st) = emit UBX (length raw) (mkFramer raw m st).
Proof.
  intros Hp Hl body raw. unfold UBX_MAX_PAYLOAD in Hl.
  destruct (len_bytes_split (len payload) ltac:(lia)) as (En & B4 & B5).
  assert (Hraw : length raw = (8 + length payload)%nat).
  { unfold raw, body, ubx_body. rewrite !length_app, length_ubx_checksum. simpl. lia. }
  assert (H1 : raw.[1] = UBX_SYNC2) by done.
  assert (H4 : Z.lor raw.[4] (Z.shiftl raw.[5] 8) = len payload).
  { change raw.[4] with (Z.land (len payload) 0xFF). change raw.[5] with (Z.shiftr (len payload) 8).
    rewrite (lor_shiftl 8) by (lia || done). symmetry. exact En. }
  unfold try_ubx. cbn [fbuf]. rewrite H1, H4.
  rewrite (proj2 (Z.ltb_ge _ 2)), (proj2 (Z.ltb_ge _ 6)) by lia. cbn [negb Z.eqb].
  rewrite (proj2 (Z.ltb_ge UBX_MAX_PAYLOAD _)) by (unfold UBX_MAX_PAYLOAD; lia).
  rewrite (proj2 (Z.ltb_ge _ (6 + len payload + 2))) by lia.
  change (UBX_SYNC2 =? UBX_SYNC2) with true. cbn [negb].
  replace (Z.to_nat (6 + len payload + 2)) with (length raw) by lia.
  assert (Hb : length body = (4 + length payload)%nat) by (unfold body, ubx_body; rewrite length_app; done).
  rewrite bool_decide_true; [done|].
  replace (slice 2 (length raw - 2) raw) with body
    by (symmetry; apply slice_mid; [done|rewrite Hraw, Hb; cbn [length]; lia]).
  unfold raw at 3. rewrite app_assoc. rewrite <- (app_nil_r (ubx_checksum body)) at 1.
  apply slice_mid; rewrite length_app, ?length_ubx_checksum; cbn [length]; lia.
Qed.

Lemma be24_join v : 0 <= v < 2 ^ 24 ->
  Z.lor (Z.lor (Z.shiftl (Z.shiftr v 16) 16) (Z.shiftl (Z.land (Z.shiftr v 8) 0xFF) 8)) (Z.land v 0xFF) = v.
Proof.
  intros Hv. rewrite Z.lor_comm.
  replace (Z.lor (Z.shiftl (Z.shiftr v 16) 16) (Z.shiftl (Z.land (Z.shiftr v 8) 0xFF) 8))
    with (Z.shiftl (Z.lor (Z.land (Z.shiftr v 8) 0xFF) (Z.shiftl (Z.shiftr v 16) 8)) 8)
    by (rewrite Z.shiftl_lor, Z.shiftl_shiftl by lia; apply Z.lor_comm).
  rewrite !(lor_shiftl 8) by (lia || apply is_byte_land).
  rewrite !land_255, !Z.shiftr_div_pow2 by lia. change (2 ^ 8) with 256. change (2 ^ 16) with (256 * 256).
  rewrite <- Z.div_div by lia. pose proof (Z.div_mod v 256). pose proof (Z.div_mod (v / 256) 256). lia.
Qed.

Lemma try_rtcm_complete payload m st :
  bytes_ok payload -> len payload < 1024 ->
  let raw := rtcm_body payload ++ be24 (crc24q (rtcm_body payload)) in
  try_rtcm (mkFramer raw m st) = emit RTCM3 (length raw) (mkFramer raw m st).
Proof.
  intros Hp Hl raw.
  destruct (len_bytes_split (len payload) ltac:(lia)) as (En & B4 & B5).
  assert (Hhi : 0 <= Z.shiftr (len payload) 8 < 4)
    by (rewrite Z.shiftr_div_pow2 by lia; split; [apply Z.div_pos; lia | apply Z.div_lt_upper_bound; lia]).
  assert (Hb : length (rtcm_body payload) = (3 + length payload)%nat)
    by (unfold rtcm_body; rewrite length_app; done).
  assert (Hraw : length raw = (6 + length payload)%nat)
    by (unfold raw; rewrite length_app, Hb; simpl; lia).
  assert (Hok : bytes_ok (rtcm_body payload)).
  { apply Forall_app_2; [|done]. unfold RTCM_PREAMBLE.
    repeat (constructor; [done || (unfold is_byte; lia)|]). constructor. }
  pose proof (crc24q_range _ Hok) as Hc.
  assert (H1 : raw.[1] = Z.shiftr (len payload) 8) by done.
  assert (H2 : raw.[2] = Z.land (len payload) 0xFF) by done.
  assert (Hc0 : Z.land (Z.shiftr (len payload) 8) 0xFC = 0).
  { apply Z.bits_inj'. intros k Hk. rewrite Z.land_spec, Z.bits_0.
    destruct (Z.ltb_spec k 2).
    - assert (k = 0 \/ k = 1) as [-> | ->] by lia; apply andb_false_r.
    - rewrite (testbit_high 2) by lia. done. }
  assert (Hc3 : Z.land (Z.shiftr (len payload) 8) 3 = Z.shiftr (len payload) 8)
    by (change 3 with (Z.ones 2); rewrite Z.land_ones by lia; apply Z.mod_small; lia).
  assert (Hl16 : Z.lor (Z.shiftl (Z.shiftr (len payload) 8) 8) (Z.land (len payload) 0xFF) = len payload)
    by (rewrite Z.lor_comm, (lor_shiftl 8) by (lia || done); symmetry; exact En).
  unfold try_rtcm. cbn [fbuf]. rewrite H1, H2, Hc0, Hc3, Hl16.
  rewrite (proj2 (Z.ltb_ge _ 3)), (proj2 (Z.ltb_ge _ (3 + len payload + 3))) by lia.
  cbn [negb Z.eqb].
  replace (Z.to_nat (3 + len payload + 3)) with (length raw) by lia.
  set (body := rtcm_body payload) in *.
  assert (Hbody : slice 0 (length raw - 3) raw = body)
    by (rewrite slice_0; apply take_app_exact; lia).
  assert (Htail : forall i, raw.[length body + i] = (be24 (crc24q body)).[i])
    by (intros i; unfold raw; rewrite at_app_r by lia; f_equal; lia).
  rewrite Hbody.
  replace (length raw - 3)%nat with (length body + 0)%nat by lia.
  replace (length raw - 2)%nat with (length body + 1)%nat by lia.
  replace (length raw - 1)%nat with (length body + 2)%nat by lia.
  rewrite !Htail. unfold be24, at_. cbn [nth].
  rewrite be24_join, Z.eqb_refl by done. done.
Qed.

Lemma try_nmea_complete body h1 h2 m st :
  py_int 16 [h1; h2] = Some (nmea_checksum body) -> len body <= 252 ->
  mem_byte 42 [h1; h2] = false ->
  let raw := [NMEA_START] ++ body ++ [42; h1; h2; 13; 10] in
  bfind [13; 10] raw = Some (length body + 4)%nat ->
  try_nmea (mkFramer raw m st) = emit NMEA (length raw) (mkFramer raw m st).
Proof.
  intros Hi Hl Hm raw Hf.
  assert (Hraw : length raw = (length body + 6)%nat).
  { unfold raw. rewrite !length_app. simpl. lia. }
  unfold try_nmea. cbn [fbuf]. change (Z.to_nat (NMEA_MAX_LEN + 2)) with 258%nat.
  rewrite take_ge by lia. rewrite Hf.
  replace (take (length body + 4) raw) with ((NMEA_START :: body) ++ 42 :: [h1; h2]).
  2:{ unfold raw. change ([NMEA_START] ++ body ++ [42; h1; h2; 13; 10])
        with ((NMEA_START :: body) ++ ([42; h1; h2] ++ [13; 10])).
      rewrite app_assoc. symmetry. apply take_app_exact. rewrite length_app. simpl. lia. }
  unfold mem_byte in Hm. cbn [existsb] in Hm. zbool.
  rewrite rfind_byte_app.
  2:{ apply rfind_byte_None. repeat constructor; congruence. }
  cbn [length]. rewrite (proj2 (Z.eqb_eq _ 3)) by lia. cbn [negb].
  replace (slice (S (length body) + 1) (length body + 4) raw) with [h1; h2].
  2:{ unfold raw. change ([NMEA_START] ++ body ++ [42; h1; h2; 13; 10])
        with ((NMEA_START :: body) ++ ([42] ++ ([h1; h2] ++ [13; 10]))).
      rewrite app_assoc. symmetry. apply slice_mid; rewrite length_app; simpl; lia. }
  rewrite Hi.
  replace (slice 1 (S (length body)) raw) with body
    by (symmetry; apply (slice_mid 1 _ [NMEA_START]); simpl; lia).
  rewrite Z.eqb_refl. cbn [negb]. f_equal. lia.
Qed.

(** The state after a frame of protocol [p] was taken off the front. *)
Definition after_frame (p : Proto) (rest : bytes) (m : Z) (st : FramerStats) : Framer :=
  mkFramer rest m (count_frame p st).

(** A well-formed frame at the front of the buffer is emitted, whatever follows it. *)
Lemma iter_wire_valid f rest m st :
  wire_valid f ->
  framer_iter (mkFramer (raw f ++ rest) m st) = (after_frame (proto f) rest m st, Go (Some f)).
Proof.
  intros Hv.
  assert (Hfirst : try_first (mkFramer (raw f ++ rest) m st)
                   = (after_frame (proto f) rest m st, Got f)
                   /\ is_sync (raw f).[0] = true /\ (0 < length (raw f))%nat).
  { assert (Hout : forall p r, emit p (length r) (mkFramer r m st)
              = (after_frame p [] m st, Got (mkFrame p r))).
    { intros p r. unfold emit, del_front, after_frame. simpl. by rewrite drop_all, firstn_all. }
    assert (Happ : forall p, after_frame p rest m st = framer_push rest (after_frame p [] m st)) by done.
    destruct Hv as [cls id payload Hc Hi Hp Hl|payload Hp Hl|body h1 h2 Hok Hi Hl Hm Hf];
      cbn [raw proto]; (split; [|split; [done|simpl; lia]]).
    - pose proof (try_ubx_push rest (mkFramer ([UBX_SYNC1; UBX_SYNC2] ++ ubx_body cls id payload
         ++ ubx_checksum (ubx_body cls id payload)) m st)) as Hs. unfold stable in Hs.
      rewrite try_ubx_complete, Hout in Hs by done. rewrite Happ. by apply Hs.
    - pose proof (try_rtcm_push rest (mkFramer (rtcm_body payload ++ be24 (crc24q (rtcm_body payload))) m st)) as Hs.
      unfold stable in Hs. rewrite try_rtcm_complete, Hout in Hs by done. rewrite Happ. by apply Hs.
    - pose proof (try_nmea_push rest (mkFramer ([NMEA_START] ++ body ++ [42; h1; h2; 13; 10]) m st)) as Hs.
      unfold stable in Hs. rewrite try_nmea_complete, Hout in Hs by done. rewrite Happ.
      apply Hs; [|done|done]. intros Hn. cbn [fbuf] in Hn.
      rewrite take_ge in Hn by (rewrite !length_app; cbn [length]; lia). congruence. }
  destruct Hfirst as (Hf & Hs & Hl).
  rewrite framer_iter_eq. cbn [fbuf]. rewrite at_app_l, Hs by done.
  rewrite length_app, (proj2 (Nat.eqb_neq _ 0)) by lia. cbn [negb]. by rewrite Hf.
Qed.

Lemma wire_valid_bytes f : wire_valid f -> bytes_ok (raw f).
Proof.
  assert (Hsmall : forall n, 0 <= n < 65536 -> is_byte (Z.land n 0xFF) /\ is_byte (Z.shiftr n 8))
    by (intros n Hn; apply (len_bytes_split n Hn)).
  intros [cls id payload Hc Hi Hp Hl|payload Hp Hl|body h1 h2 Hok Hi Hl Hm Hf]; cbn [raw].
  - unfold UBX_MAX_PAYLOAD in Hl. destruct (Hsmall (len payload) ltac:(lia)).
    assert (bytes_ok (ubx_body cls id payload))
      by (apply Forall_app_2; [repeat (constructor; [done|]); constructor|done]).
    apply Forall_app_2; [|by apply Forall_app_2; [|apply is_byte_ubx_checksum]].
    unfold UBX_SYNC1, UBX_SYNC2. repeat (constructor; [unfold is_byte; lia|]). constructor.
  - destruct (Hsmall (len payload) ltac:(lia)).
    assert (Hb : bytes_ok (rtcm_body payload)).
    { apply Forall_app_2; [|done]. unfold RTCM_PREAMBLE. constructor; [unfold is_byte; lia|].
      repeat (constructor; [done|]). constructor. }
    apply Forall_app_2; [done|]. pose proof (crc24q_range _ Hb) as Hc. unfold be24.
    constructor; [|repeat (constructor; [apply is_byte_land|]); constructor].
    rewrite Z.shiftr_div_pow2 by lia. unfold is_byte.
    split; [apply Z.div_pos; lia | apply Z.div_lt_upper_bound; lia].
  - apply Forall_app in Hok as [H1 H2]. apply Forall_app_2; [|apply Forall_app_2; [done|]].
    + unfold NMEA_START. constructor; [unfold is_byte; lia|constructor].
    + change [42; h1; h2; 13; 10] with ([42] ++ [h1; h2] ++ [13; 10]).
      apply Forall_app_2; [|apply Forall_app_2; [done|]];
        repeat (constructor; [unfold is_byte; lia|]); constructor.
Qed.

(** ** The buffer cap and the whole [feed] *)

Lemma framer_iter_max s s' g : framer_iter s = (s', g) -> max_buffer s' = max_buffer s.
Proof.
  rewrite framer_iter_eq. destruct (_ =? _)%nat; [by intros [= <- _]|].
  destruct (negb _); [by intros [= <- _]|]. unfold step_result.
  destruct (try_first s) as [s1 r] eqn:E. intros H.
  assert (max_buffer s1 = max_buffer s) as <-; [|destruct r; injection H as <- _; done].
  revert E. unfold try_first, try_ubx, try_rtcm, try_nmea, emit. clear.
  repeat match goal with
  | |- (if ?b then _ else _) = _ -> _ => destruct b
  | |- context [match bfind ?p ?x with _ => _ end] => destruct (bfind p x)
  | |- context [match rfind_byte ?p ?x with _ => _ end] => destruct (rfind_byte p x)
  | |- context [match py_int ?p ?x with _ => _ end] => destruct (py_int p x)
  end; by intros [= <- _].
Qed.

Lemma run_max s : bytes_ok (fbuf s) -> max_buffer (run s).1 = max_buffer s.
Proof.
  intros Hok. revert s Hok. apply (run_ind (I := framer_incremental) (fun s r => max_buffer r.1 = max_buffer s)).
  - intros t t' _ E. by eapply framer_iter_max.
  - intros t t' o r out _ E _ IH. simpl in *. rewrite IH. by eapply framer_iter_max.
Qed.

Lemma framer_cap_small s : len (fbuf s) <= max_buffer s -> framer_cap s = s.
Proof. intros H. unfold framer_cap. by rewrite (proj2 (Z.ltb_ge _ _)). Qed.

(** [feed] below the cap is the generic [ifeed]. *)
Lemma framer_feed_small d s :
  len (fbuf s ++ d) <= max_buffer s -> framer_feed d s = ifeed d s.
Proof. intros H. unfold framer_feed, ifeed. by rewrite framer_cap_small. Qed.

Lemma framer_feed_all_small chunks s :
  bytes_ok (fbuf s ++ concat chunks) -> len (fbuf s ++ concat chunks) <= max_buffer s ->
  framer_feed_all chunks s = ifeed_all chunks s.
Proof.
  revert s. induction chunks as [|d ds IH]; intros s Hok Hl; [done|]. cbn [concat] in *.
  rewrite app_assoc in Hok, Hl. apply Forall_app in Hok as [Hok1 Hok2].
  simpl. rewrite framer_feed_small by (rewrite length_app in Hl; lia).
  unfold ifeed. destruct (run (push d s)) as [s1 o1] eqn:E.
  pose proof (run_suffix (push d s) Hok1) as [x Hx]. pose proof (run_max (push d s) Hok1) as Hm.
  rewrite E in Hx, Hm. simpl in Hx, Hm. rewrite Hx in Hok1, Hl.
  apply Forall_app in Hok1 as [_ Hok1]. rewrite IH; [done|by apply Forall_app_2|].
  rewrite Hm, !length_app in *. lia.
Qed.

(** C6.  "Feed bytes in any chunking": from any settled framer, for every cutting
    of a stream that fits the buffer and holds no ['$'] line with its first CR LF at offset 255
    or 256, the frames, the pending bytes and all counters are those of a single [feed]. *)
Theorem framer_chunking chunks s :
  framer_iter s = (s, Stop) ->
  bytes_ok (fbuf s ++ concat chunks) ->
  len (fbuf s ++ concat chunks) <= max_buffer s ->
  nmea_clear (fbuf s ++ concat chunks) = true ->
  framer_feed_all chunks s = framer_feed (concat chunks) s.
Proof.
  intros Hs Hok Hl Hc. rewrite framer_feed_all_small, framer_feed_small by done.
  by apply (feed_all_concat (L := framer_laws)).
Qed.

(** [b"$PX*08\r\n"] and a UBX ACK frame, cut in the middle of each. *)
Definition demo_chunks : list bytes :=
  [[36; 80]; [88; 42; 48; 56; 13]; [10; 0xB5; 0x62; 5; 1]; [2; 0; 6; 0x8A; 0x98; 0xC1]].

Lemma framer_chunking_witness :
  framer_feed_all demo_chunks (new_framer 1048576)
  = framer_feed (concat demo_chunks) (new_framer 1048576)
  /\ length (framer_feed_all demo_chunks (new_framer 1048576)).2 = 2%nat.
Proof.
  split.
  - apply (framer_chunking demo_chunks (new_framer 1048576)).
    + reflexivity.
    + repeat (constructor; [unfold is_byte; lia|]). constructor.
    + vm_compute. discriminate.
    + vm_compute. reflexivity.
  - vm_compute. reflexivity.
Defined.

(** A 258-byte line, [b"$AAA...A*00\r\n"], as one chunk and with its last byte apart. *)
Definition long_line : bytes := [36] ++ replicate 252 65 ++ [42; 48; 48; 13].

(** Chunking does matter for a 258-byte line with a valid checksum: fed at
    once it is one NMEA frame, fed with its final LF in a second chunk it is dropped as 258
    bytes of garbage. *)
Theorem framer_chunk_dependent :
  framer_feed (long_line ++ [10]) (new_framer 1048576)
  = (mkFramer [] 1048576 (mkStats 0 0 1 0 0), [mkFrame NMEA (long_line ++ [10])])
  /\ framer_feed_all [long_line; [10]] (new_framer 1048576)
     = (mkFramer [] 1048576 (mkStats 0 0 0 258 0), []).
Proof. split; vm_compute; reflexivity. Qed.

(** ** Partition of the stream, soundness and completeness *)

Definition garbage (s : Framer) : Z := garbage_bytes (fstats s).

Lemma try_first_garbage s s' r : try_first s = (s', r) -> garbage s' = garbage s.
Proof.
  unfold try_first, try_ubx, try_rtcm, try_nmea, emit, garbage, add_checksum_error, count_frame.
  repeat match goal with
  | |- (if ?b then _ else _) = _ -> _ => destruct b
  | |- context [match bfind ?p ?x with _ => _ end] => destruct (bfind p x)
  | |- context [match rfind_byte ?p ?x with _ => _ end] => destruct (rfind_byte p x)
  | |- context [match py_int ?p ?x with _ => _ end] => destruct (py_int p x)
  end; by intros [= <- _].
Qed.

Lemma framer_go_partition s s' o :
  bytes_ok (fbuf s) -> framer_iter s = (s', Go o) ->
  exists gs, fbuf s = flat_map seg_bytes gs ++ fbuf s' /\ Forall accounted gs
             /\ flat_map seg_frames gs = olist o
             /\ garbage s' = garbage s + skip_total gs /\ Forall wire_valid (olist o).
Proof.
  intros Hok. rewrite framer_iter_eq.
  destruct (_ =? _)%nat eqn:E0; [done|]. zbool. destruct (negb _) eqn:Es.
  - intros [= <- <-]. pose proof (next_sync_bound (fbuf s) ltac:(lia)).
    exists [Skipped (take (next_sync (fbuf s)) (fbuf s))]. simpl.
    rewrite app_nil_r, take_drop, length_take, Nat.min_l by lia.
    unfold garbage. simpl. split_and!; [done|by repeat constructor|done|lia|done].
  - apply negb_false_iff in Es. unfold step_result. destruct (try_first s) as [s1 r] eqn:E.
    pose proof (try_first_garbage _ _ _ E) as Hg. pose proof (try_first_front s Hok) as Hf.
    unfold front_only in Hf. rewrite E in Hf. simpl in Hf.
    destruct r as [f| |]; intros [= <- <-].
    + destruct Hf as [_ Hf]. exists [Emitted f]. simpl. rewrite app_nil_r, Hg.
      split_and!; [done|by repeat constructor|done|lia|]. apply Forall_singleton. by eapply try_first_sound.
    + exists [Skipped (take 1 (fbuf s))]. unfold garbage in *. simpl.
      rewrite app_nil_r, Hf, take_drop, length_take, Nat.min_l, Hg by lia.
      split_and!; [done|by repeat constructor|done|lia|done].
Qed.

Lemma framer_stop_partition s s' : framer_iter s = (s', Stop) -> s' = s.
Proof.
  rewrite framer_iter_eq. destruct (_ =? _)%nat; [by intros [= <-]|]. destruct (negb _); [done|].
  unfold step_result. destruct (try_first s) as [s1 r] eqn:E.
  destruct r; intros [=]; subst. by apply try_first_incomplete.
Qed.

(** C1.  Every byte given to [feed] is accounted for: what is over the cap is
    dropped from the front, the rest is cut into emitted frames and skipped garbage and nothing
    else ([accounted]), in order, followed by the bytes still pending; [garbage_bytes] counts exactly the dropped and skipped
    bytes, and every emitted frame is a well-formed UBX, RTCM3 or NMEA frame with a correct
    checksum. *)
Theorem framer_feed_sound d s :
  bytes_ok (fbuf s ++ d) -> 0 <= max_buffer s ->
  exists dropped gs,
    fbuf s ++ d = dropped ++ flat_map seg_bytes gs ++ fbuf (framer_feed d s).1
    /\ len dropped = Z.max 0 (len (fbuf s ++ d) - max_buffer s)
    /\ Forall accounted gs
    /\ (framer_feed d s).2 = flat_map seg_frames gs
    /\ garbage (framer_feed d s).1 = garbage s + len dropped + skip_total gs
    /\ Forall wire_valid (framer_feed d s).2.
Proof.
  intros Hok Hm. unfold framer_feed. set (t := framer_push d s).
  assert (Hcap : exists dropped, fbuf t = dropped ++ fbuf (framer_cap t)
    /\ len dropped = Z.max 0 (len (fbuf t) - max_buffer s)
    /\ garbage (framer_cap t) = garbage s + len dropped).
  { unfold framer_cap. change (max_buffer t) with (max_buffer s).
    destruct (max_buffer s <? len (fbuf t)) eqn:E; zbool.
    - set (n := Z.to_nat (len (fbuf t) - max_buffer s)). exists (take n (fbuf t)).
      unfold garbage, add_garbage, del_front. cbn [fbuf fstats garbage_bytes].
      rewrite take_drop, length_take, Nat.min_l by lia.
      split_and!; [done|lia|]. change (fstats t) with (fstats s). subst n. lia.
    - exists []. cbn [length]. split_and!; [done|lia|]. unfold garbage. change (fstats t) with (fstats s). lia. }
  destruct Hcap as (dropped & Hb & Hd & Hg). change (fbuf t) with (fbuf s ++ d) in *.
  assert (Hokc : bytes_ok (fbuf (framer_cap t)))
    by (rewrite Hb in Hok; by apply Forall_app in Hok as []).
  destruct (run_partition_good (L := framer_laws) garbage accounted) with (s := framer_cap t)
    as (gs & Hgs & Hacc & Hfr & Hgg); [done| | |done|].
  - intros u u' ->%framer_stop_partition. exists []. simpl. split; [done|lia].
  - intros u u' o Hu E. destruct (framer_go_partition u u' o Hu E) as (gs & ? & ? & ? & ? & _). eauto 6.
  - exists dropped, gs. cbn [ibuf framer_incremental] in Hgs. rewrite Hb, Hgs.
    split_and!; [done|by rewrite Hd, Hb, Hgs|done|done| |].
    { cbn [garbage] in *. rewrite Hgg, Hg. lia. }
    apply (run_invariant (L := framer_laws) (fun _ => True)); [done|done| |done].
    intros u u' o Hu _ E. destruct (framer_go_partition u u' o Hu E) as (? & _ & _ & _ & _ & ?). done.
Qed.

Lemma framer_feed_sound_witness :
  exists dropped gs,
    [1; 36; 80; 88; 42; 48; 56; 13; 10; 0xB5]
    = dropped ++ flat_map seg_bytes gs ++ fbuf (framer_feed [1; 36; 80; 88; 42; 48; 56; 13; 10; 0xB5] (new_framer 64)).1
    /\ len dropped = 0.
Proof.
  destruct (framer_feed_sound [1; 36; 80; 88; 42; 48; 56; 13; 10; 0xB5] (new_framer 64))
    as (dropped & gs & H1 & H2 & _).
  - repeat (constructor; [unfold is_byte; lia|]). constructor.
  - simpl. lia.
  - exists dropped, gs. split; [exact H1|exact H2].
Defined.

Definition count_frames (fs : list Frame) (st : FramerStats) : FramerStats :=
  foldl (fun st f => count_frame (proto f) st) st fs.

Lemma run_wire_valid fs rest m st :
  Forall wire_valid fs -> bytes_ok rest ->
  run (mkFramer (flat_map raw fs ++ rest) m st)
  = let '(s, out) := run (mkFramer rest m (count_frames fs st)) in (s, fs ++ out).
Proof.
  intros Hfs Hr. revert st. induction Hfs as [|f fs Hf Hfs IH]; intros st; simpl.
  - by destruct (run _).
  - rewrite <- app_assoc. rewrite (run_step (L := framer_laws)).
    + cbn [iter framer_incremental]. rewrite iter_wire_valid by done. unfold after_frame.
      rewrite IH. by destruct (run _).
    + cbn [ibuf framer_incremental fbuf]. apply Forall_app_2; [by apply wire_valid_bytes|].
      apply Forall_app_2; [|done]. clear - Hfs.
      induction Hfs; simpl; [constructor|]. apply Forall_app_2; [by apply wire_valid_bytes|done].
Qed.

(** C5.  A stream of well-formed frames, in any mix of the three protocols,
    fed at once to a new framer whose buffer cap it does not exceed, is split into exactly those frames, in order, with no garbage and nothing left over. *)
Theorem framer_feed_complete fs m :
  Forall wire_valid fs -> len (flat_map raw fs) <= m ->
  framer_feed (flat_map raw fs) (new_framer m)
  = (mkFramer [] m (count_frames fs (mkStats 0 0 0 0 0)), fs).
Proof.
  intros Hfs Hm. unfold framer_feed. rewrite framer_cap_small by done.
  unfold framer_push, new_framer. simpl app. rewrite <- (app_nil_r (flat_map raw fs)).
  rewrite run_wire_valid by (done || constructor).
  rewrite (run_step (L := framer_laws)) by constructor. simpl. by rewrite app_nil_r.
Qed.

Lemma framer_feed_complete_witness :
  let f := mkFrame UBX [0xB5; 0x62; 5; 1; 2; 0; 6; 0x8A; 0x98; 0xC1] in
  framer_feed (flat_map raw [f; f]) (new_framer 1048576)
  = (mkFramer [] 1048576 (mkStats 2 0 0 0 0), [f; f]).
Proof.
  assert (V : wire_valid (mkFrame UBX [0xB5; 0x62; 5; 1; 2; 0; 6; 0x8A; 0x98; 0xC1])).
  { apply (wire_ubx 5 1 [6; 0x8A]); try (unfold is_byte; lia); [|vm_compute; discriminate].
    repeat (constructor; [unfold is_byte; lia|]). constructor. }
  apply (framer_feed_complete [mkFrame UBX [0xB5; 0x62; 5; 1; 2; 0; 6; 0x8A; 0x98; 0xC1];
                               mkFrame UBX [0xB5; 0x62; 5; 1; 2; 0; 6; 0x8A; 0x98; 0xC1]] 1048576).
  - constructor; [exact V|]. constructor; [exact V|]. constructor.
  - vm_compute. discriminate.
Defined.
