(* ===== verification/SbgFraming.v ===== *)
(** * sbgECom framing ([rover/drivers/sbg/ids.py], [rover/drivers/sbg/framer.py])

    The id tables, [encode], [name_for] and [SbgFramer], an instance of the [Incremental]
    interface whose verdicts depend on nothing but the stream: chunking never matters. *)

From Stdlib Require Import String.
From S2P Require Import Prelude.
From S2P Require Import PyBytes.
From S2P Require Import Checksums.
From S2P Require Import Framing.

(** ** ids.py *)

Definition CLASS : list (bytes * Z) :=
  [(str "LOG_ECOM_0", 0x00);
   (str "LOG_ECOM_1", 0x01);
   (str "LOG_NMEA_0", 0x02);
   (str "LOG_NMEA_1", 0x03);
   (str "LOG_THIRD_PARTY_0", 0x04);
   (str "LOG_NMEA_GNSS", 0x05);
   (str "LOG_CMD_0", 0x10);
   (str "CMD_0", 0x10);
   (str "LOG_ALL", 0xFF)].

Definition LOG : list (bytes * Z) :=
  [(str "STATUS", 1);
   (str "UTC_TIME", 2);
   (str "IMU_DATA", 3);
   (str "MAG", 4);
   (str "MAG_CALIB", 5);
   (str "EKF_EULER", 6);
   (str "EKF_QUAT", 7);
   (str "EKF_NAV", 8);
   (str "SHIP_MOTION", 9);
   (str "GPS1_VEL", 13);
   (str "GPS1_POS", 14);
   (str "GPS1_HDT", 15);
   (str "GPS2_VEL", 16);
   (str "GPS2_POS", 17);
   (str "GPS2_HDT", 18);
   (str "ODO_VEL", 19);
   (str "EVENT_A", 24);
   (str "EVENT_B", 25);
   (str "EVENT_C", 26);
   (str "EVENT_D", 27);
   (str "EVENT_E", 28);
   (str "DVL_BOTTOM_TRACK", 29);
   (str "DVL_WATER_TRACK", 30);
   (str "GPS1_RAW", 31);
   (str "SHIP_MOTION_HP", 32);
   (str "AIR_DATA", 36);
   (str "USBL", 37);
   (str "GPS2_RAW", 38);
   (str "IMU_SHORT", 44);
   (str "EVENT_OUT_A", 45);
   (str "EVENT_OUT_B", 46);
   (str "DEPTH", 47);
   (str "DIAG", 48);
   (str "RTCM_RAW", 49);
   (str "GPS1_SAT", 50);
   (str "GPS2_SAT", 51);
   (str "EKF_ROT_ACCEL_BODY", 52);
   (str "EKF_ROT_ACCEL_NED", 53);
   (str "EKF_VEL_BODY", 54);
   (str "SESSION_INFO", 55);
   (str "EKF_DEBUG", 56);
   (str "PTP_STATUS", 57);
   (str "VELOCITY_1", 58);
   (str "VIB_MON_FFT", 59);
   (str "VIB_MON_REPORT", 60);
   (str "EKF_AIR_DATA", 61);
   (str "POSITION_1", 62)].

Definition CMD : list (bytes * Z) :=
  [(str "ACK", 0);
   (str "SETTINGS_ACTION", 1);
   (str "IMPORT_SETTINGS", 2);
   (str "EXPORT_SETTINGS", 3);
   (str "INFO", 4);
   (str "INIT_PARAMETERS", 5);
   (str "MOTION_PROFILE_ID", 7);
   (str "IMU_ALIGNMENT_LEVER_ARM", 8);
   (str "AIDING_ASSIGNMENT", 9);
   (str "MAGNETOMETER_MODEL_ID", 11);
   (str "MAGNETOMETER_REJECT_MODE", 12);
   (str "SET_MAG_CALIB", 13);
   (str "START_MAG_CALIB", 14);
   (str "COMPUTE_MAG_CALIB", 15);
   (str "GNSS_1_MODEL_ID", 17);
   (str "GNSS_1_LEVER_ARM_ALIGNMENT", 18);
   (str "GNSS_1_REJECT_MODES", 19);
   (str "ODO_CONF", 20);
   (str "ODO_LEVER_ARM", 21);
   (str "ODO_REJECT_MODE", 22);
   (str "UART_CONF", 23);
   (str "CAN_BUS_CONF", 24);
   (str "CAN_OUTPUT_CONF", 25);
   (str "SYNC_IN_CONF", 26);
   (str "SYNC_OUT_CONF", 27);
   (str "NMEA_TALKER_ID", 29);
   (str "OUTPUT_CONF", 30);
   (str "ADVANCED_CONF", 32);
   (str "FEATURES", 33);
   (str "LICENSE_APPLY", 34);
   (str "OUTPUT_CLASS_ENABLE", 35);
   (str "ETHERNET_CONF", 36);
   (str "ETHERNET_INFO", 37);
   (str "VALIDITY_THRESHOLDS", 38);
   (str "DVL_MODEL_ID", 39);
   (str "DVL_INSTALLATION", 40);
   (str "DVL_REJECT_MODES", 41);
   (str "AIRDATA_MODEL_ID", 42);
   (str "AIRDATA_LEVER_ARM", 43);
   (str "AIRDATA_REJECT_MODES", 44);
   (str "ODO_CAN_CONF", 45);
   (str "GNSS_1_INSTALLATION", 46);
   (str "API_POST", 47);
   (str "API_GET", 48)].

(** [LOG_NAME] and [CMD_NAME], the inverted tables: a later row wins, as in the comprehension. *)
Definition inverted (t : list (bytes * Z)) (v : Z) : option bytes :=
  foldl (fun acc kv => if kv.2 =? v then Some kv.1 else acc) None t.
Definition LOG_NAME := inverted LOG.
Definition CMD_NAME := inverted CMD.

(** ** framer.py *)

Definition SYNC : bytes := [0xFF; 0x5A].
Definition ETX : Z := 0x33.
Definition MAX_PAYLOAD : Z := 4086.
Definition EXTENDED_CLASS : Z := 0x80.
Definition HEADER : Z := 6.
Definition TRAILER : Z := 3.
Definition WIRE_CLASSES : list Z :=
  Eval vm_compute in
  map snd (List.filter (fun kv => negb (bool_decide (kv.1 = str "LOG_ALL"))) CLASS).

Record SbgStats := mkSbgStats {
  sbg_frames : Z; crc_failed : Z; resyncs : Z; extended_dropped : Z; bytes_skipped : Z
}.

Record SbgFramer := mkSbg { sbuf : bytes; sstats : SbgStats }.
Definition new_sbg_framer : SbgFramer := mkSbg [] (mkSbgStats 0 0 0 0 0).

(** [encode]: one standard frame; [None] is its [ValueError]. *)
Definition encode (msg_class msg_id : Z) (payload : bytes) : option bytes :=
  if MAX_PAYLOAD <? len payload then None
  else if negb (Z.land msg_class EXTENDED_CLASS =? 0) then None
  else
    let body := [msg_id; msg_class] ++ le_bytes 2 (len payload) ++ payload in
    Some (SYNC ++ body ++ le_bytes 2 (crc16_kermit body) ++ [ETX]).

(** [name_for]. *)
Definition name_for (raw : bytes) : bytes :=
  let msg_id := raw.[2] in
  let msg_class := raw.[3] in
  match (if msg_class =? 0x00 then LOG_NAME msg_id else None) with
  | Some name => name
  | None =>
      if msg_class =? 0x10 then
        str "CMD-" ++ match CMD_NAME msg_id with Some n => n | None => fmt_digits 16 2 msg_id end
      else str "SBG-" ++ fmt_digits 16 2 msg_class ++ str "-" ++ fmt_digits 16 2 msg_id
  end.

(** [self.stats.bytes_skipped += n; del buf[:n]]. *)
Definition skip_bytes (n : nat) (s : SbgFramer) : SbgFramer :=
  let st := sstats s in
  mkSbg (drop n (sbuf s))
    (mkSbgStats (sbg_frames st) (crc_failed st) (resyncs st) (extended_dropped st) (bytes_skipped st + Z.of_nat n)).

(** [_skip_one]. *)
Definition skip_one (s : SbgFramer) : SbgFramer :=
  let st := sstats s in
  mkSbg (drop 1 (sbuf s))
    (mkSbgStats (sbg_frames st) (crc_failed st) (resyncs st + 1) (extended_dropped st) (bytes_skipped st + 1)).

Definition add_crc_failed (s : SbgFramer) : SbgFramer :=
  let st := sstats s in
  mkSbg (sbuf s) (mkSbgStats (sbg_frames st) (crc_failed st + 1) (resyncs st) (extended_dropped st) (bytes_skipped st)).

(** The loop body of [feed] once the buffer starts with the sync pair. *)
Definition sbg_header (s : SbgFramer) : SbgFramer * signal :=
  let buf := sbuf s in
  if len buf <? HEADER then (s, Stop)
  else
    let length_ := Z.lor buf.[4] (Z.shiftl buf.[5] 8) in
    if (MAX_PAYLOAD <? length_) || negb (mem_byte (Z.land buf.[3] (Z.lnot EXTENDED_CLASS)) WIRE_CLASSES)
    then (skip_one s, Go None)
    else
      let total := HEADER + length_ + TRAILER in
      if len buf <? total then (s, Stop)
      else
        let t := Z.to_nat total in
        let crc := Z.lor buf.[t - 3] (Z.shiftl buf.[t - 2] 8) in
        if negb (buf.[t - 1] =? ETX) || negb (crc =? crc16_kermit (slice 2 (t - 3) buf))
        then (skip_one (add_crc_failed s), Go None)
        else
          let raw := take t buf in
          let rest := drop t buf in
          let st := sstats s in
          if negb (Z.land raw.[3] EXTENDED_CLASS =? 0)
          then (mkSbg rest (mkSbgStats (sbg_frames st) (crc_failed st) (resyncs st)
                              (extended_dropped st + 1) (bytes_skipped st)), Go None)
          else (mkSbg rest (mkSbgStats (sbg_frames st + 1) (crc_failed st) (resyncs st)
                              (extended_dropped st) (bytes_skipped st)), Go (Some (mkFrame SBG raw))).

(** [1 if buf[-1] == SYNC[0] else 0]. *)
Definition keep_ff (buf : bytes) : nat := if buf.[length buf - 1] =? 0xFF then 1 else 0.

(** One turn of [feed]'s loop. *)
Definition sbg_iter (s : SbgFramer) : SbgFramer * signal :=
  match sbuf s with
  | [] => (s, Stop)
  | _ =>
      match bfind SYNC (sbuf s) with
      | None => (skip_bytes (length (sbuf s) - keep_ff (sbuf s)) s, Stop)
      | Some start => sbg_header (if (start =? 0)%nat then s else skip_bytes start s)
      end
  end.

Definition sbg_push (data : bytes) (s : SbgFramer) : SbgFramer := mkSbg (sbuf s ++ data) (sstats s).

#[export] Instance sbg_incremental : Incremental SbgFramer :=
  {| ibuf := sbuf; push := sbg_push; iter := sbg_iter |}.

(** [SbgFramer.feed]. *)
Definition sbg_feed (data : bytes) (s : SbgFramer) : SbgFramer * list Frame := run (sbg_push data s).

(** ** The laws: every verdict is stable under later bytes *)

Lemma sbg_push_buf d s : sbuf (sbg_push d s) = sbuf s ++ d.
Proof. done. Qed.

Lemma skip_bytes_push n d s :
  (n <= length (sbuf s))%nat -> skip_bytes n (sbg_push d s) = sbg_push d (skip_bytes n s).
Proof. intros H. unfold skip_bytes, sbg_push. simpl. f_equal. by apply drop_app_le. Qed.

Lemma skip_one_push d s :
  (0 < length (sbuf s))%nat -> skip_one (sbg_push d s) = sbg_push d (skip_one s).
Proof. intros H. unfold skip_one, sbg_push. simpl. f_equal. apply drop_app_le. lia. Qed.

Lemma skip_bytes_0 s : skip_bytes 0 s = s.
Proof. destruct s as [b [? ? ? ? ?]]. unfold skip_bytes. simpl. by rewrite drop_0, Z.add_0_r. Qed.

Lemma skip_bytes_add m n s : skip_bytes m (skip_bytes n s) = skip_bytes (n + m) s.
Proof. unfold skip_bytes. simpl. f_equal; [by rewrite drop_drop|]. f_equal. lia. Qed.

Lemma sbg_length_nonneg s : bytes_ok (sbuf s) -> 0 <= Z.lor (sbuf s).[4] (Z.shiftl (sbuf s).[5] 8).
Proof.
  intros Hok. pose proof (bytes_ok_at _ 4 Hok). pose proof (bytes_ok_at _ 5 Hok).
  unfold is_byte in *. apply Z.lor_nonneg. split; [lia|]. apply Z.shiftl_nonneg. lia.
Qed.

(** A header verdict other than waiting is the same on a longer buffer. *)
Lemma sbg_header_push d s s' o :
  sbg_header s = (s', Go o) -> sbg_header (sbg_push d s) = (sbg_push d s', Go o).
Proof.
  unfold sbg_header. rewrite sbg_push_buf.
  destruct (len (sbuf s) <? HEADER) eqn:E6; [done|].
  assert (E6' : (len (sbuf s ++ d) <? HEADER) = false) by (zbool; apply Z.ltb_ge; rewrite length_app; lia).
  rewrite E6'. zbool. unfold HEADER in *. rewrite !at_app_l by lia.
  set (l := Z.lor _ _).
  destruct (_ || _).
  { intros [= <- <-]. by rewrite skip_one_push by lia. }
  destruct (_ <? 6 + l + TRAILER) eqn:Et; [done|].
  assert (Et' : (len (sbuf s ++ d) <? 6 + l + TRAILER) = false)
    by (zbool; apply Z.ltb_ge; rewrite length_app; lia).
  rewrite Et'. zbool. set (t := Z.to_nat (6 + l + TRAILER)).
  assert (Ht : (t <= length (sbuf s))%nat) by lia.
  destruct (decide (0 < t)%nat) as [Ht0|Ht0].
  - rewrite !at_app_l, slice_app_l, take_app_le by lia. rewrite drop_app_le by done.
    destruct (_ || _).
    + intros [= <- <-]. rewrite <- skip_one_push by (simpl; lia). done.
    + destruct (negb _); by intros [= <- <-].
  - replace t with 0%nat by lia. cbn [Nat.sub]. rewrite !at_app_l, slice_app_l by lia.
    rewrite take_0, !drop_0. destruct (_ || _).
    + intros [= <- <-]. rewrite <- skip_one_push by (simpl; lia). done.
    + change (take 0 (sbuf s ++ d)) with (@nil Z). destruct (negb _); by intros [= <- <-].
Qed.

(** No sync pair begins inside [x] when [r] follows. *)
Definition sync_free (x r : bytes) : Prop :=
  forall i, (i < length x)%nat -> startswith (drop i (x ++ r)) SYNC = false.

Lemma bfind_sync_free x r : sync_free x r -> bfind SYNC (x ++ r) = Nat.add (length x) <$> bfind SYNC r.
Proof.
  induction x as [|b x IH]; intros H; [simpl; by destruct (bfind SYNC r)|].
  cbn [app bfind]. pose proof (H 0%nat ltac:(simpl; lia)) as H0. rewrite drop_0 in H0.
  cbn [app] in H0. rewrite H0, IH; [by destruct (bfind SYNC r)|].
  intros i Hi. apply (H (S i)). simpl. lia.
Qed.

Lemma bfind_None_intro pat s :
  (0 < length pat)%nat ->
  (forall i, (i < length s)%nat -> startswith (drop i s) pat = false) -> bfind pat s = None.
Proof.
  intros Hp H. destruct (bfind pat s) as [k|] eqn:E; [|done].
  pose proof (bfind_bound _ _ _ E). pose proof (bfind_Some _ _ _ E) as Hs.
  rewrite (H k) in Hs by lia. done.
Qed.

Lemma sync_at_split s i :
  startswith (drop i s) SYNC = true <-> (i + 2 <= length s)%nat /\ s.[i] = 0xFF /\ s.[i + 1] = 0x5A.
Proof.
  rewrite startswith_spec. split.
  - intros [r Hr]. assert (Hl : length (drop i s) = S (S (length r))) by (rewrite Hr; done).
    rewrite length_drop in Hl. split; [lia|].
    rewrite <- (Nat.add_0_r i) at 1. rewrite <- !at_drop, Hr. done.
  - intros (Hl & H0 & H1). exists (drop (i + 2) s).
    rewrite <- (take_drop 2 (drop i s)), drop_drop. f_equal.
    change (take 2 (drop i s)) with (take (2 - 0) (drop i s)).
    transitivity (slice i (i + 2) s); [unfold slice; f_equal; lia|].
    rewrite <- (slice_join i (S i)) by lia. replace (i + 2)%nat with (S (S i)) by lia.
    rewrite !slice_one by lia. rewrite H0. replace (S i) with (i + 1)%nat by lia. by rewrite H1.
Qed.

(** What the search drops when it finds no sync pair cannot matter later. *)
Lemma sync_free_keep a d :
  bfind SYNC a = None -> sync_free (take (length a - keep_ff a) a) (drop (length a - keep_ff a) a ++ d).
Proof.
  intros Hn i Hi. rewrite length_take in Hi. rewrite app_assoc, take_drop.
  destruct (startswith _ _) eqn:E; [|done]. apply sync_at_split in E as (Hl & H0 & H1).
  rewrite at_app_l in H0 by lia. destruct (decide (i + 1 < length a)%nat) as [Hlt|Hge].
  - rewrite at_app_l in H1 by lia. pose proof (bfind_None _ _ i Hn) as Hc.
    assert (Ht : startswith (drop i a) SYNC = true); [|congruence].
    apply sync_at_split. split; [lia|done].
  - exfalso. unfold keep_ff in Hi. destruct (_ =? 0xFF) eqn:Ek; zbool; [lia|].
    apply Ek. rewrite <- H0. f_equal. lia.
Qed.

Lemma keep_ff_app x r : r <> [] -> keep_ff (x ++ r) = keep_ff r.
Proof.
  intros Hr. unfold keep_ff. rewrite length_app, at_app_r by (destruct r; simpl; [done|lia]).
  replace (length x + length r - 1 - length x)%nat with (length r - 1)%nat; [done|].
  destruct r; simpl; [done|lia].
Qed.

Lemma sbg_iter_nil s : sbuf s = [] -> sbg_iter s = (s, Stop).
Proof. intros E. unfold sbg_iter. by rewrite E. Qed.

Lemma sbg_iter_eq s :
  sbuf s <> [] ->
  sbg_iter s = match bfind SYNC (sbuf s) with
               | None => (skip_bytes (length (sbuf s) - keep_ff (sbuf s)) s, Stop)
               | Some start => sbg_header (skip_bytes start s)
               end.
Proof.
  intros H. unfold sbg_iter. destruct (sbuf s) eqn:E; [done|]. rewrite <- E.
  destruct (bfind SYNC (sbuf s)) as [[|n]|]; [|done|done]. by rewrite skip_bytes_0.
Qed.

Lemma keep_ff_le b : b <> [] -> (keep_ff b <= length b)%nat.
Proof. unfold keep_ff. destruct b; [done|]. destruct (_ =? _); simpl; lia. Qed.

Lemma sbg_absorb s n :
  (n <= length (sbuf s))%nat -> sync_free (take n (sbuf s)) (drop n (sbuf s)) ->
  (drop n (sbuf s) = [] -> keep_ff (sbuf s) = 0%nat) ->
  sbg_iter s = sbg_iter (skip_bytes n s).
Proof.
  intros Hn Hf Hk. destruct (decide (sbuf s = [])) as [E|E].
  { replace n with 0%nat by (rewrite E in Hn; simpl in Hn; lia). by rewrite skip_bytes_0. }
  rewrite sbg_iter_eq by done. rewrite <- (take_drop n (sbuf s)) at 1.
  rewrite (bfind_sync_free _ _ Hf), length_take, Nat.min_l by lia.
  destruct (decide (drop n (sbuf s) = [])) as [En|En].
  - rewrite En. cbn [bfind startswith SYNC]. simpl fmap. cbn iota. rewrite Hk by done.
    assert (n = length (sbuf s)) as -> by (apply (f_equal length) in En; rewrite length_drop in En; simpl in En; lia).
    rewrite Nat.sub_0_r, sbg_iter_nil by (simpl; apply drop_all). done.
  - rewrite (sbg_iter_eq (skip_bytes n s)) by done. cbn [skip_bytes sbuf].
    destruct (bfind SYNC (drop n (sbuf s))) as [k|] eqn:Eb; simpl.
    + by rewrite skip_bytes_add.
    + rewrite skip_bytes_add. f_equal. f_equal.
      pose proof (keep_ff_le _ En) as Hle.
      rewrite <- (take_drop n (sbuf s)) at 2. rewrite keep_ff_app by done.
      rewrite length_drop in *. lia.
Qed.

Lemma bfind_drop_start s k : bfind SYNC s = Some k -> bfind SYNC (drop k s) = Some 0%nat.
Proof. intros H. apply bfind_Some in H. destruct (drop k s); [done|]. cbn [bfind]. by rewrite H. Qed.

Lemma sbg_keep_ff_nil a d :
  a <> [] -> drop (length a - keep_ff a) a ++ d = [] -> keep_ff (a ++ d) = 0%nat.
Proof.
  intros Ha H. apply app_eq_nil in H as [H ->]. rewrite app_nil_r.
  apply (f_equal length) in H. rewrite length_drop in H. simpl in H.
  pose proof (keep_ff_le a Ha). lia.
Qed.

Lemma sbg_stop_push s s' d :
  sbg_iter s = (s', Stop) -> sbg_iter (sbg_push d s) = sbg_iter (sbg_push d s').
Proof.
  destruct (decide (sbuf s = [])) as [E|E].
  { rewrite sbg_iter_nil by done. by intros [= <-]. }
  rewrite sbg_iter_eq by done. destruct (bfind SYNC (sbuf s)) as [k|] eqn:Eb.
  - intros Hh. assert (s' = skip_bytes k s) as ->.
    { revert Hh. unfold sbg_header. repeat break; by intros [= <-]. }
    pose proof (bfind_bound _ _ _ Eb).
    rewrite !sbg_iter_eq by (apply app_ne_l; first [exact E | apply drop_ne; simpl in *; lia]).
    cbn [sbg_push skip_bytes sbuf]. rewrite (bfind_app_Some _ _ d _ Eb).
    rewrite (bfind_app_Some _ _ d _ (bfind_drop_start _ _ Eb)).
    by rewrite skip_bytes_0, <- skip_bytes_push by lia.
  - intros [= <-]. pose proof (keep_ff_le _ E).
    rewrite <- skip_bytes_push by lia.
    apply sbg_absorb; cbn [sbg_push sbuf].
    + rewrite length_app. lia.
    + rewrite take_app_le, drop_app_le by lia. by apply sync_free_keep.
    + rewrite drop_app_le by lia. by apply sbg_keep_ff_nil.
Qed.

Lemma sbg_go_header s s' o :
  sbg_iter s = (s', Go o) ->
  exists k, bfind SYNC (sbuf s) = Some k /\ sbg_header (skip_bytes k s) = (s', Go o).
Proof.
  destruct (decide (sbuf s = [])) as [E|E]; [by rewrite sbg_iter_nil|].
  rewrite sbg_iter_eq by done. destruct (bfind SYNC (sbuf s)) as [k|]; [eauto|done].
Qed.

(** What a header verdict that goes on has consumed. *)
Lemma sbg_header_go s s' o :
  bytes_ok (sbuf s) -> sbg_header s = (s', Go o) ->
  exists n, (0 < n <= length (sbuf s))%nat /\ sbuf s' = drop n (sbuf s)
    /\ ((o = None /\ n = 1%nat /\ bytes_skipped (sstats s') = bytes_skipped (sstats s) + 1)
        \/ (o = None /\ bytes_skipped (sstats s') = bytes_skipped (sstats s))
        \/ (o = Some (mkFrame SBG (take n (sbuf s)))
            /\ bytes_skipped (sstats s') = bytes_skipped (sstats s))).
Proof.
  intros Hok. pose proof (sbg_length_nonneg s Hok) as Hl. unfold sbg_header, HEADER, TRAILER in *.
  destruct (_ <? 6) eqn:E6; [done|]. zbool.
  set (l := Z.lor _ _) in *. destruct (_ || _).
  { intros [= <- <-]. exists 1%nat. split; [lia|]. split; [done|]. by left. }
  destruct (_ <? _) eqn:Et; [done|]. zbool. destruct (_ || _).
  { intros [= <- <-]. exists 1%nat. split; [lia|]. split; [done|]. by left. }
  destruct (negb _); intros [= <- <-]; exists (Z.to_nat (6 + l + 3)); (split; [lia|]); simpl; eauto.
Qed.

#[export] Instance sbg_laws : IncrementalLaws SbgFramer (fun _ => True).
Proof.
  split; cbn [ibuf push iter sbg_incremental].
  - done.
  - intros d e s. unfold sbg_push. simpl. by rewrite app_assoc.
  - intros [b st]. unfold sbg_push. simpl. by rewrite app_nil_r.
  - done.
  - intros. by apply sbg_iter_nil.
  - intros s s'. destruct (decide (sbuf s = [])) as [E|E].
    { rewrite sbg_iter_nil by done. intros [= <-]. by exists []. }
    rewrite sbg_iter_eq by done. destruct (bfind SYNC (sbuf s)) as [k|].
    + intros Hh. assert (s' = skip_bytes k s) as ->
        by (revert Hh; unfold sbg_header; repeat break; by intros [= <-]).
      exists (take k (sbuf s)). simpl. by rewrite take_drop.
    + intros [= <-]. eexists (take _ (sbuf s)). simpl. by rewrite take_drop.
  - intros s s' o Hok Hi. apply sbg_go_header in Hi as (k & Hk & Hh).
    destruct (sbg_header_go (skip_bytes k s) _ _ (bytes_ok_drop k _ Hok) Hh) as (n & Hn & Hb & _).
    simpl in *. rewrite length_drop in Hn. exists (take (k + n) (sbuf s)).
    rewrite Hb, drop_drop, take_drop. split; [|done].
    intros E. apply (f_equal length) in E. rewrite length_take in E. simpl in E. lia.
  - intros s s' d _. apply sbg_stop_push.
  - intros s s' o d _ Hi. left. apply sbg_go_header in Hi as (k & Hk & Hh).
    pose proof (bfind_bound _ _ _ Hk).
    rewrite sbg_iter_eq by (apply app_ne_l; intros E; rewrite E in *; simpl in *; lia).
    cbn [sbg_push sbuf]. rewrite (bfind_app_Some _ _ d _ Hk).
    change (sbg_header (skip_bytes k (sbg_push d s)) = (sbg_push d s', Go o)).
    rewrite skip_bytes_push by lia. by apply sbg_header_push.
Qed.

(** ** Results *)

(** [SbgFramer.feed] accepts any chunking: the frames, the statistics and the
    pending bytes after a sequence of calls are those of one call with the whole stream. *)
Theorem sbg_chunking chunks :
  bytes_ok (concat chunks) ->
  ifeed_all chunks new_sbg_framer = sbg_feed (concat chunks) new_sbg_framer.
Proof. intros H. by apply (feed_all_concat (L := sbg_laws)). Qed.

Lemma sbg_chunking_witness :
  ifeed_all [[0xFF]; [0x5A; 1; 0]; [0; 0; 9]] new_sbg_framer
  = sbg_feed [0xFF; 0x5A; 1; 0; 0; 0; 9] new_sbg_framer.
Proof.
  apply (sbg_chunking [[0xFF]; [0x5A; 1; 0]; [0; 0; 9]]).
  simpl. bytes_tac.
Defined.

(** The standard frames of the protocol, as [encode] builds them. *)
Definition sbg_valid (f : Frame) : Prop :=
  exists msg_class msg_id payload,
    In msg_class WIRE_CLASSES /\ is_byte msg_id /\ bytes_ok payload
    /\ encode msg_class msg_id payload = Some (raw f) /\ proto f = SBG.

Definition sbg_body (msg_class msg_id : Z) (payload : bytes) : bytes :=
  [msg_id; msg_class] ++ le_bytes 2 (len payload) ++ payload.

Lemma le_bytes_2 a b : is_byte a -> is_byte b -> le_bytes 2 (a + 256 * b) = [a; b].
Proof.
  unfold is_byte. intros Ha Hb. simpl.
  rewrite Z.mul_comm, Z_mod_plus_full, Z_div_plus_full, (Z.mod_small a), (Z.div_small a) by lia.
  by rewrite Z.add_0_l, Z.mod_small by lia.
Qed.

Lemma standard_class c :
  is_byte c -> Z.land c EXTENDED_CLASS = 0 -> Z.land c (Z.lnot EXTENDED_CLASS) = c.
Proof.
  unfold is_byte. intros Hc.
  assert (H : forall i, (i < 256)%nat ->
    implb (Z.land (Z.of_nat i) 0x80 =? 0) (Z.land (Z.of_nat i) (Z.lnot 0x80) =? Z.of_nat i) = true)
    by (apply below_forallb; vm_compute; reflexivity).
  specialize (H (Z.to_nat c) ltac:(lia)). rewrite Z2Nat.id in H by lia.
  unfold EXTENDED_CLASS. intros E. rewrite E in H. simpl in H. by zbool.
Qed.

Lemma mem_byte_In b cs : mem_byte b cs = true <-> In b cs.
Proof.
  unfold mem_byte. rewrite existsb_exists. split.
  - intros (x & Hx & E). zbool. by subst.
  - intros H. exists b. split; [done|apply Z.eqb_refl].
Qed.

Lemma sbg_header_emits s s' f :
  bytes_ok (sbuf s) -> bfind SYNC (sbuf s) = Some 0%nat ->
  sbg_header s = (s', Go (Some f)) -> sbg_valid f.
Proof.
  intros Hok Hsync. pose proof (sbg_length_nonneg s Hok) as Hl0. unfold sbg_header, HEADER, TRAILER in *.
  apply bfind_Some in Hsync. apply sync_at_split in Hsync as (H2 & S0 & S1).
  set (buf := sbuf s) in *. destruct (_ <? 6) eqn:E6; [done|]. zbool.
  pose proof (bytes_ok_at buf 4 Hok) as B4. pose proof (bytes_ok_at buf 5 Hok) as B5.
  assert (Hl : Z.lor buf.[4] (Z.shiftl buf.[5] 8) = buf.[4] + 256 * buf.[5])
    by (apply (lor_shiftl 8); [lia|done]).
  rewrite Hl in *. set (l := buf.[4] + 256 * buf.[5]) in *.
  destruct (_ || _) eqn:Eh; [done|]. apply orb_false_iff in Eh as [Hmax Hcls]. zbool. unfold MAX_PAYLOAD in *.
  destruct (_ <? _) eqn:Et; [done|]. zbool.
  set (t := Z.to_nat (6 + l + 3)) in *.
  destruct (negb (buf.[t - 1] =? ETX) || _) eqn:Ec; [done|].
  apply orb_false_iff in Ec as [Hetx Hcrc]. zbool.
  destruct (negb (Z.land (take t buf).[3] _ =? 0)) eqn:Ex; [done|]. zbool.
  intros [= _ <-].
  assert (Hr3 : (take t buf).[3] = buf.[3]).
  { rewrite <- (take_drop t buf) at 2. rewrite at_app_l; [done|]. rewrite length_take. lia. }
  rewrite Hr3 in Ex. set (payload := slice 6 (t - 3) buf).
  assert (Hlen : len payload = l) by (unfold payload; rewrite length_slice; lia).
  assert (Hbody : slice 2 (t - 3) buf = sbg_body buf.[3] buf.[2] payload).
  { unfold sbg_body. rewrite Hlen. unfold l. rewrite le_bytes_2, app_assoc by done.
    rewrite <- (slice_join 2 6) by lia. f_equal.
    rewrite <- (slice_join 2 3), <- (slice_join 3 4), <- (slice_join 4 5) by lia.
    rewrite !slice_one by lia. done. }
  exists buf.[3], buf.[2], payload. split_and!; [|by apply bytes_ok_at|by apply bytes_ok_slice| |done].
  - apply mem_byte_In. rewrite <- (standard_class buf.[3]); [done|by apply bytes_ok_at|done].
  - unfold encode. unfold MAX_PAYLOAD. rewrite (proj2 (Z.ltb_ge _ _)) by lia.
    rewrite Ex, Z.eqb_refl. cbn [negb raw]. f_equal.
    change ([buf.[2]; buf.[3]] ++ le_bytes 2 (len payload) ++ payload) with (sbg_body buf.[3] buf.[2] payload).
    rewrite <- Hbody, <- Hcrc.
    rewrite (lor_shiftl 8) by (lia || by apply bytes_ok_at). change (2 ^ 8) with 256.
    rewrite le_bytes_2 by (by apply bytes_ok_at).
    rewrite <- (slice_0 t buf), <- (slice_join 0 2 t), <- (slice_join 2 (t - 3) t) by lia. f_equal; [|f_equal].
    + rewrite <- (slice_join 0 1 2), !slice_one by lia. unfold SYNC. rewrite S0. simpl in S1. by rewrite S1.
    + replace (slice (t - 3) t buf) with (slice (t - 3) (t - 3 + 3) buf) by (f_equal; lia).
      rewrite slice_three by lia. unfold ETX in *.
      replace (t - 3 + 1)%nat with (t - 2)%nat by lia. replace (t - 3 + 2)%nat with (t - 1)%nat by lia.
      by rewrite Hetx.
Qed.

Lemma sbg_go_partition s s' o :
  bytes_ok (sbuf s) -> sbg_iter s = (s', Go o) ->
  exists gs, sbuf s = flat_map seg_bytes gs ++ sbuf s'
             /\ flat_map seg_frames gs = olist o
             /\ bytes_skipped (sstats s') = bytes_skipped (sstats s) + skip_total gs.
Proof.
  intros Hok Hi. apply sbg_go_header in Hi as (k & Hk & Hh).
  pose proof (bfind_bound _ _ _ Hk) as Hb.
  destruct (sbg_header_go (skip_bytes k s) _ _ (bytes_ok_drop k _ Hok) Hh) as (n & Hn & -> & Hc).
  cbn [skip_bytes sbuf sstats bytes_skipped] in *. rewrite length_drop in Hn. simpl in Hb.
  assert (Hs : forall g, seg_bytes g = take n (drop k (sbuf s)) ->
    sbuf s = flat_map seg_bytes [Skipped (take k (sbuf s)); g] ++ drop n (drop k (sbuf s))).
  { intros g Hg. simpl. by rewrite Hg, app_nil_r, <- app_assoc, !take_drop. }
  assert (Ht : len (take k (sbuf s)) = Z.of_nat k) by (rewrite length_take; lia).
  destruct Hc as [(-> & -> & ->)|[(-> & ->)|(-> & ->)]].
  - exists [Skipped (take k (sbuf s)); Skipped (take 1 (drop k (sbuf s)))].
    split_and!; [by apply Hs|done|]. cbn [skip_total foldr seg_skip]. rewrite Ht, length_take, length_drop. lia.
  - exists [Skipped (take k (sbuf s)); Swallowed (take n (drop k (sbuf s)))].
    split_and!; [by apply Hs|done|]. cbn [skip_total foldr seg_skip]. lia.
  - eexists [Skipped (take k (sbuf s)); Emitted (mkFrame SBG _)].
    split_and!; [by apply Hs|done|]. cbn [skip_total foldr seg_skip]. lia.
Qed.

Lemma sbg_stop_partition s s' :
  sbg_iter s = (s', Stop) ->
  exists b, sbuf s = b ++ sbuf s' /\ bytes_skipped (sstats s') = bytes_skipped (sstats s) + len b.
Proof.
  destruct (decide (sbuf s = [])) as [E|E].
  { rewrite sbg_iter_nil by done. intros [= <-]. exists []. simpl. split; [done|lia]. }
  assert (Hsk : forall n, (n <= length (sbuf s))%nat -> exists b, sbuf s = b ++ sbuf (skip_bytes n s)
    /\ bytes_skipped (sstats (skip_bytes n s)) = bytes_skipped (sstats s) + len b).
  { intros n Hn. exists (take n (sbuf s)). simpl. rewrite take_drop, length_take. split; [done|lia]. }
  rewrite sbg_iter_eq by done. destruct (bfind SYNC (sbuf s)) as [k|] eqn:Eb.
  - intros Hh. assert (s' = skip_bytes k s) as ->
      by (revert Hh; unfold sbg_header; repeat break; by intros [= <-]).
    apply Hsk. apply bfind_bound in Eb. simpl in Eb. lia.
  - intros [= <-]. apply Hsk. lia.
Qed.

Lemma sbg_stop_pending s s' : bytes_ok (sbuf s) -> sbg_iter s = (s', Stop) -> len (sbuf s') < 6 + MAX_PAYLOAD + 3.
Proof.
  intros Hok. destruct (decide (sbuf s = [])) as [E|E].
  { rewrite sbg_iter_nil by done. intros [= <-]. by rewrite E. }
  rewrite sbg_iter_eq by done. destruct (bfind SYNC (sbuf s)) as [k|] eqn:Eb.
  - unfold sbg_header, MAX_PAYLOAD, HEADER, TRAILER. repeat break; intros [= <-]; zbool; lia.
  - intros [= <-]. simpl. rewrite length_drop. unfold keep_ff, MAX_PAYLOAD. destruct (_ =? _); lia.
Qed.

(** The stream a [SbgFramer] has received is exactly: skipped bytes, counted by
    [bytes_skipped]; extended frames, swallowed; the emitted frames; and the pending bytes, fewer
    than one maximal frame. Every emitted frame is one that [encode] builds. *)
Theorem sbg_feed_sound data s :
  bytes_ok (sbuf s ++ data) ->
  exists gs,
    sbuf s ++ data = flat_map seg_bytes gs ++ sbuf (sbg_feed data s).1
    /\ flat_map seg_frames gs = (sbg_feed data s).2
    /\ bytes_skipped (sstats (sbg_feed data s).1) = bytes_skipped (sstats s) + skip_total gs
    /\ Forall sbg_valid (sbg_feed data s).2
    /\ len (sbuf (sbg_feed data s).1) < 6 + MAX_PAYLOAD + 3.
Proof.
  intros Hok.
  destruct (run_partition (L := sbg_laws) (fun s => bytes_skipped (sstats s))
              sbg_stop_partition sbg_go_partition (sbg_push data s) Hok) as (gs & H1 & H2 & H3).
  exists gs. split_and!; [done|done|done| |].
  - apply (run_invariant (L := sbg_laws) (fun _ => True)); [done|done| |done].
    intros t t' [f|] Ht _ Hi; (split; [done|]); [|constructor].
    apply Forall_singleton. apply sbg_go_header in Hi as (k & Hk & Hh).
    apply (sbg_header_emits (skip_bytes k t) t'); [by apply bytes_ok_drop|by apply bfind_drop_start|done].
  - apply (run_settled (L := sbg_laws) (fun t => len (sbuf t) < 6 + MAX_PAYLOAD + 3)); [done|].
    apply sbg_stop_pending.
Qed.

Lemma sbg_feed_sound_witness :
  exists gs, [7; 0xFF] = flat_map seg_bytes gs ++ sbuf (sbg_feed [7; 0xFF] new_sbg_framer).1
             /\ skip_total gs = 1.
Proof.
  destruct (sbg_feed_sound [7; 0xFF] new_sbg_framer) as (gs & H1 & _ & H3 & _).
  - simpl. bytes_tac.
  - exists gs. split; [exact H1|]. vm_compute in H3. vm_compute. destruct (skip_total gs); congruence.
Defined.

(** Feeding one well-formed frame, whatever follows. *)
Lemma encode_parts c i p raw :
  encode c i p = Some raw ->
  raw = SYNC ++ sbg_body c i p ++ le_bytes 2 (crc16_kermit (sbg_body c i p)) ++ [ETX]
  /\ len p <= MAX_PAYLOAD /\ Z.land c EXTENDED_CLASS = 0.
Proof.
  unfold encode. destruct (_ <? _) eqn:E1; [done|]. destruct (negb _) eqn:E2; [done|].
  zbool. intros [= <-]. done.
Qed.

Lemma length_encode c i p raw : encode c i p = Some raw -> length raw = (9 + length p)%nat.
Proof.
  intros (-> & _ & _)%encode_parts. unfold sbg_body.
  rewrite !length_app, !length_le_bytes. simpl. lia.
Qed.

Lemma bytes_ok_encode c i p raw :
  is_byte c -> is_byte i -> bytes_ok p -> encode c i p = Some raw -> bytes_ok raw.
Proof.
  intros Hc Hi Hp (-> & _ & _)%encode_parts. unfold sbg_body, SYNC, ETX.
  bytes_tac.
Qed.

Lemma wire_class_byte c : In c WIRE_CLASSES -> is_byte c.
Proof. unfold WIRE_CLASSES, is_byte. simpl. lia. Qed.

Lemma le_2_word v : 0 <= v < 65536 ->
  Z.lor (v mod 256) (Z.shiftl (v / 256 mod 256) 8) = v.
Proof.
  intros Hv. rewrite (lor_shiftl 8) by (lia || (split; apply Z.mod_pos_bound; lia)).
  rewrite (Z.mod_small (v / 256)) by (split; [apply Z.div_pos; lia|apply Z.div_lt_upper_bound; lia]).
  pose proof (Z.div_mod v 256). lia.
Qed.

Lemma sbg_iter_encoded c i p raw rest st :
  In c WIRE_CLASSES -> is_byte i -> bytes_ok p -> encode c i p = Some raw ->
  sbg_iter (mkSbg (raw ++ rest) st)
  = (mkSbg rest (mkSbgStats (sbg_frames st + 1) (crc_failed st) (resyncs st)
                            (extended_dropped st) (bytes_skipped st)), Go (Some (mkFrame SBG raw))).
Proof.
  intros Hc Hi Hp He. pose proof (length_encode _ _ _ _ He) as Hlen.
  destruct (encode_parts _ _ _ _ He) as (Hraw & Hmax & Hext). unfold MAX_PAYLOAD in Hmax.
  pose proof (wire_class_byte c Hc) as Hcb.
  assert (Hbody : bytes_ok (sbg_body c i p)).
  { unfold sbg_body. bytes_tac. }
  pose proof (crc16_kermit_range _ Hbody) as Hcrc.
  rewrite sbg_iter_eq by (simpl; apply app_ne_l; intros E; rewrite E in Hlen; simpl in Hlen; lia).
  cbn [sbuf].
  replace (bfind SYNC (raw ++ rest)) with (Some 0%nat) by (rewrite Hraw; done).
  rewrite skip_bytes_0. unfold sbg_header. cbn [sbuf sstats].
  assert (A : forall k x a b, raw = a ++ x :: b -> length a = k -> (raw ++ rest).[k] = x).
  { intros k x a b -> <-. rewrite <- app_assoc, at_app_r, Nat.sub_diag by done. done. }
  assert (A3 : (raw ++ rest).[3] = c) by (eapply (A _ _ [0xFF; 0x5A; i]); [rewrite Hraw; reflexivity|done]).
  assert (A4 : (raw ++ rest).[4] = len p mod 256)
    by (eapply (A _ _ [0xFF; 0x5A; i; c]); [rewrite Hraw; reflexivity|done]).
  assert (A5 : (raw ++ rest).[5] = len p / 256 mod 256)
    by (eapply (A _ _ [0xFF; 0x5A; i; c; len p mod 256]); [rewrite Hraw; reflexivity|done]).
  rewrite A3, A4, A5, le_2_word by lia. unfold HEADER, TRAILER, MAX_PAYLOAD.
  rewrite length_app.
  rewrite (proj2 (Z.ltb_ge (Z.of_nat (length raw + _)) 6)) by lia.
  rewrite (proj2 (Z.ltb_ge 4086 _)) by lia.
  rewrite (standard_class c) by done. rewrite (proj2 (mem_byte_In c _)) by done. cbn [negb orb].
  rewrite (proj2 (Z.ltb_ge (Z.of_nat (length raw + _)) _)) by lia.
  replace (Z.to_nat (6 + len p + 3)) with (length raw) by lia.
  set (crc := crc16_kermit (sbg_body c i p)) in *.
  assert (Lb : length (sbg_body c i p) = (4 + length p)%nat)
    by (unfold sbg_body; rewrite !length_app, length_le_bytes; simpl; lia).
  assert (E1 : (raw ++ rest).[length raw - 1] = ETX).
  { eapply (A _ _ (SYNC ++ sbg_body c i p ++ le_bytes 2 crc)); [by rewrite Hraw, <- !app_assoc|].
    rewrite !length_app, length_le_bytes. simpl. lia. }
  assert (E2 : (raw ++ rest).[length raw - 2] = crc / 256 mod 256).
  { eapply (A _ _ (SYNC ++ sbg_body c i p ++ [crc mod 256])); [by rewrite Hraw, <- !app_assoc|].
    rewrite !length_app. simpl. lia. }
  assert (E3 : (raw ++ rest).[length raw - 3] = crc mod 256).
  { eapply (A _ _ (SYNC ++ sbg_body c i p)); [by rewrite Hraw, <- !app_assoc|].
    rewrite !length_app. simpl. lia. }
  rewrite E1, E2, E3, le_2_word, Z.eqb_refl by done. cbn [negb orb].
  assert (Hsl : slice 2 (length raw - 3) (raw ++ rest) = sbg_body c i p).
  { rewrite slice_app_l by lia. rewrite Hraw at 2. apply (slice_mid _ _ SYNC); [done|].
    rewrite Lb, Hlen. simpl. lia. }
  rewrite Hsl. fold crc. rewrite Z.eqb_refl. cbn [negb].
  rewrite take_app_length, drop_app_length.
  rewrite <- A3 in Hext. rewrite at_app_l in Hext by lia. rewrite Hext. done.
Qed.

(** A frame to send: class, id and payload. *)
Definition encode_all (ms : list (Z * Z * bytes)) : option (list bytes) :=
  mapM (fun m => encode m.1.1 m.1.2 m.2) ms.

Lemma mapM_cons {A B} (f : A -> option B) x l r :
  mapM f (x :: l) = Some r -> exists y r', r = y :: r' /\ f x = Some y /\ mapM f l = Some r'.
Proof.
  simpl. destruct (f x) as [y|]; simpl; [|done]. destruct (mapM f l) as [r'|]; simpl; [|done].
  intros [= <-]. eauto.
Qed.

Lemma encoded_fields c i p raw :
  In c WIRE_CLASSES -> encode c i p = Some raw ->
  (raw.[3], raw.[2], frame_payload (mkFrame SBG raw)) = (c, i, p).
Proof.
  intros Hc He. pose proof (length_encode _ _ _ _ He) as Hlen.
  destruct (encode_parts _ _ _ _ He) as (Hraw & _ & Hext).
  assert (A3 : raw.[3] = c) by (rewrite Hraw; done).
  assert (A2 : raw.[2] = i) by (rewrite Hraw; done).
  rewrite A2, A3. f_equal. unfold frame_payload. cbn [proto].
  change (Framing.raw (mkFrame SBG raw)) with raw. rewrite A3. unfold EXTENDED_CLASS in Hext. rewrite Hext. cbn [Z.eqb negb].
  rewrite Hraw at 2. unfold sbg_body. rewrite <- !app_assoc, !(app_assoc _ _ (p ++ _)).
  apply slice_mid; [done|]. rewrite Hlen. simpl. lia.
Qed.

Lemma run_encoded ms raws n :
  Forall (fun m => In m.1.1 WIRE_CLASSES /\ is_byte m.1.2 /\ bytes_ok m.2) ms ->
  encode_all ms = Some raws ->
  run (mkSbg (concat raws) (mkSbgStats n 0 0 0 0))
  = (mkSbg [] (mkSbgStats (n + len ms) 0 0 0 0), map (mkFrame SBG) raws).
Proof.
  intros Hms. revert raws n. induction Hms as [|[[c i] p] ms (Hc & Hi & Hp) Hms IH]; intros raws n He.
  - injection He as <-. rewrite Z.add_0_r. done.
  - apply mapM_cons in He as (raw & raws' & -> & He & Hr). simpl in He, Hc, Hi, Hp.
    cbn [concat map]. rewrite (run_step (L := sbg_laws)).
    + cbn [iter sbg_incremental]. rewrite (sbg_iter_encoded c i p) by done.
      cbn [sbg_frames crc_failed resyncs extended_dropped bytes_skipped].
      rewrite (IH raws' (n + 1) Hr). simpl. do 3 f_equal. lia.
    + apply Forall_app_2; [apply (bytes_ok_encode c i p); [by apply wire_class_byte|done..]|].
      clear - Hms Hr. revert raws' Hr. induction Hms as [|[[c i] p] ms (Hc & Hi & Hp) Hms IH]; intros raws' Hr.
      * injection Hr as <-. constructor.
      * apply mapM_cons in Hr as (raw & rs & -> & He & Hr). simpl.
        apply Forall_app_2; [apply (bytes_ok_encode c i p); [by apply wire_class_byte|done..]|by apply IH].
Qed.

(** What [encode] builds for the classes of the wire, back to back, the framer
    splits into exactly those frames; nothing is skipped or pending, and [Frame.payload],
    [raw[2]] and [raw[3]] give back payload, id and class. *)
Theorem sbg_encode_feed ms raws :
  Forall (fun m => In m.1.1 WIRE_CLASSES /\ is_byte m.1.2 /\ bytes_ok m.2) ms ->
  encode_all ms = Some raws ->
  sbg_feed (concat raws) new_sbg_framer
  = (mkSbg [] (mkSbgStats (len ms) 0 0 0 0), map (mkFrame SBG) raws)
  /\ map (fun r => (r.[3], r.[2], frame_payload (mkFrame SBG r))) raws = ms.
Proof.
  intros Hms He. split.
  - pose proof (run_encoded ms raws 0 Hms He) as H. unfold sbg_feed, new_sbg_framer, sbg_push.
    cbn [sbuf app sstats]. by rewrite H.
  - revert raws He. induction Hms as [|[[c i] p] ms (Hc & Hi & Hp) Hms IH]; intros raws He.
    { by injection He as <-. }
    apply mapM_cons in He as (raw & raws' & -> & He & Hr). simpl. rewrite (IH raws') by done.
    f_equal. simpl in *. by apply encoded_fields.
Qed.

Lemma sbg_encode_feed_witness :
  exists raws, encode_all [(0x10, 4, []); (0, 6, [1; 2])] = Some raws
  /\ sbg_feed (concat raws) new_sbg_framer
     = (mkSbg [] (mkSbgStats 2 0 0 0 0), map (mkFrame SBG) raws).
Proof.
  eexists. split; [reflexivity|].
  apply (sbg_encode_feed [(0x10, 4, []); (0, 6, [1; 2])]); [|reflexivity].
  repeat (apply Forall_cons_2; [split_and!; [vm_compute; tauto|unfold is_byte; simpl; lia|simpl; bytes_tac]|]).
  apply Forall_nil_2.
Defined.
