(* ===== verification/VnFields.v ===== *)
(** * VectorNav binary output layout ([rover/drivers/vectornav/fields.py])

    [_walk] computes a frame's field layout and length from its own bytes, asking for more
    when they are not there yet. Its verdicts never change as bytes arrive ([walk_prefix]),
    and the layout tiles the payload ([field_layout_tiles]). *)

From S2P Require Import Prelude.
From S2P Require Import Framing.

Definition GPS_GROUPS : list nat := [3; 6]%nat.

(** Bit index 0..14 -> size in bytes (0 = unknown / invalid in a header). *)
Definition FIELD_SIZES (g : nat) : list Z :=
  match g with
  | 0%nat => [8; 8; 8; 12; 16; 12; 24; 12; 12; 24; 20; 28; 2; 4; 8]
  | 1%nat => [8; 8; 8; 2; 8; 8; 8; 4; 4; 1; 0; 0; 0; 0; 0]
  | 2%nat => [2; 12; 12; 12; 4; 4; 16; 12; 12; 12; 12; 2; 40; 0; 0]
  | 3%nat => [8; 8; 2; 1; 1; 24; 24; 12; 12; 12; 4; 4; 2; 28; 2]
  | 4%nat => [2; 12; 16; 36; 12; 12; 12; 12; 12; 12; 28; 24; 12; 0; 0]
  | 5%nat => [2; 24; 24; 12; 12; 12; 12; 12; 12; 4; 4; 68; 64; 0; 0]
  | 6%nat => [8; 8; 2; 1; 1; 24; 24; 12; 12; 12; 4; 4; 2; 28; 2]
  | _ => []
  end.

Definition EXT_FLAG : Z := 0x8000.
Definition EXT_RAWMEAS : Z := 0x0001.
Definition RAWMEAS_BIT : nat := 16.
Definition SATINFO_BIT : nat := 14.
Definition SATINFO_HEADER : Z := 2.
Definition SATINFO_RECORD : Z := 8.
Definition RAWMEAS_HEADER : Z := 12.
Definition RAWMEAS_RECORD : Z := 28.
Definition RAWMEAS_COUNT_OFFSET : nat := 10.
Definition MAX_SATS : Z := 64.
Definition MAX_MEAS : Z := 200.

(** [(group bit, field bit, offset in frame, size)]. *)
Record Field := mkField { f_group : nat; f_bit : nat; f_off : nat; f_size : Z }.
Abbreviation Layout := (list Field).

(** The three outcomes: [return None], [raise ValueError], a value. *)
Inductive Walk (A : Type) := NeedMore | BadHeader | Walked (a : A).
Arguments NeedMore {A}. Arguments BadHeader {A}. Arguments Walked {A} a.

#[export] Instance walk_ret : MRet Walk := @Walked.
#[export] Instance walk_bind : MBind Walk := fun A B f w =>
  match w with NeedMore => NeedMore | BadHeader => BadHeader | Walked a => f a end.

(** [if len(buf) < n: return None]. *)
Definition need (n : nat) (buf : bytes) : Walk unit :=
  if (length buf <? n)%nat then NeedMore else Walked tt.
Definition refuse (b : bool) : Walk unit := if b then BadHeader else Walked tt.

Definition u16_at (buf : bytes) (pos : nat) : Z := le_int (slice pos (pos + 2) buf).
Definition in_gps (g : nat) : bool := bool_decide (g ∈ GPS_GROUPS).

(** The header loop, [for g in range(7)]: [(group, field mask, ext mask)] of the set bits. *)
Fixpoint walk_headers (gs : list nat) (groups : Z) (buf : bytes) (pos : nat)
  : Walk (nat * list (nat * Z * Z)) :=
  match gs with
  | [] => Walked (pos, [])
  | g :: gs =>
      if Z.land groups (Z.shiftl 1 (Z.of_nat g)) =? 0 then walk_headers gs groups buf pos
      else
        _ ← need (pos + 2) buf;
        let mask := u16_at buf pos in
        let pos := (pos + 2)%nat in
        pe ← (if Z.land mask EXT_FLAG =? 0 then Walked (pos, 0)
              else
                _ ← refuse (negb (in_gps g));
                _ ← need (pos + 2) buf;
                let ext := u16_at buf pos in
                _ ← refuse (negb (Z.land ext (Z.lnot EXT_RAWMEAS) =? 0));
                Walked ((pos + 2)%nat, ext));
        let '(pos, ext) := pe in
        let std := Z.land mask (Z.lnot EXT_FLAG) in
        _ ← refuse ((std =? 0) && (ext =? 0));
        rest ← walk_headers gs groups buf pos;
        Walked (rest.1, (g, std, ext) :: rest.2)
  end.

(** The field loop of one group, [for bit in range(15)]. *)
Fixpoint walk_fields (bits : list nat) (g : nat) (mask : Z) (buf : bytes) (pos : nat)
  : Walk (nat * Layout) :=
  match bits with
  | [] => Walked (pos, [])
  | bit :: bits =>
      if Z.land mask (Z.shiftl 1 (Z.of_nat bit)) =? 0 then walk_fields bits g mask buf pos
      else
        let size := nth bit (FIELD_SIZES g) 0 in
        _ ← refuse (size =? 0);
        size ← (if in_gps g && (bit =? SATINFO_BIT)%nat then
                  _ ← need (pos + 1) buf;
                  let n := buf.[pos] in
                  _ ← refuse (MAX_SATS <? n);
                  Walked (SATINFO_HEADER + SATINFO_RECORD * n)
                else Walked size);
        rest ← walk_fields bits g mask buf (pos + Z.to_nat size);
        Walked (rest.1, mkField g bit pos size :: rest.2)
  end.

(** The RawMeas extension field of one group. *)
Definition walk_rawmeas (g : nat) (ext : Z) (buf : bytes) (pos : nat) : Walk (nat * Layout) :=
  if Z.land ext EXT_RAWMEAS =? 0 then Walked (pos, [])
  else
    _ ← need (pos + RAWMEAS_COUNT_OFFSET + 1) buf;
    let m := buf.[pos + RAWMEAS_COUNT_OFFSET] in
    _ ← refuse (MAX_MEAS <? m);
    let size := RAWMEAS_HEADER + RAWMEAS_RECORD * m in
    Walked ((pos + Z.to_nat size)%nat, [mkField g RAWMEAS_BIT pos size]).

Fixpoint walk_groups (headers : list (nat * Z * Z)) (buf : bytes) (pos : nat) : Walk (nat * Layout) :=
  match headers with
  | [] => Walked (pos, [])
  | (g, mask, ext) :: hs =>
      a ← walk_fields (seq 0 15) g mask buf pos;
      b ← walk_rawmeas g ext buf a.1;
      c ← walk_groups hs buf b.1;
      Walked (c.1, a.2 ++ b.2 ++ c.2)
  end.

(** [_walk]. *)
Definition walk (buf : bytes) : Walk (Layout * nat) :=
  _ ← need 2 buf;
  let groups := buf.[1] in
  _ ← refuse ((groups =? 0) || negb (Z.land groups 0x80 =? 0));
  h ← walk_headers (seq 0 7) groups buf 2;
  r ← walk_groups h.2 buf h.1;
  Walked (r.2, (r.1 + 2)%nat).

Definition binary_length (buf : bytes) : Walk nat := r ← walk buf; Walked r.2.

(** [field_layout]; [None] is its [ValueError]. *)
Definition field_layout (buf : bytes) : option Layout :=
  match walk buf with Walked r => Some r.1 | _ => None end.

(** ** Verdicts are stable: more bytes only turn [NeedMore] into a verdict *)

(** [w'] is the same computation on a longer buffer; it also says how far a successful walk
    read: [w] on the first [n] bytes already succeeds when the result's reach is within [n]. *)
Definition refines {A} (w w' : Walk A) : Prop := w = NeedMore \/ w' = w.

Lemma refines_refl {A} (w : Walk A) : refines w w.
Proof. by right. Qed.

Lemma refines_bind {A B} (w w' : Walk A) (f f' : A -> Walk B) :
  refines w w' -> (forall a, w = Walked a -> refines (f a) (f' a)) -> refines (w ≫= f) (w' ≫= f').
Proof. intros [->| ->] Hf; [by left|]. destruct w; [by left|by right|]. by apply Hf. Qed.

Lemma need_app n a d : refines (need n a) (need n (a ++ d)).
Proof.
  unfold need. destruct (length a <? n)%nat eqn:E; [by left|]. right. zbool.
  rewrite (proj2 (Nat.ltb_ge _ _)); [done|]. rewrite length_app. lia.
Qed.

Lemma need_bind {B} n a d (f f' : unit -> Walk B) :
  ((n <= length a)%nat -> refines (f tt) (f' tt)) ->
  refines (need n a ≫= f) (need n (a ++ d) ≫= f').
Proof.
  intros Hf. apply refines_bind; [apply need_app|]. intros [].
  unfold need. destruct (length a <? n)%nat eqn:E; [done|]. intros _. apply Hf. by zbool.
Qed.

Lemma u16_at_app a d pos : (pos + 2 <= length a)%nat -> u16_at (a ++ d) pos = u16_at a pos.
Proof. intros. unfold u16_at. by rewrite slice_app_l. Qed.

Lemma walk_headers_app gs groups a d pos :
  refines (walk_headers gs groups a pos) (walk_headers gs groups (a ++ d) pos).
Proof.
  revert pos. induction gs as [|g gs IH]; intros pos; [apply refines_refl|]. cbn [walk_headers].
  destruct (_ =? 0); [apply IH|]. apply need_bind. intros Hp. rewrite u16_at_app by done.
  apply refines_bind.
  - destruct (_ =? 0); [apply refines_refl|]. apply refines_bind; [apply refines_refl|]. intros [] _.
    apply need_bind. intros Hp2. rewrite u16_at_app by done. apply refines_refl.
  - intros [p e] _. apply refines_bind; [apply refines_refl|]. intros [] _.
    apply refines_bind; [apply IH|]. intros r _. apply refines_refl.
Qed.

Lemma walk_fields_app bits g mask a d pos :
  refines (walk_fields bits g mask a pos) (walk_fields bits g mask (a ++ d) pos).
Proof.
  revert pos. induction bits as [|b bits IH]; intros pos; [apply refines_refl|]. cbn [walk_fields].
  destruct (_ =? 0); [apply IH|]. apply refines_bind; [apply refines_refl|]. intros [] _.
  apply refines_bind.
  - destruct (_ && _); [|apply refines_refl]. apply need_bind. intros Hp.
    rewrite at_app_l by lia. apply refines_refl.
  - intros size _. apply refines_bind; [apply IH|]. intros r _. apply refines_refl.
Qed.

Lemma walk_rawmeas_app g ext a d pos :
  refines (walk_rawmeas g ext a pos) (walk_rawmeas g ext (a ++ d) pos).
Proof.
  unfold walk_rawmeas. destruct (_ =? 0); [apply refines_refl|].
  apply need_bind. intros Hp. rewrite at_app_l by lia. apply refines_refl.
Qed.

Lemma walk_groups_app hs a d pos : refines (walk_groups hs a pos) (walk_groups hs (a ++ d) pos).
Proof.
  revert pos. induction hs as [|[[g m] e] hs IH]; intros pos; [apply refines_refl|]. cbn [walk_groups].
  apply refines_bind; [apply walk_fields_app|]. intros x _.
  apply refines_bind; [apply walk_rawmeas_app|]. intros y _.
  apply refines_bind; [apply IH|]. intros z _. apply refines_refl.
Qed.

Lemma walk_app a d : refines (walk a) (walk (a ++ d)).
Proof.
  unfold walk. apply need_bind. intros Hp. rewrite at_app_l by lia.
  apply refines_bind; [apply refines_refl|]. intros [] _.
  apply refines_bind; [apply walk_headers_app|]. intros h _.
  apply refines_bind; [apply walk_groups_app|]. intros r _. apply refines_refl.
Qed.

Lemma bind_Walked {A B} (w : Walk A) (f : A -> Walk B) b :
  w ≫= f = Walked b -> exists a, w = Walked a /\ f a = Walked b.
Proof. destruct w; try done. eauto. Qed.

Lemma need_ok n buf u : need n buf = Walked u -> (n <= length buf)%nat.
Proof. unfold need. destruct (_ <? _)%nat eqn:E; [done|]. intros _. by zbool. Qed.

Lemma refuse_ok b u : refuse b = Walked u -> b = false.
Proof. by destruct b. Qed.

(** Step through the binds of a successful walk. *)
Ltac walked H :=
  repeat lazymatch type of H with
  | mbind _ _ = Walked _ =>
      let a := fresh "r" in let E := fresh "W" in
      apply bind_Walked in H as (a & E & H);
      lazymatch type of E with
      | need _ _ = _ => apply need_ok in E
      | refuse _ = _ => apply refuse_ok in E
      | _ => idtac
      end
  end.

(** ** The layout tiles the payload *)

Fixpoint tiles (pos : nat) (l : Layout) (end_ : nat) : Prop :=
  match l with
  | [] => pos = end_
  | f :: l => f_off f = pos /\ 0 < f_size f /\ tiles (pos + Z.to_nat (f_size f)) l end_
  end.

Lemma tiles_app p a q b r : tiles p a q -> tiles q b r -> tiles p (a ++ b) r.
Proof.
  revert p. induction a as [|f a IH]; intros p; simpl; [by intros ->|].
  intros (? & ? & ?) ?. eauto.
Qed.

Lemma tiles_le p l q : tiles p l q -> (p <= q)%nat.
Proof. revert p. induction l as [|f l IH]; intros p; simpl; [lia|]. intros (_ & _ & H). apply IH in H. lia. Qed.

Lemma field_size_nonneg g bit : 0 <= nth bit (FIELD_SIZES g) 0.
Proof.
  assert (H : forall l, Forall (fun z => 0 <= z) l -> 0 <= nth bit l 0).
  { intros l Hl. revert bit. induction Hl; intros [|b]; simpl; try lia. auto. }
  apply H. do 7 (destruct g as [|g]; [repeat constructor; lia|]). constructor.
Qed.

Lemma walk_fields_tiles bits g mask buf pos end_ l :
  bytes_ok buf -> walk_fields bits g mask buf pos = Walked (end_, l) -> tiles pos l end_.
Proof.
  intros Hok. revert pos end_ l. induction bits as [|b bits IH]; intros pos end_ l; cbn [walk_fields].
  - by intros [= <- <-].
  - destruct (_ =? 0); [apply IH|]. intros H. walked H. destruct r1 as [e l'].
    injection H as <- <-. cbn [fst snd tiles f_off f_size] in *.
    apply IH in W1. split_and!; [done| |done].
    destruct (_ && _).
    + walked W0. injection W0 as <-. pose proof (bytes_ok_at buf pos Hok). unfold is_byte, SATINFO_HEADER, SATINFO_RECORD in *. lia.
    + injection W0 as <-. zbool. pose proof (field_size_nonneg g b). lia.
Qed.

Lemma walk_rawmeas_tiles g ext buf pos end_ l :
  bytes_ok buf -> walk_rawmeas g ext buf pos = Walked (end_, l) -> tiles pos l end_.
Proof.
  intros Hok. unfold walk_rawmeas. destruct (_ =? 0); [by intros [= <- <-]|].
  intros H. walked H. injection H as <- <-. cbn [tiles f_off f_size].
  pose proof (bytes_ok_at buf (pos + RAWMEAS_COUNT_OFFSET) Hok).
  unfold is_byte, RAWMEAS_HEADER, RAWMEAS_RECORD in *. split_and!; [done|lia|done].
Qed.

Lemma walk_groups_tiles hs buf pos end_ l :
  bytes_ok buf -> walk_groups hs buf pos = Walked (end_, l) -> tiles pos l end_.
Proof.
  intros Hok. revert pos end_ l. induction hs as [|[[g m] e] hs IH]; intros pos end_ l; cbn [walk_groups].
  - by intros [= <- <-].
  - intros H. walked H. destruct r as [p1 l1], r0 as [p2 l2], r1 as [p3 l3]. injection H as <- <-.
    cbn [fst snd] in *. eapply tiles_app; [by eapply walk_fields_tiles|].
    eapply tiles_app; [by eapply walk_rawmeas_tiles|]. by apply IH.
Qed.

(** The two header bytes, then one or two words per selected group. *)
Lemma walk_headers_pos gs groups buf pos e hs :
  walk_headers gs groups buf pos = Walked (e, hs) ->
  (pos + 2 * length hs <= e <= pos + 4 * length gs)%nat /\ (length hs <= length gs)%nat /\ (e <= max pos (length buf))%nat.
Proof.
  revert pos e hs. induction gs as [|g gs IH]; intros pos e hs; cbn [walk_headers].
  - intros [= <- <-]. simpl. lia.
  - destruct (_ =? 0).
    + intros H. apply IH in H. simpl. lia.
    + intros H. walked H.
      assert (Hr : (pos + 2 <= r0.1 <= pos + 4 /\ r0.1 <= length buf)%nat).
      { destruct (_ =? 0); [injection W0 as <-; simpl; lia|]. walked W0. injection W0 as <-. simpl. lia. }
      destruct r0 as [p1 e1]. walked H. destruct r1 as [p2 h2]. injection H as <- <-.
      apply IH in W2. simpl in *. lia.
Qed.

Lemma walk_headers_nil gs groups buf pos e :
  walk_headers gs groups buf pos = Walked (e, []) ->
  forallb (fun g => Z.land groups (Z.shiftl 1 (Z.of_nat g)) =? 0) gs = true.
Proof.
  induction gs as [|g gs IH]; cbn [walk_headers forallb]; [done|].
  destruct (_ =? 0); [apply IH|]. intros H. walked H. destruct r0. walked H. done.
Qed.

(** A groups byte other than 0 without bit 7 selects some group. *)
Lemma groups_select b :
  is_byte b -> (b =? 0) || negb (Z.land b 0x80 =? 0) = false ->
  forallb (fun g => Z.land b (Z.shiftl 1 (Z.of_nat g)) =? 0) (seq 0 7) = false.
Proof.
  unfold is_byte. intros Hb.
  assert (H : forall i, (i < 256)%nat ->
    (fun i => let b := Z.of_nat i in (b =? 0) || negb (Z.land b 0x80 =? 0)
     || negb (forallb (fun g => Z.land b (Z.shiftl 1 (Z.of_nat g)) =? 0) (seq 0 7))) i = true)
    by (apply below_forallb; vm_compute; reflexivity).
  specialize (H (Z.to_nat b) ltac:(lia)). cbv beta zeta in H. rewrite Z2Nat.id in H by lia.
  intros E. rewrite E in H. by apply negb_true_iff in H.
Qed.

Lemma field_layout_reach buf l total :
  bytes_ok buf -> field_layout buf = Some l -> binary_length buf = Walked total ->
  exists first, tiles first l (total - 2) /\ (4 <= first <= 30 /\ first + 2 <= total)%nat.
Proof.
  intros Hok Hl Hb. unfold field_layout, binary_length in *.
  destruct (walk buf) as [| |[l0 t0]] eqn:E; try done. injection Hl as <-. injection Hb as <-.
  unfold walk in E. walked E. destruct r1 as [p1 h], r2 as [p2 l2]. injection E as <- <-. cbn [fst snd] in *.
  pose proof (walk_headers_pos _ _ _ _ _ _ W1) as Hp. cbn [length seq] in Hp.
  pose proof (walk_groups_tiles _ _ _ _ _ Hok W2) as Ht. pose proof (tiles_le _ _ _ Ht).
  exists p1. assert (h <> []).
  { intros ->. apply walk_headers_nil in W1. rewrite (groups_select buf.[1]) in W1; [done| |done].
    by apply bytes_ok_at. }
  replace (p2 + 2 - 2)%nat with p2 by lia.
  split_and!; [done|destruct h; cbn [length] in *; [done|lia]|lia|lia].
Qed.

(** The layout [field_layout] reports tiles the frame: it starts right after a
    header of at most 30 bytes, each field of positive size begins where the one before ends,
    and the frame length [binary_length] announces ends two CRC bytes after the last. *)
Theorem field_layout_tiles buf l total :
  bytes_ok buf -> field_layout buf = Some l -> binary_length buf = Walked total ->
  exists first, (4 <= first <= 30)%nat /\ tiles first l (total - 2) /\ (first + 2 <= total)%nat.
Proof. intros Hok Hl Hb. destruct (field_layout_reach buf l total Hok Hl Hb) as (first & ? & ? & ?). by exists first. Qed.

Lemma field_layout_tiles_witness :
  exists first, (4 <= first <= 30)%nat
  /\ tiles first [mkField 0 3 4 12; mkField 0 12 16 2] 18 /\ (first + 2 <= 20)%nat.
Proof.
  apply (field_layout_tiles [0xFA; 1; 8; 16] [mkField 0 3 4 12; mkField 0 12 16 2] 20);
    [bytes_tac|reflexivity|reflexivity].
Defined.

(** ** How far a walk reads

    While [_walk] asks for more, the frame cannot end within the bytes present. *)

Lemma bind_NeedMore {A B} (w : Walk A) (f : A -> Walk B) :
  w ≫= f = NeedMore -> w = NeedMore \/ exists a, w = Walked a /\ f a = NeedMore.
Proof. destruct w; try done; eauto. Qed.

Lemma need_NeedMore n buf : need n buf = NeedMore -> (length buf < n)%nat.
Proof. unfold need. destruct (_ <? _)%nat eqn:E; [|done]. intros _. by zbool. Qed.

Lemma refuse_NeedMore b : refuse b <> NeedMore.
Proof. by destruct b. Qed.

(** Both computations in step: [w'] succeeded where [w] waits or succeeds alike. *)
Lemma refines_Walked {A} (w w' : Walk A) a : refines w w' -> w = Walked a -> w' = Walked a.
Proof. by intros [->| ->] ?. Qed.

Section Reach.
Context (a d : bytes) (Hok : bytes_ok (a ++ d)).

Lemma reach_headers gs groups pos r :
  walk_headers gs groups a pos = NeedMore -> walk_headers gs groups (a ++ d) pos = Walked r ->
  (length a < r.1)%nat.
Proof.
  revert pos r. induction gs as [|g gs IH]; intros pos r; cbn [walk_headers]; [done|].
  destruct (_ =? 0); [apply IH|]. intros Hn H. walked H. destruct r1 as [p1 e1]. walked H.
  injection H as <-. destruct r2 as [p2 h2]. cbn [fst snd] in *. pose proof (walk_headers_pos _ _ _ _ _ _ W2) as Hp.
  assert (Hp1 : (pos + 2 <= p1)%nat /\ ((Z.land (u16_at (a ++ d) pos) EXT_FLAG =? 0) = false -> (pos + 4 <= p1)%nat)).
  { clear - W0. destruct (Z.land (u16_at (a ++ d) pos) EXT_FLAG =? 0); [injection W0 as <- _; by split|]. walked W0. injection W0 as <- _. lia. }
  destruct (bind_NeedMore _ _ Hn) as [E|([] & E & Hn1)]; [apply need_NeedMore in E; lia|].
  apply need_ok in E. rewrite u16_at_app in * by done.
  destruct (bind_NeedMore _ _ Hn1) as [E1|(pe & E1 & Hn2)].
  - destruct (Z.land (u16_at a pos) EXT_FLAG =? 0); [done|]. destruct (bind_NeedMore _ _ E1) as [E2|([] & _ & E2)]; [by apply refuse_NeedMore in E2|].
    destruct (bind_NeedMore _ _ E2) as [E3|([] & E3 & E4)]; [apply need_NeedMore in E3; lia|].
    by destruct (bind_NeedMore _ _ E4) as [?%refuse_NeedMore|(? & _ & ?)].
  - assert (pe = (p1, e1)) as ->.
    { destruct (Z.land (u16_at a pos) EXT_FLAG =? 0); [congruence|]. walked E1. walked W0.
      rewrite u16_at_app in W0 by lia. congruence. }
    destruct (bind_NeedMore _ _ Hn2) as [?%refuse_NeedMore|([] & _ & Hn3)]; [done|].
    destruct (bind_NeedMore _ _ Hn3) as [E4|(? & _ & ?)]; [|done].
    apply (IH _ _ E4 W2).
Qed.

Lemma reach_fields bits g mask pos r :
  walk_fields bits g mask a pos = NeedMore -> walk_fields bits g mask (a ++ d) pos = Walked r ->
  (length a < r.1)%nat.
Proof.
  revert pos r. induction bits as [|b bits IH]; intros pos r; cbn [walk_fields]; [done|].
  destruct (_ =? 0); [apply IH|]. intros Hn H. walked H. injection H as <-. cbn [fst snd].
  destruct r2 as [e l]. pose proof (tiles_le _ _ _ (walk_fields_tiles _ _ _ _ _ _ _ Hok W1)) as Hle.
  cbn [fst] in *.
  destruct (bind_NeedMore _ _ Hn) as [?%refuse_NeedMore|([] & _ & Hn1)]; [done|].
  destruct (bind_NeedMore _ _ Hn1) as [E|(sz & E & Hn2)].
  - destruct (_ && _); [|done]. walked W0. injection W0 as <-.
    pose proof (bytes_ok_at (a ++ d) pos Hok). unfold is_byte, SATINFO_HEADER, SATINFO_RECORD in *.
    destruct (bind_NeedMore _ _ E) as [E1|([] & _ & E1)]; [apply need_NeedMore in E1; lia|].
    by destruct (bind_NeedMore _ _ E1) as [?%refuse_NeedMore|(? & _ & ?)].
  - assert (sz = r1) as ->.
    { destruct (_ && _); [|congruence]. walked E. walked W0. rewrite at_app_l in W0 by lia. congruence. }
    destruct (bind_NeedMore _ _ Hn2) as [E4|(? & _ & ?)]; [|done].
    apply (IH _ _ E4 W1).
Qed.

Lemma reach_rawmeas g ext pos r :
  walk_rawmeas g ext a pos = NeedMore -> walk_rawmeas g ext (a ++ d) pos = Walked r ->
  (length a < r.1)%nat.
Proof.
  unfold walk_rawmeas. destruct (_ =? 0); [done|]. intros Hn H. walked H. injection H as <-.
  cbn [fst]. pose proof (bytes_ok_at (a ++ d) (pos + RAWMEAS_COUNT_OFFSET) Hok).
  unfold is_byte, RAWMEAS_HEADER, RAWMEAS_RECORD, RAWMEAS_COUNT_OFFSET in *.
  destruct (bind_NeedMore _ _ Hn) as [E1|([] & _ & E1)]; [apply need_NeedMore in E1; lia|].
  by destruct (bind_NeedMore _ _ E1) as [?%refuse_NeedMore|(? & _ & ?)].
Qed.

Lemma reach_groups hs pos r :
  walk_groups hs a pos = NeedMore -> walk_groups hs (a ++ d) pos = Walked r ->
  (length a < r.1)%nat.
Proof.
  revert pos r. induction hs as [|[[g m] e] hs IH]; intros pos r; cbn [walk_groups]; [done|].
  intros Hn H. walked H. injection H as <-. destruct r0 as [p1 l1], r1 as [p2 l2], r2 as [p3 l3].
  cbn [fst snd] in *.
  pose proof (tiles_le _ _ _ (walk_rawmeas_tiles _ _ _ _ _ _ Hok W0)).
  pose proof (tiles_le _ _ _ (walk_groups_tiles _ _ _ _ _ Hok W1)).
  destruct (bind_NeedMore _ _ Hn) as [E|(x & E & Hn1)]; [apply (reach_fields _ _ _ _ _ E) in W; simpl in W; lia|].
  pose proof (refines_Walked _ _ _ (walk_fields_app _ _ _ a d _) E) as E'.
  assert (x = (p1, l1)) as -> by congruence. cbn [fst] in *.
  destruct (bind_NeedMore _ _ Hn1) as [F|(y & F & Hn2)]; [apply (reach_rawmeas _ _ _ _ F) in W0; simpl in W0; lia|].
  assert (y = (p2, l2)) as ->.
  { destruct (walk_rawmeas_app g e a d p1) as [C|C]; congruence. }
  destruct (bind_NeedMore _ _ Hn2) as [G|(? & _ & ?)]; [|done]. apply (IH _ _ G W1).
Qed.
End Reach.

(** While the walk waits, the frame it finally describes ends after the bytes present. *)
Lemma walk_waits a d l total :
  bytes_ok (a ++ d) -> walk a = NeedMore -> walk (a ++ d) = Walked (l, total) -> (length a < total)%nat.
Proof.
  intros Hok Hn H. unfold walk in H. walked H. destruct r1 as [p1 h], r2 as [p2 l2].
  injection H as <- <-. cbn [fst snd] in *.
  pose proof (tiles_le _ _ _ (walk_groups_tiles _ _ _ _ _ Hok W2)) as Ht.
  pose proof (walk_headers_pos _ _ _ _ _ _ W1) as Hp. unfold walk in Hn.
  destruct (bind_NeedMore _ _ Hn) as [E|([] & E & Hn1)]; [apply need_NeedMore in E; lia|].
  apply need_ok in E. rewrite at_app_l in * by lia.
  destruct (bind_NeedMore _ _ Hn1) as [?%refuse_NeedMore|([] & _ & Hn2)]; [done|].
  destruct (bind_NeedMore _ _ Hn2) as [F|(y & F & Hn3)].
  - apply (reach_headers _ _ _ _ _ _ F) in W1. simpl in W1. lia.
  - pose proof (refines_Walked _ _ _ (walk_headers_app _ _ a d _) F) as F'.
    assert (y = (p1, h)) as -> by congruence. cbn [fst snd] in *.
    destruct (bind_NeedMore _ _ Hn3) as [G|(? & _ & ?)]; [|done].
    apply (reach_groups a d Hok _ _ _ G) in W2. simpl in W2. lia.
Qed.
