(* ===== verification/VnFraming.v ===== *)
(** * The VectorNav framer ([rover/drivers/vectornav/framer.py])

    Binary frames, whose length [VnFields.walk] reads from their own bytes, and [$VN] lines.
    The frames, the pending bytes and every counter but [invalid_headers] are independent of
    chunking: [VnCore], the state without that counter, satisfies the [Incremental] laws
    on every stream, and [VnFramer] projects onto it. *)

From S2P Require Import Prelude.
From S2P Require Import PyBytes.
From S2P Require Import Checksums.
From S2P Require Import Framing.
From S2P Require Import VnFields.

Definition BIN_SYNC : Z := 0xFA.
Definition ASCII_START : Z := 0x24.
Definition ASCII_MAX_LEN : Z := 512.
Definition MAX_PENDING : Z := 8 * 1024.
Definition MAX_BUFFER : Z := Z.shiftl 1 20.
Definition vn_sync (b : Z) : bool := mem_byte b [BIN_SYNC; ASCII_START].

Record VnFramerStats := mkVnStats {
  vn_frames : Z; ascii_frames : Z; vn_crc_failed : Z;
  vn_resyncs : Z; vn_bytes_skipped : Z; invalid_headers : Z
}.

Record VnFramer := mkVn { vbuf : bytes; vstats : VnFramerStats; skipping : bool }.
Definition new_vn_framer : VnFramer := mkVn [] (mkVnStats 0 0 0 0 0 0) false.

(** [_skip]. *)
Definition vn_skip (n : nat) (s : VnFramer) : VnFramer :=
  let st := vstats s in
  mkVn (drop n (vbuf s))
    (mkVnStats (vn_frames st) (ascii_frames st) (vn_crc_failed st)
       (if skipping s then vn_resyncs st else vn_resyncs st + 1)
       (vn_bytes_skipped st + Z.of_nat n) (invalid_headers st))
    true.

(** [_emit]. *)
Definition vn_emit (length_ : nat) (s : VnFramer) : VnFramer * Frame :=
  let st := vstats s in
  (mkVn (drop length_ (vbuf s))
     (mkVnStats (vn_frames st + 1) (ascii_frames st) (vn_crc_failed st) (vn_resyncs st)
        (vn_bytes_skipped st) (invalid_headers st)) false,
   mkFrame VN (take length_ (vbuf s))).

Definition add_invalid_header (s : VnFramer) : VnFramer :=
  let st := vstats s in
  mkVn (vbuf s) (mkVnStats (vn_frames st) (ascii_frames st) (vn_crc_failed st) (vn_resyncs st)
                   (vn_bytes_skipped st) (invalid_headers st + 1)) (skipping s).

Definition add_vn_crc_failed (s : VnFramer) : VnFramer :=
  let st := vstats s in
  mkVn (vbuf s) (mkVnStats (vn_frames st) (ascii_frames st) (vn_crc_failed st + 1) (vn_resyncs st)
                   (vn_bytes_skipped st) (invalid_headers st)) (skipping s).

Definition add_ascii_frame (s : VnFramer) : VnFramer :=
  let st := vstats s in
  mkVn (vbuf s) (mkVnStats (vn_frames st) (ascii_frames st + 1) (vn_crc_failed st) (vn_resyncs st)
                   (vn_bytes_skipped st) (invalid_headers st)) (skipping s).

(** [_next_sync]. *)
Definition vn_next_sync (buf : bytes) : nat := next_sync_of vn_sync buf.

(** [_try_binary]. *)
Definition try_binary (s : VnFramer) : VnFramer * Result :=
  let buf := vbuf s in
  match binary_length buf with
  | BadHeader => (add_invalid_header s, Invalid)
  | NeedMore => (s, if MAX_PENDING <? len buf then Invalid else Incomplete)
  | Walked total =>
      if MAX_PENDING <? Z.of_nat total then (add_invalid_header s, Invalid)
      else if (length buf <? total)%nat then (s, Incomplete)
      else if negb (crc16_xmodem (slice 1 total buf) =? 0) then (add_vn_crc_failed s, Invalid)
      else let '(s, f) := vn_emit total s in (s, Got f)
  end.

(** The scan of [_try_ascii]: [for i in range(3, limit)]. *)
Inductive Scan := ScanEnd | ScanWait | ScanBad | ScanLine (n : nat).

Definition printable (b : Z) : bool := (0x20 <=? b) && (b <=? 0x7E).

Fixpoint ascii_scan (buf : bytes) (i n : nat) : Scan :=
  match n with
  | O => ScanEnd
  | S n =>
      let b := buf.[i] in
      if b =? 0x0D then
        if (length buf <=? i + 1)%nat then ScanWait
        else if negb (buf.[i + 1] =? 0x0A) then ScanBad
        else ScanLine (i + 2)
      else if negb (printable b) then ScanBad
      else ascii_scan buf (i + 1) n
  end.

(** [_try_ascii]. *)
Definition try_ascii (s : VnFramer) : VnFramer * Result :=
  let buf := vbuf s in
  let prefix := take 3 buf in
  if negb (startswith [0x24; 0x56; 0x4E] prefix) then (s, Invalid)
  else if (length prefix <? 3)%nat then (s, Incomplete)
  else
    let limit := Nat.min (length buf) (Z.to_nat (ASCII_MAX_LEN + 2)) in
    match ascii_scan buf 3 (limit - 3) with
    | ScanWait => (s, Incomplete)
    | ScanBad => (s, Invalid)
    | ScanLine n =>
        if negb (verify_ascii (take n buf)) then (add_vn_crc_failed s, Invalid)
        else let '(s, f) := vn_emit n s in (add_ascii_frame s, Got f)
    | ScanEnd => (s, if ASCII_MAX_LEN + 2 <=? len buf then Invalid else Incomplete)
    end.

Definition vn_try (first : Z) (s : VnFramer) : VnFramer * Result :=
  if first =? BIN_SYNC then try_binary s else try_ascii s.

(** One turn of [feed]'s loop. *)
Definition vn_iter (s : VnFramer) : VnFramer * signal :=
  match vbuf s with
  | [] => (s, Stop)
  | first :: _ =>
      if negb (vn_sync first) then (vn_skip (vn_next_sync (vbuf s)) s, Go None)
      else
        let '(s, result) := vn_try first s in
        match result with
        | Incomplete => (s, Stop)
        | Invalid => (vn_skip 1 s, Go None)
        | Got f => (s, Go (Some f))
        end
  end.

Definition vn_push (data : bytes) (s : VnFramer) : VnFramer :=
  mkVn (vbuf s ++ data) (vstats s) (skipping s).

#[export] Instance vn_incremental : Incremental VnFramer :=
  {| ibuf := vbuf; push := vn_push; iter := vn_iter |}.

(** [if len(self._buf) > MAX_BUFFER]. *)
Definition vn_cap (s : VnFramer) : VnFramer :=
  if MAX_BUFFER <? len (vbuf s) then vn_skip (Z.to_nat (len (vbuf s) - MAX_BUFFER)) s else s.

(** [VnFramer.feed]. *)
Definition vn_feed (data : bytes) (s : VnFramer) : VnFramer * list Frame :=
  run (vn_cap (vn_push data s)).

Fixpoint vn_feed_all (chunks : list bytes) (s : VnFramer) : VnFramer * list Frame :=
  match chunks with
  | [] => (s, [])
  | d :: ds =>
      let '(s1, o1) := vn_feed d s in
      let '(s2, o2) := vn_feed_all ds s1 in (s2, o1 ++ o2)
  end.

(** ** The state without [invalid_headers] *)

Record VnCore := mkCore {
  cbuf : bytes; cframes : Z; cascii : Z; ccrc : Z; cresyncs : Z; cskipped : Z; cskipping : bool
}.

Definition forget (s : VnFramer) : VnCore :=
  let st := vstats s in
  mkCore (vbuf s) (vn_frames st) (ascii_frames st) (vn_crc_failed st) (vn_resyncs st)
    (vn_bytes_skipped st) (skipping s).

Definition embed (c : VnCore) : VnFramer :=
  mkVn (cbuf c) (mkVnStats (cframes c) (cascii c) (ccrc c) (cresyncs c) (cskipped c) 0) (cskipping c).

#[export] Instance core_incremental : Incremental VnCore :=
  {| ibuf := cbuf;
     push := fun d c => forget (vn_push d (embed c));
     iter := fun c => let '(s, g) := vn_iter (embed c) in (forget s, g) |}.

Lemma forget_embed c : forget (embed c) = c.
Proof. by destruct c. Qed.

(** Parsers act alike on states with the same core. *)
Definition same (p q : VnFramer * Result) : Prop := forget p.1 = forget q.1 /\ p.2 = q.2.

Lemma vn_try_same b s t : forget s = forget t -> same (vn_try b s) (vn_try b t).
Proof.
  destruct s as [bs [f a c r k i] sk], t as [bt [f' a' c' r' k' i'] sk'].
  intros [= -> -> -> -> -> -> ->]. unfold vn_try, try_binary, try_ascii, same. cbn [vbuf].
  repeat (break; try done).
Qed.

Lemma vn_skip_same n s t : forget s = forget t -> forget (vn_skip n s) = forget (vn_skip n t).
Proof.
  destruct s as [bs [f a c r k i] sk], t as [bt [f' a' c' r' k' i'] sk'].
  by intros [= -> -> -> -> -> -> ->].
Qed.

Lemma vn_iter_same s t :
  forget s = forget t -> forget (vn_iter s).1 = forget (vn_iter t).1 /\ (vn_iter s).2 = (vn_iter t).2.
Proof.
  intros E. assert (Hb : vbuf s = vbuf t) by (unfold forget in E; congruence).
  unfold vn_iter. rewrite Hb. destruct (vbuf t) as [|b l]; [done|].
  destruct (negb _); [simpl; by rewrite (vn_skip_same _ _ _ E)|].
  destruct (vn_try_same b s t E) as [H1 H2].
  destruct (vn_try b s) as [s1 r1], (vn_try b t) as [t1 r2]. simpl in *. subst r2.
  destruct r1; simpl; split; try done. by apply vn_skip_same.
Qed.

Lemma forget_iter s : iter (forget s) = (forget (iter s).1, (iter s).2).
Proof.
  cbn [iter core_incremental vn_incremental].
  destruct (vn_iter_same (embed (forget s)) s (forget_embed _)) as [H1 H2].
  destruct (vn_iter (embed (forget s))). simpl in *. by rewrite H1, H2.
Qed.

(** ** The parsers: what they consume, and stability *)

Lemma binary_length_ge buf total :
  bytes_ok buf -> binary_length buf = Walked total -> (6 <= total)%nat.
Proof.
  intros Hok H. unfold binary_length in H. destruct (walk buf) as [| |[l t]] eqn:E; try done.
  unfold walk in E. walked E. destruct r1 as [p1 h], r2 as [p2 l2]. injection E as <- <-. injection H as <-.
  cbn [fst snd] in *. pose proof (tiles_le _ _ _ (walk_groups_tiles _ _ _ _ _ Hok W2)).
  pose proof (walk_headers_pos _ _ _ _ _ _ W1) as Hp. cbn [length seq] in Hp.
  assert (h <> []).
  { intros ->. apply walk_headers_nil in W1. rewrite (groups_select buf.[1]) in W1; [done| |done].
    by apply bytes_ok_at. }
  destruct h; cbn [length] in *; [done|lia].
Qed.

Lemma ascii_scan_line buf i n k :
  ascii_scan buf i n = ScanLine k ->
  (i + 2 <= k <= i + n + 1)%nat /\ (k <= length buf)%nat
  /\ buf.[k - 2] = 0x0D /\ buf.[k - 1] = 0x0A
  /\ forall j, (i <= j < k - 2)%nat -> printable buf.[j] = true.
Proof.
  revert i. induction n as [|n IH]; intros i; cbn [ascii_scan]; [done|].
  destruct (_ =? 0x0D) eqn:E1.
  - destruct (_ <=? _)%nat eqn:E2; [done|]. destruct (negb _) eqn:E3; [done|]. zbool.
    intros [= <-]. replace (i + 2 - 2)%nat with i by lia. replace (i + 2 - 1)%nat with (i + 1)%nat by lia.
    split_and!; lia.
  - destruct (negb _) eqn:E2; [done|]. zbool. intros H. apply IH in H as (H1 & H2 & H3 & H4 & H5).
    split_and!; try lia; try done. intros j Hj. destruct (decide (j = i)) as [->|]; [done|]. apply H5. lia.
Qed.

(** A scan on a longer buffer, over at least as many positions. *)
Lemma ascii_scan_app a d i n m :
  (i + n <= length a)%nat -> (n <= m)%nat ->
  ascii_scan a i n <> ScanWait -> (ascii_scan a i n = ScanEnd -> m = n) ->
  ascii_scan (a ++ d) i m = ascii_scan a i n.
Proof.
  revert i m. induction n as [|n IH]; intros i m Hi Hm Hw He.
  - cbn [ascii_scan] in *. by rewrite (He eq_refl).
  - destruct m as [|m]; [lia|]. cbn [ascii_scan] in *. rewrite at_app_l by lia.
    destruct (a.[i] =? 0x0D).
    + destruct (length a <=? i + 1)%nat eqn:E2; [done|]. zbool.
      rewrite length_app, (proj2 (Nat.leb_gt _ _)) by lia. by rewrite at_app_l by lia.
    + destruct (negb (printable a.[i])); [done|]. apply IH; [lia|lia|done|].
      intros E. specialize (He E). lia.
Qed.

Lemma startswith_pre p a x : startswith p (a ++ x) = true -> startswith p a = true.
Proof. rewrite !startswith_spec. intros [r ->]. exists (x ++ r). by rewrite app_assoc. Qed.

Lemma vn_skip_push n d s :
  (n <= length (vbuf s))%nat -> vn_skip n (vn_push d s) = vn_push d (vn_skip n s).
Proof. intros H. unfold vn_skip, vn_push. simpl. f_equal. by apply drop_app_le. Qed.

Lemma vn_emit_push n d s :
  (n <= length (vbuf s))%nat ->
  vn_emit n (vn_push d s) = (vn_push d (vn_emit n s).1, (vn_emit n s).2).
Proof. intros H. unfold vn_emit, vn_push. simpl. by rewrite drop_app_le, take_app_le. Qed.

Lemma binary_length_app a d : refines (binary_length a) (binary_length (a ++ d)).
Proof. apply refines_bind; [apply walk_app|]. intros r _. apply refines_refl. Qed.

Lemma try_binary_push s d :
  bytes_ok (vbuf s ++ d) -> (try_binary s).2 <> Incomplete ->
  same (try_binary (vn_push d s)) (vn_push d (try_binary s).1, (try_binary s).2).
Proof.
  intros Hok. unfold try_binary. cbn [vn_push vbuf].
  destruct (binary_length_app (vbuf s) d) as [E|E].
  - rewrite E. destruct (MAX_PENDING <? len (vbuf s)) eqn:Hp; [|done]. intros _. zbool.
    destruct (binary_length (vbuf s ++ d)) as [| |total] eqn:E'.
    + rewrite (proj2 (Z.ltb_lt _ _)) by (rewrite length_app; lia). done.
    + done.
    + unfold binary_length in E, E'. destruct (walk (vbuf s ++ d)) as [| |[l t]] eqn:Ew; try done.
      destruct (walk (vbuf s)) eqn:Ew0; try done. injection E' as <-.
      pose proof (walk_waits _ _ _ _ Hok Ew0 Ew). simpl.
      rewrite (proj2 (Z.ltb_lt _ _)) by lia. done.
  - rewrite E. destruct (binary_length (vbuf s)) as [| |total] eqn:Ew.
    + destruct (MAX_PENDING <? len (vbuf s)) eqn:Hp; [|done]. intros _. zbool.
      rewrite (proj2 (Z.ltb_lt _ _)) by (rewrite length_app; lia). done.
    + done.
    + destruct (_ <? Z.of_nat total); [done|].
      destruct (length (vbuf s) <? total)%nat eqn:El; [done|]. zbool. intros _.
      rewrite (proj2 (Nat.ltb_ge _ _)) by (rewrite length_app; lia).
      rewrite slice_app_l by lia. destruct (negb _); [done|].
      pose proof (vn_emit_push total d s ltac:(lia)) as Hem.
      destruct (vn_emit total (vn_push d s)), (vn_emit total s). injection Hem as -> ->. done.
Qed.

Lemma try_ascii_push s d :
  (try_ascii s).2 <> Incomplete ->
  same (try_ascii (vn_push d s)) (vn_push d (try_ascii s).1, (try_ascii s).2).
Proof.
  unfold try_ascii. cbn [vn_push vbuf].
  destruct (decide (3 <= length (vbuf s))%nat) as [H3|H3].
  - rewrite take_app_le by done. destruct (negb _); [done|].
    rewrite length_take, Nat.min_l by lia. cbn [Nat.ltb Nat.leb].
    change (Z.to_nat (ASCII_MAX_LEN + 2)) with 514%nat.
    assert (Hs : ascii_scan (vbuf s) 3 (Nat.min (length (vbuf s)) 514 - 3) <> ScanWait ->
      (ascii_scan (vbuf s) 3 (Nat.min (length (vbuf s)) 514 - 3) = ScanEnd -> 514 <= length (vbuf s))%nat ->
      ascii_scan (vbuf s ++ d) 3 (Nat.min (length (vbuf s ++ d)) 514 - 3)
      = ascii_scan (vbuf s) 3 (Nat.min (length (vbuf s)) 514 - 3)).
    { intros Hw He. rewrite length_app. apply ascii_scan_app; [lia|lia|done|].
      intros E. specialize (He E). lia. }
    destruct (ascii_scan (vbuf s) 3 _) eqn:Es.
    + destruct (_ <=? len (vbuf s)) eqn:El; [|done]. intros _. zbool. unfold ASCII_MAX_LEN in *.
      rewrite Hs by (done || lia). rewrite (proj2 (Z.leb_le _ _)) by (rewrite length_app; lia). done.
    + done.
    + intros _. by rewrite Hs.
    + rewrite Hs by done. clear Hs.
      apply ascii_scan_line in Es as (Hn & Hl & _). rewrite take_app_le by done.
      destruct (negb _); [done|]. intros _.
      pose proof (vn_emit_push n d s ltac:(lia)) as Hem.
      destruct (vn_emit n (vn_push d s)), (vn_emit n s). injection Hem as -> ->. done.
  - rewrite (take_ge (vbuf s)) by lia.
    destruct (negb (startswith _ (vbuf s))) eqn:E.
    + intros _. destruct (startswith _ (take 3 (vbuf s ++ d))) eqn:E'; [|done].
      rewrite take_app, take_ge in E' by lia. apply startswith_pre in E'. by rewrite E' in E.
    + rewrite (proj2 (Nat.ltb_lt _ _)) by lia. done.
Qed.

Lemma vn_try_push b s d :
  bytes_ok (vbuf s ++ d) -> (vn_try b s).2 <> Incomplete ->
  same (vn_try b (vn_push d s)) (vn_push d (vn_try b s).1, (vn_try b s).2).
Proof. unfold vn_try. destruct (_ =? _); [apply try_binary_push|intros _; apply try_ascii_push]. Qed.

(** The buffer after a verdict. *)
Lemma vn_try_front b s s' r :
  bytes_ok (vbuf s) -> vn_try b s = (s', r) ->
  match r with
  | Got f => f = mkFrame VN (take (length (raw f)) (vbuf s)) /\ (0 < length (raw f) <= length (vbuf s))%nat
             /\ vbuf s' = drop (length (raw f)) (vbuf s)
             /\ vn_bytes_skipped (vstats s') = vn_bytes_skipped (vstats s)
  | Invalid => vbuf s' = vbuf s /\ vn_bytes_skipped (vstats s') = vn_bytes_skipped (vstats s)
  | Incomplete => s' = s
  end.
Proof.
  intros Hok. unfold vn_try, try_binary, try_ascii. destruct (_ =? _).
  - destruct (binary_length (vbuf s)) as [| |total] eqn:E; [destruct (_ <? _)| |]; try by intros [= <- <-].
    destruct (_ <? _); [by intros [= <- <-]|]. destruct (_ <? _)%nat eqn:El; [by intros [= <- <-]|].
    destruct (negb _); [by intros [= <- <-]|]. unfold vn_emit. intros [= <- <-]. zbool.
    pose proof (binary_length_ge _ _ Hok E). simpl. rewrite length_take, Nat.min_l by lia. split_and!; (done || lia).
  - destruct (negb _); [by intros [= <- <-]|]. destruct (_ <? 3)%nat; [by intros [= <- <-]|].
    destruct (ascii_scan _ _ _) as [| | |n] eqn:E; try by intros [= <- <-].
    { destruct (_ <=? _); by intros [= <- <-]. }
    apply ascii_scan_line in E as (Hn & Hl & _).
    destruct (negb _); [by intros [= <- <-]|]. unfold vn_emit. intros [= <- <-].
    simpl. rewrite length_take, Nat.min_l by lia. split_and!; (done || lia).
Qed.

(** ** The laws of the core *)

Lemma vn_iter_eq s :
  vbuf s <> [] ->
  vn_iter s =
  if negb (vn_sync (vbuf s).[0]) then (vn_skip (vn_next_sync (vbuf s)) s, Go None)
  else let '(s1, result) := vn_try (vbuf s).[0] s in
       match result with
       | Incomplete => (s1, Stop)
       | Invalid => (vn_skip 1 s1, Go None)
       | Got f => (s1, Go (Some f))
       end.
Proof. intros H. unfold vn_iter. destruct (vbuf s); [done|]. done. Qed.

Lemma vn_skip_add m n s : vn_skip m (vn_skip n s) = vn_skip (n + m) s.
Proof. unfold vn_skip. simpl. f_equal; [by rewrite drop_drop|]. f_equal. lia. Qed.

Lemma vn_skip_run s d :
  vbuf s <> [] -> vn_sync (vbuf s).[0] = false ->
  let s' := vn_skip (vn_next_sync (vbuf s)) s in
  vn_iter (vn_push d s) = (vn_push d s', Go None) \/ vn_iter (vn_push d s) = vn_iter (vn_push d s').
Proof.
  intros Hne Hs s'. assert (Hl : (0 < length (vbuf s))%nat) by (destruct (vbuf s); [done|simpl; lia]).
  pose proof (next_sync_of_bound vn_sync _ Hl) as Hb.
  assert (Hit : vn_iter (vn_push d s) = (vn_skip (vn_next_sync (vbuf s ++ d)) (vn_push d s), Go None)).
  { rewrite vn_iter_eq by (by apply app_ne_l). cbn [vn_push vbuf]. by rewrite at_app_l, Hs by done. }
  unfold vn_next_sync in *. destruct (next_sync_of_app vn_sync (vbuf s) d Hl) as [E|[Ea E]].
  - left. rewrite Hit, E, vn_skip_push by lia. done.
  - assert (Hb' : vbuf s' = []) by (subst s'; rewrite Ea; simpl; apply drop_all).
    destruct d as [|y d].
    { left. rewrite Hit, app_nil_r, vn_skip_push by lia. done. }
    destruct (vn_sync y) eqn:Ey.
    + left. rewrite Hit, E. cbn [find_idx]. rewrite Ey, Nat.add_0_r, vn_skip_push by lia.
      subst s'. by rewrite Ea.
    + right. rewrite Hit, E, (vn_iter_eq (vn_push (y :: d) s')) by (cbn [vn_push vbuf]; by rewrite Hb').
      cbn [vn_push vbuf]. rewrite Hb'. cbn [app at_ nth]. unfold at_. cbn [nth]. rewrite Ey. cbn [negb].
      f_equal. subst s'. rewrite Ea. fold (vn_push (y :: d) (vn_skip (length (vbuf s)) s)).
      rewrite <- vn_skip_push, vn_skip_add by lia. f_equal. f_equal.
      unfold vn_next_sync, next_sync_of. cbn [tail find_idx]. rewrite Ey.
      by destruct (find_idx vn_sync d).
Qed.

Lemma core_cases c : exists s, c = forget s /\ embed c = s.
Proof. exists (embed c). by rewrite forget_embed. Qed.

Lemma core_iter s : iter (forget s) = (forget (vn_iter s).1, (vn_iter s).2).
Proof. apply forget_iter. Qed.
Lemma core_push d s : push d (forget s) = forget (vn_push d s).
Proof. done. Qed.

Lemma vn_stop s s' : vn_iter s = (s', Stop) -> s' = s.
Proof.
  destruct (decide (vbuf s = [])) as [E|E]; [unfold vn_iter; rewrite E; by intros [= <-]|].
  rewrite vn_iter_eq by done. destruct (negb _); [done|].
  destruct (vn_try _ s) as [s1 r] eqn:Et. destruct r; intros [=]; subst.
  revert Et. unfold vn_try, try_binary, try_ascii. repeat break; by intros [= <-].
Qed.

Lemma vn_go_push s s' o d :
  bytes_ok (vbuf s ++ d) -> vn_iter s = (s', Go o) ->
  (forget (vn_iter (vn_push d s)).1 = forget (vn_push d s') /\ (vn_iter (vn_push d s)).2 = Go o)
  \/ (o = None /\ vn_iter (vn_push d s) = vn_iter (vn_push d s')).
Proof.
  intros Hok. destruct (decide (vbuf s = [])) as [E|E]; [unfold vn_iter; by rewrite E|].
  rewrite vn_iter_eq by done. destruct (negb _) eqn:Es.
  - intros [= <- <-]. apply negb_true_iff in Es.
    destruct (vn_skip_run s d E Es) as [C|C]; [left|right]; [by rewrite C|done].
  - assert (Hl : (0 < length (vbuf s))%nat) by (destruct (vbuf s); [done|simpl; lia]).
    rewrite (vn_iter_eq (vn_push d s)) by (by apply app_ne_l).
    cbn [vn_push vbuf]. rewrite at_app_l, Es by done.
    pose proof (vn_try_push (vbuf s).[0] s d Hok) as Hp.
    destruct (vn_try _ s) as [s1 r] eqn:Et.
    pose proof (vn_try_front _ _ _ _ (proj1 (proj1 (Forall_app _ _ _) Hok)) Et) as Hf.
    fold (vn_push d s). destruct (vn_try _ (vn_push d s)) as [s2 r2]. simpl in Hp.
    destruct r; intros [= <- <-]; destruct (Hp ltac:(done)) as [H1 H2]; simpl in H1, H2; subst r2; left; [done|].
    simpl. split; [|done]. rewrite (vn_skip_same _ _ _ H1). rewrite vn_skip_push; [done|].
    destruct Hf as [-> _]. lia.
Qed.

Lemma vn_go_suffix s s' o :
  bytes_ok (vbuf s) -> vn_iter s = (s', Go o) -> exists x, x <> [] /\ vbuf s = x ++ vbuf s'.
Proof.
  intros Hok. destruct (decide (vbuf s = [])) as [E|E]; [unfold vn_iter; by rewrite E|].
  assert (Hl : (0 < length (vbuf s))%nat) by (destruct (vbuf s); [done|simpl; lia]).
  assert (Hx : forall n, (0 < n)%nat -> exists x, x <> [] /\ vbuf s = x ++ drop n (vbuf s)).
  { intros n Hn. exists (take n (vbuf s)). rewrite take_drop. split; [|done].
    destruct (vbuf s), n; (done || lia). }
  rewrite vn_iter_eq by done. destruct (negb _).
  - intros [= <- _]. apply Hx. by apply next_sync_of_bound.
  - destruct (vn_try _ s) as [s1 r] eqn:Et. pose proof (vn_try_front _ _ _ _ Hok Et) as Hf.
    destruct r; intros [= <- _].
    + destruct Hf as (_ & Hn & -> & _). apply Hx. lia.
    + simpl. destruct Hf as [-> _]. apply Hx. lia.
Qed.

#[export] Instance core_laws : IncrementalLaws VnCore bytes_ok.
Proof.
  split.
  - done.
  - intros d e c. unfold push, core_incremental, forget, vn_push, embed.
    cbn [cbuf vbuf vstats skipping vn_frames ascii_frames vn_crc_failed vn_resyncs vn_bytes_skipped
         cframes cascii ccrc cresyncs cskipped cskipping]. by rewrite app_assoc.
  - intros [b f a c r k sk]. unfold push, core_incremental, forget, vn_push, embed. simpl.
    by rewrite app_nil_r.
  - intros a b H. by apply Forall_app in H as [_ H].
  - intros c E. destruct (core_cases c) as (s & -> & _). rewrite core_iter.
    unfold vn_iter. simpl in E. by rewrite E.
  - intros c c'. destruct (core_cases c) as (s & -> & _). rewrite core_iter.
    destruct (vn_iter s) as [s' g] eqn:E. intros [= <- ->]. apply vn_stop in E as ->. by exists [].
  - intros c c' o Hok. destruct (core_cases c) as (s & -> & _). rewrite core_iter.
    destruct (vn_iter s) as [s' g] eqn:E. intros [= <- ->]. by apply (vn_go_suffix s s' o).
  - intros c c' d _. destruct (core_cases c) as (s & -> & _). rewrite core_iter.
    destruct (vn_iter s) as [s' g] eqn:E. intros [= <- ->]. by apply vn_stop in E as ->.
  - intros c c' o d Ha. destruct (core_cases c) as (s & -> & _). rewrite core_iter.
    destruct (vn_iter s) as [s' g] eqn:E. intros [= <- ->].
    rewrite !core_push, !core_iter.
    destruct (vn_go_push s s' o d Ha E) as [[H1 H2]|[H1 H2]]; [left|right].
    + by rewrite H1, H2.
    + by rewrite H2.
Qed.

(** ** Results *)

Lemma run_forget s : run (forget s) = (forget (run s).1, (run s).2).
Proof. by apply run_proj; [|apply forget_iter]. Qed.

Lemma vn_run_suffix s : bytes_ok (vbuf s) -> exists x, vbuf s = x ++ vbuf (run s).1.
Proof. intros Hok. pose proof (run_suffix (L := core_laws) (forget s) Hok) as H. by rewrite run_forget in H. Qed.

Lemma vn_feed_all_small chunks s :
  bytes_ok (vbuf s ++ concat chunks) -> len (vbuf s ++ concat chunks) <= MAX_BUFFER ->
  vn_feed_all chunks s = ifeed_all chunks s.
Proof.
  revert s. induction chunks as [|d ds IH]; intros s Hok Hl; [done|].
  cbn [vn_feed_all ifeed_all concat] in *. rewrite app_assoc in Hok, Hl.
  assert (E : vn_feed d s = ifeed d s).
  { unfold vn_feed, vn_cap. rewrite length_app in Hl.
    rewrite (proj2 (Z.ltb_ge _ _)) by (cbn [vn_push vbuf]; lia). done. }
  rewrite E. destruct (ifeed d s) as [s1 o1] eqn:E1. unfold ifeed in E1.
  pose proof Hok as [Hok1 _]%Forall_app.
  destruct (vn_run_suffix (vn_push d s) Hok1) as [x Hx].
  change (push d s) with (vn_push d s) in E1. rewrite E1 in Hx. cbn [vn_push vbuf fst] in Hx.
  rewrite Hx, <- app_assoc in Hok, Hl. rewrite IH; [done| |].
  - by apply Forall_app in Hok as [_ Hok].
  - rewrite length_app in Hl. lia.
Qed.

(** [VnFramer.feed] accepts any chunking of up to [MAX_BUFFER] bytes: frames,
    pending bytes and every counter but [invalid_headers] are those of one call. *)
Theorem vn_chunking chunks :
  bytes_ok (concat chunks) -> len (concat chunks) <= MAX_BUFFER ->
  forget (vn_feed_all chunks new_vn_framer).1 = forget (vn_feed (concat chunks) new_vn_framer).1
  /\ (vn_feed_all chunks new_vn_framer).2 = (vn_feed (concat chunks) new_vn_framer).2.
Proof.
  intros Hok Hl. rewrite vn_feed_all_small by done.
  unfold vn_feed, vn_cap. cbn [vn_push vbuf new_vn_framer app].
  rewrite (proj2 (Z.ltb_ge _ _)) by done.
  pose proof (feed_all_concat (L := core_laws) chunks (forget new_vn_framer) eq_refl Hok Hok) as H.
  rewrite (ifeed_all_proj forget) in H by (done || apply forget_iter).
  unfold ifeed in H. rewrite core_push, run_forget in H. split; [exact (f_equal fst H)|exact (f_equal snd H)].
Qed.

Lemma vn_chunking_witness :
  (vn_feed_all [[0xFA; 1]; [8; 0; 36]] new_vn_framer).2 = (vn_feed [0xFA; 1; 8; 0; 36] new_vn_framer).2.
Proof.
  apply (vn_chunking [[0xFA; 1]; [8; 0; 36]]); [cbn [concat app]; bytes_tac|vm_compute; discriminate].
Defined.

(** The frames of the protocol: self-delimiting binary ones whose CRC closes to 0, and
    printable [$VN] lines with a valid checksum. *)
Inductive vn_valid : Frame -> Prop :=
| vn_binary raw :
    bytes_ok raw -> raw.[0] = BIN_SYNC -> binary_length raw = Walked (length raw) ->
    len raw <= MAX_PENDING -> crc16_xmodem (drop 1 raw) = 0 ->
    vn_valid (mkFrame VN raw)
| vn_ascii body :
    forallb printable body = true -> len body <= ASCII_MAX_LEN - 2 ->
    verify_ascii ([0x24; 0x56; 0x4E] ++ body ++ [13; 10]) = true ->
    vn_valid (mkFrame VN ([0x24; 0x56; 0x4E] ++ body ++ [13; 10])).

Lemma printable_byte l : forallb printable l = true -> bytes_ok l.
Proof.
  rewrite forallb_forall. intros H. apply List.Forall_forall. intros x Hx%H.
  unfold printable in Hx. zbool. unfold is_byte. lia.
Qed.

Lemma vn_valid_bytes f : vn_valid f -> bytes_ok (raw f).
Proof. intros [r Hr _ _ _ _|b Hb _ _]; [done|]. simpl. apply printable_byte in Hb. bytes_tac. Qed.

Lemma binary_length_take buf total :
  bytes_ok buf -> binary_length buf = Walked total -> (total <= length buf)%nat ->
  binary_length (take total buf) = Walked total.
Proof.
  intros Hok H Hl. rewrite <- (take_drop total buf) in H at 1.
  destruct (binary_length_app (take total buf) (drop total buf)) as [E|E]; [|by rewrite <- E].
  unfold binary_length in E, H. destruct (walk (take total buf)) eqn:Ew; try done.
  destruct (walk (take total buf ++ drop total buf)) as [| |[l t]] eqn:Ew'; try done. injection H as <-.
  assert (Hok' : bytes_ok (take t buf ++ drop t buf)) by (by rewrite take_drop).
  pose proof (walk_waits _ _ _ _ Hok' Ew Ew'). simpl in *. rewrite length_take in *. lia.
Qed.

Lemma startswith_full p x : startswith p x = true -> length x = length p -> x = p.
Proof.
  rewrite startswith_spec. intros [r ->] H. rewrite length_app in H.
  destruct r; [by rewrite app_nil_r|simpl in H; lia].
Qed.

Lemma vn_try_emits b s s' f :
  bytes_ok (vbuf s) -> (vbuf s).[0] = b -> vn_try b s = (s', Got f) -> vn_valid f.
Proof.
  intros Hok H0. unfold vn_try, try_binary, try_ascii. destruct (b =? BIN_SYNC) eqn:Eb; zbool.
  - destruct (binary_length (vbuf s)) as [| |total] eqn:E; try done; [by destruct (_ <? _)|].
    destruct (_ <? _) eqn:Em; [done|]. destruct (_ <? _)%nat eqn:El; [done|].
    destruct (negb _) eqn:Ec; [done|]. unfold vn_emit. intros [= _ <-]. zbool.
    pose proof (binary_length_ge _ _ Hok E).
    assert (Hlen : length (take total (vbuf s)) = total) by (rewrite length_take; lia).
    apply vn_binary; rewrite ?Hlen; [by apply bytes_ok_take| | by apply binary_length_take|done|].
    + rewrite <- (take_drop total (vbuf s)), at_app_l in H0 by lia. by rewrite H0, Eb.
    + rewrite <- Ec. unfold slice. f_equal.
      rewrite <- (take_drop total (vbuf s)) at 2. rewrite drop_app_le by lia.
      rewrite take_app_le by (rewrite length_drop; lia). symmetry. apply take_ge. rewrite length_drop. lia.
  - destruct (negb _) eqn:Ep; [done|]. destruct (_ <? 3)%nat eqn:E3; [done|].
    destruct (ascii_scan _ _ _) as [| | |n] eqn:E; try done; [by destruct (_ <=? _)|].
    destruct (negb (verify_ascii _)) eqn:Ev; [done|]. unfold vn_emit. intros [= _ <-]. zbool.
    apply ascii_scan_line in E as (Hn & Hl & Hcr & Hlf & Hpr).
    unfold ASCII_MAX_LEN in *.
    assert (H3 : (3 <= length (vbuf s))%nat) by (rewrite length_take in E3; lia).
    apply startswith_full in Ep; [|rewrite length_take; cbn [length]; lia].
    set (buf := vbuf s) in *.
    assert (Hsplit : take n buf = [0x24; 0x56; 0x4E] ++ slice 3 (n - 2) buf ++ [13; 10]).
    { rewrite <- Ep, <- (slice_0 n), <- (slice_0 3), <- (slice_join 0 3 n), <- (slice_join 3 (n - 2) n) by lia.
      f_equal. f_equal. rewrite <- (slice_join (n - 2) (S (n - 2)) n) by lia.
      replace (slice (S (n - 2)) n buf) with (slice (n - 1) (S (n - 1)) buf) by (f_equal; lia).
      rewrite !slice_one by lia. by rewrite Hcr, Hlf. }
    rewrite Hsplit in *. apply vn_ascii; [|rewrite length_slice by lia; unfold ASCII_MAX_LEN; lia|done].
    apply forallb_forall. intros x Hx. apply list_elem_of_In, list_elem_of_lookup in Hx as [i Hi].
    unfold slice in Hi. apply lookup_take_Some in Hi as [Hi Hlt]. rewrite lookup_drop in Hi.
    rewrite at_lookup in Hi by (apply lookup_lt_Some in Hi; done). injection Hi as <-. apply Hpr. lia.
Qed.

Lemma core_go_partition c c' o :
  bytes_ok (ibuf c) -> iter c = (c', Go o) ->
  exists gs, ibuf c = flat_map seg_bytes gs ++ ibuf c'
             /\ flat_map seg_frames gs = olist o /\ cskipped c' = cskipped c + skip_total gs.
Proof.
  destruct (core_cases c) as (s & -> & _). rewrite core_iter. intros Hok.
  change (bytes_ok (vbuf s)) in Hok.
  destruct (vn_iter s) as [s' g] eqn:E. intros [= <- ->]. cbn [ibuf core_incremental forget cbuf cskipped].
  destruct (decide (vbuf s = [])) as [E0|E0]; [unfold vn_iter in E; by rewrite E0 in E|].
  assert (Hl : (0 < length (vbuf s))%nat) by (destruct (vbuf s); [done|simpl; lia]).
  assert (Hskip : forall n t, (n <= length (vbuf s))%nat -> vbuf t = vbuf s ->
    vn_bytes_skipped (vstats t) = vn_bytes_skipped (vstats s) ->
    exists gs, vbuf s = flat_map seg_bytes gs ++ vbuf (vn_skip n t) /\ flat_map seg_frames gs = olist None
      /\ vn_bytes_skipped (vstats (vn_skip n t)) = vn_bytes_skipped (vstats s) + skip_total gs).
  { intros n t Hn Hb Hs. exists [Skipped (take n (vbuf s))]. simpl.
    rewrite Hb, Hs, app_nil_r, take_drop, length_take. split_and!; (done || lia). }
  rewrite vn_iter_eq in E by done. destruct (negb _).
  - injection E as <- <-. apply Hskip; [|done|done]. by apply next_sync_of_bound.
  - destruct (vn_try _ s) as [s1 r] eqn:Et. pose proof (vn_try_front _ _ _ _ Hok Et) as Hf.
    destruct r; [| |done]; injection E as <- <-.
    + destruct Hf as (Hr & Hn & Hb & Hs). exists [Emitted f]. simpl. rewrite app_nil_r, Hb, Hs.
      rewrite Hr at 1. simpl. rewrite take_drop. split_and!; (done || lia).
    + destruct Hf as [Hb Hs]. apply Hskip; (done || lia).
Qed.

Lemma core_stop_partition c c' :
  iter c = (c', Stop) -> exists b, ibuf c = b ++ ibuf c' /\ cskipped c' = cskipped c + len b.
Proof.
  destruct (core_cases c) as (s & -> & _). rewrite core_iter.
  destruct (vn_iter s) as [s' g] eqn:E. intros [= <- ->]. apply vn_stop in E as ->.
  exists []. simpl. split; [done|lia].
Qed.

Lemma ascii_scan_wait buf i n : ascii_scan buf i n = ScanWait -> (length buf <= i + n)%nat.
Proof.
  revert i. induction n as [|n IH]; intros i; cbn [ascii_scan]; [done|].
  destruct (_ =? 0x0D).
  - destruct (_ <=? _)%nat eqn:E; [intros _; zbool; lia|]. by destruct (negb _).
  - destruct (negb _); [done|]. intros H%IH. lia.
Qed.

Lemma vn_stop_pending s s' : vn_iter s = (s', Stop) -> len (vbuf s') <= MAX_PENDING.
Proof.
  intros E. pose proof (vn_stop _ _ E) as ->. unfold MAX_PENDING.
  destruct (decide (vbuf s = [])) as [E0|E0]; [rewrite E0; simpl; lia|].
  rewrite vn_iter_eq in E by done. destruct (negb _); [done|].
  destruct (vn_try _ s) as [s1 r] eqn:Et. destruct r; try done. revert Et.
  unfold vn_try, try_binary, try_ascii, MAX_PENDING, ASCII_MAX_LEN.
  destruct (_ =? BIN_SYNC).
  - destruct (binary_length _) as [| |total]; [destruct (_ <? _) eqn:?; intros [=]; zbool; lia|done|].
    destruct (_ <? _) eqn:?; [done|]. destruct (_ <? _)%nat eqn:?; [intros _; zbool; lia|].
    by destruct (negb _).
  - destruct (negb _); [done|]. destruct (_ <? 3)%nat eqn:?.
    { intros _. zbool. rewrite length_take in *. lia. }
    destruct (ascii_scan _ _ _) as [| | |n] eqn:Es; try done.
    + destruct (_ <=? _) eqn:?; intros [=]. zbool. lia.
    + intros _. apply ascii_scan_wait in Es. change (Z.to_nat (512 + 2)) with 514%nat in Es. zbool.
      rewrite length_take in *. lia.
    + by destruct (negb _).
Qed.

(** The [MAX_BUFFER] cap as a segment. *)
Lemma vn_cap_partition s :
  vbuf s = take (length (vbuf s) - length (vbuf (vn_cap s))) (vbuf s) ++ vbuf (vn_cap s)
  /\ vn_bytes_skipped (vstats (vn_cap s))
     = vn_bytes_skipped (vstats s) + (len (vbuf s) - len (vbuf (vn_cap s))).
Proof.
  unfold vn_cap. destruct (_ <? _) eqn:E; zbool.
  - cbn [vn_skip vbuf vstats vn_bytes_skipped]. rewrite length_drop.
    change MAX_BUFFER with 1048576 in *. split; [|lia].
    rewrite <- (take_drop (Z.to_nat (len (vbuf s) - 1048576)) (vbuf s)) at 1. f_equal. f_equal. lia.
  - rewrite Nat.sub_diag. split; [done|lia].
Qed.

(** The stream a [VnFramer] has received is exactly skipped bytes (counted by
    [bytes_skipped]), the emitted frames and the pending bytes, at most [MAX_PENDING] of them;
    every emitted frame is well-formed. *)
Theorem vn_feed_sound data s :
  bytes_ok (vbuf s ++ data) ->
  exists gs,
    vbuf s ++ data = flat_map seg_bytes gs ++ vbuf (vn_feed data s).1
    /\ flat_map seg_frames gs = (vn_feed data s).2
    /\ vn_bytes_skipped (vstats (vn_feed data s).1) = vn_bytes_skipped (vstats s) + skip_total gs
    /\ Forall vn_valid (vn_feed data s).2
    /\ len (vbuf (vn_feed data s).1) <= MAX_PENDING.
Proof.
  intros Hok. destruct (vn_cap_partition (vn_push data s)) as [Hcb Hcs].
  change (vbuf (vn_push data s)) with (vbuf s ++ data) in *.
  unfold vn_feed. set (t := vn_cap (vn_push data s)) in *.
  assert (Ht : bytes_ok (vbuf t)) by (rewrite Hcb in Hok; by apply Forall_app in Hok as [_ Hok]).
  destruct (run_partition (L := core_laws) cskipped core_stop_partition core_go_partition (forget t) Ht)
    as (gs & H1 & H2 & H3).
  assert (Hinv : Forall vn_valid (run (forget t)).2).
  { apply (run_invariant (L := core_laws) (fun _ => True)); [done|done| |done].
    intros c c' o Hc _. destruct (core_cases c) as (u & -> & _). rewrite core_iter.
    destruct (vn_iter u) as [u' g] eqn:E. intros [= _ ->]. split; [done|].
    destruct (decide (vbuf u = [])) as [E0|E0]; [unfold vn_iter in E; by rewrite E0 in E|].
    rewrite vn_iter_eq in E by done. destruct (negb _); [injection E as _ <-; constructor|].
    destruct (vn_try _ u) as [u1 r] eqn:Et. destruct r; [| |done]; injection E as _ <-; [|constructor].
    apply Forall_singleton. by apply (vn_try_emits (vbuf u).[0] u u1 f). }
  assert (Hpend : len (cbuf (run (forget t)).1) <= MAX_PENDING).
  { apply (run_settled (L := core_laws) (fun c => len (cbuf c) <= MAX_PENDING)); [done|].
    intros c c' _. destruct (core_cases c) as (u & -> & _). rewrite core_iter.
    destruct (vn_iter u) as [u' g] eqn:E. intros [= <- ->]. by eapply vn_stop_pending. }
  rewrite run_forget in *. cbn [fst snd ibuf core_incremental forget cbuf cskipped] in *.
  exists (Skipped (take (length (vbuf s ++ data) - length (vbuf t)) (vbuf s ++ data)) :: gs).
  cbn [flat_map seg_bytes seg_frames skip_total foldr seg_skip app].
  split_and!; [|done| |done|done].
  - rewrite <- app_assoc, <- H1. done.
  - assert (length (vbuf t) <= length (vbuf s ++ data))%nat by (rewrite Hcb, length_app; lia).
    rewrite H3, Hcs, length_take. unfold skip_total. cbn [vn_push vstats]. lia.
Qed.

Lemma vn_feed_sound_witness :
  exists gs, [7; 0x24; 0x56] = flat_map seg_bytes gs ++ vbuf (vn_feed [7; 0x24; 0x56] new_vn_framer).1
             /\ skip_total gs = 1.
Proof.
  destruct (vn_feed_sound [7; 0x24; 0x56] new_vn_framer) as (gs & H1 & _ & H3 & _).
  - simpl. bytes_tac.
  - exists gs. split; [exact H1|]. vm_compute in H3. vm_compute. destruct (skip_total gs); congruence.
Defined.

(** *** Completeness *)

Lemma ascii_scan_line_complete pre body rest i m :
  length pre = i -> forallb printable body = true -> (length body + 1 <= m)%nat ->
  ascii_scan (pre ++ body ++ 13 :: 10 :: rest) i m = ScanLine (i + length body + 2).
Proof.
  revert pre i m. induction body as [|b body IH]; intros pre i m Hi Hp Hm.
  - destruct m as [|m]; [simpl in Hm; lia|]. cbn [ascii_scan app].
    rewrite (at_app_r pre _ i), (at_app_r pre _ (i + 1)) by lia. rewrite Hi, Nat.sub_diag.
    replace (i + 1 - i)%nat with 1%nat by lia. cbn [at_ nth]. unfold at_. cbn [nth Z.eqb Pos.eqb negb].
    rewrite length_app, (proj2 (Nat.leb_gt _ _)) by (simpl; lia). f_equal. simpl. lia.
  - destruct m as [|m]; [simpl in Hm; lia|]. cbn [ascii_scan]. cbn [forallb] in Hp.
    apply andb_true_iff in Hp as [Hb Hp].
    assert (A : (pre ++ (b :: body) ++ 13 :: 10 :: rest).[i] = b).
    { rewrite at_app_r by lia. by rewrite Hi, Nat.sub_diag. }
    rewrite A, Hb. cbn [negb]. rewrite (proj2 (Z.eqb_neq _ _)) by (unfold printable in Hb; zbool; lia).
    change ((b :: body) ++ 13 :: 10 :: rest) with ([b] ++ body ++ 13 :: 10 :: rest). rewrite app_assoc.
    rewrite IH; [f_equal; simpl; lia|rewrite length_app; simpl; lia|done|simpl in Hm; lia].
Qed.

Definition is_ascii_frame (f : Frame) : bool := (raw f).[0] =? ASCII_START.

(** One turn on a well-formed frame, whatever follows. *)
Lemma vn_iter_valid f rest st sk :
  vn_valid f ->
  vn_iter (mkVn (raw f ++ rest) st sk)
  = (mkVn rest (mkVnStats (vn_frames st + 1) (ascii_frames st + if is_ascii_frame f then 1 else 0)
                 (vn_crc_failed st) (vn_resyncs st) (vn_bytes_skipped st) (invalid_headers st)) false,
     Go (Some f)).
Proof.
  intros [r Hr H0 Hb Hl Hc|body Hp Hl Hv]; unfold is_ascii_frame; cbn [raw].
  - pose proof (binary_length_ge _ _ Hr Hb). rewrite vn_iter_eq by (apply app_ne_l; intros ->; simpl in *; lia).
    cbn [vbuf]. rewrite at_app_l, H0 by lia.
    change (vn_sync BIN_SYNC) with true. unfold vn_try. rewrite Z.eqb_refl. cbn [negb]. unfold try_binary. cbn [vbuf].
    destruct (binary_length_app r rest) as [E|E]; [congruence|]. rewrite E, Hb.
    rewrite (proj2 (Z.ltb_ge _ _)) by lia. rewrite (proj2 (Nat.ltb_ge _ _)) by (rewrite length_app; lia).
    rewrite slice_app_l by lia. unfold slice. rewrite (take_ge (drop 1 r)) by (rewrite length_drop; lia).
    rewrite Hc. cbn [Z.eqb negb]. unfold vn_emit. cbn [vbuf vstats].
    rewrite take_app_length, drop_app_length, Z.add_0_r. done.
  - set (line := [0x24; 0x56; 0x4E] ++ body ++ [13; 10]) in *.
    assert (Hlen : length line = (3 + length body + 2)%nat) by (subst line; rewrite !length_app; simpl; lia).
    rewrite vn_iter_eq by (subst line; done). cbn [vbuf].
    replace ((line ++ rest).[0]) with ASCII_START by done. replace (line.[0]) with ASCII_START by done.
    change (vn_sync ASCII_START) with true. unfold vn_try. change (ASCII_START =? BIN_SYNC) with false.
    rewrite Z.eqb_refl. cbn [negb]. unfold try_ascii. cbn [vbuf]. rewrite take_app_le by lia.
    replace (take 3 line) with [0x24; 0x56; 0x4E] by done. cbn [startswith Z.eqb Pos.eqb andb negb length Nat.ltb Nat.leb].
    change (Z.to_nat (ASCII_MAX_LEN + 2)) with 514%nat. unfold ASCII_MAX_LEN in Hl.
    replace (ascii_scan (line ++ rest) 3 _) with (ScanLine (length line)).
    + rewrite take_app_length, Hv. cbn [negb]. unfold vn_emit, add_ascii_frame. cbn [vbuf vstats skipping
        vn_frames ascii_frames vn_crc_failed vn_resyncs vn_bytes_skipped invalid_headers].
      by rewrite take_app_length, drop_app_length.
    + symmetry. unfold line at 1. rewrite <- !app_assoc.
      change ([13; 10] ++ rest) with (13 :: 10 :: rest). rewrite ascii_scan_line_complete; [f_equal; lia|done|done|].
      rewrite length_app, Hlen. lia.
Qed.

Definition count_vn (fs : list Frame) : VnCore :=
  mkCore [] (len fs) (len (List.filter is_ascii_frame fs)) 0 0 0 false.

Lemma run_vn_valid fs n a ih sk :
  Forall vn_valid fs ->
  (fs = [] -> sk = false) ->
  let '(s, out) := run (mkVn (flat_map raw fs) (mkVnStats n a 0 0 0 ih) sk) in
  forget s = mkCore [] (n + len fs) (a + len (List.filter is_ascii_frame fs)) 0 0 0 false /\ out = fs.
Proof.
  intros Hfs Hsk. set (s0 := mkVn _ _ _).
  assert (H : run (forget s0)
    = (mkCore [] (n + len fs) (a + len (List.filter is_ascii_frame fs)) 0 0 0 false, fs)).
  { subst s0. revert n a ih sk Hsk. induction Hfs as [|f fs Hf Hfs IH]; intros n a ih sk Hsk.
    - rewrite Hsk by done. simpl. rewrite !Z.add_0_r. done.
    - rewrite (run_step (L := core_laws)).
      + rewrite core_iter. cbn [flat_map]. rewrite vn_iter_valid by done.
        cbn [fst snd vn_frames ascii_frames vn_crc_failed vn_resyncs vn_bytes_skipped invalid_headers].
        rewrite IH by done. cbn [List.filter olist app]. f_equal. f_equal; [simpl; lia|].
        destruct (is_ascii_frame f); simpl; lia.
      + change (bytes_ok (flat_map raw (f :: fs))). clear - Hf Hfs. assert (H : Forall vn_valid (f :: fs)) by by constructor.
        clear Hf Hfs. induction H; simpl; [constructor|]. apply Forall_app_2; [by apply vn_valid_bytes|done]. }
  rewrite run_forget in H. destruct (run s0) as [s out].
  split; [exact (f_equal fst H)|exact (f_equal snd H)].
Qed.

(** A stream of well-formed frames, binary and ASCII mixed, is split into
    exactly those frames: nothing skipped, no resync, nothing left over. *)
Theorem vn_feed_complete fs :
  Forall vn_valid fs -> len (flat_map raw fs) <= MAX_BUFFER ->
  forget (vn_feed (flat_map raw fs) new_vn_framer).1 = count_vn fs
  /\ (vn_feed (flat_map raw fs) new_vn_framer).2 = fs.
Proof.
  intros Hfs Hl. unfold vn_feed, vn_cap. cbn [vn_push vbuf new_vn_framer app].
  rewrite (proj2 (Z.ltb_ge _ _)) by done.
  pose proof (run_vn_valid fs 0 0 0 false Hfs ltac:(done)) as H.
  unfold vn_push, new_vn_framer. cbn [vbuf vstats skipping app].
  by destruct (run _).
Qed.

Lemma vn_feed_complete_witness :
  let f := mkFrame VN [0x24; 0x56; 0x4E; 42; 49; 56; 13; 10] in
  (vn_feed (flat_map raw [f; f]) new_vn_framer).2 = [f; f].
Proof.
  assert (V : vn_valid (mkFrame VN [0x24; 0x56; 0x4E; 42; 49; 56; 13; 10])).
  { apply (vn_ascii [42; 49; 56]); [reflexivity|vm_compute; discriminate|vm_compute; reflexivity]. }
  apply (vn_feed_complete [mkFrame VN [0x24; 0x56; 0x4E; 42; 49; 56; 13; 10];
                           mkFrame VN [0x24; 0x56; 0x4E; 42; 49; 56; 13; 10]]).
  - repeat (apply Forall_cons_2; [exact V|]). apply Forall_nil_2.
  - vm_compute. discriminate.
Defined.
