(* ===== verification/Bus.v ===== *)
(** * The publish/subscribe bus and the router ([core/bus.py], [core/router.py])

    A [Bus] holds references to [Subscription]s that their owners also use, so subscriptions
    live in a store and the bus keeps their ids in order of subscription. [asyncio.Queue] is
    the Standard Library's: a FIFO whose [put_nowait] raises [QueueFull] at [maxsize] when that is
    positive, and whose [get] waits while it is empty. *)

From Stdlib Require Import String.
From stdpp Require Import gmap.
From S2P Require Import Prelude.
From S2P Require Import PyBytes.
From S2P Require Import Framing.
From S2P Require Import Frames.
From S2P Require Import SbgFraming.
From S2P Require Import VnFraming.

Inductive Policy := DROP_OLDEST | UNBOUNDED.

#[export] Instance Policy_eq_dec : EqDecision Policy.
Proof. solve_decision. Defined.

(** [str.endswith]. *)
Definition endswith (s p : bytes) : bool := startswith (rev s) (rev p).

(** ** asyncio.Queue *)

Definition qfull {A} (maxsize : Z) (q : list A) : bool := (0 <? maxsize) && (maxsize <=? len q).
(** [put_nowait]; [None] is [QueueFull]. *)
Definition put_nowait {A} (maxsize : Z) (q : list A) (x : A) : option (list A) :=
  if qfull maxsize q then None else Some (q ++ [x]).

Section Bus.
Context {A : Type}.

(** What a queue holds: published items, and the sentinel [_CLOSED]. *)
Inductive Entry := Item (topic : bytes) (item : A) | Closed.

Record Subscription := mkSub {
  patterns : list bytes; policy : Policy; maxsize : Z; high_water : Z;
  queue : list Entry; dropped : Z; high_water_hits : Z; closed : bool
}.

(** [Subscription.__init__]. *)
Definition new_sub (patterns : list bytes) (policy : Policy) (maxsize high_water : Z) : Subscription :=
  mkSub patterns policy maxsize high_water [] 0 0 false.

Definition sub_all (s : Subscription) : bool := bool_decide (str "*" ∈ patterns s).
Definition sub_prefixes (s : Subscription) : list bytes :=
  map (fun p => take (length p - 1) p) (List.filter (fun p => endswith p (str ".*")) (patterns s)).
Definition sub_exact (s : Subscription) : list bytes :=
  List.filter (fun p => negb (endswith p (str "*"))) (patterns s).

(** [matches]. *)
Definition matches (s : Subscription) (topic : bytes) : bool :=
  sub_all s || bool_decide (topic ∈ sub_exact s) || existsb (startswith topic) (sub_prefixes s).

Definition with_queue (q : list Entry) (s : Subscription) : Subscription :=
  mkSub (patterns s) (policy s) (maxsize s) (high_water s) q (dropped s) (high_water_hits s) (closed s).
Definition add_dropped (s : Subscription) : Subscription :=
  mkSub (patterns s) (policy s) (maxsize s) (high_water s) (queue s) (dropped s + 1) (high_water_hits s) (closed s).
Definition add_high_water_hit (s : Subscription) : Subscription :=
  mkSub (patterns s) (policy s) (maxsize s) (high_water s) (queue s) (dropped s) (high_water_hits s + 1) (closed s).
Definition set_closed (s : Subscription) : Subscription :=
  mkSub (patterns s) (policy s) (maxsize s) (high_water s) (queue s) (dropped s) (high_water_hits s) true.

(** [_evict_one]. *)
Definition evict_one (s : Subscription) : Subscription := with_queue (drop 1 (queue s)) s.

(** [put_nowait] on the subscription's queue; [None] is the [QueueFull] that propagates. *)
Definition sub_put (e : Entry) (s : Subscription) : option Subscription :=
  q ← put_nowait (maxsize s) (queue s) e; Some (with_queue q s).

(** [offer]; [None] would be an escaping [QueueFull]. *)
Definition offer (topic : bytes) (item : A) (s : Subscription) : option Subscription :=
  if closed s then Some s
  else if bool_decide (policy s = UNBOUNDED) then
    s ← sub_put (Item topic item) s;
    Some (if high_water s <=? len (queue s) then add_high_water_hit s else s)
  else
    match sub_put (Item topic item) s with
    | Some s => Some s
    | None => sub_put (Item topic item) (add_dropped (evict_one s))
    end.

(** [close]. *)
Definition close (s : Subscription) : option Subscription :=
  if closed s then Some s
  else
    let s := set_closed s in
    match sub_put Closed s with
    | Some s => Some s
    | None => sub_put Closed (evict_one s)
    end.

(** [get]; [None]: the awaiting coroutine stays suspended. *)
Definition get (s : Subscription) : option (Entry * Subscription) :=
  match queue s with
  | [] => None
  | e :: q => Some (e, with_queue q s)
  end.

(** The subscriptions [Bus.subscribe] builds. *)
Definition sub_wf (s : Subscription) : Prop :=
  (policy s = UNBOUNDED -> maxsize s = 0)
  /\ (0 < maxsize s -> len (queue s) <= maxsize s).

Lemma sub_put_some e s : qfull (maxsize s) (queue s) = false -> sub_put e s = Some (with_queue (queue s ++ [e]) s).
Proof. intros H. unfold sub_put, put_nowait. by rewrite H. Qed.

Lemma qfull_evicted (m : Z) (q : list Entry) :
  (0 < m -> len q <= m) -> qfull m q = true -> qfull m (drop 1 q) = false /\ 0 < m /\ len q = m.
Proof.
  unfold qfull. intros Hle H. zbool. split; [|lia].
  rewrite (proj2 (Z.leb_gt m _)); [apply andb_false_r|]. rewrite length_drop. lia.
Qed.

Lemma put_cases e s :
  sub_wf s ->
  (sub_put e s = Some (with_queue (queue s ++ [e]) s)
   /\ (0 < maxsize s -> len (queue s) < maxsize s))
  \/ (sub_put e s = None /\ 0 < maxsize s /\ len (queue s) = maxsize s /\ policy s = DROP_OLDEST).
Proof.
  intros [Hp Hq]. unfold sub_put, put_nowait. destruct (qfull _ _) eqn:E.
  - right. destruct (qfull_evicted _ _ Hq E) as (_ & H1 & H2). split_and!; try done.
    destruct (policy s); [done|]. specialize (Hp eq_refl). lia.
  - left. split; [done|]. unfold qfull in E. intros H0. apply andb_false_iff in E as [E|E]; zbool; lia.
Qed.

(** [offer] never lets [QueueFull] escape, and on a full queue drops exactly the oldest. *)
Lemma offer_spec topic item s :
  sub_wf s ->
  exists s', offer topic item s = Some s' /\ sub_wf s' /\ closed s' = closed s
  /\ policy s' = policy s /\ patterns s' = patterns s /\ maxsize s' = maxsize s
  /\ if closed s then s' = s
     else (queue s' = queue s ++ [Item topic item] /\ dropped s' = dropped s)
          \/ (policy s = DROP_OLDEST /\ 0 < maxsize s /\ len (queue s) = maxsize s
              /\ queue s' = drop 1 (queue s) ++ [Item topic item] /\ dropped s' = dropped s + 1).
Proof.
  intros Hwf. unfold offer. destruct (closed s) eqn:Ec; [exists s; by rewrite Ec|].
  destruct (put_cases (Item topic item) s Hwf) as [[E Hlt]|(E & Hm & Hl & Hpol)]; rewrite E.
  - assert (Hwf' : sub_wf (with_queue (queue s ++ [Item topic item]) s)).
    { destruct Hwf as [Hp Hq]. split; [done|]. simpl. rewrite length_app. simpl. lia. }
    case_bool_decide; simpl; [|eexists; split; [done|]; split_and!; eauto].
    destruct (_ <=? _); (eexists; split; [done|]; split_and!; eauto).
  - rewrite bool_decide_false by (by rewrite Hpol).
    rewrite sub_put_some.
    + eexists. split; [done|]. split.
      * destruct Hwf as [Hp Hq]. split; [done|]. simpl. rewrite length_app, length_drop. simpl. lia.
      * split_and!; try done. right. by split_and!.
    + simpl. apply qfull_evicted; [apply Hwf|]. unfold qfull.
      rewrite (proj2 (Z.ltb_lt _ _)), (proj2 (Z.leb_le _ _)) by lia. done.
Qed.

(** ** One subscription over time *)

Inductive sub_op := OpOffer (topic : bytes) (item : A) | OpGet | OpClose.

(** One operation, with what [get] returned. *)
Definition sub_step (o : sub_op) (s : Subscription) : option (Subscription * list Entry) :=
  match o with
  | OpOffer t i => s' ← offer t i s; Some (s', [])
  | OpGet => match get s with Some (e, s') => Some (s', [e]) | None => Some (s, []) end
  | OpClose => s' ← close s; Some (s', [])
  end.

Fixpoint sub_run (os : list sub_op) (s : Subscription) : option (Subscription * list Entry) :=
  match os with
  | [] => Some (s, [])
  | o :: os => '(s1, out1) ← sub_step o s; '(s2, out2) ← sub_run os s1; Some (s2, out1 ++ out2)
  end.

(** The items offered before the first close, in order. *)
Fixpoint accepted (os : list sub_op) : list Entry :=
  match os with
  | [] => []
  | OpOffer t i :: os => Item t i :: accepted os
  | OpGet :: os => accepted os
  | OpClose :: _ => []
  end.
Fixpoint has_close (os : list sub_op) : bool :=
  match os with [] => false | OpClose :: _ => true | _ :: os => has_close os end.

Definition is_item (e : Entry) : bool := match e with Item _ _ => true | Closed => false end.
Definition items (q : list Entry) : list Entry := List.filter is_item q.

Lemma items_app p q : items (p ++ q) = items p ++ items q.
Proof. apply List.filter_app. Qed.

Lemma items_drop n q : items (drop n q) `suffix_of` items q.
Proof. rewrite <- (take_drop n q) at 2. rewrite items_app. by apply suffix_app_r. Qed.

(** An open subscription, as [Bus.subscribe] makes it, holds no sentinel. *)
Definition sub_ok (s : Subscription) : Prop :=
  sub_wf s /\ (closed s = false -> items (queue s) = queue s).

Definition admits (o : sub_op) (s : Subscription) : list Entry :=
  match o with OpOffer t i => if closed s then [] else [Item t i] | _ => [] end.
Definition closes (o : sub_op) : bool := match o with OpClose => true | _ => false end.

(** What one operation, or a run of them, may lose: [a] is what came in, [out] what went out,
    [eps] the item [close] may evict without counting it. *)
Record accounts (s s' : Subscription) (a out : list Entry) (eps : Z) : Prop := {
  acc_ok : sub_ok s';
  acc_same : policy s' = policy s /\ maxsize s' = maxsize s;
  acc_order : items out ++ items (queue s') `sublist_of` items (queue s) ++ a;
  acc_newest : items (queue s') `suffix_of` items (queue s) ++ a;
  acc_count : len (items (queue s) ++ a)
              = len (items out ++ items (queue s')) + (dropped s' - dropped s) + eps;
  acc_unbounded : policy s = UNBOUNDED -> eps = 0 /\ dropped s' = dropped s
}.

Lemma items_tail q : items q = q -> items (drop 1 q) = drop 1 q.
Proof.
  destruct q as [|e q]; [done|]. cbn [drop]. unfold items. cbn [List.filter].
  destruct (is_item e) eqn:E; [intros H; by injection H|].
  intros H. exfalso. assert (Hin : In e (List.filter is_item q)) by (rewrite H; by left).
  apply filter_In in Hin as [_ Hin]. congruence.
Qed.

Lemma sublist_drop_app (q a : list Entry) n : drop n q ++ a `sublist_of` q ++ a.
Proof. apply sublist_app; [apply sublist_drop|done]. Qed.

Lemma accounts_refl s : sub_ok s -> accounts s s [] [] 0.
Proof. intros H. split; simpl; rewrite ?app_nil_r; try done; lia. Qed.

Lemma sub_step_spec o s :
  sub_ok s ->
  exists s' out eps, sub_step o s = Some (s', out)
    /\ accounts s s' (admits o s) out eps
    /\ closed s' = closed s || closes o
    /\ 0 <= eps <= (if closes o && negb (closed s) then 1 else 0).
Proof.
  intros Hok. pose proof Hok as [Hwf Hop]. destruct o as [t i| |]; cbn [sub_step admits closes].
  - destruct (offer_spec t i s Hwf) as (s' & E & Hwf' & Hc & Hp & Hpat & Hm & H). rewrite E.
    exists s', [], 0. split; [done|]. rewrite orb_false_r. split; [|split; [done|]; simpl; lia].
    destruct (closed s) eqn:Ec; [subst s'; by apply accounts_refl|].
    specialize (Hop eq_refl).
    destruct H as [[Hq Hd]|(Hpol & Hpos & Hl & Hq & Hd)].
    + split; rewrite ?Hq, ?items_app, ?Hd; simpl; try done; try lia.
      split; [done|]. intros _. by rewrite Hq, items_app, Hop.
    + split; rewrite ?Hq, ?items_app, ?(items_tail _ Hop), ?Hop, ?Hd; simpl; try done.
      * split; [done|]. intros _. by rewrite Hq, items_app, (items_tail _ Hop).
      * apply sublist_drop_app.
      * apply suffix_app, suffix_drop.
      * rewrite !length_app, length_drop. simpl. lia.
      * congruence.
  - destruct (get s) as [[e s']|] eqn:E; unfold get in E.
    + destruct (queue s) as [|e0 q] eqn:Eq; [done|]. injection E as -> <-.
      exists (with_queue q s), [e], 0. split; [done|]. split; [|split; [by rewrite orb_false_r|simpl; lia]].
      split; simpl; rewrite ?app_nil_r, ?Eq; try done.
      * destruct Hwf as [Hp Hq]. split; [split; [done|]|].
        -- simpl. rewrite Eq in Hq. simpl in Hq. lia.
        -- intros Hc. specialize (Hop Hc). simpl. by apply (items_tail (e :: q)).
      * change (items [e] ++ items q `sublist_of` items ([e] ++ q)). by rewrite items_app.
      * change (items q `suffix_of` items ([e] ++ q)). rewrite items_app. by apply suffix_app_r.
      * change (len (items ([e] ++ q)) = len (items [e] ++ items q) + (dropped s - dropped s) + 0).
        rewrite items_app. lia.
    + exists s, [], 0. destruct (queue s) eqn:Eq; [|done]. split; [done|].
      split; [|split; [by rewrite orb_false_r|simpl; lia]].
      by apply accounts_refl.
  - unfold close. destruct (closed s) eqn:Ec.
    + exists s, [], 0. split; [done|]. split; [|split; [done|simpl; lia]].
      by apply accounts_refl.
    + specialize (Hop eq_refl).
      assert (Hwf' : sub_wf (set_closed s)) by done.
      destruct (put_cases Closed (set_closed s) Hwf') as [[E Hlt]|(E & Hm & Hl & Hpol)]; rewrite E.
      * exists (with_queue (queue s ++ [Closed]) (set_closed s)), [], 0. split; [done|].
        split; [|split; [done|simpl; lia]].
        split; simpl; rewrite ?items_app; simpl; rewrite ?app_nil_r; try done; try lia.
        split; [|done]. destruct Hwf as [Hp Hq]. split; [done|]. simpl. rewrite length_app. simpl in *. lia.
      * assert (Hev : qfull (maxsize (evict_one (set_closed s))) (queue (evict_one (set_closed s))) = false).
        { simpl. apply qfull_evicted; [apply Hwf|]. unfold qfull. simpl in Hm, Hl.
          rewrite (proj2 (Z.ltb_lt _ _)), (proj2 (Z.leb_le _ _)) by lia. done. }
        rewrite sub_put_some by done. simpl in Hm, Hl, Hpol.
        exists (with_queue (drop 1 (queue s) ++ [Closed]) (evict_one (set_closed s))), [], 1.
        split; [done|]. split; [|split; [done|simpl; lia]].
        split; simpl; rewrite ?items_app; simpl; rewrite ?app_nil_r; try done.
        -- split; [|done]. destruct Hwf as [Hp Hq]. split; [done|]. simpl.
           rewrite length_app, length_drop. simpl. lia.
        -- rewrite items_tail, Hop by done. apply sublist_drop.
        -- apply items_drop.
        -- rewrite items_tail, Hop, length_drop by done. lia.
        -- congruence.
Qed.

Lemma sub_run_spec os s :
  sub_ok s ->
  exists s' out eps, sub_run os s = Some (s', out)
    /\ accounts s s' (if closed s then [] else accepted os) out eps
    /\ 0 <= eps <= (if has_close os && negb (closed s) then 1 else 0).
Proof.
  revert s. induction os as [|o os IH]; intros s Hok.
  - exists s, [], 0. split; [done|]. split; [|simpl; lia].
    replace (if closed s then [] else accepted []) with (@nil Entry) by (by destruct (closed s)). by apply accounts_refl.
  - destruct (sub_step_spec o s Hok) as (s1 & o1 & e1 & E1 & A1 & C1 & B1).
    destruct (IH s1 (acc_ok _ _ _ _ _ A1)) as (s2 & o2 & e2 & E2 & A2 & B2).
    exists s2, (o1 ++ o2), (e1 + e2). split; [cbn [sub_run]; rewrite E1; simpl; by rewrite E2|].
    assert (Ha : (if closed s then [] else accepted (o :: os))
                 = admits o s ++ (if closed s1 then [] else accepted os)).
    { rewrite C1. unfold admits. destruct o, (closed s); simpl; rewrite ?app_nil_r; done. }
    rewrite Ha. destruct A1 as [K1 [P1 M1] O1 N1 T1 U1], A2 as [K2 [P2 M2] O2 N2 T2 U2]. split.
    + split; [done|split; congruence| | | |].
      * rewrite items_app, <- app_assoc, (app_assoc _ (admits o s)).
        etransitivity; [apply sublist_app; [reflexivity|exact O2]|].
        rewrite app_assoc. by apply sublist_app.
      * etransitivity; [exact N2|]. rewrite app_assoc. by apply suffix_app.
      * rewrite items_app, !length_app in *. lia.
      * intros Hu. destruct (U1 Hu). destruct U2; [congruence|]. lia.
    + clear - B1 B2 C1. rewrite C1 in B2. destruct o, (closed s); simpl in *; try lia; destruct (has_close os); simpl in *; lia.
Qed.

(** ** The bus *)

Record Bus := mkBus { subs : list nat; store : gmap nat Subscription; next_id : nat }.
Definition new_bus : Bus := mkBus [] ∅ 0.

(** [subscribe]. *)
Definition subscribe (pats : list bytes) (m : Z) (pol : Policy) (hw : Z) (b : Bus) : Bus * nat :=
  let size := if bool_decide (pol = UNBOUNDED) then 0 else m in
  let id := next_id b in
  (mkBus (subs b ++ [id]) (<[id := new_sub pats pol size hw]> (store b)) (S id), id).

(** [unsubscribe]. *)
Definition unsubscribe (id : nat) (b : Bus) : option Bus :=
  s ← store b !! id;
  s' ← close s;
  Some (mkBus (List.filter (fun i => negb (i =? id)%nat) (subs b)) (<[id := s']> (store b)) (next_id b)).

(** [publish], [for sub in self._subs]. *)
Fixpoint publish_to (ids : list nat) (topic : bytes) (item : A) (st : gmap nat Subscription)
  : option (gmap nat Subscription) :=
  match ids with
  | [] => Some st
  | id :: ids =>
      s ← st !! id;
      if matches s topic then s' ← offer topic item s; publish_to ids topic item (<[id := s']> st)
      else publish_to ids topic item st
  end.
Definition publish (topic : bytes) (item : A) (b : Bus) : option Bus :=
  st ← publish_to (subs b) topic item (store b);
  Some (mkBus (subs b) st (next_id b)).

(** [subscriber_count]. *)
Definition subscriber_count (b : Bus) : Z := len (subs b).

Definition bus_ok (b : Bus) : Prop :=
  NoDup (subs b)
  /\ (forall id, id ∈ subs b -> is_Some (store b !! id))
  /\ map_Forall (fun id s => (id < next_id b)%nat /\ sub_ok s) (store b).

Lemma new_bus_ok : bus_ok new_bus.
Proof. split_and!; [constructor|by intros ? ?%elem_of_nil|apply map_Forall_empty]. Qed.

Lemma subscribe_ok pats m pol hw b : bus_ok b -> bus_ok (subscribe pats m pol hw b).1.
Proof.
  intros (Hnd & Hin & Hst). unfold subscribe. cbn [fst].
  assert (Hfresh : next_id b ∉ subs b).
  { intros H. destruct (Hin _ H) as [s Hs]. destruct (Hst _ _ Hs). lia. }
  split_and!; cbn [subs store next_id].
  - apply list.NoDup_app. split_and!; [done| |by apply NoDup_singleton].
    intros x Hx Hy%list_elem_of_singleton. by subst x.
  - intros id [H|H%list_elem_of_singleton]%elem_of_app; [|subst id; rewrite lookup_insert_eq; eauto].
    destruct (decide (id = next_id b)) as [->|]; [rewrite lookup_insert_eq; eauto|].
    rewrite lookup_insert_ne by done. auto.
  - apply map_Forall_insert_2.
    + split; [lia|]. split; [|done]. split; simpl; [|lia].
      intros ->. by rewrite bool_decide_true.
    + intros id s Hs. destruct (Hst id s Hs). split; [lia|done].
Qed.

Lemma publish_to_spec ids topic item st :
  NoDup ids -> (forall id, id ∈ ids -> exists s, st !! id = Some s /\ sub_ok s) ->
  exists st', publish_to ids topic item st = Some st'
  /\ forall id, st' !! id =
       match st !! id with
       | Some s => if bool_decide (id ∈ ids) && matches s topic then offer topic item s else Some s
       | None => None
       end.
Proof.
  revert st. induction ids as [|i ids IH]; intros st Hnd Hin.
  - exists st. split; [done|]. intros id. by destruct (st !! id).
  - apply list.NoDup_cons in Hnd as [Hi Hnd]. cbn [publish_to].
    destruct (Hin i ltac:(by left)) as (s & Hs & Hok). rewrite Hs. cbn [mbind option_bind].
    assert (Hrest : forall st1 : gmap nat Subscription, (forall id, id <> i -> st1 !! id = st !! id) ->
      forall id, id ∈ ids -> exists s, st1 !! id = Some s /\ sub_ok s).
    { intros st1 H1 id Hid. rewrite H1 by (by intros ->). apply Hin. by right. }
    destruct (matches s topic) eqn:Em.
    + destruct (offer_spec topic item s (proj1 Hok)) as (s' & Eo & _). rewrite Eo. cbn [mbind option_bind].
      destruct (IH (<[i := s']> st) Hnd) as (st' & E & H).
      { apply Hrest. intros id Hne. by rewrite lookup_insert_ne. }
      exists st'. split; [done|]. intros id. rewrite H. destruct (decide (id = i)) as [->|Hne].
      * rewrite lookup_insert_eq, Hs, (bool_decide_false (i ∈ ids)), (bool_decide_true (i ∈ i :: ids)), Em
          by (done || by left). cbn [andb]. done.
      * rewrite lookup_insert_ne by done. destruct (st !! id); [|done].
        by rewrite (bool_decide_ext (id ∈ i :: ids) (id ∈ ids)) by (rewrite elem_of_cons; clear - Hne; tauto).
    + destruct (IH st Hnd) as (st' & E & H); [by apply Hrest|]. exists st'. split; [done|].
      intros id. rewrite H. destruct (decide (id = i)) as [->|Hne].
      * rewrite Hs, Em. by rewrite !andb_false_r.
      * destruct (st !! id); [|done].
        by rewrite (bool_decide_ext (id ∈ i :: ids) (id ∈ ids)) by (rewrite elem_of_cons; clear - Hne; tauto).
Qed.

Lemma publish_spec topic item b :
  bus_ok b ->
  exists b', publish topic item b = Some b' /\ subs b' = subs b /\ next_id b' = next_id b
  /\ forall id, store b' !! id =
       match store b !! id with
       | Some s => if bool_decide (id ∈ subs b) && matches s topic then offer topic item s else Some s
       | None => None
       end.
Proof.
  intros (Hnd & Hin & Hst). unfold publish.
  destruct (publish_to_spec (subs b) topic item (store b) Hnd) as (st' & E & H).
  { intros id Hid. destruct (Hin id Hid) as [s Hs]. exists s. split; [done|]. by destruct (Hst id s Hs). }
  rewrite E. simpl. eauto.
Qed.

Lemma offer_ok topic item s s' : sub_ok s -> offer topic item s = Some s' -> sub_ok s'.
Proof.
  intros Hok E. destruct (sub_step_spec (OpOffer topic item) s Hok) as (s2 & out & eps & E2 & Ha & _).
  simpl in E2. rewrite E in E2. simpl in E2. injection E2 as <- _. by apply (acc_ok _ _ _ _ _ Ha).
Qed.

Lemma publish_ok topic item b b' : bus_ok b -> publish topic item b = Some b' -> bus_ok b'.
Proof.
  intros Hok E. destruct (publish_spec topic item b Hok) as (b2 & E2 & Hs & Hn & Hst).
  rewrite E in E2. injection E2 as <-. destruct Hok as (Hnd & Hin & Hall). rewrite <- Hs in Hnd.
  split_and!; [done| |].
  - intros id Hid. rewrite Hst. rewrite Hs in Hid. destruct (Hin id Hid) as [s Hs']. rewrite Hs'.
    destruct (_ && _); [|eauto]. destruct (offer_spec topic item s) as (s' & -> & _); [|eauto].
    by destruct (Hall id s Hs') as [_ []].
  - intros id s. rewrite Hst, Hn. destruct (store b !! id) as [s0|] eqn:E0; [|done].
    destruct (Hall id s0 E0) as [Hlt Hok0]. destruct (_ && _).
    + intros Ho. split; [done|]. by eapply offer_ok.
    + by intros [= <-].
Qed.

Lemma close_ok s s' : sub_ok s -> close s = Some s' -> sub_ok s'.
Proof.
  intros Hok E. destruct (sub_step_spec OpClose s Hok) as (s2 & out & eps & E2 & Ha & _).
  simpl in E2. rewrite E in E2. simpl in E2. injection E2 as <- _. by apply (acc_ok _ _ _ _ _ Ha).
Qed.

Lemma unsubscribe_ok id b b' :
  bus_ok b -> unsubscribe id b = Some b' -> bus_ok b' /\ id ∉ subs b'.
Proof.
  intros (Hnd & Hin & Hall). unfold unsubscribe. destruct (store b !! id) as [s|] eqn:Es; simpl; [|done].
  destruct (close s) as [s'|] eqn:Ec; simpl; [|done]. intros [= <-]. destruct (Hall id s Es) as [Hlt Hok].
  split; [split_and!|]; cbn [subs store next_id].
  - apply NoDup_ListNoDup, List.NoDup_filter, NoDup_ListNoDup, Hnd.
  - intros i Hi. destruct (decide (i = id)) as [->|]; [rewrite lookup_insert_eq; eauto|].
    rewrite lookup_insert_ne by done. apply Hin.
    by apply list_elem_of_In, filter_In in Hi as [Hi%list_elem_of_In _].
  - apply map_Forall_insert_2; [|done]. split; [done|]. by eapply close_ok.
  - intros Hi. apply list_elem_of_In, filter_In in Hi as [_ Hi]. by rewrite Nat.eqb_refl in Hi.
Qed.
End Bus.

Arguments Subscription : clear implicits.
Arguments Entry : clear implicits.
Arguments Bus : clear implicits.

(** C16.  A subscription accounts for every item offered to it before it was closed, in any
    interleaving of [offer], [get] and [close], without a [QueueFull] escaping: what was received
    followed by what is queued is an in-order selection of the offers, what is queued are the
    newest of them and never more than [maxsize], and the rest are counted in [dropped] (the one
    item [close] may evict apart). Under [UNBOUNDED] nothing is lost at all. *)
Theorem subscription_accounts {A} (os : list (@sub_op A)) pats pol m hw :
  (pol = UNBOUNDED -> m = 0) ->
  exists s out eps,
    sub_run os (new_sub pats pol m hw) = Some (s, out)
    /\ items out ++ items (queue s) `sublist_of` accepted os
    /\ items (queue s) `suffix_of` accepted os
    /\ (0 < m -> len (queue s) <= m)
    /\ len (accepted os) = len (items out) + len (items (queue s)) + dropped s + eps
    /\ 0 <= eps <= (if has_close os then 1 else 0)
    /\ (pol = UNBOUNDED -> items out ++ items (queue s) = accepted os).
Proof.
  intros Hm. destruct (sub_run_spec os (new_sub pats pol m hw)) as (s & out & eps & E & Ha & Hb).
  { split; [|done]. split; [exact Hm|]. simpl. lia. }
  exists s, out, eps. destruct Ha as [[[_ Hsz] _] [Hp Hmx] Ho Hn Hc Hu]. simpl in *.
  rewrite andb_true_r in Hb. rewrite length_app in Hc.
  rewrite Hmx in Hsz.
  split; [done|]. split; [done|]. split; [done|]. split; [done|].
  split; [lia|]. split; [done|].
  intros ->. destruct (Hu eq_refl) as [-> Hd]. apply sublist_same_length; [done|].
  rewrite length_app. lia.
Qed.

Lemma subscription_accounts_witness :
  exists s out eps,
    sub_run [OpOffer [1] 7; OpOffer [1] 8; OpOffer [1] 9; OpGet] (new_sub [[42]] DROP_OLDEST 2 10)
      = Some (s, out)
    /\ items out ++ items (queue s) `sublist_of` [Item [1] 7; Item [1] 8; Item [1] 9]
    /\ len (queue s) <= 2 /\ 0 <= eps <= 0.
Proof.
  destruct (subscription_accounts [OpOffer [1] 7; OpOffer [1] 8; OpOffer [1] 9; OpGet]
              [[42]] DROP_OLDEST 2 10 ltac:(discriminate)) as (s & out & eps & H1 & H2 & _ & H4 & _ & H6 & _).
  exists s, out, eps. split; [exact H1|]. split; [exact H2|]. split; [apply H4; lia|exact H6].
Defined.

(** ** core/router.py *)

Definition TOPIC_RAW_UBX : bytes := str "raw.ubx".
Definition TOPIC_RAW_RTCM : bytes := str "raw.rtcm".
Definition TOPIC_RAW_NMEA : bytes := str "raw.nmea".
Definition TOPIC_RAW_SBG : bytes := str "raw.sbg".
Definition TOPIC_RAW_VN : bytes := str "raw.vn".

(** The [FrameSplitter] protocol: bytes in, frames out. *)
Class FrameSplitter (S : Type) := split_feed : bytes -> S -> S * list Frame.

Section Router.
(** [Frame.identity]: names from the frame parsers, third-party tables among them. *)
Context {S : Type} {splitter : FrameSplitter S} (identity : Frame -> bytes).

(** [topics_for]. *)
Definition topics_for (f : Frame) : list bytes :=
  match proto f with
  | UBX => [TOPIC_RAW_UBX; str "ubx." ++ identity f]
  | RTCM3 => [TOPIC_RAW_RTCM; str "rtcm." ++ match rtcm_type f with Some n => str_int n | None => [] end]
  | SBG => [TOPIC_RAW_SBG; str "sbg." ++ identity f]
  | VN => [TOPIC_RAW_VN; str "vn." ++ identity f]
  | NMEA => [TOPIC_RAW_NMEA; str "nmea." ++ identity f]
  end.

Record Router := mkRouter { bus : Bus Frame; framer : S; bytes_in : Z }.

(** The two loops of [Router.feed]. *)
Fixpoint publish_topics (ts : list bytes) (f : Frame) (b : Bus Frame) : option (Bus Frame) :=
  match ts with
  | [] => Some b
  | t :: ts => b ← publish t f b; publish_topics ts f b
  end.
Fixpoint publish_frames (fs : list Frame) (b : Bus Frame) : option (Bus Frame) :=
  match fs with
  | [] => Some b
  | f :: fs => b ← publish_topics (topics_for f) f b; publish_frames fs b
  end.

(** [Router.feed]; [None] would be an escaping exception of the bus. *)
Definition router_feed (data : bytes) (r : Router) : option (Router * list Frame) :=
  let '(fr, frames) := split_feed data (framer r) in
  b ← publish_frames frames (bus r);
  Some (mkRouter b fr (bytes_in r + len data), frames).

(** What a subscription with these patterns is offered for a list of frames. *)
Definition offered (s : Subscription Frame) (fs : list Frame) : list (Entry Frame) :=
  flat_map (fun f => map (fun t => Item t f) (List.filter (matches s) (topics_for f))) fs.

(** A subscription that never drops: what the raw log uses. *)
Definition lossless (s : Subscription Frame) : Prop := closed s = false /\ policy s = UNBOUNDED.

Lemma offer_lossless t f s s' :
  sub_ok s -> lossless s -> offer t f s = Some s' ->
  queue s' = queue s ++ [Item t f] /\ lossless s' /\ patterns s' = patterns s.
Proof.
  intros [Hwf _] [Hc Hp] E. destruct (offer_spec t f s Hwf) as (s2 & E2 & _ & H1 & H2 & H3 & _ & H).
  rewrite E in E2. injection E2 as <-. rewrite Hc in H. split; [|split; [split; congruence|done]].
  destruct H as [[H _]|[H _]]; [done|congruence].
Qed.

Lemma matches_patterns (s s' : Subscription Frame) t : patterns s' = patterns s -> matches s' t = matches s t.
Proof. intros E. unfold matches, sub_all, sub_exact, sub_prefixes. by rewrite E. Qed.

(** One subscriber's view of a sequence of publications. *)
Definition view (id : nat) (s : Subscription Frame) (new : list (Entry Frame)) (b : Bus Frame) : Prop :=
  exists s', store b !! id = Some s' /\ queue s' = queue s ++ new /\ lossless s'
             /\ patterns s' = patterns s /\ id ∈ subs b.

Lemma publish_view t f id s new b :
  bus_ok b -> view id s new b ->
  exists b', publish t f b = Some b' /\ bus_ok b'
    /\ view id s (new ++ if matches s t then [Item t f] else []) b'.
Proof.
  intros Hok (s1 & Hs1 & Hq & Hl & Hp & Hin).
  destruct (publish_spec t f b Hok) as (b' & E & Hsub & _ & Hst).
  exists b'. split; [done|]. split; [by eapply publish_ok|].
  pose proof (Hst id) as Hid. rewrite Hs1, bool_decide_true in Hid by done. cbn [andb] in Hid.
  rewrite (matches_patterns s s1) in Hid by done. unfold view. rewrite Hsub.
  destruct (matches s t).
  - destruct Hok as (_ & _ & Hall). destruct (Hall id s1 Hs1) as [_ Hok1].
    destruct (offer_spec t f s1 (proj1 Hok1)) as (s2 & E2 & _). rewrite E2 in Hid.
    destruct (offer_lossless t f s1 s2 Hok1 Hl E2) as (H1 & H2 & H3).
    exists s2. rewrite H1, Hq, app_assoc. split_and!; (done || congruence).
  - exists s1. rewrite app_nil_r. done.
Qed.

Lemma publish_topics_view ts f id s new b :
  bus_ok b -> view id s new b ->
  exists b', publish_topics ts f b = Some b' /\ bus_ok b'
    /\ view id s (new ++ map (fun t => Item t f) (List.filter (matches s) ts)) b'.
Proof.
  revert new b. induction ts as [|t ts IH]; intros new b Hok Hv; simpl.
  - exists b. by rewrite app_nil_r.
  - destruct (publish_view t f id s new b Hok Hv) as (b1 & E1 & Hok1 & Hv1). rewrite E1. simpl.
    destruct (IH _ b1 Hok1 Hv1) as (b2 & E2 & Hok2 & Hv2). exists b2. split; [done|]. split; [done|].
    rewrite <- app_assoc in Hv2. by destruct (matches s t).
Qed.

Lemma publish_frames_view fs id s new b :
  bus_ok b -> view id s new b ->
  exists b', publish_frames fs b = Some b' /\ bus_ok b' /\ view id s (new ++ offered s fs) b'.
Proof.
  revert new b. induction fs as [|f fs IH]; intros new b Hok Hv; simpl.
  - exists b. by rewrite app_nil_r.
  - destruct (publish_topics_view (topics_for f) f id s new b Hok Hv) as (b1 & E1 & Hok1 & Hv1).
    rewrite E1. simpl. destruct (IH _ b1 Hok1 Hv1) as (b2 & E2 & Hok2 & Hv2). exists b2.
    split; [done|]. split; [done|]. by rewrite <- app_assoc in Hv2.
Qed.

(** [Router.feed] always completes, counts the bytes, returns the framer's
    frames, and appends to every open unbounded subscription exactly the frames on the topics
    it matches, in stream order and topic order. *)
Theorem router_feed_delivers data r id s :
  bus_ok (bus r) -> store (bus r) !! id = Some s -> id ∈ subs (bus r) -> lossless s ->
  exists b' s', router_feed data r
      = Some (mkRouter b' (split_feed data (framer r)).1 (bytes_in r + len data),
              (split_feed data (framer r)).2)
    /\ bus_ok b' /\ store b' !! id = Some s'
    /\ queue s' = queue s ++ offered s (split_feed data (framer r)).2.
Proof.
  intros Hok Hs Hin Hl. unfold router_feed. destruct (split_feed data (framer r)) as [fr fs].
  destruct (publish_frames_view fs id s [] (bus r) Hok) as (b' & E & Hok' & s' & Hs' & Hq & _).
  { exists s. rewrite app_nil_r. done. }
  exists b', s'. rewrite E. done.
Qed.
End Router.

(** The three framers a [Router] is built with. *)
#[export] Instance framer_splitter : FrameSplitter Framer := framer_feed.
#[export] Instance sbg_splitter : FrameSplitter SbgFramer := sbg_feed.
#[export] Instance vn_splitter : FrameSplitter VnFramer := vn_feed.

Definition witness_bus : Bus Frame := (subscribe [TOPIC_RAW_SBG] 0 UNBOUNDED 2000 new_bus).1.
Definition witness_frame : bytes := match encode 0x10 4 [] with Some r => r | None => [] end.

Lemma router_feed_delivers_witness :
  exists b' s', router_feed (fun f => name_for (raw f)) witness_frame (mkRouter witness_bus new_sbg_framer 0)
      = Some (mkRouter b' (sbg_feed witness_frame new_sbg_framer).1 9, [mkFrame SBG witness_frame])
    /\ store b' !! 0%nat = Some s' /\ queue s' = [Item TOPIC_RAW_SBG (mkFrame SBG witness_frame)].
Proof.
  destruct (router_feed_delivers (fun f => name_for (raw f)) witness_frame (mkRouter witness_bus new_sbg_framer 0)
              0 (new_sub [TOPIC_RAW_SBG] UNBOUNDED 0 2000)) as (b' & s' & H1 & _ & H3 & H4).
  - apply subscribe_ok, new_bus_ok.
  - reflexivity.
  - left.
  - split; reflexivity.
  - exists b', s'. split; [exact H1|]. split; [exact H3|]. rewrite H4. vm_compute. reflexivity.
Defined.
