(* ===== verification/Calendar.v ===== *)
(** * UTC date-times ([datetime] of Python's standard library)

    A timezone-aware UTC [datetime] is its number of microseconds since 1970-01-01; the
    proleptic Gregorian calendar, construction with range checks, truncation to the hour, and
    the [strftime] fields the log and RINEX names use. *)

From Stdlib Require Import String.
From S2P Require Import Prelude.
From S2P Require Import PyBytes.

Abbreviation Datetime := Z.
Definition US : Z := 1000000.
Definition HOUR : Z := 3600 * US.
Definition DAY : Z := 24 * HOUR.

Definition is_leap (y : Z) : bool :=
  (y mod 4 =? 0) && (negb (y mod 100 =? 0) || (y mod 400 =? 0)).

Definition days_in_month (y m : Z) : Z :=
  if m =? 2 then (if is_leap y then 29 else 28)
  else if mem_byte m [4; 6; 9; 11] then 30 else 31.

(** Days since 1970-01-01 of a civil date, counted in 400-year eras from 1 March. *)
Definition days_from_civil (y m d : Z) : Z :=
  let y := if m <=? 2 then y - 1 else y in
  let era := y / 400 in
  let yoe := y - era * 400 in
  let doy := (153 * ((m + 9) mod 12) + 2) / 5 + d - 1 in
  let doe := yoe * 365 + yoe / 4 - yoe / 100 + doy in
  era * 146097 + doe - 719468.

(** Its inverse: [(year, month, day)]. *)
Definition civil_from_days (n : Z) : Z * Z * Z :=
  let z := n + 719468 in
  let era := z / 146097 in
  let doe := z - era * 146097 in
  let yoe := (doe - doe / 1460 + doe / 36524 - doe / 146096) / 365 in
  let doy := doe - (365 * yoe + yoe / 4 - yoe / 100) in
  let mp := (5 * doy + 2) / 153 in
  let d := doy - (153 * mp + 2) / 5 + 1 in
  let m := if mp <? 10 then mp + 3 else mp - 9 in
  let y := yoe + era * 400 in
  (if m <=? 2 then y + 1 else y, m, d).

Record Fields := mkFields { year : Z; month : Z; day : Z; hour : Z; minute : Z; second : Z; micro : Z }.

Definition fields (t : Datetime) : Fields :=
  let '(y, m, d) := civil_from_days (t / DAY) in
  let s := t mod DAY in
  mkFields y m d (s / HOUR) (s mod HOUR / (60 * US)) (s mod (60 * US) / US) (s mod US).

(** [datetime(y, m, d, h, mi, s, tzinfo=UTC)]; [None] is its [ValueError]. *)
Definition make_datetime (y m d h mi s : Z) : option Datetime :=
  if (1 <=? y) && (y <=? 9999) && (1 <=? m) && (m <=? 12) && (1 <=? d) && (d <=? days_in_month y m)
     && (0 <=? h) && (h <=? 23) && (0 <=? mi) && (mi <=? 59) && (0 <=? s) && (s <=? 59)
  then Some (days_from_civil y m d * DAY + h * HOUR + mi * (60 * US) + s * US)
  else None.

(** [dt.replace(minute=0, second=0, microsecond=0)]. *)
Definition floor_hour (t : Datetime) : Datetime := t / HOUR * HOUR.

(** [%j]. *)
Definition day_of_year (t : Datetime) : Z :=
  t / DAY - days_from_civil (year (fields t)) 1 1 + 1.

(** [%Y], [%m], [%d], [%H], [%j] for years 1000 to 9999. *)
Definition fmt_Y (t : Datetime) : bytes := fmt_digits 10 4 (year (fields t)).
Definition fmt_m (t : Datetime) : bytes := fmt_digits 10 2 (month (fields t)).
Definition fmt_d (t : Datetime) : bytes := fmt_digits 10 2 (day (fields t)).
Definition fmt_H (t : Datetime) : bytes := fmt_digits 10 2 (hour (fields t)).
Definition fmt_j (t : Datetime) : bytes := fmt_digits 10 3 (day_of_year t).

(** ** The calendar is a bijection on days *)

Section Era.
Context (doe : Z) (Hdoe : 0 <= doe < 146097).
Let yoe := (doe - doe / 1460 + doe / 36524 - doe / 146096) / 365.

Lemma yoe_bounds : 0 <= yoe <= 399.
Proof. unfold yoe. Z.to_euclidean_division_equations. lia. Qed.

Lemma doy_bounds : 0 <= doe - (365 * yoe + yoe / 4 - yoe / 100) <= 365.
Proof. unfold yoe. Z.to_euclidean_division_equations. lia. Qed.

(** The last day of February of a common year ends the March-based year. *)
Lemma doy_common :
  (yoe + 1) mod 4 <> 0 \/ (yoe + 1) mod 100 = 0 /\ yoe + 1 <> 400 ->
  doe - (365 * yoe + yoe / 4 - yoe / 100) <= 364.
Proof.
  unfold yoe. intros [H|[H H']]; Z.to_euclidean_division_equations; lia.
Qed.
End Era.

Lemma civil_month_day n :
  let '(y, m, d) := civil_from_days n in 1 <= m <= 12 /\ 1 <= d <= days_in_month y m.
Proof.
  unfold civil_from_days. set (z := n + 719468). set (era := z / 146097).
  assert (Hd : 0 <= z - era * 146097 < 146097) by (unfold era; Z.to_euclidean_division_equations; lia).
  set (doe := z - era * 146097) in *.
  pose proof (yoe_bounds doe Hd) as Hy. pose proof (doy_bounds doe Hd) as Hdoy.
  pose proof (doy_common doe Hd) as Hc.
  set (yoe := (doe - doe / 1460 + doe / 36524 - doe / 146096) / 365) in *.
  set (doy := doe - (365 * yoe + yoe / 4 - yoe / 100)) in *.
  set (mp := (5 * doy + 2) / 153).
  assert (Hmp : 0 <= mp <= 11) by (unfold mp; Z.to_euclidean_division_equations; lia).
  split; [destruct (mp <? 10) eqn:E; zbool; lia|].
  assert (H30 : doy - (153 * mp + 2) / 5 + 1 <= (if mem_byte (if mp <? 10 then mp + 3 else mp - 9) [4; 6; 9; 11] then 30 else 31)
                /\ 1 <= doy - (153 * mp + 2) / 5 + 1).
  { assert (In mp [0;1;2;3;4;5;6;7;8;9;10;11]) as Hin by (simpl; lia).
    clearbody doy. subst mp. remember ((5 * doy + 2) / 153) as mp. simpl in Hin.
    repeat (destruct Hin as [<-|Hin];
      [match goal with |- context [mem_byte ?a ?l] =>
         let v := eval vm_compute in (mem_byte a l) in change (mem_byte a l) with v end;
       cbv iota; Z.to_euclidean_division_equations; lia|]).
    done. }
  split; [lia|]. unfold days_in_month. destruct (_ =? 2) eqn:E2; [|lia]. zbool.
  assert (Hm11 : mp = 11) by (destruct (mp <? 10) eqn:E; zbool; lia).
  rewrite Hm11 in *. cbn [Z.ltb Z.compare Pos.compare Pos.compare_cont Z.sub] in *.
  change ((153 * 11 + 2) / 5) with 337. change (11 - 9 <=? 2) with true.
  destruct (is_leap _) eqn:El; [lia|].
  assert (doy <= 364); [|lia]. apply Hc. unfold is_leap in El. apply andb_false_iff in El.
  replace ((yoe + era * 400 + 1) mod 4) with ((yoe + 1) mod 4) in El by (Z.to_euclidean_division_equations; lia).
  replace ((yoe + era * 400 + 1) mod 100) with ((yoe + 1) mod 100) in El by (Z.to_euclidean_division_equations; lia).
  replace ((yoe + era * 400 + 1) mod 400) with ((yoe + 1) mod 400) in El by (Z.to_euclidean_division_equations; lia).
  destruct El as [El|El]; zbool; [by left|]. right. split; [done|]. intros E. rewrite E in *. done.
Qed.

Lemma days_civil n :
  let '(y, m, d) := civil_from_days n in days_from_civil y m d = n.
Proof.
  unfold civil_from_days, days_from_civil. set (z := n + 719468). set (era := z / 146097).
  assert (Hd : 0 <= z - era * 146097 < 146097) by (unfold era; Z.to_euclidean_division_equations; lia).
  set (doe := z - era * 146097) in *.
  pose proof (yoe_bounds doe Hd) as Hy. pose proof (doy_bounds doe Hd) as Hdoy.
  set (yoe := (doe - doe / 1460 + doe / 36524 - doe / 146096) / 365) in *.
  set (doy := doe - (365 * yoe + yoe / 4 - yoe / 100)) in *.
  set (mp := (5 * doy + 2) / 153).
  assert (Hmp : 0 <= mp <= 11) by (unfold mp; Z.to_euclidean_division_equations; lia).
  set (m := if mp <? 10 then mp + 3 else mp - 9).
  assert (Hm : (m + 9) mod 12 = mp /\ (m <=? 2) = (10 <=? mp)).
  { unfold m. destruct (mp <? 10) eqn:E; zbool.
    - replace (mp + 3 + 9) with (mp + 1 * 12) by lia. rewrite Z_mod_plus_full, Z.mod_small by lia.
      split; [done|]. rewrite (proj2 (Z.leb_gt 10 mp)), (proj2 (Z.leb_gt _ _)) by lia. done.
    - replace (mp - 9 + 9) with mp by lia. rewrite Z.mod_small by lia.
      split; [done|]. rewrite (proj2 (Z.leb_le 10 mp)), (proj2 (Z.leb_le _ _)) by lia. done. }
  destruct Hm as [-> ->].
  replace (if 10 <=? mp then (if 10 <=? mp then yoe + era * 400 + 1 else yoe + era * 400) - 1
           else if 10 <=? mp then yoe + era * 400 + 1 else yoe + era * 400)
    with (yoe + era * 400) by (destruct (10 <=? mp); lia).
  rewrite Z_div_plus_full, (Z.div_small yoe), Z.add_0_l by lia.
  replace (yoe + era * 400 - era * 400) with yoe by lia.
  unfold doy, doe, z. lia.
Qed.

(** Reading back the fields of a whole-hour time. *)
Lemma make_datetime_fields t :
  floor_hour t = t -> 1 <= year (fields t) <= 9999 ->
  make_datetime (year (fields t)) (month (fields t)) (day (fields t)) (hour (fields t)) 0 0 = Some t.
Proof.
  intros Hf. unfold fields. pose proof (civil_month_day (t / DAY)) as Hmd. pose proof (days_civil (t / DAY)) as Hd.
  destruct (civil_from_days (t / DAY)) as [[y m] d]. cbn [year month day hour]. intros Hy.
  assert (Hh : 0 <= t mod DAY / HOUR <= 23 /\ t = t / DAY * DAY + t mod DAY / HOUR * HOUR).
  { unfold floor_hour, DAY, HOUR, US in *. Z.to_euclidean_division_equations; lia. }
  unfold make_datetime. destruct Hmd as [Hm Hdd].
  rewrite !(proj2 (Z.leb_le _ _)) by lia. cbn [andb]. f_equal. rewrite Hd. lia.
Qed.
