(* ===== verification/RawLog.v ===== *)
(** * The hourly raw logger ([rawlog/writer.py])

    [RawLogWriter] as a state machine: frames, ticks, metadata and shutdown change the open
    log, the buffer held before the receiver clock is known, and the files. The disk is part of
    the state: data files by path, sidecars by theirs. Clock readings are arguments. A failing
    system call ([OSError]) is not modelled; a raised exception is: it ends the call with
    the state it had reached. *)

From Stdlib Require Import String.
From stdpp Require Import gmap.
From S2P Require Import Prelude.
From S2P Require Import PyBytes.
From S2P Require Import Framing.
From S2P Require Import Calendar.

Definition PENDING_CAP_BYTES : Z := 8 * 1024 * 1024.
(** Monotonic times and periods in microseconds. *)
Definition SIDECAR_UPDATE : Z := 60 * US.
Definition BACKPRESSURE_REPEAT : Z := 60 * US.

Inductive TimeSource := Receiver | Host.

#[export] Instance TimeSource_eq_dec : EqDecision TimeSource.
Proof. solve_decision. Defined.

(** ** Paths, relative to the log root *)

Definition log_path (station_id : bytes) (hour_utc : Datetime) : bytes :=
  str "ubx/" ++ fmt_Y hour_utc ++ str "/" ++ fmt_j hour_utc ++ str "/"
  ++ station_id ++ str "_" ++ (fmt_Y hour_utc ++ fmt_m hour_utc ++ fmt_d hour_utc)
  ++ str "_" ++ fmt_H hour_utc ++ str ".ubx".

(** [path.with_suffix(suffix)] of a name that has a suffix. *)
Definition with_suffix (p suffix : bytes) : bytes :=
  match rfind_byte 46 p with Some k => take k p ++ suffix | None => p ++ suffix end.
Definition sidecar_path (path : bytes) : bytes := with_suffix path (str ".json").

(** ** Sidecars *)

Record Sidecar := mkSidecar {
  sc_station_id : bytes; sc_role : bytes;
  sc_start_utc : option Datetime; sc_end_utc : option Datetime; sc_hour_utc : option Datetime;
  sc_bytes : Z; sc_msg_counts : gmap bytes Z; sc_sha256 : option bytes;
  sc_firmware : bytes; sc_site : option bytes; sc_keep : bool;
  sc_time_source : TimeSource; sc_complete : bool; sc_recovered : bool;
  sc_end_unknown : bool
}.

(** What a sidecar file holds: [Sidecar.dump] wrote it, or [Sidecar.load] raises on it. *)
Inductive SidecarFile := Readable (sc : Sidecar) | Unreadable.

(** [a or b] on strings. *)
Definition str_or (a b : bytes) : bytes := match a with [] => b | _ => a end.
Definition site_or (a b : option bytes) : option bytes :=
  match a with None | Some [] => b | _ => a end.
Definition utc_or (a b : option Datetime) : option Datetime := match a with None => b | _ => a end.

(** [counts[identity] = counts.get(identity, 0) + n]. *)
Definition add_count (n : Z) (identity : bytes) (m : gmap bytes Z) : gmap bytes Z :=
  <[identity := default 0 (m !! identity) + n]> m.

Record Disk := mkDisk { files : gmap bytes bytes; sidecars : gmap bytes SidecarFile }.

(** [_OpenLog]: [ol_hashed] is what the running hash has been fed. *)
Record OpenLog := mkOpen { ol_path : bytes; ol_hour : Datetime; ol_sidecar : Sidecar; ol_hashed : bytes }.

Definition file_at (d : Disk) (p : bytes) : bytes := default [] (files d !! p).

(** [_carry_over]. *)
Definition carry_over (d : Disk) (sc_path : bytes) (sc : Sidecar) : Sidecar :=
  match sidecars d !! sc_path with
  | Some (Readable prev) =>
      mkSidecar (sc_station_id sc) (sc_role sc) (utc_or (sc_start_utc prev) (sc_start_utc sc))
        (sc_end_utc sc) (sc_hour_utc sc) (sc_bytes sc) (sc_msg_counts prev) (sc_sha256 sc)
        (str_or (sc_firmware sc) (sc_firmware prev)) (site_or (sc_site sc) (sc_site prev))
        (sc_keep prev || sc_keep sc) (sc_time_source prev) (sc_complete sc) true (sc_end_unknown sc)
  | _ =>
      mkSidecar (sc_station_id sc) (sc_role sc) (sc_start_utc sc) (sc_end_utc sc) (sc_hour_utc sc)
        (sc_bytes sc) (sc_msg_counts sc) (sc_sha256 sc) (sc_firmware sc) (sc_site sc) (sc_keep sc)
        (sc_time_source sc) (sc_complete sc) true (sc_end_unknown sc)
  end.

Definition set_bytes (n : Z) (sc : Sidecar) : Sidecar :=
  mkSidecar (sc_station_id sc) (sc_role sc) (sc_start_utc sc) (sc_end_utc sc) (sc_hour_utc sc) n
    (sc_msg_counts sc) (sc_sha256 sc) (sc_firmware sc) (sc_site sc) (sc_keep sc)
    (sc_time_source sc) (sc_complete sc) (sc_recovered sc) (sc_end_unknown sc).
Definition set_msg_counts (m : gmap bytes Z) (sc : Sidecar) : Sidecar :=
  mkSidecar (sc_station_id sc) (sc_role sc) (sc_start_utc sc) (sc_end_utc sc) (sc_hour_utc sc)
    (sc_bytes sc) m (sc_sha256 sc) (sc_firmware sc) (sc_site sc) (sc_keep sc)
    (sc_time_source sc) (sc_complete sc) (sc_recovered sc) (sc_end_unknown sc).
Definition set_sc_firmware (v : bytes) (sc : Sidecar) : Sidecar :=
  mkSidecar (sc_station_id sc) (sc_role sc) (sc_start_utc sc) (sc_end_utc sc) (sc_hour_utc sc)
    (sc_bytes sc) (sc_msg_counts sc) (sc_sha256 sc) v (sc_site sc) (sc_keep sc)
    (sc_time_source sc) (sc_complete sc) (sc_recovered sc) (sc_end_unknown sc).
Definition set_sc_site (v : option bytes) (sc : Sidecar) : Sidecar :=
  mkSidecar (sc_station_id sc) (sc_role sc) (sc_start_utc sc) (sc_end_utc sc) (sc_hour_utc sc)
    (sc_bytes sc) (sc_msg_counts sc) (sc_sha256 sc) (sc_firmware sc) v (sc_keep sc)
    (sc_time_source sc) (sc_complete sc) (sc_recovered sc) (sc_end_unknown sc).
Definition set_sc_keep (v : bool) (sc : Sidecar) : Sidecar :=
  mkSidecar (sc_station_id sc) (sc_role sc) (sc_start_utc sc) (sc_end_utc sc) (sc_hour_utc sc)
    (sc_bytes sc) (sc_msg_counts sc) (sc_sha256 sc) (sc_firmware sc) (sc_site sc) v
    (sc_time_source sc) (sc_complete sc) (sc_recovered sc) (sc_end_unknown sc).
Definition finalize (end_utc : option Datetime) (sha : bytes) (sc : Sidecar) : Sidecar :=
  mkSidecar (sc_station_id sc) (sc_role sc) (sc_start_utc sc) end_utc (sc_hour_utc sc)
    (sc_bytes sc) (sc_msg_counts sc) (Some sha) (sc_firmware sc) (sc_site sc) (sc_keep sc)
    (sc_time_source sc) true (sc_recovered sc) (sc_end_unknown sc).

(** [_OpenLog.__init__]: append to what the path already holds; [open("ab")] creates the file. *)
Definition open_log (path : bytes) (hour : Datetime) (sc : Sidecar) (d : Disk) : OpenLog * Disk :=
  let old := file_at d path in
  let ol :=
    match old with
    | [] => mkOpen path hour sc []
    | _ => mkOpen path hour (carry_over d (sidecar_path path) (set_bytes (len old) sc)) old
    end in
  (ol, mkDisk (<[path := old]> (files d)) (sidecars d)).

(** [write_bulk]; [write] is the case of one frame. *)
Definition write_bulk (raw : bytes) (counts : gmap bytes Z -> gmap bytes Z) (ol : OpenLog) (d : Disk)
  : OpenLog * Disk :=
  let sc := ol_sidecar ol in
  (mkOpen (ol_path ol) (ol_hour ol)
     (set_msg_counts (counts (sc_msg_counts sc)) (set_bytes (sc_bytes sc + len raw) sc))
     (ol_hashed ol ++ raw),
   mkDisk (<[ol_path ol := file_at d (ol_path ol) ++ raw]> (files d)) (sidecars d)).

Definition write (raw identity : bytes) (ol : OpenLog) (d : Disk) : OpenLog * Disk :=
  write_bulk raw (add_count 1 identity) ol d.

(** [for identity, count in counts.items()]. *)
Definition add_counts (new m : gmap bytes Z) : gmap bytes Z :=
  map_fold (fun identity count m => add_count count identity m) m new.

Definition dump_sidecar (ol : OpenLog) (d : Disk) : Disk :=
  mkDisk (files d) (<[sidecar_path (ol_path ol) := Readable (ol_sidecar ol)]> (sidecars d)).

Inductive Event :=
| Rotated (path : bytes) | ClosedLog (path : bytes)
| Backpressure (queued : Z) | Drained (queued : Z) | ErrorEvent.

(** ** The writer *)

(** The clock fields: [_utc], [_utc_mono], [_closed_hour], [_frozen_utc], [_time_source],
    [_clamped_second]. *)
Record Clock := mkClock {
  utc : option Datetime; utc_mono : Z; closed_hour : option Datetime;
  frozen_utc : option Datetime; time_source : TimeSource; clamped_second : bool
}.

Record Writer := mkWriter {
  current : option OpenLog; disk : Disk;
  pending : bytes; pending_counts : gmap bytes Z;
  clock : Clock;
  firmware : bytes; site : option bytes;
  last_sidecar : Z;
  backpressure_active : bool; backpressure_last : Z;
  events : list Event
}.

Definition with_log (c : option OpenLog) (d : Disk) (w : Writer) : Writer :=
  mkWriter c d (pending w) (pending_counts w) (clock w) (firmware w) (site w)
    (last_sidecar w) (backpressure_active w) (backpressure_last w) (events w).
Definition with_pending (p : bytes) (m : gmap bytes Z) (w : Writer) : Writer :=
  mkWriter (current w) (disk w) p m (clock w) (firmware w) (site w)
    (last_sidecar w) (backpressure_active w) (backpressure_last w) (events w).
Definition with_clock (c : Clock) (w : Writer) : Writer :=
  mkWriter (current w) (disk w) (pending w) (pending_counts w) c (firmware w) (site w)
    (last_sidecar w) (backpressure_active w) (backpressure_last w) (events w).
Definition with_pressure (b : bool) (t : Z) (w : Writer) : Writer :=
  mkWriter (current w) (disk w) (pending w) (pending_counts w) (clock w) (firmware w) (site w)
    (last_sidecar w) b t (events w).
Definition with_last_sidecar (t : Z) (w : Writer) : Writer :=
  mkWriter (current w) (disk w) (pending w) (pending_counts w) (clock w) (firmware w) (site w)
    t (backpressure_active w) (backpressure_last w) (events w).
Definition with_meta (f : bytes) (s : option bytes) (w : Writer) : Writer :=
  mkWriter (current w) (disk w) (pending w) (pending_counts w) (clock w) f s
    (last_sidecar w) (backpressure_active w) (backpressure_last w) (events w).
Definition publish (e : Event) (w : Writer) : Writer :=
  mkWriter (current w) (disk w) (pending w) (pending_counts w) (clock w) (firmware w) (site w)
    (last_sidecar w) (backpressure_active w) (backpressure_last w) (events w ++ [e]).

Record NavPvt := mkPvt {
  validDate : bool; validTime : bool;
  pvt_year : Z; pvt_month : Z; pvt_day : Z; pvt_hour : Z; pvt_min : Z; pvt_second : Z
}.

(** A call either returns or raises, leaving the state it had reached. *)
Inductive Outcome := Returned (w : Writer) | Raised (w : Writer).
Definition state_of (o : Outcome) : Writer := match o with Returned w | Raised w => w end.

Section Writer.
(** [Frame.identity] and [Frame.parsed] (the message tables of third-party packages;
    [None] is an exception), the hash, and the constructor's arguments. *)
Context (identity : Frame -> bytes) (parsed : Frame -> option NavPvt) (sha256 : bytes -> bytes).
Context (station_id role : bytes) (messages : list bytes).

(** [RawLogWriter.__init__] at monotonic time [mono] over an existing directory. *)
Definition new_writer (fw : bytes) (st : option bytes) (mono : Z) (d : Disk) : Writer :=
  mkWriter None d [] ∅ (mkClock None 0 None None Receiver false) fw st mono false 0 [].

(** The [firmware] and [site] setters, and [set_keep]. *)
Definition set_firmware (v : bytes) (w : Writer) : Writer :=
  let w := with_meta v (site w) w in
  match current w with
  | Some ol => with_log (Some (mkOpen (ol_path ol) (ol_hour ol) (set_sc_firmware v (ol_sidecar ol)) (ol_hashed ol))) (disk w) w
  | None => w
  end.
Definition set_site (v : option bytes) (w : Writer) : Writer :=
  let w := with_meta (firmware w) v w in
  match current w with
  | Some ol => with_log (Some (mkOpen (ol_path ol) (ol_hour ol) (set_sc_site v (ol_sidecar ol)) (ol_hashed ol))) (disk w) w
  | None => w
  end.
Definition set_keep (keep : bool) (w : Writer) : Writer :=
  match current w with
  | None => w
  | Some ol =>
      let ol := mkOpen (ol_path ol) (ol_hour ol) (set_sc_keep keep (ol_sidecar ol)) (ol_hashed ol) in
      with_log (Some ol) (dump_sidecar ol (disk w)) w
  end.

(** [_close_current]. *)
Definition close_current (w : Writer) : Writer :=
  match current w with
  | None => w
  | Some ol =>
      let ol := mkOpen (ol_path ol) (ol_hour ol)
                  (finalize (utc (clock w)) (sha256 (ol_hashed ol)) (ol_sidecar ol)) (ol_hashed ol) in
      publish (ClosedLog (ol_path ol)) (with_log None (dump_sidecar ol (disk w)) w)
  end.

Definition new_sidecar (hour : Datetime) (w : Writer) : Sidecar :=
  mkSidecar station_id role (utc (clock w)) None (Some hour) 0 ∅ None (firmware w) (site w) false
    (time_source (clock w)) false false false.

(** [_rotate]. *)
Definition rotate (hour : Datetime) (w : Writer) : Writer :=
  let w := close_current w in
  let path := log_path station_id hour in
  let '(ol, d) := open_log path hour (new_sidecar hour w) (disk w) in
  let '(ol, d) := match pending w with
                  | [] => (ol, d)
                  | _ => write_bulk (pending w) (add_counts (pending_counts w)) ol d
                  end in
  let w := match pending w with [] => w | _ => with_pending [] ∅ w end in
  publish (Rotated path) (with_log (Some ol) (dump_sidecar ol d) w).

(** [_clamp_second]: the second, and the flag it may set. *)
Definition clamp_second (second : Z) (w : Writer) : Z * Writer :=
  if (0 <=? second) && (second <=? 59) then (second, w)
  else
    let c := clock w in
    (Z.min (Z.max second 0) 59,
     with_clock (mkClock (utc c) (utc_mono c) (closed_hour c) (frozen_utc c) (time_source c) true) w).

(** [note_utc] of a UTC reading at monotonic time [mono]. *)
Definition note_utc (dt : Datetime) (mono : Z) (w : Writer) : Writer :=
  let c := clock w in
  let lifted := match frozen_utc c with Some f => negb (dt =? f) | None => false end in
  with_clock (mkClock (Some dt) mono (if lifted then None else closed_hour c)
                (if lifted then None else frozen_utc c) Receiver (clamped_second c)) w.

(** [_update_time]. *)
Definition update_time (f : Frame) (mono : Z) (w : Writer) : Outcome :=
  match parsed f with
  | None => Raised w
  | Some m =>
      if validDate m && validTime m then
        let '(second, w) := clamp_second (pvt_second m) w in
        match make_datetime (pvt_year m) (pvt_month m) (pvt_day m) (pvt_hour m) (pvt_min m) second with
        | None => Raised w
        | Some dt => Returned (note_utc dt mono w)
        end
      else Returned w
  end.

(** [_buffer_pending] at host time [now]. *)
Definition buffer_pending (raw id : bytes) (now mono : Z) (w : Writer) : Writer :=
  let w := with_pending (pending w ++ raw) (add_count 1 id (pending_counts w)) w in
  if PENDING_CAP_BYTES <? len (pending w) then
    let c := clock w in
    let w := with_clock (mkClock (Some now) mono (closed_hour c) (frozen_utc c) Host (clamped_second c)) w in
    rotate (floor_hour now) w
  else w.

Definition target_hour (c : Clock) (now_utc : Datetime) : Datetime :=
  let hour := floor_hour now_utc in
  match closed_hour c with
  | Some closed => if hour <=? closed then closed + HOUR else hour
  | None => hour
  end.

(** [handle] after the clock has been updated. *)
Definition log_frame (f : Frame) (now mono : Z) (w : Writer) : Writer :=
  let id := identity f in
  if negb (bool_decide (id ∈ messages)) then w
  else match utc (clock w) with
       | None => buffer_pending (raw f) id now mono w
       | Some u =>
           let hour := target_hour (clock w) u in
           let w := match current w with
                    | Some ol => if ol_hour ol =? hour then w else rotate hour w
                    | None => rotate hour w
                    end in
           match current w with
           | Some ol => let '(ol, d) := write (raw f) id ol (disk w) in with_log (Some ol) d w
           | None => w
           end
       end.

(** [handle] at host time [now] and monotonic time [mono]. *)
Definition handle (f : Frame) (now mono : Z) (w : Writer) : Outcome :=
  if negb (bool_decide (proto f = UBX)) then Returned w
  else
    match (if bool_decide (identity f = str "NAV-PVT") then update_time f mono w else Returned w) with
    | Raised w => Raised w
    | Returned w => Returned (log_frame f now mono w)
    end.

(** [_close_elapsed_hour]. *)
Definition close_elapsed_hour (now_mono : Z) (w : Writer) : Writer :=
  match current w, utc (clock w) with
  | Some ol, Some u =>
      let elapsed := now_mono - utc_mono (clock w) in
      if elapsed <=? 0 then w
      else if u + elapsed <? ol_hour ol + HOUR then w
      else
        let closed := ol_hour ol in
        let w := close_current w in
        let c := clock w in
        with_clock (mkClock (Some (u + elapsed)) now_mono (Some closed)
                      (match frozen_utc c with None => Some u | f => f end)
                      (time_source c) (clamped_second c)) w
  | _, _ => w
  end.

(** [tick]. *)
Definition tick (now_mono : Z) (w : Writer) : Writer :=
  match current w with
  | None => w
  | Some _ =>
      let w := close_elapsed_hour now_mono w in
      match current w with
      | None => w
      | Some ol =>
          if SIDECAR_UPDATE <=? now_mono - last_sidecar w then
            with_last_sidecar now_mono (with_log (Some ol) (dump_sidecar ol (disk w)) w)
          else w
      end
  end.

(** [_check_pressure] with [queued] frames waiting. *)
Definition check_pressure (queued high_water now : Z) (w : Writer) : Writer :=
  if high_water <=? queued then
    if backpressure_active w && (now - backpressure_last w <? BACKPRESSURE_REPEAT) then w
    else publish (Backpressure queued) (with_pressure true now w)
  else if backpressure_active w && (queued <? high_water / 2) then
    publish (Drained queued) (with_pressure false (backpressure_last w) w)
  else w.

(** One turn of [run]: a failing [handle] is reported, never fatal. *)
Definition run_turn (f : Frame) (now mono queued high_water : Z) (w : Writer) : Writer :=
  let w := match handle f now mono w with
           | Returned w => w
           | Raised w => publish ErrorEvent w
           end in
  check_pressure queued high_water mono w.

(** The end of [run]. *)
Definition run_end (queued : Z) (w : Writer) : Writer :=
  let w := if backpressure_active w
           then publish (Drained queued) (with_pressure false (backpressure_last w) w) else w in
  close_current w.
End Writer.

(** [recover_incomplete] on the sidecar paths the directory scan lists, with the paths of the
    recovered data files. *)
Section Recover.
Context (sha256 : bytes -> bytes).

Definition recover_one (sc_path : bytes) (d : Disk) : Disk * list bytes :=
  match sidecars d !! sc_path with
  | Some (Readable sc) =>
      if sc_complete sc then (d, [])
      else
        let data := with_suffix sc_path (str ".ubx") in
        match files d !! data with
        | None => (mkDisk (files d) (delete sc_path (sidecars d)), [])
        | Some content =>
            let sc := mkSidecar (sc_station_id sc) (sc_role sc) (sc_start_utc sc) None (sc_hour_utc sc)
                        (len content) (sc_msg_counts sc) (Some (sha256 content)) (sc_firmware sc)
                        (sc_site sc) (sc_keep sc) (sc_time_source sc) true true true in
            (mkDisk (files d) (<[sc_path := Readable sc]> (sidecars d)), [data])
        end
  | _ => (d, [])
  end.

Fixpoint recover_incomplete (sc_paths : list bytes) (d : Disk) : Disk * list bytes :=
  match sc_paths with
  | [] => (d, [])
  | p :: ps =>
      let '(d1, r1) := recover_one p d in
      let '(d2, r2) := recover_incomplete ps d1 in (d2, r1 ++ r2)
  end.
End Recover.

(** ** Paths *)

Definition log_name (p : bytes) : Prop := exists x, p = x ++ str ".ubx".

Lemma sidecar_path_log x : sidecar_path (x ++ str ".ubx") = x ++ str ".json".
Proof.
  unfold sidecar_path, with_suffix. change (str ".ubx") with (46 :: str "ubx").
  rewrite rfind_byte_app by done. by rewrite take_app_length.
Qed.

Lemma sidecar_path_inj p q : log_name p -> log_name q -> sidecar_path p = sidecar_path q -> p = q.
Proof.
  intros [x ->] [y ->]. rewrite !sidecar_path_log. intros H. apply (f_equal (fun l => take (length l - 5) l)) in H.
  rewrite !length_app in H. cbn [length str list_ascii_of_string map] in H.
  rewrite !Nat.add_sub, !take_app_length in H. by subst.
Qed.

Lemma log_path_name station h : log_name (log_path station h).
Proof. unfold log_path, log_name. eexists. rewrite !app_assoc. reflexivity. Qed.

(** ** The invariant: complete sidecars describe their files *)

Section Invariant.
Context (identity : Frame -> bytes) (parsed : Frame -> option NavPvt) (sha256 : bytes -> bytes).
Context (station_id role : bytes) (messages : list bytes).

Abbreviation close_current := (close_current sha256).
Abbreviation rotate := (rotate sha256 station_id role).
Abbreviation log_frame := (log_frame identity sha256 station_id role messages).
Abbreviation handle := (handle identity parsed sha256 station_id role messages).
Abbreviation tick := (tick sha256).

Definition describes (content : bytes) (sc : Sidecar) : Prop :=
  sc_complete sc = true -> sc_bytes sc = len content /\ sc_sha256 sc = Some (sha256 content).

Definition disk_ok (d : Disk) : Prop :=
  (forall p, is_Some (files d !! p) -> log_name p)
  /\ forall p content sc, files d !! p = Some content ->
       sidecars d !! sidecar_path p = Some (Readable sc) -> describes content sc.

Definition open_ok (d : Disk) (ol : OpenLog) : Prop :=
  ol_path ol = log_path station_id (ol_hour ol)
  /\ files d !! ol_path ol = Some (ol_hashed ol)
  /\ sc_bytes (ol_sidecar ol) = len (ol_hashed ol) /\ sc_complete (ol_sidecar ol) = false
  /\ exists sc, sidecars d !! sidecar_path (ol_path ol) = Some (Readable sc) /\ sc_complete sc = false.

Definition writer_ok (w : Writer) : Prop :=
  disk_ok (disk w) /\ forall ol, current w = Some ol -> open_ok (disk w) ol.

(** Writing the file and the sidecar of one log path keeps the rest of the disk described. *)
Lemma disk_ok_update d path content sc :
  disk_ok d -> log_name path -> describes content sc ->
  disk_ok (mkDisk (<[path := content]> (files d)) (<[sidecar_path path := Readable sc]> (sidecars d))).
Proof.
  intros [Hn Hd] Hp Hc. split; cbn [files sidecars].
  - intros p [c Hl]. destruct (decide (p = path)) as [->|Hne]; [done|].
    rewrite lookup_insert_ne in Hl by done. apply Hn. eauto.
  - intros p c s Hl Hs. destruct (decide (p = path)) as [->|Hne].
    + rewrite lookup_insert_eq in Hl. rewrite lookup_insert_eq in Hs. by injection Hl as <-; injection Hs as <-.
    + rewrite lookup_insert_ne in Hl by done.
      rewrite lookup_insert_ne in Hs; [by eapply Hd|].
      intros E. apply Hne. symmetry. apply sidecar_path_inj; [done|apply Hn; eauto|done].
Qed.

Lemma dump_ok d ol :
  disk_ok d -> files d !! ol_path ol = Some (ol_hashed ol) -> log_name (ol_path ol) ->
  describes (ol_hashed ol) (ol_sidecar ol) -> disk_ok (dump_sidecar ol d).
Proof.
  intros Hd Hf Hn Hs. unfold dump_sidecar. rewrite <- (insert_id (files d) _ _ Hf). by apply disk_ok_update.
Qed.

Lemma open_ok_describes d ol : open_ok d ol -> describes (ol_hashed ol) (ol_sidecar ol).
Proof. intros (_ & _ & _ & Hc & _). by unfold describes; rewrite Hc. Qed.

Lemma open_ok_name d ol : open_ok d ol -> log_name (ol_path ol).
Proof. intros (-> & _). apply log_path_name. Qed.

(** The open log stays well-formed when only its sidecar's metadata changes and it is dumped. *)
Lemma dump_open_ok d ol : open_ok d ol -> open_ok (dump_sidecar ol d) ol.
Proof.
  intros (H1 & H2 & H3 & H4 & _). split_and!; try done. exists (ol_sidecar ol).
  cbn [dump_sidecar sidecars]. by rewrite lookup_insert_eq.
Qed.

Lemma close_current_ok w : writer_ok w -> writer_ok (close_current w) /\ current (close_current w) = None.
Proof.
  intros [Hd Ho]. unfold RawLog.close_current. destruct (current w) as [ol|] eqn:E; [|by split; [split; [|rewrite E]|]].
  destruct (Ho ol eq_refl) as (H1 & H2 & H3 & H4 & H5). split; [|done]. split; [|done].
  cbn [disk publish with_log]. apply dump_ok; cbn [ol_path ol_hashed ol_sidecar]; try done.
  rewrite H1. apply log_path_name.
Qed.

Lemma open_log_spec path hour sc d :
  sc_bytes sc = 0 -> sc_complete sc = false ->
  let '(ol, d') := open_log path hour sc d in
  ol_path ol = path /\ ol_hour ol = hour /\ ol_hashed ol = file_at d path
  /\ sc_bytes (ol_sidecar ol) = len (file_at d path) /\ sc_complete (ol_sidecar ol) = false
  /\ d' = mkDisk (<[path := file_at d path]> (files d)) (sidecars d).
Proof.
  intros Hb Hc. unfold open_log, file_at. destruct (default [] (files d !! path)) as [|b r] eqn:E.
  - by split_and!.
  - cbn [ol_path ol_hour ol_hashed ol_sidecar]. unfold carry_over.
    destruct (sidecars d !! sidecar_path path) as [[prev|]|]; cbn; by split_and!.
Qed.

(** What a log holds once opened at [hour], with the pending bytes written. *)
Lemma rotate_spec hour w :
  let w1 := close_current w in
  let content := file_at (disk w1) (log_path station_id hour) ++ pending w in
  exists ol, current (rotate hour w) = Some ol /\ ol_path ol = log_path station_id hour
  /\ ol_hour ol = hour /\ ol_hashed ol = content
  /\ sc_bytes (ol_sidecar ol) = len content /\ sc_complete (ol_sidecar ol) = false
  /\ disk (rotate hour w)
     = mkDisk (<[log_path station_id hour := content]> (files (disk w1)))
         (<[sidecar_path (log_path station_id hour) := Readable (ol_sidecar ol)]> (sidecars (disk w1)))
  /\ pending (rotate hour w) = [] /\ clock (rotate hour w) = clock w
  /\ firmware (rotate hour w) = firmware w /\ site (rotate hour w) = site w.
Proof.
  intros w1 content. unfold RawLog.rotate. fold w1.
  set (path := log_path station_id hour) in *. set (sc := new_sidecar station_id role hour w1).
  pose proof (open_log_spec path hour sc (disk w1) eq_refl eq_refl) as Hs.
  destruct (open_log path hour sc (disk w1)) as [ol d]. destruct Hs as (Hp & Hh & Hc & Hb & Hk & Hd).
  assert (Hw1 : pending w1 = pending w /\ clock w1 = clock w /\ firmware w1 = firmware w /\ site w1 = site w).
  { subst w1. unfold RawLog.close_current. destruct (current w); done. }
  destruct Hw1 as (E1 & E2 & E3 & E4). rewrite E1. destruct (pending w) as [|b r] eqn:Ep.
  - exists ol. subst content. rewrite app_nil_r. cbn [current disk pending clock firmware site publish with_log].
    split_and!; try done. unfold dump_sidecar. rewrite Hd, Hp. done.
  - cbn [write_bulk]. eexists. cbn [current disk pending clock firmware site publish with_log with_pending ol_path ol_hour ol_hashed ol_sidecar].
    split; [reflexivity|]. cbn [ol_path ol_hour ol_hashed ol_sidecar sc_bytes sc_complete set_msg_counts set_bytes].
    subst content. rewrite Hc. split_and!; try done.
    + rewrite Hb, length_app. cbn [length]. lia.
    + unfold dump_sidecar. cbn [files sidecars ol_path ol_sidecar]. rewrite Hp, Hd. cbn [files sidecars].
      f_equal. rewrite insert_insert_eq. f_equal. unfold file_at. cbn [files]. by rewrite lookup_insert_eq.
Qed.

Lemma rotate_ok hour w : writer_ok w -> writer_ok (rotate hour w).
Proof.
  intros Hw. destruct (close_current_ok w Hw) as [[Hd1 _] _].
  destruct (rotate_spec hour w) as (ol & E & Hp & Hh & Hc & Hb & Hk & Hd & _). split.
  - rewrite Hd. apply disk_ok_update; [done|apply log_path_name|]. unfold describes. by rewrite Hk.
  - intros ol'. rewrite E. intros [= <-]. unfold open_ok. rewrite Hd, Hp, Hh, Hc, Hb. cbn [files sidecars].
    rewrite !lookup_insert_eq. split_and!; try done. eauto.
Qed.

Lemma write_ok raw id ol w :
  writer_ok w -> current w = Some ol ->
  let '(ol', d) := write raw id ol (disk w) in writer_ok (with_log (Some ol') d w).
Proof.
  intros [Hd Ho] E. destruct (Ho ol E) as (H1 & H2 & H3 & H4 & sc & H5 & H6).
  unfold write, write_bulk. split; cbn [with_log disk current].
  - destruct Hd as [Hn Hds]. split; cbn [files sidecars].
    + intros p [c Hl]. destruct (decide (p = ol_path ol)) as [->|]; [rewrite H1; apply log_path_name|].
      rewrite lookup_insert_ne in Hl by done. apply Hn; eauto.
    + intros p c s Hl Hs. destruct (decide (p = ol_path ol)) as [->|].
      * rewrite H5 in Hs. injection Hs as <-. unfold describes. by rewrite H6.
      * rewrite lookup_insert_ne in Hl by done. by eapply Hds.
  - intros ol' [= <-]. unfold open_ok. cbn [files sidecars ol_path ol_hour ol_hashed ol_sidecar].
    rewrite lookup_insert_eq. unfold file_at. rewrite H2. cbn [default]. split_and!; try done; eauto.
    cbn. rewrite H3, length_app. lia.
Qed.

Lemma same_log_ok w w' :
  disk w' = disk w -> current w' = current w -> writer_ok w -> writer_ok w'.
Proof. intros Ed Ec [Hd Ho]. split; rewrite Ed; [done|]. by rewrite Ec. Qed.

Lemma log_frame_ok f now mono w : writer_ok w -> writer_ok (log_frame f now mono w).
Proof.
  intros Hw. unfold RawLog.log_frame. destruct (negb _); [done|].
  destruct (utc (clock w)) as [u|].
  - set (w1 := match current w with Some ol => _ | None => _ end).
    assert (Hw1 : writer_ok w1).
    { subst w1. destruct (current w) as [ol|]; [|by apply rotate_ok].
      destruct (_ =? _); [done|by apply rotate_ok]. }
    destruct (current w1) as [ol|] eqn:E; [|done]. by apply write_ok.
  - unfold buffer_pending. destruct (_ <? _); [apply rotate_ok|]; by eapply same_log_ok.
Qed.

Lemma handle_ok f now mono w : writer_ok w -> writer_ok (state_of (handle f now mono w)).
Proof.
  intros Hw. unfold RawLog.handle. destruct (negb _); [done|].
  assert (Hu : writer_ok (state_of (update_time parsed f mono w))).
  { unfold update_time, clamp_second. destruct (parsed f) as [m|]; [|done].
    destruct (_ && _); [|done]. destruct (_ && _); destruct (make_datetime _ _ _ _ _ _); by eapply same_log_ok. }
  destruct (bool_decide (identity f = _)); [|by apply log_frame_ok].
  destruct (update_time parsed f mono w); [by apply log_frame_ok|done].
Qed.

Lemma tick_ok now_mono w : writer_ok w -> writer_ok (tick now_mono w).
Proof.
  intros Hw. unfold RawLog.tick. destruct (current w) as [ol|] eqn:E; [|done].
  set (w1 := RawLog.close_elapsed_hour _ _ _).
  assert (Hw1 : writer_ok w1).
  { subst w1. unfold close_elapsed_hour. rewrite E. destruct (utc (clock w)); [|done].
    destruct (_ <=? 0); [done|]. destruct (_ <? _); [done|].
    eapply same_log_ok; [reflexivity|reflexivity|]. by apply close_current_ok. }
  destruct (current w1) as [ol1|] eqn:E1; [|done]. destruct (_ <=? _); [|done].
  destruct Hw1 as [Hd Ho]. specialize (Ho ol1 E1). split; cbn.
  - apply dump_ok; [done|apply Ho|by eapply open_ok_name|by eapply open_ok_describes].
  - intros ? [= <-]. by apply dump_open_ok.
Qed.

Lemma meta_ok w ol sc' :
  writer_ok w -> current w = Some ol ->
  sc_bytes sc' = sc_bytes (ol_sidecar ol) -> sc_complete sc' = sc_complete (ol_sidecar ol) ->
  writer_ok (with_log (Some (mkOpen (ol_path ol) (ol_hour ol) sc' (ol_hashed ol))) (disk w) w).
Proof.
  intros [Hd Ho] E Hb Hc. split; [done|]. intros ? [= <-].
  destruct (Ho ol E) as (H1 & H2 & H3 & H4 & H5). unfold open_ok. cbn. rewrite Hb, Hc. by split_and!.
Qed.

Lemma set_firmware_ok v w : writer_ok w -> writer_ok (set_firmware v w).
Proof.
  intros Hw. unfold set_firmware. cbn. destruct (current w) as [ol|] eqn:E; [|by eapply same_log_ok].
  apply (meta_ok (with_meta v (site w) w) ol); [by eapply same_log_ok|done..].
Qed.

Lemma set_site_ok v w : writer_ok w -> writer_ok (set_site v w).
Proof.
  intros Hw. unfold set_site. cbn. destruct (current w) as [ol|] eqn:E; [|by eapply same_log_ok].
  apply (meta_ok (with_meta (firmware w) v w) ol); [by eapply same_log_ok|done..].
Qed.

Lemma set_keep_ok b w : writer_ok w -> writer_ok (set_keep b w).
Proof.
  intros Hw. unfold set_keep. destruct (current w) as [ol|] eqn:E; [|done].
  pose proof (meta_ok w ol (set_sc_keep b (ol_sidecar ol)) Hw E eq_refl eq_refl) as [Hd Ho].
  specialize (Ho _ eq_refl). cbn [disk with_log] in *. split; cbn [disk with_log current].
  - apply dump_ok; [done|apply Ho|by eapply open_ok_name|by eapply open_ok_describes].
  - intros ? [= <-]. by apply dump_open_ok.
Qed.

(** ** Sequences of operations *)

Inductive WOp :=
| OpFrame (f : Frame) (now mono queued high_water : Z)
| OpNoteUtc (dt : Datetime) (mono : Z)
| OpTick (mono : Z)
| OpFirmware (v : bytes) | OpSite (v : option bytes) | OpKeep (b : bool)
| OpEnd (queued : Z).

Definition wstep (o : WOp) (w : Writer) : Writer :=
  match o with
  | OpFrame f now mono queued hw =>
      run_turn identity parsed sha256 station_id role messages f now mono queued hw w
  | OpNoteUtc dt mono => note_utc dt mono w
  | OpTick mono => tick mono w
  | OpFirmware v => set_firmware v w
  | OpSite v => set_site v w
  | OpKeep b => set_keep b w
  | OpEnd queued => run_end sha256 queued w
  end.
Definition wrun (os : list WOp) (w : Writer) : Writer := foldl (fun w o => wstep o w) w os.

(** Operations only publish and keep the pressure flags besides; the log is what matters. *)
Definition same_log (w w' : Writer) : Prop :=
  disk w' = disk w /\ current w' = current w /\ pending w' = pending w /\ clock w' = clock w.

Lemma check_pressure_log q hw now w : same_log w (check_pressure q hw now w).
Proof. unfold check_pressure, same_log. destruct (_ <=? _); [destruct (_ && _)|destruct (_ && _)]; done. Qed.

Lemma run_turn_log f now mono q hw w :
  same_log (state_of (handle f now mono w)) (wstep (OpFrame f now mono q hw) w).
Proof.
  cbn [wstep]. unfold run_turn.
  destruct (handle f now mono w) as [w1|w1]; cbn [state_of].
  - apply check_pressure_log.
  - destruct (check_pressure_log q hw mono (publish ErrorEvent w1)) as (H1 & H2 & H3 & H4). done.
Qed.

Lemma wstep_ok o w : writer_ok w -> writer_ok (wstep o w).
Proof.
  intros Hw. destruct o; cbn [wstep].
  - destruct (run_turn_log f now mono queued high_water w) as (H1 & H2 & _).
    eapply same_log_ok; [exact H1|exact H2|]. by apply handle_ok.
  - by eapply same_log_ok.
  - by apply tick_ok.
  - by apply set_firmware_ok.
  - by apply set_site_ok.
  - by apply set_keep_ok.
  - unfold run_end. apply close_current_ok. destruct (backpressure_active w); [by eapply same_log_ok|done].
Qed.

Lemma wrun_ok os w : writer_ok w -> writer_ok (wrun os w).
Proof. revert w. induction os as [|o os IH]; intros w Hw; [done|]. apply IH. by apply wstep_ok. Qed.

(** C3.  Whatever the frames, clock readings, ticks and edits, at every point of
    a session every complete sidecar of a log gives the size and the hash of its file; while an hour
    is open its sidecar is not complete; and once [run] has ended nothing is open, so the last hour
    is finalised too. *)
Theorem rawlog_sidecars_describe os fw st mono d :
  disk_ok d ->
  let w := wrun os (new_writer fw st mono d) in
  disk_ok (disk w)
  /\ (forall ol, current w = Some ol -> open_ok (disk w) ol)
  /\ (forall q ol, current w = Some ol ->
       let w' := run_end sha256 q w in
       current w' = None /\ disk_ok (disk w')
       /\ exists sc, sidecars (disk w') !! sidecar_path (ol_path ol) = Some (Readable sc)
            /\ sc_complete sc = true /\ sc_end_utc sc = utc (clock w)
            /\ sc_bytes sc = len (file_at (disk w') (ol_path ol))
            /\ sc_sha256 sc = Some (sha256 (file_at (disk w') (ol_path ol)))).
Proof.
  intros Hd w. assert (Hw : writer_ok w) by (apply wrun_ok; by split).
  split; [apply Hw|]. split; [apply Hw|]. intros q ol E w'.
  assert (Hw' : writer_ok w' /\ current w' = None).
  { subst w'. unfold run_end. apply close_current_ok. destruct (backpressure_active w); [by eapply same_log_ok|done]. }
  split; [apply Hw'|]. split; [apply Hw'|]. destruct Hw as [_ Ho].
  destruct (Ho ol E) as (H1 & H2 & H3 & H4 & _).
  exists (finalize (utc (clock w)) (sha256 (ol_hashed ol)) (ol_sidecar ol)).
  assert (Hdisk : disk w' = dump_sidecar (mkOpen (ol_path ol) (ol_hour ol)
            (finalize (utc (clock w)) (sha256 (ol_hashed ol)) (ol_sidecar ol)) (ol_hashed ol)) (disk w)).
  { subst w'. unfold run_end, RawLog.close_current. destruct (backpressure_active w); cbn; by rewrite E. }
  rewrite Hdisk. cbn [dump_sidecar sidecars files ol_path ol_sidecar]. rewrite lookup_insert_eq.
  unfold file_at. cbn [files dump_sidecar]. rewrite H2. cbn. by rewrite H3.
Qed.

(** ** Nothing is lost, duplicated or reordered *)

(** Whether [handle] raises on a frame: only on a NAV-PVT that does not decode to a time. *)
Definition raises (f : Frame) : bool :=
  bool_decide (identity f = str "NAV-PVT") &&
  match parsed f with
  | None => true
  | Some m =>
      validDate m && validTime m &&
      match make_datetime (pvt_year m) (pvt_month m) (pvt_day m) (pvt_hour m) (pvt_min m)
              (Z.min (Z.max (pvt_second m) 0) 59) with None => true | Some _ => false end
  end.

(** The frames the log accepts. *)
Definition accepts (f : Frame) : bool :=
  bool_decide (proto f = UBX) && bool_decide (identity f ∈ messages) && negb (raises f).
Definition accepted_raw (o : WOp) : bytes :=
  match o with OpFrame f _ _ _ _ => if accepts f then raw f else [] | _ => [] end.

(** What the writes appended: [(path, bytes)], in order. *)
Definition routed_to (p : bytes) (r : list (bytes * bytes)) : bytes :=
  flat_map (fun x => if bool_decide (x.1 = p) then x.2 else []) r.

Definition moved (w w' : Writer) (raws : bytes) : Prop :=
  exists r, concat (map snd r) ++ pending w' = pending w ++ raws
            /\ forall p, file_at (disk w') p = file_at (disk w) p ++ routed_to p r.

(** Bytes are held back only while nothing is open, and only before the clock is known. *)
Definition pend_ok (w : Writer) : Prop :=
  (current w <> None -> pending w = []) /\ (utc (clock w) = None -> current w = None).

Lemma moved_refl w w' : pending w' = pending w -> files (disk w') = files (disk w) -> moved w w' [].
Proof.
  intros Hp Hf. exists []. rewrite Hp, app_nil_r. split; [done|].
  intros p. unfold file_at. by rewrite Hf, app_nil_r.
Qed.

Lemma moved_trans w w1 w2 a b : moved w w1 a -> moved w1 w2 b -> moved w w2 (a ++ b).
Proof.
  intros (r1 & H1 & F1) (r2 & H2 & F2). exists (r1 ++ r2). split.
  - by rewrite map_app, concat_app, <- app_assoc, H2, app_assoc, H1, app_assoc.
  - intros p. unfold routed_to in *. by rewrite F2, F1, flat_map_app, app_assoc.
Qed.

Lemma close_current_files w : files (disk (close_current w)) = files (disk w).
Proof. unfold RawLog.close_current. by destruct (current w). Qed.

Lemma rotate_moved hour w : moved w (rotate hour w) [] /\ pending (rotate hour w) = [].
Proof.
  destruct (rotate_spec hour w) as (ol & _ & _ & _ & _ & _ & _ & Hd & Hp & _). split; [|done].
  exists [(log_path station_id hour, pending w)]. rewrite Hp. split; [simpl; by rewrite !app_nil_r|].
  intros p. rewrite Hd. unfold file_at, routed_to. cbn [files flat_map fst snd].
  rewrite close_current_files, app_nil_r. case_bool_decide as E.
  - subst p. by rewrite lookup_insert_eq.
  - by rewrite lookup_insert_ne, app_nil_r by done.
Qed.

Lemma write_moved raw id ol w :
  pending w = [] -> let '(ol', d) := write raw id ol (disk w) in moved w (with_log (Some ol') d w) raw.
Proof.
  intros Hp. unfold write, write_bulk. exists [(ol_path ol, raw)]. cbn. rewrite Hp. split; [by rewrite !app_nil_r|].
  intros p. unfold file_at. cbn [files]. rewrite app_nil_r. case_bool_decide as E.
  - subst p. by rewrite lookup_insert_eq.
  - by rewrite lookup_insert_ne, app_nil_r by done.
Qed.

Lemma log_frame_moved f now mono w :
  pend_ok w ->
  moved w (log_frame f now mono w) (if bool_decide (identity f ∈ messages) then raw f else [])
  /\ pend_ok (log_frame f now mono w).
Proof.
  intros [Hp Hu]. unfold RawLog.log_frame. case_bool_decide as Hm; cbn [negb].
  2: { split; [by apply moved_refl|by split]. }
  destruct (utc (clock w)) as [u|] eqn:Eu.
  - set (w1 := match current w with Some ol => _ | None => _ end).
    assert (H1 : moved w w1 [] /\ pending w1 = [] /\ clock w1 = clock w /\ current w1 <> None).
    { subst w1. destruct (current w) as [ol|] eqn:E; [destruct (_ =? _)|].
      - split_and!; [by apply moved_refl|apply Hp; congruence|done|congruence].
      - destruct (rotate_moved (target_hour (clock w) u) w).
        destruct (rotate_spec (target_hour (clock w) u) w) as (o & Eo & _ & _ & _ & _ & _ & _ & _ & Hc & _).
        split_and!; try done. by rewrite Eo.
      - destruct (rotate_moved (target_hour (clock w) u) w).
        destruct (rotate_spec (target_hour (clock w) u) w) as (o & Eo & _ & _ & _ & _ & _ & _ & _ & Hc & _).
        split_and!; try done. by rewrite Eo. }
    destruct H1 as (Hm1 & Hp1 & Hc1 & Hn1). destruct (current w1) as [ol|] eqn:E1; [|done].
    pose proof (write_moved (raw f) (identity f) ol w1 Hp1) as Hw.
    unfold write, write_bulk in *. split; [apply (moved_trans w w1 _ [] (raw f)); done|].
    split; cbn; [done|]. rewrite Hc1, Eu. done.
  - unfold buffer_pending.
    set (w1 := with_pending _ _ w).
    assert (H1 : moved w w1 (raw f)).
    { exists []. split; [done|]. intros p. by rewrite app_nil_r. }
    destruct (_ <? _).
    + set (w2 := with_clock _ w1). assert (H2 : moved w w2 (raw f)) by done.
      destruct (rotate_moved (floor_hour now) w2) as [H3 H4].
      destruct (rotate_spec (floor_hour now) w2) as (o & Eo & _ & _ & _ & _ & _ & _ & _ & Hc & _).
      split; [rewrite <- (app_nil_r (raw f)); by eapply moved_trans|]. split; [done|]. by rewrite Hc.
    + split; [done|]. split; cbn; rewrite Hu by done; done.
Qed.

Lemma update_time_spec f mono w :
  raises f = (bool_decide (identity f = str "NAV-PVT") &&
              match update_time parsed f mono w with Raised _ => true | Returned _ => false end)
  /\ let w' := state_of (update_time parsed f mono w) in
     current w' = current w /\ disk w' = disk w /\ pending w' = pending w
     /\ (utc (clock w') = None -> utc (clock w) = None).
Proof.
  unfold raises, update_time, clamp_second. destruct (parsed f) as [m|]; [|done].
  destruct (validDate m && validTime m); [|done].
  assert (Hc : Z.min (Z.max (pvt_second m) 0) 59
               = if (0 <=? pvt_second m) && (pvt_second m <=? 59) then pvt_second m
                 else Z.min (Z.max (pvt_second m) 0) 59).
  { destruct (_ && _) eqn:E; [|done]. zbool. lia. }
  rewrite Hc. destruct (_ && _); destruct (make_datetime _ _ _ _ _ _); done.
Qed.

Lemma handle_moved f now mono w :
  pend_ok w ->
  moved w (state_of (handle f now mono w)) (if accepts f then raw f else [])
  /\ pend_ok (state_of (handle f now mono w)).
Proof.
  intros Hw. unfold RawLog.handle, accepts. case_bool_decide as Hp; cbn [negb andb].
  2: { split; [by apply moved_refl|done]. }
  destruct (update_time_spec f mono w) as [Hr (Hc & Hd & Hpe & Hu)]. rewrite Hr.
  destruct (bool_decide (identity f = str "NAV-PVT")) eqn:Ei; cbn [andb negb].
  - assert (Hpu : pend_ok (state_of (update_time parsed f mono w))).
    { destruct Hw as [W1 W2]. split; rewrite ?Hc, ?Hpe; [done|]. auto. }
    assert (Hmu : moved w (state_of (update_time parsed f mono w)) []) by (apply moved_refl; [done|by rewrite Hd]).
    destruct (update_time parsed f mono w) as [w1|w1]; cbn [state_of negb] in *.
    + rewrite andb_true_r. destruct (log_frame_moved f now mono w1 Hpu) as [Hm Hk].
      split; [|done]. by apply (moved_trans w w1 _ []).
    + rewrite andb_false_r. done.
  - rewrite andb_true_r. cbn [state_of]. by apply log_frame_moved.
Qed.

Lemma pend_ok_same w w' :
  pending w' = pending w -> clock w' = clock w -> (current w' <> None <-> current w <> None) ->
  pend_ok w -> pend_ok w'.
Proof.
  intros Hp Hc Hn [H1 H2]. split; rewrite ?Hp, ?Hc; [tauto|]. intros Hu. specialize (H2 Hu).
  destruct (current w'); [|done]. destruct Hn as [Hn _]. by destruct Hn.
Qed.

(** A step that writes no data file. *)
Definition quiet (w w' : Writer) : Prop :=
  pending w' = pending w /\ files (disk w') = files (disk w) /\ clock w' = clock w
  /\ (current w' <> None <-> current w <> None).

Lemma quiet_step w w' : quiet w w' -> pend_ok w -> moved w w' [] /\ pend_ok w'.
Proof. intros (H1 & H2 & H3 & H4) Hw. split; [by apply moved_refl|by apply (pend_ok_same w)]. Qed.

Lemma wstep_moved o w : pend_ok w -> moved w (wstep o w) (accepted_raw o) /\ pend_ok (wstep o w).
Proof.
  intros Hw. destruct o; cbn [accepted_raw].
  - destruct (handle_moved f now mono w Hw) as [Hm Hk].
    destruct (run_turn_log f now mono queued high_water w) as (H1 & H2 & H3 & H4).
    split.
    + rewrite <- (app_nil_r (if accepts f then _ else _)). eapply moved_trans; [exact Hm|].
      apply moved_refl; [done|by rewrite H1].
    + destruct Hk as [K1 K2]. split; rewrite H2, ?H3, ?H4; done.
  - split; [by apply moved_refl|]. by destruct Hw as [W1 W2].
  - assert (Hclose : forall v, moved v (close_current v) [] /\ (pend_ok v -> pending (close_current v) = pending v)).
    { intros v. split; [|unfold RawLog.close_current; by destruct (current v)].
      apply moved_refl; [|apply close_current_files]. unfold RawLog.close_current. by destruct (current v). }
    cbn [wstep]. unfold RawLog.tick. destruct (current w) as [ol|] eqn:E; [|by split; [apply moved_refl|]].
    assert (Ht : moved w (close_elapsed_hour sha256 mono w) [] /\ pend_ok (close_elapsed_hour sha256 mono w)).
    { unfold close_elapsed_hour. rewrite E. destruct (utc (clock w)) as [u|]; [|by split; [apply moved_refl|]].
      destruct (_ <=? 0); [by split; [apply moved_refl|]|]. destruct (_ <? _); [by split; [apply moved_refl|]|].
      split; [apply Hclose|]. split; cbn; [|done]. intros Hne. unfold RawLog.close_current in Hne. by rewrite E in Hne. }
    destruct (current (close_elapsed_hour sha256 mono w)) as [ol1|] eqn:E1; [|done].
    destruct (_ <=? _); [|done]. destruct Ht as [Hm Hk]. split.
    + apply (moved_trans w _ _ [] []) with (1 := Hm). by apply moved_refl.
    + apply (pend_ok_same (close_elapsed_hour sha256 mono w)); [done|done| |exact Hk]. cbn. by rewrite E1.
  - apply quiet_step; [|done]. cbn [wstep]. unfold set_firmware, quiet. cbn.
    destruct (current w) eqn:E; cbn; rewrite ?E; done.
  - apply quiet_step; [|done]. cbn [wstep]. unfold set_site, quiet. cbn.
    destruct (current w) eqn:E; cbn; rewrite ?E; done.
  - apply quiet_step; [|done]. cbn [wstep]. unfold set_keep, quiet.
    destruct (current w) eqn:E; cbn; rewrite ?E; done.
  - cbn [wstep]. unfold run_end. set (w1 := if backpressure_active w then _ else w).
    assert (H1 : same_log w w1) by (subst w1; by destruct (backpressure_active w)).
    destruct H1 as (D1 & C1 & P1 & K1). split.
    + apply moved_refl; [unfold RawLog.close_current; destruct (current w1); cbn; congruence|].
      by rewrite close_current_files, D1.
    + destruct Hw as [W1 W2]. split; unfold RawLog.close_current; destruct (current w1) eqn:E1; cbn; try done.
Qed.

Lemma wrun_moved os w :
  pend_ok w -> moved w (wrun os w) (flat_map accepted_raw os).
Proof.
  revert w. induction os as [|o os IH]; intros w Hw; [by apply moved_refl|].
  destruct (wstep_moved o w Hw) as [Hm Hk]. cbn [flat_map wrun foldl].
  eapply moved_trans; [exact Hm|]. by apply IH.
Qed.

(** Whether the operation is a frame the log accepts. *)
Definition takes (o : WOp) : bool := match o with OpFrame f _ _ _ _ => accepts f | _ => false end.

(** The clock is known and nothing is held back. *)
Definition flushed (w : Writer) : Prop := utc (clock w) <> None /\ pending w = [].

(** A frame logged under a known clock leaves a log open, so nothing is held back. *)
Lemma log_frame_open f now mono w :
  identity f ∈ messages -> utc (clock (log_frame f now mono w)) <> None ->
  current (log_frame f now mono w) <> None.
Proof.
  intros Hm. unfold RawLog.log_frame. rewrite bool_decide_eq_true_2 by done. cbn [negb].
  destruct (utc (clock w)) as [u|] eqn:Eu.
  - set (w1 := match current w with Some ol => _ | None => _ end). intros _.
    assert (Hn : current w1 <> None).
    { subst w1. destruct (current w) as [ol|] eqn:E; [destruct (_ =? _); [congruence|]|];
        destruct (rotate_spec (target_hour (clock w) u) w) as (o & Eo & _); by rewrite Eo. }
    destruct (current w1) as [ol|]; [|done]. by destruct (write _ _ _ _).
  - unfold buffer_pending. destruct (_ <? _); [|by cbn; rewrite Eu]. intros _.
    set (w2 := with_clock _ _). destruct (rotate_spec (floor_hour now) w2) as (o & Eo & _). by rewrite Eo.
Qed.

Lemma log_frame_utc f now mono w :
  utc (clock w) <> None -> clock (log_frame f now mono w) = clock w.
Proof.
  intros Hu. unfold RawLog.log_frame. destruct (bool_decide _); cbn [negb]; [|done].
  destruct (utc (clock w)) as [u|] eqn:Eu; [|done].
  set (w1 := match current w with Some ol => _ | None => _ end).
  assert (Hc : clock w1 = clock w).
  { subst w1. destruct (current w) as [ol|] eqn:E; [destruct (_ =? _); [done|]|];
      by destruct (rotate_spec (target_hour (clock w) u) w) as (o & _ & _ & _ & _ & _ & _ & _ & _ & Hc & _). }
  destruct (current w1) as [ol|]; [|done]. by destruct (write _ _ _ _).
Qed.

Lemma log_frame_flushed f now mono w :
  pend_ok w -> flushed w -> flushed (log_frame f now mono w).
Proof.
  intros Hk [Hu Hp]. pose proof (log_frame_utc f now mono w Hu) as Hc. split; [by rewrite Hc|].
  destruct (log_frame_moved f now mono w Hk) as [_ [K _]].
  destruct (decide (identity f ∈ messages)) as [Hm|Hm].
  - apply K, log_frame_open; [done|by rewrite Hc].
  - unfold RawLog.log_frame. by rewrite bool_decide_eq_false_2.
Qed.

Lemma wstep_takes o w : pend_ok w -> takes o = true -> utc (clock (wstep o w)) <> None -> flushed (wstep o w).
Proof.
  intros Hw Ht Hu. split; [done|]. destruct (wstep_moved o w Hw) as [_ [K _]]. apply K.
  destruct o; try done. cbn [takes] in Ht.
  destruct (run_turn_log f now mono queued high_water w) as (_ & H2 & _ & H4). rewrite H2. rewrite H4 in Hu.
  unfold accepts in Ht. rewrite !andb_true_iff, !bool_decide_eq_true, negb_true_iff in Ht. destruct Ht as [[Hp Hm] Hr].
  revert Hu. unfold RawLog.handle. rewrite bool_decide_eq_true_2 by done. cbn [negb].
  destruct (update_time_spec f mono w) as [Hr' _]. rewrite Hr in Hr'.
  destruct (bool_decide (identity f = _)); [|by apply log_frame_open].
  destruct (update_time parsed f mono w) as [w1|w1]; [by apply log_frame_open|done].
Qed.

Lemma handle_flushed f now mono w :
  pend_ok w -> flushed w -> flushed (state_of (handle f now mono w)).
Proof.
  intros Hk Hf. unfold RawLog.handle. case_bool_decide; cbn [negb]; [|done].
  destruct (update_time_spec f mono w) as [_ (Hc & _ & Hpe & Hu)].
  assert (Hk1 : pend_ok (state_of (update_time parsed f mono w))).
  { destruct Hk as [K1 K2]. split; rewrite ?Hc, ?Hpe; [done|]. auto. }
  assert (Hf1 : flushed (state_of (update_time parsed f mono w))) by (destruct Hf; split; [auto|congruence]).
  destruct (bool_decide (identity f = _)); [|by apply log_frame_flushed].
  destruct (update_time parsed f mono w); [by apply log_frame_flushed|done].
Qed.

Lemma close_current_flushed w : flushed w -> flushed (close_current w).
Proof. unfold RawLog.close_current, flushed. by destruct (current w). Qed.

(** Once the clock is known and the buffer empty, both stay so. *)
Lemma wstep_flushed o w : pend_ok w -> flushed w -> flushed (wstep o w).
Proof.
  intros Hk Hf. destruct o.
  - destruct (run_turn_log f now mono queued high_water w) as (_ & _ & H3 & H4).
    pose proof (handle_flushed f now mono w Hk Hf) as [F1 F2]. split; [by rewrite H4|by rewrite H3].
  - by destruct Hf.
  - cbn [wstep]. unfold RawLog.tick. destruct (current w) as [ol|] eqn:E; [|done].
    assert (Ht : flushed (close_elapsed_hour sha256 mono w)).
    { unfold close_elapsed_hour. rewrite E. destruct (utc (clock w)) as [u|]; [|done].
      destruct (_ <=? 0); [done|]. destruct (_ <? _); [done|].
      destruct (close_current_flushed w Hf). by split. }
    destruct (current (close_elapsed_hour sha256 mono w)); [|done]. by destruct (_ <=? _).
  - cbn [wstep]. unfold set_firmware. cbn. by destruct (current w).
  - cbn [wstep]. unfold set_site. cbn. by destruct (current w).
  - cbn [wstep]. unfold set_keep. by destruct (current w).
  - cbn [wstep]. unfold run_end. apply close_current_flushed. by destruct (backpressure_active w).
Qed.

Lemma wrun_pend_ok os w : pend_ok w -> pend_ok (wrun os w).
Proof. revert w. induction os as [|o os IH]; intros w Hw; [done|]. apply IH. by apply wstep_moved. Qed.

Lemma wrun_flushed os w : pend_ok w -> flushed w -> flushed (wrun os w).
Proof.
  revert w. induction os as [|o os IH]; intros w Hw Hf; [done|].
  apply IH; [by apply wstep_moved|by apply wstep_flushed].
Qed.

(** C2.  Over any session - rotations, clock jumps, quiet hours, resumed files,
    metadata edits - the log files grow by exactly the bytes of the accepted frames, each written
    once and in order, and writes only ever append; what is not written yet is the last stretch
    of them. It is still buffered because the receiver clock is unknown: nothing is held back
    while a log is open, and from the first accepted frame after which the clock is known
    nothing is held back ever again. *)
Theorem rawlog_lossless os fw st mono d :
  let w0 := new_writer fw st mono d in
  let w := wrun os w0 in
  exists r, concat (map snd r) ++ pending w = flat_map accepted_raw os
            /\ (forall p, file_at (disk w) p = file_at d p ++ routed_to p r)
            /\ (current w <> None -> pending w = [])
            /\ (pending w <> [] -> forall a o b, os = a ++ o :: b -> takes o = true ->
                 utc (clock (wrun (a ++ [o]) w0)) = None).
Proof.
  intros w0 w. assert (H0 : pend_ok w0) by done.
  destruct (wrun_moved os _ H0) as (r & H1 & H2).
  exists r. split_and!; [exact H1|exact H2|by apply (wrun_pend_ok os _ H0)|].
  intros Hp a o b -> Ht. destruct (utc (clock (wrun (a ++ [o]) w0))) as [u|] eqn:Eu; [|done].
  destruct Hp. subst w. replace (a ++ o :: b) with ((a ++ [o]) ++ b) by (by rewrite <- app_assoc).
  unfold wrun in *. rewrite foldl_app. rewrite foldl_app in Eu |- *. cbn [foldl] in Eu |- *.
  pose proof (wrun_pend_ok a w0 H0) as Ha. apply (wrun_flushed b).
  - by apply wstep_moved.
  - apply wstep_takes; [done|done|]. unfold wrun. congruence.
Qed.

(** ** An hour closed by the ticker stays closed while the clock repeats itself *)

(** The time a frame sets the clock to. *)
Definition reading (f : Frame) : option Datetime :=
  if bool_decide (proto f = UBX) && bool_decide (identity f = str "NAV-PVT") then
    match parsed f with
    | Some m =>
        if validDate m && validTime m then
          make_datetime (pvt_year m) (pvt_month m) (pvt_day m) (pvt_hour m) (pvt_min m)
            (Z.min (Z.max (pvt_second m) 0) 59)
        else None
    | None => None
    end
  else None.

Definition op_reading (o : WOp) : option Datetime :=
  match o with OpFrame f _ _ _ _ => reading f | OpNoteUtc dt _ => Some dt | _ => None end.

(** No reading other than [u] arrives. *)
Definition repeats (u : Datetime) (o : WOp) : Prop := forall dt, op_reading o = Some dt -> dt = u.

Definition clock_frozen (u h : Datetime) (c : Clock) : Prop :=
  frozen_utc c = Some u /\ (exists k, closed_hour c = Some k /\ h <= k) /\ utc c <> None.
Definition past (u h : Datetime) (w : Writer) : Prop :=
  clock_frozen u h (clock w) /\ forall ol, current w = Some ol -> h < ol_hour ol.

Lemma target_hour_past u h c t : clock_frozen u h c -> h < target_hour c t.
Proof.
  intros (_ & (k & Hk & Hle) & _). unfold target_hour. rewrite Hk. unfold HOUR, US.
  destruct (_ <=? k) eqn:E; zbool; lia.
Qed.

Lemma note_utc_past u h mono w : past u h w -> past u h (note_utc u mono w).
Proof.
  intros [(Hf & Hc & Hu) Ho]. split; [|exact Ho]. unfold note_utc, clock_frozen. cbn.
  rewrite Hf, Z.eqb_refl. cbn. by split_and!.
Qed.

Lemma log_frame_past u h f now mono w : past u h w -> past u h (log_frame f now mono w).
Proof.
  intros [Hc Ho]. unfold RawLog.log_frame. destruct (negb _); [done|].
  pose proof Hc as (_ & _ & Hu). destruct (utc (clock w)) as [t|]; [|done].
  set (w1 := match current w with Some ol => _ | None => _ end).
  assert (H1 : past u h w1).
  { assert (Hr : past u h (rotate (target_hour (clock w) t) w)).
    { destruct (rotate_spec (target_hour (clock w) t) w) as (ol & E & _ & Hh & _ & _ & _ & _ & _ & Hk & _).
      split; [by rewrite Hk|]. intros ol'. rewrite E. intros [= <-]. rewrite Hh. by apply (target_hour_past u). }
    subst w1. destruct (current w) as [ol|] eqn:E; [|exact Hr]. destruct (_ =? _); [|exact Hr].
    split; [done|]. rewrite E. exact Ho. }
  destruct (current w1) as [ol|] eqn:E; [|done]. destruct H1 as [H1 H2]. split; [exact H1|].
  cbn. intros ol' [= <-]. cbn. by apply H2.
Qed.

Lemma clamp_min s w : (clamp_second s w).1 = Z.min (Z.max s 0) 59.
Proof. unfold clamp_second. destruct (_ && _) eqn:E; zbool; simpl; lia. Qed.

Lemma handle_past u h f now mono w :
  (forall dt, reading f = Some dt -> dt = u) -> past u h w ->
  past u h (state_of (handle f now mono w)).
Proof.
  intros Hr Hw. unfold RawLog.handle, reading in *. destruct (bool_decide (proto f = UBX)); [|done].
  cbn [negb andb] in *. destruct (bool_decide (identity f = _)); [|by apply log_frame_past].
  unfold update_time. destruct (parsed f) as [m|]; [|done].
  destruct (validDate m && validTime m); [|by apply log_frame_past].
  rewrite <- (clamp_min _ w) in Hr.
  assert (Hs : past u h (clamp_second (pvt_second m) w).2) by (unfold clamp_second; by destruct (_ && _)).
  destruct (clamp_second (pvt_second m) w) as [s w1]. cbn [fst snd] in *.
  destruct (make_datetime _ _ _ _ _ _) as [dt|]; [|done]. rewrite (Hr dt eq_refl).
  by apply log_frame_past, note_utc_past.
Qed.

Lemma wstep_past u h o w : repeats u o -> past u h w -> past u h (wstep o w).
Proof.
  intros Hr Hw. destruct o; cbn [wstep op_reading] in *.
  - destruct (run_turn_log f now mono queued high_water w) as (_ & H2 & _ & H4).
    cbn [wstep] in *. unfold past. rewrite H2, H4. by apply handle_past.
  - rewrite (Hr dt eq_refl). by apply note_utc_past.
  - destruct Hw as [Hc Ho]. unfold RawLog.tick. destruct (current w) as [ol|] eqn:E; [|by split; rewrite ?E].
    assert (H1 : past u h (close_elapsed_hour sha256 mono w)).
    { unfold close_elapsed_hour. rewrite E. pose proof Hc as (Hf & (k & Hk & Hle) & Hu).
      destruct (utc (clock w)) as [t|]; [|done]. destruct (_ <=? 0); [by split; rewrite ?E|].
      destruct (_ <? _); [by split; rewrite ?E|]. unfold RawLog.close_current. rewrite E. split; cbn; [|done].
      unfold clock_frozen. cbn. rewrite Hf. split; [done|]. split; [|done].
      exists (ol_hour ol). split; [done|]. specialize (Ho ol eq_refl). lia. }
    destruct (current (close_elapsed_hour sha256 mono w)) as [ol1|] eqn:E1; [|done].
    destruct (_ <=? _); [|done]. destruct H1 as [H1 H2]. split; [exact H1|]. cbn. rewrite <- E1. exact H2.
  - destruct Hw as [Hc Ho]. unfold set_firmware. cbn. destruct (current w) as [ol|] eqn:E; split; cbn; try done.
    + intros ol' [= <-]. cbn. by apply Ho.
    + by rewrite E.
  - destruct Hw as [Hc Ho]. unfold set_site. cbn. destruct (current w) as [ol|] eqn:E; split; cbn; try done.
    + intros ol' [= <-]. cbn. by apply Ho.
    + by rewrite E.
  - destruct Hw as [Hc Ho]. unfold set_keep. destruct (current w) as [ol|] eqn:E; split; cbn; try done.
    + intros ol' [= <-]. cbn. by apply Ho.
    + by rewrite E.
  - destruct Hw as [Hc Ho]. unfold run_end, RawLog.close_current.
    destruct (backpressure_active w); cbn; destruct (current w) eqn:E; split; cbn; rewrite ?E; done.
Qed.

(** Once the ticker has closed an hour, it is not reopened for as long as the
    receiver says nothing new - it is quiet, or repeats the reading the hour was closed under - no
    matter how many frames, ticks and edits follow: every log open from then on is of a later hour. *)
Theorem rawlog_closed_hour_stays_closed w mono ol os :
  current w = Some ol -> current (tick mono w) = None ->
  exists u, frozen_utc (clock (tick mono w)) = Some u
    /\ (Forall (repeats u) os ->
        forall ol', current (wrun os (tick mono w)) = Some ol' -> ol_hour ol < ol_hour ol').
Proof.
  intros E Hn.
  assert (Hp : exists u, past u (ol_hour ol) (tick mono w)).
  { unfold RawLog.tick in *. rewrite E in *.
    assert (H1 : current (close_elapsed_hour sha256 mono w) = None).
    { destruct (current (close_elapsed_hour sha256 mono w)) as [o|] eqn:E1; [|done].
      destruct (_ <=? _); [done|congruence]. }
    rewrite H1. unfold close_elapsed_hour in *. rewrite E in *.
    destruct (utc (clock w)) as [t|] eqn:Et; [|congruence]. destruct (_ <=? 0); [congruence|].
    destruct (_ <? _); [congruence|]. unfold RawLog.close_current. rewrite E. cbn.
    exists (match frozen_utc (clock w) with Some f => f | None => t end). split; [|done].
    unfold clock_frozen. cbn. split; [by destruct (frozen_utc (clock w))|]. split; [|done].
    eexists. split; [done|lia]. }
  destruct Hp as [u Hp]. exists u. split; [apply Hp|]. intros Hos.
  assert (Hrun : past u (ol_hour ol) (wrun os (tick mono w))).
  { clear E Hn. revert Hp. generalize (tick mono w). induction Hos as [|o os Ho Hos IH]; intros v Hv; [done|].
    apply IH. by apply wstep_past. }
  apply Hrun.
Qed.
End Invariant.

(** ** Recovery after a crash *)

Section RecoverLaws.
Context (sha256 : bytes -> bytes).

(** Sidecars as [sidecar_path] names them. *)
Definition sidecar_name (p : bytes) : Prop := exists x, p = x ++ str ".json".

Lemma recover_one_other p q d : p <> q -> sidecars (recover_one sha256 p d).1 !! q = sidecars d !! q.
Proof.
  intros Hne. unfold recover_one. destruct (sidecars d !! p) as [[sc|]|]; [|done|done].
  destruct (sc_complete sc); [done|]. destruct (files d !! _); cbn.
  - by rewrite lookup_insert_ne.
  - by rewrite lookup_delete_ne.
Qed.

Lemma recover_one_files p d : files (recover_one sha256 p d).1 = files d.
Proof.
  unfold recover_one. destruct (sidecars d !! p) as [[sc|]|]; [|done|done].
  destruct (sc_complete sc); [done|]. by destruct (files d !! _).
Qed.

(** The fate of one listed sidecar. *)
Definition recovered_to (d : Disk) (p : bytes) : option SidecarFile :=
  match sidecars d !! p with
  | Some (Readable sc) =>
      if sc_complete sc then Some (Readable sc)
      else match files d !! with_suffix p (str ".ubx") with
           | None => None
           | Some content =>
               Some (Readable (mkSidecar (sc_station_id sc) (sc_role sc) (sc_start_utc sc) None
                 (sc_hour_utc sc) (len content) (sc_msg_counts sc) (Some (sha256 content))
                 (sc_firmware sc) (sc_site sc) (sc_keep sc) (sc_time_source sc) true true true))
           end
  | x => x
  end.

Lemma recover_one_self p d : sidecars (recover_one sha256 p d).1 !! p = recovered_to d p.
Proof.
  unfold recover_one, recovered_to. destruct (sidecars d !! p) as [[sc|]|] eqn:E; [|done|done].
  destruct (sc_complete sc) eqn:Ec; [done|]. destruct (files d !! _); cbn.
  - by rewrite lookup_insert_eq.
  - by rewrite lookup_delete_eq.
Qed.

Lemma recover_one_list p d :
  (recover_one sha256 p d).2 =
  match sidecars d !! p with
  | Some (Readable sc) => if sc_complete sc then [] else
      match files d !! with_suffix p (str ".ubx") with Some _ => [with_suffix p (str ".ubx")] | None => [] end
  | _ => []
  end.
Proof.
  unfold recover_one. destruct (sidecars d !! p) as [[sc|]|]; [|done|done].
  destruct (sc_complete sc); [done|]. by destruct (files d !! _).
Qed.

(** [recover_incomplete] touches no data file and no sidecar outside its
    listing; in it, complete and unreadable sidecars stay as they were, an incomplete one whose data
    file is gone is removed, and any other is finalised with the size and hash of its file. So
    no readable sidecar of the listing is incomplete afterwards, and the paths returned are those
    finalised. *)
Theorem recover_incomplete_spec ps d :
  NoDup ps ->
  let '(d', rec) := recover_incomplete sha256 ps d in
  files d' = files d
  /\ (forall p, sidecars d' !! p = if bool_decide (p ∈ ps) then recovered_to d p else sidecars d !! p)
  /\ (forall p sc, p ∈ ps -> sidecars d' !! p = Some (Readable sc) -> sc_complete sc = true)
  /\ forall q, q ∈ rec <-> exists p sc, p ∈ ps /\ sidecars d !! p = Some (Readable sc)
       /\ sc_complete sc = false /\ q = with_suffix p (str ".ubx") /\ is_Some (files d !! q).
Proof.
  intros Hnd. destruct (recover_incomplete sha256 ps d) as [d' rec] eqn:E.
  assert (H : files d' = files d
    /\ (forall p, sidecars d' !! p = if bool_decide (p ∈ ps) then recovered_to d p else sidecars d !! p)
    /\ rec = flat_map (fun p => (recover_one sha256 p d).2) ps).
  { revert d d' rec E. induction Hnd as [|p ps Hp Hnd IH]; intros d d' rec E.
    - injection E as <- <-. done.
    - cbn [recover_incomplete] in E. destruct (recover_one sha256 p d) as [d1 r1] eqn:E1.
      destruct (recover_incomplete sha256 ps d1) as [d2 r2] eqn:E2. injection E as <- <-.
      destruct (IH _ _ _ E2) as (F & S & R).
      pose proof (recover_one_files p d) as F1. rewrite E1 in F1. cbn in F1.
      assert (Hsame : forall q, q <> p -> sidecars d1 !! q = sidecars d !! q).
      { intros q Hq. pose proof (recover_one_other p q d) as H. rewrite E1 in H. by apply H. }
      split; [congruence|]. split.
      + intros q. rewrite S. destruct (decide (q = p)) as [->|Hq].
        * rewrite (bool_decide_false (p ∈ ps)), (bool_decide_true (p ∈ p :: ps)) by (done || by left).
          pose proof (recover_one_self p d) as H. by rewrite E1 in H.
        * rewrite (bool_decide_ext (q ∈ p :: ps) (q ∈ ps)) by (rewrite elem_of_cons; tauto).
          unfold recovered_to. by rewrite Hsame, F1.
      + cbn [flat_map]. rewrite E1. cbn [snd]. f_equal. rewrite R.
        clear - Hsame F1 Hp. induction ps as [|q ps IHp]; [done|]. cbn [flat_map].
        apply not_elem_of_cons in Hp as [Hne Hp]. rewrite (IHp Hp). f_equal.
        by rewrite !recover_one_list, Hsame, F1. }
  destruct H as (F & S & ->). split_and!; [done|done| |].
  - intros p sc Hin. rewrite S, bool_decide_true by done. unfold recovered_to.
    destruct (sidecars d !! p) as [[s|]|]; [|done|done].
    destruct (sc_complete s) eqn:Ec; [by intros [= <-]|]. destruct (files d !! _); [|done]. by intros [= <-].
  - intros q. rewrite list_elem_of_In, in_flat_map. split.
    + intros (p & Hp & Hq). rewrite recover_one_list in Hq.
      destruct (sidecars d !! p) as [[s|]|] eqn:Es; [|done|done].
      destruct (sc_complete s) eqn:Ec; [done|]. destruct (files d !! _) eqn:Ef; [|done].
      destruct Hq as [<-|[]]. exists p, s. split_and!; try done. by apply list_elem_of_In.
    + intros (p & s & Hp & Es & Ec & -> & [c Hc]). exists p. split; [by apply list_elem_of_In|].
      rewrite recover_one_list, Es, Ec, Hc. by left.
Qed.
End RecoverLaws.

(** ** Witnesses *)

Definition example_frame : Frame := mkFrame UBX [0xB5; 0x62; 1; 7; 0; 0; 8; 0x19].
Definition example_identity (_ : Frame) : bytes := str "NAV-PVT".
Definition example_parsed (_ : Frame) : option NavPvt := Some (mkPvt true true 2024 2 29 16 59 60).
Definition example_hash (b : bytes) : bytes := rev b.

Definition example_open : Writer :=
  wrun example_identity example_parsed example_hash (str "BASE") (str "base") [str "NAV-PVT"]
    [OpFrame example_frame 0 5 0 10] (new_writer [] None 0 (mkDisk ∅ ∅)).
Lemma empty_disk_ok : disk_ok example_hash (mkDisk ∅ ∅).
Proof. split; cbn [files sidecars]; intros p; rewrite lookup_empty; [by intros [c H]|done]. Qed.

Lemma rawlog_sidecars_describe_witness :
  disk_ok example_hash (disk example_open) /\ current example_open <> None.
Proof.
  split.
  - exact (proj1 (rawlog_sidecars_describe example_identity example_parsed example_hash (str "BASE") (str "base")
             [str "NAV-PVT"] [OpFrame example_frame 0 5 0 10] [] None 0 (mkDisk ∅ ∅) empty_disk_ok)).
  - vm_compute. discriminate.
Defined.

Definition example_open_log : OpenLog :=
  match current example_open with Some ol => ol | None => mkOpen [] 0 (new_sidecar [] [] 0 example_open) [] end.

Lemma rawlog_closed_hour_stays_closed_witness :
  exists u, frozen_utc (clock (tick example_hash (2 * US) example_open)) = Some u
  /\ (Forall (repeats example_identity example_parsed u) [OpFrame example_frame 0 (3 * US) 0 10] ->
      forall ol', current (wrun example_identity example_parsed example_hash (str "BASE") (str "base") [str "NAV-PVT"]
                     [OpFrame example_frame 0 (3 * US) 0 10] (tick example_hash (2 * US) example_open)) = Some ol' ->
                  ol_hour example_open_log < ol_hour ol').
Proof.
  apply (rawlog_closed_hour_stays_closed example_identity example_parsed example_hash (str "BASE") (str "base")
           [str "NAV-PVT"] example_open (2 * US) example_open_log [OpFrame example_frame 0 (3 * US) 0 10]).
  - vm_compute. reflexivity.
  - vm_compute. reflexivity.
Defined.

Definition example_sidecar : Sidecar :=
  mkSidecar (str "BASE") (str "base") None (Some 7) None 0 ∅ None [] None false Receiver false false false.

Lemma recover_incomplete_spec_witness :
  let d := mkDisk {[str "a.ubx" := [1; 2; 3]]} {[str "a.json" := Readable example_sidecar]} in
  let '(d', rec) := recover_incomplete example_hash [str "a.json"] d in
  files d' = files d /\ forall sc, sidecars d' !! str "a.json" = Some (Readable sc) -> sc_complete sc = true.
Proof.
  pose proof (recover_incomplete_spec example_hash [str "a.json"]
    (mkDisk {[str "a.ubx" := [1; 2; 3]]} {[str "a.json" := Readable example_sidecar]})
    ltac:(apply NoDup_singleton)) as H.
  cbv zeta. destruct (recover_incomplete _ _ _) as [d' rec]. destruct H as (H1 & _ & H3 & _).
  split; [exact H1|]. intros sc. apply H3. left.
Defined.
