(* ===== verification/RawIndex.v ===== *)
(** * The raw log directory and its retention ([rawlog/index.py], [rawlog/retention.py])

    The index reads names and sidecars back into [LogFile]s; [RetentionPolicy] deletes whole
    hours, oldest first, until the floor of free space is met. A directory scan is an
    argument: the list of paths it yields. *)

From Stdlib Require Import String.
From stdpp Require Import gmap.
From S2P Require Import Prelude.
From S2P Require Import PyBytes.
From S2P Require Import Calendar.
From S2P Require Import RawLog.

(** ** index.py *)

Definition station_char (c : Z) : bool := ((65 <=? c) && (c <=? 90)) || ascii_digit c.

(** [_NAME_RE.match] and [strptime(..., "%Y%m%d%H")] on an ASCII name; [$] also matches before a
    final newline. *)
Definition parse_log_name (name : bytes) : option (bytes * Datetime) :=
  let name := if (length name =? 21)%nat && (name.[20] =? 10) then take 20 name else name in
  if negb ((length name =? 20)%nat
           && forallb station_char (take 4 name) && (name.[4] =? 95)
           && forallb ascii_digit (slice 5 13 name) && (name.[13] =? 95)
           && forallb ascii_digit (slice 14 16 name)
           && bool_decide (slice 16 20 name = str ".ubx"))
  then None
  else
    y ← py_int 10 (slice 5 9 name);
    m ← py_int 10 (slice 9 11 name);
    d ← py_int 10 (slice 11 13 name);
    h ← py_int 10 (slice 14 16 name);
    hour ← make_datetime y m d h 0 0;
    Some (take 4 name, hour).

Record LogFile := mkLogFile {
  lf_path : bytes; lf_sidecar_path : bytes; lf_station_id : bytes; lf_hour_utc : Datetime;
  lf_bytes : Z; lf_complete : bool; lf_keep : bool; lf_msg_counts : gmap bytes Z;
  lf_start_utc : option Datetime; lf_end_utc : option Datetime; lf_site : option bytes
}.

(** [hour_end]. *)
Definition hour_end (lf : LogFile) : Datetime := lf_hour_utc lf + HOUR.

(** [_read_sidecar]. *)
Definition read_sidecar (d : Disk) (p : bytes) : option Sidecar :=
  match sidecars d !! p with Some (Readable sc) => Some sc | _ => None end.

(** [_load_logfile]. *)
Definition load_logfile (d : Disk) (path : bytes) : option LogFile :=
  '(station, hour) ← parse_log_name (after_last 47 path);
  content ← files d !! path;
  let sc_path := sidecar_path path in
  Some match read_sidecar d sc_path with
       | None => mkLogFile path sc_path station hour (len content) false false ∅ None None None
       | Some sc => mkLogFile path sc_path station hour (len content) (sc_complete sc) (sc_keep sc)
                      (sc_msg_counts sc) (sc_start_utc sc) (sc_end_utc sc) (sc_site sc)
       end.

(** [list_logs] over the paths the glob yields. *)
Definition list_logs (d : Disk) (glob : list bytes) : list LogFile :=
  sort_by lf_hour_utc (omap (load_logfile d) glob).

(** [files_for_window]. *)
Definition files_for_window (d : Disk) (glob : list bytes) (start end_ : Datetime) : list LogFile :=
  List.filter (fun lf => (lf_hour_utc lf <? end_) && (start <? hour_end lf)) (list_logs d glob).

Record HourSlot := mkSlot { slot_hour : Datetime; slot_file : option LogFile }.

(** [by_hour]: a later log of the same hour wins. *)
Definition by_hour (logs : list LogFile) (hour : Datetime) : option LogFile :=
  foldl (fun acc lf => if lf_hour_utc lf =? hour then Some lf else acc) None logs.

(** The [while hour < end] loop, with fuel. *)
Fixpoint slots_from (fuel : nat) (logs : list LogFile) (hour end_ : Datetime) : list HourSlot :=
  match fuel with
  | O => []
  | S f => if hour <? end_ then mkSlot hour (by_hour logs hour) :: slots_from f logs (hour + HOUR) end_
           else []
  end.

(** [hour_availability]. *)
Definition hour_availability (d : Disk) (glob : list bytes) (start end_ : Datetime) : list HourSlot :=
  let hour := floor_hour start in
  slots_from (S (Z.to_nat ((end_ - hour) / HOUR))) (list_logs d glob) hour end_.

(** ** retention.py *)

Section Retention.
(** Free bytes as [shutil.disk_usage] reads them off the disk, the floor, and the bytes of
    exports in progress, measured once per pass. *)
Context (disk_usage : Disk -> Z) (min_free staging : Z).

(** [free_gb() >= min_free_gb]. *)
Definition above_floor (d : Disk) : bool := min_free <=? disk_usage d + staging.

(** [_prunable]. *)
Definition prunable (logs : list LogFile) : list LogFile :=
  if len logs <? 2 then []
  else List.filter (fun lf => negb (lf_keep lf)) (take (length logs - 1) logs).

(** [_delete]: the file and its sidecar. *)
Definition delete_log (lf : LogFile) (d : Disk) : Disk :=
  mkDisk (delete (lf_path lf) (files d)) (delete (lf_sidecar_path lf) (sidecars d)).

(** The loop of [_prune]. *)
Fixpoint prune_loop (candidates : list LogFile) (d : Disk) : Disk * list LogFile :=
  if above_floor d then (d, [])
  else match candidates with
       | [] => (d, [])
       | victim :: rest =>
           let d := delete_log victim d in
           if above_floor d then (d, [victim])
           else let '(d, deleted) := prune_loop rest d in (d, victim :: deleted)
       end.
Definition prune_once (logs : list LogFile) (d : Disk) : Disk * list LogFile :=
  prune_loop (prunable logs) d.

(** The loop of the async [prune]; [reclaim] removes exports made of hours up to a time, or
    fails leaving what it did. *)
Context (reclaim : Datetime -> Disk -> Disk).

Fixpoint prune_reclaim (candidates : list LogFile) (d : Disk) : Disk * list LogFile :=
  match candidates with
  | [] => (d, [])
  | victim :: rest =>
      if above_floor d then (d, [])
      else
        let d := reclaim (hour_end victim) d in
        if above_floor d then (d, [])
        else
          let d := delete_log victim d in
          let '(d, deleted) := prune_reclaim rest d in (d, victim :: deleted)
  end.
Definition prune (logs : list LogFile) (d : Disk) : Disk * list LogFile :=
  prune_reclaim (prunable logs) d.
End Retention.

(** ** Names *)

Lemma fmt_fields t :
  1000 <= year (fields t) <= 9999 ->
  length (fmt_Y t) = 4%nat /\ forallb ascii_digit (fmt_Y t) = true /\ py_int 10 (fmt_Y t) = Some (year (fields t))
  /\ length (fmt_m t) = 2%nat /\ forallb ascii_digit (fmt_m t) = true /\ py_int 10 (fmt_m t) = Some (month (fields t))
  /\ length (fmt_d t) = 2%nat /\ forallb ascii_digit (fmt_d t) = true /\ py_int 10 (fmt_d t) = Some (day (fields t))
  /\ length (fmt_H t) = 2%nat /\ forallb ascii_digit (fmt_H t) = true /\ py_int 10 (fmt_H t) = Some (hour (fields t)).
Proof.
  intros Hy.
  assert (Hr : 1 <= month (fields t) <= 12 /\ 1 <= day (fields t) <= 31 /\ 0 <= hour (fields t) <= 23).
  { unfold fields. pose proof (civil_month_day (t / DAY)) as H. destruct (civil_from_days (t / DAY)) as [[y m] d].
    cbn [month day hour]. destruct H as [Hm Hd].
    assert (days_in_month y m <= 31) by (unfold days_in_month; repeat break; lia).
    assert (0 <= t mod DAY / HOUR <= 23) by (unfold DAY, HOUR, US; Z.to_euclidean_division_equations; lia).
    lia. }
  unfold fmt_Y, fmt_m, fmt_d, fmt_H.
  destruct (fmt_digits_field 4 (year (fields t))) as (? & ? & ?); [lia|change (10 ^ Z.of_nat 4) with 10000; lia|].
  destruct (fmt_digits_field 2 (month (fields t))) as (? & ? & ?); [lia|change (10 ^ Z.of_nat 2) with 100; lia|].
  destruct (fmt_digits_field 2 (day (fields t))) as (? & ? & ?); [lia|change (10 ^ Z.of_nat 2) with 100; lia|].
  destruct (fmt_digits_field 2 (hour (fields t))) as (? & ? & ?); [lia|change (10 ^ Z.of_nat 2) with 100; lia|].
  by split_and!.
Qed.

Definition log_file_name (station : bytes) (h : Datetime) : bytes :=
  station ++ str "_" ++ (fmt_Y h ++ fmt_m h ++ fmt_d h) ++ str "_" ++ fmt_H h ++ str ".ubx".

Lemma alnum_not (b : Z) l : forallb station_char l = true -> b <> 95 -> (b < 48 \/ 57 < b < 65 \/ 90 < b) ->
  forallb (fun c => negb (c =? b)) l = true.
Proof.
  intros H Hb Hr. rewrite forallb_forall in *. intros x Hx. specialize (H x Hx).
  unfold station_char, ascii_digit in H. apply negb_true_iff, Z.eqb_neq. intros ->.
  apply orb_true_iff in H as [H|H]; zbool; lia.
Qed.

Lemma digits_station l : forallb ascii_digit l = true -> forallb station_char l = true.
Proof. rewrite !forallb_forall. intros H x Hx. unfold station_char. rewrite (H x Hx). apply orb_true_r. Qed.

Lemma log_path_file_name station h :
  1000 <= year (fields h) <= 9999 -> forallb station_char station = true ->
  after_last 47 (log_path station h) = log_file_name station h.
Proof.
  intros Hy Hs. destruct (fmt_fields h Hy) as (_ & D1 & _ & _ & D2 & _ & _ & D3 & _ & _ & D4 & _).
  unfold log_path. change (str "/" ++ station) with (47 :: station).
  rewrite (app_assoc (str "ubx/")), (app_assoc (_ ++ _)), (app_assoc (_ ++ _)).
  change (str "/" ++ station ++ _) with (47 :: log_file_name station h).
  rewrite after_last_app; [done|]. apply rfind_byte_none. unfold log_file_name.
  rewrite !forallb_app, (alnum_not 47 station), (alnum_not 47 (fmt_Y h)), (alnum_not 47 (fmt_m h)),
    (alnum_not 47 (fmt_d h)), (alnum_not 47 (fmt_H h)); auto using digits_station; lia.
Qed.

(** Reading back the name the logger gave a file yields the station and the hour:
    the index finds every hourly file of a station with a four-character id, in years 1000-9999. *)
Theorem parse_log_name_roundtrip station h :
  length station = 4%nat -> forallb station_char station = true ->
  floor_hour h = h -> 1000 <= year (fields h) <= 9999 ->
  parse_log_name (after_last 47 (log_path station h)) = Some (station, h).
Proof.
  intros Hl Hs Hf Hy. rewrite log_path_file_name by done.
  destruct (fmt_fields h Hy) as (L1 & D1 & P1 & L2 & D2 & P2 & L3 & D3 & P3 & L4 & D4 & P4).
  set (n := log_file_name station h).
  assert (Hlen : length n = 20%nat).
  { subst n. unfold log_file_name. rewrite !length_app, Hl, L1, L2, L3, L4. done. }
  assert (Hn : forall i j a b c, n = a ++ b ++ c -> i = length a -> j = (length a + length b)%nat -> slice i j n = b).
  { intros i j a b c -> -> ->. by apply slice_mid. }
  assert (S0 : take 4 n = station) by (subst n; unfold log_file_name; rewrite <- Hl; apply take_app_length).
  assert (S1 : n.[4] = 95) by (subst n; unfold log_file_name; rewrite at_app_r by lia; by rewrite Hl).
  assert (S2 : slice 5 13 n = fmt_Y h ++ fmt_m h ++ fmt_d h).
  { apply (Hn _ _ (station ++ str "_") _ (str "_" ++ fmt_H h ++ str ".ubx"));
      [unfold n, log_file_name; by rewrite <- !app_assoc|by rewrite length_app, Hl|by rewrite !length_app, Hl, L1, L2, L3]. }
  assert (SY : slice 5 9 n = fmt_Y h).
  { apply (Hn _ _ (station ++ str "_") _ (fmt_m h ++ fmt_d h ++ str "_" ++ fmt_H h ++ str ".ubx"));
      [unfold n, log_file_name; by rewrite <- !app_assoc|by rewrite length_app, Hl|by rewrite !length_app, Hl, L1]. }
  assert (Sm : slice 9 11 n = fmt_m h).
  { apply (Hn _ _ (station ++ str "_" ++ fmt_Y h) _ (fmt_d h ++ str "_" ++ fmt_H h ++ str ".ubx"));
      [unfold n, log_file_name; by rewrite <- !app_assoc|by rewrite !length_app, Hl, L1|by rewrite !length_app, Hl, L1, L2]. }
  assert (Sd : slice 11 13 n = fmt_d h).
  { apply (Hn _ _ (station ++ str "_" ++ fmt_Y h ++ fmt_m h) _ (str "_" ++ fmt_H h ++ str ".ubx"));
      [unfold n, log_file_name; by rewrite <- !app_assoc|by rewrite !length_app, Hl, L1, L2|by rewrite !length_app, Hl, L1, L2, L3]. }
  set (date := fmt_Y h ++ fmt_m h ++ fmt_d h) in *.
  assert (Ld : length date = 8%nat) by (subst date; by rewrite !length_app, L1, L2, L3).
  assert (S3 : slice 13 14 n = str "_").
  { apply (Hn _ _ (station ++ str "_" ++ date) _ (fmt_H h ++ str ".ubx"));
      [unfold n, log_file_name, date; by rewrite <- !app_assoc|by rewrite !length_app, Hl, Ld|by rewrite !length_app, Hl, Ld]. }
  rewrite slice_one in S3 by lia. injection S3 as S3.
  assert (S4 : slice 14 16 n = fmt_H h).
  { apply (Hn _ _ (station ++ str "_" ++ date ++ str "_") _ (str ".ubx"));
      [unfold n, log_file_name, date; by rewrite <- !app_assoc|by rewrite !length_app, Hl, Ld|by rewrite !length_app, Hl, Ld, L4]. }
  assert (S5 : slice 16 20 n = str ".ubx").
  { apply (Hn _ _ (station ++ str "_" ++ date ++ str "_" ++ fmt_H h) _ []);
      [unfold n, log_file_name, date; by rewrite app_nil_r, <- !app_assoc|by rewrite !length_app, Hl, Ld, L4|by rewrite !length_app, Hl, Ld, L4]. }
  unfold parse_log_name. rewrite Hlen. cbn [Nat.eqb andb].
  rewrite Hlen, S0, S1, S2, S3, S4, S5, SY, Sm, Sd, Hs. subst date.
  rewrite !forallb_app, D1, D2, D3, D4, bool_decide_true by done.
  cbn [Nat.eqb andb negb Z.eqb Pos.eqb]. rewrite P1, P2, P3, P4. cbn [mbind option_bind].
  rewrite make_datetime_fields by (done || lia). done.
Qed.

Lemma parse_log_name_roundtrip_witness :
  parse_log_name (after_last 47 (log_path (str "BASE") (1709222400 * US))) = Some (str "BASE", 1709222400 * US).
Proof.
  apply (parse_log_name_roundtrip (str "BASE") (1709222400 * US));
    [reflexivity|reflexivity|reflexivity|vm_compute; split; discriminate].
Defined.

(** ** Windows and availability *)

Lemma by_hour_spec logs hour :
  match by_hour logs hour with
  | Some lf => In lf logs /\ lf_hour_utc lf = hour
  | None => forall lf, In lf logs -> lf_hour_utc lf <> hour
  end.
Proof.
  unfold by_hour.
  assert (H : forall acc, match acc with Some lf => lf_hour_utc lf = hour | None => True end ->
    match foldl (fun acc lf => if lf_hour_utc lf =? hour then Some lf else acc) acc logs with
    | Some lf => (In lf logs \/ acc = Some lf) /\ lf_hour_utc lf = hour
    | None => acc = None /\ forall lf, In lf logs -> lf_hour_utc lf <> hour
    end).
  { induction logs as [|x logs IH]; intros acc Ha; cbn [foldl].
    - destruct acc; [by split; [right|]|by split].
    - destruct (lf_hour_utc x =? hour) eqn:E; zbool.
      + specialize (IH (Some x) E). destruct (foldl _ (Some x) logs) as [lf|].
        * destruct IH as [[Hin|[= <-]] Hh]; (split; [left|done]); [by right|by left].
        * by destruct IH.
      + specialize (IH acc Ha). destruct (foldl _ acc logs) as [lf|].
        * destruct IH as [[Hin|Hacc] Hh]; (split; [|done]); [left; by right|by right].
        * destruct IH as [Hacc Hno]. split; [done|]. intros lf [<-|Hin]; [done|by apply Hno]. }
  specialize (H None I). destruct (foldl _ None logs) as [lf|].
  - by destruct H as [[Hin|[=]] Hh].
  - apply H.
Qed.

Lemma slots_from_hours fuel logs hour end_ :
  (end_ - hour) / HOUR < Z.of_nat fuel ->
  forall n, slots_from fuel logs hour end_ !! n
    = if (hour + Z.of_nat n * HOUR <? end_) then Some (mkSlot (hour + Z.of_nat n * HOUR) (by_hour logs (hour + Z.of_nat n * HOUR)))
      else None.
Proof.
  assert (Hpos : 0 < HOUR) by done.
  revert hour. induction fuel as [|f IH]; intros hour Hf n; cbn [slots_from].
  - assert (end_ - hour < 0) by (destruct (Z_lt_dec (end_ - hour) 0); [done|];
      pose proof (Z.div_pos (end_ - hour) HOUR); lia).
    rewrite (proj2 (Z.ltb_ge _ _)) by nia. done.
  - destruct (hour <? end_) eqn:E; zbool.
    + destruct n as [|n]; cbn [lookup list_lookup].
      * rewrite Z.mul_0_l, Z.add_0_r, (proj2 (Z.ltb_lt _ _)) by done. done.
      * specialize (IH (hour + HOUR)). change (list_lookup n) with (@lookup nat HourSlot (list HourSlot) _ n).
        rewrite IH.
        -- replace (hour + HOUR + Z.of_nat n * HOUR) with (hour + Z.of_nat (S n) * HOUR) by lia. done.
        -- replace (end_ - (hour + HOUR)) with (end_ - hour + -1 * HOUR) by lia.
           rewrite Z_div_plus_full by lia. lia.
    + rewrite (proj2 (Z.ltb_ge _ _)) by nia. by destruct n.
Qed.

(** The index lists exactly the loadable files, oldest hour first; a window
    selects exactly those overlapping it; and the availability of a window has one slot for each whole
    hour from the hour of [start] up to [end], in order, holding a log of that hour whenever
    the index has one. The loop's fuel is enough for every window. *)
Theorem index_spec d glob start end_ :
  let logs := list_logs d glob in
  logs ≡ₚ omap (load_logfile d) glob /\ sorted_by lf_hour_utc logs
  /\ sorted_by lf_hour_utc (files_for_window d glob start end_)
  /\ (forall lf, In lf (files_for_window d glob start end_)
                 <-> In lf logs /\ lf_hour_utc lf < end_ /\ start < hour_end lf)
  /\ (forall n : nat, let hour := floor_hour start + Z.of_nat n * HOUR in
       match hour_availability d glob start end_ !! n with
       | Some slot => hour < end_ /\ slot_hour slot = hour
           /\ match slot_file slot with
              | Some lf => In lf logs /\ lf_hour_utc lf = hour
              | None => forall lf, In lf logs -> lf_hour_utc lf <> hour
              end
       | None => end_ <= hour
       end).
Proof.
  intros logs. split; [apply sort_by_perm|]. split; [apply sort_by_sorted|]. split; [|split].
  - apply (sorted_by_sublist lf_hour_utc _ logs); [|apply sort_by_sorted]. unfold files_for_window.
    fold logs. clearbody logs. induction logs as [|x l IH]; cbn [List.filter]; [constructor|].
    destruct (_ && _); by constructor.
  - intros lf. unfold files_for_window. fold logs. rewrite filter_In, andb_true_iff, !Z.ltb_lt. tauto.
  - intros n hour. unfold hour_availability. fold logs.
    rewrite slots_from_hours by lia. subst hour.
    destruct (_ <? end_) eqn:E; zbool; [|done].
    split; [done|]. split; [done|]. cbn [slot_file]. apply by_hour_spec.
Qed.

(** ** Retention *)

Section RetentionLaws.
Context (disk_usage : Disk -> Z) (min_free staging : Z).
Abbreviation above := (above_floor disk_usage min_free staging).

Lemma prunable_sublist logs : prunable logs `sublist_of` logs.
Proof.
  unfold prunable. destruct (_ <? _); [apply sublist_nil_l|].
  etransitivity; [|apply (sublist_take _ (length logs - 1))].
  induction (take _ _) as [|x l IH]; cbn [List.filter]; [constructor|]. destruct (negb _); by constructor.
Qed.

Lemma prunable_spec logs lf :
  In lf (prunable logs) -> lf_keep lf = false /\ exists n : nat, logs !! n = Some lf /\ (n + 1 < length logs)%nat.
Proof.
  unfold prunable. destruct (_ <? _) eqn:E; [done|]. zbool. rewrite filter_In. intros [Hin Hk]. zbool.
  split; [done|]. apply list_elem_of_In, list_elem_of_lookup in Hin as [n Hn].
  apply lookup_take_Some in Hn as [Hn Hlt]. exists n. split; [done|lia].
Qed.

(** A pass: the victims are the first candidates, each deleted while the disk was below the
    floor, and it stops early only above it. [step] is what happens before a deletion. *)
Fixpoint deletions (step : LogFile -> Disk -> Disk) (vs : list LogFile) (d : Disk) : Disk :=
  match vs with [] => d | v :: vs => deletions step vs (delete_log v (step v d)) end.
Fixpoint below_throughout (step : LogFile -> Disk -> Disk) (vs : list LogFile) (d : Disk) : Prop :=
  match vs with
  | [] => True
  | v :: vs => above d = false /\ above (step v d) = false
               /\ below_throughout step vs (delete_log v (step v d))
  end.

Lemma prune_loop_spec cands d :
  let '(d', vs) := prune_loop disk_usage min_free staging cands d in
  vs `prefix_of` cands /\ d' = deletions (fun _ d => d) vs d /\ below_throughout (fun _ d => d) vs d
  /\ (above d' = true \/ vs = cands).
Proof.
  revert d. induction cands as [|v cands IH]; intros d; cbn [prune_loop].
  - destruct (above d); split_and!; try done; by right.
  - destruct (above d) eqn:E; [split_and!; try done; [apply prefix_nil|by left]|].
    destruct (above (delete_log v d)) eqn:E1.
    + split_and!; try done; [by apply prefix_cons, prefix_nil|by left].
    + specialize (IH (delete_log v d)).
      destruct (prune_loop _ _ _ cands (delete_log v d)) as [d' vs]. destruct IH as (H1 & H2 & H3 & H4).
      split_and!; try done; [by apply prefix_cons|]. destruct H4 as [H4| ->]; [by left|by right].
Qed.

Context (reclaim : Datetime -> Disk -> Disk).
Let step (lf : LogFile) (d : Disk) : Disk := reclaim (hour_end lf) d.

Lemma prune_reclaim_spec cands d :
  let '(d', vs) := prune_reclaim disk_usage min_free staging reclaim cands d in
  vs `prefix_of` cands /\ below_throughout step vs d
  /\ (d' = deletions step vs d \/ exists v, d' = step v (deletions step vs d) /\ In v cands)
  /\ (above d' = true \/ vs = cands).
Proof.
  revert d. induction cands as [|v cands IH]; intros d; cbn [prune_reclaim].
  - split_and!; try done; [by left|by right].
  - destruct (above d) eqn:E; [split_and!; try done; [apply prefix_nil|by left|by left]|].
    fold (step v d). destruct (above (step v d)) eqn:E1.
    + split_and!; try done; [apply prefix_nil|right; exists v; split; [done|by left]|by left].
    + specialize (IH (delete_log v (step v d))).
      destruct (prune_reclaim _ _ _ _ cands _) as [d' vs]. destruct IH as (H1 & H2 & H3 & H4).
      split_and!; try done; [by apply prefix_cons| |].
      * destruct H3 as [H3|(u & H3 & Hu)]; [by left|right]. exists u. split; [done|by right].
      * destruct H4 as [H4| ->]; [by left|by right].
Qed.
End RetentionLaws.

(** A retention pass over a sorted listing deletes whole hours oldest first: never
    one marked [keep], never the newest file; each victim only while free space was below the
    floor (also after its exports were reclaimed), and it ends above the floor or with every
    candidate deleted. Both the synchronous pass and the one with [reclaim]. *)
Theorem retention_spec disk_usage min_free staging reclaim logs d :
  sorted_by lf_hour_utc logs ->
  (let '(d', vs) := prune_once disk_usage min_free staging logs d in
   vs `prefix_of` prunable logs /\ sorted_by lf_hour_utc vs
   /\ (forall lf, In lf vs -> lf_keep lf = false /\ exists n : nat, logs !! n = Some lf /\ (n + 1 < length logs)%nat)
   /\ d' = deletions (fun _ d => d) vs d
   /\ below_throughout disk_usage min_free staging (fun _ d => d) vs d
   /\ (above_floor disk_usage min_free staging d' = true \/ vs = prunable logs))
  /\
  (let '(d', vs) := prune disk_usage min_free staging reclaim logs d in
   vs `prefix_of` prunable logs /\ sorted_by lf_hour_utc vs
   /\ (forall lf, In lf vs -> lf_keep lf = false /\ exists n : nat, logs !! n = Some lf /\ (n + 1 < length logs)%nat)
   /\ below_throughout disk_usage min_free staging (fun lf => reclaim (hour_end lf)) vs d
   /\ (above_floor disk_usage min_free staging d' = true \/ vs = prunable logs)).
Proof.
  intros Hs.
  assert (Hvs : forall vs, vs `prefix_of` prunable logs ->
    sorted_by lf_hour_utc vs /\
    forall lf, In lf vs -> lf_keep lf = false /\ exists n : nat, logs !! n = Some lf /\ (n + 1 < length logs)%nat).
  { intros vs [k Hk]. split.
    - eapply sorted_by_sublist; [|exact Hs]. etransitivity; [|apply prunable_sublist].
      rewrite Hk. by apply sublist_inserts_r.
    - intros lf Hin. apply prunable_spec. rewrite Hk. apply in_app_iff. by left. }
  split.
  - pose proof (prune_loop_spec disk_usage min_free staging (prunable logs) d) as H.
    unfold prune_once. destruct (prune_loop _ _ _ _ _) as [d' vs]. destruct H as (H1 & H2 & H3 & H4).
    destruct (Hvs vs H1). by split_and!.
  - pose proof (prune_reclaim_spec disk_usage min_free staging reclaim (prunable logs) d) as H.
    unfold prune. destruct (prune_reclaim _ _ _ _ _ _) as [d' vs]. destruct H as (H1 & H2 & _ & H4).
    destruct (Hvs vs H1). by split_and!.
Qed.

Definition example_log (h : Z) (keep : bool) : LogFile :=
  mkLogFile [h] [h; h] [] (h * HOUR) 10 true keep ∅ None None None.

Lemma retention_spec_witness :
  let usage := fun d : Disk => 5 - Z.of_nat (size (files d)) in
  let d := mkDisk {[ [1] := []; [2] := []; [3] := [] ]} ∅ in
  let '(d', vs) := prune_once usage 3 0 [example_log 1 true; example_log 2 false; example_log 3 false] d in
  sorted_by lf_hour_utc vs /\ d' = deletions (fun _ d => d) vs d.
Proof.
  intros usage d.
  assert (Hs : sorted_by lf_hour_utc [example_log 1 true; example_log 2 false; example_log 3 false]).
  { repeat constructor; vm_compute; discriminate. }
  pose proof (retention_spec usage 3 0 (fun _ d => d) _ d Hs) as [H _].
  destruct (prune_once _ _ _ _ _) as [d' vs]. destruct H as (_ & H2 & _ & H4 & _). split; [exact H2|exact H4].
Defined.
