(* ===== verification/EnvFile.v ===== *)
(** * Reading and rewriting [.env] files ([web/envfile.py])

    The line grammar, the encoder and [update_env], over text as lists of code points. A file
    is its text, [None] when it does not exist; the atomic replace is the new text. *)

From Stdlib Require Import String.
From stdpp Require Import gmap.
From S2P Require Import Prelude.
From S2P Require Import PyBytes.
From S2P Require Import PyText.

(** ** Lines ([str.splitlines]) *)

(** [[^\S\r\n]]: horizontal space. *)
Definition is_hspace (c : Z) : bool := is_space c && negb (mem_byte c [10; 13]).

Definition is_line_end (c : Z) : bool := mem_byte c [10; 11; 12; 13; 28; 29; 30; 133; 8232; 8233].

(** [str.splitlines()]. *)
Fixpoint splitlines_go (cur : bytes) (s : bytes) : list bytes :=
  match s with
  | [] => match cur with [] => [] | _ => [rev cur] end
  | c :: r =>
      if is_line_end c then
        rev cur :: match c, r with
                   | 13, 10 :: r' => splitlines_go [] r'
                   | _, _ => splitlines_go [] r
                   end
      else splitlines_go (c :: cur) r
  end.
Definition splitlines (s : bytes) : list bytes := splitlines_go [] s.

(** The newline translation of a text-mode read. *)
Fixpoint universal_newlines (s : bytes) : bytes :=
  match s with
  | [] => []
  | 13 :: 10 :: r => 10 :: universal_newlines r
  | 13 :: r => 10 :: universal_newlines r
  | c :: r => c :: universal_newlines r
  end.

(** ** The line grammar *)

Definition key_start (c : Z) : bool := ((65 <=? c) && (c <=? 90)) || ((97 <=? c) && (c <=? 122)) || (c =? 95).
Definition key_char (c : Z) : bool := key_start c || ascii_digit c.

(** The key group and what follows it. *)
Definition match_key (s : bytes) : option (bytes * bytes) :=
  match s with
  | c :: r => if key_start c then Some (c :: take_while key_char r, drop_while key_char r) else None
  | [] => None
  end.

(** The rest of the line: up to the end, or to a final newline. *)
Definition match_rest (s : bytes) : option bytes :=
  match drop_while (fun c => negb (c =? 10)) s with
  | [] | [10] => Some (take_while (fun c => negb (c =? 10)) s)
  | _ => None
  end.

(** From the key on: [key], horizontal space, [=], rest. *)
Definition match_binding (s : bytes) : option (bytes * bytes) :=
  match match_key s with
  | None => None
  | Some (key, r) =>
      match drop_while is_hspace r with
      | 61 :: r => match match_rest r with Some rest => Some (key, rest) | None => None end
      | _ => None
      end
  end.

(** [_ASSIGN_RE.match]: with the [export] prefix if that works out, else without. *)
Definition match_assign (raw : bytes) : option (bytes * bytes) :=
  let s := drop_while is_hspace raw in
  let exported :=
    if startswith s (str "export") then
      match drop 6 s with
      | c :: r => if is_hspace c then match_binding (drop_while is_hspace r) else None
      | [] => None
      end
    else None in
  match exported with
  | Some kr => Some kr
  | None => match_binding s
  end.

(** [_DOUBLE_QUOTED_RE] and [_SINGLE_QUOTED_RE] after the opening quote [q]: the contents and
    what follows the closing quote. *)
Fixpoint scan_quoted (q : Z) (s : bytes) : option (bytes * bytes) :=
  match s with
  | [] => None
  | 92 :: c :: r =>
      if c =? 10 then None
      else match scan_quoted q r with Some (v, rest) => Some (92 :: c :: v, rest) | None => None end
  | c :: r =>
      if c =? q then Some ([], r)
      else if c =? 92 then None
      else match scan_quoted q r with Some (v, rest) => Some (c :: v, rest) | None => None end
  end.

(** What an escape stands for, under each quote. *)
Definition double_escape (c : Z) : option Z :=
  if c =? 92 then Some 92 else if c =? 39 then Some 39 else if c =? 34 then Some 34
  else if c =? 97 then Some 7 else if c =? 98 then Some 8 else if c =? 102 then Some 12
  else if c =? 110 then Some 10 else if c =? 114 then Some 13 else if c =? 116 then Some 9
  else if c =? 118 then Some 11 else None.
Definition single_escape (c : Z) : option Z :=
  if c =? 92 then Some 92 else if c =? 39 then Some 39 else None.

(** [_decode]. *)
Fixpoint decode (escapes : Z -> option Z) (s : bytes) : bytes :=
  match s with
  | [] => []
  | 92 :: ((c :: r) as t) =>
      match escapes c with Some x => x :: decode escapes r | None => 92 :: decode escapes t end
  | c :: r => c :: decode escapes r
  end.

(** [_COMMENT_RE.search]: the index where the first run of white space before a [#] starts. *)
Fixpoint comment_start (s : bytes) : option nat :=
  match s with
  | [] => None
  | c :: r =>
      if is_space c && match drop_while is_space r with 35 :: _ => true | _ => false end
      then Some O else S <$> comment_start r
  end.

Record EnvEntry := mkEntry { e_key : bytes; e_value : bytes; e_comment : bytes }.

(** [_parse_line]. *)
Definition parse_line (raw : bytes) : option EnvEntry :=
  match match_assign raw with
  | None => None
  | Some (key, rest) =>
      let rest := drop_while (fun c => mem_byte c [32; 9]) rest in
      let bare :=
        match comment_start rest with
        | None => mkEntry key (rstrip rest) []
        | Some k => mkEntry key (rstrip (take k rest)) (drop k rest)
        end in
      let quoted (q : Z) (escapes : Z -> option Z) (r : bytes) :=
        match scan_quoted q r with
        | Some (v, after) => mkEntry key (decode escapes v) after
        | None => bare
        end in
      Some match rest with
           | 34 :: r => quoted 34 double_escape r
           | 39 :: r => quoted 39 single_escape r
           | _ => bare
           end
  end.

(** [parse_assignment]. *)
Definition parse_assignment (raw : bytes) : option (bytes * bytes) :=
  match parse_line raw with None => None | Some e => Some (e_key e, e_value e) end.

(** [values[entry.key] = entry.value] for one line. *)
Definition bind_line (m : gmap bytes bytes) (raw : bytes) : gmap bytes bytes :=
  match parse_line raw with Some e => <[e_key e := e_value e]> m | None => m end.

(** The lines of a file, as both readers see them. *)
Definition file_lines (file : option bytes) : list bytes :=
  match file with Some t => splitlines (universal_newlines t) | None => [] end.

(** [read_env]. *)
Definition read_env (file : option bytes) : gmap bytes bytes := foldl bind_line ∅ (file_lines file).

(** ** The encoder *)

(** [_writable]: the value is refused ([ValueError]) when this is false. *)
Definition writable (v : bytes) : bool :=
  negb (existsb (fun c => mem_byte c [10; 13]) v)
  && match bfind (str "${") v with None => true | Some _ => false end.

(** [_needs_quotes]. *)
Definition needs_quotes (v : bytes) : bool :=
  match v with
  | [] => false
  | c :: _ =>
      negb (bool_decide (v = strip v))
      || match comment_start v with Some _ => true | None => false end
      || mem_byte c [35; 34; 39]
      || existsb (fun c => mem_byte c [34; 39; 92]) v
  end.

(** The two [replace] calls: each backslash doubled, then each double quote escaped. *)
Definition escape (v : bytes) : bytes :=
  flat_map (fun c => if c =? 34 then [92; 34] else [c]) (flat_map (fun c => if c =? 92 then [92; 92] else [c]) v).

(** [_encode] and [encode_value]. *)
Definition encode_value (v : bytes) : option bytes :=
  if negb (writable v) then None
  else if needs_quotes v then Some ([34] ++ escape v ++ [34]) else Some v.

(** ** update_env *)

(** [last[key]]: the index of the last line binding a key, lines numbered from [i]. *)
Fixpoint last_from (i : nat) (key : bytes) (entries : list (option EnvEntry)) : option nat :=
  match entries with
  | [] => None
  | e :: es =>
      match last_from (S i) key es with
      | Some j => Some j
      | None => match e with
                | Some e => if bool_decide (e_key e = key) then Some i else None
                | None => None
                end
      end
  end.

Fixpoint assoc (key : bytes) (m : list (bytes * bytes)) : option bytes :=
  match m with
  | [] => None
  | (k, v) :: m => if bool_decide (k = key) then Some v else assoc key m
  end.

(** The lines one line of the file becomes. *)
Definition rewrite_line (encoded : list (bytes * bytes)) (last : bytes -> option nat) (i : nat) (raw : bytes)
  : list bytes :=
  match parse_line raw with
  | None => [raw]
  | Some e =>
      match assoc (e_key e) encoded with
      | None => [raw]
      | Some value =>
          if negb (bool_decide (last (e_key e) = Some i)) then []
          else if bool_decide (value = []) && startswith (strip (e_comment e)) [35]
               then [strip (e_comment e); e_key e ++ [61]]
               else [e_key e ++ [61] ++ value ++ e_comment e]
      end
  end.

Fixpoint rewrite_lines (encoded : list (bytes * bytes)) (last : bytes -> option nat) (i : nat) (lines : list bytes)
  : list bytes :=
  match lines with
  | [] => []
  | raw :: lines => rewrite_line encoded last i raw ++ rewrite_lines encoded last (S i) lines
  end.

(** The lines joined by newlines. *)
Fixpoint join_lines (out : list bytes) : bytes :=
  match out with
  | [] => []
  | [l] => l
  | l :: out => l ++ [10] ++ join_lines out
  end.

(** [{key: _encode(value) for ...}]; [None] is the [ValueError] of one of them. *)
Definition encode_all (updates : list (bytes * bytes)) : option (list (bytes * bytes)) :=
  mapM (fun kv => v ← encode_value kv.2; Some (kv.1, v)) updates.

(** [update_env]: the new text, or [None] ([ValueError], nothing written). *)
Definition update_env (file : option bytes) (updates : list (bytes * bytes)) : option bytes :=
  encoded ← encode_all updates;
  let lines := file_lines file in
  let last key := last_from 0 key (map parse_line lines) in
  let out := rewrite_lines encoded last 0 lines
             ++ map (fun kv => kv.1 ++ [61] ++ kv.2)
                  (List.filter (fun kv => match last kv.1 with None => true | Some _ => false end) encoded) in
  Some (match out with [] => [] | _ => join_lines out ++ [10] end).

(** ** Character classes *)

Definition no_line_end (s : bytes) : bool := forallb (fun c => negb (is_line_end c)) s.

Lemma is_space_cases c : is_space c = true ->
  9 <= c <= 13 \/ 28 <= c <= 32 \/ 8192 <= c <= 8202
  \/ c = 133 \/ c = 160 \/ c = 5760 \/ c = 8232 \/ c = 8233 \/ c = 8239 \/ c = 8287 \/ c = 12288.
Proof.
  unfold is_space, mem_byte. cbn [existsb]. intros H.
  repeat (apply orb_true_iff in H as [H|H]; zbool; try lia).
Qed.

Lemma key_char_range c : key_char c = true -> 48 <= c <= 57 \/ 65 <= c <= 90 \/ 97 <= c <= 122 \/ c = 95.
Proof.
  unfold key_char, key_start, ascii_digit. intros H.
  repeat (apply orb_true_iff in H as [H|H]; zbool; try lia).
Qed.

Lemma key_char_not_space c : key_char c = true -> is_space c = false.
Proof.
  intros H%key_char_range. destruct (is_space c) eqn:E; [|done]. apply is_space_cases in E. lia.
Qed.

Lemma line_end_space c : is_line_end c = true -> is_space c = true.
Proof.
  unfold is_line_end, mem_byte. cbn [existsb]. intros H.
  repeat (apply orb_true_iff in H as [H|H]; [zbool; subst; reflexivity|]). done.
Qed.

Lemma not_space_hspace c : is_space c = false -> is_hspace c = false.
Proof. unfold is_hspace. by intros ->. Qed.

(** ** Stripping *)

Lemma drop_while_cons p c s : p c = false -> drop_while p (c :: s) = c :: s.
Proof. intros H. simpl. by rewrite H. Qed.

Lemma forallb_drop_while (q p : Z -> bool) s : forallb q s = true -> forallb q (drop_while p s) = true.
Proof. induction s as [|c s IH]; simpl; [done|]. intros H. destruct (p c); [|done]. zbool. auto. Qed.

Lemma forallb_rev (q : Z -> bool) s : forallb q (rev s) = forallb q s.
Proof. induction s as [|c s IH]; simpl; [done|]. rewrite forallb_app, IH. simpl. rewrite andb_true_r. apply andb_comm. Qed.

Lemma forallb_strip (q : Z -> bool) s : forallb q s = true -> forallb q (strip s) = true.
Proof.
  intros H. unfold strip, rstrip. rewrite forallb_rev. apply forallb_drop_while. rewrite forallb_rev.
  by apply forallb_drop_while.
Qed.

Lemma drop_while_suffix p s : exists x, s = x ++ drop_while p s /\ forallb p x = true.
Proof.
  induction s as [|c s (x & Hx & Hp)]; simpl; [by exists []|].
  destruct (p c) eqn:E; [|by exists []]. exists (c :: x). simpl. rewrite E. split; [by f_equal|done].
Qed.

Lemma length_drop_while p s : (length (drop_while p s) <= length s)%nat.
Proof. induction s as [|c s IH]; simpl; [lia|]. destruct (p c); simpl; lia. Qed.

Lemma drop_while_stop p s : match drop_while p s with [] => True | c :: _ => p c = false end.
Proof. induction s as [|c s IH]; simpl; [done|]. destruct (p c) eqn:E; [done|by rewrite E]. Qed.

(** A stripped text begins and ends with something else than white space. *)
Lemma strip_fixed s :
  s = strip s -> s <> [] ->
  (exists c r, s = c :: r /\ is_space c = false) /\ (exists r c, s = r ++ [c] /\ is_space c = false).
Proof.
  intros H Hne. set (t := drop_while is_space s).
  assert (Hlen : length s = length t).
  { pose proof (length_drop_while is_space s) as L1. fold t in L1.
    pose proof (length_drop_while is_space (rev t)) as L2. rewrite length_rev in L2.
    unfold strip, rstrip in H. fold t in H. apply (f_equal length) in H. rewrite length_rev in H. lia. }
  assert (Hst : s = t).
  { destruct (drop_while_suffix is_space s) as (x & Hx & _). fold t in Hx.
    destruct x; [done|]. apply (f_equal length) in Hx. rewrite length_app in Hx. simpl in Hx. lia. }
  split.
  - pose proof (drop_while_stop is_space s) as Hs. fold t in Hs. rewrite <- Hst in Hs.
    destruct s as [|c r]; [done|]. eauto.
  - pose proof (drop_while_stop is_space (rev t)) as Hs.
    destruct (drop_while is_space (rev t)) as [|c r] eqn:E.
    { unfold strip, rstrip in H. fold t in H. rewrite E in H. done. }
    exists (rev r), c. split; [|done].
    unfold strip, rstrip in H. fold t in H. rewrite E in H. done.
Qed.

Lemma rstrip_last r c : is_space c = false -> rstrip (r ++ [c]) = r ++ [c].
Proof.
  intros H. unfold rstrip. rewrite rev_app_distr. cbn [rev app]. rewrite drop_while_cons by done.
  cbn [rev]. by rewrite rev_involutive.
Qed.

(** ** The encoder, read back *)

Lemma escape_cons c v :
  escape (c :: v) = (if c =? 92 then [92; 92] else if c =? 34 then [92; 34] else [c]) ++ escape v.
Proof.
  unfold escape. cbn [flat_map]. rewrite flat_map_app. f_equal.
  destruct (c =? 92) eqn:E; [done|]. cbn [flat_map]. destruct (c =? 34); done.
Qed.

Lemma scan_quoted_escape v rest :
  scan_quoted 34 (escape v ++ 34 :: rest) = Some (escape v, rest).
Proof.
  induction v as [|c v IH]; [done|]. rewrite escape_cons.
  destruct (c =? 92) eqn:E1; [|destruct (c =? 34) eqn:E2]; rewrite <- app_assoc; cbn [app].
  - cbn [scan_quoted Z.eqb]. by rewrite IH.
  - cbn [scan_quoted Z.eqb]. by rewrite IH.
  - assert (H : scan_quoted 34 (c :: escape v ++ 34 :: rest)
      = if c =? 34 then Some ([], escape v ++ 34 :: rest) else if c =? 92 then None
        else match scan_quoted 34 (escape v ++ 34 :: rest) with Some (w, r) => Some (c :: w, r) | None => None end).
    { zbool. destruct c as [|p|p]; [done| |done]. repeat (destruct p as [p|p|]; try done). }
    by rewrite H, E1, E2, IH.
Qed.

Lemma decode_other f c s : c <> 92 -> decode f (c :: s) = c :: decode f s.
Proof. intros H. destruct c as [|p|p]; [done| |done]. repeat (destruct p as [p|p|]; try done). Qed.

Lemma decode_escape v : decode double_escape (escape v) = v.
Proof.
  induction v as [|c v IH]; [done|]. rewrite escape_cons.
  destruct (c =? 92) eqn:E1; [|destruct (c =? 34) eqn:E2]; zbool; subst; cbn [app].
  - cbn [decode double_escape Z.eqb Pos.eqb]. by rewrite IH.
  - cbn [decode double_escape Z.eqb Pos.eqb]. by rewrite IH.
  - rewrite decode_other by done. by rewrite IH.
Qed.

(** A trailing comment as a bare or well-formed quoted line carries it. *)
Definition comment_ok (c : bytes) : Prop :=
  c = [] \/ exists ws text, c = ws ++ 35 :: text /\ ws <> [] /\ forallb is_space ws = true.

Lemma drop_while_app_stop p a b :
  drop_while p a <> [] -> drop_while p (a ++ b) = drop_while p a ++ b.
Proof. induction a as [|c a IH]; simpl; [done|]. by destruct (p c). Qed.

Lemma drop_while_all p a b : forallb p a = true -> drop_while p (a ++ b) = drop_while p b.
Proof. induction a as [|c a IH]; simpl; [done|]. intros H. zbool. rewrite H. auto. Qed.

Lemma comment_start_app v c :
  comment_start v = None -> (v = [] \/ exists r x, v = r ++ [x] /\ is_space x = false) -> comment_ok c ->
  comment_start (v ++ c) = match c with [] => None | _ => Some (length v) end.
Proof.
  intros Hv Hend [->|(ws & text & -> & Hne & Hws)]; [by rewrite app_nil_r|].
  destruct ws as [|w ws]; [done|]. cbn [app].
  cbn [forallb] in Hws. apply andb_true_iff in Hws as [Hw Hws].
  assert (Hc : comment_start (w :: ws ++ 35 :: text) = Some 0%nat).
  { cbn [comment_start]. rewrite Hw, drop_while_all by done. rewrite drop_while_cons by done. done. }
  induction v as [|x v IH]; [done|]. cbn [comment_start app length] in *.
  destruct (is_space x && match drop_while is_space v with 35 :: _ => true | _ => false end) eqn:E; [done|].
  assert (Hvn : comment_start v = None) by (by destruct (comment_start v)).
  assert (Hend' : v = [] \/ exists r x, v = r ++ [x] /\ is_space x = false).
  { destruct Hend as [|(r & y & Hr & Hy)]; [done|]. destruct r as [|z r]; injection Hr as -> ->; [by left|right; eauto]. }
  rewrite (IH Hvn Hend').
  destruct (is_space x) eqn:Ex; [|done]. cbn [andb] in *.
  assert (Hdw : drop_while is_space v <> []).
  { destruct Hend' as [->|(r & y & -> & Hy)].
    - exfalso. destruct Hend as [|(r & y & Hr & Hy)]; [done|]. destruct r as [|z r]; [injection Hr as ->; congruence|]. injection Hr as _ Hr. by destruct r.
    - intros Hd. destruct (drop_while_suffix is_space (r ++ [y])) as (p & Hp & Hsp). rewrite Hd, app_nil_r in Hp.
      rewrite <- Hp, forallb_app in Hsp. simpl in Hsp. rewrite Hy in Hsp. by rewrite andb_false_r in Hsp. }
  rewrite drop_while_app_stop by done. destruct (drop_while is_space v); [done|].
  cbn [app]. by rewrite E.
Qed.

(** ** A written line parses back *)

Definition valid_key (key : bytes) : bool :=
  match key with c :: r => key_start c && forallb key_char r | [] => false end.

Lemma valid_key_chars key : valid_key key = true -> forallb key_char key = true /\ key <> [].
Proof.
  destruct key as [|c r]; [done|]. simpl. intros H. zbool. split; [|done].
  unfold key_char at 1. by rewrite H, H0.
Qed.

Lemma key_no_line_end key : valid_key key = true -> no_line_end key = true.
Proof.
  intros Hk. destruct (valid_key_chars _ Hk) as [Hkc _]. unfold no_line_end. rewrite forallb_forall in *.
  intros x Hx. specialize (Hkc x Hx). apply key_char_not_space in Hkc.
  destruct (is_line_end x) eqn:E; [|done]. apply line_end_space in E. congruence.
Qed.

Lemma match_key_app key rest : valid_key key = true -> match_key (key ++ 61 :: rest) = Some (key, 61 :: rest).
Proof.
  destruct key as [|c r]; [done|]. simpl. intros H. zbool. rewrite H.
  assert (E : take_while key_char (r ++ 61 :: rest) = r /\ drop_while key_char (r ++ 61 :: rest) = 61 :: rest).
  { clear H. induction r as [|x r IH]; [done|]. simpl in *. zbool. rewrite H. destruct (IH H0) as [-> ->]. done. }
  by destruct E as [-> ->].
Qed.

Lemma match_rest_line s : forallb (fun c => negb (c =? 10)) s = true -> match_rest s = Some s.
Proof.
  intros H. unfold match_rest.
  assert (E : drop_while (fun c => negb (c =? 10)) s = [] /\ take_while (fun c => negb (c =? 10)) s = s).
  { induction s as [|c s IH]; [done|]. simpl in *. apply andb_true_iff in H as [H H0]. rewrite H.
    destruct (IH H0) as [-> ->]. done. }
  by destruct E as [-> ->].
Qed.

Lemma match_binding_built key rest :
  valid_key key = true -> forallb (fun c => negb (c =? 10)) rest = true ->
  match_binding (key ++ 61 :: rest) = Some (key, rest).
Proof.
  intros Hk Hr. unfold match_binding. rewrite match_key_app by done.
  rewrite drop_while_cons by done. by rewrite match_rest_line.
Qed.

Lemma startswith_key key rest p :
  startswith (key ++ 61 :: rest) p = true -> mem_byte 61 p = false -> startswith key p = true.
Proof.
  revert key. induction p as [|x p IH]; intros key; [by destruct key|].
  unfold mem_byte. cbn [existsb]. intros H Hm. apply orb_false_iff in Hm as [Hx Hm].
  destruct key as [|c key]; cbn [app startswith] in *; apply andb_true_iff in H as [H1 H2]; zbool.
  - congruence.
  - subst. rewrite Z.eqb_refl. by apply IH.
Qed.

Lemma match_assign_built key rest :
  valid_key key = true -> forallb (fun c => negb (c =? 10)) rest = true ->
  match_assign (key ++ 61 :: rest) = Some (key, rest).
Proof.
  intros Hk Hr. destruct (valid_key_chars key Hk) as [Hc Hne].
  unfold match_assign.
  assert (Hd : drop_while is_hspace (key ++ 61 :: rest) = key ++ 61 :: rest).
  { destruct key as [|c r]; [done|]. cbn [app forallb] in *. apply andb_true_iff in Hc as [Hc _].
    apply drop_while_cons, not_space_hspace, key_char_not_space, Hc. }
  rewrite Hd.
  destruct (startswith (key ++ 61 :: rest) (str "export")) eqn:E.
  2: { cbv iota. by apply match_binding_built. }
  apply startswith_key in E; [|done]. apply startswith_spec in E as [r ->].
  rewrite <- app_assoc. change (drop 6 (str "export" ++ r ++ 61 :: rest)) with (r ++ 61 :: rest).
  rewrite app_assoc.
  assert (Hh : match r ++ 61 :: rest with
               | [] => None
               | c :: r0 => if is_hspace c then match_binding (drop_while is_hspace r0) else None
               end = None).
  { rewrite forallb_app in Hc. apply andb_true_iff in Hc as [_ Hc]. destruct r as [|c r]; [done|].
    cbn [app forallb] in *. apply andb_true_iff in Hc as [Hc _].
    by rewrite not_space_hspace by (by apply key_char_not_space). }
  rewrite Hh. by apply match_binding_built.
Qed.

Lemma no_newline s : no_line_end s = true -> forallb (fun c => negb (c =? 10)) s = true.
Proof.
  unfold no_line_end. rewrite !forallb_forall. intros H x Hx. specialize (H x Hx).
  destruct (x =? 10) eqn:E; [|done]. zbool. by subst.
Qed.

Lemma forallb_escape (p : Z -> bool) v :
  p 92 = true -> p 34 = true -> forallb p v = true -> forallb p (escape v) = true.
Proof.
  intros H1 H2. induction v as [|c v IH]; [done|]. rewrite escape_cons. cbn [forallb]. intros H.
  apply andb_true_iff in H as [Hc H]. rewrite forallb_app, IH by done.
  destruct (c =? 92); [simpl; by rewrite H1|]. destruct (c =? 34); simpl; [by rewrite H1, H2|by rewrite Hc].
Qed.

Lemma encode_no_line_end v w : encode_value v = Some w -> no_line_end v = true -> no_line_end w = true.
Proof.
  unfold encode_value, no_line_end. destruct (negb _); [done|]. destruct (needs_quotes v); intros [= <-] H; [|done].
  cbn [app forallb]. rewrite forallb_app, forallb_escape by done. done.
Qed.

(** The round trip of one assignment, with the trailing comment of the line it replaces. *)
Lemma parse_line_built key v w comment :
  valid_key key = true -> encode_value v = Some w -> no_line_end v = true ->
  no_line_end comment = true -> comment_ok comment -> (w = [] -> comment = []) ->
  parse_line (key ++ [61] ++ w ++ comment) = Some (mkEntry key v comment).
Proof.
  intros Hk He Hv Hc Hok Hempty. unfold parse_line. cbn [app].
  assert (Hnl : forallb (fun c => negb (c =? 10)) (w ++ comment) = true).
  { apply no_newline. unfold no_line_end in *. rewrite forallb_app, Hc, andb_true_r.
    by apply (encode_no_line_end v). }
  rewrite match_assign_built by done.
  unfold encode_value in He. destruct (negb (writable v)); [done|].
  destruct (needs_quotes v) eqn:Eq; injection He as <-.
  - cbn [app]. rewrite drop_while_cons by done.
    rewrite <- !app_assoc. cbn [app]. by rewrite scan_quoted_escape, decode_escape.
  - destruct v as [|c v].
    { rewrite Hempty by done. done. }
    unfold needs_quotes in Eq. rewrite !orb_false_iff in Eq. destruct Eq as [[[Es Ec] Eh] _].
    apply negb_false_iff, bool_decide_eq_true in Es.
    destruct (strip_fixed _ Es ltac:(done)) as [(c0 & r0 & E0 & Hs0) (r1 & c1 & E1 & Hs1)].
    injection E0 as <- <-.
    assert (Hcs : comment_start (c :: v) = None) by (by destruct (comment_start (c :: v))).
    change ((c :: v) ++ comment) with (c :: (v ++ comment)).
    rewrite drop_while_cons.
    2: { destruct (mem_byte c [32; 9]) eqn:Em; [|done]. unfold mem_byte in Em. cbn [existsb] in Em.
         apply orb_true_iff in Em as [Em|Em]; [zbool; by subst|].
         apply orb_true_iff in Em as [Em|Em]; [zbool; by subst|done]. }
    assert (Hbare : (match comment_start ((c :: v) ++ comment) with
                     | None => mkEntry key (rstrip ((c :: v) ++ comment)) []
                     | Some k => mkEntry key (rstrip (take k ((c :: v) ++ comment))) (drop k ((c :: v) ++ comment))
                     end) = mkEntry key (c :: v) comment).
    { rewrite comment_start_app; [|done|right; eauto|done]. destruct comment as [|x comment].
      - rewrite app_nil_r, E1. by rewrite rstrip_last.
      - rewrite take_app_length, drop_app_length, E1. by rewrite rstrip_last. }
    cbn [app] in Hbare |- *. f_equal. unfold mem_byte in Eh. cbn [existsb] in Eh.
    rewrite !orb_false_iff in Eh. destruct Eh as (_ & E34 & E39 & _). zbool.
    destruct c as [|p|p]; [exact Hbare| |exact Hbare].
    repeat (destruct p as [p|p|]; try exact Hbare); done.
Qed.

(** ** Lines *)

Lemma splitlines_go_lines out : forall rest cur,
  Forall (fun l => no_line_end l = true) out -> no_line_end (rev cur) = true ->
  splitlines_go cur (flat_map (fun l => l ++ [10]) out ++ rest)
  = match out with
    | [] => splitlines_go cur rest
    | l :: out => (rev cur ++ l) :: out ++ splitlines_go [] rest
    end.
Proof.
  induction out as [|l out IH]; intros rest cur Hout Hcur; [done|].
  apply Forall_cons_1 in Hout as [Hl Hout]. cbn [flat_map]. rewrite <- !app_assoc.
  revert cur Hcur Hl. induction l as [|c l IHl]; intros cur Hcur Hl.
  - cbn [app splitlines_go is_line_end]. rewrite app_nil_r.
    change (is_line_end 10) with true. cbn iota. f_equal.
    rewrite IH by done. destruct out; [done|]. by rewrite app_comm_cons.
  - cbn [app splitlines_go]. cbn [no_line_end forallb] in Hl. apply andb_true_iff in Hl as [Hc Hl]. zbool.
    rewrite Hc. rewrite IHl; [|simpl; unfold no_line_end in *; rewrite forallb_app, Hcur; simpl; by rewrite Hc|done].
    cbn [rev]. by rewrite <- app_assoc.
Qed.

Lemma join_lines_flat out : out <> [] -> join_lines out ++ [10] = flat_map (fun l => l ++ [10]) out.
Proof.
  induction out as [|l out IH]; [done|]. intros _. destruct out as [|l' out]; [simpl; by rewrite app_nil_r|].
  change (join_lines (l :: l' :: out)) with (l ++ [10] ++ join_lines (l' :: out)).
  change (flat_map (fun l => l ++ [10]) (l :: l' :: out)) with ((l ++ [10]) ++ flat_map (fun l => l ++ [10]) (l' :: out)).
  rewrite <- IH by done. by rewrite <- !app_assoc.
Qed.

Lemma universal_newlines_id s : forallb (fun c => negb (c =? 13)) s = true -> universal_newlines s = s.
Proof.
  induction s as [|c s IH]; [done|]. cbn [forallb]. intros H. zbool.
  assert (E : universal_newlines (c :: s) = c :: universal_newlines s).
  { destruct c as [|p|p]; [done| |done]. repeat (destruct p as [p|p|]; try done). }
  by rewrite E, IH.
Qed.

Lemma splitlines_no_line_end s : Forall (fun l => no_line_end l = true) (splitlines s).
Proof.
  unfold splitlines. assert (H : forall n s cur, (length s <= n)%nat -> no_line_end (rev cur) = true ->
    Forall (fun l => no_line_end l = true) (splitlines_go cur s)); [|by apply (H (length s))].
  clear s. intros n. induction n as [|n IH]; intros s cur Hn Hcur.
  - destruct s; [|simpl in Hn; lia]. cbn [splitlines_go]. destruct cur; by repeat constructor.
  - destruct s as [|c s]; cbn [splitlines_go]; [destruct cur; by repeat constructor|]. simpl in Hn.
    destruct (is_line_end c) eqn:E.
    + constructor; [done|].
      assert (H1 : Forall (fun l => no_line_end l = true) (splitlines_go [] s)) by (apply IH; [lia|done]).
      destruct c as [|p|p]; [exact H1| |exact H1].
      repeat (destruct p as [p|p|]; try exact H1).
      destruct s as [|x s]; [exact H1|]. destruct x as [|p|p]; [exact H1| |exact H1].
      repeat (destruct p as [p|p|]; try exact H1). apply IH; [simpl in Hn; lia|done].
    + apply IH; [lia|]. simpl. unfold no_line_end in *. rewrite forallb_app, Hcur. simpl. by rewrite E.
Qed.

Lemma file_lines_written out :
  Forall (fun l => no_line_end l = true) out ->
  file_lines (Some (match out with [] => [] | _ => join_lines out ++ [10] end)) = out.
Proof.
  intros H. unfold file_lines. destruct out as [|l out]; [done|].
  rewrite join_lines_flat by done. rewrite universal_newlines_id.
  - unfold splitlines. rewrite <- (app_nil_r (flat_map _ _)), splitlines_go_lines by done.
    cbn [rev app splitlines_go]. by rewrite app_nil_r.
  - apply forallb_forall. intros c Hc. apply in_flat_map in Hc as (x & Hx & Hc).
    rewrite List.Forall_forall in H. specialize (H x Hx). unfold no_line_end in H.
    rewrite forallb_forall in H. apply in_app_iff in Hc as [Hc|[<-|[]]]; [|done].
    specialize (H c Hc). destruct (c =? 13) eqn:E; [|done]. zbool. by subst.
Qed.

(** ** The bindings of a list of lines *)

(** The values bound to a key, in order: the last is in force. *)
Definition values_of (key : bytes) (lines : list bytes) : list bytes :=
  omap (fun raw => match parse_line raw with
                   | Some e => if bool_decide (e_key e = key) then Some (e_value e) else None
                   | None => None
                   end) lines.

Lemma bind_lines_lookup lines m key :
  foldl bind_line m lines !! key = match list.last (values_of key lines) with Some v => Some v | None => m !! key end.
Proof.
  revert m. induction lines as [|raw lines IH]; intros m; [done|]. cbn [foldl]. rewrite IH.
  unfold values_of. cbn [omap list_omap]. fold (values_of key lines). unfold bind_line.
  destruct (parse_line raw) as [e|]; [|done]. case_bool_decide as E.
  - rewrite last_cons. destruct (list.last (values_of key lines)); [done|]. by rewrite E, lookup_insert_eq.
  - by rewrite lookup_insert_ne.
Qed.

Lemma values_of_app key a b : values_of key (a ++ b) = values_of key a ++ values_of key b.
Proof. apply omap_app. Qed.

Lemma last_from_app i key a b :
  last_from i key (a ++ b) = match last_from (i + length a) key b with
                             | Some j => Some j | None => last_from i key a end.
Proof.
  revert i. induction a as [|e a IH]; intros i; cbn [app last_from length].
  - rewrite Nat.add_0_r. by destruct (last_from i key b).
  - rewrite IH. replace (S i + length a)%nat with (i + S (length a))%nat by lia.
    by destruct (last_from (i + S (length a)) key b).
Qed.

Lemma last_from_bounds i key es j : last_from i key es = Some j -> (i <= j < i + length es)%nat.
Proof.
  revert i j. induction es as [|e es IH]; intros i j; cbn [last_from length]; [done|].
  destruct (last_from (S i) key es) as [k|] eqn:E; [intros [= <-]; apply IH in E; lia|].
  destruct e as [e|]; [|done]. case_bool_decide; [|done]. intros [= <-]. lia.
Qed.

Lemma last_from_none i key lines :
  last_from i key (map parse_line lines) = None -> values_of key lines = [].
Proof.
  revert i. induction lines as [|raw lines IH]; intros i; cbn [map last_from]; [done|].
  destruct (last_from (S i) key _) eqn:E; [done|]. unfold values_of. cbn [omap list_omap].
  fold (values_of key lines). rewrite (IH _ E). destruct (parse_line raw) as [e|]; [|done].
  by case_bool_decide.
Qed.

Lemma assoc_app_None key m : assoc key m = None <-> key ∉ map fst m.
Proof.
  induction m as [|[k v] m IH]; cbn [assoc map]; [split; [by intros _ ?%elem_of_nil|done]|].
  cbn [fst]. rewrite not_elem_of_cons. case_bool_decide; [split; [done|by intros []]|].
  rewrite IH. split; [intros ?; split; [congruence|done]|by intros []].
Qed.

Section Update.
Context (updates encoded : list (bytes * bytes)).
Context (Henc : encode_all updates = Some encoded).
Context (Hnd : NoDup (map fst updates)).
Context (Hkeys : Forall (fun kv => valid_key kv.1 = true /\ no_line_end kv.2 = true) updates).

Lemma encoded_assoc key :
  match assoc key updates with
  | None => assoc key encoded = None
  | Some v => exists w, assoc key encoded = Some w /\ encode_value v = Some w
                        /\ valid_key key = true /\ no_line_end v = true
  end.
Proof.
  clear Hnd. revert encoded Henc. induction Hkeys as [|[k v] ups [Hk Hv] Hups IH]; intros enc He.
  - injection He as <-. done.
  - unfold encode_all in He. cbn [mapM] in He. apply bind_Some in He as ([k' w] & E1 & He).
    apply bind_Some in He as (enc' & E2 & He). injection He as <-.
    apply bind_Some in E1 as (w' & E1 & E1'). injection E1' as <- <-. cbn [fst snd] in *.
    cbn [assoc]. case_bool_decide; [subst; eauto|]. by apply IH.
Qed.

Lemma encoded_keys : map fst encoded = map fst updates.
Proof.
  clear Hnd Hkeys. revert encoded Henc. induction updates as [|[k v] ups IH]; intros enc He.
  - by injection He as <-.
  - unfold encode_all in He. cbn [mapM] in He. apply bind_Some in He as ([k' w] & E1 & He).
    apply bind_Some in He as (enc' & E2 & He). injection He as <-.
    apply bind_Some in E1 as (w' & E1 & E1'). injection E1' as <- <-. cbn [map fst]. by rewrite (IH enc').
Qed.

(** Lines whose trailing text is a comment, where an updated key is bound. *)
Definition updatable (raw : bytes) : Prop :=
  forall e, parse_line raw = Some e -> assoc (e_key e) updates <> None -> comment_ok (e_comment e).

Lemma comment_line c : comment_ok c -> c <> [] -> startswith (strip c) [35] = true /\ parse_line (strip c) = None.
Proof.
  intros [->|(ws & text & -> & _ & Hws)] Hne; [done|].
  assert (E : exists t, strip (ws ++ 35 :: text) = 35 :: t).
  { unfold strip. rewrite drop_while_all by done. rewrite drop_while_cons by done.
    unfold rstrip. cbn [rev].
    destruct (drop_while_suffix is_space (rev text ++ [35])) as (x & Hx & Hsx).
    assert (Hn : drop_while is_space (rev text ++ [35]) <> []).
    { intros E. rewrite E, app_nil_r in Hx. rewrite <- Hx, forallb_app in Hsx. simpl in Hsx.
      by rewrite andb_false_r in Hsx. }
    destruct (exists_last Hn) as (r & c & Hr). rewrite Hr in *. rewrite app_assoc in Hx.
    apply app_inj_tail in Hx as [_ <-]. exists (rev r). by rewrite rev_app_distr. }
  destruct E as [t ->]. split; [by destruct t|]. reflexivity.
Qed.

(** *** Characters of the parts of a line *)

Lemma forallb_take_while (q p : Z -> bool) t : forallb q t = true -> forallb q (take_while p t) = true.
Proof.
  induction t as [|c t IH]; [done|]. cbn [forallb take_while]. intros H. apply andb_true_iff in H as [Hc H].
  destruct (p c); [cbn [forallb]; by rewrite Hc, IH|done].
Qed.

Lemma forallb_drop (q : Z -> bool) n t : forallb q t = true -> forallb q (drop n t) = true.
Proof. rewrite !forallb_forall. intros H x Hx. apply H. rewrite <- (take_drop n t). apply in_app_iff. by right. Qed.

Lemma match_binding_forallb q t key rest :
  match_binding t = Some (key, rest) -> forallb q t = true -> forallb q rest = true.
Proof.
  unfold match_binding, match_key. destruct t as [|c t]; [done|]. destruct (key_start c); [|done].
  intros H Hq. cbn [forallb] in Hq. apply andb_true_iff in Hq as [_ Hq].
  pose proof (forallb_drop_while q is_hspace _ (forallb_drop_while q key_char t Hq)) as H1.
  destruct (drop_while is_hspace (drop_while key_char t)) as [|c' r]; [done|].
  cbn [forallb] in H1. apply andb_true_iff in H1 as [_ H1].
  assert (Hr : match match_rest r with Some rest => Some (c :: take_while key_char t, rest) | None => None end
               = Some (key, rest)).
  { destruct c' as [|p|p]; [done| |done]. repeat (destruct p as [p|p|]; try done). }
  unfold match_rest in Hr.
  assert (Hrest : rest = take_while (fun c => negb (c =? 10)) r).
  { destruct (drop_while _ r) as [|x l]; [congruence|]. destruct x as [|p|p]; [done| |done].
    repeat (destruct p as [p|p|]; try done). destruct l; [congruence|done]. }
  subst rest. by apply forallb_take_while.
Qed.

Lemma match_assign_forallb q t key rest :
  match_assign t = Some (key, rest) -> forallb q t = true -> forallb q rest = true.
Proof.
  unfold match_assign. intros H Hq. pose proof (forallb_drop_while q is_hspace t Hq) as H1.
  set (u := drop_while is_hspace t) in *.
  destruct (if startswith u (str "export") then _ else None) as [kr|] eqn:E.
  - injection H as ->. destruct (startswith u _); [|done].
    pose proof (forallb_drop q 6 u H1) as H2. destruct (drop 6 u) as [|c r]; [done|].
    cbn [forallb] in H2. apply andb_true_iff in H2 as [_ H2]. destruct (is_hspace c); [|done].
    eapply match_binding_forallb; [exact E|]. by apply forallb_drop_while.
  - by eapply match_binding_forallb.
Qed.

Lemma scan_quoted_suffix qt t v after : scan_quoted qt t = Some (v, after) -> exists x, t = x ++ after.
Proof.
  assert (H : forall n t v after, (length t <= n)%nat -> scan_quoted qt t = Some (v, after) -> exists x, t = x ++ after).
  2: { by apply (H (length t)). }
  clear t v after. induction n as [|n IH]; intros t v after Hn H; destruct t as [|c t]; [done|simpl in Hn; lia|done|].
  simpl in Hn.
  assert (Hgen : (if c =? qt then Some ([], t) else if c =? 92 then None
      else match scan_quoted qt t with Some (v, rest) => Some (c :: v, rest) | None => None end) = Some (v, after)
      -> exists x, c :: t = x ++ after).
  { destruct (c =? qt); [intros [= <- <-]; by exists [c]|]. destruct (c =? 92); [done|].
    destruct (scan_quoted qt t) as [[v' r']|] eqn:E; [|done]. intros [= <- <-].
    destruct (IH t v' r' ltac:(lia) E) as [x ->]. by exists (c :: x). }
  destruct c as [|p|p]; [by apply Hgen| |by apply Hgen].
  repeat (destruct p as [p|p|]; try by apply Hgen).
  destruct t as [|c2 t]; [by apply Hgen|]. cbn [scan_quoted] in H. destruct (c2 =? 10); [done|].
  destruct (scan_quoted qt t) as [[v' r']|] eqn:E; [|done]. injection H as <- <-.
  simpl in Hn. destruct (IH t v' r' ltac:(lia) E) as [x ->]. by exists (92 :: c2 :: x).
Qed.

Lemma parse_line_comment raw e : parse_line raw = Some e -> no_line_end raw = true -> no_line_end (e_comment e) = true.
Proof.
  unfold parse_line, no_line_end. destruct (match_assign raw) as [[key rest]|] eqn:E; [|done].
  set (p := fun c => negb (is_line_end c)). intros H Hr.
  pose proof (forallb_drop_while p (fun c => mem_byte c [32; 9]) _ (match_assign_forallb p _ _ _ E Hr)) as H1.
  set (t := drop_while _ rest) in *. cbv zeta in H.
  set (bare := match comment_start t with None => _ | Some k => _ end) in *.
  assert (Hb : forallb p (e_comment bare) = true).
  { subst bare. destruct (comment_start t); [|done]. cbn [e_comment]. by apply forallb_drop. }
  clearbody bare. injection H as <-.
  assert (Hq : forall qt f r, (exists x, t = x ++ r) ->
    forallb p (e_comment (match scan_quoted qt r with Some (v, after) => mkEntry key (decode f v) after | None => bare end)) = true).
  { intros qt f r [x Hx]. destruct (scan_quoted qt r) as [[v after]|] eqn:Eq; [|done].
    apply scan_quoted_suffix in Eq as [y ->]. cbn [e_comment]. rewrite Hx, !forallb_app in H1.
    by apply andb_true_iff in H1 as [_ [_ H1]%andb_true_iff]. }
  destruct t as [|c r]; [done|]. assert (Hx : exists x, c :: r = x ++ r) by by exists [c].
  destruct c as [|q|q]; [done| |done]. repeat (destruct q as [q|q|]; try done); by apply Hq.
Qed.

(** *** What the rewritten file binds *)

Lemma emitted_values raw e v w :
  parse_line raw = Some e -> no_line_end raw = true -> updatable raw ->
  assoc (e_key e) updates = Some v -> assoc (e_key e) encoded = Some w ->
  let out := if bool_decide (w = []) && startswith (strip (e_comment e)) [35]
             then [strip (e_comment e); e_key e ++ [61]]
             else [e_key e ++ [61] ++ w ++ e_comment e] in
  (forall key, values_of key out = if bool_decide (e_key e = key) then [v] else [])
  /\ Forall (fun l => no_line_end l = true) out.
Proof.
  intros Hp Hr Hu Hv Hw. pose proof (encoded_assoc (e_key e)) as Ha. rewrite Hv in Ha.
  destruct Ha as (w' & Hw' & He & Hk & Hnl). assert (w' = w) as -> by congruence.
  pose proof (parse_line_comment _ _ Hp Hr) as Hc. assert (Hok : comment_ok (e_comment e)) by (apply Hu; congruence).
  pose proof (key_no_line_end _ Hk) as Hkl.
  pose proof (encode_no_line_end _ _ He Hnl) as Hwl.
  assert (Hval : forall l c, parse_line l = Some (mkEntry (e_key e) v c) ->
    forall key, values_of key [l] = if bool_decide (e_key e = key) then [v] else []).
  { intros l c Hl key. unfold values_of. cbn [omap list_omap]. rewrite Hl. cbn [e_key e_value].
    by case_bool_decide. }
  cbv zeta. destruct (bool_decide (w = []) && startswith (strip (e_comment e)) [35]) eqn:E.
  - apply andb_true_iff in E as [->%bool_decide_eq_true E].
    destruct (comment_line (e_comment e) Hok) as [_ Hn]; [intros E0; by rewrite E0 in E|].
    pose proof (parse_line_built (e_key e) v [] [] Hk He Hnl eq_refl ltac:(by left) ltac:(done)) as Hl.
    rewrite !app_nil_r in Hl. split.
    + intros key. change [strip (e_comment e); e_key e ++ [61]] with ([strip (e_comment e)] ++ [e_key e ++ [61]]).
      rewrite values_of_app, (Hval _ _ Hl). unfold values_of at 1. cbn [omap list_omap]. by rewrite Hn.
    + repeat constructor; [by apply forallb_strip|]. unfold no_line_end in *. by rewrite forallb_app, Hkl.
  - assert (Hempty : w = [] -> e_comment e = []).
    { intros ->. rewrite bool_decide_true in E by done. cbn [andb] in E.
      destruct (e_comment e) as [|x c] eqn:Ec; [done|]. exfalso.
      destruct (comment_line (x :: c) Hok) as [Hs _]; [done|]. congruence. }
    split; [by apply (Hval _ (e_comment e)), parse_line_built|].
    repeat constructor. unfold no_line_end in *. by rewrite !forallb_app, Hkl, Hwl, Hc.
Qed.

Lemma rewrite_values all pre lines :
  all = pre ++ lines -> Forall (fun l => no_line_end l = true) lines -> Forall updatable lines ->
  let last key := last_from 0 key (map parse_line all) in
  let out := rewrite_lines encoded last (length pre) lines in
  (forall key, values_of key out
     = match assoc key updates with
       | None => values_of key lines
       | Some v => match last_from (length pre) key (map parse_line lines) with Some _ => [v] | None => [] end
       end)
  /\ Forall (fun l => no_line_end l = true) out.
Proof.
  intros Hall Hnl Hup last. revert pre Hall. induction lines as [|raw lines IH]; intros pre Hall.
  { split; [|constructor]. intros key. cbn. by destruct (assoc key updates). }
  inversion Hnl as [|? ? Hr Hnl']; subst. inversion Hup as [|? ? Hu Hup']; subst.
  destruct (IH Hnl' Hup' (pre ++ [raw])) as [IHv IHn]; [by rewrite <- app_assoc|].
  rewrite length_app in IHv, IHn. cbn [length] in IHv, IHn. rewrite Nat.add_1_r in IHv, IHn.
  cbn [rewrite_lines]. cbn [map last_from].
  assert (Hraw : forall key, values_of key [raw] = match parse_line raw with
    | Some e => if bool_decide (e_key e = key) then [e_value e] else [] | None => [] end).
  { intros key. unfold values_of. cbn [omap list_omap]. destruct (parse_line raw) as [e|]; [|done].
    by case_bool_decide. }
  unfold rewrite_line. destruct (parse_line raw) as [e|] eqn:Ep.
  2: { split; [|by constructor]. intros key. rewrite values_of_app, Hraw, IHv. cbn [app].
       destruct (assoc key updates).
       - by destruct (last_from (S (length pre)) key _).
       - change (raw :: lines) with ([raw] ++ lines). by rewrite values_of_app, Hraw. }
  pose proof (encoded_assoc (e_key e)) as Ha. destruct (assoc (e_key e) updates) as [v|] eqn:Ev.
  - destruct Ha as (w & Hw & _). rewrite Hw.
    assert (Hlast : last (e_key e) = match last_from (S (length pre)) (e_key e) (map parse_line lines) with
                                     | Some j => Some j | None => Some (length pre) end).
    { subst last. cbv beta. rewrite map_app, last_from_app, length_map. cbn [map last_from]. rewrite Ep.
      rewrite bool_decide_true by done. cbn [Nat.add]. by destruct (last_from (S (length pre)) _ _). }
    destruct (last_from (S (length pre)) (e_key e) (map parse_line lines)) as [j|] eqn:Ej.
    + pose proof (last_from_bounds _ _ _ _ Ej). rewrite Hlast, bool_decide_false by (intros [= ?]; lia). cbn [negb app].
      split; [|done]. intros key. rewrite IHv. destruct (decide (key = e_key e)) as [->|Hne].
      * rewrite Ev, Ej. done.
      * rewrite bool_decide_false by congruence.
        change (raw :: lines) with ([raw] ++ lines). rewrite values_of_app, Hraw, bool_decide_false by congruence.
        destruct (assoc key updates); [|done]. by destruct (last_from (S (length pre)) key _).
    + rewrite Hlast, bool_decide_true by done. cbn [negb].
      destruct (emitted_values raw e v w Ep Hr Hu Ev Hw) as [Hv Hn]. split; [|by apply Forall_app_2].
      intros key. rewrite values_of_app, Hv, IHv. destruct (decide (key = e_key e)) as [->|Hne].
      * by rewrite Ev, Ej, bool_decide_true.
      * rewrite bool_decide_false by congruence. cbn [app].
        change (raw :: lines) with ([raw] ++ lines). rewrite values_of_app, Hraw, bool_decide_false by congruence.
        destruct (assoc key updates); [|done]. by destruct (last_from (S (length pre)) key _).
  - rewrite Ha. split; [|by constructor]. intros key. rewrite values_of_app, Hraw, IHv.
    change (raw :: lines) with ([raw] ++ lines). rewrite values_of_app, Hraw.
    destruct (assoc key updates) eqn:Ek; [|done].
    rewrite bool_decide_false by congruence. by destruct (last_from (S (length pre)) key _).
Qed.

Lemma appended_values (last : bytes -> option nat) :
  let out := map (fun kv => kv.1 ++ [61] ++ kv.2)
               (List.filter (fun kv : bytes * bytes => match last kv.1 with None => true | Some _ => false end) encoded) in
  (forall key, values_of key out = match assoc key updates with
                                   | Some v => match last key with None => [v] | Some _ => [] end
                                   | None => []
                                   end)
  /\ Forall (fun l => no_line_end l = true) out.
Proof.
  cbv zeta. revert encoded Henc Hnd. induction Hkeys as [|[k v] ups [Hk Hv] Hups IH]; intros enc He Hnd'.
  - injection He as <-. split; [done|constructor].
  - unfold encode_all in He. cbn [mapM] in He. apply bind_Some in He as ([k' w] & E1 & He).
    apply bind_Some in He as (enc' & E2 & He). injection He as <-.
    apply bind_Some in E1 as (w' & E1 & E1'). injection E1' as <- <-. cbn [fst snd] in *.
    apply list.NoDup_cons in Hnd' as [Hin Hnd']. change (k ∉ map fst ups) in Hin. destruct (IH Hups enc' E2 Hnd') as [IHv IHn].
    pose proof (parse_line_built k v w' [] Hk E1 Hv eq_refl ltac:(by left) ltac:(done)) as Hl. rewrite app_nil_r in Hl.
    cbn [List.filter fst]. apply assoc_app_None in Hin. destruct (last k) as [j|] eqn:Ek.
    + split; [|done]. intros key. rewrite IHv. cbn [assoc].
      case_bool_decide; [|done]. subst. by rewrite Hin, Ek.
    + cbn [map fst snd]. split.
      * intros key. match goal with |- values_of _ (?a :: ?b) = _ => change (a :: b) with ([a] ++ b) end. rewrite values_of_app, IHv. unfold values_of at 1.
        cbn [omap list_omap]. rewrite Hl. cbn [e_key e_value assoc].
        case_bool_decide as Hkk.
        -- subst. by rewrite Hin, Ek.
        -- done.
      * constructor; [|done]. unfold no_line_end in *. rewrite !forallb_app.
        pose proof (key_no_line_end _ Hk) as Hkl. unfold no_line_end in Hkl. rewrite Hkl.
        pose proof (encode_no_line_end _ _ E1 Hv) as Hw. unfold no_line_end in Hw. by rewrite Hw.
Qed.
End Update.

(** ** Updating a file *)

(** A line that binds none of the updated keys. *)
Definition untouched (updates : list (bytes * bytes)) (raw : bytes) : bool :=
  match parse_line raw with
  | Some e => match assoc (e_key e) updates with Some _ => false | None => true end
  | None => true
  end.

Lemma untouched_kept updates encoded last i lines :
  (forall key, assoc key updates = None -> assoc key encoded = None) ->
  List.filter (untouched updates) lines `sublist_of` rewrite_lines encoded last i lines.
Proof.
  intros He. revert i. induction lines as [|raw lines IH]; intros i; [constructor|].
  cbn [List.filter rewrite_lines]. unfold untouched at 1, rewrite_line.
  destruct (parse_line raw) as [e|]; [|by apply sublist_skip].
  destruct (assoc (e_key e) updates) eqn:E.
  - by apply sublist_inserts_l.
  - rewrite (He _ E). by apply sublist_skip.
Qed.

Lemma encode_all_none updates :
  encode_all updates = None <-> Exists (fun kv => writable kv.2 = false) updates.
Proof.
  unfold encode_all. rewrite mapM_None. split; intros H; eapply Exists_impl; try apply H; intros [k v]; cbn [fst snd];
    unfold encode_value; destruct (writable v); try done; by destruct (needs_quotes v).
Qed.

(** A value no line can carry: it holds a CR, an LF or a [${] reference. *)
Definition uncarried (v : bytes) : Prop := 10 ∈ v \/ 13 ∈ v \/ exists a b, v = a ++ str "${" ++ b.

Lemma writable_false v : writable v = false <-> uncarried v.
Proof.
  unfold writable, uncarried. rewrite andb_false_iff, negb_false_iff, existsb_exists. split.
  - intros [(c & Hc & Hm)|Hf].
    + apply list_elem_of_In in Hc. unfold mem_byte in Hm. cbn [existsb] in Hm. rewrite !orb_true_iff in Hm.
      destruct Hm as [Hm|[Hm|Hm]]; [| |done]; zbool; subst; auto.
    + right; right. destruct (bfind (str "${") v) as [k|] eqn:E; [|done].
      pose proof (bfind_Some _ _ _ E) as Hs. apply startswith_spec in Hs as [b Hb].
      exists (take k v), b. by rewrite <- Hb, take_drop.
  - intros [H|[H|(a & b & ->)]]; [left; eexists; split; [by apply list_elem_of_In|done]..|]. right.
    destruct (bfind (str "${") (a ++ str "${" ++ b)) as [k|] eqn:E; [done|].
    pose proof (bfind_None _ _ (length a) E) as Hn. by rewrite drop_app_length, startswith_app in Hn.
Qed.

(** C17.  [update_env] on a settings file.  It refuses ([ValueError],
    nothing written) exactly when one of the values holds a CR, an LF or a [${]
    reference. Otherwise, for distinct keys that are names, values without any line
    boundary, and a file in which the text after a value being replaced is a
    comment, reading the new file gives every updated key its new value and every
    other key the value it had; and every line that binds no updated key is kept,
    unchanged and in order. *)
Theorem update_env_spec file updates :
  (update_env file updates = None <-> Exists (fun kv => uncarried kv.2) updates)
  /\ (NoDup (map fst updates) ->
      Forall (fun kv => valid_key kv.1 = true /\ no_line_end kv.2 = true) updates ->
      Forall (updatable updates) (file_lines file) ->
      forall text, update_env file updates = Some text ->
      (forall key, read_env (Some text) !! key
         = match assoc key updates with Some v => Some v | None => read_env file !! key end)
      /\ List.filter (untouched updates) (file_lines file) `sublist_of` file_lines (Some text)).
Proof.
  unfold update_env. split.
  { etrans; [|etrans; [apply (encode_all_none updates)|]].
    - by destruct (encode_all updates).
    - rewrite !Exists_exists. by setoid_rewrite writable_false. }
  intros Hnd Hkeys Hup text. destruct (encode_all updates) as [encoded|] eqn:Henc; [|done].
  cbn [mbind option_bind]. set (last := fun key => last_from 0 key (map parse_line (file_lines file))).
  intros [= <-].
  assert (Hnl : Forall (fun l => no_line_end l = true) (file_lines file)).
  { destruct file as [s|]; [apply splitlines_no_line_end|constructor]. }
  destruct (rewrite_values updates encoded Henc Hkeys (file_lines file) [] (file_lines file) eq_refl Hnl Hup) as [Hv1 Hn1].
  destruct (appended_values updates encoded Henc Hnd Hkeys last) as [Hv2 Hn2].
  fold last in Hv1, Hn1. cbn [length] in Hv1, Hn1.
  set (kept := rewrite_lines encoded last 0 (file_lines file)) in *.
  set (added := map _ (List.filter _ _)) in *. clearbody added.
  assert (Hn : Forall (fun l => no_line_end l = true) (kept ++ added)) by by apply Forall_app_2.
  rewrite (file_lines_written _ Hn). split.
  - intros key. unfold read_env at 1. rewrite (file_lines_written _ Hn), bind_lines_lookup, values_of_app, Hv1, Hv2.
    fold (last key). destruct (assoc key updates) as [v|] eqn:Ek.
    + by destruct (last key).
    + rewrite app_nil_r. unfold read_env. by rewrite bind_lines_lookup.
  - apply sublist_inserts_r, untouched_kept. intros key Ek.
    pose proof (encoded_assoc updates encoded Henc Hkeys key) as H. by rewrite Ek in H.
Qed.

Lemma update_env_spec_witness :
  let file := Some (str "# site" ++ [10] ++ str "A=old  # why" ++ [10] ++ str "B='x y'" ++ [10]) in
  let updates := [(str "A", str "a#b c "); (str "C", str "say hi")] in
  exists text, update_env file updates = Some text
  /\ (forall key, read_env (Some text) !! key
         = match assoc key updates with Some v => Some v | None => read_env file !! key end)
  /\ List.filter (untouched updates) (file_lines file) `sublist_of` file_lines (Some text).
Proof.
  intros file updates. eexists. split; [vm_compute; reflexivity|].
  apply (proj2 (update_env_spec file updates)); [| | |vm_compute; reflexivity].
  - apply (bool_decide_unpack _). vm_compute. exact I.
  - repeat constructor.
  - assert (E : file_lines file = [str "# site"; str "A=old  # why"; str "B='x y'"]) by (vm_compute; reflexivity).
    rewrite E. apply Forall_cons; [|apply Forall_cons; [|apply Forall_cons; [|by apply Forall_nil]]];
      intros e He Ha; vm_compute in He; try discriminate He; injection He as <-.
    + right. exists [32; 32], (str " why"). by repeat split.
    + by left.
Defined.

(** A value that the check for a newline lets through ends its line for the
    reader: it leaves a second assignment behind. *)
Theorem env_value_smuggles_assignment :
  exists value text,
    update_env None [(str "SITE", value)] = Some text /\ read_env None !! str "AUTH" = None
    /\ read_env (Some text) !! str "SITE" <> Some value /\ read_env (Some text) !! str "AUTH" = Some (str "off").
Proof.
  exists (str "a" ++ [11] ++ str "AUTH=off"). eexists. split; [vm_compute; reflexivity|].
  split; [vm_compute; reflexivity|]. split; [by vm_compute|vm_compute; reflexivity].
Qed.

(** Text that follows a quoted value with no space is kept as if it were a
    comment, and becomes part of a bare value. *)
Theorem env_rewrite_absorbs_suffix :
  exists file text,
    read_env (Some file) !! str "K" = Some (str "a") /\ update_env (Some file) [(str "K", str "new")] = Some text
    /\ read_env (Some text) !! str "K" = Some (str "new#note").
Proof.
  exists (str "K='a'#note" ++ [10]). eexists. split; [vm_compute; reflexivity|].
  split; [vm_compute; reflexivity|vm_compute; reflexivity].
Qed.
