(* ===== verification/SbgLogs.v ===== *)
(** * sbgECom log and reply parsers ([rover/drivers/sbg/logs.py])

    The status bit fields, the message records with their properties, the payload reader as a
    parser monad ([take], [opt]) over the typed formats of [PyStruct], one parser per message,
    and the dispatch by class and id. *)

From Stdlib Require Import String.
From S2P Require Import Prelude.
From S2P Require Import PyBytes.
From S2P Require Import PyText.
From S2P Require Import PyFloat.
From S2P Require Import PyStruct.
From S2P Require Import Calendar.
From S2P Require Import Framing.
From S2P Require Import SbgFraming.

(** ** Constants and status bit fields *)

Definition ACCEL_LSB : Z := 1048576.
Definition GYRO_LSB_STD : Z := 67108864.
Definition GYRO_LSB_HIGH : Z := 12304174.
Definition TEMP_LSB : Z := 256.
Definition U8_NA : Z := 0xFF.
Definition U16_NA : Z := 0xFFFF.

Definition bit (n : Z) : Z := Z.shiftl 1 n.

(** The members of the [IntFlag] classes, with their bits. *)
Definition GeneralStatus : list (bytes * Z) :=
  [(str "MAIN_POWER_OK", bit 0); (str "IMU_POWER_OK", bit 1); (str "GPS_POWER_OK", bit 2); (str "SETTINGS_OK", bit 3);
   (str "TEMPERATURE_OK", bit 4); (str "DATALOGGER_OK", bit 5); (str "CPU_OK", bit 6)].
Definition AidingStatus : list (bytes * Z) :=
  [(str "GPS1_POS_RECV", bit 0); (str "GPS1_VEL_RECV", bit 1); (str "GPS1_HDT_RECV", bit 2); (str "GPS1_UTC_RECV", bit 3);
   (str "GPS2_POS_RECV", bit 4); (str "GPS2_VEL_RECV", bit 5); (str "GPS2_HDT_RECV", bit 6); (str "GPS2_UTC_RECV", bit 7);
   (str "MAG_RECV", bit 8); (str "ODO_RECV", bit 9)].
Definition EkfFlags : list (bytes * Z) :=
  [(str "ATTITUDE_VALID", bit 4); (str "HEADING_VALID", bit 5); (str "VELOCITY_VALID", bit 6);
   (str "POSITION_VALID", bit 7); (str "VERT_REF_USED", bit 8); (str "MAG_REF_USED", bit 9); (str "GPS1_VEL_USED", bit 10);
   (str "GPS1_POS_USED", bit 11); (str "GPS1_HDT_USED", bit 13); (str "GPS2_VEL_USED", bit 14);
   (str "GPS2_POS_USED", bit 15); (str "GPS2_HDT_USED", bit 17); (str "ZUPT_USED", bit 26); (str "ALIGN_VALID", bit 27)].
Definition GnssSignals : list (bytes * Z) :=
  [(str "GPS_L1", bit 12); (str "GPS_L2", bit 13); (str "GPS_L5", bit 14); (str "GLO_L1", bit 15); (str "GLO_L2", bit 16);
   (str "GLO_L3", bit 17); (str "GAL_E1", bit 18); (str "GAL_E5A", bit 19); (str "GAL_E5B", bit 20); (str "GAL_E5ALT", bit 21);
   (str "GAL_E6", bit 22); (str "BDS_B1", bit 23); (str "BDS_B2", bit 24); (str "BDS_B3", bit 25); (str "QZSS_L1", bit 26);
   (str "QZSS_L2", bit 27); (str "QZSS_L5", bit 28); (str "QZSS_L6", bit 29)].

(** The members of the [IntEnum] classes the properties compare with. *)
Definition ClockState_VALID : Z := 3.
Definition UtcStatus_INITIALIZED : Z := 2.
Definition GnssSolStatus_SOL_COMPUTED : Z := 0.
Definition GnssPosType_RTK_FLOAT : Z := 6.
Definition GnssPosType_RTK_INT : Z := 7.
Definition SatTracking_TRACKING_USED : Z := 5.

Definition IMU_GYROS_USE_HIGH_SCALE : Z := bit 10.
Definition HDT_BASELINE_VALID : Z := bit 6.
Definition SIGNAL_SNR_VALID : Z := bit 5.
Definition EVENT_OVERFLOW : Z := bit 0.
Definition SIGNALS_MASK : Z := 0x3FFFF000.
Definition VERSION_SOFT_SCHEME : Z := bit 31.
Definition QUALIFIERS : list bytes := [str "dev"; str "alpha"; str "beta"; str "rc"; str "stable"; str "hotfix"].

(** [bool(status & mask)]. *)
Definition has (status mask : Z) : bool := negb (Z.land status mask =? 0).
Definition ekf_flag (name : bytes) : Z := default 0 (option_map snd (List.find (fun kv => bool_decide (kv.1 = name)) EkfFlags)).

Definition ekf_mode (status : Z) : Z := Z.land status 0x0F.
Definition gnss_sol_status (status : Z) : Z := Z.land status 0x3F.
Definition gnss_pos_type (status : Z) : Z := Z.land (Z.shiftr status 6) 0x3F.

Definition decode_version (v : Z) : bytes :=
  let field s m := str_int (Z.land (Z.shiftr v s) m) in
  if has v VERSION_SOFT_SCHEME then
    let q := Z.land (Z.shiftr v 28) 0x07 in
    let qual := match nth_error QUALIFIERS (Z.to_nat q) with Some t => t | None => str "q" ++ str_int q end in
    field 22 0x3F ++ str "." ++ field 16 0x3F ++ str "." ++ str_int (Z.land v 0xFFFF) ++ str "-" ++ qual
  else field 24 0xFF ++ str "." ++ field 16 0xFF ++ str "." ++ field 8 0xFF ++ str "." ++ str_int (Z.land v 0xFF).

(** [math.degrees]: a product with the double nearest to 180/pi. *)
Definition RAD_TO_DEG : Z := 4633260481411531256.
Definition FLOAT_360 : Z := 4645040803167600640.
Definition deg (rad : Z) : Z := fmul rad RAD_TO_DEG.

(** [_heading]. *)
Definition heading (rad : Z) : Z :=
  let h := fmod_pos (deg rad) FLOAT_360 in
  if fge h FLOAT_360 then 0 else h.

Definition na (v sentinel : Z) : option Z := if v =? sentinel then None else Some v.

(** ** Messages *)

Definition Vec3 : Type := Z * Z * Z.

Record SbgStatus := mkStatus {
  st_time_stamp_us : Z; general_status : Z; com_status2 : Z; com_status : Z; aiding_status : Z;
  st_uptime_s : option Z; cpu_usage : option Z }.
Definition general (s : SbgStatus) : Z := Z.land (general_status s) 0x7F.
Definition aiding (s : SbgStatus) : Z := Z.land (aiding_status s) 0x3FF.

Record SbgUtcTime := mkUtcTime {
  utc_time_stamp_us : Z; utc_status_word : Z; utc_year : Z; utc_month : Z; utc_day : Z; utc_hour : Z; utc_minute : Z;
  utc_second : Z; nanosecond : Z; gps_tow_ms : Z;
  clk_bias_std : option Z; clk_sf_error_std : option Z; clk_residual_error : option Z;
  utc : option Datetime; leap_second_event : bool }.
Definition clock_stable_input (u : SbgUtcTime) : bool := has (utc_status_word u) 1.
Definition clock_state (u : SbgUtcTime) : Z := Z.land (Z.shiftr (utc_status_word u) 1) 0x0F.
Definition utc_sync (u : SbgUtcTime) : bool := has (utc_status_word u) (bit 5).
Definition utc_status (u : SbgUtcTime) : Z := Z.land (Z.shiftr (utc_status_word u) 6) 0x0F.
Definition utc_valid (u : SbgUtcTime) : bool :=
  match utc u with Some _ => true | None => false end
  && (utc_status u =? UtcStatus_INITIALIZED) && (clock_state u =? ClockState_VALID).

Record SbgImuShort := mkImuShort {
  imu_time_stamp_us : Z; imu_status : Z; accel_mps2 : Vec3; gyro_radps : Vec3; temperature_c : Z }.
Definition high_range (i : SbgImuShort) : bool := has (imu_status i) IMU_GYROS_USE_HIGH_SCALE.

Record SbgImuLegacy := mkImuLegacy {
  iml_time_stamp_us : Z; iml_status : Z; iml_accel_mps2 : Vec3; iml_gyro_radps : Vec3; iml_temperature_c : Z;
  delta_vel : Vec3; delta_angle : Vec3 }.

Record SbgEkfEuler := mkEkfEuler {
  eul_time_stamp_us : Z; roll_deg : Z; pitch_deg : Z; heading_deg : Z; euler_std_deg : Vec3; eul_status : Z;
  mag_declination : option Z; mag_inclination : option Z }.

Record SbgEkfQuat := mkEkfQuat {
  qua_time_stamp_us : Z; quat : Z * Z * Z * Z; qua_std_deg : Vec3; qua_status : Z;
  qua_declination : option Z; qua_inclination : option Z }.

Record SbgEkfNav := mkEkfNav {
  nav_time_stamp_us : Z; vel_ned : Vec3; vel_std_ned : Vec3; lat : Z; lon : Z; altitude_msl : Z; undulation : Z;
  height_hae : Z; pos_std : Vec3; nav_status : Z }.

(** The properties of [_EkfStatus], of a status word. *)
Definition attitude_valid (status : Z) : bool := has status (ekf_flag (str "ATTITUDE_VALID")).
Definition heading_valid (status : Z) : bool := has status (ekf_flag (str "HEADING_VALID")).
Definition velocity_valid (status : Z) : bool := has status (ekf_flag (str "VELOCITY_VALID")).
Definition position_valid (status : Z) : bool := has status (ekf_flag (str "POSITION_VALID")).
Definition ekf_flags (status : Z) : Z := Z.land status (Z.lnot 0x0F).

Record SbgGnssPos := mkGnssPos {
  pos_gnss : Z; pos_time_stamp_us : Z; pos_status : Z; pos_tow_ms : Z; pos_lat : Z; pos_lon : Z; pos_altitude_msl : Z;
  pos_undulation : Z; pos_height_hae : Z; lat_acc : Z; lon_acc : Z; alt_acc : Z;
  num_sv_used : option Z; base_station_id : option Z; diff_age_s : option Z; num_sv_tracked : option Z;
  status_ext : option Z; nr_diag_reboots : option Z; pos_uptime_s : option Z }.
Definition sol_status (p : SbgGnssPos) : Z := gnss_sol_status (pos_status p).
Definition solution_computed (status : Z) : bool := gnss_sol_status status =? GnssSolStatus_SOL_COMPUTED.
Definition pos_type (p : SbgGnssPos) : Z := gnss_pos_type (pos_status p).
Definition rtk_fixed (p : SbgGnssPos) : bool := pos_type p =? GnssPosType_RTK_INT.
Definition rtk_float (p : SbgGnssPos) : bool := pos_type p =? GnssPosType_RTK_FLOAT.
Definition signals (p : SbgGnssPos) : Z := Z.land (pos_status p) SIGNALS_MASK.

Record SbgGnssVel := mkGnssVel {
  vel_gnss : Z; vel_time_stamp_us : Z; vel_status : Z; vel_tow_ms : Z; gnss_vel_ned : Vec3; vel_acc : Vec3;
  course_deg : Z; course_acc_deg : Z }.
Definition vel_type (v : SbgGnssVel) : Z := Z.land (Z.shiftr (vel_status v) 6) 0x3F.

Record SbgGnssHdt := mkGnssHdt {
  hdt_gnss : Z; hdt_time_stamp_us : Z; hdt_status : Z; hdt_tow_ms : Z; hdt_heading_deg : Z; heading_acc_deg : Z;
  hdt_pitch_deg : Z; pitch_acc_deg : Z; baseline_m : option Z; hdt_num_sv_tracked : option Z; hdt_num_sv_used : option Z }.
Definition baseline_valid (h : SbgGnssHdt) : bool := has (hdt_status h) HDT_BASELINE_VALID.

Record SbgEvent := mkEvent { channel : bytes; timestamp_us : Z; ev_status : Z; offsets_us : list Z }.
Definition overflow (e : SbgEvent) : bool := has (ev_status e) EVENT_OVERFLOW.

Record SbgSignal := mkSignal { sig_id : Z; sig_tracking : Z; sig_health : Z; snr : option Z; snr_valid : bool }.
Definition signal_used (s : SbgSignal) : bool := sig_tracking s =? SatTracking_TRACKING_USED.

Record SbgSat := mkSat {
  sat_id : Z; constellation : Z; elevation : Z; azimuth : Z; tracking : Z; health : Z; elevation_status : Z;
  sat_signals : list SbgSignal }.
Definition sat_used (s : SbgSat) : bool := tracking s =? SatTracking_TRACKING_USED.

Record SbgSatList := mkSatList { sl_gnss : Z; sl_time_stamp_us : Z; sats : list SbgSat }.

Record SbgGnssRaw := mkGnssRaw { raw_gnss : Z; raw_data : bytes }.
(** [has_ubx_sync]: [B5 62] somewhere in the chunk. *)
Definition has_ubx_sync (r : SbgGnssRaw) : bool :=
  match bfind [0xB5; 0x62] (raw_data r) with Some _ => true | None => false end.

Record SbgAck := mkAck { ack_msg_id : Z; ack_msg_class : Z; error_code : Z }.
Definition ack_ok (a : SbgAck) : bool := error_code a =? 0.

Record SbgInfo := mkInfo {
  product_code : bytes; serial_number : Z; calibration_rev : Z; calibration_date : option (Z * Z * Z);
  hardware_rev : bytes; firmware : bytes; firmware_raw : Z; hardware_rev_raw : Z }.

Inductive SbgMsg :=
| MStatus (m : SbgStatus) | MUtcTime (m : SbgUtcTime) | MImuShort (m : SbgImuShort) | MImuLegacy (m : SbgImuLegacy)
| MEkfEuler (m : SbgEkfEuler) | MEkfQuat (m : SbgEkfQuat) | MEkfNav (m : SbgEkfNav) | MGnssPos (m : SbgGnssPos)
| MGnssVel (m : SbgGnssVel) | MGnssHdt (m : SbgGnssHdt) | MEvent (m : SbgEvent) | MSatList (m : SbgSatList)
| MGnssRaw (m : SbgGnssRaw) | MAck (m : SbgAck) | MInfo (m : SbgInfo).

(** ** The payload reader ([_Reader])

    A parser takes the bytes left and gives a value and what is left after it; [None] is the
    [_Short] of a mandatory field that is not all there. *)

Definition P (A : Type) : Type := bytes -> option (A * bytes).
#[export] Instance P_ret : MRet P := fun A x b => Some (x, b).
#[export] Instance P_fmap : FMap P := fun A B f p b => match p b with Some (x, b') => Some (f x, b') | None => None end.
#[export] Instance P_bind : MBind P := fun A B k p b =>
  match p b with Some (x, b') => k x b' | None => None end.

Definition take_ (fmt : list Code) : P (tuple fmt) := fun b =>
  if (length b <? calcsize fmt)%nat then None else Some (unpack fmt b, drop (calcsize fmt) b).

Definition opt (fmt : list Code) : P (option (tuple fmt)) := fun b =>
  if (calcsize fmt <=? length b)%nat then (v ← take_ fmt; mret (Some v)) b else Some (None, b).

(** [for _ in range(n)]: the results of [n] runs. *)
Fixpoint times {A} (n : nat) (p : P A) : P (list A) :=
  match n with
  | O => mret []
  | S n => x ← p; l ← times n p; mret (x :: l)
  end.

(** ** Parsers *)

Definition STATUS_FMT := [U32; U16; U16; U32; U32; U32; U16].
Definition p_status : P SbgStatus :=
  '[# ts; general; com2; com; aiding; _; _] ← take_ STATUS_FMT;
  uptime ← opt [U32];
  cpu ← opt [U8];
  mret (mkStatus ts general com2 com aiding (fst <$> uptime) (fst <$> cpu)).

(** [datetime(...)] with microseconds. *)
Definition make_datetime_us (y m d h mi s us : Z) : option Datetime :=
  if (0 <=? us) && (us <=? 999999) then (fun t => t + us) <$> make_datetime y m d h mi s else None.

Definition UTC_FMT := [U32; U16; U16; I8; I8; I8; I8; I8; I32; U32].
Definition p_utc : P SbgUtcTime :=
  '[# ts; status; year; month; day; hour; minute; second; ns; tow] ← take_ UTC_FMT;
  clk ← opt [F32; F32; F32];
  mret (mkUtcTime ts status year month day hour minute second ns tow
          (fst <$> clk) (fst ∘ snd <$> clk) (fst ∘ snd ∘ snd <$> clk)
          (make_datetime_us year month day hour minute (Z.min second 59) (Z.max ns 0 / 1000)) (second =? 60)).

Definition IMU_SHORT_FMT := [U32; U16; I32; I32; I32; I32; I32; I32; I16].
Definition p_imu_short : P SbgImuShort :=
  '[# ts; status; dv0; dv1; dv2; da0; da1; da2; temp] ← take_ IMU_SHORT_FMT;
  let gyro_lsb := if has status IMU_GYROS_USE_HIGH_SCALE then GYRO_LSB_HIGH else GYRO_LSB_STD in
  mret (mkImuShort ts status
          (fdiv_int dv0 ACCEL_LSB, fdiv_int dv1 ACCEL_LSB, fdiv_int dv2 ACCEL_LSB)
          (fdiv_int da0 gyro_lsb, fdiv_int da1 gyro_lsb, fdiv_int da2 gyro_lsb)
          (fdiv_int temp TEMP_LSB)).

Definition IMU_LEGACY_FMT := [U32; U16; F32; F32; F32; F32; F32; F32; F32; F32; F32; F32; F32; F32; F32].
Definition p_imu_legacy : P SbgImuLegacy :=
  '[# v0; v1; v2; v3; v4; v5; v6; v7; v8; v9; v10; v11; v12; v13; v14] ← take_ IMU_LEGACY_FMT;
  mret (mkImuLegacy v0 v1 (v2, v3, v4) (v5, v6, v7) v8 (v9, v10, v11) (v12, v13, v14)).

Definition p_mag_tail : P (option Z * option Z) :=
  tail ← opt [F32; F32];
  mret (match tail with Some [# d; i] => (Some (deg d), Some (deg i)) | None => (None, None) end).

Definition EKF_EULER_FMT := [U32; F32; F32; F32; F32; F32; F32; U32].
Definition p_ekf_euler : P SbgEkfEuler :=
  '[# ts; roll; pitch; yaw; s0; s1; s2; status] ← take_ EKF_EULER_FMT;
  '(decl, incl) ← p_mag_tail;
  mret (mkEkfEuler ts (deg roll) (deg pitch) (heading yaw) (deg s0, deg s1, deg s2) status decl incl).

Definition EKF_QUAT_FMT := [U32; F32; F32; F32; F32; F32; F32; F32; U32].
Definition p_ekf_quat : P SbgEkfQuat :=
  '[# ts; w; x; y; z; s0; s1; s2; status] ← take_ EKF_QUAT_FMT;
  '(decl, incl) ← p_mag_tail;
  mret (mkEkfQuat ts (w, x, y, z) (deg s0, deg s1, deg s2) status decl incl).

Definition EKF_NAV_FMT := [U32; F32; F32; F32; F32; F32; F32; F64; F64; F64; F32; F32; F32; F32; U32].
Definition p_ekf_nav : P SbgEkfNav :=
  '[# v0; v1; v2; v3; v4; v5; v6; v7; v8; alt; und; v11; v12; v13; v14] ← take_ EKF_NAV_FMT;
  mret (mkEkfNav v0 (v1, v2, v3) (v4, v5, v6) v7 v8 alt und (fadd alt und) (v11, v12, v13) v14).

(** The appended fields of a GNSS position: each group only if the one before is there. *)
Definition GNSS_POS_FMT := [U32; U32; U32; F64; F64; F64; F32; F32; F32; F32].
Definition p_gnss_pos (gnss : Z) : P SbgGnssPos :=
  '[# ts; status; tow; lat; lon; alt; und; lat_acc; lon_acc; alt_acc] ← take_ GNSS_POS_FMT;
  v40 ← opt [U8; U16; U16];
  v45 ← match v40 with Some _ => opt [U8; U32] | None => mret None end;
  v56 ← match v45 with Some _ => opt [U8; U32] | None => mret None end;
  mret (mkGnssPos gnss ts status tow lat lon alt und (fadd alt und) lat_acc lon_acc alt_acc
          (v ← v40; na v.1 U8_NA)
          (v ← v40; na v.2.1 U16_NA)
          (v ← v40; if v.2.2.1 =? U16_NA then None else Some (fdiv_int v.2.2.1 100))
          (v ← v45; na v.1 U8_NA)
          (v ← v45; Some v.2.1)
          (v ← v56; Some v.1)
          (v ← v56; Some v.2.1)).

Definition GNSS_VEL_FMT := [U32; U32; U32; F32; F32; F32; F32; F32; F32; F32; F32].
Definition p_gnss_vel (gnss : Z) : P SbgGnssVel :=
  '[# v0; v1; v2; v3; v4; v5; v6; v7; v8; v9; v10] ← take_ GNSS_VEL_FMT;
  mret (mkGnssVel gnss v0 v1 v2 (v3, v4, v5) (v6, v7, v8) v9 v10).

Definition GNSS_HDT_FMT := [U32; U16; U32; F32; F32; F32; F32].
Definition p_gnss_hdt (gnss : Z) : P SbgGnssHdt :=
  '[# ts; status; tow; hdg; hdg_acc; pitch; pitch_acc] ← take_ GNSS_HDT_FMT;
  baseline ← opt [F32];
  tracked ← opt [U8];
  used ← opt [U8];
  mret (mkGnssHdt gnss ts status tow hdg hdg_acc pitch pitch_acc (fst <$> baseline)
          (v ← tracked; na v.1 U8_NA) (v ← used; na v.1 U8_NA)).

(** The offsets whose bit (1 to 4) is set. *)
Definition EVENT_FMT := [U32; U16; U16; U16; U16; U16].
Definition p_event (channel : bytes) : P SbgEvent :=
  '[# ts; status; o0; o1; o2; o3] ← take_ EVENT_FMT;
  let valid := omap (fun io : Z * Z => if has status (bit (io.1 + 1)) then Some io.2 else None)
                 [(0, o0); (1, o1); (2, o2); (3, o3)] in
  mret (mkEvent channel ts status valid).

Definition SIGNAL_FMT := [U8; U8; U8].
Definition p_signal : P SbgSignal :=
  '[# gid; gflags; snr] ← take_ SIGNAL_FMT;
  let valid := has gflags SIGNAL_SNR_VALID in
  mret (mkSignal gid (Z.land gflags 0x07) (Z.land (Z.shiftr gflags 3) 0x03) (if valid then Some snr else None) valid).

Definition SAT_FMT := [U8; I8; U16; U16; U8].
Definition p_sat : P SbgSat :=
  '[# sid; elev; azim; flags; nsig] ← take_ SAT_FMT;
  sigs ← times (Z.to_nat nsig) p_signal;
  mret (mkSat sid (Z.land (Z.shiftr flags 7) 0x0F) elev azim (Z.land flags 0x07) (Z.land (Z.shiftr flags 3) 0x03)
          (Z.land (Z.shiftr flags 5) 0x03) sigs).

Definition SAT_LIST_FMT := [U32; U32; U8].
Definition p_sat_list (gnss : Z) : P SbgSatList :=
  '[# ts; _; count] ← take_ SAT_LIST_FMT;
  l ← times (Z.to_nat count) p_sat;
  mret (mkSatList gnss ts l).

Definition p_gnss_raw (gnss : Z) : P SbgGnssRaw := fun b => Some (mkGnssRaw gnss b, b).

Definition p_ack : P SbgAck :=
  '[# id; cls; code] ← take_ [U8; U8; U16];
  mret (mkAck id cls code).

(** [bytes.decode("ascii", "replace")], and [date(...)]. *)
Definition ascii_replace (b : bytes) : bytes := map (fun c => if c <? 128 then c else 65533) b.
Definition make_date (y m d : Z) : option (Z * Z * Z) :=
  match make_datetime y m d 0 0 0 with Some _ => Some (y, m, d) | None => None end.
(** [code.split(b"\x00", 1)[0]]. *)
Definition until_nul (b : bytes) : bytes := take_while (fun c => negb (c =? 0)) b.

Definition INFO_CODE_FMT := [Str 32].
Definition INFO_REST_FMT := [U32; U32; U16; U8; U8; U32; U32].
Definition p_info : P SbgInfo :=
  '[# code] ← take_ INFO_CODE_FMT;
  '[# serial; cal_rev; year; month; day; hw; fw] ← take_ INFO_REST_FMT;
  mret (mkInfo (strip (ascii_replace (until_nul code))) serial cal_rev (make_date year month day)
          (decode_version hw) (decode_version fw) fw hw).

(** ** Dispatch *)

(** [LOG[name]], [CMD[name]], [CLASS[name]]. *)
Definition id_of (table : list (bytes * Z)) (name : bytes) : Z :=
  match List.find (fun kv => bool_decide (kv.1 = name)) table with Some kv => kv.2 | None => -1 end.

Definition LOG_PARSERS : list (bytes * P SbgMsg) :=
  [(str "STATUS", MStatus <$> p_status); (str "UTC_TIME", MUtcTime <$> p_utc);
   (str "IMU_DATA", MImuLegacy <$> p_imu_legacy); (str "IMU_SHORT", MImuShort <$> p_imu_short);
   (str "EKF_EULER", MEkfEuler <$> p_ekf_euler); (str "EKF_QUAT", MEkfQuat <$> p_ekf_quat);
   (str "EKF_NAV", MEkfNav <$> p_ekf_nav);
   (str "GPS1_POS", MGnssPos <$> p_gnss_pos 1); (str "GPS2_POS", MGnssPos <$> p_gnss_pos 2);
   (str "GPS1_VEL", MGnssVel <$> p_gnss_vel 1); (str "GPS2_VEL", MGnssVel <$> p_gnss_vel 2);
   (str "GPS1_HDT", MGnssHdt <$> p_gnss_hdt 1); (str "GPS2_HDT", MGnssHdt <$> p_gnss_hdt 2);
   (str "GPS1_SAT", MSatList <$> p_sat_list 1); (str "GPS2_SAT", MSatList <$> p_sat_list 2);
   (str "GPS1_RAW", MGnssRaw <$> p_gnss_raw 1); (str "GPS2_RAW", MGnssRaw <$> p_gnss_raw 2);
   (str "EVENT_A", MEvent <$> p_event (str "A")); (str "EVENT_B", MEvent <$> p_event (str "B"));
   (str "EVENT_C", MEvent <$> p_event (str "C")); (str "EVENT_D", MEvent <$> p_event (str "D"));
   (str "EVENT_E", MEvent <$> p_event (str "E"));
   (str "EVENT_OUT_A", MEvent <$> p_event (str "OUT_A")); (str "EVENT_OUT_B", MEvent <$> p_event (str "OUT_B"))].

Definition CMD_PARSERS : list (bytes * P SbgMsg) := [(str "ACK", MAck <$> p_ack); (str "INFO", MInfo <$> p_info)].

(** [table.get(msg_id)]. *)
Definition parser_of (ids : list (bytes * Z)) (parsers : list (bytes * P SbgMsg)) (msg_id : Z) : option (P SbgMsg) :=
  option_map snd (List.find (fun np => id_of ids np.1 =? msg_id) parsers).

(** [_BY_CLASS.get(msg_class, {}).get(msg_id)]. *)
Definition BY_CLASS (msg_class msg_id : Z) : option (P SbgMsg) :=
  if msg_class =? id_of CLASS (str "LOG_ECOM_0") then parser_of LOG LOG_PARSERS msg_id
  else if msg_class =? id_of CLASS (str "CMD_0") then parser_of CMD CMD_PARSERS msg_id
  else None.

Definition parse_payload (msg_class msg_id : Z) (payload : bytes) : option SbgMsg :=
  match BY_CLASS msg_class msg_id with
  | None => None
  | Some fn => option_map fst (fn payload)
  end.

(** [parse(frame)]. *)
Definition parse (f : Frame) : option SbgMsg := parse_payload (raw f).[3] (raw f).[2] (frame_payload f).

(** ** The masks name every flag

    [general], [aiding] and [signals] mask a word with a constant: it is the union of the
    members of the [IntFlag] class, so the mask drops no member and keeps no other bit. *)
Lemma masks_are_unions :
  foldr Z.lor 0 (map snd GeneralStatus) = 0x7F /\ foldr Z.lor 0 (map snd AidingStatus) = 0x3FF
  /\ foldr Z.lor 0 (map snd GnssSignals) = SIGNALS_MASK
  /\ Forall (fun kv => Z.land kv.2 0x0F = 0) EkfFlags.
Proof. by vm_compute; repeat constructor. Qed.

(** ** What a payload must hold *)

Inductive Need := AtLeast (n : nat) | AnyLength | SatTable.

(** [n] satellites: a header of seven bytes, whose last is the number of signals of three
    bytes that follow it. *)
Fixpoint sat_table (n : nat) (b : bytes) : bool :=
  match n with
  | O => true
  | S n => (7 <=? length b)%nat
           && (3 * Z.to_nat (le_int (take 1 (drop 6 b))) <=? length (drop 7 b))%nat
           && sat_table n (drop (3 * Z.to_nat (le_int (take 1 (drop 6 b)))) (drop 7 b))
  end.

Definition need_met (need : Need) (b : bytes) : bool :=
  match need with
  | AtLeast n => (n <=? length b)%nat
  | AnyLength => true
  | SatTable => (9 <=? length b)%nat && sat_table (Z.to_nat (le_int (take 1 (drop 8 b)))) (drop 9 b)
  end.

Definition LOG_NEEDS : list (bytes * Need) :=
  [(str "STATUS", AtLeast 22); (str "UTC_TIME", AtLeast 21); (str "IMU_DATA", AtLeast 58); (str "IMU_SHORT", AtLeast 32);
   (str "EKF_EULER", AtLeast 32); (str "EKF_QUAT", AtLeast 36); (str "EKF_NAV", AtLeast 72);
   (str "GPS1_POS", AtLeast 52); (str "GPS2_POS", AtLeast 52); (str "GPS1_VEL", AtLeast 44); (str "GPS2_VEL", AtLeast 44);
   (str "GPS1_HDT", AtLeast 26); (str "GPS2_HDT", AtLeast 26); (str "GPS1_SAT", SatTable); (str "GPS2_SAT", SatTable);
   (str "GPS1_RAW", AnyLength); (str "GPS2_RAW", AnyLength);
   (str "EVENT_A", AtLeast 14); (str "EVENT_B", AtLeast 14); (str "EVENT_C", AtLeast 14); (str "EVENT_D", AtLeast 14);
   (str "EVENT_E", AtLeast 14); (str "EVENT_OUT_A", AtLeast 14); (str "EVENT_OUT_B", AtLeast 14)].
Definition CMD_NEEDS : list (bytes * Need) := [(str "ACK", AtLeast 4); (str "INFO", AtLeast 52)].

Definition needs (msg_class msg_id : Z) : option Need :=
  let find ids l := option_map snd (List.find (fun np : bytes * Need => id_of ids np.1 =? msg_id) l) in
  if msg_class =? 0x00 then find LOG LOG_NEEDS
  else if msg_class =? 0x10 then find CMD CMD_NEEDS
  else None.

(** A message without what a longer payload may add. *)
Definition core (m : SbgMsg) : SbgMsg :=
  match m with
  | MStatus s => MStatus (mkStatus (st_time_stamp_us s) (general_status s) (com_status2 s) (com_status s) (aiding_status s) None None)
  | MUtcTime u => MUtcTime (mkUtcTime (utc_time_stamp_us u) (utc_status_word u) (utc_year u) (utc_month u) (utc_day u)
      (utc_hour u) (utc_minute u) (utc_second u) (nanosecond u) (gps_tow_ms u) None None None (utc u) (leap_second_event u))
  | MEkfEuler e => MEkfEuler (mkEkfEuler (eul_time_stamp_us e) (roll_deg e) (pitch_deg e) (heading_deg e) (euler_std_deg e)
      (eul_status e) None None)
  | MEkfQuat e => MEkfQuat (mkEkfQuat (qua_time_stamp_us e) (quat e) (qua_std_deg e) (qua_status e) None None)
  | MGnssPos p => MGnssPos (mkGnssPos (pos_gnss p) (pos_time_stamp_us p) (pos_status p) (pos_tow_ms p) (pos_lat p) (pos_lon p)
      (pos_altitude_msl p) (pos_undulation p) (pos_height_hae p) (lat_acc p) (lon_acc p) (alt_acc p)
      None None None None None None None)
  | MGnssHdt h => MGnssHdt (mkGnssHdt (hdt_gnss h) (hdt_time_stamp_us h) (hdt_status h) (hdt_tow_ms h) (hdt_heading_deg h)
      (heading_acc_deg h) (hdt_pitch_deg h) (pitch_acc_deg h) None None None)
  | MGnssRaw r => MGnssRaw (mkGnssRaw (raw_gnss r) [])
  | _ => m
  end.

(** A parser that reads what [need] says and is not disturbed by more. *)
Definition meets (fn : P SbgMsg) (need : Need) : Prop :=
  (forall b, match fn b with Some _ => true | None => false end = need_met need b)
  /\ (forall b more m, option_map fst (fn b) = Some m ->
        exists m', option_map fst (fn (b ++ more)) = Some m' /\ core m' = core m).

Lemma unpack_app fmt b more : (calcsize fmt <= length b)%nat -> unpack fmt (b ++ more) = unpack fmt b.
Proof.
  revert b. induction fmt as [|c fmt IH]; intros b H; [done|]. cbn [calcsize unpack] in *.
  rewrite take_app_le by lia. rewrite drop_app_le by lia. rewrite IH; [done|]. rewrite length_drop. lia.
Qed.

Lemma opt_total fmt b : exists o r, opt fmt b = Some (o, r).
Proof.
  unfold opt, take_, mbind, P_bind, mret, P_ret. destruct (calcsize fmt <=? length b)%nat eqn:E; [|eauto].
  apply Nat.leb_le in E. rewrite (proj2 (Nat.ltb_ge _ _)) by lia. eauto.
Qed.

(** A parser made of one mandatory format and a part that cannot fail. *)
Lemma meets_take (fmt : list Code) (k : tuple fmt -> P SbgMsg) n :
  calcsize fmt = n ->
  (forall v, exists c, forall b, exists m r, k v b = Some (m, r) /\ core m = c) ->
  meets (take_ fmt ≫= k) (AtLeast n).
Proof.
  intros <- Hk. unfold meets, mbind, P_bind, take_, need_met. split.
  - intros b. destruct (length b <? calcsize fmt)%nat eqn:E.
    + apply Nat.ltb_lt in E. symmetry. by apply Nat.leb_gt.
    + apply Nat.ltb_ge in E. destruct (Hk (unpack fmt b)) as [c Hc].
      destruct (Hc (drop (calcsize fmt) b)) as (m & r & -> & _). symmetry. by apply Nat.leb_le.
  - intros b more m. destruct (length b <? calcsize fmt)%nat eqn:E; [done|]. apply Nat.ltb_ge in E.
    rewrite length_app, (proj2 (Nat.ltb_ge _ _)) by lia. rewrite unpack_app, drop_app_le by done.
    destruct (Hk (unpack fmt b)) as [c Hc].
    destruct (Hc (drop (calcsize fmt) b)) as (m1 & r1 & -> & H1).
    destruct (Hc (drop (calcsize fmt) b ++ more)) as (m2 & r2 & -> & H2).
    cbn. intros [= <-]. exists m2. by rewrite H1, H2.
Qed.

(** Push the constructor of the message under the format. *)
Lemma fmap_take {A} (f : A -> SbgMsg) fmt (k : tuple fmt -> P A) n :
  meets (take_ fmt ≫= fun v => f <$> k v) (AtLeast n) -> meets (f <$> (take_ fmt ≫= k)) (AtLeast n).
Proof.
  intros [H1 H2]. split.
  - intros b. rewrite <- H1. unfold fmap, P_fmap, mbind, P_bind. destruct (take_ fmt b) as [[v r]|]; [|done].
    by destruct (k v r) as [[x r']|].
  - intros b more m H.
    assert (E : forall b, (f <$> (take_ fmt ≫= k)) b = (take_ fmt ≫= fun v => f <$> k v) b).
    { intros b'. unfold fmap, P_fmap, mbind, P_bind. destruct (take_ fmt b') as [[v r]|]; done. }
    rewrite E in *. by apply H2.
Qed.

(** A tuple taken apart. *)
Ltac split_tuple v :=
  repeat (let T := type of v in let T := eval hnf in T in
          lazymatch T with (_ * _)%type => let x := fresh "x" in destruct v as [x v] end);
  destruct v.

(** The optional reads of a tail, run one by one. *)
Ltac tail_total :=
  cbn beta iota;
  repeat match goal with
    | |- context [opt ?f ?b] =>
        let o := fresh "o" in let r := fresh "r" in let t := fresh "t" in
        destruct (opt_total f b) as (o & r & ->); destruct o as [t|]; [split_tuple t|]; cbn beta iota
    end.

Ltac meets_tac :=
  lazymatch goal with |- meets (_ <$> ?p _) _ => unfold p | |- meets (_ <$> ?p) _ => unfold p end;
  lazymatch goal with |- context [take_ ?f] => apply (fmap_take _ f); apply (meets_take f); [reflexivity|] end;
  let v := fresh "v" in
  intros v; split_tuple v; eexists; intros b;
  unfold p_mag_tail, fmap, P_fmap, mbind, P_bind, mret, P_ret; tail_total;
  (eexists _, _; split; [reflexivity|cbn]).

Create HintDb sbg.

Lemma status_meets : meets (MStatus <$> p_status) (AtLeast 22).
Proof. meets_tac; reflexivity. Qed.
Lemma utc_meets : meets (MUtcTime <$> p_utc) (AtLeast 21).
Proof. meets_tac; reflexivity. Qed.
Lemma imu_legacy_meets : meets (MImuLegacy <$> p_imu_legacy) (AtLeast 58).
Proof. meets_tac; reflexivity. Qed.
Lemma imu_short_meets : meets (MImuShort <$> p_imu_short) (AtLeast 32).
Proof. meets_tac; reflexivity. Qed.
Lemma ekf_euler_meets : meets (MEkfEuler <$> p_ekf_euler) (AtLeast 32).
Proof. meets_tac; reflexivity. Qed.
Lemma ekf_quat_meets : meets (MEkfQuat <$> p_ekf_quat) (AtLeast 36).
Proof. meets_tac; reflexivity. Qed.
Lemma ekf_nav_meets : meets (MEkfNav <$> p_ekf_nav) (AtLeast 72).
Proof. meets_tac; reflexivity. Qed.
Lemma gnss_pos_meets gnss : meets (MGnssPos <$> p_gnss_pos gnss) (AtLeast 52).
Proof. meets_tac; reflexivity. Qed.
Lemma gnss_vel_meets gnss : meets (MGnssVel <$> p_gnss_vel gnss) (AtLeast 44).
Proof. meets_tac; reflexivity. Qed.
Lemma gnss_hdt_meets gnss : meets (MGnssHdt <$> p_gnss_hdt gnss) (AtLeast 26).
Proof. meets_tac; reflexivity. Qed.
Lemma event_meets channel : meets (MEvent <$> p_event channel) (AtLeast 14).
Proof. meets_tac; reflexivity. Qed.
Lemma ack_meets : meets (MAck <$> p_ack) (AtLeast 4).
Proof. meets_tac; reflexivity. Qed.

(** A parser whose result does not depend on what follows the bytes it reads. *)
Definition strict {A} (p : P A) : Prop :=
  forall b x r more, p b = Some (x, r) -> p (b ++ more) = Some (x, r ++ more).

Lemma strict_take fmt : strict (take_ fmt).
Proof.
  intros b x r more. unfold take_. destruct (_ <? _)%nat eqn:E; [done|]. apply Nat.ltb_ge in E.
  intros [= <- <-]. rewrite length_app, (proj2 (Nat.ltb_ge _ _)) by lia. by rewrite unpack_app, drop_app_le by done.
Qed.

Lemma strict_bind {A B} (p : P A) (k : A -> P B) : strict p -> (forall x, strict (k x)) -> strict (p ≫= k).
Proof.
  intros Hp Hk b y r more. unfold mbind, P_bind. destruct (p b) as [[x b']|] eqn:E; [|done].
  intros H. rewrite (Hp _ _ _ more E). by apply Hk.
Qed.

Lemma strict_ret {A} (x : A) : strict (mret x).
Proof. intros b y r more [= <- <-]. done. Qed.

Lemma strict_fmap {A B} (f : A -> B) (p : P A) : strict p -> strict (f <$> p).
Proof.
  intros Hp b y r more. unfold fmap, P_fmap. destruct (p b) as [[x b']|] eqn:E; [|done].
  intros [= <- <-]. by rewrite (Hp _ _ _ more E).
Qed.

Lemma strict_times {A} n (p : P A) : strict p -> strict (times n p).
Proof.
  intros Hp. induction n as [|n IH]; [apply strict_ret|]. cbn [times].
  apply strict_bind; [done|intros x]. apply strict_bind; [done|intros l]. apply strict_ret.
Qed.

#[export] Hint Resolve strict_take strict_bind strict_ret strict_fmap strict_times : sbg.

Lemma strict_signal : strict p_signal.
Proof. apply (strict_bind (take_ SIGNAL_FMT)); [apply strict_take|]. intros (g & f & s & []). apply strict_ret. Qed.
Lemma strict_sat : strict p_sat.
Proof.
  apply (strict_bind (take_ SAT_FMT)); [apply strict_take|]. intros (i & e & a & f & n & []). apply strict_bind; [|intros; apply strict_ret].
  apply strict_times, strict_signal.
Qed.
Lemma strict_sat_list gnss : strict (p_sat_list gnss).
Proof.
  apply (strict_bind (take_ SAT_LIST_FMT)); [apply strict_take|]. intros (t & r & n & []). apply strict_bind; [|intros; apply strict_ret].
  apply strict_times, strict_sat.
Qed.
Lemma strict_info : strict p_info.
Proof.
  apply (strict_bind (take_ INFO_CODE_FMT)); [apply (strict_take INFO_CODE_FMT)|]. intros (c & []). apply (strict_bind (take_ INFO_REST_FMT)); [apply (strict_take INFO_REST_FMT)|].
  intros (s & cr & y & m & d & h & f & []). apply strict_ret.
Qed.

Lemma meets_strict (fn : P SbgMsg) need :
  strict fn -> (forall b, match fn b with Some _ => true | None => false end = need_met need b) -> meets fn need.
Proof.
  intros Hs Hd. split; [done|]. intros b more m. destruct (fn b) as [[x r]|] eqn:E; [|done].
  intros [= <-]. exists x. by rewrite (Hs _ _ _ more E).
Qed.

(** *** The satellite table *)

Definition run_left {A} (p : P A) (b : bytes) : option bytes := option_map snd (p b).

Lemma signals_left n b :
  run_left (times n p_signal) b = if (3 * n <=? length b)%nat then Some (drop (3 * n) b) else None.
Proof.
  revert b. induction n as [|n IH]; intros b; [by rewrite drop_0|].
  unfold run_left in *. cbn [times]. unfold mbind, P_bind, mret, P_ret in *. unfold p_signal at 1, mbind, P_bind, mret, P_ret, take_.
  change (calcsize SIGNAL_FMT) with 3%nat. destruct (length b <? 3)%nat eqn:E.
  { apply Nat.ltb_lt in E. by rewrite (proj2 (Nat.leb_gt _ _)) by lia. }
  apply Nat.ltb_ge in E. destruct (unpack SIGNAL_FMT b) as (g & f & s & []).
  specialize (IH (drop 3 b)). destruct (times n p_signal (drop 3 b)) as [[l r]|]; cbn [option_map snd] in *;
    rewrite length_drop in IH; destruct (3 * n <=? length b - 3)%nat eqn:E2; try done.
  - apply Nat.leb_le in E2. rewrite (proj2 (Nat.leb_le _ _)) by lia. injection IH as ->. rewrite drop_drop. do 2 f_equal. lia.
  - apply Nat.leb_gt in E2. by rewrite (proj2 (Nat.leb_gt _ _)) by lia.
Qed.

Lemma sats_defined n b : match run_left (times n p_sat) b with Some _ => true | None => false end = sat_table n b.
Proof.
  revert b. induction n as [|n IH]; intros b; [done|]. unfold run_left in *. cbn [times sat_table].
  unfold mbind, P_bind, mret, P_ret in *. unfold p_sat at 1, mbind, P_bind, mret, P_ret, take_.
  change (calcsize SAT_FMT) with 7%nat. destruct (length b <? 7)%nat eqn:E.
  { apply Nat.ltb_lt in E. by rewrite (proj2 (Nat.leb_gt _ _)) by lia. }
  apply Nat.ltb_ge in E. rewrite (proj2 (Nat.leb_le _ _)) by lia. cbn [andb].
  assert (Hn : exists i e a f, unpack SAT_FMT b = [# i; e; a; f; le_int (take 1 (drop 6 b))]).
  { unfold SAT_FMT. cbn [unpack unpack_code code_size]. rewrite !drop_drop. by repeat eexists. }
  destruct Hn as (i & e & a & f & ->). set (k := Z.to_nat (le_int (take 1 (drop 6 b)))).
  pose proof (signals_left k (drop 7 b)) as Hs. unfold run_left in Hs.
  destruct (times k p_signal (drop 7 b)) as [[l r]|]; cbn [option_map snd] in Hs;
    destruct (3 * k <=? length (drop 7 b))%nat eqn:E2; try done.
  injection Hs as ->. rewrite <- (IH (drop (3 * k) (drop 7 b))). cbn [andb].
  change (k + (k + (k + 0)))%nat with (3 * k)%nat. by destruct (times n p_sat (drop (3 * k) (drop 7 b))) as [[]|].
Qed.

Lemma sat_list_meets gnss : meets (MSatList <$> p_sat_list gnss) SatTable.
Proof.
  apply meets_strict; [apply strict_fmap, strict_sat_list|]. intros b. unfold fmap, P_fmap, p_sat_list, mbind, P_bind, mret, P_ret, take_.
  change (calcsize SAT_LIST_FMT) with 9%nat. cbn [need_met]. destruct (length b <? 9)%nat eqn:E.
  { apply Nat.ltb_lt in E. by rewrite (proj2 (Nat.leb_gt _ _)) by lia. }
  apply Nat.ltb_ge in E. rewrite (proj2 (Nat.leb_le _ _)) by lia. cbn [andb].
  assert (Hn : exists t x, unpack SAT_LIST_FMT b = [# t; x; le_int (take 1 (drop 8 b))]).
  { unfold SAT_LIST_FMT. cbn [unpack unpack_code code_size]. rewrite !drop_drop. by repeat eexists. }
  destruct Hn as (t & x & ->). rewrite <- sats_defined. unfold run_left.
  by destruct (times _ p_sat (drop 9 b)) as [[]|].
Qed.

Lemma gnss_raw_meets gnss : meets (MGnssRaw <$> p_gnss_raw gnss) AnyLength.
Proof. split; [done|]. intros b more m [= <-]. by exists (MGnssRaw (mkGnssRaw gnss (b ++ more))). Qed.

Lemma info_meets : meets (MInfo <$> p_info) (AtLeast 52).
Proof.
  apply meets_strict; [apply strict_fmap, strict_info|]. intros b. cbn [need_met].
  unfold fmap, P_fmap, p_info, mbind, P_bind, mret, P_ret, take_.
  change (calcsize INFO_CODE_FMT) with 32%nat. change (calcsize INFO_REST_FMT) with 20%nat.
  destruct (length b <? 32)%nat eqn:E.
  { apply Nat.ltb_lt in E. by rewrite (proj2 (Nat.leb_gt _ _)) by lia. }
  apply Nat.ltb_ge in E. destruct (unpack INFO_CODE_FMT b) as (c & []). rewrite length_drop.
  destruct (length b - 32 <? 20)%nat eqn:E2.
  { apply Nat.ltb_lt in E2. by rewrite (proj2 (Nat.leb_gt _ _)) by lia. }
  apply Nat.ltb_ge in E2. destruct (unpack INFO_REST_FMT (drop 32 b)) as (s & cr & y & m & d & h & f & []).
  by rewrite (proj2 (Nat.leb_le _ _)) by lia.
Qed.

#[export] Hint Resolve status_meets utc_meets imu_legacy_meets imu_short_meets ekf_euler_meets ekf_quat_meets ekf_nav_meets
  gnss_pos_meets gnss_vel_meets gnss_hdt_meets event_meets ack_meets sat_list_meets gnss_raw_meets info_meets : sbg.

(** A table of parsers against a table of needs, row by row. *)
Definition rows_meet (parsers : list (bytes * P SbgMsg)) (l : list (bytes * Need)) : Prop :=
  Forall2 (fun np nn => np.1 = nn.1 /\ meets np.2 nn.2) parsers l.

Lemma log_rows : rows_meet LOG_PARSERS LOG_NEEDS.
Proof. unfold rows_meet, LOG_PARSERS, LOG_NEEDS. repeat (apply Forall2_cons; [split; [reflexivity|cbn [snd]; auto with sbg]|]). constructor. Qed.

Lemma cmd_rows : rows_meet CMD_PARSERS CMD_NEEDS.
Proof. unfold rows_meet, CMD_PARSERS, CMD_NEEDS. repeat (apply Forall2_cons; [split; [reflexivity|cbn [snd]; auto with sbg]|]). constructor. Qed.

Lemma rows_find ids parsers l msg_id : rows_meet parsers l ->
  match parser_of ids parsers msg_id, option_map snd (List.find (fun np : bytes * Need => id_of ids np.1 =? msg_id) l) with
  | Some fn, Some need => meets fn need
  | None, None => True
  | _, _ => False
  end.
Proof.
  unfold parser_of. induction 1 as [|[n fn] [n' need] ps ns [Hn Hm] H IH]; [done|]. cbn [fst snd] in *. subst n'.
  cbn [List.find fst]. by destruct (id_of ids n =? msg_id).
Qed.

Lemma dispatch_meets msg_class msg_id :
  match BY_CLASS msg_class msg_id, needs msg_class msg_id with
  | Some fn, Some need => meets fn need
  | None, None => True
  | _, _ => False
  end.
Proof.
  unfold BY_CLASS, needs. change (id_of CLASS (str "LOG_ECOM_0")) with 0. change (id_of CLASS (str "CMD_0")) with 0x10.
  destruct (msg_class =? 0); [apply rows_find, log_rows|]. destruct (msg_class =? 0x10); [apply rows_find, cmd_rows|done].
Qed.

(** The parser of sbgECom payloads never fails on anything but a payload too
    short: for every class and id it gives a message exactly when it knows the
    message and the payload has the bytes of its mandatory fields (for a
    satellite list, the whole table); and bytes appended to a payload it accepts,
    as newer firmware does, leave all mandatory fields of the message as they are. *)
Theorem parse_payload_total msg_class msg_id payload :
  (match parse_payload msg_class msg_id payload with Some _ => true | None => false end
     = match needs msg_class msg_id with Some need => need_met need payload | None => false end)
  /\ (forall more, match parse_payload msg_class msg_id payload with
                   | Some m => option_map core (parse_payload msg_class msg_id (payload ++ more)) = Some (core m)
                   | None => True
                   end).
Proof.
  pose proof (dispatch_meets msg_class msg_id) as H. unfold parse_payload.
  destruct (BY_CLASS msg_class msg_id) as [fn|], (needs msg_class msg_id) as [need|]; try done.
  destruct H as [H1 H2]. split.
  - rewrite <- H1. by destruct (fn payload) as [[]|].
  - intros more. destruct (option_map fst (fn payload)) as [m|] eqn:E; [|done].
    destruct (H2 payload more m E) as (m' & -> & Hc). cbn. by rewrite Hc.
Qed.

(** ** Satellite lists: what a unit writes is what is read *)

(** The wire form of a satellite list, as the sbgECom manual lays it out. *)
Definition put_signal (s : SbgSignal) : option bytes :=
  pack SIGNAL_FMT [# sig_id s; sig_tracking s + 8 * sig_health s + (if snr_valid s then 32 else 0); default 0 (snr s)].
Definition put_sat (s : SbgSat) : option bytes :=
  h ← pack SAT_FMT [# sat_id s; elevation s; azimuth s;
                     tracking s + 8 * health s + 32 * elevation_status s + 128 * constellation s; len (sat_signals s)];
  l ← mapM put_signal (sat_signals s);
  Some (h ++ concat l).
Definition put_sat_list (m : SbgSatList) : option bytes :=
  h ← pack SAT_LIST_FMT [# sl_time_stamp_us m; 0; len (sats m)];
  l ← mapM put_sat (sats m);
  Some (h ++ concat l).

Definition signal_ok (s : SbgSignal) : Prop :=
  0 <= sig_id s < 256 /\ 0 <= sig_tracking s < 8 /\ 0 <= sig_health s < 4
  /\ match snr s with Some v => 0 <= v < 256 /\ snr_valid s = true | None => snr_valid s = false end.
Definition sat_ok (s : SbgSat) : Prop :=
  0 <= sat_id s < 256 /\ -128 <= elevation s < 128 /\ 0 <= azimuth s < 65536
  /\ 0 <= tracking s < 8 /\ 0 <= health s < 4 /\ 0 <= elevation_status s < 4 /\ 0 <= constellation s < 16
  /\ len (sat_signals s) < 256 /\ Forall signal_ok (sat_signals s).
Definition sat_list_ok (m : SbgSatList) : Prop :=
  0 <= sl_time_stamp_us m < 2 ^ 32 /\ len (sats m) < 256 /\ Forall sat_ok (sats m).

Lemma take_packed fmt v rest : fits fmt v ->
  exists raw, pack fmt v = Some raw /\ take_ fmt (raw ++ rest) = Some (v, rest).
Proof.
  intros H. destruct (unpack_pack fmt v rest H) as (raw & Hp & Hl & _ & _ & Hu). exists raw. split; [done|].
  unfold take_. rewrite length_app, (proj2 (Nat.ltb_ge _ _)) by lia. by rewrite Hu, <- Hl, drop_app_length.
Qed.

Lemma snr_flag x : 0 <= x < 64 -> has x SIGNAL_SNR_VALID = (32 <=? x).
Proof.
  intros H. assert (E : forallb (fun n => Bool.eqb (has (Z.of_nat n) SIGNAL_SNR_VALID) (32 <=? Z.of_nat n)) (seq 0 64) = true)
    by (vm_compute; reflexivity).
  rewrite forallb_forall in E. specialize (E (Z.to_nat x)). rewrite Z2Nat.id in E by lia.
  apply eqb_prop, E, in_seq. lia.
Qed.

Lemma field_low n x y : 0 <= n -> 0 <= x < 2 ^ n -> Z.land (x + 2 ^ n * y) (Z.ones n) = x.
Proof. intros Hn Hx. rewrite Z.land_ones by lia. rewrite Z.mul_comm, Z.mod_add by lia. by apply Z.mod_small. Qed.

Lemma field_high n x y : 0 <= n -> 0 <= x < 2 ^ n -> Z.shiftr (x + 2 ^ n * y) n = y.
Proof.
  intros Hn Hx. rewrite Z.shiftr_div_pow2 by lia. rewrite (Z.mul_comm (2 ^ n)), Z.div_add by lia.
  by rewrite Z.div_small.
Qed.

Lemma signal_read s rest : signal_ok s ->
  exists raw, put_signal s = Some raw /\ p_signal (raw ++ rest) = Some (s, rest).
Proof.
  intros (Hi & Ht & Hh & Hs). unfold put_signal. set (fl := _ + _).
  assert (Hfl : 0 <= fl < 64) by (subst fl; destruct (snr_valid s); lia).
  assert (Hsn : 0 <= default 0 (snr s) < 256) by (revert Hs; destruct (snr s); cbn; lia).
  destruct (take_packed SIGNAL_FMT [# sig_id s; fl; default 0 (snr s)] rest) as (raw & -> & Hr).
  { repeat split; cbn [fst snd]; apply fits_U8; lia. }
  exists raw. split; [done|]. unfold p_signal, mbind, P_bind, mret, P_ret. rewrite Hr, snr_flag by done.
  assert (E1 : Z.land fl 7 = sig_tracking s).
  { subst fl. replace (_ + _) with (sig_tracking s + 2 ^ 3 * (sig_health s + (if snr_valid s then 4 else 0))) by (destruct (snr_valid s); lia).
    by apply (field_low 3). }
  assert (E2 : Z.land (Z.shiftr fl 3) 3 = sig_health s).
  { subst fl. replace (_ + _) with (sig_tracking s + 2 ^ 3 * (sig_health s + 2 ^ 2 * (if snr_valid s then 1 else 0))) by (destruct (snr_valid s); lia).
    rewrite (field_high 3) by lia. by apply (field_low 2). }
  assert (E3 : (32 <=? fl) = snr_valid s).
  { subst fl. destruct (snr_valid s); [apply Z.leb_le|apply Z.leb_gt]; lia. }
  rewrite E1, E2, E3. destruct s as [i t h sn v]. cbn in *. destruct sn as [x|]; [destruct Hs as [_ ->]|subst v]; done.
Qed.

Lemma times_read {A} (p : P A) (put : A -> option bytes) (ok : A -> Prop) l :
  (forall x rest, ok x -> exists raw, put x = Some raw /\ p (raw ++ rest) = Some (x, rest)) ->
  Forall ok l -> forall rest, exists raws, mapM put l = Some raws /\ times (length l) p (concat raws ++ rest) = Some (l, rest).
Proof.
  intros Hp. induction 1 as [|x l Hx Hl IH]; intros rest; [by exists []|].
  destruct (IH rest) as (raws & Hm & Ht). destruct (Hp x (concat raws ++ rest) Hx) as (raw & Hr & Hpr).
  exists (raw :: raws). cbn [mapM]. rewrite Hr. cbn [mbind option_bind]. rewrite Hm. cbn [mbind option_bind]. split; [done|].
  cbn [length times concat]. rewrite <- app_assoc. unfold mbind, P_bind, mret, P_ret in *. by rewrite Hpr, Ht.
Qed.

Lemma fits_I8 v : -128 <= v < 128 -> fits_code I8 v.
Proof.
  intros H. exists (le_bytes 1 (v mod 256)). repeat split; [apply bytes_ok_le_bytes|].
  cbn [unpack_code]. rewrite le_int_le_bytes by (change (256 ^ Z.of_nat 1) with 256; apply Z.mod_pos_bound; lia).
  unfold to_signed. change (8 * Z.of_nat 1 - 1) with 7. change (8 * Z.of_nat 1) with 8. change (2 ^ 7) with 128. change (2 ^ 8) with 256.
  destruct (decide (0 <= v)).
  - rewrite Z.mod_small by lia. by rewrite (proj2 (Z.ltb_lt _ _)) by lia.
  - rewrite <- (Z.mod_unique v 256 (-1) (v + 256)) by lia. rewrite (proj2 (Z.ltb_ge _ _)) by lia. lia.
Qed.

Lemma sat_read s rest : sat_ok s -> exists raw, put_sat s = Some raw /\ p_sat (raw ++ rest) = Some (s, rest).
Proof.
  intros (Hi & He & Ha & Ht & Hh & Hv & Hc & Hn & Hs). unfold put_sat. set (fl := tracking s + _ + _ + _).
  destruct (times_read p_signal put_signal signal_ok _ signal_read Hs rest) as (raws & Hm & Hr).
  destruct (take_packed SAT_FMT [# sat_id s; elevation s; azimuth s; fl; len (sat_signals s)] (concat raws ++ rest)) as (raw & -> & Hp).
  { repeat split; cbn [fst snd]; first [apply fits_U8|apply fits_I8|apply fits_U16]; subst fl; lia. }
  cbn [mbind option_bind]. rewrite Hm. cbn [mbind option_bind]. exists (raw ++ concat raws). split; [done|].
  rewrite <- app_assoc. unfold p_sat, mbind, P_bind, mret, P_ret in *. rewrite Hp, Nat2Z.id, Hr.
  assert (E1 : Z.land fl 7 = tracking s).
  { subst fl. replace (_ + _) with (tracking s + 2 ^ 3 * (health s + 4 * elevation_status s + 16 * constellation s)) by lia.
    by apply (field_low 3). }
  assert (E2 : Z.land (Z.shiftr fl 3) 3 = health s).
  { subst fl. replace (_ + _) with (tracking s + 2 ^ 3 * (health s + 2 ^ 2 * (elevation_status s + 4 * constellation s))) by lia.
    rewrite (field_high 3) by lia. by apply (field_low 2). }
  assert (E3 : Z.land (Z.shiftr fl 5) 3 = elevation_status s).
  { subst fl. replace (_ + _) with ((tracking s + 8 * health s) + 2 ^ 5 * (elevation_status s + 2 ^ 2 * constellation s)) by lia.
    rewrite (field_high 5) by lia. by apply (field_low 2). }
  assert (E4 : Z.land (Z.shiftr fl 7) 15 = constellation s).
  { subst fl. replace (_ + _) with ((tracking s + 8 * health s + 32 * elevation_status s) + 2 ^ 7 * constellation s) by lia.
    rewrite (field_high 7) by lia. replace (constellation s) with (constellation s + 2 ^ 4 * 0) at 1 by lia. by apply (field_low 4). }
  rewrite E1, E2, E3, E4. by destruct s.
Qed.

(** A satellite list in the unit's wire form, with every field in its range (and
    whatever newer firmware appends), is parsed back to the same list: satellites,
    their packed status fields and the signals of each, in order. *)
Theorem sat_list_roundtrip m raw more :
  sat_list_ok m -> (sl_gnss m = 1 \/ sl_gnss m = 2) -> put_sat_list m = Some raw ->
  parse_payload 0x00 (if sl_gnss m =? 1 then 50 else 51) (raw ++ more) = Some (MSatList m).
Proof.
  intros (Ht & Hn & Hs) Hg. unfold put_sat_list.
  destruct (times_read p_sat put_sat sat_ok _ sat_read Hs more) as (raws & Hm & Hr).
  destruct (take_packed SAT_LIST_FMT [# sl_time_stamp_us m; 0; len (sats m)] (concat raws ++ more)) as (h & -> & Hp).
  { repeat split; cbn [fst snd]; first [apply fits_U8|apply fits_U32]; lia. }
  cbn [mbind option_bind]. rewrite Hm. cbn [mbind option_bind]. intros [= <-]. rewrite <- app_assoc.
  assert (E : option_map fst ((MSatList <$> p_sat_list (sl_gnss m)) (h ++ concat raws ++ more)) = Some (MSatList m)).
  { unfold fmap, P_fmap, p_sat_list, mbind, P_bind, mret, P_ret in *. rewrite Hp, Nat2Z.id, Hr. by destruct m. }
  rewrite <- E. by destruct Hg as [-> | ->].
Qed.

Lemma sat_list_roundtrip_witness :
  let m := mkSatList 1 4000000 [mkSat 5 1 45 270 5 1 2 [mkSignal 1 5 1 (Some 44) true; mkSignal 7 3 0 None false]; mkSat 12 3 (-3) 12 1 0 1 []] in
  exists raw, put_sat_list m = Some raw /\ parse_payload 0x00 50 (raw ++ [1; 2]) = Some (MSatList m).
Proof.
  intros m. eexists. split; [vm_compute; reflexivity|].
  apply (sat_list_roundtrip m _ [1; 2]); [|by left|vm_compute; reflexivity].
  unfold sat_list_ok, m. cbn [sl_time_stamp_us sats length]. split; [lia|]. split; [lia|].
  repeat (apply Forall_cons; [unfold sat_ok; cbn|]); [repeat split; try lia..|apply Forall_nil; exact I];
  repeat (apply Forall_cons; [unfold signal_ok; cbn; repeat split; lia|]); apply Forall_nil; exact I.
Defined.

(** ** Headings *)

Lemma fval_nonneg_double mag : 0 <= mag -> match f64 (double false mag) with FFin neg _ _ | FInf neg => neg = false | FNan _ _ => False end.
Proof.
  intros H. unfold double, sign64. rewrite Z.add_0_l. set (b := Z.min mag INF64).
  assert (Hb : 0 <= b <= INF64) by (subst b; change INF64 with (2047 * 2 ^ 52); lia). change INF64 with (2047 * 2 ^ 52) in Hb.
  replace b with (sign_bits 53 11 false + (b / 2 ^ 52 * 2 ^ (53 - 1) + b mod 2 ^ 52)).
  2: { change (53 - 1) with 52. unfold sign_bits. pose proof (Z.div_mod b (2 ^ 52)). lia. }
  unfold f64. rewrite fval_fields; try lia.
  - change (2 ^ 11 - 1) with 2047. destruct (b / 2 ^ 52 =? 2047) eqn:E; [|by destruct (b / 2 ^ 52 =? 0)].
    zbool. pose proof (Z.div_mod b (2 ^ 52)). assert (Hm : b mod 2 ^ 52 = 0) by (pose proof (Z.mod_pos_bound b (2 ^ 52)); lia).
    by rewrite Hm.
  - split; [apply Z.div_pos; lia|]. apply Z.div_lt_upper_bound; lia.
  - change (53 - 1) with 52. apply Z.mod_pos_bound. lia.
Qed.

Lemma rne_nonneg n d : 0 <= n -> 0 < d -> 0 <= rne n d.
Proof. intros Hn Hd. unfold rne. pose proof (Z.div_pos n d Hn Hd). repeat case_match; lia. Qed.

Lemma round_dyadic_nonneg m e : 0 <= m -> 0 <= round_dyadic 53 11 m e.
Proof.
  intros Hm. unfold round_dyadic. destruct (m =? 0); [done|]. unfold round_ratio.
  pose proof (pow2_pos e). pose proof (pow2_pos (- e)). set (x := Z.max _ _).
  pose proof (pow2_pos x). pose proof (pow2_pos (- x)).
  assert (0 <= rne (m * pow2 e * pow2 (- x)) (pow2 (- e) * pow2 x)) by (apply rne_nonneg; nia).
  assert (0 <= (x - emin 53 11) * 2 ^ (53 - 1)) by (subst x; change (53 - 1) with 52; nia). lia.
Qed.

Lemma of_dyadic_nonneg v e : 0 <= v ->
  match f64 (of_dyadic false v e) with FFin neg _ _ | FInf neg => neg = false | FNan _ _ => False end.
Proof.
  intros Hv. unfold of_dyadic. destruct (v =? 0) eqn:E; [by vm_compute|]. zbool.
  rewrite (proj2 (Z.ltb_ge _ _)) by lia. apply fval_nonneg_double, round_dyadic_nonneg. lia.
Qed.

Lemma fval_mantissa p w b neg m e : 0 < p -> fval p w b = FFin neg m e -> 0 <= m.
Proof.
  intros Hp. unfold fval. pose proof (Z.mod_pos_bound b (2 ^ (p - 1)) ltac:(apply Z.pow_pos_nonneg; lia)).
  assert (0 < 2 ^ (p - 1)) by (apply Z.pow_pos_nonneg; lia).
  repeat case_match; try done; intros [= <- <- <-]; lia.
Qed.

(** A heading is at least 0 and below 360, whatever finite angle it is made from. *)
Lemma heading_range rad :
  match f64 (deg rad) with FFin _ _ _ => True | _ => False end ->
  fge (heading rad) 0 = true /\ fge (heading rad) FLOAT_360 = false.
Proof.
  intros H. unfold heading. set (h := fmod_pos _ _).
  assert (Hh : match f64 h with FFin neg _ _ | FInf neg => neg = false | FNan _ _ => False end).
  { subst h. unfold fmod_pos. destruct (f64 (deg rad)) as [nx mx ex| |]; try done.
    change (f64 FLOAT_360) with (FFin false 6333186975989760 (-44)).
    cbv beta iota zeta. set (e := Z.min ex (-44)). set (y := 6333186975989760 * 2 ^ (-44 - e)).
    assert (Hy : 0 < y) by (subst y; assert (0 < 2 ^ (-44 - e)) by (apply Z.pow_pos_nonneg; lia); lia).
    set (r := Z.rem _ _). pose proof (Z.rem_bound_abs (signed nx mx * 2 ^ (ex - e)) y ltac:(lia)) as Hr. fold y in r. fold r in Hr.
    destruct (r <? 0) eqn:E; zbool; apply of_dyadic_nonneg; lia. }
  destruct (fge h FLOAT_360) eqn:E; [by vm_compute|]. split; [|done].
  unfold fge. change (f64 0) with (FFin false 0 (-1074)). destruct (f64 h) as [neg m e|neg|] eqn:Ef; [|by subst|done].
  subst neg. apply fval_mantissa in Ef; [|done]. unfold signed. rewrite Z.mul_0_l. apply Z.leb_le.
  apply Z.mul_nonneg_nonneg; [done|]. apply Z.pow_nonneg. lia.
Qed.
