(* ===== verification/InsLink.v ===== *)
(** * One request on an inertial unit's link ([rover/drivers/ins_common.py])

    [InsController.request] writes once and waits for the first routed frame its matcher
    accepts. The traffic of one try is a [Window]; the drivers' retry loops ([SbgCommands],
    [VnRegisters]) run over a list of them. *)

From S2P Require Import Prelude.
From S2P Require Import Framing.

(** What happens on the link between a write and the timeout of one try: whether the unit is
    connected, the frames routed, in order, and whether the link then drops. *)
Record Window := mkWindow { w_connected : bool; arrivals : list Frame; w_drops : bool }.

(** [InsController.request] of one frame. *)
Inductive Reply := Answer (f : Frame) | TimedOut | LinkDown.
Definition request (matches : Frame -> bool) (w : Window) : Reply :=
  if negb (w_connected w) then LinkDown
  else match List.find matches (arrivals w) with
       | Some f => Answer f
       | None => if w_drops w then LinkDown else TimedOut
       end.

(** A window in which nothing answered and the link held. *)
Definition silent (matches : Frame -> bool) (w : Window) : Prop :=
  w_connected w = true /\ w_drops w = false /\ Forall (fun f => matches f = false) (arrivals w).

(** The window of the n-th try: an idle link past the end of the script. *)
Definition window (link : list Window) (n : nat) : Window :=
  match nth_error link n with Some w => w | None => mkWindow true [] false end.

Lemma find_none_iff (p : Frame -> bool) l : List.find p l = None <-> Forall (fun f => p f = false) l.
Proof.
  split.
  - intros H. apply list.Forall_forall. intros f Hf. apply list_elem_of_In in Hf. by apply (find_none _ _ H).
  - intros H. destruct (List.find p l) as [f|] eqn:E; [|done]. apply find_some in E as [Hin Hp].
    rewrite list.Forall_forall in H. apply list_elem_of_In in Hin. rewrite (H f Hin) in Hp. done.
Qed.

Lemma request_spec matches w :
  match request matches w with
  | TimedOut => silent matches w
  | LinkDown => w_connected w = false \/ (w_drops w = true /\ Forall (fun f => matches f = false) (arrivals w))
  | Answer f => w_connected w = true /\ matches f = true
                /\ exists before after, arrivals w = before ++ f :: after /\ Forall (fun f => matches f = false) before
  end.
Proof.
  unfold request, silent. destruct (w_connected w); cbn [negb]; [|by left].
  destruct (List.find matches (arrivals w)) as [f|] eqn:E.
  - destruct (find_some _ _ E) as [_ Hm]. repeat split; [done|].
    clear Hm. induction (arrivals w) as [|g l IH]; [done|]. cbn [List.find] in E.
    destruct (matches g) eqn:Eg.
    + injection E as ->. exists [], l. split; [done|constructor].
    + destruct (IH E) as (b & a & -> & Hb). exists (g :: b), a. split; [done|by constructor].
  - apply find_none_iff in E. destruct (w_drops w); [by right|done].
Qed.
