(* ===== verification/SbgCommands.v ===== *)
(** * sbgECom commands ([rover/drivers/sbg/commands.py])

    The settings records with their encoders and decoders, and the command channel: GET and
    SET through [InsController.request] ([rover/drivers/ins_common.py]), with retries on
    timeout only and acknowledgements matched by command. *)

From Stdlib Require Import String.
From S2P Require Import Prelude.
From S2P Require Import PyBytes.
From S2P Require Import PyFloat.
From S2P Require Import PyStruct.
From S2P Require Import Calendar.
From S2P Require Import Framing.
From S2P Require Import SbgFraming.
From S2P Require Import SbgLogs.
From S2P Require Import InsLink.

(** ** Tables *)

Definition OUTPUT_PORT : list (bytes * Z) :=
  [(str "A", 0); (str "C", 2); (str "D", 3); (str "E", 4)].

Definition OUTPUT_MODE : list (bytes * Z) :=
  [(str "DISABLED", 0); (str "MAIN_LOOP", 1); (str "DIV_2", 2); (str "DIV_4", 4); (str "DIV_5", 5);
   (str "DIV_8", 8); (str "DIV_10", 10); (str "DIV_20", 20); (str "DIV_40", 40); (str "DIV_100", 100);
   (str "DIV_200", 200); (str "PPS", 10000); (str "NEW_DATA", 10001); (str "EVENT_IN_A", 10003);
   (str "EVENT_IN_B", 10004); (str "EVENT_IN_C", 10005); (str "EVENT_IN_D", 10006);
   (str "EVENT_IN_E", 10007)].

Definition MOTION_PROFILE : list (bytes * Z) :=
  [(str "GENERAL_PURPOSE", 1); (str "AUTOMOTIVE", 2); (str "MARINE", 3); (str "AIRPLANE", 4);
   (str "HELICOPTER", 5); (str "PEDESTRIAN", 6); (str "UAV_ROTARY_WING", 7); (str "HEAVY_MACHINERY", 8);
   (str "STATIC", 9); (str "TRUCK", 10); (str "RAILWAY", 11); (str "OFF_ROAD_VEHICLE", 12);
   (str "UNDERWATER", 13)].

Definition MODULE_PORT : list (bytes * Z) :=
  [(str "PORT_A", 0); (str "PORT_B", 1); (str "PORT_C", 2); (str "PORT_D", 3); (str "PORT_E", 4);
   (str "INTERNAL", 5); (str "DISABLED", 0xFF)].

Definition AXIS : list (bytes * Z) :=
  [(str "FORWARD", 0); (str "BACKWARD", 1); (str "LEFT", 2); (str "RIGHT", 3); (str "UP", 4);
   (str "DOWN", 5)].

Definition GNSS_INSTALL_MODE : list (bytes * Z) :=
  [(str "SINGLE", 1); (str "DUAL_AUTO", 2); (str "DUAL_ROUGH", 3); (str "DUAL_PRECISE", 4)].

Definition ERROR_NAME : list (Z * bytes) :=
  [(0, str "NO_ERROR"); (1, str "ERROR"); (2, str "NULL_POINTER"); (3, str "INVALID_CRC");
   (4, str "INVALID_FRAME"); (5, str "TIME_OUT"); (6, str "WRITE_ERROR"); (7, str "READ_ERROR");
   (8, str "BUFFER_OVERFLOW"); (9, str "INVALID_PARAMETER"); (10, str "NOT_READY");
   (11, str "MALLOC_FAILED"); (12, str "CALIB_MAG_NOT_ENOUGH_POINTS"); (13, str "CALIB_MAG_INVALID_TAKE");
   (14, str "CALIB_MAG_SATURATION"); (15, str "CALIB_MAG_POINTS_NOT_IN_A_PLANE");
   (16, str "DEVICE_NOT_FOUND"); (17, str "OPERATION_CANCELLED"); (18, str "NOT_CONTINUOUS_FRAME");
   (19, str "INCOMPATIBLE_HARDWARE"); (20, str "INVALID_VERSION")].

Definition CMD_CLASS : Z := Eval vm_compute in id_of CLASS (str "CMD_0").
Definition cmd_id (name : bytes) : Z := id_of CMD name.
Definition ACK : Z := Eval vm_compute in cmd_id (str "ACK").
Definition DEFAULT_RETRIES : nat := 3.

Definition REBOOT_ONLY : Z := 0.
Definition SAVE_SETTINGS : Z := 1.
Definition RESTORE_DEFAULT : Z := 2.

(** [OUTPUT_MODE_NAME]. *)
Definition OUTPUT_MODE_NAME : list (Z * bytes) := map (fun kv : bytes * Z => (kv.2, kv.1)) OUTPUT_MODE.

(** [SbgCommandError]: the command, the code of its ACK ([None]: never answered), the text. *)
Record SbgCommandError := mkError { err_cmd : Z; err_code : option Z; err_text : bytes }.

Definition name_of {A} (eqb : A -> A -> bool) (table : list (A * bytes)) (k : A) : option bytes :=
  option_map snd (List.find (fun kv => eqb kv.1 k) table).

Definition command_error (cmd : Z) (code : option Z) (detail : bytes) : SbgCommandError :=
  let name := match CMD_NAME cmd with Some n => n | None => str_int cmd end in
  let reason :=
    match code with
    | None => match detail with [] => str "timeout" | _ => detail end
    | Some c =>
        str "error " ++ str_int c ++ str " ("
        ++ match name_of Z.eqb ERROR_NAME c with Some n => n | None => str "unknown" end ++ str ")"
        ++ match detail with [] => [] | _ => str " " ++ detail end
    end in
  mkError cmd code (str "sbgECom " ++ name ++ str ": " ++ reason).

(** ** Settings *)

Record GnssInstallation := mkGnssInstallation {
  lever_arm_primary : Vec3; primary_precise : bool; lever_arm_secondary : Vec3; secondary_mode : Z }.
Record ImuAlignment := mkImuAlignment {
  axis_x : Z; axis_y : Z; mis_roll : Z; mis_pitch : Z; mis_yaw : Z; lever_arm : Vec3 }.
Record AidingAssignment := mkAiding {
  gps1_port : Z; gps1_sync : Z; dvl_port : Z; dvl_sync : Z; rtcm_port : Z; air_data_port : Z; odometer_pins : Z }.
Record InitParameters := mkInit { latitude : Z; longitude : Z; altitude : Z; init_date : option (Z * Z * Z) }.
Record UartConf := mkUart { interface : Z; baud : Z; uart_mode : Z }.

(** [float(f"{x:.{digits}g}")]. *)
Definition shortened (x : Z) (digits : Z) : Z :=
  match f64 x with
  | FFin neg m e =>
      if m =? 0 then x
      else let '(d, k) := sig_digits digits m e in of_decimal neg d k
  | FInf _ => x
  | FNan _ _ => nan64
  end.

(** [_f32]: the shortest decimal that packs to the same single. *)
Definition f32_short (x : Z) : option Z :=
  packed ← narrow x;
  Some (match List.find (fun digits => bool_decide (narrow (shortened x digits) = Some packed)) [6; 7; 8; 9] with
        | Some digits => shortened x digits
        | None => x
        end).

Definition vec (a b c : Z) : option Vec3 :=
  a ← f32_short a; b ← f32_short b; c ← f32_short c; Some (a, b, c).

(** [_unpack]: [None] is the [ValueError] of a payload shorter than the format. *)
Definition unpack_ (fmt : list Code) (raw : bytes) : option (tuple fmt) :=
  if (length raw <? calcsize fmt)%nat then None else Some (unpack fmt raw).

(** ** Encoders and decoders *)

Definition INFO_FMT := [Str 32; U32; U32; U16; U8; U8; U32; U32].
Definition OUTPUT_CONF_FMT := [U8; U8; U8; U16].
Definition CLASS_ENABLE_FMT := [U8; U8; Flag].
Definition GNSS_INSTALL_FMT := [F32; F32; F32; Flag; F32; F32; F32; U8].
Definition IMU_ALIGN_FMT := [U8; U8; F32; F32; F32; F32; F32; F32].
Definition AIDING_FMT := [U8; U8; U32; U8; U8; U8; U8; U8].
Definition INIT_FMT := [F64; F64; F64; U16; U8; U8].
Definition UART_FMT := [U8; U32; U8].

Definition decode_info (raw : bytes) : option SbgInfo :=
  _ ← unpack_ INFO_FMT raw;
  match parse_payload CMD_CLASS (cmd_id (str "INFO")) raw with Some (MInfo i) => Some i | _ => None end.

Definition encode_output_conf_selector (port cls msg_id : Z) : option bytes := pack [U8; U8; U8] [# port; msg_id; cls].
Definition encode_output_conf (port cls msg_id mode : Z) : option bytes := pack OUTPUT_CONF_FMT [# port; msg_id; cls; mode].
(** [(port, class, msg_id, mode)]. *)
Definition decode_output_conf (raw : bytes) : option (Z * Z * Z * Z) :=
  '[# port; msg_id; cls; mode] ← unpack_ OUTPUT_CONF_FMT raw; Some (port, cls, msg_id, mode).

Definition encode_output_class_enable (port cls : Z) (enable : bool) : option bytes := pack CLASS_ENABLE_FMT [# port; cls; enable].
Definition decode_output_class_enable (raw : bytes) : option bool :=
  '[# _; _; enable] ← unpack_ CLASS_ENABLE_FMT raw; Some enable.

Definition encode_gnss_installation (i : GnssInstallation) : option bytes :=
  let '(px, py, pz) := lever_arm_primary i in
  let '(sx, sy, sz) := lever_arm_secondary i in
  pack GNSS_INSTALL_FMT [# px; py; pz; primary_precise i; sx; sy; sz; secondary_mode i].
Definition decode_gnss_installation (raw : bytes) : option GnssInstallation :=
  '[# v0; v1; v2; v3; v4; v5; v6; v7] ← unpack_ GNSS_INSTALL_FMT raw;
  p ← vec v0 v1 v2;
  s ← vec v4 v5 v6;
  Some (mkGnssInstallation p v3 s v7).

Definition encode_imu_alignment (a : ImuAlignment) : option bytes :=
  let '(x, y, z) := lever_arm a in
  pack IMU_ALIGN_FMT [# axis_x a; axis_y a; mis_roll a; mis_pitch a; mis_yaw a; x; y; z].
Definition decode_imu_alignment (raw : bytes) : option ImuAlignment :=
  '[# v0; v1; v2; v3; v4; v5; v6; v7] ← unpack_ IMU_ALIGN_FMT raw;
  roll ← f32_short v2;
  pitch ← f32_short v3;
  yaw ← f32_short v4;
  arm ← vec v5 v6 v7;
  Some (mkImuAlignment v0 v1 roll pitch yaw arm).

Definition encode_aiding_assignment (a : AidingAssignment) : option bytes :=
  pack AIDING_FMT [# gps1_port a; gps1_sync a; 0; dvl_port a; dvl_sync a; rtcm_port a; air_data_port a; odometer_pins a].
Definition decode_aiding_assignment (raw : bytes) : option AidingAssignment :=
  '[# g1; g1s; _; dvl; dvls; rtcm; air; odo] ← unpack_ AIDING_FMT raw; Some (mkAiding g1 g1s dvl dvls rtcm air odo).

Definition encode_motion_profile (model_id : Z) : option bytes := pack [U32] [# model_id].
Definition decode_motion_profile (raw : bytes) : option Z := '[# m] ← unpack_ [U32] raw; Some m.

Definition encode_init_parameters (lat lon alt_hae : Z) (day : Z * Z * Z) : option bytes :=
  let '(y, m, d) := day in pack INIT_FMT [# lat; lon; alt_hae; y; m; d].
Definition decode_init_parameters (raw : bytes) : option InitParameters :=
  '[# lat; lon; alt; y; m; d] ← unpack_ INIT_FMT raw; Some (mkInit lat lon alt (make_date y m d)).

Definition encode_settings_action (action : Z) : option bytes := pack [U8] [# action].
Definition decode_uart_conf (raw : bytes) : option UartConf :=
  '[# i; b; m] ← unpack_ UART_FMT raw; Some (mkUart i b m).

(** ** The command channel *)

(** [_ack_fields]: [(ackMsgId, ackMsgClass, errorCode)]. *)
Definition ack_fields (f : Frame) : Z * Z * Z :=
  let '[# id; cls; code] := unpack [U8; U8; U16] (frame_payload f) in (id, cls, code).

Definition is_cmd_frame (f : Frame) (msg_id : Z) : bool :=
  bool_decide (proto f = SBG) && ((raw f).[3] =? CMD_CLASS) && ((raw f).[2] =? msg_id).

Definition is_ack_for (f : Frame) (cmd : Z) : bool :=
  if negb (is_cmd_frame f ACK) || (length (frame_payload f) <? 4)%nat then false
  else let '(id, cls, _) := ack_fields f in (id =? cmd) && (cls =? CMD_CLASS).

(** The end of a command: its value, [SbgCommandError], [ConnectionError], or the
    [ValueError] of a frame that cannot be built. *)
Inductive Outcome (A : Type) := Done (x : A) | CommandError (e : SbgCommandError) | ConnectionError | FrameError.
Arguments Done {A} x.
Arguments CommandError {A} e.
Arguments ConnectionError {A}.
Arguments FrameError {A}.

(** [for _ in range(retries)]: one request per try, the next on a timeout only. Gives the
    number of frames written - none where the unit is not connected - and the answer, if any
    came. *)
Fixpoint attempts (matches : Frame -> bool) (n : nat) (link : list Window) : nat * Reply :=
  match n with
  | O => (O, TimedOut)
  | S n =>
      let w := match link with w :: _ => w | [] => mkWindow true [] false end in
      match request matches w with
      | TimedOut => let r := attempts matches n (tail link) in (S r.1, r.2)
      | r => (if w_connected w then 1%nat else O, r)
      end
  end.

(** [SbgCommands.get]. *)
Definition get_matches (cmd : Z) (selector : bytes) (f : Frame) : bool :=
  if is_cmd_frame f cmd then startswith (frame_payload f) selector
  else is_ack_for f cmd && negb ((ack_fields f).2 =? 0).

Definition get (cmd : Z) (selector : bytes) (retries : nat) (link : list Window) : list bytes * Outcome bytes :=
  match encode CMD_CLASS cmd selector with
  | None => ([], FrameError)
  | Some frame =>
      let r := attempts (get_matches cmd selector) retries link in
      (replicate r.1 frame,
       match r.2 with
       | TimedOut => CommandError (command_error cmd None (str "no reply after " ++ str_int (Z.of_nat retries) ++ str " attempts"))
       | LinkDown => ConnectionError
       | Answer f => if (raw f).[2] =? ACK then CommandError (command_error cmd (Some (ack_fields f).2) [])
                     else Done (frame_payload f)
       end)
  end.

(** [SbgCommands.set]. *)
Definition set_ (cmd : Z) (payload : bytes) (retries : nat) (link : list Window) : list bytes * Outcome unit :=
  match encode CMD_CLASS cmd payload with
  | None => ([], FrameError)
  | Some frame =>
      let r := attempts (fun f => is_ack_for f cmd) retries link in
      (replicate r.1 frame,
       match r.2 with
       | TimedOut => CommandError (command_error cmd None (str "no ACK after " ++ str_int (Z.of_nat retries) ++ str " attempts"))
       | LinkDown => ConnectionError
       | Answer f => let code := (ack_fields f).2 in
                     if negb (code =? 0) then CommandError (command_error cmd (Some code) []) else Done tt
       end)
  end.

(** [_get_decoded]; the text of the decoder's exception is left out of the error's. *)
Definition get_decoded {A} (cmd : Z) (decode : bytes -> option A) (selector : bytes) (link : list Window)
  : list bytes * Outcome A :=
  let r := get cmd selector DEFAULT_RETRIES link in
  (r.1, match r.2 with
        | Done raw => match decode raw with
                      | Some x => Done x
                      | None => CommandError (command_error cmd None (str "malformed reply"))
                      end
        | CommandError e => CommandError e
        | ConnectionError => ConnectionError
        | FrameError => FrameError
        end).

(** A command whose payload [struct] may refuse. *)
Definition set_packed (cmd : Z) (payload : option bytes) (retries : nat) (link : list Window) : list bytes * Outcome unit :=
  match payload with None => ([], FrameError) | Some p => set_ cmd p retries link end.

Definition get_info := get_decoded (cmd_id (str "INFO")) decode_info [].
Definition get_output_conf (port cls msg_id : Z) (link : list Window) : list bytes * Outcome Z :=
  match encode_output_conf_selector port cls msg_id with
  | None => ([], FrameError)
  | Some sel => get_decoded (cmd_id (str "OUTPUT_CONF")) (fun raw => option_map snd (decode_output_conf raw)) sel link
  end.
Definition set_output_conf (port cls msg_id mode : Z) :=
  set_packed (cmd_id (str "OUTPUT_CONF")) (encode_output_conf port cls msg_id mode) DEFAULT_RETRIES.
Definition get_output_class_enable (port cls : Z) (link : list Window) : list bytes * Outcome bool :=
  match pack [U8; U8] [# port; cls] with
  | None => ([], FrameError)
  | Some sel => get_decoded (cmd_id (str "OUTPUT_CLASS_ENABLE")) decode_output_class_enable sel link
  end.
Definition set_output_class_enable (port cls : Z) (enable : bool) :=
  set_packed (cmd_id (str "OUTPUT_CLASS_ENABLE")) (encode_output_class_enable port cls enable) DEFAULT_RETRIES.
Definition get_gnss_installation := get_decoded (cmd_id (str "GNSS_1_INSTALLATION")) decode_gnss_installation [].
Definition set_gnss_installation (i : GnssInstallation) :=
  set_packed (cmd_id (str "GNSS_1_INSTALLATION")) (encode_gnss_installation i) DEFAULT_RETRIES.
Definition get_imu_alignment := get_decoded (cmd_id (str "IMU_ALIGNMENT_LEVER_ARM")) decode_imu_alignment [].
Definition set_imu_alignment (a : ImuAlignment) :=
  set_packed (cmd_id (str "IMU_ALIGNMENT_LEVER_ARM")) (encode_imu_alignment a) DEFAULT_RETRIES.
Definition get_motion_profile := get_decoded (cmd_id (str "MOTION_PROFILE_ID")) decode_motion_profile [].
Definition set_motion_profile (model_id : Z) :=
  set_packed (cmd_id (str "MOTION_PROFILE_ID")) (encode_motion_profile model_id) DEFAULT_RETRIES.
Definition get_aiding_assignment := get_decoded (cmd_id (str "AIDING_ASSIGNMENT")) decode_aiding_assignment [].
Definition set_aiding_assignment (a : AidingAssignment) :=
  set_packed (cmd_id (str "AIDING_ASSIGNMENT")) (encode_aiding_assignment a) DEFAULT_RETRIES.
Definition get_init_parameters := get_decoded (cmd_id (str "INIT_PARAMETERS")) decode_init_parameters [].
Definition set_init_parameters (lat lon alt_hae : Z) (day : Z * Z * Z) :=
  set_packed (cmd_id (str "INIT_PARAMETERS")) (encode_init_parameters lat lon alt_hae day) DEFAULT_RETRIES.
Definition settings_action (action : Z) :=
  set_packed (cmd_id (str "SETTINGS_ACTION")) (encode_settings_action action) 1.
Definition get_uart_conf (interface : Z) (link : list Window) : list bytes * Outcome UartConf :=
  match pack [U8] [# interface] with
  | None => ([], FrameError)
  | Some sel => get_decoded (cmd_id (str "UART_CONF")) decode_uart_conf sel link
  end.

(** ** A setting read and written back is the same bytes *)

Lemma f32_short_narrow x b : narrow x = Some b -> exists y, f32_short x = Some y /\ narrow y = Some b.
Proof.
  intros H. unfold f32_short. rewrite H. cbn [mbind option_bind].
  destruct (List.find _ _) as [d|] eqn:E; [|by exists x]. apply find_some in E as [_ E].
  apply bool_decide_eq_true in E. by exists (shortened x d).
Qed.

(** The singles of a tuple that packs, each with its shortest decimal. *)
Ltac singles H :=
  repeat match type of H with
    | context [narrow ?v] =>
        let b := fresh "b" in let En := fresh "En" in let y := fresh "y" in let Es := fresh "Es" in let Ey := fresh "Ey" in
        destruct (narrow v) as [b|] eqn:En; cbn [mbind option_bind] in H; [|discriminate H || (repeat case_match; discriminate H)];
        destruct (f32_short_narrow _ _ En) as (y & Es & Ey); rewrite ?Es; cbn [mbind option_bind]
    end.

Ltac readback fmt raw Hl Hb Hc :=
  pose proof (pack_unpack fmt raw Hl Hb Hc) as H;
  unfold unpack_; rewrite (proj2 (Nat.ltb_ge (length raw) (calcsize fmt)) Hl); cbn [mbind option_bind];
  let v := fresh "v" in
  set (v := unpack fmt raw) in *; clearbody v; split_tuple v;
  unfold fmt in H; cbn [pack pack_code fst snd] in H.

Lemma gnss_readback raw : bytes_ok raw -> (26 <= length raw)%nat -> canonical GNSS_INSTALL_FMT raw ->
  exists v, decode_gnss_installation raw = Some v /\ encode_gnss_installation v = Some (take 26 raw).
Proof.
  intros Hb Hl Hc. unfold decode_gnss_installation, vec. readback GNSS_INSTALL_FMT raw Hl Hb Hc. singles H.
  eexists. split; [reflexivity|]. unfold encode_gnss_installation, GNSS_INSTALL_FMT.
  cbn [lever_arm_primary lever_arm_secondary primary_precise secondary_mode pack pack_code fst snd].
  rewrite Ey, Ey0, Ey1, Ey2, Ey3, Ey4. exact H.
Qed.

Lemma imu_readback raw : bytes_ok raw -> (26 <= length raw)%nat -> canonical IMU_ALIGN_FMT raw ->
  exists v, decode_imu_alignment raw = Some v /\ encode_imu_alignment v = Some (take 26 raw).
Proof.
  intros Hb Hl Hc. unfold decode_imu_alignment, vec. readback IMU_ALIGN_FMT raw Hl Hb Hc.
  destruct (pack_unsigned 1 x) as [p0|] eqn:E0; cbn [mbind option_bind] in H; [|done].
  destruct (pack_unsigned 1 x0) as [p1|] eqn:E1; cbn [mbind option_bind] in H; [|done]. singles H.
  eexists. split; [reflexivity|]. unfold encode_imu_alignment, IMU_ALIGN_FMT.
  cbn [axis_x axis_y mis_roll mis_pitch mis_yaw lever_arm pack pack_code fst snd].
  rewrite E0, E1, Ey, Ey0, Ey1, Ey2, Ey3, Ey4. exact H.
Qed.

Lemma aiding_readback raw : bytes_ok raw -> (11 <= length raw)%nat -> take 4 (drop 2 raw) = [0; 0; 0; 0] ->
  exists v, decode_aiding_assignment raw = Some v /\ encode_aiding_assignment v = Some (take 11 raw).
Proof.
  intros Hb Hl Hz. assert (Hc : canonical AIDING_FMT raw) by done.
  assert (Hres : (unpack AIDING_FMT raw).2.2.1 = 0).
  { unfold AIDING_FMT. cbn [unpack unpack_code code_size fst snd]. rewrite drop_drop. cbn [Nat.add]. by rewrite Hz. }
  unfold decode_aiding_assignment. readback AIDING_FMT raw Hl Hb Hc. cbn [fst snd] in Hres. subst x1.
  eexists. split; [reflexivity|]. exact H.
Qed.

Lemma output_conf_readback raw : bytes_ok raw -> (5 <= length raw)%nat ->
  exists port cls msg_id mode, decode_output_conf raw = Some (port, cls, msg_id, mode)
    /\ encode_output_conf port cls msg_id mode = Some (take 5 raw)
    /\ encode_output_conf_selector port cls msg_id = Some (take 3 raw).
Proof.
  intros Hb Hl. unfold decode_output_conf.
  pose proof (pack_unpack [U8; U8; U8] raw ltac:(simpl; lia) Hb ltac:(by repeat split)) as Hs.
  assert (Hc : canonical OUTPUT_CONF_FMT raw) by by repeat split.
  assert (E : unpack [U8; U8; U8] raw = [# (unpack OUTPUT_CONF_FMT raw).1; (unpack OUTPUT_CONF_FMT raw).2.1; (unpack OUTPUT_CONF_FMT raw).2.2.1])
    by reflexivity.
  rewrite E in Hs. readback OUTPUT_CONF_FMT raw Hl Hb Hc. do 4 eexists. split; [reflexivity|]. split; [exact H|exact Hs].
Qed.

Lemma motion_readback raw : bytes_ok raw -> (4 <= length raw)%nat ->
  exists m, decode_motion_profile raw = Some m /\ encode_motion_profile m = Some (take 4 raw).
Proof.
  intros Hb Hl. unfold decode_motion_profile, unpack_. rewrite (proj2 (Nat.ltb_ge _ _)) by (simpl; lia). cbn [mbind option_bind].
  pose proof (pack_unpack [U32] raw ltac:(simpl; lia) Hb ltac:(done)) as H.
  eexists. split; [reflexivity|]. exact H.
Qed.

Lemma init_readback raw p : bytes_ok raw -> (28 <= length raw)%nat -> decode_init_parameters raw = Some p ->
  match init_date p with
  | Some day => encode_init_parameters (latitude p) (longitude p) (altitude p) day = Some (take 28 raw)
  | None => True
  end.
Proof.
  intros Hb Hl. assert (Hc : canonical INIT_FMT raw) by by repeat split.
  unfold decode_init_parameters. readback INIT_FMT raw Hl Hb Hc. intros [= <-]. cbn [init_date latitude longitude altitude].
  unfold make_date. destruct (make_datetime _ _ _ _ _ _); [exact H|done].
Qed.

(** A setting read from the unit and written back unchanged is the same
    bytes, whatever newer firmware appends to the reply: the shortest-decimal floats
    of the decoders still name the same singles.  The unit's replies are assumed
    canonical: flags 0 or 1, singles that are numbers, the reserved field zero.  A
    reply too short is refused. *)
Theorem settings_readback raw :
  bytes_ok raw ->
  ((26 <= length raw)%nat -> canonical GNSS_INSTALL_FMT raw ->
     exists v, decode_gnss_installation raw = Some v /\ encode_gnss_installation v = Some (take 26 raw))
  /\ ((26 <= length raw)%nat -> canonical IMU_ALIGN_FMT raw ->
     exists v, decode_imu_alignment raw = Some v /\ encode_imu_alignment v = Some (take 26 raw))
  /\ ((11 <= length raw)%nat -> take 4 (drop 2 raw) = [0; 0; 0; 0] ->
     exists v, decode_aiding_assignment raw = Some v /\ encode_aiding_assignment v = Some (take 11 raw))
  /\ ((5 <= length raw)%nat ->
     exists port cls msg_id mode, decode_output_conf raw = Some (port, cls, msg_id, mode)
       /\ encode_output_conf port cls msg_id mode = Some (take 5 raw)
       /\ encode_output_conf_selector port cls msg_id = Some (take 3 raw))
  /\ ((4 <= length raw)%nat -> exists m, decode_motion_profile raw = Some m /\ encode_motion_profile m = Some (take 4 raw))
  /\ ((28 <= length raw)%nat -> exists p, decode_init_parameters raw = Some p
       /\ match init_date p with
          | Some day => encode_init_parameters (latitude p) (longitude p) (altitude p) day = Some (take 28 raw)
          | None => True
          end).
Proof.
  intros Hb. repeat split; intros Hl; eauto using gnss_readback, imu_readback, aiding_readback, output_conf_readback, motion_readback.
  destruct (decode_init_parameters raw) as [p|] eqn:E; [exists p; split; [done|by apply init_readback]|].
  exfalso. unfold decode_init_parameters, unpack_ in E. rewrite (proj2 (Nat.ltb_ge _ _)) in E by (simpl; lia).
  cbn [mbind option_bind] in E. set (v := unpack INIT_FMT raw) in *. clearbody v. by split_tuple v.
Qed.

(** The settings written for a lever arm of -1.2, 0.05 and 0.3 metres read back as those numbers. *)
Example lever_arm_reads_back :
  let f d k := of_decimal (d <? 0) (Z.abs d) k in
  let i := mkGnssInstallation (f (-12) (-1), f 5 (-2), f 3 (-1)) true (f 0 0, f 1 0, f 123456 (-3)) 4 in
  (raw ← encode_gnss_installation i; decode_gnss_installation raw) = Some i.
Proof. vm_compute. reflexivity. Qed.

(** ** Commands on a link *)

(** A frame of the command class with this id. *)
Definition cmd_frame (f : Frame) (id : Z) : Prop :=
  proto f = SBG /\ (raw f).[3] = CMD_CLASS /\ (raw f).[2] = id.

(** The unit's ACK of one command: id, class and a 16-bit code, then anything. *)
Definition acks (cmd code : Z) (f : Frame) : Prop :=
  cmd_frame f ACK
  /\ exists lo hi rest, frame_payload f = [cmd; CMD_CLASS; lo; hi] ++ rest /\ code = lo + 256 * hi.

Definition refuses (cmd code : Z) (f : Frame) : Prop := acks cmd code f /\ code <> 0.

(** The reply of a GET: the command itself, its payload opening with the selector. *)
Definition echoes (cmd : Z) (selector : bytes) (f : Frame) : Prop :=
  cmd_frame f cmd /\ exists rest, frame_payload f = selector ++ rest.

(** How a series of at most [n] tries ends, [P] telling the frames that answer: with the first
    one of the first try that has one; with a link that is not up or drops before one; or with
    no try answered. [sent] frames went out. *)
Definition unanswered (P : Frame -> Prop) (w : Window) : Prop :=
  w_connected w = true /\ w_drops w = false /\ Forall (fun g => ~ P g) (arrivals w).
Definition tried (P : Frame -> Prop) (n : nat) (link : list Window) (sent : nat) (reply : Reply) : Prop :=
  match reply with
  | TimedOut => sent = n /\ forall j, (j < n)%nat -> unanswered P (window link j)
  | Answer f => exists i, sent = S i /\ (i < n)%nat /\ (forall j, (j < i)%nat -> unanswered P (window link j))
      /\ w_connected (window link i) = true /\ P f
      /\ exists before after, arrivals (window link i) = before ++ f :: after /\ Forall (fun g => ~ P g) before
  | LinkDown => exists i, (i < n)%nat /\ (forall j, (j < i)%nat -> unanswered P (window link j))
      /\ (w_connected (window link i) = false /\ sent = i
          \/ w_connected (window link i) = true /\ w_drops (window link i) = true /\ sent = S i
             /\ Forall (fun g => ~ P g) (arrivals (window link i)))
  end.

Lemma forall_unmatched (matches : Frame -> bool) (P : Frame -> Prop) l :
  (forall f, matches f = true <-> P f) -> Forall (fun f => matches f = false) l -> Forall (fun g => ~ P g) l.
Proof. intros HP. apply Forall_impl. intros f Hf Hp%HP. congruence. Qed.

Lemma tried_later P n w link sent reply :
  unanswered P w -> tried P n link sent reply -> tried P (S n) (w :: link) (S sent) reply.
Proof.
  intros Hw H. unfold tried in *.
  assert (Hs : forall m, (forall j, (j < m)%nat -> unanswered P (window link j)) ->
    forall j, (j < S m)%nat -> unanswered P (window (w :: link) j)) by (intros m Hm [|j] Hj; [done|apply Hm; lia]).
  destruct reply as [f| |].
  - destruct H as (i & -> & Hi & Hj & H). exists (S i). split; [done|]. split; [lia|]. split; [by apply Hs|exact H].
  - destruct H as [-> H]. split; [done|by apply Hs].
  - destruct H as (i & Hi & Hj & H). exists (S i). split; [lia|]. split; [by apply Hs|].
    destruct H as [[H ->]|(H & Hd & -> & Hf)]; [by left|by right].
Qed.

Lemma tried_idle P n link sent reply :
  tried P n (mkWindow true [] false :: tail link) sent reply -> link = [] -> tried P n link sent reply.
Proof.
  intros H ->. assert (E : forall j, window (tail [mkWindow true [] false]) j = window [] j) by done.
  assert (E0 : forall j, window [mkWindow true [] false] j = window [] j) by (intros [|[|j]]; done).
  unfold tried in *. destruct reply.
  all: setoid_rewrite E0 in H; exact H.
Qed.

(** What the loop of tries does. *)
Lemma attempts_tried matches (P : Frame -> Prop) n link :
  (forall f, matches f = true <-> P f) -> tried P n link (attempts matches n link).1 (attempts matches n link).2.
Proof.
  intros HP. revert link. induction n as [|n IH]; intros link; [split; [done|intros; lia]|].
  assert (Hcons : forall w ws, tried P (S n) (w :: ws) (attempts matches (S n) (w :: ws)).1 (attempts matches (S n) (w :: ws)).2).
  { intros w ws. cbn [attempts tail]. pose proof (request_spec matches w) as H0.
    destruct (request matches w) as [f| |]; cbn [fst snd].
    - destruct H0 as (Hc & Hm & b & a & E & Hb). rewrite Hc. exists 0%nat. split_and!; [done|lia|intros; lia|done|by apply HP|].
      exists b, a. split; [done|by eapply forall_unmatched].
    - destruct H0 as (Hc & Hd & Hf). apply tried_later; [|apply IH]. split_and!; [done|done|by eapply forall_unmatched].
    - exists 0%nat. split; [lia|]. split; [intros; lia|]. cbn [window nth_error].
      destruct (w_connected w) eqn:Ec; [right|by left]. destruct H0 as [|[Hd Hf]]; [congruence|].
      split_and!; [done|done|done|by eapply forall_unmatched]. }
  destruct link as [|w ws]; [|apply Hcons]. apply tried_idle; [|done]. apply (Hcons _ []).
Qed.

Lemma is_cmd_frame_spec f id : is_cmd_frame f id = true <-> cmd_frame f id.
Proof. unfold is_cmd_frame, cmd_frame. rewrite !andb_true_iff, bool_decide_eq_true, !Z.eqb_eq. tauto. Qed.

(** [_is_ack_for] recognises the ACKs of that command, and [_ack_fields] reads their code. *)
Lemma is_ack_for_spec f cmd : is_ack_for f cmd = true <-> acks cmd (ack_fields f).2 f.
Proof.
  unfold is_ack_for, acks. rewrite <- is_cmd_frame_spec. destruct (is_cmd_frame f ACK); cbn [negb orb]; [|split; [done|by intros [? _]]].
  unfold ack_fields. destruct (frame_payload f) as [|a [|b [|c [|d l]]]].
  1-4: split; [done|]; intros (_ & lo & hi & rest & E & _); discriminate E.
  change (length (a :: b :: c :: d :: l) <? 4)%nat with false.
  cbn [unpack unpack_code code_size take drop le_int fst snd]. rewrite !Z.mul_0_r, !Z.add_0_r, andb_true_iff, !Z.eqb_eq. split.
  - intros [-> ->]. split; [done|]. by exists c, d, l.
  - intros (_ & lo & hi & rest & [= -> -> _ _ _] & _). done.
Qed.

Lemma acks_code f cmd c : acks cmd c f -> c = (ack_fields f).2.
Proof.
  intros (_ & lo & hi & rest & E & ->). unfold ack_fields. rewrite E.
  cbn [app unpack unpack_code code_size take drop le_int fst snd].
  rewrite take_0. cbn [le_int]. lia.
Qed.

Lemma get_matches_spec cmd selector f : cmd <> ACK ->
  get_matches cmd selector f = true <-> echoes cmd selector f \/ exists c, refuses cmd c f.
Proof.
  intros Hc. unfold get_matches, echoes, refuses. destruct (is_cmd_frame f cmd) eqn:E.
  - apply is_cmd_frame_spec in E as E'. rewrite startswith_spec. split; [by left|].
    intros [[_ H]|(c & ((_ & _ & H) & _) & _)]; [done|]. destruct E' as (_ & _ & E'). congruence.
  - rewrite andb_true_iff, is_ack_for_spec, negb_true_iff, Z.eqb_neq. split.
    + intros [H1 H2]. right. by exists (ack_fields f).2.
    + intros [[H _]|(c & H & H0)]; [apply is_cmd_frame_spec in H; congruence|].
      rewrite <- (acks_code _ _ _ H). done.
Qed.

(** C18.  What a GET and a SET of one command return, over any traffic on the link.
    A GET is answered by the first frame of the command whose payload opens with the
    selector, whose payload it returns, or by an ACK of that very command with a code other
    than 0, which refuses it with that code; a late code-0 ACK is passed over.  A SET is answered
    by the first ACK of that very command: it succeeds on code 0 and is refused with any other.
    The answer ends the command at once: it is resent only after a try in which nothing
    answered, and after the last such try the command fails without a code; a link that is
    down or drops ends it too.  Every frame sent is the same frame, one per try. *)
Theorem commands_answered cmd payload retries link frame :
  cmd <> ACK -> encode CMD_CLASS cmd payload = Some frame ->
  (let r := get cmd payload retries link in
   exists sent reply, r.1 = replicate sent frame
   /\ tried (fun f => echoes cmd payload f \/ exists c, refuses cmd c f) retries link sent reply
   /\ match r.2 with
      | Done p => exists f, reply = Answer f /\ echoes cmd payload f /\ p = frame_payload f
      | CommandError e =>
          match err_code e with
          | Some c => exists f, reply = Answer f /\ refuses cmd c f
          | None => reply = TimedOut
          end
      | ConnectionError => reply = LinkDown
      | FrameError => False
      end)
  /\ (let r := set_ cmd payload retries link in
      exists sent reply, r.1 = replicate sent frame
      /\ tried (fun f => exists c, acks cmd c f) retries link sent reply
      /\ match r.2 with
         | Done _ => exists f, reply = Answer f /\ acks cmd 0 f
         | CommandError e =>
             match err_code e with
             | Some c => exists f, reply = Answer f /\ refuses cmd c f
             | None => reply = TimedOut
             end
         | ConnectionError => reply = LinkDown
         | FrameError => False
         end).
Proof.
  intros Hc He. cbv zeta. split.
  - unfold get. rewrite He.
    pose proof (attempts_tried _ _ retries link (fun f => get_matches_spec cmd payload f Hc)) as H.
    destruct (attempts _ _ _) as [sent reply]. cbn [fst snd] in *. exists sent, reply. split; [done|]. split; [done|].
    destruct reply as [f| |]; [|done..]. destruct H as (i & _ & _ & _ & _ & Hm & _).
    destruct ((raw f).[2] =? ACK) eqn:E; cbn [err_code command_error]; zbool; exists f; (split; [done|]).
    + destruct Hm as [((_ & _ & H) & _)|(c & H)]; [congruence|]. by rewrite <- (acks_code f cmd c) by apply H.
    + destruct Hm as [H|(c & ((_ & _ & H) & _) & _)]; [done|congruence].
  - unfold set_. rewrite He.
    assert (HP : forall f, is_ack_for f cmd = true <-> exists c, acks cmd c f).
    { intros f. rewrite is_ack_for_spec. split; [by eexists|]. intros [c H]. by rewrite <- (acks_code _ _ _ H). }
    pose proof (attempts_tried _ _ retries link HP) as H.
    destruct (attempts _ _ _) as [sent reply]. cbn [fst snd] in *. exists sent, reply. split; [done|]. split; [done|].
    destruct reply as [f| |]; [|done..]. destruct H as (i & _ & _ & _ & _ & [c Hm] & _).
    rewrite <- (acks_code _ _ _ Hm). destruct (c =? 0) eqn:E; cbn [negb err_code command_error]; zbool; exists f; [by subst|done].
Qed.

Lemma settings_readback_witness :
  let raw := [154; 153; 153; 191; 205; 204; 76; 61; 154; 153; 153; 62; 1; 0; 0; 0; 0; 0; 0; 128; 63; 119; 190; 246; 66; 4; 9; 9] in
  exists v, decode_gnss_installation raw = Some v /\ encode_gnss_installation v = Some (take 26 raw).
Proof.
  intros raw. apply (settings_readback raw).
  - repeat (apply Forall_cons; [split; [discriminate|reflexivity]|]). constructor.
  - apply (Nat.leb_le 26). vm_compute. reflexivity.
  - vm_compute. repeat split. by right.
Defined.

(** The ACK frame of a command with a code, as the unit sends it. *)
Definition ack_frame (cmd code : Z) : Frame :=
  mkFrame SBG (default [] (encode CMD_CLASS ACK ([cmd; CMD_CLASS] ++ le_bytes 2 code))).

(** A late code-0 ACK is passed over; the data in the second try is the answer. *)
Lemma commands_answered_witness :
  let frame := default [] (encode CMD_CLASS 8 []) in
  let reply := mkFrame SBG (default [] (encode CMD_CLASS 8 [3; 0; 0; 0])) in
  let link := [mkWindow true [ack_frame 8 0; ack_frame 30 9] false; mkWindow true [ack_frame 30 2; reply] false] in
  get 8 [] 3 link = ([frame; frame], Done [3; 0; 0; 0])
  /\ exists sent f, [3; 0; 0; 0] = frame_payload f
     /\ tried (fun f => echoes 8 [] f \/ exists c, refuses 8 c f) 3 link sent (Answer f).
Proof.
  intros frame reply link. assert (E : get 8 [] 3 link = ([frame; frame], Done [3; 0; 0; 0])) by (vm_compute; reflexivity).
  split; [exact E|].
  destruct (commands_answered 8 [] 3 link frame) as [(sent & r & _ & Ht & H) _]; [discriminate|vm_compute; reflexivity|].
  rewrite E in H. destruct H as (f & -> & _ & Hp). exists sent, f. by split.
Defined.
