(* ===== verification/Alerts.v ===== *)
(** * Alert rules ([alerts.py])

    The engine's state, the emission of events, the condition slots ([raise_], [clear],
    [one_shot]), one handler per topic, the dispatch and the per-message error handling.
    Times are the readings of [clock] in milliseconds; measured floats (free space, a
    temperature, an age) are integers in thousandths of their unit. *)

From Stdlib Require Import String.
From stdpp Require Import gmap.
From S2P Require Import Prelude.
From S2P Require Import PyBytes.

(** ** Constants *)

Definition FIX_LOST_GRACE_S : Z := 10000.
Definition JAMMING_SUSTAIN_S : Z := 30000.
Definition JAM_IND_THRESHOLD : Z := 200.
Definition JAMMING_STATE_WARNING : Z := 2.
Definition TEMP_HIGH_C : Z := 80000.
Definition TEMP_CLEAR_C : Z := TEMP_HIGH_C - 5000.
Definition TEMP_SUSTAIN_S : Z := 60000.
Definition ONE_SHOT_DEDUP_S : Z := 300000.
Definition WEBHOOK_LOG_INTERVAL_S : Z := 60000.
Definition HANDLER_LOG_INTERVAL_S : Z := 60000.
Definition CORR_STALE_S : Z := 10000.
Definition CORR_OK_S : Z := 5000.
Definition RTK_LOST_GRACE_S : Z := 10000.
Definition CARR_FIXED : Z := 2.
Definition INS_ALIGN_GRACE_S : Z := 60000.
Definition INS_GNSS_LOST_GRACE_S : Z := 10000.

(** [ANTENNA_FAULT_STATES.get]. *)
Definition ANTENNA_FAULT_STATES (ant_status : Z) : option bytes :=
  if ant_status =? 3 then Some (str "short") else if ant_status =? 4 then Some (str "open") else None.

(** [INS_ALIGNED_MODE.get]. *)
Definition INS_ALIGNED_MODE (vendor : bytes) : option Z :=
  if bool_decide (vendor = str "sbg") then Some 4
  else if bool_decide (vendor = str "vectornav") then Some 2 else None.

(** [GNSS_NO_FIX.get(vendor, GNSS_NO_FIX_DEFAULT)]. *)
Definition GNSS_NO_FIX (vendor : bytes) : list Z :=
  if bool_decide (vendor = str "vectornav") then [0; 1] else [0].

(** ** Data *)

Inductive Level := Info | Warning | Error.

(** A value of an event's [meta] dictionary. *)
Inductive Value := VNone | VInt (n : Z) | VReal (thousandths : Z) | VText (s : bytes) | VTexts (l : list bytes).
Definition Meta : Type := list (bytes * Value).

Record Event := mkEvent {
  ev_level : Level;
  ev_kind : bytes;
  ev_message : bytes;
  ev_ts : Z;
  ev_meta : Meta;
}.

(** One call of [_emit], with the row written ([None]: [EventsRepo.add] raised). *)
Record Attempt := mkAttempt { at_kind : bytes; at_now : Z; at_row : option Event }.

Inductive LogLine :=
| LogEvent (level : Level) (kind message : bytes)
| WebhookFailed | WebhookStillFailing (suppressed : nat) | WebhookDelivering
| RuleFailed (topic : bytes) | RulesStillFailing (topic : bytes) (suppressed : nat) | RulesWorking.

(** The items of the topics, with the fields the rules read. *)
Record FixInfo := mkFix { fix_type : Z; fix_type_name : bytes }.
Record Hardware := mkHardware {
  jam_ind : Z; jamming_state : Z; jamming_state_name : bytes; ant_status : Z; ant_status_name : bytes }.
Record SystemStats := mkStats { disk_free_gb : Z; temp_c : option Z }.
Record SurveyIn := mkSurvey { svin_valid : bool; mean_acc_m : option Z; dur_s : Z }.
Record NtripStatus := mkNtrip { connected : bool; ntrip_host : bytes; ntrip_port : Z; mountpoint : bytes; last_error : bytes }.
Record RtkStatus := mkRtk { corr_age_s : option Z; carr_soln : Z; carr_soln_name : bytes }.
Record InsStatus := mkIns {
  vendor : bytes; mode : option Z; mode_name : bytes; gnss_fix : option Z; gnss_fix_name : bytes;
  ins_errors : gmap bytes bool; general_ok : gmap bytes bool }.

Inductive Message :=
| ReceiverDisconnected (reason : bytes)
| ReceiverConnected (source : bytes)
| ReceiverError (message : bytes)
| ReceiverCapabilities
| ReceiverRecovered (meta : Meta)
| StateFix (sample : FixInfo)
| StateHardware (hw : Hardware)
| SystemStatsItem (stats : SystemStats)
| RawlogBackpressure (meta : Meta)
| RawlogDrained (meta : Meta)
| RawlogPruned (name : bytes)
| RawlogError (message : bytes)
| SamplerError (message : bytes)
| SamplerRecovered (message : bytes)
| DaemonConsumerFailed (meta : Meta)
| StateSurveyIn (svin : SurveyIn)
| BaseSiteMismatch (meta : Meta)
| BaseSiteVerified (meta : Meta)
| NtripClientStatus (status : NtripStatus)
| StateRtk (rtk : RtkStatus)
| StateIns (ins : InsStatus)
| InsConfig (mismatched : list bytes)
| OtherTopic (topic : bytes).

Definition topic_of (m : Message) : bytes :=
  match m with
  | ReceiverDisconnected _ => str "receiver.disconnected"
  | ReceiverConnected _ => str "receiver.connected"
  | ReceiverError _ => str "receiver.error"
  | ReceiverCapabilities => str "receiver.capabilities"
  | ReceiverRecovered _ => str "receiver.recovered"
  | StateFix _ => str "state.fix"
  | StateHardware _ => str "state.hardware"
  | SystemStatsItem _ => str "system.stats"
  | RawlogBackpressure _ => str "rawlog.backpressure"
  | RawlogDrained _ => str "rawlog.drained"
  | RawlogPruned _ => str "rawlog.pruned"
  | RawlogError _ => str "rawlog.error"
  | SamplerError _ => str "sampler.error"
  | SamplerRecovered _ => str "sampler.recovered"
  | DaemonConsumerFailed _ => str "daemon.consumer_failed"
  | StateSurveyIn _ => str "state.survey_in"
  | BaseSiteMismatch _ => str "base.site_mismatch"
  | BaseSiteVerified _ => str "base.site_verified"
  | NtripClientStatus _ => str "ntrip_client.status"
  | StateRtk _ => str "state.rtk"
  | StateIns _ => str "state.ins"
  | InsConfig _ => str "ins.config"
  | OtherTopic t => t
  end.

(** ** State *)

(** [active], [_raising], [_one_shot_last], [_receiver_errors_behind]. *)
Record Slots := mkSlots {
  active : gmap bytes Event;
  raising : gset bytes;
  one_shot_last : gmap bytes Z;
  receiver_errors_behind : list bytes;
}.

(** What the rules remember between samples. *)
Record Memory := mkMemory {
  had_3d : bool;
  fix_bad_since : option Z;
  jam_since : option Z;
  temp_high_since : option Z;
  survey_valid : bool;
  was_fixed : bool;
  rtk_bad_since : option Z;
  ins_unaligned_since : option Z;
  ins_gnss_had_fix : bool;
  ins_gnss_bad_since : option Z;
}.

(** [_webhook_failing]/[_webhook_suppressed]/[_last_webhook_log], and the same three of the
    handlers. *)
Record Complaint := mkComplaint { failing : bool; suppressed : nat; last_log : Z }.

(** The outside: every emission asked for, the rows, the [events.new] messages, the posts
    made and the lines logged, oldest first. *)
Record Journal := mkJournal {
  attempts : list Attempt;
  published : list Event;
  posts : list Event;
  logs : list LogLine;
}.

Record Engine := mkEngine {
  slots : Slots;
  memory : Memory;
  webhook : Complaint;
  handler : Complaint;
  journal : Journal;
  e_now : Z;
}.

Definition init : Engine :=
  mkEngine (mkSlots ∅ ∅ ∅ []) (mkMemory false None None None false false None None false None)
    (mkComplaint false 0 0) (mkComplaint false 0 0) (mkJournal [] [] [] []) 0.

Definition on_slots (f : Slots -> Slots) (e : Engine) : Engine :=
  mkEngine (f (slots e)) (memory e) (webhook e) (handler e) (journal e) (e_now e).
Definition on_memory (f : Memory -> Memory) (e : Engine) : Engine :=
  mkEngine (slots e) (f (memory e)) (webhook e) (handler e) (journal e) (e_now e).
Definition on_journal (f : Journal -> Journal) (e : Engine) : Engine :=
  mkEngine (slots e) (memory e) (webhook e) (handler e) (f (journal e)) (e_now e).
Definition set_webhook (c : Complaint) (e : Engine) : Engine :=
  mkEngine (slots e) (memory e) c (handler e) (journal e) (e_now e).
Definition set_handler (c : Complaint) (e : Engine) : Engine :=
  mkEngine (slots e) (memory e) (webhook e) c (journal e) (e_now e).
Definition at_time (now : Z) (e : Engine) : Engine :=
  mkEngine (slots e) (memory e) (webhook e) (handler e) (journal e) now.

Definition set_active (f : gmap bytes Event -> gmap bytes Event) (s : Slots) : Slots :=
  mkSlots (f (active s)) (raising s) (one_shot_last s) (receiver_errors_behind s).
Definition set_raising (f : gset bytes -> gset bytes) (s : Slots) : Slots :=
  mkSlots (active s) (f (raising s)) (one_shot_last s) (receiver_errors_behind s).
Definition set_one_shot_last (f : gmap bytes Z -> gmap bytes Z) (s : Slots) : Slots :=
  mkSlots (active s) (raising s) (f (one_shot_last s)) (receiver_errors_behind s).
Definition set_behind (l : list bytes) (s : Slots) : Slots :=
  mkSlots (active s) (raising s) (one_shot_last s) l.

Definition set_fix (had : bool) (since : option Z) (m : Memory) : Memory :=
  mkMemory had since (jam_since m) (temp_high_since m) (survey_valid m) (was_fixed m) (rtk_bad_since m)
    (ins_unaligned_since m) (ins_gnss_had_fix m) (ins_gnss_bad_since m).
Definition set_jam (since : option Z) (m : Memory) : Memory :=
  mkMemory (had_3d m) (fix_bad_since m) since (temp_high_since m) (survey_valid m) (was_fixed m) (rtk_bad_since m)
    (ins_unaligned_since m) (ins_gnss_had_fix m) (ins_gnss_bad_since m).
Definition set_temp (since : option Z) (m : Memory) : Memory :=
  mkMemory (had_3d m) (fix_bad_since m) (jam_since m) since (survey_valid m) (was_fixed m) (rtk_bad_since m)
    (ins_unaligned_since m) (ins_gnss_had_fix m) (ins_gnss_bad_since m).
Definition set_survey (valid : bool) (m : Memory) : Memory :=
  mkMemory (had_3d m) (fix_bad_since m) (jam_since m) (temp_high_since m) valid (was_fixed m) (rtk_bad_since m)
    (ins_unaligned_since m) (ins_gnss_had_fix m) (ins_gnss_bad_since m).
Definition set_rtk (was : bool) (since : option Z) (m : Memory) : Memory :=
  mkMemory (had_3d m) (fix_bad_since m) (jam_since m) (temp_high_since m) (survey_valid m) was since
    (ins_unaligned_since m) (ins_gnss_had_fix m) (ins_gnss_bad_since m).
Definition set_unaligned (since : option Z) (m : Memory) : Memory :=
  mkMemory (had_3d m) (fix_bad_since m) (jam_since m) (temp_high_since m) (survey_valid m) (was_fixed m) (rtk_bad_since m)
    since (ins_gnss_had_fix m) (ins_gnss_bad_since m).
Definition set_gnss (had : bool) (since : option Z) (m : Memory) : Memory :=
  mkMemory (had_3d m) (fix_bad_since m) (jam_since m) (temp_high_since m) (survey_valid m) (was_fixed m) (rtk_bad_since m)
    (ins_unaligned_since m) had since.

(** ** The handlers' monad: the engine's state, and an exception as [None] (the state changes
    made before it stay) *)

Definition M (A : Type) : Type := Engine -> Engine * option A.
#[export] Instance M_ret : MRet M := fun A x e => (e, Some x).
#[export] Instance M_bind : MBind M := fun A B k m e =>
  match m e with (e', Some x) => k x e' | (e', None) => (e', None) end.
Definition get {A} (f : Engine -> A) : M A := fun e => (e, Some (f e)).
Definition modify (f : Engine -> Engine) : M unit := fun e => (f e, Some tt).

Definition remember (f : Memory -> Memory) : M unit := modify (on_memory f).
Definition set_receiver_errors_behind (l : list bytes) : M unit := modify (on_slots (set_behind l)).

(** The idiom of the sustained rules: the first bad sample starts the clock, a later one
    fires once the grace has passed. Returns the new start and whether to fire. *)
Definition sustain (grace now : Z) (since : option Z) : option Z * bool :=
  match since with
  | None => (Some now, false)
  | Some t0 => (Some t0, grace <=? now - t0)
  end.

(** [dict.get]. *)
Fixpoint meta_get (meta : Meta) (key : bytes) : Value :=
  match meta with
  | [] => VNone
  | (k, v) :: meta => if bool_decide (k = key) then v else meta_get meta key
  end.

Fixpoint join (sep : bytes) (l : list bytes) : bytes :=
  match l with [] => [] | [x] => x | x :: l => x ++ sep ++ join sep l end.

(** [x or y] of two strings. *)
Definition or_text (a b : bytes) : bytes := match a with [] => b | _ => a end.

Section Engine.
(** The environment: whether the n-th row can be written (with its time stamp), whether the
    n-th post succeeds, and whether there is a webhook. *)
Context (write : nat -> option Z) (post : nat -> bool) (webhook_url : bool).
(** [min_free_gb], in thousandths. *)
Context (min_free_gb : Z).
(** Python's formatting of a float to n decimals, its [str] of a float or a list, and the
    characters beyond ASCII that a regular expression's [\w] matches. *)
Context (fixed : nat -> Z -> bytes) (str_other : Value -> bytes) (unicode_word : Z -> bool).

Definition str_value (v : Value) : bytes :=
  match v with
  | VNone => str "None"
  | VInt n => str_int n
  | VText s => s
  | VReal _ | VTexts _ => str_other v
  end.

(** *** Emitting *)

Definition log (l : LogLine) : Engine -> Engine :=
  on_journal (fun j => mkJournal (attempts j) (published j) (posts j) (logs j ++ [l])).

(** [_webhook_failed]. *)
Definition webhook_failed (e : Engine) : Engine :=
  let c := webhook e in
  if negb (failing c) then log WebhookFailed (set_webhook (mkComplaint true 0 (e_now e)) e)
  else let n := S (suppressed c) in
       if WEBHOOK_LOG_INTERVAL_S <=? e_now e - last_log c
       then log (WebhookStillFailing n) (set_webhook (mkComplaint true 0 (e_now e)) e)
       else set_webhook (mkComplaint true n (last_log c)) e.

(** [_webhook_ok]. *)
Definition webhook_ok (e : Engine) : Engine :=
  let c := webhook e in
  if negb (failing c) then e
  else log WebhookDelivering (set_webhook (mkComplaint false (suppressed c) (last_log c)) e).

(** [_webhook]. *)
Definition post_webhook (ev : Event) (e : Engine) : Engine :=
  if negb webhook_url then e
  else
    let n := length (posts (journal e)) in
    let e := on_journal (fun j => mkJournal (attempts j) (published j) (posts j ++ [ev]) (logs j)) e in
    if post n then webhook_ok e else webhook_failed e.

(** [_emit]. *)
Definition emit (level : Level) (kind message : bytes) (meta : Meta) : M Event := fun e =>
  let n := length (attempts (journal e)) in
  let tried row := on_journal (fun j => mkJournal (attempts j ++ [mkAttempt kind (e_now e) row])
                                          (published j) (posts j) (logs j)) e in
  match write n with
  | None => (tried None, None)
  | Some ts =>
      let ev := mkEvent level kind message ts meta in
      let e := tried (Some ev) in
      let e := on_journal (fun j => mkJournal (attempts j) (published j ++ [ev]) (posts j) (logs j)) e in
      let e := log (LogEvent level kind message) e in
      (post_webhook ev e, Some ev)
  end.

(** [raise_]: the slot is reserved before the emission and released whatever it does. *)
Definition raise_ (kind : bytes) (level : Level) (message : bytes) (meta : Meta) : M unit := fun e =>
  if bool_decide (kind ∈ dom (active (slots e))) || bool_decide (kind ∈ raising (slots e)) then (e, Some tt)
  else
    let e := on_slots (set_raising (fun r => {[kind]} ∪ r)) e in
    let release := on_slots (set_raising (fun r => r ∖ {[kind]})) in
    match emit level kind message meta e with
    | (e, Some ev) => (release (on_slots (set_active <[kind := ev]>) e), Some tt)
    | (e, None) => (release e, None)
    end.

(** The kind of the event that ends a condition. *)
Definition cleared (kind : bytes) : bytes := kind ++ str "_cleared".

(** [clear]. *)
Definition clear (kind message : bytes) : M unit := fun e =>
  if bool_decide (kind ∈ dom (active (slots e))) then
    (modify (on_slots (set_active (delete kind))) ;; emit Info (cleared kind) message [] ;; mret tt) e
  else (e, Some tt).

(** [one_shot]. *)
Definition one_shot (kind : bytes) (level : Level) (message : bytes) (meta : Meta) : M unit := fun e =>
  let now := e_now e in
  let recent := match one_shot_last (slots e) !! kind with
                | Some last => now - last <? ONE_SHOT_DEDUP_S
                | None => false
                end in
  if recent then (e, Some tt)
  else (modify (on_slots (set_one_shot_last <[kind := now]>)) ;; emit level kind message meta ;; mret tt) e.

(** *** The device named by an error ([_names_device]) *)

(** [[\w/.-]] and [[\w./-]], the same class. *)
Definition device_char (c : Z) : bool :=
  ascii_digit c || ((65 <=? c) && (c <=? 90)) || ((97 <=? c) && (c <=? 122)) || (c =? 95)
  || mem_byte c [47; 46; 45] || ((128 <=? c) && unicode_word c).

(** A match of the whole of [source] at some position, after the character [before]. *)
Fixpoint names_from (before : option Z) (text source : bytes) : bool :=
  (match before with Some c => negb (device_char c) | None => true end
   && startswith text source
   && match drop (length source) text with c :: _ => negb (device_char c) | [] => true end)
  || match text with
     | [] => false
     | c :: text => names_from (Some c) text source
     end.

Definition names_device (text source : bytes) : bool := names_from None text source.

(** *** The handlers *)

Definition on_receiver_disconnected (reason : bytes) : M unit :=
  if bool_decide (reason = str "source ended") then mret tt
  else raise_ (str "receiver_disconnected") Error (str "receiver disconnected: " ++ reason) [].

Definition on_receiver_connected (source : bytes) : M unit :=
  remember (set_unaligned None) ;;
  clear (str "receiver_disconnected") (str "receiver connected (" ++ source ++ str ")") ;;
  set_receiver_errors_behind [] ;;
  clear (str "receiver_error") (str "receiver connected (" ++ source ++ str ")").

(** The last n elements: [l[-n:]]. *)
Definition last_n {A} (n : nat) (l : list A) : list A := drop (length l - n) l.

Definition on_receiver_error (message : bytes) : M unit :=
  current ← get (fun e => active (slots e) !! str "receiver_error");
  errors ← get (fun e => receiver_errors_behind (slots e));
  (match current with
   | Some ev =>
       if bool_decide (message = ev_message ev) then mret tt
       else let behind := List.filter (fun m => negb (bool_decide (m = message))) errors in
            set_receiver_errors_behind (last_n 9 behind ++ [message])
   | None => mret tt
   end) ;;
  raise_ (str "receiver_error") Error message [].

Definition on_receiver_capabilities : M unit :=
  set_receiver_errors_behind [] ;; clear (str "receiver_error") (str "receiver configured").

(** A falsy [source] is [None] or the empty text. *)
Definition truthy (v : Value) : bool :=
  match v with
  | VNone => false
  | VInt n | VReal n => negb (n =? 0)
  | VText s => negb (bool_decide (s = []))
  | VTexts l => negb (bool_decide (l = []))
  end.

Definition on_receiver_recovered (meta : Meta) : M unit :=
  let source := meta_get meta (str "source") in
  current ← get (fun e => active (slots e) !! str "receiver_error");
  match current with
  | Some ev =>
      if negb (truthy source) || negb (names_device (ev_message ev) (str_value source)) then mret tt
      else
        let message := meta_get meta (str "message") in
        clear (str "receiver_error")
          (if truthy message then str_value message else str_value source ++ str " recovered") ;;
        errors ← get (fun e => receiver_errors_behind (slots e));
        let behind := List.filter (fun m => negb (names_device m (str_value source))) errors in
        set_receiver_errors_behind [] ;;
        match list.last behind with
        | Some m => raise_ (str "receiver_error") Error m []
        | None => mret tt
        end
  | None => mret tt
  end.

(** The condition that a sustained rule raises, after the start of the bad run is noted. *)
Definition sustained (grace : Z) (since : Memory -> option Z) (note : option Z -> Memory -> Memory)
  (alarm : M unit) : M unit :=
  now ← get e_now;
  t0 ← get (fun e => since (memory e));
  let step := sustain grace now t0 in
  remember (note step.1) ;;
  if step.2 then alarm else mret tt.

Definition on_state_fix (f : FixInfo) : M unit :=
  if 3 <=? fix_type f then
    remember (set_fix true None) ;;
    clear (str "fix_lost") (str "fix restored (" ++ fix_type_name f ++ str ")")
  else
    had ← get (fun e => had_3d (memory e));
    if negb had then mret tt
    else sustained FIX_LOST_GRACE_S fix_bad_since (set_fix had)
           (raise_ (str "fix_lost") Warning (str "position fix lost (" ++ fix_type_name f ++ str ")")
              [(str "fix_type", VInt (fix_type f))]).

Definition on_state_hardware (hw : Hardware) : M unit :=
  (if (JAM_IND_THRESHOLD <=? jam_ind hw) || (JAMMING_STATE_WARNING <=? jamming_state hw) then
     sustained JAMMING_SUSTAIN_S jam_since set_jam
       (raise_ (str "jamming") Warning
          (str "RF interference: jam_ind=" ++ str_int (jam_ind hw) ++ str " state=" ++ jamming_state_name hw)
          [(str "jam_ind", VInt (jam_ind hw))])
   else
     remember (set_jam None) ;;
     clear (str "jamming") (str "RF interference cleared (jam_ind=" ++ str_int (jam_ind hw) ++ str ")")) ;;
  match ANTENNA_FAULT_STATES (ant_status hw) with
  | Some fault => raise_ (str "antenna_fault") Error (str "antenna " ++ fault ++ str " detected")
                    [(str "ant_status", VInt (ant_status hw))]
  | None => clear (str "antenna_fault") (str "antenna status " ++ ant_status_name hw)
  end.

(** The temperature of a message, with the degree sign. *)
Definition celsius (t : Z) : bytes := fixed 0 t ++ [32; 176; 67].

Definition temperature (t : Z) : M unit :=
  if TEMP_HIGH_C <=? t then
    sustained TEMP_SUSTAIN_S temp_high_since set_temp
      (raise_ (str "temperature_high") Warning (str "host temperature " ++ celsius t) [(str "temp_c", VReal t)])
  else
    remember (set_temp None) ;;
    if t <? TEMP_CLEAR_C then clear (str "temperature_high") (str "host temperature " ++ celsius t) else mret tt.

(** The factors 1.1 and 1.5 are taken exactly. *)
Definition on_system_stats (stats : SystemStats) : M unit :=
  let free := disk_free_gb stats in
  (if free <? min_free_gb then
     raise_ (str "disk_low") Error
       (str "disk free " ++ fixed 1 free ++ str " GB below " ++ fixed 1 min_free_gb ++ str " GB: pruning logs")
       [(str "free_gb", VReal free)]
   else if min_free_gb * 11 <=? free * 10 then
     clear (str "disk_low") (str "disk free " ++ fixed 1 free ++ str " GB")
   else mret tt) ;;
  (if free * 10 <? min_free_gb * 15 then
     raise_ (str "disk_warning") Warning (str "disk free " ++ fixed 1 free ++ str " GB") [(str "free_gb", VReal free)]
   else clear (str "disk_warning") (str "disk free " ++ fixed 1 free ++ str " GB")) ;;
  match temp_c stats with Some t => temperature t | None => mret tt end.

Definition on_rawlog_backpressure (meta : Meta) : M unit :=
  let queued := meta_get meta (str "queued") in
  raise_ (str "logger_backpressure") Warning
    (str "raw logger falling behind: " ++ str_value queued ++ str " frames queued") [(str "queued", queued)].

Definition on_rawlog_drained (meta : Meta) : M unit :=
  clear (str "logger_backpressure")
    (str "raw logger caught up (" ++ str_value (meta_get meta (str "queued")) ++ str " frames queued)").

Definition on_rawlog_pruned (name : bytes) : M unit :=
  one_shot (str "log_pruned") Info (str "pruned old raw log " ++ name ++ str " to free disk") [].

Definition on_rawlog_error (message : bytes) : M unit :=
  one_shot (str "logger_error") Error (str "raw log write failure: " ++ message) [].

Definition on_sampler_error (message : bytes) : M unit :=
  raise_ (str "sampler_failing") Warning (str "history sampler failing: " ++ message) [].

Definition on_sampler_recovered (message : bytes) : M unit := clear (str "sampler_failing") message.

Definition on_daemon_consumer_failed (meta : Meta) : M unit :=
  let name := str_value (meta_get meta (str "name")) in
  one_shot (str "consumer_failed_" ++ name) Error
    (name ++ str " crashed and was restarted: " ++ str_value (meta_get meta (str "error"))) meta.

Definition on_state_survey_in (svin : SurveyIn) : M unit :=
  was ← get (fun e => survey_valid (memory e));
  (if svin_valid svin && negb was then
     let acc := match mean_acc_m svin with Some a => fixed 2 a ++ str " m" | None => str "n/a" end in
     emit Info (str "survey_in_valid") (str "survey-in complete: mean 3D accuracy " ++ acc)
       [(str "mean_acc_m", match mean_acc_m svin with Some a => VReal a | None => VNone end);
        (str "dur_s", VInt (dur_s svin))] ;; mret tt
   else mret tt) ;;
  remember (set_survey (svin_valid svin)).

Definition on_base_site_mismatch (meta : Meta) : M unit :=
  raise_ (str "site_mismatch") Error
    (str "RTCM 1005 position does not match site " ++ str_value (meta_get meta (str "site"))) meta.

Definition on_base_site_verified (meta : Meta) : M unit :=
  let site := str_value (meta_get meta (str "site")) in
  clear (str "site_mismatch") (str "site " ++ site ++ str " verified") ;;
  emit Info (str "site_verified") (str "fixed site " ++ site ++ str " verified against RTCM 1005") meta ;;
  mret tt.

Definition on_ntrip_client_status (status : NtripStatus) : M unit :=
  if connected status then
    clear (str "ntrip_disconnected")
      (str "NTRIP connected to " ++ ntrip_host status ++ str ":" ++ str_int (ntrip_port status) ++ str "/"
       ++ mountpoint status)
  else if negb (bool_decide (last_error status = [])) then
    raise_ (str "ntrip_disconnected") Warning (str "NTRIP client disconnected: " ++ last_error status) []
  else mret tt.

Definition on_state_rtk (rtk : RtkStatus) : M unit :=
  (match corr_age_s rtk with
   | Some age =>
       if CORR_STALE_S <? age then
         raise_ (str "corrections_stale") Warning (str "corrections are " ++ fixed 0 age ++ str " s old")
           [(str "corr_age_s", VReal age)]
       else if age <? CORR_OK_S then
         clear (str "corrections_stale") (str "corrections are fresh again (" ++ fixed 0 age ++ str " s)")
       else mret tt
   | None => mret tt
   end) ;;
  if carr_soln rtk =? CARR_FIXED then
    remember (set_rtk true None) ;; clear (str "rtk_lost") (str "RTK fixed again")
  else
    was ← get (fun e => was_fixed (memory e));
    if negb was then mret tt
    else sustained RTK_LOST_GRACE_S rtk_bad_since (set_rtk was)
           (raise_ (str "rtk_lost") Warning (str "RTK fixed lost (" ++ carr_soln_name rtk ++ str ")")
              [(str "carr_soln", VInt (carr_soln rtk))]).

(** The filter mode, the GNSS fix and the IMU of one INS sample. *)
Definition ins_alignment (ins : InsStatus) : M unit :=
  match INS_ALIGNED_MODE (vendor ins), mode ins with
  | Some aligned_from, Some m =>
      if aligned_from <=? m then
        remember (set_unaligned None) ;;
        clear (str "ins_not_aligned") (str "INS aligned (" ++ or_text (mode_name ins) (str_int m) ++ str ")")
      else
        sustained INS_ALIGN_GRACE_S ins_unaligned_since set_unaligned
          (raise_ (str "ins_not_aligned") Warning
             (str "INS not aligned after " ++ fixed 0 INS_ALIGN_GRACE_S ++ str " s ("
              ++ or_text (mode_name ins) (str "mode " ++ str_int m) ++ str "): it needs motion or a heading aid")
             [(str "mode", VInt m)])
  | _, _ => mret tt
  end.

Definition ins_gnss (ins : InsStatus) : M unit :=
  match gnss_fix ins with
  | None => mret tt
  | Some f =>
      if negb (mem_byte f (GNSS_NO_FIX (vendor ins))) then
        remember (set_gnss true None) ;;
        clear (str "ins_gnss_lost") (str "INS GNSS fix back (" ++ or_text (gnss_fix_name ins) (str_int f) ++ str ")")
      else
        had ← get (fun e => ins_gnss_had_fix (memory e));
        if negb had then mret tt
        else sustained INS_GNSS_LOST_GRACE_S ins_gnss_bad_since (set_gnss had)
               (raise_ (str "ins_gnss_lost") Error
                  (str "INS GNSS solution lost: the position is dead reckoning") [(str "gnss_fix", VInt f)])
  end.

Definition imu_error (ins : InsStatus) : bool :=
  bool_decide (ins_errors ins !! str "imu" = Some true) || bool_decide (general_ok ins !! str "imu_power" = Some false).

Definition imu_known (ins : InsStatus) : bool :=
  bool_decide (str "imu" ∈ dom (ins_errors ins)) || bool_decide (str "imu_power" ∈ dom (general_ok ins)).

Definition on_state_ins (ins : InsStatus) : M unit :=
  ins_alignment ins ;;
  ins_gnss ins ;;
  if imu_error ins then raise_ (str "imu_error") Error (str "INS reports an IMU error") []
  else if imu_known ins then clear (str "imu_error") (str "INS IMU OK")
  else mret tt.

Definition on_ins_config (mismatched : list bytes) : M unit :=
  if negb (bool_decide (mismatched = [])) then
    raise_ (str "ins_config_mismatch") Error
      (str "INS configuration read back different: " ++ join (str ", ") mismatched)
      [(str "mismatched", VTexts mismatched)]
  else clear (str "ins_config_mismatch") (str "INS configuration matches").

(** [handle]: the handler of the topic, if there is one. *)
Definition handle (m : Message) : M unit :=
  match m with
  | ReceiverDisconnected r => on_receiver_disconnected r
  | ReceiverConnected s => on_receiver_connected s
  | ReceiverError t => on_receiver_error t
  | ReceiverCapabilities => on_receiver_capabilities
  | ReceiverRecovered d => on_receiver_recovered d
  | StateFix f => on_state_fix f
  | StateHardware hw => on_state_hardware hw
  | SystemStatsItem s => on_system_stats s
  | RawlogBackpressure d => on_rawlog_backpressure d
  | RawlogDrained d => on_rawlog_drained d
  | RawlogPruned n => on_rawlog_pruned n
  | RawlogError t => on_rawlog_error t
  | SamplerError t => on_sampler_error t
  | SamplerRecovered t => on_sampler_recovered t
  | DaemonConsumerFailed d => on_daemon_consumer_failed d
  | StateSurveyIn s => on_state_survey_in s
  | BaseSiteMismatch d => on_base_site_mismatch d
  | BaseSiteVerified d => on_base_site_verified d
  | NtripClientStatus s => on_ntrip_client_status s
  | StateRtk r => on_state_rtk r
  | StateIns i => on_state_ins i
  | InsConfig l => on_ins_config l
  | OtherTopic _ => mret tt
  end.

(** [_handler_failed] and [_handler_ok]. *)
Definition handler_failed (topic : bytes) (e : Engine) : Engine :=
  let c := handler e in
  if negb (failing c) then log (RuleFailed topic) (set_handler (mkComplaint true 0 (e_now e)) e)
  else let n := S (suppressed c) in
       if HANDLER_LOG_INTERVAL_S <=? e_now e - last_log c
       then log (RulesStillFailing topic n) (set_handler (mkComplaint true 0 (e_now e)) e)
       else set_handler (mkComplaint true n (last_log c)) e.

Definition handler_ok (e : Engine) : Engine :=
  let c := handler e in
  if negb (failing c) then e
  else log RulesWorking (set_handler (mkComplaint false (suppressed c) (last_log c)) e).

(** One message of [_consume], under the lock, handled at one reading of the clock. *)
Definition consume (e : Engine) (item : Z * Message) : Engine :=
  match handle item.2 (at_time item.1 e) with
  | (e, Some _) => handler_ok e
  | (e, None) => handler_failed (topic_of item.2) e
  end.

(** The engine after the messages of both queues, in the order they were handled. *)
Definition run (items : list (Z * Message)) : Engine := foldl consume init items.
End Engine.

(** ** What every handler preserves

    A property of the engine is kept by a handler when it is kept by the primitives the
    handler is made of. *)

Create HintDb alerts.

Definition keeps (I : Engine -> Prop) {A} (m : M A) : Prop := forall e, I e -> I (m e).1.

Section Keeps.
Context (I : Engine -> Prop).

Lemma keeps_ret {A} (x : A) : keeps I (mret x).
Proof. by intros e H. Qed.

Lemma keeps_get {A} (f : Engine -> A) : keeps I (get f).
Proof. by intros e H. Qed.

Lemma keeps_bind {A B} (m : M A) (k : A -> M B) : keeps I m -> (forall x, keeps I (k x)) -> keeps I (m ≫= k).
Proof.
  intros Hm Hk e H. unfold mbind, M_bind. specialize (Hm e H). destruct (m e) as [e' [x|]]; [|done].
  by apply Hk.
Qed.

Lemma keeps_if {A} (b : bool) (m1 m2 : M A) : keeps I m1 -> keeps I m2 -> keeps I (if b then m1 else m2).
Proof. by destruct b. Qed.

Lemma keeps_option {A B} (o : option A) (f : A -> M B) (m : M B) :
  (forall x, keeps I (f x)) -> keeps I m -> keeps I (match o with Some x => f x | None => m end).
Proof. destruct o; auto. Qed.

Lemma keeps_option' {A B} (o : option A) (f : A -> M B) (m : M B) :
  keeps I m -> (forall x, keeps I (f x)) -> keeps I (match o with None => m | Some x => f x end).
Proof. destruct o; auto. Qed.

Lemma keeps_sustained grace since note alarm :
  (forall t, keeps I (remember (note t))) -> keeps I alarm -> keeps I (sustained grace since note alarm).
Proof.
  intros Hn Ha. unfold sustained. repeat (apply keeps_bind; [by first [apply keeps_get|apply Hn]|intros ?]).
  apply keeps_if; [done|apply keeps_ret].
Qed.
End Keeps.

#[export] Hint Resolve keeps_ret keeps_get keeps_bind keeps_if keeps_option keeps_sustained : alerts.







(** A handler taken apart: [prim] closes the goals about the primitives. *)
Ltac handlers prim :=
  unfold on_receiver_disconnected, on_receiver_connected, on_receiver_error, on_receiver_capabilities,
    on_receiver_recovered, on_state_fix, on_state_hardware, on_system_stats, temperature, on_rawlog_backpressure,
    on_rawlog_drained, on_rawlog_pruned, on_rawlog_error, on_sampler_error, on_sampler_recovered,
    on_daemon_consumer_failed, on_state_survey_in, on_base_site_mismatch, on_base_site_verified,
    on_ntrip_client_status, on_state_rtk, on_state_ins, ins_alignment, ins_gnss, on_ins_config;
  cbv zeta;
  repeat lazymatch goal with
    | |- keeps _ (mret _) => apply keeps_ret
    | |- keeps _ (get _) => apply keeps_get
    | |- keeps _ (mbind _ _) => apply keeps_bind; [|intros ?]
    | |- keeps _ (match ?x with _ => _ end) => destruct x
    | |- keeps _ (sustained _ _ _ _) => apply keeps_sustained; [intros ?|]
    | |- keeps _ _ => prim
    end.


(** ** The slots alternate *)




Section Alternate.
Context (write : nat -> option Z) (post : nat -> bool) (webhook_url : bool) (min_free_gb : Z).
Context (fixed : nat -> Z -> bytes) (str_other : Value -> bytes) (unicode_word : Z -> bool).
Abbreviation raise_ := (raise_ write post webhook_url).
Abbreviation clear := (clear write post webhook_url).
Abbreviation one_shot := (one_shot write post webhook_url).
Abbreviation emit := (emit write post webhook_url).

(** What an emission does to everything but the webhook and the log lines. *)
Lemma emit_effect level kind message meta e :
  let r := emit level kind message meta e in
  slots r.1 = slots e /\ memory r.1 = memory e /\ e_now r.1 = e_now e
  /\ attempts (journal r.1) = attempts (journal e) ++ [mkAttempt kind (e_now e) r.2]
  /\ (forall ev, r.2 = Some ev -> ev_kind ev = kind /\ ev_message ev = message)
  /\ (r.2 = None <-> write (length (attempts (journal e))) = None).
Proof.
  cbv zeta. unfold Alerts.emit. destruct (write _) as [ts|]; [|cbn; repeat split; done].
  unfold post_webhook, webhook_ok, webhook_failed. cbn [fst snd].
  repeat case_match; cbn; repeat split; intros; by simplify_eq/=.
Qed.






End Alternate.


(** ** Rules that report a loss: fix, RTK, INS GNSS

    The part of the engine such a rule works on, its abstract step, and what the rule
    means over the samples of its topic. *)

(** Whether the state was ever good, since when it has been bad, and whether the loss is
    reported. *)
Definition Watch : Type := bool * option Z * bool.

Definition watch_step (grace : Z) (w : Watch) (sample : Z * bool) : Watch :=
  let '(had, since, lost) := w in
  let '(now, good) := sample in
  if good then (true, None, false)
  else if negb had then w
  else let step := sustain grace now since in (had, step.1, lost || step.2).

Definition watch (grace : Z) (samples : list (Z * bool)) : Watch :=
  foldl (watch_step grace) (false, None, false) samples.

(** A loss over timed samples: after a good one, bad ones only, from one at [t0] to the last
    one at least [grace] later. *)
Definition lost_for (grace : Z) (samples : list (Z * bool)) : Prop :=
  exists before tg t0 bad,
    samples = before ++ (tg, true) :: (t0, false) :: bad
    /\ Forall (fun s => s.2 = false) bad
    /\ grace <= List.last (map fst bad) t0 - t0.

Lemma bad_run_unique (a a' : list (Z * bool)) tg tg' r r' :
  a ++ (tg, true) :: r = a' ++ (tg', true) :: r' ->
  Forall (fun s => s.2 = false) r -> Forall (fun s => s.2 = false) r' -> r = r'.
Proof.
  revert a'. induction a as [|x a IH]; intros [|x' a'] H Hr Hr'.
  - by injection H.
  - injection H as <- ->. apply Forall_app in Hr as [_ Hr]. inversion Hr as [|? ? Hx]; discriminate Hx.
  - injection H as -> <-. apply Forall_app in Hr' as [_ Hr']. inversion Hr' as [|? ? Hx]; discriminate Hx.
  - injection H as _ H. by eapply IH.
Qed.

(** The state of the abstract rule after sorted samples. *)
Definition watch_after (grace : Z) (samples : list (Z * bool)) (w : Watch) : Prop :=
  (w = (false, None, false) /\ Forall (fun s => s.2 = false) samples)
  \/ (w = (true, None, false) /\ exists before tg, samples = before ++ [(tg, true)])
  \/ (exists before tg t0 bad, samples = before ++ (tg, true) :: (t0, false) :: bad
        /\ Forall (fun s => s.2 = false) bad
        /\ w = (true, Some t0, grace <=? List.last (map fst bad) t0 - t0)).

Lemma last_cons_default (l : list Z) y d : List.last (y :: l) d = List.last l y.
Proof. revert y d. induction l as [|z l IH]; intros y d; [done|]. change (List.last (y :: z :: l) d) with (List.last (z :: l) d). by rewrite !IH. Qed.

Lemma sorted_snoc_last (l : list Z) x d :
  StronglySorted Z.le (d :: l ++ [x]) -> List.last l d <= x.
Proof.
  revert d. induction l as [|y l IH]; intros d H.
  - apply StronglySorted_inv in H as [_ H]. by inversion H.
  - apply StronglySorted_inv in H as [H _]. apply IH in H. by rewrite last_cons_default.
Qed.

Lemma sorted_suffix (a b : list Z) : StronglySorted Z.le (a ++ b) -> StronglySorted Z.le b.
Proof. induction a as [|x a IH]; [done|]. intros H. apply StronglySorted_inv in H as [H _]. auto. Qed.

Lemma watch_spec grace samples :
  0 < grace -> StronglySorted Z.le (map fst samples) -> watch_after grace samples (watch grace samples).
Proof.
  intros Hg. induction samples as [|[now good] samples IH] using rev_ind; intros Hs; [by left|].
  unfold watch. rewrite foldl_snoc. fold (watch grace samples).
  assert (Hs' : StronglySorted Z.le (map fst samples)).
  { rewrite map_app in Hs. clear -Hs. induction (map fst samples) as [|x l IHl]; [constructor|].
    apply StronglySorted_inv in Hs as [Hs Hf]. constructor; [auto|]. by apply Forall_app in Hf as [Hf _]. }
  destruct (IH Hs') as [[-> Hf]|[[-> (before & tg & ->)]|(before & tg & t0 & bad & -> & Hf & ->)]];
    unfold watch_step; destruct good; cbn [negb].
  - right. left. eauto.
  - left. split; [done|]. apply Forall_app_2; [done|]. by constructor.
  - right. left. eauto.
  - right. right. exists before, tg, now, []. rewrite <- app_assoc. repeat split; [constructor|].
    cbn. rewrite Z.sub_diag. by rewrite (proj2 (Z.leb_gt grace 0)).
  - right. left. eauto.
  - right. right. exists before, tg, t0, (bad ++ [(now, false)]). rewrite <- app_assoc. repeat split.
    { apply Forall_app_2; [done|]. by constructor. }
    cbn [sustain fst snd]. f_equal. rewrite map_app. cbn [map fst]. rewrite List.last_last.
    assert (H : List.last (map fst bad) t0 <= now).
    { rewrite map_app in Hs. cbn [map fst app] in Hs. rewrite map_app in Hs. cbn [map fst] in Hs.
      rewrite <- app_assoc in Hs. apply sorted_suffix in Hs. cbn [app] in Hs.
      apply StronglySorted_inv in Hs as [Hs _]. by apply sorted_snoc_last. }
    destruct (grace <=? now - t0) eqn:E2; [apply orb_true_r|]. rewrite orb_false_r. zbool. apply Z.leb_gt. lia.
Qed.

Lemma watch_lost grace samples :
  0 < grace -> StronglySorted Z.le (map fst samples) -> (watch grace samples).2 = true <-> lost_for grace samples.
Proof.
  intros Hg Hs. destruct (watch_spec grace samples Hg Hs) as [[-> Hf]|[[-> (before & tg & ->)]|(b & tg & t0 & bad & E & Hf & ->)]].
  - split; [done|]. intros (b & tg & t0 & bad & -> & _). apply Forall_app in Hf as [_ Hf]. inversion Hf as [|? ? Hx]; discriminate Hx.
  - split; [done|]. intros (b & tg' & t0 & bad & E & Hb & _).
    assert (H : [] = (t0, false) :: bad) by (eapply bad_run_unique; [apply E|constructor|by constructor]). done.
  - cbn [snd]. split.
    + intros H. zbool. by exists b, tg, t0, bad.
    + intros (b' & tg' & t0' & bad' & E' & Hf' & H). rewrite E in E'.
      apply bad_run_unique in E'; [|by constructor|by constructor]. injection E' as <- <-. by apply Z.leb_le.
Qed.

(** A rule of this shape, with its slot and its part of the memory. *)
Record LossRule := mkLossRule {
  r_kind : bytes;
  r_grace : Z;
  r_had : Memory -> bool;
  r_since : Memory -> option Z;
  r_note : bool -> option Z -> Memory -> Memory;
  r_sample : Z * Message -> option (Z * bool);
}.

Class LossRuleLaws (r : LossRule) : Prop := mkLossRuleLaws {
  r_had_note : forall b s m, r_had r (r_note r b s m) = b;
  r_since_note : forall b s m, r_since r (r_note r b s m) = s;
}.

Definition fix_rule : LossRule :=
  mkLossRule (str "fix_lost") FIX_LOST_GRACE_S had_3d fix_bad_since set_fix
    (fun i => match i.2 with StateFix f => Some (i.1, 3 <=? fix_type f) | _ => None end).
Definition rtk_rule : LossRule :=
  mkLossRule (str "rtk_lost") RTK_LOST_GRACE_S was_fixed rtk_bad_since set_rtk
    (fun i => match i.2 with StateRtk r => Some (i.1, carr_soln r =? CARR_FIXED) | _ => None end).
Definition gnss_rule : LossRule :=
  mkLossRule (str "ins_gnss_lost") INS_GNSS_LOST_GRACE_S ins_gnss_had_fix ins_gnss_bad_since set_gnss
    (fun i => match i.2 with
              | StateIns ins => match gnss_fix ins with
                                | Some f => Some (i.1, negb (mem_byte f (GNSS_NO_FIX (vendor ins))))
                                | None => None
                                end
              | _ => None
              end).

#[export] Instance fix_rule_laws : LossRuleLaws fix_rule.
Proof. by split. Qed.
#[export] Instance rtk_rule_laws : LossRuleLaws rtk_rule.
Proof. by split. Qed.
#[export] Instance gnss_rule_laws : LossRuleLaws gnss_rule.
Proof. by split. Qed.

(** The engine seen through a rule, while a message is handled at [now]. *)
Definition seen (r : LossRule) (w : Watch) (now : Z) (e : Engine) : Prop :=
  r_had r (memory e) = w.1.1 /\ r_since r (memory e) = w.1.2
  /\ bool_decide (r_kind r ∈ dom (active (slots e))) = w.2 /\ raising (slots e) = ∅ /\ e_now e = now.

Lemma release_slot (k : bytes) : ({[k]} ∪ ∅) ∖ {[k]} =@{gset bytes} ∅.
Proof. set_solver. Qed.

Section Loss.
Context (write : nat -> option Z) (post : nat -> bool) (webhook_url : bool) (min_free_gb : Z).
Context (fixed : nat -> Z -> bytes) (str_other : Value -> bytes) (unicode_word : Z -> bool).
Context (Hwrite : forall n, write n <> None).
Abbreviation raise_ := (raise_ write post webhook_url).
Abbreviation clear := (clear write post webhook_url).
Abbreviation one_shot := (one_shot write post webhook_url).
Abbreviation emit := (emit write post webhook_url).

(** With the rows written, the primitives end normally. *)
Lemma emit_ok level kind message meta e : exists ev, (emit level kind message meta e).2 = Some ev.
Proof.
  pose proof (emit_effect write post webhook_url level kind message meta e) as (_ & _ & _ & _ & _ & [H _]).
  destruct (emit level kind message meta e).2 as [ev|]; [by exists ev|]. exfalso. by apply (Hwrite _ (H eq_refl)).
Qed.

Lemma raise_effect kind level message meta e : raising (slots e) = ∅ ->
  let r := raise_ kind level message meta e in
  r.2 = Some tt /\ memory r.1 = memory e /\ e_now r.1 = e_now e /\ raising (slots r.1) = ∅
  /\ receiver_errors_behind (slots r.1) = receiver_errors_behind (slots e)
  /\ match active (slots e) !! kind with
     | Some _ => r.1 = e
     | None => exists ev, active (slots r.1) = <[kind := ev]> (active (slots e)) /\ ev_message ev = message
     end.
Proof.
  intros Hr. cbv zeta. unfold Alerts.raise_. rewrite Hr.
  rewrite (bool_decide_false (kind ∈ ∅)) by apply not_elem_of_empty. rewrite orb_false_r.
  case_bool_decide as Hin.
  { apply elem_of_dom in Hin as [ev Hin]. by rewrite Hin. }
  apply not_elem_of_dom in Hin. rewrite Hin. set (e1 := on_slots _ e).
  destruct (emit_ok level kind message meta e1) as [ev Hev].
  pose proof (emit_effect write post webhook_url level kind message meta e1) as (Hs & Hm & Ht & _ & Hk & _).
  destruct (emit level kind message meta e1) as [e2 row]. cbn [fst snd] in *. subst row.
  specialize (Hk ev eq_refl) as [_ Hmsg]. cbn. rewrite Hs, Hm, Ht. cbn. rewrite Hr.
  repeat split; [apply release_slot|]. by exists ev.
Qed.

Lemma clear_effect kind message e :
  let r := clear kind message e in
  r.2 = Some tt /\ memory r.1 = memory e /\ e_now r.1 = e_now e /\ raising (slots r.1) = raising (slots e)
  /\ receiver_errors_behind (slots r.1) = receiver_errors_behind (slots e)
  /\ active (slots r.1) = delete kind (active (slots e)).
Proof.
  cbv zeta. unfold Alerts.clear. case_bool_decide as Hin.
  2: { apply not_elem_of_dom in Hin. rewrite delete_id by done. done. }
  unfold mbind, M_bind, modify, mret, M_ret. set (e1 := on_slots _ e).
  destruct (emit_ok Info (cleared kind) message [] e1) as [ev Hev].
  pose proof (emit_effect write post webhook_url Info (cleared kind) message [] e1) as (Hs & Hm & Ht & _).
  destruct (emit Info (cleared kind) message [] e1) as [e2 row]. cbn [fst snd] in *. subst row.
  cbn. by rewrite Hs, Hm, Ht.
Qed.

(** *** What the other rules leave alone *)

Section Frame.
Context (r : LossRule) `{!LossRuleLaws r} (w : Watch) (now : Z).

Lemma seen_raise kind level message meta : kind <> r_kind r -> keeps (seen r w now) (raise_ kind level message meta).
Proof.
  intros Hk e (H1 & H2 & H3 & H4 & H5). unfold seen.
  destruct (raise_effect kind level message meta e H4) as (_ & -> & -> & -> & _ & Ha).
  repeat split; try done. rewrite <- H3. destruct (active (slots e) !! kind); [by rewrite Ha|].
  destruct Ha as (ev & -> & _). apply bool_decide_ext. rewrite dom_insert. set_solver.
Qed.

Lemma seen_clear kind message : kind <> r_kind r -> keeps (seen r w now) (clear kind message).
Proof.
  intros Hk e (H1 & H2 & H3 & H4 & H5). unfold seen.
  destruct (clear_effect kind message e) as (_ & -> & -> & -> & _ & ->).
  repeat split; try done. rewrite <- H3. apply bool_decide_ext. rewrite dom_delete. set_solver.
Qed.

Lemma seen_emit level kind message meta : keeps (seen r w now) (emit level kind message meta).
Proof.
  intros e H. unfold seen. pose proof (emit_effect write post webhook_url level kind message meta e) as (-> & -> & -> & _).
  done.
Qed.

Lemma seen_one_shot kind level message meta : keeps (seen r w now) (one_shot kind level message meta).
Proof.
  intros e H. unfold Alerts.one_shot. destruct (match _ with Some _ => _ | None => _ end); [done|].
  unfold mbind, M_bind, modify, mret, M_ret. set (e1 := on_slots _ e).
  assert (H1 : seen r w now e1) by done. pose proof (seen_emit level kind message meta e1 H1) as H2.
  by destruct (emit level kind message meta e1) as [e2 [ev|]].
Qed.

(** The rule's own handler, as all three of the code are written. *)
Definition loss_rule (good : bool) (message : bytes) (alarm : M unit) : M unit :=
  if good then remember (r_note r true None) ;; clear (r_kind r) message
  else
    had ← get (fun e => r_had r (memory e));
    if negb had then mret tt else sustained (r_grace r) (r_since r) (r_note r had) alarm.

Lemma loss_rule_step good message level text meta e :
  seen r w now e ->
  seen r (watch_step (r_grace r) w (now, good)) now (loss_rule good message (raise_ (r_kind r) level text meta) e).1.
Proof.
  intros (H1 & H2 & H3 & H4 & H5). destruct w as [[had since] lost]. cbn [fst snd] in *. unfold loss_rule, watch_step, seen.
  destruct good.
  - unfold mbind, M_bind, remember, modify. cbn [fst].
    destruct (clear_effect (r_kind r) message (on_memory (r_note r true None) e)) as (_ & -> & -> & -> & _ & ->).
    cbn. rewrite r_had_note, r_since_note. repeat split; try done.
    apply bool_decide_false. rewrite dom_delete. set_solver.
  - unfold mbind, M_bind, get, remember, modify. cbn [fst snd]. rewrite H1. destruct had; cbn [negb]; [|done].
    unfold sustained, mbind, M_bind, get, remember, modify. cbn [fst snd]. rewrite H2, H5.
    destruct (sustain (r_grace r) now since) as [since' fire]. cbn [fst snd].
    set (e1 := on_memory _ e). destruct fire.
    + destruct (raise_effect (r_kind r) level text meta e1 H4) as (_ & -> & -> & -> & _ & Ha).
      cbn. rewrite r_had_note, r_since_note, orb_true_r. repeat split; try done.
      apply bool_decide_true. cbn in Ha. destruct (active (slots e) !! r_kind r) as [ev|] eqn:E.
      * rewrite Ha. cbn. apply elem_of_dom. by exists ev.
      * destruct Ha as (ev & -> & _). rewrite dom_insert. set_solver.
    + cbn. rewrite r_had_note, r_since_note, orb_false_r. done.
Qed.
End Frame.

Abbreviation handle := (handle write post webhook_url min_free_gb fixed str_other unicode_word).
Abbreviation consume := (consume write post webhook_url min_free_gb fixed str_other unicode_word).
Abbreviation run := (run write post webhook_url min_free_gb fixed str_other unicode_word).

Lemma keeps_elim (I : Engine -> Prop) {A} (m : M A) : keeps I m -> forall e, I e -> I (m e).1.
Proof. done. Qed.

Lemma keeps_then {A B} (I J : Engine -> Prop) (m : M A) (k : M B) e :
  (forall e, I e -> I (m e).1 /\ is_Some (m e).2) -> (forall e, I e -> J (k e).1) -> I e -> J ((m ;; k) e).1.
Proof.
  intros Hm Hk He. unfold mbind, M_bind. destruct (Hm e He) as [H1 [x H2]]. destruct (m e) as [e' o].
  cbn in *. subst o. by apply Hk.
Qed.
(** *** The three rules *)

(** The parts of a handler that a rule's frame covers. *)
Ltac framed :=
  handlers ltac:(idtac; lazymatch goal with
    | |- keeps _ (raise_ _ _ _ _) => apply seen_raise; by vm_compute
    | |- keeps _ (clear _ _) => apply seen_clear; by vm_compute
    | |- keeps _ (one_shot _ _ _ _) => by apply seen_one_shot
    | |- keeps _ (emit _ _ _ _) => by apply seen_emit
    | |- keeps _ (remember _) => intros ? ?; assumption
    | |- keeps _ (set_receiver_errors_behind _) => intros ? ?; assumption
    end).

(** What a rule makes of one message. *)
Definition follows (r : LossRule) : Prop :=
  forall m now w e, seen r w now e ->
    seen r (match r_sample r (now, m) with Some s => watch_step (r_grace r) w s | None => w end) now (handle m e).1.

Lemma raise_some kind level message meta e : raising (slots e) = ∅ -> is_Some (raise_ kind level message meta e).2.
Proof. intros H. destruct (raise_effect kind level message meta e H) as (-> & _). done. Qed.

Lemma clear_some kind message e : is_Some (clear kind message e).2.
Proof. destruct (clear_effect kind message e) as (-> & _). done. Qed.

Lemma sustained_some grace since note kind level message meta e : raising (slots e) = ∅ ->
  is_Some (sustained grace since note (raise_ kind level message meta) e).2.
Proof.
  intros H. unfold sustained, mbind, M_bind, get, remember, modify. cbn [fst snd].
  destruct (sustain _ _ _).2; [|done]. by apply raise_some.
Qed.

Lemma fix_follows : follows fix_rule.
Proof.
  intros m now w e He. destruct m; cbn [r_sample fix_rule snd fst handle];
    try solve [revert e He; apply (keeps_elim (seen fix_rule w now)); framed].
  exact (loss_rule_step fix_rule w now (3 <=? fix_type sample) _ _ _ _ e He).
Qed.

Lemma rtk_follows : follows rtk_rule.
Proof.
  intros m now w e He. destruct m; cbn [r_sample rtk_rule snd fst handle];
    try solve [revert e He; apply (keeps_elim (seen rtk_rule w now)); framed].
  unfold on_state_rtk. revert He. apply keeps_then.
  - clear e. intros e He. split; [revert e He; apply (keeps_elim (seen rtk_rule w now)); framed|].
    destruct He as (_ & _ & _ & He & _). repeat case_match; eauto using raise_some, clear_some.
  - clear e. intros e He. exact (loss_rule_step rtk_rule w now (carr_soln rtk =? CARR_FIXED) _ _ _ _ e He).
Qed.

Lemma gnss_follows : follows gnss_rule.
Proof.
  intros m now w e He. destruct m; cbn [r_sample gnss_rule snd fst handle];
    try solve [revert e He; apply (keeps_elim (seen gnss_rule w now)); framed].
  unfold on_state_ins. revert He. apply keeps_then.
  - clear e. intros e He. split; [revert e He; apply (keeps_elim (seen gnss_rule w now)); framed|].
    destruct He as (_ & _ & _ & He & _). unfold ins_alignment.
    destruct (INS_ALIGNED_MODE (vendor ins)), (mode ins); try done.
    destruct (_ <=? _); [|by apply sustained_some]. unfold mbind, M_bind, remember, modify. by apply clear_some.
  - clear e. intros e He.
    set (w' := match match gnss_fix ins with Some f => Some (now, negb (mem_byte f (GNSS_NO_FIX (vendor ins)))) | None => None end
               with Some s => watch_step (r_grace gnss_rule) w s | None => w end).
    assert (H1 : seen gnss_rule w' now (ins_gnss write post webhook_url ins e).1).
    { subst w'. unfold ins_gnss. destruct (gnss_fix ins) as [f|]; [|done].
      exact (loss_rule_step gnss_rule w now (negb (mem_byte f (GNSS_NO_FIX (vendor ins)))) _ _ _ _ e He). }
    unfold mbind at 1, M_bind at 1. destruct (ins_gnss write post webhook_url ins e) as [e1 [[]|]]; [|done].
    cbn [fst] in H1. revert e1 H1. apply (keeps_elim (seen gnss_rule w' now)). framed.
Qed.

Lemma run_watch r items : LossRuleLaws r -> follows r ->
  r_had r (memory init) = false -> r_since r (memory init) = None ->
  exists now, seen r (watch (r_grace r) (omap (r_sample r) items)) now (run items).
Proof.
  intros Hl Hf H1 H2. induction items as [|[t m] items [now IH]] using rev_ind.
  { exists 0. by repeat split. }
  exists t. rewrite omap_app. unfold watch, Alerts.run. rewrite !foldl_app. cbn [foldl].
  fold (run items). fold (watch (r_grace r) (omap (r_sample r) items)).
  set (w := watch _ _) in *. clearbody w. destruct IH as (S1 & S2 & S3 & S4 & S5).
  assert (H : seen r w t (at_time t (run items))) by done.
  apply (Hf m) in H. unfold Alerts.consume. cbn [fst snd].
  assert (Hw : foldl (watch_step (r_grace r)) w (omap (r_sample r) [(t, m)])
    = match r_sample r (t, m) with Some s => watch_step (r_grace r) w s | None => w end).
  { cbn. by destruct (r_sample r (t, m)). }
  rewrite Hw. destruct (handle m (at_time t (run items))) as [e' [[]|]]; cbn [fst] in H.
  - unfold handler_ok. by destruct (negb _).
  - unfold handler_failed. by repeat case_match.
Qed.

(** A loss is reported exactly when it happened. *)
Lemma run_lost r items : LossRuleLaws r -> follows r ->
  r_had r (memory init) = false -> r_since r (memory init) = None -> 0 < r_grace r ->
  (forall i s, r_sample r i = Some s -> s.1 = i.1) -> StronglySorted Z.le (map fst items) ->
  r_kind r ∈ dom (active (slots (run items))) <-> lost_for (r_grace r) (omap (r_sample r) items).
Proof.
  intros Hl Hf H1 H2 Hg Ht Hs. destruct (run_watch r items Hl Hf H1 H2) as (now & _ & _ & H & _).
  rewrite <- watch_lost; [|done|].
  - rewrite <- H. by rewrite bool_decide_eq_true.
  - clear -Ht Hs. induction items as [|i items IH]; [constructor|]. cbn [map] in Hs.
    apply StronglySorted_inv in Hs as [Hs Hi]. specialize (IH Hs). cbn [omap list_omap].
    destruct (r_sample r i) as [s|] eqn:E; [|done]. cbn [map]. constructor; [done|].
    rewrite (Ht _ _ E). clear -Ht Hi. induction items as [|j items IH]; [constructor|]. cbn [map] in Hi.
    inversion Hi; subst. cbn [omap list_omap]. destruct (r_sample r j) as [s'|] eqn:E'; [|auto].
    cbn [map]. constructor; [|auto]. by rewrite (Ht _ _ E').
Qed.
End Loss.

(** With the rows written and the messages handled at non-decreasing times, the
    three loss conditions are active exactly when a loss is in progress in the
    samples of their own topic, whatever other messages come between: after a good
    sample (a 3D fix; a fixed carrier solution; a GNSS solution of the INS), only
    bad ones, for at least ten seconds from the first to the last of them. *)
Theorem loss_alerts_exact write post webhook_url min_free_gb fixed str_other unicode_word items :
  (forall n, write n <> None) ->
  StronglySorted Z.le (map fst items) ->
  let on := dom (active (slots (run write post webhook_url min_free_gb fixed str_other unicode_word items))) in
  (str "fix_lost" ∈ on <-> lost_for 10000 (omap (r_sample fix_rule) items))
  /\ (str "rtk_lost" ∈ on <-> lost_for 10000 (omap (r_sample rtk_rule) items))
  /\ (str "ins_gnss_lost" ∈ on <-> lost_for 10000 (omap (r_sample gnss_rule) items)).
Proof.
  intros Hw Hs. cbv zeta. split; [|split].
  - apply (run_lost write post webhook_url min_free_gb fixed str_other unicode_word fix_rule items fix_rule_laws); [by apply fix_follows|done..| |done].
    intros [t []] s; cbn; try done. by intros [= <-].
  - apply (run_lost write post webhook_url min_free_gb fixed str_other unicode_word rtk_rule items rtk_rule_laws); [by apply rtk_follows|done..| |done].
    intros [t []] s; cbn; try done. by intros [= <-].
  - apply (run_lost write post webhook_url min_free_gb fixed str_other unicode_word gnss_rule items gnss_rule_laws); [by apply gnss_follows|done..| |done].
    intros [t []] s; cbn; try done. destruct (gnss_fix ins); [|done]. by intros [= <-].
Qed.

Lemma loss_alerts_exact_witness :
  let items := [(1000, StateFix (mkFix 3 (str "3D"))); (2000, StateFix (mkFix 0 (str "No fix")));
                (9000, ReceiverError (str "usb")); (12000, StateFix (mkFix 2 (str "2D")))] in
  let on := dom (active (slots (run (fun n => Some (Z.of_nat n)) (fun _ => false) true 5000 (fun _ _ => []) (fun _ => [])
                                  (fun _ => false) items))) in
  (str "fix_lost" ∈ on <-> lost_for 10000 (omap (r_sample fix_rule) items))
  /\ (str "rtk_lost" ∈ on <-> lost_for 10000 (omap (r_sample rtk_rule) items))
  /\ (str "ins_gnss_lost" ∈ on <-> lost_for 10000 (omap (r_sample gnss_rule) items)).
Proof.
  intros items. apply (loss_alerts_exact (fun n => Some (Z.of_nat n)) (fun _ => false) true 5000 (fun _ _ => []) (fun _ => [])
                         (fun _ => false) items).
  - done.
  - subst items. cbn [map fst]. repeat constructor; lia.
Defined.

(** ** The errors behind the receiver-error slot *)

Abbreviation receiver_error := (str "receiver_error").

(** Distinct errors, at most ten, none of them the one shown, none without one shown. *)
Definition behind_ok (e : Engine) : Prop :=
  raising (slots e) = ∅ /\ NoDup (receiver_errors_behind (slots e)) /\ (length (receiver_errors_behind (slots e)) <= 10)%nat
  /\ match active (slots e) !! receiver_error with
     | Some ev => ev_message ev ∉ receiver_errors_behind (slots e)
     | None => receiver_errors_behind (slots e) = []
     end.

Section Behind.
Context (write : nat -> option Z) (post : nat -> bool) (webhook_url : bool) (min_free_gb : Z).
Context (fixed : nat -> Z -> bytes) (str_other : Value -> bytes) (unicode_word : Z -> bool).
Context (Hwrite : forall n, write n <> None).
Abbreviation raise_ := (raise_ write post webhook_url).
Abbreviation clear := (clear write post webhook_url).
Abbreviation one_shot := (one_shot write post webhook_url).
Abbreviation emit := (emit write post webhook_url).
Abbreviation handle := (handle write post webhook_url min_free_gb fixed str_other unicode_word).
Abbreviation run := (run write post webhook_url min_free_gb fixed str_other unicode_word).
Abbreviation consume := (consume write post webhook_url min_free_gb fixed str_other unicode_word).

Lemma behind_raise kind level message meta : kind <> receiver_error -> keeps behind_ok (raise_ kind level message meta).
Proof.
  intros Hk e (H1 & H2 & H3 & H4). unfold behind_ok.
  destruct (raise_effect write post webhook_url Hwrite kind level message meta e H1) as (_ & _ & _ & -> & -> & Ha).
  repeat split; try done. destruct (active (slots e) !! kind); [by rewrite Ha|].
  destruct Ha as (ev & -> & _). by rewrite lookup_insert_ne.
Qed.

Lemma behind_clear kind message : kind <> receiver_error -> keeps behind_ok (clear kind message).
Proof.
  intros Hk e (H1 & H2 & H3 & H4). unfold behind_ok.
  destruct (clear_effect write post webhook_url Hwrite kind message e) as (_ & _ & _ & -> & -> & ->).
  repeat split; try done. by rewrite lookup_delete_ne.
Qed.

(** An empty list behind lets the slot itself change. *)
Lemma behind_raise_own level message meta e : raising (slots e) = ∅ -> receiver_errors_behind (slots e) = [] ->
  behind_ok (raise_ receiver_error level message meta e).1.
Proof.
  intros H1 H2. unfold behind_ok.
  destruct (raise_effect write post webhook_url Hwrite receiver_error level message meta e H1) as (_ & _ & _ & -> & -> & Ha).
  rewrite H2. repeat split; [constructor|simpl; lia|]. destruct (active (slots e) !! receiver_error) eqn:E.
  - rewrite Ha, E. set_solver.
  - destruct Ha as (ev & -> & _). rewrite lookup_insert_eq. set_solver.
Qed.

Lemma behind_clear_own message e : raising (slots e) = ∅ -> receiver_errors_behind (slots e) = [] ->
  behind_ok (clear receiver_error message e).1.
Proof.
  intros H1 H2. unfold behind_ok.
  destruct (clear_effect write post webhook_url Hwrite receiver_error message e) as (_ & _ & _ & -> & -> & ->).
  rewrite H2, lookup_delete_eq. repeat split; [done|constructor|simpl; lia].
Qed.

Lemma behind_emit level kind message meta : keeps behind_ok (emit level kind message meta).
Proof.
  intros e H. unfold behind_ok. pose proof (emit_effect write post webhook_url level kind message meta e) as (-> & _). done.
Qed.

Lemma behind_one_shot kind level message meta : keeps behind_ok (one_shot kind level message meta).
Proof.
  intros e H. unfold Alerts.one_shot. destruct (match _ with Some _ => _ | None => _ end); [done|].
  unfold mbind, M_bind, modify, mret, M_ret. set (e1 := on_slots _ e).
  assert (H1 : behind_ok e1) by done. pose proof (behind_emit level kind message meta e1 H1) as H2.
  by destruct (emit level kind message meta e1) as [e2 [ev|]].
Qed.

Lemma last_n_spec {A} n (l : list A) : (length (last_n n l) <= n)%nat /\ exists x, l = x ++ last_n n l.
Proof.
  unfold last_n. rewrite length_drop. split; [lia|]. exists (take (length l - n) l). by rewrite take_drop.
Qed.

Lemma behind_error message : keeps behind_ok (on_receiver_error write post webhook_url message).
Proof.
  intros e He. pose proof He as (H1 & H2 & H3 & H4). unfold on_receiver_error, mbind, M_bind, get.
  destruct (active (slots e) !! receiver_error) as [ev|] eqn:E.
  2: { cbn. by apply behind_raise_own. }
  case_bool_decide as Em.
  - subst message. change (behind_ok (raise_ receiver_error Error (ev_message ev) [] e).1). destruct (raise_effect write post webhook_url Hwrite receiver_error Error (ev_message ev) [] e H1)
      as (_ & _ & _ & _ & _ & Ha). rewrite E in Ha. by rewrite Ha.
  - unfold set_receiver_errors_behind, modify. set (e1 := on_slots _ e).
    destruct (raise_effect write post webhook_url Hwrite receiver_error Error message [] e1 H1) as (_ & _ & _ & _ & _ & Ha).
    change (active (slots e1)) with (active (slots e)) in Ha. rewrite E in Ha. rewrite Ha.
    unfold behind_ok. cbn [e1 on_slots slots set_behind raising receiver_errors_behind active]. rewrite E.
    set (fl := List.filter _ _). destruct (last_n_spec 9 fl) as [Hlen [x Hx]].
    assert (Hnd : NoDup fl) by (apply NoDup_ListNoDup, List.NoDup_filter; by apply NoDup_ListNoDup).
    assert (Hin : forall m, m ∈ last_n 9 fl -> m ∈ receiver_errors_behind (slots e) /\ m <> message).
    { intros m Hm. assert (Hf : m ∈ fl) by (rewrite Hx; set_solver).
      apply list_elem_of_In, filter_In in Hf as [Hf Hb]. apply list_elem_of_In in Hf.
      apply negb_true_iff, bool_decide_eq_false in Hb. done. }
    rewrite Hx in Hnd. apply list.NoDup_app in Hnd as (_ & _ & Hnd).
    repeat split; try done.
    + apply list.NoDup_app. split; [done|]. split; [|apply list.NoDup_singleton].
      intros m Hm Hm'. apply Hin in Hm as [_ Hm]. apply Hm. set_solver.
    + rewrite length_app. simpl. lia.
    + intros Hm. apply elem_of_app in Hm as [Hm|Hm]; [by apply Hin in Hm as [Hm _]|].
      apply Em. apply list_elem_of_singleton in Hm. done.
Qed.

(** [receiver.recovered] on any engine of the invariant. *)
Lemma recovered_effect meta e : behind_ok e ->
  let source := meta_get meta (str "source") in
  let named m := names_device unicode_word m (str_value str_other source) in
  let e' := (on_receiver_recovered write post webhook_url str_other unicode_word meta e).1 in
  match active (slots e) !! receiver_error with
  | Some ev =>
      if truthy source && named (ev_message ev) then
        receiver_errors_behind (slots e') = [] /\ raising (slots e') = ∅
        /\ match list.last (List.filter (fun m => negb (named m)) (receiver_errors_behind (slots e))) with
           | Some m => exists ev', active (slots e') !! receiver_error = Some ev' /\ ev_message ev' = m
           | None => active (slots e') !! receiver_error = None
           end
      else e' = e
  | None => e' = e
  end.
Proof.
  intros (H1 & _). cbv zeta. unfold on_receiver_recovered, mbind, M_bind, get, set_receiver_errors_behind, modify. cbv beta iota zeta.
  destruct (active (slots e) !! receiver_error) as [ev|]; [|done].
  rewrite <- negb_andb. destruct (truthy _ && _); cbn [negb]; [|done].
  set (msg := if truthy _ then _ else _).
  destruct (clear_effect write post webhook_url Hwrite receiver_error msg e) as (Hc & _ & _ & Hr & Hb & Ha).
  destruct (clear receiver_error msg e) as [e1 o]. cbn [fst snd] in *. subst o. rewrite Hb.
  destruct (list.last _) as [m|] eqn:El.
  - set (e2 := on_slots _ e1).
    destruct (raise_effect write post webhook_url Hwrite receiver_error Error m [] e2) as (_ & _ & _ & -> & -> & Hx).
    { cbn. by rewrite Hr. }
    change (active (slots e2)) with (active (slots e1)) in Hx. rewrite Ha, lookup_delete_eq in Hx.
    destruct Hx as (ev' & -> & Hm). repeat split; try done. exists ev'. by rewrite lookup_insert_eq.
  - cbn. rewrite Ha, lookup_delete_eq, Hr, H1. done.
Qed.

Lemma behind_recovered meta : keeps behind_ok (on_receiver_recovered write post webhook_url str_other unicode_word meta).
Proof.
  intros e He. pose proof (recovered_effect meta e He) as H. cbv zeta in H.
  destruct (active (slots e) !! receiver_error) as [ev|]; [|by rewrite H].
  destruct (_ && _); [|by rewrite H]. destruct H as (H1 & H2 & H3). unfold behind_ok. rewrite H1, H2.
  repeat split; [constructor|simpl; lia|].
  destruct (list.last _); [destruct H3 as (ev' & -> & _); set_solver|by rewrite H3].
Qed.

Lemma behind_connected source : keeps behind_ok (on_receiver_connected write post webhook_url source).
Proof.
  intros e (H1 & _). unfold on_receiver_connected, mbind, M_bind, remember, set_receiver_errors_behind, modify.
  set (e1 := on_memory _ e). set (msg := _ ++ _).
  destruct (clear_effect write post webhook_url Hwrite (str "receiver_disconnected") msg e1) as (Hc & _ & _ & Hr & _).
  destruct (clear (str "receiver_disconnected") msg e1) as [e2 o]. cbn [fst snd] in *. subst o.
  apply behind_clear_own; [|done]. cbn. rewrite Hr. done.
Qed.

Lemma handle_behind m : keeps behind_ok (handle m).
Proof.
  destruct m; cbn [Alerts.handle];
    try first [apply behind_error | apply behind_recovered | apply behind_connected
              | intros e (H1 & _); by apply behind_clear_own];
    handlers ltac:(idtac; lazymatch goal with
      | |- keeps _ (raise_ _ _ _ _) => apply behind_raise; by vm_compute
      | |- keeps _ (clear _ _) => apply behind_clear; by vm_compute
      | |- keeps _ (one_shot _ _ _ _) => apply behind_one_shot
      | |- keeps _ (emit _ _ _ _) => apply behind_emit
      | |- keeps _ (remember _) => intros ? ?; assumption
      end).
Qed.

Lemma consume_keeps (I : Engine -> Prop) item e :
  (forall e e', I e -> slots e' = slots e -> I e') -> keeps I (handle item.2) -> I e -> I (consume e item).
Proof.
  intros Hi Hk He. unfold Alerts.consume.
  assert (H : I (at_time item.1 e)) by (eapply Hi; [apply He|done]). apply Hk in H.
  destruct (handle item.2 (at_time item.1 e)) as [e' [[]|]]; cbn [fst] in H; (eapply Hi; [apply H|]).
  - unfold handler_ok. by destruct (negb _).
  - unfold handler_failed. by repeat case_match.
Qed.

Lemma run_behind items : behind_ok (run items).
Proof.
  induction items as [|i items IH] using rev_ind.
  { repeat split; [constructor|simpl; lia]. }
  unfold Alerts.run. rewrite foldl_snoc. apply consume_keeps; [|apply handle_behind|done].
  intros e e' H Hs. unfold behind_ok. by rewrite Hs.
Qed.
End Behind.

(** With the rows written, after any messages: the errors kept behind the shown
    receiver error are distinct, at most ten, and never the shown one; and a device
    that recovers ends the shown error exactly when that error names the device as
    a whole word, in which case the newest error behind it that does not name the
    device is shown instead (none, if there is none) and the others are forgotten.
    A recovery of any other device changes nothing. *)
Theorem port_recovery_exact write post webhook_url min_free_gb fixed str_other unicode_word items now meta :
  (forall n, write n <> None) ->
  let after l := slots (run write post webhook_url min_free_gb fixed str_other unicode_word l) in
  let s := after items in
  let s' := after (items ++ [(now, ReceiverRecovered meta)]) in
  let source := meta_get meta (str "source") in
  let named m := names_device unicode_word m (str_value str_other source) in
  NoDup (receiver_errors_behind s) /\ (length (receiver_errors_behind s) <= 10)%nat
  /\ match active s !! receiver_error with
     | None => receiver_errors_behind s = [] /\ s' = s
     | Some ev =>
         (ev_message ev ∉ receiver_errors_behind s)
         /\ (if truthy source && named (ev_message ev) then
              receiver_errors_behind s' = []
              /\ match list.last (List.filter (fun m => negb (named m)) (receiver_errors_behind s)) with
                 | Some m => exists ev', active s' !! receiver_error = Some ev' /\ ev_message ev' = m
                 | None => active s' !! receiver_error = None
                 end
            else s' = s)
     end.
Proof.
  intros Hw. cbv beta zeta.
  pose proof (run_behind write post webhook_url min_free_gb fixed str_other unicode_word Hw items) as Hb.
  assert (E : run write post webhook_url min_free_gb fixed str_other unicode_word (items ++ [(now, ReceiverRecovered meta)])
    = consume write post webhook_url min_free_gb fixed str_other unicode_word
        (run write post webhook_url min_free_gb fixed str_other unicode_word items) (now, ReceiverRecovered meta))
    by (unfold run; apply foldl_snoc).
  rewrite E. clear E.
  set (e := run write post webhook_url min_free_gb fixed str_other unicode_word items) in *.
  assert (Hc : slots (consume write post webhook_url min_free_gb fixed str_other unicode_word e (now, ReceiverRecovered meta))
    = slots (on_receiver_recovered write post webhook_url str_other unicode_word meta (at_time now e)).1).
  { unfold consume. cbn [fst snd handle]. destruct (on_receiver_recovered _ _ _ _ _ _ _) as [e' [x|]]; cbn [fst].
    - unfold handler_ok. by destruct (negb _).
    - unfold handler_failed. by repeat case_match. }
  rewrite Hc. assert (Hb' : behind_ok (at_time now e)) by done.
  pose proof (recovered_effect write post webhook_url str_other unicode_word Hw meta _ Hb') as H. cbv zeta in H.
  change (slots (at_time now e)) with (slots e) in H. destruct Hb as (_ & H2 & H3 & H4). repeat split; try done.
  destruct (active (slots e) !! receiver_error) as [ev|]; [|by rewrite H].
  split; [done|]. destruct (_ && _); [|by rewrite H]. destruct H as (Hx & _ & Hy). done.
Qed.

Lemma port_recovery_exact_witness :
  let items := [(1, ReceiverError (str "serial:/dev/ttyUSB1: lost")); (2, ReceiverError (str "serial:/dev/ttyUSB1 busy"));
                (3, ReceiverError (str "bad config"))] in
  let meta := [(str "source", VText (str "serial:/dev/ttyUSB1"))] in
  let after l := slots (run (fun n => Some (Z.of_nat n)) (fun _ => true) false 5000 (fun _ _ => []) (fun _ => []) (fun _ => false) l) in
  let s := after items in
  let s' := after (items ++ [(9, ReceiverRecovered meta)]) in
  let source := meta_get meta (str "source") in
  let named m := names_device (fun _ => false) m (str_value (fun _ => []) source) in
  NoDup (receiver_errors_behind s) /\ (length (receiver_errors_behind s) <= 10)%nat
  /\ match active s !! receiver_error with
     | None => receiver_errors_behind s = [] /\ s' = s
     | Some ev =>
         (ev_message ev ∉ receiver_errors_behind s)
         /\ (if truthy source && named (ev_message ev) then
              receiver_errors_behind s' = []
              /\ match list.last (List.filter (fun m => negb (named m)) (receiver_errors_behind s)) with
                 | Some m => exists ev', active s' !! receiver_error = Some ev' /\ ev_message ev' = m
                 | None => active s' !! receiver_error = None
                 end
            else s' = s)
     end.
Proof.
  intros items meta.
  apply (port_recovery_exact (fun n => Some (Z.of_nat n)) (fun _ => true) false 5000 (fun _ _ => []) (fun _ => []) (fun _ => false)).
  done.
Defined.

(** The third error, not about the port, is the one shown once the port is back. *)
Example port_recovery_shown :
  let items := [(1, ReceiverError (str "serial:/dev/ttyUSB1: lost")); (2, ReceiverError (str "serial:/dev/ttyUSB1 busy"));
                (3, ReceiverError (str "bad config")); (9, ReceiverRecovered [(str "source", VText (str "serial:/dev/ttyUSB1"))])] in
  option_map ev_message (active (slots (run (fun n => Some (Z.of_nat n)) (fun _ => true) false 5000 (fun _ _ => []) (fun _ => [])
    (fun _ => false) items)) !! receiver_error) = Some (str "bad config").
Proof. vm_compute. reflexivity. Qed.

(** The end of a condition whose row cannot be written is not retried: the slot is free, and
    no [fix_lost_cleared] row will ever match the [fix_lost] one. *)
Theorem cleared_event_not_retried :
  exists items,
    let e := run (fun n => if Nat.eqb n 1 then None else Some 0) (fun _ => true) false 5000 (fun _ _ => []) (fun _ => [])
               (fun _ => false) items in
    list.last items = Some (99, StateFix (mkFix 3 (str "3D")))
    /\ active (slots e) !! str "fix_lost" = None
    /\ map ev_kind (published (journal e)) = [str "fix_lost"].
Proof.
  exists [(1, StateFix (mkFix 3 (str "3D"))); (2, StateFix (mkFix 0 (str "No fix"))); (20, StateFix (mkFix 0 (str "No fix")));
     (12002, StateFix (mkFix 0 (str "No fix"))); (98, StateFix (mkFix 3 (str "3D"))); (99, StateFix (mkFix 3 (str "3D")))].
  vm_compute. done.
Qed.
