(* ===== verification/Jobs.v ===== *)
(** * Background jobs ([jobs.py])

    The job rows, their directories and the tasks that run them, as a machine whose steps
    are the stretches of [JobRunner]'s coroutines between two awaits: submission, the phases
    of a running job, cancellation, deletion, shutdown, and a restart with [restore]. Any
    interleaving of enabled steps is a run. A write to the jobs table, its commit and the
    publication of the row it leaves are one step, and so is a read with what the reader does
    next (the database is one serialised connection). Job functions are the environment's
    choice of reports and results; a database that fails under a task, and a second
    cancellation inside the write that records the first, are not modelled. *)

From Stdlib Require Import String.
From stdpp Require Import gmap.
From S2P Require Import Prelude.
From S2P Require Import PyBytes.
From S2P Require Import Calendar.

(** ** Data *)

Inductive Status := Queued | Running | Done | Failed.
#[export] Instance Status_eq_dec : EqDecision Status.
Proof. solve_decision. Defined.

Definition live (s : Status) : bool := match s with Queued | Running => true | _ => false end.
Definition finished (s : Status) : bool := negb (live s).

Definition INTERRUPTED : bytes := str "interrupted by restart".
Definition SHUTDOWN_REASON : bytes := str "shutdown".
Definition CANCELLED_REASON : bytes := str "cancelled".

(** A row of the jobs table. Progress is in thousandths; of the params, the end of an
    export's window ([None]: missing, unreadable or naive); a result is its JSON text. *)
Record Job := mkJob {
  kind : bytes;
  status : Status;
  created_utc : Datetime;
  updated_utc : option Datetime;
  progress : Z;
  message : option bytes;
  params_end : option Datetime;
  result : option bytes;
  error : option bytes;
}.

(** [jobs.update] carries the row, [jobs.deleted] the id. *)
Inductive Published := Updated (id : bytes) (job : Job) | Deleted (id : bytes).

(** Where a task stands: waiting for the semaphore, holding it before and after its directory
    is made, inside the job function. *)
Inductive Phase := Waiting | Starting | Made | InFunction.
#[export] Instance Phase_eq_dec : EqDecision Phase.
Proof. solve_decision. Defined.

Record Task := mkTask { phase : Phase; cancelling : bool }.
Definition holds_slot (t : Task) : bool := match phase t with Waiting => false | _ => true end.

(** A call of [delete] between two awaits: the status was read; the task was taken and the
    status is being read again; the cancelled task is awaited; the directory is removed
    next; the row is removed next. *)
Inductive DeletePhase := Checked | Taken | Gathering | Removing | Dropping.
#[export] Instance DeletePhase_eq_dec : EqDecision DeletePhase.
Proof. solve_decision. Defined.

Record Runner := mkRunner {
  max_concurrent : nat;
  rows : gmap bytes Job;
  dirs : gset bytes;
  tasks : gmap bytes Task;              (* the asyncio tasks that have not ended *)
  registered : gset bytes;              (* the keys of [_tasks] *)
  kinds : gmap bytes bytes;             (* [_kinds] *)
  cancel_reason : gmap bytes (option bytes);
  closing : bool;
  submitting : gmap bytes bool;         (* calls of [submit], with whether the row is written *)
  deletes : gmap nat (bytes * DeletePhase);
  used : gset bytes;                    (* every id [uuid4] has given *)
  published : list Published;
}.

Definition new_runner (max : nat) (rows : gmap bytes Job) (dirs : gset bytes) : Runner :=
  mkRunner max rows dirs ∅ ∅ ∅ ∅ false ∅ ∅ (dom rows) [].

Definition set_rows (f : gmap bytes Job -> gmap bytes Job) (s : Runner) : Runner :=
  mkRunner (max_concurrent s) (f (rows s)) (dirs s) (tasks s) (registered s) (kinds s) (cancel_reason s) (closing s)
    (submitting s) (deletes s) (used s) (published s).
Definition set_dirs (f : gset bytes -> gset bytes) (s : Runner) : Runner :=
  mkRunner (max_concurrent s) (rows s) (f (dirs s)) (tasks s) (registered s) (kinds s) (cancel_reason s) (closing s)
    (submitting s) (deletes s) (used s) (published s).
Definition set_tasks (f : gmap bytes Task -> gmap bytes Task) (s : Runner) : Runner :=
  mkRunner (max_concurrent s) (rows s) (dirs s) (f (tasks s)) (registered s) (kinds s) (cancel_reason s) (closing s)
    (submitting s) (deletes s) (used s) (published s).
Definition set_registered (f : gset bytes -> gset bytes) (s : Runner) : Runner :=
  mkRunner (max_concurrent s) (rows s) (dirs s) (tasks s) (f (registered s)) (kinds s) (cancel_reason s) (closing s)
    (submitting s) (deletes s) (used s) (published s).
Definition set_kinds (f : gmap bytes bytes -> gmap bytes bytes) (s : Runner) : Runner :=
  mkRunner (max_concurrent s) (rows s) (dirs s) (tasks s) (registered s) (f (kinds s)) (cancel_reason s) (closing s)
    (submitting s) (deletes s) (used s) (published s).
Definition set_reason (f : gmap bytes (option bytes) -> gmap bytes (option bytes)) (s : Runner) : Runner :=
  mkRunner (max_concurrent s) (rows s) (dirs s) (tasks s) (registered s) (kinds s) (f (cancel_reason s)) (closing s)
    (submitting s) (deletes s) (used s) (published s).
Definition set_closing (s : Runner) : Runner :=
  mkRunner (max_concurrent s) (rows s) (dirs s) (tasks s) (registered s) (kinds s) (cancel_reason s) true
    (submitting s) (deletes s) (used s) (published s).
Definition set_submitting (f : gmap bytes bool -> gmap bytes bool) (s : Runner) : Runner :=
  mkRunner (max_concurrent s) (rows s) (dirs s) (tasks s) (registered s) (kinds s) (cancel_reason s) (closing s)
    (f (submitting s)) (deletes s) (used s) (published s).
Definition set_deletes (f : gmap nat (bytes * DeletePhase) -> gmap nat (bytes * DeletePhase)) (s : Runner) : Runner :=
  mkRunner (max_concurrent s) (rows s) (dirs s) (tasks s) (registered s) (kinds s) (cancel_reason s) (closing s)
    (submitting s) (f (deletes s)) (used s) (published s).
Definition use_id (id : bytes) (s : Runner) : Runner :=
  mkRunner (max_concurrent s) (rows s) (dirs s) (tasks s) (registered s) (kinds s) (cancel_reason s) (closing s)
    (submitting s) (deletes s) ({[id]} ∪ used s) (published s).
Definition publish (p : Published) (s : Runner) : Runner :=
  mkRunner (max_concurrent s) (rows s) (dirs s) (tasks s) (registered s) (kinds s) (cancel_reason s) (closing s)
    (submitting s) (deletes s) (used s) (published s ++ [p]).

(** ** Operations *)

(** [_update]: one change written and the row it leaves published; nothing for a row gone. *)
Definition update (id : bytes) (now : Datetime) (change : Job -> Job) (s : Runner) : Runner :=
  match rows s !! id with
  | None => s
  | Some j =>
      let j := change j in
      let j := mkJob (kind j) (status j) (created_utc j) (Some now) (progress j) (message j) (params_end j) (result j) (error j) in
      publish (Updated id j) (set_rows <[id := j]> s)
  end.

Definition to_running (j : Job) : Job :=
  mkJob (kind j) Running (created_utc j) (updated_utc j) (progress j) (Some (str "started")) (params_end j) (result j) (error j).
Definition to_failed (text : bytes) (j : Job) : Job :=
  mkJob (kind j) Failed (created_utc j) (updated_utc j) (progress j) (message j) (params_end j) (result j) (Some text).
Definition to_done (r : bytes) (j : Job) : Job :=
  mkJob (kind j) Done (created_utc j) (updated_utc j) 1000 (Some (str "finished")) (params_end j) (Some r) (error j).
Definition with_progress (fraction : Z) (text : option bytes) (j : Job) : Job :=
  mkJob (kind j) (status j) (created_utc j) (updated_utc j) fraction text (params_end j) (result j) (error j).

(** [JobContext.progress] clamps the fraction to 0..1. *)
Definition clamp (fraction : Z) : Z := Z.max 0 (Z.min 1000 fraction).

(** The row [_insert] writes. *)
Definition queued_row (k : bytes) (now : Datetime) (ends : option Datetime) : Job :=
  mkJob k Queued now None 0 None ends None None.

(** The [finally] of [_run]. *)
Definition task_ended (id : bytes) (s : Runner) : Runner :=
  set_reason (delete id) (set_kinds (delete id) (set_registered (fun r => r ∖ {[id]}) (set_tasks (delete id) s))).

(** [_mark_cancelled]: the reason recorded, unless the row is being deleted. *)
Definition mark_cancelled (id : bytes) (now : Datetime) (s : Runner) : Runner :=
  match (match cancel_reason s !! id with Some r => r | None => Some CANCELLED_REASON end) with
  | None => s
  | Some reason => update id now (to_failed reason) s
  end.

(** The tasks inside [async with self._sem]. *)
Definition slot_set (s : Runner) : gset bytes := dom (filter (fun kv : bytes * Task => holds_slot kv.2 = true) (tasks s)).
Definition slots_used (s : Runner) : nat := size (slot_set s).

Definition cancel_task (id : bytes) (s : Runner) : Runner :=
  set_tasks (alter (fun t => mkTask (phase t) true) id) s.

(** The reason of a shutdown, unless the task already has one. *)
Definition remember (id : bytes) : Runner -> Runner :=
  set_reason (fun m => match m !! id with Some _ => m | None => <[id := Some SHUTDOWN_REASON]> m end).
Definition cancel_all (ids : list bytes) (s : Runner) : Runner :=
  foldl (fun s id => cancel_task id (remember id s)) s ids.

(** [shutdown], up to the wait: no more jobs, and every registered task cancelled. *)
Definition shutdown (s : Runner) : Runner := cancel_all (elements (registered s)) (set_closing s).

(** [restore] in a new process: everything in flight is gone, live rows are failed and
    published. *)
Definition restored_row (now : Datetime) (j : Job) : Job :=
  if live (status j) then
    mkJob (kind j) Failed (created_utc j) (Some now) (progress j) (message j) (params_end j) (result j) (Some INTERRUPTED)
  else j.
Definition restore (now : Datetime) (s : Runner) : Runner :=
  let rows' := restored_row now <$> rows s in
  let failed := omap (fun kv : bytes * Job => if live (status kv.2) then Some (Updated kv.1 (restored_row now kv.2)) else None)
                  (map_to_list (rows s)) in
  mkRunner (max_concurrent s) rows' (dirs s) ∅ ∅ ∅ ∅ false ∅ ∅ (used s) (published s ++ failed).

(** ** Steps *)

Inductive Event :=
| SubmitBegin (id k : bytes)
| SubmitInsert (id : bytes) (now : Datetime) (ends : option Datetime)
| SubmitFail (id : bytes)
| SubmitCreate (id : bytes)
| Acquire (id : bytes)
| MakeDir (id : bytes)
| Begin (id : bytes) (now : Datetime)
| Report (id : bytes) (now : Datetime) (fraction : Z) (text : option bytes)
| Return_ (id : bytes) (now : Datetime) (r : bytes)
| Raise (id : bytes) (now : Datetime) (text : bytes)
| CancelLands (id : bytes) (now : Datetime)
| DeleteBegin (op : nat) (id : bytes)
| DeleteTake (op : nat)
| DeleteRecheck (op : nat)
| DeleteGathered (op : nat)
| DeleteTree (op : nat)
| DeleteRow (op : nat)
| Shutdown
| Restart (now : Datetime).

(** The status the row shows, if there is one. *)
Definition row_running (s : Runner) (id : bytes) : bool :=
  match rows s !! id with Some j => bool_decide (status j = Running) | None => false end.

Definition in_phase (s : Runner) (id : bytes) (p : Phase) : bool :=
  match tasks s !! id with Some t => bool_decide (phase t = p) | None => false end.

(** A task in a phase outside the job function that has not been cancelled: a cancelled one
    gets its [CancelledError] at the await it is in. A job function may catch it. *)
Definition resumes (s : Runner) (id : bytes) (p : Phase) : bool :=
  match tasks s !! id with Some t => bool_decide (phase t = p) && negb (cancelling t) | None => false end.

Definition set_phase (id : bytes) (p : Phase) : Runner -> Runner :=
  set_tasks (alter (fun t => mkTask p (cancelling t)) id).

Definition step (s : Runner) (e : Event) : option Runner :=
  match e with
  (* submit, to its first await: accepted, the kind registered *)
  | SubmitBegin id k =>
      if closing s || bool_decide (id ∈ used s) then None
      else Some (use_id id (set_kinds <[id := k]> (set_submitting <[id := false]> s)))
  (* _insert, committed *)
  | SubmitInsert id now ends =>
      match submitting s !! id, kinds s !! id with
      | Some false, Some k => Some (set_rows <[id := queued_row k now ends]> (set_submitting <[id := true]> s))
      | _, _ => None
      end
  (* the insert or the read of the row failed: the kind is given up *)
  | SubmitFail id =>
      match submitting s !! id with
      | Some _ => Some (set_kinds (delete id) (set_submitting (delete id) s))
      | _ => None
      end
  (* the row published, the task created *)
  | SubmitCreate id =>
      match submitting s !! id, rows s !! id with
      | Some true, Some j =>
          Some (publish (Updated id j)
                  (set_registered (fun r => {[id]} ∪ r) (set_tasks <[id := mkTask Waiting false]> (set_submitting (delete id) s))))
      | Some true, None => Some (set_kinds (delete id) (set_submitting (delete id) s))
      | _, _ => None
      end
  (* async with self._sem *)
  | Acquire id =>
      if resumes s id Waiting && (slots_used s <? max_concurrent s)%nat then Some (set_phase id Starting s) else None
  | MakeDir id =>
      if resumes s id Starting then Some (set_dirs (fun d => {[id]} ∪ d) (set_phase id Made s)) else None
  | Begin id now =>
      if resumes s id Made then Some (update id now to_running (set_phase id InFunction s)) else None
  | Report id now fraction text =>
      if in_phase s id InFunction then Some (update id now (with_progress (clamp fraction) text) s) else None
  | Return_ id now r =>
      if in_phase s id InFunction then Some (task_ended id (update id now (to_done r) s)) else None
  | Raise id now text =>
      if in_phase s id InFunction then Some (task_ended id (update id now (to_failed text) s)) else None
  (* CancelledError reaches the task *)
  | CancelLands id now =>
      match tasks s !! id with
      | Some t => if cancelling t then Some (task_ended id (mark_cancelled id now s)) else None
      | None => None
      end
  (* delete: the status read *)
  | DeleteBegin op id =>
      match deletes s !! op with
      | None => if row_running s id then Some s (* JobBusy *) else Some (set_deletes <[op := (id, Checked)]> s)
      | Some _ => None
      end
  (* self._tasks.pop *)
  | DeleteTake op =>
      match deletes s !! op with
      | Some (id, Checked) =>
          if bool_decide (id ∈ registered s)
          then Some (set_deletes <[op := (id, Taken)]> (set_registered (fun r => r ∖ {[id]}) s))
          else Some (set_deletes <[op := (id, Removing)]> s)
      | _ => None
      end
  (* the status read again: put back, or cancelled *)
  | DeleteRecheck op =>
      match deletes s !! op with
      | Some (id, Taken) =>
          if row_running s id then
            Some (set_deletes (delete op) (set_registered (fun r => {[id]} ∪ r) s)) (* JobBusy *)
          else Some (cancel_task id (set_reason <[id := None]> (set_deletes <[op := (id, Gathering)]> s)))
      | _ => None
      end
  | DeleteGathered op =>
      match deletes s !! op with
      | Some (id, Gathering) =>
          match tasks s !! id with None => Some (set_deletes <[op := (id, Removing)]> s) | Some _ => None end
      | _ => None
      end
  | DeleteTree op =>
      match deletes s !! op with
      | Some (id, Removing) => Some (set_dirs (fun d => d ∖ {[id]}) (set_deletes <[op := (id, Dropping)]> s))
      | _ => None
      end
  | DeleteRow op =>
      match deletes s !! op with
      | Some (id, Dropping) =>
          let s := set_deletes (delete op) s in
          match rows s !! id with
          | Some _ => Some (publish (Deleted id) (set_rows (delete id) s))
          | None => Some s
          end
      | _ => None
      end
  | Shutdown => Some (shutdown s)
  | Restart now => Some (restore now s)
  end.

(** The runs of the machine. *)
Fixpoint steps (s : Runner) (es : list Event) : option Runner :=
  match es with
  | [] => Some s
  | e :: es => match step s e with Some s => steps s es | None => None end
  end.

(** [active]: a job of the kind is queued or running in this process. *)
Definition active (s : Runner) (k : bytes) : bool :=
  existsb (fun kv : bytes * bytes => bool_decide (kv.2 = k)) (map_to_list (kinds s)).

(** [prune_exports]: the finished export jobs whose window ended by [ended_by], which it
    deletes. *)
Definition prunable (ended_by : Datetime) (j : Job) : bool :=
  bool_decide (kind j = str "export") && finished (status j)
  && match params_end j with Some e => e <=? ended_by | None => false end.
Definition prune_exports (ended_by : Datetime) (s : Runner) : list bytes :=
  map fst (sort_by (fun kv : bytes * Job => created_utc kv.2) (List.filter (fun kv => prunable ended_by kv.2) (map_to_list (rows s)))).

(** [_component]: one path component; [None] is its [ValueError]. *)
Definition component (value : bytes) : option bytes :=
  if bool_decide (value = []) || bool_decide (value = str ".") || bool_decide (value = str "..") || mem_byte 0 value then None
  else if mem_byte 47 value || mem_byte 92 value then None
  else Some value.

(** [job_dir]. *)
Definition job_dir (root job_id : bytes) : option bytes := c ← component job_id; Some (root ++ [47] ++ c).

(** ** The invariant, job by job *)

(** A deletion has taken the job's task and not yet seen it end. *)
Definition taking (ph : DeletePhase) : Prop := ph = Taken \/ ph = Gathering.
Definition taken (d : gmap nat (bytes * DeletePhase)) (id : bytes) : Prop :=
  exists op ph, d !! op = Some (id, ph) /\ taking ph.

(** What the parts of the machine say of one job. *)
Record local (s : Runner) (id : bytes) : Prop := mkLocal {
  l_status : forall t j, tasks s !! id = Some t -> rows s !! id = Some j ->
    status j = if decide (phase t = InFunction) then Running else Queued;
  l_running : forall j, rows s !! id = Some j -> status j = Running -> exists t, tasks s !! id = Some t /\ phase t = InFunction;
  l_silent : cancel_reason s !! id = Some None ->
    (forall j, rows s !! id = Some j -> status j <> Running) /\ (forall t, tasks s !! id = Some t -> cancelling t = true);
  l_submitting : forall b, submitting s !! id = Some b ->
    tasks s !! id = None /\ (id ∉ registered s) /\ cancel_reason s !! id = None
    /\ (forall j, rows s !! id = Some j -> b = true /\ status j = Queued);
  l_fresh : id ∉ used s -> rows s !! id = None /\ tasks s !! id = None /\ (id ∉ registered s)
    /\ cancel_reason s !! id = None /\ submitting s !! id = None;
  l_taken : taken (deletes s) id -> submitting s !! id = None /\ (id ∈ used s);
}.

Definition inv (s : Runner) : Prop := (slots_used s <= max_concurrent s)%nat /\ forall id, local s id.

Lemma taken_insert d op id ph id' : id' <> id -> taken (<[op := (id, ph)]> d) id' -> taken d id'.
Proof.
  intros Hne (o & p & [[_ Heq]|[_ Ho]]%lookup_insert_Some & Hp); [congruence|]. by exists o, p.
Qed.

Lemma taken_insert_quiet d op id ph id' : ~ taking ph -> taken (<[op := (id, ph)]> d) id' -> taken d id'.
Proof.
  intros Hq (o & p & [[_ Heq]|[_ Ho]]%lookup_insert_Some & Hp); [simplify_eq; done|]. by exists o, p.
Qed.

Lemma taken_delete d op id : taken (delete op d) id -> taken d id.
Proof. intros (o & p & [_ Ho]%lookup_delete_Some & Hp). by exists o, p. Qed.

Lemma elem_of_slot_set s id : id ∈ slot_set s <-> exists t, tasks s !! id = Some t /\ holds_slot t = true.
Proof.
  unfold slot_set. rewrite elem_of_dom. split.
  - intros [t Ht]. apply map_lookup_filter_Some in Ht as [Ht Hh]. by exists t.
  - intros (t & Ht & Hh). exists t. by apply map_lookup_filter_Some.
Qed.

Lemma slots_mono s s' : (forall id t, tasks s' !! id = Some t -> holds_slot t = true ->
    exists t0, tasks s !! id = Some t0 /\ holds_slot t0 = true) ->
  (slots_used s' <= slots_used s)%nat.
Proof.
  intros H. unfold slots_used. apply subseteq_size, elem_of_subseteq. intros id Hid. apply elem_of_slot_set in Hid as (t & Ht & Hh).
  apply elem_of_slot_set. by eapply H.
Qed.

Lemma slots_alter s s' id f : tasks s' = alter f id (tasks s) ->
  (forall t, tasks s !! id = Some t -> holds_slot (f t) = true -> holds_slot t = true) ->
  (slots_used s' <= slots_used s)%nat.
Proof.
  intros E H. apply slots_mono. intros i t. rewrite E. destruct (decide (i = id)) as [->|Hne].
  - rewrite lookup_alter_eq. destruct (tasks s !! id) as [t0|] eqn:Et; [|done]. intros [= <-] Hh. exists t0. auto.
  - rewrite lookup_alter_ne by done. eauto.
Qed.

Lemma slots_same s s' : tasks s' = tasks s -> (slots_used s' <= slots_used s)%nat.
Proof. intros E. apply slots_mono. rewrite E. eauto. Qed.

Lemma slots_delete s s' id : tasks s' = delete id (tasks s) -> (slots_used s' <= slots_used s)%nat.
Proof. intros E. apply slots_mono. intros i t. rewrite E. intros [_ H]%lookup_delete_Some. eauto. Qed.

(** Steps that leave a job alone. *)
Definition same_job (s s' : Runner) (id : bytes) : Prop :=
  rows s' !! id = rows s !! id /\ tasks s' !! id = tasks s !! id /\ (id ∈ registered s' <-> id ∈ registered s)
  /\ cancel_reason s' !! id = cancel_reason s !! id /\ submitting s' !! id = submitting s !! id
  /\ (id ∈ used s' <-> id ∈ used s) /\ (taken (deletes s') id -> taken (deletes s) id).

Lemma local_same s s' id : local s id -> same_job s s' id -> local s' id.
Proof.
  intros [H1 H2 H3 H4 H5 H6] (E1 & E2 & E3 & E4 & E5 & E6 & E7). split.
  - by rewrite E2, E1.
  - by rewrite E2, E1.
  - by rewrite E4, E2, E1.
  - intros b. rewrite E5, E2, E4, E1, E3. apply H4.
  - rewrite E1, E2, E4, E5, E6, E3. apply H5.
  - rewrite E5, E6. auto.
Qed.

(** A step about one job preserves the invariant when it leaves the others alone, does not
    exceed the slots and re-establishes what holds of its own. *)
Lemma inv_one s s' id : inv s -> max_concurrent s' = max_concurrent s -> (slots_used s' <= max_concurrent s)%nat ->
  (forall id', id' <> id -> same_job s s' id') -> local s' id -> inv s'.
Proof.
  intros [Hs Hl] Hm Hs' Ho Hid. split; [by rewrite Hm|]. intros i. destruct (decide (i = id)) as [->|Hne]; [done|].
  eapply local_same; [apply Hl|auto].
Qed.

(** The projections of the setters. *)
Ltac fields_tac :=
  cbn [task_ended set_phase cancel_task set_rows set_dirs set_tasks set_registered set_kinds set_reason set_closing
    set_submitting set_deletes use_id publish
    rows dirs tasks registered kinds cancel_reason closing submitting deletes used published max_concurrent].

Ltac members := rewrite ?elem_of_union, ?elem_of_difference, ?elem_of_singleton.

(** Everything but one job is left alone. *)
Ltac elsewhere :=
  let id' := fresh "id'" in let Hne := fresh "Hne" in let Hne' := fresh "Hne" in
  intros id' Hne; pose proof (not_eq_sym Hne) as Hne'; unfold same_job; fields_tac;
  repeat first [rewrite lookup_insert_ne by exact Hne' | rewrite lookup_delete_ne by exact Hne'
               | rewrite lookup_alter_ne by exact Hne'];
  members; repeat split; first [done | tauto | idtac]; eauto using taken_delete, taken_insert, not_eq_sym.

(** The facts about the job a step works on, used at what is known. *)
Ltac spend :=
  repeat match goal with
  | H : ?A -> _, a : ?A |- _ => match type of A with Prop => specialize (H a) end
  | H : forall x, ?m !! ?i = Some x -> _, E : ?m !! ?i = Some _ |- _ => specialize (H _ E)
  | H : forall x y, ?m !! ?i = Some x -> _, E : ?m !! ?i = Some _ |- _ => pose proof (fun y => H _ y E); clear H
  | H : Some ?a = Some ?a -> _ |- _ => specialize (H eq_refl)
  | H : taken (delete _ _) _ |- _ => apply taken_delete in H
  | H : _ /\ _ |- _ => destruct H
  | H : exists _, _ |- _ => destruct H
  end.

(** Goals about that job, once its lookups are evaluated. *)
Ltac own :=
  split; fields_tac; members; rewrite ?lookup_insert_eq, ?lookup_delete_eq, ?lookup_alter_eq;
  repeat match goal with H : ?m !! ?i = _ |- context [?m !! ?i] => rewrite H end;
  intros; simplify_eq/=; repeat split; intros; simplify_eq/=; try tauto; try congruence;
  spend; simplify_eq/=; try tauto; try congruence; eauto using taken_delete, taken_insert.

Lemma in_phase_task s id p : in_phase s id p = true -> exists t, tasks s !! id = Some t /\ phase t = p.
Proof. unfold in_phase. destruct (tasks s !! id) as [t|]; [|done]. intros H%bool_decide_eq_true. eauto. Qed.

Lemma resumes_task s id p : resumes s id p = true -> tasks s !! id = Some (mkTask p false).
Proof.
  unfold resumes. destruct (tasks s !! id) as [[q c]|]; [|done]. cbn. intros [H%bool_decide_eq_true Hc]%andb_true_iff.
  destruct c; [done|]. by subst.
Qed.

Section Steps.
Context (s : Runner) (Hinv : inv s).

Let Hslots : (slots_used s <= max_concurrent s)%nat := proj1 Hinv.
Let Hl : forall id, local s id := proj2 Hinv.

Ltac start id :=
  apply (inv_one s _ id);
    [done|done|try (by eapply Nat.le_trans; [apply slots_same|])|elsewhere|destruct (Hl id) as [H1 H2 H3 H4 H5 H6]].

Lemma submit_begin_inv id k : id ∉ used s ->
  inv (use_id id (set_kinds <[id := k]> (set_submitting <[id := false]> s))).
Proof. intros Hu. start id.
  destruct (H5 Hu) as (E1 & E2 & E3 & E4 & E5). own.
Qed.

Lemma submit_insert_inv id k now ends : submitting s !! id = Some false ->
  inv (set_rows <[id := queued_row k now ends]> (set_submitting <[id := true]> s)).
Proof. intros Hs. start id. destruct (H4 _ Hs) as (E2 & E3 & E4 & E1). own. Qed.

Lemma submit_fail_inv id : is_Some (submitting s !! id) ->
  inv (set_kinds (delete id) (set_submitting (delete id) s)).
Proof. intros [b Hs]. start id. own. Qed.

Lemma submit_create_inv id p : submitting s !! id = Some true ->
  inv (publish p (set_registered (fun r => {[id]} ∪ r) (set_tasks <[id := mkTask Waiting false]> (set_submitting (delete id) s)))).
Proof.
  intros Hs. start id.
  - eapply Nat.le_trans; [|done]. apply slots_mono. fields_tac. intros i t.
    destruct (decide (i = id)) as [->|Hne]; [rewrite lookup_insert_eq; by intros [= <-]|rewrite lookup_insert_ne by done; eauto].
  - destruct (H4 _ Hs) as (E2 & E3 & E4 & E1). own.
Qed.

(** Phases before the job function. *)
Lemma set_phase_inv id p q : tasks s !! id = Some (mkTask p false) -> p <> InFunction -> q <> InFunction ->
  (slots_used (set_phase id q s) <= max_concurrent s)%nat -> inv (set_phase id q s).
Proof.
  intros Ht Hp Hq Hsl. start id. own.
  erewrite H by done. by rewrite !decide_False.
Qed.

Lemma begin_inv id now : tasks s !! id = Some (mkTask Made false) ->
  inv (update id now to_running (set_phase id InFunction s)).
Proof.
  intros Ht. assert (Hsl : (slots_used (set_phase id InFunction s) <= slots_used s)%nat).
  { eapply slots_alter; [reflexivity|]. intros t. rewrite Ht. by intros [= <-]. }
  unfold update. change (rows (set_phase id InFunction s)) with (rows s).
  destruct (rows s !! id) as [j|] eqn:Ej; start id.
  - by eapply Nat.le_trans.
  - own.
  - by eapply Nat.le_trans.
  - own.

Qed.

(** A report of the job function. *)
Lemma report_inv id now ch : (forall j, status (ch j) = status j) -> inv (update id now ch s).
Proof.
  intros Hc. unfold update. destruct (rows s !! id) as [j|] eqn:Ej; [|done].
  specialize (Hc j). start id. own.
  apply H2. congruence.
Qed.

(** The task ends: its row, if any, no longer running. *)
Lemma ended_inv id : is_Some (tasks s !! id) -> (forall j, rows s !! id = Some j -> status j <> Running) ->
  inv (task_ended id s).
Proof.
  intros [t Ht] Hr. apply (inv_one s _ id); [done|done| |elsewhere|].
  - eapply Nat.le_trans; [by eapply slots_delete|done].
  - destruct (Hl id) as [H1 H2 H3 H4 H5 H6]. own.
Qed.

Lemma end_update_inv id now ch : is_Some (tasks s !! id) -> (forall j, status (ch j) <> Running) ->
  inv (task_ended id (update id now ch s)).
Proof.
  intros [t Ht] Hc. unfold update. destruct (rows s !! id) as [j|] eqn:Ej.
  - specialize (Hc j). apply (inv_one s _ id).
    + done.
    + done.
    + eapply Nat.le_trans; [by eapply slots_delete|done].
    + clear. elsewhere.
    + destruct (Hl id) as [H1 H2 H3 H4 H5 H6]. own.
  - apply ended_inv; [eauto|]. congruence.
Qed.

Lemma delete_quiet_inv op id ph : ~ taking ph -> inv (set_deletes <[op := (id, ph)]> s).
Proof.
  intros Hq. apply (inv_one s _ id); [done|done|by eapply Nat.le_trans; [apply slots_same|]|elsewhere|].
  destruct (Hl id) as [H1 H2 H3 H4 H5 H6]. split; fields_tac; try done. intros H%taken_insert_quiet; auto.
Qed.

Lemma delete_take_inv op id : id ∈ registered s ->
  inv (set_deletes <[op := (id, Taken)]> (set_registered (fun r => r ∖ {[id]}) s)).
Proof.
  intros Hr. start id.
  assert (Hn : submitting s !! id = None) by (destruct (submitting s !! id) as [b|]; [destruct (H4 _ eq_refl); tauto|done]).
  assert (Hu : id ∈ used s) by (destruct (decide (id ∈ used s)) as [|Hu]; [done|tauto]).
  own.
Qed.

Lemma delete_busy_inv op id ph : deletes s !! op = Some (id, ph) -> taking ph ->
  inv (set_deletes (delete op) (set_registered (fun r => {[id]} ∪ r) s)).
Proof.
  intros Hop Hph. start id. assert (Ht : taken (deletes s) id) by (by exists op, ph). destruct (H6 Ht) as [Hn Hu]. own.
Qed.

Lemma delete_cancel_inv op id : taken (deletes s) id -> (forall j, rows s !! id = Some j -> status j <> Running) ->
  inv (cancel_task id (set_reason <[id := None]> (set_deletes <[op := (id, Gathering)]> s))).
Proof.
  intros Ht Hr. apply (inv_one s _ id); [done|done| |elsewhere|].
  - eapply Nat.le_trans; [|done]. eapply slots_alter; [reflexivity|]. by intros [? ?].
  - destruct (Hl id) as [H1 H2 H3 H4 H5 H6]. destruct (H6 Ht) as [Hn Hu].
    destruct (tasks s !! id) as [t|] eqn:Et; own.
Qed.

Lemma delete_row_inv op id p : inv (publish p (set_rows (delete id) (set_deletes (delete op) s))).
Proof. start id. own. Qed.

Lemma delete_gone_inv op : inv (set_deletes (delete op) s).
Proof.
  split; [apply Hslots|]. intros id. eapply local_same; [apply Hl|].
  unfold same_job. fields_tac. repeat split; eauto using taken_delete.
Qed.

Lemma dirs_inv f : inv (set_dirs f s).
Proof. split; [apply Hslots|]. intros i. destruct (Hl i). by split. Qed.

Lemma cancel_inv id : id ∈ registered s -> inv (cancel_task id (remember id s)).
Proof.
  intros Hr. destruct (Hl id) as [H1 H2 H3 H4 H5 H6]. unfold remember.
  assert (Hn : submitting s !! id = None) by (destruct (submitting s !! id) as [b|]; [destruct (H4 _ eq_refl); tauto|done]).
  assert (Hu : id ∈ used s) by (destruct (decide (id ∈ used s)) as [|Hu]; [done|tauto]).
  apply (inv_one s _ id); [done|done| | |].
  - eapply Nat.le_trans; [|done]. eapply slots_alter; [reflexivity|]. by intros [? ?].
  - destruct (cancel_reason s !! id) eqn:Ec; intros id' Hne; unfold same_job; fields_tac;
      rewrite ?Ec, ?lookup_alter_ne, ?lookup_insert_ne by congruence; tauto.
  - destruct (cancel_reason s !! id) eqn:Ec, (tasks s !! id) as [t|] eqn:Et; own;
      by rewrite lookup_insert_eq in H.
Qed.
End Steps.

Lemma cancel_all_inv ids s : inv s -> (forall i, i ∈ ids -> i ∈ registered s) ->
  inv (cancel_all ids s).
Proof.
  revert s. induction ids as [|i ids IH]; intros s Hs Hids; [done|].
  apply IH; [|intros i' Hi'; apply (Hids i'); by right]. apply cancel_inv; [done|]. apply (Hids i). by left.
Qed.

Lemma shutdown_inv s : inv s -> inv (shutdown s).
Proof.
  intros [H Hl]. apply cancel_all_inv; [|intros i; apply elem_of_elements].
  split; [done|]. intros i. destruct (Hl i). by split.
Qed.

Lemma restore_inv now s : dom (rows s) ⊆ used s -> inv (restore now s).
Proof.
  intros Hu. split.
  { transitivity 0%nat; [|lia]. unfold slots_used, slot_set. cbn. by rewrite map_filter_empty, dom_empty_L, size_empty. }
  intros id. split; cbn; rewrite ?lookup_empty; try done.
  - intros j. rewrite lookup_fmap. intros [j0 [_ ->]]%fmap_Some. unfold restored_row. by destruct (status j0) eqn:E; cbn; rewrite ?E.
  - intros Hn. repeat split; [|apply not_elem_of_empty]. rewrite lookup_fmap. destruct (rows s !! id) eqn:E; [|done].
    destruct Hn. apply Hu, elem_of_dom. eauto.
  - by intros (op & ph & Hop & _).
Qed.

(** Rows belong to ids that were given. *)
Lemma rows_used s : inv s -> dom (rows s) ⊆ used s.
Proof.
  intros [_ Hl] id [j Hj]%elem_of_dom. destruct (decide (id ∈ used s)) as [|Hu]; [done|].
  destruct (l_fresh _ _ (Hl id) Hu). congruence.
Qed.

Lemma row_running_spec s id : row_running s id = false -> forall j, rows s !! id = Some j -> status j <> Running.
Proof. unfold row_running. intros H j E. rewrite E in H. by apply bool_decide_eq_false in H. Qed.

Lemma acquire_slots s id : tasks s !! id = Some (mkTask Waiting false) -> (slots_used s < max_concurrent s)%nat ->
  (slots_used (set_phase id Starting s) <= max_concurrent s)%nat.
Proof.
  intros Ht Hlt. eapply Nat.le_trans; [|apply Hlt]. unfold slots_used.
  replace (S (size (slot_set s))) with (size ({[id]} ∪ slot_set s)).
  - apply subseteq_size, elem_of_subseteq. intros i (t & Hi & Hh)%elem_of_slot_set. revert Hi. fields_tac. rewrite elem_of_union.
    destruct (decide (i = id)) as [->|Hne]; [left; by apply elem_of_singleton|].
    rewrite lookup_alter_ne by done. right. apply elem_of_slot_set. eauto.
  - rewrite size_union, size_singleton; [done|]. apply disjoint_singleton_l. intros (t & Hi & Hh)%elem_of_slot_set.
    rewrite Ht in Hi. by simplify_eq.
Qed.

Lemma keep_slots s id p q : tasks s !! id = Some (mkTask p false) -> holds_slot (mkTask p false) = true ->
  (slots_used (set_phase id q s) <= slots_used s)%nat.
Proof. intros Ht Hp. eapply slots_alter; [reflexivity|]. intros t. rewrite Ht. by intros [= <-]. Qed.

Ltac guards := repeat match goal with
  | H : (if ?b then Some _ else None) = Some _ |- _ => destruct b eqn:?; [injection H as <-|done]
  | H : (if ?b then None else Some _) = Some _ |- _ => destruct b eqn:?; [done|injection H as <-]
  | H : match ?x with _ => _ end = Some _ |- _ => destruct x eqn:?; try done
  | H : Some _ = Some _ |- _ => injection H as <-
  | H : in_phase _ _ _ = true |- _ => apply in_phase_task in H as (? & ? & ?)
  | H : resumes _ _ _ = true |- _ => apply resumes_task in H
  | H : (_ && _)%bool = true |- _ => apply andb_true_iff in H as [? ?]
  | H : (_ || _)%bool = false |- _ => apply orb_false_iff in H as [? ?]
  | H : bool_decide _ = true |- _ => apply bool_decide_eq_true in H
  | H : bool_decide _ = false |- _ => apply bool_decide_eq_false in H
  end; subst.

Lemma step_inv s e s' : inv s -> step s e = Some s' -> inv s'.
Proof.
  intros Hinv. destruct e; cbn [step]; intros H; guards.
  - by apply submit_begin_inv.
  - by apply submit_insert_inv.
  - eapply submit_fail_inv; eauto.
  - by apply submit_create_inv.
  - eapply submit_fail_inv; eauto.
  - eapply set_phase_inv; eauto; try done. apply acquire_slots; [done|]. by apply Nat.ltb_lt.
  - apply dirs_inv. eapply set_phase_inv; eauto; try done. eapply Nat.le_trans; [by eapply keep_slots|apply Hinv].
  - by apply begin_inv.
  - by apply report_inv.
  - apply end_update_inv; [done|eauto|done].
  - apply end_update_inv; [done|eauto|done].
  - unfold mark_cancelled. destruct (cancel_reason s !! id) as [[r|]|] eqn:Er.
    + apply end_update_inv; [done|eauto|done].
    + apply ended_inv; [done|eauto|]. apply (l_silent _ _ (proj2 Hinv id) Er).
    + apply end_update_inv; [done|eauto|done].
  - done.
  - apply delete_quiet_inv; [done|]. by intros [].
  - by apply delete_take_inv.
  - apply delete_quiet_inv; [done|]. by intros [].
  - eapply delete_busy_inv; eauto. by left.
  - apply delete_cancel_inv; [done|eexists _, _; split; [done|by left]|by apply row_running_spec].
  - apply delete_quiet_inv; [done|]. by intros [].
  - apply dirs_inv, delete_quiet_inv; [done|]. by intros [].
  - by apply delete_row_inv.
  - by apply delete_gone_inv.
  - by apply shutdown_inv.
  - by apply restore_inv, rows_used.
Qed.

(** ** The life of a job *)

Lemma run_inv s es s' : inv s -> steps s es = Some s' -> inv s'.
Proof.
  revert s. induction es as [|e es IH]; intros s Hs; cbn [steps]; [by intros [= <-]|].
  destruct (step s e) as [s1|] eqn:E; [|done]. apply IH. by eapply step_inv.
Qed.

(** Any run starts with [restore] over the rows the last process left. *)
Lemma started_inv max rows0 dirs0 now es s :
  steps (new_runner max rows0 dirs0) (Restart now :: es) = Some s -> inv s.
Proof. cbn [steps step]. apply run_inv, restore_inv. done. Qed.

Lemma cancel_all_keeps ids s : max_concurrent (cancel_all ids s) = max_concurrent s /\ rows (cancel_all ids s) = rows s.
Proof. revert s. induction ids as [|i ids IH]; intros s; [done|]. exact (IH (cancel_task i (remember i s))). Qed.

Lemma update_max id now ch s : max_concurrent (update id now ch s) = max_concurrent s.
Proof. unfold update. by destruct (rows s !! id). Qed.

Lemma step_max s e s' : step s e = Some s' -> max_concurrent s' = max_concurrent s.
Proof.
  destruct e; cbn [step]; intros H; guards; try done; fields_tac; rewrite ?update_max; try done.
  - unfold mark_cancelled. destruct (match cancel_reason s !! id with Some r => r | None => _ end); [|done]. apply update_max.
  - exact (proj1 (cancel_all_keeps (elements (registered s)) (set_closing s))).
Qed.

(** The moves of a row that stays. *)
Definition moves (a b : Status) : Prop :=
  match a, b with
  | Queued, Running | Queued, Failed | Running, Running | Running, Done | Running, Failed => True
  | _, _ => False
  end.

Definition row_step (e : Event) (id : bytes) (j : Job) (o : option Job) : Prop :=
  match o with
  | None => exists op, e = DeleteRow op
  | Some j' => j' = j \/ (moves (status j) (status j') /\ kind j' = kind j /\ created_utc j' = created_utc j)
  end.

Lemma update_row_step e s id now ch id' j : rows s !! id' = Some j ->
  (forall j0, rows s !! id = Some j0 -> moves (status j0) (status (ch j0)) /\ kind (ch j0) = kind j0 /\ created_utc (ch j0) = created_utc j0) ->
  row_step e id' j (rows (update id now ch s) !! id').
Proof.
  intros Hj Hch. unfold update. destruct (rows s !! id) as [j0|] eqn:E; [|rewrite Hj; by left].
  destruct (decide (id' = id)) as [->|Hne]; fields_tac.
  - rewrite lookup_insert_eq. right. cbn. rewrite E in Hj. injection Hj as <-. by apply Hch.
  - rewrite lookup_insert_ne, Hj by done. by left.
Qed.

Lemma row_of_task s id t j : inv s -> tasks s !! id = Some t -> rows s !! id = Some j ->
  status j = if decide (phase t = InFunction) then Running else Queued.
Proof. intros [_ Hl]. apply Hl. Qed.

Lemma step_row s e s' id j : inv s -> step s e = Some s' -> rows s !! id = Some j -> row_step e id j (rows s' !! id).
Proof.
  intros Hinv. destruct e; cbn [step]; intros H Hj; guards; fields_tac;
    try (rewrite Hj; by left); try (apply update_row_step; [done|]; intros j0 Hj0; rewrite (row_of_task _ _ _ _ Hinv ltac:(eassumption) Hj0));
    rewrite ?decide_True by done; try done.
  - rewrite lookup_insert_ne; [rewrite Hj; by left|]. intros ->.
    destruct (l_submitting _ _ (proj2 Hinv id) false ltac:(done)) as (_ & _ & _ & Hr). by destruct (Hr _ Hj).
  - cbn. rewrite (row_of_task _ _ _ _ Hinv ltac:(eassumption) ltac:(eassumption)), decide_True by done. done.
  - unfold mark_cancelled. destruct (match cancel_reason s !! id0 with Some r => r | None => _ end); [|rewrite Hj; by left].
    apply update_row_step; [done|]. intros j0 Hj0. rewrite (row_of_task _ _ _ _ Hinv ltac:(eassumption) Hj0). by destruct decide.
  - destruct (decide (id = l)) as [->|Hne]; [rewrite lookup_delete_eq; by eexists|rewrite lookup_delete_ne, Hj by done; by left].
  - unfold shutdown. rewrite (proj2 (cancel_all_keeps _ _)). cbn [rows set_closing]. rewrite Hj. by left.
  - unfold restore. cbn [rows]. rewrite lookup_fmap, Hj. cbn. unfold restored_row. destruct (status j) eqn:E; cbn; rewrite ?E; by auto.
Qed.

Lemma steps_max s es s' : steps s es = Some s' -> max_concurrent s' = max_concurrent s.
Proof.
  revert s. induction es as [|e es IH]; intros s; cbn [steps]; [by intros [= <-]|].
  destruct (step s e) as [s1|] eqn:E; [|done]. intros H%IH. by rewrite H, (step_max _ _ _ E).
Qed.

(** C14.  From a restart over whatever rows the last process left, in any interleaving of
    submissions, job functions, cancellations, deletions, shutdowns and further restarts: no
    more than [max_concurrent] tasks are inside the semaphore; a row says running exactly while
    its task is in the job function; and every further step leaves a row as it is, moves it on -
    queued to running or failed, running to running, done or failed, never out of a finished
    status, its kind and creation time kept - or removes it for a [delete]. *)
Theorem jobs_lifecycle max rows0 dirs0 now es s e s' :
  steps (new_runner max rows0 dirs0) (Restart now :: es) = Some s -> step s e = Some s' ->
  (slots_used s <= max)%nat
  /\ forall id j, rows s !! id = Some j ->
       (status j = Running <-> in_phase s id InFunction = true)
       /\ row_step e id j (rows s' !! id).
Proof.
  intros Hs He. apply started_inv in Hs as Hinv. split; [rewrite <- (steps_max _ _ _ Hs : _ = max); apply Hinv|].
  intros id j Hj. split; [|by eapply step_row]. split.
  - intros Hr. destruct (l_running _ _ (proj2 Hinv id) _ Hj Hr) as (t & Ht & Hp).
    unfold in_phase. rewrite Ht. by apply bool_decide_eq_true.
  - intros (t & Ht & Hp)%in_phase_task. rewrite (row_of_task _ _ _ _ Hinv Ht Hj). by rewrite decide_True.
Qed.

(** ** Deleting *)

(** No two deletions of one job overlap, and none overlaps its submission. *)
Definition in_flight (s : Runner) (id : bytes) : bool :=
  existsb (fun kv : nat * (bytes * DeletePhase) => bool_decide (kv.2.1 = id)) (map_to_list (deletes s)).
Definition orderly (s : Runner) (e : Event) : bool :=
  match e with
  | DeleteBegin _ id => negb (in_flight s id) && bool_decide (submitting s !! id = None)
  | SubmitBegin id _ => negb (in_flight s id)
  | _ => true
  end.
Fixpoint orderly_run (s : Runner) (es : list Event) : bool :=
  match es with
  | [] => true
  | e :: es => orderly s e && match step s e with Some s => orderly_run s es | None => true end
  end.

Lemma in_flight_spec s id : in_flight s id = false -> forall op id' ph, deletes s !! op = Some (id', ph) -> id' <> id.
Proof.
  intros H op id' ph Hop ->. apply not_true_iff_false in H. apply H, existsb_exists. exists (op, (id, ph)).
  split; [by apply list_elem_of_In, elem_of_map_to_list|by apply bool_decide_eq_true].
Qed.

(** What holds of the deletions of an orderly run. *)
Record serial (s : Runner) : Prop := mkSerial {
  s_unique : forall op op' id ph ph', deletes s !! op = Some (id, ph) -> deletes s !! op' = Some (id, ph') -> op = op';
  s_idle : forall op id ph, deletes s !! op = Some (id, ph) -> submitting s !! id = None;
  s_registered : forall id t, tasks s !! id = Some t -> (id ∈ registered s) \/ taken (deletes s) id;
  s_ended : forall op id ph, deletes s !! op = Some (id, ph) -> ph = Removing \/ ph = Dropping -> tasks s !! id = None;
}.

(** Steps that touch no deletion. *)
Lemma serial_keep s s' : serial s -> deletes s' = deletes s ->
  (forall id, submitting s !! id = None -> submitting s' !! id = None \/ in_flight s id = false) ->
  (forall id t, tasks s' !! id = Some t -> (id ∈ registered s') \/ (is_Some (tasks s !! id) /\ ((id ∈ registered s) -> id ∈ registered s'))) ->
  (forall id, submitting s !! id = None -> tasks s !! id = None -> tasks s' !! id = None) -> serial s'.
Proof.
  intros [U I R E] Hd Hsub Hreg Ht. split; rewrite ?Hd; [done| | |].
  - intros op id ph Hop. destruct (Hsub id (I _ _ _ Hop)) as [|Hf]; [done|]. by destruct (in_flight_spec _ _ Hf _ _ _ Hop).
  - intros id t Hi. destruct (Hreg _ _ Hi) as [|[[t0 H0] Hr]]; [by left|]. destruct (R _ _ H0); auto.
  - intros op id ph Hop Hph. apply Ht; eauto.
Qed.

Lemma update_same id now ch s : tasks (update id now ch s) = tasks s /\ registered (update id now ch s) = registered s
  /\ deletes (update id now ch s) = deletes s /\ submitting (update id now ch s) = submitting s.
Proof. unfold update. by destruct (rows s !! id). Qed.

Lemma serial_plain s s' : serial s -> deletes s' = deletes s -> submitting s' = submitting s -> tasks s' = tasks s ->
  registered s' = registered s -> serial s'.
Proof.
  intros Hs Hd Hu Ht Hr. apply (serial_keep s); rewrite ?Hu, ?Ht, ?Hr; eauto 6.
Qed.

Lemma serial_ended s id : serial s -> serial (task_ended id s).
Proof.
  intros Hs. apply (serial_keep s); fields_tac; eauto.
  - intros id' t [Hne Ht]%lookup_delete_Some. right. rewrite Ht. split; [done|]. intros Hr. members. auto.
  - intros id' _ H. rewrite lookup_delete_None. auto.
Qed.

Lemma serial_alter s id f : serial s -> serial (set_tasks (alter f id) s).
Proof.
  intros Hs. apply (serial_keep s); fields_tac; eauto.
  - intros id' t. destruct (decide (id' = id)) as [->|Hne].
    + rewrite lookup_alter_eq. intros [t0 [-> _]]%fmap_Some. eauto.
    + rewrite lookup_alter_ne by done. intros ->. eauto.
  - intros id' _ H. destruct (decide (id' = id)) as [->|Hne]; [by rewrite lookup_alter_eq, H|by rewrite lookup_alter_ne].
Qed.

Lemma serial_update s id now ch : serial s -> serial (update id now ch s).
Proof. intros Hs. destruct (update_same id now ch s) as (E1 & E2 & E3 & E4). by apply (serial_plain s). Qed.

Lemma serial_reason s f : serial s -> serial (set_reason f s).
Proof. intros Hs. by apply (serial_plain s). Qed.

Lemma serial_cancel_all ids s : serial s -> serial (cancel_all ids s).
Proof.
  revert s. induction ids as [|i ids IH]; intros s Hs; [done|].
  apply (IH (cancel_task i (remember i s))), serial_alter, serial_reason, Hs.
Qed.

Lemma serial_submitted s id : serial s -> serial (set_submitting (delete id) s).
Proof.
  intros Hs. apply (serial_keep s); fields_tac; eauto.
  - intros id' H. left. rewrite lookup_delete_None. auto.
Qed.

(** The deletion [op] goes from one phase to another, the same task facts holding. *)
Lemma serial_advance s op id ph ph' : serial s -> deletes s !! op = Some (id, ph) ->
  (taking ph -> taking ph' \/ (id ∈ registered s) \/ tasks s !! id = None) ->
  (ph' = Removing \/ ph' = Dropping -> tasks s !! id = None) ->
  serial (set_deletes <[op := (id, ph')]> s).
Proof.
  intros [U I R E] Hop Hreg Hend. split; fields_tac.
  - intros o o' i p p' [[<- [= <- <-]]|[Hn Ho]]%lookup_insert_Some [[<- Heq]|[Hn' Ho']]%lookup_insert_Some; eauto.
    injection Heq as <- <-. eauto.
  - intros o i p [[<- [= <- <-]]|[Hn Ho]]%lookup_insert_Some; eauto.
  - intros i t Hi. destruct (R _ _ Hi) as [|(o & p & Ho & Hp)]; [by left|].
    destruct (decide (o = op)) as [->|Hne].
    + rewrite Hop in Ho. injection Ho as <- <-. destruct (Hreg Hp) as [Hp'|[|]]; [|by left|congruence].
      right. exists op, ph'. by rewrite lookup_insert_eq.
    + right. exists o, p. by rewrite lookup_insert_ne.
  - intros o i p [[<- [= <- <-]]|[Hn Ho]]%lookup_insert_Some; eauto.
Qed.

Lemma serial_done s op : serial s ->
  (forall id ph t, deletes s !! op = Some (id, ph) -> taking ph -> tasks s !! id = Some t -> id ∈ registered s) ->
  serial (set_deletes (delete op) s).
Proof.
  intros [U I R E] Hreg. split; fields_tac.
  - intros o o' i p p' [_ Ho]%lookup_delete_Some [_ Ho']%lookup_delete_Some. eauto.
  - intros o i p [_ Ho]%lookup_delete_Some. eauto.
  - intros i t Hi. destruct (R _ _ Hi) as [|(o & p & Ho & Hp)]; [by left|]. destruct (decide (o = op)) as [->|Hne]; [eauto|].
    right. exists o, p. by rewrite lookup_delete_ne.
  - intros o i p [_ Ho]%lookup_delete_Some. eauto.
Qed.

Lemma serial_register s id : serial s -> serial (set_registered (fun r => {[id]} ∪ r) s).
Proof.
  intros [U I R E]. split; fields_tac; [done|done| |done]. intros i t Hi. members. destruct (R _ _ Hi); auto.
Qed.

Lemma serial_unregister s id : serial s -> taken (deletes s) id -> serial (set_registered (fun r => r ∖ {[id]}) s).
Proof.
  intros [U I R E] Ht. split; fields_tac; [done|done| |done]. intros i t Hi. members.
  destruct (decide (i = id)) as [->|Hne]; [by right|]. destruct (R _ _ Hi); auto.
Qed.

Lemma serial_begin s op id ph : serial s -> deletes s !! op = None -> in_flight s id = false -> submitting s !! id = None ->
  ~ (ph = Removing \/ ph = Dropping) -> serial (set_deletes <[op := (id, ph)]> s).
Proof.
  intros [U I R E] Hop Hf Hs Hph. split; fields_tac.
  - intros o o' i p p' [[<- [= <- <-]]|[Hn Ho]]%lookup_insert_Some [[<- Heq]|[Hn' Ho']]%lookup_insert_Some; eauto.
    + by destruct (in_flight_spec _ _ Hf _ _ _ Ho').
    + injection Heq as <- <-. by destruct (in_flight_spec _ _ Hf _ _ _ Ho).
  - intros o i p [[<- [= <- <-]]|[Hn Ho]]%lookup_insert_Some; eauto.
  - intros i t Hi. destruct (R _ _ Hi) as [|(o & p & Ho & Hp)]; [by left|]. right. exists o, p.
    rewrite lookup_insert_ne; [done|congruence].
  - intros o i p [[<- [= <- <-]]|[Hn Ho]]%lookup_insert_Some; [done|eauto].
Qed.

Lemma serial_insert_submitting s id b : serial s -> is_Some (submitting s !! id) \/ in_flight s id = false ->
  serial (set_submitting <[id := b]> s).
Proof.
  intros Hs Hid. apply (serial_keep s); fields_tac; eauto. intros i Hi.
  destruct (decide (i = id)) as [->|Hne]; [|left; by rewrite lookup_insert_ne]. destruct Hid as [[? ?]|]; [congruence|by right].
Qed.

Lemma serial_create s id t : serial s -> is_Some (submitting s !! id) ->
  serial (set_registered (fun r => {[id]} ∪ r) (set_tasks <[id := t]> (set_submitting (delete id) s))).
Proof.
  intros Hs [b Hb]. apply (serial_keep s); fields_tac; eauto.
  - intros i Hi. left. rewrite lookup_delete_None. auto.
  - intros i t0 [[<- _]|[Hne Ht]]%lookup_insert_Some; members; eauto.
  - intros i Hi Ht. rewrite lookup_insert_ne; [done|congruence].
Qed.

Lemma step_serial s e s' : serial s -> orderly s e = true -> step s e = Some s' -> serial s'.
Proof.
  intros Hs Ho H. destruct e; cbn [step orderly] in *; guards.
  - apply (serial_plain (set_submitting <[id := false]> s)); try done. apply serial_insert_submitting; [done|].
    right. by apply negb_true_iff.
  - apply (serial_plain (set_submitting <[id := true]> s)); try done. apply serial_insert_submitting; [done|]. left. eauto.
  - apply (serial_plain (set_submitting (delete id) s)); try done. by apply serial_submitted.
  - refine (serial_plain _ _ (serial_create s id _ Hs _) _ _ _ _); eauto.
  - apply (serial_plain (set_submitting (delete id) s)); try done. by apply serial_submitted.
  - by apply serial_alter.
  - apply (serial_plain (set_phase id Made s)); try done. by apply serial_alter.
  - by apply serial_update, serial_alter.
  - by apply serial_update.
  - by apply serial_ended, serial_update.
  - by apply serial_ended, serial_update.
  - apply serial_ended. unfold mark_cancelled. destruct (match cancel_reason s !! id with Some r => r | None => _ end); [|done].
    by apply serial_update.
  - done.
  - apply serial_begin; try done; [by apply negb_true_iff|by intros []].
  - change (serial (set_registered (fun r => r ∖ {[l]}) (set_deletes <[op := (l, Taken)]> s))). apply serial_unregister.
    + eapply serial_advance; eauto; by intros [].
    + exists op, Taken. split; [apply lookup_insert_eq|by left].
  - eapply serial_advance; eauto; [by intros []|]. intros _. destruct (tasks s !! l) as [t|] eqn:Et; [|done].
    destruct (s_registered _ Hs _ _ Et) as [|(o & p & Hop & Hp)]; [done|].
    assert (o = op) as -> by (eapply s_unique; eauto). rewrite Heqo in Hop. injection Hop as <-. by destruct Hp.
  - apply serial_done; [by apply serial_register|]. fields_tac. rewrite Heqo. intros i p t [= <- <-] _ _. members. by left.
  - apply serial_alter, serial_reason. eapply serial_advance; eauto; [intros _; left; by right|by intros []].
  - eapply serial_advance; eauto.
  - apply (serial_plain (set_deletes <[op := (l, Dropping)]> s)); try done. eapply serial_advance; eauto; [by intros []|].
    intros _. eapply s_ended; eauto.
  - apply (serial_plain (set_deletes (delete op) s)); try done. apply serial_done; [done|]. rewrite Heqo. intros i p t [= <- <-]. by intros [].
  - apply serial_done; [done|]. rewrite Heqo. intros i p t [= <- <-]. by intros [].
  - unfold shutdown. apply serial_cancel_all. by apply (serial_plain s).
  - split; cbn; by intros *; rewrite lookup_empty.
Qed.

(** A task has a row, and only [submit] makes tasks. *)
Definition backed (s : Runner) : Prop := forall id, is_Some (tasks s !! id) -> is_Some (rows s !! id).

Lemma cancel_all_tasks ids s id : is_Some (tasks (cancel_all ids s) !! id) -> is_Some (tasks s !! id).
Proof.
  revert s. induction ids as [|i ids IH]; intros s; [done|]. intros H. apply (IH (cancel_task i (remember i s))) in H. revert H.
  unfold remember. fields_tac. by rewrite lookup_alter_is_Some.
Qed.

Lemma step_task s e s' id : step s e = Some s' -> is_Some (tasks s' !! id) ->
  is_Some (tasks s !! id) \/ (submitting s !! id = Some true /\ is_Some (rows s' !! id)).
Proof.
  destruct e; cbn [step]; intros H; guards; fields_tac; rewrite ?(proj1 (update_same _ _ _ _)), ?lookup_alter_is_Some; fields_tac;
    rewrite ?lookup_alter_is_Some; auto.
  - intros [t [[<- _]|[Hne Ht]]%lookup_insert_Some]; eauto.
  - intros [t0 [_ Ht]%lookup_delete_Some]. eauto.
  - intros [t0 [_ Ht]%lookup_delete_Some]. eauto.
  - intros [t0 [_ Ht]%lookup_delete_Some]. unfold mark_cancelled in Ht.
    destruct (match cancel_reason s !! id0 with Some r => r | None => _ end); [rewrite (proj1 (update_same _ _ _ _)) in Ht|]; eauto.
  - intros H%cancel_all_tasks. by left.
  - cbn. rewrite lookup_empty. by intros [].
Qed.

Lemma step_backed s e s' : inv s -> serial s -> backed s -> step s e = Some s' -> backed s'.
Proof.
  intros Hi Hs Hb H id Ht. destruct (step_task _ _ _ _ H Ht) as [Ht0|[_ Hr]]; [|done].
  destruct (Hb _ Ht0) as [j Hj]. pose proof (step_row _ _ _ _ _ Hi H Hj) as Hrow.
  destruct (rows s' !! id) as [j'|] eqn:E; [eauto|]. destruct Hrow as [op ->]. cbn [step] in H. guards.
  - revert E. fields_tac. destruct (decide (id = l)) as [->|Hne]; [|rewrite lookup_delete_ne by done; congruence].
    intros _. rewrite (s_ended _ Hs _ _ _ Heqo) in Ht0; [by destruct Ht0|by right].
  - cbn in E. congruence.
Qed.

Lemma run_serial s es s' : inv s -> serial s -> backed s -> orderly_run s es = true -> steps s es = Some s' ->
  inv s' /\ serial s' /\ backed s'.
Proof.
  revert s. induction es as [|e es IH]; intros s Hi Hs Hb; cbn [steps orderly_run]; [by intros _ [= <-]|].
  intros [Ho Hr]%andb_true_iff. destruct (step s e) as [s1|] eqn:E; [|done].
  apply IH; [by eapply step_inv|by eapply step_serial|by eapply step_backed|done].
Qed.

(** C15.  When deletions of one job do not overlap each other or its submission, a
    deletion never touches work in progress: the second look at the status never cancels a
    task that is in its job function, and when the row is removed no task of the job is left,
    so the removal takes exactly the row of a job that is not running, and its id is announced. *)
Theorem delete_spares_running max rows0 dirs0 now es s op id ph s' :
  orderly_run (new_runner max rows0 dirs0) (Restart now :: es) = true ->
  steps (new_runner max rows0 dirs0) (Restart now :: es) = Some s ->
  deletes s !! op = Some (id, ph) ->
  match ph with
  | Taken => step s (DeleteRecheck op) = Some s' -> in_phase s id InFunction = true -> tasks s' = tasks s
  | Dropping => step s (DeleteRow op) = Some s' ->
      tasks s !! id = None /\ rows s' = delete id (rows s)
      /\ published s' = published s ++ (match rows s !! id with Some _ => [Deleted id] | None => [] end)
      /\ forall j, rows s !! id = Some j -> status j <> Running
  | _ => True
  end.
Proof.
  intros Ho Hr Hop. assert (Hs0 : serial (new_runner max rows0 dirs0)) by (split; cbn; by intros *; rewrite lookup_empty).
  assert (Hs : inv s /\ serial s /\ backed s).
  { cbn [orderly_run steps step orderly] in *. apply andb_true_iff in Ho as [_ Ho].
    apply (run_serial (restore now (new_runner max rows0 dirs0)) es); [by apply restore_inv|by eapply (step_serial _ (Restart now))| |done|done].
    intros i. cbn. rewrite lookup_empty. by intros []. }
  destruct Hs as (Hi & Hs & Hb). destruct ph; [done| |done|done|]; cbn [step]; rewrite Hop.
  - intros H (t & Ht & Hp)%in_phase_task. unfold row_running in H.
    destruct (rows s !! id) as [j|] eqn:Ej.
    + rewrite (row_of_task _ _ _ _ Hi Ht Ej), decide_True in H by done. cbn in H. by injection H as <-.
    + destruct (Hb id) as [? ?]; [eauto|congruence].
  - intros H. assert (Ht : tasks s !! id = None) by (eapply s_ended; eauto).
    assert (Hn : forall j, rows s !! id = Some j -> status j <> Running).
    { intros j Hj Hr'. destruct (l_running _ _ (proj2 Hi id) _ Hj Hr') as (t & Ht' & _). congruence. }
    cbn [rows set_deletes] in H. destruct (rows s !! id) as [j|] eqn:Ej; injection H as <-; fields_tac.
    + done.
    + rewrite app_nil_r, delete_id by done. done.
Qed.

(** ** At concrete runs *)

Definition a_start : list Event :=
  [Restart 0; SubmitBegin (str "a") (str "export"); SubmitInsert (str "a") 1 None; SubmitCreate (str "a")].
Definition a_running : list Event := a_start ++ [Acquire (str "a"); MakeDir (str "a"); Begin (str "a") 2].

Definition state_after (es : list Event) : Runner :=
  match steps (new_runner 1 ∅ ∅) es with Some s => s | None => new_runner 0 ∅ ∅ end.

Lemma jobs_lifecycle_witness :
  steps (new_runner 1 ∅ ∅) a_running = Some (state_after a_running)
  /\ (slots_used (state_after a_running) <= 1)%nat
  /\ row_running (state_after a_running) (str "a") = true.
Proof.
  assert (H : steps (new_runner 1 ∅ ∅) a_running = Some (state_after a_running)) by (vm_compute; reflexivity).
  split; [exact H|]. split; [|vm_compute; reflexivity].
  apply (proj1 (jobs_lifecycle 1 ∅ ∅ 0 _ _ (Report (str "a") 3 500 None)
           (state_after (a_running ++ [Report (str "a") 3 500 None])) H ltac:(vm_compute; reflexivity))).
Defined.

(** A queued job deleted: its task is cancelled before it starts, then its row goes. *)
Definition a_deleted : list Event :=
  a_start ++ [DeleteBegin 0 (str "a"); DeleteTake 0; DeleteRecheck 0; CancelLands (str "a") 3; DeleteGathered 0; DeleteTree 0].

Lemma delete_spares_running_witness :
  orderly_run (new_runner 1 ∅ ∅) a_deleted = true
  /\ tasks (state_after a_deleted) !! str "a" = None
  /\ published (state_after (a_deleted ++ [DeleteRow 0])) = published (state_after a_deleted) ++ [Deleted (str "a")].
Proof.
  assert (Ho : orderly_run (new_runner 1 ∅ ∅) a_deleted = true) by (vm_compute; reflexivity).
  assert (H := delete_spares_running 1 ∅ ∅ 0 _ (state_after a_deleted) 0 (str "a") Dropping
    (state_after (a_deleted ++ [DeleteRow 0])) Ho ltac:(vm_compute; reflexivity) ltac:(vm_compute; reflexivity)
    ltac:(vm_compute; reflexivity)).
  split; [exact Ho|]. split; [apply H|]. destruct H as (_ & _ & H & _). rewrite H. f_equal.
Defined.

(** Two overlapping deletions: the second finds the task gone from [_tasks], does not look at
    the status again, and removes the directory and the row of a job that has started since. *)
Lemma overlapping_deletes_remove_running :
  let es := a_start ++ [DeleteBegin 0 (str "a"); DeleteTake 0; DeleteBegin 1 (str "a"); DeleteTake 1;
                        Acquire (str "a"); MakeDir (str "a"); Begin (str "a") 2; DeleteRecheck 0; DeleteTree 1; DeleteRow 1] in
  exists s, steps (new_runner 1 ∅ ∅) es = Some s /\ in_phase s (str "a") InFunction = true
    /\ rows s !! str "a" = None /\ str "a" ∉ dirs s.
Proof. eexists. split; [vm_compute; reflexivity|]. split; [done|]. split; [done|]. by apply (bool_decide_unpack _). Qed.

(** A submission that passed the [_closing] test before a shutdown runs its job after it. *)
Lemma submission_survives_shutdown :
  let es := [Restart 0; SubmitBegin (str "a") (str "export"); Shutdown; SubmitInsert (str "a") 1 None; SubmitCreate (str "a");
             Acquire (str "a"); MakeDir (str "a"); Begin (str "a") 2] in
  exists s, steps (new_runner 1 ∅ ∅) es = Some s /\ closing s = true /\ in_phase s (str "a") InFunction = true.
Proof. eexists. split; [vm_compute; reflexivity|]. split; reflexivity. Qed.
