(* ===== verification/VnParse.v ===== *)
(** * VectorNav frames decoded ([rover/drivers/vectornav/parse.py])

    A binary frame becomes a dict of groups, each a dict of fields; a [$VN...] line its command,
    register, fields and error. Every frame the framer lets through decodes, and each group
    holds exactly what its fields, unpacked from their own slices, say
    ([parse_binary_total]). *)

From Stdlib Require Import String.
From stdpp Require Import gmap.
From S2P Require Import Prelude.
From S2P Require Import PyBytes.
From S2P Require Import PyText.
From S2P Require Import PyFloat.
From S2P Require Import PyStruct.
From S2P Require Import Calendar.
From S2P Require Import Framing.
From S2P Require Import VnFields.

(** ** Tables *)

Definition GROUP_BITS : list (bytes * nat) :=
  [(str "common", 0); (str "time", 1); (str "imu", 2); (str "gps", 3); (str "attitude", 4); (str "ins", 5); (str "gps2", 6)]%nat.
Definition GROUP_NAMES (g : nat) : bytes := default [] (fst <$> List.find (fun kv => (kv.2 =? g)%nat) GROUP_BITS).

Definition GPS_NAMES : list bytes :=
  [str "utc"; str "tow"; str "week"; str "num_sats"; str "fix"; str "pos_lla"; str "pos_ecef"; str "vel_ned";
   str "vel_ecef"; str "pos_u"; str "vel_u"; str "time_u"; str "time_info"; str "dop"; str "sat_info"].

Definition FIELD_NAMES (g : nat) : list bytes :=
  match g with
  | 0%nat => [str "time_startup"; str "time_gps"; str "time_sync_in"; str "ypr"; str "quaternion"; str "angular_rate";
              str "position"; str "velocity"; str "accel"; str "imu"; str "mag_pres"; str "delta_theta";
              str "ins_status"; str "sync_in_cnt"; str "time_gps_pps"]
  | 1%nat => [str "time_startup"; str "time_gps"; str "gps_tow"; str "gps_week"; str "time_sync_in"; str "time_gps_pps";
              str "utc"; str "sync_in_cnt"; str "sync_out_cnt"; str "time_status"]
  | 2%nat => [str "imu_status"; str "uncomp_mag"; str "uncomp_accel"; str "uncomp_gyro"; str "temp"; str "pres";
              str "delta_theta"; str "delta_vel"; str "mag"; str "accel"; str "angular_rate"; str "sens_sat"]
  | 3%nat | 6%nat => GPS_NAMES
  | 4%nat => [str "vpe_status"; str "ypr"; str "quaternion"; str "dcm"; str "mag_ned"; str "accel_ned";
              str "linear_accel_body"; str "linear_accel_ned"; str "ypr_u"]
  | 5%nat => [str "ins_status"; str "pos_lla"; str "pos_ecef"; str "vel_body"; str "vel_ned"; str "vel_ecef"; str "mag_ecef";
              str "accel_ecef"; str "linear_accel_ecef"; str "pos_u"; str "vel_u"]
  | _ => []
  end.

Definition floats (n : nat) : list Code := replicate n F32.
Definition doubles (n : nat) : list Code := replicate n F64.

(** [_FORMATS], the plain numeric fields; groups 3 and 6 share a table. *)
Definition FORMATS (g bit : nat) : option (list Code) :=
  match g with
  | 0%nat =>
      match bit with
      | 0 | 1 | 2 | 14 => Some [U64] | 3 | 5 | 7 | 8 => Some (floats 3) | 4 => Some (floats 4) | 6 => Some (doubles 3)
      | 9 => Some (floats 6) | 10 => Some (floats 5) | 11 => Some (floats 7) | 12 => Some [U16] | 13 => Some [U32]
      | _ => None
      end%nat
  | 1%nat =>
      match bit with
      | 0 | 1 | 2 | 4 | 5 => Some [U64] | 3 => Some [U16] | 7 | 8 => Some [U32] | _ => None
      end%nat
  | 2%nat =>
      match bit with
      | 0 | 11 => Some [U16] | 1 | 2 | 3 | 7 | 8 | 9 | 10 => Some (floats 3) | 4 | 5 => Some (floats 1) | 6 => Some (floats 4)
      | _ => None
      end%nat
  | 3%nat | 6%nat =>
      match bit with
      | 1 => Some [U64] | 2 => Some [U16] | 3 | 4 => Some [U8] | 5 | 6 => Some (doubles 3) | 7 | 8 | 9 => Some (floats 3)
      | 10 | 11 => Some (floats 1) | 13 => Some (floats 7) | _ => None
      end%nat
  | 4%nat =>
      match bit with
      | 0 => Some [U16] | 1 | 4 | 5 | 6 | 7 | 8 => Some (floats 3) | 2 => Some (floats 4) | 3 => Some (floats 9) | _ => None
      end%nat
  | 5%nat =>
      match bit with
      | 0 => Some [U16] | 1 | 2 => Some (doubles 3) | 3 | 4 | 5 | 6 | 7 | 8 => Some (floats 3) | 9 | 10 => Some (floats 1)
      | _ => None
      end%nat
  | _ => None
  end.

(** ** Values *)

(** [VnInsStatus] and its properties. *)
Definition ins_mode (raw : Z) : Z := Z.land raw 0x3.
Definition flag (mask raw : Z) : bool := negb (Z.land raw mask =? 0).
Definition gps_fix : Z -> bool := flag 0x0004.
Definition time_error : Z -> bool := flag 0x0008.
Definition imu_error : Z -> bool := flag 0x0010.
Definition mag_pres_error : Z -> bool := flag 0x0020.
Definition gps_error : Z -> bool := flag 0x0040.
Definition gps_heading_ins : Z -> bool := flag 0x0100.
Definition gps_compass : Z -> bool := flag 0x0200.

Record VnSat := mkVnSat { sys : Z; sv_id : Z; sat_flags : Z; cno : Z; qi : Z; el : Z; az : Z }.
Definition healthy (s : VnSat) : bool := flag 0x01 (sat_flags s).
Definition almanac (s : VnSat) : bool := flag 0x02 (sat_flags s).
Definition ephemeris (s : VnSat) : bool := flag 0x04 (sat_flags s).
Definition diff_corr (s : VnSat) : bool := flag 0x08 (sat_flags s).
Definition sat_used (s : VnSat) : bool := flag 0x10 (sat_flags s).
Definition az_el_valid (s : VnSat) : bool := flag 0x20 (sat_flags s).
Definition used_rtk (s : VnSat) : bool := flag 0x40 (sat_flags s).

Inductive Value :=
| VNum (v : Z)                                 (* an int, or a float's bits, as the format says *)
| VTuple (vs : list Z)
| VInsStatus (raw : Z)
| VUtc (t : option Datetime)
| VTimeStatus (time_ok date_ok utc_time_valid : bool)
| VTimeInfo (status leap_secs : Z)
| VSats (sats : list VnSat)
| VBytes (b : bytes).

(** The numbers of a numeric format. *)
Definition as_num (c : Code) : val c -> Z :=
  match c return val c -> Z with
  | Flag => fun b => if b then 1 else 0
  | Str _ => fun _ => 0
  | _ => fun v => v
  end.
Fixpoint nums (fmt : list Code) : tuple fmt -> list Z :=
  match fmt return tuple fmt -> list Z with
  | [] => fun _ => []
  | c :: fmt => fun v => as_num c v.1 :: nums fmt v.2
  end.

(** [struct.unpack] and [struct.unpack_from]; [None] is [struct.error]. *)
Definition unpack_exact (fmt : list Code) (b : bytes) : option (tuple fmt) :=
  if (length b =? calcsize fmt)%nat then Some (unpack fmt b) else None.
Definition unpack_from (fmt : list Code) (b : bytes) (off : nat) : option (tuple fmt) :=
  if (off + calcsize fmt <=? length b)%nat then Some (unpack fmt (drop off b)) else None.

(** [_utc]: the year is counted from 2000; a date that does not exist is [None]. *)
Definition UTC_FMT := [I8; U8; U8; U8; U8; U8; U16].
Definition utc_ (chunk : bytes) : option (option Datetime) :=
  '[# y; mo; d; h; mi; s; ms] ← unpack_exact UTC_FMT chunk;
  Some ((fun t => t + ms * 1000) <$> (if ms * 1000 <=? 999999 then make_datetime (2000 + y) mo d h mi s else None)).

Definition SAT_FMT := [I8; U8; U8; U8; U8; I8; I16].
Definition sat_at (chunk : bytes) (i : nat) : option VnSat :=
  '[# s; id; fl; c; q; e; a] ← unpack_from SAT_FMT chunk (Z.to_nat SATINFO_HEADER + Z.to_nat SATINFO_RECORD * i);
  Some (mkVnSat s id fl c q e a).
Definition sat_info (chunk : bytes) : option (list VnSat) :=
  n ← head chunk; mapM (sat_at chunk) (seq 0 (Z.to_nat n)).

(** ** Binary frames *)

Definition field_name (g bit : nat) : bytes :=
  if (bit <? length (FIELD_NAMES g))%nat then nth bit (FIELD_NAMES g) [] else str "bit" ++ str_int (Z.of_nat bit).

Definition RAWMEAS_FMT := [F64; U16; U8].

(** What one field puts in its group's dict; [None] is an exception. *)
Definition field_values (g bit : nat) (chunk : bytes) : option (list (bytes * Value)) :=
  if (bit =? RAWMEAS_BIT)%nat then
    '[# tow; week; n] ← unpack_from RAWMEAS_FMT chunk 0;
    Some [(str "raw_meas", VBytes chunk); (str "raw_meas_count", VNum n); (str "raw_meas_tow", VNum tow);
          (str "raw_meas_week", VNum week)]
  else
    let name := field_name g bit in
    match FORMATS g bit with
    | Some fmt =>
        t ← unpack_exact fmt chunk;
        let values := nums fmt t in
        let value := match values with [v] => VNum v | _ => VTuple values end in
        let first := nth 0 values 0 in
        if bool_decide (name = str "ins_status") then Some [(name, VInsStatus first)]
        else if bool_decide (name = str "gps_tow") || (in_gps g && bool_decide (name = str "tow")) then
          Some [(name, value); (name ++ str "_s", VNum (fdiv_pos (of_int first) 1000000000))]
        else Some [(name, value)]
    | None =>
        if bool_decide (name = str "utc") then u ← utc_ chunk; Some [(name, VUtc u)]
        else if bool_decide (name = str "time_status") then
          c ← head chunk; Some [(name, VTimeStatus (flag 0x01 c) (flag 0x02 c) (flag 0x04 c))]
        else if bool_decide (name = str "time_info") then
          '[# status; leap] ← unpack_exact [U8; I8] chunk; Some [(name, VTimeInfo status leap)]
        else if bool_decide (name = str "sat_info") then sats ← sat_info chunk; Some [(name, VSats sats)]
        else Some [(name, VBytes chunk)]
    end.

Abbreviation Groups := (gmap bytes (gmap bytes Value)).

Fixpoint put_all (kvs : list (bytes * Value)) (m : gmap bytes Value) : gmap bytes Value :=
  match kvs with
  | [] => m
  | (k, v) :: kvs => put_all kvs (<[k := v]> m)
  end.

Definition chunk_of (raw : bytes) (f : Field) : bytes := slice (f_off f) (f_off f + Z.to_nat (f_size f)) raw.

(** The loop of [_parse_binary] over the layout. *)
Fixpoint parse_fields (raw : bytes) (l : Layout) (groups : Groups) : option Groups :=
  match l with
  | [] => Some groups
  | f :: l =>
      kvs ← field_values (f_group f) (f_bit f) (chunk_of raw f);
      let name := GROUP_NAMES (f_group f) in
      parse_fields raw l (<[name := put_all kvs (default ∅ (groups !! name))]> groups)
  end.

Definition parse_binary (raw : bytes) : option Groups := l ← field_layout raw; parse_fields raw l ∅.

(** ** ASCII lines *)

Record VnAscii := mkVnAscii { cmd : bytes; register : option Z; vn_fields : list bytes; error : option Z }.

(** [text.split(sep)] for a one-character separator. *)
Fixpoint split_byte (sep : Z) (s : bytes) : list bytes :=
  match s with
  | [] => [[]]
  | c :: s =>
      if c =? sep then [] :: split_byte sep s
      else match split_byte sep s with
           | w :: ws => (c :: w) :: ws
           | [] => [[c]]
           end
  end.

(** [int(text, base)] on a [str]: any of its spaces may surround the digits. *)
Definition int_of (base : Z) (text : bytes) : option Z :=
  py_int base (map (fun c => if is_space c then 32 else c) text).

Definition parse_ascii (raw : bytes) : option VnAscii :=
  let text := rstrip_of [13; 10] raw in
  if existsb (fun c => 128 <=? c) text then None (* decode("ascii") *)
  else
    let body := match rfind_byte 42 text with Some star => slice 1 star text | None => drop 1 text end in
    match split_byte 44 body with
    | [] => None
    | first :: rest =>
        let c := drop 2 first in
        if bool_decide (c = str "RRG") || bool_decide (c = str "WRG") then
          match rest with
          | [] => None
          | r :: rest => n ← int_of 10 r; Some (mkVnAscii c (Some n) rest None)
          end
        else if bool_decide (c = str "ERR") then
          match rest with
          | [] => None
          | r :: _ => e ← int_of 16 r; Some (mkVnAscii c None rest (Some e))
          end
        else Some (mkVnAscii c None rest None)
    end.

Inductive VnMsg := VnBinary (groups : Groups) | VnLine (line : VnAscii).

Definition vn_parse (raw : bytes) : option VnMsg :=
  if bool_decide (take 1 raw = [0xFA]) then VnBinary <$> parse_binary raw
  else if bool_decide (take 3 raw = str "$VN") then VnLine <$> parse_ascii raw
  else None.

(** ** Every framed message decodes *)

(** What [walk] guarantees of a field of the layout of [buf]. *)
Definition shaped (buf : bytes) (f : Field) : Prop :=
  (f_group f < 7)%nat
  /\ (((f_bit f < 15)%nat /\ nth (f_bit f) (FIELD_SIZES (f_group f)) 0 <> 0
       /\ f_size f = if in_gps (f_group f) && (f_bit f =? SATINFO_BIT)%nat
                     then SATINFO_HEADER + SATINFO_RECORD * buf.[f_off f]
                     else nth (f_bit f) (FIELD_SIZES (f_group f)) 0)
      \/ (f_bit f = RAWMEAS_BIT /\ exists m, 0 <= m /\ f_size f = RAWMEAS_HEADER + RAWMEAS_RECORD * m)).

Definition rank (f : Field) : nat := (17 * f_group f + f_bit f)%nat.
Definition before (f g : Field) : Prop := (rank f < rank g)%nat.

Lemma sorted_app (a b : Layout) : StronglySorted before a -> StronglySorted before b ->
  (forall f g, In f a -> In g b -> before f g) -> StronglySorted before (a ++ b).
Proof.
  induction 1 as [|f a Ha IH Hf]; intros Hb H; [done|]. cbn. constructor; [apply IH; [done|]; intros; apply H; [by right|done]|].
  apply Forall_app. split; [done|]. apply List.Forall_forall. intros g Hg. apply H; [by left|done].
Qed.

Lemma walk_fields_shape n m g mask buf pos end_ l : (n + m = 15)%nat -> (g < 7)%nat ->
  walk_fields (seq n m) g mask buf pos = Walked (end_, l) ->
  Forall (shaped buf) l /\ StronglySorted before l /\ Forall (fun f => f_group f = g /\ (n <= f_bit f < 15)%nat) l.
Proof.
  intros Hn Hg. revert n pos end_ l Hn. induction m as [|m IH]; intros n pos end_ l Hn; cbn [seq walk_fields].
  - intros [= <- <-]. repeat split; constructor.
  - assert (Hn' : (S n + m = 15)%nat) by lia. destruct (_ =? 0).
    + intros H. destruct (IH _ _ _ _ Hn' H) as (H1 & H2 & H3). split_and!; [done|done|].
      eapply list.Forall_impl; [exact H3|]. cbn. lia.
    + intros H. walked H. destruct r1 as [e l']. injection H as <- <-. cbn [fst snd] in *.
      destruct (IH _ _ _ _ Hn' W1) as (H1 & H2 & H3).
      assert (Hs : shaped buf (mkField g n pos r0)).
      { split; [done|]. left. cbn [f_bit f_group f_size f_off]. split; [lia|]. zbool. split; [done|].
        destruct (_ && _); [walked W0|]; by injection W0 as <-. }
      split_and!; [by constructor| |constructor; [cbn; lia|eapply list.Forall_impl; [exact H3|cbn; lia]]].
      constructor; [done|]. eapply list.Forall_impl; [exact H3|]. intros f [Hf ?]. unfold before, rank. cbn. rewrite Hf. lia.
Qed.

Lemma walk_rawmeas_shape g ext buf pos end_ l : bytes_ok buf -> (g < 7)%nat -> walk_rawmeas g ext buf pos = Walked (end_, l) ->
  Forall (shaped buf) l /\ StronglySorted before l /\ Forall (fun f => f_group f = g /\ f_bit f = 16%nat) l.
Proof.
  intros Hok Hg. unfold walk_rawmeas. destruct (_ =? 0); [intros [= <- <-]; repeat split; constructor|].
  intros H. walked H. injection H as <- <-. split_and!; [|by repeat constructor|by repeat constructor].
  constructor; [|constructor]. split; [done|]. right. split; [done|]. eexists. split; [|done].
  pose proof (bytes_ok_at buf (pos + RAWMEAS_COUNT_OFFSET) Hok) as Hb. unfold is_byte in Hb. lia.
Qed.

Lemma walk_groups_shape hs buf pos end_ l lo : bytes_ok buf -> StronglySorted lt (map (fun h => h.1.1) hs) ->
  Forall (fun h => (lo <= h.1.1 < 7)%nat) hs -> walk_groups hs buf pos = Walked (end_, l) ->
  Forall (shaped buf) l /\ StronglySorted before l /\ Forall (fun f => (lo <= f_group f)%nat /\ (f_bit f < 17)%nat) l.
Proof.
  intros Hok. revert pos end_ l lo. induction hs as [|[[g m] e] hs IH]; intros pos end_ l lo Hs Hlo; cbn [walk_groups].
  - intros [= <- <-]. repeat split; constructor.
  - intros H. walked H. destruct r as [p1 l1], r0 as [p2 l2], r1 as [p3 l3]. injection H as <- <-. cbn [fst snd map] in *.
    apply StronglySorted_inv in Hs as [Hs Hg]. apply list.Forall_cons in Hlo as [Hlo Hlo']. cbn in Hlo.
    assert (Hg7 : (g < 7)%nat) by lia.
    destruct (walk_fields_shape 0 15 _ _ _ _ _ _ eq_refl Hg7 W) as (A1 & A2 & A3).
    destruct (walk_rawmeas_shape _ _ _ _ _ _ Hok Hg7 W0) as (B1 & B2 & B3).
    assert (Hlo2 : Forall (fun h => (S g <= h.1.1 < 7)%nat) hs).
    { rewrite list.Forall_forall in Hlo'. rewrite List.Forall_map in Hg. rewrite list.Forall_forall in Hg.
      apply list.Forall_forall. intros h Hh. specialize (Hlo' _ Hh). specialize (Hg _ Hh). cbn in Hlo', Hg |- *. lia. }
    destruct (IH _ _ _ (S g) Hs Hlo2 W1) as (C1 & C2 & C3).
    rewrite List.Forall_forall in A3, B3, C3.
    split_and!.
    + apply Forall_app. split; [done|]. by apply Forall_app.
    + apply sorted_app; [done|apply sorted_app; [done..|]|].
      * intros f h Hf Hh. apply B3 in Hf. apply C3 in Hh. unfold before, rank. lia.
      * intros f h Hf Hh. apply A3 in Hf. apply in_app_iff in Hh as [Hh|Hh]; [apply B3 in Hh|apply C3 in Hh]; unfold before, rank; lia.
    + apply List.Forall_forall. intros f [Hf|[Hf|Hf]%in_app_iff]%in_app_iff; [apply A3 in Hf|apply B3 in Hf|apply C3 in Hf]; lia.
Qed.

Lemma walk_headers_sorted n m groups buf pos e hs : walk_headers (seq n m) groups buf pos = Walked (e, hs) ->
  StronglySorted lt (map (fun h => h.1.1) hs) /\ Forall (fun h => (n <= h.1.1 < n + m)%nat) hs.
Proof.
  revert n pos e hs. induction m as [|m IH]; intros n pos e hs; cbn [seq walk_headers].
  - intros [= <- <-]. split; constructor.
  - destruct (_ =? 0).
    + intros H%IH. destruct H as [H1 H2]. split; [done|]. eapply list.Forall_impl; [exact H2|]. cbn. lia.
    + intros H. walked H. destruct r0 as [p1 e1]. walked H. destruct r1 as [p2 h2]. injection H as <- <-.
      apply IH in W2 as [H1 H2]. cbn [map fst snd] in *. split.
      * constructor; [done|]. rewrite List.Forall_map. eapply list.Forall_impl; [exact H2|]. cbn. lia.
      * constructor; [cbn; lia|]. eapply list.Forall_impl; [exact H2|]. cbn. lia.
Qed.

Lemma layout_shape buf l : bytes_ok buf -> field_layout buf = Some l -> Forall (shaped buf) l /\ StronglySorted before l.
Proof.
  intros Hok. unfold field_layout, walk. intros H.
  destruct (_ ≫= _) as [| |[l0 t0]] eqn:E; try done. injection H as <-. walked E.
  destruct r1 as [p1 h], r2 as [p2 l2]. injection E as <- <-. cbn [fst snd] in *.
  apply (walk_headers_sorted 0 7) in W1 as [H1 H2].
  destruct (walk_groups_shape _ _ _ _ _ 0 Hok H1 ltac:(eapply list.Forall_impl; [exact H2|cbn; lia]) W2) as (A & B & _). done.
Qed.

(** *** One field *)

(** The keys a field writes. *)
Definition field_keys (g bit : nat) : list bytes :=
  if (bit =? RAWMEAS_BIT)%nat then [str "raw_meas"; str "raw_meas_count"; str "raw_meas_tow"; str "raw_meas_week"]
  else
    let name := field_name g bit in
    if bool_decide (name = str "gps_tow") || (in_gps g && bool_decide (name = str "tow")) then [name; name ++ str "_s"]
    else [name].

(** The tables agree: a format has the size of its field, and the special layouts theirs. *)
Definition row_ok (g bit : nat) : bool :=
  let size := nth bit (FIELD_SIZES g) 0 in
  let name := field_name g bit in
  (size =? 0) ||
  match FORMATS g bit with
  | Some fmt => (Z.of_nat (calcsize fmt) =? size) && negb (in_gps g && (bit =? SATINFO_BIT)%nat)
                && negb (bool_decide (name = str "ins_status") && bool_decide (name = str "gps_tow"))
  | None =>
      negb (bool_decide (name = str "gps_tow") || (in_gps g && bool_decide (name = str "tow")))
      && Bool.eqb (bool_decide (name = str "sat_info")) (in_gps g && (bit =? SATINFO_BIT)%nat)
      && (negb (bool_decide (name = str "utc")) || (size =? 8))
      && (negb (bool_decide (name = str "time_status")) || (size =? 1))
      && (negb (bool_decide (name = str "time_info")) || (size =? 2))
  end.

Lemma rows_ok g bit : (g < 7)%nat -> (bit < 15)%nat -> row_ok g bit = true.
Proof.
  intros Hg Hb. assert (H : forallb (fun g => forallb (row_ok g) (seq 0 15)) (seq 0 7) = true) by (vm_compute; reflexivity).
  rewrite forallb_forall in H. specialize (H g ltac:(apply in_seq; lia)). rewrite forallb_forall in H.
  apply H, in_seq. lia.
Qed.

Definition keys_of_group (g : nat) : list bytes := concat (map (field_keys g) (seq 0 15 ++ [RAWMEAS_BIT])).

Lemma group_keys_nodup g : (g < 7)%nat -> NoDup (keys_of_group g).
Proof.
  intros Hg. assert (H : forallb (fun g => bool_decide (NoDup (keys_of_group g))) (seq 0 7) = true) by (vm_compute; reflexivity).
  rewrite forallb_forall in H. specialize (H g ltac:(apply in_seq; lia)). by apply bool_decide_eq_true in H.
Qed.

Lemma GROUP_NAMES_inj g g' : (g < 7)%nat -> (g' < 7)%nat -> GROUP_NAMES g = GROUP_NAMES g' -> g = g'.
Proof.
  intros Hg Hg'.
  assert (H : forallb (fun p => negb (bool_decide (GROUP_NAMES p.1 = GROUP_NAMES p.2)) || (p.1 =? p.2)%nat)
                (list_prod (seq 0 7) (seq 0 7)) = true) by (vm_compute; reflexivity).
  rewrite forallb_forall in H. specialize (H (g, g') ltac:(apply in_prod; apply in_seq; lia)). cbn [fst snd] in H.
  intros E. rewrite (bool_decide_eq_true_2 _ E) in H. by apply Nat.eqb_eq in H.
Qed.

Lemma unpack_exact_ok fmt b : length b = calcsize fmt -> unpack_exact fmt b = Some (unpack fmt b).
Proof. intros H. unfold unpack_exact. by rewrite (proj2 (Nat.eqb_eq _ _) H). Qed.

Lemma sat_info_ok chunk n : is_byte n -> head chunk = Some n -> (2 + 8 * Z.to_nat n <= length chunk)%nat ->
  is_Some (sat_info chunk).
Proof.
  intros Hn Hh Hl. unfold sat_info. rewrite Hh. cbn [mbind option_bind]. apply mapM_is_Some_2, List.Forall_forall.
  intros i Hi%in_seq. unfold sat_at, unpack_from. cbn [calcsize code_size SAT_FMT].
  unfold compose. rewrite (proj2 (Nat.leb_le _ _)); [by eexists|]. unfold SATINFO_HEADER, SATINFO_RECORD. lia.
Qed.

(** A field of the layout decodes from its slice. *)
Lemma field_values_ok raw f : bytes_ok raw -> shaped raw f -> (f_off f + Z.to_nat (f_size f) <= length raw)%nat ->
  exists kvs, field_values (f_group f) (f_bit f) (chunk_of raw f) = Some kvs /\ map fst kvs = field_keys (f_group f) (f_bit f).
Proof.
  intros Hok [Hg Hs] Hl. assert (Hc : length (chunk_of raw f) = Z.to_nat (f_size f)) by (unfold chunk_of, slice; rewrite length_take, length_drop; lia).
  destruct Hs as [(Hb & Hnz & Hsz)|(Hb & m & Hm & Hsz)].
  - pose proof (rows_ok _ _ Hg Hb) as Hr. unfold row_ok in Hr. rewrite (proj2 (Z.eqb_neq _ _) Hnz) in Hr. cbn [orb] in Hr.
    unfold field_values, field_keys. replace (f_bit f =? RAWMEAS_BIT)%nat with false by (symmetry; apply Nat.eqb_neq; unfold RAWMEAS_BIT; lia).
    set (name := field_name _ _) in *.
    destruct (FORMATS (f_group f) (f_bit f)) as [fmt|].
    + apply andb_true_iff in Hr as [[Hr1 Hr2]%andb_true_iff Hr3]. apply negb_true_iff in Hr2, Hr3. rewrite Hr2 in Hsz. zbool.
      rewrite unpack_exact_ok by (rewrite Hc; lia). cbn [mbind option_bind].
      destruct (bool_decide (name = str "ins_status")) eqn:E1.
      * cbn [andb] in Hr3. rewrite Hr3. apply bool_decide_eq_true in E1. rewrite E1. rewrite bool_decide_eq_false_2 by done.
        rewrite andb_false_r. eexists. by split.
      * destruct (_ || _); eexists; by split.
    + repeat rewrite andb_true_iff in Hr. destruct Hr as ((((Hr1 & Hr2) & Hr3) & Hr4) & Hr5). apply negb_true_iff in Hr1.
      apply eqb_prop in Hr2. rewrite Hr1, <- Hr2 in *.
      destruct (bool_decide (name = str "utc")) eqn:E1.
      { apply bool_decide_eq_true in E1. rewrite E1 in *. rewrite bool_decide_eq_false_2 in Hsz by done. zbool.
        unfold utc_. rewrite unpack_exact_ok by (rewrite Hc; cbn; lia). by eexists. }
      destruct (bool_decide (name = str "time_status")) eqn:E2.
      { apply bool_decide_eq_true in E2. rewrite E2 in *. rewrite bool_decide_eq_false_2 in Hsz by done. zbool.
        destruct (chunk_of raw f); cbn in *; [lia|by eexists]. }
      destruct (bool_decide (name = str "time_info")) eqn:E3.
      { apply bool_decide_eq_true in E3. rewrite E3 in *. rewrite bool_decide_eq_false_2 in Hsz by done. zbool.
        rewrite unpack_exact_ok by (rewrite Hc; cbn; lia). by eexists. }
      destruct (bool_decide (name = str "sat_info")) eqn:E4; [|by eexists].
      pose proof (bytes_ok_at raw (f_off f) Hok) as Hn. assert (Hn' := Hn). unfold is_byte in Hn'. unfold SATINFO_HEADER, SATINFO_RECORD in Hsz.
      destruct (sat_info_ok (chunk_of raw f) raw.[f_off f] Hn) as [sats ->]; [|lia|by eexists].
      unfold chunk_of, slice, at_. rewrite nth_lookup. destruct (raw !! f_off f) as [x|] eqn:Ex.
      * rewrite (drop_S _ _ _ Ex). replace (_ - _)%nat with (S (f_off f + Z.to_nat (f_size f) - f_off f - 1)) by lia. done.
      * apply lookup_ge_None in Ex. lia.
  - unfold field_values, field_keys. rewrite (proj2 (Nat.eqb_eq _ _) Hb). unfold unpack_from. cbn [calcsize code_size RAWMEAS_FMT].
    rewrite (proj2 (Nat.leb_le _ _)); [by eexists|]. rewrite Hc, Hsz. unfold RAWMEAS_HEADER, RAWMEAS_RECORD. lia.
Qed.

(** *** The groups *)

Definition get2 (groups : Groups) (n k : bytes) : option Value := m ← groups !! n; m !! k.

Lemma put_all_other kvs m k : k ∉ map fst kvs -> put_all kvs m !! k = m !! k.
Proof.
  revert m. induction kvs as [|[k' v] kvs IH]; intros m Hk; [done|]. cbn [map fst] in Hk. apply not_elem_of_cons in Hk as [Hne Hk].
  cbn [put_all]. rewrite IH by done. by rewrite lookup_insert_ne.
Qed.

Lemma put_all_lookup kvs m k v : NoDup (map fst kvs) ->
  (put_all kvs m !! k = Some v <-> (k, v) ∈ kvs \/ ((k ∉ map fst kvs) /\ m !! k = Some v)).
Proof.
  revert m. induction kvs as [|[k' v'] kvs IH]; intros m Hnd.
  - split; [intros H; right; split; [apply not_elem_of_nil|done]|intros [H|[_ H]]; [by apply not_elem_of_nil in H|done]].
  - cbn [map fst] in *. apply list.NoDup_cons in Hnd as [Hk' Hnd]. cbn [put_all]. rewrite (IH _ Hnd), elem_of_cons, not_elem_of_cons. destruct (decide (k = k')) as [->|Hne].
    + rewrite lookup_insert_eq. split; [intros [H|[_ [= ->]]]; [by left; right|by left; left]|].
      intros [[[= ->]|H]|[[? _] _]]; [by right|by left|done].
    + rewrite lookup_insert_ne by done. split; [intros [H|[H ?]]; tauto|]. intros [[[= -> _]|H]|[[_ H] ?]]; [done|tauto|tauto].
Qed.

(** Fields of one layout write different keys. *)
Lemma keys_of_bit g bit k : (bit < 15)%nat \/ bit = RAWMEAS_BIT -> k ∈ field_keys g bit -> exists i,
  nth i (map (field_keys g) (seq 0 15 ++ [RAWMEAS_BIT])) [] = field_keys g bit /\ (i = bit \/ (i = 15%nat /\ bit = RAWMEAS_BIT)) /\ (i < 16)%nat.
Proof.
  intros [Hb| ->] _.
  - exists bit. split; [|split; [by left|lia]].
    rewrite map_app, app_nth1 by (rewrite length_map, length_seq; lia).
    rewrite (nth_indep _ _ (field_keys g 0)) by (rewrite length_map, length_seq; lia). rewrite map_nth, seq_nth by lia. done.
  - exists 15%nat. split; [|split; [by right|lia]]. done.
Qed.

Lemma concat_disjoint {A} (ls : list (list A)) i j x : NoDup (concat ls) -> (i < j)%nat -> x ∈ nth i ls [] -> x ∈ nth j ls [] -> False.
Proof.
  revert i j. induction ls as [|l ls IH]; intros i j Hnd Hij Hi Hj; [destruct i; by apply not_elem_of_nil in Hi|].
  cbn [concat] in Hnd. apply list.NoDup_app in Hnd as (_ & Hd & Hnd). destruct j as [|j]; [lia|]. destruct i as [|i]; cbn [nth] in *.
  - apply (Hd x Hi). apply list_elem_of_In, in_concat. destruct (nth_in_or_default j ls []) as [Hin|Heq].
    + exists (nth j ls []). split; [done|]. by apply list_elem_of_In.
    + rewrite Heq in Hj. by apply not_elem_of_nil in Hj.
  - apply (IH i j Hnd ltac:(lia) Hi Hj).
Qed.

Lemma field_keys_disjoint f f' k : (exists raw, shaped raw f) -> (exists raw, shaped raw f') -> before f f' ->
  GROUP_NAMES (f_group f) = GROUP_NAMES (f_group f') ->
  k ∈ field_keys (f_group f) (f_bit f) -> k ∈ field_keys (f_group f') (f_bit f') -> False.
Proof.
  intros Hf (raw' & Hg' & Hb') Hlt HG Hk Hk'.
  assert (H : (f_group f < 7)%nat /\ ((f_bit f < 15)%nat \/ f_bit f = RAWMEAS_BIT)).
  { destruct Hf as (raw & Hg & Hb); split; [done|tauto]. }
  destruct H as [Hg Hb]. apply GROUP_NAMES_inj in HG; [|done|done]. unfold before, rank in Hlt. rewrite <- HG in *.
  destruct (keys_of_bit _ _ _ Hb Hk) as (i & Hi & Hib & ?).
  destruct (keys_of_bit (f_group f) (f_bit f') k ltac:(tauto) Hk') as (j & Hj & Hjb & ?).
  apply (concat_disjoint _ i j k (group_keys_nodup _ Hg)); [unfold RAWMEAS_BIT in *; lia|by rewrite Hi|by rewrite Hj].
Qed.

(** What the loop adds to groups that hold none of the fields' keys yet. *)
Definition written (raw : bytes) (l : Layout) (n k : bytes) (v : Value) : Prop :=
  exists f kvs, f ∈ l /\ GROUP_NAMES (f_group f) = n
    /\ field_values (f_group f) (f_bit f) (chunk_of raw f) = Some kvs /\ (k, v) ∈ kvs.

Lemma nodup_nth_concat {A} (ls : list (list A)) i : NoDup (concat ls) -> NoDup (nth i ls []).
Proof.
  revert i. induction ls as [|l ls IH]; intros [|i] Hnd; cbn [nth concat] in *; try constructor;
    apply list.NoDup_app in Hnd as (H1 & _ & H2); auto.
Qed.

Lemma field_keys_nodup g bit : (g < 7)%nat -> (bit < 15)%nat \/ bit = RAWMEAS_BIT -> NoDup (field_keys g bit).
Proof.
  intros Hg Hb. destruct (field_keys g bit) as [|k ks] eqn:E; [constructor|].
  destruct (keys_of_bit g bit k Hb) as (i & Hi & _ & _); [rewrite E; by left|]. rewrite E in Hi. rewrite <- Hi.
  apply nodup_nth_concat, group_keys_nodup, Hg.
Qed.

Lemma parse_fields_spec raw l groups : bytes_ok raw ->
  Forall (fun f => shaped raw f /\ (f_off f + Z.to_nat (f_size f) <= length raw)%nat) l -> StronglySorted before l ->
  (forall f k, f ∈ l -> k ∈ field_keys (f_group f) (f_bit f) -> get2 groups (GROUP_NAMES (f_group f)) k = None) ->
  exists groups', parse_fields raw l groups = Some groups'
    /\ forall n k v, get2 groups' n k = Some v <-> get2 groups n k = Some v \/ written raw l n k v.
Proof.
  intros Hok. revert groups. induction l as [|f l IH]; intros groups Hf Hs Hfresh.
  { exists groups. split; [done|]. intros n k v. split; [by left|]. intros [|(f & kvs & H & _)]; [done|by apply not_elem_of_nil in H]. }
  apply list.Forall_cons in Hf as [[Hsh Hlen] Hf]. apply StronglySorted_inv in Hs as [Hs Hb].
  destruct (field_values_ok raw f Hok Hsh Hlen) as (kvs & Hv & Hkeys).
  assert (Hnd : NoDup (map fst kvs)) by (rewrite Hkeys; apply field_keys_nodup; destruct Hsh as [? ?]; tauto).
  set (name := GROUP_NAMES (f_group f)) in *.
  set (groups1 := <[name := put_all kvs (default ∅ (groups !! name))]> groups).
  assert (Hget : forall n k v, get2 groups1 n k = Some v <-> get2 groups n k = Some v \/ (n = name /\ (k, v) ∈ kvs)).
  { intros n k v. unfold get2, groups1. destruct (decide (n = name)) as [->|Hne].
    - rewrite lookup_insert_eq. cbn [mbind option_bind]. rewrite put_all_lookup by done.
      assert (Hd : default ∅ (groups !! name) !! k = get2 groups name k) by (unfold get2; by destruct (groups !! name)).
      rewrite Hd. split; [intros [H|[_ H]]; [by right|by left]|]. intros [H|[_ H]]; [|by left].
      right. split; [|done]. rewrite Hkeys. intros Hk. specialize (Hfresh f k ltac:(by left) Hk). fold name in Hfresh. unfold get2 in *. congruence.
    - rewrite lookup_insert_ne by done. split; [by left|]. intros [|[? _]]; done. }
  destruct (IH groups1) as (groups' & Hp & Hspec); [done|done| |].
  - intros f' k Hin Hk. destruct (get2 groups1 _ k) as [v|] eqn:E; [|done]. exfalso. apply Hget in E as [E|[HG E]].
    + rewrite (Hfresh f' k) in E; [done|by right|done].
    + rewrite list.Forall_forall in Hf. destruct (Hf _ Hin) as [Hsh' _]. rewrite List.Forall_forall in Hb.
      apply (field_keys_disjoint f f' k); [by exists raw|by exists raw|apply Hb; by apply list_elem_of_In|done| |done].
      rewrite <- Hkeys. apply list_elem_of_fmap. exists (k, v). done.
  - exists groups'. split; [cbn [parse_fields]; rewrite Hv; exact Hp|]. intros n k v. rewrite Hspec, Hget. split.
    + intros [[H|[-> H]]|(f' & kvs' & H & ?)]; [by left|right; exists f, kvs; split; [by left|done]|].
      right. exists f', kvs'. split; [by right|done].
    + intros [H|(f' & kvs' & H & HG & Hv' & Hin)]; [by left; left|]. apply elem_of_cons in H as [->|H].
      * left; right. rewrite Hv in Hv'. injection Hv' as <-. done.
      * right. by exists f', kvs'.
Qed.

Lemma tiles_within pos l end_ f : tiles pos l end_ -> f ∈ l -> (f_off f + Z.to_nat (f_size f) <= end_)%nat.
Proof.
  revert pos. induction l as [|g l IH]; intros pos H Hin; [by apply not_elem_of_nil in Hin|]. cbn [tiles] in H. destruct H as (Ho & _ & H).
  apply elem_of_cons in Hin as [->|Hin]; [|by eapply IH]. apply tiles_le in H. lia.
Qed.

(** Every binary message the framer lets through - its length the one [binary_length]
    announces - decodes: no field is short, no format disagrees with the layout's sizes. The
    result holds, under each group's name, exactly the entries its fields give when each is
    unpacked from its own slice of the frame; no entry overwrites another. *)
Theorem parse_binary_total raw l :
  bytes_ok raw -> take 1 raw = [0xFA] -> field_layout raw = Some l -> binary_length raw = Walked (length raw) ->
  exists groups, vn_parse raw = Some (VnBinary groups)
    /\ forall n k v, get2 groups n k = Some v <-> written raw l n k v.
Proof.
  intros Hok Hh Hl Hlen. destruct (field_layout_reach raw l _ Hok Hl Hlen) as (first & Ht & Hle).
  destruct (layout_shape _ _ Hok Hl) as [Hsh Hs].
  destruct (parse_fields_spec raw l ∅ Hok) as (groups & Hp & Hspec); [|done|done|].
  - apply list.Forall_forall. intros f Hf. rewrite list.Forall_forall in Hsh. split; [auto|].
    pose proof (tiles_within _ _ _ _ Ht Hf). lia.
  - exists groups. split.
    + unfold vn_parse, parse_binary. rewrite bool_decide_eq_true_2 by done. rewrite Hl. cbn [mbind option_bind]. by rewrite Hp.
    + intros n k v. rewrite Hspec. split; [intros [H|]; [done|done]|by right].
Qed.

(** A VN message: common group, yaw-pitch-roll and InsStatus. *)
Definition ypr_message : bytes :=
  [0xFA; 1; 8; 16] ++ [0; 0; 128; 63; 0; 0; 0; 64; 0; 0; 64; 64] ++ [6; 0] ++ [0; 0].

Lemma parse_binary_total_witness :
  exists groups, vn_parse ypr_message = Some (VnBinary groups)
    /\ get2 groups (str "common") (str "ins_status") = Some (VInsStatus 6).
Proof.
  destruct (parse_binary_total ypr_message [mkField 0 3 4 12; mkField 0 12 16 2]) as (groups & Hp & Hspec);
    [unfold ypr_message; cbn [app]; bytes_tac|reflexivity|vm_compute; reflexivity|vm_compute; reflexivity|].
  exists groups. split; [exact Hp|]. apply Hspec. exists (mkField 0 12 16 2), [(str "ins_status", VInsStatus 6)].
  split; [by right; left|]. split; [done|]. split; [vm_compute; reflexivity|by left].
Defined.
