(* ===== verification/VnRegisters.v ===== *)
(** * VectorNav registers ([rover/drivers/vectornav/registers.py])

    Reads, writes and commands over the ASCII protocol: the request line, the retry loop with
    its two kinds of error, and the encoding of the binary output registers 75-77. *)

From Stdlib Require Import String.
From stdpp Require Import gmap.
From S2P Require Import Prelude.
From S2P Require Import PyBytes.
From S2P Require Import PyText.
From S2P Require Import PyFloat.
From S2P Require Import Checksums.
From S2P Require Import Framing.
From S2P Require Import VnFields.
From S2P Require Import VnParse.
From S2P Require Import InsLink.

(** ** Registers *)

Definition REG_MODEL : Z := 1.
Definition REG_HW_REV : Z := 2.
Definition REG_SERIAL : Z := 3.
Definition REG_FIRMWARE : Z := 4.
Definition REG_ASYNC_TYPE : Z := 6.
Definition REG_REF_ROTATION : Z := 26.
Definition REG_VPE_BASIC : Z := 35.
Definition REG_ANTENNA_OFFSET : Z := 57.
Definition REG_INS_BASIC : Z := 67.
Definition REG_BINARY_OUTPUT (n : Z) : option Z := if (1 <=? n) && (n <=? 3) then Some (74 + n) else None.

Definition COMMANDS : list bytes := [str "WNV"; str "RST"; str "RFS"].

(** Errors about the link rather than the request's parameters. *)
Definition TRANSPORT_ERRORS : list Z := [2; 3; 4; 11; 255].
Definition transport (code : Z) : bool := bool_decide (code ∈ TRANSPORT_ERRORS).

(** ** Values *)

(** The shortest decimal [(d, k)], [d * 10^k], that reads back as the finite double. *)
Fixpoint shortest (digits : list Z) (m e x : Z) : Z * Z :=
  match digits with
  | [] => (0, 0)
  | n :: digits =>
      let '(d, k) := sig_digits n m e in
      if (of_decimal false d k =? x) || bool_decide (digits = []) then (d, k) else shortest digits m e x
  end.

Fixpoint strip_zeros (fuel : nat) (d k : Z) : Z * Z :=
  match fuel with
  | O => (d, k)
  | S fuel => if (d mod 10 =? 0) && negb (d =? 0) then strip_zeros fuel (d / 10) (k + 1) else (d, k)
  end.

Definition zeros (n : Z) : bytes := replicate (Z.to_nat n) 48.

(** [repr] of a positive double in the range printed without an exponent. *)
Definition repr_fixed (d k : Z) : bytes :=
  let ds := min_digits 10 d in
  let point := len ds + k in
  if point <=? 0 then str "0." ++ zeros (- point) ++ ds
  else if len ds <=? point then ds ++ zeros (point - len ds) ++ str ".0"
  else take (Z.to_nat point) ds ++ [46] ++ drop (Z.to_nat point) ds.

(** [f"{value:.6f}".rstrip("0").rstrip(".")] of the magnitude. *)
Definition fixed6 (m e : Z) : bytes :=
  let v := rne (m * pow2 e * 10 ^ 6) (pow2 (- e)) in
  let text := min_digits 10 (v / 10 ^ 6) ++ [46] ++ fixed_digits 10 6 (v mod 10 ^ 6) in
  rstrip_of [46] (rstrip_of [48] text).

(** A float field; [None] is the [ValueError] of a value that is not finite. *)
Definition fmt_float (x : Z) : option bytes :=
  match f64 x with
  | FFin neg m e =>
      let sign := if neg then [45] else [] in
      if m =? 0 then Some (sign ++ str "0.0")
      else
        let '(d, k) := shortest (map Z.of_nat (seq 1 17)) m e (double false (round_dyadic 53 11 m e)) in
        let '(d, k) := strip_zeros 17 d k in
        let point := len (min_digits 10 d) + k in
        if (-4 <? point) && (point <=? 16) then Some (sign ++ repr_fixed d k) else Some (sign ++ fixed6 m e)
  | _ => None
  end.

Inductive RegValue := RInt (v : Z) | RBool (b : bool) | RFloat (x : Z) | RText (s : bytes).

(** [fmt_value]. *)
Definition fmt_value (v : RegValue) : option bytes :=
  match v with
  | RBool b => Some (if b then str "1" else str "0")
  | RFloat x => fmt_float x
  | RInt v => Some (str_int v)
  | RText s => Some s
  end.

(** ** The exchange *)

(** [_is_reply]. *)
Definition is_reply (f : Frame) : option VnAscii :=
  if bool_decide (proto f = VN) && bool_decide (take 1 (raw f) = [36]) then
    match vn_parse (raw f) with Some (VnLine l) => Some l | _ => None end
  else None.

Definition reply_matches (match_cmd : bytes) (reg : option Z) (f : Frame) : bool :=
  match is_reply f with
  | None => false
  | Some r => match error r with
              | Some _ => true
              | None => bool_decide (cmd r = match_cmd) && bool_decide (register r = reg)
              end
  end.

(** The end of an exchange: the reply, [VnError], [TimeoutError], [ConnectionError]. *)
Inductive Exchange := Replied (r : VnAscii) | Refused (code : Z) | NoReply | Disconnected.

(** The loop of [_exchange]: the number of lines given to [request] (which writes none while the
    unit is not connected) and the end; [last] is the transport
    error of the attempt before, if that is how it ended. *)
Fixpoint exchange_from (last : option Z) (match_cmd : bytes) (reg : option Z) (n : nat) (link : list Window)
  : nat * Exchange :=
  match n with
  | O => (O, match last with Some code => Refused code | None => NoReply end)
  | S n =>
      match request (reply_matches match_cmd reg) (window link 0) with
      | LinkDown => (1%nat, Disconnected)
      | TimedOut => let r := exchange_from None match_cmd reg n (tail link) in (S r.1, r.2)
      | Answer f =>
          match is_reply f with
          | None => (1%nat, NoReply) (* excluded: the matcher took it *)
          | Some reply =>
              match error reply with
              | Some code =>
                  if transport code then let r := exchange_from (Some code) match_cmd reg n (tail link) in (S r.1, r.2)
                  else (1%nat, Refused code)
              | None => (1%nat, Replied reply)
              end
          end
      end
  end.

(** [_exchange]: the lines given to [request] and the end. *)
Definition exchange (body match_cmd : bytes) (reg : option Z) (retries : nat) (link : list Window) : list bytes * Exchange :=
  let r := exchange_from None match_cmd reg (Nat.max 1 retries) link in
  (replicate r.1 (finalize_ascii body false), r.2).

Definition read (reg : Z) (retries : nat) (link : list Window) : list bytes * Exchange :=
  exchange (str "VNRRG," ++ fmt_digits 10 2 reg) (str "RRG") (Some reg) retries link.

(** [None]: a field that does not format, before anything is written. *)
Definition write (reg : Z) (fields : list RegValue) (retries : nat) (link : list Window) : option (list bytes * Exchange) :=
  texts ← mapM fmt_value fields;
  Some (exchange (str "VNWRG," ++ fmt_digits 10 2 reg ++ concat (map (cons 44) texts)) (str "WRG") (Some reg) retries link).

Definition command (name : bytes) (retries : nat) (link : list Window) : option (list bytes * Exchange) :=
  if bool_decide (name ∈ COMMANDS) then Some (exchange (str "VN" ++ name) name None retries link) else None.

(** [await_binary]; [None] is [ConnectionError]. *)
Definition is_binary (f : Frame) : bool := bool_decide (proto f = VN) && bool_decide (take 1 (raw f) = [0xFA]).
Definition await_binary (w : Window) : option bool :=
  match request is_binary w with Answer _ => Some true | TimedOut => Some false | LinkDown => None end.

(** ** Registers 75-77 *)

Record BinaryOutputConf := mkConf { async_mode : Z; divisor : Z; fields : gmap bytes Z; gps_ext : option Z }.

(** [f"{v:X}"]. *)
Definition hex (v : Z) : bytes := if v <? 0 then 45 :: min_digits 16 (- v) else min_digits 16 v.

(** The words of the groups present, in bit order, and the groups word. *)
Fixpoint encode_groups (names : list (bytes * nat)) (c : BinaryOutputConf) : Z * list bytes :=
  match names with
  | [] => (0, [])
  | (name, g) :: names =>
      let '(groups, words) := encode_groups names c in
      match fields c !! name with
      | None => (groups, words)
      | Some m =>
          let mask := Z.land m (Z.lnot EXT_FLAG) in
          let ext := if (g =? 3)%nat then match gps_ext c with Some e => if e =? 0 then None else Some e | None => None end else None in
          (Z.lor (Z.shiftl 1 (Z.of_nat g)) groups,
           match ext with
           | Some e => hex (Z.lor mask EXT_FLAG) :: hex e :: words
           | None => hex mask :: words
           end)
      end
  end.

(** [encode_binary_output]; [None] is the [KeyError] of a group that is not one. *)
Definition encode_binary_output (c : BinaryOutputConf) : option (list bytes) :=
  if forallb (fun kv => bool_decide (kv.1 ∈ map fst GROUP_BITS)) (map_to_list (fields c)) then
    let '(groups, words) := encode_groups GROUP_BITS c in
    Some (str_int (async_mode c) :: str_int (divisor c) :: hex groups :: words)
  else None.

(** The loop of [decode_binary_output] over the groups; [None] is an [IndexError]. *)
Fixpoint decode_groups (gs : list nat) (groups : Z) (words : list Z) (fs : gmap bytes Z) (ext : option Z)
  : option (gmap bytes Z * option Z) :=
  match gs with
  | [] => Some (fs, ext)
  | g :: gs =>
      if Z.land groups (Z.shiftl 1 (Z.of_nat g)) =? 0 then decode_groups gs groups words fs ext
      else
        match words with
        | [] => None
        | mask :: words =>
            let fs' := <[GROUP_NAMES g := Z.land mask (Z.lnot EXT_FLAG)]> fs in
            if negb (Z.land mask EXT_FLAG =? 0) && in_gps g then
              match words with
              | [] => None
              | e :: words => decode_groups gs groups words fs' (if (g =? 3)%nat then Some e else ext)
              end
            else decode_groups gs groups words fs' ext
        end
  end.

Definition decode_binary_output (values : list bytes) : option BinaryOutputConf :=
  match values with
  | a :: d :: g :: ws =>
      a ← int_of 10 a; d ← int_of 10 d; g ← int_of 16 g; ws ← mapM (int_of 16) ws;
      r ← decode_groups (seq 0 7) g ws ∅ None;
      Some (mkConf a d r.1 r.2)
  | _ => None
  end.

(** ** Typed helpers *)

(** What a helper does with the fields of a reply, or how the exchange ended instead;
    [None] among the values is the exception of a field that does not parse. *)
Definition joined (e : Exchange) : Exchange + bytes :=
  match e with
  | Replied r => inr (match vn_fields r with [] => [] | f :: fs => f ++ concat (map (cons 44) fs) end)
  | e => inl e
  end.
Definition model (retries : nat) (link : list Window) : list bytes * (Exchange + bytes) :=
  let r := read REG_MODEL retries link in (r.1, joined r.2).
Definition hardware_revision (retries : nat) (link : list Window) : list bytes * (Exchange + bytes) :=
  let r := read REG_HW_REV retries link in (r.1, joined r.2).
Definition serial (retries : nat) (link : list Window) : list bytes * (Exchange + bytes) :=
  let r := read REG_SERIAL retries link in (r.1, joined r.2).
Definition firmware (retries : nat) (link : list Window) : list bytes * (Exchange + bytes) :=
  let r := read REG_FIRMWARE retries link in (r.1, joined r.2).

Definition set_async_output_type (value : Z) := write REG_ASYNC_TYPE [RInt value].
Definition write_binary_output (n : Z) (c : BinaryOutputConf) (retries : nat) (link : list Window)
  : option (list bytes * Exchange) :=
  out ← encode_binary_output c; reg ← REG_BINARY_OUTPUT n; write reg (map RText out) retries link.
Definition set_antenna_offset (x y z : Z) := write REG_ANTENNA_OFFSET [RFloat x; RFloat y; RFloat z].
Definition set_reference_frame_rotation (matrix : list Z) (retries : nat) (link : list Window)
  : option (list bytes * Exchange) :=
  if (length matrix =? 9)%nat then write REG_REF_ROTATION (map RFloat matrix) retries link else None.
Definition set_vpe_basic_control (enable heading_mode filtering_mode tuning_mode : Z) :=
  write REG_VPE_BASIC [RInt enable; RInt heading_mode; RInt filtering_mode; RInt tuning_mode].
Definition set_ins_basic_config (scenario : Z) (ahrs_aiding : bool) :=
  write REG_INS_BASIC [RInt scenario; RInt (if ahrs_aiding then 1 else 0); RInt 0; RInt 0].
Definition write_settings := command (str "WNV").

(** ** What an exchange ends in *)

Section Ends.
Context (match_cmd : bytes) (reg : option Z).

Let m := reply_matches match_cmd reg.

(** The first answer of a try is an error reply with this code. *)
Definition errs (w : Window) (code : Z) : Prop :=
  exists f r, request m w = Answer f /\ is_reply f = Some r /\ error r = Some code.

(** A try after which the loop goes on. *)
Definition passed (w : Window) : Prop := silent m w \/ exists code, errs w code /\ transport code = true.

Definition ends_as (e : Exchange) (w : Window) (last_try : Prop) : Prop :=
  match e with
  | Replied r => exists f, request m w = Answer f /\ is_reply f = Some r
                           /\ error r = None /\ cmd r = match_cmd /\ register r = reg
  | Refused code => errs w code /\ (transport code = true -> last_try)
  | NoReply => silent m w /\ last_try
  | Disconnected => request m w = LinkDown
  end.

Lemma window_tail link i : window (tail link) i = window link (S i).
Proof. destruct link; [by destruct i|done]. Qed.

Lemma matched_reply f : m f = true -> exists r, is_reply f = Some r
  /\ (error r = None -> cmd r = match_cmd /\ register r = reg).
Proof.
  unfold m, reply_matches. destruct (is_reply f) as [r|]; [|done]. intros H. exists r. split; [done|].
  intros He. rewrite He in H. apply andb_true_iff in H as [H1 H2]. by apply bool_decide_eq_true in H1, H2.
Qed.

Lemma exchange_from_spec last n link :
  let r := exchange_from last match_cmd reg n link in
  (r.1 <= n)%nat /\ (forall i, (S i < r.1)%nat -> passed (window link i))
  /\ match r.1 with
     | O => n = O /\ r.2 = match last with Some code => Refused code | None => NoReply end
     | S i => ends_as r.2 (window link i) (S i = n)
     end.
Proof.
  revert last link. induction n as [|n IH]; intros last link; cbn [exchange_from].
  { cbn [fst snd]. split; [lia|]. split; [intros; lia|done]. }
  (* the loop goes on after this try *)
  assert (Hnext : forall last', passed (window link 0) ->
    ends_as (match last' with Some code => Refused code | None => NoReply end) (window link 0) True ->
    let r := exchange_from last' match_cmd reg n (tail link) in
    (S r.1 <= S n)%nat /\ (forall i, (S i < S r.1)%nat -> passed (window link i))
    /\ ends_as r.2 (window link r.1) (S r.1 = S n)).
  { intros last' Hp He. specialize (IH last' (tail link)). cbv zeta in *. destruct IH as (H1 & H2 & H3).
    set (r := exchange_from last' match_cmd reg n (tail link)) in *. split; [lia|]. split.
    - intros [|i] Hi; [done|]. rewrite <- window_tail. apply H2. lia.
    - destruct r.1 as [|i] eqn:E.
      + destruct H3 as [-> ->]. destruct last'; cbn [ends_as] in *; tauto.
      + rewrite <- window_tail. destruct r.2; cbn [ends_as] in *; intuition lia. }
  pose proof (request_spec m (window link 0)) as Hq. fold m.
  destruct (request m (window link 0)) as [f| |] eqn:Er.
  - destruct Hq as (_ & Hm & _). destruct (matched_reply f Hm) as (r & Hr & Hn). rewrite Hr.
    assert (He : forall code, error r = Some code -> errs (window link 0) code) by (intros code Hc; by exists f, r).
    destruct (error r) as [code|] eqn:Ec.
    + destruct (transport code) eqn:Et.
      * apply (Hnext (Some code)); [right; exists code; auto|split; auto].
      * cbn [fst snd]. split; [lia|]. split; [intros; lia|]. split; [auto|congruence].
    + cbn [fst snd]. split; [lia|]. split; [intros; lia|]. exists f. tauto.
  - apply (Hnext None); [by left|by split].
  - cbn [fst snd]. split; [lia|]. split; [intros; lia|done].
Qed.
End Ends.

(** An exchange gives its line to the link once per try, between one and [max 1 retries]
    times, each try but the last having ended in silence or in a transport error. The last
    decides: the reply returned is the first matching line of its window, without an error
    code and for the same command and register; [VnError] carries the code the unit sent
    then - at any try for an error about the request, only at the last permitted try for a
    transport error; [TimeoutError] means the last permitted try was silent; a dropped link
    ends it at once. *)
Theorem exchange_ends body match_cmd reg retries link :
  let r := exchange body match_cmd reg retries link in
  exists n, r.1 = replicate (S n) (finalize_ascii body false) /\ (S n <= Nat.max 1 retries)%nat
    /\ (forall i, (i < n)%nat -> passed match_cmd reg (window link i))
    /\ ends_as match_cmd reg r.2 (window link n) (S n = Nat.max 1 retries).
Proof.
  cbv zeta. unfold exchange. pose proof (exchange_from_spec match_cmd reg None (Nat.max 1 retries) link) as H. cbv zeta in H.
  destruct (exchange_from _ _ _ _ _) as [[|n] e]; cbn [fst snd] in *; destruct H as (H1 & H2 & H3).
  - lia.
  - exists n. split; [done|]. split; [done|]. split; [|done]. intros i Hi. apply H2. lia.
Qed.

(** The module's comment has [VnError] "only when every attempt ended that way"; the loop
    remembers the last attempt only. *)
Lemma transport_error_after_silence :
  let err := mkFrame VN (finalize_ascii (str "VNERR,03") false) in
  (exchange (str "VNRRG,05") (str "RRG") (Some 5) 2 [mkWindow true [] false; mkWindow true [err] false]).2 = Refused 3.
Proof. vm_compute. reflexivity. Qed.

(** ** Registers 75-77 read back *)

Lemma digit_char_plain d : 0 <= d < 16 -> is_space (digit_char d) = false.
Proof.
  intros Hd. assert (H : forall i, (i < 16)%nat -> negb (is_space (digit_char (Z.of_nat i))) = true)
    by (apply (below_forallb 16 (fun i => negb (is_space (digit_char (Z.of_nat i))))); vm_compute; reflexivity).
  specialize (H (Z.to_nat d) ltac:(lia)). rewrite Z2Nat.id in H by lia. by apply negb_true_iff in H.
Qed.

Lemma int_of_min_digits base v : base_ok base -> 0 <= v -> int_of base (min_digits base v) = Some v.
Proof.
  intros Hb Hv. unfold int_of. replace (map _ _) with (min_digits base v); [by apply py_int_min_digits|].
  symmetry. rewrite <- (map_id (min_digits base v)) at 2. apply map_ext_in. intros c Hc.
  assert (H : Forall (fun c => is_space c = false) (min_digits base v)).
  { apply min_digits_chars; [done|done|]. intros d Hd. apply digit_char_plain. destruct Hb; lia. }
  rewrite List.Forall_forall in H. by rewrite (H c Hc).
Qed.

Lemma int_of_hex v : 0 <= v -> int_of 16 (hex v) = Some v.
Proof. intros Hv. unfold hex. rewrite (proj2 (Z.ltb_ge _ _)) by lia. apply int_of_min_digits; [by right|done]. Qed.

Lemma int_of_str v : 0 <= v -> int_of 10 (str_int v) = Some v.
Proof. intros Hv. unfold str_int. rewrite (proj2 (Z.ltb_ge _ _)) by lia. apply int_of_min_digits; [by left|done]. Qed.

(** What a written configuration reads back as: bit 15 of a mask is the extension flag, and an
    extension word belongs to the GPS group and is not 0. *)
Definition as_read (c : BinaryOutputConf) : BinaryOutputConf :=
  mkConf (async_mode c) (divisor c) ((fun m => Z.land m (Z.lnot EXT_FLAG)) <$> fields c)
    (match fields c !! str "gps", gps_ext c with Some _, Some e => if e =? 0 then None else Some e | _, _ => None end).

Definition conf_ok (c : BinaryOutputConf) : Prop :=
  0 <= async_mode c /\ 0 <= divisor c /\ (forall n m, fields c !! n = Some m -> 0 <= m)
  /\ (forall e, gps_ext c = Some e -> 0 <= e) /\ (forall n, is_Some (fields c !! n) -> n ∈ map fst GROUP_BITS).

(** The integers of the words [encode_groups] writes. *)
Fixpoint encode_ints (names : list (bytes * nat)) (c : BinaryOutputConf) : Z * list Z :=
  match names with
  | [] => (0, [])
  | (name, g) :: names =>
      let '(groups, words) := encode_ints names c in
      match fields c !! name with
      | None => (groups, words)
      | Some m =>
          let mask := Z.land m (Z.lnot EXT_FLAG) in
          let ext := if (g =? 3)%nat then match gps_ext c with Some e => if e =? 0 then None else Some e | None => None end else None in
          (Z.lor (Z.shiftl 1 (Z.of_nat g)) groups,
           match ext with Some e => Z.lor mask EXT_FLAG :: e :: words | None => mask :: words end)
      end
  end.

Lemma masked_nonneg m : 0 <= m -> 0 <= Z.land m (Z.lnot EXT_FLAG).
Proof. intros H. apply Z.land_nonneg. by left. Qed.

Lemma encode_groups_ints names c : conf_ok c ->
  (encode_groups names c).1 = (encode_ints names c).1 /\ 0 <= (encode_ints names c).1
  /\ mapM (int_of 16) (encode_groups names c).2 = Some (encode_ints names c).2.
Proof.
  intros (_ & _ & Hm & He & _). induction names as [|[n g] names IH]; [done|]. cbn [encode_groups encode_ints].
  destruct (encode_groups names c) as [gr ws], (encode_ints names c) as [gi wi]. cbn [fst snd] in IH. destruct IH as (-> & H0 & IH).
  destruct (fields c !! n) as [m|] eqn:Em; [|done]. cbn [fst snd]. split; [done|]. split.
  { apply Z.lor_nonneg. split; [apply Z.shiftl_nonneg; lia|done]. }
  pose proof (masked_nonneg m (Hm _ _ Em)) as Hk.
  assert (Hw : forall m' ws' wi', 0 <= m' -> mapM (int_of 16) ws' = Some wi' -> mapM (int_of 16) (hex m' :: ws') = Some (m' :: wi')).
  { intros m' ws' wi' H1 H2. cbn [mapM]. rewrite int_of_hex by done. cbn [mbind option_bind]. by rewrite H2. }
  destruct (if (g =? 3)%nat then _ else None) as [e|] eqn:Ee; [|by apply Hw].
  assert (0 <= e) by (destruct (g =? 3)%nat; [|done]; destruct (gps_ext c) as [e'|]; [|done]; specialize (He e' eq_refl); destruct (e' =? 0); [done|by injection Ee as <-]).
  apply Hw; [apply Z.lor_nonneg; by split|]. by apply Hw.
Qed.

Lemma bit_test x g : (Z.land x (Z.shiftl 1 (Z.of_nat g)) =? 0) = negb (Z.testbit x (Z.of_nat g)).
Proof. rewrite Z.shiftl_1_l. apply land_pow2_testbit. lia. Qed.

Lemma groups_testbit names c k : 0 <= k ->
  Z.testbit (encode_ints names c).1 k
  = existsb (fun ng : bytes * nat => (Z.of_nat ng.2 =? k) && bool_decide (is_Some (fields c !! ng.1))) names.
Proof.
  intros Hk. induction names as [|[n g] names IH]; cbn [encode_ints existsb]; [apply Z.bits_0|].
  destruct (encode_ints names c) as [gi wi]. cbn [fst snd] in *. destruct (fields c !! n) as [m|] eqn:Em.
  - rewrite bool_decide_eq_true_2, andb_true_r by done. cbn [fst]. rewrite Z.lor_spec, IH, Z.shiftl_1_l, Z.pow2_bits_eqb by lia. done.
  - rewrite bool_decide_eq_false_2, andb_false_r by (by intros []). done.
Qed.

Lemma groups_present c n g : (n, g) ∈ GROUP_BITS ->
  (Z.land (encode_ints GROUP_BITS c).1 (Z.shiftl 1 (Z.of_nat g)) =? 0) = negb (bool_decide (is_Some (fields c !! n))).
Proof.
  intros H. rewrite bit_test, groups_testbit by lia. f_equal. unfold GROUP_BITS in *.
  repeat (apply elem_of_cons in H as [[= -> ->]|H]; [cbn [existsb fst snd Z.of_nat]; by rewrite ?orb_false_r|]).
  by apply not_elem_of_nil in H.
Qed.

Lemma unmask_ext m : Z.land (Z.lor (Z.land m (Z.lnot EXT_FLAG)) EXT_FLAG) (Z.lnot EXT_FLAG) = Z.land m (Z.lnot EXT_FLAG)
  /\ (Z.land (Z.lor (Z.land m (Z.lnot EXT_FLAG)) EXT_FLAG) EXT_FLAG =? 0) = false
  /\ (Z.land (Z.land m (Z.lnot EXT_FLAG)) EXT_FLAG =? 0) = true
  /\ Z.land (Z.land m (Z.lnot EXT_FLAG)) (Z.lnot EXT_FLAG) = Z.land m (Z.lnot EXT_FLAG).
Proof.
  rewrite !Z.land_lor_distr_l, <- !Z.land_assoc, Z.land_diag, (Z.land_comm (Z.lnot _) EXT_FLAG).
  change (Z.land EXT_FLAG (Z.lnot EXT_FLAG)) with 0. rewrite Z.land_0_r, Z.lor_0_r, Z.lor_0_l, Z.land_diag. done.
Qed.

(** What the decoding loop has collected after some of the groups. *)
Definition collect (c : BinaryOutputConf) (acc : gmap bytes Z * option Z) (ng : bytes * nat) : gmap bytes Z * option Z :=
  match fields c !! ng.1 with
  | None => acc
  | Some m => (<[ng.1 := Z.land m (Z.lnot EXT_FLAG)]> acc.1,
               if (ng.2 =? 3)%nat then match gps_ext c with Some e => if e =? 0 then acc.2 else Some e | None => acc.2 end else acc.2)
  end.

Lemma decode_encoded c names groups fs ext :
  Forall (fun ng => GROUP_NAMES ng.2 = ng.1 /\ (Z.land groups (Z.shiftl 1 (Z.of_nat ng.2)) =? 0) = negb (bool_decide (is_Some (fields c !! ng.1)))) names ->
  decode_groups (map snd names) groups (encode_ints names c).2 fs ext = Some (foldl (collect c) (fs, ext) names).
Proof.
  revert fs ext. induction names as [|[n g] names IH]; intros fs ext H; [done|].
  apply list.Forall_cons in H as [[Hn Hb] H]. specialize (fun fs ext => IH fs ext H). cbn [map snd fst foldl encode_ints decode_groups] in *.
  rewrite Hb. destruct (encode_ints names c) as [gi wi]. cbn [snd] in IH. unfold collect at 2. cbn [fst snd].
  destruct (fields c !! n) as [m|] eqn:Em.
  - rewrite bool_decide_eq_true_2 by (by rewrite ?Em). cbn [negb]. destruct (unmask_ext m) as (U1 & U2 & U3 & U4).
    destruct (if (g =? 3)%nat then _ else None) as [e|] eqn:Ee; cbn [snd].
    + destruct (g =? 3)%nat eqn:Eg; [|done]. apply Nat.eqb_eq in Eg as ->. rewrite U2. cbn [negb andb].
      change (in_gps 3) with true. cbn iota. rewrite U1, Hn. destruct (gps_ext c) as [e'|]; [|done]. destruct (e' =? 0); [done|].
      injection Ee as <-. apply IH.
    + rewrite U3. cbn [negb andb]. rewrite U4, Hn, IH. do 3 f_equal.
      destruct (g =? 3)%nat; [|done]. destruct (gps_ext c) as [e'|]; [|done]. by destruct (e' =? 0).
  - rewrite bool_decide_eq_false_2 by (rewrite ?Em; by intros []). cbn [negb]. apply IH.
Qed.

Lemma collect_lookup c names acc n : NoDup (map fst names) ->
  (foldl (collect c) acc names).1 !! n
  = if bool_decide (n ∈ map fst names) then match fields c !! n with Some m => Some (Z.land m (Z.lnot EXT_FLAG)) | None => acc.1 !! n end
    else acc.1 !! n.
Proof.
  revert acc. induction names as [|[n' g] names IH]; intros acc Hnd; [done|]. cbn [map fst foldl] in *. apply list.NoDup_cons in Hnd as [Hn Hnd].
  rewrite (IH _ Hnd). unfold collect. cbn [fst snd]. destruct (decide (n = n')) as [->|Hne].
  - rewrite (bool_decide_eq_false_2 _ Hn), bool_decide_eq_true_2 by (by left).
    destruct (fields c !! n') as [m|]; [|done]. cbn [fst]. by rewrite lookup_insert_eq.
  - assert (E : (match fields c !! n' with Some m => (<[n':=Z.land m (Z.lnot EXT_FLAG)]> acc.1,
        if (g =? 3)%nat then match gps_ext c with Some e => if e =? 0 then acc.2 else Some e | None => acc.2 end else acc.2) | None => acc end).1 !! n = acc.1 !! n)
      by (destruct (fields c !! n'); [cbn [fst]; by rewrite lookup_insert_ne|done]).
    rewrite E. rewrite (bool_decide_ext (n ∈ n' :: map fst names) (n ∈ map fst names)); [done|]. rewrite elem_of_cons. tauto.
Qed.

Lemma collect_ext c names acc : forallb (fun ng => negb (ng.2 =? 3)%nat) names = true ->
  (foldl (collect c) acc names).2 = acc.2.
Proof.
  revert acc. induction names as [|[n g] names IH]; intros acc; [done|]. cbn [forallb foldl snd]. intros [Hg H]%andb_true_iff.
  rewrite (IH _ H). unfold collect. cbn [fst snd]. apply negb_true_iff in Hg. rewrite Hg. by destruct (fields c !! n).
Qed.

(** A binary output configuration written to a register reads back as itself, but
    for what the register cannot hold: bit 15 of a mask, and an extension word that is 0 or
    has no GPS group to go with. *)
Theorem binary_output_roundtrip c : conf_ok c ->
  exists out, encode_binary_output c = Some out /\ decode_binary_output out = Some (as_read c).
Proof.
  intros Hc. pose proof Hc as (Ha & Hd & Hm & He & Hn). unfold encode_binary_output.
  assert (Hall : forallb (fun kv => bool_decide (kv.1 ∈ map fst GROUP_BITS)) (map_to_list (fields c)) = true).
  { apply forallb_forall. intros [n m] Hin. apply bool_decide_eq_true, Hn. exists m. by apply elem_of_map_to_list, list_elem_of_In. }
  rewrite Hall. destruct (encode_groups_ints GROUP_BITS c Hc) as (Eg & H0 & Ew).
  destruct (encode_groups GROUP_BITS c) as [groups words]. cbn [fst snd] in *. eexists. split; [done|].
  cbn [decode_binary_output]. rewrite (int_of_str _ Ha), (int_of_str _ Hd). cbn [mbind option_bind].
  subst groups. rewrite (int_of_hex _ H0). cbn [mbind option_bind]. rewrite Ew. cbn [mbind option_bind].
  change (seq 0 7) with (map snd GROUP_BITS). rewrite decode_encoded.
  - cbn [mbind option_bind]. unfold as_read. do 2 f_equal.
    + apply map_eq. intros n. rewrite (collect_lookup c GROUP_BITS (∅, None)) by (by apply (bool_decide_unpack _)). rewrite lookup_fmap. cbn [fst].
      rewrite lookup_empty. destruct (bool_decide _) eqn:E; [by destruct (fields c !! n)|]. apply bool_decide_eq_false in E.
      destruct (fields c !! n) eqn:En; [|done]. destruct E. apply Hn. eauto.
    + change GROUP_BITS with (take 3 GROUP_BITS ++ (str "gps", 3%nat) :: drop 4 GROUP_BITS). rewrite foldl_app. cbn [foldl].
      rewrite collect_ext by done. unfold collect at 1. cbn [fst snd Nat.eqb].
      destruct (fields c !! str "gps"); cbn [snd]; rewrite collect_ext by done; [|done]. by destruct (gps_ext c).
  - apply list.Forall_forall. intros [n g] Hin. split; [|by apply groups_present].
    unfold GROUP_BITS in Hin. repeat (apply elem_of_cons in Hin as [[= -> ->]|Hin]; [vm_compute; reflexivity|]).
    by apply not_elem_of_nil in Hin.
Qed.

Definition witness_conf : BinaryOutputConf :=
  mkConf 2 40 {[ str "common" := 0x1001; str "gps" := 0x8020; str "ins" := 3 ]} (Some 1).

Lemma binary_output_roundtrip_witness :
  encode_binary_output witness_conf = Some [str "2"; str "40"; str "29"; str "1001"; str "8020"; str "1"; str "3"]
  /\ exists out, encode_binary_output witness_conf = Some out /\ decode_binary_output out = Some (as_read witness_conf).
Proof.
  split; [vm_compute; reflexivity|]. apply binary_output_roundtrip. unfold witness_conf. split_and!; cbn [async_mode divisor fields gps_ext].
  - lia.
  - lia.
  - intros n m H. repeat (apply lookup_insert_Some in H as [[_ <-]|[_ H]]; [lia|]). apply lookup_singleton_Some in H as [_ <-]. lia.
  - intros e [= <-]. lia.
  - intros n [m H]. repeat (apply lookup_insert_Some in H as [[<- _]|[_ H]]; [by apply (bool_decide_unpack _)|]).
    apply lookup_singleton_Some in H as [<- _]. by apply (bool_decide_unpack _).
Defined.
