(* ===== verification/PyCodecs.v ===== *)
(** * Text codecs: Latin-1 case, UTF-8, base64, splitting, fixed-point floats

    The parts of Python's str, bytes, binascii and format mini-language the HTTP-like protocols
    and the file writers use. Text is the list of its code points. *)

From Stdlib Require Import String.
From S2P Require Import Prelude.
From S2P Require Import PyBytes.
From S2P Require Import PyText.
From S2P Require Import PyFloat.

(** ** Case of Latin-1 text *)

Definition in_range (a b c : Z) : bool := (a <=? c) && (c <=? b).

Definition lower_char (c : Z) : Z :=
  if in_range 65 90 c || (in_range 0xC0 0xDE c && negb (c =? 0xD7)) then c + 32 else c.
Definition lower (s : bytes) : bytes := map lower_char s.

(** Three letters of Latin-1 have their capital elsewhere; [ß] has two. *)
Definition upper_char (c : Z) : bytes :=
  if in_range 97 122 c || (in_range 0xE0 0xFE c && negb (c =? 0xF7)) then [c - 32]
  else if c =? 0xDF then [83; 83]
  else if c =? 0xFF then [376]
  else if c =? 0xB5 then [924]
  else [c].
Definition upper (s : bytes) : bytes := flat_map upper_char s.

(** ** Splitting *)

(** [s.split(pat)] for a non-empty [pat]. *)
Fixpoint split_fuel (fuel : nat) (pat s : bytes) : list bytes :=
  match fuel, bfind pat s with
  | S fuel, Some i => take i s :: split_fuel fuel pat (drop (i + length pat) s)
  | _, _ => [s]
  end.
Definition split_on (pat s : bytes) : list bytes := split_fuel (length s) pat s.

(** [s.partition(sep)] and [s.split(sep, 1)] around the first [sep]: before and after, if any. *)
Definition cut (sep : Z) (s : bytes) : option (bytes * bytes) :=
  match bfind [sep] s with
  | Some i => Some (take i s, drop (S i) s)
  | None => None
  end.

(** ** UTF-8 *)

Definition cont (c : Z) : bool := in_range 0x80 0xBF c.

(** [b.decode("utf-8")] succeeds. *)
Fixpoint utf8_ok (b : bytes) : bool :=
  match b with
  | [] => true
  | c :: r =>
      if c <? 0x80 then utf8_ok r
      else if in_range 0xC2 0xDF c then match r with c1 :: r => cont c1 && utf8_ok r | _ => false end
      else if in_range 0xE0 0xEF c then
        match r with
        | c1 :: c2 :: r =>
            cont c1 && cont c2 && negb ((c =? 0xE0) && (c1 <? 0xA0)) && negb ((c =? 0xED) && (0x9F <? c1)) && utf8_ok r
        | _ => false
        end
      else if in_range 0xF0 0xF4 c then
        match r with
        | c1 :: c2 :: c3 :: r =>
            cont c1 && cont c2 && cont c3 && negb ((c =? 0xF0) && (c1 <? 0x90)) && negb ((c =? 0xF4) && (0x8F <? c1)) && utf8_ok r
        | _ => false
        end
      else false
  end.

(** [s.encode()] of text without surrogates. *)
Definition utf8_char (c : Z) : bytes :=
  if c <? 0x80 then [c]
  else if c <? 0x800 then [0xC0 + c / 64; 0x80 + c mod 64]
  else if c <? 0x10000 then [0xE0 + c / 4096; 0x80 + c / 64 mod 64; 0x80 + c mod 64]
  else [0xF0 + c / 262144; 0x80 + c / 4096 mod 64; 0x80 + c / 64 mod 64; 0x80 + c mod 64].
Definition utf8_encode (s : bytes) : bytes := flat_map utf8_char s.

(** ** Base64 *)

Definition base64_value (c : Z) : option Z :=
  if in_range 65 90 c then Some (c - 65)
  else if in_range 97 122 c then Some (c - 71)
  else if in_range 48 57 c then Some (c + 4)
  else if c =? 43 then Some 62
  else if c =? 47 then Some 63
  else None.

(** The loop of [binascii.a2b_base64], not strict: [quad] characters of the group so far with
    [left] their pending bits, [pads] padding characters since. Characters outside the
    alphabet are skipped; a complete padding ends the data. [None] is [binascii.Error]. *)
Fixpoint a2b (quad left pads : Z) (s : bytes) : option bytes :=
  match s with
  | [] => if quad =? 0 then Some [] else None
  | c :: s =>
      if c =? 61 then
        if (2 <=? quad) && (4 <=? quad + (pads + 1)) then Some []
        else a2b quad left (if 2 <=? quad then pads + 1 else pads) s
      else
        match base64_value c with
        | None => a2b quad left pads s
        | Some v =>
            if quad =? 0 then a2b 1 v 0 s
            else if quad =? 1 then out ← a2b 2 (Z.land v 0x0F) 0 s; Some (Z.lor (Z.shiftl left 2) (Z.shiftr v 4) :: out)
            else if quad =? 2 then out ← a2b 3 (Z.land v 0x03) 0 s; Some (Z.lor (Z.shiftl left 4) (Z.shiftr v 2) :: out)
            else out ← a2b 0 0 0 s; Some (Z.lor (Z.shiftl left 6) v :: out)
        end
  end.

(** [base64.b64decode] of text: not ASCII is a [ValueError] too. *)
Definition b64decode (s : bytes) : option bytes :=
  if forallb (fun c => c <? 128) s then a2b 0 0 0 s else None.

(** [base64.b64encode]. *)
Definition base64_char (v : Z) : Z :=
  if v <? 26 then v + 65 else if v <? 52 then v + 71 else if v <? 62 then v - 4 else if v =? 62 then 43 else 47.
Fixpoint b64encode (b : bytes) : bytes :=
  match b with
  | x :: y :: z :: r =>
      base64_char (Z.shiftr x 2) :: base64_char (Z.lor (Z.shiftl (Z.land x 3) 4) (Z.shiftr y 4))
      :: base64_char (Z.lor (Z.shiftl (Z.land y 15) 2) (Z.shiftr z 6)) :: base64_char (Z.land z 63) :: b64encode r
  | [x; y] =>
      [base64_char (Z.shiftr x 2); base64_char (Z.lor (Z.shiftl (Z.land x 3) 4) (Z.shiftr y 4));
       base64_char (Z.shiftl (Z.land y 15) 2); 61]
  | [x] => [base64_char (Z.shiftr x 2); base64_char (Z.shiftl (Z.land x 3) 4); 61; 61]
  | [] => []
  end.

(** ** Floats in fixed notation *)

(** [f"{x:.{prec}f}"]. *)
Definition fmt_fixed (prec : nat) (x : Z) : bytes :=
  match f64 x with
  | FFin neg m e =>
      let scale := 10 ^ Z.of_nat prec in
      let v := rne (m * pow2 e * scale) (pow2 (- e)) in
      (if neg then [45] else []) ++ min_digits 10 (v / scale)
      ++ (match prec with O => [] | _ => [46] ++ fixed_digits 10 prec (v mod scale) end)
  | FInf neg => (if neg then [45] else []) ++ str "inf"
  | FNan _ _ => str "nan"
  end.

(** [f"{s:0>k}"] for the digits of a sign-aware width. *)
Definition pad_left (c : Z) (k : nat) (s : bytes) : bytes := replicate (k - length s) c ++ s.

(** ** Lemmas *)

Lemma base64_char_value v : 0 <= v < 64 -> base64_value (base64_char v) = Some v /\ base64_char v <> 61 /\ base64_char v < 128.
Proof.
  intros Hv.
  assert (H : forall i, (i < 64)%nat -> (fun i => let v := Z.of_nat i in
     bool_decide (base64_value (base64_char v) = Some v) && negb (base64_char v =? 61) && (base64_char v <? 128)) i = true)
    by (apply below_forallb; vm_compute; reflexivity).
  specialize (H (Z.to_nat v) ltac:(lia)). cbv beta zeta in H. rewrite Z2Nat.id in H by lia.
  apply andb_true_iff in H as [[H1 H2]%andb_true_iff H3]. apply bool_decide_eq_true in H1. apply negb_true_iff in H2. zbool. done.
Qed.

#[local] Ltac Zify.zify_post_hook ::= Z.to_euclidean_division_equations.

Ltac bits_tac :=
  unfold is_byte in *;
  change 3 with (Z.ones 2); change 15 with (Z.ones 4); change 63 with (Z.ones 6);
  rewrite ?Z.land_ones, ?Z.shiftr_div_pow2 by lia;
  change (2 ^ 2) with 4; change (2 ^ 4) with 16; change (2 ^ 6) with 64;
  rewrite ?(Z.lor_comm (Z.shiftl _ _));
  rewrite ?lor_shiftl by (change (2 ^ 2) with 4; change (2 ^ 4) with 16; change (2 ^ 6) with 64; lia);
  rewrite ?Z.shiftl_mul_pow2 by lia;
  change (2 ^ 2) with 4; change (2 ^ 4) with 16; change (2 ^ 6) with 64;
  lia.

(** The sextets that join two neighbouring bytes, and what the decoder takes back out of them. *)
Lemma join_high x y : is_byte x -> is_byte y ->
  let s := Z.lor (Z.shiftl (Z.land x 3) 4) (Z.shiftr y 4) in
  0 <= s < 64 /\ Z.lor (Z.shiftl (Z.shiftr x 2) 2) (Z.shiftr s 4) = x /\ Z.land s 15 = Z.shiftr y 4.
Proof.
  intros Hx Hy s. assert (Hs : s = (x mod 4) * 16 + y / 16) by (unfold s; bits_tac).
  rewrite Hs. split_and!; bits_tac.
Qed.
Lemma join_low y z : is_byte y -> is_byte z ->
  let s := Z.lor (Z.shiftl (Z.land y 15) 2) (Z.shiftr z 6) in
  0 <= s < 64 /\ Z.lor (Z.shiftl (Z.shiftr y 4) 4) (Z.shiftr s 2) = y /\ Z.land s 3 = Z.shiftr z 6.
Proof.
  intros Hy Hz s. assert (Hs : s = (y mod 16) * 4 + z / 64) by (unfold s; bits_tac).
  rewrite Hs. split_and!; bits_tac.
Qed.
Lemma join_last z : is_byte z -> 0 <= Z.land z 63 < 64 /\ Z.lor (Z.shiftl (Z.shiftr z 6) 6) (Z.land z 63) = z.
Proof. intros Hz. split; bits_tac. Qed.
Lemma join_head x : is_byte x -> 0 <= Z.shiftr x 2 < 64.
Proof. intros Hx. bits_tac. Qed.

Lemma a2b_char quad left pads v s : 0 <= v < 64 ->
  a2b quad left pads (base64_char v :: s)
  = if quad =? 0 then a2b 1 v 0 s
    else if quad =? 1 then out ← a2b 2 (Z.land v 15) 0 s; Some (Z.lor (Z.shiftl left 2) (Z.shiftr v 4) :: out)
    else if quad =? 2 then out ← a2b 3 (Z.land v 3) 0 s; Some (Z.lor (Z.shiftl left 4) (Z.shiftr v 2) :: out)
    else out ← a2b 0 0 0 s; Some (Z.lor (Z.shiftl left 6) v :: out).
Proof.
  intros Hv. destruct (base64_char_value v Hv) as (E & Hp & _). cbn [a2b].
  rewrite (proj2 (Z.eqb_neq _ _) Hp), E. done.
Qed.

Lemma b64_ind (P : bytes -> Prop) :
  P [] -> (forall x, P [x]) -> (forall x y, P [x; y]) -> (forall x y z r, P r -> P (x :: y :: z :: r)) -> forall b, P b.
Proof.
  intros H0 H1 H2 H3. fix IH 1. intros [|x [|y [|z r]]]; [done | done | done |]. apply H3, IH.
Qed.

(** Every character [b64encode] writes is of the alphabet, or the padding. *)
Lemma b64encode_chars (P : Z -> Prop) b : (forall v, 0 <= v < 64 -> P (base64_char v)) -> P 61 -> bytes_ok b -> Forall P (b64encode b).
Proof.
  intros C Hp. induction b as [| x | x y | x y z r IH] using b64_ind; intros Hb; rewrite ?list.Forall_cons in Hb; destruct_and?; cbn [b64encode].
  - constructor.
  - repeat constructor; try done; apply C; bits_tac.
  - repeat constructor; try done; [apply C; bits_tac | by apply C, join_high | apply C; bits_tac].
  - repeat constructor; [apply C; bits_tac | by apply C, join_high | by apply C, join_low | apply C; bits_tac | by apply IH].
Qed.

Ltac sextet_step := rewrite a2b_char by (done || bits_tac); cbn -[Z.land Z.shiftl Z.shiftr Z.lor a2b b64encode].

(** What [b64encode] wrote, [b64decode] reads. *)
Lemma b64_roundtrip b : bytes_ok b -> b64decode (b64encode b) = Some b.
Proof.
  intros Hb0. unfold b64decode.
  rewrite (proj2 (forallb_forall (fun c => c <? 128) (b64encode b))).
  2: { apply List.Forall_forall, (b64encode_chars (fun c => (c <? 128) = true)); [| done | done].
       intros v Hv. apply Z.ltb_lt, base64_char_value, Hv. }
  revert Hb0.
  induction b as [| x | x y | x y z r IH] using b64_ind; intros Hb; rewrite ?list.Forall_cons in Hb; destruct_and?; cbn [b64encode].
  - done.
  - destruct (join_high x 0) as (? & E & _); [done | unfold is_byte; lia |]. rewrite Z.lor_0_r in E.
    do 2 sextet_step. by rewrite E.
  - destruct (join_high x y) as (? & E1 & E2); [done | done |].
    destruct (join_low y 0) as (? & E3 & _); [done | unfold is_byte; lia |]. rewrite Z.lor_0_r in E3.
    do 3 sextet_step. by rewrite E1, E2, E3.
  - destruct (join_high x y) as (? & E1 & E2); [done | done |].
    destruct (join_low y z) as (? & E3 & E4); [done | done |]. destruct (join_last z) as (? & E5); [done |].
    do 4 sextet_step. rewrite IH by done. cbn -[Z.land Z.shiftl Z.shiftr Z.lor]. by rewrite E1, E2, E3, E4, E5.
Qed.

(** ** UTF-8 of text *)

(** A code point that is not a surrogate. *)
Definition scalar (c : Z) : Prop := 0 <= c < 0xD800 \/ 0xE000 <= c < 0x110000.

Ltac zdec :=
  repeat match goal with
  | |- context [?a <? ?b] => first [rewrite (proj2 (Z.ltb_lt a b)) by lia | rewrite (proj2 (Z.ltb_ge a b)) by lia]
  | |- context [?a <=? ?b] => first [rewrite (proj2 (Z.leb_le a b)) by lia | rewrite (proj2 (Z.leb_gt a b)) by lia]
  end; cbn [andb orb negb app].

Lemma andb_guard a b x : (a = true -> b = false) -> negb (a && b) && x = x.
Proof. destruct a, b; intros H; try done. by specialize (H eq_refl). Qed.

Lemma utf8_ok_char c r : scalar c -> utf8_ok (utf8_char c ++ r) = utf8_ok r.
Proof.
  unfold scalar, utf8_char. intros Hc.
  destruct (c <? 0x80) eqn:E1; [| destruct (c <? 0x800) eqn:E2; [| destruct (c <? 0x10000) eqn:E3]]; zbool;
    cbn [app utf8_ok]; unfold in_range, cont; unfold in_range; zdec; try done.
  - rewrite <- !andb_assoc, !andb_guard; [done | |]; intros E%Z.eqb_eq; apply Z.ltb_ge; lia.
  - rewrite <- !andb_assoc, !andb_guard; [done | |]; intros E%Z.eqb_eq; apply Z.ltb_ge; lia.
Qed.

(** What [str.encode] wrote, [bytes.decode] accepts. *)
Lemma utf8_ok_encode s : Forall scalar s -> utf8_ok (utf8_encode s) = true.
Proof. induction 1 as [| c s Hc Hs IH]; [done |]. cbn [utf8_encode flat_map]. by rewrite utf8_ok_char. Qed.

Lemma utf8_encode_app s t : utf8_encode (s ++ t) = utf8_encode s ++ utf8_encode t.
Proof. apply flat_map_app. Qed.

Lemma bytes_ok_utf8 s : Forall scalar s -> bytes_ok (utf8_encode s).
Proof.
  unfold scalar. induction 1 as [| c s Hc Hs IH]; [constructor |]. cbn [utf8_encode flat_map]. apply list.Forall_app. split; [| done].
  unfold utf8_char. destruct (c <? 0x80) eqn:E1; [| destruct (c <? 0x800) eqn:E2; [| destruct (c <? 0x10000) eqn:E3]]; zbool;
    repeat constructor; unfold is_byte; lia.
Qed.

(** An ASCII character is in the encoding only where it is in the text. *)
Lemma utf8_encode_ascii x s : 0 <= x < 0x80 -> Forall scalar s -> Forall (fun c => c <> x) s -> Forall (fun c => c <> x) (utf8_encode s).
Proof.
  unfold scalar. intros Hx. induction 1 as [| c s Hc Hs IH]; intros Hn; [constructor |]. inversion Hn; subst.
  cbn [utf8_encode flat_map]. apply list.Forall_app. split; [| by apply IH].
  unfold utf8_char. destruct (c <? 0x80) eqn:E1; [| destruct (c <? 0x800) eqn:E2; [| destruct (c <? 0x10000) eqn:E3]]; zbool;
    repeat constructor; lia.
Qed.

(** [cut] at the first separator. *)
Lemma cut_app sep a b : Forall (fun c => c <> sep) a -> cut sep (a ++ sep :: b) = Some (a, b).
Proof.
  intros Ha. unfold cut.
  assert (E : bfind [sep] (a ++ sep :: b) = Some (length a)).
  { induction Ha as [| x a Hx Ha IH]; [cbn; by rewrite Z.eqb_refl; destruct b |].
    cbn [app bfind]. rewrite IH. cbn [startswith]. by rewrite (proj2 (Z.eqb_neq sep x)) by done. }
  rewrite E, take_app_length. rewrite <- (drop_app_length (a ++ [sep]) b) at 2.
  rewrite <- app_assoc, length_app, Nat.add_comm. done.
Qed.

Lemma cut_spec sep s a b : cut sep s = Some (a, b) -> s = a ++ sep :: b.
Proof.
  unfold cut. destruct (bfind [sep] s) as [i|] eqn:E; [| done]. intros [= <- <-].
  apply bfind_Some in E. apply startswith_spec in E as [r E].
  rewrite <- (take_drop i s) at 1. f_equal. rewrite <- Nat.add_1_r, <- drop_drop, E. done.
Qed.

(** The secret of [Authorization: Basic] decodes as UTF-8. *)
Lemma utf8_ok_pair s c t : Forall scalar s -> Forall scalar t -> 0 <= c < 0x80 -> utf8_ok (utf8_encode s ++ c :: utf8_encode t) = true.
Proof.
  intros Hs Ht Hc. replace (utf8_encode s ++ c :: utf8_encode t) with (utf8_encode (s ++ c :: t)).
  - apply utf8_ok_encode, list.Forall_app. split; [done |]. constructor; [left; lia | done].
  - rewrite utf8_encode_app. change (utf8_encode (c :: t)) with (utf8_char c ++ utf8_encode t).
    unfold utf8_char. by rewrite (proj2 (Z.ltb_lt c 0x80)) by lia.
Qed.

Lemma drop_while_id p s : Forall (fun c => p c = false) s -> drop_while p s = s.
Proof. intros [| c r Hc _]; [done |]. cbn [drop_while]. by rewrite Hc. Qed.

Lemma strip_id s : Forall (fun c => is_space c = false) s -> strip s = s.
Proof.
  intros Hs. unfold strip, rstrip. rewrite (drop_while_id _ s) by done.
  rewrite drop_while_id by (by apply Forall_rev). apply rev_involutive.
Qed.

Lemma base64_char_no_space v : 0 <= v < 64 -> is_space (base64_char v) = false.
Proof.
  intros Hv.
  assert (H : forall i, (i < 64)%nat -> (fun i => negb (is_space (base64_char (Z.of_nat i)))) i = true)
    by (apply below_forallb; vm_compute; reflexivity).
  specialize (H (Z.to_nat v) ltac:(lia)). cbv beta in H. rewrite Z2Nat.id in H by lia. by apply negb_true_iff.
Qed.

