(* ===== verification/NtripCaster.v ===== *)
(** * The NTRIP caster ([base/ntrip_caster.py])

    One file, four parts: the request ([parse_request], [mount_from_target], [authorized] and the
    answer [_handle_conn] gives, [handle_conn]); the bytes of one rover's stream ([wire]); one
    rover's connection ([Client]: its bounded queue, its counters and the point its write loop has
    reached); and the caster ([Caster]: the registered rovers and the cached messages) with its
    events as a step function. Text is the list of its code points; times are [time.monotonic()] in
    microseconds.

    [StreamWriter.drain] on a socket whose buffer is below its limit returns without suspending,
    or raises when the transport is closing: so the answer that opens a stream and the
    registration are one event. Not modelled: sockets, logging, the rows of the connection log
    beyond their ids, and [to_completion], by which a teardown is one uninterrupted event. The
    NMEA parser is the library's: [parse_gga] is a parameter. *)

From Stdlib Require Import String.
From stdpp Require Import gmap.
From S2P Require Import Prelude.
From S2P Require Import PyBytes.
From S2P Require Import PyText.
From S2P Require Import PyFloat.
From S2P Require Import Bus.
From S2P Require Import PyCodecs.

(** ** Constants and fixed answers *)

Definition HEADER_LIMIT : Z := 8192.
Definition CLIENT_QUEUE_FRAMES : Z := 64.
Definition SLOW_CLIENT_BYTES : Z := 256 * 1024.
Definition SLOW_CLIENT_GRACE : Z := 10 * 1000000.
Definition REALM : bytes := str "mtrtk".
Definition SERVER_NAME : bytes := str "mtrtk/0.1.0".

Definition crlf : bytes := [13; 10].
Definition line (s : bytes) : bytes := s ++ crlf.
Definition server_line : bytes := line (str "Server: " ++ SERVER_NAME).
Definition close_line : bytes := line (str "Connection: close").

Definition BAD_REQUEST : bytes := line (str "HTTP/1.0 400 Bad Request") ++ close_line ++ crlf.
Definition NOT_SUPPORTED : bytes := line (str "ERROR - Not Supported").
Definition NOT_FOUND : bytes := line (str "HTTP/1.1 404 Not Found") ++ server_line ++ close_line ++ crlf.
Definition TOO_MANY_V1 : bytes := line (str "ERROR - Too Many Clients").
Definition TOO_MANY_V2 : bytes := line (str "HTTP/1.1 503 Service Unavailable") ++ server_line ++ close_line ++ crlf.

(** ** The request *)

Definition alpha (c : Z) : bool := in_range 65 90 c || in_range 97 122 c.
Definition scheme_char (c : Z) : bool := alpha c || ascii_digit c || mem_byte c [43; 46; 45].

(** [_ABSOLUTE_FORM_RE.sub("", target, count=1)]. The class of the scheme has no [:], so the
    greedy match has one way to succeed. *)
Definition strip_absolute (target : bytes) : bytes :=
  match target with
  | c :: r =>
      let after := drop_while scheme_char r in
      if alpha c && startswith after (str "://")
      then drop_while (fun c => negb (mem_byte c [47; 63])) (drop 3 after)
      else target
  | [] => []
  end.

Definition mount_from_target (target : bytes) : bytes :=
  take_while (fun c => negb (c =? 63)) (lstrip_of [47] (strip_absolute target)).

Record CasterConfig := mkConfig {
  mountpoint : bytes; username : bytes; password : bytes; station_id : bytes; country : bytes;
  identifier : bytes; format_details : bytes; nav_system : bytes; receiver : bytes
}.

Definition anonymous (c : CasterConfig) : bool := bool_decide (password c = []).

Record Request := mkRequest { method : bytes; path : bytes; v2 : bool; headers : gmap bytes bytes }.

(** One header line into the dict; a later one of the same name replaces it. *)
Definition add_header (headers : gmap bytes bytes) (l : bytes) : gmap bytes bytes :=
  match cut 58 l with
  | Some (key, value) => <[lower (strip key) := strip value]> headers
  | None => headers
  end.

Definition header (name : bytes) (h : gmap bytes bytes) : bytes := default [] (h !! name).

Definition parse_request (head : bytes) : Request :=
  let lines := split_on crlf head in
  let parts := split_on [32] (nth 0 lines []) in
  let headers := foldl add_header ∅ (drop 1 lines) in
  mkRequest (upper (nth 0 parts [])) (nth 1 parts [47])
    (startswith (lower (header (str "ntrip-version") headers)) (str "ntrip/2")) headers.

(** [_authorized]: whether, and the user offered. The names are compared in UTF-8. *)
Definition authorized (c : CasterConfig) (req : Request) : bool * option bytes :=
  if anonymous c then (true, None)
  else
    let h := header (str "authorization") (headers req) in
    if negb (startswith (lower h) (str "basic ")) then (false, None)
    else
      match b64decode (strip (drop 6 h)) with
      | Some raw =>
          if utf8_ok raw then
            let user_pass := default (raw, []) (cut 58 raw) in
            (bool_decide (user_pass.1 = utf8_encode (username c)) && bool_decide (user_pass.2 = utf8_encode (password c)),
             Some user_pass.1)
          else (false, None)
      | None => (false, None)
      end.

(** ** The answers *)

Section Caster.
Context (config : CasterConfig) (max_clients : Z).
(** [_position()] and [_bitrate()] of the moment, as doubles. *)
Context (position : option (Z * Z)) (bitrate : Z).
(** [NMEAReader.parse] of the line, then [float(msg.lat), float(msg.lon)]; [None] when that raises. *)
Context (parse_gga : bytes -> option (Z * Z)).

(** [sourcetable_body]. *)
Definition sourcetable_body : bytes :=
  let '(lat, lon) := default (0, 0) position in
  let c := config in
  utf8_encode
    (line (str "STR;" ++ mountpoint c ++ [59] ++ identifier c ++ str ";RTCM 3.3;" ++ format_details c
           ++ str ";2;" ++ nav_system c ++ str ";mtrtk;" ++ country c ++ [59] ++ fmt_fixed 2 lat ++ [59] ++ fmt_fixed 2 lon
           ++ str ";0;0;" ++ receiver c ++ str ";none;" ++ (if anonymous c then str "N" else str "B")
           ++ str ";N;" ++ fmt_fixed 0 bitrate ++ [59]))
  ++ line (str "ENDSOURCETABLE").

Definition content_length (body : bytes) : bytes := line (str "Content-Length: " ++ str_int (len body)).

Definition sourcetable_response (v2 : bool) : bytes :=
  let body := sourcetable_body in
  (if v2 then
     line (str "HTTP/1.1 200 OK") ++ line (str "Ntrip-Version: Ntrip/2.0") ++ server_line
     ++ line (str "Content-Type: gnss/sourcetable") ++ content_length body ++ close_line ++ crlf
   else
     line (str "SOURCETABLE 200 OK") ++ server_line ++ line (str "Content-Type: text/plain")
     ++ content_length body ++ crlf)
  ++ body.

Definition stream_response (v2 : bool) : bytes :=
  if negb v2 then line (str "ICY 200 OK") ++ crlf
  else
    line (str "HTTP/1.1 200 OK") ++ line (str "Ntrip-Version: Ntrip/2.0") ++ server_line
    ++ line (str "Content-Type: gnss/data") ++ line (str "Transfer-Encoding: chunked")
    ++ line (str "Cache-Control: no-store, no-cache, max-age=0") ++ line (str "Pragma: no-cache") ++ close_line ++ crlf.

Definition unauthorized (v2 : bool) : bytes :=
  line (if v2 then str "HTTP/1.1 401 Unauthorized" else str "HTTP/1.0 401 Unauthorized")
  ++ line (str "WWW-Authenticate: Basic realm=" ++ [34] ++ REALM ++ [34]) ++ server_line ++ close_line ++ crlf.

(** What [_handle_conn] does with a request head: an answer and the end of the connection, a
    refusal at the cap, which is counted, or the stream. *)
Inductive Answer := Reject (payload : bytes) | Full (payload : bytes) | Serve (req : Request) (mount : bytes) (user : option bytes).

(** [_handle_conn]; [None]: the head did not arrive, or not within [readuntil]'s limit. *)
Definition handle_conn (connected : Z) (head : option bytes) : Answer :=
  match head with
  | None => Reject BAD_REQUEST
  | Some head =>
      if HEADER_LIMIT <? len head then Reject BAD_REQUEST
      else
        let req := parse_request head in
        if negb (bool_decide (method req = str "GET")) then Reject NOT_SUPPORTED
        else
          let mount := mount_from_target (path req) in
          if bool_decide (mount = []) then Reject (sourcetable_response (v2 req))
          else if negb (bool_decide (mount = mountpoint config)) then
            Reject (if v2 req then NOT_FOUND else sourcetable_response false)
          else
            let '(ok, user) := authorized config req in
            if negb ok then Reject (unauthorized (v2 req))
            else if max_clients <=? connected then Full (if v2 req then TOO_MANY_V2 else TOO_MANY_V1)
            else Serve req mount user
  end.

(** ** One rover *)

(** [_Client.wire]. *)
Definition wire (v2 : bool) (raw : bytes) : bytes :=
  if v2 then min_digits 16 (len raw) ++ crlf ++ raw ++ crlf else raw.

(** Where the handler of a registered rover is suspended: at the database row, at [queue.get],
    at [drain] after a frame, at [drain] after the closing chunk, or at its teardown: whether the
    stream went through [_finish_stream], and the reason it ended. *)
Inductive At := AtRow | AtGet | AtDrain | AtClosing | Ended (finished : bool) (reason : bytes).

#[export] Instance At_eq_dec : EqDecision At.
Proof. solve_decision. Defined.

(** [_Client] with its [ClientInfo]; [written] are the payloads since the answer's head. *)
Record Client := mkClient {
  cid : Z; ip : bytes; port : Z; user_agent : bytes; user : option bytes; version : Z; is_v2 : bool;
  queue : list bytes; dropped : Z; log_row : option Z; slow_since : option Z; stop_reason : option bytes;
  bytes_sent : Z; dropped_frames : Z; last_gga : option (Z * Z * Z);
  at_ : At; written : list bytes
}.

Definition set_queue (q : list bytes) (c : Client) : Client :=
  mkClient (cid c) (ip c) (port c) (user_agent c) (user c) (version c) (is_v2 c) q (dropped c) (log_row c) (slow_since c)
    (stop_reason c) (bytes_sent c) (dropped_frames c) (last_gga c) (at_ c) (written c).
Definition set_dropped (n : Z) (c : Client) : Client :=
  mkClient (cid c) (ip c) (port c) (user_agent c) (user c) (version c) (is_v2 c) (queue c) n (log_row c) (slow_since c)
    (stop_reason c) (bytes_sent c) (dropped_frames c) (last_gga c) (at_ c) (written c).
Definition set_log_row (r : option Z) (c : Client) : Client :=
  mkClient (cid c) (ip c) (port c) (user_agent c) (user c) (version c) (is_v2 c) (queue c) (dropped c) r (slow_since c)
    (stop_reason c) (bytes_sent c) (dropped_frames c) (last_gga c) (at_ c) (written c).
Definition set_slow (t : option Z) (c : Client) : Client :=
  mkClient (cid c) (ip c) (port c) (user_agent c) (user c) (version c) (is_v2 c) (queue c) (dropped c) (log_row c) t
    (stop_reason c) (bytes_sent c) (dropped_frames c) (last_gga c) (at_ c) (written c).
Definition set_stop (r : option bytes) (c : Client) : Client :=
  mkClient (cid c) (ip c) (port c) (user_agent c) (user c) (version c) (is_v2 c) (queue c) (dropped c) (log_row c) (slow_since c)
    r (bytes_sent c) (dropped_frames c) (last_gga c) (at_ c) (written c).
Definition set_dropped_frames (n : Z) (c : Client) : Client :=
  mkClient (cid c) (ip c) (port c) (user_agent c) (user c) (version c) (is_v2 c) (queue c) (dropped c) (log_row c) (slow_since c)
    (stop_reason c) (bytes_sent c) n (last_gga c) (at_ c) (written c).
Definition set_gga (g : option (Z * Z * Z)) (c : Client) : Client :=
  mkClient (cid c) (ip c) (port c) (user_agent c) (user c) (version c) (is_v2 c) (queue c) (dropped c) (log_row c) (slow_since c)
    (stop_reason c) (bytes_sent c) (dropped_frames c) g (at_ c) (written c).
Definition set_at (a : At) (c : Client) : Client :=
  mkClient (cid c) (ip c) (port c) (user_agent c) (user c) (version c) (is_v2 c) (queue c) (dropped c) (log_row c) (slow_since c)
    (stop_reason c) (bytes_sent c) (dropped_frames c) (last_gga c) a (written c).
(** [writer.write(payload)] and [bytes_sent += len(payload)]. *)
Definition write (payload : bytes) (c : Client) : Client :=
  mkClient (cid c) (ip c) (port c) (user_agent c) (user c) (version c) (is_v2 c) (queue c) (dropped c) (log_row c) (slow_since c)
    (stop_reason c) (bytes_sent c + len payload) (dropped_frames c) (last_gga c) (at_ c) (written c ++ [payload]).

(** [_offer]; on [QueueFull] the oldest makes room. *)
Definition offer (raw : bytes) (c : Client) : Client :=
  match put_nowait CLIENT_QUEUE_FRAMES (queue c) raw with
  | Some q => set_queue q c
  | None => set_queue (drop 1 (queue c) ++ [raw]) (set_dropped (dropped c + 1) c)
  end.

(** [_end]. *)
Definition end_ (reason : bytes) (c : Client) : Client :=
  offer [] (match stop_reason c with None => set_stop (Some reason) c | Some _ => c end).

(** [_finish_stream] up to its [drain]. *)
Definition finish_stream (c : Client) : Client :=
  set_at AtClosing (write (wire (is_v2 c) []) (set_queue [] c)).
(** ... and after it, however that ends. *)
Definition finish_reason (c : Client) : bytes := default (str "caster stopped") (stop_reason c).

(** The write loop from a frame taken off the queue to its next wait; [closing] is
    [writer.is_closing()] after the write. *)
Definition got_frame (closing : bool) (raw : bytes) (c : Client) : Client :=
  match stop_reason c with
  | Some _ => finish_stream c
  | None =>
      let c := write (wire (is_v2 c) raw) c in
      let c := set_dropped_frames (dropped c) c in
      if closing then set_at (Ended false (str "client closed")) c else set_at AtDrain c
  end.

(** [queue.get()] returns; [None]: the queue is empty and the loop waits. *)
Definition get (closing : bool) (c : Client) : option Client :=
  match queue c with
  | raw :: q => Some (got_frame closing raw (set_queue q c))
  | [] => None
  end.

(** [conn.slow_since or now], of a float that may be zero. *)
Definition or_now (t : option Z) (now : Z) : Z :=
  match t with Some t => if t =? 0 then now else t | None => now end.

(** The write loop after [drain] returned or timed out, with [unsent] bytes in the buffer. *)
Definition drained (unsent now : Z) (c : Client) : Client :=
  if SLOW_CLIENT_BYTES <? unsent then
    let since := or_now (slow_since c) now in
    let c := set_slow (Some since) c in
    if SLOW_CLIENT_GRACE <? now - since then
      finish_stream (set_stop (Some (default (str "slow client") (stop_reason c))) c)
    else set_at AtGet c
  else set_at AtGet (set_slow None c).

(** One line from the rover: [_read_gga]'s test, then [_on_gga]. *)
Definition is_gga (l : bytes) : bool :=
  startswith l (str "$") && bool_decide (is_Some (bfind (str "GGA") (take 7 l))).
Definition on_line (now : Z) (l : bytes) (c : Client) : Client :=
  if is_gga l then
    match parse_gga (rstrip_of ascii_space (lstrip_of ascii_space l) ++ crlf) with
    | Some (lat, lon) => set_gga (Some (lat, lon, now)) c
    | None => c
    end
  else c.

(** The events of one rover's connection. *)
Inductive ClientEvent :=
| Offer (raw : bytes)                    (* a frame, from the cache or the receiver *)
| End (reason : bytes)                   (* the caster stops, or the rover's side of the socket ends *)
| Row (row : option Z)                   (* [_log_connected] returned *)
| Get (closing : bool)                   (* [queue.get] returned *)
| Drained (unsent now : Z)               (* [drain] returned or timed out *)
| Failed (name : bytes)                  (* [drain] raised an [OSError] of that class *)
| ClosingDrained                         (* the last [drain] ended, in any way *)
| Line (now : Z) (l : bytes)             (* a line from the rover *)
| Cancelled.                             (* [stop] cancels a handler that overstays *)

#[export] Instance ClientEvent_eq_dec : EqDecision ClientEvent.
Proof. solve_decision. Defined.

(** The handler of a rover whose reader task exists. *)
Definition reading (c : Client) : bool := match at_ c with AtRow => false | _ => true end.

(** One event; [None] where it cannot happen. *)
Definition cstep (c : Client) (e : ClientEvent) : option Client :=
  match e, at_ c with
  | Offer raw, _ => Some (offer raw c)
  | End reason, _ => Some (end_ reason c)
  | Row row, AtRow => Some (set_at AtGet (set_log_row row c))
  | Get closing, AtGet => get closing c
  | Drained unsent now, AtDrain => Some (drained unsent now c)
  | Failed name, AtDrain => Some (set_at (Ended false name) c)
  | ClosingDrained, AtClosing => Some (set_at (Ended true (finish_reason c)) c)
  | Line now l, _ => if reading c then Some (on_line now l c) else None
  | Cancelled, Ended _ _ => None
  | Cancelled, a => Some (set_at (Ended (bool_decide (a = AtClosing)) (str "cancelled")) c)
  | _, _ => None
  end.

Definition new_client (id : Z) (ip : bytes) (port : Z) (req : Request) (user : option bytes) : Client :=
  mkClient id ip port (header (str "user-agent") (headers req)) user (if v2 req then 2 else 1) (v2 req)
    [] 0 None None None 0 0 None AtRow [].

Fixpoint crun (c : Client) (evs : list ClientEvent) : option Client :=
  match evs with
  | [] => Some c
  | e :: evs => c ← cstep c e; crun c evs
  end.

(** What [_offer] was called with, the empty frame of [_end] included. *)
Definition offered (evs : list ClientEvent) : list bytes :=
  flat_map (fun e => match e with Offer raw => [raw] | End _ => [[]] | _ => [] end) evs.

(** ** The caster *)

(** [NtripCaster]. [_conns] and [clients] hold the same rovers, in the order they registered;
    [answered] are the answers that ended a connection, [published] the ids of each
    [ntrip.clients] message. [ended_all]: [stop] has gone through the registered rovers. *)
Record Caster := mkCaster {
  clients : list Client; next_id : Z; last_1005 : option bytes; last_1230 : option bytes; rejected : Z;
  stopping : bool; ended_all : bool; answered : list bytes; published : list (list Z)
}.

Definition new_caster : Caster := mkCaster [] 1 None None 0 false false [] [].

Definition set_clients (l : list Client) (s : Caster) : Caster :=
  mkCaster l (next_id s) (last_1005 s) (last_1230 s) (rejected s) (stopping s) (ended_all s) (answered s) (published s).
Definition publish_clients (s : Caster) : Caster :=
  mkCaster (clients s) (next_id s) (last_1005 s) (last_1230 s) (rejected s) (stopping s) (ended_all s) (answered s)
    (published s ++ [map cid (clients s)]).
Definition answer (payload : bytes) (s : Caster) : Caster :=
  mkCaster (clients s) (next_id s) (last_1005 s) (last_1230 s) (rejected s) (stopping s) (ended_all s)
    (answered s ++ [payload]) (published s).
Definition count_rejected (s : Caster) : Caster :=
  mkCaster (clients s) (next_id s) (last_1005 s) (last_1230 s) (rejected s + 1) (stopping s) (ended_all s) (answered s) (published s).

(** [for cached in (self._last_1005, self._last_1230): if cached: ...]. *)
Definition cached (s : Caster) : list bytes :=
  List.filter (fun b => negb (bool_decide (b = []))) (default [] (last_1005 s) :: [default [] (last_1230 s)]).

(** [_serve_stream] once its head is out, to its first wait. *)
Definition register (ip : bytes) (port : Z) (req : Request) (user : option bytes) (s : Caster) : Caster :=
  let c := new_client (next_id s) ip port req user in
  let c := foldl (fun c raw => offer raw c) c (cached s) in
  let c := if stopping s then end_ (str "caster stopped") c else c in
  mkCaster (clients s ++ [c]) (next_id s + 1) (last_1005 s) (last_1230 s) (rejected s) (stopping s) (ended_all s)
    (answered s) (published s).

(** [_on_frame]. *)
Definition on_frame (rtcm_type : option Z) (raw : bytes) (s : Caster) : Caster :=
  let is_ n := bool_decide (rtcm_type = Some n) in
  mkCaster (map (offer raw) (clients s)) (next_id s)
    (if is_ 1005 then Some raw else last_1005 s)
    (if negb (is_ 1005) && is_ 1230 then Some raw else last_1230 s)
    (rejected s) (stopping s) (ended_all s) (answered s) (published s).

Inductive Event :=
| Connect (ip : bytes) (port : Z) (head : option bytes) (head_out : bool)  (* [head_out]: [drain] did not raise *)
| Frame (rtcm_type : option Z) (raw : bytes)
| On (id : Z) (e : ClientEvent)
| Teardown (id : Z)
| StopBegin                              (* [stop] until the feed task is gone *)
| StopClients.                           (* [stop] ends the registered rovers *)

(** The events a rover's handler or reader task causes; the caster offers frames itself. *)
Definition own (e : ClientEvent) : bool :=
  match e with Offer _ => false | End reason => bool_decide (reason = str "client closed") | _ => true end.

(** Whether the handler publishes the rovers after the event. *)
Definition publishes (e : ClientEvent) : bool :=
  match e with
  | Row _ => true
  | Line _ l => is_gga l && bool_decide (is_Some (parse_gga (rstrip_of ascii_space (lstrip_of ascii_space l) ++ crlf)))
  | _ => false
  end.

Definition is_ended (c : Client) : bool := match at_ c with Ended _ _ => true | _ => false end.

(** One event of the caster; [None] where it cannot happen. *)
Definition step (s : Caster) (e : Event) : option Caster :=
  match e with
  | Connect ip port head head_out =>
      Some (match handle_conn (len (clients s)) head with
            | Reject payload => answer payload s
            | Full payload => answer payload (count_rejected s)
            | Serve req mount user => if head_out then register ip port req user s else s
            end)
  | Frame rtcm_type raw => if stopping s then None else Some (on_frame rtcm_type raw s)
  | On id e =>
      c ← List.find (fun c => cid c =? id) (clients s);
      if negb (own e) || (bool_decide (e = End (str "client closed")) && negb (reading c)) then None
      else
        c' ← cstep c e;
        let s := set_clients (map (fun d => if cid d =? id then c' else d) (clients s)) s in
        Some (if publishes e then publish_clients s else s)
  | Teardown id =>
      c ← List.find (fun c => cid c =? id) (clients s);
      if is_ended c then
        Some (publish_clients (set_clients (List.filter (fun d => negb (cid d =? id)) (clients s)) s))
      else None
  | StopBegin =>
      Some (mkCaster (clients s) (next_id s) (last_1005 s) (last_1230 s) (rejected s) true (ended_all s) (answered s) (published s))
  | StopClients =>
      if stopping s then
        Some (mkCaster (map (end_ (str "caster stopped")) (clients s)) (next_id s) (last_1005 s) (last_1230 s) (rejected s)
                true true (answered s) (published s))
      else None
  end.

Inductive reach : Caster -> Prop :=
| reach_new : reach new_caster
| reach_step s e s' : reach s -> step s e = Some s' -> reach s'.

(** ** One rover's stream, proved *)

Lemma qfull_short (q : list bytes) : len q <= 64 -> qfull CLIENT_QUEUE_FRAMES q = true -> len q = 64.
Proof. unfold qfull, CLIENT_QUEUE_FRAMES. intros Hq H. zbool. lia. Qed.

(** [_offer] appends, and on a full queue drops exactly the oldest and counts it. *)
Lemma offer_queues raw c : len (queue c) <= 64 ->
  (offer raw c = set_queue (queue c ++ [raw]) c /\ len (queue c) < 64)
  \/ (offer raw c = set_queue (drop 1 (queue c) ++ [raw]) (set_dropped (dropped c + 1) c) /\ len (queue c) = 64).
Proof.
  intros Hq. unfold offer, put_nowait. destruct (qfull _ _) eqn:E.
  - right. split; [done | by apply qfull_short].
  - left. split; [done |]. unfold qfull, CLIENT_QUEUE_FRAMES in E. apply andb_false_iff in E as [E|E]; zbool; lia.
Qed.

Definition streaming (a : At) : bool := match a with AtRow | AtGet | AtDrain => true | _ => false end.
(** Whether the body has been closed by [_finish_stream]. *)
Definition body_closed (a : At) : bool := match a with AtClosing | Ended true _ => true | _ => false end.

(** A rover's books, given the frames it was offered: what went out is some of them in order,
    each framed once, and then at most one closing chunk; while it streams every other one is
    queued or counted as dropped. *)
Definition books (off : list bytes) (c : Client) (delivered : list bytes) : Prop :=
  written c = map (wire (is_v2 c)) delivered ++ (if body_closed (at_ c) then [wire (is_v2 c) []] else [])
  /\ bytes_sent c = len (concat (written c))
  /\ len (queue c) <= 64 /\ 0 <= dropped_frames c <= dropped c
  /\ if streaming (at_ c)
     then delivered ++ queue c `sublist_of` off /\ len off = len delivered + len (queue c) + dropped c
     else delivered `sublist_of` off.

(** A rover asked to end finds something in its queue. *)
Definition wakes (c : Client) : Prop := stop_reason c <> None -> streaming (at_ c) = true -> queue c <> [].

Lemma books_offer off raw c d : books off c d -> books (off ++ [raw]) (offer raw c) d.
Proof.
  intros (Hw & Hb & Hq & Hd & Hs).
  destruct (offer_queues raw c Hq) as [[-> Hl]|[-> Hl]]; unfold books; cbn [set_queue set_dropped written bytes_sent queue dropped dropped_frames at_ is_v2];
    rewrite ?length_app, ?length_drop; cbn [length];
    (split; [exact Hw |]); (split; [exact Hb |]); (split; [lia |]); (split; [lia |]);
    destruct (streaming (at_ c)).
  - destruct Hs as [Hs Hn]. split; [| lia]. rewrite app_assoc. by apply sublist_app.
  - by apply sublist_inserts_r.
  - destruct Hs as [Hs Hn]. split; [| lia]. rewrite app_assoc. apply sublist_app; [| done].
    etrans; [| exact Hs]. apply sublist_app; [done | apply sublist_drop].
  - by apply sublist_inserts_r.
Qed.

Lemma books_stop off r c d : books off c d -> books off (set_stop r c) d.
Proof. done. Qed.

Lemma offer_queue raw c : queue (offer raw c) <> [].
Proof.
  unfold offer, put_nowait. destruct (qfull _ _); cbn [set_queue queue]; by intros [_ ?]%app_eq_nil.
Qed.

Lemma offer_same raw c :
  at_ (offer raw c) = at_ c /\ stop_reason (offer raw c) = stop_reason c /\ is_v2 (offer raw c) = is_v2 c /\ cid (offer raw c) = cid c.
Proof. unfold offer. by destruct (put_nowait _ _ _). Qed.

Lemma end_same reason c :
  at_ (end_ reason c) = at_ c /\ stop_reason (end_ reason c) <> None /\ is_v2 (end_ reason c) = is_v2 c /\ cid (end_ reason c) = cid c.
Proof.
  unfold end_. destruct (stop_reason c) eqn:E; edestruct offer_same as (-> & -> & -> & ->); [by rewrite E | done].
Qed.

Lemma books_end off reason c d : books off c d -> books (off ++ [[]]) (end_ reason c) d.
Proof. intros H. unfold end_. apply books_offer. by destruct (stop_reason c). Qed.

Lemma books_finish off c d : streaming (at_ c) = true -> books off c d -> books off (finish_stream c) d.
Proof.
  intros Ha (Hw & Hb & Hq & Hd & Hs). rewrite Ha in Hs. destruct Hs as [Hs _].
  unfold books, finish_stream. cbn [set_queue set_at write written bytes_sent queue dropped dropped_frames at_ is_v2 body_closed streaming].
  assert (Hc : body_closed (at_ c) = false) by (destruct (at_ c); done). rewrite Hc, app_nil_r in Hw.
  split_and!; [by rewrite Hw | | cbn; lia | lia | lia |].
  - rewrite concat_app, length_app, Hb. cbn [concat]. rewrite app_nil_r. lia.
  - etrans; [| exact Hs]. by apply sublist_inserts_r.
Qed.

(** While no end was asked for, no empty frame is queued; none is ever sent as a frame. *)
Definition clean (c : Client) : Prop := stop_reason c = None -> Forall (fun f => f <> []) (queue c).

(** Books over [clean] rovers, whose frames all have bytes. *)
Definition fair (c : Client) (d d' : list bytes) : Prop :=
  clean c -> Forall (fun f => f <> []) d -> Forall (fun f => f <> []) d'.

Lemma books_get closing off c c' d : at_ c = AtGet -> books off c d -> get closing c = Some c' ->
  exists d', books off c' d' /\ fair c d d'.
Proof.
  intros Ha Hbk. unfold get. destruct (queue c) as [| raw q] eqn:Eq; [done |]. intros [= <-]. unfold got_frame.
  destruct Hbk as (Hw & Hb & Hq & Hd & Hs). rewrite Eq in Hq, Hs. rewrite Ha in Hw, Hs. destruct Hs as [Hs Hn].
  cbn [body_closed] in Hw. rewrite app_nil_r in Hw. cbn [length] in Hq, Hn.
  cbn [set_queue stop_reason]. destruct (stop_reason c) as [r|] eqn:Es.
  - exists d. split; [| by unfold fair]. unfold books, finish_stream. cbn [set_queue set_at write written bytes_sent queue dropped dropped_frames at_ is_v2 body_closed streaming].
    split_and!; [by rewrite Hw | | cbn; lia | lia | lia |].
    + rewrite concat_app, length_app, Hb. cbn [concat]. rewrite app_nil_r. lia.
    + etrans; [| exact Hs]. by apply sublist_inserts_r.
  - exists (d ++ [raw]). split; [unfold books | intros Hc Hd'; specialize (Hc Es); rewrite Eq in Hc;
      inversion Hc; subst; by apply list.Forall_app; split; [| constructor]].
    assert (Hl : bytes_sent c + len (wire (is_v2 c) raw) = len (concat (written c ++ [wire (is_v2 c) raw]))).
    { rewrite concat_app, length_app, Hb. cbn [concat]. rewrite app_nil_r. lia. }
    destruct closing; cbn [set_queue set_dropped_frames set_at write written bytes_sent queue dropped dropped_frames at_ is_v2 body_closed streaming];
      rewrite map_app, app_nil_r, Hw, ?length_app; cbn [map length];
      (split; [done |]); rewrite <- Hw; (split; [exact Hl |]); (split; [lia |]); (split; [lia |]).
    + etrans; [| exact Hs]. apply sublist_app; [done |]. apply sublist_skip, sublist_nil_l.
    + split; [by rewrite <- app_assoc | lia].
Qed.

Lemma books_drained unsent now off c d : at_ c = AtDrain -> books off c d -> books off (drained unsent now c) d.
Proof.
  intros Ha Hbk. assert (Hget : forall t, books off (set_at AtGet (set_slow t c)) d).
  { intros t. unfold books in *. rewrite Ha in Hbk. exact Hbk. }
  unfold drained. destruct (_ <? unsent); [| apply Hget]. destruct (_ <? _); [| apply Hget].
  apply books_finish; [cbn; by rewrite Ha | exact Hbk].
Qed.

(** The handler leaves the loop without closing the body. *)
Lemma books_leave off c d reason : streaming (at_ c) = true -> books off c d -> books off (set_at (Ended false reason) c) d.
Proof.
  intros Ha (Hw & Hb & Hq & Hd & Hs). rewrite Ha in Hs. destruct Hs as [Hs _].
  assert (Hc : body_closed (at_ c) = false) by (destruct (at_ c); done). rewrite Hc in Hw.
  unfold books. cbn [set_at written bytes_sent queue dropped dropped_frames at_ is_v2 body_closed streaming].
  split_and!; [exact Hw | exact Hb | lia | lia | lia |]. etrans; [| exact Hs]. by apply sublist_inserts_r.
Qed.

Lemma books_left off c d reason : at_ c = AtClosing -> books off c d -> books off (set_at (Ended true reason) c) d.
Proof. intros Ha. unfold books. by rewrite Ha. Qed.

Lemma books_step off c e c' d : books off c d -> cstep c e = Some c' ->
  exists d', books (off ++ offered [e]) c' d' /\ fair c d d'.
Proof.
  intros Hb H. assert (Hf : fair c d d) by (by unfold fair). unfold cstep in H.
  destruct e; cbn [offered flat_map app]; rewrite ?app_nil_r.
  - injection H as <-. exists d. split; [by apply books_offer | done].
  - injection H as <-. exists d. split; [by apply books_end | done].
  - destruct (at_ c) eqn:Ha; [| done..]. injection H as <-. exists d. split; [| done]. unfold books in *. rewrite Ha in Hb. exact Hb.
  - destruct (at_ c) eqn:Ha; [done | | done..]. by eapply books_get.
  - destruct (at_ c) eqn:Ha; [done.. | | done | done]. injection H as <-. exists d. split; [by apply books_drained | done].
  - destruct (at_ c) eqn:Ha; [done.. | | done | done]. injection H as <-. exists d.
    split; [apply books_leave; [by rewrite Ha | done] | done].
  - destruct (at_ c) eqn:Ha; [done.. | | done]. injection H as <-. exists d. split; [by apply books_left | done].
  - assert (Hl : books off (on_line now l c) d).
    { unfold on_line. destruct (is_gga l); [| done]. by destruct (parse_gga _) as [[]|]. }
    exists d. split; [| done]. destruct (at_ c), (reading c); by inversion H; subst.
  - exists d. split; [| done]. destruct (at_ c) eqn:Ha; [.. | done]; injection H as <-;
      try (apply books_leave; [by rewrite Ha | done]). by apply books_left.
Qed.

Definition frames_ok (evs : list ClientEvent) : Prop :=
  Forall (fun e => match e with Offer raw => raw <> [] | _ => True end) evs.

Lemma clean_offer raw c : raw <> [] -> clean c -> clean (offer raw c).
Proof.
  intros Hr Hc. unfold clean, offer, put_nowait in *. destruct (qfull _ _);
    cbn [set_queue set_dropped queue stop_reason]; intros Hs; specialize (Hc Hs);
    apply list.Forall_app; (split; [| by constructor]); [by apply Forall_drop | done].
Qed.

Lemma wakes_offer raw c : wakes (offer raw c).
Proof. intros _ _. apply offer_queue. Qed.

Lemma drained_cases unsent now c :
  (stop_reason (drained unsent now c) <> None /\ at_ (drained unsent now c) = AtClosing)
  \/ (stop_reason (drained unsent now c) = stop_reason c /\ queue (drained unsent now c) = queue c
      /\ at_ (drained unsent now c) = AtGet).
Proof. unfold drained. destruct (_ <? unsent); [| by right]. destruct (_ <? _); [by left | by right]. Qed.

Lemma got_cases closing raw c :
  (stop_reason c <> None /\ got_frame closing raw c = finish_stream c)
  \/ (stop_reason c = None /\ written (got_frame closing raw c) = written c ++ [wire (is_v2 c) raw]
      /\ stop_reason (got_frame closing raw c) = None /\ queue (got_frame closing raw c) = queue c
      /\ (at_ (got_frame closing raw c) = AtDrain \/ streaming (at_ (got_frame closing raw c)) = false)).
Proof. unfold got_frame. destruct (stop_reason c) eqn:E; [by left |]. right. destruct closing; cbn; split_and!; auto. Qed.

Lemma on_line_same now l c :
  at_ (on_line now l c) = at_ c /\ stop_reason (on_line now l c) = stop_reason c /\ queue (on_line now l c) = queue c
  /\ cid (on_line now l c) = cid c.
Proof. unfold on_line. destruct (is_gga l); [| done]. by destruct (parse_gga _) as [[]|]. Qed.

(** Both hold of a rover through every event. *)
Lemma wakes_step c e c' : wakes c -> cstep c e = Some c' -> wakes c'.
Proof.
  intros Hw H. unfold cstep in H. destruct e.
  - injection H as <-. apply wakes_offer.
  - injection H as <-. unfold end_. apply wakes_offer.
  - destruct (at_ c) eqn:Ha; [| done..]. injection H as <-. unfold wakes in *. rewrite Ha in Hw. exact Hw.
  - destruct (at_ c) eqn:Ha; [done | | done..]. unfold get in H. destruct (queue c) as [| raw q]; [done |]. injection H as <-.
    destruct (got_cases closing raw (set_queue q c)) as [[Hs ->]|(Hs & _ & Hs' & _)]; unfold wakes; [done |]. by rewrite Hs'.
  - destruct (at_ c) eqn:Ha; [done.. | | done | done]. injection H as <-. unfold wakes in *.
    destruct (drained_cases unsent now c) as [[_ ->]|(-> & -> & ->)]; [done |]. intros Hs _. apply Hw; [done | by rewrite Ha].
  - destruct (at_ c) eqn:Ha; [done.. | | done | done]. by injection H as <-.
  - destruct (at_ c) eqn:Ha; [done.. | | done]. by injection H as <-.
  - assert (c' = on_line now l c) as -> by (destruct (at_ c), (reading c); by inversion H).
    unfold wakes in *. destruct (on_line_same now l c) as (-> & -> & -> & _). exact Hw.
  - destruct (at_ c); by inversion H.
Qed.

Lemma clean_step c e c' : frames_ok [e] -> clean c -> cstep c e = Some c' -> clean c'.
Proof.
  intros He Hc H. unfold cstep in H. destruct e.
  - injection H as <-. apply clean_offer; [by inversion He | done].
  - injection H as <-. intros Hs. by destruct (end_same reason c) as (_ & ? & _).
  - destruct (at_ c); by inversion H.
  - destruct (at_ c) eqn:Ha; [done | | done..]. unfold get in H. destruct (queue c) as [| raw q] eqn:Eq; [done |]. injection H as <-.
    unfold clean in *. destruct (got_cases closing raw (set_queue q c)) as [[Hs ->]|(Hs & _ & Hs' & Hq & _)].
    + cbn. by intros ?.
    + rewrite Hs', Hq. intros _. cbn in Hs |- *. specialize (Hc Hs). rewrite Eq in Hc. by inversion Hc.
  - destruct (at_ c) eqn:Ha; [done.. | | done | done]. injection H as <-. unfold clean in *.
    destruct (drained_cases unsent now c) as [[? _]|(-> & -> & _)]; [by intros ? | done].
  - destruct (at_ c) eqn:Ha; [done.. | | done | done]. by injection H as <-.
  - destruct (at_ c) eqn:Ha; [done.. | | done]. by injection H as <-.
  - assert (c' = on_line now l c) as -> by (destruct (at_ c), (reading c); by inversion H).
    unfold clean in *. by destruct (on_line_same now l c) as (_ & -> & -> & _).
  - destruct (at_ c); by inversion H.
Qed.

Lemma books_run evs : forall off c d c',
  books off c d -> clean c -> Forall (fun f => f <> []) d -> frames_ok evs -> crun c evs = Some c' ->
  exists d', books (off ++ offered evs) c' d' /\ Forall (fun f => f <> []) d'.
Proof.
  induction evs as [| e evs IH]; intros off c d c' Hb Hc Hd He H; cbn [crun] in H.
  - injection H as <-. exists d. cbn. by rewrite app_nil_r.
  - destruct (cstep c e) as [c1|] eqn:E; cbn in H; [| done]. inversion He; subst.
    destruct (books_step _ _ _ _ _ Hb E) as (d1 & H1 & Hf).
    assert (Hc1 : clean c1) by (eapply clean_step; [by constructor | done..]).
    destruct (IH _ _ _ _ H1 Hc1 (Hf Hc Hd) ltac:(done) H) as (d' & H' & Hd').
    exists d'. split; [| done]. unfold offered in *. cbn [flat_map] in *. by rewrite app_nil_r, <- app_assoc in H'.
Qed.

Lemma books_new id ip port req user : books [] (new_client id ip port req user) [].
Proof. unfold books. cbn. split_and!; done || lia. Qed.

(** ** The chunked body *)

(** The reader of an HTTP/1.1 chunked body (RFC 7230, 4.1) without extensions or trailers: the
    chunks, once the last one has been seen and nothing follows. *)
Fixpoint dechunk (fuel : nat) (b : bytes) : option (list bytes) :=
  match fuel, bfind crlf b with
  | S fuel, Some i =>
      match py_int 16 (take i b) with
      | Some n =>
          let data := take (Z.to_nat n) (drop (i + 2) b) in
          let rest := drop (Z.to_nat n) (drop (i + 2) b) in
          if startswith rest crlf then
            if n =? 0 then if bool_decide (rest = crlf) then Some [] else None
            else chunks ← dechunk fuel (drop 2 rest); Some (data :: chunks)
          else None
      | None => None
      end
  | _, _ => None
  end.

Lemma bfind_crlf a r : Forall (fun c => c <> 13) a -> bfind crlf (a ++ crlf ++ r) = Some (length a).
Proof.
  induction a as [| x a IH]; intros H; [done |]. inversion H; subst.
  cbn [app bfind]. rewrite (IH ltac:(done)). cbn [startswith crlf]. by rewrite (proj2 (Z.eqb_neq 13 x)) by done.
Qed.

Lemma min_digits_no_cr n : 0 <= n -> Forall (fun c => c <> 13) (min_digits 16 n).
Proof.
  intros Hn. apply min_digits_chars; [by right | done |]. intros d Hd. unfold digit_char. destruct (d <? 10) eqn:E; zbool; lia.
Qed.

(** One chunk off the front of a body. *)
Lemma dechunk_wire fuel raw r :
  dechunk (S fuel) (wire true raw ++ r)
  = if bool_decide (raw = []) then if bool_decide (r = []) then Some [] else None
    else chunks ← dechunk fuel r; Some (raw :: chunks).
Proof.
  unfold wire. rewrite <- !app_assoc. cbn [dechunk].
  rewrite bfind_crlf by (apply min_digits_no_cr; lia). cbv beta iota zeta. rewrite take_app_length.
  rewrite py_int_min_digits by (by right || lia). cbv beta iota zeta.
  rewrite <- drop_drop, drop_app_length, Nat2Z.id. cbn [drop crlf app].
  rewrite drop_0, take_app_length, drop_app_length. cbn [startswith Z.eqb Pos.eqb andb drop].
  replace (startswith r []) with true by (by destruct r). cbv iota.
  destruct raw as [| x raw].
  - cbn. by destruct r.
  - rewrite (proj2 (Z.eqb_neq _ 0)) by (cbn; lia). rewrite bool_decide_eq_false_2 by done. done.
Qed.

(** A rover that reads the body to its closing chunk reads the frames that were sent. *)
Lemma dechunk_frames frames : Forall (fun f => f <> []) frames ->
  dechunk (S (length frames)) (concat (map (wire true) frames) ++ wire true []) = Some frames.
Proof.
  induction 1 as [| f frames Hf Hfs IH].
  - cbn [map concat app length]. rewrite <- (app_nil_r (wire true [])), dechunk_wire. done.
  - cbn [map concat length]. rewrite <- app_assoc, dechunk_wire, bool_decide_eq_false_2 by done. by rewrite IH.
Qed.

(** ** Admission *)

(** A stream is opened exactly for an authorised GET of the mountpoint below the cap. *)
Lemma handle_conn_serves n head req mount u :
  handle_conn n head = Serve req mount u
  <-> exists h, head = Some h /\ len h <= HEADER_LIMIT /\ req = parse_request h /\ method req = str "GET"
      /\ mount = mount_from_target (path req) /\ mount = mountpoint config /\ mount <> []
      /\ authorized config req = (true, u) /\ n < max_clients.
Proof using Type.
  unfold handle_conn. destruct head as [h|]; [| split; [done | by intros (? & ? & _)]].
  split.
  - destruct (HEADER_LIMIT <? len h) eqn:El; [done |]. destruct (bool_decide (method _ = _)) eqn:Em; [| done].
    destruct (bool_decide (_ = [])) eqn:En; [done |]. destruct (bool_decide (_ = mountpoint config)) eqn:Ec; [| done].
    destruct (authorized _ _) as [[] v] eqn:Ea; [| done]. cbn [negb]. destruct (_ <=? n) eqn:Ef; [done |].
    intros [= <- <- <-]. exists h. apply bool_decide_eq_true in Em, Ec. apply bool_decide_eq_false in En.
    apply Z.ltb_ge in El. apply Z.leb_gt in Ef. split_and!; done.
  - intros (h' & [= <-] & Hl & -> & Hm & -> & Hc & Hne & Ha & Hn).
    rewrite (proj2 (Z.ltb_ge _ _)), bool_decide_eq_true_2 by done. cbn [negb].
    rewrite bool_decide_eq_false_2, bool_decide_eq_true_2 by done. cbn [negb]. rewrite Ha. cbn [negb].
    by rewrite (proj2 (Z.leb_gt _ _)).
Qed.

(** Without a colon in the configured user, the one accepted secret is [user:password]. *)
Lemma authorized_spec req u :
  Forall scalar (username config) -> Forall scalar (password config) -> Forall (fun c => c <> 58) (username config) ->
  authorized config req = (true, u)
  <-> (password config = [] /\ u = None)
      \/ (password config <> [] /\ u = Some (utf8_encode (username config))
          /\ startswith (lower (header (str "authorization") (headers req))) (str "basic ") = true
          /\ b64decode (strip (drop 6 (header (str "authorization") (headers req))))
             = Some (utf8_encode (username config) ++ 58 :: utf8_encode (password config))).
Proof using Type.
  intros Hu Hp Hcol. unfold authorized, anonymous. case_bool_decide as Ean.
  { split; [intros [= <-]; by left | intros [[_ ->]|[? _]]; done]. }
  set (h := header _ _). destruct (startswith _ _) eqn:Es; cbn [negb]; [| split; [done | intros [[? _]|(_ & _ & ? & _)]; done]].
  assert (Hcu : Forall (fun c => c <> 58) (utf8_encode (username config))) by (by apply utf8_encode_ascii).
  assert (Hpe : utf8_encode (password config) <> []).
  { destruct (password config) as [| c r]; [done |]. cbn [utf8_encode flat_map]. unfold utf8_char.
    destruct (c <? 0x80), (c <? 0x800), (c <? 0x10000); done. }
  destruct (b64decode _) as [raw|]; [| split; [done | intros [[? _]|(_ & _ & _ & ?)]; done]]. split.
  - destruct (utf8_ok raw) eqn:Eok; [| done]. destruct (cut 58 raw) as [[a b]|] eqn:Ec; cbn [default fst snd].
    + intros [= [->%bool_decide_eq_true ->%bool_decide_eq_true]%andb_true_iff <-]. right. split_and!; try done.
      f_equal. by apply cut_spec in Ec.
    + intros [= [_ Hb%bool_decide_eq_true]%andb_true_iff _]. done.
  - intros [[? _]|(_ & -> & _ & [= ->])]; [done |].
    rewrite utf8_ok_pair by done.
    rewrite cut_app by done. cbn [default fst snd]. by rewrite !bool_decide_eq_true_2 by done.
Qed.

(** What a client sends for the user [u] and the password [w] is taken for exactly that pair. *)
Lemma authorized_basic req u w :
  password config <> [] -> Forall scalar u -> Forall scalar w -> Forall (fun c => c <> 58) u ->
  header (str "authorization") (headers req) = str "Basic " ++ b64encode (utf8_encode u ++ 58 :: utf8_encode w) ->
  authorized config req
  = (bool_decide (utf8_encode u = utf8_encode (username config)) && bool_decide (utf8_encode w = utf8_encode (password config)),
     Some (utf8_encode u)).
Proof using Type.
  intros Hne Hu Hw Hcol Hh. unfold authorized, anonymous. rewrite bool_decide_eq_false_2 by done. rewrite Hh.
  assert (Hb : bytes_ok (utf8_encode u ++ 58 :: utf8_encode w)).
  { apply list.Forall_app. split; [by apply bytes_ok_utf8 |]. constructor; [unfold is_byte; lia | by apply bytes_ok_utf8]. }
  assert (Hl : startswith (lower (str "Basic " ++ b64encode (utf8_encode u ++ 58 :: utf8_encode w))) (str "basic ") = true).
  { unfold lower. rewrite map_app. apply (startswith_app (str "basic ")). }
  rewrite Hl. cbn [negb]. rewrite (drop_app_length (str "Basic ")), strip_id, b64_roundtrip by
    (done || by apply (b64encode_chars (fun c => is_space c = false)); [apply base64_char_no_space | |]).
  rewrite utf8_ok_pair by done. rewrite cut_app by (by apply utf8_encode_ascii). done.
Qed.

(** ** The end of a stream *)

(** The turns a rover's handler has left once its end was asked for. *)
Definition rank (c : Client) : nat :=
  match at_ c with AtRow => 4 | AtDrain => 3 | AtGet => 2 | AtClosing => 1 | Ended _ _ => 0 end.
Definition turn (e : ClientEvent) : bool :=
  match e with Row _ | Get _ | Drained _ _ | Failed _ | ClosingDrained | Cancelled => true | _ => false end.

Lemma rank_step c e c' : stop_reason c <> None -> cstep c e = Some c' ->
  (rank c' <= rank c)%nat /\ (turn e = true -> (rank c' < rank c)%nat).
Proof.
  intros Hs H. unfold cstep in H. unfold rank. destruct e; cbn [turn].
  - injection H as <-. destruct (offer_same raw c) as (-> & _). by split.
  - injection H as <-. destruct (end_same reason c) as (-> & _). by split.
  - destruct (at_ c); [| done..]. injection H as <-. cbn. lia.
  - destruct (at_ c) eqn:Ha; [done | | done..]. unfold get in H. destruct (queue c) as [| raw q]; [done |]. injection H as <-.
    unfold got_frame. cbn [set_queue stop_reason]. destruct (stop_reason c); [cbn; lia | done].
  - destruct (at_ c) eqn:Ha; [done.. | | done | done]. injection H as <-.
    destruct (drained_cases unsent now c) as [[_ ->]|(_ & _ & ->)]; lia.
  - destruct (at_ c) eqn:Ha; [done.. | | done | done]. injection H as <-. cbn. lia.
  - destruct (at_ c) eqn:Ha; [done.. | | done]. injection H as <-. cbn. lia.
  - assert (c' = on_line now l c) as -> by (destruct (at_ c), (reading c); by inversion H).
    destruct (on_line_same now l c) as (-> & _). by split.
  - destruct (at_ c); inversion H; subst; cbn; lia.
Qed.

(** A rover asked to end always has a turn to take, without being cancelled. *)
Lemma turn_ready c : wakes c -> stop_reason c <> None -> is_ended c = false ->
  exists e c', turn e = true /\ e <> Cancelled /\ cstep c e = Some c'.
Proof.
  intros Hw Hs He. unfold wakes, is_ended in *. destruct (at_ c) eqn:Ha; [| | | | done].
  - exists (Row None). eexists. do 2 (split; [done |]). cbn. by rewrite Ha.
  - specialize (Hw Hs eq_refl). exists (Get false). cbn. rewrite Ha. unfold get. destruct (queue c); [done |]. by eexists.
  - exists (Drained 0 0). eexists. do 2 (split; [done |]). cbn. by rewrite Ha.
  - exists ClosingDrained. eexists. do 2 (split; [done |]). cbn. by rewrite Ha.
Qed.

(** ** The registered rovers *)

(** [c] is what events made of a rover's connection. *)
Definition served (c : Client) : Prop :=
  exists id ip port req user evs, crun (new_client id ip port req user) evs = Some c.

Lemma crun_app evs1 : forall c evs2, crun c (evs1 ++ evs2) = (c' ← crun c evs1; crun c' evs2).
Proof. induction evs1 as [| e evs IH]; intros c evs2; [done |]. cbn [app crun]. destruct (cstep c e); cbn; [apply IH | done]. Qed.

Lemma served_step c e c' : served c -> cstep c e = Some c' -> served c'.
Proof.
  intros (id & ip & port & req & user & evs & H) He. exists id, ip, port, req, user, (evs ++ [e]).
  rewrite crun_app, H. cbn. by rewrite He.
Qed.

Lemma cstep_keeps c e c' : cstep c e = Some c' -> cid c' = cid c /\ (stop_reason c <> None -> stop_reason c' <> None).
Proof.
  intros H. unfold cstep in H. destruct e.
  - injection H as <-. by destruct (offer_same raw c) as (_ & -> & _ & ->).
  - injection H as <-. by destruct (end_same reason c) as (_ & ? & _ & ->).
  - destruct (at_ c); by inversion H.
  - destruct (at_ c) eqn:Ha; [done | | done..]. unfold get in H. destruct (queue c) as [| raw q]; [done |]. injection H as <-.
    unfold got_frame. cbn [set_queue stop_reason]. destruct (stop_reason c) eqn:E; cbn; rewrite ?E; [done |].
    destruct closing; cbn; by rewrite E.
  - destruct (at_ c); inversion H; subst. destruct (drained_cases unsent now c) as [[? _]|(-> & _ & _)]; unfold drained; repeat case_match; done.
  - destruct (at_ c); by inversion H.
  - destruct (at_ c); by inversion H.
  - assert (c' = on_line now l c) as -> by (destruct (at_ c), (reading c); by inversion H).
    by destruct (on_line_same now l c) as (_ & -> & _ & ->).
  - destruct (at_ c); by inversion H.
Qed.

Definition good (c : Client) : Prop := served c /\ wakes c.

Record caster_ok (s : Caster) : Prop := {
  ok_cap : len (clients s) <= Z.max 0 max_clients;
  ok_ids : NoDup (map cid (clients s)) /\ Forall (fun c => cid c < next_id s) (clients s);
  ok_served : Forall good (clients s);
  ok_ended : ended_all s = true -> stopping s = true /\ Forall (fun c => stop_reason c <> None) (clients s)
}.

Lemma good_step c e c' : good c -> cstep c e = Some c' -> good c'.
Proof. intros [Hs Hw] H. split; [by eapply served_step | by eapply wakes_step]. Qed.

Lemma good_offer raw c : good c -> good (offer raw c).
Proof. intros H. by apply (good_step c (Offer raw)). Qed.
Lemma good_end reason c : good c -> good (end_ reason c).
Proof. intros H. by apply (good_step c (End reason)). Qed.

Lemma registered ip port req user s :
  let c := new_client (next_id s) ip port req user in
  let c := foldl (fun c raw => offer raw c) c (cached s) in
  let c := if stopping s then end_ (str "caster stopped") c else c in
  good c /\ cid c = next_id s /\ (stopping s = true -> stop_reason c <> None).
Proof.
  cbv zeta. generalize (cached s). intros frames.
  set (c0 := new_client (next_id s) ip port req user).
  assert (H0 : good c0 /\ cid c0 = next_id s).
  { split; [| done]. split; [by exists (next_id s), ip, port, req, user, [] | by intros ?]. }
  clearbody c0. revert c0 H0. induction frames as [| f fs IH]; intros c [Hg Hi]; cbn [foldl].
  - destruct (stopping s); [| done]. split; [by apply good_end |]. by destruct (end_same (str "caster stopped") c) as (_ & ? & _ & ->).
  - apply IH. split; [by apply good_offer |]. by destruct (offer_same f c) as (_ & _ & _ & ->).
Qed.

Lemma find_client id (l : list Client) c : List.find (fun c => cid c =? id) l = Some c -> c ∈ l /\ cid c = id.
Proof. intros [H1 H2]%find_some. split; [by apply list_elem_of_In | by apply Z.eqb_eq]. Qed.

(** Every rover may change by its own events, keeping its id. *)
Lemma ok_map (f : Client -> Client) s s' :
  caster_ok s -> clients s' = map f (clients s) -> next_id s' = next_id s -> ended_all s' = ended_all s -> stopping s' = stopping s ->
  (forall c, c ∈ clients s -> good c -> cid (f c) = cid c /\ good (f c) /\ (stop_reason c <> None -> stop_reason (f c) <> None)) ->
  caster_ok s'.
Proof.
  intros [Hcap [Hnd Hlt] Hg He] Ec En Ee Es Hf.
  assert (Hids : map cid (clients s') = map cid (clients s)).
  { rewrite Ec, map_map. apply List.map_ext_in. intros c Hc%list_elem_of_In. apply Hf; [done |].
    by apply (proj1 (list.Forall_forall _ _) Hg). }
  split.
  - by rewrite Ec, length_map.
  - rewrite Hids, En. split; [done |]. rewrite <- (List.Forall_map cid (fun i => i < next_id s)), Hids. by apply List.Forall_map.
  - rewrite Ec. apply List.Forall_map, list.Forall_forall. intros c Hc. apply Hf; [done |]. by apply (proj1 (list.Forall_forall _ _) Hg).
  - rewrite Ee, Es, Ec. intros H. destruct (He H) as [H1 H2]. split; [done |]. apply List.Forall_map, list.Forall_forall.
    intros c Hc. apply Hf; [done | by apply (proj1 (list.Forall_forall _ _) Hg) | by apply (proj1 (list.Forall_forall _ _) H2)].
Qed.

Lemma ok_same s s' : caster_ok s -> clients s' = clients s -> next_id s' = next_id s -> ended_all s' = ended_all s ->
  stopping s' = stopping s -> caster_ok s'.
Proof. intros H E1 E2 E3 E4. apply (ok_map id s); try done. by rewrite map_id. Qed.

Lemma ok_register ip port req user s : caster_ok s -> len (clients s) < max_clients -> caster_ok (register ip port req user s).
Proof.
  intros [Hcap [Hnd Hlt] Hg He] Hn. pose proof (registered ip port req user s) as (Hgc & Hid & Hst). unfold register.
  set (c := if stopping s then _ else _) in *. clearbody c. split; cbn [clients next_id ended_all stopping].
  - rewrite length_app. cbn. lia.
  - rewrite map_app. cbn [map]. split.
    + apply list.NoDup_app. split_and!; [done | | apply NoDup_singleton]. intros i Hi ->%list_elem_of_singleton.
      apply list_elem_of_fmap in Hi as (d & Hd & Hin). pose proof (proj1 (list.Forall_forall _ _) Hlt d Hin). cbn beta in *. lia.
    + apply list.Forall_app. split; [eapply list.Forall_impl; [exact Hlt |]; intros d Hd; cbn in *; lia |].
      constructor; [cbn; lia | done].
  - apply list.Forall_app. split; [done | by constructor].
  - intros H. destruct (He H) as [H1 H2]. split; [done |]. apply list.Forall_app. split; [done |]. constructor; [by apply Hst | done].
Qed.

Lemma filter_sublist (p : Client -> bool) l : List.filter p l `sublist_of` l.
Proof. induction l as [| c l IH]; [done |]. cbn. destruct (p c); by constructor. Qed.

Lemma Forall_sublist (P : Client -> Prop) l k : l `sublist_of` k -> Forall P k -> Forall P l.
Proof. induction 1; inversion 1; subst; auto. Qed.

Lemma ids_inj l (c d : Client) : NoDup (map cid l) -> c ∈ l -> d ∈ l -> cid c = cid d -> c = d.
Proof.
  induction l as [| x l IH]; intros Hnd Hc Hd E; [by inversion Hc |]. cbn [map] in Hnd. apply list.NoDup_cons in Hnd as [Hx Hnd].
  assert (Hno : forall y, y ∈ l -> cid x <> cid y) by (intros y Hy Ey; apply Hx; rewrite Ey; by apply list_elem_of_fmap_2).
  apply elem_of_cons in Hc as [->|Hc], Hd as [->|Hd]; [done | | | by apply IH].
  - by destruct (Hno d Hd).
  - by destruct (Hno c Hc).
Qed.

Lemma ok_filter (p : Client -> bool) s s' :
  caster_ok s -> clients s' = List.filter p (clients s) -> next_id s' = next_id s -> ended_all s' = ended_all s ->
  stopping s' = stopping s -> caster_ok s'.
Proof.
  intros [Hcap [Hnd Hlt] Hg He] Ec En Ee Es.
  assert (Hsub : clients s' `sublist_of` clients s) by (rewrite Ec; apply filter_sublist).
  split.
  - apply sublist_length in Hsub. lia.
  - rewrite En. split; [| by eapply Forall_sublist]. eapply sublist_NoDup; [exact Hnd | by apply fmap_sublist].
  - by eapply Forall_sublist.
  - rewrite Ee, Es. intros H. destruct (He H). split; [done | by eapply Forall_sublist].
Qed.

Lemma ok_step s e s' : caster_ok s -> step s e = Some s' -> caster_ok s'.
Proof.
  intros Hok H. destruct e as [ip port head out | ty raw | id e | id | |]; cbn [step] in H.
  - injection H as <-. destruct (handle_conn _ _) as [p | p | req mount user] eqn:E; [by apply (ok_same s).. |].
    destruct out; [| done]. apply ok_register; [done |]. apply handle_conn_serves in E as (_ & _ & _ & _ & _ & _ & _ & _ & _ & E). exact E.
  - destruct (stopping s) eqn:Es; [done |]. injection H as <-. eapply (ok_map (offer raw)); try done.
    intros c _ Hc. destruct (offer_same raw c) as (_ & -> & _ & ->). split_and!; [done | by apply good_offer | done].
  - destruct (List.find _ _) as [c|] eqn:Ef; [| done]. cbn [mbind option_bind] in H. apply find_client in Ef as [Hin Hid].
    destruct (_ || _); [done |]. destruct (cstep c e) as [c'|] eqn:Ec; [| done]. cbn in H. injection H as <-.
    destruct (cstep_keeps _ _ _ Ec) as [Hk Hs].
    assert (Hok' : caster_ok (set_clients (map (fun d => if cid d =? id then c' else d) (clients s)) s)).
    { eapply (ok_map (fun d => if cid d =? id then c' else d)); try done. intros d Hd Hg.
      destruct (cid d =? id) eqn:Ed; [| done]. apply Z.eqb_eq in Ed.
      assert (d = c) as ->; [| split_and!; [done | by eapply good_step | done]].
      destruct Hok as [_ [Hnd _] _ _]. eapply ids_inj; [exact Hnd | done | done | congruence]. }
    destruct (publishes e); [by eapply ok_same | done].
  - destruct (List.find _ _) as [c|] eqn:Ef; [| done]. cbn in H. destruct (is_ended c); [| done]. injection H as <-.
    eapply ok_filter; [exact Hok | done..].
  - injection H as <-. destruct Hok as [H1 H2 H3 H4]. split; try done. cbn. intros H. split; [done | by apply H4].
  - destruct (stopping s) eqn:Es; [| done]. injection H as <-. destruct Hok as [H1 H2 H3 H4].
    assert (Hok' : caster_ok (mkCaster (map (end_ (str "caster stopped")) (clients s)) (next_id s) (last_1005 s) (last_1230 s) (rejected s)
                true (ended_all s) (answered s) (published s))).
    { eapply (ok_map (end_ (str "caster stopped")) s); try done. intros c _ Hc.
      destruct (end_same (str "caster stopped") c) as (_ & ? & _ & ->). split_and!; [done | by apply good_end | done]. }
    destruct Hok' as [H1' H2' H3' _]. split; try done. cbn. intros _. split; [done |]. apply List.Forall_map, list.Forall_true.
    intros c. by destruct (end_same (str "caster stopped") c) as (_ & ? & _).
Qed.

Lemma ok_reach s : reach s -> caster_ok s.
Proof.
  induction 1 as [| s e s' _ IH Hs]; [| by eapply ok_step].
  split; cbn; [lia | split; constructor | constructor | done].
Qed.

(** C10.  For every rover and every sequence of events of its connection (frames offered,
    writes, time-outs, slow periods, errors, positions, the end asked for): what went out after the
    answer is a subsequence of the frames offered, in order, each framed once, and at most one
    closing chunk, after all of them; while the stream runs, each frame offered has been sent, is
    queued or is counted as dropped; the queue keeps at most 64 frames; [bytes_sent] counts exactly
    the bytes written; and a v2 body that was closed reads back, as HTTP chunks, to exactly the
    frames sent. *)
Theorem stream_delivers id ip port req user evs c :
  crun (new_client id ip port req user) evs = Some c ->
  Forall (fun e => match e with Offer raw => raw <> [] | _ => True end) evs ->
  exists sent,
    written c = map (wire (is_v2 c)) sent ++ (if body_closed (at_ c) then [wire (is_v2 c) []] else [])
    /\ sent `sublist_of` offered evs /\ Forall (fun f => f <> []) sent
    /\ (streaming (at_ c) = true ->
        sent ++ queue c `sublist_of` offered evs /\ len (offered evs) = len sent + len (queue c) + dropped c)
    /\ len (queue c) <= CLIENT_QUEUE_FRAMES /\ 0 <= dropped_frames c <= dropped c
    /\ bytes_sent c = len (concat (written c))
    /\ (is_v2 c = true -> body_closed (at_ c) = true -> dechunk (S (length sent)) (concat (written c)) = Some sent).
Proof.
  intros H He. edestruct books_run as (d & (Hw & Hb & Hq & Hd & Hs) & Hne);
    [apply books_new | by intros _; constructor | constructor | exact He | exact H |]. cbn [app] in Hs.
  exists d. split; [exact Hw |]. split; [destruct (streaming (at_ c)); [| done]; destruct Hs as [Hs _];
    etrans; [| exact Hs]; by apply sublist_inserts_r |].
  split_and!; try done.
  - intros E. by rewrite E in Hs.
  - lia.
  - lia.
  - intros E2 Ec. rewrite Hw, E2, Ec, concat_app. cbn [concat]. rewrite app_nil_r. by apply dechunk_frames.
Qed.

(** C11.  For a caster whose configured user name has no colon: whatever the request, it opens a stream only for a GET of its own
    mountpoint, in a head within the limit, below the cap on rovers and, unless it is anonymous,
    for a Basic secret that decodes to exactly the configured [user:password]; and it does open
    it for every such request. *)
Theorem stream_admission n head req mount u :
  Forall scalar (username config) -> Forall scalar (password config) -> Forall (fun c => c <> 58) (username config) ->
  handle_conn n head = Serve req mount u
  <-> exists h, head = Some h /\ len h <= HEADER_LIMIT /\ req = parse_request h /\ method req = str "GET"
      /\ mount = mount_from_target (path req) /\ mount = mountpoint config /\ mount <> [] /\ n < max_clients
      /\ ((password config = [] /\ u = None)
          \/ (password config <> [] /\ u = Some (utf8_encode (username config))
              /\ startswith (lower (header (str "authorization") (headers req))) (str "basic ") = true
              /\ b64decode (strip (drop 6 (header (str "authorization") (headers req))))
                 = Some (utf8_encode (username config) ++ 58 :: utf8_encode (password config)))).
Proof using Type. clear parse_gga. intros Hu Hp Hc. rewrite handle_conn_serves. setoid_rewrite authorized_spec; [| done..].
  split; intros (h & H); exists h; intuition.
Qed.

(** C12.  In every state the caster reaches, at most [max_clients] rovers are registered,
    under distinct ids; and once [stop] has gone through them, every rover (also one that was
    registered since) has been asked to end, its handler has a turn to take as long as it has not
    ended, and each of its turns brings the end nearer, which no other event moves away: the
    stream is over after four of them. The turn is no cancellation: the handler waits for the
    insertion of its row or in a [drain] that has a time limit, or a frame is in its queue to wake it. *)
Theorem stopped_streams_end s : reach s ->
  len (clients s) <= Z.max 0 max_clients /\ NoDup (map cid (clients s))
  /\ (ended_all s = true -> forall c, c ∈ clients s ->
      stop_reason c <> None
      /\ (is_ended c = false -> exists e c', turn e = true /\ e <> Cancelled /\ cstep c e = Some c')
      /\ forall e c', cstep c e = Some c' -> (rank c' <= rank c <= 4)%nat /\ (turn e = true -> (rank c' < rank c)%nat)).
Proof.
  intros Hr. destruct (ok_reach s Hr) as [Hcap [Hnd _] Hg He]. split; [done |]. split; [done |].
  intros E c Hc. destruct (He E) as [_ Hs]. pose proof (proj1 (list.Forall_forall _ _) Hs c Hc) as Hsc.
  destruct (proj1 (list.Forall_forall _ _) Hg c Hc) as [_ Hw]. split; [done |]. split; [by apply turn_ready |].
  intros e c' H. destruct (rank_step _ _ _ Hsc H). split; [| done]. split; [done |]. unfold rank. destruct (at_ c); lia.
Qed.

End Caster.

(** ** Witnesses *)

Definition test_config : CasterConfig :=
  mkConfig (str "MTRK") (str "rover") (str "s3cret") (str "MTRK") (str "THA") (str "mtrtk") [] [] [].
Definition no_gga (l : bytes) : option (Z * Z) := None.

(** A v2 request with the right secret, in the absolute form, lower case and with padding. *)
Definition test_head : bytes :=
  line (str "get http://base:2101/MTRK?x HTTP/1.1") ++ line (str "NTRIP-Version:  Ntrip/2.0")
  ++ line (str "authorization: Basic cm92ZXI6czNjcmV0 ") ++ crlf.

Lemma stream_admission_witness :
  handle_conn test_config 2 None 0 1 (Some test_head)
  = Serve (parse_request test_head) (str "MTRK") (Some (str "rover")) /\ v2 (parse_request test_head) = true.
Proof.
  split; [| vm_compute; reflexivity].
  apply (stream_admission test_config 2 None 0 1);
    [by repeat constructor | by repeat constructor | by repeat constructor |].
  exists test_head. split_and!; try (vm_compute; reflexivity); try (vm_compute; discriminate).
  right. split_and!; try (vm_compute; reflexivity). vm_compute; discriminate.
Defined.

Definition test_events : list ClientEvent :=
  [Offer [211; 0; 1]; Row (Some 7); Get false; Offer [211; 0; 2]; Drained 300000 1; Get false; Offer [211; 0; 3];
   Drained 300000 10000002; ClosingDrained].

(** A v2 rover that stops reading: two frames, the slow period, the closing chunk. *)
Lemma stream_delivers_witness :
  exists c sent, crun no_gga (new_client 1 [] 5 (parse_request test_head) None) test_events = Some c
  /\ at_ c = Ended true (str "slow client") /\ sent `sublist_of` offered test_events /\ length sent = 2%nat
  /\ dechunk (S (length sent)) (concat (written c)) = Some sent.
Proof.
  destruct (crun no_gga (new_client 1 [] 5 (parse_request test_head) None) test_events) as [c|] eqn:E; [| vm_compute in E; discriminate].
  destruct (stream_delivers no_gga 1 [] 5 (parse_request test_head) None test_events c E) as (sent & Hw & Hs & _ & _ & _ & _ & _ & Hd);
    [repeat constructor; done |].
  vm_compute in E. injection E as <-. eexists _, sent. split; [reflexivity |]. split; [reflexivity |]. split; [done |].
  split; [| exact (Hd eq_refl eq_refl)]. apply (f_equal length) in Hw. rewrite length_app, length_map in Hw. cbn in Hw. lia.
Defined.

Fixpoint run_events (s : Caster) (evs : list Event) : option Caster :=
  match evs with
  | [] => Some s
  | e :: evs => s ← step test_config 2 None 0 no_gga s e; run_events s evs
  end.
Lemma reach_events evs : forall s s', reach test_config 2 None 0 no_gga s -> run_events s evs = Some s' -> reach test_config 2 None 0 no_gga s'.
Proof.
  induction evs as [| e evs IH]; intros s s' Hr H; cbn [run_events] in H; [by injection H as <- |].
  destruct (step _ _ _ _ _ s e) as [s1|] eqn:E; [| done]. eapply IH; [| exact H]. by eapply reach_step.
Qed.

(** Two rovers fill the cap, a third is refused; the caster stops. *)
Lemma stopped_streams_end_witness :
  exists s, reach test_config 2 None 0 no_gga s /\ length (clients s) = 2%nat /\ rejected s = 1
  /\ forall c, c ∈ clients s -> stop_reason c <> None.
Proof.
  destruct (run_events new_caster
    [Frame (Some 1005) [211; 0; 5]; Connect [] 1 (Some test_head) true; On 1 (Row None); Connect [] 2 (Some test_head) true;
     Connect [] 3 (Some test_head) true; Frame None [211; 0; 1]; StopBegin; StopClients]) as [s|] eqn:E;
    [| vm_compute in E; discriminate].
  assert (Hr : reach test_config 2 None 0 no_gga s) by (eapply reach_events; [apply reach_new | exact E]).
  destruct (stopped_streams_end test_config 2 None 0 no_gga s Hr) as (_ & _ & H).
  exists s. split; [exact Hr |]. vm_compute in E. injection E as <-. split; [reflexivity |]. split; [reflexivity |].
  intros c Hc. by apply H.
Defined.
