(* ===== verification/StateModels.v ===== *)
(** * The live receiver state ([core/state.py])

    A pydantic model instance is its attribute dict: assignments are not validated, so a section
    of the state is a finite map from attribute names to Python values ([Attrs]), and a model's
    definition is the dict of its defaults. Satellites, signals, statistics and the whole state,
    whose structure the store works on, are records. Monotonic times are microseconds. *)

From Stdlib Require Import String.
From stdpp Require Import gmap.
From S2P Require Import Prelude.
From S2P Require Import PyBytes.
From S2P Require Import Calendar.

(** Python values; a float is its double. *)
Inductive V := VNone | VBool (b : bool) | VInt (i : Z) | VFloat (x : Z) | VStr (s : bytes) | VBytes (b : bytes)
             | VList (l : list V) | VTime (t : Datetime).

Definition Attrs := gmap bytes V.
Definition attrs (l : list (string * V)) : Attrs := list_to_map (map (fun kv => (str kv.1, kv.2)) l).

#[local] Open Scope string_scope.

(** ** Names *)

Definition named (table : list (Z * string)) (default_ : Z -> bytes) (k : Z) : bytes :=
  match List.find (fun kv => Z.eqb kv.1 k) table with Some kv => str kv.2 | None => default_ k end.

Definition GNSS_NAMES : list (Z * string) :=
  [(0, "GPS"); (1, "SBAS"); (2, "Galileo"); (3, "BeiDou"); (4, "IMES"); (5, "QZSS"); (6, "GLONASS"); (7, "NavIC")].
Definition SIGNAL_NAMES : list (Z * Z * string) :=
  [(0, 0, "L1C/A"); (0, 3, "L2CL"); (0, 4, "L2CM"); (0, 6, "L5I"); (0, 7, "L5Q"); (1, 0, "L1C/A");
   (2, 0, "E1C"); (2, 1, "E1B"); (2, 3, "E5aI"); (2, 4, "E5aQ"); (2, 5, "E5bI"); (2, 6, "E5bQ");
   (3, 0, "B1I D1"); (3, 1, "B1I D2"); (3, 2, "B2I D1"); (3, 3, "B2I D2"); (3, 5, "B1C"); (3, 7, "B2a");
   (5, 0, "L1C/A"); (5, 1, "L1S"); (5, 4, "L2CM"); (5, 5, "L2CL"); (5, 8, "L5I"); (5, 9, "L5Q");
   (6, 0, "L1OF"); (6, 2, "L2OF"); (7, 0, "L5A")].
Definition FIX_TYPE_NAMES : list (Z * string) :=
  [(0, "No fix"); (1, "Dead reckoning"); (2, "2D"); (3, "3D"); (4, "GNSS+DR"); (5, "Time only")].
Definition CARR_SOLN_NAMES : list (Z * string) := [(0, "None"); (1, "RTK float"); (2, "RTK fixed")].
Definition ANT_STATUS_NAMES : list (Z * string) := [(0, "Init"); (1, "Unknown"); (2, "OK"); (3, "Short"); (4, "Open")].
Definition ANT_POWER_NAMES : list (Z * string) := [(0, "Off"); (1, "On"); (2, "Unknown")].
Definition JAMMING_STATE_NAMES : list (Z * string) := [(0, "Unknown"); (1, "OK"); (2, "Warning"); (3, "Critical")].
(** The codes of [lastCorrectionAge]; [.get] of any other is [None]. *)
Definition CORR_AGE_CODE_S : list (Z * V) :=
  [(0, VNone); (1, VInt 1); (2, VInt 2); (3, VInt 5); (4, VInt 10); (5, VInt 15); (6, VInt 20); (7, VInt 30);
   (8, VInt 45); (9, VInt 60); (10, VInt 90); (11, VInt 120); (12, VInt 121)].
Definition MAX_TIME_MARKS : nat := 100.

Definition signal_name (gnss_id sig_id : Z) : bytes :=
  match List.find (fun e => Z.eqb e.1.1 gnss_id && Z.eqb e.1.2 sig_id) SIGNAL_NAMES with
  | Some e => str e.2
  | None => (str "sig" ++ str_int sig_id)%list
  end.

(** ** Sections with their defaults *)

Definition Position : Attrs :=
  attrs [("lat", VNone); ("lon", VNone); ("height_m", VNone); ("hmsl_m", VNone); ("ecef_x_m", VNone); ("ecef_y_m", VNone);
         ("ecef_z_m", VNone); ("invalid_llh", VBool false)].
Definition Accuracy : Attrs :=
  attrs [("h_acc_m", VNone); ("v_acc_m", VNone); ("p_acc_m", VNone); ("t_acc_ns", VNone); ("s_acc_mps", VNone); ("head_acc_deg", VNone)].
Definition Dops : Attrs :=
  attrs [("g", VNone); ("p", VNone); ("t", VNone); ("v", VNone); ("h", VNone); ("n", VNone); ("e", VNone)].
Definition FixInfo : Attrs :=
  attrs [("fix_type", VInt 0); ("fix_type_name", VStr (str "No fix")); ("gnss_fix_ok", VBool false); ("diff_soln", VBool false);
         ("carr_soln", VInt 0); ("carr_soln_name", VStr (str "None")); ("num_sv", VInt 0); ("last_correction_age", VInt 0);
         ("psm_state", VInt 0); ("spoof_det_state", VInt 0); ("ttff_ms", VNone); ("uptime_ms", VNone)].
Definition Velocity : Attrs :=
  attrs [("vel_n_mps", VNone); ("vel_e_mps", VNone); ("vel_d_mps", VNone); ("ground_speed_mps", VNone); ("heading_motion_deg", VNone)].
Definition TimeInfo : Attrs :=
  attrs [("utc", VNone); ("itow_ms", VNone); ("gps_week", VNone); ("gps_tow_s", VNone); ("leap_s", VNone); ("valid_date", VBool false);
         ("valid_time", VBool false); ("fully_resolved", VBool false); ("valid_utc", VBool false); ("utc_standard", VNone);
         ("t_acc_ns", VNone); ("clk_bias_ns", VNone); ("clk_drift_nsps", VNone); ("f_acc_psps", VNone); ("leap_source", VNone);
         ("time_to_leap_event_s", VNone); ("leap_change", VNone)].
Definition SurveyIn : Attrs :=
  attrs [("active", VBool false); ("valid", VBool false); ("dur_s", VInt 0); ("obs", VInt 0); ("mean_x_m", VNone); ("mean_y_m", VNone);
         ("mean_z_m", VNone); ("mean_acc_m", VNone)].
Definition Firmware : Attrs :=
  attrs [("sw_version", VStr []); ("hw_version", VStr []); ("fw_version", VStr []); ("protver", VStr []); ("module", VStr []);
         ("extensions", VList [])].
(** [RtkStatus] without [rtcm_rx], its totals and its times, which [ReceiverState] holds apart. *)
Definition RtkStatus : Attrs :=
  attrs [("carr_soln", VInt 0); ("carr_soln_name", VStr (str "None")); ("diff_soln", VBool false); ("rel_pos_n_m", VNone);
         ("rel_pos_e_m", VNone); ("rel_pos_d_m", VNone); ("baseline_m", VNone); ("heading_deg", VNone); ("heading_valid", VBool false);
         ("acc_n_m", VNone); ("acc_e_m", VNone); ("acc_d_m", VNone); ("acc_length_m", VNone); ("acc_heading_deg", VNone);
         ("ref_station_id", VNone); ("rel_pos_valid", VBool false); ("is_moving", VBool false); ("ref_pos_missing", VBool false);
         ("ref_obs_missing", VBool false); ("normalized", VBool false); ("corr_age_receiver_s", VNone)].

(** ** Satellites, statistics, marks *)

Record Signal := mkSignal { sig_id : Z; sig_attrs : Attrs }.
Record Satellite := mkSatellite { gnss_id : Z; gnss : bytes; sv_id : Z; sat_attrs : Attrs; signals : list Signal }.

(** A fresh [Satellite]. *)
Definition satellite (g s : Z) : Satellite :=
  mkSatellite g (named GNSS_NAMES (fun k => (str "gnss" ++ str_int k)%list) g) s
    (attrs [("cno", VInt 0); ("elev", VNone); ("azim", VNone); ("pr_res_m", VFloat 0); ("quality_ind", VInt 0); ("used", VBool false);
            ("health", VInt 0); ("diff_corr", VBool false); ("smoothed", VBool false); ("orbit_source", VInt 0);
            ("eph_avail", VBool false); ("alm_avail", VBool false)]) [].

Definition sat_used (s : Satellite) : bool :=
  match sat_attrs s !! str "used" with Some (VBool true) => true | _ => false end.

(** [per_gnss]: tracked and used by constellation. *)
Record SatSummary := mkSummary { tracked : Z; used : Z; per_gnss : gmap bytes (Z * Z) }.

Record RtcmMsgStats := mkMsgStats { m_count : Z; m_bytes : Z; m_last_seen : Z }.
Record RtcmStats := mkRtcmStats { messages : gmap Z RtcmMsgStats; total_count : Z; total_bytes : Z; bytes_per_s : Z }.
Record RtcmRxStats := mkRxStats { rx_count : Z; rx_used : Z; rx_crc_failed : Z; rx_last_seen : option Z }.

(** [TimeMark]: the rising edge's week and time of week, and its UTC, the rest as attributes. *)
Record TimeMark := mkMark { mark_attrs : Attrs; new_rising : bool; rising_utc : option Datetime }.

(** Where the satellites of [state.sats] live: the objects of the epoch being collected, by key,
    which later messages of that epoch change in place, or those of an epoch that is over. *)
Inductive Sats := Live (keys : list (Z * Z)) | Past (sats : list Satellite).

(** [ReceiverState], the part the u-blox store fills. [sections] are the attribute dicts by their
    names; [rtcm_rx] to [last_rtcm] belong to [rtk]. *)
Record ReceiverState := mkState {
  sections : gmap bytes Attrs; sats : Sats; sat_summary : SatSummary;
  blocks : gmap bytes (list Attrs); rtcm_out : RtcmStats;
  rtcm_rx : gmap Z RtcmRxStats; rtcm_rx_total : Z; rtcm_crc_failed : Z; corr_age : option Z; last_rtcm : option Z;
  time_marks : list TimeMark; epoch_count : Z; raw_epochs : Z; last_epoch : option Z
}.

(** [blocks]: the lists [rf], [spectrum] and [ports]; [hardware] is [None] until a [MON-HW]. *)
Definition new_state : ReceiverState :=
  mkState (list_to_map [(str "position", Position); (str "accuracy", Accuracy); (str "dops", Dops); (str "fix", FixInfo);
                        (str "velocity", Velocity); (str "time", TimeInfo); (str "survey_in", SurveyIn);
                        (str "firmware", Firmware); (str "rtk", RtkStatus)])
    (Past []) (mkSummary 0 0 ∅)
    (list_to_map [(str "rf", []); (str "spectrum", []); (str "ports", [])]) (mkRtcmStats ∅ 0 0 0)
    ∅ 0 0 None None [] 0 0 None.
