(* ===== verification/StateStore.v ===== *)
(** * The state store ([core/statestore.py])

    [StateStore] applies parsed frames to the receiver state. The parsers are the libraries':
    [parse] is [frame.parsed()] of a UBX frame, as the attribute dict of the message, or [None]
    when it raises; [identity] is the name its class and id have. A handler is a program over
    [HState] (the state it fills) that may raise, which keeps the changes made before; the
    inference of epoch ends has a state of its own, [Infer]. Publications are appended to
    [out]: a section by its name (the item is the live object), an epoch as the copy it is.
    [set] iteration order is not modelled: sections are published in the order the source lists
    them. Pydantic validation of the values a constructor is given is taken to be the identity. *)

From Stdlib Require Import String.
From stdpp Require Import gmap.
From S2P Require Import Prelude.
From S2P Require Import PyBytes.
From S2P Require Import PyFloat.
From S2P Require Import Calendar.
From S2P Require Import Framing.
From S2P Require Import StateModels.

Definition Msg := Attrs.

(** ** GPS time *)

Definition RTCM_RATE_WINDOW : Z := 5 * US.
Definition EOE_MISSED_LIMIT : Z := 2.
Definition EPOCH_NAV_MESSAGES : list bytes :=
  map str ["NAV-PVT"; "NAV-HPPOSLLH"; "NAV-HPPOSECEF"; "NAV-DOP"; "NAV-STATUS"; "NAV-CLOCK"; "NAV-TIMEGPS"; "NAV-TIMELS";
           "NAV-TIMEUTC"; "NAV-SAT"; "NAV-SIG"; "NAV-SVIN"; "NAV-RELPOSNED"]%string.
Definition GPS_EPOCH : Datetime := Eval vm_compute in days_from_civil 1980 1 6 * DAY.
Definition DEFAULT_LEAP_S : Z := 18.

(** The datetimes Python can hold. *)
Definition in_datetime (t : Z) : bool :=
  (days_from_civil 1 1 1 * DAY <=? t) && (t <? days_from_civil 10000 1 1 * DAY).

Definition fneg (x : Z) : Z := if x <? 2 ^ 63 then x + 2 ^ 63 else x - 2 ^ 63.
Definition fsub (x y : Z) : Z := fadd x (fneg y).

(** [round(x)] of a float; [None] raises. *)
Definition round_float (x : Z) : option Z :=
  match f64 x with FFin neg m e => Some (signed neg (rne (m * pow2 e) (pow2 (- e)))) | _ => None end.

(** [timedelta(seconds=x)] in microseconds: the whole seconds exactly, the rest as the rounded
    product of the fraction, to the nearest microsecond, ties to even. *)
Definition seconds_us (x : Z) : option Z :=
  match f64 x with
  | FFin neg m e =>
      let n := m * pow2 e in
      let d := pow2 (- e) in
      let frac := fmul (of_dyadic false (n mod d) (- Z.max 0 (- e))) (of_int US) in
      match f64 frac with
      | FFin _ m' e' => Some (signed neg (rne (n / d * US * pow2 (- e') + m' * pow2 e') (pow2 (- e'))))
      | _ => None
      end
  | _ => None
  end.

(** [gps_to_utc]; [None]: [OverflowError]. *)
Definition gps_to_utc (week tow leap : Z) : option Datetime :=
  s ← seconds_us (fsub tow (of_int leap));
  let t := GPS_EPOCH + week * 7 * DAY + s in
  if in_datetime t then Some t else None.

(** [gps_from_utc] of an aware datetime, the time of week in microseconds. *)
Definition gps_from_utc (utc : Datetime) (leap_s : option Z) : Z * Z :=
  let x := utc - GPS_EPOCH + default DEFAULT_LEAP_S leap_s * US in
  (x / (7 * DAY), x mod (7 * DAY)).

(** ** The handlers' state and monad *)

Inductive Out := Changed (section : bytes) | Mark (m : TimeMark) | Epoch (snapshot : ReceiverState).

Record HState := mkH {
  state : ReceiverState; sat_epoch : gmap (Z * Z) Satellite; sat_itow : option Z; clamped_second : bool;
  now_mono : Z; out : list Out
}.

Definition set_state (r : ReceiverState) (h : HState) : HState :=
  mkH r (sat_epoch h) (sat_itow h) (clamped_second h) (now_mono h) (out h).
Definition set_sat_epoch (e : gmap (Z * Z) Satellite) (i : option Z) (h : HState) : HState :=
  mkH (state h) e i (clamped_second h) (now_mono h) (out h).
Definition set_clamped (h : HState) : HState := mkH (state h) (sat_epoch h) (sat_itow h) true (now_mono h) (out h).
Definition set_now (t : Z) (h : HState) : HState := mkH (state h) (sat_epoch h) (sat_itow h) (clamped_second h) t (out h).
Definition push (o : Out) (h : HState) : HState :=
  mkH (state h) (sat_epoch h) (sat_itow h) (clamped_second h) (now_mono h) (out h ++ [o]).

Definition set_sections (f : gmap bytes Attrs -> gmap bytes Attrs) (r : ReceiverState) : ReceiverState :=
  mkState (f (sections r)) (sats r) (sat_summary r) (blocks r) (rtcm_out r) (rtcm_rx r) (rtcm_rx_total r) (rtcm_crc_failed r)
    (corr_age r) (last_rtcm r) (time_marks r) (epoch_count r) (raw_epochs r) (last_epoch r).
Definition set_sats (s : Sats) (u : SatSummary) (r : ReceiverState) : ReceiverState :=
  mkState (sections r) s u (blocks r) (rtcm_out r) (rtcm_rx r) (rtcm_rx_total r) (rtcm_crc_failed r)
    (corr_age r) (last_rtcm r) (time_marks r) (epoch_count r) (raw_epochs r) (last_epoch r).
Definition set_blocks (name : bytes) (l : list Attrs) (r : ReceiverState) : ReceiverState :=
  mkState (sections r) (sats r) (sat_summary r) (<[name := l]> (blocks r)) (rtcm_out r) (rtcm_rx r) (rtcm_rx_total r)
    (rtcm_crc_failed r) (corr_age r) (last_rtcm r) (time_marks r) (epoch_count r) (raw_epochs r) (last_epoch r).
Definition set_rtcm_out (o : RtcmStats) (r : ReceiverState) : ReceiverState :=
  mkState (sections r) (sats r) (sat_summary r) (blocks r) o (rtcm_rx r) (rtcm_rx_total r) (rtcm_crc_failed r)
    (corr_age r) (last_rtcm r) (time_marks r) (epoch_count r) (raw_epochs r) (last_epoch r).
Definition set_rtcm_rx (rx : gmap Z RtcmRxStats) (total failed : Z) (r : ReceiverState) : ReceiverState :=
  mkState (sections r) (sats r) (sat_summary r) (blocks r) (rtcm_out r) rx total failed
    (corr_age r) (last_rtcm r) (time_marks r) (epoch_count r) (raw_epochs r) (last_epoch r).
Definition set_corr_age (age last : option Z) (r : ReceiverState) : ReceiverState :=
  mkState (sections r) (sats r) (sat_summary r) (blocks r) (rtcm_out r) (rtcm_rx r) (rtcm_rx_total r) (rtcm_crc_failed r)
    age last (time_marks r) (epoch_count r) (raw_epochs r) (last_epoch r).
Definition set_time_marks (l : list TimeMark) (r : ReceiverState) : ReceiverState :=
  mkState (sections r) (sats r) (sat_summary r) (blocks r) (rtcm_out r) (rtcm_rx r) (rtcm_rx_total r) (rtcm_crc_failed r)
    (corr_age r) (last_rtcm r) l (epoch_count r) (raw_epochs r) (last_epoch r).
Definition set_epochs (n raw : Z) (last : option Z) (r : ReceiverState) : ReceiverState :=
  mkState (sections r) (sats r) (sat_summary r) (blocks r) (rtcm_out r) (rtcm_rx r) (rtcm_rx_total r) (rtcm_crc_failed r)
    (corr_age r) (last_rtcm r) (time_marks r) n raw last.

Definition M (A : Type) : Type := HState -> HState * option A.
#[export] Instance M_ret : MRet M := fun A x h => (h, Some x).
#[export] Instance M_bind : MBind M := fun A B k m h =>
  match m h with (h', Some x) => k x h' | (h', None) => (h', None) end.
Definition raise {A} : M A := fun h => (h, None).
Definition lift {A} (x : option A) : M A := fun h => (h, x).
Definition gets {A} (f : HState -> A) : M A := fun h => (h, Some (f h)).
Definition modify (f : HState -> HState) : M unit := fun h => (f h, Some tt).
Definition on_state (f : ReceiverState -> ReceiverState) : M unit := modify (fun h => set_state (f (state h)) h).

(** ** Attributes and values *)

(** [m.name]. *)
Definition attr (m : Msg) (name : string) : M V := lift (m !! str name).
(** [getattr(m, name + sfx)]. *)
Definition attr_i (m : Msg) (name : string) (sfx : bytes) : M V := lift (m !! (str name ++ sfx)).

(** A value the code uses as a number that must be whole: a key, a count, a bound. *)
Definition int_of (v : V) : M Z :=
  match v with VInt i => mret i | VBool b => mret (Z.b2z b) | _ => raise end.

(** [bool(v)]. *)
Definition truthy (v : V) : bool :=
  match v with
  | VNone => false
  | VBool b => b
  | VInt i => negb (i =? 0)
  | VFloat x => negb (x mod 2 ^ 63 =? 0)
  | VStr s | VBytes s => negb (bool_decide (s = []))
  | VList l => match l with [] => false | _ => true end
  | VTime _ => true
  end.
Definition flag (m : Msg) (name : string) : M V := v ← attr m name; mret (VBool (truthy v)).
Definition flag_i (m : Msg) (name : string) (sfx : bytes) : M V := v ← attr_i m name sfx; mret (VBool (truthy v)).

(** [v / n] for a positive [n]. *)
Definition div_float (v : V) (n : Z) : M Z :=
  match v with
  | VInt i => mret (fdiv_int i n)
  | VBool b => mret (fdiv_int (Z.b2z b) n)
  | VFloat x => mret (fdiv_pos x n)
  | _ => raise
  end.
Definition over (m : Msg) (name : string) (n : Z) : M Z := v ← attr m name; div_float v n.
Definition ratio (m : Msg) (name : string) (n : Z) : M V := x ← over m name n; mret (VFloat x).

(** [s.section.name = v]. *)
Definition put (section name : string) (v : V) : M unit :=
  on_state (set_sections (fun ss => <[str section := <[str name := v]> (default ∅ (ss !! str section))]> ss)).

(** Assignments one after the other, each value computed when its turn comes. *)
Fixpoint assign (section : string) (l : list (string * M V)) : M unit :=
  match l with
  | [] => mret tt
  | (name, e) :: l => v ← e; put section name v;; assign section l
  end.

(** The keyword arguments of a constructor, evaluated in order. *)
Fixpoint kwargs (l : list (string * M V)) : M Attrs :=
  match l with
  | [] => mret ∅
  | (name, e) :: l => v ← e; rest ← kwargs l; mret (<[str name := v]> rest)
  end.

(** [s.section = Model(...)]. *)
Definition replace_section (section : string) (a : Attrs) : M unit := on_state (set_sections <[str section := a]>).

(** [for i in range(1, n + 1)] with the suffix of the i-th repeated group. *)
Definition suffix (i : nat) : bytes := str "_" ++ fmt_digits 10 2 (Z.of_nat i).
Fixpoint each {A} (idx : list nat) (body : nat -> bytes -> M A) : M (list A) :=
  match idx with
  | [] => mret []
  | i :: idx => x ← body i (suffix i); xs ← each idx body; mret (x :: xs)
  end.
Definition groups (n : Z) : list nat := seq 1 (Z.to_nat n).

Definition name_of (table : list (Z * string)) (default_ : Z -> bytes) (v : V) : M V :=
  i ← int_of v; mret (VStr (named table default_ i)).

(** ** Navigation and time *)

#[local] Open Scope string_scope.

(** [_clamp_second]. *)
Definition clamp_second (second : Z) : M Z :=
  if (0 <=? second)%Z && (second <=? 59)%Z then mret second
  else modify set_clamped;; mret (Z.min (Z.max second 0) 59).

Definition corr_age_code (v : V) : M V :=
  i ← int_of v; mret (match List.find (fun kv => Z.eqb kv.1 i) CORR_AGE_CODE_S with Some kv => kv.2 | None => VNone end).

Definition position_llh (m : Msg) : list (string * M V) :=
  [("lat", attr m "lat"); ("lon", attr m "lon"); ("height_m", ratio m "height" 1000); ("hmsl_m", ratio m "hMSL" 1000)].

(** The UTC time of a NAV-PVT. *)
Definition pvt_utc (m : Msg) : M V :=
  second ← attr m "second"; s ← int_of second; second ← clamp_second s;
  y ← attr m "year"; y ← int_of y; mo ← attr m "month"; mo ← int_of mo; d ← attr m "day"; d ← int_of d;
  h ← attr m "hour"; h ← int_of h; mi ← attr m "min"; mi ← int_of mi;
  base ← lift (make_datetime y mo d h mi second);
  nano ← over m "nano" 1000; us ← lift (round_float nano);
  if in_datetime (base + us) then mret (VTime (base + us)) else raise.

Definition nav_pvt (m : Msg) : M (list bytes) :=
  assign "position" [("invalid_llh", flag m "invalidLlh")];;
  bad ← attr m "invalidLlh";
  (if truthy bad then mret tt else assign "position" (position_llh m));;
  assign "accuracy" [("h_acc_m", ratio m "hAcc" 1000); ("v_acc_m", ratio m "vAcc" 1000); ("t_acc_ns", attr m "tAcc");
                     ("s_acc_mps", ratio m "sAcc" 1000); ("head_acc_deg", attr m "headAcc")];;
  assign "dops" [("p", attr m "pDOP")];;
  fix_type ← attr m "fixType"; carr ← attr m "carrSoln";
  assign "fix" [("fix_type", mret fix_type);
                ("fix_type_name", name_of FIX_TYPE_NAMES (fun i => (str "fix" ++ str_int i)%list) fix_type);
                ("gnss_fix_ok", flag m "gnssFixOk"); ("diff_soln", flag m "diffSoln"); ("carr_soln", mret carr);
                ("carr_soln_name", name_of CARR_SOLN_NAMES (fun i => (str "carr" ++ str_int i)%list) carr);
                ("num_sv", attr m "numSV"); ("last_correction_age", attr m "lastCorrectionAge"); ("psm_state", attr m "psmState")];;
  assign "rtk" [("carr_soln", mret carr);
                ("carr_soln_name", name_of CARR_SOLN_NAMES (fun i => (str "carr" ++ str_int i)%list) carr);
                ("diff_soln", flag m "diffSoln"); ("corr_age_receiver_s", age ← attr m "lastCorrectionAge"; corr_age_code age)];;
  assign "velocity" [("vel_n_mps", ratio m "velN" 1000); ("vel_e_mps", ratio m "velE" 1000); ("vel_d_mps", ratio m "velD" 1000);
                     ("ground_speed_mps", ratio m "gSpeed" 1000); ("heading_motion_deg", attr m "headMot")];;
  assign "time" [("itow_ms", attr m "iTOW"); ("valid_date", flag m "validDate"); ("valid_time", flag m "validTime");
                 ("fully_resolved", flag m "fullyResolved")];;
  date ← attr m "validDate"; time ← attr m "validTime";
  (if truthy date && truthy time then assign "time" [("utc", pvt_utc m)] else mret tt);;
  mret (map str ["position"; "accuracy"; "dops"; "fix"; "velocity"; "time"; "rtk"]).

Definition nav_hpposllh (m : Msg) : M (list bytes) :=
  assign "position" [("invalid_llh", flag m "invalidLlh")];;
  bad ← attr m "invalidLlh";
  if truthy bad then mret [str "position"]
  else
    assign "position" (position_llh m);;
    assign "accuracy" [("h_acc_m", ratio m "hAcc" 1000); ("v_acc_m", ratio m "vAcc" 1000)];;
    mret (map str ["position"; "accuracy"]).

Definition nav_hpposecef (m : Msg) : M (list bytes) :=
  bad ← attr m "invalidEcef";
  if truthy bad then mret []
  else
    assign "position" [("ecef_x_m", ratio m "ecefX" 100); ("ecef_y_m", ratio m "ecefY" 100); ("ecef_z_m", ratio m "ecefZ" 100)];;
    assign "accuracy" [("p_acc_m", ratio m "pAcc" 1000)];;
    mret (map str ["position"; "accuracy"]).

Definition nav_dop (m : Msg) : M (list bytes) :=
  d ← kwargs [("g", attr m "gDOP"); ("p", attr m "pDOP"); ("t", attr m "tDOP"); ("v", attr m "vDOP"); ("h", attr m "hDOP");
              ("n", attr m "nDOP"); ("e", attr m "eDOP")];
  replace_section "dops" d;; mret [str "dops"].

Definition nav_status (m : Msg) : M (list bytes) :=
  assign "fix" [("ttff_ms", attr m "ttff"); ("uptime_ms", attr m "msss"); ("spoof_det_state", attr m "spoofDetState")];;
  mret [str "fix"].

Definition nav_clock (m : Msg) : M (list bytes) :=
  assign "time" [("clk_bias_ns", attr m "clkB"); ("clk_drift_nsps", attr m "clkD"); ("t_acc_ns", attr m "tAcc"); ("f_acc_psps", attr m "fAcc")];;
  mret [str "time"].

(** [v * x] and the doubles 1e-9. *)
Definition as_float (v : V) : M Z :=
  match v with VInt i => mret (of_int i) | VBool b => mret (of_int (Z.b2z b)) | VFloat x => mret x | _ => raise end.
Definition NANO : Z := Eval vm_compute in of_decimal false 1 (-9).

Definition when_ (m : Msg) (valid : string) (p : M unit) : M unit :=
  v ← attr m valid; if truthy v then p else mret tt.

Definition nav_timegps (m : Msg) : M (list bytes) :=
  when_ m "weekValid" (assign "time" [("gps_week", attr m "week")]);;
  when_ m "towValid" (assign "time" [("gps_tow_s",
    ms ← over m "iTOW" 1000; ns ← attr m "fTOW"; ns ← as_float ns; mret (VFloat (fadd ms (fmul ns NANO))))]);;
  when_ m "leapSValid" (assign "time" [("leap_s", attr m "leapS")]);;
  assign "time" [("t_acc_ns", attr m "tAcc")];;
  mret [str "time"].

Definition nav_timels (m : Msg) : M (list bytes) :=
  when_ m "validCurrLs" (assign "time" [("leap_s", attr m "currLs"); ("leap_source", attr m "srcOfCurrLs")]);;
  when_ m "validTimeToLsEvent" (assign "time" [("time_to_leap_event_s", attr m "timeToLsEvent"); ("leap_change", attr m "lsChange")]);;
  mret [str "time"].

Definition nav_timeutc (m : Msg) : M (list bytes) :=
  assign "time" [("valid_utc", flag m "validUTC"); ("utc_standard", attr m "utcStandard")];;
  mret [str "time"].

(** ** Satellites *)

(** The satellites of [state.sats]. *)
Definition sats_of (h : HState) : list Satellite :=
  match sats (state h) with
  | Live keys => omap (fun k => sat_epoch h !! k) keys
  | Past l => l
  end.

(** The epoch's dict is replaced: what [state.sats] lists keeps its objects. *)
Definition epoch_sats (itow : Z) : M unit := fun h =>
  if bool_decide (sat_itow h = Some itow) then (h, Some tt)
  else (set_sat_epoch ∅ (Some itow) (set_state (set_sats (Past (sats_of h)) (sat_summary (state h)) (state h)) h), Some tt).

(** [_sat_for], which creates the satellite it does not find. *)
Definition sat_for (g s : Z) : M (Z * Z) := fun h =>
  match sat_epoch h !! (g, s) with
  | Some _ => (h, Some (g, s))
  | None => (set_sat_epoch (<[(g, s) := satellite g s]> (sat_epoch h)) (sat_itow h) h, Some (g, s))
  end.
Definition change_sat (k : Z * Z) (f : Satellite -> Satellite) : M unit := modify (fun h =>
  set_sat_epoch (alter f k (sat_epoch h)) (sat_itow h) h).
Definition put_sat (k : Z * Z) (name : string) (v : V) : M unit :=
  change_sat k (fun s => mkSatellite (gnss_id s) (gnss s) (sv_id s) (<[str name := v]> (sat_attrs s)) (signals s)).
Fixpoint assign_sat (k : Z * Z) (l : list (string * M V)) : M unit :=
  match l with
  | [] => mret tt
  | (name, e) :: l => v ← e; put_sat k name v;; assign_sat k l
  end.

(** [v if lo <= v <= hi else None]. *)
Definition within (lo hi : Z) (v : V) : M V := i ← int_of v; mret (if (lo <=? i)%Z && (i <=? hi)%Z then v else VNone).

Definition key_le (a b : Z * Z) : bool := (a.1 <? b.1)%Z || ((a.1 =? b.1)%Z && (a.2 <=? b.2)%Z).
Fixpoint insert_key (k : Z * Z) (l : list (Z * Z)) : list (Z * Z) :=
  match l with
  | [] => [k]
  | k' :: l' => if key_le k k' then k :: l else k' :: insert_key k l'
  end.
Definition sort_keys (l : list (Z * Z)) : list (Z * Z) := foldr insert_key [] l.

Definition count_sat (per : gmap bytes (Z * Z)) (s : Satellite) : gmap bytes (Z * Z) :=
  let b := default (0, 0)%Z (per !! gnss s) in
  <[gnss s := (b.1 + 1, b.2 + Z.b2z (sat_used s))%Z]> per.
Definition summarize (l : list Satellite) : SatSummary :=
  mkSummary (len l) (foldr (fun s n => (Z.b2z (sat_used s) + n)%Z) 0 l) (foldl count_sat ∅ l).

(** [_finalize_sats]. *)
Definition finalize_sats : M unit := modify (fun h =>
  let keys := sort_keys (elements (dom (sat_epoch h))) in
  set_state (set_sats (Live keys) (summarize (omap (fun k => sat_epoch h !! k) keys)) (state h)) h).

Definition nav_sat_block (m : Msg) (sfx : bytes) : M unit :=
  g ← attr_i m "gnssId" sfx; g ← int_of g; s ← attr_i m "svId" sfx; s ← int_of s;
  k ← sat_for g s;
  assign_sat k [("cno", attr_i m "cno" sfx)];;
  elev ← attr_i m "elev" sfx; azim ← attr_i m "azim" sfx;
  assign_sat k [("elev", within (-90) 90 elev); ("azim", within 0 360 azim); ("pr_res_m", attr_i m "prRes" sfx);
                ("quality_ind", attr_i m "qualityInd" sfx); ("used", flag_i m "svUsed" sfx); ("health", attr_i m "health" sfx);
                ("diff_corr", flag_i m "diffCorr" sfx); ("smoothed", flag_i m "smoothed" sfx);
                ("orbit_source", attr_i m "orbitSource" sfx); ("eph_avail", flag_i m "ephAvail" sfx); ("alm_avail", flag_i m "almAvail" sfx)].

Definition nav_sat (m : Msg) : M (list bytes) :=
  itow ← attr m "iTOW"; itow ← int_of itow; epoch_sats itow;;
  n ← attr m "numSvs"; n ← int_of n;
  each (groups n) (fun _ sfx => nav_sat_block m sfx);;
  finalize_sats;; mret (map str ["sats"; "sat_summary"]).

(** The new signal in place of the one of its id, in the order of the ids. *)
Definition add_signal (sig : Signal) (s : Satellite) : Satellite :=
  mkSatellite (gnss_id s) (gnss s) (sv_id s) (sat_attrs s)
    (sort_by sig_id (List.filter (fun x => negb (sig_id x =? sig_id sig)%Z) (signals s) ++ [sig])).

Definition nav_sig_block (m : Msg) (sfx : bytes) : M unit :=
  g ← attr_i m "gnssId" sfx; g ← int_of g; i ← attr_i m "sigId" sfx; i ← int_of i;
  s ← attr_i m "svId" sfx; s ← int_of s;
  k ← sat_for g s;
  a ← kwargs [("name", mret (VStr (signal_name g i))); ("freq_id", attr_i m "freqId" sfx); ("cno", attr_i m "cno" sfx);
              ("pr_res_m", attr_i m "prRes" sfx); ("quality_ind", attr_i m "qualityInd" sfx);
              ("corr_source", attr_i m "corrSource" sfx); ("iono_model", attr_i m "ionoModel" sfx);
              ("health", attr_i m "health" sfx); ("pr_used", flag_i m "prUsed" sfx); ("cr_used", flag_i m "crUsed" sfx);
              ("do_used", flag_i m "doUsed" sfx)];
  change_sat k (add_signal (mkSignal i a)).

Definition nav_sig (m : Msg) : M (list bytes) :=
  itow ← attr m "iTOW"; itow ← int_of itow; epoch_sats itow;;
  n ← attr m "numSigs"; n ← int_of n;
  each (groups n) (fun _ sfx => nav_sig_block m sfx);;
  finalize_sats;; mret (map str ["sats"; "sat_summary"]).

(** ** Survey-in, RTK, corrections received, time marks *)

(** [m.a / na + m.b / nb if started else None]; with one part, [m.a / na]. *)
Definition sum_if (started : bool) (e1 e2 : M Z) : M V :=
  if started then a ← e1; b ← e2; mret (VFloat (fadd a b)) else mret VNone.
Definition ratio_if (started : bool) (e : M V) : M V := if started then e else mret VNone.

Definition nav_svin (m : Msg) : M (list bytes) :=
  active ← attr m "active";
  started ← (if truthy active then mret true else valid ← attr m "valid"; mret (truthy valid));
  a ← kwargs [("active", flag m "active"); ("valid", flag m "valid"); ("dur_s", attr m "dur"); ("obs", attr m "obs");
              ("mean_x_m", sum_if started (over m "meanX" 100) (over m "meanXHP" 10000));
              ("mean_y_m", sum_if started (over m "meanY" 100) (over m "meanYHP" 10000));
              ("mean_z_m", sum_if started (over m "meanZ" 100) (over m "meanZHP" 10000));
              ("mean_acc_m", ratio_if started (ratio m "meanAcc" 10000))];
  replace_section "survey_in" a;; mret [str "survey_in"].

Definition nav_relposned (m : Msg) : M (list bytes) :=
  n ← ratio m "relPosN" 100; e ← ratio m "relPosE" 100; d ← ratio m "relPosD" 100;
  assign "rtk" [("rel_pos_n_m", mret n); ("rel_pos_e_m", mret e); ("rel_pos_d_m", mret d); ("baseline_m", ratio m "relPosLength" 100);
                ("heading_deg", attr m "relPosHeading"); ("heading_valid", flag m "relPosHeadingValid")];;
  n ← ratio m "accN" 1000; e ← ratio m "accE" 1000; d ← ratio m "accD" 1000;
  assign "rtk" [("acc_n_m", mret n); ("acc_e_m", mret e); ("acc_d_m", mret d); ("acc_length_m", ratio m "accLength" 1000);
                ("acc_heading_deg", attr m "accHeading"); ("ref_station_id", attr m "refStationID"); ("rel_pos_valid", flag m "relPosValid");
                ("is_moving", flag m "isMoving"); ("ref_pos_missing", flag m "refPosMiss"); ("ref_obs_missing", flag m "refObsMiss");
                ("normalized", flag m "relPosNormalized"); ("carr_soln", attr m "carrSoln");
                ("carr_soln_name", c ← attr m "carrSoln"; name_of CARR_SOLN_NAMES (fun i => (str "carr" ++ str_int i)%list) c);
                ("diff_soln", flag m "diffSoln")];;
  mret [str "rtk"].

(** The counters of [rtk.rtcm_rx]; [f] is applied to the row of the type. *)
Definition update_rx (total failed : Z) (f : gmap Z RtcmRxStats -> gmap Z RtcmRxStats) : M unit := on_state (fun r =>
  set_rtcm_rx (f (rtcm_rx r)) (rtcm_rx_total r + total) (rtcm_crc_failed r + failed) r).

Definition rxm_rtcm (m : Msg) : M (list bytes) :=
  update_rx 1 0 id;;
  now ← gets now_mono;
  failed ← attr m "crcFailed";
  if truthy failed then
    update_rx 0 1 id;;
    ty ← attr m "msgType"; ty ← int_of ty;
    update_rx 0 0 (fun rx => alter (fun k => mkRxStats (rx_count k + 1) (rx_used k) (rx_crc_failed k + 1) (Some now)) ty rx);;
    mret [str "rtk"]
  else
    ty ← attr m "msgType"; ty ← int_of ty;
    update_rx 0 0 (fun rx => let k := default (mkRxStats 0 0 0 None) (rx !! ty) in
                             <[ty := mkRxStats (rx_count k + 1) (rx_used k) (rx_crc_failed k) (Some now)]> rx);;
    msg_used ← attr m "msgUsed";
    (if match msg_used with VInt i => (i =? 2)%Z | _ => false end then
       update_rx 0 0 (fun rx => alter (fun k => mkRxStats (rx_count k) (rx_used k + 1) (rx_crc_failed k) (rx_last_seen k)) ty rx)
     else mret tt);;
    station ← attr m "refStation";
    (if truthy station then i ← int_of station; put "rtk" "ref_station_id" (VInt i) else mret tt);;
    mret [str "rtk"].

(** [m.towMs / 1000 + m.towSubMs / 1e9]. *)
Definition edge_tow (m : Msg) (ms sub : string) : M Z :=
  a ← over m ms 1000; b ← over m sub 1000000000; mret (fadd a b).

Definition opt_v {A} (f : A -> V) (x : option A) : V := match x with Some x => f x | None => VNone end.

(** [marks.append(mark)] and the trim to the newest. *)
Definition append_mark (k : TimeMark) (l : list TimeMark) : list TimeMark :=
  let l := (l ++ [k])%list in drop (length l - MAX_TIME_MARKS) l.

Definition tim_tm2 (m : Msg) : M (list bytes) :=
  rise ← attr m "newRisingEdge";
  edge ← (if truthy rise then mret true else fall ← attr m "newFallingEdge"; mret (truthy fall));
  if negb edge then mret []
  else
    rising_tow ← (if truthy rise then x ← edge_tow m "towMsR" "towSubMsR"; mret (Some x) else mret None);
    fall ← attr m "newFallingEdge";
    falling_tow ← (if truthy fall then x ← edge_tow m "towMsF" "towSubMsF"; mret (Some x) else mret None);
    base ← attr m "timeBase"; base ← int_of base;
    leap ← gets (fun h => if (base =? 2)%Z then Some 0%Z else
                          match default ∅ (sections (state h) !! str "time") !! str "leap_s" with Some (VInt l) => Some l | _ => None end);
    a ← kwargs [("channel", attr m "ch"); ("count", attr m "count");
                ("rising_week", if truthy rise then attr m "wnR" else mret VNone); ("rising_tow_s", mret (opt_v VFloat rising_tow));
                ("falling_week", if truthy fall then attr m "wnF" else mret VNone); ("falling_tow_s", mret (opt_v VFloat falling_tow));
                ("new_rising", mret (VBool (truthy rise))); ("new_falling", mret (VBool (truthy fall)));
                ("time_base", mret (VInt base)); ("utc_based", flag m "utc"); ("acc_est_ns", attr m "accEst")];
    utc ← (match rising_tow with
           | Some tow =>
               known ← attr m "time";
               if truthy known && ((base =? 1)%Z || (base =? 2)%Z) then
                 week ← attr m "wnR"; week ← int_of week;
                 t ← lift (gps_to_utc week tow (default DEFAULT_LEAP_S leap)); mret (Some t)
               else mret None
           | None => mret None
           end);
    let mark := mkMark a (truthy rise) utc in
    on_state (fun r => set_time_marks (append_mark mark (time_marks r)) r);;
    (if truthy rise then modify (push (Mark mark)) else mret tt);;
    mret [str "time_marks"].

(** ** Monitoring *)

Definition hw_name (table : list (Z * string)) (v : V) : M V := name_of table str_int v.

Definition mon_hw (m : Msg) : M (list bytes) :=
  a ← kwargs [("ant_status", attr m "aStatus"); ("ant_status_name", v ← attr m "aStatus"; hw_name ANT_STATUS_NAMES v);
              ("ant_power", attr m "aPower"); ("ant_power_name", v ← attr m "aPower"; hw_name ANT_POWER_NAMES v);
              ("noise_per_ms", attr m "noisePerMS"); ("agc_cnt", attr m "agcCnt"); ("jam_ind", attr m "jamInd");
              ("jamming_state", attr m "jammingState"); ("jamming_state_name", v ← attr m "jammingState"; hw_name JAMMING_STATE_NAMES v);
              ("rtc_calib", flag m "rtcCalib"); ("safe_boot", flag m "safeBoot"); ("xtal_absent", flag m "xtalAbsent")];
  replace_section "hardware" a;; mret [str "hardware"].

(** A list of models, one per repeated group, that replaces a list of the state. *)
Definition replace_blocks (name : string) (n : Z) (fields : nat -> bytes -> list (string * M V)) : M (list bytes) :=
  l ← each (groups n) (fun i sfx => kwargs (fields i sfx));
  on_state (set_blocks (str name) l);; mret [str name].

Definition mon_rf (m : Msg) : M (list bytes) :=
  n ← attr m "nBlocks"; n ← int_of n;
  replace_blocks "rf" n (fun _ sfx =>
    let g name := attr_i m name sfx in
    [("block_id", g "blockId"); ("jamming_state", g "jammingState");
     ("jamming_state_name", v ← g "jammingState"; hw_name JAMMING_STATE_NAMES v);
     ("ant_status", g "antStatus"); ("ant_status_name", v ← g "antStatus"; hw_name ANT_STATUS_NAMES v);
     ("ant_power", g "antPower"); ("ant_power_name", v ← g "antPower"; hw_name ANT_POWER_NAMES v);
     ("post_status", g "postStatus"); ("noise_per_ms", g "noisePerMS"); ("agc_cnt", g "agcCnt"); ("jam_ind", g "jamInd");
     ("ofs_i", g "ofsI"); ("mag_i", g "magI"); ("ofs_q", g "ofsQ"); ("mag_q", g "magQ")]).

Definition mon_span (m : Msg) : M (list bytes) :=
  n ← attr m "numRfBlocks"; n ← int_of n;
  replace_blocks "spectrum" n (fun i sfx =>
    let g name := attr_i m name sfx in
    [("block_id", mret (VInt (Z.of_nat i - 1))); ("span_hz", g "span"); ("res_hz", g "res"); ("center_hz", g "center");
     ("pga_db", g "pga"); ("bins", v ← g "spectrum"; match v with VList _ => mret v | _ => raise end)]).

Definition mon_comms (m : Msg) : M (list bytes) :=
  n ← attr m "nPorts"; n ← int_of n;
  replace_blocks "ports" n (fun _ sfx =>
    let g name := attr_i m name sfx in
    [("port_id", g "portId"); ("tx_pending", g "txPending"); ("tx_bytes", g "txBytes"); ("tx_usage", g "txUsage");
     ("tx_peak_usage", g "txPeakUsage"); ("rx_pending", g "rxPending"); ("rx_bytes", g "rxBytes"); ("rx_usage", g "rxUsage");
     ("rx_peak_usage", g "rxPeakUsage"); ("overrun_errs", g "overrunErrs"); ("skipped", g "skipped")]).

(** [s.split("\x00", 1)[0]], of bytes decoded as ASCII with replacements. *)
Definition before_nul (s : bytes) : bytes :=
  match bfind [0] s with Some i => take i s | None => s end.
Definition cstr (v : V) : M bytes :=
  match v with
  | VBytes b => mret (map (fun c => if (c <? 128)%Z then c else 0xFFFD%Z) (before_nul b))
  | VStr s => mret (before_nul s)
  | VInt i => mret (str_int i)
  | _ => raise
  end.

Fixpoint lex_le (a b : bytes) : bool :=
  match a, b with
  | [], _ => true
  | _, [] => false
  | x :: a, y :: b => (x <? y)%Z || ((x =? y)%Z && lex_le a b)
  end.
Fixpoint insert_item (x : bytes * V) (l : list (bytes * V)) : list (bytes * V) :=
  match l with
  | [] => [x]
  | y :: l' => if lex_le x.1 y.1 then x :: l else y :: insert_item x l'
  end.
(** [sorted(m.__dict__.items())]; the keys differ. *)
Definition sorted_items (m : Msg) : list (bytes * V) := foldr insert_item [] (map_to_list m).

Fixpoint map_m {A B} (f : A -> M B) (l : list A) : M (list B) :=
  match l with [] => mret [] | x :: l => y ← f x; ys ← map_m f l; mret (y :: ys) end.

(** The first extension with the prefix, without it. *)
Definition tagged (extensions : list bytes) (prefix : string) : bytes :=
  match List.find (fun e => startswith e (str prefix)) extensions with
  | Some e => drop (length (str prefix)) e
  | None => []
  end.

Definition mon_ver (m : Msg) : M (list bytes) :=
  exts ← map_m (fun kv => cstr kv.2) (List.filter (fun kv => startswith kv.1 (str "extension_")) (sorted_items m));
  a ← kwargs [("sw_version", v ← attr m "swVersion"; s ← cstr v; mret (VStr s));
              ("hw_version", v ← attr m "hwVersion"; s ← cstr v; mret (VStr s));
              ("fw_version", mret (VStr (tagged exts "FWVER="))); ("protver", mret (VStr (tagged exts "PROTVER=")));
              ("module", mret (VStr (tagged exts "MOD="))); ("extensions", mret (VList (map VStr exts)))];
  replace_section "firmware" a;; mret [str "firmware"].

(** ** The end of an epoch *)

(** The fields of the inference. *)
Record Infer := mkInfer {
  saw_eoe : bool; eoe_itow : option Z; missed_eoe : Z; open_itow : option Z; open_whole : bool; open_mono : Z;
  inferred : bool; eoe_flips : Z
}.

Definition new_infer (now : Z) : Infer := mkInfer false None 0 None false now false 0.

(** [reset_epoch_inference]. *)
Definition reset_inference (i : Infer) : Infer :=
  mkInfer (saw_eoe i) (eoe_itow i) 0 None false (open_mono i) (inferred i) (eoe_flips i).

Definition set_open (itow : Z) (whole : bool) (i : Infer) : Infer :=
  mkInfer (saw_eoe i) (eoe_itow i) (missed_eoe i) (Some itow) whole (open_mono i) (inferred i) (eoe_flips i).
Definition set_missed (n : Z) (i : Infer) : Infer :=
  mkInfer (saw_eoe i) (eoe_itow i) n (open_itow i) (open_whole i) (open_mono i) (inferred i) (eoe_flips i).
Definition set_flipped (i : Infer) : Infer :=
  mkInfer false (eoe_itow i) 0 (open_itow i) (open_whole i) (open_mono i) (inferred i) (eoe_flips i + 1).
Definition set_inferred (i : Infer) : Infer :=
  mkInfer (saw_eoe i) (eoe_itow i) (missed_eoe i) (open_itow i) (open_whole i) (open_mono i) true (eoe_flips i).
Definition set_open_mono (now : Z) (i : Infer) : Infer :=
  mkInfer (saw_eoe i) (eoe_itow i) (missed_eoe i) (open_itow i) (open_whole i) now (inferred i) (eoe_flips i).
Definition set_eoe (itow : option Z) (missed : Z) (i : Infer) : Infer :=
  mkInfer (saw_eoe i) itow missed (open_itow i) (open_whole i) (open_mono i) (inferred i) (eoe_flips i).
Definition set_saw_eoe (i : Infer) : Infer :=
  mkInfer true (eoe_itow i) (missed_eoe i) (open_itow i) (open_whole i) (open_mono i) (inferred i) (eoe_flips i).

(** [_infer_epoch_end]: the new state, and the time of the epoch it closes, if it closes one. *)
Definition infer_epoch_end (now itow : Z) (pvt : bool) (i : Infer) : Infer * option Z :=
  let '(i, closed) :=
    if bool_decide (open_itow i = Some itow) then (i, None)
    else
      match open_itow i with
      | None => (set_open itow pvt i, None)
      | Some _ =>
          if saw_eoe i then
            if bool_decide (open_itow i = eoe_itow i) then (set_open itow true (set_missed 0 i), None)
            else
              let i := set_missed (missed_eoe i + 1) i in
              if (EOE_MISSED_LIMIT <=? missed_eoe i)%Z then
                (set_open itow true (set_flipped i), if open_whole i then Some (open_mono i) else None)
              else (set_open itow true i, None)
          else if open_whole i then (set_open itow true (set_inferred i), Some (open_mono i))
          else (set_open itow true i, None)
      end in
  (set_open_mono now i, closed).

(** [copy.model_copy(deep=True)]. *)
Definition snapshot (h : HState) : ReceiverState := set_sats (Past (sats_of h)) (sat_summary (state h)) (state h).

(** [_close_epoch]. *)
Definition close_epoch (now : Z) (h : HState) : HState :=
  let r := state h in
  let r := set_epochs (epoch_count r + 1) (raw_epochs r) (Some now) r in
  let h := set_state r h in
  let h := match last_rtcm r with
           | Some t => push (Changed (str "rtk")) (set_state (set_corr_age (Some (Z.max 0 (now - t))) (Some t) r) h)
           | None => h
           end in
  push (Epoch (snapshot h)) h.
Definition close_if (closed : option Z) (h : HState) : HState :=
  match closed with Some now => close_epoch now h | None => h end.

(** ** RTCM sent *)

Fixpoint pop_old (now : Z) (w : list (Z * Z)) : list (Z * Z) :=
  match w with
  | [] => []
  | e :: r => if (RTCM_RATE_WINDOW <? now - e.1)%Z then pop_old now r else w
  end.

(** The counts of [_rtcm], without the rate. *)
Definition count_rtcm (ty t n : Z) (o : RtcmStats) : RtcmStats :=
  let k := default (mkMsgStats 0 0 0) (messages o !! ty) in
  mkRtcmStats (<[ty := mkMsgStats (m_count k + 1) (m_bytes k + n) t]> (messages o)) (total_count o + 1) (total_bytes o + n)
    (bytes_per_s o).
Definition set_rate (x : Z) (o : RtcmStats) : RtcmStats := mkRtcmStats (messages o) (total_count o) (total_bytes o) x.
Definition window_bytes (w : list (Z * Z)) : Z := foldr (fun e n => (e.2 + n)%Z) 0%Z w.

(** ** The store *)

Record Store := mkStore { hstate : HState; infer : Infer; rtcm_window : list (Z * Z) }.

Definition new_store (now : Z) : Store := mkStore (mkH new_state ∅ None false now []) (new_infer now) [].

Definition on_h (f : HState -> HState) (s : Store) : Store := mkStore (f (hstate s)) (infer s) (rtcm_window s).
Definition on_infer (f : Infer -> Infer) (s : Store) : Store := mkStore (hstate s) (f (infer s)) (rtcm_window s).

(** [_rtcm]. *)
Definition rtcm (f : Frame) (t_mono : Z) (s : Store) : Store * list bytes :=
  let n := len (raw f) in
  let o := count_rtcm (default 0%Z (rtcm_type f)) t_mono n (rtcm_out (state (hstate s))) in
  let w := pop_old t_mono (rtcm_window s ++ [(t_mono, n)])%list in
  let o := set_rate (fdiv_int (window_bytes w) 5) o in
  (mkStore (push (Changed (str "rtcm_out")) (set_state (set_rtcm_out o (state (hstate s))) (hstate s))) (infer s) w,
   [str "rtcm_out"]).

(** [_nav_eoe]; [None]: the message has no [iTOW]. *)
Definition nav_eoe (m : Msg) (s : Store) : Store * option (list bytes) :=
  let s := if saw_eoe (infer s) then s else on_infer (fun i => reset_inference (set_saw_eoe i)) s in
  match m !! str "iTOW" with
  | Some (VInt itow) =>
      let s := on_infer (set_eoe (Some itow) 0) s in
      (on_h (close_epoch (now_mono (hstate s))) s, Some [])
  | _ => (s, None)
  end.

(** [_handlers], without NAV-EOE. *)
Definition handlers : list (string * (Msg -> M (list bytes))) :=
  [("NAV-PVT", nav_pvt); ("NAV-HPPOSLLH", nav_hpposllh); ("NAV-HPPOSECEF", nav_hpposecef); ("NAV-DOP", nav_dop);
   ("NAV-STATUS", nav_status); ("NAV-CLOCK", nav_clock); ("NAV-TIMEGPS", nav_timegps); ("NAV-TIMELS", nav_timels);
   ("NAV-TIMEUTC", nav_timeutc); ("NAV-SAT", nav_sat); ("NAV-SIG", nav_sig); ("NAV-SVIN", nav_svin);
   ("NAV-RELPOSNED", nav_relposned); ("RXM-RTCM", rxm_rtcm); ("TIM-TM2", tim_tm2); ("MON-HW", mon_hw); ("MON-RF", mon_rf);
   ("MON-SPAN", mon_span); ("MON-COMMS", mon_comms); ("MON-VER", mon_ver)].
Definition handler (identity : bytes) : option (Msg -> M (list bytes)) :=
  match List.find (fun kv => bool_decide (str kv.1 = identity)) handlers with Some kv => Some kv.2 | None => None end.

(** A handler run on the store. *)
Definition handle (h : Msg -> M (list bytes)) (m : Msg) (s : Store) : Store * option (list bytes) :=
  let '(h', r) := h m (hstate s) in (mkStore h' (infer s) (rtcm_window s), r).

Definition publish_all (changed : list bytes) (s : Store) : Store :=
  on_h (fun h => foldl (fun h c => push (Changed c) h) h changed) s.

(** The inference before an epoch's message is applied; [None]: it has no [iTOW]. *)
Definition infer_step (identity : bytes) (m : Msg) (s : Store) : option Store :=
  if bool_decide (identity ∈ EPOCH_NAV_MESSAGES) then
    match m !! str "iTOW" with
    | Some (VInt itow) =>
        let '(i, closed) := infer_epoch_end (now_mono (hstate s)) itow (bool_decide (identity = str "NAV-PVT")) (infer s) in
        Some (mkStore (close_if closed (hstate s)) i (rtcm_window s))
    | _ => None
    end
  else Some s.

Section Apply.
(** The names of UBX messages, and the UBX parser. *)
Context (identity : bytes -> bytes) (parse : bytes -> option Msg).

(** [apply] at the time [now]; [t_mono] is the frame's. *)
Definition apply (f : Frame) (t_mono now : Z) (s : Store) : Store * list bytes :=
  let s := on_h (set_now now) s in
  match proto f with
  | RTCM3 => rtcm f t_mono s
  | UBX =>
      let name := identity (raw f) in
      if bool_decide (name = str "RXM-RAWX") then
        (on_h (fun h => let r := state h in set_state (set_epochs (epoch_count r) (raw_epochs r + 1) (last_epoch r) r) h) s, [])
      else
        let run (h : Msg -> Store -> Store * option (list bytes)) :=
          match parse (raw f) with
          | None => (s, [])
          | Some m =>
              match infer_step name m s with
              | None => (s, [])
              | Some s =>
                  match h m s with
                  | (s, Some changed) => (publish_all changed s, changed)
                  | (s, None) => (s, [])
                  end
              end
          end in
        if bool_decide (name = str "NAV-EOE") then run nav_eoe
        else match handler name with None => (s, []) | Some h => run (handle h) end
  | _ => (s, [])
  end.

(** [end_of_stream] and [note_rtcm_injected]. *)
Definition end_of_stream (s : Store) : Store :=
  let i := infer s in
  let s := if negb (saw_eoe i) && bool_decide (open_itow i <> None) && open_whole i then on_h (close_epoch (open_mono i)) s else s in
  on_infer reset_inference s.
Definition note_rtcm_injected (now : Z) (s : Store) : Store :=
  on_h (fun h => set_state (set_corr_age (corr_age (state h)) (Some now) (state h)) h) s.

End Apply.

(** ** What handlers leave alone *)

(** Handlers that only fill sections, satellites and block lists. *)
Definition counters (r : ReceiverState) :=
  (rtcm_out r, (rtcm_rx r, rtcm_rx_total r, rtcm_crc_failed r), (corr_age r, last_rtcm r), time_marks r,
   (epoch_count r, raw_epochs r, last_epoch r)).
Definition same (h h' : HState) : Prop :=
  now_mono h' = now_mono h /\ out h' = out h /\ counters (state h') = counters (state h).

#[export] Instance same_preorder : PreOrder same.
Proof. split; [done |]. intros h1 h2 h3 (A1 & A2 & A3) (B1 & B2 & B3). unfold same. by rewrite B1, B2, B3. Qed.

Definition keeps {A} (p : M A) : Prop := forall h, same h (p h).1.

Lemma keeps_mret {A} (x : A) : keeps (mret x).
Proof. by intros h. Qed.
Lemma keeps_mbind {A B} (p : M A) (k : A -> M B) : keeps p -> (forall x, keeps (k x)) -> keeps (p ≫= k).
Proof.
  intros Hp Hk h. specialize (Hp h). unfold mbind, M_bind. destruct (p h) as [h' [x|]]; cbn [fst] in *; [| done].
  by etrans; [| apply Hk].
Qed.
Lemma keeps_raise {A} : keeps (@raise A).
Proof. by intros h. Qed.
Lemma keeps_lift {A} (x : option A) : keeps (lift x).
Proof. by intros h. Qed.
Lemma keeps_gets {A} (f : HState -> A) : keeps (gets f).
Proof. by intros h. Qed.
Lemma keeps_ite {A} (b : bool) (p q : M A) : keeps p -> keeps q -> keeps (if b then p else q).
Proof. by destruct b. Qed.
Lemma keeps_sections f : keeps (on_state (set_sections f)).
Proof. by intros h. Qed.
Lemma keeps_blocks n l : keeps (on_state (set_blocks n l)).
Proof. by intros h. Qed.
Lemma keeps_clamped : keeps (modify set_clamped).
Proof. by intros h. Qed.
Create HintDb keeps.
#[export] Hint Resolve keeps_mret keeps_mbind keeps_raise keeps_lift keeps_gets keeps_ite keeps_sections keeps_blocks keeps_clamped : keeps.

Ltac keeps :=
  repeat match goal with
  | |- forall _, _ => intro
  | |- keeps (mret _) => apply keeps_mret
  | |- keeps (_ ≫= _) => apply keeps_mbind
  | |- keeps (match ?x with _ => _ end) => destruct x
  | |- keeps _ => solve [auto with keeps]
  end.

Lemma keeps_attr m n : keeps (attr m n).
Proof. apply keeps_lift. Qed.
Lemma keeps_attr_i m n sfx : keeps (attr_i m n sfx).
Proof. apply keeps_lift. Qed.
Lemma keeps_int_of v : keeps (int_of v).
Proof. unfold int_of. keeps. Qed.
#[export] Hint Resolve keeps_attr keeps_attr_i keeps_int_of : keeps.
Lemma keeps_flag m n : keeps (flag m n).
Proof. unfold flag. keeps. Qed.
Lemma keeps_flag_i m n sfx : keeps (flag_i m n sfx).
Proof. unfold flag_i. keeps. Qed.
Lemma keeps_over m n k : keeps (over m n k).
Proof. unfold over, div_float. keeps. Qed.
#[export] Hint Resolve keeps_flag keeps_flag_i keeps_over : keeps.
Lemma keeps_ratio m n k : keeps (ratio m n k).
Proof. unfold ratio. keeps. Qed.
Lemma keeps_put s n v : keeps (put s n v).
Proof. unfold put. keeps. Qed.
Lemma keeps_replace s a : keeps (replace_section s a).
Proof. unfold replace_section. keeps. Qed.
Lemma keeps_name_of t d v : keeps (name_of t d v).
Proof. unfold name_of. keeps. Qed.
Lemma keeps_as_float v : keeps (as_float v).
Proof. unfold as_float. keeps. Qed.
Lemma keeps_within a b v : keeps (within a b v).
Proof. unfold within. keeps. Qed.
Lemma keeps_cstr v : keeps (cstr v).
Proof. unfold cstr. keeps. Qed.
#[export] Hint Resolve keeps_ratio keeps_put keeps_replace keeps_name_of keeps_as_float keeps_within keeps_cstr : keeps.

Definition all_keep (l : list (string * M V)) : Prop := Forall (fun e => keeps e.2) l.

Lemma keeps_assign s l : all_keep l -> keeps (assign s l).
Proof. induction 1 as [| [n e] l He Hl IH]; cbn [assign]; cbn in *; keeps. Qed.
Lemma keeps_kwargs l : all_keep l -> keeps (kwargs l).
Proof. induction 1 as [| [n e] l He Hl IH]; cbn [kwargs]; cbn in *; keeps. Qed.
Lemma keeps_assign_sat k l : all_keep l -> keeps (assign_sat k l).
Proof.
  induction 1 as [| [n e] l He Hl IH]; cbn [assign_sat]; cbn in *; keeps.
Qed.
Lemma keeps_each {A} l (body : nat -> bytes -> M A) : (forall i sfx, keeps (body i sfx)) -> keeps (each l body).
Proof. intros Hb. induction l; cbn [each]; keeps. Qed.
Lemma keeps_map_m {A B} (f : A -> M B) l : (forall x, keeps (f x)) -> keeps (map_m f l).
Proof. intros Hf. induction l; cbn [map_m]; keeps. Qed.

Ltac all_keep := unfold all_keep; repeat (apply List.Forall_cons || apply List.Forall_nil); cbn [snd]; handler_keeps
with handler_keeps :=
  repeat match goal with
  | |- forall _, _ => intro
  | |- keeps (mret _) => apply keeps_mret
  | |- keeps (_ ≫= _) => apply keeps_mbind
  | |- keeps (assign _ _) => apply keeps_assign; all_keep
  | |- keeps (assign_sat _ _) => apply keeps_assign_sat; all_keep
  | |- keeps (kwargs _) => apply keeps_kwargs; all_keep
  | |- keeps (each _ _) => apply keeps_each
  | |- keeps (map_m _ _) => apply keeps_map_m
  | |- keeps (match ?x with _ => _ end) => destruct x
  | |- keeps _ => solve [auto with keeps]
  end.

Lemma keeps_clamp s : keeps (clamp_second s).
Proof. unfold clamp_second. handler_keeps. Qed.
Lemma keeps_corr_age v : keeps (corr_age_code v).
Proof. unfold corr_age_code. handler_keeps. Qed.
#[export] Hint Resolve keeps_clamp keeps_corr_age : keeps.
Lemma keeps_pvt_utc m : keeps (pvt_utc m).
Proof. unfold pvt_utc. handler_keeps. Qed.
#[export] Hint Resolve keeps_pvt_utc : keeps.
Lemma keeps_when m v p : keeps p -> keeps (when_ m v p).
Proof. unfold when_. intros. handler_keeps. Qed.
Lemma keeps_epoch_sats i : keeps (epoch_sats i).
Proof. intros h. unfold epoch_sats. by case_bool_decide. Qed.
Lemma keeps_sat_for g s : keeps (sat_for g s).
Proof. intros h. unfold sat_for. by destruct (_ !! _). Qed.
Lemma keeps_change_sat k f : keeps (change_sat k f).
Proof. by intros h. Qed.
Lemma keeps_finalize : keeps finalize_sats.
Proof. by intros h. Qed.
#[export] Hint Resolve keeps_epoch_sats keeps_sat_for keeps_change_sat keeps_finalize : keeps.
Lemma keeps_sum_if b e1 e2 : keeps e1 -> keeps e2 -> keeps (sum_if b e1 e2).
Proof. unfold sum_if. intros. handler_keeps. Qed.
Lemma keeps_ratio_if b e : keeps e -> keeps (ratio_if b e).
Proof. unfold ratio_if. intros. handler_keeps. Qed.
Lemma keeps_edge_tow m a b : keeps (edge_tow m a b).
Proof. unfold edge_tow. handler_keeps. Qed.
Lemma keeps_hw_name t v : keeps (hw_name t v).
Proof. unfold hw_name. handler_keeps. Qed.
#[export] Hint Resolve keeps_sum_if keeps_ratio_if keeps_edge_tow keeps_hw_name : keeps.
Lemma keeps_replace_blocks n k f : (forall i sfx, all_keep (f i sfx)) -> keeps (replace_blocks n k f).
Proof. unfold replace_blocks. intros Hf. apply keeps_mbind; [apply keeps_each; intros; apply keeps_kwargs, Hf | handler_keeps]. Qed.

(** The handlers that only fill sections, satellites and lists. *)
Definition filling : list (Msg -> M (list bytes)) :=
  [nav_pvt; nav_hpposllh; nav_hpposecef; nav_dop; nav_status; nav_clock; nav_timegps; nav_timels; nav_timeutc; nav_sat; nav_sig;
   nav_svin; nav_relposned; mon_hw; mon_rf; mon_span; mon_comms; mon_ver].

Lemma filling_keeps m : Forall (fun h => keeps (h m)) filling.
Proof.
  repeat (apply List.Forall_cons || apply List.Forall_nil).
  - unfold nav_pvt, position_llh. handler_keeps.
  - unfold nav_hpposllh, position_llh. handler_keeps.
  - unfold nav_hpposecef. handler_keeps.
  - unfold nav_dop. handler_keeps.
  - unfold nav_status. handler_keeps.
  - unfold nav_clock. handler_keeps.
  - unfold nav_timegps. handler_keeps; apply keeps_when; handler_keeps.
  - unfold nav_timels. handler_keeps; apply keeps_when; handler_keeps.
  - unfold nav_timeutc. handler_keeps.
  - unfold nav_sat, nav_sat_block. handler_keeps.
  - unfold nav_sig, nav_sig_block. handler_keeps.
  - unfold nav_svin. handler_keeps.
  - unfold nav_relposned. handler_keeps.
  - unfold mon_hw. handler_keeps.
  - unfold mon_rf. handler_keeps. apply keeps_replace_blocks. intros. all_keep.
  - unfold mon_span. handler_keeps. apply keeps_replace_blocks. intros. all_keep.
  - unfold mon_comms. handler_keeps. apply keeps_replace_blocks. intros. all_keep.
  - unfold mon_ver. handler_keeps.
Qed.

(** ** What every handler leaves alone *)

(** Every handler leaves the clock reading, the counts of epochs and of frames sent alone,
    publishes no epoch and keeps the marks within their limit. *)
Definition epochs_of (l : list Out) : list ReceiverState :=
  omap (fun o => match o with Epoch r => Some r | _ => None end) l.
Definition closed_times (l : list Out) : list Z := omap last_epoch (epochs_of l).
Definition marks_ok (h : HState) : Prop := (length (time_marks (state h)) <= MAX_TIME_MARKS)%nat.
Definition quiet (h h' : HState) : Prop :=
  now_mono h' = now_mono h /\ epochs_of (out h') = epochs_of (out h) /\ rtcm_out (state h') = rtcm_out (state h)
  /\ epoch_count (state h') = epoch_count (state h) /\ (marks_ok h -> marks_ok h').

#[export] Instance quiet_preorder : PreOrder quiet.
Proof. split; [done |]. intros h1 h2 h3 (A1 & A2 & A3 & A4 & A5) (B1 & B2 & B3 & B4 & B5). unfold quiet. rewrite B1, B2, B3, B4. split_and!; auto. Qed.

Definition pres (R : HState -> HState -> Prop) {A} (p : M A) : Prop := forall h, R h (p h).1.
Lemma pres_bind R `{!PreOrder R} {A B} (p : M A) (k : A -> M B) : pres R p -> (forall x, pres R (k x)) -> pres R (p ≫= k).
Proof.
  intros Hp Hk h. specialize (Hp h). unfold mbind, M_bind. destruct (p h) as [h' [x|]]; cbn [fst] in *; [| done].
  by etrans; [| apply Hk].
Qed.
Lemma keeps_quiet {A} (p : M A) : keeps p -> pres quiet p.
Proof.
  intros Hp h. destruct (Hp h) as (H1 & H2 & H3). unfold counters in H3. injection H3 as E1 _ _ _ _ _ E2 E3 _ _.
  unfold quiet, marks_ok. by rewrite H2, E1, E2, E3.
Qed.
Lemma quiet_update_rx a b f : pres quiet (update_rx a b f).
Proof. by intros h. Qed.
Lemma quiet_marks k : pres quiet (on_state (fun r => set_time_marks (append_mark k (time_marks r)) r)).
Proof.
  intros h. unfold quiet, on_state, modify, append_mark. cbn. split_and!; try done. intros _. unfold marks_ok. cbn.
  rewrite length_drop. unfold MAX_TIME_MARKS. lia.
Qed.
Lemma quiet_mark k : pres quiet (modify (push (Mark k))).
Proof. intros h. unfold quiet, modify, epochs_of. cbn. rewrite omap_app. cbn. by rewrite app_nil_r. Qed.

Ltac quiet :=
  repeat match goal with
  | |- forall _, _ => intro
  | |- pres quiet (update_rx _ _ _) => apply quiet_update_rx
  | |- pres quiet (modify (push (Mark _))) => apply quiet_mark
  | |- pres quiet (on_state (fun r => set_time_marks _ _)) => apply quiet_marks
  | |- pres quiet (_ ≫= _) => apply (pres_bind quiet)
  | |- pres quiet (match ?x with _ => _ end) => destruct x
  | |- pres quiet _ => apply keeps_quiet; solve [handler_keeps]
  end.

Lemma handlers_quiet m : Forall (fun kv => pres quiet (kv.2 m)) handlers.
Proof.
  assert (Hr : pres quiet (rxm_rtcm m)) by (unfold rxm_rtcm; quiet).
  assert (Ht : pres quiet (tim_tm2 m)) by (unfold tim_tm2; quiet).
  pose proof (filling_keeps m) as Hf. unfold filling, handlers in *.
  repeat (apply List.Forall_cons_iff in Hf as [? Hf]).
  repeat (apply List.Forall_cons || apply List.Forall_nil); cbn [snd]; try done; by apply keeps_quiet.
Qed.

Lemma handler_quiet name h m : handler name = Some h -> pres quiet (h m).
Proof.
  unfold handler. destruct (List.find _ _) as [kv|] eqn:E; [| done]. intros [= <-].
  apply find_some in E as [Hin _]. pose proof (handlers_quiet m) as H. rewrite List.Forall_forall in H. by apply H.
Qed.

(** Every message that carries the epoch's iTOW has a handler. *)
Lemma nav_handled name : name ∈ EPOCH_NAV_MESSAGES -> is_Some (handler name).
Proof.
  assert (H : Forall (fun name => is_Some (handler name)) EPOCH_NAV_MESSAGES) by (repeat constructor; eexists; reflexivity).
  rewrite list.Forall_forall in H. apply H.
Qed.
Lemma eoe_is_no_nav : (str "NAV-EOE" ∉ EPOCH_NAV_MESSAGES) /\ (str "RXM-RAWX" ∉ EPOCH_NAV_MESSAGES).
Proof.
  assert (E : bool_decide (str "NAV-EOE" ∈ EPOCH_NAV_MESSAGES) || bool_decide (str "RXM-RAWX" ∈ EPOCH_NAV_MESSAGES) = false)
    by (vm_compute; reflexivity).
  apply orb_false_iff in E as [E1 E2]. by apply bool_decide_eq_false_1 in E1, E2.
Qed.

Lemma push_epochs o h : epochs_of (out (push o h)) = (epochs_of (out h) ++ match o with Epoch r => [r] | _ => [] end)%list.
Proof. unfold epochs_of. cbn [push out]. rewrite omap_app. by destruct o. Qed.

(** What a closed epoch adds. *)
Lemma close_epoch_adds now h : exists r,
  epochs_of (out (close_epoch now h)) = (epochs_of (out h) ++ [r])%list /\ last_epoch r = Some now
  /\ epoch_count r = (epoch_count (state h) + 1)%Z /\ epoch_count (state (close_epoch now h)) = (epoch_count (state h) + 1)%Z
  /\ rtcm_out (state (close_epoch now h)) = rtcm_out (state h)
  /\ time_marks (state (close_epoch now h)) = time_marks (state h)
  /\ rtcm_rx (state (close_epoch now h)) = rtcm_rx (state h) /\ rtcm_rx_total (state (close_epoch now h)) = rtcm_rx_total (state h)
  /\ rtcm_crc_failed (state (close_epoch now h)) = rtcm_crc_failed (state h).
Proof.
  unfold close_epoch. cbn [last_rtcm set_epochs]. destruct (last_rtcm (state h)); eexists; rewrite !push_epochs; cbn [out set_state];
    rewrite ?app_nil_r; split_and!; reflexivity || done.
Qed.

Lemma close_epoch_times now h : closed_times (out (close_epoch now h)) = (closed_times (out h) ++ [now])%list.
Proof.
  destruct (close_epoch_adds now h) as (r & E & Hr & _). unfold closed_times. rewrite E, omap_app. cbn. by rewrite Hr.
Qed.
Lemma close_if_times closed h :
  closed_times (out (close_if closed h)) = (closed_times (out h) ++ match closed with Some t => [t] | None => [] end)%list.
Proof. destruct closed; cbn [close_if]; [apply close_epoch_times | by rewrite app_nil_r]. Qed.

Lemma publish_epochs l s : epochs_of (out (hstate (publish_all l s))) = epochs_of (out (hstate s))
  /\ infer (publish_all l s) = infer s /\ state (hstate (publish_all l s)) = state (hstate s)
  /\ rtcm_window (publish_all l s) = rtcm_window s.
Proof.
  unfold publish_all, on_h. cbn [hstate infer rtcm_window].
  assert (H : forall h, epochs_of (out (foldl (fun h c => push (Changed c) h) h l)) = epochs_of (out h)
    /\ state (foldl (fun h c => push (Changed c) h) h l) = state h).
  { induction l as [| c l IH]; intros h; [done |]. cbn [foldl]. destruct (IH (push (Changed c) h)) as [-> ->].
    rewrite push_epochs. cbn. by rewrite app_nil_r. }
  by destruct (H (hstate s)) as [-> ->].
Qed.

