(* ===== verification/StateEpochs.v ===== *)
(** * The epochs of the state store

    The end of an epoch in [StateStore], against the epochs a stream of messages tells: the
    abstract stream and what is expected of it, the simulation, and its transfer to frames. *)

From Stdlib Require Import String.
From stdpp Require Import gmap.
From S2P Require Import Prelude.
From S2P Require Import PyBytes.
From S2P Require Import PyFloat.
From S2P Require Import Calendar.
From S2P Require Import Framing.
From S2P Require Import StateModels.
From S2P Require Import StateStore.

#[local] Open Scope string_scope.

(** ** Epochs, as the messages tell them *)

(** What the inference sees of a frame. *)
Inductive EpochEvent := Nav (itow : Z) (pvt : bool) (now : Z) | Eoe (itow now : Z).

Definition event_step (i : Infer) (e : EpochEvent) : Infer * list Z :=
  match e with
  | Nav itow pvt now => let '(i, closed) := infer_epoch_end now itow pvt i in (i, match closed with Some t => [t] | None => [] end)
  | Eoe itow now => (set_eoe (Some itow) 0 (if saw_eoe i then i else reset_inference (set_saw_eoe i)), [now])
  end.
Fixpoint event_run (i : Infer) (es : list EpochEvent) : Infer * list Z :=
  match es with
  | [] => (i, [])
  | e :: es => let '(i, c) := event_step i e in let '(i, cs) := event_run i es in (i, (c ++ cs)%list)
  end.
(** What [end_of_stream] closes. *)
Definition event_end (i : Infer) : list Z :=
  if negb (saw_eoe i) && bool_decide (open_itow i <> None) && open_whole i then [open_mono i] else [].
Definition closings_from (i : Infer) (es : list EpochEvent) : list Z :=
  let '(i, cs) := event_run i es in (cs ++ event_end i)%list.

Lemma closings_cons i e es : closings_from i (e :: es) = ((event_step i e).2 ++ closings_from (event_step i e).1 es)%list.
Proof.
  unfold closings_from. cbn [event_run]. destruct (event_step i e) as [i1 c]. cbn [fst snd].
  destruct (event_run i1 es) as [i2 cs]. by rewrite app_assoc.
Qed.

(** One epoch of a stream: its iTOW, whether it opens with NAV-PVT and the time of that first
    message, the times of the others, and the time of its NAV-EOE if it has one. *)
Record EpochOf := mkEpochOf { e_itow : Z; e_pvt : bool; e_first : Z; e_more : list (bool * Z); e_eoe : option Z }.
Definition e_last (e : EpochOf) : Z := foldl (fun _ m => m.2) (e_first e) (e_more e).
Definition e_events (e : EpochOf) : list EpochEvent :=
  (Nav (e_itow e) (e_pvt e) (e_first e) :: map (fun m => Nav (e_itow e) m.1 m.2) (e_more e)
   ++ match e_eoe e with Some t => [Eoe (e_itow e) t] | None => [] end)%list.
Definition stream (es : list EpochOf) : list EpochEvent := flat_map e_events es.

(** Whether the stream is taken to carry NAV-EOE, and how many epochs in a row lacked it. *)
Inductive Mode := Inferring | Marked (missed : Z).

(** The epochs that are published, by the times they are stamped with: those with a NAV-EOE, at
    its time; without one, at the time of the last message, while ends are inferred; where
    NAV-EOE is expected, a first epoch without one is given up as lost, and a second one, once
    the stream goes on, means it no longer comes. *)
Fixpoint expected (m : Mode) (es : list EpochOf) : list Z :=
  match es with
  | [] => []
  | e :: es =>
      match e_eoe e, m with
      | Some t, _ => t :: expected (Marked 0) es
      | None, Inferring => e_last e :: expected Inferring es
      | None, Marked k =>
          if (EOE_MISSED_LIMIT <=? k + 1)%Z && negb (bool_decide (length es = 0%nat)) then e_last e :: expected Inferring es
          else expected (Marked (k + 1)) es
      end
  end.
(** A stream joined in the middle of an epoch does not publish that epoch's rest, unless a
    NAV-EOE ends it. *)
Definition expected_stream (es : list EpochOf) : list Z :=
  match es with
  | e :: es' => if negb (e_pvt e) && negb (bool_decide (is_Some (e_eoe e))) then expected Inferring es' else expected Inferring es
  | [] => []
  end.

(** An epoch that has been opened and waits for its end to be told. *)
Definition waits (past : list Z) (m : Mode) (itow : Z) (whole : bool) (t : Z) (i : Infer) : Prop :=
  open_itow i = Some itow /\ open_whole i = whole /\ open_mono i = t
  /\ match m with
     | Inferring => saw_eoe i = false
     | Marked k => saw_eoe i = true /\ missed_eoe i = k /\ (exists x, eoe_itow i = Some x /\ x <> itow /\ x ∈ past) /\ (1 <= k -> whole = true)%Z
     end.
(** The last epoch was closed by its NAV-EOE. *)
Definition settled (past : list Z) (i : Infer) : Prop :=
  saw_eoe i = true /\ missed_eoe i = 0
  /\ exists x, x ∈ past /\ eoe_itow i = Some x /\ (open_itow i = None \/ open_itow i = Some x).

(** What is still owed to an epoch that waits. *)
Definition owed (m : Mode) (whole : bool) (t : Z) (es : list EpochOf) : list Z :=
  match m with
  | Inferring => ((if whole then [t] else []) ++ expected Inferring es)%list
  | Marked k =>
      if (EOE_MISSED_LIMIT <=? k + 1)%Z && negb (bool_decide (length es = 0%nat)) then t :: expected Inferring es
      else expected (Marked (k + 1)) es
  end.

(** The other messages of an epoch only move its time. *)
Lemma epoch_more past m itow whole more : forall t i es, waits past m itow whole t i ->
  exists i', waits past m itow whole (foldl (fun _ x => x.2) t more) i'
    /\ closings_from i (map (fun x => Nav itow x.1 x.2) more ++ es) = closings_from i' es.
Proof.
  induction more as [| [p u] more IH]; intros t i es Hw; [by exists i |]. cbn [map app].
  assert (H1 : waits past m itow whole u (set_open_mono u i)).
  { destruct Hw as (Ho & Hh & _ & Hm). unfold waits. cbn. by destruct m. }
  rewrite closings_cons. cbn [event_step fst snd]. unfold infer_epoch_end.
  rewrite bool_decide_eq_true_2 by (by destruct Hw as (-> & _)). cbn [app fst snd].
  destruct (IH u _ es H1) as (i' & Hi' & E). exists i'. by split.
Qed.

(** The end of an epoch that waits. *)
Lemma epoch_eoe past m itow whole t u i es : waits past m itow whole t i -> itow ∈ past ->
  exists i', settled past i' /\ closings_from i (Eoe itow u :: es) = u :: closings_from i' es.
Proof.
  intros (Ho & Hh & _ & Hm) Hp. rewrite closings_cons. cbn [event_step fst snd app]. eexists. split; [| done].
  unfold settled. destruct m as [| k].
  - rewrite Hm. cbn. split_and!; try done. exists itow. split_and!; try done. by left.
  - destruct Hm as (Hs & _). rewrite Hs. cbn. split_and!; try done. exists itow. split_and!; try done. by right.
Qed.

(** One whole epoch, from after its opening message on. *)
Lemma epoch_body past m whole e rest i :
  (forall i', waits past m (e_itow e) whole (e_last e) i' -> closings_from i' (stream rest) = owed m whole (e_last e) rest) ->
  (forall i', settled past i' -> closings_from i' (stream rest) = expected (Marked 0) rest) ->
  e_itow e ∈ past -> waits past m (e_itow e) whole (e_first e) i ->
  closings_from i (map (fun x => Nav (e_itow e) x.1 x.2) (e_more e)
                   ++ (match e_eoe e with Some t => [Eoe (e_itow e) t] | None => [] end) ++ stream rest)
  = match e_eoe e with Some t => t :: expected (Marked 0) rest | None => owed m whole (e_last e) rest end.
Proof.
  intros Hwait Hset Hin Hw.
  destruct (epoch_more _ _ _ _ (e_more e) _ _ ((match e_eoe e with Some t => [Eoe (e_itow e) t] | None => [] end) ++ stream rest) Hw)
    as (i1 & H1 & ->).
  destruct (e_eoe e) as [u|]; cbn [app].
  - destruct (epoch_eoe _ _ _ _ _ u _ (stream rest) H1 Hin) as (i2 & H2 & ->). by rewrite Hset.
  - by apply Hwait.
Qed.

(** The opening message of the next epoch, after one that waits. *)
Lemma open_after_wait past m itow whole t i itow' pvt now :
  waits past m itow whole t i -> itow' <> itow -> itow' ∉ past ->
  exists m' c i', event_step i (Nav itow' pvt now) = (i', c) /\ waits (itow' :: past) m' itow' true now i'
    /\ match m with
       | Inferring => m' = Inferring /\ c = if whole then [t] else []
       | Marked k => if (EOE_MISSED_LIMIT <=? k + 1)%Z then m' = Inferring /\ c = [t] else m' = Marked (k + 1) /\ c = []
       end.
Proof.
  intros (Ho & Hh & Ht & Hm) Hne Hp. cbn [event_step]. unfold infer_epoch_end.
  rewrite Ho, bool_decide_eq_false_2 by congruence. destruct m as [| k].
  - rewrite Hm, Hh. destruct whole; exists Inferring; do 2 eexists; (split; [reflexivity |]); cbn; rewrite ?Ht; done.
  - destruct Hm as (Hs & Hk & (x & Hx & Hxn & Hxp) & Hw1). rewrite Hs, Hx, bool_decide_eq_false_2 by congruence.
    cbn [set_missed missed_eoe]. rewrite Hk. destruct (EOE_MISSED_LIMIT <=? k + 1)%Z eqn:E.
    + apply Z.leb_le in E. unfold EOE_MISSED_LIMIT in E. cbn [set_missed open_whole open_mono]. rewrite Hh, Hw1 by lia.
      exists Inferring. do 2 eexists. split; [reflexivity |]. cbn. by rewrite Ht.
    + exists (Marked (k + 1)). do 2 eexists. split; [reflexivity |]. cbn. split; [| done]. split_and!; try done. exists x. split_and!; try done.
      * intros ->. done.
      * by apply elem_of_cons; right.
Qed.

Lemma open_after_eoe past i itow' pvt now : settled past i -> itow' ∉ past ->
  exists whole i', event_step i (Nav itow' pvt now) = (i', []) /\ waits (itow' :: past) (Marked 0) itow' whole now i'.
Proof.
  intros (Hs & Hm & x & Hx & He & Ho) Hp. cbn [event_step]. unfold infer_epoch_end.
  assert (Hne : x <> itow') by (by intros ->).
  destruct Ho as [Ho|Ho]; rewrite Ho; rewrite bool_decide_eq_false_2 by congruence.
  - do 2 eexists. split; [reflexivity |]. unfold waits. cbn. split_and!; try done. exists x. split_and!; try done.
    by apply elem_of_cons; right.
  - rewrite Hs, He, bool_decide_eq_true_2 by done. do 2 eexists. split; [reflexivity |]. unfold waits. cbn. split_and!; try done.
    exists x. split_and!; try done. by apply elem_of_cons; right.
Qed.

Lemma settled_mono past past' i : settled past i -> past ⊆ past' -> settled past' i.
Proof. intros (H1 & H2 & x & Hx & H3) Hsub. split_and!; try done. exists x. split; [by apply Hsub | done]. Qed.

Lemma stream_cons e es : stream (e :: es)
  = (Nav (e_itow e) (e_pvt e) (e_first e) :: map (fun x => Nav (e_itow e) x.1 x.2) (e_more e)
     ++ (match e_eoe e with Some t => [Eoe (e_itow e) t] | None => [] end) ++ stream es)%list.
Proof. unfold stream. cbn [flat_map e_events app]. by rewrite <- app_assoc. Qed.

Lemma closings_end_wait past m itow whole t i : waits past m itow whole t i -> closings_from i [] = owed m whole t [].
Proof.
  intros (Ho & Hh & Ht & Hm). unfold closings_from, event_end. cbn [event_run app]. destruct m as [| k].
  - rewrite Hm, Ho, Hh, Ht. cbn. by destruct whole.
  - destruct Hm as (-> & _). cbn. by rewrite andb_false_r.
Qed.

(** The machine on a stream of epochs, after an epoch that waits and after one that was closed. *)
Lemma closings_stream es : forall past, NoDup (map e_itow es) -> (forall e, e ∈ es -> e_itow e ∉ past) ->
  (forall m itow whole t i, itow ∈ past -> waits past m itow whole t i -> closings_from i (stream es) = owed m whole t es)
  /\ (forall i, settled past i -> closings_from i (stream es) = expected (Marked 0) es).
Proof.
  induction es as [| e es IH]; intros past Hnd Hp.
  - split.
    + intros m itow whole t i _ Hw. by eapply closings_end_wait.
    + intros i (Hs & _). unfold closings_from, event_end. cbn. by rewrite Hs.
  - cbn [map] in Hnd. apply list.NoDup_cons in Hnd as [He Hnd].
    assert (Hpe : e_itow e ∉ past) by (apply Hp, elem_of_cons; by left).
    destruct (IH (e_itow e :: past) Hnd) as [IHw IHs].
    { intros d Hd Hin. apply elem_of_cons in Hin as [E|Hin].
      - apply He. rewrite <- E. by apply list_elem_of_fmap_2.
      - by apply (Hp d); [apply elem_of_cons; right |]. }
    assert (Hin : e_itow e ∈ e_itow e :: past) by (apply elem_of_cons; by left).
    assert (Hbody : forall m whole i, waits (e_itow e :: past) m (e_itow e) whole (e_first e) i ->
      closings_from i (map (fun x => Nav (e_itow e) x.1 x.2) (e_more e)
                       ++ (match e_eoe e with Some t => [Eoe (e_itow e) t] | None => [] end) ++ stream es)
      = match e_eoe e with Some t => t :: expected (Marked 0) es | None => owed m whole (e_last e) es end).
    { intros m whole i Hw. eapply epoch_body; [| | exact Hin | exact Hw].
      - intros i' Hw'. by apply (IHw m (e_itow e)).
      - intros i' Hs'. by apply IHs. }
    split.
    + intros m itow whole t i Hit Hw. rewrite stream_cons, closings_cons.
      assert (Hne : e_itow e <> itow) by (by intros <-).
      destruct (open_after_wait _ _ _ _ _ _ (e_itow e) (e_pvt e) (e_first e) Hw Hne Hpe) as (m' & c & i' & -> & Hw' & Hm).
      cbn [fst snd]. rewrite (Hbody _ _ _ Hw'). destruct m as [| k]; cbn [owed].
      * destruct Hm as [-> ->]. cbn [expected owed]. by destruct (e_eoe e).
      * change (bool_decide (length (e :: es) = 0%nat)) with false. cbn [negb]. rewrite andb_true_r.
        destruct (_ <=? _)%Z; destruct Hm as [-> ->]; cbn [app expected owed]; by destruct (e_eoe e).
    + intros i Hs. rewrite stream_cons, closings_cons.
      destruct (open_after_eoe _ _ (e_itow e) (e_pvt e) (e_first e) Hs Hpe) as (whole & i' & -> & Hw').
      cbn [fst snd app]. rewrite (Hbody _ _ _ Hw'). cbn [expected owed]. by destruct (e_eoe e).
Qed.

Lemma closings_first es now : NoDup (map e_itow es) -> closings_from (new_infer now) (stream es) = expected_stream es.
Proof.
  intros Hnd. destruct es as [| e es]; [done |]. cbn [map] in Hnd. apply list.NoDup_cons in Hnd as [He Hnd].
  destruct (closings_stream es [e_itow e] Hnd) as [Hwait Hset].
  { intros d Hd Hin. apply list_elem_of_singleton in Hin. apply He. rewrite <- Hin. by apply list_elem_of_fmap_2. }
  rewrite stream_cons, closings_cons. cbn [event_step fst snd]. unfold infer_epoch_end. cbn [open_itow new_infer].
  rewrite bool_decide_eq_false_2 by done. cbn [fst snd app].
  rewrite (epoch_body [e_itow e] Inferring (e_pvt e)).
  - unfold expected_stream. destruct (e_eoe e) eqn:E; cbn; [rewrite andb_false_r; cbn; by rewrite E |].
    rewrite andb_true_r. destruct (e_pvt e); cbn; [by rewrite E | done].
  - intros i' Hw. by apply (Hwait Inferring (e_itow e)); [apply list_elem_of_singleton |].
  - done.
  - by apply list_elem_of_singleton.
  - done.
Qed.

(** ** From frames to epochs *)

Section Frames.
Context (identity : bytes -> bytes) (parse : bytes -> option Msg).
(** The parser gives every NAV-EOE its [iTOW]. *)
Hypothesis eoe_has_itow : forall r m, identity r = str "NAV-EOE" -> parse r = Some m -> exists i, m !! str "iTOW" = Some (VInt i).

(** What the inference sees of a frame. *)
Definition event_of (f : Frame) (now : Z) : option EpochEvent :=
  match proto f with
  | UBX =>
      m ← parse (raw f);
      let name := identity (raw f) in
      match m !! str "iTOW" with
      | Some (VInt i) =>
          if bool_decide (name = str "NAV-EOE") then Some (Eoe i now)
          else if bool_decide (name ∈ EPOCH_NAV_MESSAGES) then Some (Nav i (bool_decide (name = str "NAV-PVT")) now)
          else None
      | _ => None
      end
  | _ => None
  end.

Definition follows (s s' : Store) (e : option EpochEvent) : Prop :=
  infer s' = match e with Some e => (event_step (infer s) e).1 | None => infer s end
  /\ closed_times (out (hstate s'))
     = (closed_times (out (hstate s)) ++ match e with Some e => (event_step (infer s) e).2 | None => [] end)%list.

Lemma follows_none s s' : infer s' = infer s -> closed_times (out (hstate s')) = closed_times (out (hstate s)) -> follows s s' None.
Proof. intros H1 H2. split; [done |]. by rewrite app_nil_r. Qed.

Lemma handle_follows name h m s : handler name = Some h ->
  infer (handle h m s).1 = infer s /\ closed_times (out (hstate (handle h m s).1)) = closed_times (out (hstate s)).
Proof.
  intros Hh. unfold handle. pose proof (handler_quiet _ _ m Hh (hstate s)) as (_ & Hq & _). destruct (h m (hstate s)). cbn in *. unfold closed_times. by rewrite Hq.
Qed.


Lemma publish_follows s l s' e : follows s s' e -> follows s (publish_all l s') e.
Proof. intros [H1 H2]. destruct (publish_epochs l s') as (Q1 & Q2 & _). unfold follows, closed_times in *. by rewrite Q1, Q2. Qed.

Lemma nav_eoe_follows m i s : m !! str "iTOW" = Some (VInt i) ->
  follows s (nav_eoe m s).1 (Some (Eoe i (now_mono (hstate s)))) /\ (nav_eoe m s).2 = Some [].
Proof.
  intros Hm. unfold nav_eoe, follows. rewrite Hm. destruct (saw_eoe (infer s)) eqn:Es; cbn [fst snd on_h on_infer infer hstate event_step];
    rewrite Es; by rewrite close_epoch_times.
Qed.

Lemma nav_follows name h m i s : name ∈ EPOCH_NAV_MESSAGES -> handler name = Some h -> m !! str "iTOW" = Some (VInt i) ->
  exists s', infer_step name m s = Some s'
    /\ follows s (handle h m s').1 (Some (Nav i (bool_decide (name = str "NAV-PVT")) (now_mono (hstate s)))).
Proof.
  intros Hn Hh Hm. unfold infer_step. rewrite bool_decide_eq_true_2, Hm by done.
  destruct (infer_epoch_end _ _ _ _) as [i' closed] eqn:Ei. eexists. split; [reflexivity |].
  match goal with |- follows _ (handle h m ?s1).1 _ => destruct (handle_follows name h m s1 Hh) as [H1 H2] end.
  unfold follows. rewrite H1, H2. cbn [infer hstate event_step]. rewrite Ei. cbn [fst snd]. by rewrite close_if_times.
Qed.

Lemma apply_follows f t now s : follows s (apply identity parse f t now s).1 (event_of f now).
Proof.
  unfold apply, event_of. set (s1 := on_h (set_now now) s).
  assert (Hs : forall s' e, follows s1 s' e -> follows s s' e) by done.
  assert (E0 : now_mono (hstate s1) = now) by done. clearbody s1.
  assert (Hn : follows s s1 None) by (apply Hs, follows_none; done).
  destruct (proto f); try done.
  2: { apply Hs, follows_none; [done |]. unfold closed_times, rtcm. cbn [fst hstate]. rewrite push_epochs. cbn. by rewrite app_nil_r. }
  set (name := identity (raw f)). destruct eoe_is_no_nav as [Hne Hnr].
  case_bool_decide as Eraw.
  { rewrite Eraw. replace (m ← parse (raw f); _) with (@None EpochEvent); [exact Hn |]. destruct (parse (raw f)) as [m|]; [| done].
    cbn. by destruct (m !! _) as [[]|]. }
  destruct (parse (raw f)) as [m|] eqn:Ep; cbn [mbind option_bind].
  2: { case_bool_decide; [exact Hn |]. by destruct (handler name). }
  case_bool_decide as Eeoe.
  - destruct (eoe_has_itow (raw f) m Eeoe Ep) as [i Hi]. rewrite Hi.
    unfold infer_step. rewrite bool_decide_eq_false_2 by (by rewrite Eeoe).
    destruct (nav_eoe_follows m i s1 Hi) as [H1 H2]. rewrite E0 in H1.
    destruct (nav_eoe m s1) as [s2 r]. cbn [fst snd] in *. subst r. apply publish_follows, Hs, H1.
  - destruct (handler name) as [h|] eqn:Eh.
    + destruct (decide (name ∈ EPOCH_NAV_MESSAGES)) as [Hin|Hout].
      * destruct (m !! str "iTOW") as [[| |i| | | | |]|] eqn:Hi; try (unfold infer_step; rewrite bool_decide_eq_true_2, Hi by done; exact Hn).
        destruct (nav_follows name h m i s1 Hin Eh Hi) as (s2 & -> & Hf). rewrite bool_decide_eq_true_2 by done. rewrite E0 in Hf.
        destruct (handle h m s2) as [s3 [l|]]; [apply publish_follows |]; apply Hs, Hf.
      * unfold infer_step. rewrite bool_decide_eq_false_2 by done.
        destruct (handle_follows name h m s1 Eh) as [H1 H2]. destruct (handle h m s1) as [s3 r]. cbn [fst] in *.
        replace (match m !! str "iTOW" with Some (VInt i) => _ | _ => _ end) with (@None EpochEvent);
          [| destruct (m !! _) as [[]|]; try done; by rewrite bool_decide_eq_false_2].
        destruct r as [l|]; [apply publish_follows |]; by apply Hs, follows_none.
    + assert (Hout : name ∉ EPOCH_NAV_MESSAGES) by (intros Hin; destruct (nav_handled _ Hin); congruence).
      replace (match m !! str "iTOW" with Some (VInt i) => _ | _ => _ end) with (@None EpochEvent);
        [exact Hn | destruct (m !! _) as [[]|]; try done; by rewrite bool_decide_eq_false_2].
Qed.
Definition run (fs : list (Frame * Z * Z)) (s : Store) : Store :=
  foldl (fun s x => (apply identity parse x.1.1 x.1.2 x.2 s).1) s fs.

Lemma run_follows fs : forall s,
  infer (run fs s) = (event_run (infer s) (omap (fun x => event_of x.1.1 x.2) fs)).1
  /\ closed_times (out (hstate (run fs s)))
     = (closed_times (out (hstate s)) ++ (event_run (infer s) (omap (fun x => event_of x.1.1 x.2) fs)).2)%list.
Proof.
  unfold run. induction fs as [| [[f t] now] fs IH]; intros s; [cbn; by rewrite app_nil_r |].
  set (g := fun x : Frame * Z * Z => event_of x.1.1 x.2) in *.
  assert (E : omap g ((f, t, now) :: fs) = match event_of f now with Some e => e :: omap g fs | None => omap g fs end) by done.
  rewrite E. cbn [foldl fst snd]. destruct (apply_follows f t now s) as [H1 H2].
  destruct (IH (apply identity parse f t now s).1) as [-> ->]. rewrite H1, H2.
  destruct (event_of f now) as [e|]; [| by rewrite app_nil_r].
  cbn [event_run]. destruct (event_step (infer s) e) as [i1 c]. cbn [fst snd].
  destruct (event_run i1 _) as [i2 cs]. cbn [fst snd]. by rewrite app_assoc.
Qed.

Lemma end_of_stream_times s :
  closed_times (out (hstate (end_of_stream s))) = (closed_times (out (hstate s)) ++ event_end (infer s))%list.
Proof.
  unfold end_of_stream, event_end. cbn [on_infer hstate]. destruct (_ && _); [| by rewrite app_nil_r].
  cbn [on_h hstate]. apply close_epoch_times.
Qed.

(** C9.  For a stream of epochs with distinct iTOWs, each of which ends with at most one
    NAV-EOE, whatever its messages and whether their handlers fail: the epochs the store
    publishes, and the times it stamps them with, are those the stream tells: one with
    a NAV-EOE at that message; one without, while none are expected, at its last message; a
    single epoch whose NAV-EOE was lost is not published, and from the second in a row on
    ends are inferred again (when another epoch follows); a first epoch joined in the middle is published only if it carries a
    NAV-EOE, as any is that does. No epoch is published twice. *)
Theorem epochs_published fs es t0 :
  omap (fun x => event_of x.1.1 x.2) fs = stream es -> NoDup (map e_itow es) ->
  closed_times (out (hstate (end_of_stream (run fs (new_store t0))))) = expected_stream es.
Proof.
  intros He Hnd. rewrite end_of_stream_times. destruct (run_follows fs (new_store t0)) as [-> ->].
  rewrite He, <- (closings_first es t0 Hnd). unfold closings_from. by destruct (event_run _ _).
Qed.
End Frames.

(** A stream that is joined in the middle of an epoch, carries NAV-EOE, loses one, and then
    stops carrying it. A frame's raw bytes here are its kind and its iTOW. *)
Definition demo_identity (r : bytes) : bytes :=
  match r with 0 :: _ => str "NAV-EOE" | 1 :: _ => str "NAV-PVT" | _ => str "NAV-DOP" end%Z.
Definition demo_parse (r : bytes) : option Msg :=
  match r with _ :: i :: _ => Some (attrs [("iTOW", VInt i)]) | _ => None end.
Definition demo_frames : list (Frame * Z * Z) :=
  map (fun x : Z * Z * Z => (mkFrame UBX [x.1.1; x.1.2], 0%Z, x.2))
    [(2, 10, 1); (1, 20, 2); (2, 20, 3); (0, 20, 4); (1, 30, 5); (0, 30, 6); (1, 40, 7); (1, 50, 8); (0, 50, 9);
     (1, 60, 10); (1, 70, 11); (2, 70, 12); (1, 80, 13)]%Z.
Definition demo_epochs : list EpochOf :=
  [mkEpochOf 10 false 1 [] None; mkEpochOf 20 true 2 [(false, 3)] (Some 4); mkEpochOf 30 true 5 [] (Some 6); mkEpochOf 40 true 7 [] None;
   mkEpochOf 50 true 8 [] (Some 9); mkEpochOf 60 true 10 [] None; mkEpochOf 70 true 11 [(false, 12)] None; mkEpochOf 80 true 13 [] None]%Z.

Lemma epochs_published_witness :
  closed_times (out (hstate (end_of_stream (run demo_identity demo_parse demo_frames (new_store 0))))) = [4; 6; 9; 12; 13]%Z.
Proof.
  rewrite (epochs_published demo_identity demo_parse) with (es := demo_epochs).
  - vm_compute. reflexivity.
  - intros [| k [| i r]] m; cbn; try discriminate. intros _ [= <-]. exists i. reflexivity.
  - vm_compute. reflexivity.
  - apply (bool_decide_eq_true_1 (NoDup (map e_itow demo_epochs))). vm_compute. reflexivity.
Defined.
