(* ===== verification/StateBooks.v ===== *)
(** * The counters and lists of the state store

    RTCM frames sent and their rate, corrections received, time marks, the numbering of epochs,
    and the list of satellites with its summary, in every state [StateStore] reaches. *)

From Stdlib Require Import String.
From stdpp Require Import gmap.
From S2P Require Import Prelude.
From S2P Require Import PyBytes.
From S2P Require Import PyFloat.
From S2P Require Import Calendar.
From S2P Require Import Framing.
From S2P Require Import StateModels.
From S2P Require Import StateStore.
From S2P Require Import StateEpochs.

#[local] Open Scope string_scope.

(** ** Counters *)

(** The sum of a measure over the rows of a dict. *)
Definition msum {K A} `{Countable K} (f : A -> Z) (m : gmap K A) : Z := map_fold (fun _ x n => (f x + n)%Z) 0%Z m.

Lemma msum_insert {K A} `{Countable K} (f : A -> Z) (m : gmap K A) k x :
  msum f (<[k := x]> m) = (msum f m + f x - match m !! k with Some y => f y | None => 0 end)%Z.
Proof.
  unfold msum. rewrite <- insert_delete_eq, map_fold_insert_L; [| intros; lia | apply lookup_delete_eq].
  destruct (m !! k) as [y|] eqn:E.
  - rewrite (map_fold_delete_L _ _ k y m) by (done || intros; lia). lia.
  - rewrite delete_id by done. lia.
Qed.

Lemma msum_alter {K A} `{Countable K} (f : A -> Z) (g : A -> A) (m : gmap K A) k :
  msum f (alter g k m) = match m !! k with Some y => msum f m + f (g y) - f y | None => msum f m end%Z.
Proof. rewrite alter_alt. destruct (m !! k) eqn:E; [| done]. rewrite msum_insert, E. lia. Qed.

(** The rows of [rtk.rtcm_rx]: within each, the frames that failed their CRC and those used are
    among those counted; the rows together never count more than arrived. *)
Definition intact (k : RtcmRxStats) : Z := rx_count k - rx_crc_failed k.
Definition rx_inv (rx : gmap Z RtcmRxStats) (total failed : Z) : Prop :=
  map_Forall (fun _ k => 0 <= rx_used k <= intact k /\ 0 <= rx_crc_failed k)%Z rx
  /\ (msum rx_crc_failed rx <= failed)%Z /\ (msum intact rx <= total - failed)%Z.
Definition rx_ok (r : ReceiverState) : Prop := rx_inv (rtcm_rx r) (rtcm_rx_total r) (rtcm_crc_failed r).

Lemma rx_inv_eq rx total failed total' failed' :
  rx_inv rx total failed -> total' = total -> failed' = failed -> rx_inv rx total' failed'.
Proof. by intros ? -> ->. Qed.

(** Another frame arrived, and at most this was done about it. *)
Lemma rx_arrived rx total failed : rx_inv rx total failed -> rx_inv rx (total + 1) failed /\ rx_inv rx (total + 1) (failed + 1).
Proof. intros (H1 & H2 & H3). unfold rx_inv. split_and!; done || lia. Qed.

Lemma rx_failed_known rx total failed ty now : rx_inv rx total failed ->
  rx_inv (alter (fun k => mkRxStats (rx_count k + 1) (rx_used k) (rx_crc_failed k + 1) (Some now)) ty rx) (total + 1) (failed + 1).
Proof.
  intros (H1 & H2 & H3). unfold rx_inv. rewrite !msum_alter. unfold intact in *. split.
  - rewrite alter_alt. destruct (rx !! ty) as [k|] eqn:E; [| done]. apply map_Forall_insert_2; [| done].
    specialize (H1 _ _ E). cbn in *. lia.
  - destruct (rx !! ty) as [k|] eqn:E; cbn; lia.
Qed.

Lemma rx_intact rx total failed ty now : rx_inv rx total failed ->
  let k := default (mkRxStats 0 0 0 None) (rx !! ty) in
  rx_inv (<[ty := mkRxStats (rx_count k + 1) (rx_used k) (rx_crc_failed k) (Some now)]> rx) (total + 1) failed.
Proof.
  intros (H1 & H2 & H3). unfold rx_inv. cbn zeta. rewrite !msum_insert. unfold intact in *. split.
  - apply map_Forall_insert_2; [| done]. destruct (rx !! ty) as [k|] eqn:E; cbn in *; [specialize (H1 _ _ E); cbn in H1 |]; lia.
  - destruct (rx !! ty) as [k|] eqn:E; cbn in *; lia.
Qed.

Lemma rx_used_once rx total failed ty : rx_inv rx total failed -> (forall k, rx !! ty = Some k -> rx_used k + 1 <= intact k)%Z ->
  rx_inv (alter (fun k => mkRxStats (rx_count k) (rx_used k + 1) (rx_crc_failed k) (rx_last_seen k)) ty rx) total failed.
Proof.
  intros (H1 & H2 & H3) Hk. unfold rx_inv. rewrite !msum_alter. unfold intact in *. split.
  - rewrite alter_alt. destruct (rx !! ty) as [k|] eqn:E; [| done]. apply map_Forall_insert_2; [| done].
    specialize (H1 _ _ E). specialize (Hk _ eq_refl). cbn in *. lia.
  - destruct (rx !! ty) as [k|] eqn:E; cbn; lia.
Qed.

(** Triples over the counters of the corrections received; every exit by an exception leaves
    them in order. *)
Definition RxPred := gmap Z RtcmRxStats -> Z -> Z -> Prop.
Definition on_rx (P : RxPred) (h : HState) : Prop := P (rtcm_rx (state h)) (rtcm_rx_total (state h)) (rtcm_crc_failed (state h)).
Definition triple {A} (P : RxPred) (p : M A) (Q : RxPred) : Prop :=
  forall h, on_rx P h -> on_rx rx_inv (p h).1 /\ ((p h).2 <> None -> on_rx Q (p h).1).
Definition sound (P : RxPred) : Prop := forall rx t f, P rx t f -> rx_inv rx t f.

Lemma triple_bind {A B} P Q R (p : M A) (k : A -> M B) : triple P p Q -> (forall x, triple Q (k x) R) -> triple P (p ≫= k) R.
Proof.
  intros Hp Hk h H. specialize (Hp h H). unfold mbind, M_bind. destruct (p h) as [h' [x|]]; cbn [fst snd] in *.
  - apply Hk. by apply Hp.
  - by destruct Hp.
Qed.
Lemma triple_keeps {A} P (p : M A) : keeps p -> sound P -> triple P p P.
Proof.
  intros Hk Hs h H. destruct (Hk h) as (_ & _ & E). unfold counters in E. injection E as _ E1 E2 E3 _ _ _ _ _.
  unfold on_rx in *. rewrite E1, E2, E3. split; [by apply Hs | by intros _].
Qed.
Lemma triple_update P Q a b f : (forall rx t e, P rx t e -> Q (f rx) (t + a)%Z (e + b)%Z) -> sound Q -> triple P (update_rx a b f) Q.
Proof. intros HPQ Hs h H. unfold on_rx, update_rx in *. cbn. split; [by apply Hs, HPQ | intros _; by apply HPQ]. Qed.
Lemma triple_if {A} P Q (b : bool) (p q : M A) : triple P p Q -> triple P q Q -> triple P (if b then p else q) Q.
Proof. by destruct b. Qed.

(** A frame more than the rows tell of; one that failed; and a row with a frame not yet used. *)
Definition one_more : RxPred := fun rx t f => rx_inv rx (t - 1) f.
Definition one_failed : RxPred := fun rx t f => rx_inv rx (t - 1) (f - 1).
Definition unused (ty : Z) : RxPred := fun rx t f => rx_inv rx t f /\ forall k, rx !! ty = Some k -> (rx_used k + 1 <= intact k)%Z.

Lemma sound_preds : sound rx_inv /\ sound one_more /\ sound one_failed /\ forall ty, sound (unused ty).
Proof.
  split; [by intros rx t f H |]. split; [| split; [| by intros ty rx t f [H _]]];
    intros rx t f (H1 & H2 & H3); unfold rx_inv; (split; [done | lia]).
Qed.

Lemma rxm_rtcm_ok m : triple rx_inv (rxm_rtcm m) rx_inv.
Proof.
  destruct sound_preds as (S0 & S1 & S2 & S3). unfold rxm_rtcm.
  apply (triple_bind _ one_more); [apply triple_update; [| done]; intros rx t f H; unfold one_more; by replace (t + 1 - 1)%Z with t by lia;
    replace (f + 0)%Z with f by lia | intros _].
  apply (triple_bind _ one_more); [apply triple_keeps; [handler_keeps | done] | intros now].
  apply (triple_bind _ one_more); [apply triple_keeps; [handler_keeps | done] | intros failed].
  apply triple_if.
  - apply (triple_bind _ one_failed); [apply triple_update; [| done]; intros rx t f H; unfold one_failed, one_more in *;
      by replace (t + 0 - 1)%Z with (t - 1)%Z by lia; replace (f + 1 - 1)%Z with f by lia | intros _].
    apply (triple_bind _ one_failed); [apply triple_keeps; [handler_keeps | done] | intros v].
    apply (triple_bind _ one_failed); [apply triple_keeps; [handler_keeps | done] | intros ty].
    apply (triple_bind _ rx_inv); [apply triple_update; [| done]; intros rx t f H | intros _; apply triple_keeps; [handler_keeps | done]].
    eapply rx_inv_eq; [apply (rx_failed_known _ _ _ ty now H) | lia..].
  - apply (triple_bind _ one_more); [apply triple_keeps; [handler_keeps | done] | intros v].
    apply (triple_bind _ one_more); [apply triple_keeps; [handler_keeps | done] | intros ty].
    apply (triple_bind _ (unused ty)); [apply triple_update; [| done]; intros rx t f H | intros _].
    { split; [eapply rx_inv_eq; [apply (rx_intact _ _ _ ty now H) | lia..] |].
      intros k. rewrite lookup_insert_eq. intros [= <-]. destruct H as (H & _). unfold intact in *. cbn.
      destruct (rx !! ty) as [k|] eqn:E; cbn; [specialize (H _ _ E); cbn in H |]; lia. }
    apply (triple_bind _ (unused ty)); [apply triple_keeps; [handler_keeps | done] | intros u].
    apply (triple_bind _ rx_inv); [apply triple_if | intros _].
    + apply triple_update; [| done]. intros rx t f [H Hk]. eapply rx_inv_eq; [apply (rx_used_once _ _ _ ty H Hk) | lia..].
    + intros h H. destruct H as [H _]. by split.
    + apply triple_keeps; [handler_keeps | done].
Qed.

(** ** The books of the store *)

Definition numbered (h : HState) : Prop :=
  map epoch_count (epochs_of (out h)) = map Z.of_nat (seq 1 (length (epochs_of (out h))))
  /\ epoch_count (state h) = len (epochs_of (out h)).
Definition ok_h (h : HState) : Prop := marks_ok h /\ on_rx rx_inv h /\ numbered h.

(** What everything but an RTCM frame does to the store. *)
Definition calm (s s' : Store) : Prop :=
  rtcm_window s' = rtcm_window s /\ rtcm_out (state (hstate s')) = rtcm_out (state (hstate s)) /\ (ok_h (hstate s) -> ok_h (hstate s')).

#[export] Instance calm_preorder : PreOrder calm.
Proof. split; [done |]. intros s1 s2 s3 (A1 & A2 & A3) (B1 & B2 & B3). unfold calm. rewrite B1, B2. auto. Qed.

Lemma numbered_quiet h h' : quiet h h' -> numbered h -> numbered h'.
Proof. intros (_ & H1 & _ & H2 & _) [H3 H4]. unfold numbered. by rewrite H1, H2. Qed.

Lemma numbered_close now h : numbered h -> numbered (close_epoch now h).
Proof.
  intros [H1 H2]. destruct (close_epoch_adds now h) as (r & E1 & _ & Er & Ec & _). unfold numbered.
  rewrite E1, Ec, map_app, length_app, H1, H2, seq_app, map_app. cbn [map length seq]. rewrite Er, H2. split; [do 2 f_equal; lia | lia].
Qed.

Lemma ok_close now h : ok_h h -> ok_h (close_epoch now h).
Proof.
  intros (H1 & H2 & H3). destruct (close_epoch_adds now h) as (r & _ & _ & _ & _ & _ & Em & E1 & E2 & E3).
  unfold ok_h, marks_ok, on_rx in *. rewrite Em, E1, E2, E3. split_and!; [done | done | by apply numbered_close].
Qed.

Lemma handlers_rx m : Forall (fun kv => triple rx_inv (kv.2 m) rx_inv) handlers.
Proof.
  destruct sound_preds as [S0 _].
  assert (Ht : triple rx_inv (tim_tm2 m) rx_inv).
  { unfold tim_tm2.
    repeat match goal with
    | |- forall _, _ => intro
    | |- triple _ (on_state (fun r => set_time_marks _ _)) _ => by intros h H
    | |- triple _ (modify (push _)) _ => by intros h H
    | |- triple _ (_ ≫= _) _ => apply (triple_bind _ rx_inv)
    | |- triple _ (match ?x with _ => _ end) _ => destruct x
    | |- triple _ _ _ => apply triple_keeps; [solve [handler_keeps] | done]
    end. }
  pose proof (rxm_rtcm_ok m) as Hr. pose proof (filling_keeps m) as Hf. unfold filling, handlers in *.
  repeat (apply List.Forall_cons_iff in Hf as [? Hf]).
  repeat (apply List.Forall_cons || apply List.Forall_nil); cbn [snd]; try done; by apply triple_keeps.
Qed.

Lemma handle_calm name h m s : handler name = Some h -> calm s (handle h m s).1.
Proof.
  intros Hh. pose proof (handler_quiet _ _ m Hh (hstate s)) as Hq.
  assert (Hx : triple rx_inv (h m) rx_inv).
  { unfold handler in Hh. destruct (List.find _ _) as [kv|] eqn:E; [| done]. injection Hh as <-. apply find_some in E as [Hin _].
    pose proof (handlers_rx m) as H. rewrite List.Forall_forall in H. by apply H. }
  unfold handle. destruct (h m (hstate s)) as [h' r] eqn:E. cbn [fst] in *. unfold calm. cbn [hstate rtcm_window].
  pose proof Hq as (_ & _ & E1 & _ & Hm). split; [done |]. split; [exact E1 |]. intros (H1 & H2 & H3).
  destruct (Hx _ H2) as [Hx' _]. rewrite E in Hx'. split_and!; [by apply Hm | exact Hx' | by eapply numbered_quiet].
Qed.

Lemma publish_calm l s : calm s (publish_all l s).
Proof.
  destruct (publish_epochs l s) as (E1 & _ & E2 & E3). unfold calm, ok_h, marks_ok, on_rx, numbered. by rewrite E1, E2, E3.
Qed.

Lemma on_h_calm f s : rtcm_out (state (f (hstate s))) = rtcm_out (state (hstate s)) -> (ok_h (hstate s) -> ok_h (f (hstate s))) -> calm s (on_h f s).
Proof. done. Qed.

Lemma close_calm now s : calm s (on_h (close_epoch now) s).
Proof. apply on_h_calm; [| apply ok_close]. by destruct (close_epoch_adds now (hstate s)) as (r & _ & _ & _ & _ & -> & _). Qed.

Lemma infer_step_calm name m s s' : infer_step name m s = Some s' -> calm s s'.
Proof.
  unfold infer_step. case_bool_decide; [| by intros [= <-]]. destruct (m !! _) as [[]|]; try done.
  destruct (infer_epoch_end _ _ _ _) as [i' [c|]]; intros [= <-]; [| done].
  exact (close_calm c s).
Qed.

Lemma nav_eoe_calm m s : calm s (nav_eoe m s).1.
Proof.
  unfold nav_eoe. set (s1 := if saw_eoe (infer s) then s else _).
  assert (H1 : calm s s1) by (unfold s1; by destruct (saw_eoe (infer s))). clearbody s1.
  destruct (m !! _) as [[]|]; try exact H1. etrans; [exact H1 |]. apply (close_calm _ (on_infer _ s1)).
Qed.

Section Books.
Context (identity : bytes -> bytes) (parse : bytes -> option Msg).

Lemma apply_calm f t now s : proto f <> RTCM3 -> calm s (apply identity parse f t now s).1.
Proof.
  intros Hp. unfold apply. set (s1 := on_h (set_now now) s).
  assert (H1 : calm s s1) by done. clearbody s1. destruct (proto f); try done.
  case_bool_decide; [exact H1 |].
  assert (Hrun : forall h : Msg -> Store -> Store * option (list bytes), (forall m s, calm s (h m s).1) ->
    calm s1 (match parse (raw f) with
             | None => (s1, [])
             | Some m => match infer_step (identity (raw f)) m s1 with
                         | None => (s1, [])
                         | Some s => match h m s with (s, Some changed) => (publish_all changed s, changed) | (s, None) => (s, []) end
                         end
             end).1).
  { intros h Hh. destruct (parse (raw f)) as [m|]; [| done]. destruct (infer_step _ m s1) as [s2|] eqn:E; [| done].
    apply infer_step_calm in E. specialize (Hh m s2). destruct (h m s2) as [s3 [l|]]; cbn [fst] in *; etrans; [exact E | | exact E | exact Hh].
    etrans; [exact Hh | apply publish_calm]. }
  etrans; [exact H1 |]. case_bool_decide; [apply Hrun, nav_eoe_calm |].
  destruct (handler _) as [h|] eqn:Eh; [| done]. apply Hrun. intros m s2. by eapply handle_calm.
Qed.

(** The store's states, with the RTCM frames it was given: their times and lengths. Frames come
    in the order of their times. *)
Inductive reach : Store -> list (Z * Z) -> Prop :=
| reach_new t0 : reach (new_store t0) []
| reach_rtcm s l f t now : reach s l -> proto f = RTCM3 -> Forall (fun e => e.1 <= t)%Z l ->
    reach (apply identity parse f t now s).1 (l ++ [(t, len (raw f))])
| reach_other s l f t now : reach s l -> proto f <> RTCM3 -> reach (apply identity parse f t now s).1 l
| reach_end s l : reach s l -> reach (end_of_stream s) l
| reach_reset s l : reach s l -> reach (on_infer reset_inference s) l
| reach_note s l now : reach s l -> reach (note_rtcm_injected now s) l.

(** The frames of the five seconds up to [now]. *)
Definition recent (now : Z) (l : list (Z * Z)) : list (Z * Z) := List.filter (fun e => now - e.1 <=? RTCM_RATE_WINDOW)%Z l.
Definition rtcm_books (s : Store) (l : list (Z * Z)) : Prop :=
  let o := rtcm_out (state (hstate s)) in
  total_count o = len l /\ total_bytes o = window_bytes l
  /\ msum m_count (messages o) = total_count o /\ msum m_bytes (messages o) = total_bytes o
  /\ forall now, list.last l = Some now -> rtcm_window s = recent now.1 l /\ bytes_per_s o = fdiv_int (window_bytes (recent now.1 l)) 5.

Lemma window_bytes_app a b : window_bytes (a ++ b) = (window_bytes a + window_bytes b)%Z.
Proof. unfold window_bytes. induction a as [| x a IH]; cbn in *; lia. Qed.

Definition in_order (l : list (Z * Z)) : Prop := StronglySorted (fun a b => a.1 <= b.1)%Z l.

Lemma in_order_snoc l x : in_order l -> Forall (fun e => e.1 <= x.1)%Z l -> in_order (l ++ [x]).
Proof.
  unfold in_order. induction 1 as [| e l Hl IH He]; cbn [app]; intros Hx; [repeat constructor |].
  inversion Hx; subst. constructor; [by apply IH |]. apply list.Forall_app. split; [done | by constructor].
Qed.

Lemma recent_all now w : Forall (fun e => now - e.1 <= RTCM_RATE_WINDOW)%Z w -> recent now w = w.
Proof. unfold recent. induction 1 as [| e w He Hw IH]; [done |]. cbn [List.filter]. rewrite (proj2 (Z.leb_le _ _)) by done. by rewrite IH. Qed.

Lemma pop_old_recent now w : in_order w -> pop_old now w = recent now w.
Proof.
  induction 1 as [| e w Hw IH He]; [done |]. cbn [pop_old]. unfold recent in *. cbn [List.filter].
  destruct (RTCM_RATE_WINDOW <? now - e.1)%Z eqn:E; zbool.
  - rewrite (proj2 (Z.leb_gt _ _)) by lia. exact IH.
  - rewrite (proj2 (Z.leb_le _ _)) by lia. f_equal. symmetry. apply recent_all.
    eapply list.Forall_impl; [exact He |]. intros x Hx. cbn in *. lia.
Qed.

Lemma recent_recent t0 t l : (t0 <= t)%Z -> recent t (recent t0 l) = recent t l.
Proof.
  intros Ht. unfold recent. induction l as [| e l IH]; [done |]. cbn [List.filter].
  destruct (t0 - e.1 <=? RTCM_RATE_WINDOW)%Z eqn:E; cbn [List.filter]; [by rewrite IH |].
  rewrite IH. zbool. by rewrite (proj2 (Z.leb_gt (t - e.1) _)) by lia.
Qed.

Lemma recent_app t a b : recent t (a ++ b) = (recent t a ++ recent t b)%list.
Proof. apply List.filter_app. Qed.

Lemma recent_in_order t l : in_order l -> in_order (recent t l).
Proof.
  unfold in_order, recent. induction 1 as [| e l Hl IH He]; [constructor |]. cbn [List.filter].
  destruct (_ <=? _)%Z; [| done]. constructor; [done |]. rewrite list.Forall_forall in He |- *. intros x Hx.
  apply He. apply list_elem_of_In, filter_In in Hx as [Hx _]. by apply list_elem_of_In.
Qed.

(** The window after a frame, from the one before it. *)
Lemma window_step l t n w : in_order l -> Forall (fun e => e.1 <= t)%Z l ->
  (forall x, list.last l = Some x -> w = recent x.1 l) -> (l = [] -> w = []) ->
  pop_old t (w ++ [(t, n)]) = recent t (l ++ [(t, n)]).
Proof.
  intros Ho Hle Hw Hnil. destruct (list.last l) as [x|] eqn:E.
  - rewrite (Hw x eq_refl). assert (Hx : (x.1 <= t)%Z).
    { apply list.last_Some in E as [k ->]. apply list.Forall_app in Hle as [_ Hle]. by inversion Hle. }
    rewrite pop_old_recent.
    + rewrite !recent_app. by rewrite recent_recent.
    + apply in_order_snoc; [by apply recent_in_order |]. rewrite list.Forall_forall in Hle |- *. intros e He.
      apply Hle. unfold recent in He. apply list_elem_of_In, filter_In in He as [He _]. by apply list_elem_of_In.
  - apply list.last_None in E. rewrite (Hnil E), E. cbn. rewrite Z.sub_diag. done.
Qed.

Lemma count_rtcm_books ty t n o l : total_count o = len l -> total_bytes o = window_bytes l ->
  msum m_count (messages o) = total_count o -> msum m_bytes (messages o) = total_bytes o ->
  let o' := count_rtcm ty t n o in
  total_count o' = len (l ++ [(t, n)]) /\ total_bytes o' = window_bytes (l ++ [(t, n)])
  /\ msum m_count (messages o') = total_count o' /\ msum m_bytes (messages o') = total_bytes o'.
Proof.
  intros H1 H2 H3 H4. cbn zeta. unfold count_rtcm. cbn [total_count total_bytes messages]. rewrite !msum_insert, H3, H4, window_bytes_app, length_app.
  destruct (messages o !! ty); cbn; split_and!; lia.
Qed.

Record store_ok (s : Store) (l : list (Z * Z)) : Prop := {
  ok_handlers : ok_h (hstate s);
  ok_rtcm : rtcm_books s l;
  ok_empty : l = [] -> rtcm_window s = [];
  ok_order : in_order l
}.

Lemma store_ok_calm s s' l : calm s s' -> store_ok s l -> store_ok s' l.
Proof.
  intros (Hw & Ho & Hh) [H1 H2 H3 H4]. split; [by apply Hh | | by rewrite Hw | done].
  unfold rtcm_books in *. by rewrite Hw, Ho.
Qed.

Lemma store_ok_rtcm f t now s l : proto f = RTCM3 -> Forall (fun e => e.1 <= t)%Z l -> store_ok s l ->
  store_ok (apply identity parse f t now s).1 (l ++ [(t, len (raw f))]).
Proof.
  intros Hp Hle [(Hm & Hx & Hn) (B1 & B2 & B3 & B4 & B5) H3 H4]. unfold apply. rewrite Hp. unfold rtcm. cbn [fst].
  destruct (count_rtcm_books (default 0%Z (rtcm_type f)) t (len (raw f)) _ l B1 B2 B3 B4) as (C1 & C2 & C3 & C4).
  assert (Hwin : pop_old t (rtcm_window s ++ [(t, len (raw f))]) = recent t (l ++ [(t, len (raw f))])).
  { apply window_step; try done. intros x E. by apply (B5 x). }
  split.
  - split_and!; [exact Hm | exact Hx |]. unfold numbered in *. cbn [hstate]. rewrite push_epochs. cbn. by rewrite app_nil_r.
  - unfold rtcm_books. cbn [hstate rtcm_window on_h set_now push state set_state rtcm_out set_rtcm_out set_rate total_count total_bytes messages bytes_per_s].
    split_and!; [exact C1 | exact C2 | exact C3 | exact C4 |]. intros x. rewrite list.last_snoc. intros [= <-]. cbn [fst]. by rewrite Hwin.
  - intros E. by apply app_eq_nil in E as [_ ?].
  - by apply in_order_snoc.
Qed.

Lemma reach_ok s l : reach s l -> store_ok s l.
Proof.
  induction 1 as [t0 | s l f t now _ IH Hp Hle | s l f t now _ IH Hp | s l _ IH | s l _ IH | s l now _ IH].
  - split; [| | done | constructor].
    + split_and!; [unfold marks_ok; cbn; lia | | by split]. unfold on_rx, rx_inv. cbn. split_and!; [apply map_Forall_empty | | ];
        unfold msum; rewrite map_fold_empty; lia.
    + unfold rtcm_books. cbn. split_and!; done.
  - by apply store_ok_rtcm.
  - eapply store_ok_calm; [by apply apply_calm | exact IH].
  - eapply store_ok_calm; [| exact IH]. unfold end_of_stream. destruct (_ && _); [apply (close_calm _ s) | done].
  - eapply store_ok_calm; [| exact IH]. done.
  - eapply store_ok_calm; [| exact IH]. done.
Qed.

(** C13.  In every state the store reaches, whatever messages came and whether their handlers
    failed: the frames and bytes counted are those of the RTCM frames it was given, in total and
    as the sum over their types; the rate is that of the frames of the last five seconds; at
    most 100 time marks are kept; the corrections the receiver reports are consistent row by
    row and never exceed what arrived; and the published epochs are numbered 1, 2, 3 and so on. *)
Theorem store_books s l : reach s l ->
  rtcm_books s l /\ marks_ok (hstate s)
  /\ map_Forall (fun _ k => 0 <= rx_used k <= intact k /\ 0 <= rx_crc_failed k)%Z (rtcm_rx (state (hstate s)))
  /\ (msum intact (rtcm_rx (state (hstate s))) <= rtcm_rx_total (state (hstate s)) - rtcm_crc_failed (state (hstate s)))%Z
  /\ map epoch_count (epochs_of (out (hstate s))) = map Z.of_nat (seq 1 (length (epochs_of (out (hstate s))))).
Proof. intros H. destruct (reach_ok s l H) as [(H1 & (H2 & _ & H3) & H4 & _) H5 _ _]. by split_and!. Qed.
End Books.

(** Two RTCM 1005 frames six seconds apart. *)
Lemma store_books_witness :
  exists s, reach demo_identity demo_parse s [(0, 8); (6000000, 8)]%Z
  /\ total_count (rtcm_out (state (hstate s))) = 2%Z /\ bytes_per_s (rtcm_out (state (hstate s))) = fdiv_int 8 5.
Proof.
  set (f := mkFrame RTCM3 [211; 0; 2; 62; 208; 1; 2; 3]%Z).
  assert (H : reach demo_identity demo_parse
    (apply demo_identity demo_parse f 6000000 7 (apply demo_identity demo_parse f 0 1 (new_store 0)).1).1 [(0, 8); (6000000, 8)]%Z).
  { apply (reach_rtcm _ _ _ [(0, 8)]%Z f 6000000 7); [| reflexivity | repeat constructor; cbn; lia].
    apply (reach_rtcm _ _ _ [] f 0 1); [apply reach_new | reflexivity | constructor]. }
  destruct (store_books _ _ _ _ H) as ((B1 & _ & _ & _ & B5) & _). eexists. split; [exact H |]. split; [exact B1 |].
  apply (B5 (6000000, 8)%Z). reflexivity.
Defined.

(** ** The list of satellites *)

Lemma insert_key_perm k l : insert_key k l ≡ₚ k :: l.
Proof.
  induction l as [| x l IH]; cbn [insert_key]; [done |]. destruct (key_le k x); [done |]. rewrite IH. apply Permutation_swap.
Qed.
Lemma sort_keys_perm l : sort_keys l ≡ₚ l.
Proof. induction l as [| k l IH]; [done |]. cbn [sort_keys foldr]. rewrite insert_key_perm. by constructor. Qed.

Lemma key_le_total a b : key_le a b = false -> key_le b a = true.
Proof.
  unfold key_le. destruct (a.1 <? b.1)%Z eqn:E1, (b.1 <? a.1)%Z eqn:E2, (a.1 =? b.1)%Z eqn:E3, (b.1 =? a.1)%Z eqn:E4,
    (a.2 <=? b.2)%Z eqn:E5, (b.2 <=? a.2)%Z eqn:E6; cbn; intros; zbool; done || lia.
Qed.
Lemma key_le_trans a b c : key_le a b = true -> key_le b c = true -> key_le a c = true.
Proof.
  unfold key_le. rewrite !orb_true_iff, !andb_true_iff, !Z.ltb_lt, !Z.eqb_eq, !Z.leb_le. lia.
Qed.
Definition keys_sorted : list (Z * Z) -> Prop := StronglySorted (fun a b => key_le a b = true).
Lemma insert_key_sorted k l : keys_sorted l -> keys_sorted (insert_key k l).
Proof.
  unfold keys_sorted. induction 1 as [| x l Hl IH Hx]; cbn [insert_key]; [repeat constructor |].
  destruct (key_le k x) eqn:E.
  - constructor; [by constructor |]. constructor; [done |]. eapply list.Forall_impl; [exact Hx |].
    intros y Hy. by eapply key_le_trans.
  - constructor; [done |]. rewrite insert_key_perm. constructor; [by apply key_le_total | done].
Qed.
Lemma sort_keys_sorted l : keys_sorted (sort_keys l).
Proof. induction l as [| k l IH]; [constructor |]. by apply insert_key_sorted. Qed.

Lemma summarize_per l : forall per,
  msum fst (foldl count_sat per l) = (msum fst per + len l)%Z
  /\ msum snd (foldl count_sat per l) = (msum snd per + used (summarize l))%Z.
Proof.
  induction l as [| s l IH]; intros per; [cbn; lia |]. cbn [foldl]. destruct (IH (count_sat per s)) as [-> ->].
  unfold count_sat. rewrite !msum_insert. cbn [summarize used foldr length].
  destruct (per !! gnss s) as [[a b]|]; cbn; lia.
Qed.

Lemma finalized h : let h' := (finalize_sats h).1 in
  sat_summary (state h') = summarize (sats_of h') /\ sat_epoch h' = sat_epoch h
  /\ exists keys, keys_sorted keys /\ keys ≡ₚ elements (dom (sat_epoch h)) /\ sats (state h') = Live keys.
Proof.
  cbn zeta. unfold finalize_sats, modify. cbn. split_and!; [done | done |].
  eexists. split; [apply sort_keys_sorted |]. split; [apply sort_keys_perm | done].
Qed.

(** The two messages end with [_finalize_sats]. *)
Lemma nav_sat_finalizes m h h' l : nav_sat m h = (h', Some l) \/ nav_sig m h = (h', Some l) -> exists h1, h' = (finalize_sats h1).1.
Proof.
  unfold nav_sat, nav_sig, mbind, M_bind. intros [H|H];
    repeat match type of H with
    | (match ?p with _ => _ end) = _ => destruct p as [? [|]] eqn:?; [| discriminate]
    end; injection H as <- _;
    match goal with E : finalize_sats ?x = _ |- _ => exists x; by rewrite E end.
Qed.

(** When a NAV-SAT or NAV-SIG has been applied, the published list of satellites is that
    of the epoch's satellites, each once, in the order of constellation and number, and the
    summary agrees with it: as many tracked as listed, as many used as flagged, and both are
    the sums over the constellations. *)
Theorem sats_consistent m h h' l : nav_sat m h = (h', Some l) \/ nav_sig m h = (h', Some l) ->
  let ss := sats_of h' in
  let u := sat_summary (state h') in
  (exists keys, keys_sorted keys /\ NoDup keys /\ (forall k, k ∈ keys <-> is_Some (sat_epoch h' !! k))
                /\ map Some ss = map (fun k => sat_epoch h' !! k) keys)
  /\ tracked u = len ss /\ used u = len (List.filter sat_used ss)
  /\ msum fst (per_gnss u) = tracked u /\ msum snd (per_gnss u) = used u.
Proof.
  intros H. destruct (nav_sat_finalizes _ _ _ _ H) as [h1 ->]. destruct (finalized h1) as (Hu & He & keys & Hs & Hp & Hl).
  cbn zeta. rewrite Hu, He. unfold sats_of. rewrite Hl, He.
  assert (Hin : forall k, k ∈ keys <-> is_Some (sat_epoch h1 !! k)).
  { intros k. rewrite Hp, elem_of_elements, elem_of_dom. done. }
  split.
  - exists keys. split; [done |]. split; [rewrite Hp; apply NoDup_elements |]. split; [done |].
    assert (Hall : Forall (fun k => is_Some (sat_epoch h1 !! k)) keys) by (apply list.Forall_forall; intros k Hk; by apply Hin).
    clear -Hall. induction Hall as [| k ks [s Hk] Hks IH]; [done |]. cbn. rewrite Hk. cbn. by f_equal.
  - generalize (omap (fun k => sat_epoch h1 !! k) keys). intros ss.
    destruct (summarize_per ss ∅) as [E1 E2]. unfold summarize in *. cbn [tracked used per_gnss] in *. rewrite E1, E2.
    assert (H0 : forall f : Z * Z -> Z, msum f (∅ : gmap bytes (Z * Z)) = 0%Z) by (intros f; unfold msum; by rewrite map_fold_empty).
    rewrite !H0. split_and!; try done; try lia.
    clear. induction ss as [| s ss IH]; [done |]. cbn. destruct (sat_used s); cbn; lia.
Qed.

Definition demo_sat_msg : Msg :=
  attrs [("iTOW", VInt 1000); ("numSvs", VInt 2);
    ("gnssId_01", VInt 2); ("svId_01", VInt 5); ("cno_01", VInt 40); ("elev_01", VInt 30); ("azim_01", VInt 100); ("prRes_01", VFloat 0);
    ("qualityInd_01", VInt 7); ("svUsed_01", VInt 1); ("health_01", VInt 1); ("diffCorr_01", VInt 0); ("smoothed_01", VInt 0);
    ("orbitSource_01", VInt 1); ("ephAvail_01", VInt 1); ("almAvail_01", VInt 1);
    ("gnssId_02", VInt 0); ("svId_02", VInt 9); ("cno_02", VInt 20); ("elev_02", VInt (-91)); ("azim_02", VInt 0); ("prRes_02", VFloat 0);
    ("qualityInd_02", VInt 2); ("svUsed_02", VInt 0); ("health_02", VInt 0); ("diffCorr_02", VInt 0); ("smoothed_02", VInt 0);
    ("orbitSource_02", VInt 0); ("ephAvail_02", VInt 0); ("almAvail_02", VInt 0)]%Z.

Lemma sats_consistent_witness : exists h',
  nav_sat demo_sat_msg (hstate (new_store 0)) = (h', Some (map str ["sats"; "sat_summary"]))
  /\ map (fun s => (gnss_id s, sv_id s)) (sats_of h') = [(0, 9); (2, 5)]%Z /\ tracked (sat_summary (state h')) = len (sats_of h').
Proof.
  destruct (nav_sat demo_sat_msg (hstate (new_store 0))) as [h' r] eqn:E.
  assert (Er : r = Some (map str ["sats"; "sat_summary"])) by (apply (f_equal snd) in E; vm_compute in E; by rewrite <- E). subst r.
  destruct (sats_consistent _ _ _ _ (or_introl E)) as (_ & Ht & _). exists h'. split; [reflexivity |]. split; [| exact Ht].
  apply (f_equal fst) in E. cbn [fst] in E. rewrite <- E. vm_compute. reflexivity.
Defined.
