(* ===== verification/PyNet.v ===== *)
(** * Internet names: IP literals and URLs

    What the web guard uses of the Standard Library: [ipaddress.ip_address] as a test, and the
    network location [urllib.parse.urlsplit] finds. Text is Latin-1, as HTTP headers are: no
    character of it has a compatibility form with one of [/?#@:], so the last check of
    [urlsplit] never fails. *)

From Stdlib Require Import String.
From S2P Require Import Prelude.
From S2P Require Import PyBytes.
From S2P Require Import PyText.
From S2P Require Import PyCodecs.

(** ** [ip_address] *)

Definition dec_value (s : bytes) : Z := foldl (fun n c => 10 * n + (c - 48)) 0 s.

(** [_BaseV4._parse_octet]. *)
Definition octet_ok (s : bytes) : bool :=
  negb (bool_decide (s = [])) && forallb ascii_digit s && (len s <=? 3)
  && (bool_decide (s = [48]) || negb (nth 0 s 0 =? 48)) && (dec_value s <=? 255).

(** [IPv4Address(s)] succeeds. *)
Definition is_ipv4 (s : bytes) : bool :=
  negb (mem_byte 47 s)
  && (let octets := split_on [46] s in bool_decide (length octets = 4%nat) && forallb octet_ok octets).

Definition hex_digit (c : Z) : bool := in_range 48 57 c || in_range 65 70 c || in_range 97 102 c.
(** [_parse_hextet] succeeds; [int("", 16)] does not. *)
Definition hextet_ok (s : bytes) : bool := forallb hex_digit s && (len s <=? 4) && negb (bool_decide (s = [])).

Definition is_nil (s : bytes) : bool := match s with [] => true | _ => false end.

(** The offsets of the empty parts but the first and the last. *)
Definition gaps (parts : list bytes) : list nat :=
  List.filter (fun i => is_nil (nth i parts [])) (seq 1 (length parts - 2)).

(** The parts of an IPv6 address, an IPv4 suffix being two of them. *)
Definition v6_parts_ok (parts : list bytes) : bool :=
  (length parts <=? 9)%nat
  && match gaps parts with
     | [] =>
         (length parts =? 8)%nat && forallb hextet_ok parts
     | [i] =>
         let hi := i in
         let lo := (length parts - i - 1)%nat in
         let first_empty := is_nil (nth 0 parts []) in
         let last_empty := is_nil (nth (length parts - 1) parts []) in
         let hi' := if first_empty then (hi - 1)%nat else hi in
         let lo' := if last_empty then (lo - 1)%nat else lo in
         negb (first_empty && negb (hi' =? 0)%nat) && negb (last_empty && negb (lo' =? 0)%nat)
         && (hi' + lo' <=? 7)%nat
         && forallb hextet_ok (take hi' parts) && forallb hextet_ok (drop (length parts - lo') parts)
     | _ => false
     end.

(** [IPv6Address._split_scope_id]. *)
Definition scope_split (s : bytes) : option bytes :=
  match cut 37 s with
  | None => Some s
  | Some (addr, scope) => if is_nil scope || mem_byte 37 scope then None else Some addr
  end.

(** [IPv6Address(s)] succeeds. *)
Definition is_ipv6 (s : bytes) : bool :=
  negb (mem_byte 47 s)
  && match scope_split s with
     | None => false
     | Some addr =>
         let parts := split_on [58] addr in
         (3 <=? length parts)%nat
         && (let suffix := List.last parts [] in
             if mem_byte 46 suffix then is_ipv4 suffix && v6_parts_ok (removelast parts ++ [str "0"; str "0"])
             else v6_parts_ok parts)
     end.

Definition is_ip (s : bytes) : bool := is_ipv4 s || is_ipv6 s.

(** ** [urlsplit(url).netloc] *)

Definition url_scheme_char (c : Z) : bool := in_range 97 122 c || in_range 65 90 c || ascii_digit c || mem_byte c [43; 45; 46].

(** The part of the URL after its scheme, if it has one. *)
Definition after_scheme (url : bytes) : bytes :=
  match cut 58 url with
  | Some (scheme, rest) =>
      match scheme with
      | c :: _ => if (in_range 97 122 c || in_range 65 90 c) && forallb url_scheme_char scheme then rest else url
      | [] => url
      end
  | None => url
  end.

(** [_check_bracketed_host]; IPvFuture is [v<hex>+\.<one or more but a line feed>]. *)
Definition bracketed_host_ok (h : bytes) : bool :=
  match h with
  | 118 :: r =>
      let hex := take_while hex_digit r in
      match drop_while hex_digit r with
      | 46 :: tail => negb (is_nil hex) && negb (is_nil tail) && negb (mem_byte 10 tail)
      | _ => false
      end
  | _ => negb (is_ipv4 h) && is_ipv6 h
  end.

(** [_check_bracketed_netloc]. *)
Definition bracketed_ok (netloc : bytes) : bool :=
  let hp := match rfind_byte 64 netloc with Some i => drop (S i) netloc | None => netloc end in
  match cut 91 hp with
  | Some (before, bracketed) =>
      is_nil before
      && (let '(host, port) := default (bracketed, []) (cut 93 bracketed) in
          (is_nil port || startswith port [58]) && bracketed_host_ok host)
  | None => bracketed_host_ok (default (hp, []) (cut 58 hp)).1
  end.

(** [None] is the [ValueError]. *)
Definition url_netloc (origin : bytes) : option bytes :=
  let url := drop_while (fun c => c <=? 32) origin in
  let url := List.filter (fun c => negb (mem_byte c [9; 13; 10])) url in
  let url := after_scheme url in
  if startswith url [47; 47] then
    let netloc := take_while (fun c => negb (mem_byte c [47; 63; 35])) (drop 2 url) in
    let op := mem_byte 91 netloc in
    let cl := mem_byte 93 netloc in
    if negb (Bool.eqb op cl) then None
    else if op && cl && negb (bracketed_ok netloc) then None
    else Some netloc
  else Some [].
