(* ===== verification/WebGuard.v ===== *)
(** * The web interface's doors ([web/hostguard.py], [web/auth.py])

    Without a password, the names a request may carry ([host_name], [matches], [AllowedHosts],
    [guard]); with one, the session token and the throttle of failed logins. Header values are
    Latin-1 text. Clock readings are microseconds; a throttle's tokens are counted in
    millionths of a second of refill, so that [LOGIN_REFILL] of them are one attempt: the
    arithmetic is exact where the program's is in floats. [socket.gethostname], the MagicDNS
    lookup and SHA-256/HMAC are outside: the host's name, each lookup's answer and
    [session_token] are parameters. *)

From Stdlib Require Import String.
From stdpp Require Import gmap.
From S2P Require Import Prelude.
From S2P Require Import PyBytes.
From S2P Require Import PyText.
From S2P Require Import Bus.
From S2P Require Import PyCodecs.
From S2P Require Import PyNet.

Definition MAGICDNS_TTL : Z := 60 * 1000000.
Definition EXEMPT_PATHS : list bytes := [str "/healthz"].

(** ** Names *)

Definition count_char (c : Z) (s : bytes) : nat := length (List.filter (Z.eqb c) s).
(** [s.split(sep, 1)[0]]. *)
Definition before (sep : Z) (s : bytes) : bytes := default s (fst <$> cut sep s).

Definition host_name (value : bytes) : bytes :=
  let value := lower (strip value) in
  match value with
  | 91 :: r => before 93 r
  | _ => rstrip_of [46] (if (count_char 58 value =? 1)%nat then before 58 value else value)
  end.

Record Settings := mkSettings {
  web_password : option bytes; public_domain : option bytes; web_allowed_hosts : list bytes; web_bind : bytes
}.

(** [AllowedHosts.static_names], of the name [socket.gethostname()] gives. *)
Definition static_names (gethostname : bytes) (s : Settings) : list bytes :=
  let local := rstrip_of [46] (lower gethostname) in
  [str "localhost"]
  ++ (if is_nil local then [] else [local; before 46 local; before 46 local ++ str ".local"])
  ++ (match public_domain s with Some d => if is_nil d then [] else [rstrip_of [46] (lower (strip d))] | None => [] end)
  ++ web_allowed_hosts s
  ++ (if bool_decide (lower (strip (web_bind s)) = str "tailscale") then [str ".ts.net"] else []).

(** [AllowedHosts._matches]. *)
Definition matches (name : bytes) (names : list bytes) : bool :=
  bool_decide (str "*" ∈ names) || bool_decide (name ∈ names) || endswith name (str ".localhost")
  || existsb (fun n => startswith n [46] && (endswith name n || bool_decide (name = drop 1 n))) names.

(** ** The allowed hosts *)

(** [AllowedHosts], with the lookups in progress: the names they are for and their start. *)
Record Hosts := mkHosts { dns : list bytes; dns_at : Z; looking : list (bytes * Z) }.
Definition new_hosts : Hosts := mkHosts [] (- MAGICDNS_TTL) [].

Inductive Verdict := Allowed | Denied | Wait.

(** [allows] up to its wait. *)
Definition allows (gethostname : bytes) (s : Settings) (host : bytes) (now : Z) (h : Hosts) : Hosts * Verdict :=
  let name := host_name host in
  if is_nil name || is_ip name || matches name (static_names gethostname s) then (h, Allowed)
  else if MAGICDNS_TTL <=? now - dns_at h then (mkHosts (dns h) (dns_at h) (looking h ++ [(name, now)]), Wait)
  else (h, if bool_decide (name ∈ dns h) then Allowed else Denied).

(** ... and from the answer on; [None]: no such lookup. *)
Definition looked_up (i : nat) (answer : list bytes) (h : Hosts) : option (Hosts * Verdict) :=
  '(name, now) ← looking h !! i;
  Some (mkHosts answer now (delete i (looking h)), if bool_decide (name ∈ answer) then Allowed else Denied).

(** [origin_ok]. *)
Definition origin_ok (gethostname : bytes) (s : Settings) (origin : option bytes) (host : bytes) : bool :=
  match origin with
  | None => true
  | Some o =>
      match url_netloc o with
      | None => false
      | Some netloc =>
          let name := host_name netloc in
          if is_nil name then false
          else if bool_decide (name = host_name host) then true
          else negb (is_ip name) && matches name (static_names gethostname s)
      end
  end.

(** ** The middleware *)

Inductive ScopeType := Http | Websocket | OtherScope.
Definition truthy_text (s : option bytes) : bool := match s with Some (_ :: _) => true | _ => false end.

Definition exempt (s : Settings) (ty : ScopeType) (path : bytes) : bool :=
  match ty with OtherScope => true | _ => false end || truthy_text (web_password s) || bool_decide (path ∈ EXEMPT_PATHS).

(** What becomes of a request once the verdict on its [Host] is known; [None] origin: no such header. *)
Inductive Passage := Passed | Refused400 | Closed1008.
Definition passage (gethostname : bytes) (s : Settings) (ty : ScopeType) (origin : option bytes) (host : bytes) (v : Verdict) : Passage :=
  let allowed := match v with
                 | Allowed => match ty with Websocket => origin_ok gethostname s origin host | _ => true end
                 | _ => false
                 end in
  if allowed then Passed else match ty with Websocket => Closed1008 | _ => Refused400 end.

(** [dict] of the header pairs: the last of a name counts. *)
Fixpoint header_of (name : bytes) (headers : list (bytes * bytes)) : option bytes :=
  match headers with
  | [] => None
  | (k, v) :: r => match header_of name r with Some w => Some w | None => if bool_decide (k = name) then Some v else None end
  end.

Record Incoming := mkIncoming { in_type : ScopeType; in_path : bytes; in_headers : list (bytes * bytes) }.
Definition host_of (r : Incoming) : bytes := default [] (header_of (str "host") (in_headers r)).

(** [HostGuardMiddleware.__call__] up to the wait for a lookup, where [None]. *)
Definition guard (gethostname : bytes) (s : Settings) (r : Incoming) (now : Z) (h : Hosts) : Hosts * option Passage :=
  if exempt s (in_type r) (in_path r) then (h, Some Passed)
  else
    let '(h, v) := allows gethostname s (host_of r) now h in
    match v with
    | Wait => (h, None)
    | v => (h, Some (passage gethostname s (in_type r) (header_of (str "origin") (in_headers r)) (host_of r) v))
    end.

(** ** The session token ([web/auth.py]) *)

Definition COOKIE_NAME : bytes := str "mtrtk_session".

Section Auth.
(** [session_token(password)], in hexadecimal. *)
Context (session_token : bytes -> bytes).

(** [_presented_token]: headers by their lower-cased names. *)
Definition presented_token (headers cookies : list (bytes * bytes)) : option bytes :=
  let auth := default [] (header_of (str "authorization") (map (fun kv => (lower kv.1, kv.2)) headers)) in
  if startswith (lower auth) (str "bearer ") then Some (strip (drop 7 auth)) else header_of COOKIE_NAME cookies.

(** [token_ok]; the token is ASCII and a header's text Latin-1, encoded in UTF-8. *)
Definition token_ok (password presented : option bytes) : bool :=
  match password with
  | None | Some [] => true
  | Some password =>
      match presented with
      | None | Some [] => false
      | Some t => bool_decide (utf8_encode t = session_token password)
      end
  end.

Definition connection_authorized (password : option bytes) (headers cookies : list (bytes * bytes)) : bool :=
  token_ok password (presented_token headers cookies).
(** [websocket_authorized], with the query's [token]. *)
Definition websocket_authorized (password : option bytes) (headers cookies : list (bytes * bytes)) (query : option bytes) : bool :=
  token_ok password (match presented_token headers cookies with Some t => Some t | None => query end).

(** ** The throttle of failed logins *)

Definition FAILED_LOGIN_DELAY : Z := 1000000.
Definition LOGIN_BURST : Z := 10.
(** The refill of one attempt. *)
Definition LOGIN_REFILL : Z := 6 * 1000000.

Record LoginThrottle := mkThrottle { tokens : Z; stamp : Z }.
Definition new_throttle (now : Z) : LoginThrottle := mkThrottle (LOGIN_BURST * LOGIN_REFILL) now.

Definition refill (now : Z) (t : LoginThrottle) : LoginThrottle :=
  mkThrottle (Z.min (LOGIN_BURST * LOGIN_REFILL) (tokens t + (now - stamp t))) now.
(** [retry_after], in seconds: the missing part of an attempt, rounded up. *)
Definition retry_after (now : Z) (t : LoginThrottle) : LoginThrottle * option Z :=
  let t := refill now t in
  (t, if LOGIN_REFILL <=? tokens t then None else Some (Z.max 1 ((LOGIN_REFILL - tokens t + 999999) / 1000000))).
Definition failed (now : Z) (t : LoginThrottle) : LoginThrottle :=
  let t := refill now t in mkThrottle (Z.max 0 (tokens t - LOGIN_REFILL)) (stamp t).

(** [login] up to its delay: the guesses are compared in UTF-8. [now2] is the clock at
    [failed], in the same stretch of the coroutine. *)
Inductive LoginReply := NoPassword | TooMany (seconds : Z) | WrongPassword | Session (token : bytes).
Definition login (password : option bytes) (guess : bytes) (now now2 : Z) (t : LoginThrottle) : LoginThrottle * LoginReply :=
  match password with
  | None | Some [] => (t, NoPassword)
  | Some password =>
      match retry_after now t with
      | (t, Some s) => (t, TooMany s)
      | (t, None) =>
          if bool_decide (utf8_encode guess = utf8_encode password) then (t, Session (session_token password))
          else (failed now2 t, WrongPassword)
      end
  end.
End Auth.

(** ** The host guard, proved *)

(** The guard's states, with the lookups that were answered: their start and answer. *)
Inductive hosts_reach : Hosts -> list (Z * list bytes) -> Prop :=
| hosts_new : hosts_reach new_hosts []
| hosts_ask h log gethostname s r now : hosts_reach h log -> hosts_reach (guard gethostname s r now h).1 log
| hosts_answer h log i name now answer h' v :
    hosts_reach h log -> looking h !! i = Some (name, now) -> looked_up i answer h = Some (h', v) -> hosts_reach h' (log ++ [(now, answer)]).

Lemma guard_dns gethostname s r now h : dns (guard gethostname s r now h).1 = dns h /\ dns_at (guard gethostname s r now h).1 = dns_at h.
Proof.
  unfold guard, allows. destruct (exempt _ _ _); [done |]. destruct (_ || _); [done |]. destruct (_ <=? _); [done |].
  by destruct (bool_decide _).
Qed.

(** The cache is the answer of a lookup that was made at the cache's time. *)
Lemma cache_answered h log : hosts_reach h log -> dns h <> [] -> (dns_at h, dns h) ∈ log.
Proof.
  induction 1 as [| h log g s r now _ IH | h log i name now answer h' v _ IH Hl Hu]; [done | |].
  - destruct (guard_dns g s r now h) as [-> ->]. exact IH.
  - intros _. unfold looked_up in Hu. rewrite Hl in Hu. cbn in Hu. injection Hu as <- _. cbn.
    apply elem_of_app. right. by apply list_elem_of_singleton.
Qed.

(** The names and patterns the daemon was given: [localhost], the host's own name, its first
    label, that label under [.local], the public domain, the listed hosts, and [.ts.net] when it is
    bound to Tailscale. *)
Definition given (gethostname : bytes) (s : Settings) (n : bytes) : Prop :=
  let local := rstrip_of [46] (lower gethostname) in
  n = str "localhost"
  \/ (local <> [] /\ (n = local \/ n = before 46 local \/ n = before 46 local ++ str ".local"))
  \/ (exists d, public_domain s = Some d /\ d <> [] /\ n = rstrip_of [46] (lower (strip d)))
  \/ n ∈ web_allowed_hosts s
  \/ (lower (strip (web_bind s)) = str "tailscale" /\ n = str ".ts.net").
(** A name one of them stands for: [*] for any, [.base] for [base] and what is below it, any
    other for itself; and the names below [.localhost]. *)
Definition own_name (gethostname : bytes) (s : Settings) (name : bytes) : Prop :=
  (exists a, name = a ++ str ".localhost")
  \/ exists n, given gethostname s n
      /\ (n = str "*" \/ name = n
          \/ exists base, n = 46 :: base /\ (name = base \/ exists a, name = a ++ 46 :: base)).
(** Names the guard knows without asking. *)
Definition known (gethostname : bytes) (s : Settings) (name : bytes) : Prop :=
  name = [] \/ is_ip name = true \/ own_name gethostname s name.
(** A WebSocket's origin is no other site. *)
Definition origin_fits (gethostname : bytes) (s : Settings) (r : Incoming) : Prop :=
  in_type r = Websocket -> forall o, header_of (str "origin") (in_headers r) = Some o ->
  exists netloc, url_netloc o = Some netloc /\ host_name netloc <> []
    /\ (host_name netloc = host_name (host_of r)
        \/ (is_ip (host_name netloc) = false /\ own_name gethostname s (host_name netloc))).

Lemma is_nil_spec s : is_nil s = true <-> s = [].
Proof. by destruct s. Qed.

Lemma static_names_given gethostname s n : n ∈ static_names gethostname s <-> given gethostname s n.
Proof.
  unfold static_names, given. cbv zeta. rewrite !elem_of_app, list_elem_of_singleton.
  assert (Hl : forall local, n ∈ (if is_nil local then [] else [local; before 46 local; before 46 local ++ str ".local"])
    <-> local <> [] /\ (n = local \/ n = before 46 local \/ n = before 46 local ++ str ".local")).
  { intros local. destruct local; cbn [is_nil]; [split; [by intros ?%elem_of_nil|by intros [? _]]|].
    rewrite !elem_of_cons, elem_of_nil. split; [|by intros [_ ?]; tauto]. intros H. split; [done|tauto]. }
  rewrite Hl.
  assert (Hd : n ∈ match public_domain s with Some d => if is_nil d then [] else [rstrip_of [46] (lower (strip d))] | None => [] end
    <-> exists d, public_domain s = Some d /\ d <> [] /\ n = rstrip_of [46] (lower (strip d))).
  { destruct (public_domain s) as [d|]; [|rewrite elem_of_nil; split; [done|by intros (? & ? & _)]].
    destruct (is_nil d) eqn:E.
    - apply is_nil_spec in E as ->. rewrite elem_of_nil. split; [done|by intros (? & [= <-] & ? & _)].
    - rewrite list_elem_of_singleton. split; [intros ->; exists d; split_and!; [done|by intros ->|done]|by intros (? & [= <-] & _ & ?)]. }
  rewrite Hd.
  assert (Ht : n ∈ (if bool_decide (lower (strip (web_bind s)) = str "tailscale") then [str ".ts.net"] else [])
    <-> lower (strip (web_bind s)) = str "tailscale" /\ n = str ".ts.net").
  { case_bool_decide; [rewrite list_elem_of_singleton|rewrite elem_of_nil]; tauto. }
  rewrite Ht. tauto.
Qed.

Lemma endswith_spec s p : endswith s p = true <-> exists a, s = a ++ p.
Proof.
  unfold endswith. rewrite startswith_spec. split.
  - intros [r H]. exists (rev r). rewrite <- (rev_involutive s), H, rev_app_distr. by rewrite rev_involutive.
  - intros [a ->]. exists (rev a). apply rev_app_distr.
Qed.

(** [_matches] recognises the daemon's own names. *)
Lemma matches_own gethostname s name : matches name (static_names gethostname s) = true <-> own_name gethostname s name.
Proof.
  unfold matches, own_name. rewrite !orb_true_iff, !bool_decide_eq_true, endswith_spec, existsb_exists.
  setoid_rewrite <- static_names_given. split.
  - intros [[[H|H]|H]|(n & Hn & H)]; [| |by left|].
    + right. exists (str "*"). auto.
    + right. exists name. auto.
    + right. apply list_elem_of_In in Hn. exists n. split; [done|]. right; right.
      apply andb_true_iff in H as [Hs H]. apply startswith_spec in Hs as [base ->]. exists base. split; [done|].
      apply orb_true_iff in H as [H|H]; [right; by apply endswith_spec|left; by apply bool_decide_eq_true in H].
  - intros [H|(n & Hn & [->|[->|(base & -> & H)]])]; [by left; right|by left; left; left|by left; left; right|].
    right. exists (46 :: base). split; [by apply list_elem_of_In|]. cbn [startswith drop Z.eqb Pos.eqb andb].
    destruct H as [H|H]; [rewrite bool_decide_eq_true_2 by done; by rewrite orb_true_r|].
    by rewrite (proj2 (endswith_spec _ _) H).
Qed.

Lemma known_spec gethostname s name :
  is_nil name || is_ip name || matches name (static_names gethostname s) = true <-> known gethostname s name.
Proof. unfold known. rewrite !orb_true_iff, is_nil_spec, matches_own. tauto. Qed.

Lemma origin_ok_spec gethostname s r : in_type r = Websocket ->
  origin_ok gethostname s (header_of (str "origin") (in_headers r)) (host_of r) = true <-> origin_fits gethostname s r.
Proof.
  intros Hty. unfold origin_ok, origin_fits. destruct (header_of (str "origin") (in_headers r)) as [o|]; [| split; [done | done]].
  destruct (url_netloc o) as [netloc|] eqn:En.
  - destruct (is_nil (host_name netloc)) eqn:Ei.
    + apply is_nil_spec in Ei. split; [done |]. intros H. destruct (H Hty o eq_refl) as (n & E & Hne & _). congruence.
    + assert (Hne : host_name netloc <> []) by (intros E; apply is_nil_spec in E; congruence).
      case_bool_decide as Eh.
      * split; [| done]. intros _ _ o' [= <-]. exists netloc. split; [done |]. split; [done |]. by left.
      * rewrite andb_true_iff, negb_true_iff, matches_own. split.
        -- intros [H1 H2] _ o' [= <-]. exists netloc. split; [done |]. split; [done |]. by right.
        -- intros H. destruct (H Hty o eq_refl) as (n & E & _ & [E'|E']); congruence || (assert (n = netloc) as -> by congruence; done).
  - split; [done |]. intros H. destruct (H Hty o eq_refl) as (n & E & _). congruence.
Qed.

Lemma passage_spec gethostname s r v :
  passage gethostname s (in_type r) (header_of (str "origin") (in_headers r)) (host_of r) v = Passed
  <-> v = Allowed /\ origin_fits gethostname s r.
Proof.
  unfold passage. destruct (in_type r) eqn:Ety.
  - unfold origin_fits. rewrite Ety. destruct v; split; try done; intros [? _]; done.
  - pose proof (origin_ok_spec gethostname s r Ety) as Ho. destruct v; [| split; [done | by intros [? _]] ..].
    destruct (origin_ok _ _ _ _); split; try done.
    + intros _. split; [done | by apply Ho].
    + intros [_ H]. by apply Ho in H.
  - unfold origin_fits. rewrite Ety. destruct v; split; try done; intros [? _]; done.
Qed.

(** C20.  Without a password, in every state of the guard, a request (but for the health check)
    is passed on exactly when its [Host] is empty, an IP literal, one of the daemon's own names
    ([own_name]: given to it, below a pattern given to it, below [.localhost], or any name if it was
    given [*]), or a name that a MagicDNS lookup less than a minute old answered, and a WebSocket's
    [Origin], if it has one, names the host it addresses or one of the daemon's own names; where a
    lookup is needed, the same with the names of that lookup. So, unless [*] was given, any other
    name is refused however it resolves. *)
Theorem host_guard h log gethostname s r now : hosts_reach h log ->
  exempt s (in_type r) (in_path r) = false ->
  match (guard gethostname s r now h).2 with
  | Some p =>
      p = Passed <-> origin_fits gethostname s r
                     /\ (known gethostname s (host_name (host_of r))
                         \/ (host_name (host_of r) ∈ dns h /\ exists t answer, (t, answer) ∈ log /\ now - t < MAGICDNS_TTL
                                                             /\ host_name (host_of r) ∈ answer))
  | None =>
      ~ known gethostname s (host_name (host_of r))
      /\ looking (guard gethostname s r now h).1 = looking h ++ [(host_name (host_of r), now)]
      /\ forall answer, exists h' v, looked_up (length (looking h)) answer (guard gethostname s r now h).1 = Some (h', v)
          /\ (passage gethostname s (in_type r) (header_of (str "origin") (in_headers r)) (host_of r) v = Passed
              <-> origin_fits gethostname s r /\ host_name (host_of r) ∈ answer)
  end.
Proof.
  intros Hr He. unfold guard. rewrite He. unfold allows.
  destruct (is_nil _ || is_ip _ || matches _ _) eqn:Ek.
  { cbn [fst snd]. rewrite passage_spec. apply known_spec in Ek. tauto. }
  assert (Hk : ~ known gethostname s (host_name (host_of r))) by (intros H; apply known_spec in H; congruence).
  destruct (MAGICDNS_TTL <=? now - dns_at h) eqn:Et; cbn [fst snd].
  - split; [done |]. split; [done |]. intros answer. unfold looked_up. cbn [looking].
    rewrite lookup_app_r, Nat.sub_diag by lia. cbn [lookup list_lookup mbind option_bind].
    do 2 eexists. split; [reflexivity |]. rewrite passage_spec. case_bool_decide; intuition done.
  - apply Z.leb_gt in Et. case_bool_decide as Ed; cbn [fst snd]; rewrite passage_spec.
    + assert (Hl : (dns_at h, dns h) ∈ log) by (apply cache_answered; [done |]; intros E; rewrite E in Ed; by inversion Ed).
      split; [intros [_ Ho]; split; [done |]; right; split; [done |]; by exists (dns_at h), (dns h) | by intros [Ho _]].
    + split; [by intros [? _] |]. intros [_ [H|[H _]]]; done.
Qed.

(** ** The throttle, proved *)

Section Throttle.
Context (session_token : bytes -> bytes) (password : bytes).

(** Attempts one after the other: when each is looked at, and when [failed] reads the clock. *)
Record Attempt := mkAttempt { at_time : Z; fail_time : Z; guess : bytes }.
Fixpoint logins (l : list Attempt) (t : LoginThrottle) : LoginThrottle * list LoginReply :=
  match l with
  | [] => (t, [])
  | a :: l =>
      let '(t, r) := login session_token (Some password) (guess a) (at_time a) (fail_time a) t in
      let '(t, rs) := logins l t in (t, r :: rs)
  end.
(** The clock does not go back. *)
Fixpoint from (now : Z) (l : list Attempt) : Prop :=
  match l with [] => True | a :: l => now <= at_time a <= fail_time a /\ from (fail_time a) l end.
Definition end_time (now : Z) (l : list Attempt) : Z := foldl (fun _ a => fail_time a) now l.
Definition wrong (rs : list LoginReply) : Z := len (List.filter (fun r => match r with WrongPassword => true | _ => false end) rs).

Definition CAP : Z := LOGIN_BURST * LOGIN_REFILL.
Definition throttle_ok (now : Z) (t : LoginThrottle) : Prop := 0 <= tokens t <= CAP /\ stamp t <= now.

Lemma refill_ok now t : throttle_ok now t ->
  throttle_ok now (refill now t) /\ stamp (refill now t) = now /\ tokens (refill now t) <= tokens t + (now - stamp t).
Proof. unfold throttle_ok, refill, CAP, LOGIN_BURST, LOGIN_REFILL. cbn. lia. Qed.

(** One attempt: what it costs, and what it may answer. *)
Lemma login_step now now2 g t : throttle_ok now t -> now <= now2 -> password <> [] ->
  let t' := (login session_token (Some password) g now now2 t).1 in
  throttle_ok now2 t'
  /\ match (login session_token (Some password) g now now2 t).2 with
     | WrongPassword => utf8_encode g <> utf8_encode password /\ tokens t' + LOGIN_REFILL <= Z.min CAP (tokens t + (now2 - stamp t)) /\ stamp t' = now2
     | Session k => k = session_token password /\ utf8_encode g = utf8_encode password /\ tokens t' <= tokens t + (stamp t' - stamp t)
     | TooMany _ => tokens t' <= tokens t + (stamp t' - stamp t)
     | NoPassword => False
     end.
Proof.
  intros Hok Hn Hp. unfold login. destruct password as [| c pw] eqn:Epw; [done |]. unfold retry_after.
  destruct (refill_ok now t Hok) as (H1 & H2 & H3). destruct (LOGIN_REFILL <=? tokens (refill now t)) eqn:E; cbn [fst snd].
  - apply Z.leb_le in E. assert (Hok2 : throttle_ok now2 (refill now t)) by (unfold throttle_ok in *; lia).
    case_bool_decide as Eg; cbn [fst snd].
    + split; [done |]. split; [done |]. split; [done |]. lia.
    + destruct (refill_ok now2 _ Hok2) as (H4 & H5 & H6). unfold failed. cbn [fst snd tokens stamp].
      unfold throttle_ok in *. cbn [tokens stamp]. unfold refill in *. cbn [tokens stamp] in *.
      unfold CAP, LOGIN_BURST, LOGIN_REFILL in *. split; [lia |]. split; [done |]. lia.
  - split; [unfold throttle_ok in *; lia |]. lia.
Qed.

Lemma logins_cost l : forall now t, throttle_ok now t -> from now l -> password <> [] ->
  wrong (logins l t).2 * LOGIN_REFILL + tokens (logins l t).1 <= tokens t + (stamp (logins l t).1 - stamp t)
  /\ throttle_ok (end_time now l) (logins l t).1.
Proof.
  induction l as [| a l IH]; intros now t Hok Hf Hp; [unfold wrong; cbn [logins fst snd List.filter length]; split; [lia | exact Hok] |].
  cbn [logins from] in *. destruct Hf as [Hn Hf].
  assert (Hok' : throttle_ok (at_time a) t) by (unfold throttle_ok in *; lia).
  pose proof (login_step (at_time a) (fail_time a) (guess a) t Hok' (proj2 Hn) Hp) as [Hs Hr].
  destruct (login session_token (Some password) (guess a) (at_time a) (fail_time a) t) as [t1 r]. cbn [fst snd] in *.
  destruct (IH (fail_time a) t1 Hs Hf Hp) as [Hc He]. destruct (logins l t1) as [t2 rs]. cbn [fst snd] in *.
  split; [| exact He]. unfold wrong in *. cbn [List.filter]. destruct r as [| s | | k]; cbn [length]; try done; try lia.
Qed.

(** However many logins are tried, by whoever and in whatever order, guessing is
    throttled: over any stretch of attempts the passwords looked at and found wrong are at most
    ten plus one for every six seconds that passed; a session is given only for the right
    password; and a refused attempt is told a delay after which, if no other fails in
    between, an attempt is looked at again. *)
Theorem logins_throttled l now t : throttle_ok now t -> from now l -> password <> [] ->
  wrong (logins l t).2 * LOGIN_REFILL <= LOGIN_BURST * LOGIN_REFILL + (end_time now l - at_time (hd (mkAttempt now now []) l))
  /\ (forall k, Session k ∈ (logins l t).2 -> exists a, a ∈ l /\ utf8_encode (guess a) = utf8_encode password)
  /\ (forall later s, (retry_after now t).2 = Some s -> now + s * 1000000 <= later ->
        1 <= s /\ (retry_after later (retry_after now t).1).2 = None).
Proof.
  intros Hok Hf Hp. split; [| split].
  - destruct l as [| a l]; [unfold wrong, LOGIN_BURST, LOGIN_REFILL; cbn; lia |].
    cbn [hd]. cbn [from] in Hf. destruct Hf as [Hn Hf].
    assert (Hok' : throttle_ok (at_time a) t) by (unfold throttle_ok in *; lia).
    destruct (refill_ok _ _ Hok') as (H1 & H2 & _).
    assert (E : logins (a :: l) t = logins (a :: l) (refill (at_time a) t)).
    { cbn [logins]. replace (login session_token (Some password) (guess a) (at_time a) (fail_time a) (refill (at_time a) t))
        with (login session_token (Some password) (guess a) (at_time a) (fail_time a) t); [done |].
      unfold login, retry_after. replace (refill (at_time a) (refill (at_time a) t)) with (refill (at_time a) t); [by destruct password |].
      unfold refill, throttle_ok, CAP in *. cbn [tokens stamp] in *. f_equal. lia. }
    rewrite E. destruct (logins_cost (a :: l) (at_time a) _ H1) as [Hc [Ht He]]; [by split; [lia |] | done |].
    rewrite H2 in Hc. change (end_time (at_time a) (a :: l)) with (end_time now (a :: l)) in He. unfold throttle_ok, CAP in *. lia.
  - clear Hok. revert now t Hf. induction l as [| a l IH]; intros now t Hf k Hk; [by inversion Hk |].
    cbn [logins] in Hk. destruct (login _ _ _ _ _ _) as [t1 r] eqn:El. destruct (logins l t1) as [t2 rs] eqn:Er. cbn [snd] in Hk.
    apply elem_of_cons in Hk as [<-|Hk].
    + exists a. split; [apply elem_of_cons; by left |]. unfold login in El. destruct password as [| c pw]; [done |].
      destruct (retry_after _ _) as [t' [s|]]; [done |]. case_bool_decide as Eg; [exact Eg | done].
    + destruct (IH (fail_time a) t1 (proj2 Hf) k) as (b & Hb & E); [by rewrite Er |]. exists b. split; [apply elem_of_cons; by right | done].
  - intros later s. destruct (refill_ok _ _ Hok) as (H1 & H2 & _). unfold retry_after. cbn [fst snd].
    clear Hf. revert H1 H2. generalize (refill now t) as u. intros u H1 H2.
    destruct (LOGIN_REFILL <=? tokens u) eqn:E; [done |]. apply Z.leb_gt in E. intros [= <-] Hl. split; [lia |].
    rewrite (proj2 (Z.leb_le LOGIN_REFILL _)); [done |].
    pose proof (Z.div_mod (LOGIN_REFILL - tokens u + 999999) 1000000 ltac:(lia)) as Hdm.
    pose proof (Z.mod_pos_bound (LOGIN_REFILL - tokens u + 999999) 1000000 ltac:(lia)) as Hb.
    unfold refill. cbn [tokens]. unfold throttle_ok, CAP, LOGIN_BURST, LOGIN_REFILL in *. lia.
Qed.
End Throttle.

(** ** Witnesses *)

Lemma logins_throttled_witness :
  let pw := str "s3cret" in
  let l := [mkAttempt 1000000 1000000 (str "a"); mkAttempt 2000000 2000000 pw] in
  let token := fun _ : bytes => str "t" in
  (logins token pw l (new_throttle 0)).2 = [WrongPassword; Session (str "t")]
  /\ wrong (logins token pw l (new_throttle 0)).2 * LOGIN_REFILL <= LOGIN_BURST * LOGIN_REFILL + (2000000 - 1000000).
Proof.
  intros pw l token. split; [vm_compute; reflexivity |].
  refine (proj1 (logins_throttled token pw l 0 (new_throttle 0) _ _ _)).
  - vm_compute. repeat split; discriminate.
  - vm_compute. repeat split; discriminate.
  - discriminate.
Defined.

Lemma host_guard_witness :
  let s := mkSettings None None [str "box.example"] (str "0.0.0.0") in
  let r := mkIncoming Http (str "/api/status") [(str "host", str "evil.example:8000")] in
  (guard (str "rover") s r 0 new_hosts).2 = None
  /\ (let h := mkHosts [str "rover"] 0 [] in
      (guard (str "rover") s r 5 h).2 = Some Refused400
      /\ (Refused400 = Passed <-> origin_fits (str "rover") s r
            /\ (known (str "rover") s (str "evil.example")
                \/ (str "evil.example" ∈ dns h /\ exists t answer, (t, answer) ∈ [(0, [str "rover"])] /\ 5 - t < MAGICDNS_TTL
                                                    /\ str "evil.example" ∈ answer)))).
Proof.
  intros s r. split; [vm_compute; reflexivity |]. intros h. split; [vm_compute; reflexivity |].
  assert (Hr : hosts_reach h ([] ++ [(0, [str "rover"])])).
  { apply (hosts_answer _ [] 0 (str "evil.example") 0 [str "rover"] h Denied
             (hosts_ask _ _ (str "rover") s r 0 hosts_new)); vm_compute; reflexivity. }
  exact (host_guard h _ (str "rover") s r 5 Hr eq_refl).
Defined.
