(* ===== verification/NtripClient.v ===== *)
(** * The NTRIP client ([rover/ntrip_client.py])

    What the caster's bytes make the client do: [StreamReader]'s reads over what has arrived,
    [_read_head], [_classify], [decode_chunked] and [_stream] as one machine that reads until it
    has to wait, and the supervisor [_run] around it with its retries. Text is a list of code
    points; clock readings and delays are microseconds, the random choice within a jittered
    delay is a parameter of the event it belongs to. An error is the value its message is
    made of.

    Not modelled: the URL of the configuration ([from_url]), the socket, and the task that
    sends positions, which touches none of the state ([gga_line] is what it writes). *)

From Stdlib Require Import String.
From stdpp Require Import gmap.
From S2P Require Import Prelude.
From S2P Require Import PyBytes.
From S2P Require Import PyText.
From S2P Require Import Checksums.
From S2P Require Import Framing.
From S2P Require Import Frames.
From S2P Require Import Bus.
From S2P Require Import PyCodecs.

Definition NO_DATA_TIMEOUT : Z := 10 * 1000000.
Definition HEADER_TIMEOUT : Z := 10 * 1000000.
Definition AUTH_BACKOFF : Z := 60 * 1000000.
Definition MOUNT_BACKOFF : Z := 60 * 1000000.
Definition BACKOFF_MIN : Z := 1 * 1000000.
Definition BACKOFF_MAX : Z := 60 * 1000000.
Definition STATUS_INTERVAL : Z := 5 * 1000000.
Definition STABLE : Z := 30 * 1000000.
Definition MAX_HEADERS : nat := 64.
Definition MAX_CHUNK : Z := 64 * 1024.
Definition READ_SIZE : nat := 4096.

Record NtripClientConfig := mkConfig {
  host : bytes; port : Z; mountpoint : bytes; username : option bytes; password : option bytes
}.

(** ** Errors *)

Inductive Response := MountNotFound | Unauthorized | TooManyHeaders | Unexpected (status_line : bytes).
(** [kind]. *)
Inductive Kind := Auth | Mount | Other.
Definition kind (r : Response) : Kind :=
  match r with MountNotFound => Mount | Unauthorized => Auth | _ => Other end.

(** What a session can fail with: an answer, a network error ([_NETWORK_ERRORS]), anything else. *)
Inductive NetError :=
| LineTooLong | BadChunkSize (size_line : bytes) | ChunkTooBig (size : Z) | ChunkNotTerminated   (* [ProtocolError] *)
| IncompleteRead | ClosedBeforeAnswer | ClosedMidHeader | ClosedByCaster | NoData | HeadTimedOut
| Os (text : bytes).
Inductive Error := Answered (r : Response) | Network (e : NetError) | Crash (text : bytes).

(** ** Reading *)

(** [StreamReader]: what has arrived and was not read, and whether the caster hung up. *)
Record Reader := mkReader { rbuf : bytes; reof : bool }.
Inductive Read := Wait | Done (data : bytes) (r : Reader) | Raise (e : NetError).

(** The limit of [asyncio.open_connection]. *)
Definition LIMIT : Z := 65536.

(** [_readline]. *)
Definition readline (r : Reader) : Read :=
  match bfind [10] (rbuf r) with
  | Some i =>
      if LIMIT <? Z.of_nat i then Raise LineTooLong
      else Done (take (S i) (rbuf r)) (mkReader (drop (S i) (rbuf r)) (reof r))
  | None =>
      if LIMIT <? len (rbuf r) then Raise LineTooLong
      else if reof r then Done (rbuf r) (mkReader [] true) else Wait
  end.

Definition readexactly (n : nat) (r : Reader) : Read :=
  if (n <=? length (rbuf r))%nat then Done (take n (rbuf r)) (mkReader (drop n (rbuf r)) (reof r))
  else if reof r then Raise IncompleteRead else Wait.

Definition read (n : nat) (r : Reader) : Read :=
  if bool_decide (rbuf r = []) && negb (reof r) then Wait
  else Done (take n (rbuf r)) (mkReader (drop n (rbuf r)) (reof r)).

(** The size line of [decode_chunked]: the chunk's size, 0 where it returns [b""]. *)
Definition strip_bytes (s : bytes) : bytes := rstrip_of ascii_space (lstrip_of ascii_space s).
Definition chunk_size (size_line : bytes) : Z + NetError :=
  match size_line with
  | [] => inl 0
  | _ =>
      match py_int 16 (strip_bytes (default size_line (fst <$> cut 59 size_line))) with
      | None => inr (BadChunkSize (take 20 size_line))
      | Some size => if (size <? 0) || (MAX_CHUNK <? size) then inr (ChunkTooBig size) else inl size
      end
  end.

(** [_classify]: [(chunked, version)], or the answer that is no stream. *)
Definition contains (pat s : bytes) : bool := bool_decide (is_Some (bfind pat s)).
Definition header (name : bytes) (h : gmap bytes bytes) : bytes := default [] (h !! name).
Definition classify (status_line : bytes) (headers : gmap bytes bytes) : (bool * Z) + Response :=
  let code := match cut 32 status_line with Some (_, r) => default r (fst <$> cut 32 r) | None => [] end in
  let ok := bool_decide (code = str "200") in
  if startswith status_line (str "ICY ") && ok then inl (false, 1)
  else if startswith status_line (str "SOURCETABLE ") || bool_decide (code = str "404")
          || ok && contains (str "sourcetable") (lower (header (str "content-type") headers))
  then inr MountNotFound
  else if bool_decide (code = str "401") then inr Unauthorized
  else if startswith status_line (str "HTTP/1.") && ok
  then inl (contains (str "chunked") (lower (header (str "transfer-encoding") headers)),
            if bool_decide (is_Some (headers !! str "ntrip-version")) then 2 else 1)
  else inr (Unexpected (take 80 status_line)).

(** One header line of [_read_head]. *)
Definition add_header (headers : gmap bytes bytes) (l : bytes) : gmap bytes bytes :=
  match cut 58 l with
  | Some (key, value) => <[lower (strip key) := strip value]> headers
  | None => headers
  end.

(** ** The client *)

(** [NtripClientStatus] without the configuration's part. *)
Record Status := mkStatus {
  connected : bool; version : option Z; bytes_received : Z; frames_injected : Z; crc_dropped : Z;
  last_rtcm_mono : option Z; last_error : option Error; reconnects : Z; next_retry : option Z; since_mono : option Z
}.
Definition new_status : Status := mkStatus false None 0 0 0 None None 0 None None.

(** The local variables of [_stream]. *)
Record Stream := mkStream { chunked : bool; framer : Framer; crc_seen : Z; last_status : Z }.

(** The read a session is at: in [_read_head] the status line or a header line, in [_stream] a
    chunk's size line, its data or its CRLF, or the raw bytes. *)
Inductive Phase :=
| First
| Headers (status_line : bytes) (headers : gmap bytes bytes)
| Size (s : Stream) | Data (s : Stream) (size : nat) | Terminator (s : Stream) (data : bytes) | Raw (s : Stream).

(** Where [_run] is: connecting, reading since [since], waiting for the driver to take [frame],
    with [frames] after it, in its pause, or returned. *)
Inductive At :=
| Connecting
| Reading (r : Reader) (p : Phase) (since : Z)
| Injecting (r : Reader) (s : Stream) (frame : bytes) (frames : list bytes)
| Pausing
| Finished.

(** [backoff], [v1_retry] and [v2] are locals of [_run]; [injected] is every frame given to the
    driver, [published] every status. *)
Record NtripClient := mkClient {
  sticky_v1 : bool; streamed : bool; status : Status; backoff : Z; v1_retry : bool; v2 : bool;
  at_ : At; injected : list bytes; published : list Status
}.

Definition set_at (a : At) (c : NtripClient) : NtripClient :=
  mkClient (sticky_v1 c) (streamed c) (status c) (backoff c) (v1_retry c) (v2 c) a (injected c) (published c).
Definition set_status (st : Status) (c : NtripClient) : NtripClient :=
  mkClient (sticky_v1 c) (streamed c) st (backoff c) (v1_retry c) (v2 c) (at_ c) (injected c) (published c).
(** [_publish]. *)
Definition publish (c : NtripClient) : NtripClient :=
  mkClient (sticky_v1 c) (streamed c) (status c) (backoff c) (v1_retry c) (v2 c) (at_ c) (injected c) (published c ++ [status c]).
(** [_set_connected]. *)
Definition set_connected (value : bool) (now : Z) (st : Status) : Status :=
  if Bool.eqb (connected st) value then st
  else mkStatus value (version st) (bytes_received st) (frames_injected st) (crc_dropped st) (last_rtcm_mono st)
         (last_error st) (reconnects st) (next_retry st) (if value then Some now else None).
Definition set_error (e : Error) (st : Status) : Status :=
  mkStatus (connected st) (version st) (bytes_received st) (frames_injected st) (crc_dropped st) (last_rtcm_mono st)
    (Some e) (reconnects st) (next_retry st) (since_mono st).
Definition set_retry (d : option Z) (st : Status) : Status :=
  mkStatus (connected st) (version st) (bytes_received st) (frames_injected st) (crc_dropped st) (last_rtcm_mono st)
    (last_error st) (reconnects st) d (since_mono st).
Definition add_reconnect (st : Status) : Status :=
  mkStatus (connected st) (version st) (bytes_received st) (frames_injected st) (crc_dropped st) (last_rtcm_mono st)
    (last_error st) (reconnects st + 1) (next_retry st) (since_mono st).
Definition add_bytes (n : Z) (st : Status) : Status :=
  mkStatus (connected st) (version st) (bytes_received st + n) (frames_injected st) (crc_dropped st) (last_rtcm_mono st)
    (last_error st) (reconnects st) (next_retry st) (since_mono st).
Definition add_crc (n : Z) (st : Status) : Status :=
  mkStatus (connected st) (version st) (bytes_received st) (frames_injected st) (crc_dropped st + n) (last_rtcm_mono st)
    (last_error st) (reconnects st) (next_retry st) (since_mono st).
Definition add_injected (now : Z) (st : Status) : Status :=
  mkStatus (connected st) (version st) (bytes_received st) (frames_injected st + 1) (crc_dropped st) (Some now)
    (last_error st) (reconnects st) (next_retry st) (since_mono st).
(** The start of a stream. *)
Definition start_status (version : Z) (st : Status) : Status :=
  mkStatus (connected st) (Some version) (bytes_received st) (frames_injected st) (crc_dropped st) (last_rtcm_mono st)
    None (reconnects st) None (since_mono st).

(** *** A session *)

Definition MAX_BUFFER : Z := 2 ^ 20.
Definition next_read (s : Stream) : Phase := if chunked s then Size s else Raw s.

(** [_session] from the head to the first read of [_stream]. *)
Definition start_stream (now : Z) (status_line : bytes) (headers : gmap bytes bytes) (r : Reader) (c : NtripClient) :
    NtripClient + Error :=
  match classify status_line headers with
  | inr a => inr (Answered a)
  | inl (chunked, version) =>
      let s := mkStream chunked (new_framer MAX_BUFFER) 0 now in
      inl (mkClient (sticky_v1 c) true (set_connected true now (start_status version (status c))) (backoff c) (v1_retry c) (v2 c)
             (Reading r (next_read s) now) (injected c)
             (published c ++ [set_connected true now (start_status version (status c))]))
  end.

(** The end of one turn of [_stream]'s loop, and the next read. *)
Definition turn_end (now : Z) (r : Reader) (s : Stream) (c : NtripClient) : NtripClient :=
  let errors := checksum_errors (fstats (framer s)) in
  let c := set_status (add_crc (errors - crc_seen s) (status c)) c in
  let due := STATUS_INTERVAL <=? now - last_status s in
  let s := mkStream (chunked s) (framer s) errors (if due then now else last_status s) in
  set_at (Reading r (next_read s) now) (if due then publish c else c).

(** The rest of [for frame in framer.feed(data)]; the driver is called for the first frame. *)
Definition inject (now : Z) (r : Reader) (s : Stream) (frames : list bytes) (c : NtripClient) : NtripClient :=
  match frames with
  | [] => turn_end now r s c
  | f :: fs =>
      mkClient (sticky_v1 c) (streamed c) (status c) (backoff c) (v1_retry c) (v2 c)
        (Injecting r s f fs) (injected c ++ [f]) (published c)
  end.

(** [data] was read. *)
Definition got_data (now : Z) (r : Reader) (s : Stream) (data : bytes) (c : NtripClient) : NtripClient + Error :=
  match data with
  | [] => inr (Network ClosedByCaster)
  | _ =>
      let '(f, frames) := framer_feed data (framer s) in
      let rtcm := map raw (List.filter (fun f => bool_decide (proto f = RTCM3)) frames) in
      inl (inject now r (mkStream (chunked s) f (crc_seen s) (last_status s)) rtcm
             (set_status (add_bytes (len data) (status c)) c))
  end.

(** The read of a phase, and what follows it. *)
Definition phase_read (p : Phase) (r : Reader) : Read :=
  match p with
  | First | Headers _ _ | Size _ => readline r
  | Data _ size => readexactly size r
  | Terminator _ _ => readexactly 2 r
  | Raw _ => read READ_SIZE r
  end.
Definition phase_next (now since : Z) (p : Phase) (data : bytes) (r : Reader) (c : NtripClient) : NtripClient + Error :=
  match p with
  | First =>
      match data with
      | [] => inr (Network ClosedBeforeAnswer)
      | _ =>
          let status_line := strip data in
          if startswith status_line (str "ICY ") || startswith status_line (str "SOURCETABLE ")
          then start_stream now status_line ∅ r c
          else inl (set_at (Reading r (Headers status_line ∅) since) c)
      end
  | Headers status_line headers =>
      match data with
      | [] => inr (Network ClosedMidHeader)
      | _ =>
          if bool_decide (data = [13; 10]) || bool_decide (data = [10]) then start_stream now status_line headers r c
          else
            let headers := add_header headers data in
            if (MAX_HEADERS <? size headers)%nat then inr (Answered TooManyHeaders)
            else inl (set_at (Reading r (Headers status_line headers) since) c)
      end
  | Size s =>
      match chunk_size data with
      | inr e => inr (Network e)
      | inl size => if size =? 0 then got_data now r s [] c else inl (set_at (Reading r (Data s (Z.to_nat size)) since) c)
      end
  | Data s _ => inl (set_at (Reading r (Terminator s data) since) c)
  | Terminator s chunk => if bool_decide (data = [13; 10]) then got_data now r s chunk c else inr (Network ChunkNotTerminated)
  | Raw s => got_data now r s data c
  end.

(** *** The supervisor *)

Section Client.
Context (config : NtripClientConfig) (force_v1 : bool).

(** [_request]. *)
Definition request (v2 : bool) : bytes :=
  let c := config in
  let text := fun s => s ++ [13; 10] in
  let h := if mem_byte 58 (host c) then [91] ++ host c ++ [93] else host c in
  utf8_encode
    (text (str "GET /" ++ mountpoint c ++ str " HTTP/1." ++ (if v2 then str "1" else str "0"))
     ++ text (str "Host: " ++ h ++ [58] ++ str_int (port c))
     ++ text (str "User-Agent: NTRIP mtrtk/0.1.0")
     ++ (if v2 then text (str "Ntrip-Version: Ntrip/2.0") ++ text (str "Connection: close") else [])
     ++ (match username c with
         | Some u => text (str "Authorization: Basic " ++ b64encode (utf8_encode (u ++ [58] ++ default [] (password c))))
         | None => []
         end)
     ++ [13; 10]).

(** The top of [_run]'s loop. *)
Definition attempt (c : NtripClient) : NtripClient :=
  mkClient (sticky_v1 c) false (status c) (backoff c) (v1_retry c) (negb (force_v1 || sticky_v1 c || v1_retry c))
    Connecting (injected c) (published c).
Definition new_client : NtripClient := attempt (mkClient false false new_status BACKOFF_MIN false false Finished [] []).

(** [_jittered] with the delay [d] drawn; [None]: no such draw. *)
Definition jittered (b d : Z) : option (Z * Z) :=
  if (8 * b <=? 10 * d) && (10 * d <=? 12 * b) then Some (d, Z.min (b * 2) BACKOFF_MAX) else None.

(** The handlers of a session's failure, with the draw [d] of their delay. *)
Definition failed (now d : Z) (e : Error) (c : NtripClient) : option NtripClient :=
  let c := set_status (set_error e (status c)) c in
  let pause delay backoff :=
    let st := set_retry (Some delay) (add_reconnect (set_connected false now (status c))) in
    publish (mkClient (sticky_v1 c || v1_retry c && streamed c) (streamed c) st backoff false (v2 c) Pausing (injected c) (published c)) in
  match e with
  | Answered a =>
      match kind a with
      | Other =>
          if v2 c then
            Some (attempt (publish (mkClient (sticky_v1 c) (streamed c) (set_connected false now (status c)) (backoff c) true (v2 c)
                                      (at_ c) (injected c) (published c))))
          else '(delay, b) ← jittered (backoff c) d; Some (pause delay b)
      | Auth => Some (pause AUTH_BACKOFF (backoff c))
      | Mount => Some (pause MOUNT_BACKOFF (backoff c))
      end
  | Network _ =>
      let b := match since_mono (status c) with Some t => if STABLE <=? now - t then BACKOFF_MIN else backoff c | None => backoff c end in
      '(delay, b) ← jittered b d; Some (pause delay b)
  | Crash _ => '(delay, b) ← jittered (backoff c) d; Some (pause delay b)
  end.

(** A session reads on until it has to wait; [fuel] is one more than what has arrived. *)
Fixpoint read_on (fuel : nat) (now : Z) (c : NtripClient) : NtripClient + Error * NtripClient :=
  match fuel, at_ c with
  | S fuel, Reading r p since =>
      match phase_read p r with
      | Wait => inl c
      | Raise e => inr (Network e, c)
      | Done data r =>
          match phase_next now since p data r c with
          | inl c => read_on fuel now c
          | inr e => inr (e, c)
          end
      end
  | _, _ => inl c
  end.
Definition proceed (now d : Z) (c : NtripClient) : option NtripClient :=
  let fuel := match at_ c with Reading r _ _ => S (S (length (rbuf r))) | _ => 0%nat end in
  match read_on fuel now c with
  | inl c => Some c
  | inr (e, c) => failed now d e c
  end.

(** [run]'s [finally]. *)
Definition finish (now : Z) (c : NtripClient) : NtripClient :=
  publish (set_at Finished (set_status (set_retry None (set_connected false now (status c))) c)).

Inductive Event :=
| Connected (now : Z)                    (* the connection is open; the request is written *)
| ConnectFailed (now d : Z) (e : Error)
| Arrived (now d : Z) (data : bytes)     (* bytes from the caster *)
| HungUp (now d : Z)                     (* ... and their end *)
| TimedOut (now d : Z)                   (* [wait_for] around the current read *)
| Injected (now d : Z)                   (* [inject_rtcm] returned *)
| InjectFailed (now d : Z) (e : Error)
| Resumed                                (* the pause is over *)
| Stopped (now : Z).

(** What the socket and the driver raise. *)
Definition raised (e : Error) : bool := match e with Network (Os _) | Crash _ => true | _ => false end.

Definition hear (data : bytes) (eof : bool) (r : Reader) : Reader := mkReader (rbuf r ++ data) (reof r || eof).

(** One event; [None] where it cannot happen. *)
Definition step (c : NtripClient) (e : Event) : option NtripClient :=
  match e, at_ c with
  | Connected now, Connecting => Some (set_at (Reading (mkReader [] false) First now) c)
  | ConnectFailed now d e, Connecting => if raised e then failed now d e c else None
  | Arrived now d data, Reading r p since =>
      if reof r then None else proceed now d (set_at (Reading (hear data false r) p since) c)
  | Arrived now d data, Injecting r s f fs =>
      if reof r then None else Some (set_at (Injecting (hear data false r) s f fs) c)
  | HungUp now d, Reading r p since =>
      if reof r then None else proceed now d (set_at (Reading (hear [] true r) p since) c)
  | HungUp now d, Injecting r s f fs =>
      if reof r then None else Some (set_at (Injecting (hear [] true r) s f fs) c)
  | TimedOut now d, Reading r p since =>
      match p with
      | First | Headers _ _ => if HEADER_TIMEOUT <=? now - since then failed now d (Network HeadTimedOut) c else None
      | _ => if NO_DATA_TIMEOUT <=? now - since then failed now d (Network NoData) c else None
      end
  | Injected now d, Injecting r s f fs =>
      proceed now d (inject now r s fs (set_status (add_injected now (status c)) c))
  | InjectFailed now d e, Injecting _ _ _ _ => if raised e then failed now d e c else None
  | Resumed, Pausing => Some (attempt c)
  | Stopped now, Finished => None
  | Stopped now, _ => Some (finish now c)
  | _, _ => None
  end.

Fixpoint run (c : NtripClient) (evs : list Event) : option NtripClient :=
  match evs with [] => Some c | e :: evs => c ← step c e; run c evs end.
End Client.

(** What [_gga_loop] writes of a position. *)
Definition gga_line (gga : bytes) : bytes :=
  if endswith gga [13; 10] then gga else rstrip_of ascii_space gga ++ [13; 10].

(** ** Frames in pieces *)

Definition rtcm_raw (f : bytes) : Prop := wire_valid (mkFrame RTCM3 f).

Lemma rtcm_raw_inv f : rtcm_raw f ->
  exists payload, f = rtcm_body payload ++ be24 (crc24q (rtcm_body payload)) /\ bytes_ok payload /\ len payload < 1024.
Proof. intros H. inversion H; subst. eauto. Qed.

Lemma rtcm_raw_shape f : rtcm_raw f -> exists r, f = RTCM_PREAMBLE :: r /\ bytes_ok f /\ len f < 1030.
Proof.
  intros H. pose proof (wire_valid_bytes _ H) as Hb. destruct (rtcm_raw_inv f H) as (p & -> & _ & Hl).
  eexists. split; [reflexivity |]. split; [exact Hb |]. unfold rtcm_body. rewrite !length_app. cbn [length be24]. lia.
Qed.

(** The part of a frame that has arrived is kept. *)
Lemma rtcm_part_waits p d m st : rtcm_raw (p ++ d) -> d <> [] -> framer_iter (mkFramer p m st) = (mkFramer p m st, Stop).
Proof.
  intros Hf Hd. rewrite framer_iter_eq. cbn [fbuf]. destruct p as [| b p]; [done |]. cbn [length Nat.eqb].
  destruct (rtcm_raw_shape _ Hf) as (r & E & _ & _). injection E as -> _.
  set (s := mkFramer (RTCM_PREAMBLE :: p) m st). change (negb (is_sync _)) with false. cbv iota.
  assert (Et : try_first s = (s, Incomplete)); [| by rewrite Et].
  change (try_first s) with (try_rtcm s).
  pose proof (try_rtcm_push d s) as Hs. unfold stable in Hs.
  destruct (rtcm_raw_inv _ Hf) as (pl & Ef & Hok & Hl). pose proof (try_rtcm_complete pl m st Hok Hl) as Hc. cbv zeta in Hc.
  rewrite <- Ef in Hc. change (framer_push d s) with (mkFramer ((RTCM_PREAMBLE :: p) ++ d) m st) in Hs. rewrite Hc in Hs.
  destruct (try_rtcm s) as [s1 r0] eqn:Et. destruct r0; [exfalso | exfalso |].
  3: { f_equal. apply (try_first_incomplete s s1 Et). }
  - specialize (Hs ltac:(done)). unfold emit, del_front, framer_push in Hs. cbn [fst snd fbuf] in Hs.
    rewrite drop_all in Hs. injection Hs as Hs _. by destruct (fbuf s1), d.
  - by specialize (Hs ltac:(done)).
Qed.

(** What is left of a stream of frames: [p] are the first bytes of the first of [fs]. *)
Definition partial (p : bytes) (fs : list bytes) : Prop :=
  p = [] \/ exists f r fs', fs = f :: fs' /\ f = p ++ r /\ r <> [].

Lemma split_frames fs : forall q rest, concat fs = q ++ rest ->
  exists fs1 fs2 p, fs = fs1 ++ fs2 /\ q = concat fs1 ++ p /\ p ++ rest = concat fs2 /\ partial p fs2.
Proof.
  induction fs as [| f fs IH]; intros q rest E.
  - cbn in E. symmetry in E. apply app_eq_nil in E as [-> ->]. exists [], [], []. repeat split. by left.
  - cbn [concat] in E. destruct (decide (length f <= length q)%nat) as [Hl|Hl].
    + assert (Eq : q = f ++ drop (length f) q).
      { rewrite <- (take_drop (length f) q) at 1. f_equal.
        apply (f_equal (take (length f))) in E. rewrite take_app_length, take_app_le in E by lia. done. }
      rewrite Eq, <- app_assoc in E. apply app_inv_head in E. destruct (IH _ _ E) as (fs1 & fs2 & p & -> & E1 & E2 & Hp).
      exists (f :: fs1), fs2, p. cbn [concat app]. split; [done |]. rewrite <- app_assoc, <- E1, <- Eq. done.
    + exists [], (f :: fs), q. cbn [concat app]. split; [done |]. split; [done |]. split; [done |]. right.
      exists f, (drop (length q) f), fs. split; [done |]. split.
      * apply (f_equal (take (length q))) in E. rewrite take_app_le, take_app_length in E by lia.
        rewrite <- (take_drop (length q) f) at 1. by rewrite E.
      * apply drop_ne. lia.
Qed.

Lemma frames_bytes fs : Forall rtcm_raw fs -> bytes_ok (concat fs).
Proof. induction 1 as [| f fs Hf _ IH]; [constructor |]. cbn. apply Forall_app_2; [by apply (wire_valid_bytes _ Hf) | done]. Qed.

Lemma count_errors fs st : Forall rtcm_raw fs -> checksum_errors (count_frames (map (mkFrame RTCM3) fs) st) = checksum_errors st.
Proof.
  intros H. revert st. induction H as [| f fs _ _ IH]; intros st; [done |].
  unfold count_frames in *. cbn [map foldl]. rewrite IH. done.
Qed.

(** What the framer finds in the next piece of a stream of frames. *)
Lemma run_frames x m st rest fs : Forall rtcm_raw fs -> x ++ rest = concat fs ->
  exists fs1 fs2 p st', fs = fs1 ++ fs2 /\ Framing.run (mkFramer x m st) = (mkFramer p m st', map (mkFrame RTCM3) fs1)
    /\ p ++ rest = concat fs2 /\ partial p fs2 /\ checksum_errors st' = checksum_errors st.
Proof.
  intros Hfs E. symmetry in E. destruct (split_frames fs _ _ E) as (fs1 & fs2 & p & -> & -> & E2 & Hp).
  apply list.Forall_app in Hfs as [H1 H2]. assert (Hok : bytes_ok p).
  { pose proof (frames_bytes _ H2) as Hb. rewrite <- E2 in Hb. by apply list.Forall_app in Hb as []. }
  exists fs1, fs2, p, (count_frames (map (mkFrame RTCM3) fs1) st). split; [done |]. split; [| by rewrite count_errors].
  replace (concat fs1) with (flat_map raw (map (mkFrame RTCM3) fs1)) by (clear; induction fs1; cbn; congruence).
  rewrite run_wire_valid; [| clear - H1; induction H1; constructor; done | done].
  rewrite (run_step (L := framer_laws)) by done. cbn [iter framer_incremental].
  destruct Hp as [-> | (f & r & fs' & -> & -> & Hr)]; [cbn [framer_iter fbuf]; by rewrite app_nil_r |].
  apply Forall_cons_1 in H2 as [H2 _]. rewrite (rtcm_part_waits _ r) by done. by rewrite app_nil_r.
Qed.

(** ** Reading until there is nothing to read *)

Definition phase_ok (p : Phase) : Prop := match p with Data _ size => size <> 0%nat | _ => True end.
(** A read of no bytes is possible: only at the end of the stream. *)
Definition may_end (p : Phase) : Prop := match p with Data _ _ | Terminator _ _ => False | _ => True end.
Definition waiting (c : NtripClient) : Prop :=
  match at_ c with Reading r p _ => phase_ok p /\ phase_read p r = Wait | _ => True end.

(** Every read takes bytes, but for the empty one at the end of the stream. *)
Lemma phase_read_takes p r data r' : phase_ok p -> phase_read p r = Done data r' ->
  rbuf r = data ++ rbuf r' /\ reof r' = reof r /\ (data = [] -> may_end p).
Proof.
  assert (Hline : readline r = Done data r' -> rbuf r = data ++ rbuf r' /\ reof r' = reof r).
  { unfold readline. destruct (bfind [10] (rbuf r)) as [i|] eqn:Ei.
    - destruct (_ <? _); [done |]. intros [= <- <-]. cbn [rbuf reof]. by rewrite take_drop.
    - destruct (_ <? _); [done |]. destruct (reof r) eqn:Er; [| done]. intros [= <- <-]. cbn [rbuf reof]. by rewrite app_nil_r. }
  assert (Hex : forall n, (0 < n)%nat -> readexactly n r = Done data r' -> rbuf r = data ++ rbuf r' /\ reof r' = reof r /\ data <> []).
  { intros n Hn. unfold readexactly. destruct (n <=? length (rbuf r))%nat eqn:El; [| by destruct (reof r)].
    apply Nat.leb_le in El. intros [= <- <-]. cbn [rbuf reof]. rewrite take_drop. split; [done |]. split; [done |].
    intros E. apply (f_equal length) in E. rewrite length_take in E. cbn in E. lia. }
  intros Hp H. destruct p as [| | | s size | s d | s]; cbn [phase_read] in H.
  1-3: by destruct (Hline H).
  - destruct (Hex size ltac:(cbn in Hp; lia) H) as (? & ? & ?). done.
  - destruct (Hex 2%nat ltac:(lia) H) as (? & ? & ?). done.
  - unfold read in H. destruct (_ && _); [done |]. injection H as <- <-. cbn [rbuf reof]. by rewrite take_drop.
Qed.

(** ... and that one ends the session. *)
Lemma phase_next_empty now since p r c : may_end p -> exists e, phase_next now since p [] r c = inr e.
Proof. destruct p; cbn; intros H; try done; by eexists. Qed.

(** What a session leaves alone. *)
Record same_run (c c' : NtripClient) : Prop := {
  same_sticky : sticky_v1 c' = sticky_v1 c;
  same_backoff : backoff c' = backoff c;
  same_retry : v1_retry c' = v1_retry c;
  same_v2 : v2 c' = v2 c
}.

Lemma same_run_refl c : same_run c c.
Proof. by constructor. Qed.
Lemma same_run_trans a b c : same_run a b -> same_run b c -> same_run a c.
Proof. intros [] []. constructor; congruence. Qed.

Definition session_at (c : NtripClient) : Prop := match at_ c with Reading _ _ _ | Injecting _ _ _ _ => True | _ => False end.

(** Where a step of a session leads. *)
Definition goes_on (r : Reader) (c c' : NtripClient) : Prop :=
  same_run c c' /\ match at_ c' with Reading r' p _ => r' = r /\ phase_ok p | Injecting r' _ _ _ => r' = r | _ => False end.

Lemma inject_keeps now r s fs c : goes_on r c (inject now r s fs c).
Proof.
  destruct fs as [| f fs]; cbn [inject]; [| by split].
  unfold turn_end. destruct (_ <=? _); (split; [by constructor |]); cbn [set_at at_]; unfold next_read; cbn [chunked];
    by destruct (chunked s).
Qed.

Lemma got_data_keeps now r s data c c' : got_data now r s data c = inl c' -> goes_on r c c'.
Proof.
  unfold got_data. destruct data as [| x d]; [done |]. destruct (framer_feed _ _) as [f frames]. intros [= <-].
  match goal with |- goes_on r c (inject now r ?s ?l ?c2) => destruct (inject_keeps now r s l c2) as [H1 H2] end.
  split; [| done]. eapply same_run_trans; [| exact H1]. by constructor.
Qed.

Lemma start_stream_keeps now st h r c c' : start_stream now st h r c = inl c' -> goes_on r c c'.
Proof.
  unfold start_stream. destruct (classify st h) as [[ch v]|a]; [| done]. intros [= <-]. split; [by constructor |].
  cbn. unfold next_read. cbn. by destruct ch.
Qed.

Lemma phase_next_keeps now since p data r c c' : phase_next now since p data r c = inl c' -> goes_on r c c'.
Proof.
  destruct p; cbn [phase_next].
  - destruct data as [| x d]; [done |]. destruct (_ || _); [apply start_stream_keeps |]. intros [= <-]. by repeat split.
  - destruct data as [| x d]; [done |]. destruct (_ || _); [apply start_stream_keeps |]. destruct (_ <? _)%nat; [done |].
    intros [= <-]. by repeat split.
  - destruct (chunk_size data) as [n|e] eqn:Ec; [| done]. destruct (n =? 0) eqn:En; [done |]. intros [= <-]. split; [by constructor |]. cbn.
    split; [done |]. apply Z.eqb_neq in En. assert (0 <= n); [| lia]. revert Ec. unfold chunk_size. destruct data; [by intros [= <-] |].
    destruct (py_int _ _) as [k|]; [| done].
    destruct ((k <? 0) || (MAX_CHUNK <? k)) eqn:Ez; [done |]. intros [= <-]. apply orb_false_iff in Ez as [Ez _]. apply Z.ltb_ge in Ez. lia.
  - intros [= <-]. by repeat split.
  - destruct (bool_decide _); [apply got_data_keeps | done].
  - apply got_data_keeps.
Qed.

Definition fuelled (fuel : nat) (c : NtripClient) : Prop :=
  match at_ c with Reading r p _ => phase_ok p /\ (length (rbuf r) + 1 < fuel)%nat | _ => True end.

(** The fuel of [proceed] is enough: the session goes on to where it has to wait. *)
Lemma read_on_waits fuel : forall now c, fuelled fuel c ->
  match read_on fuel now c with
  | inl c' => waiting c' /\ same_run c c' /\ (session_at c -> session_at c')
  | inr (_, c') => same_run c c' /\ session_at c'
  end.
Proof.
  induction fuel as [| fuel IH]; intros now c H; unfold fuelled in H; cbn [read_on].
  - unfold waiting. destruct (at_ c) eqn:Ea; [| destruct H as [_ H]; exfalso; lia | ..]; (split; [done | split; [apply same_run_refl | done]]).
  - destruct (at_ c) as [| r p since | | |] eqn:Ea;
      try (unfold waiting; rewrite Ea; split; [done |]; split; [apply same_run_refl | done]).
    destruct H as [Hp Hf]. destruct (phase_read p r) as [| data r' | e] eqn:Er.
    + unfold waiting. rewrite Ea. split; [done |]. split; [apply same_run_refl | done].
    + destruct (phase_read_takes _ _ _ _ Hp Er) as (Eb & _ & He).
      destruct (phase_next now since p data r' c) as [c'|e] eqn:En; [| split; [apply same_run_refl |]; unfold session_at; by rewrite Ea].
      destruct (phase_next_keeps _ _ _ _ _ _ _ En) as [Hk Hr].
      assert (Hd : data <> []).
      { intros ->. destruct (phase_next_empty now since p r' c (He eq_refl)) as [e' E]. congruence. }
      apply (f_equal length) in Eb. rewrite length_app in Eb.
      assert (Hf' : fuelled fuel c').
      { unfold fuelled. destruct (at_ c'); try done. destruct Hr as [-> ?]. split; [done |]. destruct data; [done |]. cbn in Eb. lia. }
      specialize (IH now c' Hf'). destruct (read_on fuel now c') as [c''|[e'' c'']].
      * destruct IH as (H1 & H2 & H3). split; [done |]. split; [by eapply same_run_trans |]. intros _. apply H3.
        unfold session_at. by destruct (at_ c').
      * destruct IH as (H2 & H3). split; [by eapply same_run_trans | done].
    + split; [apply same_run_refl |]. unfold session_at. by rewrite Ea.
Qed.

(** ** The client's books *)

Lemma feed_valid d s : bytes_ok (fbuf s) -> bytes_ok d ->
  Forall wire_valid (framer_feed d s).2 /\ bytes_ok (fbuf (framer_feed d s).1).
Proof.
  intros Hs Hd. unfold framer_feed. assert (Hok : bytes_ok (fbuf (framer_cap (framer_push d s)))).
  { assert (H : bytes_ok (fbuf (framer_push d s))) by (by apply Forall_app_2).
    unfold framer_cap. destruct (_ <? _); [| exact H]. cbn [add_garbage del_front fbuf]. by apply bytes_ok_drop. }
  split.
  - apply (run_invariant (L := framer_laws) (fun _ => True)); [done | done | | done].
    intros u u' o Hu _ E. destruct (framer_go_partition u u' o Hu E) as (? & _ & _ & _ & _ & ?). done.
  - pose proof (run_suffix (L := framer_laws) _ Hok) as [x Hx]. change ibuf with fbuf in Hx. rewrite Hx in Hok.
    by apply list.Forall_app in Hok as [_ ?].
Qed.

Lemma rtcm_frames fs : Forall wire_valid fs -> Forall rtcm_raw (map raw (List.filter (fun f => bool_decide (proto f = RTCM3)) fs)).
Proof.
  induction 1 as [| f fs Hf _ IH]; [constructor |]. cbn [List.filter]. case_bool_decide as E; [| done]. cbn [map].
  constructor; [| done]. unfold rtcm_raw. destruct f. cbn in *. by subst.
Qed.

Definition stream_ok (s : Stream) : Prop := bytes_ok (fbuf (framer s)).
Definition phase_bytes (p : Phase) : Prop :=
  match p with
  | First | Headers _ _ => True
  | Size s | Data s _ | Raw s => stream_ok s
  | Terminator s data => stream_ok s /\ bytes_ok data
  end.
Definition in_head (p : Phase) : bool := match p with First | Headers _ _ => true | _ => false end.
Definition in_stream (a : At) : bool :=
  match a with Reading _ p _ => negb (in_head p) | Injecting _ _ _ _ => true | _ => false end.
Definition injecting (a : At) : Z := match a with Injecting _ _ _ _ => 1 | _ => 0 end.
Definition at_bytes (a : At) : Prop :=
  match a with
  | Reading r p _ => bytes_ok (rbuf r) /\ phase_ok p /\ phase_bytes p
  | Injecting r s _ fs => bytes_ok (rbuf r) /\ stream_ok s /\ Forall rtcm_raw fs
  | _ => True
  end.

(** A client that is well: only whole, valid frames have gone to the driver, and those it took
    are counted; it is connected exactly while it streams; a pause is bounded. *)
Record client_ok (c : NtripClient) : Prop := {
  ok_backoff : BACKOFF_MIN <= backoff c <= BACKOFF_MAX;
  ok_v2 : v2 c = true -> v1_retry c = false;
  ok_frames : Forall rtcm_raw (injected c);
  ok_count : 0 <= frames_injected (status c) /\ frames_injected (status c) + injecting (at_ c) <= len (injected c);
  ok_connected : connected (status c) = in_stream (at_ c);
  ok_since : is_Some (since_mono (status c)) <-> connected (status c) = true;
  ok_pause : at_ c = Pausing -> exists d, next_retry (status c) = Some d /\ 800000 <= d <= 72000000;
  ok_at : at_bytes (at_ c)
}.

Lemma set_connected_since v now st : (is_Some (since_mono st) <-> connected st = true) ->
  connected (set_connected v now st) = v /\ (is_Some (since_mono (set_connected v now st)) <-> v = true).
Proof.
  intros H. unfold set_connected. destruct (Bool.eqb (connected st) v) eqn:E.
  - apply Bool.eqb_prop in E. subst v. done.
  - cbn. split; [done |]. destruct v; split; [done | by eexists | by intros [? ?] | done].
Qed.

Lemma connected_frames v now st : frames_injected (set_connected v now st) = frames_injected st.
Proof. unfold set_connected. by destruct (Bool.eqb _ _). Qed.

Lemma next_read_ok s : phase_ok (next_read s) /\ in_head (next_read s) = false /\ (stream_ok s -> phase_bytes (next_read s)).
Proof. unfold next_read. by destruct (chunked s). Qed.

Lemma client_ok_at c a : client_ok c -> in_stream a = in_stream (at_ c) -> injecting a <= injecting (at_ c) -> a <> Pausing -> at_bytes a ->
  client_ok (set_at a c).
Proof. intros [H1 H2 H3 H4 H5 H6 H7 H8] Ha Hi Hp Hb. constructor; cbn [set_at backoff v2 v1_retry injected status at_]; try done; [lia | by rewrite Ha]. Qed.

Lemma client_ok_status c st : client_ok c -> connected st = connected (status c) -> since_mono st = since_mono (status c) ->
  frames_injected st = frames_injected (status c) -> (at_ c <> Pausing) -> client_ok (set_status st c).
Proof.
  intros [H1 H2 H3 H4 H5 H6 H7 H8] Ec Es Ef Hp. constructor; cbn [set_status backoff v2 v1_retry injected status at_]; rewrite ?Ec, ?Es, ?Ef; done.
Qed.

Lemma client_ok_publish c : client_ok c -> client_ok (publish c).
Proof. by intros []. Qed.

(** The loop over the frames of one read. *)
Lemma inject_ok now r s fs c : client_ok c -> in_stream (at_ c) = true -> injecting (at_ c) = 0 ->
  bytes_ok (rbuf r) -> stream_ok s -> Forall rtcm_raw fs -> client_ok (inject now r s fs c).
Proof.
  intros Hc Ha Hi Hr Hs Hfs. destruct fs as [| f fs]; cbn [inject].
  - unfold turn_end. set (s' := mkStream _ _ _ _). destruct (next_read_ok s') as (N1 & N2 & N3).
    match goal with |- client_ok (set_at _ (if _ then publish ?x else _)) => assert (Hx : client_ok x) end.
    { apply client_ok_status; try done. by destruct (at_ c). }
    apply client_ok_at; [by destruct (_ <=? _); [apply client_ok_publish |] | | | done | repeat split; try done; by apply N3].
    + destruct (_ <=? _); cbn [publish set_status at_ in_stream]; by rewrite N2, Ha.
    + destruct (_ <=? _); cbn [publish set_status at_ injecting]; lia.
  - apply Forall_cons_1 in Hfs as [Hf Hfs]. destruct Hc as [H1 H2 H3 [H4 H4'] H5 H6 H7 H8]. rewrite Hi in H4'.
    constructor; cbn [backoff v2 v1_retry injected status at_ in_stream injecting]; try done.
    + apply Forall_app_2; [done | by constructor].
    + rewrite length_app. cbn [length]. lia.
    + by rewrite H5, Ha.
Qed.

Lemma got_data_ok now r s data c c' : client_ok c -> in_stream (at_ c) = true -> injecting (at_ c) = 0 ->
  bytes_ok (rbuf r) -> stream_ok s -> bytes_ok data -> got_data now r s data c = inl c' -> client_ok c'.
Proof.
  intros Hc Ha Hi Hr Hs Hd. unfold got_data. destruct data as [| x data]; [done |].
  destruct (feed_valid (x :: data) (framer s) Hs Hd) as [Hv Hb]. destruct (framer_feed _ _) as [f frames]. cbn [fst snd] in *.
  intros [= <-]. apply inject_ok; try done; [| by apply rtcm_frames].
  apply client_ok_status; try done. by destruct (at_ c).
Qed.

Lemma start_stream_ok now st h r c c' : client_ok c -> in_stream (at_ c) = false -> injecting (at_ c) = 0 ->
  bytes_ok (rbuf r) -> start_stream now st h r c = inl c' -> client_ok c'.
Proof.
  intros [H1 H2 H3 [H4 H4'] H5 H6 H7 H8] Ha Hi Hr. unfold start_stream. destruct (classify st h) as [[ch v]|a]; [| done]. intros [= <-].
  set (s := mkStream _ _ _ _). destruct (next_read_ok s) as (N1 & N2 & N3).
  destruct (set_connected_since true now (start_status v (status c)) H6) as [E1 E2].
  constructor; cbn [backoff v2 v1_retry injected status at_ in_stream injecting]; rewrite ?connected_frames, ?E1, ?N2; cbn [start_status frames_injected];
    try done; [lia |]. split; [done |]. split; [done |]. apply N3. constructor.
Qed.

(** One step of a session. *)
Lemma phase_next_ok now since p data r0 r c c' : client_ok c -> at_ c = Reading r0 p since ->
  phase_ok p -> phase_bytes p -> bytes_ok data -> bytes_ok (rbuf r) -> phase_next now since p data r c = inl c' -> client_ok c'.
Proof.
  intros Hc Ha Hp Hb Hd Hr.
  assert (Hstay : forall q, phase_ok q -> phase_bytes q -> in_head q = in_head p -> client_ok (set_at (Reading r q since) c)).
  { intros q Hq Hqb Hi. apply client_ok_at; rewrite ?Ha; cbn [in_stream]; try done. by rewrite Hi. }
  destruct p as [| st h | s | s size | s d | s]; cbn [phase_next].
  - destruct data as [| x d]; [done |]. destruct (_ || _); [by apply start_stream_ok; rewrite ?Ha |]. intros [= <-]. by apply Hstay.
  - destruct data as [| x d]; [done |]. destruct (_ || _); [by apply start_stream_ok; rewrite ?Ha |]. destruct (_ <? _)%nat; [done |].
    intros [= <-]. by apply Hstay.
  - intros H. pose proof (phase_next_keeps now since (Size s) data r c c' H) as [_ Hk]. revert H. cbn [phase_next].
    destruct (chunk_size data) as [n|e]; [| done]. destruct (n =? 0); [done |]. intros [= <-]. apply Hstay; [apply Hk | done | done].
  - intros [= <-]. by apply Hstay.
  - destruct (bool_decide _); [| done]. destruct Hb. apply got_data_ok; rewrite ?Ha; done.
  - apply got_data_ok; rewrite ?Ha; done.
Qed.

Lemma read_on_ok fuel : forall now c, client_ok c ->
  match read_on fuel now c with inl c' => client_ok c' | inr (_, c') => client_ok c' end.
Proof.
  induction fuel as [| fuel IH]; intros now c Hc; cbn [read_on]; [done |].
  destruct (at_ c) as [| r p since | | |] eqn:Ea; try done.
  destruct (phase_read p r) as [| data r' | e] eqn:Er; [done | | done].
  destruct (phase_next now since p data r' c) as [c'|e] eqn:En; [| done]. apply IH.
  pose proof (ok_at c Hc) as Hat. rewrite Ea in Hat. destruct Hat as (Hb & Hp & Hpb).
  destruct (phase_read_takes _ _ _ _ Hp Er) as (Eb & _ & _). rewrite Eb in Hb. apply list.Forall_app in Hb as [Hd Hr].
  by apply (phase_next_ok now since p data r r' c c').
Qed.

Lemma jittered_ok b d delay b' : BACKOFF_MIN <= b <= BACKOFF_MAX -> jittered b d = Some (delay, b') ->
  800000 <= delay <= 72000000 /\ BACKOFF_MIN <= b' <= BACKOFF_MAX.
Proof.
  unfold jittered, BACKOFF_MIN, BACKOFF_MAX. intros Hb. destruct (_ && _) eqn:E; [| done]. apply andb_true_iff in E as [E1 E2].
  apply Z.leb_le in E1, E2. intros [= <- <-]. lia.
Qed.

Section Supervisor.
Context (force_v1 : bool).

Lemma attempt_ok c : client_ok c -> connected (status c) = false -> client_ok (attempt force_v1 c).
Proof.
  intros [H1 H2 H3 [H4 H4'] H5 H6 H7 H8] Hc.
  constructor; cbn [attempt backoff v2 v1_retry injected status at_ in_stream injecting]; try done.
  - intros E. apply negb_true_iff, orb_false_iff in E as [_ E]. exact E.
  - destruct (at_ c); cbn [injecting] in H4'; lia.
Qed.

Definition live (c : NtripClient) : Prop := match at_ c with Pausing | Finished => False | _ => True end.

Lemma failed_ok now d e c c' : client_ok c -> failed force_v1 now d e c = Some c' ->
  client_ok c' /\ match at_ c' with Connecting => v2 c = true /\ v1_retry c' = true | Pausing => v1_retry c' = false | _ => False end.
Proof.
  intros [H1 H2 H3 [H4 H4'] H5 H6 H7 H8]. assert (Hi : frames_injected (status c) <= len (injected c)) by (destruct (at_ c); cbn [injecting] in H4'; lia).
  destruct (set_connected_since false now (set_error e (status c)) H6) as [E1 E2].
  assert (Hpause : forall delay b st, 800000 <= delay <= 72000000 -> BACKOFF_MIN <= b <= BACKOFF_MAX ->
            client_ok (publish (mkClient st (streamed c) (set_retry (Some delay) (add_reconnect (set_connected false now (set_error e (status c)))))
                                  b false (v2 c) Pausing (injected c) (published c)))).
  { intros delay b st Hd Hb. constructor; cbn [publish backoff v2 v1_retry injected status at_ in_stream injecting set_retry add_reconnect frames_injected connected since_mono next_retry];
      rewrite ?connected_frames; cbn [set_error frames_injected]; try done; [lia | by rewrite E2, E1 | by exists delay]. }
  unfold failed. cbn [set_status status backoff sticky_v1 v1_retry streamed v2 injected published].
  destruct e as [a | e | t].
  - destruct (kind a).
    + intros [= <-]. split; [| done]. apply Hpause; [unfold AUTH_BACKOFF; lia | done].
    + intros [= <-]. split; [| done]. apply Hpause; [unfold MOUNT_BACKOFF; lia | done].
    + destruct (v2 c) eqn:Ev.
      * intros [= <-]. split; [| done].
        constructor; cbn [attempt publish set_status backoff v2 v1_retry injected status at_ in_stream injecting]; rewrite ?connected_frames; cbn [set_error frames_injected];
          try done; [by rewrite orb_true_r | lia | by rewrite E2, E1].
      * destruct (jittered (backoff c) d) as [[delay b]|] eqn:Ej; [| done]. intros [= <-]. split; [| done].
        destruct (jittered_ok _ _ _ _ H1 Ej). by apply Hpause.
  - set (b0 := match since_mono _ with Some _ => _ | None => _ end).
    assert (Hb0 : BACKOFF_MIN <= b0 <= BACKOFF_MAX).
    { subst b0. destruct (since_mono _); [| done]. destruct (_ <=? _); [unfold BACKOFF_MIN, BACKOFF_MAX; lia | done]. }
    destruct (jittered b0 d) as [[delay b]|] eqn:Ej; [| done]. intros [= <-]. split; [| done].
    destruct (jittered_ok _ _ _ _ Hb0 Ej). by apply Hpause.
  - destruct (jittered (backoff c) d) as [[delay b]|] eqn:Ej; [| done]. intros [= <-]. split; [| done].
    destruct (jittered_ok _ _ _ _ H1 Ej). by apply Hpause.
Qed.

(** Where an event may lead: a session keeps the choice of version; a failure pauses, or tries
    version 1 once. *)
Definition leads (c c' : NtripClient) : Prop :=
  match at_ c' with
  | Reading _ _ _ | Injecting _ _ _ _ => v1_retry c' = v1_retry c /\ v2 c' = v2 c
  | Connecting => v2 c = true /\ v1_retry c' = true
  | Pausing => v1_retry c' = false
  | Finished => False
  end.

Lemma proceed_ok now d c c' : client_ok c -> session_at c -> proceed force_v1 now d c = Some c' ->
  client_ok c' /\ waiting c' /\ leads c c'.
Proof.
  intros Hc Hs. unfold proceed. set (fuel := match at_ c with Reading r _ _ => _ | _ => _ end).
  assert (Hf : fuelled fuel c).
  { unfold fuelled, fuel. pose proof (ok_at c Hc) as Ha. destruct (at_ c); try done. split; [apply Ha | lia]. }
  pose proof (read_on_waits fuel now c Hf) as Hw. pose proof (read_on_ok fuel now c Hc) as Ho.
  destruct (read_on fuel now c) as [c1|[e c1]].
  - intros [= <-]. destruct Hw as (Hw & [_ _ Er Ev] & Hs1). split; [done |]. split; [done |]. specialize (Hs1 Hs).
    unfold session_at in Hs1. unfold leads. by destruct (at_ c1).
  - intros Hf'. destruct (failed_ok _ _ _ _ _ Ho Hf') as [H1 H2]. destruct Hw as [[_ _ Er Ev] _]. split; [done |].
    unfold waiting, leads. rewrite <- Ev. destruct (at_ c'); done.
Qed.

Definition event_ok (e : Event) : Prop := match e with Arrived _ _ data => bytes_ok data | _ => True end.

Lemma inject_at now r s fs c a : inject now r s fs (set_at a c) = inject now r s fs c.
Proof. destruct fs; [| done]. cbn. unfold turn_end. by destruct (_ <=? _). Qed.

Lemma failed_leads now d e c c' : client_ok c -> failed force_v1 now d e c = Some c' -> client_ok c' /\ waiting c' /\ leads c c'.
Proof.
  intros Hc H. destruct (failed_ok _ _ _ _ _ Hc H) as [H1 H2]. split; [done |]. unfold waiting, leads. by destruct (at_ c').
Qed.

(** Every event but the end of a pause and the stop. *)
Lemma session_step c e c' : client_ok c -> waiting c -> event_ok e -> step force_v1 c e = Some c' ->
  match e with Resumed | Stopped _ => True | _ => client_ok c' /\ waiting c' /\ leads c c' end.
Proof.
  intros Hc Hw He H. assert (Ha := ok_at c Hc).
  destruct e as [now | now d e | now d data | now d | now d | now d | now d e | | now]; cbn [step] in H; try done.
  - destruct (at_ c) eqn:Ea; try done. injection H as <-. split.
    + by apply client_ok_at; rewrite ?Ea.
    + split; [by split | done].
  - destruct (at_ c) eqn:Ea; try done. destruct (raised e); [| done]. by eapply failed_leads.
  - destruct (at_ c) as [| r p since | r s f fs | |] eqn:Ea; try done; destruct (reof r); try done.
    + destruct Ha as (Hb & Hp & Hpb). apply (proceed_ok now d (set_at (Reading (hear data false r) p since) c)); [| done | done].
      apply client_ok_at; rewrite ?Ea; try done. repeat split; try done. by apply Forall_app_2.
    + injection H as <-. split; [| done]. apply client_ok_at; rewrite ?Ea; try done. destruct Ha as (Hb & Hs & Hf). repeat split; try done. by apply Forall_app_2.
  - destruct (at_ c) as [| r p since | r s f fs | |] eqn:Ea; try done; destruct (reof r); try done.
    + destruct Ha as (Hb & Hp & Hpb). apply (proceed_ok now d (set_at (Reading (hear [] true r) p since) c)); [| done | done].
      apply client_ok_at; rewrite ?Ea; try done. repeat split; try done. apply Forall_app_2; [done | constructor].
    + injection H as <-. split; [| done]. apply client_ok_at; rewrite ?Ea; try done. destruct Ha as (Hb & Hs & Hf). repeat split; try done.
      apply Forall_app_2; [done | constructor].
  - destruct (at_ c) as [| r p since | | |] eqn:Ea; try done. destruct p; destruct (_ <=? _); try done; by eapply failed_leads.
  - destruct (at_ c) as [| | r s f fs | |] eqn:Ea; try done. destruct Ha as (Hb & Hs & Hfs).
    set (c1 := set_at (Reading r (next_read s) now) (set_status (add_injected now (status c)) c)).
    assert (Hc1 : client_ok c1).
    { destruct (next_read_ok s) as (N1 & N2 & N3). destruct Hc as [H1 H2 H3 [H4 H4'] H5 H6 H7 H8]. rewrite Ea in H4', H5.
      constructor; cbn [c1 set_at set_status backoff v2 v1_retry injected status at_ in_stream injecting add_injected frames_injected connected since_mono] in *; try done.
      - lia.
      - by rewrite N2, H5.
      - repeat split; try done. by apply N3. }
    rewrite <- (inject_at now r s fs _ (Reading r (next_read s) now)) in H. fold c1 in H.
    assert (Hi : client_ok (inject now r s fs c1)).
    { apply inject_ok; try done. destruct (next_read_ok s) as (_ & N2 & _). cbn. by rewrite N2. }
    destruct (inject_keeps now r s fs c1) as [Hk Hat]. destruct Hk as [_ _ Er Ev].
    assert (Hse : session_at (inject now r s fs c1)) by (unfold session_at; revert Hat; by destruct (at_ (inject now r s fs c1))).
    destruct (proceed_ok now d _ _ Hi Hse H) as (R1 & R2 & R3). split; [done |]. split; [done |].
    unfold leads in *. rewrite Er, Ev in R3. exact R3.
  - destruct (at_ c) eqn:Ea; try done. destruct (raised e); [| done]. by eapply failed_leads.
Qed.

Lemma step_ok c e c' : client_ok c -> waiting c -> event_ok e -> step force_v1 c e = Some c' -> client_ok c' /\ waiting c'.
Proof.
  intros Hc Hw He H. pose proof (session_step c e c' Hc Hw He H) as Hs.
  destruct e as [| | | | | | | | now]; try (destruct Hs as (? & ? & _); done); cbn [step] in H.
  - destruct (at_ c) eqn:Ea; try done. injection H as <-. split; [| done]. apply attempt_ok; [done |]. by rewrite (ok_connected c Hc), Ea.
  - assert (Hf : c' = finish now c) by (destruct (at_ c); congruence). subst c'. split; [| done].
    destruct Hc as [H1 H2 H3 [H4 H4'] H5 H6 H7 H8]. destruct (set_connected_since false now (status c) H6) as [E1 E2].
    constructor; cbn [finish publish set_at set_status backoff v2 v1_retry injected status at_ in_stream injecting set_retry frames_injected connected since_mono];
      rewrite ?connected_frames; try done; [destruct (at_ c); cbn [injecting] in H4'; lia | by rewrite E1].
Qed.

Lemma new_ok : client_ok (new_client force_v1) /\ waiting (new_client force_v1).
Proof.
  split; [| done]. constructor; cbn; done || by split; intros [? ?].
Qed.

Lemma run_ok evs : forall c c', client_ok c -> waiting c -> Forall event_ok evs -> run force_v1 c evs = Some c' -> client_ok c' /\ waiting c'.
Proof.
  induction evs as [| e evs IH]; intros c c' Hc Hw He; cbn [run]; [by intros [= <-] |].
  apply Forall_cons_1 in He as [He Hes]. destruct (step force_v1 c e) as [c1|] eqn:E; [| done]. cbn [mbind option_bind].
  destruct (step_ok _ _ _ Hc Hw He E). by apply IH.
Qed.

(** [frames_injected] is touched nowhere but where the driver took a frame. *)
Definition taken (evs : list Event) : Z := len (List.filter (fun e => match e with Injected _ _ => true | _ => false end) evs).

Lemma inject_count now r s fs c : frames_injected (status (inject now r s fs c)) = frames_injected (status c).
Proof. destruct fs; [|done]. cbn [inject]. unfold turn_end. by destruct (_ <=? _). Qed.

Lemma got_data_count now r s data c c' : got_data now r s data c = inl c' -> frames_injected (status c') = frames_injected (status c).
Proof.
  unfold got_data. destruct data as [|x data]; [done|]. destruct (framer_feed _ _) as [f frames].
  intros [= <-]. by rewrite inject_count.
Qed.

Lemma start_stream_count now st h r c c' : start_stream now st h r c = inl c' -> frames_injected (status c') = frames_injected (status c).
Proof.
  unfold start_stream. destruct (classify st h) as [[ch v]|a]; [|done]. intros [= <-]. cbn [status].
  by rewrite connected_frames.
Qed.

Lemma phase_next_count now since p data r c c' : phase_next now since p data r c = inl c' ->
  frames_injected (status c') = frames_injected (status c).
Proof.
  unfold phase_next. intros H.
  repeat (case_match; try done); try (by injection H as <-); eauto using got_data_count, start_stream_count.
Qed.

Lemma read_on_count fuel : forall now c, match read_on fuel now c with inl c' | inr (_, c') =>
  frames_injected (status c') = frames_injected (status c) end.
Proof.
  induction fuel as [|fuel IH]; intros now c; cbn [read_on]; [done|].
  destruct (at_ c) as [|r p since| | |]; try done. destruct (phase_read p r) as [|data r'|e]; [done| |done].
  destruct (phase_next now since p data r' c) as [c1|e] eqn:E; [|done]. apply phase_next_count in E. rewrite <- E. apply IH.
Qed.

Lemma failed_count now d e c c' : failed force_v1 now d e c = Some c' -> frames_injected (status c') = frames_injected (status c).
Proof.
  unfold failed. intros H. destruct e; repeat (case_match; try done);
    repeat match type of H with (_ ≫= _) = _ => destruct (jittered _ _) as [[]|]; [cbn in H|done] end;
    injection H as <-; cbn; by rewrite ?connected_frames.
Qed.

Lemma proceed_count now d c c' : proceed force_v1 now d c = Some c' -> frames_injected (status c') = frames_injected (status c).
Proof.
  unfold proceed. set (fuel := match at_ c with Reading r _ _ => _ | _ => _ end).
  pose proof (read_on_count fuel now c) as H. destruct (read_on fuel now c) as [c1|[e c1]]; [by intros [= <-]|].
  intros ->%failed_count. done.
Qed.

Lemma step_taken c e c' : step force_v1 c e = Some c' -> frames_injected (status c') = frames_injected (status c) + taken [e].
Proof.
  intros H. unfold taken. destruct e; cbn [step] in H; destruct (at_ c); try done; cbn [List.filter length];
    repeat (case_match; try done); try (injection H as <-);
    try (apply proceed_count in H); try (apply failed_count in H); rewrite ?H, ?inject_count; cbn; rewrite ?connected_frames; lia.
Qed.

Lemma run_count evs : forall c c', run force_v1 c evs = Some c' -> frames_injected (status c') = frames_injected (status c) + taken evs.
Proof.
  induction evs as [|e evs IH]; intros c c'; cbn [run]; [intros [= <-]; unfold taken; cbn; lia|].
  destruct (step force_v1 c e) as [c1|] eqn:E; [|done]. cbn [mbind option_bind]. intros H.
  apply IH in H. apply step_taken in E. rewrite H, E. unfold taken. cbn [List.filter].
  destruct e; cbn [length]; lia.
Qed.

(** Connections tried, and pauses kept. *)
Definition tries (evs : list Event) : nat :=
  length (List.filter (fun e => match e with Connected _ | ConnectFailed _ _ _ => true | _ => false end) evs).
Definition pauses (evs : list Event) : nat := length (List.filter (fun e => match e with Resumed => true | _ => false end) evs).

(** What the client may still try before its next pause. *)
Definition allowance (c : NtripClient) : nat :=
  match at_ c with
  | Connecting => if v1_retry c then 1 else 2
  | Reading _ _ _ | Injecting _ _ _ _ => if v1_retry c then 0 else 1
  | Pausing | Finished => 0
  end%nat.

Lemma run_tries evs : forall c c', client_ok c -> waiting c -> Forall event_ok evs -> (at_ c = Pausing -> v1_retry c = false) ->
  run force_v1 c evs = Some c' -> (tries evs + allowance c' <= allowance c + 2 * pauses evs)%nat.
Proof.
  induction evs as [| e evs IH]; intros c c' Hc Hw He Hp; cbn [run]; [intros [= <-]; cbn; lia |].
  apply Forall_cons_1 in He as [He Hes]. destruct (step force_v1 c e) as [c1|] eqn:E; [| done]. cbn [mbind option_bind]. intros Hr.
  destruct (step_ok _ _ _ Hc Hw He E) as [Hc1 Hw1]. pose proof (session_step _ _ _ Hc Hw He E) as Hs.
  assert (Hstep : (tries [e] + allowance c1 <= allowance c + 2 * pauses [e])%nat /\ (at_ c1 = Pausing -> v1_retry c1 = false)).
  { pose proof (ok_v2 c Hc) as Hv. unfold leads, allowance in *.
    destruct e; cbn [step] in E; destruct (at_ c) eqn:Ea; try done; cbn in *.
    all: try (injection E as <-; cbn; rewrite ?Hp by done; split; [lia | done]).
    all: destruct Hs as (_ & _ & Hl); destruct (at_ c1) eqn:Ea1; try done.
    all: try (destruct Hl as [Hl1 Hl2]; rewrite ?Hl1, ?(Hv Hl1), ?Hl2; split; [by destruct (v1_retry c); lia | done]).
    all: split; [by destruct (v1_retry c); lia | done]. }
  destruct Hstep as [Hstep Hp1]. specialize (IH c1 c' Hc1 Hw1 Hes Hp1 Hr).
  unfold tries, pauses in *. cbn [List.filter] in *. destruct e; cbn [length] in *; lia.
Qed.
End Supervisor.

(** C21.  Whatever the caster sends, however it is cut, whatever the driver and the network do: only
    whole RTCM3 frames with a correct checksum are given to the driver, [frames_injected] counts exactly
    those it took - [inject_rtcm] returned - which are no more than those it was given and is done
    with, the status says connected exactly while a stream runs, a pause lasts
    between 0.8 and 72 seconds, and a session that waits has used all the bytes it could. *)
Theorem client_books force_v1 evs c :
  run force_v1 (new_client force_v1) evs = Some c -> Forall event_ok evs ->
  Forall rtcm_raw (injected c)
  /\ frames_injected (status c) = taken evs /\ taken evs <= len (injected c) - injecting (at_ c)
  /\ connected (status c) = in_stream (at_ c)
  /\ (is_Some (since_mono (status c)) <-> connected (status c) = true)
  /\ (at_ c = Pausing -> exists d, next_retry (status c) = Some d /\ 800000 <= d <= 72000000)
  /\ waiting c.
Proof.
  intros Hr He. destruct (new_ok force_v1) as [H1 H2]. destruct (run_ok force_v1 evs _ _ H1 H2 He Hr) as [[] Hw].
  pose proof (run_count force_v1 evs _ _ Hr) as Hn. cbn [new_client attempt status new_status frames_injected] in Hn.
  split_and!; try done; lia.
Qed.

(** The client never hammers a caster: between two of its pauses it connects at most twice (the
    second time as version 1 after a refusal of version 2), whatever happens to the connections; and
    its backoff stays between 1 and 60 seconds. *)
Theorem retries_paced force_v1 evs c :
  run force_v1 (new_client force_v1) evs = Some c -> Forall event_ok evs ->
  (tries evs <= 2 * (1 + pauses evs))%nat /\ BACKOFF_MIN <= backoff c <= BACKOFF_MAX
  /\ (v2 c = true -> v1_retry c = false).
Proof.
  intros Hr He. destruct (new_ok force_v1) as [H1 H2]. destruct (run_ok force_v1 evs _ _ H1 H2 He Hr) as [[] Hw].
  pose proof (run_tries force_v1 evs _ _ H1 H2 He ltac:(done) Hr) as Ht. cbn [allowance new_client attempt at_ v1_retry] in Ht.
  split_and!; try done; lia.
Qed.

(** ** Witnesses *)

(** A refused version 2, the stream as version 1, a frame without payload in two pieces, a silence. *)
Definition test_events : list Event :=
  [Connected 0; Arrived 1 0 (str "HTTP/1.1 500 Oops" ++ [13; 10; 13; 10]);
   Connected 2; Arrived 3 0 (str "ICY 200 OK" ++ [13; 10; 13; 10; 0xD3; 0; 0]); Arrived 4 0 [0x47; 0xEA; 0x4B]; Injected 5 0;
   TimedOut 20000000 1000000; Resumed].

Lemma test_events_ok : Forall event_ok test_events.
Proof. repeat constructor; by vm_compute. Qed.

Lemma client_books_witness :
  match run false (new_client false) test_events with
  | Some c => injected c = [[0xD3; 0; 0; 0x47; 0xEA; 0x4B]] /\ frames_injected (status c) = taken test_events
  | None => False
  end.
Proof.
  destruct (run false (new_client false) test_events) as [c|] eqn:E; [| vm_compute in E; discriminate].
  split; [| apply (client_books false test_events c E test_events_ok)].
  pose proof (f_equal (fmap injected) E) as E'. vm_compute in E'. injection E' as E'. exact (eq_sym E').
Defined.

Lemma retries_paced_witness :
  match run false (new_client false) test_events with
  | Some c => sticky_v1 c = true /\ tries test_events = 2%nat /\ (tries test_events <= 2 * (1 + pauses test_events))%nat
  | None => False
  end.
Proof.
  destruct (run false (new_client false) test_events) as [c|] eqn:E; [| vm_compute in E; discriminate].
  split; [| split; [reflexivity | apply (retries_paced false test_events c E test_events_ok)]].
  pose proof (f_equal (fmap sticky_v1) E) as E'. vm_compute in E'. injection E' as E'. exact (eq_sym E').
Defined.
