(* ===== verification/NtripHandshake.v ===== *)
(** * The handshake: a client's request in the hands of the caster

    [NtripClient.request] is what [NtripClient._request] writes, [NtripCaster.handle_conn] what the
    caster does with a request head: the one is admitted by the other exactly when the mountpoint
    and the credentials are the same and there is room. *)

From Stdlib Require Import String.
From stdpp Require Import gmap.
From S2P Require Import Prelude.
From S2P Require Import PyBytes.
From S2P Require Import PyText.
From S2P Require Import PyCodecs.
From S2P Require Import NtripCaster.
From S2P Require NtripClient.

(** ** Text *)

Lemma utf8_ascii s : Forall (fun c => 0 <= c < 128) s -> utf8_encode s = s.
Proof.
  induction 1 as [| c s Hc _ IH]; [done |]. cbn [utf8_encode flat_map]. unfold utf8_encode in IH. rewrite IH.
  unfold utf8_char. by rewrite (proj2 (Z.ltb_lt c 0x80)) by lia.
Qed.

Lemma drop_while_head p c s : p c = false -> drop_while p (c :: s) = c :: s.
Proof. intros H. cbn. by rewrite H. Qed.

(** Text that neither starts nor ends with white space. *)
Definition trimmed (s : bytes) : Prop := match s, rev s with c :: _, d :: _ => is_space c = false /\ is_space d = false | _, _ => True end.

Lemma strip_trimmed s : trimmed s -> strip s = s.
Proof.
  unfold trimmed, strip, rstrip. destruct s as [| c s]; [done |]. destruct (rev (c :: s)) as [| d r] eqn:E.
  - apply (f_equal length) in E. rewrite length_rev in E. done.
  - intros [Hc Hd]. rewrite (drop_while_head _ _ _ Hc), E, (drop_while_head _ _ _ Hd), <- E. apply rev_involutive.
Qed.

Lemma strip_space s : trimmed s -> strip (32 :: s) = s.
Proof. intros H. rewrite <- (strip_trimmed s H) at 2. unfold strip. cbn [drop_while]. by change (is_space 32) with true. Qed.

(** ** Lines *)

Definition clear_line (l : bytes) : Prop := Forall (fun c => c <> 13) l.

Lemma split_lines ls : Forall clear_line ls -> forall fuel, (length ls <= fuel)%nat ->
  split_fuel fuel crlf (concat (map line ls)) = ls ++ [[]].
Proof.
  induction 1 as [| l ls Hl _ IH]; intros fuel Hf; [by destruct fuel |].
  destruct fuel as [| fuel]; [cbn in Hf; lia |]. cbn [map concat app].
  replace (line l ++ concat (map line ls)) with (l ++ crlf ++ concat (map line ls)) by (unfold line; by rewrite <- app_assoc).
  cbn [split_fuel]. rewrite bfind_crlf by done. rewrite take_app_length, <- drop_drop, drop_app_length.
  f_equal. apply (IH fuel). cbn in Hf. lia.
Qed.

Lemma bfind_one c l x : Forall (fun d => d <> c) l -> bfind [c] (l ++ c :: x) = Some (length l).
Proof.
  induction l as [| d l IH]; intros H; [cbn; rewrite Z.eqb_refl; by destruct x |]. inversion H; subst.
  cbn [app bfind startswith length]. rewrite (proj2 (Z.eqb_neq c d)) by congruence. cbn [andb]. by rewrite IH.
Qed.
Lemma bfind_absent c l : Forall (fun d => d <> c) l -> bfind [c] l = None.
Proof.
  induction l as [| d l IH]; intros H; [done |]. inversion H; subst.
  cbn [bfind startswith]. rewrite (proj2 (Z.eqb_neq c d)) by congruence. cbn [andb]. by rewrite IH.
Qed.

Lemma split_three a b c : Forall (fun x => x <> 32) a -> Forall (fun x => x <> 32) b -> Forall (fun x => x <> 32) c ->
  split_on [32] (a ++ 32 :: b ++ 32 :: c) = [a; b; c].
Proof.
  intros Ha Hb Hc. unfold split_on. rewrite length_app. cbn [length]. rewrite length_app. cbn [length].
  replace (length a + S (length b + S (length c)))%nat with (S (S (length a + length b + length c))) by lia.
  cbn [split_fuel]. rewrite bfind_one by done. rewrite take_app_length. cbn [length]. rewrite Nat.add_1_r.
  replace (drop (S (length a)) (a ++ 32 :: b ++ 32 :: c)) with (b ++ 32 :: c).
  2:{ rewrite <- Nat.add_1_r, <- drop_drop, drop_app_length. done. }
  rewrite bfind_one by done. rewrite take_app_length, Nat.add_1_r.
  replace (drop (S (length b)) (b ++ 32 :: c)) with c.
  2:{ rewrite <- Nat.add_1_r, <- drop_drop, drop_app_length. done. }
  f_equal. f_equal. destruct (length a + length b + length c)%nat; cbn [split_fuel]; [done |]. by rewrite bfind_absent.
Qed.

(** A header line of a name in lower case but for its letters' case. *)
Lemma add_header_line h key value : Forall (fun c => c <> 58) key -> trimmed key -> trimmed value ->
  add_header h (key ++ 58 :: 32 :: value) = <[lower key := value]> h.
Proof. intros Hc Hk Hv. unfold add_header. rewrite cut_app by done. by rewrite strip_trimmed, strip_space. Qed.

(** ** The request *)

(** A configuration as a user writes one: no control characters where the protocol has text, a
    mountpoint that is one path segment. *)
Record plain_config (c : NtripClient.NtripClientConfig) : Prop := {
  plain_host : Forall (fun x => 32 < x < 127) (NtripClient.host c) /\ NtripClient.host c <> [];
  plain_port : 0 <= NtripClient.port c;
  plain_mount : Forall (fun x => 32 < x < 127 /\ x <> 63 /\ x <> 47) (NtripClient.mountpoint c) /\ NtripClient.mountpoint c <> [];
  plain_user : forall u, NtripClient.username c = Some u -> Forall scalar u /\ Forall (fun x => x <> 58) u;
  plain_password : Forall scalar (default [] (NtripClient.password c))
}.

Definition secret (c : NtripClient.NtripClientConfig) (u : bytes) : bytes :=
  b64encode (utf8_encode (u ++ [58] ++ default [] (NtripClient.password c))).
Definition host_text (c : NtripClient.NtripClientConfig) : bytes :=
  (if mem_byte 58 (NtripClient.host c) then [91] ++ NtripClient.host c ++ [93] else NtripClient.host c) ++ [58] ++ str_int (NtripClient.port c).

Definition request_line (c : NtripClient.NtripClientConfig) (v2 : bool) : bytes :=
  str "GET" ++ 32 :: ([47] ++ NtripClient.mountpoint c) ++ 32 :: (str "HTTP/1." ++ (if v2 then str "1" else str "0")).
Definition header_lines (c : NtripClient.NtripClientConfig) (v2 : bool) : list bytes :=
  [str "Host" ++ 58 :: 32 :: host_text c; str "User-Agent" ++ 58 :: 32 :: str "NTRIP mtrtk/0.1.0"]
  ++ (if v2 then [str "Ntrip-Version" ++ 58 :: 32 :: str "Ntrip/2.0"; str "Connection" ++ 58 :: 32 :: str "close"] else [])
  ++ (match NtripClient.username c with Some u => [str "Authorization" ++ 58 :: 32 :: str "Basic " ++ secret c u] | None => [] end).

Lemma request_lines c v2 :
  NtripClient.request c v2 = utf8_encode (concat (map line (request_line c v2 :: header_lines c v2 ++ [[]]))).
Proof.
  unfold NtripClient.request, request_line, header_lines, host_text, secret. f_equal.
  destruct v2, (NtripClient.username c); cbn [app map concat]; unfold line, crlf; rewrite <- ?app_assoc; cbn [app]; rewrite ?app_nil_r, <- ?app_assoc; reflexivity.
Qed.

(** *** Its characters *)

Lemma plain_ascii s : Forall (fun x => 32 < x < 127) s -> Forall (fun c => 0 <= c < 128) s /\ clear_line s /\ Forall (fun c => c <> 32) s.
Proof. intros H. split_and!; [| unfold clear_line |]; (eapply list.Forall_impl; [exact H |]); cbn; intros x Hx; lia. Qed.

Lemma base64_char_plain v : 0 <= v < 64 -> 32 < base64_char v < 127.
Proof.
  intros Hv. assert (H : forall i, (i < 64)%nat -> (fun i => (32 <? base64_char (Z.of_nat i)) && (base64_char (Z.of_nat i) <? 127)) i = true)
    by (apply below_forallb; vm_compute; reflexivity).
  specialize (H (Z.to_nat v) ltac:(lia)). cbv beta in H. rewrite Z2Nat.id in H by lia. apply andb_true_iff in H as [H1 H2]. zbool. lia.
Qed.

Lemma str_int_plain n : 0 <= n -> Forall (fun x => 32 < x < 127) (str_int n).
Proof.
  intros Hn. unfold str_int. rewrite (proj2 (Z.ltb_ge n 0)) by lia. apply min_digits_chars; [by left | done |].
  intros d Hd. pose proof (digit_char_ascii d ltac:(lia)). lia.
Qed.

Section Request.
Context (c : NtripClient.NtripClientConfig) (Hc : plain_config c).

Lemma secret_bytes u : NtripClient.username c = Some u -> bytes_ok (utf8_encode (u ++ [58] ++ default [] (NtripClient.password c))).
Proof using Hc.
  intros Hu. destruct (plain_user c Hc u Hu) as [Hs _]. apply bytes_ok_utf8. apply Forall_app_2; [done |].
  constructor; [unfold scalar; lia | exact (plain_password c Hc)].
Qed.

Lemma secret_plain u : NtripClient.username c = Some u -> Forall (fun x => 32 < x < 127) (secret c u).
Proof using Hc. intros Hu. apply b64encode_chars; [apply base64_char_plain | lia | by apply secret_bytes]. Qed.

Lemma host_plain : Forall (fun x => 32 < x < 127) (host_text c).
Proof using Hc.
  pose proof (proj1 (plain_host c Hc)) as Hh. pose proof (str_int_plain _ (plain_port c Hc)) as Hp. unfold host_text.
  apply Forall_app_2; [destruct (mem_byte _ _); [repeat (apply Forall_app_2; [| try done]); try done; repeat constructor; lia | done] |].
  apply Forall_app_2; [repeat constructor; lia | done].
Qed.

Lemma mount_plain : Forall (fun x => 32 < x < 127) (NtripClient.mountpoint c).
Proof using Hc. eapply list.Forall_impl; [exact (proj1 (plain_mount c Hc)) |]. cbn. intros x Hx. lia. Qed.

(** Text of this shape: what the protocol needs of every line. *)
Definition line_text (l : bytes) : Prop := Forall (fun x => 32 <= x < 127) l.
Lemma line_text_plain s : Forall (fun x => 32 < x < 127) s -> line_text s.
Proof using Type. intros H. eapply list.Forall_impl; [exact H |]. cbn. intros x Hx. lia. Qed.

Lemma lines_text v2 : Forall line_text (request_line c v2 :: header_lines c v2 ++ [[]]).
Proof using Hc.
  pose proof (line_text_plain _ host_plain) as Hh. pose proof (line_text_plain _ mount_plain) as Hm.
  assert (Hs : forall s, forallb (fun x => (32 <=? x) && (x <? 127)) s = true -> line_text s).
  { intros s H. rewrite forallb_forall in H. apply list.Forall_forall. intros x Hx. apply list_elem_of_In in Hx. specialize (H x Hx).
    apply andb_true_iff in H as [H1 H2]. zbool. lia. }
  constructor; [| unfold header_lines; repeat apply Forall_app_2; [constructor; [| constructor; [| constructor]] | | | by repeat constructor]].
  - unfold request_line. apply Forall_app_2; [by apply Hs |]. constructor; [lia |]. apply Forall_app_2; [apply Forall_app_2; [by apply Hs | done] |].
    constructor; [lia |]. by destruct v2; apply Hs.
  - apply Forall_app_2; [by apply Hs |]. constructor; [lia |]. constructor; [lia | done].
  - by apply Hs.
  - destruct v2; [| constructor]. constructor; [by apply Hs |]. constructor; [by apply Hs | constructor].
  - destruct (NtripClient.username c) as [u|] eqn:Eu; [| constructor]. constructor; [| constructor].
    apply Forall_app_2; [by apply Hs |]. constructor; [lia |]. constructor; [lia |]. apply Forall_app_2; [by apply Hs |].
    by apply line_text_plain, secret_plain.
Qed.

Lemma request_split v2 : split_on crlf (NtripClient.request c v2) = (request_line c v2 :: header_lines c v2 ++ [[]]) ++ [[]].
Proof using Hc.
  pose proof (lines_text v2) as Ht. rewrite request_lines. set (ls := _ :: _) in *.
  rewrite utf8_ascii.
  - unfold split_on. apply split_lines; [eapply list.Forall_impl; [exact Ht |]; intros l Hl; eapply list.Forall_impl; [exact Hl |]; cbn; intros x Hx; lia |].
    clear. induction ls as [| l ls IH]; [done |]. cbn [map concat length]. unfold line at 1. rewrite !length_app. cbn [length crlf]. lia.
  - clear - Ht. induction Ht as [| l ls Hl _ IH]; [constructor |]. cbn [map concat]. apply Forall_app_2; [| done]. unfold line.
    apply Forall_app_2; [eapply list.Forall_impl; [exact Hl |]; cbn; intros x Hx; lia | repeat constructor; lia].
Qed.

(** *** What the caster reads in it *)

Definition auth_value : option bytes := (fun u => str "Basic " ++ secret c u) <$> NtripClient.username c.

Lemma trimmed_plain s : Forall (fun x => 32 < x < 127) s -> trimmed s.
Proof using Type.
  intros H. assert (Hs : forall x, 32 < x < 127 -> is_space x = false).
  { intros x Hx. assert (Ht : forall i, (i < 94)%nat -> (fun i => negb (is_space (33 + Z.of_nat i))) i = true) by (apply below_forallb; vm_compute; reflexivity).
    specialize (Ht (Z.to_nat (x - 33)) ltac:(lia)). cbv beta in Ht. replace (33 + Z.of_nat (Z.to_nat (x - 33))) with x in Ht by lia. by apply negb_true_iff. }
  unfold trimmed. destruct s as [| a s]; [done |]. destruct (rev (a :: s)) as [| d r] eqn:E; [done |].
  assert (Hd : Forall (fun x => 32 < x < 127) (d :: r)) by (rewrite <- E; by apply Forall_rev).
  inversion H; inversion Hd; subst. split; by apply Hs.
Qed.

Lemma trimmed_intro x s d r : is_space x = false -> rev (x :: s) = d :: r -> is_space d = false -> trimmed (x :: s).
Proof using Type. intros Hx E Hd. unfold trimmed. by rewrite E. Qed.

Lemma trimmed_secret u : NtripClient.username c = Some u -> trimmed (str "Basic " ++ secret c u).
Proof using Hc.
  intros Hu. pose proof (secret_plain u Hu) as Hp. assert (Hne : secret c u <> []).
  { unfold secret. destruct (utf8_encode _) as [| x b] eqn:E; [| by destruct b as [| y [| z b]]].
    rewrite utf8_encode_app in E. apply app_eq_nil in E as [_ E]. done. }
  assert (Er : rev (str "Basic " ++ secret c u) = rev (secret c u) ++ rev (str "Basic ")) by apply rev_app_distr.
  destruct (rev (secret c u)) as [| d r] eqn:E; [apply (f_equal length) in E; rewrite length_rev in E; by destruct (secret c u) |].
  apply (trimmed_intro 66 (str "asic " ++ secret c u) d (r ++ rev (str "Basic "))); [done | exact Er |].
  assert (Hr : Forall (fun x => 32 < x < 127) (rev (secret c u))) by (by apply Forall_rev). rewrite E in Hr. inversion Hr; subst.
  assert (Hd : trimmed [d]) by (apply trimmed_plain; constructor; [done | constructor]). by destruct Hd.
Qed.

(** The headers the caster makes of it. *)
Definition header_map (v2 : bool) : gmap bytes bytes :=
  let h := <[str "user-agent" := str "NTRIP mtrtk/0.1.0"]> (<[str "host" := host_text c]> ∅) in
  let h := if v2 then <[str "connection" := str "close"]> (<[str "ntrip-version" := str "Ntrip/2.0"]> h) else h in
  match NtripClient.username c with Some u => <[str "authorization" := str "Basic " ++ secret c u]> h | None => h end.

Lemma headers_read v2 : foldl add_header ∅ ((header_lines c v2 ++ [[]]) ++ [[]]) = header_map v2.
Proof using Hc.
  assert (Hkey : forall k, forallb (fun x => (58 <? x) && (x <? 127) || (x =? 45)) k = true -> Forall (fun x => x <> 58) k /\ trimmed k).
  { intros k H. rewrite forallb_forall in H.
    assert (Hk : Forall (fun x => 58 < x < 127 \/ x = 45) k).
    { apply list.Forall_forall. intros x Hx. apply list_elem_of_In in Hx. specialize (H x Hx). apply orb_true_iff in H as [H|H]; [apply andb_true_iff in H as [H1 H2] |]; zbool; lia. }
    split; [eapply list.Forall_impl; [exact Hk |]; cbn; intros; lia |]. apply trimmed_plain. eapply list.Forall_impl; [exact Hk |]. cbn. intros. lia. }
  rewrite !foldl_app. cbn [foldl]. change (forall h, add_header h [] = h) with (forall h, add_header h [] = h).
  assert (Hnil : forall h, add_header h [] = h) by done. rewrite !Hnil. unfold header_lines. rewrite !foldl_app. cbn [foldl].
  assert (Hadd : forall h k v, forallb (fun x => (58 <? x) && (x <? 127) || (x =? 45)) k = true -> trimmed v -> add_header h (k ++ 58 :: 32 :: v) = <[lower k := v]> h).
  { intros h k v Hk Hv. destruct (Hkey k Hk). by apply add_header_line. }
  rewrite (Hadd _ (str "Host")), (Hadd _ (str "User-Agent")) by (done || by apply trimmed_plain, host_plain).
  unfold header_map. change (lower (str "Host")) with (str "host"). change (lower (str "User-Agent")) with (str "user-agent").
  set (h0 := <[str "user-agent" := _]> _).
  assert (Hv : foldl add_header h0 (if v2 then [str "Ntrip-Version" ++ 58 :: 32 :: str "Ntrip/2.0"; str "Connection" ++ 58 :: 32 :: str "close"] else [])
               = if v2 then <[str "connection" := str "close"]> (<[str "ntrip-version" := str "Ntrip/2.0"]> h0) else h0).
  { destruct v2; [| done]. cbn [foldl]. rewrite (Hadd _ (str "Ntrip-Version")), (Hadd _ (str "Connection")) by done. done. }
  rewrite Hv. destruct (NtripClient.username c) as [u|] eqn:Eu; [| done]. cbn [foldl].
  rewrite (Hadd _ (str "Authorization")); [done | done | by apply trimmed_secret].
Qed.

Lemma request_parsed v2 :
  let r := parse_request (NtripClient.request c v2) in
  method r = str "GET" /\ mount_from_target (path r) = NtripClient.mountpoint c /\ NtripCaster.v2 r = v2
  /\ header (str "authorization") (headers r) = default [] auth_value.
Proof using Hc.
  cbv zeta. unfold parse_request. rewrite request_split. cbn [nth drop app].
  assert (Hparts : split_on [32] (request_line c v2) = [str "GET"; [47] ++ NtripClient.mountpoint c; str "HTTP/1." ++ (if v2 then str "1" else str "0")]).
  { unfold request_line. apply split_three.
    - by vm_compute; repeat constructor; discriminate.
    - constructor; [done |]. by apply plain_ascii, mount_plain.
    - destruct v2; vm_compute; repeat constructor; discriminate. }
  rewrite Hparts, drop_0, headers_read. cbn [nth method path NtripCaster.v2 headers].
  split; [reflexivity |]. split; [| split].
  - destruct (plain_mount c Hc) as [Hm Hne]. unfold mount_from_target. cbn [app]. change (strip_absolute (47 :: NtripClient.mountpoint c)) with (47 :: NtripClient.mountpoint c).
    cbn [lstrip_of mem_byte existsb Z.eqb Pos.eqb orb].
    assert (Hl : lstrip_of [47] (NtripClient.mountpoint c) = NtripClient.mountpoint c).
    { destruct Hm as [| x m (_ & _ & H47) _]; [done |]. apply lstrip_of_no. unfold mem_byte. cbn. by rewrite (proj2 (Z.eqb_neq x 47) H47). }
    rewrite Hl. clear Hl Hne. revert Hm. generalize (NtripClient.mountpoint c) as m0. intros m0 Hm. induction Hm as [| x m (Hx & H63 & _) _ IH]; [done |]. cbn [take_while]. rewrite (proj2 (Z.eqb_neq x 63) H63). cbn [negb]. by rewrite IH.
  - unfold header, header_map. destruct (NtripClient.username c), v2; rewrite ?lookup_insert_ne by done; rewrite ?lookup_insert_eq, ?lookup_empty; reflexivity.
  - unfold header, header_map, auth_value. destruct (NtripClient.username c), v2; rewrite ?lookup_insert_ne by done; rewrite ?lookup_insert_eq, ?lookup_empty; reflexivity.
Qed.
End Request.

(** C8.  The handshake. For a client whose host and mountpoint are non-empty printable ASCII without
    spaces, the mountpoint without [?] and [/], whose port is not negative, whose user name has no
    colon and neither name nor password a lone surrogate ([plain_config]), and whose request is at most 8192 bytes long, and a caster whose user name has no
    colon (nor it or the password a lone surrogate), the caster opens a stream for the request of the client, in the version it asks for,
    exactly when the mountpoint is the caster's, there is room below its cap and, unless it
    is anonymous, user and password are its own. *)
Theorem handshake config max_clients position bitrate c v2 n :
  plain_config c -> Forall scalar (username config) -> Forall scalar (password config) ->
  Forall (fun x => x <> 58) (username config) -> len (NtripClient.request c v2) <= HEADER_LIMIT ->
  (exists req mount user, handle_conn config max_clients position bitrate n (Some (NtripClient.request c v2)) = Serve req mount user /\ NtripCaster.v2 req = v2)
  <-> NtripClient.mountpoint c = mountpoint config /\ n < max_clients
      /\ (password config = []
          \/ exists u, NtripClient.username c = Some u /\ utf8_encode u = utf8_encode (username config)
                       /\ utf8_encode (default [] (NtripClient.password c)) = utf8_encode (password config)).
Proof.
  intros Hc Hu Hp Hcol Hlen. destruct (request_parsed c Hc v2) as (Hm & Hmt & Hv & Ha).
  assert (Hauth : (exists user, authorized config (parse_request (NtripClient.request c v2)) = (true, user))
                  <-> (password config = []
                       \/ exists u, NtripClient.username c = Some u /\ utf8_encode u = utf8_encode (username config)
                                    /\ utf8_encode (default [] (NtripClient.password c)) = utf8_encode (password config))).
  { destruct (decide (password config = [])) as [Hn|Hn].
    - split; [by left |]. intros _. unfold authorized, anonymous. rewrite bool_decide_eq_true_2 by done. by eexists.
    - destruct (NtripClient.username c) as [u|] eqn:Eu.
      + destruct (plain_user c Hc u Eu) as [Hsu Hcu].
        assert (Hh : header (str "authorization") (headers (parse_request (NtripClient.request c v2)))
                     = str "Basic " ++ b64encode (utf8_encode u ++ 58 :: utf8_encode (default [] (NtripClient.password c)))).
        { rewrite Ha. unfold auth_value. rewrite Eu. cbn [fmap option_fmap option_map default]. unfold secret. by rewrite !utf8_encode_app. }
        rewrite (authorized_basic config _ u (default [] (NtripClient.password c)) Hn Hsu (plain_password c Hc) Hcu Hh). split.
        * intros [user [= Hb _]]. right. exists u. apply andb_true_iff in Hb as [H1 H2]. apply bool_decide_eq_true in H1, H2. done.
        * intros [|(u' & [= <-] & H1 & H2)]; [done |]. rewrite !bool_decide_eq_true_2 by done. by eexists.
      + split; [| intros [|(u & ? & _)]; done]. intros [user Hb]. exfalso. revert Hb. unfold authorized, anonymous. rewrite bool_decide_eq_false_2 by done.
        rewrite Ha. unfold auth_value. rewrite Eu. done. }
  rewrite <- Hauth. split.
  - intros (req & mount & user & Hs & _). apply handle_conn_serves in Hs as (h & [= <-] & _ & -> & _ & -> & Hc1 & _ & Hs & Hn).
    rewrite Hmt in Hc1. split; [done |]. split; [done |]. by exists user.
  - intros (Hc1 & Hn & user & Hs). exists (parse_request (NtripClient.request c v2)), (NtripClient.mountpoint c), user. split; [| done].
    apply handle_conn_serves. exists (NtripClient.request c v2). rewrite Hmt. split_and!; try done. apply Hc.
Qed.

(** ** Witness *)

Definition test_client : NtripClient.NtripClientConfig :=
  NtripClient.mkConfig (str "caster.example") 2101 (mountpoint test_config) (Some (username test_config)) (Some (password test_config)).

Lemma Forall_check (P : Z -> Prop) (p : Z -> bool) s : (forall x, p x = true -> P x) -> forallb p s = true -> Forall P s.
Proof. intros Hp H. rewrite forallb_forall in H. apply list.Forall_forall. intros x Hx. by apply Hp, H, list_elem_of_In. Qed.

Definition letter (x : Z) : bool := (32 <? x) && (x <? 127) && negb (x =? 63) && negb (x =? 47) && negb (x =? 58).
Lemma letter_spec x : letter x = true -> 32 < x < 127 /\ x <> 63 /\ x <> 47 /\ x <> 58.
Proof. unfold letter. intros H. repeat (apply andb_true_iff in H as [H ?]). zbool. lia. Qed.
Lemma letter_scalar x : letter x = true -> scalar x.
Proof. intros H. apply letter_spec in H. unfold scalar. lia. Qed.

Lemma plain_test : plain_config test_client.
Proof.
  constructor.
  - split; [| done]. apply (Forall_check _ letter); [intros x H; apply letter_spec in H; lia | reflexivity].
  - done.
  - split; [| done]. apply (Forall_check _ letter); [intros x H; apply letter_spec in H; lia | reflexivity].
  - intros u [= <-]. split; apply (Forall_check _ letter); [exact letter_scalar | reflexivity | intros x H; apply letter_spec in H; lia | reflexivity].
  - apply (Forall_check _ letter); [exact letter_scalar | reflexivity].
Qed.

Lemma handshake_witness :
  exists req mount user, handle_conn test_config 2 None 0 0 (Some (NtripClient.request test_client true)) = Serve req mount user /\ v2 req = true.
Proof.
  apply (handshake test_config 2 None 0 test_client true 0 plain_test).
  - apply (Forall_check _ letter); [exact letter_scalar | reflexivity].
  - apply (Forall_check _ letter); [exact letter_scalar | reflexivity].
  - apply (Forall_check _ letter); [intros x H; apply letter_spec in H; lia | reflexivity].
  - vm_compute. discriminate.
  - split; [done |]. split; [done |]. right. by eexists.
Defined.
