(* ===== verification/NtripLink.v ===== *)
(** * From the caster to the driver: [base/ntrip_caster.py] and [rover/ntrip_client.py] together

    What a caster of [NtripCaster] writes, a client of [NtripClient] reads: the answer that opens
    the stream is taken as one, in either version, and the frames that were sent, cut into
    arrivals in any way, are given to the driver, all of them, in order and unchanged. *)

From Stdlib Require Import String.
From stdpp Require Import gmap.
From S2P Require Import Prelude.
From S2P Require Import PyBytes.
From S2P Require Import PyText.
From S2P Require Import Framing.
From S2P Require Import Frames.
From S2P Require Import PyCodecs.
From S2P Require NtripCaster.
From S2P Require Import NtripClient.

Definition crlf : bytes := [13; 10].
Definition body (v2 : bool) (fs : list bytes) : bytes := concat (map (NtripCaster.wire v2) fs).

(** ** Reads of a stream that is known

    [fut] is what has not arrived yet. *)

Lemma app_split {A} (a b c d : list A) : a ++ b = c ++ d -> (length c <= length a)%nat -> exists x, a = c ++ x /\ d = x ++ b.
Proof.
  intros E Hl. assert (Ea : a = c ++ drop (length c) a).
  { rewrite <- (take_drop (length c) a) at 1. f_equal.
    apply (f_equal (take (length c))) in E. rewrite take_app_length, take_app_le in E by lia. done. }
  exists (drop (length c) a). split; [done |]. rewrite Ea, <- app_assoc in E. by apply app_inv_head in E.
Qed.

Lemma bfind_lf_here l x : Forall (fun c => c <> 10) l -> bfind [10] (l ++ 10 :: x) = Some (length l).
Proof.
  induction l as [| c l IH]; intros H; [cbn; by destruct x |]. inversion H; subst.
  cbn [app bfind startswith length]. rewrite (proj2 (Z.eqb_neq 10 c)) by done. cbn [andb]. by rewrite IH.
Qed.

Lemma bfind_lf_none l : Forall (fun c => c <> 10) l -> bfind [10] l = None.
Proof.
  induction l as [| c l IH]; intros H; [done |]. inversion H; subst.
  cbn [bfind startswith]. rewrite (proj2 (Z.eqb_neq 10 c)) by done. cbn [andb]. by rewrite IH.
Qed.

Lemma readline_known r fut l rest : rbuf r ++ fut = (l ++ [10]) ++ rest -> reof r = false ->
  Forall (fun c => c <> 10) l -> len l <= LIMIT ->
  (readline r = Wait /\ fut <> []) \/ (exists r', readline r = Done (l ++ [10]) r' /\ reof r' = false /\ rbuf r' ++ fut = rest).
Proof.
  intros E Hr Hl Hlen. unfold readline. assert (Elen : length (l ++ [10]) = S (length l)) by (rewrite length_app; cbn; lia).
  destruct (decide (S (length l) <= length (rbuf r))%nat) as [Hd|Hd].
  - right. rewrite <- Elen in Hd. destruct (app_split _ _ _ _ E Hd) as (x & Ex & ->). rewrite Ex. rewrite <- app_assoc. cbn [app]. rewrite bfind_lf_here by done.
    rewrite (proj2 (Z.ltb_ge _ _)), <- Elen by lia. change (l ++ 10 :: x) with (l ++ [10] ++ x).
    rewrite app_assoc, take_app_length, drop_app_length. eexists. split; [reflexivity |]. by split.
  - left. assert (Hp : exists y, l = rbuf r ++ y).
    { rewrite <- app_assoc in E. symmetry in E. destruct (app_split _ _ _ _ E ltac:(lia)) as (x & Ex & _). by exists x. }
    destruct Hp as [y Ey]. assert (Hn : Forall (fun c => c <> 10) (rbuf r)) by (rewrite Ey in Hl; by apply list.Forall_app in Hl as []).
    rewrite bfind_lf_none by done. rewrite (proj2 (Z.ltb_ge _ _)), Hr by (rewrite Ey, length_app in Hlen; lia). split; [done |].
    intros ->. rewrite app_nil_r in E. apply (f_equal length) in E. rewrite !length_app in *. cbn in *. lia.
Qed.

Lemma readexactly_known r fut d rest : rbuf r ++ fut = d ++ rest -> reof r = false ->
  (readexactly (length d) r = Wait /\ fut <> []) \/ (exists r', readexactly (length d) r = Done d r' /\ reof r' = false /\ rbuf r' ++ fut = rest).
Proof.
  intros E Hr. unfold readexactly. destruct (length d <=? length (rbuf r))%nat eqn:El.
  - right. apply Nat.leb_le in El. destruct (app_split _ _ _ _ E El) as (x & Ex & ->). eexists. rewrite Ex, take_app_length. split; [done |].
    split; [exact Hr |]. cbn [rbuf]. by rewrite drop_app_length.
  - left. apply Nat.leb_gt in El. rewrite Hr. split; [done |]. intros ->. rewrite app_nil_r in E. rewrite E, length_app in El. lia.
Qed.

Lemma read_known n r fut b : (0 < n)%nat -> rbuf r ++ fut = b -> reof r = false ->
  (read n r = Wait /\ (fut = [] -> b = []))
  \/ (exists d r', read n r = Done d r' /\ d <> [] /\ (length d <= n)%nat /\ reof r' = false /\ d ++ rbuf r' ++ fut = b).
Proof.
  intros Hn E Hr. unfold read. rewrite Hr. case_bool_decide as Eb.
  - left. split; [done |]. intros ->. by rewrite <- E, Eb.
  - right. do 2 eexists. split; [reflexivity |]. cbn [rbuf reof]. split; [| split; [rewrite length_take; lia | split; [done |]]].
    + destruct (rbuf r); [done |]. by destruct n; [lia |].
    + by rewrite app_assoc, take_drop.
Qed.

(** ** The answer *)

(** The header lines of [stream_response]. *)
Definition LINES : list bytes :=
  [NtripCaster.line (str "Ntrip-Version: Ntrip/2.0"); NtripCaster.server_line; NtripCaster.line (str "Content-Type: gnss/data");
   NtripCaster.line (str "Transfer-Encoding: chunked"); NtripCaster.line (str "Cache-Control: no-store, no-cache, max-age=0");
   NtripCaster.line (str "Pragma: no-cache"); NtripCaster.close_line].
Definition ANSWER : bytes := str "HTTP/1.1 200 OK".

Lemma stream_response_lines :
  NtripCaster.stream_response true = (ANSWER ++ [13]) ++ [10] ++ concat LINES ++ crlf
  /\ NtripCaster.stream_response false = (str "ICY 200 OK" ++ [13]) ++ [10] ++ crlf.
Proof. by split. Qed.

Lemma answer_taken :
  classify ANSWER (foldl add_header ∅ LINES) = inl (true, 2) /\ classify (str "ICY 200 OK") ∅ = inl (false, 1).
Proof. split; vm_compute; reflexivity. Qed.

(** A header line that is read as one. *)
Definition header_line (l : bytes) : bool :=
  match rev l with 10 :: r => negb (mem_byte 10 r) && (2 <? length r)%nat && (length r <? 1000)%nat | _ => false end.
Lemma lines_ok : forallb header_line LINES = true.
Proof. vm_compute. reflexivity. Qed.

Lemma header_line_spec l : header_line l = true ->
  exists h, l = h ++ [10] /\ Forall (fun c => c <> 10) h /\ len h <= LIMIT /\ l <> [] /\ l <> [13; 10] /\ l <> [10].
Proof.
  unfold header_line. destruct (rev l) as [| c r] eqn:E; [done |]. destruct (decide (c = 10)) as [->|]; [| by destruct c as [| p |]; try done; repeat (destruct p as [p|p|]; try done)].
  intros [[Hm H2]%andb_true_iff Hl]%andb_true_iff. apply Nat.ltb_lt in H2, Hl. exists (rev r).
  assert (El : l = rev r ++ [10]) by (rewrite <- (rev_involutive l), E; done). split; [done |]. split; [| split; [unfold LIMIT; rewrite length_rev; lia |]].
  - apply negb_true_iff in Hm. apply Forall_rev. clear - Hm. induction r as [| c r IH]; [constructor |].
    cbn [mem_byte existsb] in Hm. apply orb_false_iff in Hm as [Hc Hm]. constructor; [| by apply IH]. apply Z.eqb_neq in Hc. congruence.
  - subst l. split; [| split]; intros Hx; apply (f_equal length) in Hx; rewrite length_app, length_rev in Hx; cbn in Hx; lia.
Qed.

Lemma few_headers k : (size (foldl add_header ∅ (take k LINES)) <= 64)%nat.
Proof.
  assert (H : forallb (fun k => size (foldl add_header ∅ (take k LINES)) <=? 64)%nat (seq 0 8) = true) by (vm_compute; reflexivity).
  rewrite forallb_forall in H. destruct (decide (k < 8)%nat) as [Hk|Hk].
  - apply Nat.leb_le, H, in_seq. lia.
  - rewrite take_ge by (cbn; lia). specialize (H 7%nat ltac:(apply in_seq; lia)). apply Nat.leb_le in H. exact H.
Qed.

(** ** The framer along a stream of frames *)

Definition clean (s : Stream) : Prop :=
  checksum_errors (fstats (framer s)) = 0 /\ crc_seen s = 0 /\ max_buffer (framer s) = MAX_BUFFER.

Lemma clean_framer s : clean s -> exists st, framer s = mkFramer (fbuf (framer s)) MAX_BUFFER st /\ checksum_errors st = 0.
Proof. intros (H1 & _ & H3). exists (fstats (framer s)). rewrite <- H3. by destruct (framer s). Qed.

Lemma map_raw_rtcm fs : map raw (List.filter (fun f => bool_decide (proto f = RTCM3)) (map (mkFrame RTCM3) fs)) = fs.
Proof.
  induction fs as [| f fs IH]; [done |]. cbn [map List.filter proto].
  rewrite bool_decide_eq_true_2 by done. cbn [map raw]. by rewrite IH.
Qed.

Lemma partial_short p fs : partial p fs -> Forall rtcm_raw fs -> len p < 1030.
Proof.
  intros [-> | (f & r & fs' & -> & -> & _)] H; [cbn; lia |]. apply Forall_cons_1 in H as [H _].
  destruct (rtcm_raw_shape _ H) as (_ & _ & _ & Hl). rewrite length_app in Hl. lia.
Qed.

Lemma rtcm_ne f : rtcm_raw f -> f <> [].
Proof. intros H. by destruct (rtcm_raw_shape f H) as (r & -> & _). Qed.

(** One whole frame at a time. *)
Lemma feed_one f st : rtcm_raw f -> exists st', framer_feed f (mkFramer [] MAX_BUFFER st) = (mkFramer [] MAX_BUFFER st', [mkFrame RTCM3 f])
  /\ checksum_errors st' = checksum_errors st.
Proof.
  intros Hf. destruct (rtcm_raw_shape f Hf) as (_ & _ & _ & Hl).
  unfold framer_feed, framer_push. cbn [fbuf max_buffer fstats app]. rewrite framer_cap_small by (cbn [fbuf max_buffer]; unfold MAX_BUFFER; lia).
  destruct (run_frames f MAX_BUFFER st [] [f]) as (fs1 & fs2 & p & st' & E1 & Er & E2 & Hp & Ec); [by constructor | by cbn; rewrite !app_nil_r |].
  exists st'. split; [| exact Ec]. rewrite Er. rewrite app_nil_r in E2.
  destruct Hp as [-> | (g & r & fs' & -> & -> & Hr)].
  - destruct fs2 as [| g fs2]; [rewrite app_nil_r in E1; by subst |].
    assert (g = f) as -> by (destruct fs1 as [| ? [|]]; cbn in E1; congruence). cbn in E2. destruct (rtcm_ne f Hf). by destruct f.
  - destruct fs1 as [| ? [|]]; cbn in E1; [| congruence..]. injection E1 as E1 <-. cbn [concat] in E2.
    apply (f_equal length) in E2. rewrite !length_app in E2. destruct r; [done |]. cbn in E2. lia.
Qed.

(** The end of the answer's head, which a version 1 stream still has before its first frame. *)
Definition gap (g x : bytes) : Prop := g = [] \/ (x = [] /\ (g = [10] \/ g = crlf)).

Lemma skip_gap g d m st : (g = [10] \/ g = [13] \/ g = crlf) -> (d = [] \/ exists r, d = RTCM_PREAMBLE :: r) -> bytes_ok d ->
  exists st', Framing.run (mkFramer (g ++ d) m st) = Framing.run (mkFramer d m st') /\ checksum_errors st' = checksum_errors st.
Proof.
  intros Hg Hd Hok. exists (fstats (add_garbage (len g) (mkFramer d m st))). split; [| done].
  - rewrite (run_step (L := framer_laws)).
    + assert (E : framer_iter (mkFramer (g ++ d) m st) = (add_garbage (Z.of_nat (length g)) (mkFramer d m st), Go None)).
      { destruct Hg as [->|[->| ->]], Hd as [->|[r ->]]; reflexivity. }
      cbn [iter framer_incremental]. rewrite E. unfold add_garbage. cbn [fbuf max_buffer fstats olist app]. by destruct (Framing.run _).
    + cbn. apply Forall_app_2; [| done]. destruct Hg as [->|[->| ->]]; repeat (constructor; [unfold is_byte; lia |]); constructor.
Qed.

(** Any piece of what follows the head. *)
Lemma feed_piece g x d st rest fs : Forall rtcm_raw fs -> gap g x -> partial x fs -> len d <= 4096 ->
  (exists b, g ++ b = d ++ rest /\ x ++ b = concat fs) -> d <> [] ->
  exists fs1 fs2 g' x' st', fs = fs1 ++ fs2
    /\ framer_feed d (mkFramer x MAX_BUFFER st) = (mkFramer x' MAX_BUFFER st', map (mkFrame RTCM3) fs1)
    /\ gap g' x' /\ partial x' fs2 /\ checksum_errors st' = checksum_errors st
    /\ exists b', rest = g' ++ b' /\ x' ++ b' = concat fs2.
Proof.
  intros Hfs Hg Hx Hd (b & Eb & Ex) Hne. pose proof (partial_short _ _ Hx Hfs) as Hxl.
  assert (Hfeed : framer_feed d (mkFramer x MAX_BUFFER st) = Framing.run (mkFramer (x ++ d) MAX_BUFFER st)).
  { unfold framer_feed, framer_push. cbn [fbuf max_buffer fstats]. by rewrite framer_cap_small by (cbn [fbuf max_buffer]; unfold MAX_BUFFER; rewrite length_app; lia). }
  rewrite Hfeed. destruct Hg as [-> | [-> Hg]].
  - cbn [app] in Eb. subst b. rewrite app_assoc in Ex. destruct (run_frames _ MAX_BUFFER st _ _ Hfs Ex) as (fs1 & fs2 & p & st' & -> & Er & E2 & Hp & Ec).
    exists fs1, fs2, [], p, st'. split; [done |]. split; [done |]. split; [by left |]. split; [done |]. split; [done |]. by exists rest.
  - cbn [app] in *. subst b.
    assert (Hcut : (exists g1 g2, g = g1 ++ g2 /\ d = g1 /\ (g1 = [10] \/ g1 = [13] \/ g1 = crlf) /\ rest = g2 ++ concat fs /\ (g2 = [] \/ g2 = [10]))
                   \/ exists d', d = g ++ d' /\ d' ++ rest = concat fs).
    { destruct (decide (length g <= length d)%nat) as [Hl|Hl].
      - right. symmetry in Eb. destruct (app_split _ _ _ _ Eb Hl) as (d' & -> & E). by exists d'.
      - left. destruct Hg as [->| ->]; destruct d as [| d0 [| d1 d]]; cbn in Hl; try lia; try done. cbn in Eb. injection Eb as <- <-.
        exists [13], [10]. repeat split; auto. }
    destruct Hcut as [(g1 & g2 & -> & -> & Hg1 & -> & Hg2) | (d' & -> & Ed)].
    + destruct (skip_gap g1 [] MAX_BUFFER st Hg1 ltac:(by left) ltac:(constructor)) as (st' & Er & Ec). rewrite app_nil_r in Er.
      exists [], fs, g2, [], st'. split; [done |]. split; [rewrite Er; reflexivity |]. split; [destruct Hg2 as [->| ->]; [by left | right; auto] |].
      split; [by left |]. split; [done |]. by exists (concat fs).
    + destruct (run_frames d' MAX_BUFFER st _ _ Hfs Ed) as (fs1 & fs2 & p & st0 & _). 
      assert (Hd' : d' = [] \/ exists r, d' = RTCM_PREAMBLE :: r).
      { destruct d' as [| c d']; [by left |]. right. destruct Hfs as [| f fs Hf _]; [done |]. destruct (rtcm_raw_shape f Hf) as (r & -> & _).
        cbn in Ed. injection Ed as -> _. by eexists. }
      assert (Hok : bytes_ok d') by (pose proof (frames_bytes _ Hfs) as Hb; rewrite <- Ed in Hb; by apply list.Forall_app in Hb as []).
      destruct (skip_gap g d' MAX_BUFFER st ltac:(tauto) Hd' Hok) as (st1 & Er1 & Ec1). rewrite Er1. clear fs1 fs2 p st0.
      destruct (run_frames d' MAX_BUFFER st1 _ _ Hfs Ed) as (fs1 & fs2 & p & st' & -> & Er & E2 & Hp & Ec).
      exists fs1, fs2, [], p, st'. split; [done |]. split; [done |]. split; [by left |]. split; [done |]. split; [congruence |]. by exists rest.
Qed.

(** ** What a session still has to bring *)

(** Before a read of [_stream], with [b] to come, the frames [fs] are to come. *)
Definition ready (s : Stream) (b : bytes) (fs : list bytes) : Prop :=
  clean s /\
  if chunked s then fbuf (framer s) = [] /\ b = body true fs
  else exists g b', b = g ++ b' /\ gap g (fbuf (framer s)) /\ partial (fbuf (framer s)) fs /\ fbuf (framer s) ++ b' = concat fs.

Definition expects (p : Phase) (b : bytes) (fs : list bytes) : Prop :=
  match p with
  | First => exists v, b = NtripCaster.stream_response v ++ body v fs
  | Headers st h => st = ANSWER /\ exists k, h = foldl add_header ∅ (take k LINES) /\ b = concat (drop k LINES) ++ crlf ++ body true fs
  | Size s => chunked s = true /\ ready s b fs
  | Raw s => chunked s = false /\ ready s b fs
  | Data s n => exists f fs', fs = f :: fs' /\ n = length f /\ chunked s = true /\ ready s (body true fs') fs' /\ b = f ++ crlf ++ body true fs'
  | Terminator s f => exists fs', fs = f :: fs' /\ chunked s = true /\ ready s (body true fs') fs' /\ b = crlf ++ body true fs'
  end.

(** What is to come for a client, of which [fut] has not arrived. *)
Definition carries (fut : bytes) (c : NtripClient) (fs : list bytes) : Prop :=
  match at_ c with
  | Connecting => exists v, fut = NtripCaster.stream_response v ++ body v fs
  | Reading r p _ => reof r = false /\ expects p (rbuf r ++ fut) fs
  | Injecting r s _ fl => reof r = false /\ exists fs', fs = fl ++ fs' /\ ready s (rbuf r ++ fut) fs'
  | _ => False
  end.

(** The counters that a session moves together. *)
Record steady (c c' : NtripClient) (fs fs' : list bytes) : Prop := {
  st_frames : injected c' ++ fs' = injected c ++ fs;
  st_crc : crc_dropped (status c') = crc_dropped (status c);
  st_count : frames_injected (status c') + injecting (at_ c') - len (injected c') = frames_injected (status c) + injecting (at_ c) - len (injected c);
  st_grows : injected c `prefix_of` injected c'
}.

Lemma steady_trans a b c fa fb fc : steady a b fa fb -> steady b c fb fc -> steady a c fa fc.
Proof. intros [] []. constructor; congruence || lia || by etrans. Qed.

Lemma ready_next s b fs : ready s b fs -> expects (next_read s) b fs.
Proof. unfold next_read. intros H. destruct (chunked s) eqn:E; cbn; by rewrite E. Qed.

Lemma ready_stream s b fs n m : ready s b fs -> m = checksum_errors (fstats (framer s)) -> ready (mkStream (chunked s) (framer s) m n) b fs.
Proof. intros [(H1 & H2 & H3) H] ->. split; [by repeat split | exact H]. Qed.

(** The frames of one read are handed over. *)
Lemma inject_carries now r s fl fs fut c : reof r = false -> ready s (rbuf r ++ fut) fs -> injecting (at_ c) = 0 ->
  carries fut (inject now r s fl c) (drop 1 fl ++ fs) /\ steady c (inject now r s fl c) (fl ++ fs) (drop 1 fl ++ fs).
Proof.
  intros Hr Hs Hi. destruct fl as [| f fl]; cbn [inject drop app].
  - unfold turn_end. assert (Hc : checksum_errors (fstats (framer s)) - crc_seen s = 0) by (destruct Hs as [(-> & -> & _) _]; done).
    rewrite Hc. set (s' := mkStream _ _ _ _).
    assert (He : expects (next_read s') (rbuf r ++ fut) fs) by (apply ready_next; by apply ready_stream).
    split; [by destruct (_ <=? _) | ]. destruct (_ <=? _); constructor; cbn [set_at set_status publish injected status at_ injecting add_crc crc_dropped frames_injected]; done || lia.
  - split; [cbn [carries at_]; split; [done |]; by exists fs |]. constructor; cbn [injected status at_ injecting].
    + by rewrite <- app_assoc.
    + done.
    + rewrite length_app, Hi. cbn [length]. lia.
    + by eexists.
Qed.

Lemma body_cons f fs : body true (f :: fs) = (min_digits 16 (len f) ++ [13]) ++ [10] ++ f ++ crlf ++ body true fs.
Proof. unfold body. cbn [map concat]. unfold NtripCaster.wire. cbn [NtripCaster.crlf]. rewrite <- !app_assoc. done. Qed.

Lemma lstrip_of_id chars s : Forall (fun c => mem_byte c chars = false) s -> lstrip_of chars s = s.
Proof. intros [| c r Hc _]; [done |]. by apply lstrip_of_no. Qed.

Lemma strip_bytes_line s w : s <> [] -> Forall (fun c => mem_byte c ascii_space = false) s -> Forall (fun c => mem_byte c ascii_space = true) w ->
  strip_bytes (s ++ w) = s.
Proof.
  intros Hne Hs Hw. unfold strip_bytes.
  assert (El : lstrip_of ascii_space (s ++ w) = s ++ w) by (destruct Hs; [done | by apply lstrip_of_no]).
  rewrite El, rstrip_of_app by done. unfold rstrip_of. rewrite lstrip_of_id by (by apply Forall_rev). apply rev_involutive.
Qed.

Lemma min_digits_ne n : 0 <= n -> min_digits 16 n <> [].
Proof.
  intros Hn. destruct (min_digits_fixed 16 n ltac:(by right) Hn) as (k & Hk & -> & _). intros E.
  apply (f_equal length) in E. rewrite length_fixed_digits in E. cbn in E. lia.
Qed.

(** The size line of a chunk is read as its size. *)
Lemma wire_size n : 0 <= n <= MAX_CHUNK -> chunk_size ((min_digits 16 n ++ [13]) ++ [10]) = inl n.
Proof.
  intros Hn. rewrite <- app_assoc. cbn [app]. pose proof (min_digits_ne n ltac:(lia)) as Hne.
  assert (Hcut : cut 59 (min_digits 16 n ++ [13; 10]) = None).
  { unfold cut. enough (bfind [59] (min_digits 16 n ++ [13; 10]) = None) as -> by done.
    assert (H : Forall (fun c => c <> 59) (min_digits 16 n ++ [13; 10])).
    { apply Forall_app_2; [apply min_digits_chars; [by right | lia |] | by repeat constructor].
      intros d Hd. pose proof (digit_char_ascii d Hd). lia. }
    clear - H. induction H as [| c r Hc _ IH]; [done |]. cbn [bfind startswith]. rewrite (proj2 (Z.eqb_neq 59 c)) by congruence. cbn [andb]. by rewrite IH. }
  unfold chunk_size. destruct (min_digits 16 n ++ [13; 10]) as [| c r] eqn:E; [by destruct (min_digits 16 n) |]. rewrite <- E, Hcut in *. cbn [fmap option_fmap option_map default].
  rewrite strip_bytes_line.
  - rewrite py_int_min_digits by (by right || lia). by rewrite (proj2 (Z.ltb_ge _ _)), (proj2 (Z.ltb_ge _ _)) by lia.
  - done.
  - apply min_digits_chars; [by right | lia | apply digit_char_not_space].
  - by repeat constructor.
Qed.

Lemma size_line_lf n : 0 <= n -> Forall (fun c => c <> 10) (min_digits 16 n ++ [13]).
Proof.
  intros Hn. apply Forall_app_2; [| by repeat constructor]. apply min_digits_chars; [by right | done |].
  intros d Hd. pose proof (digit_char_ascii d Hd). lia.
Qed.

(** ** A session that reads what was sent *)

(** A read either waits, and not for nothing, or takes the session on. *)
Definition reads_on (now since : Z) (fut : bytes) (p : Phase) (r : Reader) (c : NtripClient) (fs : list bytes) : Prop :=
  (phase_read p r = Wait /\ (fut = [] -> fs = []))
  \/ exists data r' c' fs', phase_read p r = Done data r' /\ phase_next now since p data r' c = inl c'
       /\ carries fut c' fs' /\ steady c c' fs fs'.

Lemma steady_at a c fs : injecting a = injecting (at_ c) -> steady c (set_at a c) fs fs.
Proof. intros H. constructor; cbn; try done. by rewrite H. Qed.

Lemma start_carries now st h r c fs fut ch v :
  classify st h = inl (ch, v) -> reof r = false -> injecting (at_ c) = 0 ->
  (ch = true -> rbuf r ++ fut = body true fs) -> (ch = false -> rbuf r ++ fut = crlf ++ concat fs) ->
  exists c', start_stream now st h r c = inl c' /\ carries fut c' fs /\ steady c c' fs fs.
Proof.
  intros Hc Hr Hi Ht Hf. unfold start_stream. rewrite Hc. eexists. split; [reflexivity |]. split.
  - cbn [carries at_]. split; [done |]. apply ready_next. split; [done |]. cbn [chunked framer fbuf new_framer].
    destruct ch; [split; [done | by apply Ht] |]. exists crlf, (concat fs). split; [by apply Hf |].
    split; [right; auto |]. split; [by left | done].
  - constructor; cbn [injected status at_ injecting next_read]; try done.
    + unfold set_connected. by destruct (Bool.eqb _ _).
    + rewrite connected_frames, Hi. done.
Qed.

Lemma body_false fs : body false fs = concat fs.
Proof. unfold body. by rewrite map_id. Qed.

Lemma head_first now since fut r c fs : at_ c = Reading r First since -> reof r = false -> expects First (rbuf r ++ fut) fs -> reads_on now since fut First r c fs.
Proof.
  intros Ha Hr (v & E). unfold reads_on. cbn [phase_read]. destruct v.
  - rewrite (proj1 stream_response_lines) in E. rewrite <- !app_assoc in E. rewrite (app_assoc ANSWER), (app_assoc (ANSWER ++ [13])) in E.
    destruct (readline_known _ _ _ _ E Hr) as [[Hw Hne] | (r' & Er & Hr' & Eb)]; [by vm_compute; repeat constructor; discriminate | by vm_compute | |].
    + left. by split.
    + right. do 4 eexists. split; [exact Er |]. split; [vm_compute (startswith _ _); reflexivity |]. split.
      * cbn [carries set_at at_]. split; [exact Hr' |]. split; [reflexivity |]. exists 0%nat. split; [done |]. exact Eb.
      * apply steady_at. by rewrite Ha.
  - rewrite (proj2 stream_response_lines), body_false in E. rewrite <- !app_assoc in E. rewrite (app_assoc (str "ICY 200 OK")), (app_assoc (str "ICY 200 OK" ++ [13])) in E.
    destruct (readline_known _ _ _ _ E Hr) as [[Hw Hne] | (r' & Er & Hr' & Eb)]; [by vm_compute; repeat constructor; discriminate | by vm_compute | |].
    + left. by split.
    + right. destruct (start_carries now (str "ICY 200 OK") ∅ r' c fs fut false 1 (proj2 answer_taken) Hr') as (c' & Es & H1 & H2);
        [by rewrite Ha | done | intros _; exact Eb |].
      exists ((str "ICY 200 OK" ++ [13]) ++ [10]), r', c', fs. split; [exact Er |]. split; [exact Es | by split].
Qed.

Lemma head_line now since fut st h r c fs : at_ c = Reading r (Headers st h) since -> reof r = false -> expects (Headers st h) (rbuf r ++ fut) fs ->
  reads_on now since fut (Headers st h) r c fs.
Proof.
  intros Ha Hr (-> & k & -> & E). unfold reads_on. cbn [phase_read].
  destruct (LINES !! k) as [l|] eqn:Ek.
  - rewrite (drop_S _ _ _ Ek) in E. cbn [concat] in E. rewrite <- app_assoc in E.
    assert (Hl : header_line l = true).
    { pose proof lines_ok as H. rewrite forallb_forall in H. apply H. apply list_elem_of_In, list_elem_of_lookup. by exists k. }
    destruct (header_line_spec l Hl) as (x & -> & Hx & Hlen & Hne & Hn1 & Hn2).
    destruct (readline_known _ _ _ _ E Hr Hx Hlen) as [[Hw Hf] | (r' & Er & Hr' & Eb)]; [left; by split |].
    right. do 4 eexists. split; [exact Er |]. cbn [phase_next]. destruct (x ++ [10]) as [| c0 l0] eqn:El; [done |]. rewrite <- El in *.
    rewrite !bool_decide_eq_false_2 by done. cbn [orb].
    assert (Eh : add_header (foldl add_header ∅ (take k LINES)) (x ++ [10]) = foldl add_header ∅ (take (S k) LINES)).
    { rewrite (take_S_r _ _ _ Ek), foldl_app. done. }
    rewrite Eh. rewrite (proj2 (Nat.ltb_ge _ _)) by apply few_headers. split; [reflexivity |]. split.
    + cbn [carries set_at at_]. split; [exact Hr' |]. split; [done |]. by exists (S k).
    + apply steady_at. by rewrite Ha.
  - apply lookup_ge_None in Ek. rewrite drop_ge, take_ge in * by done. cbn [concat app] in E.
    change (crlf ++ body true fs) with (([13] ++ [10]) ++ body true fs) in E.
    destruct (readline_known _ _ _ _ E Hr) as [[Hw Hf] | (r' & Er & Hr' & Eb)]; [by repeat constructor | by vm_compute | left; by split |].
    right. destruct (start_carries now ANSWER (foldl add_header ∅ LINES) r' c fs fut true 2 (proj1 answer_taken) Hr') as (c' & Es & H1 & H2);
      [by rewrite Ha | by intros _ | done |].
    exists [13; 10], r', c', fs. split; [exact Er |]. split; [exact Es | by split].
Qed.

Lemma rtcm_len f : rtcm_raw f -> 0 < len f < 1030.
Proof. intros H. destruct (rtcm_raw_shape f H) as (r & -> & _ & Hl). cbn [length] in *. lia. Qed.

Lemma size_line_short n : 0 <= n <= MAX_CHUNK -> len (min_digits 16 n ++ [13]) <= LIMIT.
Proof.
  intros Hn. destruct (min_digits_fixed 16 n ltac:(by right) ltac:(lia)) as (k & Hk & -> & _ & Hlow).
  rewrite length_app, length_fixed_digits. cbn [length]. unfold LIMIT.
  destruct Hlow as [->|Hlow]; [lia |]. destruct (decide (k <= 100)%nat) as [|Hk']; [lia |]. exfalso.
  pose proof (Z.pow_le_mono_r 16 10 (Z.of_nat k - 1) ltac:(lia) ltac:(lia)) as Hp. unfold MAX_CHUNK in Hn. lia.
Qed.

Lemma got_data_some now r s d c f frames : d <> [] -> framer_feed d (framer s) = (f, map (mkFrame RTCM3) frames) ->
  got_data now r s d c
  = inl (inject now r (mkStream (chunked s) f (crc_seen s) (last_status s)) frames (set_status (add_bytes (len d) (status c)) c)).
Proof. intros Hd E. unfold got_data. destruct d; [done |]. by rewrite E, map_raw_rtcm. Qed.

Lemma got_frame now r s f fs' c fut : rtcm_raw f -> chunked s = true -> ready s (body true fs') fs' -> reof r = false ->
  rbuf r ++ fut = body true fs' -> injecting (at_ c) = 0 ->
  exists c', got_data now r s f c = inl c' /\ carries fut c' fs' /\ steady c c' (f :: fs') fs'.
Proof.
  intros Hf Hch [Hc Hb] Hr E Hi. rewrite Hch in Hb. destruct Hb as [Hb _]. destruct (clean_framer s Hc) as (st & Est & Ecs).
  destruct (feed_one f st Hf) as (st' & Ef & Ec). change [mkFrame RTCM3 f] with (map (mkFrame RTCM3) [f]) in Ef.
  rewrite <- Hb, <- Est in Ef. rewrite (got_data_some _ _ _ _ _ _ _ (rtcm_ne f Hf) Ef). eexists. split; [reflexivity |].
  set (s' := mkStream _ _ _ _). set (c1 := set_status _ c).
  assert (Hs : ready s' (rbuf r ++ fut) fs').
  { split; [repeat split; [cbn; by rewrite Ec | apply Hc] |]. cbn [s' chunked framer fbuf]. rewrite Hch. done. }
  destruct (inject_carries now r s' [f] fs' fut c1 Hr Hs Hi) as [H1 H2]. split; [exact H1 |]. destruct H2 as [S1 S2 S3 S4]. constructor; [exact S1 | by rewrite S2 | by rewrite S3 | exact S4].
Qed.

Lemma in_chunks now since fut p r c fs : at_ c = Reading r p since -> reof r = false -> Forall rtcm_raw fs -> expects p (rbuf r ++ fut) fs ->
  match p with Size _ | Data _ _ | Terminator _ _ => True | _ => False end -> reads_on now since fut p r c fs.
Proof.
  intros Ha Hr Hfs He Hp. unfold reads_on. destruct p as [| | s | s n | s f |]; try done; cbn [phase_read].
  - destruct He as [Hch Hs]. pose proof Hs as [Hc Hb]. rewrite Hch in Hb. destruct Hb as [Hb E]. destruct fs as [| f fs].
    + left. cbn in E. apply app_eq_nil in E as [E ->]. unfold readline. rewrite E. cbn. by rewrite Hr.
    + apply Forall_cons_1 in Hfs as [Hf Hfs]. rewrite body_cons in E. pose proof (rtcm_len f Hf) as Hlen. rewrite app_assoc in E.
      destruct (readline_known _ _ _ _ E Hr) as [[Hw Hne] | (r' & Er & Hr' & Eb)];
        [by apply size_line_lf; lia | apply size_line_short; unfold MAX_CHUNK; lia | left; by split |].
      right. do 4 eexists. split; [exact Er |]. cbn [phase_next]. rewrite wire_size by (unfold MAX_CHUNK; lia).
      rewrite (proj2 (Z.eqb_neq _ 0)) by lia. split; [reflexivity |]. split.
      * cbn [carries set_at at_]. split; [exact Hr' |]. exists f, fs. rewrite Nat2Z.id. split; [done |]. split; [done |]. split; [done |]. split; [| exact Eb].
        split; [exact Hc |]. by rewrite Hch.
      * apply steady_at. by rewrite Ha.
  - destruct He as (f & fs' & -> & -> & Hch & Hs & E).
    destruct (readexactly_known _ _ _ _ E Hr) as [[Hw Hne] | (r' & Er & Hr' & Eb)]; [left; by split |].
    right. do 4 eexists. split; [exact Er |]. cbn [phase_next]. split; [reflexivity |]. split.
    + cbn [carries set_at at_]. split; [exact Hr' |]. by exists fs'.
    + apply steady_at. by rewrite Ha.
  - destruct He as (fs' & -> & Hch & Hs & E). apply Forall_cons_1 in Hfs as [Hf Hfs].
    destruct (readexactly_known r fut crlf _ E Hr) as [[Hw Hne] | (r' & Er & Hr' & Eb)]; [left; by split |].
    right. destruct (got_frame now r' s f fs' c fut Hf Hch Hs Hr' Eb ltac:(by rewrite Ha)) as (c' & Eg & H1 & H2).
    exists crlf, r', c', fs'. split; [exact Er |]. cbn [phase_next]. rewrite bool_decide_eq_true_2 by done. by split.
Qed.

Lemma in_raw now since fut s r c fs : at_ c = Reading r (Raw s) since -> reof r = false -> Forall rtcm_raw fs -> expects (Raw s) (rbuf r ++ fut) fs ->
  reads_on now since fut (Raw s) r c fs.
Proof.
  intros Ha Hr Hfs [Hch [Hc Hb]]. rewrite Hch in Hb. destruct Hb as (g & b & E & Hg & Hx & Ex). unfold reads_on. cbn [phase_read].
  destruct (read_known READ_SIZE r fut _ ltac:(unfold READ_SIZE; lia) E Hr) as [[Hw Hne] | (d & r' & Er & Hd & Hl & Hr' & Eb)].
  - left. split; [done |]. intros Hf. specialize (Hne Hf). apply app_eq_nil in Hne as [-> ->]. rewrite app_nil_r in Ex.
    destruct Hx as [Hx | (f & r1 & fs' & -> & -> & Hr1)].
    + rewrite Hx in Ex. destruct fs as [| f fs]; [done |]. apply Forall_cons_1 in Hfs as [Hf1 _]. destruct (rtcm_ne f Hf1). by destruct f.
    + apply (f_equal length) in Ex. cbn [concat] in Ex. rewrite !length_app in Ex. destruct r1; [done |]. cbn in Ex. lia.
  - right. destruct (clean_framer s Hc) as (st & Est & Ecs).
    destruct (feed_piece g (fbuf (framer s)) d st (rbuf r' ++ fut) fs Hfs Hg Hx) as (fs1 & fs2 & g' & x' & st' & -> & Ef & Hg' & Hx' & Ec & b' & Eb' & Ex');
      [unfold READ_SIZE in Hl; lia | by exists b | done |].
    rewrite <- Est in Ef. set (s' := mkStream (chunked s) (mkFramer x' MAX_BUFFER st') (crc_seen s) (last_status s)).
    set (c1 := set_status (add_bytes (len d) (status c)) c).
    assert (Hs : ready s' (rbuf r' ++ fut) fs2).
    { split; [repeat split; [cbn; by rewrite Ec | apply Hc] |]. cbn [s' chunked framer fbuf]. rewrite Hch. by exists g', b'. }
    destruct (inject_carries now r' s' fs1 fs2 fut c1 Hr' Hs ltac:(unfold c1; cbn; by rewrite Ha)) as [H1 [S1 S2 S3 S4]].
    exists d, r', (inject now r' s' fs1 c1), (drop 1 fs1 ++ fs2). split; [exact Er |]. split; [| split; [exact H1 | by constructor]].
    cbn [phase_next]. apply (got_data_some _ _ _ _ _ _ _ Hd Ef).
Qed.

Lemma session_reads now since fut p r c fs : at_ c = Reading r p since -> Forall rtcm_raw fs -> carries fut c fs -> reads_on now since fut p r c fs.
Proof.
  intros Ha Hfs Hc. unfold carries in Hc. rewrite Ha in Hc. destruct Hc as [Hr He].
  destruct p; [by apply head_first | by apply head_line | by apply in_chunks | by apply in_chunks | by apply in_chunks | by apply in_raw].
Qed.

Lemma steady_frames c c' fs fs' : Forall rtcm_raw (injected c ++ fs) -> steady c c' fs fs' -> Forall rtcm_raw (injected c' ++ fs').
Proof. intros H [-> _ _ _]. exact H. Qed.

Lemma read_on_carries fuel : forall now fut c fs, Forall rtcm_raw (injected c ++ fs) -> carries fut c fs ->
  exists c' fs', read_on fuel now c = inl c' /\ carries fut c' fs' /\ steady c c' fs fs'.
Proof.
  induction fuel as [| fuel IH]; intros now fut c fs Hfs Hc; [by exists c, fs |].
  cbn [read_on]. destruct (at_ c) as [| r p since | | |] eqn:Ea; try by exists c, fs.
  destruct (session_reads now since fut p r c fs Ea (proj2 (proj1 (list.Forall_app _ _ _) Hfs)) Hc) as [[Hw _] | (d & r' & c' & fs' & Er & En & Hc' & Hs)].
  - rewrite Hw. by exists c, fs.
  - rewrite Er, En. destruct (IH now fut c' fs' (steady_frames _ _ _ _ Hfs Hs) Hc') as (c'' & fs'' & E & H1 & H2).
    exists c'', fs''. split; [done |]. split; [done |]. by eapply steady_trans.
Qed.

(** The events of a session that goes well, and the bytes they bring. *)
Definition session_event (e : Event) : bool := match e with Connected _ | Arrived _ _ _ | Injected _ _ => true | _ => false end.
Definition arrival (e : Event) : bytes := match e with Arrived _ _ data => data | _ => [] end.
Definition arrived (evs : list Event) : bytes := flat_map arrival evs.

Lemma carries_fuel fuel fut c fs : Forall rtcm_raw fs -> carries fut c fs ->
  (match at_ c with Reading r _ _ => length (rbuf r) + 1 < fuel | _ => True end)%nat -> fuelled fuel c.
Proof.
  intros Hfs Hc Hl. unfold fuelled, carries in *. destruct (at_ c) as [| r p since | | |]; try done. split; [| exact Hl].
  destruct p as [| | | s n | |]; try done. destruct Hc as (_ & f & fs' & -> & -> & _). apply Forall_cons_1 in Hfs as [Hf _].
  pose proof (rtcm_len f Hf). cbn. lia.
Qed.

Lemma proceed_carries force_v1 now d fut c fs : Forall rtcm_raw (injected c ++ fs) -> carries fut c fs ->
  exists c' fs', proceed force_v1 now d c = Some c' /\ waiting c' /\ carries fut c' fs' /\ steady c c' fs fs'.
Proof.
  intros Hfs Hc. unfold proceed. set (fuel := match at_ c with Reading r _ _ => _ | _ => _ end).
  destruct (read_on_carries fuel now fut c fs Hfs Hc) as (c' & fs' & E & H1 & H2).
  pose proof (read_on_waits fuel now c) as Hw. rewrite E in *. destruct Hw as (Hw & _).
  - apply (carries_fuel _ fut _ fs); [by apply list.Forall_app in Hfs as [] | done |]. unfold fuel. destruct (at_ c); try done. lia.
  - by exists c', fs'.
Qed.

Lemma step_carries force_v1 e fut c fs c' : session_event e = true -> Forall rtcm_raw (injected c ++ fs) ->
  carries (arrival e ++ fut) c fs -> step force_v1 c e = Some c' ->
  exists fs', waiting c' /\ carries fut c' fs' /\ steady c c' fs fs'.
Proof.
  intros He Hfs Hc H. destruct e as [now | | now d data | | | now d | | |]; try done; cbn [arrival app step] in *; unfold carries in Hc.
  - destruct (at_ c) eqn:Ea; try done. injection H as <-. destruct Hc as [v Hv]. exists fs. split; [done |]. split.
    + cbn. split; [done |]. by exists v.
    + apply steady_at. by rewrite Ea.
  - destruct (at_ c) as [| r p since | r s f fl | |] eqn:Ea; try done; destruct Hc as [Hr Hc]; rewrite Hr in H.
    + set (c1 := set_at (Reading (hear data false r) p since) c) in *.
      assert (Hc1 : carries fut c1 fs) by (cbn; rewrite Hr; split; [done | by rewrite <- app_assoc]).
      destruct (proceed_carries force_v1 now d fut c1 fs Hfs Hc1) as (c2 & fs' & E & Hw & H1 & H2). rewrite E in H. injection H as <-.
      exists fs'. split; [done |]. split; [done |]. eapply steady_trans; [| exact H2]. apply steady_at. by rewrite Ea.
    + injection H as <-. exists fs. split; [done |]. split.
      * cbn. rewrite Hr. split; [done |]. by rewrite <- app_assoc.
      * apply steady_at. by rewrite Ea.
  - destruct (at_ c) as [| | r s f fl | |] eqn:Ea; try done. destruct Hc as (Hr & fs' & -> & Hs).
    set (c1 := set_at (Reading r (next_read s) now) (set_status (add_injected now (status c)) c)).
    rewrite <- (inject_at now r s fl _ (Reading r (next_read s) now)) in H. fold c1 in H.
    destruct (inject_carries now r s fl fs' fut c1 Hr Hs eq_refl) as [Hi Si].
    assert (S0 : steady c c1 (fl ++ fs') (fl ++ fs')).
    { constructor; cbn; try done. rewrite Ea. cbn. lia. }
    pose proof (steady_trans _ _ _ _ _ _ S0 Si) as S1.
    destruct (proceed_carries force_v1 now d fut _ _ (steady_frames _ _ _ _ Hfs S1) Hi) as (c2 & fs2 & E & Hw & H1 & H2).
    rewrite E in H. injection H as <-. exists fs2. split; [done |]. split; [done |]. by eapply steady_trans.
Qed.

Lemma run_carries force_v1 evs : forall fut c fs c', forallb session_event evs = true -> Forall rtcm_raw (injected c ++ fs) -> waiting c ->
  carries (arrived evs ++ fut) c fs -> run force_v1 c evs = Some c' ->
  exists fs', waiting c' /\ carries fut c' fs' /\ steady c c' fs fs'.
Proof.
  induction evs as [| e evs IH]; intros fut c fs c' He Hfs Hw Hc; cbn [run].
  - intros [= <-]. by exists fs.
  - cbn [forallb] in He. apply andb_true_iff in He as [He Hes]. cbn [arrived flat_map] in Hc. rewrite <- app_assoc in Hc.
    destruct (step force_v1 c e) as [c1|] eqn:E; [| done]. cbn [mbind option_bind]. intros Hr.
    destruct (step_carries force_v1 e _ c fs c1 He Hfs Hc E) as (fs1 & Hw1 & H1 & S1).
    destruct (IH fut c1 fs1 c' Hes (steady_frames _ _ _ _ Hfs S1) Hw1 H1 Hr) as (fs2 & Hw2 & H2 & S2).
    exists fs2. split; [done |]. split; [done |]. by eapply steady_trans.
Qed.

(** A session that waits with nothing left to arrive has nothing left to bring. *)
Lemma carries_all c fs r p since : at_ c = Reading r p since -> Forall rtcm_raw fs -> waiting c -> carries [] c fs -> fs = [].
Proof.
  intros Ha Hfs Hw Hc. destruct (session_reads 0 since [] p r c fs Ha Hfs Hc) as [[_ H] | (d & r' & c' & fs' & Er & _)]; [by apply H |].
  unfold waiting in Hw. rewrite Ha in Hw. destruct Hw as [_ Hw]. congruence.
Qed.

(** What is sent of frames and end marks, without the marks. *)
Lemma sent_frames evs : Forall (fun e => match e with NtripCaster.Offer raw => rtcm_raw raw | _ => True end) evs ->
  forall f, f <> [] -> f ∈ NtripCaster.offered evs -> rtcm_raw f.
Proof.
  induction 1 as [| e evs He _ IH]; intros f Hf Hin; [by inversion Hin |].
  unfold NtripCaster.offered in Hin. cbn [flat_map] in Hin. apply elem_of_app in Hin as [Hin|Hin]; [| by apply IH].
  destruct e; try by inversion Hin; apply list_elem_of_singleton in Hin; by subst.
Qed.

(** C7.  From the caster to the driver, in both versions of the protocol: for every run of a rover's
    connection in the caster to which RTCM frames are offered, and every client that connects and receives,
    cut in any way and with the driver taking its time, a part of what that rover was sent (but
    for the closing chunk), the session does not fail; the frames given to the driver are the first of
    the frames sent, in order and unchanged, none is counted as corrupt, and once the driver is
    idle and everything has arrived, they are all of them. *)
Theorem caster_to_driver parse_gga id ip port req user sent_to k force_v1 c0 evs c fut :
  NtripCaster.crun parse_gga (NtripCaster.new_client id ip port req user) sent_to = Some k ->
  Forall (fun e => match e with NtripCaster.Offer raw => rtcm_raw raw | _ => True end) sent_to ->
  Forall rtcm_raw (injected c0) -> at_ c0 = Connecting -> forallb session_event evs = true -> run force_v1 c0 evs = Some c ->
  NtripCaster.stream_response (NtripCaster.is_v2 k) ++ concat (NtripCaster.written k)
    = arrived evs ++ fut ++ (if NtripCaster.body_closed (NtripCaster.at_ k) then NtripCaster.wire (NtripCaster.is_v2 k) [] else []) ->
  exists sent taken left,
    sent = taken ++ left /\ sent `sublist_of` NtripCaster.offered sent_to
    /\ NtripCaster.written k = map (NtripCaster.wire (NtripCaster.is_v2 k)) sent
         ++ (if NtripCaster.body_closed (NtripCaster.at_ k) then [NtripCaster.wire (NtripCaster.is_v2 k) []] else [])
    /\ injected c = injected c0 ++ taken
    /\ crc_dropped (status c) = crc_dropped (status c0)
    /\ frames_injected (status c) + injecting (at_ c) = frames_injected (status c0) + len taken
    /\ match at_ c with
       | Connecting | Injecting _ _ _ _ => True
       | Reading _ _ _ => fut = [] -> left = []
       | Pausing | Finished => False
       end.
Proof.
  intros Hk Hoff Hinj Hat He Hr E.
  destruct (NtripCaster.books_run parse_gga sent_to [] (NtripCaster.new_client id ip port req user) [] k) as (sent & (Hw & _ & _ & _ & Hs) & Hne);
    [apply NtripCaster.books_new | by intros _; constructor | constructor | | exact Hk |].
  { eapply list.Forall_impl; [exact Hoff |]. intros [] Hx; try done. by apply rtcm_ne. }
  cbn [app] in Hs. assert (Hsub : sent `sublist_of` NtripCaster.offered sent_to).
  { destruct (NtripCaster.streaming _); [| exact Hs]. destruct Hs as [Hs _]. etrans; [| exact Hs]. by apply sublist_inserts_r. }
  assert (Hrtcm : Forall rtcm_raw sent).
  { apply list.Forall_forall. intros f Hf. apply (list.Forall_forall _ sent) with (x := f) in Hne; [| done].
    apply (sent_frames sent_to Hoff f Hne). by eapply elem_of_sublist. }
  assert (E' : arrived evs ++ fut = NtripCaster.stream_response (NtripCaster.is_v2 k) ++ body (NtripCaster.is_v2 k) sent).
  { rewrite Hw, concat_app in E. unfold body.
    destruct (NtripCaster.body_closed _); cbn [concat] in E; rewrite ?app_nil_r in E; [| done].
    rewrite !app_assoc in E. apply app_inv_tail in E. by rewrite <- E. }
  destruct (run_carries force_v1 evs fut c0 sent c He) as (left & Hwait & Hcar & [S1 S2 S3 S4]); try done.
  { by apply Forall_app_2. }
  { unfold waiting. by rewrite Hat. }
  { unfold carries. rewrite Hat. by eexists. }
  destruct S4 as [taken S4]. exists sent, taken, left. rewrite S4, <- app_assoc in S1. apply app_inv_head in S1.
  split_and!; try done.
  - rewrite S4, length_app in S3. rewrite Hat in S3. cbn [injecting] in S3. lia.
  - pose proof Hcar as Hc'. unfold carries in Hc'. destruct (at_ c) as [| r p since | | |] eqn:Ea; try done. intros ->.
    apply (carries_all c left r p since); [done | | done | done]. rewrite <- S1 in Hrtcm. by apply list.Forall_app in Hrtcm as [].
Qed.

(** ** Witness *)

Definition test_frame : bytes := [0xD3; 0; 0; 0x47; 0xEA; 0x4B].
Lemma test_frame_ok : rtcm_raw test_frame.
Proof. apply (wire_rtcm []); [constructor | done]. Qed.
Definition test_request : NtripCaster.Request := NtripCaster.mkRequest (str "GET") (str "/BASE") true ∅.
Definition sent_events : list NtripCaster.ClientEvent :=
  [NtripCaster.Row None; NtripCaster.Offer test_frame; NtripCaster.Get false; NtripCaster.Drained 0 0; NtripCaster.Offer test_frame;
   NtripCaster.Get false; NtripCaster.Drained 0 0; NtripCaster.End (str "caster stopped"); NtripCaster.Get false].
Definition stream_bytes : bytes := NtripCaster.stream_response true ++ concat (map (NtripCaster.wire true) [test_frame; test_frame]).
Definition received_events : list Event :=
  [Connected 0; Arrived 1 0 (take 100 stream_bytes); Arrived 2 0 (take 140 (drop 100 stream_bytes));
   Arrived 3 0 (drop 240 stream_bytes); Injected 4 0; Injected 5 0].

Lemma caster_to_driver_witness :
  match NtripCaster.crun (fun _ => None) (NtripCaster.new_client 1 [] 0 test_request None) sent_events, run false (new_client false) received_events with
  | Some k, Some c =>
      injected c = [test_frame; test_frame] /\
      exists sent taken left, sent = taken ++ left /\ sent `sublist_of` NtripCaster.offered sent_events /\ injected c = [] ++ taken /\ left = []
  | _, _ => False
  end.
Proof.
  destruct (NtripCaster.crun _ _ _) as [k|] eqn:Ek; [| vm_compute in Ek; discriminate].
  destruct (run false (new_client false) received_events) as [c|] eqn:Ec; [| vm_compute in Ec; discriminate].
  assert (Hi : injected c = [test_frame; test_frame]).
  { pose proof (f_equal (fmap injected) Ec) as E'. vm_compute in E'. injection E' as E'. exact (eq_sym E'). }
  split; [exact Hi |].
  assert (Hv : NtripCaster.is_v2 k = true).
  { pose proof (f_equal (fmap NtripCaster.is_v2) Ek) as E'. vm_compute in E'. injection E' as E'. exact (eq_sym E'). }
  assert (Hw : NtripCaster.stream_response (NtripCaster.is_v2 k) ++ concat (NtripCaster.written k)
    = arrived received_events ++ [] ++ (if NtripCaster.body_closed (NtripCaster.at_ k) then NtripCaster.wire (NtripCaster.is_v2 k) [] else [])).
  { rewrite Hv. pose proof (f_equal (fmap (fun k => (NtripCaster.written k, NtripCaster.body_closed (NtripCaster.at_ k)))) Ek) as E'.
    vm_compute in E'. injection E' as E1 E2. 
    assert (Ew : NtripCaster.written k = map (NtripCaster.wire true) [test_frame; test_frame; []]) by exact (eq_sym E1).
    assert (Eb : NtripCaster.body_closed (NtripCaster.at_ k) = true) by exact (eq_sym E2).
    rewrite Ew, Eb. vm_compute. reflexivity. }
  destruct (caster_to_driver (fun _ => None) 1 [] 0 test_request None sent_events k false (new_client false) received_events c [] Ek)
    as (sent & taken & left & H1 & H2 & _ & H4 & _ & _ & H7); [| constructor | done | done | exact Ec | exact Hw |].
  - repeat (constructor; [first [exact test_frame_ok | exact I] |]). constructor.
  - exists sent, taken, left. split; [done |]. split; [done |]. split; [exact H4 |].
    assert (Ha : exists r p s, at_ c = Reading r p s).
    { pose proof (f_equal (fmap at_) Ec) as E'. vm_compute in E'. injection E' as E'. do 3 eexists. exact (eq_sym E'). }
    destruct Ha as (r & p & s & Ha). rewrite Ha in H7. by apply H7.
Defined.
