(* ===== verification/Geo.v ===== *)
(** * Geodesy ([core/geo.py])

    The functions are written over any type of numbers with Python's operations on floats
    ([Num]); the theorems read them in the real numbers, where they hold exactly: what the
    program computes differs by the rounding of floats. Not modelled: [format_dms]. *)

From Stdlib Require Import Reals Lra.
From S2P Require Import Prelude.

(** What the program uses of [float] and [math]. [lit m k] is the literal [m / 10^k];
    [floor_div x y] is [int(x // y)]; [sum_] is
    [sum] of a list, which makes up for its rounding. *)
Class Num (F : Type) := {
  lit : Z -> Z -> F;
  add : F -> F -> F; sub : F -> F -> F; mul : F -> F -> F; div : F -> F -> F; opp : F -> F; abs : F -> F;
  ltb : F -> F -> bool; leb : F -> F -> bool;
  sqrt_ : F -> F; sin_ : F -> F; cos_ : F -> F; tan_ : F -> F; atan2 : F -> F -> F; hypot : F -> F -> F;
  copysign : F -> F -> F; power : F -> nat -> F; pi_ : F; floor_div : F -> F -> Z;
  sum_ : list F -> F
}.

Declare Scope num_scope.
Infix "+'" := add (at level 50, left associativity) : num_scope.
Infix "-'" := sub (at level 50, left associativity) : num_scope.
Infix "*'" := mul (at level 40, left associativity) : num_scope.
Infix "/'" := div (at level 40, left associativity) : num_scope.
#[local] Open Scope num_scope.

Section Geo.
Context {F : Type} {NF : Num F}.

Definition num (i : Z) : F := lit i 0.
Definition WGS84_A : F := lit 6378137 0.
Definition WGS84_F : F := num 1 /' lit 298257223563 9.
Definition WGS84_B : F := WGS84_A *' (num 1 -' WGS84_F).
Definition WGS84_E2 : F := WGS84_F *' (num 2 -' WGS84_F).
Definition EP2 : F := WGS84_E2 /' (num 1 -' WGS84_E2).
Definition UTM_K0 : F := lit 9996 4.
Definition UTM_FALSE_EASTING : F := num 500000.
Definition UTM_FALSE_NORTHING_SOUTH : F := num 10000000.

Definition radians (d : F) : F := d *' (pi_ /' num 180).
Definition degrees (r : F) : F := r *' (num 180 /' pi_).

(** The radius of curvature, from the sine of the latitude. *)
Definition radius (sin_lat : F) : F := WGS84_A /' sqrt_ (num 1 -' WGS84_E2 *' sin_lat *' sin_lat).

Definition llh_to_ecef (lat_deg lon_deg h_m : F) : F * F * F :=
  let lat := radians lat_deg in
  let lon := radians lon_deg in
  let sin_lat := sin_ lat in
  let cos_lat := cos_ lat in
  let n := radius sin_lat in
  ((n +' h_m) *' cos_lat *' cos_ lon, (n +' h_m) *' cos_lat *' sin_ lon, (n *' (num 1 -' WGS84_E2) +' h_m) *' sin_lat).

(** One turn of [ecef_to_llh]'s loop: the new latitude. *)
Definition lat_step (p z lat : F) : F :=
  let n := radius (sin_ lat) in
  let h := p /' cos_ lat -' n in
  atan2 z (p *' (num 1 -' WGS84_E2 *' n /' (n +' h))).

(** [for _ in range(20)] with its [break]. *)
Fixpoint lat_loop (turns : nat) (p z lat : F) : F :=
  match turns with
  | O => lat
  | S turns =>
      let new_lat := lat_step p z lat in
      if ltb (abs (new_lat -' lat)) (lit 1 14) then new_lat else lat_loop turns p z new_lat
  end.

Definition ecef_to_llh (x y z : F) : F * F * F :=
  let lon := atan2 y x in
  let p := hypot x y in
  if ltb p (lit 1 9) then (degrees (copysign (pi_ /' num 2) z), degrees lon, abs z -' WGS84_B)
  else
    let lat := lat_loop 20 p z (atan2 z (p *' (num 1 -' WGS84_E2))) in
    let n := radius (sin_ lat) in
    (degrees lat, degrees lon, p /' cos_ lat -' n).

Definition utm_zone (lat_deg lon_deg : F) : Z :=
  let zone := floor_div (lon_deg +' num 180) (num 6) + 1 in
  let zone := if leb (num 56) lat_deg && ltb lat_deg (num 64) && leb (num 3) lon_deg && ltb lon_deg (num 12) then 32 else zone in
  let zone :=
    if leb (num 72) lat_deg && leb (num 0) lon_deg && ltb lon_deg (num 42) then
      if ltb lon_deg (num 9) then 31 else if ltb lon_deg (num 21) then 33 else if ltb lon_deg (num 33) then 35 else 37
    else zone in
  Z.min (Z.max zone 1) 60.

Record Utm := mkUtm { zone : Z; north : bool; easting : F; northing : F }.

Definition llh_to_utm (lat_deg lon_deg : F) : Utm :=
  let zone := utm_zone lat_deg lon_deg in
  let hemisphere_n := leb (num 0) lat_deg in
  let lat := radians lat_deg in
  let lon0 := radians (num ((zone - 1) * 6 - 180 + 3)) in
  let d_lon := radians lon_deg -' lon0 in
  let e2 := WGS84_E2 in
  let ep2 := EP2 in
  let sin_lat := sin_ lat in
  let cos_lat := cos_ lat in
  let tan_lat := tan_ lat in
  let n := radius sin_lat in
  let t := tan_lat *' tan_lat in
  let c := ep2 *' cos_lat *' cos_lat in
  let a := d_lon *' cos_lat in
  let m := WGS84_A *'
    ((num 1 -' e2 /' num 4 -' num 3 *' power e2 2 /' num 64 -' num 5 *' power e2 3 /' num 256) *' lat
     -' (num 3 *' e2 /' num 8 +' num 3 *' power e2 2 /' num 32 +' num 45 *' power e2 3 /' num 1024) *' sin_ (num 2 *' lat)
     +' (num 15 *' power e2 2 /' num 256 +' num 45 *' power e2 3 /' num 1024) *' sin_ (num 4 *' lat)
     -' (num 35 *' power e2 3 /' num 3072) *' sin_ (num 6 *' lat)) in
  let easting := UTM_K0 *' n *'
    (a +' (num 1 -' t +' c) *' power a 3 /' num 6
     +' (num 5 -' num 18 *' t +' t *' t +' num 72 *' c -' num 58 *' ep2) *' power a 5 /' num 120) in
  let northing := UTM_K0 *'
    (m +' n *' tan_lat *'
       (a *' a /' num 2 +' (num 5 -' t +' num 9 *' c +' num 4 *' c *' c) *' power a 4 /' num 24
        +' (num 61 -' num 58 *' t +' t *' t +' num 600 *' c -' num 330 *' ep2) *' power a 6 /' num 720)) in
  mkUtm zone hemisphere_n (easting +' UTM_FALSE_EASTING)
    (if hemisphere_n then northing else northing +' UTM_FALSE_NORTHING_SOUTH).

Definition ecef_to_enu (ref_lat_deg ref_lon_deg ref_h_m x y z : F) : F * F * F :=
  let '(x0, y0, z0) := llh_to_ecef ref_lat_deg ref_lon_deg ref_h_m in
  let dx := x -' x0 in
  let dy := y -' y0 in
  let dz := z -' z0 in
  let lat := radians ref_lat_deg in
  let lon := radians ref_lon_deg in
  let sin_lat := sin_ lat in
  let cos_lat := cos_ lat in
  let sin_lon := sin_ lon in
  let cos_lon := cos_ lon in
  (opp sin_lon *' dx +' cos_lon *' dy,
   opp sin_lat *' cos_lon *' dx -' sin_lat *' sin_lon *' dy +' cos_lat *' dz,
   cos_lat *' cos_lon *' dx +' cos_lat *' sin_lon *' dy +' sin_lat *' dz).
End Geo.
Arguments Utm F : clear implicits.

(** ** The real numbers *)

#[local] Open Scope R_scope.

Definition R_atan2 (y x : R) : R :=
  if Rlt_dec 0 x then atan (y / x)
  else if Rlt_dec x 0 then if Rlt_dec y 0 then atan (y / x) - PI else atan (y / x) + PI
  else if Rlt_dec 0 y then PI / 2 else if Rlt_dec y 0 then - (PI / 2) else 0.

#[export] Instance real_num : Num R := {
  lit m k := IZR m / 10 ^ Z.to_nat k;
  add := Rplus; sub := Rminus; mul := Rmult; div := Rdiv; opp := Ropp; abs := Rabs;
  ltb x y := if Rlt_dec x y then true else false; leb x y := if Rle_dec x y then true else false;
  sqrt_ := sqrt; sin_ := sin; cos_ := cos; tan_ := tan; atan2 := R_atan2; hypot x y := sqrt (x * x + y * y);
  copysign x y := if Rlt_dec y 0 then - Rabs x else Rabs x; power := pow; pi_ := PI; floor_div x y := Int_part (x / y);
  sum_ := foldr Rplus 0
}.

(** The operations, as those of the reals. *)
Ltac real := cbn [lit add sub mul div opp abs sqrt_ sin_ cos_ tan_ atan2 hypot copysign power pi_ real_num] in *.

Definition e2 : R := WGS84_E2.
Definition semi_major : R := WGS84_A.

Lemma num_R i : num i = IZR i.
Proof. unfold num. real. change (Z.to_nat 0) with 0%nat. cbn [pow]. apply Rdiv_1_r. Qed.

Lemma flattening : (WGS84_F : R) = 1000000000 / 298257223563.
Proof. unfold WGS84_F. rewrite num_R. real. change (Z.to_nat 9) with 9%nat. cbn [pow]. field. Qed.

Lemma e2_range : 0 < e2 < 1 / 100.
Proof. unfold e2, WGS84_E2. rewrite num_R. real. rewrite flattening. lra. Qed.

Lemma sin_cos x : sin x * sin x + cos x * cos x = 1.
Proof. pose proof (sin2_cos2 x) as H. unfold Rsqr in H. exact H. Qed.

Definition sqdist (p q : R * R * R) : R :=
  let '(a, b, c) := p in let '(d, e, f) := q in (a - d) * (a - d) + (b - e) * (b - e) + (c - f) * (c - f).
Definition enu (ref p : R * R * R) : R * R * R :=
  let '(lat, lon, h) := ref in let '(x, y, z) := p in ecef_to_enu lat lon h x y z.

Lemma enu_eq lat lon h x y z x0 y0 z0 : llh_to_ecef lat lon h = (x0, y0, z0) ->
  let f := radians lat in let l := radians lon in
  ecef_to_enu lat lon h x y z
  = (- sin l * (x - x0) + cos l * (y - y0),
     - sin f * cos l * (x - x0) - sin f * sin l * (y - y0) + cos f * (z - z0),
     cos f * cos l * (x - x0) + cos f * sin l * (y - y0) + sin f * (z - z0)).
Proof. intros E. unfold ecef_to_enu. rewrite E. reflexivity. Qed.

Lemma enu_isometry ref p q : sqdist (enu ref p) (enu ref q) = sqdist p q.
Proof.
  destruct ref as [[lat lon] h], p as [[x y] z], q as [[x' y'] z']. unfold enu.
  destruct (llh_to_ecef lat lon h) as [[x0 y0] z0] eqn:E. rewrite !(enu_eq _ _ _ _ _ _ _ _ _ E). cbn [sqdist].
  pose proof (sin_cos (radians lat)) as Hf. pose proof (sin_cos (radians lon)) as Hl. revert Hf Hl.
  generalize (sin (radians lat)) (cos (radians lat)) (sin (radians lon)) (cos (radians lon)). intros sf cf sl cl Hf Hl.
  transitivity ((x - x') * (x - x') * (sl * sl + cl * cl * (sf * sf + cf * cf)) + (y - y') * (y - y') * (cl * cl + sl * sl * (sf * sf + cf * cf))
                + (z - z') * (z - z') * (sf * sf + cf * cf) + 2 * (x - x') * (y - y') * sl * cl * (sf * sf + cf * cf - 1)); [ring |].
  rewrite Hf, !Rmult_1_r, Hl, (Rplus_comm (cl * cl)), Hl. ring.
Qed.

(** [atan2] returns the angle of a point given by its angle. *)
Lemma atan2_polar r t : 0 < r -> - PI < t <= PI -> R_atan2 (r * sin t) (r * cos t) = t.
Proof.
  intros Hr [Hlo Hhi]. pose proof PI_RGT_0 as Hpi.
  assert (Hq : cos t <> 0 -> r * sin t / (r * cos t) = tan t) by (intros Hc; unfold tan; field; split; lra).
  assert (Hsg : forall c, 0 < r * c <-> 0 < c) by (intros c; split; intros H; nra).
  assert (Hsg' : forall c, r * c < 0 <-> c < 0) by (intros c; split; intros H; nra).
  unfold R_atan2. destruct (Rlt_dec 0 (r * cos t)) as [Hc|Hc].
  - rewrite Hsg in Hc. rewrite Hq by lra. apply atan_tan. split; apply Rnot_le_lt; intros Hb.
    + assert (cos t <= 0); [| lra]. rewrite <- cos_neg. apply cos_le_0; lra.
    + assert (cos t <= 0); [| lra]. apply cos_le_0; lra.
  - assert (Hle : cos t <= 0) by (apply Rnot_lt_le; intros H; apply Hc, Hsg, H).
    destruct (Rlt_dec (r * cos t) 0) as [Hc'|Hc'].
    + rewrite Hsg' in Hc'. rewrite Hq by lra. destruct (Rlt_dec (r * sin t) 0) as [Hs|Hs].
      * rewrite Hsg' in Hs. assert (Ht : t < 0) by (apply Rnot_le_lt; intros H; assert (0 <= sin t) by (apply sin_ge_0; lra); lra).
        assert (Ht2 : t < - (PI / 2)). { apply Rnot_le_lt. intros H. assert (0 <= cos t) by (apply cos_ge_0; lra). lra. }
        replace (tan t) with (tan (t + PI)) by (unfold tan; rewrite neg_sin, neg_cos; field; lra).
        rewrite atan_tan; lra.
      * assert (Ht : PI / 2 < t).
        { apply Rnot_le_lt. intros H. destruct (Rle_dec (- (PI / 2)) t) as [Hl|Hl]; [assert (0 <= cos t) by (apply cos_ge_0; lra); lra |].
          apply Hs, Hsg'. rewrite <- (Ropp_involutive t), sin_neg. apply Ropp_lt_gt_0_contravar. apply sin_gt_0; lra. }
        replace (tan t) with (tan (t - PI)). { rewrite atan_tan; lra. }
        replace t with (t - PI + PI) at 2 by ring. unfold tan. rewrite neg_sin, neg_cos. field.
        intros Hz. replace t with (t - PI + PI) in Hc' by ring. rewrite neg_cos in Hc'. lra.
    + assert (Hz : cos t = 0) by (destruct (Rtotal_order (cos t) 0) as [H|[H|H]]; [rewrite <- Hsg' in H; lra | exact H | lra]).
      destruct (Rle_dec 0 t) as [H0|H0].
      * assert (Et : t = PI / 2).
        { destruct (Rtotal_order t (PI / 2)) as [H|[H|H]]; [| exact H |];
            [assert (0 < cos t) by (apply cos_gt_0; lra) | assert (cos t < 0) by (apply cos_lt_0; lra)]; lra. }
        subst t. rewrite sin_PI2. destruct (Rlt_dec 0 (r * 1)); lra.
      * assert (Et : - t = PI / 2).
        { destruct (Rtotal_order (- t) (PI / 2)) as [H|[H|H]]; [| exact H |];
            [assert (0 < cos (- t)) by (apply cos_gt_0; lra) | assert (cos (- t) < 0) by (apply cos_lt_0; lra)]; rewrite cos_neg in *; lra. }
        replace t with (- (PI / 2)) by lra. rewrite sin_neg, sin_PI2.
        destruct (Rlt_dec 0 (r * - (1))); [lra |]. destruct (Rlt_dec (r * - (1)) 0); lra.
Qed.

(** ** Geodetic and earth-centred coordinates *)

Lemma radius_pos s : -1 <= s <= 1 -> 0 < (radius s : R).
Proof.
  intros Hs. unfold radius. rewrite num_R. real. apply Rdiv_lt_0_compat.
  - unfold WGS84_A. real. change (Z.to_nat 0) with 0%nat. cbn [pow]. lra.
  - apply sqrt_lt_R0. change (@WGS84_E2 R real_num) with e2. pose proof e2_range. assert (0 <= s * s <= 1) by nra. nra.
Qed.

Lemma radius_sin t : 0 < (radius (sin t) : R).
Proof. apply radius_pos. split; apply SIN_bound. Qed.

(** The distance from the axis and the height above the equator of the point at latitude [t]
    and height [h]. *)
Definition axis_dist (t h : R) : R := (radius (sin t) + h) * cos t.
Definition axial (t h : R) : R := (radius (sin t) * (1 - e2) + h) * sin t.

Lemma ecef_cylinder lat lon h :
  llh_to_ecef lat lon h
  = (axis_dist (radians lat) h * cos (radians lon), axis_dist (radians lat) h * sin (radians lon), axial (radians lat) h).
Proof. unfold llh_to_ecef, axis_dist, axial. cbv zeta. rewrite num_R. reflexivity. Qed.

(** The latitude of a point is a fixed point of the iteration. *)
Lemma lat_fixed t h : 0 < cos t -> - PI < t <= PI -> - (1 - e2) * radius (sin t) < h -> lat_step (axis_dist t h) (axial t h) t = t.
Proof.
  intros Hc Ht Hh. pose proof (radius_sin t) as Hn. pose proof e2_range as He. unfold lat_step. cbv zeta. rewrite num_R. real.
  change (@WGS84_E2 R real_num) with e2. set (n := radius (sin t)) in *.
  assert (Hnh : 0 < n + h) by nra. assert (Hp : 0 < n * (1 - e2) + h) by nra.
  replace (axis_dist t h / cos t - n) with h by (unfold axis_dist; fold n; field; lra).
  replace (axis_dist t h * (1 - e2 * n / (n + h))) with ((n * (1 - e2) + h) * cos t) by (unfold axis_dist; fold n; field; lra).
  unfold axial. fold n. apply atan2_polar; assumption.
Qed.

Lemma lit_pos m k : (0 < m)%Z -> 0 < (lit m k : R).
Proof. intros H. real. apply Rdiv_lt_0_compat; [apply IZR_lt, H | apply pow_lt; lra]. Qed.

Lemma hypot_polar r t : 0 <= r -> sqrt (r * cos t * (r * cos t) + r * sin t * (r * sin t)) = r.
Proof. intros H. replace (_ + _) with (r * r * (sin t * sin t + cos t * cos t)) by ring. rewrite sin_cos, Rmult_1_r. apply sqrt_square, H. Qed.

Lemma degrees_radians x : degrees (radians x) = x.
Proof. unfold degrees, radians. rewrite num_R. real. pose proof PI_RGT_0. field. lra. Qed.

Lemma radians_range x b : - b < x <= b -> - (b * (PI / 180)) < radians x <= b * (PI / 180).
Proof. intros H. unfold radians. rewrite num_R. real. pose proof PI_RGT_0. split; [rewrite Ropp_mult_distr_l; apply Rmult_lt_compat_r | apply Rmult_le_compat_r]; lra. Qed.

(** The first guess is the latitude of a point on the ellipsoid. *)
Lemma first_guess t : 0 < cos t -> - PI < t <= PI -> R_atan2 (axial t 0) (axis_dist t 0 *' (num 1 -' WGS84_E2)) = t.
Proof.
  rewrite num_R. change (_ *' _) with (axis_dist t 0 * (1 - e2)). intros Hc Ht. pose proof (radius_sin t) as Hn. pose proof e2_range as He. unfold axial, axis_dist.
  replace ((radius (sin t) * (1 - e2) + 0) * sin t) with (radius (sin t) * (1 - e2) * sin t) by ring.
  replace ((radius (sin t) + 0) * cos t * (1 - e2)) with (radius (sin t) * (1 - e2) * cos t) by ring.
  apply atan2_polar; [nra | exact Ht].
Qed.

Lemma loop_fixed n t p z : lat_step p z t = t -> lat_loop (S n) p z t = t.
Proof. intros E. cbn [lat_loop]. cbv zeta. rewrite E. destruct (ltb _ _) eqn:L; [reflexivity |]. revert L. real.
  rewrite Rminus_diag, Rabs_R0. pose proof (lit_pos 1 14 eq_refl) as Hp. revert Hp. real. intros Hp.
  cbn [ltb real_num]. destruct (Rlt_dec 0 _) as [_|Hn]; [discriminate | contradiction]. Qed.

Theorem surface_roundtrip lat lon : - 90 < lat < 90 -> - 180 < lon <= 180 -> lit 1 9 <= axis_dist (radians lat) 0 ->
  let '(x, y, z) := llh_to_ecef lat lon 0 in ecef_to_llh x y z = (lat, lon, 0).
Proof.
  intros Hlat Hlon Hp. rewrite ecef_cylinder. set (t := radians lat) in *.
  assert (Ht : - (PI / 2) < t < PI / 2).
  { unfold t, radians. rewrite num_R. real. pose proof PI_RGT_0. split; nra. }
  assert (Hc : 0 < cos t) by (apply cos_gt_0; lra). pose proof PI_RGT_0 as Hpi. pose proof e2_range as He.
  assert (Hd : 0 < axis_dist t 0) by (pose proof (lit_pos 1 9 eq_refl); lra).
  unfold ecef_to_llh. cbv zeta. rewrite num_R. cbn [hypot ltb atan2 real_num]. rewrite hypot_polar by lra.
  destruct (Rlt_dec _ _) as [Hlt|_]; [exfalso; revert Hlt Hp; real; lra |].
  rewrite atan2_polar by (try assumption; pose proof (radians_range lon 180 Hlon); lra).
  rewrite first_guess by (try assumption; lra).
  rewrite loop_fixed by (apply lat_fixed; [assumption | lra | pose proof (radius_sin t); nra]).
  unfold t at 1. rewrite !degrees_radians. f_equal. unfold axis_dist. real. field. lra.
Qed.

(** ** UTM zones *)

Lemma utm_zone_range {F} {NF : Num F} (lat lon : F) : (1 <= utm_zone lat lon <= 60)%Z.
Proof. unfold utm_zone. cbv zeta. lia. Qed.

Lemma leb_R x y : leb x y = true <-> x <= y.
Proof. cbn [leb real_num]. destruct (Rle_dec x y); split; (easy || auto). Qed.

Lemma ltb_R x y : ltb x y = true <-> x < y.
Proof. cbn [ltb real_num]. destruct (Rlt_dec x y); split; (easy || auto). Qed.

(** A longitude is within three degrees of the central meridian of its zone. *)
Lemma zone_meridian lat lon : - 180 <= lon < 180 -> ~ (56 <= lat < 64 /\ 3 <= lon < 12) -> ~ (72 <= lat /\ 0 <= lon < 42) ->
  - 3 <= lon - IZR ((utm_zone lat lon - 1) * 6 - 180 + 3) < 3.
Proof.
  intros Hlon Hnorway Hsvalbard. unfold utm_zone. cbv zeta. rewrite !num_R.
  destruct (leb 56 lat && ltb lat 64 && leb 3 lon && ltb lon 12)%bool eqn:E1.
  { rewrite !andb_true_iff, !leb_R, !ltb_R in E1. tauto. }
  destruct (leb 72 lat && leb 0 lon && ltb lon 42)%bool eqn:E2.
  { rewrite !andb_true_iff, !leb_R, !ltb_R in E2. tauto. }
  cbn [floor_div add real_num]. pose proof (base_Int_part ((lon + 180) / 6)) as [Hl Hu]. set (k := Int_part _) in *.
  assert (Hk : (0 <= k <= 59)%Z).
  { split; [assert (-1 < k)%Z by (apply lt_IZR; lra) | assert (k < 60)%Z by (apply lt_IZR; lra)]; lia. }
  replace (Z.min _ 60) with (k + 1)%Z by lia. rewrite plus_IZR, minus_IZR, mult_IZR, minus_IZR, plus_IZR. lra.
Qed.
