(* ===== verification/Database.v ===== *)
(** * The database ([store/db.py])

    One connection that every repository shares: its transactions, which hold the lock that
    every statement takes, and the migration of an opened file. [Database] runs SQLite in
    autocommit mode, so a statement outside a transaction takes effect at once. A table with an
    [AUTOINCREMENT] key is its rows in key order and the last key it gave ([Table]). *)

From S2P Require Import Prelude.

(** ** Tables *)

Record Table (R : Type) := mkTable { trows : list (Z * R); seq : Z }.
Arguments mkTable {R}.
Arguments trows {R}.
Arguments seq {R}.

Section Tables.
Context {R : Type}.
Implicit Types (t : Table R).

Definition insert_row (r : R) t : Table R := mkTable (trows t ++ [(seq t + 1, r)]) (seq t + 1).
(** [UPDATE ... WHERE id = ?]. *)
Definition update_row (id : Z) (f : R -> R) t : Table R :=
  mkTable (map (fun kr => if kr.1 =? id then (kr.1, f kr.2) else kr) (trows t)) (seq t).
Definition delete_row (id : Z) t : Table R := mkTable (List.filter (fun kr => negb (kr.1 =? id)) (trows t)) (seq t).
(** [SELECT * ... WHERE id = ?]. *)
Definition find_row (id : Z) t : option (Z * R) := List.find (fun kr => kr.1 =? id) (trows t).
(** [SELECT * ... WHERE p ORDER BY id DESC LIMIT n]; a negative limit is none. *)
Definition select_desc (p : R -> bool) (n : Z) t : list (Z * R) :=
  let l := rev (List.filter (fun kr => p kr.2) (trows t)) in
  if n <? 0 then l else take (Z.to_nat n) l.

(** The keys ascend and the sequence is at least the last one. *)
Definition table_ok t : Prop := StronglySorted Z.lt (map fst (trows t)) /\ Forall (fun k => k <= seq t) (map fst (trows t)).

Lemma sorted_snoc l k : StronglySorted Z.lt l -> Forall (fun x => x < k) l -> StronglySorted Z.lt (l ++ [k]).
Proof.
  induction l as [|x l IH]; intros Hs Hk; simpl; [repeat constructor |].
  inversion Hs as [|? ? H1 H2]; inversion Hk; subst. constructor; [auto |]. apply Forall_app. auto.
Qed.

Lemma update_keys id f t : map fst (trows (update_row id f t)) = map fst (trows t).
Proof. simpl. rewrite map_map. apply map_ext. intros [k r]. simpl. by destruct (k =? id). Qed.

Lemma filter_keys (P : Z -> Prop) (p : Z * R -> bool) l : Forall P (map fst l) -> Forall P (map fst (List.filter p l)).
Proof. induction l as [|x l IH]; simpl; [done |]. inversion 1; subst. destruct (p x); simpl; auto. Qed.

Lemma filter_sorted (p : Z * R -> bool) l : StronglySorted Z.lt (map fst l) -> StronglySorted Z.lt (map fst (List.filter p l)).
Proof.
  induction l as [|x l IH]; simpl; [done |]. intros Hs. inversion Hs as [|? ? H1 H2]; subst.
  destruct (p x); simpl; [| auto]. constructor; [auto |]. by apply filter_keys.
Qed.

Lemma insert_ok r t : table_ok t -> table_ok (insert_row r t).
Proof.
  intros [Hs Hb]. unfold table_ok. simpl. rewrite map_app. simpl. split.
  - apply sorted_snoc; [exact Hs |]. revert Hb. apply List.Forall_impl. lia.
  - apply Forall_app. split; [revert Hb; apply List.Forall_impl; lia | repeat constructor; lia].
Qed.

Lemma update_ok id f t : table_ok t -> table_ok (update_row id f t).
Proof. unfold table_ok. by rewrite update_keys. Qed.

Lemma delete_ok id t : table_ok t -> table_ok (delete_row id t).
Proof.
  intros [Hs Hb]. split; simpl; [by apply filter_sorted | by apply filter_keys].
Qed.

(** A key names one row. *)
Lemma find_row_in id r t : table_ok t -> In (id, r) (trows t) -> find_row id t = Some (id, r).
Proof.
  intros [Hs _]. unfold find_row. revert Hs. generalize (trows t). induction l as [|[k q] l IH]; simpl; [done |].
  intros Hs [E|Hin]; inversion Hs as [|? ? H1 H2]; subst.
  - injection E as -> ->. by rewrite Z.eqb_refl.
  - destruct (k =? id) eqn:E; zbool; [| auto]. subst k. exfalso.
    apply in_map with (f := fst) in Hin. apply (proj1 (List.Forall_forall _ _) H2) in Hin. simpl in Hin. lia.
Qed.

Lemma find_inserted r t : table_ok t -> find_row (seq t + 1) (insert_row r t) = Some (seq t + 1, r).
Proof. intros H. apply find_row_in; [by apply insert_ok |]. simpl. apply in_app_iff. simpl. auto. Qed.
End Tables.

(** ** The connection *)

(** [tx]: the task inside [transaction()], which holds the lock, and the data [ROLLBACK] returns
    to. *)
Record Database (T : Type) := mkDb { data : T; tx : option (nat * T) }.
Arguments mkDb {T}.
Arguments data {T}.
Arguments tx {T}.

(** A call of a task: it goes on, waits for the lock, or raises. *)
Inductive Answer (A : Type) := Ok (a : A) | Waits | Raises.
Arguments Ok {A}.
Arguments Waits {A}.
Arguments Raises {A}.

Section Connection.
Context {T : Type}.
Implicit Types (d : Database T).

Definition owns_transaction (t : nat) d : bool := match tx d with Some (o, _) => Nat.eqb o t | None => false end.
Definition locked d : bool := match tx d with Some _ => true | None => false end.

(** [transaction()], up to its [yield]. *)
Definition begin_tx (t : nat) d : Answer (Database T) :=
  if owns_transaction t d then Raises
  else if locked d then Waits
  else Ok (mkDb (data d) (Some (t, data d))).

(** [_serialised]: the statements of the transaction's own task pass. *)
Definition serialised (t : nat) d : bool := owns_transaction t d || negb (locked d).

(** [execute] of a statement that changes the data as [f]. *)
Definition execute (t : nat) (f : T -> T) d : Answer (Database T) :=
  if serialised t d then Ok (mkDb (f (data d)) (tx d)) else Waits.

(** [fetchone], [fetchall]. *)
Definition fetch {A} (t : nat) (q : T -> A) d : Answer A := if serialised t d then Ok (q (data d)) else Waits.

(** [commit()]: only [transaction()] ends the unit it began, and outside one nothing is left to commit. *)
Definition commit (t : nat) d : Answer (Database T) := if serialised t d then Ok d else Waits.

(** The end of [transaction()]: its body returned, or raised. *)
Definition end_tx (t : nat) (raised : bool) d : Database T :=
  match tx d with
  | Some (o, saved) => if Nat.eqb o t then mkDb (if raised then saved else data d) None else d
  | None => d
  end.

(** What a task outside the transaction will read once the lock is free. *)
Definition committed d : T := match tx d with Some (_, saved) => saved | None => data d end.
End Connection.

(** ** Migrations *)

(** The database file: its [user_version] and everything else in it. *)
Record File (T : Type) := mkFile { file_version : Z; content : T }.
Arguments mkFile {T}.
Arguments file_version {T}.
Arguments content {T}.

(** [Database]'s connection, there or not, and its [user_version]. *)
Record Conn := mkConn { connected : bool; user_version : Z }.

Section Migrations.
(** What SQLite makes of a migration's script: [None] when a statement of it fails. *)
Context {SQL T : Type} (run_script : SQL -> T -> option T).

(** [_migrations]: the numbered scripts of the schema package, in order. *)
Definition migrations (found : list (Z * SQL)) : list (Z * SQL) := sort_by fst found.
Definition latest_schema_version (found : list (Z * SQL)) : Z := foldr Z.max 0 (map fst found).

(** [_migrate]: a script and its version bump are one transaction. *)
Fixpoint migrate (ms : list (Z * SQL)) (current : Z) (f : File T) : File T * option Z :=
  match ms with
  | [] => (f, Some current)
  | (version, sql) :: ms =>
      if version <=? current then migrate ms current f
      else match run_script sql (content f) with
           | Some c => migrate ms version (mkFile version c)
           | None => (f, None)
           end
  end.

(** [open]: the connection and the file after it, and whether it raised. *)
Definition open (readonly : bool) (found : list (Z * SQL)) (c : Conn) (f : File T) : Conn * File T * bool :=
  if connected c then (c, f, true)
  else if readonly then
    if file_version f <? latest_schema_version found then (mkConn false (file_version f), f, false)
    else (mkConn true (file_version f), f, true)
  else
    match migrate (migrations found) (file_version f) f with
    | (f, Some current) => (mkConn true current, f, true)
    | (f, None) => (mkConn false (user_version c), f, false)
    end.

(** The scripts newer than a version, one after the other. *)
Fixpoint run_all (ms : list (Z * SQL)) (c : T) : option T :=
  match ms with [] => Some c | (_, sql) :: ms => c' ← run_script sql c; run_all ms c' end.

(** The scripts newer than a version. *)
Definition newer (v : Z) (ms : list (Z * SQL)) : list (Z * SQL) := List.filter (fun m => v <? m.1) ms.
Definition version_after (v : Z) (ms : list (Z * SQL)) : Z := List.last (map fst ms) v.

Lemma newer_all v ms : Forall (fun k => v < k) (map fst ms) -> newer v ms = ms.
Proof. induction ms as [|m ms IH]; simpl; [done |]. inversion 1 as [|? ? H1 H2]; subst. apply Z.ltb_lt in H1. rewrite H1. f_equal. auto. Qed.

Lemma version_after_cons v m ms : version_after v (m :: ms) = version_after m.1 ms.
Proof. destruct ms as [|m' ms]; [done |]. unfold version_after. simpl. generalize m'.1. induction ms as [|x ms IH]; intros z; [done |]. apply IH. Qed.

(** The file holds the scripts that ran whole, in order, and the version of the last one; a script
    that fails leaves nothing of itself. *)
Lemma migrate_spec ms : StronglySorted Z.lt (map fst ms) -> forall f f' r, migrate ms (file_version f) f = (f', r) ->
  exists n, run_all (take n (newer (file_version f) ms)) (content f) = Some (content f')
    /\ file_version f' = version_after (file_version f) (take n (newer (file_version f) ms))
    /\ match r with
       | Some v => take n (newer (file_version f) ms) = newer (file_version f) ms /\ v = file_version f'
       | None => exists m, nth_error (newer (file_version f) ms) n = Some m /\ run_script m.2 (content f') = None
       end.
Proof.
  induction ms as [|[v sql] ms IH]; intros Hs f f' r E; simpl in *; [injection E as <- <-; by exists 0%nat |].
  inversion Hs as [|? ? Hs' Hv]; subst. destruct (v <=? file_version f) eqn:Ev.
  { replace (file_version f <? v) with false by (symmetry; zbool; lia). by apply IH. }
  replace (file_version f <? v) with true by (symmetry; zbool; lia).
  assert (Hn : newer (file_version f) ms = ms) by (apply newer_all; revert Hv; apply List.Forall_impl; zbool; lia).
  rewrite Hn. destruct (run_script sql (content f)) as [c|] eqn:Er.
  - destruct (IH Hs' (mkFile v c) f' r E) as (n & Ha & Hb & Hc). simpl in *. rewrite (newer_all v ms Hv) in *.
    exists (S n). simpl. rewrite Er. split_and!; [done | by rewrite version_after_cons |].
    destruct r as [w|]; [destruct Hc as [Hc ->]; by rewrite Hc | exact Hc].
  - injection E as <- <-. exists 0%nat. split_and!; [done | done |]. by exists (v, sql).
Qed.
End Migrations.
