(* ===== verification/Sessions.v ===== *)
(** * Field sessions ([rover/sessions.py])

    The clock a session is stamped with, the repository's queries, and its [start] and [stop] as
    a machine: a step is one statement of one of the tasks that share the connection, so any
    interleaving of enabled steps is a run. A task that is cancelled at [COMMIT] has committed.
    Not modelled: a [COMMIT] that SQLite refuses, a cancellation inside [BEGIN]. A time stamp and
    its ISO text are one value. *)

From stdpp Require Import gmap.
From S2P Require Import Prelude.
From S2P Require Import PyBytes.
From S2P Require Import Calendar.
From S2P Require Import Database.

(** ** The clock *)

Definition RECEIVER_TIME_MAX_AGE_S : Z := 5 * US.
Definition CLOCK_DISAGREE_S : Z := 5 * US.

(** What [session_clock] reads of the receiver's state; monotonic times in microseconds. *)
Record Receiver := mkReceiver {
  connected : bool; utc : option Datetime; valid_date : bool; valid_time : bool; last_epoch_mono : option Z
}.

(** [host] is [datetime.now(UTC)], [mono] is [time.monotonic()]; also whether it warns. *)
Definition session_clock (state : option Receiver) (host : Datetime) (mono : Z) : Datetime * bool :=
  match state with
  | Some s =>
      match utc s, last_epoch_mono s with
      | Some u, Some last =>
          let age := mono - last in
          if connected s && (valid_date s && valid_time s) && ((0 <=? age) && (age <=? RECEIVER_TIME_MAX_AGE_S))
          then let now := u + age in (now, CLOCK_DISAGREE_S <? Z.abs (now - host))
          else (host, false)
      | _, _ => (host, false)
      end
  | None => (host, false)
  end.

(** ** The table *)

Record Session := mkSession {
  name : option bytes; start_utc : Datetime; end_utc : option Datetime; role : option bytes; notes : option bytes
}.
Definition Sessions := Table Session.

Definition is_open (s : Session) : bool := match end_utc s with None => true | Some _ => false end.

(** [current], [get], [list]. *)
Definition current (t : Sessions) : option (Z * Session) := head (select_desc is_open 1 t).
Definition get (id : Z) (t : Sessions) : option (Z * Session) := find_row id t.
Definition list_sessions (limit : Z) (t : Sessions) : list (Z * Session) := select_desc (fun _ => true) limit t.

(** [_end]. *)
Definition end_stamp (start now : Datetime) : Datetime := Z.max start now.

(** [UPDATE sessions SET end_utc = ? WHERE id = ?]. *)
Definition set_end (id : Z) (e : Datetime) : Sessions -> Sessions :=
  update_row id (fun s => mkSession (name s) (start_utc s) (Some e) (role s) (notes s)).

(** ** [start] and [stop] *)

(** A call, with its [_stamp]. *)
Inductive Op := Start (n : option bytes) (r : bytes) (no : option bytes) (stamp : Datetime) | Stop (stamp : Datetime).
Definition op_stamp (o : Op) : Datetime := match o with Start _ _ _ s | Stop s => s end.

(** The statement a task is at: [BEGIN]; reading the open session; closing it; the insertion; the
    end of the transaction, with the key the call read or gave; reading the row it returns. *)
Inductive Phase :=
| AtBegin (o : Op) | AtRead (o : Op) | AtClose (o : Op) (cur : Z * Session) | AtInsert (o : Op)
| AtCommit (o : Op) (id : option Z) | AtGet (id : Z).

Inductive Result := Returned (s : option (Z * Session)) | Raised.

(** [seen]: what readers got, with the committed operations before it; [ops]: those operations. *)
Record Machine := mkMachine {
  db : Database Sessions; tasks : gmap nat Phase; results : list (nat * Result); ops : list Op; seen : list (list Op * Sessions)
}.

Inductive Event :=
| Call (t : nat) (o : Op)   (** a task calls [start] or [stop] *)
| Turn (t : nat)            (** its next statement runs *)
| Break (t : nat)           (** it raises instead, or the task is cancelled *)
| Read (t : nat).           (** a task without a transaction reads the table *)

Definition insert_session (o : Op) (t : Sessions) : Sessions :=
  match o with Start n r no stamp => insert_row (mkSession n stamp None (Some r) no) t | Stop _ => t end.

Definition go (t : nat) (ph : Phase) (d : Database Sessions) (m : Machine) : Machine :=
  mkMachine d (<[t := ph]> (tasks m)) (results m) (ops m) (seen m).
Definition finish (t : nat) (r : Result) (d : Database Sessions) (m : Machine) : Machine :=
  mkMachine d (delete t (tasks m)) (results m ++ [(t, r)]) (ops m) (seen m).
Definition commits (o : Op) (m : Machine) : Machine := mkMachine (db m) (tasks m) (results m) (ops m ++ [o]) (seen m).

(** The next statement of a task; [None] while it waits for the lock. *)
Definition turn (t : nat) (ph : Phase) (m : Machine) : option Machine :=
  let d := db m in
  match ph with
  | AtBegin o =>
      match begin_tx t d with Ok d => Some (go t (AtRead o) d m) | Waits => None | Raises => Some (finish t Raised d m) end
  | AtRead o =>
      match fetch t current d with
      | Ok (Some cur) => Some (go t (AtClose o cur) d m)
      | Ok None => Some (go t (match o with Start _ _ _ _ => AtInsert o | Stop _ => AtCommit o None end) d m)
      | _ => None
      end
  | AtClose o cur =>
      match execute t (set_end cur.1 (end_stamp (start_utc cur.2) (op_stamp o))) d with
      | Ok d => Some (go t (match o with Start _ _ _ _ => AtInsert o | Stop _ => AtCommit o (Some cur.1) end) d m)
      | _ => None
      end
  | AtInsert o =>
      match execute t (insert_session o) d with
      | Ok d => Some (go t (AtCommit o (Some (seq (data d)))) d m)
      | _ => None
      end
  | AtCommit o id =>
      let d := end_tx t false d in
      Some (match id with Some id => go t (AtGet id) d (commits o m) | None => finish t (Returned None) d (commits o m) end)
  | AtGet id => match fetch t (get id) d with Ok s => Some (finish t (Returned s) d m) | _ => None end
  end.

Definition step (m : Machine) (e : Event) : option Machine :=
  match e with
  | Call t o => match tasks m !! t with None => Some (go t (AtBegin o) (db m) m) | Some _ => None end
  | Turn t => ph ← tasks m !! t; turn t ph m
  | Break t =>
      ph ← tasks m !! t;
      Some (match ph with
            | AtCommit o _ => finish t Raised (end_tx t false (db m)) (commits o m)
            | _ => finish t Raised (end_tx t true (db m)) m
            end)
  | Read t =>
      match tasks m !! t, fetch t id (db m) with
      | None, Ok rows => Some (mkMachine (db m) (tasks m) (results m) (ops m) (seen m ++ [(ops m, rows)]))
      | _, _ => None
      end
  end.

Fixpoint run (m : Machine) (es : list Event) : option Machine :=
  match es with [] => Some m | e :: es => m' ← step m e; run m' es end.

Definition opened (t : Sessions) : Machine := mkMachine (mkDb t None) ∅ [] [] [].

(** ** Atomic operations *)

(** [start] and [stop], done at once. *)
Definition close_open (o : Op) (t : Sessions) : Sessions :=
  match current t with Some cur => set_end cur.1 (end_stamp (start_utc cur.2) (op_stamp o)) t | None => t end.
Definition apply_op (t : Sessions) (o : Op) : Sessions := insert_session o (close_open o t).
Definition after (t : Sessions) (os : list Op) : Sessions := foldl apply_op t os.

(** What the rows are at a statement inside a transaction, from those at its [BEGIN]. *)
Definition at_phase (ph : Phase) (saved rows : Sessions) : Prop :=
  match ph with
  | AtBegin _ | AtGet _ => False
  | AtRead _ => rows = saved
  | AtClose _ cur => rows = saved /\ current saved = Some cur
  | AtInsert o => rows = close_open o saved
  | AtCommit o _ => rows = apply_op saved o
  end.

Definition task_ok (d : Database Sessions) (t : nat) (ph : Phase) : Prop :=
  match ph with
  | AtBegin _ | AtGet _ => owns_transaction t d = false
  | _ => exists saved, tx d = Some (t, saved) /\ at_phase ph saved (data d)
  end.

Record inv (t0 : Sessions) (m : Machine) : Prop := mkInv {
  inv_tasks : forall t ph, tasks m !! t = Some ph -> task_ok (db m) t ph;
  inv_owner : forall t saved, tx (db m) = Some (t, saved) -> is_Some (tasks m !! t);
  inv_rows : committed (db m) = after t0 (ops m);
  inv_seen : Forall (fun or => or.1 `prefix_of` ops m /\ or.2 = after t0 or.1) (seen m)
}.

(** The lock is free, or the task's. *)
Definition mine (t : nat) (d : Database Sessions) : Prop := forall t' saved, tx d = Some (t', saved) -> t' = t.

Lemma serialised_mine t d : serialised t d = true -> mine t d.
Proof.
  unfold serialised, owns_transaction, locked. intros H t' saved E. rewrite E in H. simpl in H.
  rewrite orb_false_r in H. by apply Nat.eqb_eq.
Qed.

Lemma other_ok t t' d d' ph : mine t d -> mine t d' -> t' <> t -> task_ok d t' ph -> task_ok d' t' ph.
Proof.
  intros Hd Hd' Hne. unfold task_ok.
  assert (Ho : owns_transaction t' d' = false).
  { unfold owns_transaction. destruct (tx d') as [[o s]|] eqn:E; [| done]. rewrite (Hd' _ _ E). by apply Nat.eqb_neq. }
  destruct ph; try (by intros _); intros (saved & E & _); by rewrite (Hd _ _ E) in Hne.
Qed.

(** A task's step that leaves it at another statement, or ends it, with what it leaves committed. *)
Lemma moved t0 t ph d m : inv t0 m -> mine t (db m) -> mine t d -> task_ok d t ph -> committed d = committed (db m) ->
  inv t0 (go t ph d m).
Proof.
  intros [H1 H2 H3 H4] Hm Hd Hph Hc. split; simpl.
  - intros t' ph'. destruct (decide (t' = t)) as [->|Hne]; [rewrite lookup_insert_eq; by intros [= <-] |].
    rewrite lookup_insert_ne by done. intros E. exact (other_ok t t' _ _ ph' Hm Hd Hne (H1 _ _ E)).
  - intros t' saved E. rewrite (Hd _ _ E), lookup_insert_eq. done.
  - by rewrite Hc.
  - exact H4.
Qed.

Lemma ended t0 t r d m : inv t0 m -> mine t (db m) \/ d = db m -> (forall s, tx d <> Some (t, s)) -> mine t d \/ d = db m ->
  committed d = committed (db m) -> inv t0 (finish t r d m).
Proof.
  intros [H1 H2 H3 H4] Hm Hno Hd Hc. split; simpl.
  - intros t' ph'. destruct (decide (t' = t)) as [->|Hne]; [by rewrite lookup_delete_eq |].
    rewrite lookup_delete_ne by done. intros E. destruct Hm as [Hm| ->]; [| auto]. destruct Hd as [Hd| ->]; [| auto].
    exact (other_ok t t' _ _ ph' Hm Hd Hne (H1 _ _ E)).
  - intros t' saved E. destruct (decide (t' = t)) as [->|Hne]; [by apply Hno in E |].
    rewrite lookup_delete_ne by done. destruct Hd as [Hd| ->]; [by apply Hd in E | eauto].
  - by rewrite Hc.
  - exact H4.
Qed.

(** A step keeps the invariant: it is no operation, or the whole of one. *)
Lemma owner_mine t (d : Database Sessions) saved : tx d = Some (t, saved) -> mine t d.
Proof. intros E t' s' E'. congruence. Qed.

Lemma free_mine t (d : Database Sessions) : tx d = None -> mine t d.
Proof. intros E t' s' E'. congruence. Qed.

Lemma outside t (d : Database Sessions) : owns_transaction t d = false -> forall s, tx d <> Some (t, s).
Proof. unfold owns_transaction. intros H s E. rewrite E, Nat.eqb_refl in H. done. Qed.

Lemma commit_inv t0 t o id saved r ph m : inv t0 m -> tasks m !! t = Some (AtCommit o id) -> tx (db m) = Some (t, saved) ->
  data (db m) = apply_op saved o ->
  (forall n, ph = AtGet n -> inv t0 (go t ph (end_tx t false (db m)) (commits o m))) /\ inv t0 (finish t r (end_tx t false (db m)) (commits o m)).
Proof.
  intros [H1 H2 H3 H4] Et E Ed. unfold end_tx. rewrite E, Nat.eqb_refl. unfold committed in H3. rewrite E in H3.
  assert (Hrows : data (db m) = after t0 (ops m ++ [o])) by (unfold after in *; rewrite foldl_app; simpl; congruence).
  assert (Hseen : Forall (fun or => or.1 `prefix_of` ops m ++ [o] /\ or.2 = after t0 or.1) (seen m)).
  { revert H4. apply List.Forall_impl. intros or [Hp Hr]. split; [by apply prefix_app_r | done]. }
  assert (Ho : forall t' ph', t' <> t -> tasks m !! t' = Some ph' -> task_ok (mkDb (data (db m)) None) t' ph').
  { intros t' ph' Hne E'. refine (other_ok t t' _ _ _ (owner_mine _ _ _ E) (free_mine _ _ _) Hne (H1 _ _ E')). done. }
  split; [intros n ->|]; split; simpl; try done.
  - intros t' ph'. destruct (decide (t' = t)) as [->|Hne]; [rewrite lookup_insert_eq; by intros [= <-] |].
    rewrite lookup_insert_ne by done. auto.
  - intros t' ph'. destruct (decide (t' = t)) as [->|Hne]; [by rewrite lookup_delete_eq |]. rewrite lookup_delete_ne by done. auto.
Qed.

Lemma turn_inv t0 t ph m m' : inv t0 m -> tasks m !! t = Some ph -> turn t ph m = Some m' -> inv t0 m'.
Proof.
  intros Hi Et. pose proof (inv_tasks _ _ Hi _ _ Et) as Hok. destruct ph as [o|o|o cur|o|o id|id]; simpl in Hok |- *.
  - unfold begin_tx. rewrite Hok. unfold locked. destruct (tx (db m)) as [[o' s]|] eqn:E; [done |]. intros [= <-].
    apply moved; [done | by apply free_mine | by eapply owner_mine | by exists (data (db m)) | unfold committed; by rewrite E].
  - destruct Hok as (saved & E & <-). unfold fetch. destruct (serialised t (db m)); [| done].
    destruct (current (data (db m))) as [cur|] eqn:Ec; intros [= <-]; (apply moved; [done | by eapply owner_mine | by eapply owner_mine | | done]).
    + by exists (data (db m)).
    + destruct o; exists (data (db m)); simpl; unfold apply_op, close_open; by rewrite Ec.
  - destruct Hok as (saved & E & <- & Ec). unfold execute. destruct (serialised t (db m)); [| done]. intros [= <-].
    apply moved; [done | by eapply owner_mine | by eapply owner_mine | | unfold committed; simpl; by rewrite E].
    destruct o; exists (data (db m)); simpl; unfold apply_op, close_open; by rewrite Ec.
  - destruct Hok as (saved & E & Ed). unfold execute. destruct (serialised t (db m)); [| done]. intros [= <-].
    apply moved; [done | by eapply owner_mine | by eapply owner_mine | | unfold committed; simpl; by rewrite E].
    exists saved. simpl. by rewrite Ed.
  - destruct Hok as (saved & E & Ed). intros [= <-]. destruct (commit_inv t0 t o id saved (Returned None) (AtGet (default 0 id)) m Hi Et E Ed) as [Hg Hf].
    destruct id as [id|]; [by eapply Hg | exact Hf].
  - unfold fetch. destruct (serialised t (db m)) eqn:Hs; [| done]. intros [= <-].
    apply ended; [done | by right | by apply outside | by right | done].
Qed.

Lemma session_step_inv t0 m e m' : inv t0 m -> step m e = Some m' -> inv t0 m'.
Proof.
  intros Hi. destruct e as [t o|t|t|t]; simpl.
  - destruct (tasks m !! t) eqn:Et; [done |]. intros [= <-]. destruct Hi as [H1 H2 H3 H4]. split; simpl; [| | done | done].
    + intros t' ph'. destruct (decide (t' = t)) as [->|Hne]; [| by rewrite lookup_insert_ne by done; auto].
      rewrite lookup_insert_eq. intros [= <-]. simpl. unfold owns_transaction. destruct (tx (db m)) as [[o' s]|] eqn:E; [| done].
      apply Nat.eqb_neq. intros ->. destruct (H2 _ _ eq_refl) as [ph Hph]. congruence.
    + intros t' s E. rewrite lookup_insert_is_Some. destruct (decide (t = t')); eauto.
  - destruct (tasks m !! t) as [ph|] eqn:Et; [| done]. simpl. by apply turn_inv.
  - destruct (tasks m !! t) as [ph|] eqn:Et; [| done]. simpl. intros [= <-]. pose proof (inv_tasks _ _ Hi _ _ Et) as Hok.
    assert (Hout : owns_transaction t (db m) = false -> inv t0 (finish t Raised (end_tx t true (db m)) m)).
    { intros Ho. replace (end_tx t true (db m)) with (db m); [apply ended; [done | by right | by apply outside | by right | done] |].
      unfold end_tx. unfold owns_transaction in Ho. destruct (tx (db m)) as [[o s]|]; [| done]. by rewrite Ho. }
    assert (Hin : forall saved, tx (db m) = Some (t, saved) -> inv t0 (finish t Raised (end_tx t true (db m)) m)).
    { intros saved E. unfold end_tx. rewrite E, Nat.eqb_refl.
      apply ended; [done | left; by eapply owner_mine | done | left; by apply free_mine | unfold committed; by rewrite E]. }
    destruct ph; simpl in Hok; try (by auto); try (destruct Hok as (saved & E & _); by eapply Hin).
    destruct Hok as (saved & E & Ed). by eapply (commit_inv t0 t o id saved Raised (AtGet 0)).
  - destruct (tasks m !! t) eqn:Et; [done |]. unfold fetch. destruct (serialised t (db m)) eqn:Hs; [| done]. intros [= <-].
    destruct Hi as [H1 H2 H3 H4]. split; simpl; try done. apply Forall_app. split; [done |]. constructor; [| done]. split; [done |].
    simpl. rewrite <- H3. unfold committed. destruct (tx (db m)) as [[o s]|] eqn:E; [| done].
    pose proof (serialised_mine _ _ Hs _ _ E) as ->. destruct (H2 _ _ eq_refl) as [ph Hph]. congruence.
Qed.

Lemma sessions_run_inv t0 es : forall m m', inv t0 m -> run m es = Some m' -> inv t0 m'.
Proof.
  induction es as [|e es IH]; simpl; intros m m' Hi; [by intros [= <-] |].
  destruct (step m e) as [m1|] eqn:E; [| done]. simpl. apply IH. by eapply session_step_inv.
Qed.

Lemma opened_inv t0 : inv t0 (opened t0).
Proof. by split; simpl; [intros t ph; rewrite lookup_empty | | |]. Qed.

(** ** At most one open session *)

Definition opens (t : Sessions) : list (Z * Session) := List.filter (fun ks => is_open ks.2) (trows t).
Definition ends_late (s : Session) : Prop := match end_utc s with Some e => start_utc s <= e | None => True end.

Record sessions_ok (t : Sessions) : Prop := mkOk {
  ok_table : table_ok t;
  ok_one : (length (opens t) <= 1)%nat;
  ok_ends : Forall (fun ks => ends_late ks.2) (trows t)
}.

Lemma current_opens t : current t = head (rev (opens t)).
Proof. unfold current, select_desc, opens. by destruct (rev (List.filter _ _)). Qed.

Lemma open_current t cur : (length (opens t) <= 1)%nat -> current t = Some cur -> opens t = [cur].
Proof. rewrite current_opens. destruct (opens t) as [|x [|y l]]; simpl; [done | by intros _ [= ->] | lia]. Qed.

Lemma no_current t : current t = None -> opens t = [].
Proof. rewrite current_opens. intros H. rewrite <- (rev_involutive (opens t)). by destruct (rev (opens t)). Qed.

Lemma closed_all k e t : (forall kr, In kr (trows t) -> is_open kr.2 = true -> kr.1 = k) -> opens (set_end k e t) = [].
Proof.
  unfold opens, set_end, update_row. simpl. induction (trows t) as [|[k' s] l IH]; simpl; intros H; [done |].
  assert (Hl : forall kr, In kr l -> is_open kr.2 = true -> kr.1 = k) by eauto.
  destruct (k' =? k) eqn:E; simpl; [by apply IH |]. destruct (is_open s) eqn:Ho; [| by apply IH].
  apply Z.eqb_neq in E. destruct E. exact (H (k', s) (or_introl eq_refl) Ho).
Qed.

Lemma close_open_ok o t : sessions_ok t -> sessions_ok (close_open o t) /\ opens (close_open o t) = [].
Proof.
  intros [Ht H1 He]. unfold close_open. destruct (current t) as [[k s]|] eqn:Ec; [| split; [done | by apply no_current]].
  pose proof (open_current _ _ H1 Ec) as Eo.
  assert (Hk : forall kr, In kr (trows t) -> is_open kr.2 = true -> kr = (k, s)).
  { intros kr Hin Hop. assert (Hf : In kr (opens t)) by (apply filter_In; auto). rewrite Eo in Hf. by destruct Hf as [<-|[]]. }
  assert (Hs : In (k, s) (trows t)) by (apply (filter_In (fun ks => is_open ks.2)); fold (opens t); rewrite Eo; simpl; auto).
  assert (Hnone : forall e, opens (set_end k e t) = []) by (intros e; apply closed_all; intros kr H2 H3; by rewrite (Hk kr H2 H3)).
  simpl. split; [| apply Hnone]. split; [by apply update_ok | rewrite Hnone; simpl; lia |].
  unfold set_end, update_row. simpl. apply List.Forall_forall. intros kr Hin. apply in_map_iff in Hin as ([k' s'] & <- & Hin). simpl.
  destruct (k' =? k) eqn:E; [| exact (proj1 (List.Forall_forall _ _) He _ Hin)]. apply Z.eqb_eq in E. subst k'.
  pose proof (find_row_in _ _ _ Ht Hin) as F1. rewrite (find_row_in _ _ _ Ht Hs) in F1. injection F1 as <-.
  unfold ends_late, end_stamp. simpl. lia.
Qed.

Lemma apply_ok t o : sessions_ok t -> sessions_ok (apply_op t o)
  /\ length (opens (apply_op t o)) = match o with Start _ _ _ _ => 1%nat | Stop _ => 0%nat end.
Proof.
  intros Ht. destruct (close_open_ok o t Ht) as [[H1 H2 H3] Ho]. unfold apply_op.
  destruct o as [n r no stamp|stamp]; simpl; [| by rewrite Ho].
  assert (Hopens : opens (insert_row (mkSession n stamp None (Some r) no) (close_open (Start n r no stamp) t))
                   = [(seq (close_open (Start n r no stamp) t) + 1, mkSession n stamp None (Some r) no)]).
  { unfold opens in *. simpl. by rewrite List.filter_app, Ho. }
  rewrite Hopens. split; [| done]. split; [by apply insert_ok | by rewrite Hopens | simpl; apply Forall_app; by repeat constructor].
Qed.

Lemma after_ok t os : sessions_ok t -> sessions_ok (after t os)
  /\ match list.last os with
     | Some (Start _ _ _ _) => length (opens (after t os)) = 1%nat
     | Some (Stop _) => length (opens (after t os)) = 0%nat
     | None => True
     end.
Proof.
  intros Ht. induction os as [|o os IH] using rev_ind; [done |]. unfold after. rewrite foldl_app, list.last_snoc. simpl.
  destruct IH as [IH _]. destruct (apply_ok _ o IH) as [H1 H2]. split; [exact H1 |]. by destruct o.
Qed.

(** C22.  Whatever the interleaving of the tasks that start and stop sessions, and whichever of
    them fail on the way, a reader sees the table as the calls that committed before it would have
    left it had each run at once: never two open sessions, and exactly one when the last of those
    calls was a [start]; no session ends before it starts. *)
Theorem sessions_atomic t0 es m : sessions_ok t0 -> run (opened t0) es = Some m ->
  Forall (fun '(os, rows) =>
    os `prefix_of` ops m /\ rows = after t0 os /\ sessions_ok rows
    /\ match list.last os with
       | Some (Start _ _ _ _) => length (opens rows) = 1%nat
       | Some (Stop _) => length (opens rows) = 0%nat
       | None => rows = t0
       end) (seen m).
Proof.
  intros Ht Hr. pose proof (inv_seen _ _ (sessions_run_inv _ _ _ _ (opened_inv t0) Hr)) as Hs. revert Hs. apply List.Forall_impl.
  intros [os rows] [Hp Hrows]. simpl in *. subst rows. destruct (after_ok t0 os Ht) as [H1 H2]. split_and!; try done.
  destruct (list.last os) eqn:E; [done |]. by apply list.last_None in E as ->.
Qed.

(** The lock is never left behind: while a task has not returned, some task can go on. *)
Lemma sessions_progress t0 es m : run (opened t0) es = Some m -> tasks m <> ∅ -> exists t, is_Some (step m (Turn t)).
Proof.
  intros Hr Hne. pose proof (sessions_run_inv _ _ _ _ (opened_inv t0) Hr) as Hi.
  assert (Hgo : forall t ph, tasks m !! t = Some ph -> mine t (db m) -> (forall o, ph = AtBegin o -> tx (db m) = None) -> is_Some (turn t ph m)).
  { intros t ph Et Hm Hb. pose proof (inv_tasks _ _ Hi _ _ Et) as Hok.
    assert (Hs : serialised t (db m) = true).
    { unfold serialised, owns_transaction, locked. destruct (tx (db m)) as [[o s]|] eqn:E; [| done]. rewrite (Hm _ _ E). by rewrite Nat.eqb_refl. }
    destruct ph as [o|o|o cur|o|o [id|]|id]; simpl; unfold fetch, execute; rewrite ?Hs; try done.
    - unfold begin_tx, locked. rewrite (Hb _ eq_refl). by destruct (owns_transaction _ _).
    - by destruct (current _). }
  destruct (tx (db m)) as [[t s]|] eqn:E.
  - destruct (inv_owner _ _ Hi _ _ E) as [ph Et]. exists t. simpl. rewrite Et. simpl. apply Hgo; [done | by eapply owner_mine |].
    intros o ->. pose proof (inv_tasks _ _ Hi _ _ Et) as Hok. simpl in Hok. unfold owns_transaction in Hok. rewrite E, Nat.eqb_refl in Hok. done.
  - destruct (map_choose _ Hne) as (t & ph & Et). exists t. simpl. rewrite Et. simpl. apply Hgo; [done | by apply free_mine | done].
Qed.

(** ** A run: two tasks that start sessions at once, a reader between them, then a stop *)

Definition no_sessions : Sessions := mkTable [] 0.

Lemma no_sessions_ok : sessions_ok no_sessions.
Proof. split; [split; constructor | simpl; lia | constructor]. Qed.

Definition two_starts : list Event :=
  [Call 1 (Start (Some [97]) [114] None 100); Call 2 (Start None [114] None 50); Turn 2; Turn 2; Turn 2; Turn 2; Read 3;
   Turn 1; Turn 1; Turn 1; Turn 1; Turn 1; Turn 2; Turn 1; Read 3; Call 4 (Stop 120); Turn 4; Turn 4; Break 4; Read 3;
   Call 4 (Stop 90); Turn 4; Turn 4; Turn 4; Turn 4; Turn 4; Read 3].

Definition two_starts_end : Machine := default (opened no_sessions) (run (opened no_sessions) two_starts).

Lemma sessions_atomic_witness : exists m, run (opened no_sessions) two_starts = Some m /\ map (fun or => length (opens or.2)) (seen m) = [1; 1; 1; 0]%nat
  /\ Forall (fun '(os, rows) =>
       os `prefix_of` ops m /\ rows = after no_sessions os /\ sessions_ok rows
       /\ match list.last os with
          | Some (Start _ _ _ _) => length (opens rows) = 1%nat
          | Some (Stop _) => length (opens rows) = 0%nat
          | None => rows = no_sessions
          end) (seen m).
Proof.
  assert (E : run (opened no_sessions) two_starts = Some two_starts_end) by (vm_compute; reflexivity).
  exists two_starts_end. split; [exact E | split; [vm_compute; reflexivity |]].
  exact (sessions_atomic no_sessions two_starts two_starts_end no_sessions_ok E).
Defined.
