(* ===== verification/Points.v ===== *)
(** * Survey points ([rover/points.py])

    The points table and the collector of averaged points, over any type of numbers ([Geo.Num]).
    The collector is a machine: a step is what a coroutine of [PointCollector] does between two
    awaits, the reading of the open session inside [start] and the insertion of the point inside
    [_finish], so the calls of other tasks can come in between. The epochs are the states that
    [run] takes off the bus. A cancellation of the task that saves a point is not modelled. *)

From Stdlib Require Import String Reals Lra.
From stdpp Require Import gmap.
From S2P Require Import Prelude.
From S2P Require Import PyBytes.
From S2P Require Import PyText.
From S2P Require Import Calendar.
From S2P Require Import Geo.
From S2P Require Import Database.
#[local] Open Scope num_scope.

Definition ABORT_SKIP_FACTOR : Z := 5.
Definition MAX_EPOCHS : Z := 3600.
Definition CARR_FIXED : Z := 2.
Definition FIX_3D_TYPES : list Z := [3; 4].
(** [_FIX_RANK[t]], which raises for any other type. *)
Definition fix_rank (t : Z) : option Z := if t =? 3 then Some 1 else if t =? 4 then Some 0 else None.

Section Points.
Context {F : Type} {NF : Num F}.

(** What the collector reads of a [ReceiverState]. *)
Record Epoch := mkEpoch {
  lat : option F; lon : option F; height_m : option F; hmsl_m : option F; invalid_llh : bool;
  fix_type : Z; gnss_fix_ok : bool; carr_soln : Z; itow_ms : option Z; utc : option Datetime;
  h_acc_m : option F; v_acc_m : option F
}.

(** [Point]; its key is the table's. *)
Record Point := mkPoint {
  p_session_id : option Z; p_name : bytes; p_code : option bytes; p_note : option bytes; p_ts_utc : Datetime;
  p_lat : F; p_lon : F; p_height_m : F; p_hmsl_m : option F; p_n_epochs : Z; p_sd_n : F; p_sd_e : F; p_sd_u : F;
  p_fix_type : Z; p_carr_soln : Z; p_h_acc_m : option F; p_v_acc_m : option F
}.

(** ** [PointsRepo] *)

Definition Points := Table Point.
(** [add]: the table after it and the row it reads back. *)
Definition add_point (p : Point) (t : Points) : Points * option (Z * Point) :=
  let t := insert_row p t in (t, find_row (seq t) t).
Definition get_point (id : Z) (t : Points) : option (Z * Point) := find_row id t.
Definition list_points (session_id : option Z) (limit : Z) (t : Points) : list (Z * Point) :=
  select_desc (fun p => match session_id with
                        | Some s => match p_session_id p with Some s' => s' =? s | None => false end
                        | None => true
                        end) limit t.
(** [update]; [None] for its [KeyError]. *)
Definition update_point (id : Z) (name code note : option bytes) (t : Points) : Points * option (Z * Point) :=
  let set p := mkPoint (p_session_id p) (default (p_name p) name) (match code with Some _ => code | None => p_code p end)
                       (match note with Some _ => note | None => p_note p end) (p_ts_utc p) (p_lat p) (p_lon p) (p_height_m p)
                       (p_hmsl_m p) (p_n_epochs p) (p_sd_n p) (p_sd_e p) (p_sd_u p) (p_fix_type p) (p_carr_soln p)
                       (p_h_acc_m p) (p_v_acc_m p) in
  let t := match name, code, note with None, None, None => t | _, _, _ => update_row id set t end in
  (t, find_row id t).
Definition delete_point (id : Z) (t : Points) : Points * bool :=
  (delete_row id t, match find_row id t with Some _ => true | None => false end).

(** ** The collector's data *)

Inductive CollectState := Idle | Collecting | Done | Aborted.

Record CollectStatus := mkStatus {
  state : CollectState; name : option bytes; target : Z; accepted : Z; skipped : Z;
  sd_n : option F; sd_e : option F; sd_u : option F; mean_lat : option F; mean_lon : option F; mean_h : option F;
  point_id : option Z; reason : option bytes
}.

(** What [_reset] clears. *)
Record Gather := mkGather {
  session_id : option Z; code : option bytes; note : option bytes; fixed_only : bool;
  ref_llh : option (F * F * F); ref_xyz : F * F * F; es : list F; ns : list F; us : list F; dxyz : list (F * F * F);
  hmsl : list F; last_ : option Epoch; g_fix_type : Z; g_carr_soln : Z; h_acc : option F; v_acc : option F
}.

Inductive Published := Progress (s : CollectStatus) | Saved (id : Z) (p : Point).

(** [starting]: the calls of [start] that wait for the open session; [saving]: the point of a
    [_finish] that waits for its insertion. *)
Record Collector := mkCollector {
  default_epochs : Z; default_fixed_only : bool;
  status : CollectStatus; gather : Gather; saving : option Point;
  starting : gmap nat (bytes * option bytes * option bytes * Z * option bool);
  points : Points; out : list Published
}.

Definition idle : CollectStatus := mkStatus Idle None 0 0 0 None None None None None None None None.
Definition _reset (fixed : bool) : Gather :=
  mkGather None None None fixed None (num 0, num 0, num 0) [] [] [] [] [] None 0 0 None None.
Definition new_collector (epochs : Z) (fixed : bool) (t : Points) : Collector :=
  mkCollector epochs fixed idle (_reset fixed) None ∅ t [].

Definition set_status (s : CollectStatus) (c : Collector) : Collector :=
  mkCollector (default_epochs c) (default_fixed_only c) s (gather c) (saving c) (starting c) (points c) (out c).
Definition set_gather (g : Gather) (c : Collector) : Collector :=
  mkCollector (default_epochs c) (default_fixed_only c) (status c) g (saving c) (starting c) (points c) (out c).
Definition set_saving (p : option Point) (c : Collector) : Collector :=
  mkCollector (default_epochs c) (default_fixed_only c) (status c) (gather c) p (starting c) (points c) (out c).
Definition set_starting (f : gmap nat (bytes * option bytes * option bytes * Z * option bool)
    -> gmap nat (bytes * option bytes * option bytes * Z * option bool)) (c : Collector) : Collector :=
  mkCollector (default_epochs c) (default_fixed_only c) (status c) (gather c) (saving c) (f (starting c)) (points c) (out c).
Definition set_points (t : Points) (c : Collector) : Collector :=
  mkCollector (default_epochs c) (default_fixed_only c) (status c) (gather c) (saving c) (starting c) t (out c).
Definition send (p : Published) (c : Collector) : Collector :=
  mkCollector (default_epochs c) (default_fixed_only c) (status c) (gather c) (saving c) (starting c) (points c) (out c ++ [p]).
Definition _publish (c : Collector) : Collector := send (Progress (status c)) c.

Definition ended (st : CollectState) (why : bytes) (s : CollectStatus) : CollectStatus :=
  mkStatus st (name s) (target s) (accepted s) (skipped s) (sd_n s) (sd_e s) (sd_u s) (mean_lat s) (mean_lon s) (mean_h s)
           (point_id s) (Some why).

Definition collecting (c : Collector) : bool := match state (status c) with Collecting => true | _ => false end.

(** ** [start] and [cancel] *)

Inductive StartError := Busy | NoName | BadEpochs (n : Z).

(** [start] up to its read of the open session: the name and the target. *)
Definition check_start (c : Collector) (nm : bytes) (epochs : option Z) : sum StartError (bytes * Z) :=
  if collecting c then inl Busy
  else match strip nm with
       | [] => inl NoName
       | nm => let target := default (default_epochs c) epochs in
               if (1 <=? target) && (target <=? MAX_EPOCHS) then inr (nm, target) else inl (BadEpochs target)
       end.

(** The rest of it, with the open session's key; [None] when another call won the race. *)
Definition begin_collecting (nm : bytes) (cd nt : option bytes) (tgt : Z) (fixed : option bool) (session : option Z) (c : Collector)
    : option Collector :=
  if collecting c then None
  else
    let fx := default (default_fixed_only c) fixed in
    let g := _reset fx in
    let g := mkGather session cd nt fx (ref_llh g) (ref_xyz g) (es g) (ns g) (us g) (dxyz g) (hmsl g) (last_ g) (g_fix_type g)
                      (g_carr_soln g) (h_acc g) (v_acc g) in
    Some (_publish (set_status (mkStatus Collecting (Some nm) tgt 0 0 None None None None None None None None) (set_gather g c))).

Definition cancel (c : Collector) : Collector :=
  if collecting c && negb (match saving c with Some _ => true | None => false end)
  then _publish (set_status (ended Aborted (str "cancelled") (status c)) c)
  else c.

(** ** Epochs *)

(** [_worst]. *)
Definition worst (current value : option F) : option F :=
  match current, value with
  | None, _ => value
  | _, None => current
  | Some a, Some b => Some (if ltb a b then b else a)
  end.

Definition of_len {A} (l : list A) : F := num (Z.of_nat (length l)).

(** [_sd]. *)
Definition sd (values : list F) : F :=
  if (length values <? 2)%nat then num 0
  else
    let mean := sum_ values /' of_len values in
    sqrt_ (sum_ (map (fun v => power (v -' mean) 2) values) /' num (Z.of_nat (length values) - 1)).

Definition _repeats_last (last : option Epoch) (e : Epoch) : bool :=
  match last with
  | None => false
  | Some l =>
      match itow_ms e, itow_ms l with
      | None, None => match utc e, utc l with Some t, Some t' => t =? t' | _, _ => false end
      | Some i, Some j => i =? j
      | _, _ => false
      end
  end.

(** [_usable]: the position of an epoch that is. *)
Definition _usable (g : Gather) (e : Epoch) : option (F * F * F) :=
  match lat e, lon e, height_m e with
  | Some la, Some lo, Some h =>
      if invalid_llh e then None
      else if negb (mem_byte (fix_type e) FIX_3D_TYPES) || negb (gnss_fix_ok e) then None
      else if fixed_only g && negb (carr_soln e =? CARR_FIXED) then None
      else if _repeats_last (last_ g) e then None
      else Some (la, lo, h)
  | _, _, _ => None
  end.

Definition gave_up (skipped : Z) (fixed : bool) : bytes :=
  (str "gave up after " ++ str_int skipped ++ str " epochs without " ++ (if fixed then str "an RTK fixed solution" else str "a 3D fix"))%list.

Definition _skip (c : Collector) : Collector :=
  let s := status c in
  let s := mkStatus (state s) (name s) (target s) (accepted s) (skipped s + 1) (sd_n s) (sd_e s) (sd_u s) (mean_lat s) (mean_lon s)
                    (mean_h s) (point_id s) (reason s) in
  let limit := (ABORT_SKIP_FACTOR * target s)%Z in
  let s := if limit <=? skipped s then ended Aborted (gave_up (skipped s) (fixed_only (gather c))) s else s in
  _publish (set_status s c).

(** [_track_quality]; [None] where [_FIX_RANK] raises. *)
Definition _track_quality (e : Epoch) (g : Gather) : option Gather :=
  let first := match last_ g with None => true | Some _ => false end in
  ft ← (if first then Some (fix_type e)
        else a ← fix_rank (fix_type e); b ← fix_rank (g_fix_type g); Some (if a <? b then fix_type e else g_fix_type g));
  Some (mkGather (session_id g) (code g) (note g) (fixed_only g) (ref_llh g) (ref_xyz g) (es g) (ns g) (us g) (dxyz g) (hmsl g) (last_ g)
                 ft (if first then carr_soln e else Z.min (g_carr_soln g) (carr_soln e))
                 (worst (h_acc g) (h_acc_m e)) (worst (v_acc g) (v_acc_m e))).

(** The offsets of an accepted epoch, and its height above mean sea level. *)
Definition add_offsets (llh : F * F * F) (e : Epoch) (g : Gather) : Gather :=
  let '(la, lo, h) := llh in
  let '(x, y, z) := llh_to_ecef la lo h in
  let '(ref, (x0, y0, z0)) := match ref_llh g with Some r => (r, ref_xyz g) | None => ((la, lo, h), (x, y, z)) end in
  let '(rla, rlo, rh) := ref in
  let '(de, dn, du) := ecef_to_enu rla rlo rh x y z in
  mkGather (session_id g) (code g) (note g) (fixed_only g) (Some ref) (x0, y0, z0) (es g ++ [de]) (ns g ++ [dn]) (us g ++ [du])
           (dxyz g ++ [(x -' x0, y -' y0, z -' z0)]) (match hmsl_m e with Some m => hmsl g ++ [m] | None => hmsl g end)
           (last_ g) (g_fix_type g) (g_carr_soln g) (h_acc g) (v_acc g).

(** [self._last = state]. *)
Definition set_last (e : Epoch) (g : Gather) : Gather :=
  mkGather (session_id g) (code g) (note g) (fixed_only g) (ref_llh g) (ref_xyz g) (es g) (ns g) (us g) (dxyz g) (hmsl g)
           (Some e) (g_fix_type g) (g_carr_soln g) (h_acc g) (v_acc g).

(** The mean position of the epochs so far, earth-centred. *)
Definition mean_xyz (g : Gather) : F * F * F :=
  let '(x0, y0, z0) := ref_xyz g in
  let count := of_len (dxyz g) in
  (x0 +' sum_ (map (fun d => d.1.1) (dxyz g)) /' count, y0 +' sum_ (map (fun d => d.1.2) (dxyz g)) /' count,
   z0 +' sum_ (map (fun d => d.2) (dxyz g)) /' count).

Definition count_accepted (g : Gather) (s : CollectStatus) : CollectStatus :=
  let '(x, y, z) := mean_xyz g in
  let '(la, lo, h) := ecef_to_llh x y z in
  mkStatus (state s) (name s) (target s) (accepted s + 1) (skipped s) (Some (sd (ns g))) (Some (sd (es g))) (Some (sd (us g)))
           (Some la) (Some lo) (Some h) (point_id s) (reason s).

(** [_finish] up to its [await]: the point; a standard deviation that is there is itself, as [x or 0.0]
    is for a number. *)
Definition make_point (now : Datetime) (s : CollectStatus) (g : Gather) : option Point :=
  match last_ g, mean_lat s, mean_lon s, mean_h s with
  | Some l, Some la, Some lo, Some h =>
      Some (mkPoint (session_id g) (match name s with Some (b :: nm) => b :: nm | _ => str "point" end) (code g) (note g)
              (default now (utc l)) la lo h
              (match hmsl g with [] => None | m => Some (sum_ m /' of_len m) end) (accepted s)
              (default (num 0) (sd_n s)) (default (num 0) (sd_e s)) (default (num 0) (sd_u s))
              (g_fix_type g) (g_carr_soln g) (h_acc g) (v_acc g))
  | _, _, _, _ => None
  end.

(** [run]'s handler of an exception. *)
Definition failed (c : Collector) : Collector :=
  if collecting c then _publish (set_status (ended Aborted (str "internal error") (status c)) c) else c.

(** [on_epoch], up to the insertion of a point, in [run]; [now] is [datetime.now(UTC)]. *)
Definition on_epoch (e : Epoch) (now : Datetime) (c : Collector) : Collector :=
  if negb (collecting c) || match saving c with Some _ => true | None => false end then c
  else
    match _usable (gather c) e with
    | None => _skip c
    | Some llh =>
        let g := add_offsets llh e (gather c) in
        match _track_quality e g with
        | None => failed (set_gather g c)
        | Some g =>
            let g := set_last e g in
            let s := count_accepted g (status c) in
            let c := set_status s (set_gather g c) in
            if target s <=? accepted s then
              match make_point now s g with Some p => set_saving (Some p) c | None => failed c end
            else _publish c
        end
    end.

(** The rest of [_finish]: the point is stored and read back, in one step, or it is not. *)
Definition save_failed (c : Collector) : Collector :=
  set_saving None (_publish (set_status (ended Aborted (str "save failed") (status c)) c)).
Definition save_done (p : Point) (c : Collector) : Collector :=
  let c := set_saving None c in
  match add_point p (points c) with
  | (t, Some (id, p)) =>
      let s := status c in
      let s := mkStatus Done (name s) (target s) (accepted s) (skipped s) (sd_n s) (sd_e s) (sd_u s) (mean_lat s) (mean_lon s)
                        (mean_h s) (Some id) (reason s) in
      send (Saved id p) (_publish (set_status s (set_points t c)))
  | (t, None) => save_failed (set_points t c)
  end.

(** ** The machine *)

Inductive Event :=
| Start (call : nat) (nm : bytes) (cd nt : option bytes) (epochs : option Z) (fixed : option bool)
| Current (call : nat) (session : option (option Z))   (** the open session is read, or the read raised *)
| Cancel
| EpochIn (e : Epoch) (now : Datetime)
| SaveDone | SaveFailed.

Definition step (c : Collector) (ev : Event) : option Collector :=
  match ev with
  | Start call nm cd nt epochs fixed =>
      match starting c !! call with
      | Some _ => None
      | None => match check_start c nm epochs with
                | inl _ => Some c
                | inr (nm, tgt) => Some (set_starting <[call := (nm, cd, nt, tgt, fixed)]> c)
                end
      end
  | Current call session =>
      '(nm, cd, nt, tgt, fixed) ← starting c !! call;
      let c := set_starting (delete call) c in
      Some (match session with
            | Some s => default c (begin_collecting nm cd nt tgt fixed s c)
            | None => c
            end)
  | Cancel => Some (cancel c)
  | EpochIn e now => Some (on_epoch e now c)
  | SaveDone => p ← saving c; Some (save_done p c)
  | SaveFailed => _ ← saving c; Some (save_failed c)
  end.

Fixpoint run (c : Collector) (evs : list Event) : option Collector :=
  match evs with [] => Some c | ev :: evs => c' ← step c ev; run c' evs end.

(** ** What a collection gathers *)

Definition llh (e : Epoch) : F * F * F := (default (num 0) (lat e), default (num 0) (lon e), default (num 0) (height_m e)).
Definition xyz (e : Epoch) : F * F * F := let '(la, lo, h) := llh e in llh_to_ecef la lo h.
Definition diff (p q : F * F * F) : F * F * F := let '(x, y, z) := p in let '(x0, y0, z0) := q in (x -' x0, y -' y0, z -' z0).
Definition enu_from (ref : F * F * F) (p : F * F * F) : F * F * F :=
  let '(la, lo, h) := ref in let '(x, y, z) := p in ecef_to_enu la lo h x y z.
(** The offset of an epoch from the first one. *)
Definition offset (l : list Epoch) (e : Epoch) : F * F * F :=
  match l with r :: _ => enu_from (llh r) (xyz e) | [] => (num 0, num 0, num 0) end.
Definition delta (l : list Epoch) (e : Epoch) : F * F * F :=
  match l with r :: _ => diff (xyz e) (xyz r) | [] => (num 0, num 0, num 0) end.

Definition worst_fix (l : list Epoch) : Z := if existsb (fun e => fix_type e =? 4) l then 4 else 3.
Definition min_carr (l : list Epoch) : Z := match map carr_soln l with [] => 0 | c :: cs => foldl Z.min c cs end.

(** An epoch fit for a point, and a list of them none of which repeats the one before it. *)
Definition fit (fixed : bool) (e : Epoch) : Prop :=
  is_Some (lat e) /\ is_Some (lon e) /\ is_Some (height_m e) /\ invalid_llh e = false /\ In (fix_type e) FIX_3D_TYPES
  /\ gnss_fix_ok e = true /\ (fixed = true -> carr_soln e = CARR_FIXED).
Definition repeats (prev e : Epoch) : Prop :=
  (exists i, itow_ms e = Some i /\ itow_ms prev = Some i)
  \/ (itow_ms e = None /\ itow_ms prev = None /\ exists t, utc e = Some t /\ utc prev = Some t).
Fixpoint fresh (prev : option Epoch) (l : list Epoch) : Prop :=
  match l with [] => True | e :: l => match prev with Some p => ~ repeats p e | None => True end /\ fresh (Some e) l end.

Lemma repeats_last_spec prev e : _repeats_last prev e = false <-> match prev with Some p => ~ repeats p e | None => True end.
Proof.
  unfold _repeats_last, repeats. destruct prev as [p|]; [|done].
  destruct (itow_ms e) as [i|], (itow_ms p) as [j|]; [rewrite Z.eqb_neq| | |destruct (utc e) as [t|], (utc p) as [t'|]; [rewrite Z.eqb_neq|..]].
  all: split; [intros Hn [(x & E1 & E2)|(E1 & E2 & x & E3 & E4)]; congruence|].
  all: try done; intros Hn E; apply Hn; subst; eauto 6.
Qed.

Record gathered (g : Gather) (l : list Epoch) : Prop := mkGathered {
  g_ref : ref_llh g = head (map llh l);
  g_xyz : match l with [] => True | r :: _ => ref_xyz g = xyz r /\ g_fix_type g = worst_fix l /\ g_carr_soln g = min_carr l end;
  g_es : es g = map (fun e => (offset l e).1.1) l;
  g_ns : ns g = map (fun e => (offset l e).1.2) l;
  g_us : us g = map (fun e => (offset l e).2) l;
  g_dxyz : dxyz g = map (delta l) l;
  g_hmsl : hmsl g = omap hmsl_m l;
  g_last : last_ g = list.last l;
  g_h : h_acc g = foldl worst None (map h_acc_m l);
  g_v : v_acc g = foldl worst None (map v_acc_m l);
  g_fit : Forall (fit (fixed_only g)) l;
  g_fresh : fresh None l
}.

Lemma usable_fit g e p : _usable g e = Some p -> fit (fixed_only g) e /\ _repeats_last (last_ g) e = false /\ p = llh e.
Proof.
  unfold _usable, fit, llh. destruct (lat e) as [la|], (lon e) as [lo|], (height_m e) as [h|]; try done.
  destruct (invalid_llh e); [done |]. destruct (mem_byte (fix_type e) FIX_3D_TYPES) eqn:Ef; [| done]. simpl.
  destruct (gnss_fix_ok e); [| done]. simpl. destruct (fixed_only g && negb (carr_soln e =? CARR_FIXED)) eqn:Ec; [done |].
  destruct (_repeats_last (last_ g) e); [done |]. intros [= <-]. split_and!; try done.
  - unfold mem_byte in Ef. apply existsb_exists in Ef as (x & Hx & E). apply Z.eqb_eq in E. by subst.
  - intros Hf. rewrite Hf in Ec. simpl in Ec. by destruct (Z.eqb_spec (carr_soln e) CARR_FIXED).
Qed.

Lemma fresh_snoc l e : forall prev, fresh prev l -> _repeats_last (match l with [] => prev | _ => list.last l end) e = false -> fresh prev (l ++ [e]).
Proof.
  induction l as [|x l IH]; intros prev; simpl; [intros _ He; by split; [apply repeats_last_spec|] |].
  intros [Hx Hl] He. split; [done |]. apply IH; [done |]. destruct l; [done |]. exact He.
Qed.

Lemma worst_fix_snoc l e : worst_fix (l ++ [e]) = if fix_type e =? 4 then 4 else worst_fix l.
Proof. unfold worst_fix. rewrite existsb_app. simpl. rewrite orb_false_r. destruct (fix_type e =? 4), (existsb _ l); done. Qed.

Lemma min_carr_snoc r l e : min_carr ((r :: l) ++ [e]) = Z.min (min_carr (r :: l)) (carr_soln e).
Proof. unfold min_carr. simpl. by rewrite map_app, foldl_app. Qed.

(** [_FIX_RANK] has the fix type of every epoch that counts. *)
Lemma track_fix l e : In (fix_type e) FIX_3D_TYPES ->
  (a ← fix_rank (fix_type e); b ← fix_rank (worst_fix l); Some (if a <? b then fix_type e else worst_fix l)) = Some (worst_fix (l ++ [e])).
Proof.
  rewrite worst_fix_snoc. intros [<-|[<-|[]]]; unfold worst_fix; by destruct (existsb _ l).
Qed.

Lemma offset_snoc l e x : l <> [] -> offset (l ++ [e]) x = offset l x /\ delta (l ++ [e]) x = delta l x.
Proof. by destruct l. Qed.

Lemma head_llh l e : head (map llh (l ++ [e])) = Some (match l with r :: _ => llh r | [] => llh e end).
Proof. by destruct l. Qed.

Lemma snoc_map {B} (f : list Epoch -> Epoch -> B) l e : (l <> [] -> forall x, f (l ++ [e]) x = f l x) ->
  map (f l) l ++ [f (l ++ [e]) e] = map (f (l ++ [e])) (l ++ [e]).
Proof.
  intros H. rewrite map_app. simpl. f_equal. destruct l as [|r l]; [done |]. apply map_ext. intros x. symmetry. by apply H.
Qed.

Definition first_of (l : list Epoch) (e : Epoch) : Epoch := match l with r :: _ => r | [] => e end.

Lemma add_offsets_eq g l e : gathered g l ->
  add_offsets (llh e) e g
  = mkGather (session_id g) (code g) (note g) (fixed_only g) (Some (llh (first_of l e))) (xyz (first_of l e))
      (map (fun x => (offset (l ++ [e]) x).1.1) (l ++ [e])) (map (fun x => (offset (l ++ [e]) x).1.2) (l ++ [e]))
      (map (fun x => (offset (l ++ [e]) x).2) (l ++ [e])) (map (delta (l ++ [e])) (l ++ [e])) (omap hmsl_m (l ++ [e]))
      (last_ g) (g_fix_type g) (g_carr_soln g) (h_acc g) (v_acc g).
Proof.
  intros [G1 G2 G3 G4 G5 G6 G7 G8 G9 G10 G11 G12].
  assert (Hs : forall B (f : F * F * F -> B), map (fun x => f (offset (l ++ [e]) x)) (l ++ [e])
                 = map (fun x => f (offset l x)) l ++ [f (offset (l ++ [e]) e)]).
  { intros B f. symmetry. apply (snoc_map (fun l x => f (offset l x))). intros Hl x. by destruct (offset_snoc l e x Hl) as [-> _]. }
  rewrite (Hs _ (fun o => o.1.1)), (Hs _ (fun o => o.1.2)), (Hs _ (fun o => o.2)), <- (snoc_map delta l e)
    by (intros Hl x; by destruct (offset_snoc l e x Hl) as [_ ->]).
  rewrite omap_app, <- G3, <- G4, <- G5, <- G6, <- G7. unfold add_offsets.
  destruct (llh e) as [[la lo] h] eqn:El. assert (Ex : llh_to_ecef la lo h = xyz e) by (unfold xyz; by rewrite El).
  rewrite Ex. destruct (xyz e) as [[x y] z] eqn:Exyz. rewrite G1.
  assert (Hm : match hmsl_m e with Some m => hmsl g ++ [m] | None => hmsl g end = hmsl g ++ omap hmsl_m [e])
    by (simpl; destruct (hmsl_m e); simpl; by rewrite ?app_nil_r).
  rewrite Hm. destruct l as [|r l].
  - unfold offset, delta. cbn [app first_of map]. by rewrite El, Exyz.
  - destruct G2 as [Gx _]. unfold offset, delta. cbn [app first_of map]. rewrite Gx, Exyz. by destruct (xyz r) as [[x0 y0] z0], (llh r) as [[rla rlo] rh].
Qed.

Lemma gathered_snoc g l e p : gathered g l -> _usable g e = Some p ->
  exists g', _track_quality e (add_offsets p e g) = Some g' /\ gathered (set_last e g') (l ++ [e])
    /\ fixed_only g' = fixed_only g /\ session_id g' = session_id g /\ code g' = code g /\ note g' = note g.
Proof.
  intros Hg Hu. destruct (usable_fit _ _ _ Hu) as (Hfit & Hrep & ->). rewrite (add_offsets_eq _ _ _ Hg).
  destruct Hg as [G1 G2 G3 G4 G5 G6 G7 G8 G9 G10 G11 G12].
  assert (Hft : In (fix_type e) FIX_3D_TYPES) by (by destruct Hfit as (_ & _ & _ & _ & H & _)).
  assert (Hfresh : fresh None (l ++ [e])) by (apply fresh_snoc; [done |]; rewrite G8 in Hrep; destruct l; [done | exact Hrep]).
  assert (Hends : last_ (set_last e g) = list.last (l ++ [e])) by (by rewrite list.last_snoc).
  unfold _track_quality. cbn [last_ g_fix_type g_carr_soln]. rewrite G8. destruct l as [|r l].
  - eexists. split; [reflexivity |]. split_and!; try done. split; cbn; try done.
    + split_and!; try done. unfold worst_fix. cbn. by destruct Hft as [<-|[<-|[]]].
    + by rewrite G9.
    + by rewrite G10.
    + constructor; [exact Hfit | constructor].
  - destruct G2 as (Gx & Gf & Gc). destruct (list.last (r :: l)) as [e'|] eqn:El; [| by apply list.last_None in El].
    rewrite Gf, (track_fix (r :: l) e Hft), Gc. cbn [mbind option_bind]. eexists. split; [reflexivity |]. split_and!; try done.
    split; try done; cbn [set_last h_acc v_acc h_acc_m v_acc_m fixed_only last_].
    + split; [done |]. split; [done | exact (eq_sym (min_carr_snoc r l e))].
    + by rewrite G9, map_app, foldl_app.
    + by rewrite G10, map_app, foldl_app.
    + apply Forall_app. split; [exact G11 | constructor; [exact Hfit | constructor]].
Qed.

(** ** What is stored *)

(** The mean position of epochs, as the first one and the mean of their differences from it. *)
Definition mean_of (l : list Epoch) : F * F * F :=
  let '(x0, y0, z0) := match l with r :: _ => xyz r | [] => (num 0, num 0, num 0) end in
  (x0 +' sum_ (map (fun e => (delta l e).1.1) l) /' of_len l, y0 +' sum_ (map (fun e => (delta l e).1.2) l) /' of_len l,
   z0 +' sum_ (map (fun e => (delta l e).2) l) /' of_len l).

(** What a call of [start] asked for, its defaults filled in, and the session it found open. *)
Record Request := mkRequest {
  rq_name : bytes; rq_code : option bytes; rq_note : option bytes; rq_target : Z; rq_fixed : bool; rq_session : option Z
}.

Definition epochs (evs : list Event) : list Epoch := omap (fun ev => match ev with EpochIn e _ => Some e | _ => None end) evs.

(** Of the defaults [n] and [fx] and the events [past]: a call of [start], and one that began to
    collect, with epochs that came after that. *)
Definition asked (n : Z) (past : list Event) (call : nat) (name : bytes) (cd nt : option bytes) (tgt : Z) (fixed : option bool) : Prop :=
  exists nm eps, In (Start call nm cd nt eps fixed) past /\ name = strip nm /\ tgt = default n eps.
Definition requested (n : Z) (fx : bool) (past : list Event) (r : Request) (l : list Epoch) : Prop :=
  exists a d call fixed, past = a ++ Current call (Some (rq_session r)) :: d
    /\ asked n a call (rq_name r) (rq_code r) (rq_note r) (rq_target r) fixed
    /\ rq_fixed r = default fx fixed /\ l `sublist_of` epochs d.

(** The point of a request and a list of epochs. *)
Record survey (r : Request) (l : list Epoch) (p : Point) : Prop := mkSurvey {
  sv_request : p_session_id p = rq_session r /\ p_name p = rq_name r /\ p_code p = rq_code r /\ p_note p = rq_note r;
  sv_count : p_n_epochs p = rq_target r /\ rq_target r = Z.of_nat (length l) /\ 1 <= rq_target r <= MAX_EPOCHS;
  sv_fit : Forall (fit (rq_fixed r)) l;
  sv_fresh : fresh None l;
  sv_position : (p_lat p, p_lon p, p_height_m p) = let '(x, y, z) := mean_of l in ecef_to_llh x y z;
  sv_sd : p_sd_e p = sd (map (fun e => (offset l e).1.1) l) /\ p_sd_n p = sd (map (fun e => (offset l e).1.2) l)
          /\ p_sd_u p = sd (map (fun e => (offset l e).2) l);
  sv_hmsl : p_hmsl_m p = match omap hmsl_m l with [] => None | m => Some (sum_ m /' of_len m) end;
  sv_quality : p_fix_type p = worst_fix l /\ p_carr_soln p = min_carr l;
  sv_accuracy : p_h_acc_m p = foldl worst None (map h_acc_m l) /\ p_v_acc_m p = foldl worst None (map v_acc_m l);
  sv_time : exists now last, list.last l = Some last /\ p_ts_utc p = default now (utc last)
}.

Lemma mean_gathered g l : gathered g l -> l <> [] -> mean_xyz g = mean_of l.
Proof.
  intros [G1 G2 _ _ _ G6 _ _ _ _ _ _] Hl. unfold mean_xyz, mean_of. destruct l as [|r l]; [done |].
  destruct G2 as [-> _]. rewrite G6. unfold of_len. by rewrite !length_map, !map_map.
Qed.

(** The point that the epochs of a finished collection make. *)
Definition meets (r : Request) (s : CollectStatus) (g : Gather) : Prop :=
  session_id g = rq_session r /\ code g = rq_code r /\ note g = rq_note r /\ fixed_only g = rq_fixed r
  /\ name s = Some (rq_name r) /\ rq_name r <> [] /\ target s = rq_target r.

Lemma make_survey now r g l s s' p : gathered g l -> l <> [] -> s' = count_accepted g s -> meets r s g ->
  accepted s + 1 = Z.of_nat (length l) -> accepted s + 1 = target s ->
  1 <= accepted s + 1 <= MAX_EPOCHS -> make_point now s' g = Some p -> survey r l p.
Proof.
  intros Hg Hl -> (M1 & M2 & M3 & M4 & M5 & M6 & M7) Ha Ht Hmax. pose proof (mean_gathered _ _ Hg Hl) as Hm. destruct Hg as [G1 G2 G3 G4 G5 G6 G7 G8 G9 G10 G11 G12].
  unfold count_accepted. rewrite Hm. destruct (mean_of l) as [[x y] z] eqn:Em. destruct (ecef_to_llh x y z) as [[la lo] h] eqn:Ep.
  unfold make_point. cbn. destruct (last_ g) as [e|] eqn:El; [| done]. intros [= <-].
  assert (Hq : g_fix_type g = worst_fix l /\ g_carr_soln g = min_carr l) by (destruct l; [done | tauto]).
  split; cbn; try done.
  - rewrite M5. split_and!; try done. by destruct (rq_name r).
  - rewrite <- M7. lia.
  - by rewrite <- M4.
  - by rewrite Em.
  - by rewrite G3, G4, G5.
  - by rewrite G7.
  - exists now, e. split; [by rewrite <- G8 | done].
Qed.

Lemma make_point_some now s g l : gathered g l -> l <> [] -> is_Some (make_point now (count_accepted g s) g).
Proof.
  intros Hg Hl. unfold count_accepted. destruct (mean_xyz g) as [[x y] z], (ecef_to_llh x y z) as [[la lo] h].
  unfold make_point. cbn. rewrite (g_last _ _ Hg). destruct (list.last l) eqn:E; [done |]. by apply list.last_None in E.
Qed.

(** ** The collector's invariant *)

Section Collecting.
Context (n : Z) (fx : bool).

(** [past]: the events so far. *)
Record cinv (past : list Event) (c : Collector) : Prop := mkCinv {
  ci_idle : collecting c = false -> saving c = None;
  ci_defaults : default_epochs c = n /\ default_fixed_only c = fx;
  ci_collecting : collecting c = true ->
    1 <= target (status c) <= MAX_EPOCHS /\ 0 <= skipped (status c) < ABORT_SKIP_FACTOR * target (status c)
    /\ exists r l, requested n fx past r l /\ gathered (gather c) l /\ meets r (status c) (gather c)
         /\ accepted (status c) = Z.of_nat (length l)
         /\ match saving c with
            | None => accepted (status c) < target (status c)
            | Some p => accepted (status c) = target (status c) /\ survey r l p
            end;
  ci_out : forall id p, In (Saved id p) (out c) -> exists r l, requested n fx past r l /\ survey r l p;
  ci_starting : forall call nm cd nt tgt fixed, starting c !! call = Some (nm, cd, nt, tgt, fixed) ->
    1 <= tgt <= MAX_EPOCHS /\ nm <> [] /\ asked n past call nm cd nt tgt fixed;
  ci_table : table_ok (points c)
}.

Definition budget (c : Collector) : Z := target (status c) - accepted (status c) + (ABORT_SKIP_FACTOR * target (status c) - skipped (status c)).

Lemma asked_more past more call nm cd nt tgt fixed : asked n past call nm cd nt tgt fixed -> asked n (past ++ more) call nm cd nt tgt fixed.
Proof. intros (nm0 & eps & Hin & H). exists nm0, eps. split; [|done]. apply in_app_iff. by left. Qed.

Lemma requested_more past more r l l' : requested n fx past r l -> l' `sublist_of` epochs more -> requested n fx (past ++ more) r (l ++ l').
Proof.
  intros (a & d & call & fixed & -> & Ha & Hf & Hl) Hl'. exists a, (d ++ more), call, fixed. split_and!; try done.
  - by rewrite <- app_assoc.
  - unfold epochs in *. rewrite omap_app. by apply sublist_app.
Qed.
Lemma requested_later past more r l : requested n fx past r l -> requested n fx (past ++ more) r l.
Proof. intros H. rewrite <- (app_nil_r l). apply requested_more; [done|apply sublist_nil_l]. Qed.

Lemma new_cinv t : table_ok t -> cinv [] (new_collector n fx t).
Proof. by intros Ht. Qed.

Lemma cinv_later past more c : cinv past c -> cinv (past ++ more) c.
Proof.
  intros [H1 H0 H2 H3 H4 H5]. split; try done.
  - intros Hc. destruct (H2 Hc) as (Ha & Hb & r & l & Hl & Hd). split_and!; try tauto. exists r, l. split; [by apply requested_later | exact Hd].
  - intros id p Hin. destruct (H3 id p Hin) as (r & l & Hl & Hs). exists r, l. split; [by apply requested_later | exact Hs].
  - intros call nm cd nt tgt fixed E. destruct (H4 _ _ _ _ _ _ E) as (? & ? & ?). split_and!; try done; try tauto. by apply asked_more.
Qed.

(** A published status adds no point. *)
Lemma out_progress (c : Collector) s id p : In (Saved id p) (out c ++ [Progress s]) -> In (Saved id p) (out c).
Proof. intros [H|[H|[]]]%in_app_iff; [done | discriminate]. Qed.

Lemma skip_inv past c : cinv past c -> collecting c = true -> saving c = None -> cinv past (_skip c)
  /\ (collecting (_skip c) = true -> budget (_skip c) = budget c - 1 /\ target (status (_skip c)) = target (status c)).
Proof.
  intros [H1 H0 H2 H3 H4 H5] Hc Hs. destruct (H2 Hc) as (Ha & Hb & r & l & Hl & Hg & Hm & Hd & He).
  rewrite Hs in He. unfold _skip. cbn zeta. destruct (_ <=? _) eqn:E; cbn in E |- *.
  - split; [| done]. split; try done. intros id p Hin. apply out_progress in Hin. eauto.
  - apply Z.leb_gt in E. split; [| intros _; unfold budget; cbn; lia]. split; try done; cbn.
    + intros _. rewrite Hs. split_and!; [lia | lia | lia | lia |]. by exists r, l.
    + intros id p Hin. apply out_progress in Hin. eauto.
Qed.

Lemma meets_snoc r s g e p g' : meets r s g -> _track_quality e (add_offsets p e g) = Some g' ->
  fixed_only g' = fixed_only g /\ session_id g' = session_id g /\ code g' = code g /\ note g' = note g ->
  meets r (count_accepted (set_last e g') s) (set_last e g').
Proof.
  intros (M1 & M2 & M3 & M4 & M5 & M6 & M7) _ (E1 & E2 & E3 & E4). unfold meets, count_accepted.
  destruct (mean_xyz _) as [[x y] z], (ecef_to_llh x y z) as [[la lo] h]. cbn. rewrite E1, E2, E3, E4. done.
Qed.

Lemma on_epoch_inv past e now c : cinv past c -> cinv (past ++ [EpochIn e now]) (on_epoch e now c)
  /\ (collecting (on_epoch e now c) = true -> saving (on_epoch e now c) = None ->
      budget (on_epoch e now c) = budget c - 1 /\ target (status (on_epoch e now c)) = target (status c)).
Proof.
  intros Hi. pose proof (cinv_later past [EpochIn e now] c Hi) as [H1 H0 H2 H3 H4 H5]. unfold on_epoch.
  destruct (collecting c) eqn:Hc; cbn [negb orb]; [| split; [by apply cinv_later | rewrite Hc; discriminate]].
  destruct (saving c) as [p|] eqn:Hs; [split; [by apply cinv_later | rewrite Hs; discriminate] |].
  destruct (_usable (gather c) e) as [llh|] eqn:Hu.
  2: { destruct (skip_inv _ c Hi Hc Hs) as [Hk Hb]. split; [by apply cinv_later|auto]. }
  destruct (ci_collecting _ _ Hi Hc) as (Ha & Hb & r & l & Hl & Hg & Hm & Hd & He). rewrite Hs in He.
  destruct (gathered_snoc _ _ _ _ Hg Hu) as (g & Et & Hg' & Hkeep). pose proof (meets_snoc _ _ _ _ _ _ Hm Et Hkeep) as Hm'.
  rewrite Et. set (g' := set_last e g) in *. set (s := count_accepted g' (status c)) in *.
  assert (Es : state s = Collecting /\ target s = target (status c) /\ accepted s = accepted (status c) + 1 /\ skipped s = skipped (status c)).
  { unfold s, count_accepted. destruct (mean_xyz g') as [[x y] z], (ecef_to_llh x y z) as [[la lo] h]. cbn.
    unfold collecting in Hc. by destruct (state (status c)). }
  destruct Es as (Es1 & Es2 & Es3 & Es4).
  assert (Hl' : requested n fx (past ++ [EpochIn e now]) r (l ++ [e])) by (by apply requested_more).
  assert (Hne : l ++ [e] <> []) by (by destruct l).
  assert (Hlen : accepted s = Z.of_nat (length (l ++ [e]))) by (rewrite length_app; cbn [length]; lia).
  assert (Hm0 : meets r (status c) g') by (destruct Hm as (_ & _ & _ & _ & M5 & M6 & M7), Hm' as (M1 & M2 & M3 & M4 & _); done).
  destruct (target s <=? accepted s) eqn:E; zbool.
  - destruct (make_point_some now (status c) g' _ Hg' Hne) as [p Ep]. fold s in Ep. rewrite Ep.
    pose proof (make_survey now r g' _ (status c) s p Hg' Hne eq_refl Hm0 ltac:(lia) ltac:(lia) ltac:(unfold MAX_EPOCHS in *; lia) Ep) as Hsv.
    split; [| done]. split; try done; cbn.
    + unfold collecting. cbn. by rewrite Es1.
    + intros _. split_and!; [lia | lia | lia | lia |]. exists r, (l ++ [e]). split_and!; [done | done | done | done | lia | exact Hsv].
  - split; [| intros _ _; unfold budget; cbn; lia]. split; try done; cbn.
    + intros _. rewrite Hs. split_and!; [lia | lia | lia | lia |]. exists r, (l ++ [e]). split_and!; [done | done | done | done | lia].
    + intros id p Hin. apply out_progress in Hin. eauto.
Qed.

Lemma check_start_ok c nm eps nm' tgt : check_start c nm eps = inr (nm', tgt) ->
  1 <= tgt <= MAX_EPOCHS /\ nm' <> [] /\ nm' = strip nm /\ tgt = default (default_epochs c) eps.
Proof.
  unfold check_start. destruct (collecting c); [done |]. destruct (strip nm) as [|b r]; [done |].
  destruct (_ && _) eqn:E; [| done]. intros [= <- <-]. apply andb_true_iff in E as [E1 E2]. zbool. split_and!; done || lia.
Qed.

Lemma begun_inv past call nm cd nt tgt fixed session c c' : cinv past c -> 1 <= tgt <= MAX_EPOCHS -> nm <> [] ->
  asked n past call nm cd nt tgt fixed ->
  begin_collecting nm cd nt tgt fixed session c = Some c' -> cinv (past ++ [Current call (Some session)]) c'.
Proof.
  intros Hi Ht Hn Ha. destruct (cinv_later past [Current call (Some session)] c Hi) as [H1 H0 H2 H3 H4 H5].
  unfold begin_collecting. destruct (collecting c) eqn:Hc; [done |]. intros [= <-].
  split; cbn; try done.
  - intros _. rewrite (H1 eq_refl). unfold ABORT_SKIP_FACTOR. split_and!; try lia.
    exists (mkRequest nm cd nt tgt (default fx fixed) session), []. split_and!; try done; cbn; try lia.
    + exists past, [], call, fixed. split_and!; done || apply sublist_nil_l.
    + unfold meets. cbn. destruct H0 as [_ ->]. done.
  - intros id p Hin. apply out_progress in Hin. eauto.
Qed.

Lemma save_failed_inv past c : cinv past c -> cinv past (save_failed c).
Proof. intros [H1 H0 H2 H3 H4 H5]. split; cbn; try done. intros id p Hin. apply out_progress in Hin. eauto. Qed.

Lemma save_done_inv past p c : cinv past c -> saving c = Some p -> cinv past (save_done p c).
Proof.
  intros Hi Hs. pose proof Hi as [H1 H0 H2 H3 H4 H5]. assert (Hc : collecting c = true) by (destruct (collecting c); [done | by rewrite H1 in Hs]).
  destruct (H2 Hc) as (_ & _ & r & l & Hl & _ & _ & _ & Hp). rewrite Hs in Hp. destruct Hp as [_ Hp].
  unfold save_done, add_point. cbn [points set_saving]. rewrite (find_inserted p _ H5 : find_row (seq (insert_row p (points c))) _ = _).
  split; cbn; try done; [| by apply insert_ok].
  intros id q [Hin|[E|[]]]%in_app_iff; [apply out_progress in Hin; eauto |]. injection E as <- <-. eauto.
Qed.

Lemma collector_step_inv past c ev c' : cinv past c -> step c ev = Some c' -> cinv (past ++ [ev]) c'.
Proof.
  intros Hi. pose proof (cinv_later past [ev] c Hi) as Hi'.
  destruct ev as [call nm cd nt eps fixed|call session| |e now| |]; cbn.
  - destruct (starting c !! call) eqn:Ec; [done |]. destruct (check_start c nm eps) as [err|[nm' tgt]] eqn:E; intros [= <-]; [done |].
    destruct Hi' as [H1 H0 H2 H3 H4 H5]. split; try done. cbn. intros call' nm1 cd1 nt1 tgt1 fx1.
    destruct (decide (call' = call)) as [->|Hne]; [rewrite lookup_insert_eq | rewrite lookup_insert_ne by done; apply H4].
    intros [= <- <- <- <- <-]. destruct (check_start_ok _ _ _ _ _ E) as (? & ? & ? & ?). split_and!; try tauto. exists nm, eps.
    destruct H0 as [<- _]. split; [|done]. apply in_app_iff. right. by left.
  - destruct (starting c !! call) as [[[[[nm cd] nt] tgt] fixed]|] eqn:Ec; [| done]. cbn. intros [= <-].
    assert (Hd : forall ps, cinv ps c -> cinv ps (set_starting (delete call) c)).
    { intros ps [H1 H0 H2 H3 H4 H5]. split; try done. cbn. intros call' nm1 cd1 nt1 tgt1 fx1 E.
      apply lookup_delete_Some in E as [_ E]. by eapply H4. }
    destruct session as [s|]; [| by apply Hd]. destruct (begin_collecting _ _ _ _ _ _ _) eqn:E; [| by apply Hd]. cbn.
    destruct (ci_starting _ _ Hi _ _ _ _ _ _ Ec) as (? & ? & ?). eapply begun_inv; [by apply Hd | done | done | done | exact E].
  - intros [= <-]. unfold cancel. destruct (collecting c) eqn:Hc; [| done]. destruct (saving c) eqn:Hs; [done |]. cbn.
    destruct Hi' as [H1 H0 H2 H3 H4 H5]. split; cbn; try done. intros id p Hin. apply out_progress in Hin. eauto.
  - intros [= <-]. by apply on_epoch_inv.
  - destruct (saving c) as [p|] eqn:Hs; [| done]. intros [= <-]. by apply save_done_inv.
  - destruct (saving c) as [p|] eqn:Hs; [| done]. intros [= <-]. by apply save_failed_inv.
Qed.

Lemma collector_run_from evs : forall past c c', cinv past c -> run c evs = Some c' -> cinv (past ++ evs) c'.
Proof.
  induction evs as [|ev evs IH]; intros past c c' Hi; cbn [run].
  - intros [= <-]. by rewrite app_nil_r.
  - destruct (step c ev) as [c1|] eqn:E; [| done]. cbn. intros Hr. pose proof (IH _ _ _ (collector_step_inv _ _ _ _ Hi E) Hr) as H.
    by rewrite <- app_assoc in H.
Qed.

Lemma collector_run_inv t evs c : table_ok t -> run (new_collector n fx t) evs = Some c -> cinv evs c.
Proof. intros Ht Hr. exact (collector_run_from evs [] _ _ (new_cinv t Ht) Hr). Qed.

(** C23.  Every point that is announced as stored is one that a call of [start] asked for: it
    has the name, code, note, number of epochs (1 to 3600) and session of that call, and it is that
    of so many of the epochs delivered after the call began to collect, in order. Each of these
    has a 3D fix and, when the call or by default the collector wants fixed epochs only, a carrier
    solution that is fixed; none has the iTOW of the one before it (or its UTC, where neither has
    an iTOW); the position is the mean over them, the
    deviations are theirs, and the fix, the carrier solution and the accuracies are the worst
    among them. *)
Theorem points_stored t evs c id p : table_ok t -> run (new_collector n fx t) evs = Some c -> In (Saved id p) (out c) ->
  exists r l, requested n fx evs r l /\ survey r l p.
Proof. intros Ht Hr. exact (ci_out _ _ (collector_run_inv t evs c Ht Hr) id p). Qed.
End Collecting.

(** [run] over epochs alone. *)
Definition feed (c : Collector) (l : list (Epoch * Datetime)) : Collector := foldl (fun c en => on_epoch en.1 en.2 c) c l.

Lemma feed_budget n fx l : forall past c, cinv n fx past c -> collecting c = true -> saving c = None ->
  budget c <= Z.of_nat (length l) + 1 -> collecting (feed c l) = false \/ is_Some (saving (feed c l)).
Proof.
  assert (Hstay : forall l c, collecting c = false \/ is_Some (saving c) -> feed c l = c).
  { induction l0 as [|en l0 IH]; intros c Hc; [done |]. unfold feed in *. cbn. replace (on_epoch en.1 en.2 c) with c; [by apply IH |].
    unfold on_epoch. destruct Hc as [->|[p ->]]; [done | by rewrite orb_true_r]. }
  induction l as [|en l IH]; intros past c Hi Hc Hs Hb.
  - exfalso. destruct (ci_collecting _ _ _ _ Hi Hc) as (Ha & Hsk & r & l & _ & _ & _ & Hd & He). rewrite Hs in He. unfold budget in Hb. cbn in Hb. lia.
  - destruct (on_epoch_inv n fx past en.1 en.2 c Hi) as [Hi' Hn]. change (feed c (en :: l)) with (feed (on_epoch en.1 en.2 c) l).
    destruct (collecting (on_epoch en.1 en.2 c)) eqn:Hc'; [| rewrite Hstay; auto].
    destruct (saving (on_epoch en.1 en.2 c)) as [q|] eqn:Hs'; [rewrite Hstay; rewrite ?Hs'; eauto |].
    apply (IH _ _ Hi' Hc' Hs'). destruct (Hn eq_refl eq_refl) as [-> _]. cbn [length] in Hb. lia.
Qed.

(** A collection ends: once it has begun, at most six times its target of epochs, less one,
    bring it to the storing of its point or to giving up, whatever they hold. *)
Theorem collection_ends n fx t evs c l : table_ok t -> run (new_collector n fx t) evs = Some c ->
  collecting c = true -> saving c = None -> 6 * target (status c) - 1 <= Z.of_nat (length l) ->
  collecting (feed c l) = false \/ is_Some (saving (feed c l)).
Proof.
  intros Ht Hr Hc Hs Hl. pose proof (collector_run_inv n fx t evs c Ht Hr) as Hi. eapply (feed_budget n fx); [exact Hi | done | done |].
  destruct (ci_collecting _ _ _ _ Hi Hc) as (Ha & Hsk & r & l' & _ & _ & _ & Hd & _). unfold budget, ABORT_SKIP_FACTOR in *. lia.
Qed.
End Points.

Arguments Epoch F : clear implicits.
Arguments Point F : clear implicits.
Arguments Collector F : clear implicits.
Arguments Event F : clear implicits.
Arguments CollectStatus F : clear implicits.
Arguments Gather F : clear implicits.

(** ** The mean, in the real numbers *)

#[local] Open Scope R_scope.

Lemma sum_linear {A} (f g h : A -> R) a b c l :
  sum_ (map (fun x => a * f x + b * g x + c * h x) l) = a * sum_ (map f l) + b * sum_ (map g l) + c * sum_ (map h l).
Proof. cbn [sum_ real_num]. induction l as [|x l IH]; cbn; [ring |]. rewrite IH. ring. Qed.

Definition mean {A} (f : A -> R) (l : list A) : R := sum_ (map f l) / of_len l.

Lemma mean_linear {A} (f g h k : A -> R) a b c l : (forall x, k x = a * f x + b * g x + c * h x) ->
  mean k l = a * mean f l + b * mean g l + c * mean h l.
Proof. intros H. unfold mean. rewrite (map_ext _ _ H), sum_linear. unfold Rdiv. ring. Qed.

Lemma triple_eq {A B C} (a a' : A) (b b' : B) (c c' : C) : a = a' -> b = b' -> c = c' -> (a, b, c) = (a', b', c').
Proof. by intros -> -> ->. Qed.

(** Offsets as linear functions of the differences. *)
Lemma enu_linear ref x y z : let '(x0, y0, z0) := (let '(la, lo, h) := ref in llh_to_ecef la lo h) in
  let f := radians ref.1.1 in let l := radians ref.1.2 in
  enu_from ref (x0 + x, y0 + y, z0 + z)
  = (- sin l * x + cos l * y + 0 * z, - sin f * cos l * x + - (sin f * sin l) * y + cos f * z,
     cos f * cos l * x + cos f * sin l * y + sin f * z).
Proof.
  destruct ref as [[la lo] h]. destruct (llh_to_ecef la lo h) as [[x0 y0] z0] eqn:E. cbv zeta. unfold enu_from. cbn [fst snd].
  rewrite (enu_eq _ _ _ _ _ _ _ _ _ E). cbv zeta. apply triple_eq; ring.
Qed.

Lemma mean_of_offset (l : list (Epoch R)) r : head l = Some r ->
  enu_from (llh r) (mean_of l)
  = (mean (fun e => (offset l e).1.1) l, mean (fun e => (offset l e).1.2) l, mean (fun e => (offset l e).2) l).
Proof.
  destruct l as [|r' l']; [done |]. intros [= ->]. set (l := r :: l'). pose proof (enu_linear (llh r)) as Hl.
  assert (Hoff : forall e, let '(x, y, z) := delta l e in enu_from (llh r) (xyz e)
            = (- sin (radians (llh r).1.2) * x + cos (radians (llh r).1.2) * y + 0 * z,
               - sin (radians (llh r).1.1) * cos (radians (llh r).1.2) * x + - (sin (radians (llh r).1.1) * sin (radians (llh r).1.2)) * y
               + cos (radians (llh r).1.1) * z,
               cos (radians (llh r).1.1) * cos (radians (llh r).1.2) * x + cos (radians (llh r).1.1) * sin (radians (llh r).1.2) * y
               + sin (radians (llh r).1.1) * z)).
  { intros e. unfold l, delta, diff. change (let '(la, lo, h) := llh r in llh_to_ecef la lo h) with (xyz r) in Hl.
    destruct (xyz e) as [[x y] z], (xyz r) as [[x0 y0] z0]. specialize (Hl (x - x0) (y - y0) (z - z0)). cbv zeta in Hl.
    replace (x0 + (x - x0)) with x in Hl by ring. replace (y0 + (y - y0)) with y in Hl by ring. replace (z0 + (z - z0)) with z in Hl by ring. exact Hl. }
  unfold mean_of. unfold l at 1. change (let '(la, lo, h) := llh r in llh_to_ecef la lo h) with (xyz r) in Hl.
  destruct (xyz r) as [[x0 y0] z0] eqn:Ex. cbn [add div real_num].
  change (sum_ (map ?f l) / of_len l) with (mean f l). rewrite Hl. cbv zeta. symmetry.
  apply triple_eq; apply mean_linear; intros e; specialize (Hoff e); unfold offset, l; fold l; destruct (delta l e) as [[x y] z]; by rewrite Hoff.
Qed.

Definition average (v : list R) : R := sum_ v / of_len v.

Lemma average_mean {A} (f : A -> R) l : average (map f l) = mean f l.
Proof. unfold average, mean, of_len. by rewrite length_map. Qed.

(** In exact arithmetic, at every point of a collection, the mean position the collector
    works out, seen from the first epoch, is the mean of the offsets it kept: averaging offsets in the
    tangent plane and averaging earth-centred positions give the same point. *)
Theorem mean_offset n fx t evs (c : Collector R) ref : table_ok t -> run (new_collector n fx t) evs = Some c -> collecting c = true ->
  ref_llh (gather c) = Some ref ->
  enu_from ref (mean_xyz (gather c)) = (average (es (gather c)), average (ns (gather c)), average (us (gather c))).
Proof.
  intros Ht Hr Hc Href. destruct (ci_collecting _ _ _ _ (collector_run_inv n fx t evs c Ht Hr) Hc) as (_ & _ & _ & l & _ & Hg & _).
  destruct l as [|r l]; [rewrite (g_ref _ _ Hg) in Href; discriminate |].
  rewrite (mean_gathered _ _ Hg) by done. rewrite (g_ref _ _ Hg) in Href. injection Href as <-.
  rewrite (g_es _ _ Hg), (g_ns _ _ Hg), (g_us _ _ Hg), !average_mean. by apply mean_of_offset.
Qed.

(** ** A run, over whole numbers on a flat earth *)

#[local] Open Scope Z_scope.

Definition flat : Num Z := {|
  lit m k := m / 10 ^ k; add := Z.add; sub := Z.sub; mul := Z.mul; div := Z.div; opp := Z.opp; abs := Z.abs; ltb := Z.ltb; leb := Z.leb;
  sqrt_ := Z.sqrt; sin_ _ := 0; cos_ _ := 1; tan_ _ := 0; atan2 y _ := y; hypot x y := Z.sqrt (x * x + y * y);
  copysign x y := if y <? 0 then - Z.abs x else Z.abs x; power x n := x ^ Z.of_nat n; pi_ := 180; floor_div := Z.div; sum_ := foldr Z.add 0
|}.

#[local] Existing Instance flat.

Definition an_epoch (la i carr : Z) : Epoch Z := mkEpoch (Some la) (Some 7) (Some 100) None false 3 true carr (Some i) None (Some 2) None.
Definition no_points : Table (Point Z) := mkTable [] 0.
Definition a_collection : list (Event Z) :=
  [Start 1 (str " mark ") None None (Some 2) None; Start 2 (str "other") None None None None; Current 1 (Some (Some 4)); Current 2 (Some None);
   EpochIn (an_epoch 40 1 2) 10; EpochIn (an_epoch 44 2 1) 11; EpochIn (an_epoch 46 1 2) 12; Cancel; Start 3 (str "x") None None (Some 2) None;
   Current 3 (Some (Some 5)); EpochIn (an_epoch 40 3 2) 13; EpochIn (an_epoch 40 3 2) 14; EpochIn (an_epoch 44 4 1) 15; EpochIn (an_epoch 44 4 2) 15;
   Cancel; EpochIn (an_epoch 44 5 2) 16; SaveDone].
Definition a_collection_end : Collector Z := default (new_collector 30 true no_points) (run (new_collector 30 true no_points) a_collection).
Definition the_point : Point Z :=
  Eval vm_compute in match trows (points a_collection_end) with (_, p) :: _ => p | [] => mkPoint None [] None None 0 0 0 0 None 0 0 0 0 0 0 None None end.

Lemma no_points_ok : table_ok no_points.
Proof. split; constructor. Qed.

Lemma points_stored_witness : run (new_collector 30 true no_points) a_collection = Some a_collection_end
  /\ In (Saved 1 the_point) (out a_collection_end) /\ p_n_epochs the_point = 2 /\ p_session_id the_point = Some 5
  /\ exists r l, requested 30 true a_collection r l /\ survey r l the_point.
Proof.
  assert (E : run (new_collector 30 true no_points) a_collection = Some a_collection_end) by (vm_compute; reflexivity).
  assert (Hin : In (Saved 1 the_point) (out a_collection_end)) by (vm_compute; repeat (first [left; reflexivity | right])).
  split; [exact E | split; [exact Hin | split; [reflexivity | split; [reflexivity |]]]].
  exact (points_stored 30 true no_points a_collection a_collection_end 1 the_point no_points_ok E Hin).
Defined.

Definition begun : list (Event Z) := [Start 1 (str "m") None None (Some 1) None; Current 1 (Some None)].
Definition begun_end : Collector Z := default (new_collector 30 true no_points) (run (new_collector 30 true no_points) begun).
Definition five : list (Epoch Z * Datetime) := map (fun i => (an_epoch 40 i 1, 0)) [1; 2; 3; 4; 5].

Lemma collection_ends_witness : run (new_collector 30 true no_points) begun = Some begun_end
  /\ state (status (feed begun_end (take 4 five))) = Collecting
  /\ (collecting (feed begun_end five) = false \/ is_Some (saving (feed begun_end five))).
Proof.
  assert (E : run (new_collector 30 true no_points) begun = Some begun_end) by (vm_compute; reflexivity).
  split; [exact E | split; [vm_compute; reflexivity |]].
  apply (collection_ends 30 true no_points begun begun_end five no_points_ok E); [reflexivity | reflexivity |].
  vm_compute. discriminate.
Defined.

Lemma no_real_ok : table_ok (mkTable [] 0 : Table (Point R)).
Proof. split; constructor. Qed.

Lemma first_epoch (e : Epoch R) now c p : collecting c = true -> saving c = None -> ref_llh (gather c) = None -> last_ (gather c) = None ->
  _usable (gather c) e = Some p -> accepted (status c) + 1 < target (status c) ->
  collecting (on_epoch e now c) = true /\ ref_llh (gather (on_epoch e now c)) = Some p.
Proof.
  intros Hc Hs Hr Hl Hu Ht. destruct p as [[la lo] h]. unfold on_epoch. rewrite Hc, Hs, Hu. cbn [negb orb]. unfold add_offsets.
  destruct (llh_to_ecef la lo h) as [[x y] z]. rewrite Hr. destruct (ecef_to_enu _ _ _ _ _ _) as [[de dn] du].
  unfold _track_quality. cbn [last_]. rewrite Hl. cbn [mbind option_bind]. unfold count_accepted, mean_xyz. cbn [ref_xyz set_last dxyz].
  destruct (ecef_to_llh _ _ _) as [[la' lo'] h']. cbn [target accepted]. replace (_ <=? _) with false by (symmetry; zbool; lia).
  split; [exact Hc | done].
Qed.

Definition no_real_points : Table (Point R) := mkTable [] 0.
Definition a_real_epoch (la : R) (i : Z) : Epoch R := mkEpoch (Some la) (Some 20%R) (Some 5%R) None false 3 true 2 (Some i) None None None.
Definition real_start : list (Event R) := [Start 1 (str "m") None None (Some 3) None; Current 1 (Some None)].
Definition real_begun : Collector R := default (new_collector 30 true no_real_points) (run (new_collector 30 true no_real_points) real_start).
Definition real_end : Collector R := on_epoch (a_real_epoch 10 1) 0 real_begun.

Lemma run_snoc {F} {NF : Num F} evs (e : Epoch F) now : forall c c', run c evs = Some c' -> run c (evs ++ [EpochIn e now]) = Some (on_epoch e now c').
Proof.
  induction evs as [|ev evs IH]; intros c c'; cbn [run app]; [by intros [= <-] |].
  destruct (step c ev) as [c1|]; [| done]. cbn [mbind option_bind]. apply IH.
Qed.

Lemma mean_offset_witness : run (new_collector 30 true no_real_points) (real_start ++ [EpochIn (a_real_epoch 10 1) 0]) = Some real_end
  /\ enu_from (10%R, 20%R, 5%R) (mean_xyz (gather real_end))
     = (average (es (gather real_end)), average (ns (gather real_end)), average (us (gather real_end))).
Proof.
  assert (Hc : collecting real_end = true /\ ref_llh (gather real_end) = Some (10%R, 20%R, 5%R)).
  { refine (first_epoch (a_real_epoch 10 1) 0 real_begun _ _ _ _ _ _ _); reflexivity. }
  assert (Hr : run (new_collector 30 true no_real_points) (real_start ++ [EpochIn (a_real_epoch 10 1) 0]) = Some real_end).
  { apply run_snoc. reflexivity. }
  split; [exact Hr |].
  apply (mean_offset 30 true no_real_points _ real_end _ no_real_ok Hr); [exact (proj1 Hc) | exact (proj2 Hc)].
Defined.
