(* ===== verification/Link.v ===== *)
(** * Requests to the receiver and their answers ([core/link.py])

    [UbxLink] as a machine: an event is a request that registers its waiters, the end of its
    write, a frame that the dispatcher delivers, the wake-up of a request that was answered or
    whose time is up, its cancellation, or the end of the link. Times are integers of any one
    unit. [valset], [valget] and [poll] are what they make of their requests' outcomes; the
    messages themselves are built by pyubx2. *)

From Stdlib Require Import String.
From stdpp Require Import gmap.
From S2P Require Import Prelude.
From S2P Require Import PyBytes.
From S2P Require Import Framing.

Definition ACK_KEY_PREFIX : bytes := Eval vm_compute in str "ack:".
Definition CFG_VALSET : Z * Z := (0x06, 0x8A).
Definition CFG_VALGET : Z * Z := (0x06, 0x8B).

(** [_ack_key]. *)
Definition ack_key (cls mid : Z) : bytes := ACK_KEY_PREFIX ++ fmt_digits 16 2 cls ++ fmt_digits 16 2 mid.
Definition is_ack_key (key : bytes) : bool := bool_decide (take 4 key = ACK_KEY_PREFIX).

Section Link.
(** [Frame.identity]: pyubx2's names. *)
Context (identity : Frame -> bytes).

Definition ACK_ACK : bytes := str "ACK-ACK".
Definition ACK_NAK : bytes := str "ACK-NAK".

(** [_keys_for], which gives one key. *)
Definition key_for (f : Frame) : bytes :=
  let ident := identity f in
  let payload := frame_payload f in
  if (bool_decide (ident = ACK_ACK) || bool_decide (ident = ACK_NAK)) && (2 <=? Z.of_nat (length payload))
  then ack_key payload.[0] payload.[1]
  else ident.

(** ** State *)

Inductive Fut := Pending | Arrived (f : Frame) | Dead.

(** One [_Waiter] of a request: its key, its future, [robbed]. *)
Record Waiter := mkWaiter { wkey : bytes; fut : Fut; robbed : bool }.

(** [until]: when its wait ends, once its data is written. *)
Record Request := mkRequest { waiters : list Waiter; timeout : Z; until : option Z }.

Inductive Answer := Answered (f : Frame) | TimedOut | LinkStopped | WriteError | Cancelled.

(** [queues] is [_waiters]: which waiter of which request. [answers]: what the requests returned. *)
Record Link := mkLink {
  queues : gmap bytes (list (nat * nat)); stale : gmap bytes (list Z); requests : gmap nat Request; answers : list (nat * Answer)
}.
Definition new_link : Link := mkLink ∅ ∅ ∅ [].

Definition set_queues f (l : Link) : Link := mkLink (f (queues l)) (stale l) (requests l) (answers l).
Definition set_stale s (l : Link) : Link := mkLink (queues l) s (requests l) (answers l).
Definition set_requests f (l : Link) : Link := mkLink (queues l) (stale l) (f (requests l)) (answers l).
Definition set_waiter (r i : nat) (f : Waiter -> Waiter) : Link -> Link :=
  set_requests (alter (fun q => mkRequest (alter f i (waiters q)) (timeout q) (until q)) r).
Definition queue (key : bytes) (l : Link) : list (nat * nat) := default [] (queues l !! key).

(** ** Stale credits *)

Fixpoint drop_lapsed (now : Z) (deadlines : list Z) : list Z :=
  match deadlines with
  | [] => []
  | d :: r => if d <=? now then drop_lapsed now r else deadlines
  end.

(** [_purge]: the live credits of a key, and the table without the lapsed ones. *)
Definition purge (key : bytes) (now : Z) (st : gmap bytes (list Z)) : list Z * gmap bytes (list Z) :=
  match st !! key with
  | None => ([], st)
  | Some deadlines =>
      match drop_lapsed now deadlines with
      | [] => ([], delete key st)
      | live => (live, <[key := live]> st)
      end
  end.

(** [_spend_stale]. *)
Definition spend_stale (key : bytes) (now : Z) (st : gmap bytes (list Z)) : bool * gmap bytes (list Z) :=
  match purge key now st with
  | ([], st) => (false, st)
  | (_ :: [], st) => (true, delete key st)
  | (_ :: live, st) => (true, <[key := live]> st)
  end.

(** ** Requests *)

(** [_request], up to its write. *)
Definition ask (r : nat) (keys : list bytes) (timeout : Z) (l : Link) : Link :=
  let q := mkRequest (map (fun k => mkWaiter k Pending false) keys) timeout None in
  let add qs (ki : nat * bytes) := <[ki.2 := default [] (qs !! ki.2) ++ [(r, ki.1)]]> qs in
  set_requests <[r := q]> (set_queues (fun qs => foldl add qs (imap (fun i k => (i, k)) keys)) l).

Definition arrived (w : Waiter) : bool := match fut w with Arrived _ => true | _ => false end.
Definition is_done (w : Waiter) : bool := match fut w with Pending => false | _ => true end.

(** [_retire]: of each waiter that is not done, its place in the queue and, when the whole
    request went unanswered, the credit it books. *)
Definition retire_one (r : nat) (unanswered : bool) (due : Z) (now : Z) (l : Link) (iw : nat * Waiter) : Link :=
  let '(i, w) := iw in
  if is_done w then l
  else
    let l := set_queues (alter (List.filter (fun e => negb (bool_decide (e = (r, i))))) (wkey w)) l in
    if unanswered && negb (robbed w) && is_ack_key (wkey w) then
      let '(live, st) := purge (wkey w) now (stale l) in set_stale (<[wkey w := live ++ [due]]> st) l
    else l.

Definition retire (r : nat) (q : Request) (now : Z) (l : Link) : Link :=
  let unanswered := negb (existsb arrived (waiters q)) in
  foldl (retire_one r unanswered (now + timeout q) now) l (imap (fun i w => (i, w)) (waiters q)).

Definition finish (r : nat) (a : Answer) (l : Link) : Link :=
  mkLink (queues l) (stale l) (delete r (requests l)) (answers l ++ [(r, a)]).

(** What a woken request returns: the first of its futures that is done, by preference. *)
Definition outcome (q : Request) : option Answer :=
  match List.find is_done (waiters q) with
  | Some w => match fut w with Arrived f => Some (Answered f) | _ => Some LinkStopped end
  | None => None
  end.

(** [_deliver]. *)
Definition deliver (f : Frame) (now : Z) (l : Link) : Link :=
  let key := key_for f in
  let q := queue key l in
  let '(owed, st) := spend_stale key now (stale l) in
  let l := set_stale st l in
  if owed then
    match q with
    | (r, i) :: _ => set_waiter r i (fun w => mkWaiter (wkey w) (fut w) true) l
    | [] => l
    end
  else
    match q with
    | (r, i) :: rest =>
        set_waiter r i (fun w => if is_done w then w else mkWaiter (wkey w) (Arrived f) (robbed w)) (set_queues <[key := rest]> l)
    | [] => l
    end.

(** [stop]. *)
Definition stop (l : Link) : Link :=
  let kill l (e : nat * nat) := set_waiter e.1 e.2 (fun w => if is_done w then w else mkWaiter (wkey w) Dead (robbed w)) l in
  let l := foldl kill l (concat (map snd (map_to_list (queues l)))) in
  mkLink ∅ ∅ (requests l) (answers l).

(** ** The machine *)

Inductive Event :=
| Ask (r : nat) (keys : list bytes) (timeout : Z)
| Written (r : nat) (now : Z)
| WriteFailed (r : nat) (now : Z)
| Deliver (f : Frame) (now : Z)
| Wake (r : nat) (now : Z)
| Cancel (r : nat) (now : Z)
| Stop.

Definition abandon (r : nat) (a : Answer) (now : Z) (l : Link) : option Link :=
  q ← requests l !! r; Some (finish r a (retire r q now l)).

Definition step (l : Link) (ev : Event) : option Link :=
  match ev with
  | Ask r keys t => match requests l !! r with None => Some (ask r keys t l) | Some _ => None end
  | Written r now =>
      q ← requests l !! r;
      match until q with
      | None => Some (set_requests (alter (fun q => mkRequest (waiters q) (timeout q) (Some (now + timeout q))) r) l)
      | Some _ => None
      end
  | WriteFailed r now => q ← requests l !! r; match until q with None => abandon r WriteError now l | Some _ => None end
  | Deliver f now => Some (deliver f now l)
  | Wake r now =>
      q ← requests l !! r;
      u ← until q;
      match outcome q with
      | Some a => abandon r a now l
      | None => if u <=? now then abandon r TimedOut now l else None
      end
  | Cancel r now => abandon r Cancelled now l
  | Stop => Some (stop l)
  end.

Fixpoint run (l : Link) (evs : list Event) : option Link :=
  match evs with [] => Some l | ev :: evs => l' ← step l ev; run l' evs end.

(** ** [poll], [valset], [valget] *)

Definition poll_keys (msg_id raw : bytes) : list bytes := [msg_id; ack_key raw.[2] raw.[3]].
Definition valset_keys : list bytes := [ack_key CFG_VALSET.1 CFG_VALSET.2].
Definition valget_keys : list bytes := [str "CFG-VALGET"; ack_key CFG_VALGET.1 CFG_VALGET.2].

Inductive LinkError := NoAnswer | Nak | NoData | Broken (a : Answer).

(** [valset], from the outcomes of its attempts: each is made only when the one before timed out. *)
Fixpoint valset (retries : nat) (attempts : list Answer) : option (sum LinkError bool) :=
  match retries, attempts with
  | O, _ => Some (inl NoAnswer)
  | S retries, (TimedOut | LinkStopped) :: attempts => valset retries attempts
  | S _, Answered f :: _ => Some (inr (bool_decide (identity f = ACK_ACK)))
  | S _, a :: _ => Some (inl (Broken a))
  | S _, [] => None
  end.

(** [valget]: the frame it reads the values from. *)
Definition valget (a : Answer) : sum LinkError Frame :=
  match a with
  | Answered f =>
      if bool_decide (identity f = ACK_ACK) then inl NoData
      else if bool_decide (identity f = str "CFG-VALGET") then inr f
      else inl Nak
  | TimedOut | LinkStopped => inl NoAnswer
  | a => inl (Broken a)
  end.

Definition poll (a : Answer) : sum LinkError Frame :=
  match a with Answered f => inr f | TimedOut | LinkStopped => inl NoAnswer | a => inl (Broken a) end.

(** ** Correlation *)

(** Every place in a queue is that of a waiter, for that key, of a live request; no place twice. *)
Record inv (l : Link) : Prop := mkInv {
  inv_queue : forall key r i, In (r, i) (queue key l) ->
    exists q w, requests l !! r = Some q /\ waiters q !! i = Some w /\ wkey w = key /\ fut w = Pending;
  inv_nodup : forall key, NoDup (queue key l);
  inv_fut : forall r q i w f, requests l !! r = Some q -> waiters q !! i = Some w -> fut w = Arrived f -> key_for f = wkey w
}.

Lemma new_inv : inv new_link.
Proof. split; unfold queue; simpl; [intros key r i | intros key | intros r q i w f]; rewrite ?lookup_empty; by constructor || done. Qed.

Lemma queue_set f l key : queue key (set_queues f l) = default [] (f (queues l) !! key).
Proof. done. Qed.

(** The waiter that an update of one of them leaves. *)
Lemma set_waiter_lookup r i g l r' q' : requests (set_waiter r i g l) !! r' = Some q' ->
  exists q, requests l !! r' = Some q /\ timeout q' = timeout q /\ until q' = until q
    /\ waiters q' = if bool_decide (r' = r) then alter g i (waiters q) else waiters q.
Proof.
  unfold set_waiter. simpl. destruct (decide (r' = r)) as [->|Hne].
  - rewrite lookup_alter_eq, bool_decide_true by done. destruct (requests l !! r) as [q|]; [| done]. intros [= <-]. by exists q.
  - rewrite lookup_alter_ne, bool_decide_false by done. intros E. by exists q'.
Qed.

Lemma set_waiter_same r i g l q : requests l !! r = Some q ->
  requests (set_waiter r i g l) !! r = Some (mkRequest (alter g i (waiters q)) (timeout q) (until q)).
Proof. intros E. unfold set_waiter. simpl. by rewrite lookup_alter_eq, E. Qed.

Lemma set_waiter_other r i g l r' : r' <> r -> requests (set_waiter r i g l) !! r' = requests l !! r'.
Proof. intros E. unfold set_waiter. simpl. by rewrite lookup_alter_ne. Qed.

Definition enqueue (r : nat) (qs : gmap bytes (list (nat * nat))) (ki : nat * bytes) : gmap bytes (list (nat * nat)) :=
  <[ki.2 := default [] (qs !! ki.2) ++ [(r, ki.1)]]> qs.

Lemma enqueue_all r iks key : forall qs, default [] (foldl (enqueue r) qs iks !! key)
  = default [] (qs !! key) ++ map (fun ik => (r, ik.1)) (List.filter (fun ik => bool_decide (ik.2 = key)) iks).
Proof.
  induction iks as [|[i k] iks IH]; intros qs; simpl; [by rewrite app_nil_r |]. rewrite IH. unfold enqueue. simpl.
  destruct (decide (k = key)) as [->|Hne].
  - rewrite lookup_insert_eq, bool_decide_true by done. simpl. by rewrite <- app_assoc.
  - by rewrite lookup_insert_ne, bool_decide_false by done.
Qed.

Lemma ask_queue r keys t l key : queue key (ask r keys t l)
  = queue key l ++ map (fun ik => (r, ik.1)) (List.filter (fun ik => bool_decide (ik.2 = key)) (imap (fun i k => (i, k)) keys)).
Proof. apply (enqueue_all r). Qed.

Lemma imap_pairs {A} (l : list A) : forall i x, In (i, x) (imap (fun i x => (i, x)) l) <-> l !! i = Some x.
Proof.
  intros i x. rewrite <- list_elem_of_In, list_elem_of_lookup. split.
  - intros (j & H). rewrite list_lookup_imap in H. destruct (l !! j) eqn:E; [| done]. simpl in H. by injection H as -> ->.
  - intros H. exists i. by rewrite list_lookup_imap, H.
Qed.

Lemma imap_fst_nodup {A} (p : nat * A -> bool) (l : list A) : NoDup (map fst (List.filter p (imap (fun i x => (i, x)) l))).
Proof.
  assert (H : forall n, Forall (fun i => (n <= i)%nat) (map fst (List.filter p (imap (fun i x => ((n + i)%nat, x)) l)))
               /\ NoDup (map fst (List.filter p (imap (fun i x => ((n + i)%nat, x)) l)))).
  { induction l as [|x l IH]; intros n; [by repeat constructor |]. cbn [imap]. destruct (IH (S n)) as [H1 H2].
    assert (E : imap ((fun i x => ((n + i)%nat, x)) ∘ S) l = imap (fun i x => ((S n + i)%nat, x)) l) by (apply imap_ext; intros; simpl; f_equal; lia).
    cbn [List.filter]. rewrite E, Nat.add_0_r.
    assert (Hge : Forall (fun i => (n <= i)%nat) (map fst (List.filter p (imap (fun i x => ((S n + i)%nat, x)) l)))) by (revert H1; apply List.Forall_impl; lia).
    destruct (p (n, x)); [| done]. cbn [map fst]. split; [constructor; [lia | done] |]. apply list.NoDup_cons. split; [| done].
    intros Hin%list_elem_of_In. apply (proj1 (List.Forall_forall _ _) H1) in Hin. lia. }
  exact (proj2 (H 0%nat)).
Qed.

Lemma nodup_map_pair r (l : list nat) : NoDup l -> NoDup (map (fun i => (r, i) : nat * nat) l).
Proof. induction 1 as [|x l Hx Hl IH]; simpl; constructor; [| done]. intros (y & [= ->] & Hy)%list_elem_of_fmap. done. Qed.

Lemma ask_inv r keys t l : inv l -> requests l !! r = None -> inv (ask r keys t l).
Proof.
  intros [H1 H2 H3] Hr. split.
  - intros key r' i. rewrite ask_queue. intros [Hin|Hin]%in_app_iff.
    + destruct (H1 _ _ _ Hin) as (q & w & E & Hw). exists q, w. split; [| done]. simpl. rewrite lookup_insert_ne; [done | congruence].
    + apply in_map_iff in Hin as ([i' k] & [= <- <-] & Hin). apply filter_In in Hin as [Hin Hk]. apply imap_pairs in Hin.
      apply bool_decide_eq_true in Hk. simpl in Hk. subst k. eexists _, _. simpl. rewrite lookup_insert_eq. split; [done |]. simpl.
      by rewrite list_lookup_fmap, Hin.
  - intros key. rewrite ask_queue. apply list.NoDup_app. split_and!; [done | |].
    + intros [r' i] Hin%list_elem_of_In Hin'%list_elem_of_In. destruct (H1 _ _ _ Hin) as (q & w & E & _).
      apply in_map_iff in Hin' as (x & [= <- _] & _). congruence.
    + rewrite <- (map_map fst (fun i => (r, i))). apply nodup_map_pair, imap_fst_nodup.
  - intros r' q i w f. simpl. destruct (decide (r' = r)) as [->|Hne]; [rewrite lookup_insert_eq | rewrite lookup_insert_ne by done; eauto].
    intros [= <-]. simpl. rewrite list_lookup_fmap. destruct (keys !! i); [| done]. by intros [= <-].
Qed.

#[local] Arguments retire_one : simpl never.

(** What retiring a request leaves of a queue. *)
Lemma retire_one_queue r un due now l iw key :
  queue key (retire_one r un due now l iw)
  = if negb (is_done iw.2) && bool_decide (wkey iw.2 = key) then List.filter (fun e => negb (bool_decide (e = (r, iw.1)))) (queue key l)
    else queue key l.
Proof.
  destruct iw as [i w]. unfold retire_one. simpl. destruct (is_done w); [done |]. simpl.
  set (l1 := set_queues _ l). assert (Hq : queue key l1 = if bool_decide (wkey w = key)
    then List.filter (fun e => negb (bool_decide (e = (r, i)))) (queue key l) else queue key l).
  { unfold l1. rewrite queue_set. unfold queue. destruct (decide (wkey w = key)) as [->|Hne].
    - rewrite bool_decide_true, lookup_alter_eq by done. by destruct (queues l !! key).
    - by rewrite bool_decide_false, lookup_alter_ne by done. }
  destruct (_ && _ && _); [| exact Hq]. destruct (purge _ _ _) as [live st]. exact Hq.
Qed.

Lemma retire_one_requests r un due now l iw : requests (retire_one r un due now l iw) = requests l /\ answers (retire_one r un due now l iw) = answers l.
Proof.
  destruct iw as [i w]. unfold retire_one. destruct (is_done w); [done |]. destruct (_ && _ && _); [| done]. by destruct (purge _ _ _).
Qed.

Lemma retire_fold r un due now iws : forall l, let l' := foldl (retire_one r un due now) l iws in
  requests l' = requests l /\ answers l' = answers l
  /\ (forall key, queue key l' `sublist_of` queue key l)
  /\ (forall key i w, In (i, w) iws -> is_done w = false -> wkey w = key -> ~ In (r, i) (queue key l'))
  /\ (forall key, (forall i w, In (i, w) iws -> is_done w = false -> wkey w <> key) -> queue key l' = queue key l).
Proof.
  induction iws as [|[i w] iws IH]; intros l; simpl; [split_and!; try done; by intros |].
  destruct (IH (retire_one r un due now l (i, w))) as (E1 & E2 & E3 & E4 & E5).
  destruct (retire_one_requests r un due now l (i, w)) as [R1 R2]. rewrite E1, E2, R1, R2.
  assert (Hsub : forall key, queue key (retire_one r un due now l (i, w)) `sublist_of` queue key l).
  { intros key. rewrite retire_one_queue. simpl. destruct (_ && _); [| done]. clear. induction (queue key l) as [|e q IH]; simpl; [done |].
    destruct (negb _); by constructor. }
  split_and!; try done.
  - intros key. etransitivity; [apply E3 | apply Hsub].
  - intros key i' w' [[= <- <-]|Hin] Hd Hk; [| by eapply E4]. intros Hin.
    assert (Hin' : In (r, i) (queue key (retire_one r un due now l (i, w)))).
    { apply list_elem_of_In. eapply elem_of_sublist; [by apply list_elem_of_In | apply E3]. }
    rewrite retire_one_queue in Hin'. simpl in Hin'. rewrite Hd, bool_decide_true in Hin' by done. simpl in Hin'.
    apply filter_In in Hin' as [_ Hn]. by rewrite bool_decide_true in Hn.
  - intros key Hk. rewrite E5 by eauto. rewrite retire_one_queue. simpl. destruct (is_done w) eqn:Hd; [done |]. simpl.
    rewrite bool_decide_false; [done |]. by eapply Hk; [left |].
Qed.

Lemma sublist_nodup {A} (l k : list A) : l `sublist_of` k -> NoDup k -> NoDup l.
Proof.
  induction 1 as [|x l k Hs IH|x l k Hs IH]; intros H; [done | |]; apply list.NoDup_cons in H as [Hx Hk]; [| auto].
  apply list.NoDup_cons. split; [| auto]. intros Hin. by eapply Hx, elem_of_sublist.
Qed.

Lemma abandon_inv r a now l l' : inv l -> abandon r a now l = Some l' -> inv l'.
Proof.
  intros [H1 H2 H3]. unfold abandon. destruct (requests l !! r) as [q|] eqn:Er; [| done]. simpl. intros [= <-].
  unfold retire. destruct (retire_fold r (negb (existsb arrived (waiters q))) (now + timeout q) now (imap (fun i w => (i, w)) (waiters q)) l)
    as (E1 & E2 & E3 & E4 & _).
  split; unfold finish, queue; simpl.
  - intros key r' i Hin. change (default [] _) with (queue key (foldl (retire_one r (negb (existsb arrived (waiters q))) (now + timeout q) now) l (imap (fun i w => (i, w)) (waiters q)))) in Hin.
    assert (Hin' : In (r', i) (queue key l)) by (apply list_elem_of_In; eapply elem_of_sublist; [by apply list_elem_of_In | apply E3]).
    destruct (H1 _ _ _ Hin') as (q' & w & Eq & Ew & Hk & Hf). destruct (decide (r' = r)) as [->|Hne].
    + exfalso. rewrite Er in Eq. injection Eq as <-. revert Hin. apply (E4 key i w); [by apply imap_pairs | unfold is_done; by rewrite Hf | done].
    + exists q', w. rewrite lookup_delete_ne by done. by rewrite E1.
  - intros key. exact (sublist_nodup _ _ (E3 key) (H2 key)).
  - intros r' q' i w f Hr. apply lookup_delete_Some in Hr as [_ Hr]. rewrite E1 in Hr. eauto.
Qed.

Lemma set_waiter_inv_fut r i g l :
  (forall r q i w f, requests l !! r = Some q -> waiters q !! i = Some w -> fut w = Arrived f -> key_for f = wkey w) ->
  (forall q w f, requests l !! r = Some q -> waiters q !! i = Some w -> fut (g w) = Arrived f -> key_for f = wkey (g w)) ->
  forall r' q i' w f, requests (set_waiter r i g l) !! r' = Some q -> waiters q !! i' = Some w -> fut w = Arrived f -> key_for f = wkey w.
Proof.
  intros H Hg r' q i' w f Er Ew Hf. destruct (set_waiter_lookup _ _ _ _ _ _ Er) as (q0 & E0 & _ & _ & Ew0).
  rewrite Ew0 in Ew. destruct (decide (r' = r)) as [->|Hne]; [rewrite bool_decide_true in Ew by done | rewrite bool_decide_false in Ew by done; eauto].
  destruct (decide (i' = i)) as [->|Hi]; [| rewrite list_lookup_alter_ne in Ew by done; eauto].
  rewrite list_lookup_alter_eq in Ew. destruct (waiters q0 !! i) as [w0|] eqn:E; [| done]. injection Ew as <-. eauto.
Qed.

Lemma head_unique key l r i rest key' : inv l -> queue key l = (r, i) :: rest -> In (r, i) (queue key' (set_queues <[key := rest]> l)) -> False.
Proof.
  intros [H1 H2 _] Eq. unfold queue at 1. simpl. destruct (decide (key' = key)) as [->|Hne].
  - rewrite lookup_insert_eq. simpl. pose proof (H2 key) as Hn. rewrite Eq in Hn. apply list.NoDup_cons in Hn as [Hn _].
    intros Hin. by apply Hn, list_elem_of_In.
  - rewrite lookup_insert_ne by done. intros Hin. fold (queue key' l) in Hin.
    destruct (H1 _ _ _ Hin) as (q & w & E1 & E2 & Hk & _).
    assert (Hin' : In (r, i) (queue key l)) by (rewrite Eq; by left).
    destruct (H1 _ _ _ Hin') as (q' & w' & E1' & E2' & Hk' & _). congruence.
Qed.

(** Changing a waiter that no queue holds, or one in a way that leaves it waiting. *)
Lemma set_waiter_inv_queue r i g l :
  (forall key r i, In (r, i) (queue key l) -> exists q w, requests l !! r = Some q /\ waiters q !! i = Some w /\ wkey w = key /\ fut w = Pending) ->
  (forall key w, In (r, i) (queue key l) -> fut w = Pending -> wkey (g w) = wkey w /\ fut (g w) = Pending) ->
  forall key r' i', In (r', i') (queue key l) ->
    exists q w, requests (set_waiter r i g l) !! r' = Some q /\ waiters q !! i' = Some w /\ wkey w = key /\ fut w = Pending.
Proof.
  intros H Hg key r' i' Hin. destruct (H _ _ _ Hin) as (q & w & E1 & E2 & Hk & Hf). destruct (decide (r' = r)) as [->|Hne].
  - rewrite (set_waiter_same _ _ _ _ _ E1). destruct (decide (i' = i)) as [->|Hi].
    + destruct (Hg _ w Hin Hf) as [Hg1 Hg2]. eexists _, (g w). split_and!; [done | | by rewrite Hg1 | done]. simpl. by rewrite list_lookup_alter_eq, E2.
    + eexists _, w. split_and!; [done | | done | done]. simpl. by rewrite list_lookup_alter_ne.
  - rewrite set_waiter_other by done. by exists q, w.
Qed.

Lemma deliver_inv f now l : inv l -> inv (deliver f now l).
Proof.
  intros Hi. pose proof Hi as [H1 H2 H3]. unfold deliver. destruct (spend_stale (key_for f) now (stale l)) as [[] st] eqn:Es.
  - destruct (queue (key_for f) l) as [|[r i] rest] eqn:Eq; [by split |]. split; simpl.
    + apply (set_waiter_inv_queue r i _ (set_stale st l)); [exact H1 | done].
    + exact H2.
    + intros r' q i' w f' Er Ew. apply (set_waiter_inv_fut r i (fun w => mkWaiter (wkey w) (fut w) true) (set_stale st l)) with (r' := r') (q := q) (i' := i'); try done.
      intros q0 w0 f0. simpl. eauto.
  - destruct (queue (key_for f) l) as [|[r i] rest] eqn:Eq; [by split |].
    assert (Hin : In (r, i) (queue (key_for f) l)) by (rewrite Eq; by left). split.
    + apply (set_waiter_inv_queue r i _ (set_queues <[key_for f := rest]> (set_stale st l))).
      * intros key r' i' Hin'. apply H1. destruct (decide (key = key_for f)) as [->|Hne].
        -- unfold queue in Hin' at 1. simpl in Hin'. rewrite lookup_insert_eq in Hin'. rewrite Eq. by right.
        -- unfold queue in *. simpl in Hin'. by rewrite lookup_insert_ne in Hin'.
      * intros key w Hin'. exfalso. exact (head_unique _ l _ _ _ _ Hi Eq Hin').
    + intros key. unfold queue. simpl. destruct (decide (key = key_for f)) as [->|Hne].
      * rewrite lookup_insert_eq. simpl. pose proof (H2 (key_for f)) as Hn. rewrite Eq in Hn. by apply list.NoDup_cons in Hn as [_ Hn].
      * rewrite lookup_insert_ne by done. apply H2.
    + apply (set_waiter_inv_fut r i _ (set_queues <[key_for f := rest]> (set_stale st l))); [exact H3 |].
      intros q w f' Er Ew. destruct (is_done w) eqn:Ed; [by eapply H3 |]. simpl. intros [= <-].
      destruct (H1 _ _ _ Hin) as (q' & w' & Er' & Ew' & Hk & _). simpl in Er. congruence.
Qed.

Lemma kill_fut ws : forall l,
  (forall r q i w f, requests l !! r = Some q -> waiters q !! i = Some w -> fut w = Arrived f -> key_for f = wkey w) ->
  let l' := foldl (fun l (e : nat * nat) => set_waiter e.1 e.2 (fun w => if is_done w then w else mkWaiter (wkey w) Dead (robbed w)) l) l ws in
  forall r q i w f, requests l' !! r = Some q -> waiters q !! i = Some w -> fut w = Arrived f -> key_for f = wkey w.
Proof.
  induction ws as [|[r i] ws IH]; intros l H; [exact H |]. cbn zeta. apply IH, set_waiter_inv_fut; [exact H |].
  intros q w f Er Ew. destruct (is_done w); [by eapply H | done].
Qed.

Lemma link_step_inv l ev l' : inv l -> step l ev = Some l' -> inv l'.
Proof.
  intros Hi. destruct ev as [r keys t|r now|r now|f now|r now|r now|]; simpl.
  - destruct (requests l !! r) eqn:E; [done |]. intros [= <-]. by apply ask_inv.
  - destruct (requests l !! r) as [q|] eqn:E; [| done]. simpl. destruct (until q); [done |]. intros [= <-].
    destruct Hi as [H1 H2 H3]. split; [| exact H2 |].
    + intros key r' i Hin. destruct (H1 _ _ _ Hin) as (q' & w & E1 & E2). simpl. destruct (decide (r' = r)) as [->|Hne].
      * rewrite lookup_alter_eq, E1. eexists _, w. split; [reflexivity | exact E2].
      * rewrite lookup_alter_ne by done. by exists q', w.
    + intros r' q' i w f. simpl. destruct (decide (r' = r)) as [->|Hne]; [rewrite lookup_alter_eq, E | rewrite lookup_alter_ne by done; eauto].
      simpl. intros [= <-]. simpl. eauto.
  - destruct (requests l !! r) as [q|] eqn:E; [| done]. simpl. destruct (until q); [done |]. by apply abandon_inv.
  - intros [= <-]. by apply deliver_inv.
  - destruct (requests l !! r) as [q|] eqn:E; [| done]. simpl. destruct (until q) as [u|]; [| done]. simpl.
    destruct (outcome q) as [a|]; [by apply abandon_inv |]. destruct (u <=? now); [by apply abandon_inv | done].
  - by apply abandon_inv.
  - intros [= <-]. destruct Hi as [H1 H2 H3]. unfold stop. split; unfold queue; simpl.
    + intros key r i. by rewrite lookup_empty.
    + intros key. rewrite lookup_empty. constructor.
    + exact (kill_fut _ _ H3).
Qed.

(** ** Whose verdict it is

    CFG-VALSET requests, made one after the other with one timeout [T], share the key [k] of their
    answers; whatever else goes over the link goes over other keys. An observer numbers these
    requests from 1 and is told, for each frame of the key, which of them it answers. *)

Context (k : bytes) (T : Z).

(** A request that is over: whether a frame of the key came while it waited, the frame that
    answered it in time, and what it returned. *)
Record Round := mkRound { heard_ : bool; own_ : option Frame; answer_ : Answer }.

(** [last]: the number of the last request answered, [ret]: when the last one returned, [late]: its
    answer came after that, [late_before]: so did that of the one before. *)
Record Observer := mkObserver {
  req : option nat; rounds : list Round; heard : bool; own : option Frame; last : nat; ret : Z; late_before : bool; late : bool;
  honest : bool; clock : Z
}.
Definition observer (t0 : Z) : Observer := mkObserver None [] false None 0 t0 false false true t0.

Definition tick (now : Z) (g : Observer) : option Observer :=
  if clock g <=? now
  then Some (mkObserver (req g) (rounds g) (heard g) (own g) (last g) (ret g) (late_before g) (late g) (honest g) now)
  else None.

Definition current (r : nat) (g : Observer) : bool := bool_decide (req g = Some r).

(** A frame of the key: in time, or late but before the time of its request has passed once more,
    and only if the answer before was not late too; each answer at most once, in order. *)
Definition saw (f : Frame) (now : Z) (tag : nat) (g : Observer) : Observer :=
  let n := length (rounds g) in
  let active := match req g with Some _ => true | None => false end in
  let in_time := active && bool_decide (tag = S n) && bool_decide (last g < tag)%nat in
  let is_late := bool_decide (tag = n) && bool_decide (last g < tag)%nat && (now <? ret g + T) && negb (late_before g) in
  mkObserver (req g) (rounds g) (heard g || active) (if in_time then Some f else own g) (if in_time || is_late then tag else last g)
    (ret g) (late_before g) (late g || is_late) (honest g && (in_time || is_late)) (clock g).

(** The observer after a step that left the link as [l']; [None] when the requests of the key are
    not made one after the other. *)
Definition observe (ev : Event) (tag : nat) (l' : Link) (g : Observer) : option Observer :=
  match ev with
  | Ask r keys t =>
      if existsb (fun x => bool_decide (x = k)) keys then
        if bool_decide (keys = [k]) && (t =? T) && bool_decide (req g = None)
        then Some (mkObserver (Some r) (rounds g) false None (last g) (ret g) (late_before g) (late g) (honest g) (clock g))
        else None
      else Some g
  | Written _ now => tick now g
  | WriteFailed r now | Cancel r now => if current r g then None else tick now g
  | Stop => None
  | Deliver f now => g ← tick now g; Some (if bool_decide (key_for f = k) then saw f now tag g else g)
  | Wake r now =>
      g ← tick now g;
      if current r g then
        ra ← list.last (answers l');
        Some (mkObserver None (rounds g ++ [mkRound (heard g) (own g) ra.2]) false None (last g) now (late g) false (honest g) now)
      else Some g
  end.

Fixpoint watched (l : Link) (g : Observer) (evs : list (Event * nat)) : option (Link * Observer) :=
  match evs with
  | [] => Some (l, g)
  | (ev, tag) :: evs => l' ← step l ev; g' ← observe ev tag l' g; watched l' g' evs
  end.

Definition timed_out (rd : Round) : bool := match answer_ rd with TimedOut => true | _ => false end.
Definition cost (rd : Round) : Prop := heard_ rd = true /\ timed_out rd = true.

(** Rounds whose answer is their own, and no two in a row that failed although a frame came. *)
Definition own_answer (rd : Round) : Prop := forall f, answer_ rd = Answered f -> own_ rd = Some f.
Fixpoint no_chain (l : list Round) : Prop :=
  match l with a :: ((b :: _) as l) => ~ (cost a /\ cost b) /\ no_chain l | _ => True end.

Definition own_cur (fu : Fut) (rob : bool) (g : Observer) : Prop :=
  match fu with
  | Arrived f => own g = Some f /\ last g = S (length (rounds g))
  | _ => rob = false -> (last g <= length (rounds g))%nat
  end /\ (rob = true -> last g = S (length (rounds g)) \/ late g = true).

Definition waiting (l : Link) (g : Observer) (r : nat) : Prop := exists fu rob u,
  requests l !! r = Some (mkRequest [mkWaiter k fu rob] T u) /\ fu <> Dead
  /\ (forall t, u = Some t -> ret g + T <= t)
  /\ queue k l = (match fu with Pending => [(r, 0%nat)] | _ => [] end)
  /\ heard g = (rob || match fu with Pending => false | _ => true end)
  /\ (heard g = true -> stale l !! k = None)
  /\ (forall rd, list.last (rounds g) = Some rd -> cost rd -> rob = false)
  /\ (honest g = true -> own_cur fu rob g).

Record honest_ok (l : Link) (g : Observer) : Prop := mkHonest {
  h_credit : is_Some (stale l !! k) -> (last g < length (rounds g))%nat;
  h_owed : (last g < length (rounds g))%nat -> late_before g = false -> clock g < ret g + T -> is_Some (stale l !! k);
  h_late : late g = true -> (length (rounds g) <= last g)%nat;
  h_last : (last g <= length (rounds g) + match req g with Some _ => 1 | None => 0 end)%nat;
  h_own : Forall own_answer (rounds g)
}.

Record ginv (l : Link) (g : Observer) : Prop := mkGinv {
  gi_inv : inv l;
  gi_other : forall r q i w, requests l !! r = Some q -> waiters q !! i = Some w -> wkey w = k -> req g = Some r;
  gi_ret : ret g <= clock g;
  gi_stale : stale l !! k = None \/ stale l !! k = Some [ret g + T];
  gi_req : match req g with Some r => waiting l g r | None => queue k l = [] end;
  gi_last : forall rd, list.last (rounds g) = Some rd -> cost rd -> stale l !! k = None;
  gi_chain : no_chain (rounds g);
  gi_honest : honest g = true -> honest_ok l g
}.

Definition at_time (c : Z) (g : Observer) : Observer :=
  mkObserver (req g) (rounds g) (heard g) (own g) (last g) (ret g) (late_before g) (late g) (honest g) c.

Lemma ticked now g g' : tick now g = Some g' -> clock g <= now /\ g' = at_time now g.
Proof. unfold tick. destruct (_ <=? _) eqn:E; [| done]. intros [= <-]. apply Z.leb_le in E. done. Qed.

Lemma at_time_same g : at_time (clock g) g = g.
Proof. by destruct g. Qed.

(** A step that the key does not take part in. *)
Lemma ginv_frame l l' g c : ginv l g -> clock g <= c -> inv l' -> queue k l' = queue k l -> stale l' !! k = stale l !! k ->
  (forall r, req g = Some r -> requests l' !! r = requests l !! r) ->
  (forall r q i w, requests l' !! r = Some q -> waiters q !! i = Some w -> wkey w = k -> req g = Some r) ->
  ginv l' (at_time c g).
Proof.
  intros [H1 H2 H3 H4 H5 H6 H7 H8] Hc Hi Hq Hs Hr Ho. split; cbn; rewrite ?Hs; try done; [lia | |].
  - destruct (req g) as [r|] eqn:E; [| by rewrite Hq]. destruct H5 as (fu & rob & u & W1 & W2 & W3 & W4 & W5 & W6 & W7 & W8).
    exists fu, rob, u. cbn. rewrite Hr, Hq, Hs by done. split_and!; try done.
  - intros Hh. destruct (H8 Hh) as [A1 A2 A3 A4 A5]. split; cbn; rewrite ?Hs; try done. intros B1 B2 B3. apply A2; [done | done | lia].
Qed.

(** The credits of other keys. *)
Lemma purge_other key now st : key <> k -> (purge key now st).2 !! k = st !! k.
Proof.
  intros Hne. unfold purge. destruct (st !! key) as [ds|]; [| done].
  destruct (drop_lapsed now ds); simpl; [by rewrite lookup_delete_ne | by rewrite lookup_insert_ne].
Qed.

Lemma spend_other key now st : key <> k -> (spend_stale key now st).2 !! k = st !! k.
Proof.
  intros Hne. unfold spend_stale. pose proof (purge_other key now st Hne) as Hp. destruct (purge key now st) as [live st']. simpl in Hp.
  destruct live as [|d [|d' live]]; simpl; [done | by rewrite lookup_delete_ne | by rewrite lookup_insert_ne].
Qed.

Lemma retire_stale_other r un due now iws : forall l, (forall i w, In (i, w) iws -> wkey w <> k) ->
  stale (foldl (retire_one r un due now) l iws) !! k = stale l !! k.
Proof.
  induction iws as [|[i w] iws IH]; intros l Hk; simpl; [done |]. rewrite IH by (intros i' w' Hin; apply (Hk i' w'); by right).
  assert (Hw : wkey w <> k) by (apply (Hk i w); by left). unfold retire_one. destruct (is_done w); [done |].
  destruct (_ && _ && _); [| done]. simpl. pose proof (purge_other (wkey w) now (stale l) Hw) as Hp.
  destruct (purge (wkey w) now (stale l)) as [live st]. simpl in *. by rewrite lookup_insert_ne.
Qed.

(** A request of other keys that ends. *)
Lemma abandon_other r a now l l' g : ginv l g -> abandon r a now l = Some l' -> req g <> Some r ->
  queue k l' = queue k l /\ stale l' !! k = stale l !! k /\ (forall r', req g = Some r' -> requests l' !! r' = requests l !! r')
  /\ (forall r' q i w, requests l' !! r' = Some q -> waiters q !! i = Some w -> wkey w = k -> req g = Some r').
Proof.
  intros Hg. unfold abandon. destruct (requests l !! r) as [q|] eqn:Er; [| done]. simpl. intros [= <-] Hne.
  assert (Hk : forall i w, In (i, w) (imap (fun i w => (i, w)) (waiters q)) -> wkey w <> k).
  { intros i w Hin%imap_pairs Hw. apply Hne. eapply gi_other; eauto. }
  unfold retire. destruct (retire_fold r (negb (existsb arrived (waiters q))) (now + timeout q) now (imap (fun i w => (i, w)) (waiters q)) l)
    as (E1 & E2 & E3 & E4 & E5). split_and!.
  - apply (E5 k). eauto.
  - unfold finish. simpl. by apply retire_stale_other.
  - intros r' Hr'. unfold finish. simpl. rewrite lookup_delete_ne by congruence. by rewrite E1.
  - intros r' q' i w Hq. unfold finish in Hq. simpl in Hq. apply lookup_delete_Some in Hq as [_ Hq]. rewrite E1 in Hq. eapply gi_other, Hq. exact Hg.
Qed.

(** A frame of another key. *)
Lemma deliver_other f now l g : ginv l g -> key_for f <> k ->
  queue k (deliver f now l) = queue k l /\ stale (deliver f now l) !! k = stale l !! k
  /\ (forall r', req g = Some r' -> requests (deliver f now l) !! r' = requests l !! r')
  /\ (forall r' q i w, requests (deliver f now l) !! r' = Some q -> waiters q !! i = Some w -> wkey w = k -> req g = Some r').
Proof.
  intros Hg Hne. pose proof (gi_inv _ _ Hg) as [H1 _ _]. pose proof (spend_other _ now (stale l) Hne) as Hs. unfold deliver.
  destruct (spend_stale (key_for f) now (stale l)) as [owed st]. simpl in Hs.
  assert (Hhead : forall r i rest, queue (key_for f) l = (r, i) :: rest ->
     exists q w, requests l !! r = Some q /\ waiters q !! i = Some w /\ wkey w = key_for f).
  { intros r i rest E. destruct (H1 (key_for f) r i) as (q & w & E1 & E2 & E3 & _); [rewrite E; by left |]. by exists q, w. }
  assert (Hset : forall r i h l1, requests l1 = requests l -> queue (key_for f) l <> [] -> head (queue (key_for f) l) = Some (r, i) ->
     (forall w, wkey (h w) = wkey w) ->
     (forall r', req g = Some r' -> requests (set_waiter r i h l1) !! r' = requests l !! r')
     /\ (forall r' q i' w, requests (set_waiter r i h l1) !! r' = Some q -> waiters q !! i' = Some w -> wkey w = k -> req g = Some r')).
  { intros r i h l1 El Hq Hh Hw. destruct (queue (key_for f) l) as [|[r0 i0] rest] eqn:Eq; [done |]. injection Hh as -> ->.
    destruct (Hhead _ _ _ eq_refl) as (q & w & E1 & E2 & E3). split.
    - intros r' Hr'. assert (r' <> r); [| by rewrite set_waiter_other, El].
      intros ->. pose proof (gi_req _ _ Hg) as Hreq. rewrite Hr' in Hreq. destruct Hreq as (fu & rob & u & W & _).
      rewrite E1 in W. injection W as ->. destruct i as [|i]; [| done]. injection E2 as <-. done.
    - intros r' q' i' w' Hq' Hw' Hk. destruct (set_waiter_lookup _ _ _ _ _ _ Hq') as (q0 & A1 & _ & _ & A2). rewrite El in A1. rewrite A2 in Hw'.
      destruct (decide (r' = r)) as [->|Hr]; [rewrite bool_decide_true in Hw' by done | rewrite bool_decide_false in Hw' by done; eapply gi_other; eauto].
      rewrite list_lookup_alter in Hw'. case_decide as Hi; [| eapply gi_other; eauto]. subst i'.
      destruct (waiters q0 !! i) as [w0|] eqn:Ew; [| done]. injection Hw' as <-. rewrite Hw in Hk. eapply gi_other; eauto. }
  destruct owed, (queue (key_for f) l) as [|[r i] rest] eqn:Eq.
  - split_and!; try done. intros r' q i w. apply (gi_other _ _ Hg).
  - destruct (Hset r i (fun w => mkWaiter (wkey w) (fut w) true) (set_stale st l)) as [Ha Hb]; [done | done | done | done |]. split_and!; done.
  - split_and!; try done. intros r' q i w. apply (gi_other _ _ Hg).
  - destruct (Hset r i (fun w => if is_done w then w else mkWaiter (wkey w) (Arrived f) (robbed w)) (set_queues <[key_for f:=rest]> (set_stale st l)))
      as [Ha Hb]; [done | done | done | intros w; by destruct (is_done w) |]. split_and!; try done.
    unfold queue. simpl. by rewrite lookup_insert_ne.
Qed.

(** The credit of the key, spent or lapsed. *)
Lemma spend_k now l g : ginv l g ->
  match stale l !! k with
  | Some _ => if ret g + T <=? now then exists st, spend_stale k now (stale l) = (false, st) /\ st !! k = None
              else exists st, spend_stale k now (stale l) = (true, st) /\ st !! k = None
  | None => spend_stale k now (stale l) = (false, stale l)
  end.
Proof.
  intros Hg. unfold spend_stale, purge. destruct (gi_stale _ _ Hg) as [-> | ->]; [done |]. cbn [drop_lapsed].
  destruct (ret g + T <=? now); eexists; split; try reflexivity; by rewrite lookup_delete_eq.
Qed.

(** What an honest observer makes of a frame. *)
Lemma saw_honest f now tag g : honest (saw f now tag g) = true -> honest g = true /\
  ((tag = S (length (rounds g)) /\ (last g < tag)%nat /\ req g <> None /\ own (saw f now tag g) = Some f /\ late (saw f now tag g) = late g)
   \/ (tag = length (rounds g) /\ (last g < tag)%nat /\ now < ret g + T /\ late_before g = false /\ late (saw f now tag g) = true))
  /\ last (saw f now tag g) = tag.
Proof.
  unfold saw. cbn. set (act := match req g with Some _ => true | None => false end).
  set (it := act && _ && _). set (il := _ && _ && _ && _). intros [Hh Hor]%andb_true_iff. split; [exact Hh |]. rewrite Hor. split; [| done].
  destruct it eqn:Eit.
  - left. unfold it in Eit. rewrite !andb_true_iff, !bool_decide_eq_true in Eit. destruct Eit as [[Ha Ht] Hl].
    split_and!; [done | done | unfold act in Ha; by destruct (req g) | done |].
    assert (il = false) as ->; [| by rewrite orb_false_r]. unfold il. rewrite bool_decide_false by lia. done.
  - right. simpl in Hor. pose proof Hor as Hil. unfold il in Hil. rewrite !andb_true_iff, !bool_decide_eq_true, negb_true_iff in Hil. destruct Hil as [[[Ha Ht] Hl] Hb].
    apply Z.ltb_lt in Hl. rewrite Hor, orb_true_r. done.
Qed.

Lemma saw_honest_ok f now tag l l' g : ginv l g -> clock g <= now -> stale l' !! k = None ->
  honest (saw f now tag (at_time now g)) = true -> honest_ok l' (saw f now tag (at_time now g)).
Proof.
  intros Hg Hc Hs Hh. destruct (saw_honest _ _ _ _ Hh) as (Hh0 & Hor & Hlast). cbn [honest at_time rounds last ret late_before late own req] in Hor, Hh0.
  destruct (gi_honest _ _ Hg Hh0) as [A1 A2 A3 A4 A5]. split; rewrite ?Hlast; cbn [rounds req saw at_time].
  - rewrite Hs. intros [x Hx]. done.
  - intros Hl. destruct Hor as [(-> & _)|(-> & _)]; lia.
  - intros _. destruct Hor as [(-> & _)|(-> & _)]; lia.
  - destruct Hor as [(-> & _ & Hr & _)|(-> & _)]; [destruct (req g); [lia | done] | lia].
  - exact A5.
Qed.

Lemma deliver_k f now tag l g : ginv l g -> key_for f = k -> clock g <= now -> ginv (deliver f now l) (saw f now tag (at_time now g)).
Proof.
  intros Hg Hk Hc. pose proof (deliver_inv f now l (gi_inv _ _ Hg)) as Hi. pose proof (spend_k now l g Hg) as Hsp.
  pose proof (saw_honest_ok f now tag l) as Hho. revert Hi. unfold deliver. rewrite Hk.
  pose proof Hg as [H1 H2 H3 H4 H5 H6 H7 H8].
  assert (Hst : exists owed st, spend_stale k now (stale l) = (owed, st) /\ st !! k = None
    /\ (owed = true -> stale l !! k <> None /\ now < ret g + T) /\ (owed = false -> is_Some (stale l !! k) -> ret g + T <= now)).
  { destruct (stale l !! k) as [ds|] eqn:E.
    - destruct (ret g + T <=? now) eqn:Et; destruct Hsp as (st & E1 & E2).
      + exists false, st. apply Z.leb_le in Et. done.
      + exists true, st. apply Z.leb_gt in Et. split_and!; done.
    - by exists false, (stale l). }
  destruct Hst as (owed & st & -> & Hst & Howed & Hfree).
  assert (Hnone : forall l', stale l' = st -> requests l' = requests l -> queue k l' = [] -> req g = None -> inv l' ->
            ginv l' (saw f now tag (at_time now g))).
  { intros l' Es Er Eq Hr Hi. split; cbn [saw at_time req rounds ret clock]; rewrite ?Es, ?Er; try done; [lia | by left | by rewrite Hr |].
    intros Hh. apply (Hho l' g); [done | done | by rewrite Es | exact Hh]. }
  destruct (req g) as [r|] eqn:Er.
  2: { rewrite H5. destruct owed; intros Hi; by apply Hnone. }
  destruct H5 as (fu & rob & u & W1 & W2 & W3 & W4 & W5 & W6 & W7 & W8).
  assert (Hsome : forall l' fu' rob', stale l' = st -> requests l' !! r = Some (mkRequest [mkWaiter k fu' rob'] T u) -> fu' <> Dead ->
     (forall r' q i w, requests l' !! r' = Some q -> waiters q !! i = Some w -> wkey w = k -> Some r = Some r') ->
     queue k l' = (match fu' with Pending => [(r, 0%nat)] | _ => [] end) ->
     (rob' || match fu' with Pending => false | _ => true end) = true ->
     (forall rd, list.last (rounds g) = Some rd -> cost rd -> rob' = false) ->
     (honest (saw f now tag (at_time now g)) = true -> own_cur fu' rob' (saw f now tag (at_time now g))) -> inv l' ->
     ginv l' (saw f now tag (at_time now g))).
  { intros l' fu' rob' Es Er' Hd Ho Hq Hrob Hch Hown Hi. split; cbn [saw at_time req rounds ret clock]; rewrite ?Es; try done; [by rewrite Er | lia | by left | |].
    - rewrite Er. exists fu', rob', u. cbn [saw at_time req rounds ret clock heard]. rewrite Es, Er, Hrob, orb_true_r. by split_and!.
    - intros Hh. apply (Hho l' g); [done | done | by rewrite Es | exact Hh]. }
  assert (Hset : forall h l1, requests l1 = requests l -> (forall w, wkey (h w) = wkey w) ->
     requests (set_waiter r 0 h l1) !! r = Some (mkRequest [h (mkWaiter k fu rob)] T u)
     /\ (forall r' q i w, requests (set_waiter r 0 h l1) !! r' = Some q -> waiters q !! i = Some w -> wkey w = k -> Some r = Some r')).
  { intros h l1 El Hw. split; [erewrite set_waiter_same by (rewrite El; exact W1); done |].
    intros r' q i w Hq Hiw Hkw. destruct (decide (r' = r)) as [->|Hne]; [done |]. rewrite set_waiter_other, El in Hq by done. by eapply H2. }
  destruct fu as [|f0|]; [| |done]; rewrite W4.
  - destruct owed; intros Hi.
    + destruct (Howed eq_refl) as [Hsome' Hlt].
      destruct (Hset (fun w => mkWaiter (wkey w) (fut w) true) (set_stale st l) eq_refl (fun _ => eq_refl)) as [Hr Ho].
      apply (Hsome _ Pending true); try done.
      * intros rd Hrd Hcost. by rewrite (H6 rd Hrd Hcost) in Hsome'.
      * intros Hh. destruct (saw_honest _ _ _ _ Hh) as (_ & Hor & Hl). split; [done |]. intros _. rewrite Hl.
        destruct Hor as [(-> & _)|(_ & _ & _ & _ & ->)]; [by left | by right].
    + destruct (Hset (fun w => if is_done w then w else mkWaiter (wkey w) (Arrived f) (robbed w)) (set_queues <[k:=[]]> (set_stale st l)) eq_refl) as [Hr Ho].
      { intros w. by destruct (is_done w). }
      apply (Hsome _ (Arrived f) rob); try done.
      * unfold queue. simpl. by rewrite lookup_insert_eq.
      * by rewrite orb_true_r.
      * intros Hh. destruct (saw_honest _ _ _ _ Hh) as (Hh0 & Hor & Hl). cbn [at_time honest rounds last ret late_before] in Hh0, Hor.
        destruct Hor as [(Ht & _ & _ & Hown & _)|(Ht & Hlt & Hnow & Hb & _)].
        -- unfold own_cur. rewrite Hown, Hl, Ht. split; [done | by left].
        -- exfalso. destruct (gi_honest _ _ Hg Hh0) as [_ A2 _ _ _]. assert (Hc2 : is_Some (stale l !! k)) by (apply A2; [lia | done | lia]).
           specialize (Hfree eq_refl Hc2). lia.
  - assert (Hheard : heard g = true) by (by rewrite W5, orb_true_r). destruct owed.
    { exfalso. destruct (Howed eq_refl) as [Hs' _]. by rewrite (W6 Hheard) in Hs'. }
    intros Hi. apply (Hsome _ (Arrived f0) rob); try done.
    + by rewrite orb_true_r.
    + intros Hh. exfalso. destruct (saw_honest _ _ _ _ Hh) as (Hh0 & Hor & Hl). cbn [at_time honest rounds last ret late_before] in Hh0, Hor.
      destruct (W8 Hh0) as [[_ Hlast] _]. destruct Hor as [(Ht & Hlt & _)|(Ht & Hlt & _)]; lia.
Qed.

Hypothesis k_ack : is_ack_key k = true.
Hypothesis T_pos : 0 <= T.

Lemma chain_snoc l rd : no_chain l -> (forall a, list.last l = Some a -> cost a -> ~ cost rd) -> no_chain (l ++ [rd]).
Proof.
  induction l as [|a [|b l] IH]; intros H Hl; [done | |].
  - simpl. split; [intros [Ha Hb]; by eapply Hl | done].
  - simpl in H. destruct H as [H1 H2]. split; [exact H1 |]. apply (IH H2). exact Hl.
Qed.

(** The request's end. *)
Lemma wake_k r now l l' g a : ginv l g -> req g = Some r -> clock g <= now ->
  (forall q, requests l !! r = Some q -> match outcome q with Some a' => a = a' | None => a = TimedOut /\ exists u, until q = Some u /\ u <= now end) ->
  abandon r a now l = Some l' -> inv l' ->
  ginv l' (mkObserver None (rounds g ++ [mkRound (heard g) (own g) a]) false None (last g) now (late g) false (honest g) now).
Proof.
  intros Hg Er Hc Ha. pose proof Hg as [H1 H2 H3 H4 H5 H6 H7 H8]. rewrite Er in H5. destruct H5 as (fu & rob & u & W1 & W2 & W3 & W4 & W5 & W6 & W7 & W8).
  specialize (Ha _ W1). unfold abandon. rewrite W1. cbn [mbind option_bind]. intros [= <-] Hi.
  assert (Hoth : forall r' q i w, requests (finish r a (retire r (mkRequest [mkWaiter k fu rob] T u) now l)) !! r' = Some q -> waiters q !! i = Some w -> wkey w = k -> False).
  { intros r' q i w Hq Hiw Hkw. unfold finish in Hq. simpl in Hq. apply lookup_delete_Some in Hq as [Hne Hq].
    destruct (retire_fold r (negb (existsb arrived [mkWaiter k fu rob])) (now + T) now (imap (fun i w => (i, w)) [mkWaiter k fu rob]) l) as (E1 & _).
    unfold retire in Hq. cbn [waiters timeout] in Hq. rewrite E1 in Hq. pose proof (H2 _ _ _ _ Hq Hiw Hkw) as E. congruence. }
  assert (Hstate : queue k (finish r a (retire r (mkRequest [mkWaiter k fu rob] T u) now l)) = []
    /\ stale (finish r a (retire r (mkRequest [mkWaiter k fu rob] T u) now l)) !! k
       = if negb rob && match fu with Pending => true | _ => false end then Some [now + T] else None).
  { unfold retire. cbn [waiters timeout imap foldl existsb]. destruct fu as [|f|]; [| |done].
    - destruct Ha as (-> & u' & [= ->] & Hu). unfold retire_one. cbn [is_done fut negb wkey robbed arrived orb]. rewrite k_ack, andb_true_r. cbn [andb].
      assert (Hq : forall st, queue k (set_stale st (set_queues (alter (List.filter (fun e => negb (bool_decide (e = (r, 0%nat))))) k) l)) = []).
      { intros st. unfold queue in *. simpl. rewrite lookup_alter_eq. destruct (queues l !! k) as [q|]; [| done]. simpl in *. subst q. simpl. by rewrite bool_decide_true. }
      destruct rob; cbn [negb andb].
      + split; [exact (Hq (stale l)) | by apply W6; rewrite W5].
      + assert (Hp : exists st, purge k now (stale l) = ([], st) /\ st !! k = None).
        { unfold purge. destruct H4 as [E|E]; rewrite E; [by exists (stale l) |]. cbn [drop_lapsed].
          specialize (W3 _ eq_refl). replace (ret g + T <=? now) with true by (symmetry; apply Z.leb_le; lia).
          eexists. split; [done |]. by rewrite lookup_delete_eq. }
        cbn [set_queues stale] in *. destruct Hp as (st & -> & Hst). cbn [app]. split; [apply Hq |]. simpl. by rewrite lookup_insert_eq.
    - unfold retire_one. cbn [is_done fut]. split; [exact W4 |]. rewrite andb_false_r. apply W6. by rewrite W5, orb_true_r. }
  destruct Hstate as [Hq Hs]. set (l' := finish r a _) in *. clearbody l'. split; cbn; rewrite ?Hs; try done.
  - intros r' q i w E1 E2 E3. by destruct (Hoth r' q i w).
  - destruct (_ && _); [by right | by left].
  - intros rd. rewrite list.last_snoc. intros [= <-] [Hc1 Hc2]. cbn in Hc1, Hc2. unfold timed_out in Hc2. cbn in Hc2.
    rewrite W5 in Hc1. destruct rob; [done |]. destruct fu as [|f|]; [done | | done]. cbn in Ha. by subst a.
  - apply chain_snoc; [exact H7 |]. intros rd Hrd Hcost [Hc1 Hc2]. cbn in Hc1. unfold timed_out in Hc2. cbn in Hc2.
    rewrite W5, (W7 rd Hrd Hcost) in Hc1. destruct fu as [|f|]; [done | | done]. cbn in Ha. by subst a.
  - intros Hh. destruct (H8 Hh) as [A1 A2 A3 A4 A5]. specialize (W8 Hh). destruct W8 as [B1 B2].
    assert (Hown : own_answer (mkRound (heard g) (own g) a)).
    { intros f Hf. cbn in Hf. subst a. destruct fu as [|f'|]; [by destruct Ha | | done]. injection Ha as ->. by destruct B1. }
    rewrite Er in A4. split; cbn; rewrite ?Hs, ?length_app; cbn [length].
    + destruct rob; cbn [negb andb]; [intros [? ?]; done |]. destruct fu; cbn [negb andb]; [| intros [? ?]; done | done].
      intros _. specialize (B1 eq_refl). lia.
    + intros C1 C2 C3. destruct fu as [|f|]; [| destruct B1; lia | done]. destruct rob; [destruct (B2 eq_refl); [lia | congruence] | done].
    + done.
    + lia.
    + apply Forall_app. split; [exact A5 | by repeat constructor].
Qed.

Lemma key_absent keys : existsb (fun x => bool_decide (x = k)) keys = false -> forall i w, keys !! i = Some w -> w <> k.
Proof.
  intros He i w Hw ->. assert (existsb (fun x => bool_decide (x = k)) keys = true); [| congruence].
  apply existsb_exists. exists k. split; [apply list_elem_of_In; by eapply list_elem_of_lookup_2 | by rewrite bool_decide_true].
Qed.

Lemma ask_other r keys t l g : ginv l g -> requests l !! r = None -> existsb (fun x => bool_decide (x = k)) keys = false ->
  ginv (ask r keys t l) g.
Proof.
  intros Hg Hr He. pose proof (key_absent _ He) as Hk. rewrite <- (at_time_same g). apply (ginv_frame l); try done.
  - apply ask_inv; [apply Hg | done].
  - rewrite ask_queue. replace (List.filter _ _) with (@nil (nat * bytes)); [by rewrite app_nil_r |]. symmetry.
    destruct (List.filter _ _) as [|[i x] rest] eqn:Ef; [done |]. exfalso.
    assert (Hin : In (i, x) (List.filter (fun ik => bool_decide (ik.2 = k)) (imap (fun i k => (i, k)) keys))) by (rewrite Ef; by left). apply filter_In in Hin as [Hin Hx]. apply imap_pairs in Hin. apply bool_decide_eq_true in Hx. simpl in Hx. by eapply Hk.
  - intros r' Hr'. unfold ask. simpl. apply lookup_insert_ne. intros ->. pose proof (gi_req _ _ Hg) as H. rewrite Hr' in H.
    destruct H as (fu & rob & u & W & _). congruence.
  - intros r' q i w. unfold ask. simpl. destruct (decide (r' = r)) as [->|Hne]; [rewrite lookup_insert_eq | rewrite lookup_insert_ne by done; apply (gi_other _ _ Hg)].
    intros [= <-]. simpl. rewrite list_lookup_fmap. destruct (keys !! i) as [x|] eqn:Ex; [| done]. intros [= <-]. simpl. intros ->. by destruct (Hk _ _ Ex).
Qed.

Lemma ask_k r l g : ginv l g -> requests l !! r = None -> req g = None ->
  ginv (ask r [k] T l) (mkObserver (Some r) (rounds g) false None (last g) (ret g) (late_before g) (late g) (honest g) (clock g)).
Proof.
  intros Hg Hr Hn. pose proof Hg as [H1 H2 H3 H4 H5 H6 H7 H8]. rewrite Hn in H5. split; cbn; try done.
  - by apply ask_inv.
  - intros r' q i w. simpl. destruct (decide (r' = r)) as [->|Hne]; [done |]. rewrite lookup_insert_ne by done. intros E1 E2 E3. exfalso.
    pose proof (H2 _ _ _ _ E1 E2 E3). congruence.
  - exists Pending, false, None. cbn. rewrite lookup_insert_eq. split_and!; try done.
    + rewrite ask_queue, H5. simpl. by rewrite bool_decide_true.
    + intros Hh. destruct (H8 Hh) as [_ _ _ A4 _]. rewrite Hn in A4. split; [intros _; cbn; lia | done].
  - intros Hh. destruct (H8 Hh) as [A1 A2 A3 A4 A5]. rewrite Hn in A4. split; cbn; try done. lia.
Qed.

Lemma written_inv r now l l' g : ginv l g -> clock g <= now -> step l (Written r now) = Some l' -> ginv l' (at_time now g).
Proof.
  intros Hg Hc Hs. pose proof (link_step_inv _ _ _ (gi_inv _ _ Hg) Hs) as Hi. revert Hs. simpl. destruct (requests l !! r) as [q|] eqn:Eq; [| done]. simpl.
  destruct (until q) eqn:Eu; [done |]. intros [= <-].
  assert (Hoth : forall r' q' i w, requests (set_requests (alter (fun q => mkRequest (waiters q) (timeout q) (Some (now + timeout q))) r) l) !! r' = Some q' ->
            waiters q' !! i = Some w -> wkey w = k -> req g = Some r').
  { intros r' q' i w. simpl. destruct (decide (r' = r)) as [->|Hne]; [rewrite lookup_alter_eq, Eq | rewrite lookup_alter_ne by done; apply (gi_other _ _ Hg)].
    simpl. intros [= <-]. simpl. by apply (gi_other _ _ Hg). }
  destruct (decide (req g = Some r)) as [Er|Hne].
  - pose proof Hg as [H1 H2 H3 H4 H5 H6 H7 H8]. split; cbn; try done; [lia | |].
    + rewrite Er in H5 |- *. destruct H5 as (fu & rob & u & W1 & W2 & W3 & W4 & W5 & W6 & W7 & W8).
      exists fu, rob, (Some (now + T)). cbn. rewrite lookup_alter_eq, W1. split_and!; try done. intros t [= <-]. lia.
    + intros Hh. destruct (H8 Hh) as [A1 A2 A3 A4 A5]. split; cbn; try done. intros B1 B2 B3. apply A2; [done | done | lia].
  - apply (ginv_frame l); try done. intros r' Hr'. simpl. apply lookup_alter_ne. congruence.
Qed.

Lemma outcome_last r now l l' : step l (Wake r now) = Some l' -> exists a, list.last (answers l') = Some (r, a) /\ abandon r a now l = Some l'
  /\ forall q, requests l !! r = Some q -> match outcome q with Some a' => a = a' | None => a = TimedOut /\ exists u, until q = Some u /\ u <= now end.
Proof.
  simpl. destruct (requests l !! r) as [q|] eqn:Eq; [| done]. simpl. destruct (until q) as [u|] eqn:Eu; [| done]. simpl.
  assert (Hlast : forall a, abandon r a now l = Some l' -> list.last (answers l') = Some (r, a)).
  { unfold abandon. rewrite Eq. simpl. intros a [= <-]. simpl. by rewrite list.last_snoc. }
  destruct (outcome q) as [a|] eqn:Eo.
  - intros H. exists a. split_and!; [auto | done |]. intros q' [= <-]. by rewrite Eo.
  - destruct (u <=? now) eqn:Ele; [| done]. intros H. exists TimedOut. split_and!; [auto | done |]. intros q' [= <-]. rewrite Eo. zbool. eauto.
Qed.

Lemma watched_step l g ev tag l' g' : ginv l g -> step l ev = Some l' -> observe ev tag l' g = Some g' -> ginv l' g'.
Proof.
  intros Hg Hs. pose proof (link_step_inv _ _ _ (gi_inv _ _ Hg) Hs) as Hi. destruct ev as [r keys t|r now|r now|f now|r now|r now|]; cbn [observe].
  - revert Hs. simpl. destruct (requests l !! r) eqn:Er; [done |]. intros [= <-]. destruct (existsb _ keys) eqn:Ek.
    + destruct (bool_decide (keys = [k])) eqn:E1; [| done]. destruct (t =? T) eqn:E2; [| done]. destruct (bool_decide (req g = None)) eqn:E3; [| done].
      apply bool_decide_eq_true in E1, E3. apply Z.eqb_eq in E2. subst. intros [= <-]. by apply ask_k.
    + intros [= <-]. by apply ask_other.
  - intros [Hc ->]%ticked. by eapply written_inv.
  - destruct (current r g) eqn:Ec; [done |]. intros [Hc ->]%ticked. revert Hs. simpl. destruct (requests l !! r) as [q|] eqn:Er; [| done]. simpl.
    destruct (until q); [done |]. intros Hs. apply bool_decide_eq_false in Ec. destruct (abandon_other _ _ _ _ _ _ Hg Hs Ec) as (A1 & A2 & A3 & A4).
    by apply (ginv_frame l).
  - destruct (tick now g) as [g1|] eqn:Et; [| done]. apply ticked in Et as [Hc ->]. simpl. intros [= <-]. revert Hs. simpl. intros [= <-].
    destruct (decide (key_for f = k)) as [Hk|Hk]; [rewrite bool_decide_true by done; by apply deliver_k |]. rewrite bool_decide_false by done.
    destruct (deliver_other _ now _ _ Hg Hk) as (A1 & A2 & A3 & A4). by apply (ginv_frame l).
  - destruct (tick now g) as [g1|] eqn:Et; [| done]. apply ticked in Et as [Hc ->]. simpl. change (current r (at_time now g)) with (current r g).
    destruct (outcome_last _ _ _ _ Hs) as (a & Hl & Hgu & Ha). destruct (current r g) eqn:Ec.
    + rewrite Hl. intros [= <-]. apply bool_decide_eq_true in Ec. by eapply wake_k.
    + intros [= <-]. apply bool_decide_eq_false in Ec. destruct (abandon_other _ _ _ _ _ _ Hg Hgu Ec) as (A1 & A2 & A3 & A4). by apply (ginv_frame l).
  - destruct (current r g) eqn:Ec; [done |]. intros [Hc ->]%ticked. apply bool_decide_eq_false in Ec.
    destruct (abandon_other _ _ _ _ _ _ Hg Hs Ec) as (A1 & A2 & A3 & A4). by apply (ginv_frame l).
  - done.
Qed.

Lemma observer_ok t0 : ginv new_link (observer t0).
Proof.
  split; cbn; try done; [apply new_inv | by left |]. intros _. split; cbn; try done; [intros [x Hx]; by rewrite lookup_empty in Hx | lia].
Qed.

Lemma watched_inv evs : forall l g l' g', ginv l g -> watched l g evs = Some (l', g') -> ginv l' g'.
Proof.
  induction evs as [|[ev tag] evs IH]; intros l g l' g' Hg; cbn [watched]; [by intros [= <- <-] |].
  destruct (step l ev) as [l1|] eqn:Es; [| done]. simpl. destruct (observe ev tag l1 g) as [g1|] eqn:Eo; [| done]. simpl.
  apply IH. by eapply watched_step.
Qed.

(** C24.  CFG-VALSET requests made one after the other, whatever else goes over the link: each that
    is answered is answered by its own verdict, as long as the receiver answers in order, at most
    once, and an answer that comes after its request gave up does so before the time-out has passed
    again and not twice running. And however the receiver behaves, a request that times out although
    an answer came while it waited is never followed by another one: a lost answer costs at most one
    further time-out. *)
Theorem verdicts_own t0 evs l g : watched new_link (observer t0) evs = Some (l, g) ->
  (honest g = true -> Forall own_answer (rounds g)) /\ no_chain (rounds g).
Proof.
  intros Hw. pose proof (watched_inv _ _ _ _ _ (observer_ok t0) Hw) as Hg. split; [| apply Hg].
  intros Hh. apply (gi_honest _ _ Hg Hh).
Qed.
End Link.

(** ** A run: a verdict that comes late, and the next request's own *)

Definition ubx_name (f : Frame) : bytes :=
  if bool_decide (slice 2 4 (raw f) = [5; 1]) then ACK_ACK else if bool_decide (slice 2 4 (raw f) = [5; 0]) then ACK_NAK else str "other".
Definition verdict (id : Z) : Frame := mkFrame UBX [0xB5; 0x62; 5; id; 2; 0; 0x06; 0x8A; 0; 0].
Definition valset_key : bytes := Eval vm_compute in ack_key 0x06 0x8A.

Definition late_verdict : list (Event * nat) :=
  [(Ask 1 [valset_key] 2000, 0); (Written 1 10, 0); (Wake 1 2010, 0); (Ask 2 [valset_key] 2000, 0); (Written 2 2011, 0);
   (Ask 3 [str "MON-VER"; ack_key 10 4] 2000, 0); (Deliver (verdict 1) 2500, 1); (Deliver (verdict 0) 2600, 2); (Wake 2 2601, 0)]%nat.
Definition late_link : Link := default new_link (option_map fst (watched ubx_name valset_key 2000 new_link (observer 0) late_verdict)).
Definition late_observer : Observer := default (observer 0) (option_map snd (watched ubx_name valset_key 2000 new_link (observer 0) late_verdict)).

Lemma verdicts_own_witness : watched ubx_name valset_key 2000 new_link (observer 0) late_verdict = Some (late_link, late_observer)
  /\ map answer_ (rounds late_observer) = [TimedOut; Answered (verdict 0)]
  /\ (honest late_observer = true -> Forall own_answer (rounds late_observer)) /\ no_chain (rounds late_observer).
Proof.
  assert (E : watched ubx_name valset_key 2000 new_link (observer 0) late_verdict = Some (late_link, late_observer)) by (vm_compute; reflexivity).
  split; [exact E | split; [vm_compute; reflexivity |]].
  apply (verdicts_own ubx_name valset_key 2000 eq_refl 0 late_verdict late_link late_observer E).
Defined.
