(* ===== verification/UbxConfig.v ===== *)
(** * Receiver profiles ([core/ubx_config.py])

    The configuration items of each role, and the timing mode. A float is its double. *)

From Stdlib Require Import String.
From stdpp Require Import gmap.
From S2P Require Import Prelude.
From S2P Require Import PyBytes.
From S2P Require Import PyFloat.

(** [CfgValue]: a bitfield key carries its bytes. *)
Inductive CfgValue := CInt (i : Z) | CBytes (b : bytes).
#[export] Instance CfgValue_eq_dec : EqDecision CfgValue.
Proof. solve_decision. Defined.

Definition CfgItems := list (bytes * CfgValue).

(** The layers' bits, as u-blox documents them. *)
Definition SET_LAYER_RAM : Z := 1.
Definition SET_LAYER_BBR : Z := 2.
Definition SET_LAYER_FLASH : Z := 4.
Definition LAYERS_RAM : Z := SET_LAYER_RAM.
Definition LAYERS_ALL : Z := Z.lor (Z.lor SET_LAYER_RAM SET_LAYER_BBR) SET_LAYER_FLASH.
Definition MAX_KEYS_PER_VALSET : nat := 64.

#[local] Open Scope string_scope.
#[local] Open Scope list_scope.

Definition RTCM_MSM7 : list string := ["1077"; "1087"; "1097"; "1127"].
Definition RTCM_MSM4 : list string := ["1074"; "1084"; "1094"; "1124"].
Definition COMMON_MSGOUT : list (string * Z) :=
  [("NAV_PVT", 1); ("NAV_SAT", 1); ("NAV_SIG", 1); ("NAV_DOP", 1); ("NAV_STATUS", 1); ("NAV_CLOCK", 1); ("NAV_TIMEGPS", 1);
   ("NAV_TIMEUTC", 1); ("NAV_HPPOSLLH", 1); ("NAV_HPPOSECEF", 1); ("NAV_EOE", 1); ("RXM_RAWX", 1); ("RXM_SFRBX", 1); ("MON_HW", 1); ("MON_RF", 1)].

Definition item (k : string) (v : Z) : bytes * CfgValue := (str k, CInt v).

Definition SIGNALS_L1_L2 : CfgItems :=
  map (fun n => (str "CFG_SIGNAL_" ++ str n ++ str "_ENA", CInt 1))
    ["GPS"; "GPS_L1CA"; "GPS_L2C"; "GLO"; "GLO_L1"; "GLO_L2"; "GAL"; "GAL_E1"; "GAL_E5B"; "BDS"; "BDS_B1"; "BDS_B2"; "QZSS"; "QZSS_L1CA"; "QZSS_L2C"]
  ++ [item "CFG_SIGNAL_SBAS_ENA" 0].

Definition OPTIONAL_FEATURES : list (bytes * CfgItems) :=
  [(str "MON-SPAN", [item "CFG_MSGOUT_UBX_MON_SPAN_USB" 5]);
   (str "MON-COMMS", [item "CFG_MSGOUT_UBX_MON_COMMS_USB" 5]);
   (str "NAV-TIMELS", [item "CFG_MSGOUT_UBX_NAV_TIMELS_USB" 10])].

Record Profile := mkProfile { profile_name : bytes; core : CfgItems; signals : CfgItems; optional : list (bytes * CfgItems); nav_hz : Z }.

Definition _msgout (names : list (string * Z)) : CfgItems :=
  map (fun nr => (str "CFG_MSGOUT_UBX_" ++ str nr.1 ++ str "_USB", CInt nr.2)) names.

Definition _common_core (meas_ms dynmodel : Z) (rtcm_out : bool) : CfgItems :=
  [item "CFG_RATE_MEAS" meas_ms; item "CFG_RATE_NAV" 1; item "CFG_RATE_TIMEREF" 1; item "CFG_USBOUTPROT_UBX" 1;
   item "CFG_USBOUTPROT_NMEA" 0; item "CFG_USBOUTPROT_RTCM3X" (if rtcm_out then 1 else 0); item "CFG_USBINPROT_UBX" 1;
   item "CFG_USBINPROT_NMEA" 0; item "CFG_USBINPROT_RTCM3X" (if rtcm_out then 0 else 1); item "CFG_NAVSPG_DYNMODEL" dynmodel;
   item "CFG_NAVSPG_INFIL_MINELEV" 10; (str "CFG_INFMSG_UBX_USB", CBytes [0]); item "CFG_ITFM_ENABLE" 1; item "CFG_ITFM_ANTSETTING" 2]
  ++ _msgout COMMON_MSGOUT.

(** What the profiles read of [Settings]. *)
Record Settings := mkSettings { rtcm_msm : Z; rtcm_1230_rate : Z; rtcm_station_id : Z; rover_nav_hz : Z; dynmodel_code : Z }.

Definition rtcm_out_key (t : string) : bytes := str "CFG_MSGOUT_RTCM_3X_TYPE" ++ str t ++ str "_USB".

Definition base_profile (s : Settings) : Profile :=
  let enabled := if (rtcm_msm s =? 7)%Z then RTCM_MSM7 else RTCM_MSM4 in
  let disabled := if (rtcm_msm s =? 7)%Z then RTCM_MSM4 else RTCM_MSM7 in
  let core := _common_core 1000 2 true ++ _msgout [("NAV_SVIN", 1)] in
  let core := core ++ [item "CFG_MSGOUT_RTCM_3X_TYPE1005_USB" 1] in
  let core := core ++ map (fun t => (rtcm_out_key t, CInt 1)) enabled in
  let core := core ++ map (fun t => (rtcm_out_key t, CInt 0)) disabled in
  let core := core ++ [item "CFG_MSGOUT_RTCM_3X_TYPE1230_USB" (rtcm_1230_rate s); item "CFG_MSGOUT_RTCM_3X_TYPE4072_0_USB" 0;
                       item "CFG_MSGOUT_RTCM_3X_TYPE4072_1_USB" 0; item "CFG_RTCM_DF003_OUT" (rtcm_station_id s)] in
  mkProfile (str "base") core SIGNALS_L1_L2 OPTIONAL_FEATURES 1.

(** [round(1000 / hz)], half to even. *)
Definition rover_profile (s : Settings) : Profile :=
  let meas_ms := rne 1000 (rover_nav_hz s) in
  let core := _common_core meas_ms (dynmodel_code s) false in
  let core := core ++ _msgout [("NAV_RELPOSNED", 1); ("RXM_RTCM", 1); ("TIM_TM2", 1); ("NAV_VELNED", 1)] in
  let core := core ++ [item "CFG_NAVHPG_DGNSSMODE" 3; item "CFG_TMODE_MODE" 0] in
  mkProfile (str "rover") core SIGNALS_L1_L2 OPTIONAL_FEATURES (rover_nav_hz s).

(** [round] of a float; [None] where it raises. *)
Definition round_float (x : Z) : option Z :=
  match f64 x with FFin neg m e => Some (signed neg (rne (m * pow2 e) (pow2 (- e)))) | _ => None end.

Definition tmode_off : CfgItems := [item "CFG_TMODE_MODE" 0].

Definition tmode_survey_in (min_dur_s : Z) (acc_limit_m : Z) : option CfgItems :=
  limit ← round_float (fmul acc_limit_m (of_int 10000));
  Some [item "CFG_TMODE_MODE" 1; item "CFG_TMODE_SVIN_MIN_DUR" min_dur_s; item "CFG_TMODE_SVIN_ACC_LIMIT" limit].

(** [val2sphp] is pyubx2's split of a length into centimetres and tenths of a millimetre. *)
Definition tmode_fixed_ecef (val2sphp : Z -> Z * Z) (x_m y_m z_m acc_m : Z) : option CfgItems :=
  let axis (a : string) (v : Z) :=
    let '(std_cm, hp_01mm) := val2sphp v in
    [(str "CFG_TMODE_ECEF_" ++ str a, CInt std_cm); (str "CFG_TMODE_ECEF_" ++ str a ++ str "_HP", CInt hp_01mm)] in
  acc ← round_float (fmul acc_m (of_int 10000));
  Some ([item "CFG_TMODE_MODE" 2; item "CFG_TMODE_POS_TYPE" 0] ++ axis "X" x_m ++ axis "Y" y_m ++ axis "Z" z_m
        ++ [item "CFG_TMODE_FIXED_POS_ACC" acc]).

(** [chunked], of any list. *)
Fixpoint chunks {A} (fuel n : nat) (items : list A) : list (list A) :=
  match fuel, items with
  | S fuel, _ :: _ => take n items :: chunks fuel n (drop n items)
  | _, _ => []
  end.
Definition chunked {A} (items : list A) : list (list A) := chunks (length items) MAX_KEYS_PER_VALSET items.

Definition all_keys (p : Profile) : list bytes :=
  map fst (core p) ++ map fst (signals p) ++ concat (map (fun fi => map fst fi.2) (optional p)).

(** ** Facts *)

Lemma chunks_concat {A} n fuel (items : list A) : (0 < n)%nat -> (length items <= fuel)%nat -> concat (chunks fuel n items) = items.
Proof.
  intros Hn. revert items. induction fuel as [|fuel IH]; intros items Hf; destruct items as [|x items]; simpl in Hf |- *; try done; [lia |].
  rewrite IH; [apply (take_drop n (x :: items)) |]. rewrite length_drop. simpl. lia.
Qed.

Lemma chunked_concat {A} (items : list A) : concat (chunked items) = items.
Proof. apply chunks_concat; [unfold MAX_KEYS_PER_VALSET; lia | done]. Qed.

Lemma chunks_sizes {A} n fuel (items : list A) : (0 < n)%nat -> Forall (fun c => (1 <= length c <= n)%nat) (chunks fuel n items).
Proof.
  intros Hn. revert items. induction fuel as [|fuel IH]; intros items; [constructor |]. destruct items as [|x items]; [constructor |].
  constructor; [| apply IH]. rewrite length_take. simpl. lia.
Qed.

(** No key of a profile is set twice. *)
Lemma base_keys_distinct s : NoDup (map fst (core (base_profile s) ++ signals (base_profile s))).
Proof. unfold base_profile. destruct (rtcm_msm s =? 7)%Z; vm_compute map; apply (bool_decide_unpack _); vm_compute; exact I. Qed.

Lemma rover_keys_distinct s : NoDup (map fst (core (rover_profile s) ++ signals (rover_profile s))).
Proof. vm_compute map. apply (bool_decide_unpack _). vm_compute. exact I. Qed.
