(* ===== verification/ReceiverConfig.v ===== *)
(** * Configuring the receiver ([core/receiver.py])

    What [ReceiverController] does over its link to identify the receiver, to write a profile and
    to read it back, with the actions of the API. The link's operations are arguments: they act on
    a world of any type (the receiver, the link and the clock), and may return, be refused, or stay
    unanswered. A coroutine here holds the configure lock, so it runs as one function. *)

From Stdlib Require Import String.
From stdpp Require Import gmap.
From S2P Require Import Prelude.
From S2P Require Import PyBytes.
From S2P Require Import UbxConfig.

Definition PROBE_ATTEMPTS : nat := 3.
Definition PROBE_NAKS_FINAL : nat := 2.
Definition VERIFY_ATTEMPTS : nat := 3.

(** The exceptions of the link and of the configuration. *)
Inductive Exn :=
| LinkNak | LinkNoData | LinkTimeout | OtherError
| ProfileError (why : bytes) | ProfileUnanswered | ReceiverError.

Inductive Res (A : Type) := Ret (a : A) | Raise (e : Exn).
Arguments Ret {A}.
Arguments Raise {A}.

Abbreviation Dict := (gmap bytes CfgValue).

Inductive ResetKind := Hot | Warm | Cold | Factory.
(** The messages of [reset]: the wipe of the configuration, and the restart with its bits. *)
Inductive Command := ClearConfig | Restart (bits : list (bytes * Z)).

(** The world: a link to a receiver. *)
Class Ops (W : Type) := {
  do_valset : CfgItems -> Z -> W -> W * Res bool;
  do_valget : list bytes -> W -> W * Res Dict;
  do_poll_ver : W -> W * Res (option (bytes * bytes * bytes));   (** [MON-VER]: protver, firmware and module *)
  do_write : Command -> W -> W * Res unit;
  do_stale : W -> W * bool;                                      (** [_stream_stale()], on the clock *)
  do_pause : W -> W                                              (** [VERIFY_RETRY_PAUSE_S] go by *)
}.

Record Capabilities := mkCaps { protver : bytes; fw_version : bytes; module_ : bytes; supported : gset bytes; unsupported : gset bytes }.
Inductive Published := PubCapabilities (c : Capabilities) | PubReset (k : ResetKind).

(** The controller, with the world. [profile]: the one it applies; [has_link], [connected]: what a session sets while it has the link. *)
Record Ctl (W : Type) := mkCtl {
  world : W; profile : option Profile; strict : bool; capabilities : Capabilities; first_apply : bool; configured_once : bool;
  seen_supported : gset bytes; has_link : bool; connected : bool; published : list Published
}.
Arguments mkCtl {W}.
Arguments world {W}.
Arguments profile {W}.
Arguments strict {W}.
Arguments capabilities {W}.
Arguments first_apply {W}.
Arguments configured_once {W}.
Arguments seen_supported {W}.
Arguments has_link {W}.
Arguments connected {W}.
Arguments published {W}.

Section Controller.
Context {W : Type} {ops : Ops W}.

(** ** A state and error monad *)

Definition M (A : Type) : Type := Ctl W -> Ctl W * Res A.
#[export] Instance M_ret : MRet M := fun A a s => (s, Ret a).
#[export] Instance M_bind : MBind M := fun A B f m s => match m s with (s, Ret a) => f a s | (s, Raise e) => (s, Raise e) end.
Definition raise {A} (e : Exn) : M A := fun s => (s, Raise e).
(** The result of a computation with its exception, for [try]. *)
Definition catch {A} (m : M A) : M (Res A) := fun s => let '(s, r) := m s in (s, Ret r).

Definition set_world (w : W) (s : Ctl W) : Ctl W :=
  mkCtl w (profile s) (strict s) (capabilities s) (first_apply s) (configured_once s) (seen_supported s) (has_link s) (connected s) (published s).
Definition on_world {A} (f : W -> W * Res A) : M A := fun s => let '(w, r) := f (world s) in (set_world w s, r).
Definition valset (items : CfgItems) (layers : Z) : M bool := on_world (do_valset items layers).
Definition valget (keys : list bytes) : M Dict := on_world (do_valget keys).
Definition poll_ver : M (option (bytes * bytes * bytes)) := on_world do_poll_ver.
Definition write (c : Command) : M unit := on_world (do_write c).
Definition stream_stale : M bool := on_world (fun w => let '(w, b) := do_stale w in (w, Ret b)).
Definition pause : M unit := on_world (fun w => (do_pause w, Ret tt)).
Definition get {A} (f : Ctl W -> A) : M A := fun s => (s, Ret (f s)).
Definition modify (f : Ctl W -> Ctl W) : M unit := fun s => (f s, Ret tt).

Definition see_supported (fs : gset bytes) (s : Ctl W) : Ctl W :=
  mkCtl (world s) (profile s) (strict s) (capabilities s) (first_apply s) (configured_once s) (seen_supported s ∪ fs) (has_link s) (connected s) (published s).
Definition set_capabilities (c : Capabilities) (s : Ctl W) : Ctl W :=
  mkCtl (world s) (profile s) (strict s) c (first_apply s) (configured_once s) (seen_supported s) (has_link s) (connected s) (published s).
Definition set_first (b : bool) (s : Ctl W) : Ctl W :=
  mkCtl (world s) (profile s) (strict s) (capabilities s) b (configured_once s) (seen_supported s) (has_link s) (connected s) (published s).
Definition set_configured (s : Ctl W) : Ctl W :=
  mkCtl (world s) (profile s) (strict s) (capabilities s) (first_apply s) true (seen_supported s) (has_link s) (connected s) (published s).
Definition publish (p : Published) (s : Ctl W) : Ctl W :=
  mkCtl (world s) (profile s) (strict s) (capabilities s) (first_apply s) (configured_once s) (seen_supported s) (has_link s) (connected s) (published s ++ [p]).

(** ** Reading back *)

Definition missing (names : list bytes) (got : Dict) : list bytes := List.filter (fun k => match got !! k with None => true | Some _ => false end) names.

(** The names of a refused chunk, one by one. *)
Fixpoint isolate (names : list bytes) (result : Dict) (lost : gset bytes) : M (Dict * gset bytes) :=
  match names with
  | [] => mret (result, lost)
  | name :: names =>
      r ← catch (valget [name]);
      match r with
      | Raise LinkNoData => isolate names result (lost ∪ {[name]})
      | Raise LinkNak => isolate names result lost
      | Raise e => raise e
      | Ret one => isolate names (one ∪ result) (match one !! name with None => lost ∪ {[name]} | Some _ => lost end)
      end
  end.

Fixpoint readback_chunks (cs : list (list bytes)) (result : Dict) (lost : gset bytes) : M (Dict * gset bytes) :=
  match cs with
  | [] => mret (result, lost)
  | names :: cs =>
      r ← catch (valget names);
      match r with
      | Raise LinkNak | Raise LinkNoData => '(result, lost) ← isolate names result lost; readback_chunks cs result lost
      | Raise e => raise e
      | Ret got => readback_chunks cs (got ∪ result) (lost ∪ list_to_set (missing names got))
      end
  end.

(** [_readback]: what was read, and the keys that got no answer. *)
Definition _readback (keys : list bytes) : M (Dict * gset bytes) := readback_chunks (chunked keys) ∅ ∅.

(** ** Writing *)

Definition first_half (items : CfgItems) : CfgItems := take (Nat.div2 (length items)) items.
Definition second_half (items : CfgItems) : CfgItems := drop (Nat.div2 (length items)) items.

(** [_bisect]: the keys refused; [fuel] is the number of items. *)
Fixpoint _bisect (fuel : nat) (items : CfgItems) (layers : Z) : M (list bytes) :=
  match items, fuel with
  | [(k, _)], _ => mret [k]
  | _, O => mret []
  | _, S fuel =>
      let half (part : CfgItems) (rejected : list bytes) : M (list bytes) :=
        ok ← valset part layers;
        if (ok : bool) then mret rejected else (r ← _bisect fuel part layers; mret (rejected ++ r)) in
      rejected ← half (first_half items) [];
      half (second_half items) rejected
  end.

Fixpoint apply_chunks (cs : list CfgItems) (layers : Z) (rejected : list bytes) : M (list bytes) :=
  match cs with
  | [] => mret rejected
  | chunk :: cs =>
      ok ← valset chunk layers;
      if (ok : bool) then apply_chunks cs layers rejected
      else (r ← _bisect (length chunk) chunk layers; apply_chunks cs layers (rejected ++ r))
  end.
Definition _apply_with_bisect (items : CfgItems) (layers : Z) : M (list bytes) := apply_chunks (chunked items) layers [].

Definition differs (current : Dict) (kv : bytes * CfgValue) : bool := negb (bool_decide (current !! kv.1 = Some kv.2)).

Definition _apply_core (core : CfgItems) (layers : Z) : M (list bytes) :=
  '(current, _) ← _readback (map fst core);
  match List.filter (differs current) core with
  | [] => mret []
  | pending => _apply_with_bisect pending layers
  end.

(** [_valset_optional]: [None] when neither attempt was heard. *)
Fixpoint valset_tries (tries : nat) (items : CfgItems) (layers : Z) : M (option bool) :=
  match tries with
  | O => mret None
  | S tries =>
      r ← catch (valset items layers);
      match r with
      | Ret b => mret (Some b)
      | Raise LinkTimeout => valset_tries tries items layers
      | Raise e => raise e
      end
  end.

Definition add_supported (f : bytes) (c : Capabilities) : Capabilities :=
  mkCaps (protver c) (fw_version c) (module_ c) (supported c ∪ {[f]}) (unsupported c).
Definition add_unsupported (f : bytes) (c : Capabilities) : Capabilities :=
  mkCaps (protver c) (fw_version c) (module_ c) (supported c) (unsupported c ∪ {[f]}).
Definition demote (f : bytes) (c : Capabilities) : Capabilities :=
  mkCaps (protver c) (fw_version c) (module_ c) (supported c ∖ {[f]}) (unsupported c ∪ {[f]}).

Definition _apply_optional (caps : Capabilities) (feature : bytes) (items : CfgItems) (layers : Z) : M Capabilities :=
  '(current, _) ← _readback (map fst items);
  if forallb (fun kv => negb (differs current kv)) items then mret (add_supported feature caps)
  else
    accepted ← valset_tries 2 items layers;
    mret (match accepted with
         | None | Some true => add_supported feature caps
         | Some false => demote feature caps
         end).

(** ** Probing *)

Fixpoint probe_attempts (attempts naks : nat) (feature : bytes) (keys : list bytes) : M bool :=
  match attempts with
  | O => get (fun s => bool_decide (feature ∈ seen_supported s))
  | S attempts =>
      r ← catch (valget keys);
      match r with
      | Raise LinkNoData => probe_attempts attempts naks feature keys
      | Raise LinkNak => if (PROBE_NAKS_FINAL <=? S naks)%nat then mret false else probe_attempts attempts (S naks) feature keys
      | Raise LinkTimeout => stale ← stream_stale; if (stale : bool) then raise LinkTimeout else probe_attempts attempts naks feature keys
      | Raise e => raise e
      | Ret got => match missing keys got with [] => mret true | _ => probe_attempts attempts naks feature keys end
      end
  end.
Definition _probe_feature (feature : bytes) (keys : list bytes) : M bool := probe_attempts PROBE_ATTEMPTS 0 feature keys.

Fixpoint probe_features (fs : list (bytes * CfgItems)) (caps : Capabilities) : M Capabilities :=
  match fs with
  | [] => mret caps
  | (feature, items) :: fs =>
      found ← _probe_feature feature (map fst items);
      probe_features fs (if (found : bool) then add_supported feature caps else add_unsupported feature caps)
  end.

Definition probe : M Capabilities :=
  ver ← poll_ver;
  let caps := match ver with Some (p, f, m) => mkCaps p f m ∅ ∅ | None => mkCaps [] [] [] ∅ ∅ end in
  features ← get (fun s => match profile s with Some p => optional p | None => OPTIONAL_FEATURES end);
  caps ← probe_features features caps;
  modify (see_supported (supported caps));;
  mret caps.

(** ** Verifying *)

(** A dict made of pairs: the first place of a key, its last value. *)
Definition set_item (d : CfgItems) (kv : bytes * CfgValue) : CfgItems :=
  if existsb (fun e => bool_decide (e.1 = kv.1)) d then map (fun e => if bool_decide (e.1 = kv.1) then kv else e) d else d ++ [kv].
Definition _wanted (p : Profile) (skip : list bytes) : CfgItems :=
  foldl set_item [] (List.filter (fun kv => negb (existsb (fun k => bool_decide (k = kv.1)) skip)) (core p ++ signals p)).

Definition Mismatch : Type := bytes * CfgValue * option CfgValue.

(** [verify]: the mismatches, as (key, wanted, got), and the keys that got no answer. *)
Definition verify (p : Profile) (skip : list bytes) : M (list Mismatch * gset bytes) :=
  let wanted := _wanted p skip in
  '(got, lost) ← _readback (map fst wanted);
  mret (map (fun kv => (kv.1, kv.2, got !! kv.1)) (List.filter (differs got) wanted), lost).

Definition blank (ms : list Mismatch) : nat := length (List.filter (fun m => match m.2 with None => true | Some _ => false end) ms).
Definition heard (ms : list Mismatch) (lost : gset bytes) : list Mismatch := List.filter (fun m => negb (bool_decide (m.1.1 ∈ lost))) ms.

Definition VERIFICATION_FAILED : bytes := str "configuration verification failed".

Fixpoint verify_attempts (attempts : nat) (p : Profile) (skip : list bytes) : M unit :=
  match attempts with
  | O => once ← get configured_once; raise (if (once : bool) then LinkTimeout else ProfileUnanswered)
  | S attempts =>
      '(ms, lost) ← verify p skip;
      match ms with
      | [] => mret tt
      | _ =>
          match heard ms lost with
          | _ :: _ => if (blank ms =? length (_wanted p skip))%nat then mret tt else raise (ProfileError VERIFICATION_FAILED)
          | [] => mret tt
          end;;
          match attempts with O => mret tt | S _ => pause end;;
          verify_attempts attempts p skip
      end
  end.
Definition _verify_or_raise (p : Profile) (skip : list bytes) : M unit :=
  once ← get configured_once; verify_attempts (if (once : bool) then 1 else VERIFY_ATTEMPTS) p skip.

(** ** [configure] *)

Fixpoint apply_features (fs : list (bytes * CfgItems)) (caps : Capabilities) (layers : Z) : M Capabilities :=
  match fs with
  | [] => mret caps
  | (feature, items) :: fs =>
      caps ← (if bool_decide (feature ∈ unsupported caps) then mret caps else _apply_optional caps feature items layers);
      apply_features fs caps layers
  end.

Definition NO_PROFILE : bytes := str "no profile to apply".
Definition REJECTED_CORE : bytes := str "receiver rejected core config keys".
Definition REJECTED_SIGNALS : bytes := str "receiver rejected the signal configuration".

(** With the core keys refused. *)
Definition _configure_ (first : bool) : M (Capabilities * list bytes) :=
  po ← get profile;
  match po with
  | None => raise (ProfileError NO_PROFILE)
  | Some p =>
      let layers := if first then LAYERS_ALL else LAYERS_RAM in
      caps ← probe;
      rejected ← _apply_core (core p) layers;
      st ← get strict;
      (match rejected with _ :: _ => if (st : bool) then raise (ProfileError REJECTED_CORE) else mret tt | [] => mret tt end);;
      '(current, _) ← _readback (map fst (signals p));
      (if existsb (differs current) (signals p)
       then ok ← valset (signals p) layers; if (ok : bool) then mret tt else raise (ProfileError REJECTED_SIGNALS)
       else mret tt);;
      caps ← apply_features (optional p) caps layers;
      _verify_or_raise p rejected;;
      modify (set_capabilities caps);;
      modify (publish (PubCapabilities caps));;
      mret (caps, rejected)
  end.
Definition configure (first : bool) : M Capabilities := r ← _configure_ first; mret r.1.

(** The session's own configure, run to its end ([_configure_or_stop]). *)
Definition session_configure : M unit :=
  first ← get first_apply;
  configure first;;
  modify (set_first false);;
  modify set_configured.

(** ** Actions *)

Definition _live_link : M unit := l ← get (fun s => has_link s && connected s); if (l : bool) then mret tt else raise ReceiverError.

Definition apply_items (items : CfgItems) (layers : Z) : M bool :=
  l ← get has_link; if (l : bool) then valset items layers else raise ReceiverError.

Definition reapply : M Capabilities := _live_link;; caps ← configure true; modify (set_first false);; mret caps.

Definition COLD_BITS : list (bytes * Z) :=
  map (fun b => (str b, 1)) ["eph"; "alm"; "health"; "klob"; "pos"; "clkd"; "osc"; "utc"; "rtc"; "aop"]%string.
Definition RESET_BITS (k : ResetKind) : list (bytes * Z) :=
  match k with Hot => [] | Warm => [(str "eph", 1)] | Cold | Factory => COLD_BITS end.

Definition reset (k : ResetKind) : M unit :=
  _live_link;;
  (match k with Factory => write ClearConfig;; modify (set_first true) | _ => mret tt end);;
  write (Restart (RESET_BITS k));;
  modify (publish (PubReset k)).
End Controller.

(** ** Nothing of it changes what the controller is told to be *)

Create HintDb steady discriminated.

Section Steady.
Context {W : Type} {ops : Ops W}.

Definition steady {A} (m : M A) : Prop := forall s : Ctl W, strict (m s).1 = strict s /\ profile (m s).1 = profile s.

Lemma steady_ret {A} (a : A) : steady (mret a).
Proof. done. Qed.
Lemma steady_raise {A} e : steady (@raise W A e).
Proof. done. Qed.
Lemma steady_bind {A B} (m : M A) (f : A -> M B) : steady m -> (forall a, steady (f a)) -> steady (m ≫= f).
Proof.
  intros Hm Hf s. unfold mbind, M_bind. specialize (Hm s). destruct (m s) as [s1 [a|e]]; simpl in *; [| done].
  destruct (Hf a s1) as [E1 E2]. by rewrite E1, E2.
Qed.
Lemma steady_catch {A} (m : M A) : steady m -> steady (catch m).
Proof. intros Hm s. specialize (Hm s). unfold catch. by destruct (m s). Qed.
Lemma steady_world {A} (f : W -> W * Res A) : steady (on_world f).
Proof. intros s. unfold on_world. by destruct (f (world s)). Qed.
Lemma steady_get {A} (f : Ctl W -> A) : steady (get f).
Proof. done. Qed.
Lemma steady_if {A} (b : bool) (m m' : @M W A) : steady m -> steady m' -> steady (if b then m else m').
Proof. by destruct b. Qed.
Lemma steady_valget keys : steady (valget keys).
Proof. apply steady_world. Qed.
Lemma steady_valset items layers : steady (valset items layers).
Proof. apply steady_world. Qed.
Lemma steady_poll : steady poll_ver.
Proof. apply steady_world. Qed.
Lemma steady_stale : steady stream_stale.
Proof. apply steady_world. Qed.
Lemma steady_see fs : steady (modify (see_supported fs) : @M W unit).
Proof. done. Qed.
End Steady.

#[export] Hint Resolve steady_valget steady_valset steady_poll steady_stale steady_see : steady.
#[export] Hint Resolve steady_ret steady_raise steady_bind steady_catch steady_world steady_get steady_if : steady.

(** Goes through the binds and the matches of a computation. *)
Ltac steadily :=
  repeat match goal with
  | |- steady (_ ≫= _) => apply steady_bind; [| intros ?]
  | |- steady (match ?x with _ => _ end) => destruct x
  | |- _ => solve [auto with steady]
  end.

Section SteadyParts.
Context {W : Type} {ops : Ops W}.

Lemma steady_isolate names : forall result lost, steady (isolate (W := W) names result lost).
Proof. induction names as [|n names IH]; intros result lost; cbn [isolate]; steadily; apply IH. Qed.

Lemma steady_chunks cs : forall result lost, steady (readback_chunks (W := W) cs result lost).
Proof.
  induction cs as [|c cs IH]; intros result lost; cbn [readback_chunks]; steadily; apply steady_isolate || apply IH.
Qed.

Lemma steady_readback keys : steady (_readback (W := W) keys).
Proof. apply steady_chunks. Qed.

Lemma steady_bisect fuel : forall items layers, steady (_bisect (W := W) fuel items layers).
Proof.
  induction fuel as [|fuel IH]; intros items layers; destruct items as [|[k v] [|kv items]]; cbn [_bisect]; steadily; apply IH.
Qed.

Lemma steady_apply_chunks cs layers : forall rejected, steady (apply_chunks (W := W) cs layers rejected).
Proof. induction cs as [|c cs IH]; intros rejected; cbn [apply_chunks]; steadily; apply steady_bisect || apply IH. Qed.

Lemma steady_apply_core items layers : steady (_apply_core (W := W) items layers).
Proof. unfold _apply_core. steadily; [apply steady_readback | by apply steady_apply_chunks]. Qed.

Lemma steady_attempts n : forall naks feature keys, steady (probe_attempts (W := W) n naks feature keys).
Proof. induction n as [|n IH]; intros naks feature keys; cbn [probe_attempts]; steadily; apply IH. Qed.

Lemma steady_probe_features fs : forall caps, steady (probe_features (W := W) fs caps).
Proof. induction fs as [|[f items] fs IH]; intros caps; cbn [probe_features]; steadily; apply steady_attempts || apply IH. Qed.

Lemma steady_probe : steady (probe (W := W)).
Proof. unfold probe. steadily; apply steady_probe_features. Qed.
End SteadyParts.

(** ** What a configure that returns has shown *)

(** A receiver that may stay silent or refuse, but whose readings are of what it holds. *)
Class Truthful (W : Type) {ops : Ops W} (config : W -> Dict) := {
  valget_true : forall keys w w' d, do_valget keys w = (w', Ret d) -> d ⊆ config w';
  valget_keeps : forall keys w, config (do_valget keys w).1 = config w;
  pause_keeps : forall w, config (do_pause w) = config w
}.

Section Holds.
Context {W : Type} {ops : Ops W} (config : W -> Dict) {truthful : Truthful W config}.
Implicit Types (s : Ctl W).

Definition held s : Dict := config (world s).

Lemma bind_inv {A B} (m : M A) (f : A -> M B) s s' b : (m ≫= f) s = (s', Ret b) -> exists s1 a, m s = (s1, Ret a) /\ f a s1 = (s', Ret b).
Proof. unfold mbind, M_bind. destruct (m s) as [s1 [a|e]]; [intros H; by exists s1, a | done]. Qed.

Lemma catch_inv {A} (m : M A) s s' r : catch m s = (s', Ret r) -> m s = (s', r).
Proof. unfold catch. destruct (m s) as [s1 r1]. by intros [= -> ->]. Qed.

Lemma valget_held keys s s' r : valget keys s = (s', r) -> held s' = held s /\ (forall d, r = Ret d -> d ⊆ held s).
Proof.
  unfold valget, on_world. pose proof (valget_keeps keys (world s)) as Hk. destruct (do_valget keys (world s)) as [w r'] eqn:E. simpl in Hk.
  intros [= <- <-]. unfold held. simpl. split; [exact Hk |]. intros d ->. rewrite <- Hk. by apply (valget_true keys (world s)).
Qed.

Lemma isolate_held names : forall result lost s s' res lost', isolate names result lost s = (s', Ret (res, lost')) ->
  held s' = held s /\ (result ⊆ held s -> res ⊆ held s).
Proof.
  induction names as [|name names IH]; intros result lost s s' res lost'; cbn [isolate]; [by intros [= <- <- <-] |].
  intros (s1 & r & Hc & H)%bind_inv. apply catch_inv in Hc. destruct (valget_held _ _ _ _ Hc) as [Hh Hd].
  destruct r as [one|e].
  - destruct (IH _ _ _ _ _ _ H) as [E1 E2]. rewrite Hh in E1, E2. split; [done |]. intros Hr. apply E2, map_union_least; auto.
  - assert (Hx : forall lost0, isolate names result lost0 s1 = (s', Ret (res, lost')) -> held s' = held s /\ (result ⊆ held s -> res ⊆ held s)).
    { intros lost0 H0. destruct (IH _ _ _ _ _ _ H0) as [E1 E2]. by rewrite Hh in E1, E2. }
    destruct e; try done; by eapply Hx, H.
Qed.

Lemma readback_held cs : forall result lost s s' res lost', readback_chunks cs result lost s = (s', Ret (res, lost')) ->
  held s' = held s /\ (result ⊆ held s -> res ⊆ held s).
Proof.
  induction cs as [|names cs IH]; intros result lost s s' res lost'; cbn [readback_chunks]; [by intros [= <- <- <-] |].
  intros (s1 & r & Hc & H)%bind_inv. apply catch_inv in Hc. destruct (valget_held _ _ _ _ Hc) as [Hh Hd].
  destruct r as [got|e].
  - destruct (IH _ _ _ _ _ _ H) as [E1 E2]. rewrite Hh in E1, E2. split; [done |]. intros Hr. apply E2, map_union_least; auto.
  - assert (Hx : (isolate names result lost ≫= fun '(result, lost) => readback_chunks cs result lost) s1 = (s', Ret (res, lost')) ->
               held s' = held s /\ (result ⊆ held s -> res ⊆ held s)).
    { intros (s2 & [res1 lost1] & Hi & H2)%bind_inv. destruct (isolate_held _ _ _ _ _ _ _ Hi) as [E1 E2].
      destruct (IH _ _ _ _ _ _ H2) as [E3 E4]. rewrite E1, Hh in E3. rewrite Hh in E2. rewrite E1, Hh in E4. auto. }
    destruct e; try done; by apply Hx, H.
Qed.

Lemma verify_held p skip s s' ms lost : verify p skip s = (s', Ret (ms, lost)) ->
  held s' = held s /\ (ms = [] -> forall k v, In (k, v) (_wanted p skip) -> held s !! k = Some v).
Proof.
  unfold verify. intros (s1 & [got lost1] & Hr & H)%bind_inv. injection H as <- <- <-.
  destruct (readback_held _ _ _ _ _ _ _ Hr) as [E1 E2]. split; [exact E1 |]. intros Hn k v Hin.
  apply map_eq_nil in Hn. destruct (differs got (k, v)) eqn:Ed.
  - assert (Hx : In (k, v) (List.filter (differs got) (_wanted p skip))) by (by apply filter_In). by rewrite Hn in Hx.
  - unfold differs in Ed. apply negb_false_iff, bool_decide_eq_true in Ed. simpl in Ed.
    eapply lookup_weaken; [exact Ed |]. apply E2, map_empty_subseteq.
Qed.

Lemma verified n : forall p skip s s', verify_attempts n p skip s = (s', Ret tt) ->
  held s' = held s /\ forall k v, In (k, v) (_wanted p skip) -> held s !! k = Some v.
Proof.
  induction n as [|n IH]; intros p skip s s'; cbn [verify_attempts].
  - intros (s1 & once & Ho & H)%bind_inv. by destruct once.
  - intros (s1 & [ms lost] & Hv & H)%bind_inv. destruct (verify_held _ _ _ _ _ _ Hv) as [E1 E2].
    destruct ms as [|m ms]; [injection H as <-; auto |].
    apply bind_inv in H as (s2 & u & H1 & H). assert (s2 = s1) as ->.
    { destruct (heard (m :: ms) lost); [by injection H1 |]. destruct (_ =? _)%nat; [by injection H1 | done]. }
    apply bind_inv in H as (s3 & u' & H2 & H). assert (Hp : held s3 = held s1).
    { destruct n; [by injection H2 as <- | injection H2 as <-; unfold held; simpl; apply pause_keeps]. }
    destruct (IH _ _ _ _ H) as [E3 E4]. rewrite Hp, E1 in E3, E4. auto.
Qed.

(** The worlds that operations of the link lead to. *)
Inductive later (w0 : W) : W -> Prop :=
| later_refl : later w0 w0
| later_valset items layers w : later w0 w -> later w0 (do_valset items layers w).1
| later_valget keys w : later w0 w -> later w0 (do_valget keys w).1
| later_poll w : later w0 w -> later w0 (do_poll_ver w).1
| later_stale w : later w0 w -> later w0 (do_stale w).1.

(** A computation that only goes on to later worlds. *)
Definition forth {A} (m : M A) : Prop := forall w0 s, later w0 (world s) -> later w0 (world (m s).1).

Lemma forth_ret {A} (a : A) : forth (mret a).
Proof. by intros w0 s. Qed.
Lemma forth_raise {A} e : forth (@raise W A e).
Proof. by intros w0 s. Qed.
Lemma forth_get {A} (f : Ctl W -> A) : forth (get f).
Proof. by intros w0 s. Qed.
Lemma forth_bind {A B} (m : M A) (f : A -> M B) : forth m -> (forall a, forth (f a)) -> forth (m ≫= f).
Proof.
  intros Hm Hf w0 s Hs. unfold mbind, M_bind. specialize (Hm w0 s Hs). destruct (m s) as [s1 [a|e]]; [by apply Hf | done].
Qed.
Lemma forth_catch {A} (m : M A) : forth m -> forth (catch m).
Proof. intros Hm w0 s Hs. specialize (Hm w0 s Hs). unfold catch. by destruct (m s). Qed.
Lemma forth_valget keys : forth (valget keys).
Proof. intros w0 s Hs. apply (later_valget w0 keys) in Hs. unfold valget, on_world. by destruct (do_valget keys (world s)). Qed.
Lemma forth_valset items layers : forth (valset items layers).
Proof. intros w0 s Hs. apply (later_valset w0 items layers) in Hs. unfold valset, on_world. by destruct (do_valset items layers (world s)). Qed.
Lemma forth_poll : forth poll_ver.
Proof. intros w0 s Hs. apply later_poll in Hs. unfold poll_ver, on_world. by destruct (do_poll_ver (world s)). Qed.
Lemma forth_stale : forth stream_stale.
Proof. intros w0 s Hs. apply later_stale in Hs. unfold stream_stale, on_world. by destruct (do_stale (world s)). Qed.

Ltac forthwith :=
  repeat match goal with
  | |- forth (_ ≫= _) => apply forth_bind; [| intros ?]
  | |- forth (match ?x with _ => _ end) => destruct x
  | |- _ => first [apply forth_ret | apply forth_raise | apply forth_get | apply forth_valget | apply forth_valset
                  | apply forth_poll | apply forth_stale | apply forth_catch]
  end.

Lemma forth_readback keys : forth (_readback keys).
Proof.
  assert (Hi : forall names result lost, forth (isolate names result lost)).
  { induction names as [|n names IH]; intros result lost; cbn [isolate]; forthwith; apply IH. }
  unfold _readback. generalize (chunked keys), (∅ : Dict), (∅ : gset bytes). intros cs.
  induction cs as [|c cs IH]; intros result lost; cbn [readback_chunks]; forthwith; apply Hi || apply IH.
Qed.

Lemma forth_probe : forth probe.
Proof.
  assert (Ha : forall n naks feature keys, forth (probe_attempts n naks feature keys)).
  { induction n as [|n IH]; intros naks feature keys; cbn [probe_attempts]; forthwith; apply IH. }
  assert (Hf : forall fs caps, forth (probe_features fs caps)).
  { induction fs as [|[f items] fs IH]; intros caps; cbn [probe_features]; forthwith; apply Ha || apply IH. }
  unfold probe. forthwith; try apply Hf; by intros w0 s.
Qed.

(** The receiver refused a CFG-VALSET, of items or of one item of them alone. *)
Definition no_to (w0 : W) (layers : Z) (items : CfgItems) : Prop :=
  exists w, later w0 w /\ (do_valset items layers w).2 = Ret false.
Definition no_to_key (w0 : W) (layers : Z) (items : CfgItems) (k : bytes) : Prop :=
  exists v, In (k, v) items /\ no_to w0 layers [(k, v)].

Lemma no_to_incl w0 layers a b ks : (forall kv, In kv a -> In kv b) -> Forall (no_to_key w0 layers a) ks -> Forall (no_to_key w0 layers b) ks.
Proof. intros H. apply Forall_impl. intros k (v & Hin & Hv). exists v. auto. Qed.

Lemma valset_no w0 layers items s s1 ok : later w0 (world s) -> valset items layers s = (s1, Ret ok) ->
  later w0 (world s1) /\ (ok = false -> no_to w0 layers items).
Proof.
  intros Hs E. pose proof (forth_valset items layers w0 s Hs) as H1. rewrite E in H1. split; [exact H1|]. intros ->.
  exists (world s). split; [done|]. revert E. unfold valset, on_world. destruct (do_valset items layers (world s)). by intros [= _ ->].
Qed.

(** One half of the search, and both. *)
Definition half (fuel : nat) (layers : Z) (part : CfgItems) (rejected : list bytes) : M (list bytes) :=
  ok ← valset part layers;
  if (ok : bool) then mret rejected else (r ← _bisect fuel part layers; mret (rejected ++ r)).

Definition finds_refused (fuel : nat) (layers : Z) : Prop := forall w0 items s s' rej,
  later w0 (world s) -> no_to w0 layers items -> _bisect fuel items layers s = (s', Ret rej) ->
  later w0 (world s') /\ Forall (no_to_key w0 layers items) rej.

Lemma half_refused fuel layers w0 all part before s s' rej : finds_refused fuel layers ->
  (forall kv, In kv part -> In kv all) -> later w0 (world s) -> Forall (no_to_key w0 layers all) before ->
  half fuel layers part before s = (s', Ret rej) -> later w0 (world s') /\ Forall (no_to_key w0 layers all) rej.
Proof.
  intros IH Hp Hs Hb (s1 & ok & E & H)%bind_inv. destruct (valset_no _ _ _ _ _ _ Hs E) as [H1 Hn].
  destruct ok; [by injection H as <- <-|]. apply bind_inv in H as (s2 & r & E2 & H). injection H as <- <-.
  destruct (IH _ _ _ _ _ H1 (Hn eq_refl) E2) as [H2 Hr]. split; [done|]. apply Forall_app_2; [done|by eapply no_to_incl].
Qed.

Lemma halves_refused fuel layers w0 all s s' rej : finds_refused fuel layers -> later w0 (world s) ->
  (rejected ← half fuel layers (first_half all) []; half fuel layers (second_half all) rejected) s = (s', Ret rej) ->
  later w0 (world s') /\ Forall (no_to_key w0 layers all) rej.
Proof.
  intros IH Hs (s1 & r1 & E1 & E2)%bind_inv.
  destruct (half_refused _ _ _ all _ _ _ _ _ IH ltac:(intros kv H; apply list_elem_of_In, subseteq_take in H; by apply list_elem_of_In)
              Hs (Forall_nil_2 _) E1) as [H1 F1].
  exact (half_refused _ _ _ all _ _ _ _ _ IH ltac:(intros kv H; apply list_elem_of_In, subseteq_drop in H; by apply list_elem_of_In)
           H1 F1 E2).
Qed.

Lemma bisect_refused layers : forall fuel, finds_refused fuel layers.
Proof.
  assert (Hone : forall w0 k v (s s' : Ctl W) rej, later w0 (world s) -> no_to w0 layers [(k, v)] -> (s, Ret [k]) = (s', @Ret (list bytes) rej) ->
    later w0 (world s') /\ Forall (no_to_key w0 layers [(k, v)]) rej).
  { intros w0 k v s s' rej Hs Hno [= <- <-]. split; [done|]. repeat constructor. exists v. split; [by left|done]. }
  induction fuel as [|fuel IH]; intros w0 items s s' rej Hs Hno; destruct items as [|[k v] [|kv items]]; try (by apply Hone).
  1-2: intros [= <- <-]; by split.
  all: by apply halves_refused.
Qed.

Lemma chunks_refused layers w0 : forall cs before s s' rej, later w0 (world s) -> Forall (no_to_key w0 layers (concat cs)) before ->
  apply_chunks cs layers before s = (s', Ret rej) -> later w0 (world s') /\ Forall (no_to_key w0 layers (concat cs)) rej.
Proof.
  intros cs. set (all := concat cs) at 1 2. assert (Hall : forall kv, In kv (concat cs) -> In kv all) by done. clearbody all.
  induction cs as [|c cs IH]; intros before s s' rej Hs Hb; cbn [apply_chunks]; [by intros [= <- <-]|].
  assert (Hcs : forall kv, In kv (concat cs) -> In kv all) by (intros kv H; apply Hall; cbn; apply in_app_iff; by right).
  assert (Hc : forall kv, In kv c -> In kv all) by (intros kv H; apply Hall; cbn; apply in_app_iff; by left).
  intros (s1 & ok & E & H)%bind_inv. destruct (valset_no _ _ _ _ _ _ Hs E) as [H1 Hn].
  destruct ok; [by apply (IH Hcs before s1)|]. apply bind_inv in H as (s2 & r & E2 & H).
  destruct (bisect_refused layers _ _ _ _ _ _ H1 (Hn eq_refl) E2) as [H2 Hr].
  apply (IH Hcs (before ++ r) s2); [done| |done]. apply Forall_app_2; [done|by eapply no_to_incl].
Qed.

Lemma apply_core_refused layers w0 core s s' rej : later w0 (world s) -> _apply_core core layers s = (s', Ret rej) ->
  Forall (no_to_key w0 layers core) rej.
Proof.
  intros Hs (s1 & [cur lost] & Hr & H)%bind_inv. pose proof (forth_readback (map fst core) w0 s Hs) as H1. rewrite Hr in H1.
  revert H. set (pending := List.filter (differs cur) core). assert (Hp : forall kv, In kv pending -> In kv core) by (by intros kv [? _]%filter_In).
  destruct pending as [|kv pending]; [by intros [= <- <-]|]. intros H. eapply no_to_incl; [exact Hp|].
  unfold _apply_with_bisect in H. pose proof (chunked_concat (kv :: pending)) as Hc.
  destruct (chunks_refused layers w0 (chunked (kv :: pending)) [] s1 s' rej H1 (Forall_nil_2 _) H) as [_ Hf].
  by rewrite Hc in Hf.
Qed.

(** The value a list of settings gives a key: that of its last pair. *)
Definition value_of (items : CfgItems) (k : bytes) : option CfgValue := (list_to_map (rev items) : Dict) !! k.

Lemma value_of_snoc items kv k : value_of (items ++ [kv]) k = if bool_decide (kv.1 = k) then Some kv.2 else value_of items k.
Proof.
  unfold value_of. rewrite rev_unit. destruct kv as [k0 v]. cbn. case_bool_decide as E; [subst; apply lookup_insert_eq|by rewrite lookup_insert_ne].
Qed.

Lemma set_item_in d kv : In kv (set_item d kv).
Proof.
  unfold set_item. destruct (existsb _ d) eqn:E; [|apply in_app_iff; right; by left].
  apply existsb_exists in E as (e & Hin & He). apply in_map_iff. exists e. by rewrite He.
Qed.

Lemma set_item_other d kv k v : kv.1 <> k -> In (k, v) d -> In (k, v) (set_item d kv).
Proof.
  intros Hne Hin. unfold set_item. destruct (existsb _ d); [|apply in_app_iff; by left].
  apply in_map_iff. exists (k, v). rewrite bool_decide_eq_false_2; [done|]. cbn. congruence.
Qed.

(** What is verified is every core and signal setting that was not refused, at its last value. *)
Lemma wanted_value p skip k v : ~ In k skip -> value_of (core p ++ signals p) k = Some v -> In (k, v) (_wanted p skip).
Proof.
  intros Hk. unfold _wanted. generalize (core p ++ signals p). intros l. induction l as [|kv l IH] using rev_ind; [done|].
  rewrite value_of_snoc, List.filter_app. cbn [List.filter]. case_bool_decide as E.
  - intros [= <-]. destruct kv as [k0 v]. cbn in E |- *. subst k0. replace (existsb _ skip) with false; cbn [negb].
    + rewrite foldl_snoc. apply set_item_in.
    + symmetry. apply not_true_is_false. intros (k1 & Hin & E)%existsb_exists. apply bool_decide_eq_true in E. by subst.
  - intros Hv. destruct (negb _); [|rewrite app_nil_r; auto]. rewrite foldl_snoc. apply set_item_other; auto.
Qed.

(** C25.  When a configure returns, the receiver holds the profile: every core and signal setting
    whose key is not among those returned as rejected has the value the profile gives it (the last
    one, were a key given twice) - whatever was lost, refused or answered late on the way, as long as
    what is read back is what the receiver holds. A key is rejected only if it is one of the core
    settings and the receiver, where operations of the link led it from the start of the call, refuses
    a CFG-VALSET of that setting alone; and none is when the controller is strict. *)
Theorem configure_holds (p : Profile) first s s' caps rejected : profile s = Some p -> _configure_ first s = (s', Ret (caps, rejected)) ->
  (strict s = true -> rejected = [])
  /\ Forall (no_to_key (world s) (if first then LAYERS_ALL else LAYERS_RAM) (core p)) rejected
  /\ forall k v, ~ In k rejected -> value_of (core p ++ signals p) k = Some v -> held s' !! k = Some v.
Proof.
  intros Hp. unfold _configure_. intros (s1 & po & H1 & H)%bind_inv. injection H1 as <- <-. rewrite Hp in H.
  apply bind_inv in H as (s2 & caps0 & Hp2 & H). apply bind_inv in H as (s3 & rej & Hp3 & H).
  pose proof (forth_probe (world s) s (later_refl _)) as L2. rewrite Hp2 in L2.
  pose proof (apply_core_refused _ _ _ _ _ _ L2 Hp3) as Href.
  assert (Hst3 : strict s3 = strict s).
  { pose proof (steady_probe s) as [E2 _]. pose proof (steady_apply_core (core p) (if first then LAYERS_ALL else LAYERS_RAM) s2) as [E3 _].
    rewrite Hp2 in E2. rewrite Hp3 in E3. simpl in *. congruence. }
  apply bind_inv in H as (s4 & st & Hst & H). injection Hst as <- <-.
  apply bind_inv in H as (s5 & u & Hrej & H). apply bind_inv in H as (s6 & [cur lost] & _ & H). apply bind_inv in H as (s7 & u1 & _ & H).
  apply bind_inv in H as (s8 & caps1 & _ & H). apply bind_inv in H as (s9 & u2 & Hv & H). unfold _verify_or_raise in Hv.
  apply bind_inv in Hv as (s10 & once & _ & Hv). destruct u2. destruct (verified _ _ _ _ _ Hv) as [E1 E2].
  apply bind_inv in H as (s11 & u3 & H11 & H). apply bind_inv in H as (s12 & u4 & H12 & H). injection H11 as <- _. injection H12 as <- _.
  injection H as <- <- <-. split; [|split; [exact Href|]].
  - intros Hs. destruct rej; [done |]. rewrite Hst3, Hs in Hrej. done.
  - intros k v Hk Hval. unfold held in *. simpl. change (config (world s9) !! k = Some v). rewrite E1. apply E2. by apply wanted_value.
Qed.
End Holds.

(** ** The search for refused items *)

Definition insert_item (d : Dict) (kv : bytes * CfgValue) : Dict := <[kv.1 := kv.2]> d.
Definition insert_items (items : CfgItems) (d : Dict) : Dict := foldl insert_item d items.

(** A receiver that answers every CFG-VALSET: it takes the whole of one whose items it all accepts,
    and nothing of another. *)
Class Answering (W : Type) {ops : Ops W} (config : W -> Dict) (accepts : bytes * CfgValue -> bool) := {
  valset_answered : forall items layers w, exists w', do_valset items layers w = (w', Ret (forallb accepts items))
    /\ config w' = if forallb accepts items then insert_items items (config w) else config w
}.

Section Bisect.
Context {W : Type} {ops : Ops W} (config : W -> Dict) (accepts : bytes * CfgValue -> bool) {answering : Answering W config accepts}.
Implicit Types (s : Ctl W).

Definition refused (items : CfgItems) : list bytes := map fst (List.filter (fun kv => negb (accepts kv)) items).
Definition accepted (items : CfgItems) : CfgItems := List.filter accepts items.

Lemma accepted_all items : forallb accepts items = true -> accepted items = items /\ refused items = [].
Proof.
  unfold accepted, refused. induction items as [|kv items IH]; simpl; [done |]. intros [-> H]%andb_true_iff. destruct (IH H) as [-> E].
  split; [done | exact E].
Qed.

Lemma refused_app a b : refused (a ++ b) = refused a ++ refused b.
Proof. unfold refused. by rewrite List.filter_app, map_app. Qed.

Lemma accepted_app a b d : insert_items (accepted (a ++ b)) d = insert_items (accepted b) (insert_items (accepted a) d).
Proof. unfold accepted, insert_items. by rewrite List.filter_app, foldl_app. Qed.

(** What writing items comes to: those refused, and the others written. *)
Definition writes (m : M (list bytes)) (items : CfgItems) (before : list bytes) : Prop :=
  forall s, exists s', m s = (s', Ret (before ++ refused items)) /\ held config s' = insert_items (accepted items) (held config s).

Lemma valset_split items layers (f : bool -> M (list bytes)) before :
  (forallb accepts items = true -> f true = mret before) ->
  (forallb accepts items = false -> writes (f false) items before) ->
  writes (valset items layers ≫= f) items before.
Proof.
  intros Ht Hf s. unfold mbind, M_bind, valset, on_world. destruct (valset_answered items layers (world s)) as (w' & E & Hc). rewrite E.
  destruct (forallb accepts items) eqn:Ea.
  - rewrite (Ht eq_refl). destruct (accepted_all _ Ea) as [Ha Hr]. eexists. rewrite Ha, Hr, app_nil_r. split; [reflexivity | exact Hc].
  - destruct (Hf eq_refl (set_world w' s)) as (s' & E1 & E2). exists s'. split; [exact E1 |]. rewrite E2. unfold held at 1. simpl. by rewrite Hc.
Qed.

Lemma writes_more (m : M (list bytes)) items before : writes m items [] -> writes (r ← m; mret (before ++ r)) items before.
Proof. intros H s. destruct (H s) as (s' & E & Hh). exists s'. unfold mbind, M_bind. by rewrite E. Qed.

Lemma writes_then (m : M (list bytes)) (f : list bytes -> M (list bytes)) a b before : writes m a before ->
  (forall rejected, writes (f rejected) b rejected) -> writes (m ≫= f) (a ++ b) before.
Proof.
  intros Hm Hf s. destruct (Hm s) as (s1 & E1 & H1). destruct (Hf (before ++ refused a) s1) as (s2 & E2 & H2). exists s2.
  unfold mbind, M_bind. rewrite E1, E2, refused_app, app_assoc, accepted_app, H2, H1. done.
Qed.

Lemma halves items : (2 <= length items)%nat -> first_half items ++ second_half items = items
  /\ (1 <= length (first_half items) < length items)%nat /\ (1 <= length (second_half items) < length items)%nat.
Proof.
  intros H. unfold first_half, second_half. rewrite take_drop, length_take, length_drop. split; [done |].
  pose proof (Nat.div2_odd (length items)). destruct (Nat.odd (length items)); simpl in *; lia.
Qed.

Lemma bisect_writes fuel : forall items layers, (1 <= length items <= fuel)%nat -> forallb accepts items = false -> writes (_bisect fuel items layers) items [].
Proof.
  induction fuel as [|fuel IH]; intros items layers Hl Hb; [lia |]. destruct items as [|[k v] [|kv items]]; [simpl in Hl; lia | |].
  - intros s. exists s. simpl in Hb. rewrite andb_true_r in Hb. unfold refused, accepted. simpl. by rewrite Hb.
  - set (all := (k, v) :: kv :: items) in *. destruct (halves all) as (E & H1 & H2); [simpl; lia |].
    assert (Hpart : forall part rejected, (1 <= length part < length all)%nat ->
       writes (ok ← valset part layers; if (ok : bool) then mret rejected else (r ← _bisect fuel part layers; mret (rejected ++ r))) part rejected).
    { intros part rejected Hp. apply valset_split; [done |]. intros Hf. apply writes_more, IH; [lia | done]. }
    enough (Hw : writes (_bisect (S fuel) all layers) (first_half all ++ second_half all) []) by (by rewrite E in Hw).
    apply (writes_then (ok ← valset (first_half all) layers; if (ok : bool) then mret [] else (r ← _bisect fuel (first_half all) layers; mret ([] ++ r)))
             (fun rejected => ok ← valset (second_half all) layers; if (ok : bool) then mret rejected else (r ← _bisect fuel (second_half all) layers; mret (rejected ++ r)))
             (first_half all) (second_half all) []); [by apply Hpart | intros rejected; by apply Hpart].
Qed.

Lemma chunks_write cs layers : Forall (fun c => (1 <= length c)%nat) cs -> forall rejected, writes (apply_chunks cs layers rejected) (concat cs) rejected.
Proof.
  induction 1 as [|c cs Hc _ IH]; intros rejected; cbn [apply_chunks concat].
  - intros s. exists s. unfold refused, accepted. simpl. by rewrite app_nil_r.
  - intros s. unfold mbind, M_bind, valset, on_world. destruct (valset_answered c layers (world s)) as (w' & E & Hw). rewrite E.
    destruct (forallb accepts c) eqn:Ea.
    + destruct (IH rejected (set_world w' s)) as (s' & E1 & E2). exists s'. destruct (accepted_all _ Ea) as [Ha Hr].
      rewrite E1, refused_app, Hr, accepted_app, Ha, E2. unfold held at 1. simpl. by rewrite Hw.
    + assert (Hbi : (1 <= length c <= length c)%nat) by lia.
      destruct (bisect_writes _ _ layers Hbi Ea (set_world w' s)) as (s1 & E1 & H1). rewrite E1. cbn [app].
      destruct (IH (rejected ++ refused c) s1) as (s2 & E2 & H2). exists s2. rewrite E2, refused_app, app_assoc, accepted_app, H2, H1.
      unfold held at 1. simpl. by rewrite Hw.
Qed.

(** C26.  With a receiver that takes a CFG-VALSET whole or not at all, writing items ends with every
    item it accepts written, in order, and the result is the keys of the items it refuses, in order:
    one bad key never costs its chunk. *)
Theorem bisect_exact (items : CfgItems) layers s : exists s',
  _apply_with_bisect items layers s = (s', Ret (refused items)) /\ held config s' = insert_items (accepted items) (held config s).
Proof.
  assert (Hne : Forall (fun c => (1 <= length c)%nat) (chunked items)).
  { eapply List.Forall_impl; [| apply (chunks_sizes MAX_KEYS_PER_VALSET (length items) items)]; [simpl; lia | unfold MAX_KEYS_PER_VALSET; lia]. }
  pose proof (chunks_write (chunked items) layers Hne [] s) as H. by rewrite chunked_concat in H.
Qed.
End Bisect.

(** ** A receiver that has the profile already *)

(** A receiver that answers every reading of keys it has; [written] counts what it was sent to
    write, which reading does not change. *)
Class Complete (W : Type) {ops : Ops W} (config : W -> Dict) (written : W -> Z) := {
  valget_whole : forall keys w, (forall k, In k keys -> is_Some (config w !! k)) ->
    exists w' d, do_valget keys w = (w', Ret d) /\ (forall k, d !! k = if bool_decide (k ∈ keys) then config w !! k else None)
      /\ config w' = config w /\ written w' = written w;
  poll_answered : forall w, exists w' v, do_poll_ver w = (w', Ret v) /\ config w' = config w /\ written w' = written w
}.

Section Idle.
Context {W : Type} {ops : Ops W} (config : W -> Dict) (written : W -> Z) {complete : Complete W config written}.
Implicit Types (s : Ctl W).

(** The state after a computation that only reads. *)
Definition same s s' : Prop := held config s' = held config s /\ written (world s') = written (world s)
  /\ profile s' = profile s /\ strict s' = strict s /\ configured_once s' = configured_once s.

Lemma same_refl s : same s s.
Proof. done. Qed.

Lemma same_trans s1 s2 s3 : same s1 s2 -> same s2 s3 -> same s1 s3.
Proof. unfold same. intuition congruence. Qed.

Definition has s (items : CfgItems) : Prop := forall k v, In (k, v) items -> held config s !! k = Some v.

Lemma has_same s s' items : same s s' -> has s items -> has s' items.
Proof. intros (E & _) H k v Hin. rewrite E. auto. Qed.

Lemma has_keys s items k : has s items -> In k (map fst items) -> is_Some (held config s !! k).
Proof. intros H ([k' v] & <- & Hin)%in_map_iff. exists v. by apply H. Qed.

Lemma valget_same keys s : (forall k, In k keys -> is_Some (held config s !! k)) ->
  exists s' d, valget keys s = (s', Ret d) /\ (forall k, d !! k = if bool_decide (k ∈ keys) then held config s !! k else None) /\ same s s'.
Proof.
  intros H. destruct (valget_whole keys (world s) H) as (w' & d & E & Hd & Hc & Hw). exists (set_world w' s), d.
  unfold valget, on_world. rewrite E. by split_and!.
Qed.

Lemma missing_none (keys : list bytes) (d : Dict) : (forall k, In k keys -> is_Some (d !! k)) -> missing keys d = [].
Proof.
  unfold missing. induction keys as [|k keys IH]; intros H; simpl; [done |]. destruct (H k (or_introl eq_refl)) as [v ->].
  apply IH. intros k' Hin. apply H. by right.
Qed.

Lemma readback_same cs : forall result s, (forall k, In k (concat cs) -> is_Some (held config s !! k)) ->
  exists s' res, readback_chunks cs result ∅ s = (s', Ret (res, ∅)) /\ same s s'
    /\ forall k, In k (concat cs) \/ result !! k = held config s !! k -> res !! k = held config s !! k.
Proof.
  induction cs as [|c cs IH]; intros result s H; cbn [readback_chunks concat].
  - exists s, result. split_and!; [done | apply same_refl |]. intros k [[]|E]. done.
  - destruct (valget_same c s) as (s1 & d & E & Hd & Hs); [intros k Hin; apply H, in_app_iff; by left |].
    assert (E' : held config s1 = held config s) by apply Hs.
    destruct (IH (d ∪ result) s1) as (s2 & res & E2 & Hs2 & Hres); [intros k Hin; rewrite E'; apply H, in_app_iff; by right |].
    exists s2, res. unfold mbind, M_bind, catch. rewrite E, missing_none, (left_id_L ∅ _).
    + split_and!; [exact E2 | by eapply same_trans |]. rewrite E' in Hres. intros k Hk.
      destruct (decide (k ∈ c)) as [Hin|Hout].
      * apply Hres. right. rewrite lookup_union, Hd, bool_decide_true by done.
        destruct (H k) as [v ->]; [apply in_app_iff; left; by apply list_elem_of_In |]. by destruct (result !! k).
      * apply Hres. rewrite lookup_union, Hd, bool_decide_false, (left_id_L None _) by done.
        destruct Hk as [[Hin|Hin]%in_app_iff|Hk]; [by apply list_elem_of_In in Hin | by left | by right].
    + intros k Hin. rewrite Hd, bool_decide_true by (by apply list_elem_of_In). apply H, in_app_iff. by left.
Qed.

Lemma read_whole keys s : (forall k, In k keys -> is_Some (held config s !! k)) ->
  exists s' res, _readback keys s = (s', Ret (res, ∅)) /\ same s s' /\ forall k, In k keys -> res !! k = held config s !! k.
Proof.
  intros H. destruct (readback_same (chunked keys) ∅ s) as (s' & res & E & Hs & Hres); [by rewrite chunked_concat |].
  exists s', res. split_and!; [exact E | exact Hs |]. intros k Hin. apply Hres. left. by rewrite chunked_concat.
Qed.

(** Items the receiver has read back as they are. *)
Lemma read_items items s : has s items -> exists s' res, _readback (map fst items) s = (s', Ret (res, ∅)) /\ same s s'
  /\ List.filter (differs res) items = [] /\ existsb (differs res) items = false /\ forallb (fun kv => negb (differs res kv)) items = true.
Proof.
  intros H. destruct (read_whole (map fst items) s) as (s' & res & E & Hs & Hres); [intros k; by apply has_keys |].
  exists s', res. split_and!; [exact E | exact Hs | | |];
    (assert (Hd : forall kv, In kv items -> differs res kv = false);
      [intros [k v] Hin; unfold differs; rewrite Hres by (apply in_map_iff; by exists (k, v)); simpl; by rewrite (H k v Hin), bool_decide_true |]);
    clear - Hd; induction items as [|kv items IH]; simpl; try done; rewrite (Hd kv (or_introl eq_refl)); simpl; try apply IH; intros kv' Hin; apply Hd; by right.
Qed.

Lemma probe_one feature items s : has s items -> exists s', _probe_feature feature (map fst items) s = (s', Ret true) /\ same s s'.
Proof.
  intros H. destruct (valget_same (map fst items) s) as (s' & d & E & Hd & Hs); [intros k; by apply has_keys |]. exists s'. split; [| exact Hs].
  unfold _probe_feature, PROBE_ATTEMPTS. cbn [probe_attempts]. unfold mbind, M_bind, catch. rewrite E, missing_none; [done |].
  intros k Hin. rewrite Hd, bool_decide_true by (by apply list_elem_of_In). by apply (has_keys s items).
Qed.

Definition with_features (fs : list (bytes * CfgItems)) (caps : Capabilities) : Capabilities := foldl (fun c fi => add_supported fi.1 c) caps fs.

Lemma probe_all fs : forall caps s, (forall f items, In (f, items) fs -> has s items) ->
  exists s', probe_features fs caps s = (s', Ret (with_features fs caps)) /\ same s s'.
Proof.
  induction fs as [|[f items] fs IH]; intros caps s H; cbn [probe_features]; [exists s; by split |].
  destruct (probe_one f items s) as (s1 & E1 & H1); [apply (H f); by left |].
  destruct (IH (add_supported f caps) s1) as (s2 & E2 & H2).
  { intros f' items' Hin. eapply has_same; [exact H1 |]. apply (H f'). by right. }
  exists s2. unfold mbind, M_bind. rewrite E1, E2. split; [done | by eapply same_trans].
Qed.

Lemma features_idle fs : forall caps layers s, unsupported caps = ∅ -> (forall f items, In (f, items) fs -> has s items) ->
  exists s', apply_features fs caps layers s = (s', Ret (with_features fs caps)) /\ same s s'.
Proof.
  induction fs as [|[f items] fs IH]; intros caps layers s Hu H; cbn [apply_features]; [exists s; by split |].
  destruct (read_items items s) as (s1 & res & E1 & H1 & _ & _ & Hall); [apply (H f); by left |].
  destruct (IH (add_supported f caps) layers s1) as (s2 & E2 & H2); [done | |].
  { intros f' items' Hin. eapply has_same; [exact H1 |]. apply (H f'). by right. }
  exists s2. rewrite Hu, bool_decide_false by set_solver. unfold _apply_optional, mbind, M_bind. rewrite E1, Hall. cbn. rewrite E2.
  split; [done | by eapply same_trans].
Qed.

Lemma with_features_unsupported fs : forall caps, unsupported (with_features fs caps) = unsupported caps.
Proof. induction fs as [|f fs IH]; intros caps; [done |]. unfold with_features in *. simpl. by rewrite IH. Qed.

Lemma wanted_in p skip k v : In (k, v) (_wanted p skip) -> In (k, v) (core p ++ signals p).
Proof.
  unfold _wanted. assert (Hf : forall l d, (forall kv, In kv d -> In kv (core p ++ signals p)) -> (forall kv, In kv l -> In kv (core p ++ signals p)) ->
    In (k, v) (foldl set_item d l) -> In (k, v) (core p ++ signals p)).
  { induction l as [|kv l IH]; intros d Hd Hl; simpl; [apply Hd |]. apply IH; [| intros x Hx; apply Hl; by right].
    intros x Hx. unfold set_item in Hx. destruct (existsb _ d).
    - apply in_map_iff in Hx as (y & <- & Hy). destruct (bool_decide _); [apply Hl; by left | by apply Hd].
    - apply in_app_iff in Hx as [Hx|[<-|[]]]; [by apply Hd | apply Hl; by left]. }
  apply Hf; [done |]. intros kv. by intros [Hin _]%filter_In.
Qed.

Definition caps_of (ver : option (bytes * bytes * bytes)) : Capabilities :=
  match ver with Some (a, f, m) => mkCaps a f m ∅ ∅ | None => mkCaps [] [] [] ∅ ∅ end.

Lemma probe_idle (p : Profile) s : profile s = Some p -> (forall f items, In (f, items) (optional p) -> has s items) ->
  exists s' ver, probe s = (s', Ret (with_features (optional p) (caps_of ver))) /\ same s s'.
Proof.
  intros Hp Hopt. destruct (poll_answered (world s)) as (w1 & ver & E1 & C1 & F1). set (s1 := set_world w1 s). assert (S1 : same s s1) by done.
  destruct (probe_all (optional p) (caps_of ver) s1) as (s2 & E2 & S2); [intros f items Hin; eapply has_same, (Hopt f); [exact S1 | exact Hin] |].
  exists (see_supported (supported (with_features (optional p) (caps_of ver))) s2), ver.
  split; [| eapply same_trans; [exact S1 |]; eapply same_trans; [exact S2 | done]].
  unfold probe, poll_ver, on_world, get, modify, mbind, M_bind. rewrite E1. cbn beta iota.
  change (profile (set_world w1 s)) with (profile s). rewrite Hp. change (set_world w1 s) with s1. fold (caps_of ver). by rewrite E2.
Qed.

Lemma verify_idle (p : Profile) s : has s (core p) -> has s (signals p) -> exists s', _verify_or_raise p [] s = (s', Ret tt) /\ same s s'.
Proof.
  intros Hcore Hsig. assert (Hwanted : has s (_wanted p [])).
  { intros k v Hin. apply wanted_in in Hin. apply in_app_iff in Hin as [Hin|Hin]; auto. }
  destruct (read_items _ _ Hwanted) as (s7 & r7 & E7 & S7 & D7 & _). exists s7. split; [| done].
  unfold _verify_or_raise, get, mbind, M_bind. cbn beta iota.
  assert (Hone : forall n, verify_attempts (S n) p [] s = (s7, Ret tt)).
  { intros n. cbn [verify_attempts]. unfold verify, mbind, M_bind. cbn zeta. rewrite E7. cbn beta iota. by rewrite D7. }
  destruct (configured_once s); apply Hone.
Qed.

Lemma with_features_in fs : forall caps f, In f (map fst fs) -> f ∈ supported (with_features fs caps).
Proof.
  induction fs as [|[f' items'] fs IH]; intros caps f; [done |]. simpl. intros [<- | Hin]; [| by apply IH].
  assert (Hk : forall fs c, f' ∈ supported c -> f' ∈ supported (with_features fs c)).
  { clear. induction fs as [|g fs IH]; intros c Hc; [done |]. apply IH. simpl. set_solver. }
  apply Hk. simpl. by apply elem_of_union_r, elem_of_singleton_2.
Qed.

(** C27.  A configure of a receiver that answers and has the profile already - its core keys, its
    signals and its optional features - succeeds, keeps every feature, and writes nothing: a restart
    does not spend a flash cycle to change nothing. *)
Theorem configure_idle (p : Profile) first s : profile s = Some p -> has s (core p) -> has s (signals p) ->
  (forall f items, In (f, items) (optional p) -> has s items) ->
  exists s' caps, _configure_ first s = (s', Ret (caps, [])) /\ held config s' = held config s /\ written (world s') = written (world s)
    /\ unsupported caps = ∅ /\ forall f items, In (f, items) (optional p) -> f ∈ supported caps.
Proof.
  intros Hp Hcore Hsig Hopt. set (layers := if first then LAYERS_ALL else LAYERS_RAM).
  destruct (probe_idle p s Hp Hopt) as (s3 & ver & E3 & S3). set (caps1 := with_features (optional p) (caps_of ver)) in *.
  assert (U1 : unsupported caps1 = ∅) by (unfold caps1; rewrite with_features_unsupported; by destruct ver as [[[? ?] ?]|]).
  destruct (read_items (core p) s3) as (s4 & r4 & E4 & S4 & D4 & _); [by eapply has_same |].
  assert (S34 : same s s4) by (by eapply same_trans).
  destruct (read_items (signals p) s4) as (s5 & r5 & E5 & S5 & _ & D5 & _); [by eapply has_same |].
  assert (S35 : same s s5) by (by eapply same_trans).
  destruct (features_idle (optional p) caps1 layers s5 U1) as (s6 & E6 & S6);
    [intros f items Hin; eapply has_same, (Hopt f); [exact S35 | exact Hin] |].
  assert (S36 : same s s6) by (by eapply same_trans).
  destruct (verify_idle p s6) as (s7 & E7 & S7); [by eapply has_same | by eapply has_same |].
  set (caps2 := with_features (optional p) caps1) in *. set (sf := publish (PubCapabilities caps2) (set_capabilities caps2 s7)).
  assert (S37 : same s s7) by (by eapply same_trans).
  exists sf, caps2. refine (conj _ (conj (proj1 S37) (conj (proj1 (proj2 S37)) (conj _ _)))).
  - unfold _configure_, get, modify, mbind, M_bind. cbn beta iota. rewrite Hp. fold layers. rewrite E3. unfold _apply_core, mbind, M_bind.
    rewrite E4. cbn beta iota. rewrite D4. unfold mret, M_ret. cbn beta iota. rewrite E5. cbn beta iota. rewrite D5. cbn beta iota.
    rewrite E6. cbn beta iota. by rewrite E7.
  - unfold caps2. by rewrite with_features_unsupported.
  - intros f items Hin. apply with_features_in, in_map_iff. by exists (f, items).
Qed.
End Idle.

(** ** A receiver with a configuration and a counter of what it wrote *)

Record Toy := mkToy { cfg : Dict; sent : Z }.
Definition bad_key : bytes := [66].
Definition toy_accepts (kv : bytes * CfgValue) : bool := negb (bool_decide (kv.1 = bad_key)).
Definition restrict_to (keys : list bytes) (d : Dict) : Dict := filter (fun kv => kv.1 ∈ keys) d.

#[local] Instance toy_ops : Ops Toy := {
  do_valset items _ w := if forallb toy_accepts items then (mkToy (insert_items items (cfg w)) (sent w + 1), Ret true) else (w, Ret false);
  do_valget keys w := if forallb (fun k => match cfg w !! k with Some _ => true | None => false end) keys
                      then (w, Ret (restrict_to keys (cfg w))) else (w, Raise LinkNak);
  do_poll_ver w := (w, Ret None);
  do_write _ w := (w, Ret tt);
  do_stale w := (w, false);
  do_pause w := w
}.

#[local] Instance toy_truthful : Truthful Toy cfg.
Proof.
  split; [| by intros keys w; simpl; destruct (forallb _ keys) | done]. intros keys w w' d. simpl. destruct (forallb _ keys); [| done].
  intros [= <- <-]. apply map_filter_subseteq.
Qed.

#[local] Instance toy_answering : Answering Toy cfg toy_accepts.
Proof. split. intros items layers w. simpl. destruct (forallb toy_accepts items); by eexists. Qed.

#[local] Instance toy_complete : Complete Toy cfg sent.
Proof.
  split; [| intros w; by exists w, None]. intros keys w H. simpl. replace (forallb _ keys) with true.
  - eexists _, _. split_and!; [done | | done | done]. intros k. unfold restrict_to. destruct (decide (k ∈ keys)) as [Hin|Hout].
    + rewrite bool_decide_true by done. destruct (cfg w !! k) as [v|] eqn:E; [by apply map_lookup_filter_Some | apply map_lookup_filter_None; auto].
    + rewrite bool_decide_false by done. apply map_lookup_filter_None. right. by intros x _.
  - symmetry. apply forallb_forall. intros k Hin. by destruct (H k Hin) as [v ->].
Qed.

Definition toy_profile : Profile := mkProfile [] [([1], CInt 10); ([2], CInt 20)] [([3], CInt 1)] [([7], [([4], CInt 5)])] 1.
Definition toy_ctl (d : Dict) : Ctl Toy := mkCtl (mkToy d 0) (Some toy_profile) true (mkCaps [] [] [] ∅ ∅) true false ∅ true true [].
Definition stale_config : Dict := list_to_map [([1], CInt 9); ([2], CInt 20); ([3], CInt 0); ([4], CInt 0)].
Definition right_config : Dict := list_to_map [([1], CInt 10); ([2], CInt 20); ([3], CInt 1); ([4], CInt 5)].

(** A profile with a core setting the receiver refuses, for a controller that is not strict. *)
Definition toy_profile2 : Profile := mkProfile [] [([1], CInt 10); (bad_key, CInt 20)] [([3], CInt 1)] [] 1.
Definition toy_lenient : Ctl Toy := mkCtl (mkToy stale_config 0) (Some toy_profile2) false (mkCaps [] [] [] ∅ ∅) true false ∅ true true [].
Definition toy_end2 : Ctl Toy := (_configure_ true toy_lenient).1.

Lemma configure_holds_witness : sent (world toy_end2) = 2
  /\ (strict toy_lenient = true -> [bad_key] = [])
  /\ Forall (no_to_key (world toy_lenient) LAYERS_ALL (core toy_profile2)) [bad_key]
  /\ forall k v, ~ In k [bad_key] -> value_of (core toy_profile2 ++ signals toy_profile2) k = Some v -> held cfg toy_end2 !! k = Some v.
Proof.
  split; [vm_compute; reflexivity |].
  apply (configure_holds cfg toy_profile2 true toy_lenient toy_end2 (mkCaps [] [] [] ∅ ∅) [bad_key]); [reflexivity | vm_compute; reflexivity].
Defined.

Lemma bisect_exact_witness : refused toy_accepts [([1], CInt 1); (bad_key, CInt 2); ([3], CInt 3)] = [bad_key]
  /\ exists s', _apply_with_bisect [([1], CInt 1); (bad_key, CInt 2); ([3], CInt 3)] 1 (toy_ctl ∅) = (s', Ret (refused toy_accepts [([1], CInt 1); (bad_key, CInt 2); ([3], CInt 3)]))
  /\ held cfg s' = insert_items (accepted toy_accepts [([1], CInt 1); (bad_key, CInt 2); ([3], CInt 3)]) (held cfg (toy_ctl ∅)).
Proof. split; [reflexivity | exact (bisect_exact cfg toy_accepts _ 1 (toy_ctl ∅))]. Defined.

Lemma configure_idle_witness : exists s' caps, _configure_ true (toy_ctl right_config) = (s', Ret (caps, []))
  /\ held cfg s' = held cfg (toy_ctl right_config) /\ sent (world s') = sent (world (toy_ctl right_config))
  /\ unsupported caps = ∅ /\ forall f items, In (f, items) (optional toy_profile) -> f ∈ supported caps.
Proof.
  apply (configure_idle cfg sent toy_profile true (toy_ctl right_config)); [reflexivity | | |].
  - intros k v [[= <- <-]|[[= <- <-]|[]]]; vm_compute; reflexivity.
  - intros k v [[= <- <-]|[]]; vm_compute; reflexivity.
  - intros f items [[= <- <-]|[]] k v [[= <- <-]|[]]; vm_compute; reflexivity.
Defined.
