(* ===== verification/Sites.v ===== *)
(** * Base sites ([store/repos.py], [SitesRepo])

    The sites table and its operations, each of which is one transaction. Names are unique: the
    table refuses a second row of a name. Coordinates are doubles. *)

From S2P Require Import Prelude.
From S2P Require Import PyBytes.
From S2P Require Import PyFloat.
From S2P Require Import Database.

(** [Site], without what nothing here reads of it; its key is the table's. *)
Record Site := mkSite { site_name : bytes; x : Z; y : Z; z : Z; sigmas : option Z * option Z * option Z; source : bytes; active : bool }.
Definition Sites := Table Site.

Definition named (name : bytes) (s : Site) : bool := bool_decide (site_name s = name).
Definition find_site (p : Site -> bool) (t : Sites) : option (Z * Site) := List.find (fun ks => p ks.2) (trows t).

(** [get], [active]. *)
Definition get_site (name : bytes) (t : Sites) : option (Z * Site) := find_site (named name) t.
Definition active_site (t : Sites) : option (Z * Site) := find_site active t.

(** [ORDER BY name]: a stable sort by the text. *)
Fixpoint text_le (a b : bytes) : bool :=
  match a, b with
  | [], _ => true
  | _ :: _, [] => false
  | c :: a, d :: b => if c <? d then true else if d <? c then false else text_le a b
  end.
Fixpoint insert_named (ks : Z * Site) (l : list (Z * Site)) : list (Z * Site) :=
  match l with
  | [] => [ks]
  | k :: r => if text_le (site_name ks.2) (site_name k.2) then ks :: l else k :: insert_named ks r
  end.
Definition list_sites (t : Sites) : list (Z * Site) := foldr insert_named [] (trows t).

Definition set_active (b : bool) (s : Site) : Site := mkSite (site_name s) (x s) (y s) (z s) (sigmas s) (source s) b.

(** [add]: the table after it and the row it reads back; [None] for its [ValueError]. *)
Definition add_site (s : Site) (t : Sites) : option (Sites * option (Z * Site)) :=
  match get_site (site_name s) t with
  | Some _ => None
  | None => let t := insert_row (set_active false s) t in Some (t, get_site (site_name s) t)
  end.

(** [delete]; [None] for its [ValueError]. *)
Definition delete_site (name : bytes) (t : Sites) : option Sites :=
  match get_site name t with
  | Some (_, s) => if active s then None else Some (mkTable (List.filter (fun ks => negb (named name ks.2)) (trows t)) (seq t))
  | None => Some t
  end.

(** [activate]; [None] for its [KeyError]. *)
Definition activate_site (name : bytes) (t : Sites) : option (Sites * option (Z * Site)) :=
  match get_site name t with
  | None => None
  | Some _ =>
      let rows := map (fun ks => (ks.1, if active ks.2 then set_active false ks.2 else ks.2)) (trows t) in
      let rows := map (fun ks => (ks.1, if named name ks.2 then set_active true ks.2 else ks.2)) rows in
      let t := mkTable rows (seq t) in
      Some (t, get_site name t)
  end.

(** ** One row a name, and at most one of them active *)

Record sites_ok (t : Sites) : Prop := mkSitesOk {
  so_names : NoDup (map (fun ks => site_name ks.2) (trows t));
  so_active : forall a b, In a (trows t) -> In b (trows t) -> active a.2 = true -> active b.2 = true -> a = b
}.

Lemma find_site_some p t ks : find_site p t = Some ks -> In ks (trows t) /\ p ks.2 = true.
Proof. apply find_some. Qed.

Lemma find_site_none p t ks : find_site p t = None -> In ks (trows t) -> p ks.2 = false.
Proof. intros H Hin. exact (find_none _ _ H _ Hin). Qed.

Lemma distinct_names (l : list (Z * Site)) a b : NoDup (map (fun ks => site_name ks.2) l) -> In a l -> In b l ->
  site_name a.2 = site_name b.2 -> a = b.
Proof.
  induction l as [|c l IH]; simpl; [done |]. intros Hn Ha Hb E.
  apply list.NoDup_cons in Hn as [Hc Hl]. assert (Hno : forall d, In d l -> site_name c.2 <> site_name d.2).
  { intros d Hd Ec. apply Hc. rewrite Ec. apply list_elem_of_In, (in_map (fun ks => site_name ks.2)), Hd. }
  destruct Ha as [<-|Ha], Hb as [<-|Hb]; [done | by apply Hno in Hb | by apply Hno in Ha; congruence | auto].
Qed.

Lemma add_ok s t t' r : sites_ok t -> add_site s t = Some (t', r) -> sites_ok t' /\ r = Some (seq t + 1, set_active false s).
Proof.
  intros Ht. unfold add_site. destruct (get_site (site_name s) t) as [ks|] eqn:E; [done |]. intros [= <- <-].
  assert (Hno : forall ks, In ks (trows t) -> site_name ks.2 <> site_name s).
  { intros ks Hin En. pose proof (find_site_none _ _ _ E Hin) as H. unfold named in H. by rewrite bool_decide_true in H. }
  destruct Ht as [Hn Ha]. split.
  - split; simpl.
    + rewrite map_app. apply list.NoDup_app. split_and!; [done | | simpl; constructor; [by apply not_elem_of_nil | constructor]].
      intros n Hin Hn'. apply list_elem_of_In, in_map_iff in Hin as (ks & <- & Hin). simpl in Hn'. apply list_elem_of_singleton in Hn'. by eapply Hno.
    + intros a b [Hina|[<-|[]]]%in_app_iff [Hinb|[<-|[]]]%in_app_iff; simpl; try done. auto.
  - unfold get_site, find_site. simpl. generalize (seq t) as q. intros q. revert Hno. generalize (trows t). induction l as [|c l IH]; simpl; intros Hno.
    + unfold named. simpl. by rewrite bool_decide_true.
    + unfold named at 1. rewrite bool_decide_false by (apply Hno; by left). apply IH. intros ks Hin. apply Hno. by right.
Qed.

(** ** What each operation does to the table *)

(** The rows as [activate] leaves them, in one pass: the named one active, the others not. *)
Lemma activate_rows name l :
  map (fun ks : Z * Site => (ks.1, if named name ks.2 then set_active true ks.2 else ks.2))
    (map (fun ks => (ks.1, if active ks.2 then set_active false ks.2 else ks.2)) l) =
  map (fun ks => (ks.1, set_active (named name ks.2) ks.2)) l.
Proof.
  rewrite map_map. apply map_ext. intros [k [n sx sy sz sg src a]]. unfold named, set_active. simpl.
  destruct a; simpl; case_bool_decide; done.
Qed.

Lemma active_after name l ks : In ks (map (fun ks : Z * Site => (ks.1, set_active (named name ks.2) ks.2)) l) ->
  active ks.2 = true <-> site_name ks.2 = name.
Proof. intros (k & <- & _)%in_map_iff. simpl. unfold named. by rewrite bool_decide_eq_true. Qed.

Lemma find_agree {A} (p q : A -> bool) l : (forall a, In a l -> p a = q a) -> List.find p l = List.find q l.
Proof. induction l as [|a l IH]; simpl; intros H; [done |]. rewrite (H a) by auto. destruct (q a); auto. Qed.

Lemma activate_exact name t k s : sites_ok t -> get_site name t = Some (k, s) -> exists t',
  activate_site name t = Some (t', Some (k, set_active true s)) /\ active_site t' = Some (k, set_active true s) /\
  sites_ok t' /\ trows t' = map (fun ks => (ks.1, set_active (named name ks.2) ks.2)) (trows t).
Proof.
  intros Ht E. unfold activate_site. rewrite E, activate_rows. set (rows := map _ (trows t)). set (t' := mkTable rows (seq t)).
  assert (Hnames : map (fun ks => site_name ks.2) rows = map (fun ks => site_name ks.2) (trows t)).
  { unfold rows. rewrite map_map. apply map_ext. by intros []. }
  assert (Hact : forall ks, In ks rows -> active ks.2 = true <-> site_name ks.2 = name) by (intros ks; apply active_after).
  assert (Hok : sites_ok t').
  { assert (Hn : NoDup (map (fun ks => site_name ks.2) rows)) by (rewrite Hnames; apply Ht).
    split; [done |]. simpl. intros a b Ha Hb Ea%Hact Eb%Hact; [| done..]. by apply (distinct_names rows); [| | | congruence]. }
  assert (Hget : get_site name t' = Some (k, set_active true s)).
  { unfold get_site, find_site, t', rows in *. simpl. clear - E. revert E. generalize (trows t). induction l as [|[k' s'] l IH]; simpl; [done |].
    unfold named at 1 3. simpl. intros H. case_bool_decide as Hc; [| by apply IH]. injection H as -> ->. unfold named. by rewrite bool_decide_true. }
  exists t'. split_and!; [by rewrite Hget | | done | done].
  rewrite <- Hget. apply find_agree. intros ks Hin%Hact. unfold named. destruct (active ks.2); symmetry.
  - by apply bool_decide_true, Hin.
  - apply bool_decide_false. intros Hc%Hin. done.
Qed.

Lemma delete_sites_ok name t t' : sites_ok t -> delete_site name t = Some t' -> sites_ok t' /\ active_site t' = active_site t.
Proof.
  intros Ht E. unfold delete_site in E. destruct (get_site name t) as [[k s]|] eqn:G; [| by injection E as <-].
  destruct (active s) eqn:A; [done |]. injection E as <-. split; [split; simpl |].
  - destruct Ht as [Hn _]. revert Hn. clear. generalize (trows t). induction l as [|c l IH]; simpl; intros Hn; [done |].
    apply list.NoDup_cons in Hn as [Hc Hl]. destruct (negb _); [| by apply IH]. simpl. apply list.NoDup_cons. split; [| by apply IH].
    intros Hin. apply Hc. apply list_elem_of_In, in_map_iff in Hin as (d & Ed & [Hd _]%filter_In). rewrite <- Ed.
    by apply list_elem_of_In, (in_map (fun ks : Z * Site => site_name ks.2)).
  - intros a b [Ha _]%filter_In [Hb _]%filter_In. by apply Ht.
  - assert (Hs : forall ks, In ks (trows t) -> named name ks.2 = true -> active ks.2 = false).
    { intros ks Hin Hk. apply find_site_some in G as [Hg Hk'].
      rewrite (distinct_names (trows t) ks (k, s) (so_names _ Ht) Hin Hg); [done |].
      unfold named in *. apply bool_decide_eq_true in Hk, Hk'. congruence. }
    unfold active_site, find_site. simpl. revert Hs. clear. generalize (trows t). induction l as [|c l IH]; simpl; intros Hs; [done |].
    destruct (named name c.2) eqn:Nc; simpl; [rewrite (Hs c); auto | destruct (active c.2); auto].
Qed.

Lemma add_active s t t' r : add_site s t = Some (t', r) -> active_site t' = active_site t.
Proof.
  unfold add_site. destruct (get_site _ _); [done |]. intros [= <- _]. unfold active_site, find_site. simpl.
  induction (trows t) as [|c l IH]; simpl; [done |]. by destruct (active c.2).
Qed.

(** ** A run of requests: a refused one leaves the table *)

Inductive SiteOp := Add (s : Site) | Delete (name : bytes) | Activate (name : bytes).

Definition site_op (t : Sites) (o : SiteOp) : Sites :=
  match o with
  | Add s => default t (fst <$> add_site s t)
  | Delete name => default t (delete_site name t)
  | Activate name => default t (fst <$> activate_site name t)
  end.

Definition site_ops : list SiteOp -> Sites -> Sites := flip (foldl site_op).

(** What the active site is, from the requests alone. *)
Definition active_name (t : Sites) (a : option bytes) (o : SiteOp) : option bytes :=
  match o with Activate name => if get_site name t then Some name else a | _ => a end.

Lemma site_op_ok t o : sites_ok t ->
  sites_ok (site_op t o) /\ option_map (fun ks => site_name ks.2) (active_site (site_op t o)) =
    active_name t (option_map (fun ks => site_name ks.2) (active_site t)) o.
Proof.
  intros Ht. destruct o as [s|name|name]; simpl.
  - destruct (add_site s t) as [[t' r]|] eqn:E; simpl; [| done].
    split; [by eapply add_ok | by rewrite (add_active _ _ _ _ E)].
  - destruct (delete_site name t) as [t'|] eqn:E; simpl; [| done]. by destruct (delete_sites_ok _ _ _ Ht E) as [? ->].
  - destruct (get_site name t) as [[k s]|] eqn:E.
    + destruct (activate_exact _ _ _ _ Ht E) as (t' & -> & Ea & Hok & _). simpl. split; [done |]. rewrite Ea. simpl.
      apply find_site_some in E as [_ E]. unfold named in E. apply bool_decide_eq_true in E. by simpl in E; rewrite E.
    + unfold activate_site. by rewrite E.
Qed.

(** The name the last activation that found its site gave. *)
Fixpoint activated (t : Sites) (a : option bytes) (ops : list SiteOp) : option bytes :=
  match ops with [] => a | o :: ops => activated (site_op t o) (active_name t a o) ops end.

Definition empty_sites : Sites := mkTable [] 0.

(** C28.  Whatever is asked of the sites table, in whatever order and with whatever
    refused, its names stay distinct and at most one of its rows is active; and the base always
    has the site that was last activated: activating one deactivates the one before it, neither
    adding a site nor deleting one changes which is active, and an activation of a name that is
    not there changes nothing. *)
Theorem sites_active ops : let t := site_ops ops empty_sites in
  sites_ok t /\ option_map (fun ks => site_name ks.2) (active_site t) = activated empty_sites None ops.
Proof.
  assert (H : forall ops t, sites_ok t -> sites_ok (site_ops ops t) /\
    option_map (fun ks => site_name ks.2) (active_site (site_ops ops t)) =
      activated t (option_map (fun ks => site_name ks.2) (active_site t)) ops).
  { clear ops. induction ops as [|o ops IH]; intros t Ht; [done |]. simpl. destruct (site_op_ok t o Ht) as [Hok <-]. by apply IH. }
  apply (H ops empty_sites). split; [constructor | by intros ? ? []].
Qed.
