(* ===== verification/BaseMode.v ===== *)
(** * The base's timing mode ([base/basemode.py], [base/rtcm1005.py])

    [BaseModeManager] as a machine. One coroutine holds [_apply_lock] at a time; an event is the
    start of one (which needs the lock), the answer it waits for - of the sites table, or of the
    receiver to a write -, a broadcast position, a fix, a change of the settings by the API, or a
    change of the sites table by another process. Times are integers, in milliseconds. *)

From Stdlib Require Import String.
From stdpp Require Import gmap.
From S2P Require Import Prelude.
From S2P Require Import PyBytes.
From S2P Require Import PyFloat.
From S2P Require Import Framing.
From S2P Require Import Database.
From S2P Require Import UbxConfig.
From S2P Require Import Sites.

Definition SITE_TOLERANCE_M : Z := of_decimal false 5 (-4).
Definition VERIFY_DEADLINE : Z := 30000.
Definition DEFAULT_FIXED_ACC_M : Z := of_decimal false 1 (-2).
Definition FIX_TYPE_TIME_ONLY : Z := 5.

Inductive Mode := OFF | SURVEY_IN | FIXED.
#[export] Instance Mode_eq_dec : EqDecision Mode.
Proof. solve_decision. Defined.

Inductive VerifyState := Verified | Mismatched.
#[export] Instance VerifyState_eq_dec : EqDecision VerifyState.
Proof. solve_decision. Defined.

Inductive RestartResult := RestartOk | STOP_REFUSED | SURVEY_REFUSED.

(** The reasons of an announcement. *)
Inductive Reason := NO_SITE_REASON | NAK_REASON | TIMEOUT_REASON | RESTART_STOP_REASON | RESTART_SURVEY_REASON.

Record Ecef1005 := mkEcef { station_id : Z; ex : Z; ey : Z; ez : Z; gps : bool; glonass : bool; galileo : bool }.

Inductive Published :=
| PubMode (m : Mode) (site : option bytes) (reason : option Reason)
| PubVerified (site : bytes) (dx dy dz : Z)
| PubMismatch (site : bytes) (dx dy dz : Z)
| PubLate (site : bytes) (fix_type : Z).

(** ** Numbers *)

Definition fneg (x : Z) : Z := match f64 x with FFin true _ _ | FInf true | FNan true _ => x - 2 ^ 63 | _ => x + 2 ^ 63 end.
Definition fsub (x y : Z) : Z := fadd x (fneg y).
Definition fabs (x : Z) : Z := match f64 x with FFin true _ _ | FInf true | FNan true _ => x - 2 ^ 63 | _ => x end.
Definition float_eq (x y : Z) : bool := fge x y && fge y x.
Definition fgt (x y : Z) : bool := fge x y && negb (fge y x).
(** [max] of two: the first, unless the second is greater. *)
Definition fmax (x y : Z) : Z := if fgt y x then y else x.

(** ** A site's identity *)

Definition SiteIdent : Type := bytes * Z * (Z * Z * Z).
Definition _ident (ks : Z * Site) : SiteIdent := (site_name ks.2, ks.1, (x ks.2, y ks.2, z ks.2)).
Definition ident_eq (a b : SiteIdent) : bool :=
  let '(na, ia, (xa, ya, za)) := a in
  let '(nb, ib, (xb, yb, zb)) := b in
  bool_decide (na = nb) && (ia =? ib) && float_eq xa xb && float_eq ya yb && float_eq za zb.
(** [==] with an ident that may be [None]. *)
Definition same_ident (a : SiteIdent) (b : option SiteIdent) : bool := match b with Some b => ident_eq a b | None => false end.

Section BaseMode.
(** pyubx2's [val2sphp], [math.hypot] and pyrtcm's reading of a 1005 ([None]: it raises). *)
Context (val2sphp : Z -> Z * Z) (hypot3 : Z -> Z -> Z -> Z) (parse_1005 : Frame -> option Ecef1005).

Definition decode_1005 (f : Frame) : option Ecef1005 :=
  if negb (bool_decide (proto f = RTCM3)) || negb (bool_decide (rtcm_type f = Some 1005)) then None else parse_1005 f.

Definition sigma_3d (s : Site) : option Z :=
  match sigmas s with (Some sx, Some sy, Some sz) => Some (hypot3 sx sy sz) | _ => None end.

(** The items of [_apply_fixed]; [None] where the rounding raises. *)
Definition fixed_items (s : Site) : option CfgItems :=
  let acc := match sigma_3d s with Some a => if float_eq a 0 then DEFAULT_FIXED_ACC_M else a | None => DEFAULT_FIXED_ACC_M end in
  tmode_fixed_ecef val2sphp (x s) (y s) (z s) acc.

(** ** State *)

Record Manager := mkManager {
  mode : Mode; svin_min_duration_s : Z; svin_acc_limit_m : Z; active_site_name : option bytes;
  applied_site : option (Z * Site); last_1005 : option Ecef1005; _verify_state : option VerifyState; _verify_deadline : option Z;
  _nak_site : option SiteIdent; _poll_baseline : option SiteIdent
}.

Definition new_manager (m : Mode) (dur acc : Z) (name : option bytes) : Manager := mkManager m dur acc name None None None None None None.

Definition set_mode (v : Mode) (m : Manager) : Manager :=
  mkManager v (svin_min_duration_s m) (svin_acc_limit_m m) (active_site_name m) (applied_site m) (last_1005 m) (_verify_state m)
    (_verify_deadline m) (_nak_site m) (_poll_baseline m).
Definition set_nak (v : option SiteIdent) (m : Manager) : Manager :=
  mkManager (mode m) (svin_min_duration_s m) (svin_acc_limit_m m) (active_site_name m) (applied_site m) (last_1005 m) (_verify_state m)
    (_verify_deadline m) v (_poll_baseline m).
Definition set_baseline (v : option SiteIdent) (m : Manager) : Manager :=
  mkManager (mode m) (svin_min_duration_s m) (svin_acc_limit_m m) (active_site_name m) (applied_site m) (last_1005 m) (_verify_state m)
    (_verify_deadline m) (_nak_site m) v.
Definition set_1005 (v : Ecef1005) (m : Manager) : Manager :=
  mkManager (mode m) (svin_min_duration_s m) (svin_acc_limit_m m) (active_site_name m) (applied_site m) (Some v) (_verify_state m)
    (_verify_deadline m) (_nak_site m) (_poll_baseline m).
Definition set_verified (v : VerifyState) (m : Manager) : Manager :=
  mkManager (mode m) (svin_min_duration_s m) (svin_acc_limit_m m) (active_site_name m) (applied_site m) (last_1005 m) (Some v)
    (_verify_deadline m) (_nak_site m) (_poll_baseline m).
(** [_clear_verification]. *)
Definition _clear_verification (m : Manager) : Manager :=
  mkManager (mode m) (svin_min_duration_s m) (svin_acc_limit_m m) (active_site_name m) None (last_1005 m) None None
    (_nak_site m) (_poll_baseline m).
(** What an accepted fixed position leaves. *)
Definition set_applied (ks : Z * Site) (now : Z) (m : Manager) : Manager :=
  mkManager FIXED (svin_min_duration_s m) (svin_acc_limit_m m) (active_site_name m) (Some ks) (last_1005 m) None
    (Some (now + VERIFY_DEADLINE)) None (_poll_baseline m).
(** The assignments of [_apply_live] ([web/api/config.py]). *)
Definition set_settings (v : Mode) (dur acc : Z) (name : option bytes) (m : Manager) : Manager :=
  mkManager v dur acc name (applied_site m) (last_1005 m) (_verify_state m) (_verify_deadline m) (_nak_site m) (_poll_baseline m).

Definition verified (m : Manager) : bool := bool_decide (_verify_state m = Some Verified).
Definition _svin_items (m : Manager) : option CfgItems := tmode_survey_in (svin_min_duration_s m) (svin_acc_limit_m m).

Inductive Op := ApplyMode | RestartSurveyIn | ActivateSite (name : bytes) | PollActiveSite.
Inductive OpResult := Returned | Restarted (r : RestartResult) | Raised.

(** What the read of the active site is for. *)
Inductive Purpose := ForResolve | ForBaseline | ForPoll.
(** What follows a positionless write: nothing, or the two writes of a restart. *)
Inductive After := Last | AfterStop | AfterStart.

(** What the holder of the lock waits for. *)
Inductive Phase :=
| Resolving (name : bytes)
| Activating (name : bytes)
| Rereading (name : bytes)
| ReadingActive (p : Purpose)
| Positionless (items : CfgItems) (reason : option Reason) (k : After)
| Fixing (ks : Z * Site) (items : CfgItems).

(** The receiver's verdict on a write, or none, or an exception: no link, or the cancellation. *)
Inductive Verdict := Acked | Nakked | Silent | Broke.

(** [writes]: the TMODE writes and their verdicts, [compared]: the positions compared with the
    site applied, both in order and for the theorems only. *)
Record Base := mkBase {
  man : Manager; table : Sites; holder : option (Op * Phase); out : list Published; results : list (Op * OpResult);
  writes : list (CfgItems * Verdict); compared : list ((Z * Site) * Ecef1005)
}.
Definition new_base (m : Manager) (t : Sites) : Base := mkBase m t None [] [] [] [].

Definition on_man (f : Manager -> Manager) (s : Base) : Base := mkBase (f (man s)) (table s) (holder s) (out s) (results s) (writes s) (compared s).
Definition set_table (t : Sites) (s : Base) : Base := mkBase (man s) t (holder s) (out s) (results s) (writes s) (compared s).
Definition waits (op : Op) (p : Phase) (s : Base) : Base := mkBase (man s) (table s) (Some (op, p)) (out s) (results s) (writes s) (compared s).
Definition finish (op : Op) (r : OpResult) (s : Base) : Base := mkBase (man s) (table s) None (out s) (results s ++ [(op, r)]) (writes s) (compared s).
Definition publish (p : Published) (s : Base) : Base := mkBase (man s) (table s) (holder s) (out s ++ [p]) (results s) (writes s) (compared s).
Definition wrote (items : CfgItems) (v : Verdict) (s : Base) : Base :=
  mkBase (man s) (table s) (holder s) (out s) (results s) (writes s ++ [(items, v)]) (compared s).
Definition note_compared (ks : Z * Site) (e : Ecef1005) (s : Base) : Base :=
  mkBase (man s) (table s) (holder s) (out s) (results s) (writes s) (compared s ++ [(ks, e)]).
Definition _announce (site : option bytes) (reason : option Reason) (s : Base) : Base := publish (PubMode (mode (man s)) site reason) s.

(** ** The coroutines, from one wait to the next *)

(** [_apply_tmode], up to its write; its items are built before it is called. *)
Definition start_tmode (op : Op) (items : option CfgItems) (reason : option Reason) (k : After) (s : Base) : Base :=
  match items with
  | None => finish op Raised s
  | Some items => waits op (Positionless items reason k) (on_man _clear_verification s)
  end.

(** [_apply_fixed], up to its write. *)
Definition start_fixed (op : Op) (ks : Z * Site) (s : Base) : Base :=
  match fixed_items ks.2 with None => finish op Raised s | Some items => waits op (Fixing ks items) s end.

(** [_apply_mode] once its site is resolved. *)
Definition resolved (op : Op) (site : option (Z * Site)) (s : Base) : Base :=
  let s := on_man (set_baseline (_ident <$> site)) s in
  match site with
  | Some ks => start_fixed op ks s
  | None => let s := on_man (set_mode SURVEY_IN) s in start_tmode op (_svin_items (man s)) (Some NO_SITE_REASON) Last s
  end.

(** [_apply_mode] for off and survey-in, once the active site is read. *)
Definition baselined (op : Op) (active : option (Z * Site)) (s : Base) : Base :=
  let s := on_man (set_baseline (_ident <$> active)) s in
  match mode (man s) with
  | OFF => start_tmode op (Some tmode_off) None Last s
  | _ => start_tmode op (_svin_items (man s)) None Last s
  end.

(** [_poll_active_site], once the active site is read. *)
Definition polled (op : Op) (active : option (Z * Site)) (s : Base) : Base :=
  match active with
  | None => finish op Returned s
  | Some ks =>
      let m := man s in
      let ident := _ident ks in
      if same_ident ident (_nak_site m) then finish op Returned s
      else
        match mode m with
        | FIXED => if same_ident ident (_ident <$> applied_site m) then finish op Returned s else start_fixed op ks s
        | _ => if same_ident ident (_poll_baseline m) then finish op Returned s else start_fixed op ks s
        end
  end.

Definition begin_op (op : Op) (s : Base) : Base :=
  match op with
  | ApplyMode =>
      let s := on_man (set_nak None) s in
      match mode (man s), active_site_name (man s) with
      | FIXED, Some (_ :: _ as name) => waits op (Resolving name) s
      | FIXED, _ => waits op (ReadingActive ForResolve) s
      | _, _ => waits op (ReadingActive ForBaseline) s
      end
  | RestartSurveyIn => start_tmode op (Some tmode_off) None AfterStop (on_man (set_mode OFF) s)
  | ActivateSite name => waits op (Activating name) s
  | PollActiveSite => waits op (ReadingActive ForPoll) s
  end.

(** The sites table answers. *)
Definition turn (op : Op) (p : Phase) (s : Base) : option Base :=
  match p with
  | Resolving name =>
      Some (match get_site name (table s) with
            | Some ks => if active ks.2 then resolved op (Some ks) s else waits op (Activating name) s
            | None => waits op (ReadingActive ForResolve) s
            end)
  | Activating name =>
      Some (match activate_site name (table s) with
            | None => finish op Raised s
            | Some (t, _) => waits op (Rereading name) (set_table t s)
            end)
  | Rereading name =>
      Some (match get_site name (table s) with
            | None => finish op Raised s
            | Some ks => match op with ApplyMode => resolved op (Some ks) s | _ => start_fixed op ks s end
            end)
  | ReadingActive ForResolve => Some (resolved op (active_site (table s)) s)
  | ReadingActive ForBaseline => Some (baselined op (active_site (table s)) s)
  | ReadingActive ForPoll => Some (polled op (active_site (table s)) s)
  | _ => None
  end.

(** What follows a positionless write that was accepted, or not. *)
Definition after_tmode (op : Op) (k : After) (ok : bool) (s : Base) : Base :=
  match k, ok with
  | Last, _ => finish op Returned s
  | AfterStop, true => let s := on_man (set_mode SURVEY_IN) s in start_tmode op (_svin_items (man s)) None AfterStart s
  | AfterStop, false => finish op (Restarted STOP_REFUSED) (_announce None (Some RESTART_STOP_REASON) (on_man (set_mode SURVEY_IN) s))
  | AfterStart, true => finish op (Restarted RestartOk) s
  | AfterStart, false => finish op (Restarted SURVEY_REFUSED) (_announce None (Some RESTART_SURVEY_REASON) (on_man (set_mode OFF) s))
  end.

(** The receiver answers the write, or does not. *)
Definition answered (op : Op) (p : Phase) (v : Verdict) (now : Z) (s : Base) : option Base :=
  match p with
  | Positionless items reason k =>
      let s := wrote items v s in
      Some (match v with
            | Broke => finish op Raised s
            | Silent => after_tmode op k false (_announce None (Some TIMEOUT_REASON) s)
            | Nakked => after_tmode op k false (_announce None (Some NAK_REASON) s)
            | Acked => after_tmode op k true (_announce None reason s)
            end)
  | Fixing ks items =>
      let s := wrote items v s in
      Some (match v with
            | Broke => finish op Raised s
            | Silent => finish op Returned (_announce (Some (site_name ks.2)) (Some TIMEOUT_REASON) s)
            | Nakked => finish op Returned (_announce (Some (site_name ks.2)) (Some NAK_REASON) (on_man (set_nak (Some (_ident ks))) s))
            | Acked => finish op Returned (_announce (Some (site_name ks.2)) None (on_man (set_applied ks now) s))
            end)
  | _ => None
  end.

(** The site the receiver is on, as far as the manager knows. *)
Definition sitting (m : Manager) : option (Z * Site) := match mode m with FIXED => applied_site m | _ => None end.

Definition differences (ks : Z * Site) (e : Ecef1005) : Z * Z * Z := (fsub (ex e) (x ks.2), fsub (ey e) (y ks.2), fsub (ez e) (z ks.2)).
Definition agrees (ks : Z * Site) (e : Ecef1005) : bool :=
  let '(dx, dy, dz) := differences ks e in fge SITE_TOLERANCE_M (fmax (fmax (fabs dx) (fabs dy)) (fabs dz)).

#[local] Opaque agrees differences.

Definition on_1005 (f : Frame) (s : Base) : Base :=
  match decode_1005 f with
  | None => s
  | Some e =>
      let s := on_man (set_1005 e) s in
      match sitting (man s) with
      | None => s
      | Some ks =>
          let s := note_compared ks e s in
          let '(dx, dy, dz) := differences ks e in
          if agrees ks e then
            if bool_decide (_verify_state (man s) = Some Verified) then s
            else publish (PubVerified (site_name ks.2) dx dy dz) (on_man (set_verified Verified) s)
          else
            if bool_decide (_verify_state (man s) = Some Mismatched) then s
            else publish (PubMismatch (site_name ks.2) dx dy dz) (on_man (set_verified Mismatched) s)
      end
  end.

Definition on_fix (fix_type now : Z) (s : Base) : Base :=
  match sitting (man s), _verify_state (man s), _verify_deadline (man s) with
  | Some ks, None, Some deadline =>
      if (fix_type =? FIX_TYPE_TIME_ONLY) || (now <=? deadline) then s
      else publish (PubLate (site_name ks.2) fix_type) (on_man (set_verified Mismatched) s)
  | _, _, _ => s
  end.

Inductive Event :=
| Begin (op : Op)
| Turn
| DbFailed
| Answered (v : Verdict) (now : Z)
| Arp (f : Frame)
| Fix (fix_type now : Z)
| Configure (m : Mode) (dur acc : Z) (name : option bytes)
| Elsewhere (o : SiteOp).

Definition step (s : Base) (ev : Event) : option Base :=
  match ev with
  | Begin op => match holder s with None => Some (begin_op op s) | Some _ => None end
  | Turn => '(op, p) ← holder s; turn op p s
  | DbFailed => '(op, p) ← holder s; match p with Positionless _ _ _ | Fixing _ _ => None | _ => Some (finish op Raised s) end
  | Answered v now => '(op, p) ← holder s; answered op p v now s
  | Arp f => Some (on_1005 f s)
  | Fix ft now => Some (on_fix ft now s)
  | Configure m dur acc name => Some (on_man (set_settings m dur acc name) s)
  | Elsewhere o => Some (set_table (site_op (table s) o) s)
  end.

Fixpoint run (s : Base) (evs : list Event) : option Base :=
  match evs with [] => Some s | ev :: evs => s' ← step s ev; run s' evs end.

(** [freeze_survey_in]: the survey's mean as a site; [None] for its [ValueError]s. *)
Record Svin := mkSvin { svalid : bool; mean_x_m : option Z; mean_y_m : option Z; mean_z_m : option Z; mean_acc_m : option Z }.
Definition freeze_survey_in (name : bytes) (v : Svin) (t : Sites) : option (Sites * option (Z * Site)) :=
  match svalid v, mean_x_m v, mean_y_m v, mean_z_m v with
  | true, Some mx, Some my, Some mz =>
      let acc := mean_acc_m v in add_site (mkSite name mx my mz (acc, acc, acc) (str "survey-in"%string) false) t
  | _, _, _, _ => None
  end.

(** ** The books of the site applied *)

Definition is_acked (w : CfgItems * Verdict) : bool := match w.2 with Acked => true | _ => false end.
(** The items of the last write the receiver accepted. *)
Definition last_acked (ws : list (CfgItems * Verdict)) : option CfgItems := fst <$> list.last (List.filter is_acked ws).

Definition edge_of (p : Published) : option VerifyState :=
  match p with PubVerified _ _ _ _ => Some Verified | PubMismatch _ _ _ _ | PubLate _ _ => Some Mismatched | PubMode _ _ _ => None end.
(** An announcement that a position, or the lack of one, was applied: not that of a refused position. *)
Definition resets (p : Published) : bool := match p with PubMode _ (Some _) (Some _) => false | PubMode _ _ _ => true | _ => false end.
Definition add_edge (acc : list VerifyState) (p : Published) : list VerifyState :=
  if resets p then [] else match edge_of p with Some v => acc ++ [v] | None => acc end.
(** The verification events published since. *)
Definition edges (o : list Published) : list VerifyState := foldl add_edge [] o.
Fixpoint alternates {A} (l : list A) : Prop := match l with a :: (b :: _) as r => a <> b /\ alternates r | _ => True end.

Lemma alternates_snoc {A} (l : list A) v : alternates l -> list.last l <> Some v -> alternates (l ++ [v]).
Proof.
  induction l as [|a [|b l] IH]; simpl; [done | |].
  - intros _ H. split; [congruence | done].
  - intros [Hab H] Hl. split; [done |]. by apply IH.
Qed.

Lemma last_acked_snoc ws items v : last_acked (ws ++ [(items, v)]) = match v with Acked => Some items | _ => last_acked ws end.
Proof.
  unfold last_acked. rewrite List.filter_app. simpl. destruct v; simpl; rewrite ?app_nil_r; [by rewrite list.last_snoc | done..].
Qed.

Record books (s : Base) : Prop := mkBooks {
  bk_site : forall ks, applied_site (man s) = Some ks -> exists items, fixed_items ks.2 = Some items /\ last_acked (writes s) = Some items;
  bk_none : applied_site (man s) = None -> _verify_state (man s) = None;
  bk_verified : _verify_state (man s) = Some Verified -> exists ks e, applied_site (man s) = Some ks
    /\ list.last (compared s) = Some (ks, e) /\ agrees ks e = true;
  bk_edges : alternates (edges (out s));
  bk_last : applied_site (man s) <> None -> list.last (edges (out s)) = _verify_state (man s)
}.

(** What the lock's holder has seen to. *)
Definition phase_ok (s : Base) : Prop :=
  match holder s with
  | Some (_, Fixing ks items) => fixed_items ks.2 = Some items
  | Some (_, Positionless _ _ _) => applied_site (man s) = None
  | _ => True
  end.

Definition good (s : Base) : Prop := books s /\ phase_ok s.

Lemma books_frame s s' : applied_site (man s') = applied_site (man s) -> _verify_state (man s') = _verify_state (man s) ->
  out s' = out s -> writes s' = writes s -> compared s' = compared s -> books s -> books s'.
Proof. intros E1 E2 E3 E4 E5 [H1 H2 H3 H4 H5]. split; by rewrite ?E1, ?E2, ?E3, ?E4, ?E5. Qed.

Lemma books_clear s : books s -> books (on_man _clear_verification s).
Proof. intros [H1 H2 H3 H4 H5]. by split. Qed.

(** A write that is not accepted, and its announcement. *)
Lemma books_unheard items v site r s : v <> Acked -> books s -> (site = None -> applied_site (man s) = None) ->
  books (_announce site (Some r) (wrote items v s)).
Proof.
  intros Hv [H1 H2 H3 H4 H5] Hs. split; simpl; try done.
  - intros ks E. destruct (H1 ks E) as (i & Hi & Hl). exists i. rewrite last_acked_snoc. by destruct v.
  - unfold edges. rewrite foldl_snoc. unfold add_edge, resets. by destruct site.
  - intros Ha. unfold edges. rewrite foldl_snoc. unfold add_edge, resets. destruct site; [by apply H5 | by exfalso; auto].
Qed.

(** An accepted write without a position. *)
Lemma books_off items r s : books s -> applied_site (man s) = None -> books (_announce None r (wrote items Acked s)).
Proof.
  intros [H1 H2 H3 H4 H5] Ha. split; simpl; try done.
  - intros ks. by rewrite Ha.
  - unfold edges. by rewrite foldl_snoc.
Qed.

Lemma books_fixed ks items now s : fixed_items ks.2 = Some items ->
  books s -> books (_announce (Some (site_name ks.2)) None (on_man (set_applied ks now) (wrote items Acked s))).
Proof.
  intros Hf [H1 H2 H3 H4 H5]. split; simpl; try done.
  - intros ks' [= <-]. exists items. by rewrite last_acked_snoc.
  - unfold edges. by rewrite foldl_snoc.
  - intros _. unfold edges. by rewrite foldl_snoc.
Qed.

Lemma books_announce_off r s : books s -> applied_site (man s) = None -> books (_announce None r s).
Proof.
  intros [H1 H2 H3 H4 H5] Ha. split; simpl; try done; unfold edges; by rewrite foldl_snoc.
Qed.

(** A verification event: the state changes to it. *)
Lemma books_edge p v s s' : edge_of p = Some v -> books s -> applied_site (man s) <> None -> _verify_state (man s) <> Some v ->
  applied_site (man s') = applied_site (man s) -> _verify_state (man s') = Some v -> out s' = out s ++ [p] -> writes s' = writes s ->
  (v = Verified -> exists ks e, applied_site (man s) = Some ks /\ list.last (compared s') = Some (ks, e) /\ agrees ks e = true) -> books s'.
Proof.
  intros Hp [H1 H2 H3 H4 H5] Ha Hv E1 E2 E3 E4 Hc.
  assert (He : edges (out s') = edges (out s) ++ [v]).
  { rewrite E3. unfold edges. rewrite foldl_snoc. unfold add_edge. rewrite Hp. by destruct p. }
  split; rewrite ?E1, ?E2, ?E4; try done.
  - intros [= ->]. auto.
  - rewrite He. apply alternates_snoc; [done |]. by rewrite H5.
  - intros _. by rewrite He, list.last_snoc.
Qed.

(** ** Every step keeps them *)

Lemma start_tmode_good op items r k s : books s -> good (start_tmode op items r k s).
Proof.
  intros H. unfold start_tmode. destruct items as [items|]; (split; [| done]); [by apply (books_frame (on_man _clear_verification s)), books_clear |].
  by apply (books_frame s).
Qed.

Lemma start_fixed_good op ks s : books s -> good (start_fixed op ks s).
Proof. intros H. unfold start_fixed. destruct (fixed_items ks.2) eqn:E; (split; [by apply (books_frame s) | done]). Qed.

Lemma resolved_good op site s : books s -> good (resolved op site s).
Proof. intros H. destruct site; [apply start_fixed_good | apply start_tmode_good]; by apply (books_frame s). Qed.

Lemma finish_good op r s : books s -> good (finish op r s).
Proof. intros H. split; [by apply (books_frame s) | done]. Qed.

Lemma waits_good op p s : (forall items r k, p <> Positionless items r k) -> (forall ks items, p <> Fixing ks items) -> books s -> good (waits op p s).
Proof. intros H1 H2 H. split; [by apply (books_frame s) |]. unfold phase_ok. simpl. destruct p; try done; exfalso; [by eapply H1 | by eapply H2]. Qed.

(** The end of a stretch of a coroutine that did not touch the books of [s]. *)
Ltac stretch s :=
  lazymatch goal with
  | |- good (finish _ _ _) => apply finish_good
  | |- good (waits _ _ _) => apply waits_good
  | |- good (start_fixed _ _ _) => apply start_fixed_good
  | |- good (start_tmode _ _ _ _ _) => apply start_tmode_good
  end; solve [done | by apply (books_frame s)].

Lemma turn_good op p s s' : books s -> turn op p s = Some s' -> good s'.
Proof.
  intros H E. destruct p as [name|name|name|[]| |]; try done; injection E as <-; unfold resolved, baselined, polled.
  - destruct (get_site name (table s)) as [ks|]; [destruct (active ks.2) |]; stretch s.
  - destruct (activate_site name (table s)) as [[t r]|]; stretch s.
  - destruct (get_site name (table s)) as [ks|]; [| stretch s]. destruct op; stretch s.
  - destruct (active_site (table s)) as [ks|]; stretch s.
  - destruct (mode _); stretch s.
  - destruct (active_site (table s)) as [ks|]; [| stretch s].
    destruct (same_ident _ _); [stretch s |]. destruct (mode (man s)); (destruct (same_ident _ _); stretch s).
Qed.

Lemma after_good op k ok s : books s -> applied_site (man s) = None -> good (after_tmode op k ok s).
Proof.
  intros H Ha. destruct k, ok; simpl; try by apply finish_good.
  - apply start_tmode_good. by apply (books_frame s).
  - apply finish_good, books_announce_off; [by apply (books_frame s) | done].
  - apply finish_good, books_announce_off; [by apply (books_frame s) | done].
Qed.

Lemma books_broke items s : books s -> books (wrote items Broke s).
Proof.
  intros [H1 H2 H3 H4 H5]. split; simpl; try done. intros ks E. destruct (H1 ks E) as (i & Hi & Hl). exists i. by rewrite last_acked_snoc.
Qed.

Lemma answered_good op p v now s s' : books s -> holder s = Some (op, p) -> phase_ok s -> answered op p v now s = Some s' -> good s'.
Proof.
  unfold phase_ok. intros H -> Hp E. destruct p as [| | | |items r k|ks items]; simpl in E; try done; injection E as <-.
  - destruct v; [apply after_good; [by apply books_off | done] | | | by apply finish_good, books_broke];
      (apply after_good; [by apply books_unheard | done]).
  - destruct v; apply finish_good; [by apply books_fixed | | by apply books_unheard | by apply books_broke].
    apply (books_unheard items Nakked (Some (site_name ks.2)) NAK_REASON (on_man (set_nak (Some (_ident ks))) s)); [done | | done].
    by apply (books_frame s).
Qed.

Lemma on_1005_good f s : good s -> good (on_1005 f s).
Proof.
  intros Hg. pose proof Hg as [H Hp]. unfold on_1005. destruct (decode_1005 f) as [e|]; [| exact Hg]. unfold sitting. cbn [man on_man set_1005 mode applied_site].
  assert (Hs : good (on_man (set_1005 e) s)) by (split; [by apply (books_frame s) | exact Hp]).
  destruct (mode (man s)); [exact Hs | exact Hs |]. destruct (applied_site (man s)) as [ks|] eqn:Ea; [| exact Hs].
  assert (Hph : forall s', holder s' = holder s -> applied_site (man s') = applied_site (man s) -> phase_ok s').
  { intros s' E1 E2. unfold phase_ok. by rewrite E1, E2. }
  destruct (differences ks e) as [[dx dy] dz]. destruct (agrees ks e) eqn:Eg; case_bool_decide as Hv; cbn in Hv.
  - split; [| by apply Hph]. destruct H as [H1 H2 H3 H4 H5]. split; [exact H1 | exact H2 | | exact H4 | exact H5].
    intros _. exists ks, e. split; [exact Ea |]. split; [apply list.last_snoc | exact Eg].
  - split; [| by apply Hph]. apply (books_edge (PubVerified (site_name ks.2) dx dy dz) Verified s); try reflexivity; [exact H | congruence | exact Hv |].
    intros _. exists ks, e. split; [exact Ea |]. split; [apply list.last_snoc | exact Eg].
  - split; [| by apply Hph]. destruct H as [H1 H2 H3 H4 H5]. split; [exact H1 | exact H2 | | exact H4 | exact H5].
    cbn. intros Hx. congruence.
  - split; [| by apply Hph]. apply (books_edge (PubMismatch (site_name ks.2) dx dy dz) Mismatched s); try reflexivity; [exact H | congruence | exact Hv | discriminate].
Qed.

Lemma on_fix_good ft now s : good s -> good (on_fix ft now s).
Proof.
  intros Hg. pose proof Hg as [H Hp]. unfold on_fix, sitting. destruct (mode (man s)); [exact Hg | exact Hg |].
  destruct (applied_site (man s)) as [ks|] eqn:Ea; [| exact Hg]. destruct (_verify_state (man s)) eqn:Ev; [exact Hg |].
  destruct (_verify_deadline (man s)); [| exact Hg]. destruct (_ || _); [exact Hg |].
  split; [apply (books_edge (PubLate (site_name ks.2) ft) Mismatched s); (done || congruence) | exact Hp].
Qed.

Lemma base_step_good s ev s' : good s -> step s ev = Some s' -> good s'.
Proof.
  intros Hg. pose proof Hg as [H Hp]. destruct ev as [op| | |v now|f|ft now|m dur acc name|o]; simpl; intros E.
  - destruct (holder s); [done |]. injection E as <-. destruct op; simpl; try (by apply waits_good).
    + assert (Hn : books (on_man (set_nak None) s)) by (by apply (books_frame s)).
      destruct (mode (man s)); try (by apply waits_good). destruct (active_site_name (man s)) as [[|]|]; by apply waits_good.
    + apply (start_tmode_good RestartSurveyIn (Some tmode_off) None AfterStop (on_man (set_mode OFF) s)). by apply (books_frame s).
  - destruct (holder s) as [[op p]|]; [| done]. by apply (turn_good op p s).
  - destruct (holder s) as [[op p]|]; [| done]. destruct p; try done; injection E as <-; by apply finish_good.
  - destruct (holder s) as [[op p]|] eqn:Eh; [| done]. by apply (answered_good op p v now s).
  - injection E as <-. by apply on_1005_good.
  - injection E as <-. by apply on_fix_good.
  - injection E as <-. split; [by apply (books_frame s) | exact Hp].
  - injection E as <-. split; [by apply (books_frame s) | exact Hp].
Qed.

Lemma base_run_good evs : forall s s', good s -> run s evs = Some s' -> good s'.
Proof.
  induction evs as [|ev evs IH]; intros s s' Hg; cbn [run]; [by intros [= <-] |].
  destruct (step s ev) as [s1|] eqn:E; [| done]. simpl. apply IH. by eapply base_step_good.
Qed.

Lemma new_base_good m dur acc name t : good (new_base (new_manager m dur acc name) t).
Proof. by split. Qed.

(** C29.  Whatever is asked of the base, in whatever order, and whatever the receiver answers: the
    site the manager holds for applied is the one the receiver accepted last - the last write
    accepted was of its position -, it is called verified only when the last broadcast position
    compared with it agrees to half a millimetre on every axis, and what is published of it are
    edges: since the last announcement of a new position, the events alternate, and the last one
    says what the manager holds. *)
Theorem base_books m dur acc name t evs s : run (new_base (new_manager m dur acc name) t) evs = Some s ->
  (forall ks, applied_site (man s) = Some ks -> exists items, fixed_items ks.2 = Some items /\ last_acked (writes s) = Some items)
  /\ (verified (man s) = true -> exists ks e, applied_site (man s) = Some ks /\ list.last (compared s) = Some (ks, e) /\ agrees ks e = true)
  /\ alternates (edges (out s)) /\ (applied_site (man s) <> None -> list.last (edges (out s)) = _verify_state (man s)).
Proof.
  intros E. destruct (base_run_good evs _ _ (new_base_good m dur acc name t) E) as [[H1 H2 H3 H4 H5] _].
  split_and!; [exact H1 | | exact H4 | exact H5]. unfold verified. intros Hv%bool_decide_eq_true. by apply H3.
Qed.

(** ** Restarting the survey *)

Definition external (ev : Event) : bool := match ev with Configure _ _ _ _ => false | _ => true end.

(** Where a restart of [s0] stands: before its first verdict, before its second, or over. *)
Definition restart_at (s0 s : Base) : Prop :=
  svin_min_duration_s (man s) = svin_min_duration_s (man s0) /\ svin_acc_limit_m (man s) = svin_acc_limit_m (man s0) /\
  match holder s with
  | Some (RestartSurveyIn, Positionless items None AfterStop) =>
      items = tmode_off /\ mode (man s) = OFF /\ results s = results s0 /\ writes s = writes s0
  | Some (RestartSurveyIn, Positionless items None AfterStart) =>
      _svin_items (man s0) = Some items /\ mode (man s) = SURVEY_IN /\ results s = results s0 /\ writes s = writes s0 ++ [(tmode_off, Acked)]
  | _ => False
  end.

Inductive refuses : Verdict -> Prop := refuses_nak : refuses Nakked | refuses_silence : refuses Silent.

(** How a restart of [s0] ends. *)
Inductive restart_end (s0 s : Base) : OpResult -> Prop :=
| ended_ok items : _svin_items (man s0) = Some items -> mode (man s) = SURVEY_IN ->
    writes s = writes s0 ++ [(tmode_off, Acked); (items, Acked)] -> restart_end s0 s (Restarted RestartOk)
| ended_stop v : refuses v -> mode (man s) = SURVEY_IN -> writes s = writes s0 ++ [(tmode_off, v)] -> restart_end s0 s (Restarted STOP_REFUSED)
| ended_survey items v : _svin_items (man s0) = Some items -> refuses v -> mode (man s) = OFF ->
    writes s = writes s0 ++ [(tmode_off, Acked); (items, v)] -> restart_end s0 s (Restarted SURVEY_REFUSED)
| ended_broken ws : writes s = writes s0 ++ ws -> Exists (fun w => w.2 = Broke) ws \/ _svin_items (man s0) = None -> restart_end s0 s Raised.

Lemma restart_answered s0 s op p v now s' : restart_at s0 s -> holder s = Some (op, p) -> answered op p v now s = Some s' ->
  restart_at s0 s' \/ (holder s' = None /\ exists r, results s' = results s0 ++ [(RestartSurveyIn, r)] /\ restart_end s0 s' r).
Proof.
  intros (D & A & Hr) Hh E. rewrite Hh in Hr. destruct op; try done. destruct p as [| | | |items r k|]; try done.
  destruct r; [by destruct k |]. unfold restart_at. destruct k; [done | |]; destruct Hr as (Hi & Hm & Hres & Hw); injection E as <-.
  - subst items. destruct v; simpl.
    + unfold start_tmode. destruct (_svin_items _) as [its|] eqn:Ei; [left | right]; simpl.
      * unfold _svin_items in *. simpl in Ei. rewrite D, A in Ei. by rewrite Hw.
      * split; [done |]. exists Raised. rewrite Hres. split; [done |].
        apply (ended_broken _ _ [(tmode_off, Acked)]); simpl; [by rewrite Hw |]. right. unfold _svin_items in *. simpl in Ei. by rewrite D, A in Ei.
    + right. split; [done |]. eexists. rewrite Hres. split; [done |]. apply (ended_stop _ _ Nakked); simpl; [constructor | done | by rewrite Hw].
    + right. split; [done |]. eexists. rewrite Hres. split; [done |]. apply (ended_stop _ _ Silent); simpl; [constructor | done | by rewrite Hw].
    + right. split; [done |]. eexists. rewrite Hres. split; [done |]. apply (ended_broken _ _ [(tmode_off, Broke)]); simpl; [by rewrite Hw |].
      left. by constructor.
  - right. destruct v; simpl; (split; [done |]); eexists; rewrite Hres; (split; [done |]).
    + apply (ended_ok _ _ items); simpl; [done.. | by rewrite Hw, <- app_assoc].
    + apply (ended_survey _ _ items Nakked); simpl; [done | constructor | done | by rewrite Hw, <- app_assoc].
    + apply (ended_survey _ _ items Silent); simpl; [done | constructor | done | by rewrite Hw, <- app_assoc].
    + apply (ended_broken _ _ [(tmode_off, Acked); (items, Broke)]); simpl; [by rewrite Hw, <- app_assoc |].
      left. do 2 constructor. done.
Qed.

Lemma same_lock s s' s0 : holder s' = holder s -> results s' = results s -> writes s' = writes s -> mode (man s') = mode (man s) ->
  svin_min_duration_s (man s') = svin_min_duration_s (man s) -> svin_acc_limit_m (man s') = svin_acc_limit_m (man s) -> restart_at s0 s -> restart_at s0 s'.
Proof. unfold restart_at. intros -> -> -> -> -> ->. done. Qed.

Lemma on_1005_lock f s s0 : restart_at s0 s -> restart_at s0 (on_1005 f s).
Proof.
  intros H. unfold on_1005. destruct (decode_1005 f) as [e|]; [| exact H].
  destruct (sitting _) as [ks|]; [| by apply (same_lock s)]. destruct (differences ks e) as [[dx dy] dz].
  destruct (agrees ks e); (destruct (bool_decide _); by apply (same_lock s)).
Qed.

Lemma on_fix_lock ft now s s0 : restart_at s0 s -> restart_at s0 (on_fix ft now s).
Proof.
  intros H. unfold on_fix. destruct (sitting _); [| exact H]. destruct (_verify_state _); [exact H |]. destruct (_verify_deadline _); [| exact H].
  destruct (_ || _); [exact H | by apply (same_lock s)].
Qed.

Lemma restart_step s0 s ev s' : restart_at s0 s -> external ev = true -> step s ev = Some s' ->
  restart_at s0 s' \/ (holder s' = None /\ exists r, results s' = results s0 ++ [(RestartSurveyIn, r)] /\ restart_end s0 s' r).
Proof.
  intros Hr Hx E. assert (Hp : exists items k, holder s = Some (RestartSurveyIn, Positionless items None k)).
  { destruct Hr as (_ & _ & Hr). destruct (holder s) as [[[] [| | | |items reason k|]] |]; try done.
    destruct reason; [done | by exists items, k]. }
  destruct Hp as (items & k & Hh). destruct ev as [op| | |v now|f|ft now|m dur acc name|o]; try done; cbn [step] in E; rewrite ?Hh in E; try done.
  - by apply (restart_answered s0 s RestartSurveyIn (Positionless items None k) v now s').
  - injection E as <-. left. by apply on_1005_lock.
  - injection E as <-. left. by apply on_fix_lock.
  - injection E as <-. left. by apply (same_lock s).
Qed.

(** C30.  A restart of the survey ends in one of four ways, whatever is broadcast, polled or activated
    elsewhere meanwhile: the stop and the new survey were both accepted, and [mode] is survey-in; the
    stop was refused or not answered, nothing else was sent, and [mode] is survey-in again; the stop
    was accepted and the survey refused or not answered, and [mode] is off; or it raised, because a
    write broke off or there are no survey items. No other write comes between the two. [mode]
    follows the verdicts heard: it is where the receiver is if that was surveying before and did
    what it answered, and no more (see [restart_from_fixed]). *)
Theorem restart_exact s0 evs s : holder s0 = None -> forallb external evs = true -> run s0 (Begin RestartSurveyIn :: evs) = Some s ->
  restart_at s0 s \/ exists evs1 evs2 s1 r, evs = evs1 ++ evs2 /\ run s0 (Begin RestartSurveyIn :: evs1) = Some s1
    /\ holder s1 = None /\ results s1 = results s0 ++ [(RestartSurveyIn, r)] /\ restart_end s0 s1 r.
Proof.
  intros Hh Hx. assert (H : forall evs s1, restart_at s0 s1 -> forallb external evs = true -> run s1 evs = Some s ->
    restart_at s0 s \/ exists evs1 evs2 s2 r, evs = evs1 ++ evs2 /\ run s1 evs1 = Some s2
      /\ holder s2 = None /\ results s2 = results s0 ++ [(RestartSurveyIn, r)] /\ restart_end s0 s2 r).
  { clear. induction evs as [|ev evs IH]; intros s1 Hr; cbn [run forallb]; [intros _ [= <-]; by left |]. intros [Hx Hxs]%andb_true_iff.
    destruct (step s1 ev) as [s2|] eqn:E; [| done]. cbn [mbind option_bind]. intros Hrun.
    destruct (restart_step _ _ _ _ Hr Hx E) as [Hr2 | (Hn & r & Hres & Hend)].
    - destruct (IH _ Hr2 Hxs Hrun) as [?|(e1 & e2 & s3 & r & -> & Hr3 & Hrest)]; [by left | right].
      exists (ev :: e1), e2, s3, r. split; [done |]. split; [| done]. cbn [run]. by rewrite E.
    - right. exists [ev], evs, s2, r. cbn [run]. by rewrite E. }
  cbn [run step]. rewrite Hh. cbn [mbind option_bind]. apply H; [| done]. by split_and!.
Qed.

(** ** Polling *)

(** What a base does between two requests of its operators: it polls, and hears the receiver. *)
Definition quiet_event (ev : Event) : bool :=
  match ev with Begin PollActiveSite | Turn | DbFailed | Answered _ _ | Arp _ | Fix _ _ => true | _ => false end.

Definition heard (w : CfgItems * Verdict) : bool := match w.2 with Acked | Nakked => true | _ => false end.

(** The active row needs no write: it was refused, it is the one applied, or it was there before. *)
Definition settled (ks : Z * Site) (m : Manager) : Prop :=
  same_ident (_ident ks) (_nak_site m) = true \/
  match mode m with FIXED => same_ident (_ident ks) (_ident <$> applied_site m) = true | _ => same_ident (_ident ks) (_poll_baseline m) = true end.

(** A run of polls since [s0], whose active row is [ks]: writes without a verdict, then at most one with. *)
Record polling (ks : Z * Site) (items : CfgItems) (s0 s : Base) : Prop := mkPolling {
  pl_row : active_site (table s) = Some ks;
  pl_phase : match holder s with
             | None | Some (PollActiveSite, ReadingActive ForPoll) => True
             | Some (PollActiveSite, Fixing ks' items') => ks' = ks /\ items' = items /\ ~ settled ks (man s)
             | _ => False
             end;
  pl_writes : exists ws, writes s = writes s0 ++ ws /\ Forall (fun w => w.1 = items) ws /\
    (settled ks (man s0) -> ws = [] /\ settled ks (man s)) /\
    (Forall (fun w => heard w = false) ws \/
     exists ws' w, ws = ws' ++ [w] /\ Forall (fun w => heard w = false) ws' /\ heard w = true /\ settled ks (man s))
}.

Lemma polling_frame ks items s0 s s' : table s' = table s -> holder s' = holder s -> writes s' = writes s ->
  (settled ks (man s') <-> settled ks (man s)) -> polling ks items s0 s -> polling ks items s0 s'.
Proof.
  intros E1 E2 E3 E4 [H1 H2 (ws & H3 & H4 & H6 & H5)]. split; rewrite ?E1, ?E2, ?E3; [done | | exists ws; split_and!; [done | done | by rewrite E4 |]].
  - destruct (holder s) as [[op p]|]; [| done]. destruct op, p; try done. by rewrite E4.
  - destruct H5 as [H5|(ws' & w & ? & ? & ? & ?)]; [by left | right]. exists ws', w. by rewrite E4.
Qed.

Lemma on_1005_polling f ks items s0 s : polling ks items s0 s -> polling ks items s0 (on_1005 f s).
Proof.
  intros H. unfold on_1005. destruct (decode_1005 f) as [e|]; [| exact H].
  destruct (sitting _) as [ks'|]; [| by apply (polling_frame ks items s0 s)]. destruct (differences ks' e) as [[dx dy] dz].
  destruct (agrees ks' e); (destruct (bool_decide _); by apply (polling_frame ks items s0 s)).
Qed.

Lemma on_fix_polling ft now ks items s0 s : polling ks items s0 s -> polling ks items s0 (on_fix ft now s).
Proof.
  intros H. unfold on_fix. destruct (sitting _); [| exact H]. destruct (_verify_state _); [exact H |]. destruct (_verify_deadline _); [| exact H].
  destruct (_ || _); [exact H | by apply (polling_frame ks items s0 s)].
Qed.

Lemma release_polling ks items op r s0 s : polling ks items s0 s -> polling ks items s0 (finish op r s).
Proof. intros [H1 H2 (ws & H3)]. split; [done | done | by exists ws]. Qed.

Lemma polled_polling ks items s0 s : fixed_items ks.2 = Some items -> holder s = Some (PollActiveSite, ReadingActive ForPoll) ->
  polling ks items s0 s -> polling ks items s0 (polled PollActiveSite (Some ks) s).
Proof.
  intros Hi Hh H. assert (Hgo : ~ settled ks (man s) -> polling ks items s0 (start_fixed PollActiveSite ks s)).
  { intros Hn. unfold start_fixed. rewrite Hi. destruct H as [H1 H2 (ws & H3)]. split; [done | done | by exists ws]. }
  unfold polled. cbn zeta. unfold settled in Hgo. destruct (same_ident (_ident ks) (_nak_site (man s))) eqn:En; [by apply release_polling |].
  set (against := match mode (man s) with FIXED => _ident <$> applied_site (man s) | _ => _poll_baseline (man s) end).
  assert (Ha : match mode (man s) with FIXED => same_ident (_ident ks) (_ident <$> applied_site (man s)) = true
      | _ => same_ident (_ident ks) (_poll_baseline (man s)) = true end <-> same_ident (_ident ks) against = true)
    by (unfold against; by destruct (mode (man s))).
  rewrite Ha in Hgo. enough (Hr : polling ks items s0 (if same_ident (_ident ks) against then finish PollActiveSite Returned s
      else start_fixed PollActiveSite ks s)) by (unfold against in Hr; by destruct (mode (man s))).
  clear Ha. destruct (same_ident (_ident ks) against); [by apply release_polling | apply Hgo; by intros [?|?]].
Qed.

Lemma answered_polling ks items v now s0 s s' : ident_eq (_ident ks) (_ident ks) = true ->
  holder s = Some (PollActiveSite, Fixing ks items) -> polling ks items s0 s -> answered PollActiveSite (Fixing ks items) v now s = Some s' ->
  polling ks items s0 s'.
Proof.
  intros Hid Hh [H1 H2 (ws & H3 & H4 & H6 & H5)] E. rewrite Hh in H2. destruct H2 as (_ & _ & Hn).
  assert (Hu : Forall (fun w => heard w = false) ws) by (destruct H5 as [?|(ws' & w & _ & _ & _ & ?)]; [done | by destruct Hn]).
  assert (Hw : Forall (fun w : CfgItems * Verdict => w.1 = items) (ws ++ [(items, v)])) by (apply Forall_app_2; [done | by repeat constructor]).
  assert (Hs : writes s' = writes s0 ++ ws ++ [(items, v)] /\ table s' = table s /\ holder s' = None /\
    if heard (items, v) then settled ks (man s') else True).
  { cbn [answered] in E. injection E as <-. destruct v; simpl; rewrite H3, app_assoc; (split_and!; try done); [by right | by left]. }
  destruct Hs as (Ew & Et & Eh & Hset). split; [by rewrite Et | by rewrite Eh |]. exists (ws ++ [(items, v)]).
  split_and!; [done | done | by intros [_ ?]%H6 |].
  destruct (heard (items, v)) eqn:Ev; [right; by exists ws, (items, v) | left]. apply Forall_app_2; [done | by repeat constructor].
Qed.

Lemma polling_step ks items s0 s ev s' : ident_eq (_ident ks) (_ident ks) = true -> fixed_items ks.2 = Some items ->
  polling ks items s0 s -> quiet_event ev = true -> step s ev = Some s' -> polling ks items s0 s'.
Proof.
  intros Hid Hi H Hq E. destruct ev as [op| | |v now|f|ft now|m dur acc name|o]; try done; cbn [step] in E.
  - destruct op; try done. destruct (holder s) eqn:Hh; [done |]. injection E as <-. destruct H as [H1 H2 (ws & H3)]. by split; [| | exists ws].
  - pose proof (pl_phase _ _ _ _ H) as Hp. destruct (holder s) as [[op p]|] eqn:Hh; [| done]. destruct op, p as [| | |[]| |]; try done.
    cbn [mbind option_bind turn] in E. rewrite (pl_row _ _ _ _ H) in E. injection E as <-. by apply polled_polling.
  - destruct (holder s) as [[op p]|]; [| done]. destruct p; try done; injection E as <-; by apply release_polling.
  - pose proof (pl_phase _ _ _ _ H) as Hp. destruct (holder s) as [[op p]|] eqn:Hh; [| done]. destruct op, p as [| | |[]| |ks' items']; try done.
    destruct Hp as (-> & -> & _). by apply (answered_polling ks items v now s0 s).
  - injection E as <-. by apply on_1005_polling.
  - injection E as <-. by apply on_fix_polling.
Qed.

Lemma filter_unheard ws : Forall (fun w => heard w = false) ws -> List.filter heard ws = [].
Proof. induction 1 as [|w ws Hw _ IH]; simpl; [done | by rewrite Hw]. Qed.

(** However often the sites table is polled, and whatever is broadcast meanwhile, an active row
    that stays as it is costs at most one write with a verdict: the polls offer its position again
    as long as the receiver is silent, and no more once it accepted or refused it - and none at all
    if it is the site applied already, or was active when the base was put off or to survey. *)
Theorem polls_settle ks items evs s0 s : ident_eq (_ident ks) (_ident ks) = true -> fixed_items ks.2 = Some items ->
  active_site (table s0) = Some ks -> holder s0 = None -> forallb quiet_event evs = true -> run s0 evs = Some s ->
  exists ws, writes s = writes s0 ++ ws /\ Forall (fun w => w.1 = items) ws /\ (length (List.filter heard ws) <= 1)%nat /\
    (settled ks (man s0) -> ws = []) /\ (List.filter heard ws <> [] -> settled ks (man s)).
Proof.
  intros Hid Hi Hr Hh Hq Hrun. assert (H : polling ks items s0 s0).
  { split; [done | by rewrite Hh | exists []; rewrite app_nil_r]. split_and!; [done | constructor | done | by left]. }
  assert (Hend : forall evs s1, polling ks items s0 s1 -> forallb quiet_event evs = true -> run s1 evs = Some s -> polling ks items s0 s).
  { clear - Hid Hi. induction evs as [|ev evs IH]; intros s1 H; cbn [run forallb]; [by intros _ [= <-] |]. intros [Hq Hqs]%andb_true_iff.
    destruct (step s1 ev) as [s2|] eqn:E; [| done]. cbn [mbind option_bind]. apply IH; [| done]. by eapply polling_step. }
  destruct (Hend evs s0 H Hq Hrun) as [_ _ (ws & Hw & Hit & Hse & Hws)]. exists ws. split_and!; [done | done | | by intros [? _]%Hse |].
  - destruct Hws as [Hu|(ws' & w & -> & Hu & Hhw & _)]; rewrite ?List.filter_app, (filter_unheard _ Hu); simpl; [lia | by rewrite Hhw].
  - destruct Hws as [Hu|(ws' & w & -> & Hu & Hhw & Hs)]; [rewrite (filter_unheard _ Hu); by intros [] | done].
Qed.
End BaseMode.

(** ** Runs *)

Definition toy_split (v : Z) : Z * Z := (v, 0).
Definition toy_hypot (a b c : Z) : Z := a.
Definition metre (k : Z) : Z := of_int k.
Definition toy_site (name : bytes) (k : Z) : Site := mkSite name (metre k) (metre (k + 1)) (metre (k + 2)) (None, None, None) (str "manual"%string) false.
Definition toy_parse (f : Frame) : option Ecef1005 := Some (mkEcef 7 (metre 10) (metre 11) (metre 12) true true true).
Definition toy_frame : Frame := mkFrame RTCM3 [0xD3; 0; 2; 0x3E; 0xD0; 0; 0; 0].
Definition roof : bytes := [114].
Definition toy_sites : Sites := site_ops [Add (toy_site roof 10)] empty_sites.
Definition toy_survey : Base := new_base (new_manager SURVEY_IN 300 (of_int 2) None) toy_sites.
Definition toy_run : Base -> list Event -> option Base := run toy_split toy_hypot toy_parse.

(** Surveying, then sent to a site: it is verified by what the base broadcasts. *)
Definition to_site : list Event :=
  [Begin ApplyMode; Turn; Answered Acked 10; Begin (ActivateSite roof); Turn; Turn; Answered Acked 20; Arp toy_frame; Arp toy_frame].
Definition on_roof : Base := default toy_survey (toy_run toy_survey to_site).
Definition roof_items : CfgItems := default [] (fixed_items toy_split toy_hypot (toy_site roof 10)).

Lemma base_books_witness : verified (man on_roof) = true /\ length (out on_roof) = 3%nat /\
  (forall ks, applied_site (man on_roof) = Some ks -> exists items, fixed_items toy_split toy_hypot ks.2 = Some items /\ last_acked (writes on_roof) = Some items)
  /\ (verified (man on_roof) = true -> exists ks e, applied_site (man on_roof) = Some ks /\ list.last (compared on_roof) = Some (ks, e) /\ agrees ks e = true)
  /\ alternates (edges (out on_roof)) /\ (applied_site (man on_roof) <> None -> list.last (edges (out on_roof)) = _verify_state (man on_roof)).
Proof.
  split; [vm_compute; reflexivity |]. split; [vm_compute; reflexivity |].
  apply (base_books toy_split toy_hypot toy_parse SURVEY_IN 300 (of_int 2) None toy_sites to_site on_roof). vm_compute. reflexivity.
Defined.

Definition restart_events : list Event := [Answered Acked 10; Answered Nakked 20].
Definition restarted : Base := default toy_survey (toy_run toy_survey (Begin RestartSurveyIn :: restart_events)).

Lemma restart_exact_witness : results restarted = [(RestartSurveyIn, Restarted SURVEY_REFUSED)] /\
  (restart_at toy_survey restarted \/ exists evs1 evs2 s1 r, restart_events = evs1 ++ evs2
    /\ toy_run toy_survey (Begin RestartSurveyIn :: evs1) = Some s1
    /\ holder s1 = None /\ results s1 = results toy_survey ++ [(RestartSurveyIn, r)] /\ restart_end toy_survey s1 r).
Proof.
  split; [vm_compute; reflexivity |].
  apply (restart_exact toy_split toy_hypot toy_parse toy_survey restart_events restarted); [reflexivity | reflexivity | vm_compute; reflexivity].
Defined.

(** A restart whose stop is refused or not answered sets the mode to survey-in wherever the receiver
    was: on a base that sits on a site, the last write the receiver took is the site's. *)
Lemma restart_from_fixed : (fun s => (mode (man s), last_acked (writes s), results s)) <$> toy_run on_roof [Begin RestartSurveyIn; Answered Silent 30]
  = Some (SURVEY_IN, Some roof_items, results on_roof ++ [(RestartSurveyIn, Restarted STOP_REFUSED)]).
Proof. vm_compute. reflexivity. Qed.

(** A restart that fails for want of a receiver leaves the mode off, and the reconnection switches
    the base off. *)
Lemma restart_unplugged_switches_off : let s := toy_run toy_survey [Begin RestartSurveyIn; Answered Broke 10; Begin ApplyMode; Turn; Answered Acked 20] in
  (fun s => (mode (man s), last_acked (writes s), results s)) <$> s = Some (OFF, Some tmode_off, [(RestartSurveyIn, Raised); (ApplyMode, Returned)]).
Proof. vm_compute. reflexivity. Qed.

Definition active_roof : Base := new_base (man toy_survey) (site_ops [Activate roof] toy_sites).
Definition roof_row : Z * Site := (1, set_active true (toy_site roof 10)).
Definition poll_events : list Event :=
  [Begin PollActiveSite; Turn; Answered Silent 10; Begin PollActiveSite; Turn; Answered Acked 20; Arp toy_frame; Begin PollActiveSite; Turn].
Definition polled_roof : Base := default toy_survey (toy_run active_roof poll_events).

Lemma polls_settle_witness : map snd (writes polled_roof) = [Silent; Acked] /\
  exists ws, writes polled_roof = writes active_roof ++ ws /\ Forall (fun w => w.1 = roof_items) ws /\ (length (List.filter heard ws) <= 1)%nat /\
    (settled roof_row (man active_roof) -> ws = []) /\ (List.filter heard ws <> [] -> settled roof_row (man polled_roof)).
Proof.
  split; [vm_compute; reflexivity |].
  apply (polls_settle toy_split toy_hypot toy_parse roof_row roof_items poll_events active_roof polled_roof); vm_compute; reflexivity.
Defined.
