(* ===== verification/Receiver.v ===== *)
(** * The receiver's supervisor ([core/receiver.py])

    [ReceiverController.run] with its sessions, its reports and its waits, as a machine: an event
    is what one of the awaits of [run], of the session or of the reader brings. Opening, reading and
    configuring are the environment's; their outcomes come with the events, an exception with its
    text. Times are integers, in milliseconds. *)

From Stdlib Require Import String.
From stdpp Require Import gmap.
From S2P Require Import Prelude.
From S2P Require Import PyBytes.
From S2P Require Import ReceiverConfig.

Definition BACKOFF_MIN : Z := 1000.
Definition BACKOFF_MAX : Z := 30000.

Definition SOURCE_ENDED : bytes := str "source ended".
Definition STOPPED : bytes := str "stopped".
Definition EOF_REASON : bytes := str "eof".
Definition cannot_open (name exc : bytes) : bytes := str "cannot open " ++ name ++ str ": " ++ exc.
Definition link_failure (exc : bytes) : bytes := str "link failure: " ++ exc.
Definition unexpected_failure (exc : bytes) : bytes := str "unexpected failure: " ++ exc.
Definition reader_failed (exc : bytes) : bytes := str "reader failed: " ++ exc.
(** [timeout] is the setting as it prints. *)
Definition no_data (timeout : bytes) : bytes := str "no data from receiver for " ++ timeout ++ str "s".

(** What the supervisor reads of a source. *)
Record Source := mkSource { source_name : bytes; retry_s : option Z; ends_at_eof : bool }.

(** How the reader ended: the end of a recording, the loss of a device, or an exception. *)
Inductive ReaderEnd := SourceEnded | LinkDropped | ReaderRaised (exc : bytes).

Inductive Published := Connected (name : bytes) | Disconnected (reason : bytes) | Error (reason : bytes).

(** What a session does: it configures the receiver, or watches the reader. *)
Inductive Doing := Configuring | Watching.

(** What ends [run] by an exception. *)
Inductive Fatal := Profile (e : Exn) | CancelledError.

Inductive Phase :=
| Opening
| Sleeping (fixed : bool)
| InSession (src : Source) (d : Doing) (reader : option ReaderEnd)
| Closing (reason : bytes) (ended failed : bool) (fatal : option Fatal)
| Returned
| Crashed (f : Fatal).

Section Supervisor.
(** The options: [configures] is that it is not passive and has a profile; the time-out with its text. *)
Context (configures strict : bool) (rx_timeout : Z) (rx_timeout_text : bytes).

(** [waited]: the waits between attempts, for the theorems. *)
Record Supervisor := mkSupervisor {
  phase : Phase; stop : bool; connected : bool; first_apply : bool; configured_once : bool; backoff : Z; down_reported : bool;
  open_failures : gset bytes; last_rx : Z; published : list Published; waited : list Z
}.
(** As [run] begins. *)
Definition new_supervisor : Supervisor := mkSupervisor Opening false false true false BACKOFF_MIN false ∅ 0 [] [].

Definition to_phase (p : Phase) (s : Supervisor) : Supervisor :=
  mkSupervisor p (stop s) (connected s) (first_apply s) (configured_once s) (backoff s) (down_reported s) (open_failures s) (last_rx s) (published s) (waited s).
Definition publish (p : Published) (s : Supervisor) : Supervisor :=
  mkSupervisor (phase s) (stop s) (connected s) (first_apply s) (configured_once s) (backoff s) (down_reported s) (open_failures s) (last_rx s)
    (published s ++ [p]) (waited s).
Definition set_backoff (b : Z) (s : Supervisor) : Supervisor :=
  mkSupervisor (phase s) (stop s) (connected s) (first_apply s) (configured_once s) b (down_reported s) (open_failures s) (last_rx s) (published s) (waited s).
Definition set_configured (s : Supervisor) : Supervisor :=
  mkSupervisor (phase s) (stop s) (connected s) false true (backoff s) (down_reported s) (open_failures s) (last_rx s) (published s) (waited s).
Definition set_rx (now : Z) (s : Supervisor) : Supervisor :=
  mkSupervisor (phase s) (stop s) (connected s) (first_apply s) (configured_once s) (backoff s) (down_reported s) (open_failures s) now (published s) (waited s).
Definition set_stop (s : Supervisor) : Supervisor :=
  mkSupervisor (phase s) true (connected s) (first_apply s) (configured_once s) (backoff s) (down_reported s) (open_failures s) (last_rx s) (published s) (waited s).
Definition set_down (failures : gset bytes) (s : Supervisor) : Supervisor :=
  mkSupervisor (phase s) (stop s) (connected s) (first_apply s) (configured_once s) (backoff s) true failures (last_rx s) (published s) (waited s).
Definition set_connected (b : bool) (s : Supervisor) : Supervisor :=
  mkSupervisor (phase s) (stop s) b (first_apply s) (configured_once s) (backoff s) (down_reported s) (open_failures s) (last_rx s) (published s) (waited s).
Definition wait (d : Z) (fixed : bool) (s : Supervisor) : Supervisor :=
  mkSupervisor (Sleeping fixed) (stop s) (connected s) (first_apply s) (configured_once s) (backoff s) (down_reported s) (open_failures s) (last_rx s)
    (published s) (waited s ++ [d]).

(** [while not stop.is_set()]. *)
Definition loop (s : Supervisor) : Supervisor := to_phase (if stop s then Returned else Opening) s.

Definition _report_open_failure (reason : bytes) (s : Supervisor) : Supervisor :=
  if bool_decide (reason ∈ open_failures s) then s
  else
    let after_drop := down_reported s && bool_decide (open_failures s = ∅) in
    let known := down_reported s in
    let s := set_down ({[reason]} ∪ open_failures s) s in
    if negb known then publish (Disconnected reason) s else if negb after_drop then publish (Error reason) s else s.

(** [_backoff_sleep], to its wait and from it. *)
Definition backoff_sleep (fixed : option Z) (s : Supervisor) : Supervisor :=
  wait (default (backoff s) fixed) (match fixed with Some _ => true | None => false end) s.
Definition slept (fixed : bool) (s : Supervisor) : Supervisor :=
  loop (if fixed then s else set_backoff (Z.min (backoff s * 2) BACKOFF_MAX) s).

(** [_session], to its first wait. *)
Definition begin_session (src : Source) (now : Z) (s : Supervisor) : Supervisor :=
  let s := set_rx now (set_connected true s) in
  let s := if configures then s else set_backoff BACKOFF_MIN s in
  to_phase (InSession src (if configures then Configuring else Watching) None) (publish (Connected (source_name src)) s).

(** The [except] clauses: what is published, and what the session ends with. *)
Definition ends (reason : bytes) (s : Supervisor) : Supervisor := to_phase (Closing reason true false None) s.
Definition fails (reason : bytes) (fatal : option Fatal) (s : Supervisor) : Supervisor :=
  to_phase (Closing reason false true fatal) (publish (Error reason) s).
Definition stops (s : Supervisor) : Supervisor := to_phase (Closing STOPPED false false None) s.

Definition raised (e : Exn) (text : bytes) (s : Supervisor) : Supervisor :=
  match e with
  | ProfileError _ | ProfileUnanswered => fails text (if strict && negb (configured_once s) then Some (Profile e) else None) s
  | ReceiverError => fails text None s
  | LinkTimeout => fails (link_failure text) None s
  | LinkNak | LinkNoData | OtherError => fails (unexpected_failure text) None s
  end.

(** [_configure_or_stop], once the configure is done. *)
Definition configure_done (src : Source) (reader : option ReaderEnd) (r : Res unit) (text : bytes) (s : Supervisor) : Supervisor :=
  match r with
  | Ret _ => to_phase (InSession src Watching reader) (set_backoff BACKOFF_MIN (set_configured s))
  | Raise e => raised e text s
  end.

(** A turn of [_watchdog]. *)
Definition watch (reader : option ReaderEnd) (now : Z) (s : Supervisor) : Supervisor :=
  if stop s then stops s
  else
    match reader with
    | Some SourceEnded => ends SOURCE_ENDED s
    | Some LinkDropped => fails EOF_REASON None s
    | Some (ReaderRaised exc) => fails (reader_failed exc) None s
    | None => if rx_timeout <? now - last_rx s then fails (no_data rx_timeout_text) None s else s
    end.

(** The [finally] of the session, and what [run] does next. *)
Definition closed (reason : bytes) (ended failed : bool) (fatal : option Fatal) (s : Supervisor) : Supervisor :=
  let s := publish (Disconnected reason) (set_down ∅ (set_connected false s)) in
  match fatal with
  | Some f => to_phase (Crashed f) s
  | None => if ended || stop s then to_phase Returned s else if failed then backoff_sleep None s else loop s
  end.

Inductive Event :=
| Opened (src : Source) (now : Z)
| OpenFailed (src : Source) (exc : bytes)
| Slept                                   (** the time of a wait is over *)
| StopWakes                               (** ... or [stop] cuts it short *)
| Received (now : Z)                      (** the reader reads bytes *)
| ReaderStops (exc : option bytes)        (** it reads none, or raises *)
| ConfigureDone (r : Res unit) (text : bytes)
| LinkBroke (text : bytes)                (** an [OSError] out of the configure *)
| StopWins                                (** [stop] comes before the end of the configure *)
| Watch (now : Z)
| Closed
| Cancel
| Stop.

(** The end of the reader of a source. *)
Definition reader_end (src : Source) (exc : option bytes) : ReaderEnd :=
  match exc with Some exc => ReaderRaised exc | None => if ends_at_eof src then SourceEnded else LinkDropped end.

Definition step (s : Supervisor) (ev : Event) : option Supervisor :=
  match ev, phase s with
  | Stop, _ => Some (set_stop s)
  | Opened src now, Opening => Some (begin_session src now s)
  | OpenFailed src exc, Opening => Some (backoff_sleep (retry_s src) (_report_open_failure (cannot_open (source_name src) exc) s))
  | Slept, Sleeping fixed => Some (slept fixed s)
  | StopWakes, Sleeping fixed => if stop s then Some (slept fixed s) else None
  | Received now, InSession _ _ None => Some (set_rx now s)
  | ReaderStops exc, InSession src d None => Some (to_phase (InSession src d (Some (reader_end src exc))) s)
  | ConfigureDone r text, InSession src Configuring reader => Some (configure_done src reader r text s)
  | LinkBroke text, InSession _ Configuring _ => Some (fails (link_failure text) None s)
  | StopWins, InSession _ Configuring _ => if stop s then Some (stops s) else None
  | Watch now, InSession _ Watching reader => Some (watch reader now s)
  | Cancel, InSession _ _ _ => Some (to_phase (Closing STOPPED false false (Some CancelledError)) s)
  | Cancel, (Opening | Sleeping _) => Some (to_phase (Crashed CancelledError) s)
  | Closed, Closing reason ended failed fatal => Some (closed reason ended failed fatal s)
  | _, _ => None
  end.

Fixpoint run (s : Supervisor) (evs : list Event) : option Supervisor :=
  match evs with [] => Some s | ev :: evs => s' ← step s ev; run s' evs end.

(** ** What is published *)

(** An observer of the publications: the receiver is up, or down with the reasons said so far, or
    nothing was said. *)
Inductive Seen := Fresh | Up | Down (said : gset bytes).

Definition see (o : Seen) (p : Published) : option Seen :=
  match o, p with
  | Fresh, Disconnected r => Some (Down {[r]})
  | (Fresh | Down _), Connected _ => Some Up
  | Up, Error _ => Some Up
  | Up, Disconnected _ => Some (Down ∅)
  | Down said, Error r => if bool_decide (r ∈ said) then None else Some (Down ({[r]} ∪ said))
  | Fresh, Error _ | Up, Connected _ | Down _, Disconnected _ => None
  end.

Fixpoint seen (o : Seen) (ps : list Published) : option Seen :=
  match ps with [] => Some o | p :: ps => o' ← see o p; seen o' ps end.

Definition in_session (p : Phase) : bool := match p with InSession _ _ _ | Closing _ _ _ _ => true | _ => false end.

Record reported (s : Supervisor) : Prop := mkReported {
  rp_phase : connected s = in_session (phase s);
  rp_seen : exists o, seen Fresh (published s) = Some o /\
    match o with
    | Fresh => connected s = false /\ down_reported s = false /\ open_failures s = ∅
    | Up => connected s = true
    | Down said => connected s = false /\ down_reported s = true /\ said ⊆ open_failures s
    end;
  rp_backoff : BACKOFF_MIN <= backoff s <= BACKOFF_MAX;
  rp_fatal : match phase s with
             | Closing _ _ _ (Some (Profile _)) | Crashed (Profile _) => strict = true /\ configured_once s = false
             | Returned => stop s = true \/ list.last (published s) = Some (Disconnected SOURCE_ENDED)
             | Closing reason true _ _ => reason = SOURCE_ENDED
             | _ => True
             end
}.

Lemma seen_snoc ps p : forall o, seen o (ps ++ [p]) = (seen o ps ≫= fun o => see o p).
Proof.
  induction ps as [|q ps IH]; intros o; simpl; [by destruct (see o p) |]. destruct (see o q) as [o'|]; [apply IH | done].
Qed.

(** What a step that says nothing, and goes on with or without the session, keeps. *)
Lemma reported_frame s s' : published s' = published s -> connected s' = connected s -> down_reported s' = down_reported s ->
  open_failures s' = open_failures s -> in_session (phase s') = in_session (phase s) -> BACKOFF_MIN <= backoff s' <= BACKOFF_MAX ->
  match phase s' with
  | Closing _ _ _ (Some (Profile _)) | Crashed (Profile _) => strict = true /\ configured_once s' = false
  | Returned => stop s' = true \/ list.last (published s') = Some (Disconnected SOURCE_ENDED)
  | Closing reason true _ _ => reason = SOURCE_ENDED
  | _ => True
  end -> reported s -> reported s'.
Proof.
  intros E1 E2 E3 E4 E5 E6 E7 [H1 (o & H2 & H3) H4 H5]. split; [by rewrite E2, E5 | | done | done].
  exists o. by rewrite E1, E2, E3, E4.
Qed.

Lemma reported_new : reported new_supervisor.
Proof. split; [done | by exists Fresh | simpl; unfold BACKOFF_MIN, BACKOFF_MAX; lia | done]. Qed.

Lemma reported_wait d fixed s : reported s -> in_session (phase s) = false -> reported (wait d fixed s).
Proof. intros H E. apply (reported_frame s); try done. apply H. Qed.

Lemma reported_open_failure reason s : reported s -> connected s = false ->
  let s' := _report_open_failure reason s in
  connected s' = false /\ backoff s' = backoff s /\ (exists o, seen Fresh (published s') = Some o /\
    match o with
    | Fresh => connected s' = false /\ down_reported s' = false /\ open_failures s' = ∅
    | Up => connected s' = true
    | Down said => connected s' = false /\ down_reported s' = true /\ said ⊆ open_failures s'
    end).
Proof.
  intros [H1 (o & H2 & H3) H4 H5] Hc. unfold _report_open_failure. case_bool_decide as Hin; [split_and!; [done | done | by exists o] |]. cbn zeta.
  destruct o as [| |said]; [destruct H3 as (_ & Hd & Hf) | congruence | destruct H3 as (_ & Hd & Hs)]; rewrite Hd; simpl.
  - split_and!; [done | done |]. exists (Down {[reason]}). rewrite seen_snoc, H2. split_and!; [done.. |]. set_solver.
  - case_bool_decide as Hf; simpl; (split_and!; [done | done |]).
    + exists (Down said). split_and!; [done.. |]. set_solver.
    + exists (Down ({[reason]} ∪ said)). rewrite seen_snoc, H2. simpl. rewrite bool_decide_false by set_solver. split_and!; [done.. |]. set_solver.
Qed.

Lemma reported_begin src now s : reported s -> phase s = Opening -> reported (begin_session src now s).
Proof.
  intros [H1 (o & H2 & H3) H4 H5] E. rewrite E in H1. simpl in H1.
  assert (Hs : seen Fresh (published s ++ [Connected (source_name src)]) = Some Up) by (rewrite seen_snoc, H2; destruct o; [done | congruence | done]).
  unfold begin_session. destruct configures; (split; [done | by exists Up | | done]); [exact H4 |]. simpl. unfold BACKOFF_MIN, BACKOFF_MAX. lia.
Qed.

Lemma reported_fails reason fatal s : reported s -> in_session (phase s) = true ->
  match fatal with Some (Profile _) => strict = true /\ configured_once s = false | _ => True end -> reported (fails reason fatal s).
Proof.
  intros [H1 (o & H2 & H3) H4 H5] E Hf. rewrite E in H1. split; [done | | done | by destruct fatal as [[]|]].
  exists Up. simpl. rewrite seen_snoc, H2. destruct o; [by destruct H3; congruence | done | by destruct H3; congruence].
Qed.

Lemma reported_raised e text s : reported s -> in_session (phase s) = true -> reported (raised e text s).
Proof.
  intros H E. unfold raised. destruct e; apply reported_fails; try done; by destruct strict, (configured_once s).
Qed.

Lemma reported_closed reason ended failed fatal s : reported s -> phase s = Closing reason ended failed fatal ->
  reported (closed reason ended failed fatal s).
Proof.
  intros [H1 (o & H2 & H3) H4 H5] E. rewrite E in H1, H5. unfold closed. set (s1 := publish _ _).
  assert (Hs : exists o, seen Fresh (published s1) = Some o /\ match o with Down said => said = ∅ | _ => False end).
  { exists (Down ∅). simpl. rewrite seen_snoc, H2. destruct o; [by destruct H3; simpl in *; congruence | done | by destruct H3; simpl in *; congruence]. }
  destruct Hs as (o1 & Ho & Hd). destruct o1 as [| |said]; try done. subst said.
  assert (Hr : forall s', published s' = published s1 -> connected s' = false -> down_reported s' = true -> open_failures s' = ∅ ->
      in_session (phase s') = false -> backoff s' = backoff s ->
      match phase s' with Crashed (Profile _) => strict = true /\ configured_once s' = false
        | Returned => stop s' = true \/ list.last (published s') = Some (Disconnected SOURCE_ENDED) | _ => True end -> reported s').
  { intros s' E1 E2 E3 E4 E5 E6 E7. split; [by rewrite E2, E5 | | by rewrite E6 | by destruct (phase s') as [| | |? ? ? []| |]].
    exists (Down ∅). by rewrite E1, E2, E3, E4. }
  destruct fatal as [f|].
  - apply Hr; try done. simpl in H5 |- *. by destruct f, ended.
  - destruct (ended || stop s1) eqn:Ee; [| destruct failed].
    + apply Hr; try done. apply orb_true_iff in Ee as [->|Hst]; [right | by left]. simpl. by rewrite list.last_snoc, H5.
    + by apply Hr.
    + apply orb_false_iff in Ee as [_ Ee]. unfold loop. rewrite Ee. by apply Hr.
Qed.

Lemma reported_session s s' : reported s -> in_session (phase s) = true -> in_session (phase s') = true ->
  match phase s' with InSession _ _ _ => True | Closing reason ended _ fatal => match fatal with Some (Profile _) => False | _ => True end /\
    (ended = true -> reason = SOURCE_ENDED) | _ => False end ->
  published s' = published s -> connected s' = connected s -> down_reported s' = down_reported s -> open_failures s' = open_failures s ->
  BACKOFF_MIN <= backoff s' <= BACKOFF_MAX -> reported s'.
Proof.
  intros H E1 E2 E3 E4 E5 E6 E7 Hb. apply (reported_frame s); try done; [by rewrite E1, E2 |].
  destruct (phase s') as [| | |reason [] failed [[]|]| |]; try done; destruct E3 as [? E3]; try done; by apply E3.
Qed.

Lemma reported_watch reader now s : reported s -> in_session (phase s) = true -> reported (watch reader now s).
Proof.
  intros H E. pose proof (rp_backoff _ H) as Hb. unfold watch.
  destruct (stop s); [by apply (reported_session s) |]. destruct reader as [[]|]; try (by apply reported_fails);
    [by apply (reported_session s) |]. destruct (_ <? _); [by apply reported_fails | done].
Qed.

Lemma reported_slept fixed s : reported s -> phase s = Sleeping fixed -> reported (slept fixed s).
Proof.
  intros H Ep. pose proof (rp_backoff _ H) as Hb. unfold slept, loop. apply (reported_frame s); try (destruct fixed; done); rewrite ?Ep.
  - destruct fixed; simpl; by destruct (stop s).
  - destruct fixed; simpl; unfold BACKOFF_MAX, BACKOFF_MIN in *; lia.
  - destruct fixed; simpl; destruct (stop s) eqn:Es; simpl; auto.
Qed.

Lemma reported_step s ev s' : reported s -> step s ev = Some s' -> reported s'.
Proof.
  intros H E. pose proof (rp_backoff _ H) as Hb. pose proof (rp_phase _ H) as Hp. pose proof (rp_fatal _ H) as Hf. unfold step in E.
  destruct ev as [src now|src exc| | |now|exc|r text|text| |now| | |]; destruct (phase s) as [|fixed|src' d reader|reason ended failed fatal| |f] eqn:Ep;
    try done; try (destruct reader; done); try (destruct d; done);
    try (assert (Hin : in_session (phase s) = true) by (by rewrite Ep));
    try (lazymatch type of E with Some (set_stop _) = _ => injection E as <-; apply (reported_frame s); simpl; rewrite ?Ep; try done; by left end).
  - injection E as <-. by apply reported_begin.
  - injection E as <-. destruct (reported_open_failure (cannot_open (source_name src) exc) s H Hp) as (E1 & E2 & o & E3 & E4).
    split; [exact E1 | exists o; exact (conj E3 E4) | simpl; by rewrite E2 | done].
  - injection E as <-. by apply reported_slept.
  - destruct (stop s); [| done]. injection E as <-. by apply reported_slept.
  - destruct reader; [done |]. injection E as <-. apply (reported_session s); simpl; rewrite ?Ep; done.
  - destruct reader; [done |]. injection E as <-. apply (reported_session s); simpl; rewrite ?Ep; done.
  - destruct d; [| done]. injection E as <-. destruct r as [u|e]; [| by apply reported_raised].
    apply (reported_session s); simpl; rewrite ?Ep; done.
  - destruct d; [| done]. injection E as <-. by apply reported_fails.
  - destruct d; [| done]. destruct (stop s); [| done]. injection E as <-. apply (reported_session s); simpl; rewrite ?Ep; done.
  - destruct d; [done |]. injection E as <-. by apply reported_watch.
  - injection E as <-. by apply reported_closed.
  - injection E as <-. apply (reported_frame s); simpl; rewrite ?Ep; done.
  - injection E as <-. apply (reported_frame s); simpl; rewrite ?Ep; done.
  - injection E as <-. apply (reported_session s); simpl; rewrite ?Ep; done.
Qed.

Lemma reported_run evs : forall s s', reported s -> run s evs = Some s' -> reported s'.
Proof.
  induction evs as [|ev evs IH]; intros s s' H; cbn [run]; [by intros [= <-] |].
  destruct (step s ev) as [s1|] eqn:E; [| done]. simpl. apply IH. by eapply reported_step.
Qed.

(** *** Which outages are told *)

(** The distinct ones, in order of their first occurrence. *)
Definition firsts (l : list bytes) : list bytes := foldl (fun acc r => if bool_decide (r ∈ acc) then acc else acc ++ [r]) [] l.

(** What was published since the last connection, and the failures to open since the last opening. *)
Definition since (ps : list Published) : list Published :=
  foldl (fun acc p => match p with Connected _ => [] | p => acc ++ [p] end) [] ps.
Definition failures (evs : list Event) : list bytes :=
  foldl (fun acc ev => match ev with
                       | Opened _ _ => []
                       | OpenFailed src exc => acc ++ [cannot_open (source_name src) exc]
                       | _ => acc
                       end) [] evs.
Definition opened (evs : list Event) : list bytes := omap (fun ev => match ev with Opened src _ => Some (source_name src) | _ => None end) evs.
Definition connections (ps : list Published) : list bytes := omap (fun p => match p with Connected name => Some name | _ => None end) ps.

(** What is said of an outage with these failures: of the first one, before any connection, that
    the receiver is down, with the first reason, then each new reason; of one after a session its
    failure, if it failed, that the receiver is down, with the same reason, and each reason to come
    but the first. *)
Definition outage (never : bool) (rs : list bytes) (ps : list Published) : Prop :=
  if never then ps = match firsts rs with [] => [] | r :: rest => Disconnected r :: map Error rest end
  else exists (failed : bool) reason, ps = (if failed then [Error reason] else []) ++ Disconnected reason :: map Error (tail (firsts rs)).

(** What is said of a session by the time it stands in a phase. *)
Definition session_said (p : Phase) : list Published := match p with Closing reason _ true _ => [Error reason] | _ => [] end.

Lemma firsts_snoc l r : firsts (l ++ [r]) = if bool_decide (r ∈ firsts l) then firsts l else firsts l ++ [r].
Proof. unfold firsts. by rewrite foldl_snoc. Qed.

Lemma firsts_in l r : r ∈ firsts l <-> r ∈ l.
Proof.
  induction l as [|x l IH] using rev_ind; [done |]. rewrite firsts_snoc, elem_of_app, list_elem_of_singleton, <- IH.
  case_bool_decide as Hx; [split; [tauto | by intros [? | ->]] | by rewrite elem_of_app, list_elem_of_singleton].
Qed.

Lemma firsts_nil l : firsts l = [] <-> l = [].
Proof.
  split; [| by intros ->]. destruct l as [|x l]; [done |]. intros E. exfalso.
  assert (H : x ∈ firsts (x :: l)) by (apply firsts_in; by left). rewrite E in H. by inversion H.
Qed.

Lemma since_snoc ps p : since (ps ++ [p]) = match p with Connected _ => [] | p => since ps ++ [p] end.
Proof. unfold since. by rewrite foldl_snoc. Qed.

Record tells (evs : list Event) (s : Supervisor) : Prop := mkTells {
  tl_phase : connected s = in_session (phase s);
  tl_names : connections (published s) = opened evs;
  tl_up : connected s = true -> failures evs = [] /\ opened evs <> [] /\ since (published s) = session_said (phase s);
  tl_down : connected s = false -> open_failures s = list_to_set (failures evs)
    /\ down_reported s = negb (bool_decide (opened evs = [] /\ failures evs = []))
    /\ outage (bool_decide (opened evs = [])) (failures evs) (since (published s))
}.

Lemma tells_failed evs src exc s : tells evs s -> phase s = Opening -> let reason := cannot_open (source_name src) exc in
  tells (evs ++ [OpenFailed src exc]) (backoff_sleep (retry_s src) (_report_open_failure reason s)).
Proof.
  intros [H1 H2 _ H4] Ep reason. rewrite Ep in H1. cbn in H1. destruct (H4 H1) as (Ho & Hd & Hs).
  assert (Ef : failures (evs ++ [OpenFailed src exc]) = failures evs ++ [reason]) by (unfold failures; by rewrite foldl_snoc).
  assert (En : opened (evs ++ [OpenFailed src exc]) = opened evs) by (unfold opened; rewrite omap_app; apply app_nil_r).
  assert (Hne : bool_decide (opened evs = [] /\ failures evs ++ [reason] = []) = false)
    by (apply bool_decide_eq_false_2; intros [_ E]; by destruct (failures evs)).
  assert (Hset : {[reason]} ∪ open_failures s = list_to_set (failures evs ++ [reason])) by (rewrite Ho, list_to_set_app_L; set_solver).
  unfold _report_open_failure. destruct (decide (reason ∈ open_failures s)) as [Hin|Hin]; [rewrite bool_decide_eq_true_2 by done | rewrite bool_decide_eq_false_2 by done].
  { (* said before *)
    assert (Hl : reason ∈ failures evs) by (rewrite Ho in Hin; by apply elem_of_list_to_set in Hin).
    split; rewrite ?Ef, ?En; try done; [cbn; congruence |]. intros _.
    cbn [open_failures down_reported published backoff_sleep wait]. split_and!.
    - rewrite <- Hset. set_solver.
    - rewrite Hne, Hd. apply negb_true_iff, bool_decide_eq_false_2. intros [_ E]. rewrite E in Hl. by inversion Hl.
    - assert (Efs : firsts (failures evs ++ [reason]) = firsts (failures evs))
        by (rewrite firsts_snoc; by rewrite bool_decide_eq_true_2 by (by apply firsts_in)).
      unfold outage in *. by rewrite Efs. }
  assert (Hl : ~ reason ∈ firsts (failures evs)) by (rewrite firsts_in; intros H; apply Hin; rewrite Ho; by apply elem_of_list_to_set).
  assert (Efs : firsts (failures evs ++ [reason]) = firsts (failures evs) ++ [reason])
    by (rewrite firsts_snoc; by rewrite bool_decide_eq_false_2).
  assert (Hempty : open_failures s = ∅ <-> failures evs = []).
  { rewrite Ho. split; [| by intros ->]. destruct (failures evs) as [|x l]; [done |]. cbn. set_solver. }
  cbn zeta. rewrite Hd. destruct (decide (opened evs = [])) as [E0|E0].
  - rewrite E0, bool_decide_eq_true_2 in Hs by done. unfold outage in Hs.
    assert (Hne' : bool_decide (open_failures s = ∅) = bool_decide (failures evs = [])) by (by apply bool_decide_ext).
    destruct (decide (failures evs = [])) as [Ef0|Hf];
      [rewrite (bool_decide_eq_true_2 (opened evs = [] /\ _)) by done | rewrite (bool_decide_eq_false_2 (opened evs = [] /\ _)) by tauto]; cbn [negb andb].
    + split; rewrite ?Ef, ?En, ?E0; cbn [connected phase]; try done; try (cbn; congruence).
      * cbn. unfold connections in *. rewrite omap_app, H2, E0. done.
      * intros _. cbn [open_failures down_reported published publish set_down backoff_sleep wait]. split_and!; [done | by rewrite E0 in Hne; rewrite Hne |].
        rewrite bool_decide_eq_true_2 by done. unfold outage. by rewrite since_snoc, Hs, Efs, Ef0.
    + rewrite Hne', bool_decide_eq_false_2 by done. cbn [negb andb].
      split; rewrite ?Ef, ?En, ?E0; cbn [connected phase]; try done; try (cbn; congruence).
      * cbn. unfold connections in *. rewrite omap_app, H2, E0. done.
      * intros _. cbn [open_failures down_reported published publish set_down backoff_sleep wait]. split_and!; [done | by rewrite E0 in Hne; rewrite Hne |].
        rewrite bool_decide_eq_true_2 by done. unfold outage. rewrite since_snoc, Hs, Efs.
        destruct (firsts (failures evs)) as [|r l] eqn:E; [by destruct Hf; apply firsts_nil |]. cbn. by rewrite map_app.
  - rewrite (bool_decide_eq_false_2 (opened evs = [])) in Hs by done. unfold outage in Hs. destruct Hs as (failed & why & Hs).
    rewrite (bool_decide_eq_false_2 (opened evs = [] /\ failures evs = [])) by tauto. cbn [negb andb].
    destruct (decide (failures evs = [])) as [Ef0|Ef0].
    + rewrite bool_decide_eq_true_2 by tauto. cbn [negb]. split; rewrite ?Ef, ?En; cbn [connected phase]; try done; try (cbn; congruence).
      intros _. cbn [open_failures down_reported published set_down backoff_sleep wait]. split_and!; [done | by rewrite Hne |].
      rewrite bool_decide_eq_false_2 by done. exists failed, why. by rewrite Hs, Efs, Ef0.
    + rewrite bool_decide_eq_false_2 by tauto. cbn [negb]. split; rewrite ?Ef, ?En; cbn [connected phase]; try done; try (cbn; congruence).
      * cbn. unfold connections in *. rewrite omap_app, H2. apply app_nil_r.
      * intros _. cbn [open_failures down_reported published publish set_down backoff_sleep wait]. split_and!; [done | by rewrite Hne |].
        rewrite bool_decide_eq_false_2 by done. exists failed, why. rewrite since_snoc, Hs, Efs.
        destruct (firsts (failures evs)) as [|r l] eqn:E; [by destruct Ef0; apply firsts_nil |]. cbn. by rewrite map_app, <- app_assoc.
Qed.

Lemma tells_opened evs src now s : tells evs s -> phase s = Opening -> tells (evs ++ [Opened src now]) (begin_session src now s).
Proof.
  intros [H1 H2 _ H4] Ep. rewrite Ep in H1. assert (Hn : opened (evs ++ [Opened src now]) <> []) by (unfold opened; rewrite omap_app; by destruct (omap _ evs)).
  assert (Hp : published (begin_session src now s) = published s ++ [Connected (source_name src)]) by (unfold begin_session; by destruct configures).
  assert (Hc : connected (begin_session src now s) = true) by (unfold begin_session; by destruct configures).
  split.
  - unfold begin_session. by destruct configures.
  - rewrite Hp. unfold connections, opened in *. by rewrite !omap_app, H2.
  - intros _. split; [unfold failures; by rewrite foldl_snoc |]. split; [exact Hn |]. rewrite Hp, since_snoc. unfold begin_session. by destruct configures.
  - congruence.
Qed.

(** An event that is no end of an opening. *)
Definition between (ev : Event) : Prop := match ev with Opened _ _ | OpenFailed _ _ => False | _ => True end.

Lemma between_same evs ev : between ev -> failures (evs ++ [ev]) = failures evs /\ opened (evs ++ [ev]) = opened evs.
Proof.
  intros H. unfold failures, opened. rewrite foldl_snoc, omap_app. destruct ev; try done; by rewrite app_nil_r.
Qed.

(** What says nothing, or errors within a session, or the end of one. *)
Lemma tells_quiet evs ev s s' : tells evs s -> between ev -> published s' = published s -> connected s' = connected s ->
  down_reported s' = down_reported s -> open_failures s' = open_failures s -> in_session (phase s') = in_session (phase s) ->
  session_said (phase s') = session_said (phase s) -> tells (evs ++ [ev]) s'.
Proof.
  intros [H1 H2 H3 H4] Hb E1 E2 E3 E4 E5 E6. destruct (between_same evs ev Hb) as [Ef En]. split; rewrite ?E1, ?E2, ?E3, ?E4, ?E5, ?E6, ?Ef, ?En; done.
Qed.

Lemma tells_fails evs ev reason fatal s : tells evs s -> between ev -> (exists src d reader, phase s = InSession src d reader) -> tells (evs ++ [ev]) (fails reason fatal s).
Proof.
  intros [H1 H2 H3 H4] Hb (src & d & reader & E). rewrite E in H1, H3. cbn in H1. destruct (between_same evs ev Hb) as [Ef En]. destruct (H3 H1) as (F1 & F2 & F3).
  split; rewrite ?Ef, ?En; cbn; try done; try congruence.
  - unfold connections in *. by rewrite omap_app, H2, app_nil_r.
  - intros _. split_and!; [done | done |]. by rewrite since_snoc, F3.
Qed.

Lemma tells_closed evs reason ended failed fatal s : tells evs s -> phase s = Closing reason ended failed fatal ->
  tells (evs ++ [Closed]) (closed reason ended failed fatal s).
Proof.
  intros [H1 H2 H3 H4] E. rewrite E in H1, H3. destruct (between_same evs Closed I) as [Ef En]. destruct (H3 H1) as (F1 & F2 & F3).
  unfold closed. set (s1 := publish _ _).
  assert (Hr : forall s', published s' = published s1 -> connected s' = false -> down_reported s' = true -> open_failures s' = ∅ ->
      in_session (phase s') = false -> tells (evs ++ [Closed]) s').
  { intros s' E1 E2 E3 E4 E5. split; rewrite ?Ef, ?En, ?E1, ?E2, ?E3, ?E4, ?E5; try done.
    - cbn. unfold connections in *. by rewrite omap_app, H2, app_nil_r.
    - intros _. rewrite F1. split; [done |]. rewrite !bool_decide_eq_false_2 by tauto. split; [done |].
      exists failed, reason. cbn. rewrite since_snoc, F3. by destruct failed. }
  destruct fatal as [f|]; [by apply Hr |]. destruct (ended || stop s1); [by apply Hr |]. destruct failed; [by apply Hr |].
  unfold loop. by destruct (stop s1); apply Hr.
Qed.

Lemma tells_raised evs ev e text s : tells evs s -> between ev -> (exists src d reader, phase s = InSession src d reader) -> tells (evs ++ [ev]) (raised e text s).
Proof. intros H Hb E. unfold raised. destruct e; by apply tells_fails. Qed.

Lemma tells_slept evs ev fixed s : tells evs s -> between ev -> phase s = Sleeping fixed -> tells (evs ++ [ev]) (slept fixed s).
Proof. intros H Hb E. apply (tells_quiet evs ev s); rewrite ?E; try done; unfold slept, loop; destruct fixed; cbn; by destruct (stop s). Qed.

Lemma tells_step evs s ev s' : tells evs s -> step s ev = Some s' -> tells (evs ++ [ev]) s'.
Proof.
  intros H E. unfold step in E.
  destruct ev as [src now|src exc| | |now|exc|r text|text| |now| | |]; destruct (phase s) as [|fixed|src' d reader|reason ended failed fatal| |f] eqn:Ep;
    try done; try (destruct reader; done); try (destruct d; done);
    try (assert (Hin : exists src d reader, phase s = InSession src d reader) by (by rewrite Ep; do 3 eexists));
    try (lazymatch type of E with Some (set_stop _) = _ => injection E as <-; apply (tells_quiet evs Stop s); simpl; by rewrite ?Ep end);
    try (lazymatch type of E with Some (to_phase _ _) = _ => injection E as <-; apply (tells_quiet evs _ s); simpl; by rewrite ?Ep end).
  - injection E as <-. by apply tells_opened.
  - injection E as <-. by apply tells_failed.
  - injection E as <-. by apply tells_slept.
  - destruct (stop s); [| done]. injection E as <-. by apply tells_slept.
  - destruct reader; [done |]. injection E as <-. apply (tells_quiet evs _ s); simpl; by rewrite ?Ep.
  - destruct reader; [done |]. injection E as <-. apply (tells_quiet evs _ s); simpl; by rewrite ?Ep.
  - destruct d; [| done]. injection E as <-. destruct r as [u|e]; [| by apply tells_raised].
    apply (tells_quiet evs _ s); simpl; by rewrite ?Ep.
  - destruct d; [| done]. injection E as <-. by apply tells_fails.
  - destruct d; [| done]. destruct (stop s); [| done]. injection E as <-. apply (tells_quiet evs _ s); simpl; by rewrite ?Ep.
  - destruct d; [done |]. injection E as <-. unfold watch.
    destruct (stop s); [apply (tells_quiet evs _ s); simpl; by rewrite ?Ep |].
    destruct reader as [[]|]; try (by apply tells_fails); [apply (tells_quiet evs _ s); simpl; by rewrite ?Ep |].
    destruct (_ <? _); [by apply tells_fails | by apply (tells_quiet evs _ s)].
  - injection E as <-. by apply tells_closed.
Qed.

Lemma tells_run evs : forall past s s', tells past s -> run s evs = Some s' -> tells (past ++ evs) s'.
Proof.
  induction evs as [|ev evs IH]; intros past s s' H; cbn [run]; [intros [= <-]; by rewrite app_nil_r |].
  destruct (step s ev) as [s1|] eqn:E; [| done]. simpl. intros Hr. pose proof (IH _ _ _ (tells_step _ _ _ _ H E) Hr) as Ht.
  by rewrite <- app_assoc in Ht.
Qed.

(** C31.  However the receiver comes and goes, its connections and outages are told, each once. There
    is one [receiver.connected] for each opening. While a session lasts, nothing was said since but its
    failure, once it failed. When there is none, exactly this was said since the last one began: its
    failure if it failed, one [receiver.disconnected] with the same reason, and one [receiver.error] for
    each distinct reason for which the receiver would not open since, but the first; or, if it never
    opened, one [receiver.disconnected] with the first reason and one [receiver.error] for each further
    one (and nothing before it first fails). The wait before a retry on the ladder stays between the
    bounds; and [run] is over only when it is stopped, when its source was a recording that ended, when
    it is cancelled, or when a strict receiver refuses the profile before any configure has succeeded:
    a daemon that serves is never ended by its receiver. *)
Theorem outages_reported evs s : run new_supervisor evs = Some s ->
  connections (published s) = opened evs
  /\ (connected s = true -> since (published s) = session_said (phase s))
  /\ (connected s = false -> outage (bool_decide (opened evs = [])) (failures evs) (since (published s)))
  /\ connected s = in_session (phase s)
  /\ BACKOFF_MIN <= backoff s <= BACKOFF_MAX
  /\ (phase s = Returned -> stop s = true \/ list.last (published s) = Some (Disconnected SOURCE_ENDED))
  /\ (forall e, phase s = Crashed (Profile e) -> strict = true /\ configured_once s = false).
Proof.
  intros E. destruct (reported_run evs _ _ reported_new E) as [_ _ H4 H5].
  assert (H0 : tells [] new_supervisor) by done. destruct (tells_run evs [] _ _ H0 E) as [T1 T2 T3 T4].
  split_and!; [done | | | done | lia.. | |].
  - intros Hc. by destruct (T3 Hc) as (_ & _ & ?).
  - intros Hc. by destruct (T4 Hc) as (_ & _ & ?).
  - intros Ep. by rewrite Ep in H5.
  - intros e Ep. by rewrite Ep in H5.
Qed.

(** To an observer who knows nothing else, connections and outages alternate, and no reason is given
    twice in one outage. *)
Theorem announcements_alternate evs s : run new_supervisor evs = Some s ->
  exists o, seen Fresh (published s) = Some o /\ (connected s = true <-> o = Up).
Proof.
  intros E. destruct (reported_run evs _ _ reported_new E) as [_ (o & H2 & H3) _ _]. exists o. split; [done |].
  destruct o as [| |said]; [destruct H3 as [-> _] | by rewrite H3 | destruct H3 as [-> _]]; by split.
Qed.

(** ** Stopping *)

(** The steps a stopped supervisor still takes. *)
Definition rank (p : Phase) : nat :=
  match p with Opening => 4 | InSession _ Configuring _ => 3 | InSession _ Watching _ => 2 | Closing _ _ _ _ | Sleeping _ => 1 | Returned | Crashed _ => 0 end.
Definition of_reader (ev : Event) : bool := match ev with Received _ | ReaderStops _ | Stop => true | _ => false end.

Lemma stopped_step s ev s' : stop s = true -> step s ev = Some s' ->
  stop s' = true /\ (rank (phase s') + (if of_reader ev then 0 else 1) <= rank (phase s))%nat.
Proof.
  intros Hs E. unfold step in E.
  destruct ev as [src now|src exc| | |now|exc|r text|text| |now| | |]; destruct (phase s) as [|fixed|src' d reader|reason ended failed fatal| |f] eqn:Ep;
    try done; try (destruct reader; done); try (destruct d; done);
    try (destruct reader; [done |]); try (injection E as <-; simpl; rewrite ?Ep; simpl; split; [done | lia]).
  - injection E as <-. unfold begin_session. destruct configures; simpl; (split; [done | lia]).
  - injection E as <-. simpl. unfold _report_open_failure. destruct (bool_decide _); [split; [done | lia] |]. cbn zeta.
    destruct (negb (down_reported s)); [simpl; split; [done | lia] |]. destruct (negb _); simpl; (split; [done | lia]).
  - injection E as <-. unfold slept, loop. destruct fixed; simpl; rewrite Hs; simpl; (split; [done | lia]).
  - rewrite Hs in E. injection E as <-. unfold slept, loop. destruct fixed; simpl; rewrite Hs; simpl; (split; [done | lia]).
  - destruct d; [| done]. injection E as <-. destruct r as [u|e]; [simpl; split; [done | lia] |]. destruct e; simpl; (split; [done | lia]).
  - destruct d; [| done]. injection E as <-. simpl. split; [done | lia].
  - destruct d; [| done]. rewrite Hs in E. injection E as <-. simpl. split; [done | lia].
  - destruct d; [done |]. injection E as <-. unfold watch. rewrite Hs. simpl. split; [done | lia].
  - injection E as <-. unfold closed. destruct fatal; simpl; [split; [done | lia] |]. rewrite Hs, orb_true_r. simpl. split; [done | lia].
  - injection E as <-. destruct d; simpl; (split; [done | lia]).
Qed.

(** C32.  A supervisor that was told to stop takes at most four more steps of its own, and until it has
    ended one is there to take: the stop itself cuts a wait short, whatever is left of it, and
    abandons a configure; a watch ends at its next turn, a session that closes closes; only an opening
    must end by itself. *)
Theorem stop_ends evs s s' : stop s = true -> run s evs = Some s' ->
  (length (List.filter (fun ev => negb (of_reader ev)) evs) <= 4)%nat /\
  (rank (phase s') = 0%nat \/ exists ev, of_reader ev = false /\ is_Some (step s' ev) /\
    (phase s' <> Opening -> match ev with StopWakes | StopWins | Watch _ | Closed => True | _ => False end)).
Proof.
  intros Hs E. assert (H : forall evs s, stop s = true -> run s evs = Some s' -> stop s' = true /\
    (rank (phase s') + length (List.filter (fun ev => negb (of_reader ev)) evs) <= rank (phase s))%nat).
  { clear. induction evs as [|ev evs IH]; intros s Hs; cbn [run]; [intros [= <-]; simpl; split; [done | lia] |].
    destruct (step s ev) as [s1|] eqn:E; [| done]. cbn [mbind option_bind]. intros Hr.
    destruct (stopped_step _ _ _ Hs E) as [Hs1 H1]. destruct (IH _ Hs1 Hr) as [Hs' H2]. split; [done |]. simpl. destruct (of_reader ev); simpl; lia. }
  destruct (H evs s Hs E) as [Hs' Hn]. split; [assert (rank (phase s) <= 4)%nat by (destruct (phase s) as [| |? []| | |]; simpl; lia); lia |].
  destruct (phase s') as [|fixed|src [] reader|reason ended failed fatal| |f] eqn:Ep; [right.. | by left | by left].
  - exists (Opened (mkSource [] None true) 0). split_and!; [done | unfold step; rewrite Ep; by eexists | done].
  - exists StopWakes. split_and!; [done | unfold step; rewrite Ep, Hs'; by eexists | done].
  - exists StopWins. split_and!; [done | unfold step; rewrite Ep, Hs'; by eexists | done].
  - exists (Watch 0). split_and!; [done | unfold step; rewrite Ep; by eexists | done].
  - exists Closed. split_and!; [done | unfold step; rewrite Ep; by eexists | done].
Qed.
End Supervisor.

(** ** A run: a device that is busy, connects, is unplugged, is missed, and comes back *)

Definition usb : Source := mkSource (str "serial:/dev/ttyACM0") None false.
Definition unplugged : list Event :=
  [OpenFailed usb (str "busy"); Slept; OpenFailed usb (str "busy"); Slept; Opened usb 0; ConfigureDone (Ret tt) []; Received 10; ReaderStops None; Watch 20;
   Closed; Slept; OpenFailed usb (str "no such device"); Slept; OpenFailed usb (str "denied"); Slept; Opened usb 90].
Definition back_again : Supervisor := default new_supervisor (run true true 5000 (str "5") new_supervisor unplugged).

(** The end of [unplugged] without its last opening: two reasons, of which the drop covers the first. *)
Definition still_missing : Supervisor := default new_supervisor (run true true 5000 (str "5") new_supervisor (take 15 unplugged)).

Lemma outages_reported_witness : length (published back_again) = 6%nat /\ waited back_again = [1000; 2000; 1000; 2000; 4000]
  /\ failures (take 15 unplugged) = [cannot_open (str "serial:/dev/ttyACM0") (str "no such device"); cannot_open (str "serial:/dev/ttyACM0") (str "denied")]
  /\ connections (published still_missing) = opened (take 15 unplugged)
  /\ (connected still_missing = true -> since (published still_missing) = session_said (phase still_missing))
  /\ (connected still_missing = false ->
      outage (bool_decide (opened (take 15 unplugged) = [])) (failures (take 15 unplugged)) (since (published still_missing)))
  /\ connected still_missing = in_session (phase still_missing)
  /\ BACKOFF_MIN <= backoff still_missing <= BACKOFF_MAX
  /\ (phase still_missing = Returned -> stop still_missing = true \/ list.last (published still_missing) = Some (Disconnected SOURCE_ENDED))
  /\ (forall e, phase still_missing = Crashed (Profile e) -> true = true /\ configured_once still_missing = false).
Proof.
  split; [vm_compute; reflexivity |]. split; [vm_compute; reflexivity |]. split; [vm_compute; reflexivity |].
  apply (outages_reported true true 5000 (str "5") (take 15 unplugged) still_missing). vm_compute. reflexivity.
Defined.

Definition stopping : list Event := [Received 100; StopWins; Closed].
Definition told : Supervisor := set_stop back_again.
Definition ended_ : Supervisor := default told (run true true 5000 (str "5") told stopping).

Lemma stop_ends_witness : phase ended_ = Returned /\ (length (List.filter (fun ev => negb (of_reader ev)) stopping) <= 4)%nat /\
  (rank (phase ended_) = 0%nat \/ exists ev, of_reader ev = false /\ is_Some (step true true 5000 (str "5") ended_ ev) /\
    (phase ended_ <> Opening -> match ev with StopWakes | StopWins | Watch _ | Closed => True | _ => False end)).
Proof.
  split; [vm_compute; reflexivity |].
  apply (stop_ends true true 5000 (str "5") stopping told ended_); vm_compute; reflexivity.
Defined.
