(* ===== verification/Replay.v ===== *)
(** * Replaying a recording ([core/source.py], [FileReplaySource])

    The file is a list of bytes; a read of it gives as many as asked for, unless fewer are left. The
    source's [read] is a function of its state, with the sleeps it makes. *)

From S2P Require Import Prelude.
From S2P Require Import PyBytes.
From S2P Require Import Checksums.
From S2P Require Import Framing.
From S2P Require Import Frames.
From S2P Require Import UbxConfig.

Definition NAV_PVT : Z * Z := (0x01, 0x07).
Definition NAV_EOE : Z * Z := (0x01, 0x61).
Definition HOST_CHUNK : nat := Z.to_nat 1024.
Definition REPLAY_READ : nat := Z.to_nat 65536.
Definition MAX_REPLAY_CHUNK : Z := 262144.
Definition FRAMELESS_READS_PER_YIELD : nat := 16.
Definition REPLAY_HEAD_SCAN : nat := Z.to_nat 65536.
Definition EOE_HEAD : bytes := [0xB5; 0x62; 0x01; 0x61; 4; 0].
(** [Framer()]'s own cap. *)
Definition MAX_BUFFER : Z := 1048576.

(** A sleep: none (it only yields), the time between two epochs, or of bytes on a line, all
    divided by the speed. *)
Inductive Sleep := Yield | Between (ms : Z) | OnLine (n : Z).

(** [paced]: the speed is positive. *)
Record Options := mkOptions { paced : bool; looped : bool; host : bool }.

Record Replay := mkReplay {
  opened : bool; pos : nat; framer : Framer; pending : list Frame; eof : bool; marker_eoe : bool; eoe_since_pvt : bool;
  last_itow : option Z; frames : Z; slept : list Sleep
}.

Section Replay.
Context (file : bytes) (o : Options).

Definition new_replay : Replay := mkReplay false 0 (new_framer MAX_BUFFER) [] false false false None 0 [].

Definition set_frames (p : list Frame) (n : Z) (s : Replay) : Replay :=
  mkReplay (opened s) (pos s) (framer s) p (eof s) (marker_eoe s) (eoe_since_pvt s) (last_itow s) n (slept s).
Definition set_read (n : nat) (fr : Framer) (p : list Frame) (s : Replay) : Replay :=
  mkReplay (opened s) n fr p (eof s) (marker_eoe s) (eoe_since_pvt s) (last_itow s) (frames s) (slept s).
Definition set_eof (s : Replay) : Replay :=
  mkReplay (opened s) (pos s) (framer s) (pending s) true (marker_eoe s) (eoe_since_pvt s) (last_itow s) (frames s) (slept s).
Definition set_eoe (b : bool) (s : Replay) : Replay :=
  mkReplay (opened s) (pos s) (framer s) (pending s) (eof s) (marker_eoe s) b (last_itow s) (frames s) (slept s).
Definition sleep (d : Sleep) (s : Replay) : Replay :=
  mkReplay (opened s) (pos s) (framer s) (pending s) (eof s) (marker_eoe s) (eoe_since_pvt s) (last_itow s) (frames s) (slept s ++ [d]).
Definition set_itow (t : Z) (s : Replay) : Replay :=
  mkReplay (opened s) (pos s) (framer s) (pending s) (eof s) (marker_eoe s) (eoe_since_pvt s) (Some t) (frames s) (slept s).

(** [file.read(n)] at [p]. *)
Definition file_read (n p : nat) : bytes := take n (drop p file).

(** ** [open] *)

Definition eoe_size : nat := length EOE_HEAD + 4 + 2.

(** The search of a window for a frame with its checksum, from [at_]; [None]: no more heads. *)
Fixpoint eoe_in (fuel : nat) (window : bytes) (at_ : nat) : bool :=
  match fuel with
  | O => false
  | S fuel =>
      match bfind EOE_HEAD (drop at_ window) with
      | None => false
      | Some i =>
          let k := (at_ + i)%nat in
          if (k + eoe_size <=? length window)%nat then
            let frame := slice k (k + eoe_size) window in
            if bool_decide (drop (eoe_size - 2) frame = ubx_checksum (slice 2 (eoe_size - 2) frame)) then true else eoe_in fuel window (S k)
          else false
      end
  end.

(** [_has_nav_eoe]; [left]: the bytes still to look at. *)
Fixpoint head_scan (fuel : nat) (left p : nat) (tail_ : bytes) : bool :=
  match fuel with
  | O => false
  | S fuel =>
      if (left =? 0)%nat then false
      else
        match file_read (Nat.min REPLAY_READ left) p with
        | [] => false
        | data =>
            let window := tail_ ++ data in
            if eoe_in (S (length window)) window 0 then true
            else head_scan fuel (left - length data) (p + length data) (drop (length window - (eoe_size - 1)) window)
        end
  end.
Definition _has_nav_eoe : bool := head_scan (S REPLAY_HEAD_SCAN) REPLAY_HEAD_SCAN 0 [].

Definition _rewind (s : Replay) : Replay :=
  mkReplay (opened s) 0 (new_framer MAX_BUFFER) [] false (marker_eoe s) (marker_eoe s) None 0 (slept s).

Definition close (s : Replay) : Replay :=
  mkReplay false (pos s) (new_framer MAX_BUFFER) [] (eof s) (marker_eoe s) (eoe_since_pvt s) (last_itow s) (frames s) (slept s).

Definition open (s : Replay) : Replay :=
  let s := close s in
  if host o then mkReplay true 0 (framer s) (pending s) (eof s) (marker_eoe s) (eoe_since_pvt s) (last_itow s) (frames s) (slept s)
  else _rewind (mkReplay true 0 (framer s) (pending s) (eof s) _has_nav_eoe (eoe_since_pvt s) (last_itow s) (frames s) (slept s)).

(** ** [read] *)

(** The reads of [_next_frame]: until frames are pending or the file is over. *)
Fixpoint fill (fuel frameless : nat) (s : Replay) : Replay :=
  match pending s, fuel with
  | [], S fuel =>
      if eof s || negb (opened s) then s
      else
        match file_read REPLAY_READ (pos s) with
        | [] => set_eof s
        | data =>
            let '(fr, fs) := framer_feed data (framer s) in
            let s := set_read (pos s + length data) fr fs s in
            match fs with
            | [] => if (FRAMELESS_READS_PER_YIELD <=? S frameless)%nat then fill fuel 0 (sleep Yield s) else fill fuel (S frameless) s
            | _ => s
            end
        end
  | _, _ => s
  end.

(** [_next_frame]: every read but the last gives a byte, so the fuel is enough. *)
Definition _next_frame (s : Replay) : Replay * option Frame :=
  let s := fill (S (length file)) 0 s in
  match pending s with
  | [] => (s, None)
  | f :: r => (set_frames r (frames s + 1) s, Some f)
  end.

Definition itow_of (raw : bytes) : Z := le_int (slice 6 10 raw).

Definition _pace (itow : Z) (s : Replay) : Replay :=
  let s := match last_itow s with
           | Some last => let delta := itow - last in if paced o && (0 <? delta) && (delta <? 60000) then sleep (Between delta) s else s
           | None => s
           end in
  set_itow itow s.

(** The loop of [read]: the chunk, and whether an epoch's marker ended it. *)
Fixpoint gather (fuel : nat) (chunk : bytes) (rewound : bool) (s : Replay) : Replay * bytes * bool :=
  match fuel with
  | O => (s, chunk, false)
  | S fuel =>
      let full := match chunk with [] => false | _ => true end in
      match _next_frame s with
      | (s, None) =>
          if full || negb (looped o) || rewound || negb (opened s) then (s, chunk, false) else gather fuel chunk true (_rewind s)
      | (s, Some f) =>
          if full && (MAX_REPLAY_CHUNK <? len chunk + len (raw f)) then (set_frames (f :: pending s) (frames s - 1) s, chunk, false)
          else
            let chunk := chunk ++ raw f in
            if negb (bool_decide (proto f = UBX)) then gather fuel chunk rewound s
            else if bool_decide (ubx_class_id f = Some NAV_EOE) then (_pace (itow_of (raw f)) (set_eoe true s), chunk, true)
            else if bool_decide (ubx_class_id f = Some NAV_PVT) then
              let s := _pace (itow_of (raw f)) s in
              let ends_epoch := negb (eoe_since_pvt s) in
              let s := set_eoe false s in
              if ends_epoch then (s, chunk, true) else gather fuel chunk rewound s
            else gather fuel chunk rewound s
      end
  end.

(** A bound on the frames to come in this pass. *)
Definition budget (s : Replay) : nat := length (pending s) + length (fbuf (framer s)) + (length file - pos s).

Definition _read_host (s : Replay) : Replay * bytes :=
  if negb (opened s) then (s, [])
  else
    let at_ p := set_read (p + length (file_read HOST_CHUNK p)) (framer s) (pending s) s in
    match file_read HOST_CHUNK (pos s) with
    | [] =>
        if negb (looped o) then (s, [])
        else
          match file_read HOST_CHUNK 0 with
          | [] => (set_read 0 (framer s) (pending s) s, [])
          | chunk => (sleep (if paced o then OnLine (len chunk) else Yield) (at_ 0%nat), chunk)
          end
    | chunk => (sleep (if paced o then OnLine (len chunk) else Yield) (at_ (pos s)), chunk)
    end.

Definition read (s : Replay) : Replay * bytes :=
  if host o then _read_host s
  else
    let '(s, chunk, marked) := gather (S (S (budget s + length file))) [] false s in
    match chunk with
    | [] => (s, chunk)
    | _ => (if negb (paced o) || negb marked then sleep Yield s else s, chunk)
    end.

(** The chunks of [n] reads. *)
Fixpoint reads (n : nat) (s : Replay) : Replay * list bytes :=
  match n with
  | O => (s, [])
  | S n => let '(s, c) := read s in let '(s, cs) := reads n s in (s, c :: cs)
  end.
End Replay.

Lemma REPLAY_READ_eq : Z.of_nat REPLAY_READ = 65536.
Proof. apply Z2Nat.id. lia. Qed.

Lemma HOST_CHUNK_eq : Z.of_nat HOST_CHUNK = 1024.
Proof. apply Z2Nat.id. lia. Qed.

#[local] Opaque REPLAY_READ HOST_CHUNK REPLAY_HEAD_SCAN.

Lemma file_read_drop file n p : drop p file = file_read file n p ++ drop (p + length (file_read file n p)) file.
Proof.
  unfold file_read. rewrite <- drop_drop, length_take. rewrite <- (take_drop n (drop p file)) at 1. f_equal.
  destruct (decide (n <= length (drop p file))%nat); [by rewrite Nat.min_l by lia |]. rewrite Nat.min_r, !drop_ge by lia. done.
Qed.

Lemma file_read_end file n p : (0 < n)%nat -> file_read file n p = [] -> drop p file = [].
Proof. unfold file_read. intros Hn. destruct (drop p file), n; done || lia. Qed.

Lemma file_read_size file n p : (length (file_read file n p) <= n)%nat.
Proof. unfold file_read. rewrite length_take. lia. Qed.

(** ** Logs of whole frames *)

(** An NMEA line the framer keeps whole however it is cut. *)
Definition short (f : Frame) : Prop := proto f = NMEA -> len (raw f) <= NMEA_MAX_LEN.
Definition clean (fs : list Frame) : Prop := Forall (fun f => wire_valid f /\ short f) fs.

Lemma wire_valid_first f : wire_valid f -> (0 < length (raw f))%nat /\ is_sync (raw f).[0] = true.
Proof. intros []; cbn [raw]; split; try done; simpl; lia. Qed.

Lemma wire_valid_clear f : wire_valid f -> short f -> nmea_line_clear (raw f) = true.
Proof.
  intros [cls id payload Hc Hi Hp Hn|payload Hp Hn|body h1 h2 Hok Hi Hn Hm Hf] Hs; [done..|].
  specialize (Hs eq_refl). cbn [raw] in *. unfold nmea_line_clear, NMEA_MAX_LEN in *.
  rewrite (take_ge ([NMEA_START] ++ _)) by lia. rewrite Hf.
  rewrite !length_app in Hs. cbn [length] in Hs. cbn [app]. unfold NMEA_START. cbn iota.
  apply negb_true_iff, orb_false_iff. split; apply Nat.eqb_neq; lia.
Qed.

(** The framer waits for the rest of a frame it has the front of. *)
Lemma front_waits f p q m st : wire_valid f -> short f -> raw f = p ++ q -> q <> [] ->
  framer_iter (mkFramer p m st) = (mkFramer p m st, Stop).
Proof.
  intros Hv Hs E Hq. rewrite framer_iter_eq. cbn [fbuf]. destruct (length p =? 0)%nat eqn:El; [done |]. zbool.
  destruct (wire_valid_first f Hv) as [Hl Hsync]. assert (Hp : is_sync p.[0] = true) by (rewrite E in Hsync; by destruct p).
  rewrite Hp. cbn [negb].
  assert (Hfull : try_first (mkFramer (raw f) m st) = (after_frame (proto f) [] m st, Got f)).
  { pose proof (iter_wire_valid f [] m st Hv) as Hi. rewrite app_nil_r, framer_iter_eq in Hi. cbn [fbuf] in Hi.
    rewrite (proj2 (Nat.eqb_neq _ 0)), Hsync in Hi by lia. cbn [negb] in Hi. unfold step_result in Hi.
    destruct (try_first _) as [s1 []]; [by injection Hi as -> -> | discriminate Hi | discriminate Hi]. }
  pose proof (try_first_push q (mkFramer p m st)) as Hpush. cbn [fbuf] in Hpush. rewrite <- E in Hpush.
  specialize (Hpush ltac:(lia) Hp (wire_valid_clear f Hv Hs)). unfold stable, framer_push in Hpush. cbn [fbuf max_buffer fstats] in Hpush.
  rewrite <- E, Hfull in Hpush. destruct (try_first (mkFramer p m st)) as [s1 r] eqn:Et. cbn [fst snd] in Hpush.
  destruct r as [g| |]; [specialize (Hpush ltac:(done)).. |].
  - injection Hpush as H _. by destruct (fbuf s1), q.
  - done.
  - apply try_first_incomplete in Et. by subst s1.
Qed.

Lemma clean_bytes fs : clean fs -> bytes_ok (flat_map raw fs).
Proof. induction 1 as [|f fs [Hv _] _ IH]; simpl; [constructor | apply Forall_app_2; [by apply wire_valid_bytes | done]]. Qed.

Lemma frame_bounded f : wire_valid f -> len (raw f) <= 8200.
Proof.
  intros [cls id payload Hc Hi Hp Hn|payload Hp Hn|body h1 h2 Hok Hi Hn Hm Hf]; cbn [raw]; unfold UBX_MAX_PAYLOAD in *.
  - rewrite !length_app, length_ubx_checksum. unfold ubx_body. rewrite length_app. cbn [length]. lia.
  - rewrite length_app. unfold rtcm_body, be24. rewrite length_app. cbn [length]. lia.
  - rewrite !length_app. cbn [length]. lia.
Qed.

(** The front of the first of the frames, or nothing. *)
Definition front (r : bytes) (fs : list Frame) : Prop := r = [] \/ exists f fs' q, fs = f :: fs' /\ raw f = r ++ q /\ q <> [].

(** A stream of whole frames, cut anywhere: the whole frames before the cut, and the front of one. *)
Lemma cut_stream fs : forall p e, p ++ e = flat_map raw fs -> exists fs1 fs2 r,
  fs = fs1 ++ fs2 /\ p = flat_map raw fs1 ++ r /\ r ++ e = flat_map raw fs2 /\ front r fs2.
Proof.
  induction fs as [|f fs IH]; intros p e E; simpl in E.
  - apply app_nil in E as [-> ->]. exists [], [], []. split_and!; try done. by left.
  - destruct (decide (length p < length (raw f))%nat) as [Hlt|Hge].
    + exists [], (f :: fs), p. split_and!; [done | done | done | right]. exists f, fs, (drop (length p) (raw f)).
      assert (Hp : take (length p) (raw f) = p).
      { transitivity (take (length p) (raw f ++ flat_map raw fs)); [by rewrite take_app_le by lia |].
        rewrite <- E, take_app_le by lia. apply take_ge. lia. }
      split_and!; [done | by rewrite <- Hp at 1; rewrite take_drop |].
      intros Hn. apply (f_equal length) in Hn. rewrite length_drop in Hn. simpl in Hn. lia.
    + assert (Hp : p = raw f ++ drop (length (raw f)) p).
      { rewrite <- (take_drop (length (raw f)) p) at 1. f_equal.
        transitivity (take (length (raw f)) (p ++ e)); [by rewrite take_app_le by lia |]. rewrite E, take_app_le by lia. apply take_ge. lia. }
      rewrite Hp, <- app_assoc in E. apply app_inv_head in E. destruct (IH _ _ E) as (fs1 & fs2 & r & -> & H1 & H2 & H3).
      exists (f :: fs1), fs2, r. split_and!; try done. simpl. by rewrite <- app_assoc, <- H1.
Qed.

Lemma front_bounded r fs : clean fs -> front r fs -> len r <= 8200 /\ bytes_ok r.
Proof.
  intros Hc [->|(f & fs' & q & -> & E & Hq)]; [split; [simpl; lia | constructor] |]. apply list.Forall_cons in Hc as [[Hv _] _].
  pose proof (frame_bounded f Hv) as Hl. pose proof (wire_valid_bytes f Hv) as Hb. rewrite E in Hl, Hb. rewrite length_app in Hl.
  apply Forall_app in Hb as [Hb _]. split; [lia | done].
Qed.

(** What a feed gives of such a stream. *)
Lemma clean_feed fs r d e m st : clean fs -> r ++ d ++ e = flat_map raw fs -> len (r ++ d) <= m -> exists fs1 fs2 r' st',
  fs = fs1 ++ fs2 /\ framer_feed d (mkFramer r m st) = (mkFramer r' m st', fs1) /\ r' ++ e = flat_map raw fs2 /\ front r' fs2 /\
  r ++ d = flat_map raw fs1 ++ r'.
Proof.
  intros Hc E Hm. rewrite app_assoc in E. destruct (cut_stream fs _ _ E) as (fs1 & fs2 & r' & -> & H1 & H2 & H3).
  exists fs1, fs2, r', (count_frames fs1 st). split_and!; try done. apply Forall_app in Hc as [Hc1 Hc2].
  destruct (front_bounded r' fs2 Hc2 H3) as [_ Hr].
  unfold framer_feed. rewrite framer_cap_small by done. unfold framer_push. cbn [fbuf max_buffer fstats]. rewrite H1.
  rewrite run_wire_valid; [| by eapply List.Forall_impl; [| exact Hc1]; intros ? [] | done].
  rewrite (run_step (L := framer_laws)) by done. cbn [iter framer_incremental].
  assert (Hstop : framer_iter (mkFramer r' m (count_frames fs1 st)) = (mkFramer r' m (count_frames fs1 st), Stop)).
  { destruct H3 as [->|(f & fs' & q & -> & Ef & Hq)]; [done |]. apply list.Forall_cons in Hc2 as [[Hv Hs] _]. by eapply front_waits. }
  rewrite Hstop. by rewrite app_nil_r.
Qed.

(** ** What is still to be replayed *)

Section Lossless.
Context (file : bytes) (o : Options).

(** [fs]: the frames of this pass that no read has given yet. *)
Record replaying (fs : list Frame) (s : Replay) : Prop := mkReplaying {
  ry_open : opened s = true;
  ry_clean : clean fs;
  ry_left : exists fs', fs = pending s ++ fs' /\ fbuf (framer s) ++ drop (pos s) file = flat_map raw fs' /\ front (fbuf (framer s)) fs';
  ry_max : max_buffer (framer s) = MAX_BUFFER;
  ry_eof : eof s = true -> drop (pos s) file = []
}.

Lemma replaying_frame fs s s' : opened s' = opened s -> pending s' = pending s -> framer s' = framer s -> pos s' = pos s -> eof s' = eof s ->
  replaying fs s -> replaying fs s'.
Proof. intros E1 E2 E3 E4 E5 [H1 H2 H3 H4 H5]. split; by rewrite ?E1, ?E2, ?E3, ?E4, ?E5. Qed.

Lemma replaying_end fs s : replaying fs s -> pending s = [] -> drop (pos s) file = [] -> fs = [].
Proof.
  intros [_ Hc (fs0 & Efs & E & Hf) _ _] Ep Hd. rewrite Ep in Efs. simpl in Efs. subst fs0. rewrite Hd, app_nil_r in E.
  destruct fs as [|f fs]; [done |].
  apply list.Forall_cons in Hc as [[Hv _] _]. destruct (wire_valid_first f Hv) as [Hl _]. apply (f_equal length) in E. simpl in E. rewrite length_app in E.
  destruct Hf as [Hf|(g & gs & q & [= <- <-] & Ef & Hq)]; [rewrite Hf in E; simpl in E; lia |].
  rewrite Ef, length_app in E. destruct q; [done | simpl in E; lia].
Qed.

(** [fill] keeps what is to come, and leaves none pending only at the end. *)
Lemma fill_replaying fuel : forall frameless fs s, replaying fs s -> (length file - pos s < fuel)%nat ->
  let s' := fill file fuel frameless s in replaying fs s' /\ (pending s' = [] -> fs = []) /\
  (budget file s' <= budget file s)%nat.
Proof.
  induction fuel as [|fuel IH]; intros frameless fs s H Hf; [lia |]. cbn [fill].
  destruct (pending s) as [|f p] eqn:Ep; [| cbn zeta; split_and!; try done; by rewrite Ep].
  pose proof (replaying_end fs s H Ep) as Hend. rewrite (ry_open _ _ H), orb_false_r.
  destruct (eof s) eqn:Ee; [split_and!; [done | intros _; apply Hend, (ry_eof _ _ H Ee) | done] |].
  pose proof (file_read_drop file REPLAY_READ (pos s)) as Hdrop. pose proof (file_read_size file REPLAY_READ (pos s)) as Hsize.
  pose proof REPLAY_READ_eq as Hrr. destruct (file_read file REPLAY_READ (pos s)) as [|b data] eqn:Ed.
  - assert (Hd : drop (pos s) file = []) by (apply (file_read_end file REPLAY_READ); [lia | done]).
    split_and!; [| by intros _; apply Hend | done]. destruct H as [H1 H2 H3 H4 H5]. by split.
  - set (d := b :: data) in *. destruct H as [H1 H2 (fs' & -> & E & Hfr) H4 H5]. rewrite Ep in *. simpl in E.
    destruct (framer s) as [r m st] eqn:Efr. cbn [fbuf max_buffer] in *. subst m.
    pose proof H2 as Hcl. rewrite Hdrop in E.
    destruct (clean_feed fs' r d (drop (pos s + length d) file) MAX_BUFFER st) as (fs1 & fs2 & r' & st' & -> & Hfeed & E2 & Hf2 & Hcut); [done | done | |].
    { destruct (front_bounded r fs') as [Hl _]; [done | done |]. assert (len d <= 65536) by lia.
      rewrite length_app. unfold MAX_BUFFER. lia. }
    rewrite Hfeed. set (s1 := set_read _ _ _ s).
    assert (Hs1 : replaying (fs1 ++ fs2) s1).
    { split; [exact H1 | exact H2 | exists fs2; exact (conj eq_refl (conj E2 Hf2)) | reflexivity |]. intros He. cbn [set_read eof s1] in He. congruence. }
    assert (Hb : (budget file s1 <= budget file s)%nat).
    { unfold budget, s1. cbn [pending framer pos set_read fbuf]. rewrite Ep, Efr. cbn [fbuf length].
      apply (f_equal length) in Hcut. rewrite !length_app in Hcut. assert (length fs1 <= length (flat_map raw fs1))%nat; [| ].
      { change (clean (fs1 ++ fs2)) in Hcl. apply Forall_app in Hcl as [Hc1 _]. clear - Hc1. induction Hc1 as [|f fs [Hv _] _ IH]; simpl; [lia |]. rewrite length_app.
        destruct (wire_valid_first f Hv). lia. }
      apply (f_equal length) in Hdrop. rewrite length_app, !length_drop in Hdrop. lia. }
    destruct fs1 as [|f1 fs1]; [| split_and!; [done | done | done]].
    assert (Hp : (length file - pos s1 < fuel)%nat) by (unfold s1, d; cbn [pos set_read length]; apply (f_equal length) in Hdrop; rewrite length_app, !length_drop in Hdrop; simpl in Hdrop; lia).
    assert (Hsl : replaying ([] ++ fs2) (sleep Yield s1)) by (by apply (replaying_frame _ s1)).
    destruct (FRAMELESS_READS_PER_YIELD <=? S frameless)%nat; [destruct (IH 0%nat _ _ Hsl Hp) as (G1 & G2 & G3) | destruct (IH (S frameless) _ _ Hs1 Hp) as (G1 & G2 & G3)];
      (split; [exact G1 |]; split; [exact G2 |]); [change (budget file (sleep Yield s1)) with (budget file s1) in G3 |]; exact (Nat.le_trans _ _ _ G3 Hb).
Qed.

Lemma next_frame_replaying fs s : replaying fs s ->
  match _next_frame file s with
  | (s', None) => fs = [] /\ replaying [] s'
  | (s', Some f) => exists fs', fs = f :: fs' /\ replaying fs' s' /\ (budget file s' < budget file s)%nat /\ replaying fs (set_frames (f :: pending s') (frames s' - 1) s')
  end.
Proof.
  intros H. unfold _next_frame. destruct (fill_replaying (S (length file)) 0 fs s H) as (H1 & H2 & H3); [lia |]. cbn zeta.
  set (s1 := fill file (S (length file)) 0 s) in *. clearbody s1. destruct (pending s1) as [|f p] eqn:Ep.
  - specialize (H2 eq_refl). by subst fs.
  - pose proof H1 as Hr. destruct H1 as [G1 G2 (fs0 & -> & G3) G4 G5]. rewrite Ep. exists (p ++ fs0). split; [done |].
    split; [split; [exact G1 | | exists fs0; exact (conj eq_refl G3) | exact G4 | exact G5] |].
    { rewrite Ep in G2. by apply list.Forall_cons in G2 as [_ G2]. }
    split; [unfold budget in *; cbn [set_frames pending framer pos]; rewrite Ep in H3; simpl in H3; lia |].
    rewrite Ep in G2. split; [exact G1 | exact G2 | exists fs0; exact (conj eq_refl G3) | exact G4 | exact G5].
Qed.

(** ** The chunks *)

Context (all : list Frame) (Hall : clean all) (Hfile : file = flat_map raw all).

Lemma rewind_replaying s : opened s = true -> replaying all (_rewind s).
Proof.
  intros Ho. split; [exact Ho | exact Hall | | reflexivity | discriminate]. exists all. split; [done |]. cbn [_rewind framer new_framer fbuf pos].
  rewrite drop_0. split; [exact Hfile | by left].
Qed.

Lemma pace_frame t s : opened (_pace o t s) = opened s /\ pending (_pace o t s) = pending s /\ framer (_pace o t s) = framer s /\
  pos (_pace o t s) = pos s /\ eof (_pace o t s) = eof s.
Proof. unfold _pace. destruct (last_itow s); [| done]. cbn zeta. by destruct (paced o && _ && _). Qed.

Lemma pace_replaying fs t b s : replaying fs s -> replaying fs (_pace o t (set_eoe b s)) /\ replaying fs (set_eoe b (_pace o t s)).
Proof.
  intros H. split.
  - destruct (pace_frame t (set_eoe b s)) as (E1 & E2 & E3 & E4 & E5). by apply (replaying_frame fs s).
  - destruct (pace_frame t s) as (E1 & E2 & E3 & E4 & E5). by apply (replaying_frame fs s).
Qed.

(** What a chunk is, of the frames to come: their bytes up to some place, once more from the start
    when a looped replay was at the end; it is empty only if there are none, and no longer than
    the cap. *)
Definition chunk_of (chunk : bytes) (rewound : bool) (fs : list Frame) (chunk' : bytes) (fs' : list Frame) : Prop :=
  (chunk' ++ flat_map raw fs' = chunk ++ flat_map raw fs \/
   chunk = [] /\ fs = [] /\ looped o = true /\ rewound = false /\ chunk' ++ flat_map raw fs' = file) /\
  (chunk' = [] -> chunk = [] /\ fs = [] /\ (looped o = false \/ rewound = true \/ file = [])) /\ (len chunk <= MAX_REPLAY_CHUNK -> len chunk' <= MAX_REPLAY_CHUNK).

Lemma chunk_of_frame chunk rewound f fs chunk' fs' : wire_valid f -> (len chunk <= MAX_REPLAY_CHUNK -> len (chunk ++ raw f) <= MAX_REPLAY_CHUNK) ->
  chunk_of (chunk ++ raw f) rewound fs chunk' fs' -> chunk_of chunk rewound (f :: fs) chunk' fs'.
Proof.
  intros Hv Hm (H1 & H2 & H3). destruct (wire_valid_first f Hv) as [Hl _].
  assert (Hne : chunk ++ raw f <> []) by (intros E; apply (f_equal length) in E; rewrite length_app in E; simpl in E; lia).
  split_and!.
  - destruct H1 as [H1|(Hx & _)]; [left | done]. by rewrite H1, <- app_assoc.
  - intros Hx. by apply H2 in Hx as [Hx _].
  - auto.
Qed.

Definition size_left (rewound : bool) (s : Replay) : nat := budget file s + (if rewound then 0 else S (length file)).

Lemma gather_replaying fuel : forall chunk rewound fs s, replaying fs s -> (size_left rewound s < fuel)%nat ->
  let '(s', chunk', _) := gather file o fuel chunk rewound s in exists fs', replaying fs' s' /\ chunk_of chunk rewound fs chunk' fs'.
Proof.
  induction fuel as [|fuel IH]; intros chunk rewound fs s H Hfuel; [lia |]. cbn [gather]. cbn zeta.
  pose proof (next_frame_replaying fs s H) as Hn. destruct (_next_frame file s) as [s1 [f|]].
  - destruct Hn as (fs1 & -> & H1 & Hb & Hun). pose proof (ry_clean _ _ H) as Hc. apply list.Forall_cons in Hc as [[Hv _] _].
    assert (Hrec : forall s2, replaying fs1 s2 -> (budget file s2 <= budget file s1)%nat -> (len chunk <= MAX_REPLAY_CHUNK -> len (chunk ++ raw f) <= MAX_REPLAY_CHUNK) ->
      let '(s', chunk', _) := gather file o fuel (chunk ++ raw f) rewound s2 in exists fs', replaying fs' s' /\ chunk_of chunk rewound (f :: fs1) chunk' fs').
    { intros s2 H2 Hb2 Hm. specialize (IH (chunk ++ raw f) rewound fs1 s2 H2). destruct (gather file o fuel (chunk ++ raw f) rewound s2) as [[s' chunk'] m].
      destruct IH as (fs' & G1 & G2); [unfold size_left in *; lia |]. exists fs'. split; [done | by apply chunk_of_frame]. }
    assert (Hstop : forall s2, replaying fs1 s2 -> (len chunk <= MAX_REPLAY_CHUNK -> len (chunk ++ raw f) <= MAX_REPLAY_CHUNK) ->
      exists fs', replaying fs' s2 /\ chunk_of chunk rewound (f :: fs1) (chunk ++ raw f) fs').
    { intros s2 H2 Hm. exists fs1. split; [done |]. apply chunk_of_frame; [done | done |]. split_and!; [by left | | done].
      intros Hx. apply (f_equal length) in Hx. rewrite length_app in Hx. destruct (wire_valid_first f Hv). simpl in Hx. lia. }
    destruct (match chunk with [] => false | _ => true end && (MAX_REPLAY_CHUNK <? len chunk + len (raw f))) eqn:Efull.
    + exists (f :: fs1). split; [exact Hun |]. split_and!; [by left | | done]. intros ->. discriminate Efull.
    + assert (Hm : len chunk <= MAX_REPLAY_CHUNK -> len (chunk ++ raw f) <= MAX_REPLAY_CHUNK).
      { intros Hm. rewrite length_app. destruct chunk as [|b chunk]; [pose proof (frame_bounded f Hv); unfold MAX_REPLAY_CHUNK; simpl; lia |].
        simpl in Efull. zbool. simpl. lia. }
      destruct (negb (bool_decide (proto f = UBX))); [by apply Hrec |].
      destruct (bool_decide (ubx_class_id f = Some NAV_EOE)); [apply Hstop; [exact (proj1 (pace_replaying _ _ true s1 H1)) | exact Hm] |].
      destruct (bool_decide (ubx_class_id f = Some NAV_PVT)); [| by apply Hrec].
      destruct (pace_frame (itow_of (raw f)) s1) as (E1 & E2 & E3 & E4 & E5).
      destruct (negb (eoe_since_pvt _)); [apply Hstop; [exact (proj2 (pace_replaying _ _ false s1 H1)) | exact Hm] |].
      apply Hrec; [exact (proj2 (pace_replaying _ _ false s1 H1)) | | exact Hm]. unfold budget. cbn [set_eoe pending framer pos]. by rewrite E2, E3, E4.
  - destruct Hn as [-> H1]. destruct chunk as [|b chunk].
    + destruct (negb (looped o)) eqn:El; cbn [orb].
      { exists []. split; [done |]. split_and!; [by left | | done]. intros _. split_and!; [done.. |]. left. by apply negb_true_iff. }
      destruct rewound; cbn [orb]; [exists []; split; [done |]; split_and!; [by left | auto | done] |].
      rewrite (ry_open _ _ H1). cbn [negb orb]. apply negb_false_iff in El.
      specialize (IH [] true all (_rewind s1) (rewind_replaying s1 (ry_open _ _ H1))).
      destruct (gather file o fuel [] true (_rewind s1)) as [[s' chunk'] m]. destruct IH as (fs' & G1 & G2 & G3 & G4).
      { unfold size_left, budget in *. cbn [_rewind pending framer pos new_framer fbuf length]. lia. }
      exists fs'. split; [done |]. destruct G2 as [G2|(_ & _ & _ & ? & _)]; [| done]. cbn [app] in G2. rewrite <- Hfile in G2.
      split_and!; [right; by split_and! | | exact G4]. intros Hx. destruct (G3 Hx) as (_ & Ha & _). split_and!; [done.. |]. right. right. by rewrite Hfile, Ha.
    + exists []. split; [done |]. split_and!; [by left | done | done].
Qed.

(** One [read] of such a replay. *)
Lemma read_replaying fs s : host o = false -> replaying fs s -> let '(s', chunk) := read file o s in
  exists fs', replaying fs' s' /\ len chunk <= MAX_REPLAY_CHUNK /\
  (chunk ++ flat_map raw fs' = flat_map raw fs \/ fs = [] /\ looped o = true /\ chunk ++ flat_map raw fs' = file) /\
  (chunk = [] -> fs = [] /\ (looped o = false \/ file = [])).
Proof.
  intros Hh H. unfold read. rewrite Hh. pose proof (gather_replaying (S (S (budget file s + length file))) [] false fs s H) as Hg.
  destruct (gather file o _ [] false s) as [[s1 chunk] marked]. destruct Hg as (fs' & G1 & G2 & G3 & G4); [unfold size_left; lia |].
  assert (Hc : len chunk <= MAX_REPLAY_CHUNK) by (apply G4; simpl; unfold MAX_REPLAY_CHUNK; lia).
  assert (He : chunk = [] -> fs = [] /\ (looped o = false \/ file = [])) by (intros Hx; destruct (G3 Hx) as (_ & ? & [?|[?|?]]); by auto).
  assert (Hk : chunk ++ flat_map raw fs' = flat_map raw fs \/ fs = [] /\ looped o = true /\ chunk ++ flat_map raw fs' = file)
    by (destruct G2 as [?|(_ & ? & ? & _ & ?)]; auto).
  assert (Hr : forall s2, replaying fs' s2 -> exists fs'0, replaying fs'0 s2 /\ len chunk <= MAX_REPLAY_CHUNK /\
    (chunk ++ flat_map raw fs'0 = flat_map raw fs \/ fs = [] /\ looped o = true /\ chunk ++ flat_map raw fs'0 = file) /\
    (chunk = [] -> fs = [] /\ (looped o = false \/ file = []))) by (intros s2 H2; by exists fs').
  destruct chunk as [|b chunk]; [by apply Hr |]. destruct (negb (paced o) || negb marked); [| by apply Hr]. apply Hr. by apply (replaying_frame fs' s1).
Qed.
End Lossless.

(** ** All the reads *)

Section Drain.
Context (file : bytes) (o : Options) (R : bytes -> Replay -> Prop).

(** A read takes its chunk off the front of what is left. *)
Context (Hread : forall b s, R b s -> let '(s', c) := read file o s in exists b', R b' s' /\ len c <= MAX_REPLAY_CHUNK /\
  (c ++ b' = b \/ b = [] /\ looped o = true /\ c ++ b' = file) /\ (c = [] -> b = [] /\ (looped o = false \/ file = []))).

Lemma reads_end n : looped o = false -> forall s, R [] s -> (reads file o n s).2 = replicate n [].
Proof.
  intros Hl. induction n as [|n IH]; intros s H; [done |]. cbn [reads replicate]. specialize (Hread [] s H).
  destruct (read file o s) as [s1 c]. destruct Hread as (b' & H1 & _ & [Hc|(_ & Hx & _)] & _); [| congruence].
  apply app_nil in Hc as [-> ->]. specialize (IH s1 H1). destruct (reads file o n s1). simpl in *. by rewrite IH.
Qed.

Lemma drain m : looped o = false -> forall b s, (length b <= m)%nat -> R b s -> exists cs,
  Forall (fun c => c <> [] /\ len c <= MAX_REPLAY_CHUNK) cs /\ concat cs = b /\ forall n, (reads file o (length cs + n) s).2 = cs ++ replicate n [].
Proof.
  intros Hl. induction m as [|m IH]; intros b s Hm H.
  - destruct b; [| simpl in Hm; lia]. exists []. split_and!; [constructor | done |]. intros n. by apply reads_end.
  - destruct b as [|x b]; [exists []; split_and!; [constructor | done |]; intros n; by apply reads_end |].
    pose proof (Hread (x :: b) s H) as Hr. destruct (read file o s) as [s1 c] eqn:Er. destruct Hr as (b' & H1 & Hs & Hc & Hne).
    destruct Hc as [Hc|(? & _)]; [| done]. assert (Hcn : c <> []) by (intros Hx; by destruct (Hne Hx)).
    destruct (IH b' s1) as (cs & G1 & G2 & G3); [| done |].
    { apply (f_equal length) in Hc. rewrite length_app in Hc. destruct c; [done | simpl in *; lia]. }
    exists (c :: cs). split_and!; [by constructor | simpl; by rewrite G2 |].
    intros n. cbn [length Nat.add reads]. rewrite Er. specialize (G3 n). destruct (reads file o (length cs + n) s1). simpl in *. by rewrite G3.
Qed.

Lemma turns n : looped o = true -> forall b s, R b s -> exists k rest, concat (reads file o n s).2 ++ rest = b ++ concat (replicate k file) /\
  Forall (fun c => (c = [] -> file = []) /\ len c <= MAX_REPLAY_CHUNK) (reads file o n s).2.
Proof.
  intros Hl. induction n as [|n IH]; intros b s H; cbn [reads]; [exists 0%nat, b; split; [by rewrite app_nil_r | constructor] |].
  specialize (Hread b s H). destruct (read file o s) as [s1 c]. destruct Hread as (b' & H1 & Hs & Hc & Hne).
  destruct (IH b' s1 H1) as (k & rest & G1 & G2). destruct (reads file o n s1) as [s2 cs]. cbn [snd] in *.
  assert (Hall : Forall (fun c => (c = [] -> file = []) /\ len c <= MAX_REPLAY_CHUNK) (c :: cs)).
  { constructor; [| done]. split; [| done]. intros Hx. destruct (Hne Hx) as [_ [?|?]]; [congruence | done]. }
  destruct Hc as [Hc|(-> & _ & Hc)].
  - exists k, rest. split; [| done]. cbn [concat]. by rewrite <- app_assoc, G1, app_assoc, Hc.
  - exists (S k), rest. split; [| done]. cbn [concat replicate app]. by rewrite <- app_assoc, G1, app_assoc, Hc.
Qed.
End Drain.

Lemma host_read file o b s : host o = true -> opened s = true -> b = drop (pos s) file -> let '(s', c) := read file o s in
  exists b', (opened s' = true /\ b' = drop (pos s') file) /\ len c <= MAX_REPLAY_CHUNK /\
  (c ++ b' = b \/ b = [] /\ looped o = true /\ c ++ b' = file) /\ (c = [] -> b = [] /\ (looped o = false \/ file = [])).
Proof.
  intros Hh Ho ->. unfold read. rewrite Hh. unfold _read_host. rewrite Ho. cbn [negb].
  assert (Hend : forall p, file_read file HOST_CHUNK p = [] -> drop p file = []) by (intros p; apply file_read_end; pose proof HOST_CHUNK_eq; lia).
  assert (Hlen : forall p, len (file_read file HOST_CHUNK p) <= MAX_REPLAY_CHUNK)
    by (intros p; pose proof (file_read_size file HOST_CHUNK p); pose proof HOST_CHUNK_eq; unfold MAX_REPLAY_CHUNK; lia).
  pose proof (file_read_drop file HOST_CHUNK (pos s)) as Hd. pose proof (Hlen (pos s)) as Hl.
  destruct (file_read file HOST_CHUNK (pos s)) as [|x c] eqn:Ec.
  - rewrite (Hend _ Ec). destruct (looped o) eqn:El; cbn [negb].
    + pose proof (file_read_drop file HOST_CHUNK 0) as Hd0. pose proof (Hlen 0%nat) as Hl0. rewrite drop_0 in Hd0.
      destruct (file_read file HOST_CHUNK 0) as [|y c0] eqn:E0.
      * pose proof (Hend _ E0) as Hf. rewrite drop_0 in Hf. exists file. rewrite Hf in *. split_and!; [done | done | done | by left | by auto].
      * exists (drop (length (y :: c0)) file). split_and!; [done | done | done | right | done]. split_and!; [done | done | symmetry; exact Hd0].
    + exists []. split_and!; [done | by rewrite (Hend _ Ec) | done | by left | by auto].
  - exists (drop (pos s + length (x :: c)) file). split_and!; [done | done | done | left; by rewrite <- Hd | done].
Qed.

(** C33.  A log is replayed whole: of a file of well-formed frames, or of any file at host pace, the
    reads give all its bytes in order, in pieces that are not empty and within the cap, and then
    the end, for good; in a loop they give it again and again, from its first byte. *)
Theorem replay_whole (file : bytes) (o : Options) (all : list Frame) : clean all -> file = flat_map raw all \/ host o = true ->
  let s := open file o new_replay in
  if looped o
  then forall n, exists k rest, concat (reads file o n s).2 ++ rest = concat (replicate k file) /\
    Forall (fun c => (c = [] -> file = []) /\ len c <= MAX_REPLAY_CHUNK) (reads file o n s).2
  else exists cs, Forall (fun c => c <> [] /\ len c <= MAX_REPLAY_CHUNK) cs /\ concat cs = file /\
    forall n, (reads file o (length cs + n) s).2 = cs ++ replicate n [].
Proof.
  intros Hc Hf. cbn zeta. set (s := open file o new_replay).
  assert (HR : exists R : bytes -> Replay -> Prop, R file s /\ forall b s, R b s -> let '(s', c) := read file o s in exists b', R b' s' /\
    len c <= MAX_REPLAY_CHUNK /\ (c ++ b' = b \/ b = [] /\ looped o = true /\ c ++ b' = file) /\ (c = [] -> b = [] /\ (looped o = false \/ file = []))).
  { destruct (host o) eqn:Hh.
    - exists (fun b s => opened s = true /\ b = drop (pos s) file). split.
      + unfold s, open. rewrite Hh. split; [done |]. symmetry. apply drop_0.
      + intros b s1 [H1 H2]. by apply host_read.
    - destruct Hf as [Hf|]; [| done]. exists (fun b s => exists fs, replaying file fs s /\ b = flat_map raw fs). split.
      + exists all. split; [| done]. unfold s, open. rewrite Hh. by apply rewind_replaying.
      + intros b s1 (fs & H1 & ->). pose proof (read_replaying file o all Hc Hf fs s1 Hh H1) as Hr. destruct (read file o s1) as [s2 c].
        destruct Hr as (fs' & G1 & G2 & G3 & G4). exists (flat_map raw fs'). split_and!; [by exists fs' | done | |].
        * destruct G3 as [?|(-> & ? & ?)]; auto.
        * intros Hx. destruct (G4 Hx) as [-> ?]. auto. }
  destruct HR as (R & H0 & Hr). pose proof (fun n El => turns file o R Hr n El file s H0) as Ht.
  pose proof (fun El => drain file o R Hr (length file) El file s (Nat.le_refl _) H0) as Hd. clear Hr. destruct (looped o).
  - intros n. destruct (Ht n eq_refl) as (k & rest & G1 & G2). by exists (S k), rest.
  - by apply Hd.
Qed.

(** ** Two epochs: a position, and one closed by its marker *)

Definition ubx (cls id : Z) (payload : bytes) : Frame :=
  mkFrame UBX ([UBX_SYNC1; UBX_SYNC2] ++ ubx_body cls id payload ++ ubx_checksum (ubx_body cls id payload)).
Definition two_epochs : list Frame := [ubx 1 7 [0; 0; 0; 0]; ubx 1 0x61 [0; 0; 0; 0]; ubx 1 7 [232; 3; 0; 0]; ubx 1 0x61 [232; 3; 0; 0]].
Definition two_file : bytes := flat_map raw two_epochs.
Definition once : Options := mkOptions true false false.

Lemma clean_ubx cls id payload : is_byte cls -> is_byte id -> bytes_ok payload -> len payload <= UBX_MAX_PAYLOAD ->
  wire_valid (ubx cls id payload) /\ short (ubx cls id payload).
Proof. intros. split; [by apply wire_ubx | done]. Qed.

Lemma replay_whole_witness : map length (reads two_file once 3 (open two_file once new_replay)).2 = [24; 24; 0]%nat /\
  slept (reads two_file once 2 (open two_file once new_replay)).1 = [Between 1000] /\
  exists cs, Forall (fun c => c <> [] /\ len c <= MAX_REPLAY_CHUNK) cs /\ concat cs = two_file /\
    forall n, (reads two_file once (length cs + n) (open two_file once new_replay)).2 = cs ++ replicate n [].
Proof.
  split; [vm_compute; reflexivity |]. split; [vm_compute; reflexivity |].
  apply (replay_whole two_file once two_epochs); [| by left].
  repeat (apply List.Forall_cons; [apply clean_ubx; [unfold is_byte; lia | unfold is_byte; lia | repeat (constructor; [unfold is_byte; lia |]); constructor | unfold UBX_MAX_PAYLOAD; simpl; lia] |]).
  apply List.Forall_nil.
Defined.
