(* ===== verification/Sinks.v ===== *)
(** * Where sentences go ([rover/sinks.py])

    The serial port or pseudo-terminal with the kernel's queue and the reader behind it, the UDP
    targets, and the clients of the TCP server. The kernel's answers and the network's come with the
    operations; a reader takes bytes from the queue in its own steps. *)

From Stdlib Require Import String.
From stdpp Require Import gmap.
From S2P Require Import Prelude.
From S2P Require Import PyBytes.

Definition TCP_BACKLOG_LIMIT : Z := 64 * 1024.
Definition TCP_MAX_CLIENTS : Z := 16.
Definition SERIAL_BACKLOG_LIMIT : Z := 16 * 1024.
Definition UDP_MAX_PAYLOAD : Z := 1400.

(** [s.find(c, start)] of one byte, with Python's negative [start]. *)
Definition find_from (c : Z) (s : bytes) (start : Z) : option nat :=
  let start := Z.to_nat (if start <? 0 then Z.max 0 (len s + start) else start) in
  Nat.add start <$> find_idx (Z.eqb c) (drop start s).

(** ** Serial ports and pseudo-terminals *)

(** What [os.write] answers: a count, [BlockingIOError], or another [OSError]. *)
Inductive Written := Wrote (n : nat) | Blocks | Breaks.

(** A flush: whether [ioctl] counts the queue and [tcflush] empties it, and what the reader takes
    between the two. *)
Record Flush := mkFlush { counted : bool; between : nat; flushed : bool }.

(** [SerialSink], once started, with the kernel's queue and what a reader has taken of it. *)
Record Serial := mkSerial { pending : bytes; dropped_bytes : Z; kernel : bytes; taken : bytes }.
Definition new_serial : Serial := mkSerial [] 0 [] [].

(** The reader takes up to [n] bytes. *)
Definition reads (n : nat) (s : Serial) : Serial :=
  mkSerial (pending s) (dropped_bytes s) (drop n (kernel s)) (taken s ++ take n (kernel s)).

Definition drop_pending (cut : nat) (s : Serial) : Serial :=
  mkSerial (drop cut (pending s)) (dropped_bytes s + Z.of_nat cut) (kernel s) (taken s).

Inductive Sent := Finished | Blocked | Broken.

(** [_send]: each [os.write] moves bytes to the kernel's queue. Without a further answer the
    queue is full. *)
Fixpoint _send (rs : list Written) (s : Serial) : Sent * list Written * Serial :=
  match pending s with
  | [] => (Finished, rs, s)
  | _ =>
      match rs with
      | [] => (Blocked, [], s)
      | Blocks :: rs => (Blocked, rs, s)
      | Breaks :: rs => (Broken, rs, s)
      | Wrote O :: rs => (Finished, rs, s)
      | Wrote n :: rs =>
          _send rs (mkSerial (drop n (pending s)) (dropped_bytes s) (kernel s ++ take n (pending s)) (taken s))
      end
  end.

Definition _discard_queued (f : Flush) (s : Serial) : Serial :=
  let s := if counted f then mkSerial (pending s) (dropped_bytes s + len (kernel s)) (kernel s) (taken s) else s in
  let s := reads (between f) s in
  let s := if flushed f then mkSerial (pending s) (dropped_bytes s) [] (taken s) else s in
  if negb (bool_decide (pending s = [])) && negb (startswith (pending s) (str "$")) then
    drop_pending (match find_from 10 (pending s) 0 with Some nl => S nl | None => length (pending s) end) s
  else s.

(** The last part of [write]. *)
Definition trim_backlog (f : Flush) (s : Serial) : Serial :=
  if SERIAL_BACKLOG_LIMIT <? len (pending s) then
    let s := _discard_queued f s in
    drop_pending (default (length (pending s)) (find_from 36 (pending s) (len (pending s) - SERIAL_BACKLOG_LIMIT))) s
  else s.

(** [write]; [false] is the [ConnectionError]. *)
Definition serial_write (data : bytes) (rs : list Written) (f1 f2 : Flush) (s : Serial) : bool * Serial :=
  let s := mkSerial (pending s ++ data) (dropped_bytes s) (kernel s) (taken s) in
  match _send rs s with
  | (Broken, _, s) => (false, s)
  | (Finished, _, s) => (true, trim_backlog f2 s)
  | (Blocked, rs, s) =>
      match _send rs (_discard_queued f1 s) with
      | (Broken, _, s) => (false, s)
      | (_, _, s) => (true, trim_backlog f2 s)
      end
  end.

Inductive SerialOp := SWrite (data : bytes) (rs : list Written) (f1 f2 : Flush) | SRead (n : nat).

(** An operation, and what it wrote. *)
Definition serial_step (o : SerialOp) (s : Serial) : Serial :=
  match o with
  | SWrite data rs f1 f2 => (serial_write data rs f1 f2 s).2
  | SRead n => reads n s
  end.
Definition serial_run (os : list SerialOp) (s : Serial) : Serial := foldl (fun s o => serial_step o s) s os.

Definition written (os : list SerialOp) : list bytes := flat_map (fun o => match o with SWrite d _ _ _ => [d] | _ => [] end) os.

(** ** UDP *)

(** The lines of a payload, their ends included. *)
Fixpoint lines_fuel (fuel : nat) (data : bytes) : list bytes :=
  match fuel, data with
  | S fuel, _ :: _ =>
      let end_ := match find_idx (Z.eqb 10) data with Some k => S k | None => length data end in
      take end_ data :: lines_fuel fuel (drop end_ data)
  | _, _ => []
  end.
Definition lines (data : bytes) : list bytes := lines_fuel (length data) data.

(** The loop of [_datagrams]. *)
Fixpoint gather (chunk : bytes) (ls : list bytes) : list bytes :=
  match ls with
  | [] => if bool_decide (chunk = []) then [] else [chunk]
  | line :: ls =>
      if negb (bool_decide (chunk = [])) && (UDP_MAX_PAYLOAD <? len chunk + len line) then chunk :: gather line ls
      else gather (chunk ++ line) ls
  end.

Definition _datagrams (data : bytes) : list bytes :=
  if len data <=? UDP_MAX_PAYLOAD then [data] else gather [] (lines data).

(** [UdpSink]: targets as (host, port), addresses as a lookup gives them. *)
Definition Target : Type := bytes * Z.
Record Udp := mkUdp { transport : bool; resolved : list Target; unresolved : list bytes; retrying : option (list Target) }.

(** [_resolve], with what each lookup gave. *)
Definition _resolve (targets : list Target) (found : list (option Target)) (u : Udp) : list Target * Udp :=
  let waiting := flat_map (fun p => match p with (t, None) => [t] | _ => [] end) (combine targets found) in
  (waiting, mkUdp (transport u) (resolved u ++ omap id found) (map fst waiting) (retrying u)).

(** [start], its lookups done. *)
Definition udp_start (targets : list Target) (found : list (option Target)) (u : Udp) : Udp :=
  let '(waiting, u) := _resolve targets found (mkUdp true [] (unresolved u) (retrying u)) in
  mkUdp (transport u) (resolved u) (unresolved u) (if bool_decide (waiting = []) then retrying u else Some waiting).

(** A turn of [_retry]. *)
Definition udp_retry (found : list (option Target)) (u : Udp) : Udp :=
  match retrying u with
  | None => u
  | Some targets =>
      let '(waiting, u) := _resolve targets found u in
      mkUdp (transport u) (resolved u) (unresolved u) (if bool_decide (waiting = []) then None else Some waiting)
  end.

(** The datagrams [write] sends, each to its target. *)
Definition udp_write (data : bytes) (u : Udp) : list (bytes * Target) :=
  if transport u then flat_map (fun d => map (pair d) (resolved u)) (_datagrams data) else [].

Definition udp_close (u : Udp) : Udp := mkUdp false (resolved u) (unresolved u) None.

(** ** The TCP server *)

(** A client's writer: closing, the bytes its transport holds, and what it was given, oldest first. *)
Record Writer := mkWriter { closing : bool; buffered : Z; given : list bytes }.
Definition new_writer : Writer := mkWriter false 0 [].

Record Tcp := mkTcp { max_clients : Z; writers : gmap nat Writer; dropped_clients : Z; refused_clients : Z; full_logged : bool }.
Definition client_count (t : Tcp) : Z := Z.of_nat (size (writers t)).

Definition with_writers (ws : gmap nat Writer) (t : Tcp) : Tcp :=
  mkTcp (max_clients t) ws (dropped_clients t) (refused_clients t) (full_logged t).

(** [_on_client], to its first read. *)
Definition _on_client (id : nat) (t : Tcp) : Tcp :=
  if max_clients t <=? client_count t then
    mkTcp (max_clients t) (writers t) (dropped_clients t) (refused_clients t + 1) true
  else with_writers (<[id := new_writer]> (writers t)) t.

(** Its [finally], when the client has gone. *)
Definition client_gone (id : nat) (t : Tcp) : Tcp :=
  mkTcp (max_clients t) (delete id (writers t)) (dropped_clients t) (refused_clients t) false.

(** The writer after a turn of [write]'s loop; [None]: it was discarded. *)
Definition write_one (data : bytes) (raises : bool) (w : Writer) : option Writer :=
  if closing w then None
  else if TCP_BACKLOG_LIMIT <? buffered w then None
  else if raises then None
  else Some (mkWriter false (buffered w + len data) (given w ++ [data])).

(** Whether the loop drops the client as one that does not read. *)
Definition not_reading (w : Writer) : bool := negb (closing w) && (TCP_BACKLOG_LIMIT <? buffered w).

(** [write]; [raises]: the clients whose [w.write] raises. *)
Definition tcp_write (data : bytes) (raises : gset nat) (t : Tcp) : Tcp :=
  mkTcp (max_clients t) (map_imap (fun id w => write_one data (bool_decide (id ∈ raises)) w) (writers t))
    (dropped_clients t + Z.of_nat (size (filter (fun p => not_reading p.2 = true) (writers t)))) (refused_clients t) (full_logged t).

(** The transport sends [n] bytes of a client's, or begins to close. *)
Definition transport_sent (id n : nat) (t : Tcp) : Tcp :=
  with_writers (alter (fun w => mkWriter (closing w) (Z.max 0 (buffered w - Z.of_nat n)) (given w)) id (writers t)) t.
Definition transport_closing (id : nat) (t : Tcp) : Tcp :=
  with_writers (alter (fun w => mkWriter true (buffered w) (given w)) id (writers t)) t.

(** [close]. *)
Definition tcp_close (t : Tcp) : Tcp := with_writers ∅ t.

Inductive TcpOp :=
| TConnect (id : nat) | TGone (id : nat) | TWrite (data : bytes) (raises : gset nat)
| TSent (id n : nat) | TClosing (id : nat) | TClose.

Definition tcp_step (o : TcpOp) (t : Tcp) : Tcp :=
  match o with
  | TConnect id => _on_client id t
  | TGone id => client_gone id t
  | TWrite data raises => tcp_write data raises t
  | TSent id n => transport_sent id n t
  | TClosing id => transport_closing id t
  | TClose => tcp_close t
  end.
Definition tcp_run (os : list TcpOp) (t : Tcp) : Tcp := foldl (fun t o => tcp_step o t) t os.
Definition new_tcp (max : Z) : Tcp := mkTcp max ∅ 0 0 false.
Definition writes (os : list TcpOp) : list bytes := flat_map (fun o => match o with TWrite d _ => [d] | _ => [] end) os.

(** ** What a reader of the serial output sees *)

Section Sentences.

(** A sentence: [$], its body, its line end. *)
Definition sentence (s : bytes) : Prop := exists body, s = 36 :: body ++ [10] /\ 36 ∉ body /\ 10 ∉ body.

(** A stream cut before each [$], as a reader finds the sentences again. *)
Fixpoint cuts (s : bytes) : list bytes :=
  match s with
  | [] => []
  | c :: s =>
      match cuts s with
      | [] => [[c]]
      | g :: gs => if startswith s (str "$") then [c] :: g :: gs else (c :: g) :: gs
      end
  end.
(** Whether a piece has its line end. *)
Definition complete (p : bytes) : bool := match list.last p with Some c => c =? 10 | None => false end.

(** A stream as pieces of sentences: a piece is what remained of a sentence, its beginning. *)
Definition piece_of (p x : bytes) : Prop := p <> [] /\ p `prefix_of` x /\ sentence x.
Definition pieces (ps xs : list bytes) : Prop := Forall2 piece_of ps xs.

(** [pending]: the rest [r] of the sentence the last piece begins, then whole sentences. *)
Definition rest_of (ps xs : list bytes) (r : bytes) : Prop :=
  r = [] \/ exists ps0 xs0 p x, ps = ps0 ++ [p] /\ xs = xs0 ++ [x] /\ p ++ r = x.

Definition streams (W : list bytes) (sent pending : bytes) : Prop :=
  exists ps xs r rest, sent = concat ps /\ pending = r ++ concat rest /\ pieces ps xs /\ rest_of ps xs r
    /\ Forall sentence rest /\ xs ++ rest `sublist_of` W.

Lemma sentence_body x p r : sentence x -> p ++ r = x -> p <> [] -> r <> [] ->
  exists b, r = b ++ [10] /\ 10 ∉ b /\ 36 ∉ r.
Proof.
  intros (body & -> & H36 & H10) E Hp Hr. destruct p as [|c p]; [done|]. injection E as -> E.
  destruct (exists_last Hr) as (b & c & ->). rewrite app_assoc in E. apply app_inj_tail in E as [<- ->].
  exists b. split_and!; [done| |]; set_solver.
Qed.

Lemma streams_move W sent c pending : streams W sent (c :: pending) -> streams W (sent ++ [c]) pending.
Proof.
  intros (ps & xs & r & rest & -> & E & Hp & Hr & Hs & Hsub). destruct r as [|c' r].
  - destruct rest as [|x rest]; [done|]. simpl in E. apply list.Forall_cons in Hs as [Hx Hs].
    destruct (Hx) as (body & Ex & _). rewrite Ex in E. simpl in E. injection E as -> E.
    exists (ps ++ [[36]]), (xs ++ [x]), (body ++ [10]), rest. split_and!; try done.
    + by rewrite concat_app.
    + apply Forall2_app; [done|]. constructor; [|done]. split_and!; [done| |done]. rewrite Ex. by exists (body ++ [10]).
    + right. exists ps, xs, [36], x. by rewrite Ex.
    + by rewrite <- app_assoc.
  - simpl in E. injection E as -> ->. destruct Hr as [|(ps0 & xs0 & p & x & -> & -> & E)]; [done|].
    exists (ps0 ++ [p ++ [c']]), (xs0 ++ [x]), r, rest. split_and!; try done.
    + by rewrite !concat_app; simpl; rewrite !app_nil_r, app_assoc.
    + apply Forall2_app_inv in Hp as [Hp0 Hp1]; [|by apply Forall2_length in Hp; rewrite !length_app in Hp; simpl in Hp; lia].
      apply Forall2_app; [done|]. constructor; [|done]. inversion Hp1 as [|? ? ? ? (Hn & _ & Hx)]; subst.
      split_and!; [by destruct p| |done]. exists r. by rewrite <- app_assoc.
    + right. exists ps0, xs0, (p ++ [c']), x. by rewrite <- app_assoc.
Qed.

Lemma streams_take W n sent pending : streams W sent pending -> streams W (sent ++ take n pending) (drop n pending).
Proof.
  revert sent pending. induction n as [|n IH]; intros sent [|c pending] H; rewrite ?app_nil_r; try done.
  simpl. apply streams_move, IH in H. by rewrite <- app_assoc in H.
Qed.

(** What a reader has taken is in pieces too, of the first of those sentences. *)
Lemma pieces_prefix ps xs t : pieces ps xs -> t `prefix_of` concat ps ->
  exists ps' xs', t = concat ps' /\ pieces ps' xs' /\ xs' `prefix_of` xs.
Proof.
  intros H. revert t. induction H as [|p x ps xs (Hn & Hp & Hx) H IH]; intros t Ht.
  - apply prefix_nil_inv in Ht as ->. exists [], []. split_and!; [done|constructor|done].
  - simpl in Ht. destruct (decide (length p <= length t)%nat) as [Hl|Hl].
    + destruct Ht as [k E]. assert (t = p ++ drop (length p) t) as Et.
      { rewrite <- (take_drop (length p) t) at 1. f_equal.
        rewrite <- (take_app_le t k) by done. rewrite <- E. by rewrite take_app_length. }
      rewrite Et in E. rewrite <- app_assoc in E. apply app_inv_head in E.
      destruct (IH (drop (length p) t)) as (ps' & xs' & E' & H' & Hpre); [by exists k|].
      exists (p :: ps'), (x :: xs'). split_and!; [simpl; congruence|by constructor|by apply prefix_cons].
    + assert (t `prefix_of` p) as Htp.
      { apply prefix_weak_total with (l2 := t) (l1 := p) in Ht as [Hq|Hq]; [apply prefix_length in Hq; lia|done|by exists (concat ps)]. }
      destruct t as [|c t]; [by exists [], []; split_and!; [|constructor|apply prefix_nil]|].
      exists [c :: t], [x]. split_and!; [by simpl; rewrite app_nil_r| |by apply prefix_cons, prefix_nil].
      constructor; [|constructor]. split_and!; [done|by etrans|done].
Qed.

Lemma concat_head (xs : list bytes) : Forall sentence xs -> concat xs <> [] -> startswith (concat xs) (str "$") = true.
Proof. intros H Hn. destruct H as [|x xs (b & -> & _) H]; [done|]. reflexivity. Qed.

Lemma concat_sentence_drop (xs : list bytes) k : Forall sentence xs -> (drop k (concat xs)).[0] = 36 ->
  exists rest, drop k (concat xs) = concat rest /\ rest `suffix_of` xs.
Proof.
  intros H. revert k. induction H as [|x xs Hx H IH]; intros k Hk; simpl in *.
  - exists []. by rewrite drop_nil.
  - destruct k as [|k]; [by exists (x :: xs)|]. rewrite drop_app in *.
    destruct (decide (S k < length x)%nat) as [Hl|Hl].
    + exfalso. destruct Hx as (b & -> & Hb & _). rewrite at_app_l in Hk by (rewrite length_drop; lia).
      simpl in Hk, Hl. rewrite at_drop, Nat.add_0_r in Hk. rewrite length_app in Hl. simpl in Hl.
      destruct (decide (k < length b)%nat) as [Hkb|Hkb].
      * rewrite at_app_l in Hk by lia. apply Hb. rewrite <- Hk. apply list_elem_of_lookup. exists k. by apply at_lookup.
      * rewrite at_app_r in Hk by lia. by replace (k - length b)%nat with 0%nat in Hk by lia.
    + rewrite (drop_ge x) in * by lia. simpl in *. destruct (IH _ Hk) as (rest & E & Hs).
      exists rest. split; [done|by apply suffix_cons_r].
Qed.

Lemma find_idx_lf b rest : 10 ∉ b -> find_idx (Z.eqb 10) (b ++ 10 :: rest) = Some (length b).
Proof.
  induction b as [|c b IH]; intros H; cbn [app find_idx length]; [done|]. apply not_elem_of_cons in H as [Hc H].
  rewrite (proj2 (Z.eqb_neq _ _)) by done. by rewrite IH.
Qed.

(** ** The serial output *)

(** What holds between operations: what the kernel has and had are pieces, what waits goes on from
    them. *)
Definition serial_ok (W : list bytes) (s : Serial) : Prop := streams W (taken s ++ kernel s) (pending s).

Lemma send_ok W rs s : serial_ok W s -> serial_ok W (_send rs s).2.
Proof.
  revert s. induction rs as [|[n| |] rs IH]; intros s H; simpl; destruct (pending s) eqn:E; try done.
  destruct n as [|n]; [done|]. apply IH. unfold serial_ok in *; cbn [taken kernel pending] in *.
  rewrite app_assoc, <- E. by apply streams_take.
Qed.

Lemma reads_ok W n s : serial_ok W s -> serial_ok W (reads n s).
Proof. unfold serial_ok, reads; simpl. by rewrite <- app_assoc, take_drop. Qed.

(** After a flush, whole sentences wait. *)
Definition whole (W : list bytes) (s : Serial) : Prop :=
  exists ps xs rest, taken s ++ kernel s = concat ps /\ pending s = concat rest /\ pieces ps xs /\ Forall sentence rest /\ xs ++ rest `sublist_of` W.

Lemma whole_ok W s : whole W s -> serial_ok W s.
Proof. intros (ps & xs & rest & H). exists ps, xs, [], rest. rewrite app_nil_l. split_and!; try by destruct_and!. by left. Qed.

Lemma streams_prefix W sent t pending : t `prefix_of` sent -> streams W sent pending ->
  exists ps xs r rest, t = concat ps /\ pending = r ++ concat rest /\ pieces ps xs /\ Forall sentence rest /\ xs ++ rest `sublist_of` W
    /\ (r = [] \/ exists b, r = b ++ [10] /\ 10 ∉ b /\ 36 ∉ r).
Proof.
  intros Ht (ps & xs & r & rest & -> & -> & Hp & Hr & Hs & Hsub).
  destruct (pieces_prefix ps xs t Hp Ht) as (ps' & xs' & -> & Hp' & Hpre).
  exists ps', xs', r, rest. split_and!; try done.
  - etrans; [|exact Hsub]. apply sublist_app; [destruct Hpre as [k ->]; by apply sublist_inserts_r|done].
  - destruct Hr as [->|(ps0 & xs0 & p & x & -> & -> & E)]; [by left|].
    destruct (decide (r = [])) as [->|Hn]; [by left|]. right.
    apply Forall2_app_inv in Hp as [_ Hp1]; [|by apply Forall2_length in Hp; rewrite !length_app in Hp; simpl in Hp; lia].
    inversion Hp1 as [|? ? ? ? (Hpn & _ & Hx)]; subst. by eapply sentence_body.
Qed.

Lemma cut_rest r rest : r = [] \/ (exists b, r = b ++ [10] /\ 10 ∉ b /\ 36 ∉ r) -> Forall sentence rest ->
  let p := r ++ concat rest in
  (if negb (bool_decide (p = [])) && negb (startswith p (str "$"))
   then drop (match find_from 10 p 0 with Some nl => S nl | None => length p end) p else p) = concat rest.
Proof.
  intros Hr Hs p. subst p. destruct Hr as [->|(b & -> & Hb & H36)].
  - rewrite app_nil_l. case_bool_decide as E; [done|]. cbn [negb andb]. by rewrite concat_head.
  - rewrite <- app_assoc. rewrite bool_decide_false by (by destruct b). cbn [negb andb].
    change ([10] ++ concat rest) with (10 :: concat rest).
    assert (E : find_from 10 (b ++ 10 :: concat rest) 0 = Some (length b)).
    { change (find_from 10 (b ++ 10 :: concat rest) 0) with (Nat.add 0 <$> find_idx (Z.eqb 10) (b ++ 10 :: concat rest)).
      by rewrite find_idx_lf. }
    rewrite E.
    replace (startswith _ _) with false.
    + cbn [negb]. change (10 :: concat rest) with ([10] ++ concat rest). rewrite app_assoc.
      rewrite drop_app_ge by (rewrite length_app; simpl; lia). rewrite length_app. simpl.
      by replace (S (length b) - (length b + 1))%nat with 0%nat by lia.
    + symmetry. destruct b as [|c b]; [done|]. change (str "$") with [36]. cbn [app startswith].
      rewrite (proj2 (Z.eqb_neq _ _)); [done|]. set_solver.
Qed.

Lemma discard_whole W f s : serial_ok W s -> whole W (_discard_queued f s).
Proof.
  intros H. set (s1 := if counted f then mkSerial (pending s) (dropped_bytes s + len (kernel s)) (kernel s) (taken s) else s). assert (H1 : serial_ok W s1) by (subst s1; by destruct (counted f)).
  apply (reads_ok W (between f)) in H1. set (s2 := reads (between f) s1) in *.
  set (s3 := if flushed f then mkSerial (pending s2) (dropped_bytes s2) [] (taken s2) else s2).
  assert (exists ps xs r rest, taken s3 ++ kernel s3 = concat ps /\ pending s3 = r ++ concat rest /\ pieces ps xs /\ Forall sentence rest
    /\ xs ++ rest `sublist_of` W /\ (r = [] \/ exists b, r = b ++ [10] /\ 10 ∉ b /\ 36 ∉ r)) as (ps & xs & r & rest & Et & Ep & Hp & Hs & Hsub & Hr).
  { unfold serial_ok in H1. replace (pending s3) with (pending s2) by (subst s3; by destruct (flushed f)). eapply streams_prefix; [|exact H1].
    subst s3. destruct (flushed f); cbn [taken kernel]; [rewrite app_nil_r; by exists (kernel s2)|done]. }
  exists ps, xs, rest. pose proof (cut_rest r rest Hr Hs) as Hc. cbv zeta in Hc. rewrite <- Ep in Hc.
  change (_discard_queued f s) with (if negb (bool_decide (pending s3 = [])) && negb (startswith (pending s3) (str "$")) then
    drop_pending (match find_from 10 (pending s3) 0 with Some nl => S nl | None => length (pending s3) end) s3 else s3).
  destruct (_ && _); by split_and!.
Qed.

Lemma find_idx_at p (l : bytes) k : find_idx p l = Some k -> p l.[k] = true.
Proof.
  revert k. induction l as [|c l IH]; intros k; simpl; [done|]. destruct (p c) eqn:E; [by intros [= <-]|].
  destruct (find_idx p l) as [n|]; [|done]. intros [= <-]. by apply IH.
Qed.

Lemma find_from_spec c p start k : find_from c p start = Some k -> p.[k] = c /\ (0 <= start -> start <= Z.of_nat k).
Proof.
  unfold find_from. set (n := Z.to_nat _). destruct (find_idx _ _) as [i|] eqn:E; [|done]. intros [= <-].
  apply find_idx_at in E. rewrite at_drop in E. apply Z.eqb_eq in E. split; [done|].
  intros H. subst n. rewrite (proj2 (Z.ltb_ge _ _)) by done. lia.
Qed.

Lemma drop_pending_whole W k s : whole W s -> (k = length (pending s) \/ (pending s).[k] = 36) -> whole W (drop_pending k s).
Proof.
  intros (ps & xs & rest & Et & Ep & Hp & Hs & Hsub) Hk.
  assert (exists rest', drop k (pending s) = concat rest' /\ rest' `suffix_of` rest) as (rest' & E & Hsuf).
  { destruct Hk as [->|Hk]; [exists []; split; [by rewrite drop_all|apply suffix_nil]|].
    rewrite Ep in *. apply concat_sentence_drop; [done|]. by rewrite at_drop, Nat.add_0_r. }
  exists ps, xs, rest'. destruct Hsuf as [k' ->]. split_and!; try done; [by apply Forall_app in Hs as [_ Hs]|].
  etrans; [|exact Hsub]. by apply sublist_app, sublist_inserts_l.
Qed.

Lemma trim_ok W f s : serial_ok W s -> serial_ok W (trim_backlog f s).
Proof.
  intros H. unfold trim_backlog. destruct (_ <? _); [|done]. apply whole_ok, drop_pending_whole; [by apply discard_whole|].
  destruct (find_from _ _ _) as [k|] eqn:E; [|by left]. right. by apply find_from_spec in E as [E _].
Qed.

Lemma serial_write_ok W W' data rs f1 f2 s : Forall sentence W' -> data = concat W' -> serial_ok W s ->
  serial_ok (W ++ W') (serial_write data rs f1 f2 s).2.
Proof.
  intros HW -> (ps & xs & r & rest & Et & Ep & Hp & Hr & Hs & Hsub). unfold serial_write.
  set (s0 := mkSerial (pending s ++ concat W') _ _ _).
  assert (H0 : serial_ok (W ++ W') s0).
  { exists ps, xs, r, (rest ++ W'). split_and!; try done; [by subst s0; simpl; rewrite Ep, concat_app, app_assoc|by apply Forall_app|].
    rewrite app_assoc. by apply sublist_app. }
  pose proof (send_ok _ rs _ H0) as H1. destruct (_send rs s0) as [[[] rs1] s1]; simpl in *; [by apply trim_ok| |done].
  pose proof (send_ok _ rs1 _ (whole_ok _ _ (discard_whole _ f1 _ H1))) as H2.
  by destruct (_send rs1 _) as [[[] rs2] s2]; simpl in *; [apply trim_ok|apply trim_ok|].
Qed.

(** Runs whose writes are of whole sentences. *)
Definition payloads (os : list SerialOp) (W : list (list bytes)) : Prop := written os = map (@concat Z) W /\ Forall (Forall sentence) W.

Lemma serial_run_ok os W0 W s : payloads os W -> serial_ok W0 s -> serial_ok (W0 ++ concat W) (serial_run os s).
Proof.
  revert W0 W s. induction os as [|[data rs f1 f2|n] os IH]; intros W0 W s [E HW] H; simpl in *.
  - destruct W; [by rewrite app_nil_r|done].
  - destruct W as [|x W]; [done|]. injection E as Ed E. apply list.Forall_cons in HW as [Hx HW]. simpl. rewrite app_assoc.
    by apply IH, serial_write_ok.
  - by apply IH, reads_ok.
Qed.

Lemma cuts_app p g : p <> [] -> 36 ∉ drop 1 p -> startswith g (str "$") = true -> cuts (p ++ g) = p :: cuts g.
Proof.
  intros Hp H Hg. induction p as [|c p IH]; [done|]. change (36 ∉ p) in H. clear Hp. cbn [app cuts].
  destruct p as [|c' p].
  - cbn [app]. destruct (cuts g) eqn:E; [destruct g as [|? g]; [done|]; simpl in E; by destruct (cuts g); [|destruct (startswith _ _)]|].
    by rewrite Hg.
  - rewrite IH by (set_solver || done). change (str "$") with [36]. cbn [app startswith].
    rewrite (proj2 (Z.eqb_neq _ _)); [done|]. set_solver.
Qed.

Lemma cuts_one p : p <> [] -> 36 ∉ drop 1 p -> cuts p = [p].
Proof.
  induction p as [|c p IH]; intros Hp H; [done|]. change (36 ∉ p) in H. destruct p as [|c' p]; [done|].
  cbn [cuts]. cbn [cuts] in IH. rewrite IH by (set_solver || done). change (str "$") with [36]. cbn [startswith].
  rewrite (proj2 (Z.eqb_neq _ _)); [done|]. set_solver.
Qed.

Lemma piece_tail p x : piece_of p x -> p <> [] /\ 36 ∉ drop 1 p /\ startswith p (str "$") = true /\ (complete p = true -> p = x).
Proof.
  intros (Hn & Hp & (b & -> & H36 & H10)). destruct Hp as [k E]. destruct p as [|c p]; [done|]. injection E as <- E. split_and!; try done.
  - simpl. assert (36 ∉ p ++ k) by (rewrite <- E; set_solver). set_solver.
  - unfold complete. destruct (list.last (36 :: p)) as [c|] eqn:El; [|done]. intros Hc. zbool. subst c.
    apply list.last_Some in El as [q Eq]. destruct q as [|c q]; [done|]. injection Eq as <- ->.
    destruct k as [|c k] using rev_ind; [by rewrite E, app_nil_r|]. exfalso.
    rewrite app_assoc in E. apply app_inj_tail in E as [-> _]. set_solver.
Qed.

Lemma cuts_pieces ps xs : pieces ps xs -> cuts (concat ps) = ps.
Proof.
  induction 1 as [|p x ps xs Hp H IH]; [done|]. apply piece_tail in Hp as (Hn & H36 & _ & _). simpl.
  inversion H as [E1 E2|p' x' ps' xs' Hp' H' E1 E2]; subst; [rewrite app_nil_r; by apply cuts_one|].
  rewrite cuts_app, IH; try done. apply piece_tail in Hp' as (Hn' & _ & Hs & _). by apply (startswith_app_mono p' (concat ps')).
Qed.

Lemma complete_pieces ps xs : pieces ps xs -> List.filter complete ps `sublist_of` xs.
Proof.
  induction 1 as [|p x ps xs Hp H IH]; simpl; [done|]. destruct (complete p) eqn:E; [|by apply sublist_cons].
  apply piece_tail in Hp as (_ & _ & _ & Hp). rewrite <- Hp by done. by apply sublist_skip.
Qed.
End Sentences.

(** C34.  Whatever the kernel accepts, flushes and lets the reader take, a reader of the serial output
    or pseudo-terminal that cuts the stream at each [$] finds beginnings of distinct sentences in the order
    they were written, and those with their line end are written sentences, whole. *)
Theorem reader_gets_sentences os W :
  payloads os W ->
  let seen := cuts (taken (serial_run os new_serial)) in
  concat seen = taken (serial_run os new_serial)
  /\ (exists xs, Forall2 prefix seen xs /\ xs `sublist_of` concat W)
  /\ List.filter complete seen `sublist_of` concat W.
Proof.
  intros H seen. assert (H0 : serial_ok [] new_serial).
  { exists [], [], [], []. split_and!; try done; try apply Forall2_nil; by left. }
  apply (serial_run_ok os [] W _ H) in H0. simpl in H0.
  destruct (streams_prefix _ _ (taken (serial_run os new_serial)) _ (prefix_app_r _ _ _ ltac:(done)) H0)
    as (ps & xs & r & rest & Et & _ & Hp & _ & Hsub & _).
  subst seen. rewrite Et, (cuts_pieces ps xs Hp).
  assert (xs `sublist_of` concat W) by (etrans; [by apply sublist_inserts_r|exact Hsub]).
  split_and!; [done| |].
  - exists xs. split; [|done]. eapply Forall2_impl; [|exact Hp]. by intros ? ? (_ & ? & _).
  - etrans; [by apply complete_pieces|done].
Qed.

Definition gga : bytes := str "$GNGGA,1*2B" ++ [13; 10].
Definition rmc : bytes := str "$GNRMC,2*3C" ++ [13; 10].
Definition plain_flush : Flush := mkFlush true 0 true.

(** The kernel takes the first epoch, then nothing until a flush; the reader was 16 bytes on, in the
    second sentence. *)
Definition spliced_run : list SerialOp :=
  [SWrite (gga ++ rmc) [Wrote 26] plain_flush plain_flush; SRead 16; SWrite gga [Blocks; Wrote 13] plain_flush plain_flush; SRead 100].

Lemma reader_gets_sentences_witness :
  payloads spliced_run [[gga; rmc]; [gga]]
  /\ List.filter complete (cuts (taken (serial_run spliced_run new_serial))) `sublist_of` concat [[gga; rmc]; [gga]].
Proof.
  assert (H : payloads spliced_run [[gga; rmc]; [gga]]).
  { split; [reflexivity|]. assert (sentence gga /\ sentence rmc) as [Hg Hr].
    { split; [exists (str "GNGGA,1*2B" ++ [13])|exists (str "GNRMC,2*3C" ++ [13])]; (split; [reflexivity|]); split; intros Hin;
        apply list_elem_of_In in Hin; vm_compute in Hin; intuition congruence. }
    repeat constructor; done. }
  split; [exact H|]. apply (reader_gets_sentences spliced_run [[gga; rmc]; [gga]] H).
Defined.

(** The reader sees half of a sentence run into the next: the flush took the rest of what it had
    begun. *)
Lemma flush_splices :
  let t := taken (serial_run spliced_run new_serial) in
  t = gga ++ str "$GN" ++ gga /\ cuts t = [gga; str "$GN"; gga].
Proof. vm_compute. done. Qed.

(** ** What is held and what is lost *)

(** The bytes a sink answers for. *)
Definition held (s : Serial) : Z := dropped_bytes s + len (taken s) + len (kernel s) + len (pending s).

(** A flush that counts what it empties. *)
Definition honest (f : Flush) : Prop := counted f = true /\ between f = 0%nat /\ flushed f = true.
Definition op_honest (o : SerialOp) : Prop :=
  match o with SWrite _ rs f1 f2 => Breaks ∉ rs /\ honest f1 /\ honest f2 | SRead _ => True end.

Lemma drop_pending_held k s : (k <= length (pending s))%nat -> held (drop_pending k s) = held s.
Proof. unfold held; simpl. rewrite length_drop. lia. Qed.

Lemma find_from_lt c p start k : find_from c p start = Some k -> (k < length p)%nat.
Proof.
  unfold find_from. destruct (find_idx _ _) as [i|] eqn:E; [|done]. intros [= <-].
  apply find_idx_lt in E. rewrite length_drop in E. lia.
Qed.

Lemma reads_held n s : held (reads n s) = held s.
Proof. unfold held, reads; simpl. rewrite length_app, length_take, length_drop. lia. Qed.

Lemma discard_held f s : honest f -> held (_discard_queued f s) = held s.
Proof.
  destruct f as [c b e]. intros (Hc & Hb & He); simpl in *; subst. unfold _discard_queued; simpl.
  set (s' := mkSerial _ _ _ _). assert (H : held s' = held s) by (unfold held, s'; simpl; rewrite take_0, app_nil_r; lia).
  destruct (_ && _); [|exact H]. rewrite drop_pending_held; [exact H|].
  destruct (find_from _ _ _) eqn:E; [by apply find_from_lt in E|done].
Qed.

Lemma send_held rs s : held (_send rs s).2 = held s.
Proof.
  revert s. induction rs as [|[n| |] rs IH]; intros s; simpl; destruct (pending s) eqn:E; try done. destruct n as [|n]; [done|].
  rewrite IH. unfold held; simpl. rewrite E, length_app. simpl. rewrite length_take, length_drop. lia.
Qed.

Lemma send_unbroken rs s : Breaks ∉ rs -> (_send rs s).1.1 <> Broken /\ Breaks ∉ (_send rs s).1.2.
Proof.
  revert s. induction rs as [|r rs IH]; intros s H; simpl; destruct (pending s) eqn:E; try (split; set_solver).
  apply not_elem_of_cons in H as [Hr H]. destruct r as [[|n]| |]; try done. by apply IH.
Qed.

Lemma trim_held f s : honest f -> held (trim_backlog f s) = held s.
Proof.
  intros H. unfold trim_backlog. destruct (_ <? _); [|done]. rewrite drop_pending_held; [by apply discard_held|].
  destruct (find_from _ _ _) eqn:E; simpl; [apply find_from_lt in E; lia|done].
Qed.

Lemma trim_bounded f s : len (pending (trim_backlog f s)) <= SERIAL_BACKLOG_LIMIT.
Proof.
  unfold trim_backlog. destruct (_ <? _) eqn:E; zbool; [|lia]. set (s' := _discard_queued f s). simpl. rewrite length_drop.
  destruct (find_from _ _ _) as [k|] eqn:Ek; simpl; [|unfold SERIAL_BACKLOG_LIMIT; lia].
  apply find_from_spec in Ek as [_ Hk]. unfold SERIAL_BACKLOG_LIMIT in *. lia.
Qed.

Lemma write_books data rs f1 f2 s : op_honest (SWrite data rs f1 f2) ->
  let s' := (serial_write data rs f1 f2 s).2 in held s' = held s + len data /\ len (pending s') <= SERIAL_BACKLOG_LIMIT.
Proof.
  intros (Hb & H1 & H2). unfold serial_write. set (s0 := mkSerial _ _ _ _).
  assert (H0 : held s0 = held s + len data) by (unfold held; simpl; rewrite length_app; lia).
  pose proof (send_held rs s0) as Hh. pose proof (send_unbroken rs s0 Hb) as [Hn Hb'].
  destruct (_send rs s0) as [[[] rs1] s1]; simpl in *; [split; [rewrite trim_held by done; lia|apply trim_bounded]| |done].
  pose proof (send_held rs1 (_discard_queued f1 s1)) as Hh'. rewrite discard_held in Hh' by done.
  pose proof (send_unbroken rs1 (_discard_queued f1 s1) Hb') as [Hn' _].
  destruct (_send rs1 _) as [[[] rs2] s2]; simpl in *; [| |done]; (split; [rewrite trim_held by done; lia|apply trim_bounded]).
Qed.

(** The bytes are accounted for: with flushes that count what they empty, what was written is what the
    reader has, what the kernel holds, what waits and what is counted as dropped; what waits stays within its
    limit after every write that does not raise. *)
Theorem serial_books os s :
  Forall op_honest os -> len (pending s) <= SERIAL_BACKLOG_LIMIT ->
  let s' := serial_run os s in
  held s' = held s + len (concat (written os)) /\ len (pending s') <= SERIAL_BACKLOG_LIMIT.
Proof.
  intros H. revert s. induction H as [|o os Ho H IH]; intros s Hs; simpl; [lia|]. destruct o as [data rs f1 f2|n]; simpl in *.
  - destruct (write_books data rs f1 f2 s Ho) as [Hh Hb]. destruct (IH _ Hb) as [IH1 IH2].
    split; [|done]. unfold serial_run in *. rewrite IH1, Hh, length_app. lia.
  - destruct (IH (reads n s) Hs) as [IH1 IH2]. unfold serial_run in *. by rewrite IH1, reads_held.
Qed.

Lemma serial_books_witness : Forall op_honest spliced_run /\ held (serial_run spliced_run new_serial) = 39.
Proof.
  assert (H : Forall op_honest spliced_run) by (repeat constructor; simpl; set_solver).
  split; [exact H|]. destruct (serial_books spliced_run new_serial H ltac:(vm_compute; discriminate)) as [E _]. exact E.
Defined.

(** An epoch longer than what is kept: the kernel takes a little of it, is emptied, takes a little more; then
    all that waits is let go, though it was within the limit. *)
Definition long_line : bytes := 36 :: replicate 97 65 ++ [13; 10].
Definition long_epoch : bytes := concat (replicate 165 long_line).

Lemma newest_discarded :
  let before := (_send [Wrote 10; Blocks] (mkSerial (drop 100 long_epoch) 0 [] [])).2 in
  len (pending (_discard_queued plain_flush before)) = 16300
  /\ pending (serial_write long_epoch [Wrote 50; Blocks; Wrote 10; Blocks] plain_flush plain_flush new_serial).2 = [].
Proof. vm_compute. done. Qed.

(** ** Datagrams *)

Definition is_line (l : bytes) : Prop := l <> [] /\ 10 ∉ removelast l.

Lemma lines_fuel_spec fuel data : (length data <= fuel)%nat -> concat (lines_fuel fuel data) = data /\ Forall is_line (lines_fuel fuel data).
Proof.
  revert data. induction fuel as [|fuel IH]; intros [|c data] H; cbn [lines_fuel];
    [by split|simpl in H; lia|by split|].
  set (e := match _ with Some k => S k | None => length (c :: data) end).
  assert (He : (0 < e <= S (length data))%nat /\ 10 ∉ removelast (take e (c :: data))).
  { subst e. destruct (find_idx (Z.eqb 10) (c :: data)) as [k|] eqn:E.
    - pose proof (find_idx_lt _ _ _ E) as Hl. simpl in Hl. split; [lia|]. revert E. generalize (c :: data). clear.
      intros l. revert k. induction l as [|x l IH]; intros k; cbn [find_idx]; [done|].
      destruct (10 =? x) eqn:Ex; [intros [= <-]; simpl; by apply not_elem_of_nil|].
      destruct (find_idx _ l) as [n|] eqn:En; [|done]. intros [= <-]. zbool. specialize (IH n eq_refl).
      destruct l as [|y l]; [done|]. change (10 ∉ x :: removelast (take (S n) (y :: l))). set_solver.
    - split; [simpl; lia|]. simpl length. rewrite firstn_all2 by (simpl; lia). revert E. generalize (c :: data). clear.
      induction l as [|x l IH]; cbn [find_idx]; [intros _; by apply not_elem_of_nil|].
      destruct (10 =? x) eqn:Ex; [done|]. destruct (find_idx _ l) eqn:En; [done|]. intros _. zbool. specialize (IH eq_refl).
      destruct l as [|y l]; [by apply not_elem_of_nil|]. change (10 ∉ x :: removelast (y :: l)). set_solver. }
  destruct (IH (drop e (c :: data))) as [E1 E2]; [simpl in H; rewrite length_drop; simpl; lia|].
  cbn [concat]. rewrite E1, take_drop. split; [done|]. constructor; [|done]. destruct He as [He1 He2]. split; [|done].
  destruct e; [lia|done].
Qed.

Lemma gather_spec ls chunk : Forall is_line ls -> (chunk = [] \/ len chunk <= UDP_MAX_PAYLOAD \/ is_line chunk) ->
  concat (gather chunk ls) = chunk ++ concat ls
  /\ Forall (fun d => d <> [] /\ (len d <= UDP_MAX_PAYLOAD \/ is_line d)) (gather chunk ls).
Proof.
  intros H. revert chunk. induction H as [|l ls Hl H IH]; intros chunk Hc; simpl.
  - case_bool_decide as E; [by subst|]. simpl. rewrite app_nil_r. split; [done|]. constructor; [|constructor]. intuition.
  - case_bool_decide as E; simpl; [subst chunk; apply IH; by right; right|]. destruct (_ <? _) eqn:El; zbool.
    + destruct (IH l) as [IH1 IH2]; [by right; right|]. simpl. rewrite IH1. split; [done|]. constructor; [|done]. intuition.
    + rewrite app_assoc. apply IH. right. left. rewrite length_app. lia.
Qed.

(** Datagrams put together are the payload, and each fits or is one line. *)
Theorem datagrams_whole data :
  concat (_datagrams data) = data
  /\ Forall (fun d => len d <= UDP_MAX_PAYLOAD \/ is_line d) (_datagrams data).
Proof.
  unfold _datagrams. destruct (_ <=? _) eqn:E; zbool.
  - simpl. rewrite app_nil_r. split; [done|]. constructor; [by left|constructor].
  - destruct (lines_fuel_spec (length data) data) as [E1 E2]; [done|].
    destruct (gather_spec (lines data) [] E2) as [H1 H2]; [by left|]. rewrite H1. unfold lines. rewrite E1. split; [done|].
    eapply Forall_impl; [|exact H2]. by intros ? [_ ?].
Qed.

(** Every target is resolved or still tried. *)
Lemma resolve_counts targets found u : length targets = length found ->
  let r := _resolve targets found u in (length (resolved r.2) + length r.1 = length (resolved u) + length targets)%nat.
Proof.
  intros H. simpl. rewrite length_app. rewrite <- Nat.add_assoc. f_equal.
  revert found H. induction targets as [|t targets IH]; intros [|o found] H; simpl in *; try lia.
  injection H as H. specialize (IH found H). unfold omap in *. destruct o; simpl; lia.
Qed.

(** ** The clients of the server *)

(** What [write] does to one client, whichever the order. *)
Lemma tcp_write_lookup data raises t id :
  writers (tcp_write data raises t) !! id = writers t !! id ≫= write_one data (bool_decide (id ∈ raises)).
Proof. simpl. by rewrite map_lookup_imap. Qed.

(** A client that is still served after [os] has been given every write since it connected: *)
Inductive served (id : nat) (g : list bytes) : list TcpOp -> Prop :=
| served_intro os1 os2 : g = writes os2 -> TGone id ∉ os2 -> TClose ∉ os2 -> served id g (os1 ++ TConnect id :: os2).

Lemma served_snoc id g os o : served id g os -> o <> TGone id -> o <> TClose -> served id (g ++ writes [o]) (os ++ [o]).
Proof.
  intros [os1 os2 -> Hg Hc] H1 H2. rewrite <- app_assoc. change ((TConnect id :: os2) ++ [o]) with (TConnect id :: (os2 ++ [o])).
  constructor; [by unfold writes; rewrite flat_map_app| |]; rewrite elem_of_app, list_elem_of_singleton; naive_solver.
Qed.

Definition widest (os : list TcpOp) : Z := foldr (fun d n => Z.max (len d) n) 0 (writes os).

Lemma widest_snoc os o : 0 <= widest [o] /\ widest (os ++ [o]) = Z.max (widest os) (widest [o]).
Proof.
  unfold widest, writes. rewrite flat_map_app. generalize (flat_map (fun o => match o with TWrite d _ => [d] | _ => [] end) [o]). intros ds.
  assert (0 <= foldr (fun d n => Z.max (len d) n) 0 ds) by (induction ds; simpl; lia). split; [done|].
  induction (flat_map _ os) as [|d es IH]; simpl; [lia|rewrite IH; lia].
Qed.

Lemma altered f i (m : gmap nat Writer) j w' : alter f i m !! j = Some w' -> exists w, m !! j = Some w /\ (w' = w \/ w' = f w).
Proof.
  intros H. destruct (decide (i = j)) as [->|Hn].
  - rewrite lookup_alter_eq in H. destruct (m !! j) as [w|]; [|done]. injection H as <-. exists w. auto.
  - rewrite lookup_alter_ne in H by done. exists w'. auto.
Qed.

Lemma step_lookup o t id w' : writers (tcp_step o t) !! id = Some w' ->
  (o = TConnect id /\ w' = new_writer)
  \/ exists w, writers t !! id = Some w /\ o <> TGone id /\ o <> TClose /\ given w' = given w ++ writes [o]
       /\ (0 <= buffered w -> 0 <= buffered w' <= Z.max (buffered w) (TCP_BACKLOG_LIMIT + widest [o])).
Proof.
  assert (Hsame : forall w : Writer, given w = given w ++ []) by (intros; by rewrite app_nil_r).
  destruct o as [i|i|data raises|i n|i|]; cbn [tcp_step].
  - unfold _on_client. destruct (_ <=? _); cbn [writers with_writers]; [intros E|intros [[<- <-]|[Hi E]]%lookup_insert_Some]; [|by left|];
      (right; exists w'; split_and!; try done; lia).
  - simpl. intros [Hi E]%lookup_delete_Some. right. exists w'. split_and!; try done; [congruence|lia].
  - rewrite tcp_write_lookup. destruct (writers t !! id) as [w|] eqn:E; [|done]. simpl. unfold write_one.
    destruct (closing w); [done|]. destruct (_ <? _) eqn:El; [done|]. case_bool_decide; [done|]. zbool. intros [= <-].
    right. exists w. split_and!; try done. unfold widest. simpl. lia.
  - simpl. intros (w & E & [-> | ->])%altered; right; exists w; split_and!; simpl; try done; lia.
  - simpl. intros (w & E & [-> | ->])%altered; right; exists w; split_and!; simpl; try done; lia.
  - simpl. by rewrite lookup_empty.
Qed.

Lemma size_imap_le {A B} (f : nat -> A -> option B) (m : gmap nat A) : (size (map_imap f m) <= size m)%nat.
Proof.
  rewrite <- !size_dom. apply subseteq_size. intros i Hi. apply elem_of_dom in Hi as [y Hy].
  rewrite map_lookup_imap in Hy. apply elem_of_dom. destruct (m !! i); [by eexists|done].
Qed.

Lemma client_count_step o t max : max_clients t = max -> 0 <= max -> client_count t <= max -> max_clients (tcp_step o t) = max /\ client_count (tcp_step o t) <= max.
Proof.
  unfold client_count. intros <- H0 H. destruct o as [i|i|data raises|i n|i|]; cbn [tcp_step]; (split; [unfold _on_client; by try destruct (_ <=? _)|]); simpl.
  - unfold _on_client, client_count. destruct (_ <=? _) eqn:E; simpl; zbool; [done|]. destruct (writers t !! i) as [w|] eqn:Ei.
    + rewrite map_size_insert_Some by done. lia.
    + rewrite map_size_insert_None by done. lia.
  - rewrite map_size_delete. destruct (writers t !! i); simpl; lia.
  - unfold client_count; simpl. pose proof (size_imap_le (fun id w => write_one data (bool_decide (id ∈ raises)) w) (writers t)). lia.
  - rewrite <- size_dom, dom_alter, size_dom. done.
  - rewrite <- size_dom, dom_alter, size_dom. done.
  - by rewrite map_size_empty.
Qed.

Lemma count_run os t max : max_clients t = max -> 0 <= max -> client_count t <= max ->
  max_clients (tcp_run os t) = max /\ client_count (tcp_run os t) <= max.
Proof.
  revert t. induction os as [|o os IH]; intros t Hm H0 Hc; simpl; [done|].
  destruct (client_count_step o t max Hm H0 Hc) as [Hm' Hc']. by apply IH.
Qed.

(** At most [max] clients; one that is still served has been given every write since it connected, in
    order, and no more than the limit and one write wait for it. *)
Theorem tcp_serves max os :
  0 <= max ->
  let t := tcp_run os (new_tcp max) in
  client_count t <= max
  /\ forall id w, writers t !! id = Some w ->
       served id (given w) os /\ 0 <= buffered w <= TCP_BACKLOG_LIMIT + widest os.
Proof.
  intros H0 t. split; [by apply (count_run os (new_tcp max) max)|]. subst t.
  induction os as [|o os IH] using rev_ind; intros id w; unfold tcp_run in *; [simpl; by rewrite lookup_empty|].
  rewrite foldl_snoc. intros Hw. destruct (widest_snoc os o) as [Hw1 Hw2]. rewrite Hw2.
  apply step_lookup in Hw as [[-> ->]|(w0 & E & Hg & Hc & Egiven & Hb)].
  - split; [constructor; [done|set_solver..]|]. simpl. unfold TCP_BACKLOG_LIMIT. lia.
  - destruct (IH _ _ E) as [Hs Hb0]. rewrite Egiven. split; [by apply served_snoc|]. lia.
Qed.

Lemma tcp_serves_witness :
  let t := tcp_run [TConnect 1; TWrite gga ∅; TConnect 2; TWrite rmc ∅] (new_tcp 16) in
  0 <= 16 /\ client_count t <= 16.
Proof. split; [lia|]. apply (tcp_serves 16 [TConnect 1; TWrite gga ∅; TConnect 2; TWrite rmc ∅]). lia. Defined.

(** A client that does not read is dropped by the write that finds it more than the limit behind. *)
Lemma slow_client_dropped id w data raises t : writers t !! id = Some w -> TCP_BACKLOG_LIMIT < buffered w ->
  writers (tcp_write data raises t) !! id = None.
Proof.
  intros E H. rewrite tcp_write_lookup, E. simpl. unfold write_one. destruct (closing w); [done|].
  by rewrite (proj2 (Z.ltb_lt _ _)).
Qed.
