(* ===== verification/Nmea.v ===== *)
(** * NMEA sentences from the receiver's state ([rover/nmea_out.py])

    A sentence is built from the values an epoch holds; floats are doubles ([PyFloat]), printed as
    Python prints them. A builder that raises, which a position that is not finite makes it do,
    gives [None]. *)

From Stdlib Require Import String.
From stdpp Require Import list sets.
From S2P Require Import Prelude.
From S2P Require Import PyBytes.
From S2P Require Import PyFloat.
From S2P Require Import PyRound.
From S2P Require Import PyCodecs.
From S2P Require Import Calendar.
From S2P Require Import Checksums.
From S2P Require Import Framing.
From S2P Require Import Frames.
From S2P Require Import Sinks.

(** ** Floats *)

Definition fneg (x : Z) : Z := if 2 ^ 63 <=? x then x - 2 ^ 63 else x + 2 ^ 63.
Definition fabs (x : Z) : Z := if 2 ^ 63 <=? x then x - 2 ^ 63 else x.
Definition fsub (x y : Z) : Z := fadd x (fneg y).
Definition isfinite (x : Z) : bool := match f64 x with FFin _ _ _ => true | _ => false end.

(** [int(x)] of a float that is not negative; [None]: it raises. *)
Definition int_of (x : Z) : option Z := match f64 x with FFin _ m e => Some (m * pow2 e / pow2 (- e)) | _ => None end.

(** [round(x, k)]: the decimal nearest to [x], as a float. *)
Definition round_to (k : Z) (x : Z) : Z :=
  match f64 x with FFin neg m e => of_decimal neg (rne (m * pow2 e * 10 ^ k) (pow2 (- e))) (- k) | _ => x end.

(** [x / y] for a positive finite [y]. *)
Definition fdiv (x y : Z) : Z :=
  match f64 x, f64 y with
  | FFin neg m e, FFin _ m' e' => if m =? 0 then sign64 neg else double neg (round_ratio 53 11 (m * pow2 (e - e')) (m' * pow2 (e' - e)))
  | _, _ => x
  end.

(** [math.sqrt] of a float that is not negative: the root of the mantissa with enough bits, and a
    bit for what is left. *)
Definition fsqrt (x : Z) : Z :=
  match f64 x with
  | FFin neg m e =>
      if m =? 0 then x
      else
        let k := 120 + e mod 2 in
        let s := Z.sqrt (m * 2 ^ k) in
        double false (round_dyadic 53 11 (2 * s + (if s * s =? m * 2 ^ k then 0 else 1)) ((e - k) / 2 - 1))
  | _ => x
  end.

(** [sum] of floats, which carries the low parts along. *)
Definition sum_step (acc : Z * Z) (x : Z) : Z * Z :=
  let '(f, c) := acc in
  let t := fadd f x in
  (t, fadd c (if fge (fabs f) (fabs x) then fadd (fsub f t) x else fadd (fsub x t) f)).
Definition fsum (l : list Z) : Z :=
  match l with
  | [] => 0
  | x :: l =>
      let '(f, c) := foldl sum_step (fadd 0 x, 0) l in
      if negb (fabs c =? 0) && isfinite c then fadd f c else f
  end.

(** [f"{i:0{k}d}"]. *)
Definition fmt_0d (k : nat) (i : Z) : bytes := if i <? 0 then 45 :: fmt_digits 10 (k - 1) (- i) else fmt_digits 10 k i.

(** ** What the sentences read *)

Record Satellite := mkSat { gnss : bytes; sv_id : Z; cno : Z; elev : option Z; azim : option Z; pr_res_m : Z; used : bool }.

Record Attitude := mkAttitude {
  roll_deg : option Z; pitch_deg : option Z; heading_deg : option Z; acc_roll_deg : option Z; acc_pitch_deg : option Z; acc_heading_deg : option Z
}.

(** [ReceiverState]: [time.utc], [position], [fix], [accuracy], [dops], [velocity], [rtk], [sats] and [attitude]. *)
Record State := mkState {
  utc : option Datetime;
  lat : option Z; lon : option Z; height_m : option Z; hmsl_m : option Z; invalid_llh : bool;
  fix_type : Z; carr_soln : Z; diff_soln : bool; gnss_fix_ok : bool; num_sv : Z;
  h_acc_m : option Z; v_acc_m : option Z; dop_p : option Z; dop_h : option Z; dop_v : option Z;
  ground_speed_mps : option Z; heading_motion_deg : option Z;
  corr_age_s : option Z; ref_station_id : option Z;
  sats : list Satellite; attitude : option Attitude
}.

#[local] Open Scope string_scope.
#[local] Open Scope list_scope.
#[local] Open Scope Z_scope.

Definition MPS_TO_KNOTS : Z := Eval vm_compute in of_decimal false 1943844 (-6).
Definition MPS_TO_KMH : Z := Eval vm_compute in of_decimal false 36 (-1).
Definition GLONASS_MAX_SLOT : Z := 32.
(** Name, talker, system identifier, signal identifier. *)
Definition SYSTEM_TALKER : list (bytes * (bytes * Z * Z)) :=
  [(str "GPS", (str "GP", 1, 1)); (str "GLONASS", (str "GL", 2, 1)); (str "Galileo", (str "GA", 3, 7));
   (str "BeiDou", (str "GB", 4, 1)); (str "QZSS", (str "GQ", 5, 1))].
(** [POS_MODE[quality]], of a quality that [gga_quality] gives. *)
Definition POS_MODE (quality : Z) : bytes :=
  match quality with 0 => str "N" | 1 => str "A" | 2 => str "D" | 4 => str "R" | 5 => str "F" | 6 => str "E" | _ => str "M" end.
Definition SLOW_SENTENCES : list bytes := [str "GSA"; str "GSV"; str "ZDA"].
Definition ATTITUDE_SENTENCES : list bytes := [str "HDT"; str "PASHR"].
Definition ALL_SENTENCES : list bytes :=
  [str "GGA"; str "RMC"; str "GST"; str "VTG"; str "HDT"; str "PASHR"; str "GSA"; str "GSV"; str "ZDA"].

Definition gga_quality (s : State) : Z :=
  if fix_type s =? 0 then 0
  else if fix_type s =? 1 then 6
  else if fix_type s =? 5 then 7
  else if carr_soln s =? 2 then 4
  else if carr_soln s =? 1 then 5
  else if diff_soln s then 2 else 1.
Definition _quality (s : State) : Z := if negb (gnss_fix_ok s) || invalid_llh s then 0 else gga_quality s.
Definition has_valid_fix (s : State) : bool := 0 <? _quality s.

(** [_sentence]. *)
Definition _sentence (body : bytes) : bytes := str "$" ++ body ++ str "*" ++ fmt_digits 16 2 (nmea_checksum body) ++ [13; 10].

Definition _dec (dp : nat) (value : option Z) : bytes :=
  match value with
  | None => []
  | Some x =>
      if isfinite x then
        let text := fmt_fixed dp x in
        let text :=
          if mem_byte 46 text then
            let text := rstrip_of [48] text in
            if match list.last text with Some c => c =? 46 | None => false end then text ++ str "0" else text
          else text in
        if bool_decide (text = str "-0.0") || bool_decide (text = str "-0") then str "0.0" else text
      else []
  end.
Definition _fixed (dp : nat) (value : option Z) : bytes :=
  match value with None => [] | Some x => if isfinite x then fmt_fixed dp x else [] end.

(** [f"{t:%H%M%S}"] and the like. *)
Definition hms (t : Datetime) : bytes :=
  (fmt_digits 10 2 (hour (fields t)) ++ fmt_digits 10 2 (minute (fields t)) ++ fmt_digits 10 2 (second (fields t))).
Definition dmy (t : Datetime) : bytes := (fmt_d t ++ fmt_m t ++ fmt_digits 10 2 (year (fields t) mod 100)).
Definition _hms (t : Datetime) : bytes := (hms t ++ str "." ++ fmt_0d 2 (micro (fields t) / 10000)).

(** [_angle]: degrees and minutes; [None]: [int] raises. *)
Definition angle_parts (value : Z) : option (Z * Z) :=
  let value := fabs value in
  deg ← int_of value;
  let minutes := round_to 7 (fmul (fsub value (of_int deg)) (of_int 60)) in
  Some (if fge minutes (of_int 60) then (deg + 1, 0) else (deg, minutes)).
Definition _angle (value : Z) (deg_width : nat) : option bytes :=
  '(deg, minutes) ← angle_parts value;
  Some (fmt_0d deg_width deg ++ pad_left 48 10 (fmt_fixed 7 minutes)).

(** [x >= 0] on floats. *)
Definition not_negative (x : Z) : bool := fge x 0.

Definition _lat_lon (lat lon quality : Z) : option bytes :=
  if quality =? 0 then Some (str ",,,")
  else
    a ← _angle lat 2;
    b ← _angle lon 3;
    Some (a ++ str "," ++ (if not_negative lat then str "N" else str "S") ++ str "," ++ b ++ str "," ++ (if not_negative lon then str "E" else str "W")).

Definition _heading (deg : Z) : bytes := _fixed 2 (Some (fmod_pos (round_to 2 deg) (of_int 360))).

Definition _has_position (s : State) : bool :=
  match lat s, lon s, utc s with Some _, Some _, Some _ => true | _, _, _ => false end.

(** ** The sentences *)

(** A builder's answer: an exception, nothing, or a sentence. *)
Definition Built : Type := option (option bytes).
Definition built (body : bytes) : Built := Some (Some (_sentence body)).
Definition nothing : Built := Some None.

(** [",".join] *)
Fixpoint joined (fs : list bytes) : bytes :=
  match fs with [] => [] | [f] => f | f :: fs => f ++ str "," ++ joined fs end.

Definition is_rtk_quality (q : Z) : bool := bool_decide (q ∈ [2; 4; 5]).

Definition build_gga (s : State) : Built :=
  match lat s, lon s, utc s with
  | Some lat, Some lon, Some t =>
      let quality := _quality s in
      let '(alt, sep) :=
        if quality =? 0 then ([], [])
        else
          match hmsl_m s with
          | Some h => (_dec 3 (Some h), match height_m s with Some e => _dec 3 (Some (fsub e h)) | None => [] end)
          | None => (_dec 3 (height_m s), match height_m s with Some _ => str "0.0" | None => [] end)
          end in
      let differential := is_rtk_quality quality in
      let age := if differential then _dec 1 (corr_age_s s) else [] in
      let station := match ref_station_id s with Some i => if differential then fmt_0d 4 i else [] | None => [] end in
      ll ← _lat_lon lat lon quality;
      built (joined [str "GNGGA"; _hms t; ll; str_int quality; fmt_0d 2 (Z.min (num_sv s) 99); _dec 2 (dop_h s); alt; str "M"; sep; str "M"; age; station])
  | _, _, _ => nothing
  end.

Definition build_rmc (s : State) : Built :=
  match lat s, lon s, utc s with
  | Some lat, Some lon, Some t =>
      let quality := _quality s in
      let speed := (fun v => fmul v MPS_TO_KNOTS) <$> ground_speed_mps s in
      ll ← _lat_lon lat lon quality;
      built (joined [str "GNRMC"; _hms t; if quality =? 0 then str "V" else str "A"; ll; _dec 3 speed; _dec 2 (heading_motion_deg s); dmy t; []; [];
                     POS_MODE quality; str "V"])
  | _, _, _ => nothing
  end.

Definition residuals (s : State) : list Z := map pr_res_m (List.filter used (sats s)).
Definition build_gst (s : State) : Built :=
  match h_acc_m s, utc s with
  | Some h, Some t =>
      let std_h := fdiv h (fsqrt (of_int 2)) in
      let rs := residuals s in
      let rms := match rs with [] => None | _ => Some (fsqrt (fdiv_pos (fsum (map (fun r => fmul r r) rs)) (len rs))) end in
      built (joined [str "GNGST"; _hms t; _dec 4 rms; _dec 4 (Some std_h); _dec 4 (Some std_h); str "0.0"; _dec 4 (Some std_h); _dec 4 (Some std_h);
                     _dec 4 (v_acc_m s)])
  | _, _ => nothing
  end.

Definition build_vtg (s : State) : Built :=
  match ground_speed_mps s with
  | None => nothing
  | Some v =>
      built (joined [str "GNVTG"; _dec 2 (heading_motion_deg s); str "T"; []; str "M"; _dec 3 (Some (fmul v MPS_TO_KNOTS)); str "N";
                     _dec 3 (Some (fmul v MPS_TO_KMH)); str "K"; POS_MODE (_quality s)])
  end.

Definition build_zda (s : State) : Built :=
  match utc s with
  | None => nothing
  | Some t => built (joined [str "GNZDA"; _hms t; fmt_d t; fmt_m t; fmt_Y t; str "00"; str "00"])
  end.

Definition build_hdt (s : State) : Built :=
  match attitude s with
  | Some a => match heading_deg a with Some h => built (joined [str "GNHDT"; _heading h; str "T"]) | None => nothing end
  | None => nothing
  end.

Definition build_pashr (s : State) : Built :=
  match attitude s, utc s with
  | Some a, Some t =>
      match heading_deg a with
      | None => nothing
      | Some h =>
          let quality := _quality s in
          let flag := if quality =? 4 then 2 else if quality =? 0 then 0 else 1 in
          built (joined [str "PASHR"; _hms t; _heading h; str "T"; _fixed 2 (roll_deg a); _fixed 2 (pitch_deg a); str "0.00"; _fixed 3 (acc_roll_deg a);
                         _fixed 3 (acc_pitch_deg a); _fixed 3 (acc_heading_deg a); str_int flag; str "1"])
      end
  | _, _ => nothing
  end.

(** ** The blocks of the satellites *)

Definition _nmea_sv (sat : Satellite) : option Z :=
  if bool_decide (gnss sat = str "GLONASS") then
    if (1 <=? sv_id sat) && (sv_id sat <=? GLONASS_MAX_SLOT) then Some (sv_id sat + 64) else None
  else Some (sv_id sat).

(** [_by_system]: the groups in the order of [SYSTEM_TALKER], each with its talker and identifiers. *)
Definition group (name : bytes) (sats : list Satellite) : list (Z * Satellite) :=
  omap (fun sat => sv ← _nmea_sv sat; if bool_decide (gnss sat = name) then Some (sv, sat) else None) sats.
Definition _by_system (sats : list Satellite) : list (bytes * Z * Z * list (Z * Satellite)) :=
  omap (fun e => match group e.1 sats with [] => None | g => Some (e.2, g) end) SYSTEM_TALKER.

Definition build_gsa (s : State) : list bytes :=
  let nav_mode := if 3 <=? fix_type s then 3 else if fix_type s =? 2 then 2 else 1 in
  let dops := joined [_dec 2 (dop_p s); _dec 2 (dop_h s); _dec 2 (dop_v s)] in
  map (fun '(talker, system_id, _, g) =>
         let used := take 12 (map (fun p => fmt_0d 2 p.1) (List.filter (fun p => used p.2) g)) in
         let ids := used ++ replicate (12 - length used) [] in
         _sentence (joined ([talker ++ str "GSA"; str "A"; str_int nav_mode] ++ ids ++ [dops; fmt_digits 16 1 system_id])))
    (_by_system (sats s)).

Definition _gsv_angles (sat : Satellite) : bytes :=
  match elev sat with
  | Some e =>
      if (0 <=? e) && (e <=? 90) then
        match azim sat with
        | Some a => if (0 <=? a) && (a <=? 360) then fmt_0d 2 e ++ str "," ++ fmt_0d 3 (a mod 360) else fmt_0d 2 e ++ str ","
        | None => fmt_0d 2 e ++ str ","
        end
      else str ","
  | None => str ","
  end.

(** [[l[i : i + 4] for i in range(0, len(l), 4)]]. *)
Fixpoint by_four {A} (l : list A) : list (list A) :=
  match l with
  | a :: b :: c :: d :: r => [a; b; c; d] :: by_four r
  | [] => []
  | r => [r]
  end.

Definition gsv_entry (p : Z * Satellite) : bytes :=
  str "," ++ fmt_0d 2 p.1 ++ str "," ++ _gsv_angles p.2 ++ str "," ++ (if cno p.2 =? 0 then [] else fmt_0d 2 (cno p.2)).
Definition gsv_sentence (talker : bytes) (signal_id total count n : Z) (chunk : list (Z * Satellite)) : bytes :=
  _sentence (joined [talker ++ str "GSV"; str_int total; str_int n; fmt_0d 2 count ++ flat_map gsv_entry chunk; fmt_digits 16 1 signal_id]).
Definition gsv_group (talker : bytes) (signal_id : Z) (g : list (Z * Satellite)) : list bytes :=
  imap (fun n chunk => gsv_sentence talker signal_id (len (by_four g)) (len g) (Z.of_nat n + 1) chunk) (by_four g).
Definition build_gsv (s : State) : list bytes :=
  flat_map (fun '(talker, _, signal_id, g) => gsv_group talker signal_id g) (_by_system (sats s)).

(** ** An epoch *)

Definition single (s : State) (name : bytes) : Built :=
  if bool_decide (name = str "GGA") then build_gga s
  else if bool_decide (name = str "RMC") then build_rmc s
  else if bool_decide (name = str "GST") then build_gst s
  else if bool_decide (name = str "VTG") then build_vtg s
  else if bool_decide (name = str "ZDA") then build_zda s
  else if bool_decide (name = str "HDT") then build_hdt s
  else build_pashr s.

Definition skipped (s : State) (wanted : list bytes) (include_slow : bool) (name : bytes) : bool :=
  negb (bool_decide (name ∈ wanted))
  || (bool_decide (name ∈ SLOW_SENTENCES) && negb include_slow)
  || (negb (_has_position s) && negb (bool_decide (name ∈ ATTITUDE_SENTENCES))).

(** What [build_sentences] adds for a name; [None]: it raises. *)
Definition sentences_of (s : State) (name : bytes) : option (list bytes) :=
  if bool_decide (name = str "GSA") then Some (build_gsa s)
  else if bool_decide (name = str "GSV") then Some (build_gsv s)
  else o ← single s name; Some (olist o).

Fixpoint build_names (s : State) (wanted : list bytes) (include_slow : bool) (names : list bytes) : option (list bytes) :=
  match names with
  | [] => Some []
  | name :: names =>
      if skipped s wanted include_slow name then build_names s wanted include_slow names
      else
        out ← sentences_of s name;
        rest ← build_names s wanted include_slow names;
        Some (out ++ rest)
  end.
Definition build_sentences (s : State) (wanted : list bytes) (include_slow : bool) : option (list bytes) :=
  build_names s wanted include_slow ALL_SENTENCES.

(** A position a receiver could report. *)
Definition demo : State :=
  mkState (Some 1700000000123456) (Some (of_decimal false 238373506 (-7))) (Some (of_decimal true 1199999999999 (-10))) (Some (of_decimal false 5055 (-2)))
    (Some (of_decimal false 4812 (-2))) false 3 2 true true 12 (Some (of_decimal false 14 (-3))) (Some (of_decimal false 21 (-3))) (Some (of_decimal false 16 (-1)))
    (Some (of_decimal false 9 (-1))) (Some (of_decimal false 13 (-1))) (Some (of_decimal false 15 (-1))) (Some (of_decimal false 8725 (-2)))
    (Some (of_decimal false 12 (-1))) (Some 17)
    [mkSat (str "GPS") 5 45 (Some 61) (Some 360) (of_decimal false 3 (-1)) true; mkSat (str "GLONASS") 255 30 None None 0 false;
     mkSat (str "GLONASS") 3 0 (Some (-1)) (Some 12) (of_decimal true 4 (-1)) true]
    (Some (mkAttitude (Some (of_decimal true 5 (-1))) None (Some (of_decimal false 359996 (-3))) None None None)).

(** ** Every sentence is well formed *)

(** A character of a sentence's body: printable, and none of the marks. *)
Definition body_char (c : Z) : bool := (32 <=? c) && (c <? 127) && negb (c =? 36) && negb (c =? 42).
Definition clean (s : bytes) : Prop := forallb body_char s = true.

Create HintDb nmea discriminated.

Lemma clean_app a b : clean a -> clean b -> clean (a ++ b).
Proof. intros Ha Hb. unfold clean in *. by rewrite forallb_app, Ha, Hb. Qed.
Lemma clean_nil : clean [].
Proof. done. Qed.
Lemma clean_cons c s : body_char c = true -> clean s -> clean (c :: s).
Proof. intros Hc Hs. unfold clean in *. simpl. by rewrite Hc. Qed.
#[export] Hint Resolve clean_app clean_nil : nmea.
#[export] Hint Extern 1 (clean (str _)) => reflexivity : nmea.

Lemma clean_Forall s : Forall (fun c => body_char c = true) s -> clean s.
Proof. intros H. unfold clean. apply forallb_forall. by apply List.Forall_forall. Qed.
Lemma clean_Forall_1 s : clean s -> Forall (fun c => body_char c = true) s.
Proof. intros H. apply List.Forall_forall. by apply forallb_forall. Qed.

Lemma clean_sub s t : clean s -> (forall c, In c t -> In c s) -> clean t.
Proof. unfold clean. rewrite !forallb_forall. auto. Qed.

Lemma digit_clean base d : base_ok base -> 0 <= d < base -> body_char (digit_char d) = true.
Proof.
  intros Hb Hd. pose proof (digit_char_ascii d ltac:(destruct Hb; lia)) as H. unfold body_char.
  generalize dependent (digit_char d). intros c H.
  rewrite (proj2 (Z.leb_le _ _)), (proj2 (Z.ltb_lt _ _)), !(proj2 (Z.eqb_neq _ _)) by lia. done.
Qed.

Lemma min_digits_clean base v : base_ok base -> 0 <= v -> clean (min_digits base v).
Proof. intros Hb Hv. apply clean_Forall, min_digits_chars; [done..|]. intros d. by apply digit_clean. Qed.

Lemma fixed_digits_clean base k v : base_ok base -> clean (fixed_digits base k v).
Proof. intros Hb. apply clean_Forall, fixed_digits_chars; [done|]. intros d. by apply digit_clean. Qed.

Lemma replicate_clean k c : body_char c = true -> clean (replicate k c).
Proof. intros H. induction k; [done|]. by apply clean_cons. Qed.

Lemma fmt_digits_clean base k v : base_ok base -> 0 <= v -> clean (fmt_digits base k v).
Proof. intros Hb Hv. apply clean_app; [by apply replicate_clean|by apply min_digits_clean]. Qed.

Lemma fmt_0d_clean k i : clean (fmt_0d k i).
Proof.
  unfold fmt_0d. destruct (_ <? _) eqn:E; zbool; [apply clean_cons; [done|]|]; apply fmt_digits_clean; (by left) || lia.
Qed.

Lemma str_int_clean i : clean (str_int i).
Proof. unfold str_int. destruct (_ <? _) eqn:E; zbool; [apply clean_cons; [done|]|]; apply min_digits_clean; (by left) || lia. Qed.

Lemma rne_not_negative n d : 0 <= n -> 0 < d -> 0 <= rne n d.
Proof. intros Hn Hd. pose proof (Z.div_pos n d Hn Hd). unfold rne. repeat (destruct (_ <? _)); try destruct (Z.even _); lia. Qed.

Lemma fval_nonneg p w b neg m e : 0 < p -> fval p w b = FFin neg m e -> 0 <= m.
Proof.
  intros Hp. unfold fval. assert (0 < 2 ^ (p - 1)) by (apply Z.pow_pos_nonneg; lia). pose proof (Z.mod_pos_bound b (2 ^ (p - 1)) ltac:(lia)).
  repeat (destruct (_ =? _)); intros [= <- <- <-]; lia.
Qed.

Lemma fmt_fixed_clean k x : clean (fmt_fixed k x).
Proof.
  unfold fmt_fixed. destruct (f64 x) as [neg m e|neg|] eqn:E; [|by destruct neg|done].
  apply fval_nonneg in E; [|done]. cbv zeta. set (v := rne _ _).
  assert (0 <= v).
  { apply rne_not_negative; [|apply pow2_pos]. pose proof (pow2_pos e). assert (0 < 10 ^ Z.of_nat k) by (apply Z.pow_pos_nonneg; lia). nia. }
  apply clean_app; [by destruct neg|]. apply clean_app; [apply min_digits_clean; [by left|apply Z.div_pos; [done|apply Z.pow_pos_nonneg; lia]]|].
  destruct k; [done|]. apply clean_app; [done|apply fixed_digits_clean; by left].
Qed.
#[export] Hint Resolve fmt_0d_clean str_int_clean fmt_fixed_clean : nmea.

Lemma lstrip_incl chars s c : In c (lstrip_of chars s) -> In c s.
Proof. induction s as [|x s IH]; simpl; [done|]. destruct (mem_byte x chars); [auto|done]. Qed.

Lemma dec_clean k o : clean (_dec k o).
Proof.
  destruct o as [x|]; [|done]. unfold _dec. destruct (isfinite x); [|done]. cbv zeta.
  set (t := if mem_byte 46 _ then _ else _). assert (Ht : clean t); [|destruct (_ || _); done].
  subst t. destruct (mem_byte 46 _); [|apply fmt_fixed_clean].
  assert (clean (rstrip_of [48] (fmt_fixed k x))).
  { eapply clean_sub; [apply (fmt_fixed_clean k x)|]. intros c Hc. unfold rstrip_of in Hc. apply in_rev in Hc. apply lstrip_incl in Hc. by apply in_rev. }
  match goal with |- clean (if ?b then _ else _) => destruct b end; auto with nmea.
Qed.

Lemma fixed_clean k o : clean (_fixed k o).
Proof. destruct o as [x|]; [|done]. unfold _fixed. destruct (isfinite x); auto with nmea. Qed.
#[export] Hint Resolve dec_clean fixed_clean : nmea.

Lemma joined_clean fs : Forall clean fs -> clean (joined fs).
Proof.
  induction 1 as [|f fs Hf H IH]; [done|]. destruct fs as [|g fs]; [done|]. change (clean (f ++ str "," ++ joined (g :: fs))).
  auto with nmea.
Qed.

(** A time Python can hold. *)
Definition time_ok (t : Datetime) : Prop := 1 <= year (fields t).

Lemma fields_nonneg t : 0 <= hour (fields t) /\ 0 <= minute (fields t) /\ 0 <= second (fields t) /\ 1 <= month (fields t) /\ 1 <= day (fields t).
Proof.
  pose proof (civil_month_day (t / DAY)) as Hmd. unfold fields. destruct (civil_from_days _) as [[y m] d]. simpl.
  assert (0 <= t mod DAY) by (apply Z.mod_pos_bound; done).
  split_and!; try lia; [by apply Z.div_pos| |]; (apply Z.div_pos; [|done]); by apply Z.mod_pos_bound.
Qed.

Lemma time_clean t : time_ok t -> clean (_hms t) /\ clean (dmy t) /\ clean (fmt_d t) /\ clean (fmt_m t) /\ clean (fmt_Y t).
Proof.
  intros H. unfold time_ok in H. destruct (fields_nonneg t) as (H1 & H2 & H3 & H4 & H5).
  assert (Hd : forall k v, 0 <= v -> clean (fmt_digits 10 k v)) by (intros; apply fmt_digits_clean; [by left|done]).
  assert (0 <= year (fields t) mod 100) by (by apply Z.mod_pos_bound).
  unfold _hms, hms, dmy, fmt_d, fmt_m, fmt_Y.
  assert (0 <= month (fields t) /\ 0 <= day (fields t) /\ 0 <= year (fields t)) as (? & ? & ?) by lia.
  split_and!; auto 10 with nmea.
Qed.

Lemma angle_clean v k a : _angle v k = Some a -> clean a.
Proof.
  unfold _angle. destruct (angle_parts v) as [[deg minutes]|]; [|done]. intros [= <-].
  apply clean_app; [apply fmt_0d_clean|]. apply clean_app; [by apply replicate_clean|apply fmt_fixed_clean].
Qed.

Lemma lat_lon_clean lat lon q a : _lat_lon lat lon q = Some a -> clean a.
Proof.
  unfold _lat_lon. destruct (_ =? _); [by intros [= <-]|]. destruct (_angle lat 2) as [x|] eqn:E1; [|done].
  destruct (_angle lon 3) as [y|] eqn:E2; [|done]. intros [= <-]. apply angle_clean in E1, E2.
  repeat apply clean_app; try done; by destruct (not_negative _).
Qed.

(** A sentence of a clean body. *)
Definition wellformed (s : bytes) : Prop := exists body, clean body /\ s = _sentence body.
Definition built_ok (b : Built) : Prop := forall s, b = Some (Some s) -> wellformed s.

Lemma built_clean fs : Forall clean fs -> built_ok (built (joined fs)).
Proof. intros H s [= <-]. exists (joined fs). split; [by apply joined_clean|done]. Qed.

Definition state_ok (s : State) : Prop := forall t, utc s = Some t -> time_ok t.

Ltac fields_clean :=
  repeat (constructor; [first [done | solve [auto with nmea] | solve [repeat case_match; auto with nmea]]|]); try constructor.

Lemma gga_ok s : state_ok s -> built_ok (build_gga s).
Proof.
  intros Hs. unfold build_gga. destruct (lat s), (lon s), (utc s) as [t|] eqn:Et; try done. destruct (time_clean t (Hs t Et)) as (H1 & _).
  set (p := if _ =? 0 then _ else _). assert (Hp : clean p.1 /\ clean p.2).
  { subst p. destruct (_ =? 0); [done|]. destruct (hmsl_m s), (height_m s); split; cbn [fst snd]; auto with nmea. }
  destruct p as [alt sep]. destruct Hp as [Ha Hsep]; cbn [fst snd] in Ha, Hsep.
  destruct (_lat_lon _ _ _) as [ll|] eqn:El; [|done]. apply lat_lon_clean in El. cbn [mbind option_bind]. apply built_clean.
  fields_clean.
Qed.

Lemma rmc_ok s : state_ok s -> built_ok (build_rmc s).
Proof.
  intros Hs. unfold build_rmc. destruct (lat s), (lon s), (utc s) as [t|] eqn:Et; try done.
  destruct (time_clean t (Hs t Et)) as (H1 & H2 & _). destruct (_lat_lon _ _ _) as [ll|] eqn:El; [|done]. apply lat_lon_clean in El.
  cbn [mbind option_bind]. apply built_clean. unfold POS_MODE. fields_clean.
Qed.

Lemma gst_ok s : state_ok s -> built_ok (build_gst s).
Proof.
  intros Hs. unfold build_gst. destruct (h_acc_m s), (utc s) as [t|] eqn:Et; try done. destruct (time_clean t (Hs t Et)) as (H1 & _).
  apply built_clean. fields_clean.
Qed.

Lemma vtg_ok s : built_ok (build_vtg s).
Proof. unfold build_vtg. destruct (ground_speed_mps s); [|done]. apply built_clean. unfold POS_MODE. fields_clean. Qed.

Lemma zda_ok s : state_ok s -> built_ok (build_zda s).
Proof.
  intros Hs. unfold build_zda. destruct (utc s) as [t|] eqn:Et; [|done]. destruct (time_clean t (Hs t Et)) as (H1 & _ & H2 & H3 & H4).
  apply built_clean. fields_clean.
Qed.

Lemma heading_clean h : clean (_heading h).
Proof. apply fixed_clean. Qed.
#[export] Hint Resolve heading_clean : nmea.

Lemma hdt_ok s : built_ok (build_hdt s).
Proof. unfold build_hdt. destruct (attitude s) as [a|]; [|done]. destruct (heading_deg a); [|done]. apply built_clean. fields_clean. Qed.

Lemma pashr_ok s : state_ok s -> built_ok (build_pashr s).
Proof.
  intros Hs. unfold build_pashr. destruct (attitude s) as [a|], (utc s) as [t|] eqn:Et; try done. destruct (heading_deg a); [|done].
  destruct (time_clean t (Hs t Et)) as (H1 & _). apply built_clean. fields_clean.
Qed.

Lemma single_ok s name : state_ok s -> built_ok (single s name).
Proof.
  intros H. unfold single. repeat case_bool_decide; auto using gga_ok, rmc_ok, gst_ok, vtg_ok, zda_ok, hdt_ok, pashr_ok.
Qed.

Definition talker_ok (e : bytes * (bytes * Z * Z)) : Prop := clean e.2.1.1 /\ 0 <= e.2.1.2 /\ 0 <= e.2.2.
Lemma by_system_ok sats e : In e (_by_system sats) -> clean e.1.1.1 /\ 0 <= e.1.1.2 /\ 0 <= e.1.2 /\ In (e.1) (map snd SYSTEM_TALKER).
Proof.
  intros H. unfold _by_system in H. apply list_elem_of_In, list_elem_of_omap in H as (x & Hx & E).
  destruct (group x.1 sats); [done|]. injection E as <-. cbn [fst].
  assert (Forall talker_ok SYSTEM_TALKER) as Ht by (repeat constructor; simpl; lia).
  rewrite list.Forall_forall in Ht. destruct (Ht x Hx) as (H1 & H2 & H3). split_and!; try done. apply in_map. by apply list_elem_of_In.
Qed.

Lemma gsa_ok s : Forall wellformed (build_gsa s).
Proof.
  unfold build_gsa. apply Forall_map, list.Forall_forall. intros e He%list_elem_of_In. apply by_system_ok in He as (H1 & H2 & _).
  destruct e as [[[talker sid] sig] g]. cbn [fst snd] in *. eexists. split; [|reflexivity]. apply joined_clean.
  apply Forall_app; split; [by fields_clean|]. apply Forall_app; split.
  - apply Forall_app; split; [apply Forall_take, Forall_map, Forall_true; intros; apply fmt_0d_clean|].
    apply Forall_replicate. apply clean_nil.
  - assert (clean (joined [_dec 2 (dop_p s); _dec 2 (dop_h s); _dec 2 (dop_v s)])) by (apply joined_clean; fields_clean).
    assert (clean (fmt_digits 16 1 sid)) by (by apply fmt_digits_clean; [right|]). fields_clean.
Qed.

Lemma angles_clean sat : clean (_gsv_angles sat).
Proof. unfold _gsv_angles. repeat case_match; auto with nmea. Qed.
#[export] Hint Resolve angles_clean : nmea.

Lemma entries_clean chunk : clean (flat_map gsv_entry chunk).
Proof. induction chunk as [|p c IH]; [done|]. cbn [flat_map]. apply clean_app; [|done]. unfold gsv_entry. case_match; auto 10 with nmea. Qed.

Lemma gsv_ok s : Forall wellformed (build_gsv s).
Proof.
  unfold build_gsv. apply Forall_flat_map, list.Forall_forall. intros e He%list_elem_of_In. apply by_system_ok in He as (H1 & _ & H2 & _).
  destruct e as [[[talker sid] sig] g]. cbn [fst snd] in *. unfold gsv_group. apply list.Forall_forall. intros x (n & chunk & -> & _)%elem_of_lookup_imap.
  eexists. split; [|reflexivity]. apply joined_clean. pose proof (entries_clean chunk).
  assert (clean (fmt_digits 16 1 sig)) by (by apply fmt_digits_clean; [right|]). fields_clean.
Qed.

Lemma sentences_of_ok s name out : state_ok s -> sentences_of s name = Some out -> Forall wellformed out.
Proof.
  intros Hs. unfold sentences_of. repeat case_bool_decide; [intros [= <-]; apply gsa_ok|intros [= <-]; apply gsv_ok|].
  destruct (single s name) as [[x|]|] eqn:E; [|by intros [= <-]|done]. intros [= <-]. constructor; [|done]. by apply (single_ok s name).
Qed.

Lemma build_sentences_ok s wanted slow out : state_ok s -> build_sentences s wanted slow = Some out -> Forall wellformed out.
Proof.
  intros Hs. unfold build_sentences. revert out. induction ALL_SENTENCES as [|name names IH]; intros out; cbn [build_names]; [by intros [= <-]|].
  destruct (skipped _ _ _ _); [apply IH|]. destruct (sentences_of s name) as [a|] eqn:E; [|done]. cbn [mbind option_bind].
  destruct (build_names _ _ _ _) as [b|]; [|done]. intros [= <-]. apply Forall_app. split; [by eapply sentences_of_ok|by apply IH].
Qed.

(** ** Sentences on the wire *)

Lemma nmea_clean_bytes s : clean s -> bytes_ok s.
Proof.
  intros H%clean_Forall_1. eapply Forall_impl; [|exact H]. intros c Hc. unfold body_char in Hc. zbool. unfold is_byte. lia.
Qed.

Lemma clean_not_in c s : clean s -> body_char c = false -> c ∉ s.
Proof. intros H%clean_Forall_1 Hc Hin. rewrite list.Forall_forall in H. rewrite (H c Hin) in Hc. done. Qed.

Lemma checksum_range body : bytes_ok body -> 0 <= nmea_checksum body < 256.
Proof. intros H. apply (fold_range Z.lxor is_byte); [by intros; apply (lxor_bound 8)|done|unfold is_byte; lia]. Qed.

Lemma checksum_text body : clean body ->
  exists h1 h2, fmt_digits 16 2 (nmea_checksum body) = [h1; h2] /\ clean [h1; h2] /\ py_int 16 [h1; h2] = Some (nmea_checksum body).
Proof.
  intros H. pose proof (checksum_range body (nmea_clean_bytes _ H)) as Hr. assert (Hb : base_ok 16) by by right.
  rewrite fmt_digits_fixed by (done || lia). pose proof (fixed_digits_clean 16 2 (nmea_checksum body) Hb) as Hc.
  pose proof (py_int_fixed 16 2 (nmea_checksum body) Hb ltac:(lia) Hr) as Hp.
  pose proof (length_fixed_digits 16 2 (nmea_checksum body)) as Hl.
  destruct (fixed_digits _ _ _) as [|h1 [|h2 [|? ?]]]; try done. by exists h1, h2.
Qed.

Lemma bfind_cr a : 13 ∉ a -> bfind [13; 10] (a ++ [13; 10]) = Some (length a).
Proof.
  induction a as [|c a IH]; intros H; [done|]. apply not_elem_of_cons in H as [Hc H]. cbn [app bfind startswith].
  rewrite (proj2 (Z.eqb_neq _ _)) by congruence. cbn [andb]. by rewrite IH.
Qed.

Lemma wellformed_sentence s : wellformed s -> sentence s.
Proof.
  intros (body & Hb & ->). destruct (checksum_text body Hb) as (h1 & h2 & E & Hh & _). unfold _sentence. rewrite E.
  exists (body ++ [42; h1; h2; 13]). split; [by rewrite <- app_assoc|].
  pose proof (clean_not_in 36 _ Hb eq_refl). pose proof (clean_not_in 10 _ Hb eq_refl).
  pose proof (clean_not_in 36 _ Hh eq_refl). pose proof (clean_not_in 10 _ Hh eq_refl). set_solver.
Qed.

Lemma wellformed_wire s : wellformed s -> len s <= 258 -> wire_valid (mkFrame NMEA s).
Proof.
  intros (body & Hb & ->) Hl. destruct (checksum_text body Hb) as (h1 & h2 & E & Hh & Hp). unfold _sentence in *. rewrite E in *.
  change (str "$" ++ body ++ str "*" ++ [h1; h2] ++ [13; 10]) with ([NMEA_START] ++ body ++ [42; h1; h2; 13; 10]) in *.
  apply wire_nmea; try done.
  - apply Forall_app. split; by apply nmea_clean_bytes.
  - rewrite !length_app in Hl. simpl in Hl. lia.
  - unfold mem_byte. cbn [existsb]. pose proof (clean_not_in 42 _ Hh eq_refl) as Hn.
    rewrite !(proj2 (Z.eqb_neq _ _)) by set_solver. done.
  - replace ([NMEA_START] ++ body ++ [42; h1; h2; 13; 10]) with ((NMEA_START :: body ++ [42; h1; h2]) ++ [13; 10]) by (simpl; by rewrite <- app_assoc).
    rewrite bfind_cr; [simpl; rewrite length_app; simpl; f_equal; lia|].
    pose proof (clean_not_in 13 _ Hb eq_refl). pose proof (clean_not_in 13 _ Hh eq_refl). unfold NMEA_START. set_solver.
Qed.

(** C35.  Of an epoch whose time is not before the year 1 ([state_ok]) and of which every sentence could
    be built, is at most 258 bytes long and fits, with the others, in the framer's buffer, each sentence
    is [$], a body of printable characters without
    [$] and [*], its checksum and the line end; the framer of the receiver's own stream finds exactly them
    again in what is written, in order and with nothing left over. *)
Theorem epoch_framed s wanted slow out m :
  state_ok s -> build_sentences s wanted slow = Some out ->
  Forall (fun x => len x <= 258) out -> len (concat out) <= m ->
  Forall wellformed out
  /\ framer_feed (concat out) (new_framer m) = (mkFramer [] m (mkStats 0 0 (len out) 0 0), map (mkFrame NMEA) out).
Proof.
  intros Hs Hb Hl Hm. pose proof (build_sentences_ok _ _ _ _ Hs Hb) as Hw. split; [done|]. clear Hb.
  assert (E : concat out = flat_map raw (map (mkFrame NMEA) out)) by (clear; induction out as [|x out IH]; simpl; by rewrite ?IH).
  assert (Hv : Forall wire_valid (map (mkFrame NMEA) out)).
  { apply Forall_map, list.Forall_forall. intros x Hx. rewrite list.Forall_forall in Hw, Hl. apply wellformed_wire; auto. }
  assert (Hc : forall n, count_frames (map (mkFrame NMEA) out) (mkStats 0 0 n 0 0) = mkStats 0 0 (n + len out) 0 0).
  { clear. induction out as [|x out IH]; intros n; [simpl; by rewrite Z.add_0_r|]. simpl map. unfold count_frames in *. simpl foldl.
    cbn [proto count_frame frames_ubx frames_rtcm3 frames_nmea garbage_bytes checksum_errors]. rewrite IH. f_equal. simpl length. lia. }
  rewrite E in *. unfold framer_feed. rewrite framer_cap_small by done. unfold framer_push, new_framer. simpl app.
  rewrite <- (app_nil_r (flat_map raw _)). rewrite run_wire_valid by (done || constructor).
  rewrite (run_step (L := framer_laws)) by constructor. simpl. by rewrite app_nil_r, Hc.
Qed.

Lemma epoch_framed_witness :
  let out := default [] (build_sentences demo ALL_SENTENCES true) in
  state_ok demo /\ length out = 11%nat /\ (framer_feed (concat out) (new_framer 1048576)).2 = map (mkFrame NMEA) out.
Proof.
  cbv zeta. assert (H : state_ok demo) by (intros t [= <-]; vm_compute; discriminate). split; [exact H|]. split; [vm_compute; reflexivity|].
  destruct (epoch_framed demo ALL_SENTENCES true (default [] (build_sentences demo ALL_SENTENCES true)) 1048576 H) as [_ E].
  - vm_compute. reflexivity.
  - apply (bool_decide_unpack _). vm_compute. exact I.
  - vm_compute. discriminate.
  - by rewrite E.
Defined.

(** ** Angles *)

(** Minutes in units of their seventh decimal. *)
Definition MINUTE : Z := 10000000.
Definition minutes_text (m : Z) : bytes := fmt_digits 10 2 (m / MINUTE) ++ str "." ++ fixed_digits 10 7 (m mod MINUTE).

Lemma one_big : 2 ^ 100 <= ONE.
Proof. unfold ONE. apply Z.pow_le_mono_r; lia. Qed.

Lemma fmt_worth x u d : worth x u -> 2 * Z.abs (d * ONE - u * MINUTE) < ONE -> pad_left 48 10 (fmt_fixed 7 x) = minutes_text d.
Proof.
  intros (_ & m & e & E & He & Hm & Hu) Hd. unfold fmt_fixed. rewrite E. cbv zeta. change (10 ^ Z.of_nat 7) with MINUTE.
  rewrite (units_rne m e u MINUTE He Hu), (rne_near _ _ d one_pos Hd). unfold pad_left, minutes_text, fmt_digits.
  change (str ".") with [46]. rewrite app_nil_l, !length_app, length_fixed_digits, <- app_assoc. change (length [46]) with 1%nat. do 2 f_equal. lia.
Qed.

Lemma sixty : f64 (of_int 60) = FFin false (60 * 2 ^ 47) (-47).
Proof. vm_compute. reflexivity. Qed.

(** Sixty times a fraction of a degree. *)
Lemma minutes_worth x a : worth x a -> a < ONE -> exists r, worth (fmul x (of_int 60)) r /\ 2 ^ 23 * (MINUTE * Z.abs (r - 60 * a)) <= ONE.
Proof.
  intros Hx Ha. pose proof (worth_nonneg _ _ Hx). pose proof one_big.
  destruct (fmul_worth x (of_int 60) a _ _ 47 Hx sixty) as (r & Hr & Herr); [done|done|done|lia|].
  exists r. split; [done|]. replace (r * 2 ^ 47 - a * (60 * 2 ^ 47)) with (2 ^ 47 * (r - 60 * a)) in Herr by ring.
  rewrite Z.abs_mul in Herr. change (Z.abs (2 ^ 47)) with (2 ^ 47) in Herr. unfold MINUTE. lia.
Qed.

(** The decimal nearest to [d / 10^7]. *)
Lemma decimal_worth d : 0 <= d <= 60 * MINUTE ->
  exists r, worth (of_decimal false d (- 7)) r /\ 2 ^ 23 * Z.abs (r * MINUTE - d * ONE) <= ONE /\ (d = 60 * MINUTE -> r = 60 * ONE).
Proof.
  intros Hd. pose proof one_big. unfold of_decimal. destruct (d =? 0) eqn:E0; zbool.
  { subst d. exists 0. split; [apply worth_zero|]. split; [change (Z.abs _) with 0; lia|done]. }
  change (10 ^ Z.max 0 (- - 7)) with MINUTE. change (10 ^ Z.max 0 (- 7)) with 1. rewrite Z.mul_1_r.
  destruct (round_ratio_worth d MINUTE) as (r & Hr & Herr & Hex); [lia|done| |].
  { apply Z.le_lt_trans with (60 * MINUTE); [lia|]. unfold MINUTE. lia. }
  exists r. split; [done|]. unfold MINUTE in *.
  assert (d * ONE <= 600000000 * ONE) by (apply Z.mul_le_mono_nonneg_r; lia). split; [lia|]. intros ->. specialize (Hex 60 0 ltac:(lia) ltac:(lia)).
  change (2 ^ (0 + 1074)) with ONE in Hex. lia.
Qed.

(** An angle prints as whole degrees and minutes below sixty, to seven decimals: together they
    are within 0.51 units of the last decimal of the float they stand for, whatever the rounding of the
    product and of the decimal, the carry into the degrees included. *)
Theorem angle_exact v neg m e k :
  0 <= v < 2 ^ 64 -> f64 v = FFin neg m e -> let u := m * 2 ^ (e + 1074) in u < 1000 * ONE ->
  exists deg minutes,
    _angle v k = Some (fmt_0d k deg ++ minutes_text minutes) /\ 0 <= deg <= 1000 /\ 0 <= minutes < 60 * MINUTE
    /\ 100 * Z.abs ((deg * (60 * MINUTE) + minutes) * ONE - u * (60 * MINUTE)) <= 51 * ONE.
Proof.
  intros Hv E u Hu. pose proof one_pos as H1. pose proof one_big as HB. pose proof (f64_unsign v m e neg Hv E) as Hx. fold u in Hx.
  pose proof (worth_nonneg _ _ Hx) as Hu0. assert (Hdeg : 0 <= u / ONE < 1000) by (split; [by apply Z.div_pos|apply Z.div_lt_upper_bound; lia]).
  pose proof (Z.mod_pos_bound u ONE H1) as Ha. pose proof (Z.div_mod u ONE ltac:(lia)) as Hdm.
  unfold _angle, angle_parts. fold (fabs v) in Hx. destruct Hx as (Hb & m' & e' & E' & He' & Hm' & Eu). unfold int_of. rewrite E'.
  cbn [mbind option_bind]. rewrite (units_div m' e' u He' Eu). set (deg := u / ONE) in *.
  assert (Hfr : worth (fsub (fabs v) (of_int deg)) (u mod ONE)).
  { pose proof (of_int_worth deg ltac:(lia)) as Hd. unfold fsub, fneg. destruct Hd as [Hd1 Hd2]. rewrite (proj2 (Z.leb_gt _ _)) by lia.
    apply fraction_worth; [split; [done|by exists m', e']|]. by split. }
  destruct (minutes_worth _ _ Hfr ltac:(lia)) as (r & Hr & Herr). pose proof (worth_nonneg _ _ Hr) as Hr0.
  pose proof (rne_spec (r * MINUTE) ONE H1) as Hrne. set (d := rne (r * MINUTE) ONE) in *.
  assert (Er : round_to 7 (fmul (fsub (fabs v) (of_int deg)) (of_int 60)) = of_decimal false d (- 7)).
  { destruct Hr as (_ & mr & er & Er & Her & Hmr & Hur). unfold round_to. rewrite Er. change (10 ^ 7) with MINUTE.
    by rewrite (units_rne mr er r MINUTE Her Hur). }
  rewrite Er. set (a := u mod ONE) in *. unfold MINUTE in Herr, Hrne.
  assert (Hd : 0 <= d) by (apply rne_not_negative; unfold MINUTE; lia). assert (Hd6 : d <= 60 * MINUTE) by (unfold MINUTE; nia).
  destruct (decimal_worth d (conj Hd Hd6)) as (r' & Hr' & Herr' & H60).
  rewrite (fge_worth _ _ _ _ Hr' (of_int_worth 60 ltac:(lia))). unfold MINUTE in Herr', H60, Hd6 |- *.
  destruct (decide (d = 60 * 10000000)) as [->|Hn].
  - rewrite H60, Z.leb_refl by done. exists (deg + 1), 0. split_and!; [done|lia|lia|lia|lia|]. nia.
  - rewrite (proj2 (Z.leb_gt _ _)) by nia. exists deg, d. split_and!; [|lia|lia|lia|lia|nia].
    rewrite (fmt_worth _ r' d Hr'); [done|]. unfold MINUTE. lia.
Qed.

(** 119.9999999999 degrees. *)
Lemma angle_exact_witness :
  let v := of_decimal false 1199999999999 (-10) in
  exists m e, f64 v = FFin false m e /\ m * 2 ^ (e + 1074) < 1000 * ONE /\ _angle v 3 = Some (str "12000.0000000")
  /\ exists deg minutes, _angle v 3 = Some (fmt_0d 3 deg ++ minutes_text minutes) /\ minutes < 60 * MINUTE.
Proof.
  pose (m := match f64 (of_decimal false 1199999999999 (-10)) with FFin _ m _ => m | _ => 0 end).
  pose (e := match f64 (of_decimal false 1199999999999 (-10)) with FFin _ _ e => e | _ => 0 end).
  assert (E : f64 (of_decimal false 1199999999999 (-10)) = FFin false m e) by (vm_compute; reflexivity).
  assert (H : m * 2 ^ (e + 1074) < 1000 * ONE) by (vm_compute; reflexivity).
  exists m, e. split; [exact E|]. split; [exact H|]. split; [vm_compute; reflexivity|].
  destruct (angle_exact (of_decimal false 1199999999999 (-10)) false m e 3 ltac:(vm_compute; split; [discriminate|reflexivity]) E H)
    as (deg & minutes & E' & _ & [_ Hm] & _).
  exists deg, minutes. split; [exact E'|exact Hm].
Defined.

(** The sentences of a system carry its satellites, four to each, all of them in order. *)
Lemma by_four_spec {A} (l : list A) : concat (by_four l) = l /\ Forall (fun c => c <> [] /\ (length c <= 4)%nat) (by_four l).
Proof.
  revert l. fix IH 1. intros [|a [|b [|c [|d l]]]]; cbn [by_four concat app]; try (split; [done|]; repeat constructor; simpl; (done || lia)).
  destruct (IH l) as [-> H]. split; [done|]. constructor; [|done]. split; [done|simpl; lia].
Qed.
