(* ===== verification/NmeaOut.v ===== *)
(** * The publisher of sentences ([rover/nmea_out.py])

    Each epoch is written to every sink that works; one that does not is set aside, closed and tried
    again later. A sink is known by its place in the publisher's list; what its [start] and [write] do
    comes with the epoch, and every call made of it is kept in [calls]. Times are what the monotonic
    clock reads. *)

From stdpp Require Import gmap.
From S2P Require Import Prelude.
From S2P Require Import PyBytes.
From S2P Require Import Nmea.

Definition SINK_RETRY : Z := 10000000.

Inductive Call := Start (id : nat) | Write (id : nat) (payload : bytes) | Close (id : nat).

Section Publisher.
(** The number of sinks, the names of the sentences, the interval of the slow ones. *)
Context (sinks : nat) (sentences : list bytes) (slow_interval : Z).

Record Publisher := mkPublisher {
  running : bool; active : list nat; failed : gmap nat Z; last_slow : option Z; sent : Z; calls : list Call
}.

(** [_start]; [raised]: when the sink's [start] raised, the time it did. *)
Definition _start (id : nat) (raised : option Z) (p : Publisher) : Publisher :=
  match raised with
  | Some t => mkPublisher (running p) (active p) (<[id := t + SINK_RETRY]> (failed p)) (last_slow p) (sent p) (calls p ++ [Start id])
  | None => mkPublisher (running p) (active p ++ [id]) (delete id (failed p)) (last_slow p) (sent p) (calls p ++ [Start id])
  end.

Definition due (now : Z) (p : Publisher) (id : nat) : bool := match failed p !! id with Some d => d <=? now | None => false end.
Definition retry_one (now : Z) (starts : nat -> option Z) (p : Publisher) (id : nat) : Publisher :=
  if due now p id then _start id (starts id) p else p.
Definition _retry_failed (now : Z) (starts : nat -> option Z) (p : Publisher) : Publisher :=
  foldl (retry_one now starts) p (seq 0 sinks).

(** A turn of the loop over the active sinks; [ok]: the write did not raise. *)
Definition write_one (now : Z) (payload : bytes) (ok : nat -> bool) (p : Publisher) (id : nat) : Publisher :=
  let p := mkPublisher (running p) (active p) (failed p) (last_slow p) (sent p) (calls p ++ [Write id payload]) in
  if ok id then p
  else
    mkPublisher (running p) (List.filter (fun i => negb (i =? id)%nat) (active p)) (<[id := now + SINK_RETRY]> (failed p)) (last_slow p) (sent p)
      (calls p ++ [Close id]).

Definition slow_due (now : Z) (p : Publisher) : bool := match last_slow p with None => true | Some t => slow_interval <=? now - t end.

(** The [finally] of [run]. *)
Definition finish (p : Publisher) : Publisher :=
  mkPublisher false [] (failed p) (last_slow p) (sent p) (calls p ++ map Close (active p)).

(** [_publish]; a builder that raises ends [run]. *)
Definition _publish (now : Z) (s : State) (starts : nat -> option Z) (ok : nat -> bool) (p : Publisher) : Publisher :=
  let p := _retry_failed now starts p in
  let slow := slow_due now p in
  match build_sentences s sentences slow with
  | None => finish p
  | Some out =>
      let payload := concat out in
      if bool_decide (payload = []) then p
      else
        let p := mkPublisher (running p) (active p) (failed p) (if slow then Some now else last_slow p) (sent p) (calls p) in
        let p := foldl (write_one now payload ok) p (active p) in
        mkPublisher (running p) (active p) (failed p) (last_slow p) (sent p + 1) (calls p)
  end.

(** [run], to its loop. *)
Definition begin_run (starts : nat -> option Z) (p : Publisher) : Publisher :=
  foldl (fun p id => _start id (starts id) p) (mkPublisher true [] ∅ (last_slow p) (sent p) (calls p)) (seq 0 sinks).

Definition new_publisher : Publisher := mkPublisher false [] ∅ None 0 [].

Inductive Event :=
| Begin (starts : nat -> option Z) | Epoch (now : Z) (s : State) (starts : nat -> option Z) (ok : nat -> bool) | Stopped.

Definition step (e : Event) (p : Publisher) : Publisher :=
  match e with
  | Begin starts => if running p then p else begin_run starts p
  | Epoch now s starts ok => if running p then _publish now s starts ok p else p
  | Stopped => if running p then finish p else p
  end.
Definition run_events (es : list Event) (p : Publisher) : Publisher := foldl (fun p e => step e p) p es.

(** ** Sinks are active or set aside *)

Definition placed (p : Publisher) (k : nat) : Prop :=
  NoDup (active p) /\ forall id, (id < k)%nat <-> (id ∈ active p \/ is_Some (failed p !! id)).
Definition apart (p : Publisher) : Prop := forall id, id ∈ active p -> failed p !! id = None.
Definition books (p : Publisher) : Prop := if running p then placed p sinks /\ apart p else active p = [].

Lemma start_placed id raised p k : k = id -> placed p k -> apart p -> failed p !! id = None -> id ∉ active p ->
  placed (_start id raised p) (S k) /\ apart (_start id raised p).
Proof.
  intros -> [Hnd Hp] Ha Hf Hn. destruct raised as [t|]; cbn [_start].
  - split; [split; [done|]|]; cbn [active failed].
    + intros i. destruct (decide (i = id)) as [->|Hi]; [rewrite lookup_insert_eq; split; [intros; right; by eexists|lia]|].
      rewrite lookup_insert_ne by done. rewrite <- Hp. lia.
    + intros i Hi. cbn [active failed] in *. rewrite lookup_insert_ne by set_solver. by apply Ha.
  - split; [split|]; cbn [active failed].
    + apply list.NoDup_app. split_and!; [done|set_solver|apply list.NoDup_singleton].
    + intros i. rewrite elem_of_app, list_elem_of_singleton, (delete_id (failed p) id Hf). pose proof (Hp i).
      destruct (decide (i = id)) as [->|Hi]; [split; [intros; left; by right|lia]|]. split; [|intros [[?|?]|?]; [..|]; try done; apply Nat.lt_lt_succ_r; naive_solver].
      intros Hl. destruct (proj1 (Hp i) ltac:(lia)); auto.
    + intros i Hi. cbn [active failed] in *. rewrite (delete_id (failed p) id Hf). apply elem_of_app in Hi as [Hi| ->%list_elem_of_singleton]; auto.
Qed.

Lemma begin_books starts p : books (begin_run starts p).
Proof.
  unfold begin_run. set (p0 := mkPublisher true _ _ _ _ _).
  assert (H : forall k, let q := foldl (fun p id => _start id (starts id) p) p0 (seq 0 k) in running q = true /\ placed q k /\ apart q).
  { induction k as [|k IH]; [simpl; split_and!; [done| |by intros i Hi%elem_of_nil]|].
    - split; [apply NoDup_nil_2|]. simpl. intros i. rewrite lookup_empty, elem_of_nil. split; [lia|intros [[]|[? ?]]; done].
    - rewrite seq_S, foldl_snoc. cbv zeta in IH. destruct IH as (Hr & Hp & Ha). cbn [Nat.add].
      set (q := foldl _ p0 (seq 0 k)) in *. destruct Hp as [Hnd Hp].
      assert (Hk : failed q !! k = None /\ k ∉ active q).
      { pose proof (Hp k) as [_ Hk]. split; [|intros Hin; assert (k < k)%nat by (apply Hk; by left); lia].
        destruct (failed q !! k) eqn:E; [|done]. assert (k < k)%nat by (apply Hk; right; by eexists). lia. }
      destruct Hk. split; [destruct (starts k); done|]. apply start_placed; try done. }
  specialize (H sinks). cbv zeta in H. unfold books. destruct H as (-> & H). done.
Qed.

(** What trying one again does. *)
Lemma retry_one_spec now starts p id : placed p sinks -> apart p ->
  let q := retry_one now starts p id in
  placed q sinks /\ apart q /\ running q = running p /\ last_slow q = last_slow p
  /\ (forall i, i <> id -> failed q !! i = failed p !! i /\ (i ∈ active q <-> i ∈ active p))
  /\ (id ∈ active q <-> id ∈ active p \/ (due now p id = true /\ starts id = None))
  /\ (failed q !! id = if due now p id then (fun t => t + SINK_RETRY) <$> starts id else failed p !! id)
  /\ calls q = calls p ++ (if due now p id then [Start id] else []).
Proof.
  intros Hp Ha. unfold retry_one. destruct (due now p id) eqn:Ed; [|split_and!; try done; [naive_solver|by rewrite app_nil_r]].
  destruct Hp as [Hnd Hp]. unfold due in Ed. destruct (failed p !! id) as [d|] eqn:Ef; [|done].
  assert (Hn : id ∉ active p) by (intros Hin; rewrite (Ha id Hin) in Ef; done).
  assert (Hid : (id < sinks)%nat) by (apply Hp; right; rewrite Ef; by eexists).
  destruct (starts id) as [t|]; cbn [_start active failed running last_slow calls].
  - split_and!; try done.
    + split; [done|]. intros i. cbn [active failed]. destruct (decide (i = id)) as [->|Hi]; [rewrite lookup_insert_eq; naive_solver|].
      rewrite lookup_insert_ne by done. apply Hp.
    + intros i Hi. cbn [active failed] in *. rewrite lookup_insert_ne by set_solver. by apply Ha.
    + intros i Hi. by rewrite lookup_insert_ne.
    + naive_solver.
    + by rewrite lookup_insert_eq.
  - split_and!; try done.
    + split; cbn [active failed].
      * apply list.NoDup_app. split_and!; [done|set_solver|apply list.NoDup_singleton].
      * intros i. rewrite elem_of_app, list_elem_of_singleton. destruct (decide (i = id)) as [->|Hi]; [naive_solver|].
        rewrite lookup_delete_ne by done. pose proof (Hp i). naive_solver.
    + intros i Hi. cbn [active failed] in *. apply elem_of_app in Hi as [Hi| ->%list_elem_of_singleton].
      * rewrite lookup_delete_ne by set_solver. by apply Ha.
      * by rewrite lookup_delete_eq.
    + intros i Hi. rewrite lookup_delete_ne by done. split; [done|]. rewrite elem_of_app, list_elem_of_singleton. naive_solver.
    + rewrite elem_of_app, list_elem_of_singleton. naive_solver.
    + by rewrite lookup_delete_eq.
Qed.

Lemma retry_spec now starts p : placed p sinks -> apart p ->
  let q := _retry_failed now starts p in
  placed q sinks /\ apart q /\ running q = running p /\ last_slow q = last_slow p
  /\ (forall i, i ∈ active q <-> i ∈ active p \/ (due now p i = true /\ starts i = None))
  /\ (exists k, calls q = calls p ++ k /\ Forall (fun c => exists i, c = Start i /\ due now p i = true) k).
Proof.
  intros Hp Ha. unfold _retry_failed.
  assert (H : forall k, let q := foldl (retry_one now starts) p (seq 0 k) in
    placed q sinks /\ apart q /\ running q = running p /\ last_slow q = last_slow p
    /\ (forall i, (k <= i)%nat -> failed q !! i = failed p !! i)
    /\ (forall i, i ∈ active q <-> i ∈ active p \/ ((i < k)%nat /\ due now p i = true /\ starts i = None))
    /\ (exists c, calls q = calls p ++ c /\ Forall (fun c => exists i, c = Start i /\ due now p i = true) c)).
  { induction k as [|k IH]; cbv zeta in *.
    - simpl. split_and!; try done; [intros i; split; [by left|intros [?|[? _]]; [done|lia]]|]. exists []. by rewrite app_nil_r.
    - rewrite seq_S, foldl_snoc. cbn [Nat.add]. set (q := foldl _ p (seq 0 k)) in *.
      destruct IH as (Hq & Hqa & Hr & Hl & Hf & Hact & c & Hc & Hcs). destruct (retry_one_spec now starts q k Hq Hqa) as (H1 & H2 & H3 & H4 & H5 & H6 & _ & H8).
      assert (Ed : due now q k = due now p k) by (unfold due; by rewrite Hf).
      rewrite Ed in *. split_and!; try done; try congruence.
      + intros i Hi. rewrite (proj1 (H5 i ltac:(lia))). apply Hf. lia.
      + intros i. destruct (decide (i = k)) as [->|Hi]; [rewrite H6, Hact; split; intros [?|?]; destruct_and?; auto; destruct H as [?|(?&?&?)]; auto|].
        rewrite (proj2 (H5 i Hi)), Hact. split; (intros [?|(?&?&?)]; [by left|right]); split_and!; try done; lia.
      + rewrite H8, Hc, <- app_assoc. eexists. split; [done|]. apply Forall_app. split; [done|]. destruct (due now p k) eqn:E; [|done]. constructor; [eauto|done]. }
  specialize (H sinks). cbv zeta in H. destruct H as (H1 & H2 & H3 & H4 & _ & H6 & H7). split_and!; try done.
  intros i. rewrite H6. split; [naive_solver|]. intros [?|[Hd Hs]]; [by left|right]. split_and!; try done.
  destruct Hp as [_ Hp]. apply Hp. right. unfold due in Hd. destruct (failed p !! i); [by eexists|done].
Qed.

(** The calls an epoch makes of the sinks it is written to. *)
Definition written (payload : bytes) (ok : nat -> bool) (l : list nat) : list Call :=
  flat_map (fun id => Write id payload :: (if ok id then [] else [Close id])) l.

Lemma filter_all {A} (f : A -> bool) (l : list A) : (forall x, x ∈ l -> f x = true) -> List.filter f l = l.
Proof. induction l as [|x l IH]; intros H; simpl; [done|]. rewrite H by set_solver. f_equal. apply IH. set_solver. Qed.

Lemma write_loop now payload ok l p : NoDup l -> l ⊆ active p -> NoDup (active p) ->
  let q := foldl (write_one now payload ok) p l in
  running q = running p /\ last_slow q = last_slow p /\ sent q = sent p /\ NoDup (active q)
  /\ calls q = calls p ++ written payload ok l
  /\ (forall i, i ∈ active q <-> i ∈ active p /\ (i ∈ l -> ok i = true))
  /\ (forall i, failed q !! i = if bool_decide (i ∈ l) && negb (ok i) then Some (now + SINK_RETRY) else failed p !! i).
Proof.
  revert p. induction l as [|id l IH]; intros p Hl Hs Hn; cbn [foldl].
  - split_and!; try done; [by rewrite app_nil_r|set_solver].
  - apply list.NoDup_cons in Hl as [Hid Hl]. set (p1 := write_one now payload ok p id).
    assert (H1 : running p1 = running p /\ last_slow p1 = last_slow p /\ sent p1 = sent p /\ NoDup (active p1)
      /\ calls p1 = calls p ++ (Write id payload :: (if ok id then [] else [Close id]))
      /\ (forall i, i ∈ active p1 <-> i ∈ active p /\ (i = id -> ok i = true))
      /\ (forall i, failed p1 !! i = if bool_decide (i = id) && negb (ok i) then Some (now + SINK_RETRY) else failed p !! i)).
    { subst p1. unfold write_one. destruct (ok id) eqn:E; cbn [running last_slow sent active calls failed]; split_and!; try done.
      - intros i. split; [intros H; split; [done|by intros ->]|by intros [? _]].
      - intros i. case_bool_decide as Ei; [subst i; by rewrite E|done].
      - apply NoDup_ListNoDup, List.NoDup_filter. by apply NoDup_ListNoDup.
      - by rewrite <- app_assoc.
      - intros i. rewrite !list_elem_of_In, filter_In. rewrite negb_true_iff, Nat.eqb_neq. split; intros [? H2]; (split; [done|]); [done|].
        intros ->. rewrite (H2 eq_refl) in E. done.
      - intros i. case_bool_decide as Ei; [subst i; rewrite E, lookup_insert_eq; done|]. by rewrite lookup_insert_ne. }
    destruct H1 as (A1 & A2 & A3 & A4 & A5 & A6 & A7).
    destruct (IH p1 Hl) as (B1 & B2 & B3 & B4 & B5 & B6 & B7); [|done|].
    { intros i Hi. apply A6. split; [set_solver|]. intros ->. done. }
    split_and!; try congruence.
    + rewrite B5, A5, <- app_assoc. done.
    + intros i. rewrite B6, A6, elem_of_cons. naive_solver.
    + intros i. rewrite B7, A7. destruct (ok i) eqn:Eo; rewrite ?andb_false_r; [done|]. rewrite !andb_true_r.
      repeat case_bool_decide; try done; set_solver.
Qed.

Lemma epoch_parts now s starts ok p out : books p -> running p = true ->
  build_sentences s sentences (slow_due now (_retry_failed now starts p)) = Some out -> concat out <> [] ->
  let p1 := _retry_failed now starts p in
  let p2 := _publish now s starts ok p in
  calls p2 = calls p1 ++ written (concat out) ok (active p1)
  /\ (forall i, i ∈ active p2 <-> i ∈ active p1 /\ ok i = true)
  /\ (forall i, failed p2 !! i = if bool_decide (i ∈ active p1) && negb (ok i) then Some (now + SINK_RETRY) else failed p1 !! i)
  /\ running p2 = true /\ NoDup (active p2) /\ sent p2 = sent p1 + 1 /\ last_slow p2 = if slow_due now p then Some now else last_slow p.
Proof.
  intros Hb Hr E Hn. unfold books in Hb. rewrite Hr in Hb. destruct Hb as [Hp Ha]. cbv zeta. unfold _publish. cbv zeta. rewrite E.
  rewrite bool_decide_false by done. destruct (retry_spec now starts p Hp Ha) as (H1 & H2 & H3 & H4 & _).
  set (p1 := _retry_failed now starts p) in *. destruct H1 as [Hnd _].
  set (p1' := mkPublisher (running p1) (active p1) _ _ _ _).
  destruct (write_loop now (concat out) ok (active p1) p1' Hnd ltac:(done) Hnd) as (A1 & A2 & A3 & A4 & A5 & A6 & A7).
  cbn [running active failed last_slow sent calls]. change (active p1') with (active p1). split_and!; try done.
  - intros i. rewrite A6. simpl. naive_solver.
  - rewrite A1. simpl. congruence.
  - rewrite A3. done.
  - rewrite A2. simpl. rewrite H4. unfold slow_due. by rewrite H4.
Qed.

Lemma publish_books now s starts ok p : books p -> running p = true -> books (_publish now s starts ok p).
Proof.
  intros Hb Hr. pose proof Hb as Hb'. unfold books in Hb'. rewrite Hr in Hb'. destruct Hb' as [Hp Ha].
  destruct (build_sentences s sentences (slow_due now (_retry_failed now starts p))) as [out|] eqn:E; [|by unfold _publish; cbv zeta; rewrite E].
  destruct (retry_spec now starts p Hp Ha) as (H1 & H2 & H3 & _).
  destruct (decide (concat out = [])) as [Hn|Hn].
  - unfold _publish. cbv zeta. rewrite E, bool_decide_true by done. unfold books. by rewrite H3, Hr.
  - destruct (epoch_parts now s starts ok p out Hb Hr E Hn) as (_ & A2 & A3 & A4 & A5 & _). unfold books. rewrite A4. split; [split; [done|]|].
    + intros i. rewrite A2, A3. destruct H1 as [_ H1]. rewrite H1. destruct (ok i); rewrite ?andb_false_r, ?andb_true_r; [naive_solver|].
      case_bool_decide as Ei; cbn [negb]; [split; [intros _; right; by eexists|intros _; by left]|]. naive_solver.
    + intros i [Hi Ho]%A2. rewrite A3, Ho, andb_false_r. by apply H2.
Qed.

Lemma step_books e p : books p -> books (step e p).
Proof.
  intros H. destruct e as [starts|now s starts ok|]; cbn [step]; destruct (running p) eqn:E; try done; [apply begin_books|by apply publish_books].
Qed.
Lemma events_books es p : books p -> books (run_events es p).
Proof. revert p. induction es as [|e es IH]; intros p H; simpl; [done|]. by apply IH, step_books. Qed.

(** After any history, while the publisher runs every sink is either active or set aside, and an
    epoch writes its payload once to each active sink and to each one that was due and started again; those
    whose write raised are closed and set aside for the retry interval, and the others stay active,
    whatever happened to them. *)
Theorem epochs_reach_sinks es now s starts ok out :
  let p := run_events es new_publisher in
  running p = true ->
  build_sentences s sentences (slow_due now p) = Some out -> concat out <> [] ->
  let p' := step (Epoch now s starts ok) p in
  (forall id, (id < sinks)%nat <-> (id ∈ active p \/ is_Some (failed p !! id)))
  /\ (exists tried l,
       calls p' = calls p ++ tried ++ written (concat out) ok l
       /\ NoDup l /\ (forall id, id ∈ l <-> id ∈ active p \/ (due now p id = true /\ starts id = None))
       /\ Forall (fun c => exists id, c = Start id /\ due now p id = true) tried)
  /\ (forall id, id ∈ active p' <-> (id ∈ active p \/ (due now p id = true /\ starts id = None)) /\ ok id = true)
  /\ (forall id, id ∈ active p -> ok id = false -> failed p' !! id = Some (now + SINK_RETRY)).
Proof.
  intros p Hr E Hn p'. assert (Hb : books p) by (by apply events_books). pose proof Hb as Hb'. unfold books in Hb'. rewrite Hr in Hb'.
  destruct Hb' as [Hp Ha]. destruct (retry_spec now starts p Hp Ha) as ([H1 _] & H2 & H3 & H4 & H5 & k & H6 & H7).
  assert (E' : build_sentences s sentences (slow_due now (_retry_failed now starts p)) = Some out) by (unfold slow_due in *; by rewrite H4).
  destruct (epoch_parts now s starts ok p out Hb Hr E' Hn) as (A1 & A2 & A3 & _). subst p'. unfold step. rewrite Hr. split_and!.
  - apply Hp.
  - exists k, (active (_retry_failed now starts p)). split_and!; try done. by rewrite A1, H6, <- app_assoc.
  - intros id. by rewrite A2, H5.
  - intros id Hin Ho. rewrite A3, Ho, bool_decide_true by (apply H5; by left). done.
Qed.
End Publisher.

Lemma epochs_reach_sinks_witness :
  let p := run_events 3 ALL_SENTENCES 1000000 [Begin (fun id => if (id =? 1)%nat then Some 5 else None)] new_publisher in
  let p' := step 3 ALL_SENTENCES 1000000 (Epoch 10000005 demo (fun _ => None) (fun id => (id =? 2)%nat)) p in
  running p = true /\ (2%nat ∈ active p' <-> (2%nat ∈ active p \/ (due 10000005 p 2%nat = true /\ None = @None Z)) /\ true = true).
Proof.
  cbv zeta. split; [reflexivity|].
  apply (epochs_reach_sinks 3 ALL_SENTENCES 1000000 [Begin (fun id => if (id =? 1)%nat then Some 5 else None)] 10000005 demo
    (fun _ => None) (fun id => (id =? 2)%nat) (default [] (build_sentences demo ALL_SENTENCES true))).
  - reflexivity.
  - vm_compute. reflexivity.
  - vm_compute. discriminate.
Defined.

(** The slow sentences of two epochs are at least the interval apart. *)
Lemma slow_apart sinks sentences slow_interval now s starts ok p out : books sinks p -> running p = true -> slow_due slow_interval now p = true ->
  build_sentences s sentences true = Some out -> concat out <> [] ->
  forall now', slow_due slow_interval now' (step sinks sentences slow_interval (Epoch now s starts ok) p) = true -> slow_interval <= now' - now.
Proof.
  intros Hb Hr Hd E Hn now'. unfold step. rewrite Hr. pose proof Hb as Hb'. unfold books in Hb'. rewrite Hr in Hb'. destruct Hb' as [Hp Ha].
  destruct (retry_spec sinks now starts p Hp Ha) as (_ & _ & _ & H4 & _).
  assert (Hs : slow_due slow_interval now (_retry_failed sinks now starts p) = true) by (unfold slow_due in *; by rewrite H4).
  destruct (epoch_parts sinks sentences slow_interval now s starts ok p out Hb Hr ltac:(by rewrite Hs) Hn) as (_ & _ & _ & _ & _ & _ & Hl).
  unfold slow_due at 1. rewrite Hl, Hd. intros H. by zbool.
Qed.
