(* ===== verification/WsHub.v ===== *)
(** * The WebSocket hub ([web/ws.py])

    One subscription of the bus fans every message out to the connected sockets, each with a bounded
    queue and a sender. The hub's awaits are its events: an item of the bus, a socket that connects, a
    sender's turns, the end of a socket, the shutdown. Sets of topics are lists in the order of
    [TOPICS]. The payloads' conversion to JSON ([_json] and its two adjustments) is a parameter, which
    may raise. Times are what the monotonic clock reads. *)

From Stdlib Require Import String.
From stdpp Require Import gmap.
From S2P Require Import Prelude.
From S2P Require Import PyBytes.
From S2P Require Import PyText.
From S2P Require Import PyCodecs.
From S2P Require Import Bus.

#[local] Open Scope string_scope.
#[local] Open Scope list_scope.
#[local] Open Scope Z_scope.

Definition TOPICS : list bytes :=
  map str ["pvt"; "sats"; "rtcm"; "svin"; "rf"; "span"; "ntrip"; "events"; "system"; "receiver"; "base"; "jobs"; "rawlog"; "daemon"; "rtk"; "survey"; "ins"].
Definition EPOCH_TOPICS : list bytes := map str ["pvt"; "sats"; "rtcm"; "svin"; "rtk"; "ins"].
Definition BUS_TO_TOPIC : list (bytes * bytes) :=
  map (fun p => (str p.1, str p.2))
    [("state.hardware", "rf"); ("state.rf", "rf"); ("state.spectrum", "span"); ("ntrip.clients", "ntrip"); ("events.new", "events");
     ("system.stats", "system"); ("jobs.update", "jobs"); ("jobs.deleted", "jobs"); ("ntrip_client.status", "rtk"); ("state.time_mark", "rtk");
     ("points.progress", "survey"); ("points.saved", "survey"); ("ins.config", "ins")].
Definition PREFIX_TO_TOPIC : list (bytes * bytes) :=
  map (fun p => (str p.1, str p.2)) [("receiver.", "receiver"); ("base.", "base"); ("rawlog.", "rawlog"); ("daemon.", "daemon")].
Definition EPOCH : bytes := str "state.epoch".
Definition BUS_PATTERNS : list bytes := EPOCH :: map fst BUS_TO_TOPIC ++ map (fun p => p.1 ++ str "*") PREFIX_TO_TOPIC.

Definition SPAN_MIN_INTERVAL : Z := 1000000.
Definition SEND_QUEUE_LIMIT : Z := 50.
Definition BUS_QUEUE_SIZE : Z := 256.
Definition MAX_WS_CLIENTS : Z := 32.
Definition SLOW_CLIENT_CODE : Z := 1008.
Definition TOO_MANY_CODE : Z := 1013.
Definition GOING_AWAY_CODE : Z := 1001.
Definition NO_HUB_CODE : Z := 1011.

(** ** Topics *)

Definition topic_for (bus_topic : bytes) : option bytes :=
  match List.find (fun p => bool_decide (p.1 = bus_topic)) BUS_TO_TOPIC with
  | Some p => Some p.2
  | None => snd <$> List.find (fun p => startswith bus_topic p.1) PREFIX_TO_TOPIC
  end.

(** [asked & set(TOPICS) or set(TOPICS)]. *)
Definition wanted_topics (asked : list bytes) : list bytes :=
  match List.filter (fun t => bool_decide (t ∈ asked)) TOPICS with [] => TOPICS | l => l end.

(** [parse_topics]. *)
Definition parse_topics (raw : bytes) : list bytes :=
  wanted_topics (List.filter (fun t => negb (bool_decide (t = []))) (map strip (split_on (str ",") raw))).

(** [sorted] of strings, by code points. *)
Fixpoint str_leb (a b : bytes) : bool :=
  match a, b with
  | [], _ => true
  | _ :: _, [] => false
  | x :: a, y :: b => (x <? y) || ((x =? y) && str_leb a b)
  end.
Fixpoint insert_str (x : bytes) (l : list bytes) : list bytes :=
  match l with [] => [x] | y :: r => if str_leb x y then x :: l else y :: insert_str x r end.
Definition sorted_strs (l : list bytes) : list bytes := foldr insert_str [] l.

Section Hub.
Context {Item State Json : Type}.
(** The payload of an update at a time; [None]: the conversion raises. *)
Context (payload : bytes -> Item -> Z -> option Json).
(** The sections of an epoch's bundle, its time, and the whole state. *)
Context (section : bytes -> State -> Json) (epoch_time : State -> option Z) (role : bytes) (dump : State -> Json).

Inductive Msg :=
| Snapshot (role : bytes) (topics : list bytes) (state : Json)
| Bundle (t : option Z) (sections : list (bytes * Json))
| Update (topic source : bytes) (data : Json).

Definition snapshot_message (s : State) (topics : list bytes) : Msg := Snapshot role (sorted_strs topics) (dump s).

(** The sections in the order of the code. *)
Definition SECTIONS : list bytes := EPOCH_TOPICS.
Definition epoch_message (s : State) (topics : list bytes) : Msg :=
  Bundle (epoch_time s) (map (fun n => (n, section n s)) (List.filter (fun n => bool_decide (n ∈ topics)) SECTIONS)).

(** ** A socket *)

(** [_Client], with the message its sender holds and what the socket was given. *)
Record Client := mkClient {
  topics : list bytes; outbox : list Msg; overflowed : bool; finished : bool; last_span : option Z; sending : option Msg; received : list Msg
}.
Definition new_client (topics : list bytes) : Client := mkClient topics [] false false None None [].

Definition enqueue (m : Msg) (c : Client) : Client :=
  if finished c || overflowed c then c
  else
    match put_nowait SEND_QUEUE_LIMIT (outbox c) m with
    | Some q => mkClient (topics c) q (overflowed c) (finished c) (last_span c) (sending c) (received c)
    | None => mkClient (topics c) (outbox c) true (finished c) (last_span c) (sending c) (received c)
    end.

Definition span_due (now : Z) (c : Client) : bool :=
  match last_span c with Some t => negb (now - t <? SPAN_MIN_INTERVAL) | None => true end.
Definition set_span (now : Z) (c : Client) : Client :=
  mkClient (topics c) (outbox c) (overflowed c) (finished c) (Some now) (sending c) (received c).

(** What [_dispatch] does to one client for an update. *)
Definition hear_update (bus_topic topic : bytes) (i : Item) (now : Z) (c : Client) : Client :=
  if bool_decide (topic ∈ topics c) && negb (finished c) then
    let span := bool_decide (topic = str "span") in
    if span && negb (span_due now c) then c
    else
      let c := if span then set_span now c else c in
      match payload bus_topic i now with Some d => enqueue (Update topic bus_topic d) c | None => c end
  else c.

(** [_dispatch_epoch], of one client. *)
Definition epoch_wanted (topics : list bytes) : list bytes := List.filter (fun t => bool_decide (t ∈ EPOCH_TOPICS)) topics.
Definition hear_epoch (s : State) (c : Client) : Client :=
  if bool_decide (epoch_wanted (topics c) = []) || finished c then c else enqueue (epoch_message s (epoch_wanted (topics c))) c.

(** ** The hub *)

(** [closes]: the sockets it closed, with their codes. *)
Record Hub := mkHub { clients : gmap nat Client; closed : bool; closes : list (nat * Z) }.
Definition new_hub : Hub := mkHub ∅ false [].
Definition client_count (h : Hub) : Z := Z.of_nat (size (clients h)).
Definition with_clients (cs : gmap nat Client) (h : Hub) : Hub := mkHub cs (closed h) (closes h).
Definition close_socket (id : nat) (code : Z) (h : Hub) : Hub := mkHub (clients h) (closed h) (closes h ++ [(id, code)]).

(** An item of the bus: the state for [state.epoch], a payload otherwise. *)
Inductive BusItem := EpochItem (s : State) | Other (bus_topic : bytes) (i : Item).

Definition hear (b : BusItem) (now : Z) (c : Client) : Client :=
  match b with
  | EpochItem s => hear_epoch s c
  | Other bus_topic i => match topic_for bus_topic with Some topic => hear_update bus_topic topic i now c | None => c end
  end.
(** [_dispatch]. *)
Definition _dispatch (b : BusItem) (now : Z) (h : Hub) : Hub := with_clients (hear b now <$> clients h) h.

(** [serve], to its wait; the socket [id] is a new one. *)
Definition serve (id : nat) (asked : list bytes) (s : State) (h : Hub) : Hub :=
  if closed h then close_socket id NO_HUB_CODE h
  else if MAX_WS_CLIENTS <=? client_count h then close_socket id TOO_MANY_CODE h
  else
    let wanted := wanted_topics asked in
    with_clients (<[id := enqueue (snapshot_message s wanted) (new_client wanted)]> (clients h)) h.

(** The turns of [_send]: it takes a message, and the socket has it. *)
Definition take_next (c : Client) : Client :=
  match sending c, outbox c with
  | None, m :: q => if finished c then c else mkClient (topics c) q (overflowed c) (finished c) (last_span c) (Some m) (received c)
  | _, _ => c
  end.
Definition delivered (c : Client) : Client :=
  match sending c with
  | Some m => if finished c then c else mkClient (topics c) (outbox c) (overflowed c) (finished c) (last_span c) None (received c ++ [m])
  | None => c
  end.

(** The [finally] of [serve], to its last await and after it. *)
Definition finish (c : Client) : Client := mkClient (topics c) (outbox c) (overflowed c) true (last_span c) (sending c) (received c).
Definition gone (id : nat) (h : Hub) : Hub :=
  match clients h !! id with
  | Some c =>
      if finished c then
        let h := if overflowed c then close_socket id SLOW_CLIENT_CODE h else h in
        with_clients (delete id (clients h)) h
      else h
  | None => h
  end.

(** [aclose], to its wait. *)
Definition aclose (h : Hub) : Hub :=
  mkHub (finish <$> clients h) true (closes h ++ map (fun p => (p.1, GOING_AWAY_CODE)) (map_to_list (clients h))).

Inductive Event :=
| Serve (id : nat) (asked : list bytes) (s : State) | Dispatch (b : BusItem) (now : Z) | Take (id : nat) | Delivered (id : nat)
| Ends (id : nat) | Gone (id : nat) | Aclose.

Definition step (e : Event) (h : Hub) : Hub :=
  match e with
  | Serve id asked s => match clients h !! id with None => serve id asked s h | Some _ => h end
  | Dispatch b now => _dispatch b now h
  | Take id => with_clients (alter take_next id (clients h)) h
  | Delivered id => with_clients (alter delivered id (clients h)) h
  | Ends id => with_clients (alter finish id (clients h)) h
  | Gone id => gone id h
  | Aclose => aclose h
  end.
Definition run (es : list Event) (h : Hub) : Hub := foldl (fun h e => step e h) h es.

(** ** What a socket should be told *)

(** The messages of a client with these topics, with its span throttle; [told] is the specification
    [hear] is compared with. *)
Definition told_one (ts : list bytes) (b : BusItem) (now : Z) (last : option Z) : option Z * list Msg :=
  match b with
  | EpochItem s => (last, if bool_decide (epoch_wanted ts = []) then [] else [epoch_message s (epoch_wanted ts)])
  | Other bus_topic i =>
      match topic_for bus_topic with
      | Some topic =>
          if bool_decide (topic ∈ ts) then
            let span := bool_decide (topic = str "span") in
            let held := match last with Some t => now - t <? SPAN_MIN_INTERVAL | None => false end in
            if span && held then (last, [])
            else (if span then Some now else last, match payload bus_topic i now with Some d => [Update topic bus_topic d] | None => [] end)
          else (last, [])
      | None => (last, [])
      end
  end.
Definition told (ts : list bytes) (acc : option Z * list Msg) (e : Event) : option Z * list Msg :=
  match e with
  | Dispatch b now => let '(last, ms) := told_one ts b now acc.1 in (last, acc.2 ++ ms)
  | _ => acc
  end.
(** From its connection: the snapshot, then everything of its topics. *)
Definition stream (ts : list bytes) (s : State) (es : list Event) : list Msg := (foldl (told ts) (None, [snapshot_message s ts]) es).2.
Definition span_at (ts : list bytes) (s : State) (es : list Event) : option Z := (foldl (told ts) (None, [snapshot_message s ts]) es).1.

(** Everything that has been queued for the socket. *)
Definition got (c : Client) : list Msg := received c ++ option_list (sending c) ++ outbox c.
Definition live (c : Client) : bool := negb (finished c) && negb (overflowed c).

Definition follows (c : Client) (ts : list bytes) (s : State) (es : list Event) : Prop :=
  topics c = ts /\ got c `prefix_of` stream ts s es /\ (live c = true -> got c = stream ts s es /\ last_span c = span_at ts s es)
  /\ len (outbox c) <= SEND_QUEUE_LIMIT.

Lemma stream_snoc ts s es e : stream ts s (es ++ [e]) = (told ts (span_at ts s es, stream ts s es) e).2.
Proof. unfold stream, span_at. rewrite foldl_snoc. by destruct (foldl _ _ es). Qed.
Lemma span_snoc ts s es e : span_at ts s (es ++ [e]) = (told ts (span_at ts s es, stream ts s es) e).1.
Proof. unfold stream, span_at. rewrite foldl_snoc. by destruct (foldl _ _ es). Qed.

Lemma stream_grows ts s es e : stream ts s es `prefix_of` stream ts s (es ++ [e]).
Proof. rewrite stream_snoc. destruct e as [| | | | | |]; try done. simpl. destruct (told_one _ _ _ _). by apply prefix_app_r. Qed.

(** An event that leaves a client's messages and its topics as they are. *)
Lemma follows_same c c' ts s es e : follows c ts s es ->
  topics c' = topics c -> got c' = got c -> (len (outbox c') <= len (outbox c)) ->
  (live c' = true -> live c = true /\ last_span c' = last_span c) -> (forall b now, e <> Dispatch b now) -> follows c' ts s (es ++ [e]).
Proof.
  intros (H1 & H2 & H3 & H4) Ht Hg Ho Hl He.
  assert (E : stream ts s (es ++ [e]) = stream ts s es /\ span_at ts s (es ++ [e]) = span_at ts s es).
  { rewrite stream_snoc, span_snoc. destruct e; try done. by destruct (He b now). }
  destruct E as [E1 E2]. split; [congruence|]. rewrite E1, E2, Hg. split_and!; [done| |lia].
  intros Hv. destruct (Hl Hv) as [Hv' ->]. by apply H3.
Qed.

Lemma enqueue_spec m c : len (outbox c) <= SEND_QUEUE_LIMIT ->
  let c' := enqueue m c in
  topics c' = topics c /\ finished c' = finished c /\ last_span c' = last_span c /\ len (outbox c') <= SEND_QUEUE_LIMIT
  /\ (got c' = got c \/ (live c = true /\ got c' = got c ++ [m])) /\ (live c' = true -> live c = true /\ got c' = got c ++ [m]).
Proof.
  intros Hl. unfold enqueue, live. destruct (finished c) eqn:Ef; [cbn [orb]; rewrite ?Ef; split_and!; try done; by left|].
  destruct (overflowed c) eqn:Eo; [cbn [orb]; rewrite ?Ef, ?Eo; split_and!; try done; by left|]. cbn [orb negb andb].
  unfold put_nowait, qfull. destruct (_ && _) eqn:Eq; cbn [topics finished last_span outbox overflowed negb andb].
  - split_and!; try done. by left.
  - change (0 <? SEND_QUEUE_LIMIT) with true in Eq. cbn [andb] in Eq. zbool.
    assert (G : got (mkClient (topics c) (outbox c ++ [m]) false false (last_span c) (sending c) (received c)) = got c ++ [m])
      by (unfold got; cbn; by rewrite !app_assoc).
    split_and!; try done; [rewrite length_app; simpl; lia|right; done].
Qed.

Lemma hear_told b now c ts s es : follows c ts s es -> follows (hear b now c) ts s (es ++ [Dispatch b now]).
Proof.
  intros (H1 & H2 & H3 & H4).
  pose proof (stream_grows ts s es (Dispatch b now)) as Hg.
  assert (Hdead : live c = false -> forall c', topics c' = topics c -> got c' = got c -> live c' = false -> len (outbox c') <= SEND_QUEUE_LIMIT ->
            follows c' ts s (es ++ [Dispatch b now])).
  { intros _ c' E1 E2 E3 E4. split; [congruence|]. rewrite E2, E3. split_and!; [by etrans|done|done]. }
  assert (Hsent : forall m last, told_one ts b now (span_at ts s es) = (last, [m]) ->
            forall c1, topics c1 = topics c -> got c1 = got c -> live c1 = live c -> (live c = true -> last_span c1 = last) ->
              len (outbox c1) <= SEND_QUEUE_LIMIT -> follows (enqueue m c1) ts s (es ++ [Dispatch b now])).
  { intros m last Em c1 E1 E2 E3 E4 E5. destruct (enqueue_spec m c1 E5) as (A1 & _ & A3 & A4 & A5 & A6).
    split; [congruence|]. rewrite stream_snoc, span_snoc. cbn [told fst snd]. rewrite Em. cbn [fst snd]. split_and!; [|intros Hv|done].
    - destruct A5 as [->|[Hv ->]]; rewrite E2; [by apply prefix_app_r|]. rewrite E3 in Hv. by destruct (H3 Hv) as [-> _].
    - destruct (A6 Hv) as [Hv' ->]. rewrite E3 in Hv'. destruct (H3 Hv') as [E6 _]. rewrite E2, E6, A3. split; [done|by apply E4]. }
  assert (Hnone : forall last, told_one ts b now (span_at ts s es) = (last, []) ->
            forall c1, topics c1 = topics c -> got c1 = got c -> live c1 = live c -> (live c = true -> last_span c1 = last) ->
              len (outbox c1) <= SEND_QUEUE_LIMIT -> follows c1 ts s (es ++ [Dispatch b now])).
  { intros last Em c1 E1 E2 E3 E4 E5. split; [congruence|]. rewrite stream_snoc, span_snoc. cbn [told fst snd]. rewrite Em, app_nil_r, E2, E3. cbn [fst snd].
    split_and!; [done| |done]. intros Hv. destruct (H3 Hv) as [-> _]. split; [done|by apply E4]. }
  destruct b as [st|bus_topic i]; cbn [hear].
  - unfold hear_epoch. rewrite H1. case_bool_decide as Ew; cbn [orb].
    + apply (Hnone (span_at ts s es)); try done; [cbn [told_one]; by rewrite bool_decide_true|]. intros Hv. by apply H3.
    + destruct (finished c) eqn:Ef; [apply Hdead; try done; unfold live; by rewrite Ef|].
      apply (Hsent _ (span_at ts s es)); try done; [cbn [told_one]; by rewrite bool_decide_false|]. intros Hv. by apply H3.
  - destruct (topic_for bus_topic) as [topic|] eqn:Et.
    2:{ apply (Hnone (span_at ts s es)); try done; [cbn [told_one]; by rewrite Et|]. intros Hv. by apply H3. }
    unfold hear_update. rewrite H1. case_bool_decide as Ew; cbn [andb].
    2:{ apply (Hnone (span_at ts s es)); try done; [cbn [told_one]; by rewrite Et, bool_decide_false|]. intros Hv. by apply H3. }
    destruct (finished c) eqn:Ef; cbn [negb]; [apply Hdead; try done; unfold live; by rewrite Ef|].
    set (span := bool_decide (topic = str "span")).
    assert (Hd : live c = true -> negb (span_due now c) = match span_at ts s es with Some t => now - t <? SPAN_MIN_INTERVAL | None => false end).
    { intros Hv. destruct (H3 Hv) as [_ <-]. unfold span_due. destruct (last_span c); [by rewrite negb_involutive|done]. }
    destruct (live c) eqn:Hv.
    + specialize (Hd eq_refl). rewrite Hd. destruct (H3 eq_refl) as [_ Hls].
      assert (Em : told_one ts (Other bus_topic i) now (span_at ts s es) =
        if span && match span_at ts s es with Some t => now - t <? SPAN_MIN_INTERVAL | None => false end then (span_at ts s es, [])
        else (if span then Some now else span_at ts s es, match payload bus_topic i now with Some d => [Update topic bus_topic d] | None => [] end))
        by (cbn [told_one]; by rewrite Et, bool_decide_true).
      destruct (span && _) eqn:Eheld; [by apply (Hnone (span_at ts s es))|].
      set (c1 := if span then set_span now c else c).
      assert (A : topics c1 = topics c /\ got c1 = got c /\ live c1 = true /\ last_span c1 = (if span then Some now else span_at ts s es) /\ outbox c1 = outbox c)
        by (subst c1; destruct span; split_and!; try done).
      destruct A as (A1 & A2 & A3 & A4 & A5).
      destruct (payload bus_topic i now); [eapply Hsent|eapply Hnone]; try exact Em; try done; by rewrite ?A5.
    + destruct (span && _); [by apply Hdead|]. set (c1 := if span then set_span now c else c).
      assert (A : topics c1 = topics c /\ got c1 = got c /\ live c1 = false /\ outbox c1 = outbox c) by (subst c1; by destruct span).
      destruct A as (A1 & A2 & A3 & A4). destruct (payload bus_topic i now); [|apply Hdead; try done; by rewrite A4].
      destruct (enqueue_spec (Update topic bus_topic j) c1 ltac:(by rewrite A4)) as (B1 & B2 & _ & B4 & B5 & B6). apply Hdead; try done; [congruence| |].
      * destruct B5 as [->|[Hv' _]]; [done|congruence].
      * destruct (live (enqueue _ c1)) eqn:El; [|done]. destruct (B6 eq_refl) as [Hv' _]. congruence.
Qed.

(** The client [id] connected somewhere in the history, and has followed since. *)
Definition connected (es : list Event) (id : nat) (c : Client) : Prop :=
  exists es1 asked s es2, es = es1 ++ Serve id asked s :: es2 /\ follows c (wanted_topics asked) s es2.

Lemma connected_snoc es id c c' e : connected es id c ->
  (forall ts s es2, follows c ts s es2 -> follows c' ts s (es2 ++ [e])) -> connected (es ++ [e]) id c'.
Proof.
  intros (es1 & asked & s & es2 & -> & Hf) H. exists es1, asked, s, (es2 ++ [e]). split; [by rewrite <- app_assoc|by apply H].
Qed.

Lemma take_same c : topics (take_next c) = topics c /\ got (take_next c) = got c /\ len (outbox (take_next c)) <= len (outbox c)
  /\ live (take_next c) = live c /\ last_span (take_next c) = last_span c.
Proof.
  unfold take_next, got, live. destruct (sending c) eqn:Es; [rewrite Es; done|]. destruct (outbox c) eqn:Eo; [rewrite Es, Eo; done|].
  destruct (finished c) eqn:Ef; [rewrite Es, Eo, Ef; done|]. simpl. split_and!; try done. lia.
Qed.

Lemma delivered_same c : topics (delivered c) = topics c /\ got (delivered c) = got c /\ len (outbox (delivered c)) <= len (outbox c)
  /\ live (delivered c) = live c /\ last_span (delivered c) = last_span c.
Proof.
  unfold delivered, got, live. destruct (sending c) eqn:Es; [|rewrite Es; done]. destruct (finished c) eqn:Ef; [rewrite Es, Ef; done|].
  simpl. by rewrite <- app_assoc.
Qed.

Lemma step_connected e h es : map_Forall (connected es) (clients h) -> map_Forall (connected (es ++ [e])) (clients (step e h)).
Proof.
  intros H. assert (Hid : forall b : bool, (forall x y, e <> Dispatch x y) -> map_Forall (connected (es ++ [e])) (clients h)).
  { intros _ He i c Hc. eapply connected_snoc; [by apply H|]. intros ts s es2 Hf. eapply follows_same; [exact Hf|done..]. }
  assert (Halter : forall f id, (forall x y, e <> Dispatch x y) ->
            (forall c, topics (f c) = topics c /\ got (f c) = got c /\ len (outbox (f c)) <= len (outbox c) /\ (live (f c) = true -> live c = true) /\ last_span (f c) = last_span c) ->
            map_Forall (connected (es ++ [e])) (alter f id (clients h))).
  { intros f id He Hf i c Hc. destruct (decide (id = i)) as [->|Hn].
    - rewrite lookup_alter_eq in Hc. destruct (clients h !! i) as [c0|] eqn:E; [|done]. injection Hc as <-.
      eapply connected_snoc; [by apply H|]. intros ts s es2 Hfol. destruct (Hf c0) as (F1 & F2 & F3 & F4 & F5). eapply follows_same; try done. auto.
    - rewrite lookup_alter_ne in Hc by done. by apply (Hid true He). }
  assert (Hfin : forall c, topics (finish c) = topics c /\ got (finish c) = got c /\ len (outbox (finish c)) <= len (outbox c)
     /\ (live (finish c) = true -> live c = true) /\ last_span (finish c) = last_span c) by done.
  destruct e as [id asked s|b now|id|id|id|id|]; cbn [step].
  - destruct (clients h !! id) eqn:Eid; [by apply (Hid true)|]. unfold serve. destruct (closed h); [by apply (Hid true)|].
    destruct (_ <=? _); [by apply (Hid true)|]. cbn [clients with_clients]. intros i c [[<- <-]|[Hn Hc]]%lookup_insert_Some; [|by apply (Hid true)].
    exists es, asked, s, []. split; [done|]. by split_and!.
  - intros i c Hc. unfold _dispatch in Hc. cbn [clients with_clients] in Hc. rewrite lookup_fmap in Hc. destruct (clients h !! i) as [c0|] eqn:E; [|done].
    injection Hc as <-. eapply connected_snoc; [by apply H|]. intros ts s es2. apply hear_told.
  - apply Halter; [done|]. intros c. destruct (take_same c) as (?&?&?&->&?). done.
  - apply Halter; [done|]. intros c. destruct (delivered_same c) as (?&?&?&->&?). done.
  - by apply Halter.
  - unfold gone. destruct (clients h !! id) as [c|]; [|by apply (Hid true)]. destruct (finished c); [|by apply (Hid true)]. cbn [clients with_clients].
    assert (clients (if overflowed c then close_socket id SLOW_CLIENT_CODE h else h) = clients h) as -> by (by destruct (overflowed c)).
    intros i c' [_ Hc']%lookup_delete_Some. by apply (Hid true).
  - intros i c Hc. unfold aclose in Hc. cbn [clients] in Hc. rewrite lookup_fmap in Hc. destruct (clients h !! i) as [c0|] eqn:E; [|done]. injection Hc as <-.
    eapply connected_snoc; [by apply H|]. intros ts s es2 Hf. destruct (Hfin c0) as (F1 & F2 & F3 & F4 & F5). by eapply follows_same.
Qed.

Lemma step_count e h : client_count h <= MAX_WS_CLIENTS -> client_count (step e h) <= MAX_WS_CLIENTS.
Proof.
  intros H. unfold client_count in *.
  assert (Ha : forall f id, size (alter f id (clients h)) = size (clients h)) by (intros; rewrite <- !size_dom; by rewrite dom_alter).
  destruct e as [id asked s|b now|id|id|id|id|]; cbn [step _dispatch with_clients clients aclose]; rewrite ?map_size_fmap, ?Ha; try done.
  - destruct (clients h !! id) eqn:Eid; [done|]. unfold serve. destruct (closed h); [done|]. destruct (_ <=? _) eqn:E; [done|]. zbool.
    cbn [with_clients clients]. rewrite map_size_insert_None by done. unfold client_count in E. lia.
  - unfold gone. destruct (clients h !! id) as [c|] eqn:E; [|done]. destruct (finished c); [|done]. cbn [with_clients clients].
    assert (clients (if overflowed c then close_socket id SLOW_CLIENT_CODE h else h) = clients h) as -> by (by destruct (overflowed c)).
    rewrite map_size_delete_Some by (by eexists). lia.
Qed.

Lemma run_hub es : map_Forall (connected es) (clients (run es new_hub)) /\ client_count (run es new_hub) <= MAX_WS_CLIENTS.
Proof.
  unfold run. induction es as [|e es [IH1 IH2]] using rev_ind; [by split; [apply map_Forall_empty|]|]. rewrite foldl_snoc.
  split; [by apply step_connected|by apply step_count].
Qed.

(** C36.  At any time at most 32 sockets are served; each was given first the snapshot of its topics and
    then, in order, what the bus brought for them since it connected, bundles and throttled spectra included:
    until it falls behind or ends nothing is missing, and after that it has a beginning of it. No more than 50
    messages wait for it. *)
Theorem sockets_follow es id c :
  let h := run es new_hub in
  clients h !! id = Some c ->
  client_count h <= MAX_WS_CLIENTS
  /\ exists es1 asked s es2, es = es1 ++ Serve id asked s :: es2 /\ topics c = wanted_topics asked
       /\ received c ++ option_list (sending c) ++ outbox c `prefix_of` stream (wanted_topics asked) s es2
       /\ (finished c = false -> overflowed c = false -> received c ++ option_list (sending c) ++ outbox c = stream (wanted_topics asked) s es2)
       /\ len (outbox c) <= SEND_QUEUE_LIMIT.
Proof.
  intros h Hc. destruct (run_hub es) as [H1 H2]. split; [done|]. destruct (H1 id c Hc) as (es1 & asked & s & es2 & E & F1 & F2 & F3 & F4).
  exists es1, asked, s, es2. split_and!; try done. intros Hf Ho. apply F3. unfold live. by rewrite Hf, Ho.
Qed.

(** Once closed, the hub serves no one and no client hears anything. *)
Lemma step_closed e h : closed h = true -> map_Forall (fun _ c => finished c = true) (clients h) ->
  closed (step e h) = true /\ map_Forall (fun _ c => finished c = true) (clients (step e h)) /\ dom (clients (step e h)) ⊆ dom (clients h).
Proof.
  intros Hc H. assert (Halter : forall f id, (forall c, finished c = true -> finished (f c) = true) ->
    map_Forall (fun _ c => finished c = true) (alter f id (clients h)) /\ dom (alter f id (clients h)) ⊆ dom (clients h)).
  { intros f id Hf. split; [|by rewrite dom_alter]. intros i c Hi. destruct (decide (id = i)) as [->|Hn].
    - rewrite lookup_alter_eq in Hi. destruct (clients h !! i) as [c0|] eqn:E; [|done]. injection Hi as <-. by apply Hf, (H i).
    - rewrite lookup_alter_ne in Hi by done. by apply (H i). }
  destruct e as [id asked s|b now|id|id|id|id|]; cbn [step].
  - destruct (clients h !! id); [done|]. unfold serve. by rewrite Hc.
  - unfold _dispatch. cbn [closed clients with_clients]. split_and!; [done| |by rewrite dom_fmap].
    intros i c Hi. rewrite lookup_fmap in Hi. destruct (clients h !! i) as [c0|] eqn:E; [|done]. injection Hi as <-. pose proof (H i c0 E) as Hf. cbn in Hf.
    unfold hear, hear_epoch, hear_update. destruct b as [st|t it]; [by rewrite Hf, orb_true_r|]. destruct (topic_for t); [|done]. by rewrite Hf, andb_false_r.
  - split; [done|]. apply Halter. intros c Hf. unfold take_next. rewrite Hf. by destruct (sending c), (outbox c).
  - split; [done|]. apply Halter. intros c Hf. unfold delivered. rewrite Hf. by destruct (sending c).
  - split; [done|]. by apply Halter.
  - unfold gone. destruct (clients h !! id) as [c|] eqn:E; [|done]. destruct (finished c); [|done]. cbn [clients with_clients closed].
    assert (clients (if overflowed c then close_socket id SLOW_CLIENT_CODE h else h) = clients h) as -> by (by destruct (overflowed c)).
    split_and!; [by destruct (overflowed c)|intros i c' [_ Hi]%lookup_delete_Some; by apply (H i)|rewrite dom_delete; set_solver].
  - split_and!; [done| |unfold aclose; cbn [clients]; by rewrite dom_fmap]. unfold aclose. cbn [clients]. intros i c Hi. rewrite lookup_fmap in Hi.
    destruct (clients h !! i); [|done]. by injection Hi as <-.
Qed.

Lemma aclose_ends h es : let h' := run es (aclose h) in
  closed h' = true /\ map_Forall (fun _ c => finished c = true) (clients h') /\ dom (clients h') ⊆ dom (clients h).
Proof.
  cbv zeta. unfold run. induction es as [|e es (IH1 & IH2 & IH3)] using rev_ind.
  - simpl. split_and!; [done| |by rewrite dom_fmap]. intros i c Hi. rewrite lookup_fmap in Hi. destruct (clients h !! i); [|done]. by injection Hi as <-.
  - rewrite foldl_snoc. destruct (step_closed e _ IH1 IH2) as (H1 & H2 & H3). split_and!; [done|done|set_solver].
Qed.
End Hub.

(** ** The subscription *)

Lemma topic_for_some t : topic_for t <> None <-> t ∈ map fst BUS_TO_TOPIC \/ existsb (startswith t) (map fst PREFIX_TO_TOPIC) = true.
Proof.
  unfold topic_for. destruct (List.find _ BUS_TO_TOPIC) as [p|] eqn:E.
  - apply find_some in E as [Hin E%bool_decide_eq_true]. split; [|done]. intros _. left. rewrite <- E. apply list_elem_of_In, in_map, Hin.
  - assert (Hn : t ∉ map fst BUS_TO_TOPIC).
    { intros Hin%list_elem_of_In. apply in_map_iff in Hin as (p & <- & Hp). pose proof (find_none _ _ E p Hp) as Hf. cbn in Hf. by case_bool_decide. }
    rewrite existsb_exists. destruct (List.find _ PREFIX_TO_TOPIC) as [p|] eqn:E2.
    + apply find_some in E2 as [Hin E2]. split; [|done]. intros _. right. exists p.1. split; [by apply in_map|done].
    + split; [done|]. intros [?|(x & Hx & Hs)]; [done|]. apply in_map_iff in Hx as (p & <- & Hp). pose proof (find_none _ _ E2 p Hp) as Hf. cbn in Hf. congruence.
Qed.

(** The hub's subscription hears exactly the epochs and what has a topic for clients. *)
Lemma hub_hears (A : Type) t :
  matches (new_sub (A := A) BUS_PATTERNS DROP_OLDEST BUS_QUEUE_SIZE 0) t = true <-> t = EPOCH \/ topic_for t <> None.
Proof.
  rewrite topic_for_some. unfold matches.
  assert (Ea : sub_all (new_sub (A := A) BUS_PATTERNS DROP_OLDEST BUS_QUEUE_SIZE 0) = false) by (vm_compute; reflexivity).
  assert (Ee : sub_exact (new_sub (A := A) BUS_PATTERNS DROP_OLDEST BUS_QUEUE_SIZE 0) = EPOCH :: map fst BUS_TO_TOPIC) by (vm_compute; reflexivity).
  assert (Ep : sub_prefixes (new_sub (A := A) BUS_PATTERNS DROP_OLDEST BUS_QUEUE_SIZE 0) = map fst PREFIX_TO_TOPIC) by (vm_compute; reflexivity).
  rewrite Ea, Ee, Ep. cbn [orb]. rewrite orb_true_iff, bool_decide_eq_true, elem_of_cons. tauto.
Qed.

(** What a client asks for is what it gets, of the topics there are; nothing known is everything. *)
Lemma wanted_spec asked t : t ∈ wanted_topics asked <-> t ∈ TOPICS /\ (t ∈ asked \/ forall u, u ∈ TOPICS -> u ∉ asked).
Proof.
  unfold wanted_topics. destruct (List.filter _ TOPICS) as [|x l] eqn:E.
  - split; [|by intros [? _]]. intros H. split; [done|]. right. intros u Hu Ha.
    assert (In u (List.filter (fun t => bool_decide (t ∈ asked)) TOPICS)) as Hin; [|by rewrite E in Hin].
    apply filter_In. split; [by apply list_elem_of_In|by apply bool_decide_eq_true].
  - rewrite <- E. rewrite list_elem_of_In, filter_In, <- list_elem_of_In, bool_decide_eq_true. split; [tauto|]. intros [Ht [Ha|Hn]]; [done|].
    exfalso. assert (In x (List.filter (fun t => bool_decide (t ∈ asked)) TOPICS)) as Hin by (rewrite E; by left).
    apply filter_In in Hin as [H1 H2%bool_decide_eq_true]. by apply (Hn x); [apply list_elem_of_In|].
Qed.

Lemma sockets_follow_witness :
  let run := run (Item := Z) (State := Z) (Json := Z) (fun _ i _ => if i <? 0 then None else Some i) (fun _ s => s) (fun s => Some s) (str "rover") (fun s => s) in
  let es := [Serve 7 [str "rtk"; str "span"] 100; Dispatch (Other (str "state.spectrum") 5) 0; Take 7; Dispatch (Other (str "state.spectrum") 6) 999999;
             Dispatch (EpochItem 101) 1000000; Dispatch (Other (str "base.mode") 1) 1000000; Dispatch (Other (str "ntrip_client.status") 9) 1000001] in
  exists c, clients (run es new_hub) !! 7%nat = Some c /\ client_count (run es new_hub) <= MAX_WS_CLIENTS
    /\ length (outbox c) = 3%nat.
Proof.
  cbv zeta. set (r := run _ _ _ _ _ _ _). destruct (clients r !! 7%nat) as [c|] eqn:E; [|vm_compute in E; discriminate].
  exists c. split; [reflexivity|]. split.
  - apply (sockets_follow (Item := Z) (State := Z) (Json := Z) (fun _ i _ => if i <? 0 then None else Some i) (fun _ s => s) (fun s => Some s) (str "rover") (fun s => s) _ 7%nat c E).
  - revert E. vm_compute. intros [= <-]. reflexivity.
Defined.
