(* ===== verification/Sampler.v ===== *)
(** * The history of the receiver's state ([store/sampler.py])

    A row per receiver second, a row per minute from them, and their retention. The tables are finite
    maps keyed by their times, in seconds; SQLite's aggregates are parameters. Whether a statement of
    the database succeeds comes with the message being handled, as do the readings of the clocks. *)

From Stdlib Require Import String.
From stdpp Require Import gmap sorting.
From S2P Require Import Prelude.
From S2P Require Import PyBytes.
From S2P Require Import PyFloat.
From S2P Require Import PyRound.

#[local] Open Scope string_scope.
#[local] Open Scope list_scope.
#[local] Open Scope Z_scope.

Definition US : Z := 1000000.

(** A value of a column; a float is its double. *)
Inductive Value := VNull | VInt (i : Z) | VReal (x : Z).

Definition SAMPLE_COLUMNS : list string :=
  ["ts"; "lat"; "lon"; "height_m"; "hmsl_m"; "h_acc_m"; "v_acc_m"; "fix_type"; "carr_soln"; "nsat_used"; "nsat_tracked"; "pdop"; "hdop"; "vdop";
   "cno_mean"; "jam_ind"; "agc_cnt"; "noise_per_ms"; "corr_age_s"; "baseline_m"; "rtcm_bytes_per_s"; "ntrip_clients"; "cpu_pct"; "mem_pct";
   "disk_free_gb"; "temp_c"].

Inductive Agg := AVG | MIN | MAX.
(** The columns of a minute after its time and its count, in the order of the statement. *)
Definition ROLLUP : list (Agg * string) :=
  [(AVG, "lat"); (AVG, "lon"); (AVG, "height_m"); (AVG, "h_acc_m"); (MAX, "h_acc_m"); (AVG, "v_acc_m"); (MAX, "v_acc_m"); (MIN, "fix_type");
   (MIN, "carr_soln"); (AVG, "nsat_used"); (MIN, "nsat_used"); (AVG, "nsat_tracked"); (AVG, "pdop"); (MAX, "pdop"); (AVG, "cno_mean");
   (MAX, "jam_ind"); (AVG, "agc_cnt"); (AVG, "noise_per_ms"); (MAX, "corr_age_s"); (AVG, "baseline_m"); (AVG, "rtcm_bytes_per_s");
   (MAX, "ntrip_clients"); (AVG, "cpu_pct"); (AVG, "mem_pct"); (MIN, "disk_free_gb"); (MAX, "temp_c")].
Definition PRUNE_INTERVAL : Z := 3600 * US.
Definition ERROR_LOG_INTERVAL : Z := 60 * US.

(** ** The mapping of an epoch *)

Record Sat := mkSat { used : bool; cno : Z }.
Record Hardware := mkHardware { jam_ind : Value; agc_cnt : Value; noise_per_ms : Value }.
Record SystemStats := mkSystem { cpu_pct : Value; mem_pct : Value; disk_free_gb : Value; temp_c : Value }.
(** [ReceiverState], what a row takes from it: the time in microseconds, the columns from [lat] to [v_acc_m],
    [fix_type] to [vdop], [corr_age_s] to [rtcm_bytes_per_s]. *)
Record State := mkState {
  utc : option Z; position : list Value; quality : list Value; sats : list Sat; hardware : option Hardware; corrections : list Value
}.

(** A row is its time and the values of the other columns. *)
Definition Row : Type := Z * list Value.

(** [sum(used_cno) / len(used_cno) if used_cno else None]. *)
Definition cno_mean (l : list Sat) : Value :=
  match map cno (List.filter (fun s => used s && (0 <? cno s)) l) with
  | [] => VNull
  | cs => VReal (fdiv_int (foldl Z.add 0 cs) (len cs))
  end.

Definition sample_row (s : State) (system : option SystemStats) (ntrip_clients : Z) : option Row :=
  match utc s with
  | None => None
  | Some t =>
      Some (rne t US,
            position s ++ quality s ++ [cno_mean (sats s)]
            ++ match hardware s with Some h => [jam_ind h; agc_cnt h; noise_per_ms h] | None => [VNull; VNull; VNull] end
            ++ corrections s ++ [VInt ntrip_clients]
            ++ match system with Some y => [cpu_pct y; mem_pct y; disk_free_gb y; temp_c y] | None => [VNull; VNull; VNull; VNull] end)
  end.

Section Sampler.
(** SQLite's aggregates of the values that are not null, in the order of the rows. *)
Context (aggregate : Agg -> list Value -> Value).
(** The retention in seconds. *)
Context (keep_1s keep_1m keep_events keep_ntrip_log : Z).

(** ** Storage *)

(** A minute: the count and the aggregates. *)
Definition Minute : Type := Z * list Value.
(** [events] and [ntrip_log]: the host's times of their rows, in microseconds. *)
Record Db := mkDb { samples_1s : gmap Z (list Value); samples_1m : gmap Z Minute; events : list Z; ntrip_log : list Z }.

Definition insert_1s (row : Row) (d : Db) : Db := mkDb (<[row.1 := row.2]> (samples_1s d)) (samples_1m d) (events d) (ntrip_log d).

(** The rows of [ts >= start AND ts < start + 60], by time. *)
Definition rows_of (d : Db) (start : Z) : list (list Value) :=
  omap (fun k => samples_1s d !! (start + Z.of_nat k)) (seq 0 60).

Definition column (name : string) (row : list Value) : Value :=
  match list_find (fun c => c = name) (drop 1 SAMPLE_COLUMNS) with Some (k, _) => nth k row VNull | None => VNull end.
Definition not_null (v : Value) : bool := match v with VNull => false | _ => true end.
Definition aggregated (rows : list (list Value)) : Minute :=
  (len rows, map (fun p => aggregate p.1 (List.filter not_null (map (column p.2) rows))) ROLLUP).

(** [rollup_minute]. *)
Definition minute_start (minute_ts : Z) : Z := minute_ts / 60 * 60.
Definition rollup_minute (minute_ts : Z) (d : Db) : Db :=
  let start := minute_start minute_ts in
  match rows_of d start with
  | [] => d
  | rows => mkDb (samples_1s d) (<[start := aggregated rows]> (samples_1m d)) (events d) (ntrip_log d)
  end.

(** [prune]; [host_now] in microseconds. *)
Definition prune (now_ts host_now : Z) (d : Db) : Db :=
  mkDb (filter (fun p => now_ts - keep_1s <= p.1) (samples_1s d)) (filter (fun p => now_ts - keep_1m <= p.1) (samples_1m d))
    (List.filter (fun t => host_now - keep_events * US <=? t) (events d)) (List.filter (fun t => host_now - keep_ntrip_log * US <=? t) (ntrip_log d)).

(** ** The loop *)

Inductive Published := SamplerError | SamplerRecovered.

Record Sampler := mkSampler {
  db : Db; system : option SystemStats; ntrip_clients : Z; current_minute : option Z; last_prune : Z;
  failing : bool; suppressed : Z; last_error_log : Z; published : list Published
}.
(** A new sampler on a database. *)
Definition new_sampler (d : Db) : Sampler := mkSampler d None 0 None 0 false 0 0 [].

Definition with_db (d : Db) (s : Sampler) : Sampler :=
  mkSampler d (system s) (ntrip_clients s) (current_minute s) (last_prune s) (failing s) (suppressed s) (last_error_log s) (published s).
Definition set_minute (m : Z) (s : Sampler) : Sampler :=
  mkSampler (db s) (system s) (ntrip_clients s) (Some m) (last_prune s) (failing s) (suppressed s) (last_error_log s) (published s).
Definition set_pruned (now : Z) (s : Sampler) : Sampler :=
  mkSampler (db s) (system s) (ntrip_clients s) (current_minute s) now (failing s) (suppressed s) (last_error_log s) (published s).

Definition _failed (now : Z) (s : Sampler) : Sampler :=
  if negb (failing s) then
    mkSampler (db s) (system s) (ntrip_clients s) (current_minute s) (last_prune s) true 0 now (published s ++ [SamplerError])
  else if ERROR_LOG_INTERVAL <=? now - last_error_log s then
    mkSampler (db s) (system s) (ntrip_clients s) (current_minute s) (last_prune s) true 0 now (published s)
  else mkSampler (db s) (system s) (ntrip_clients s) (current_minute s) (last_prune s) true (suppressed s + 1) (last_error_log s) (published s).
Definition _recovered (s : Sampler) : Sampler :=
  if failing s then
    mkSampler (db s) (system s) (ntrip_clients s) (current_minute s) (last_prune s) false (suppressed s) (last_error_log s) (published s ++ [SamplerRecovered])
  else s.

(** What the database and the clocks do for a message. *)
Record Io := mkIo { insert_ok : bool; rollup_ok : bool; prune_ok : bool; clock : Z; host : Z }.

(** The rollup of the minute that was in progress, and the new one. *)
Definition next_minute (minute : Z) (io : Io) (s : Sampler) : bool * Sampler :=
  match current_minute s with
  | Some previous =>
      if minute =? previous then (true, set_minute minute s)
      else if rollup_ok io then (true, set_minute minute (with_db (rollup_minute (previous * 60) (db s)) s))
      else (false, set_minute minute s)
  | None => (true, set_minute minute s)
  end.

(** [_on_epoch]; [false]: it raised. *)
Definition _on_epoch (st : State) (io : Io) (s : Sampler) : bool * Sampler :=
  match sample_row st (system s) (ntrip_clients s) with
  | None => (true, s)
  | Some row =>
      if negb (insert_ok io) then (false, s)
      else
        let s := with_db (insert_1s row (db s)) s in
        let '(ok, s) := next_minute (row.1 / 60) io s in
        if negb ok then (false, s)
        else if PRUNE_INTERVAL <? clock io - last_prune s then
          if prune_ok io then (true, _recovered (set_pruned (clock io) (with_db (prune row.1 (host io) (db s)) s))) else (false, s)
        else (true, _recovered s)
  end.

Inductive Message := Stats (y : SystemStats) | NtripClients (n : Z) | Epoch (st : State).

Definition _handle (m : Message) (io : Io) (s : Sampler) : bool * Sampler :=
  match m with
  | Stats y => (true, mkSampler (db s) (Some y) (ntrip_clients s) (current_minute s) (last_prune s) (failing s) (suppressed s) (last_error_log s) (published s))
  | NtripClients n => (true, mkSampler (db s) (system s) n (current_minute s) (last_prune s) (failing s) (suppressed s) (last_error_log s) (published s))
  | Epoch st => _on_epoch st io s
  end.

Definition _final_rollup (io : Io) (s : Sampler) : Sampler :=
  match current_minute s with
  | None => s
  | Some m => if rollup_ok io then with_db (rollup_minute (m * 60) (db s)) s else _failed (clock io) s
  end.

(** A turn of [run]; its end with the next start of the program; the next start after the program
    was killed or lost its power. *)
Inductive Event := Handle (m : Message) (io : Io) | Restart (io : Io) | Crash.
Definition step (e : Event) (s : Sampler) : Sampler :=
  match e with
  | Handle m io => let '(ok, s) := _handle m io s in if ok then s else _failed (clock io) s
  | Restart io => new_sampler (db (_final_rollup io s))
  | Crash => new_sampler (db s)
  end.
Definition run (es : list Event) (s : Sampler) : Sampler := foldl (fun s e => step e s) s es.

(** [SampleReader.history] of a table of rows; of distinct columns; [None] is its [ValueError]. *)
Definition history (known : list bytes) (rows : gmap Z (list (bytes * Value))) (start end_ : Z) (columns : list bytes) (limit : option Z) : option (list (list (bytes * Value))) :=
  if bool_decide (columns = []) then None
  else if match limit with Some n => n <? 1 | None => false end then None
  else if negb (forallb (fun c => bool_decide (c ∈ known)) columns) then None
  else
    let window := sort_by fst (map_to_list (filter (fun p => start <= p.1 < end_) rows)) in
    let picked := map (fun p => map (fun c => (c, default VNull (snd <$> List.find (fun kv => bool_decide (kv.1 = c)) p.2))) columns) window in
    Some (match limit with Some n => take (Z.to_nat n) picked | None => picked end).

(** ** Every minute is rolled up *)

(** The stored rows of a minute, in the order of their times. *)
Definition seconds_of (d : Db) (m : Z) (rows : list Row) : Prop :=
  StronglySorted (fun r r' => r.1 < r'.1) rows
  /\ forall r, r ∈ rows <-> samples_1s d !! r.1 = Some r.2 /\ m * 60 <= r.1 < m * 60 + 60.

(** The minute of some rows: their number and, for each aggregate of [ROLLUP], that of the values
    that are not null in its column, in order; a row's values begin with the second column. *)
Definition summary (rows : list Row) (mi : Minute) : Prop :=
  mi.1 = len rows
  /\ Forall2 (fun p v => exists k, nth_error SAMPLE_COLUMNS (S k) = Some p.2
       /\ v = aggregate p.1 (flat_map (fun r => match nth k r.2 VNull with VNull => [] | x => [x] end) rows)) ROLLUP mi.2.

(** What [rows_of] selects, with the times. *)
Definition timed_rows (d : Db) (m : Z) : list Row :=
  omap (fun k => (fun vals => (m * 60 + Z.of_nat k, vals)) <$> samples_1s d !! (m * 60 + Z.of_nat k)) (seq 0 60).

Lemma rows_timed d m : rows_of d (m * 60) = map snd (timed_rows d m).
Proof.
  unfold rows_of, timed_rows. generalize (seq 0 60). intros ks. induction ks as [|k ks IH]; [done|]. cbn.
  destruct (samples_1s d !! _); cbn; by rewrite IH.
Qed.

Lemma timed_sorted d m n : forall k, StronglySorted (fun r r' : Row => r.1 < r'.1)
  (omap (fun k => (fun vals => (m * 60 + Z.of_nat k, vals)) <$> samples_1s d !! (m * 60 + Z.of_nat k)) (seq k n)).
Proof.
  induction n as [|n IH]; intros k; [constructor|]. cbn [seq]. cbn. destruct (samples_1s d !! _); cbn; [|apply IH]. constructor; [apply IH|].
  apply list.Forall_forall. intros r Hr. apply list_elem_of_omap in Hr as (k' & Hk' & E). apply elem_of_seq in Hk'.
  destruct (samples_1s d !! _); [|done]. injection E as <-. cbn. lia.
Qed.

Lemma timed_seconds d m : seconds_of d m (timed_rows d m).
Proof.
  split; [apply timed_sorted|]. intros [ts vals]. unfold timed_rows. rewrite list_elem_of_omap. cbn [fst snd]. split.
  - intros (k & Hk & E). apply elem_of_seq in Hk. destruct (samples_1s d !! _) eqn:Ed; [|done]. injection E as <- <-. split; [done|lia].
  - intros [E Ht]. exists (Z.to_nat (ts - m * 60)). split; [apply elem_of_seq; lia|].
    replace (m * 60 + Z.of_nat (Z.to_nat (ts - m * 60))) with ts by lia. by rewrite E.
Qed.

Lemma sorted_nodup (rows : list Row) : StronglySorted (fun r r' => r.1 < r'.1) rows -> NoDup rows.
Proof.
  induction 1 as [|r rows _ IH H]; constructor; [|done]. intros Hin. rewrite list.Forall_forall in H. specialize (H r Hin). lia.
Qed.

(** There is only one such list. *)
Lemma seconds_unique d m rows rows' : seconds_of d m rows -> seconds_of d m rows' -> rows = rows'.
Proof.
  intros [S1 M1] [S2 M2]. apply (StronglySorted_unique_strong (fun r r' : Row => r.1 < r'.1)); [intros; lia|done|done|].
  apply NoDup_Permutation; [by apply sorted_nodup..|]. intros r. by rewrite M1, M2.
Qed.

Lemma not_null_flat (f : Row -> Value) rows :
  List.filter not_null (map f rows) = flat_map (fun r => match f r with VNull => [] | x => [x] end) rows.
Proof. induction rows as [|r rows IH]; [done|]. cbn. rewrite <- IH. by destruct (f r). Qed.

(** Where each column of the rollup stands. *)
Lemma rollup_columns : Forall (fun p => exists k, nth_error SAMPLE_COLUMNS (S k) = Some p.2 /\ forall row, column p.2 row = nth k row VNull) ROLLUP.
Proof.
  unfold ROLLUP. repeat constructor; cbn [snd];
    (match goal with |- exists k, _ /\ forall row, column ?n row = _ =>
       let k := eval vm_compute in (match list_find (fun c => c = n) (drop 1 SAMPLE_COLUMNS) with Some (k, _) => k | None => O end) in exists k end);
    (split; [reflexivity|intros row; reflexivity]).
Qed.

Lemma aggregated_summary rows : summary rows (aggregated (map snd rows)).
Proof.
  unfold summary, aggregated. split; [cbn; by rewrite length_map|]. cbn [snd]. apply list.Forall2_fmap_r.
  pose proof rollup_columns as H. induction H as [|p ps (k & Hk & Hc) _ IH]; constructor; [|exact IH].
  exists k. split; [exact Hk|]. rewrite map_map, not_null_flat. f_equal. apply flat_map_ext. intros r. by rewrite Hc.
Qed.

(** What a message keeps of a minute: the retention of its time does not reach it, and its rollup does not
    fail; the program is not killed in it. *)
Definition rolls_up (e : Event) : bool := match e with Handle _ io | Restart io => rollup_ok io | Crash => false end.
Definition keeps (m : Z) (e : Event) (s : Sampler) : Prop :=
  (forall st io t, e = Handle (Epoch st) io -> utc st = Some t -> rne t US - keep_1s <= m * 60 /\ rne t US - keep_1m <= m * 60)
  /\ (current_minute s = Some m -> rolls_up e = true).
Fixpoint kept (m : Z) (es : list Event) (s : Sampler) : Prop :=
  match es with [] => True | e :: es => keeps m e s /\ kept m es (step e s) end.

Definition rolled (m : Z) (d : Db) : Prop := forall rows, seconds_of d m rows -> rows <> [] ->
  exists mi, samples_1m d !! (m * 60) = Some mi /\ summary rows mi.
Definition minute_ok (m : Z) (s : Sampler) : Prop := current_minute s <> Some m -> rolled m (db s).

Lemma start_minute m : minute_start (m * 60) = m * 60.
Proof. unfold minute_start. by rewrite Z.div_mul. Qed.

Lemma rollup_rolled m d : rolled m (rollup_minute (m * 60) d).
Proof.
  unfold rolled, rollup_minute. rewrite start_minute, rows_timed. intros rows Hr Hne.
  assert (rows = timed_rows d m) as ->.
  { apply (seconds_unique d m); [|apply timed_seconds]. by destruct (map snd (timed_rows d m)). }
  destruct (map snd (timed_rows d m)) eqn:E; [by destruct (timed_rows d m)|]. rewrite <- E. cbn [samples_1m].
  eexists. rewrite lookup_insert_eq. split; [done|apply aggregated_summary].
Qed.

Lemma minute_of_second m ts : m * 60 <= ts < m * 60 + 60 -> ts / 60 = m.
Proof. intros H. symmetry. apply (Z.div_unique _ _ _ (ts - m * 60)); lia. Qed.

(** Two databases that agree on a minute. *)
Definition agree (m : Z) (d d' : Db) : Prop :=
  (forall ts, ts / 60 = m -> samples_1s d !! ts = samples_1s d' !! ts) /\ samples_1m d !! (m * 60) = samples_1m d' !! (m * 60).
Lemma agree_rolled m d d' : agree m d d' -> rolled m d' -> rolled m d.
Proof.
  intros [H1 H2] H rows [Hs Hm] Hne. rewrite H2. apply H; [|done]. split; [done|]. intros r. rewrite Hm. split; intros [E Ht]; (split; [|done]).
  - rewrite <- H1; [done|]. by apply minute_of_second.
  - rewrite H1; [done|]. by apply minute_of_second.
Qed.

Lemma insert_agree m row d : row.1 / 60 <> m -> agree m (insert_1s row d) d.
Proof. intros Hn. split; [|done]. intros ts Hts. cbn [samples_1s insert_1s]. rewrite lookup_insert_ne; [done|]. intros E. congruence. Qed.

Lemma rollup_agree m n d : n <> m -> agree m (rollup_minute (n * 60) d) d.
Proof.
  intros Hn. unfold rollup_minute. rewrite start_minute. destruct (rows_of d (n * 60)); [done|]. split; [done|]. cbn [samples_1m].
  rewrite lookup_insert_ne by lia. done.
Qed.

(** Retention that does not reach the minute leaves it as it is. *)
Lemma prune_agree m t h d : t - keep_1s <= m * 60 -> t - keep_1m <= m * 60 -> agree m (prune t h d) d.
Proof.
  intros H1 H2. split; cbn [samples_1s samples_1m prune].
  - intros ts Hts. rewrite map_lookup_filter. destruct (samples_1s d !! ts); [|done]. simpl. rewrite option_guard_True; [done|].
    pose proof (Z.div_mod ts 60 ltac:(lia)). pose proof (Z.mod_pos_bound ts 60 ltac:(lia)). lia.
  - rewrite map_lookup_filter. destruct (samples_1m d !! _); [|done]. simpl. by rewrite option_guard_True.
Qed.

Lemma failed_db now s : db (_failed now s) = db s /\ current_minute (_failed now s) = current_minute s.
Proof. unfold _failed. destruct (failing s); [destruct (_ <=? _)|]; done. Qed.
Lemma recovered_db s : db (_recovered s) = db s /\ current_minute (_recovered s) = current_minute s.
Proof. unfold _recovered. by destruct (failing s). Qed.
Lemma failed_minute m now s : minute_ok m s -> minute_ok m (_failed now s).
Proof. unfold minute_ok. by destruct (failed_db now s) as [-> ->]. Qed.
Lemma recovered_minute m s : minute_ok m s -> minute_ok m (_recovered s).
Proof. unfold minute_ok. by destruct (recovered_db s) as [-> ->]. Qed.

Lemma next_minute_ok m row io s : minute_ok m s -> (current_minute s = Some m -> rollup_ok io = true) ->
  let r := next_minute (row.1 / 60) io (with_db (insert_1s row (db s)) s) in
  minute_ok m r.2 /\ current_minute r.2 = Some (row.1 / 60).
Proof.
  intros Hok Hr. unfold next_minute. cbn [current_minute with_db db]. split.
  2:{ destruct (current_minute s); [destruct (_ =? _); [|destruct (rollup_ok io)]|]; done. }
  unfold minute_ok. destruct (decide (row.1 / 60 = m)) as [Hm|Hm].
  { intros Hn. exfalso. apply Hn. destruct (current_minute s); [destruct (_ =? _); [|destruct (rollup_ok io)]|]; cbn; congruence. }
  pose proof (insert_agree m row (db s) Hm) as Ha. intros _.
  destruct (current_minute s) as [p|] eqn:Ep.
  - destruct (_ =? p) eqn:E; zbool; [|destruct (rollup_ok io) eqn:Eo]; cbn [snd db set_minute with_db].
    + apply (agree_rolled _ _ _ Ha), Hok. congruence.
    + destruct (decide (p = m)) as [->|Hp]; [apply rollup_rolled|].
      apply (agree_rolled _ _ _ (rollup_agree m p _ Hp)), (agree_rolled _ _ _ Ha), Hok. congruence.
    + apply (agree_rolled _ _ _ Ha), Hok. intros Hc. specialize (Hr ltac:(congruence)). congruence.
  - cbn [snd db set_minute with_db]. apply (agree_rolled _ _ _ Ha), Hok. congruence.
Qed.

Lemma step_minute m e s : minute_ok m s -> keeps m e s -> minute_ok m (step e s).
Proof.
  intros Hok [K1 K2]. destruct e as [[y|n|st] io|io|]; cbn [step _handle rolls_up] in *; [exact Hok|exact Hok| | |].
  - unfold _on_epoch, sample_row. destruct (utc st) as [t|] eqn:Et; [|exact Hok]. set (row := (rne t US, _)).
    destruct (insert_ok io); cbn [negb]; [|by apply failed_minute]. destruct (K1 st io t eq_refl Et) as [P1 P2].
    destruct (next_minute_ok m row io s Hok K2) as [Hn _]. destruct (next_minute _ io _) as [ok s2]. cbn [snd] in Hn.
    destruct ok; cbn [negb]; [|by apply failed_minute]. destruct (_ <? _); [|by apply recovered_minute].
    destruct (prune_ok io); [|by apply failed_minute]. apply recovered_minute. intros Hc. cbn [db set_pruned with_db].
    apply (agree_rolled _ _ (db s2)); [by apply prune_agree|by apply Hn].
  - unfold minute_ok. cbn [new_sampler db current_minute]. intros _. unfold _final_rollup. destruct (current_minute s) as [p|] eqn:Ep.
    + destruct (decide (p = m)) as [->|Hp]; [rewrite (K2 eq_refl); cbn [db with_db]; apply rollup_rolled|].
      assert (rolled m (db s)) by (apply Hok; congruence). destruct (rollup_ok io); cbn [db with_db]; [|by rewrite (proj1 (failed_db _ _))].
      by apply (agree_rolled _ _ _ (rollup_agree m p _ Hp)).
    + apply Hok. congruence.
  - intros _. apply Hok. intros Hc. by apply K2 in Hc.
Qed.

(** C37.  Whatever the messages, the order of their times, the failures and the restarts, every minute
    but the one in progress has, if any of its seconds is stored, a row in the minutes' table: the number
    of its stored seconds, all of those from its start up to the next minute's, and each of the
    aggregates over the values of its column in them that are not null - provided that retention has
    not reached the minute, that its own rollup did not fail and that the program was not killed in it. *)
Theorem minutes_rolled m es d :
  rolled m d -> kept m es (new_sampler d) ->
  let s := run es (new_sampler d) in
  current_minute s <> Some m -> forall rows, seconds_of (db s) m rows -> rows <> [] ->
  exists mi, samples_1m (db s) !! (m * 60) = Some mi /\ summary rows mi.
Proof.
  intros H0 Hk s Hc. assert (minute_ok m s) as H; [|by apply H]. clear Hc. subst s.
  assert (H : minute_ok m (new_sampler d)) by (intros _; exact H0). revert H Hk. generalize (new_sampler d). induction es as [|e es IH]; intros s H Hk; [done|].
  destruct Hk as [Hk1 Hk2]. simpl. apply IH; [by apply step_minute|done].
Qed.

(** ** Failures are told once *)

Fixpoint alternating (b : bool) (l : list Published) : Prop :=
  match l with
  | [] => True
  | SamplerError :: l => b = false /\ alternating true l
  | SamplerRecovered :: l => b = true /\ alternating false l
  end.
Definition last_state (b : bool) (l : list Published) : bool := foldl (fun _ p => match p with SamplerError => true | SamplerRecovered => false end) b l.

Lemma alternating_snoc b l p : alternating b l -> (match p with SamplerError => last_state b l = false | SamplerRecovered => last_state b l = true end) ->
  alternating b (l ++ [p]).
Proof. revert b. induction l as [|q l IH]; intros b H Hp; [by destruct p|]. destruct q; simpl in *; destruct H as [-> H]; (split; [done|]); by apply IH. Qed.

Definition told (s : Sampler) : Prop := alternating false (published s) /\ last_state false (published s) = failing s.

Lemma failed_told now s : told s -> told (_failed now s).
Proof.
  intros [H1 H2]. unfold _failed. destruct (failing s) eqn:E; cbn [negb]; [by destruct (_ <=? _)|]. split; cbn [published failing].
  - by apply alternating_snoc.
  - unfold last_state. by rewrite foldl_snoc.
Qed.
Lemma recovered_told s : told s -> told (_recovered s).
Proof.
  intros [H1 H2]. unfold _recovered. destruct (failing s) eqn:E; [|by split; rewrite ?E]. split; cbn [published failing].
  - by apply alternating_snoc.
  - unfold last_state. by rewrite foldl_snoc.
Qed.

(** [sampler.error] and [sampler.recovered] alternate, beginning with an error, and the last one says whether
    the sampler is failing. *)
Lemma reports_alternate es d : told (run es (new_sampler d)).
Proof.
  unfold run. induction es as [|e es IH] using rev_ind; [by split|]. rewrite foldl_snoc. set (s := foldl _ _ es) in *.
  destruct e as [[y|n|st] io|io|]; cbn [step _handle]; [exact IH|exact IH| |by split|by split].
  unfold _on_epoch. destruct (sample_row st (system s) (ntrip_clients s)) as [row|]; [|exact IH].
  destruct (insert_ok io); cbn [negb]; [|by apply failed_told].
  set (r := next_minute _ _ _).
  assert (Hr : told r.2) by (subst r; unfold next_minute; cbn [current_minute with_db]; destruct (current_minute s); [destruct (_ =? _); [|destruct (rollup_ok io)]|]; exact IH).
  destruct r as [ok s2]. cbn [snd] in Hr. destruct ok; cbn [negb]; [|by apply failed_told].
  destruct (_ <? _); [destruct (prune_ok io)|]; [by apply recovered_told|by apply failed_told|by apply recovered_told].
Qed.

(** ** Rows *)

(** An epoch dated within half a second of a nominal second lands on it. *)
Lemma row_second st system n t k : utc st = Some t -> 2 * Z.abs (k * US - t) < US -> exists vals, sample_row st system n = Some (k, vals).
Proof. intros Ht Hk. unfold sample_row. rewrite Ht, (rne_near t US k) by done. by eexists. Qed.

(** What a reader is given: within the window, by time, no more than its limit. *)
Lemma history_spec known rows start end_ columns limit out : history known rows start end_ columns limit = Some out ->
  columns <> [] /\ Forall (fun c => c ∈ known) columns /\ (forall n, limit = Some n -> 1 <= n /\ len out <= n)
  /\ exists window, sorted_by fst window /\ (forall p, p ∈ window <-> rows !! p.1 = Some p.2 /\ start <= p.1 < end_)
       /\ map (map fst) out `prefix_of` map (fun _ => columns) window.
Proof.
  unfold history. case_bool_decide as Ec; [done|]. destruct (match limit with Some n => n <? 1 | None => false end) eqn:El; [done|].
  destruct (forallb _ columns) eqn:Ef; cbn [negb]; [|done]. set (window := sort_by fst _). intros [= <-].
  split; [done|]. split.
  { apply list.Forall_forall. intros c Hc%list_elem_of_In. rewrite forallb_forall in Ef. exact (proj1 (bool_decide_eq_true _) (Ef c Hc)). }
  split. { intros n ->. zbool. split; [lia|]. rewrite length_take. lia. }
  exists window. split; [apply sort_by_sorted|]. split.
  - intros [t r]. unfold window. rewrite sort_by_perm, elem_of_map_to_list, map_lookup_filter_Some. done.
  - assert (E : forall l : list (Z * list (bytes * Value)), map (map fst) (map (fun p => map (fun c => (c, default VNull (snd <$> List.find (fun kv => bool_decide (kv.1 = c)) p.2))) columns) l)
      = map (fun _ => columns) l).
    { intros l. rewrite map_map. apply map_ext. intros p. rewrite map_map. simpl. apply map_id. }
    destruct limit as [n|]; [|by rewrite E]. rewrite <- (E window). eexists (map _ (drop (Z.to_nat n) _)). by rewrite <- map_app, take_drop.
Qed.
End Sampler.

Definition demo_agg (a : Agg) (l : list Value) : Value :=
  match a with
  | MAX => foldr (fun v w => match v, w with VInt i, VInt j => VInt (Z.max i j) | _, VNull => v | _, _ => w end) VNull l
  | MIN => foldr (fun v w => match v, w with VInt i, VInt j => VInt (Z.min i j) | _, VNull => v | _, _ => w end) VNull l
  | AVG => VNull
  end.
Definition demo_state (t : Z) (used_sats : Z) : State :=
  mkState (Some t) (replicate 6 VNull) [VInt 3; VInt 2; VInt used_sats; VInt 20; VNull; VNull; VNull] [mkSat true 40; mkSat true 0] None [VNull; VNull; VNull].
Definition demo_io : Io := mkIo true true true 100 0.
Definition demo_events : list Event :=
  [Handle (Epoch (demo_state 119999983 9)) demo_io; Handle (Epoch (demo_state 121000017 7)) demo_io; Handle (Epoch (demo_state 181000000 5)) demo_io].

Definition demo_end : Sampler := run demo_agg 86400 7776000 0 0 demo_events (new_sampler (mkDb ∅ ∅ [] [])).

Lemma minutes_rolled_witness :
  kept demo_agg 86400 7776000 0 0 2 demo_events (new_sampler (mkDb ∅ ∅ [] []))
  /\ length (timed_rows (db demo_end) 2) = 2%nat
  /\ exists mi, samples_1m (db demo_end) !! 120 = Some mi /\ summary demo_agg (timed_rows (db demo_end) 2) mi.
Proof.
  assert (K : kept demo_agg 86400 7776000 0 0 2 demo_events (new_sampler (mkDb ∅ ∅ [] []))).
  { repeat split; try reflexivity; match goal with H : Handle _ _ = _, H' : utc _ = Some _ |- _ => injection H as <- <-; injection H' as <-; vm_compute; discriminate end. }
  assert (E : length (timed_rows (db demo_end) 2) = 2%nat) by (vm_compute; reflexivity). split; [exact K|]. split; [exact E|].
  apply (minutes_rolled demo_agg 86400 7776000 0 0 2 demo_events (mkDb ∅ ∅ [] [])).
  - intros rows [_ Hm] Hne. destruct rows as [|r rows]; [by destruct Hne|]. destruct (proj1 (Hm r) ltac:(by left)) as [Hr _].
    exfalso. revert Hr. change (samples_1s (mkDb ∅ ∅ [] [])) with (∅ : gmap Z (list Value)). by rewrite lookup_empty.
  - exact K.
  - vm_compute. discriminate.
  - apply timed_seconds.
  - intros Hn. fold demo_end in Hn. by rewrite Hn in E.
Defined.
