(* ===== verification/RinexHeader.v ===== *)
(** * RINEX headers ([rinex/rinexhdr.py])

    What is read of an observation file: the fields of its header, its first and last epoch, and its
    format. A file is the list of its lines, without their ends; text is ASCII. Floats are
    doubles, and so are the steps between the digits of a second and its microseconds. *)

From Stdlib Require Import String.
From stdpp Require Import list.
From S2P Require Import Prelude.
From S2P Require Import PyBytes.
From S2P Require Import PyText.
From S2P Require Import PyFloat.
From S2P Require Import PyRound.
From S2P Require Import PyCodecs.
From S2P Require Import Calendar.
From S2P Require Import Nmea.

#[local] Open Scope string_scope.
#[local] Open Scope list_scope.
#[local] Open Scope Z_scope.

(** ** [float] and [int] *)

Definition is_digit10 (c : Z) : bool := ascii_digit c.
(** Underscores stand between digits only. *)
Fixpoint underscores_ok (prev : bool) (s : bytes) : bool :=
  match s with
  | [] => true
  | c :: r => if c =? 95 then prev && match r with d :: _ => is_digit10 d | [] => false end && underscores_ok false r else underscores_ok (is_digit10 c) r
  end.
(** The digits a text begins with. *)
Fixpoint digits_of (s : bytes) : bytes * bytes :=
  match s with c :: r => if is_digit10 c then let '(d, t) := digits_of r in (c :: d, t) else ([], s) | [] => ([], []) end.
Definition dec_value (s : bytes) : Z := foldl (fun v c => v * 10 + (c - 48)) 0 s.

(** The sign a number begins with. *)
Definition sign_of (s : bytes) : bool * bytes :=
  match s with c :: r => if c =? 45 then (true, r) else if c =? 43 then (false, r) else (false, s) | [] => (false, []) end.

(** The exponent, and what follows it; [None]: an [e] without digits. *)
Definition exponent_of (s : bytes) : option Z :=
  match s with
  | [] => Some 0
  | c :: r =>
      if (c =? 101) || (c =? 69) then
        let '(neg, r) := sign_of r in
        match digits_of r with (d :: ds, []) => Some (if neg then - dec_value (d :: ds) else dec_value (d :: ds)) | _ => None end
      else None
  end.

(** [float(s)] of ASCII text; [None] is its [ValueError]. *)
Definition py_float (s : bytes) : option Z :=
  let s := strip s in
  if negb (underscores_ok false s) then None
  else
    let '(neg, s) := sign_of (List.filter (fun c => negb (c =? 95)) s) in
    if bool_decide (lower s = str "inf") || bool_decide (lower s = str "infinity") then Some (sign64 neg + INF64)
    else if bool_decide (lower s = str "nan") then Some (sign64 neg + nan64)
    else
      let '(whole, s) := digits_of s in
      let '(frac, s) := match s with c :: r => if c =? 46 then digits_of r else ([], s) | [] => ([], []) end in
      if bool_decide (whole ++ frac = []) then None
      else e ← exponent_of s; Some (of_decimal neg (dec_value (whole ++ frac)) (e - len frac)).

(** [s.split()]. *)
Fixpoint split_ws (fuel : nat) (s : bytes) : list bytes :=
  match fuel with
  | O => []
  | S fuel =>
      match drop_while is_space s with
      | [] => []
      | s => take_while (fun c => negb (is_space c)) s :: split_ws fuel (drop_while (fun c => negb (is_space c)) s)
      end
  end.
Definition words (s : bytes) : list bytes := split_ws (length s) s.

(** [int(x)] of a float: truncated; [None] is the [ValueError] of a NaN or the [OverflowError] of an infinity. *)
Definition truncated (x : Z) : option Z := match f64 x with FFin neg m e => Some (signed neg (m * pow2 e / pow2 (- e))) | _ => None end.
(** [round(x)] of a finite float. *)
Definition rounded (x : Z) : Z := match f64 x with FFin neg m e => signed neg (rne (m * pow2 e) (pow2 (- e))) | _ => 0 end.

(** ** Times *)

(** A time, nothing, or an exception that is not caught: an [OverflowError]. *)
Inductive Read (A : Type) := Value (a : A) | Nothing | Raises.
Arguments Value {A}. Arguments Nothing {A}. Arguments Raises {A}.

Definition MILLION : Z := Eval vm_compute in of_int 1000000.
(** [round((sec - whole) * 1e6) % 1_000_000]. *)
Definition micros (sec whole : Z) : Z := rounded (fmul (fsub sec (of_int whole)) MILLION) mod 1000000.

(** [datetime(y, mo, d, h, mi, whole, micros)]; [None] is its [ValueError]. *)
Definition datetime (y mo d h mi s us : Z) : option Datetime := t ← make_datetime y mo d h mi s; Some (t + us).

Definition c_int (i : Z) : bool := (- 2 ^ 31 <=? i) && (i <? 2 ^ 31).
Definition time_of (y mo d h mi sec : Z) : Read Datetime :=
  match f64 sec with
  | FInf _ => Raises
  | _ =>
      match truncated sec with
      | None => Nothing
      | Some whole =>
          if negb (forallb c_int [y; mo; d; h; mi; whole]) then Raises
          else match datetime y mo d h mi whole (micros sec whole) with Some t => Value t | None => Nothing end
      end
  end.

Definition _header_time (body : bytes) : Read Datetime :=
  match words body with
  | y :: mo :: d :: h :: mi :: sec :: _ =>
      match py_int 10 y, py_int 10 mo, py_int 10 d, py_int 10 h, py_int 10 mi, py_float sec with
      | Some y, Some mo, Some d, Some h, Some mi, Some sec => time_of y mo d h mi sec
      | _, _, _, _, _, _ => Nothing
      end
  | _ => Nothing
  end.

Definition _epoch_time (line : bytes) : Read Datetime := if startswith line (str ">") then _header_time (drop 1 line) else Nothing.

(** [_RINEX2_EPOCH]: the columns of its match. *)
Definition space_or_digit (c : Z) : bool := (c =? 32) || is_digit10 c.
Definition two_columns (line : bytes) (i : nat) : bool := (line.[i] =? 32) && space_or_digit line.[i + 1] && is_digit10 line.[i + 2].
Definition rinex2_epoch (line : bytes) : bool :=
  (32 <=? len line) && forallb (two_columns line) [0; 3; 6; 9; 12; 15]%nat && (line.[18] =? 46) && forallb is_digit10 (slice 19 26 line)
  && (line.[26] =? 32) && (line.[27] =? 32) && in_range 48 54 line.[28] && space_or_digit line.[29] && space_or_digit line.[30] && is_digit10 line.[31].

Definition _epoch_time_v2 (line : bytes) : Read Datetime :=
  if negb (rinex2_epoch line) || negb (mem_byte line.[28] [48; 49]) then Nothing
  else
    match py_int 10 (slice 1 3 line), py_int 10 (slice 4 6 line), py_int 10 (slice 7 9 line), py_int 10 (slice 10 12 line), py_int 10 (slice 13 15 line),
          py_float (slice 16 26 line) with
    | Some yy, Some mo, Some d, Some h, Some mi, Some sec => time_of ((if 80 <=? yy then 1900 else 2000) + yy) mo d h mi sec
    | _, _, _, _, _, _ => Raises
    end.

(** ** The header *)

Definition HEADER_MAX_LINES : nat := 2000.

Record RinexHeaderInfo := mkInfo {
  version : bytes; marker : bytes; receiver_type : bytes; antenna_type : bytes; approx_xyz : option (Z * Z * Z); interval : option Z;
  first_obs : option Datetime; last_obs : option Datetime
}.
Definition no_info : RinexHeaderInfo := mkInfo [] [] [] [] None None None None.

(** [any((x, y, z))] of floats. *)
Definition truthy (x : Z) : bool := match f64 x with FFin _ m _ => negb (m =? 0) | _ => true end.

Definition label_of (line : bytes) : bytes := strip (drop 60 line).
Definition END_OF_HEADER : bytes := str "END OF HEADER".

(** One line; [None]: an exception. *)
Definition header_line (line : bytes) (i : RinexHeaderInfo) : option RinexHeaderInfo :=
  let label := label_of line in
  let body := take 60 line in
  if bool_decide (label = str "RINEX VERSION / TYPE") then
    Some (mkInfo (strip (take 9 body)) (marker i) (receiver_type i) (antenna_type i) (approx_xyz i) (interval i) (first_obs i) (last_obs i))
  else if bool_decide (label = str "MARKER NAME") then
    Some (mkInfo (version i) (strip body) (receiver_type i) (antenna_type i) (approx_xyz i) (interval i) (first_obs i) (last_obs i))
  else if bool_decide (label = str "REC # / TYPE / VERS") then
    Some (mkInfo (version i) (marker i) (strip (slice 20 40 body)) (antenna_type i) (approx_xyz i) (interval i) (first_obs i) (last_obs i))
  else if bool_decide (label = str "ANT # / TYPE") then
    Some (mkInfo (version i) (marker i) (receiver_type i) (strip (slice 20 40 body)) (approx_xyz i) (interval i) (first_obs i) (last_obs i))
  else if bool_decide (label = str "APPROX POSITION XYZ") then
    let xyz :=
      match py_float (slice 0 14 body), py_float (slice 14 28 body), py_float (slice 28 42 body) with
      | Some x, Some y, Some z => if truthy x || truthy y || truthy z then Some (x, y, z) else None
      | _, _, _ => None
      end in
    Some (mkInfo (version i) (marker i) (receiver_type i) (antenna_type i) xyz (interval i) (first_obs i) (last_obs i))
  else if bool_decide (label = str "INTERVAL") then
    Some (mkInfo (version i) (marker i) (receiver_type i) (antenna_type i) (approx_xyz i) (py_float (strip body)) (first_obs i) (last_obs i))
  else if bool_decide (label = str "TIME OF FIRST OBS") then
    match _header_time body with
    | Raises => None
    | r => Some (mkInfo (version i) (marker i) (receiver_type i) (antenna_type i) (approx_xyz i) (interval i) (match r with Value t => Some t | _ => None end) (last_obs i))
    end
  else if bool_decide (label = str "TIME OF LAST OBS") then
    match _header_time body with
    | Raises => None
    | r => Some (mkInfo (version i) (marker i) (receiver_type i) (antenna_type i) (approx_xyz i) (interval i) (first_obs i) (match r with Value t => Some t | _ => None end))
    end
  else Some i.

Fixpoint header_lines (lines : list bytes) (i : RinexHeaderInfo) : option RinexHeaderInfo :=
  match lines with
  | [] => Some i
  | line :: lines => if bool_decide (label_of line = END_OF_HEADER) then Some i else i ← header_line line i; header_lines lines i
  end.
Definition read_header (file : list bytes) : option RinexHeaderInfo := header_lines (take HEADER_MAX_LINES file) no_info.

(** The loop of [obs_span] over the records. *)
Fixpoint span_of (epoch : bytes -> Read Datetime) (in_header : bool) (lines : list bytes) (first last : option Datetime) : option (option Datetime * option Datetime) :=
  match lines with
  | [] => Some (first, last)
  | line :: lines =>
      if in_header then span_of epoch (negb (bool_decide (label_of line = END_OF_HEADER))) lines first last
      else
        match epoch line with
        | Raises => None
        | Nothing => span_of epoch false lines first last
        | Value t => span_of epoch false lines (match first with Some f => Some f | None => Some t end) (Some t)
        end
  end.

(** [obs_span]; the outer [None]: an exception. *)
Definition obs_span (file : list bytes) : option (option (Datetime * Datetime)) :=
  info ← read_header file;
  match first_obs info, last_obs info with
  | Some f, Some l => Some (Some (f, l))
  | _, _ =>
      let epoch := if startswith (version info) (str "2") then _epoch_time_v2 else _epoch_time in
      '(first, last) ← span_of epoch true file None None;
      let first := match first_obs info with Some f => Some f | None => first end in
      Some (match first, last with Some f, Some l => Some (f, l) | _, _ => None end)
  end.

(** ** Formats *)

Inductive Format := Raw | RinexObs | RinexNav | Crinex | Gzip.

(** [decode("ascii", "replace")]. *)
Definition decode_ascii (b : bytes) : bytes := map (fun c => if c <? 128 then c else 65533) b.

Definition sniff_format (file : bytes) : Format :=
  let head := take 256 file in
  if bool_decide (take 2 head = [0x1f; 0x8b]) then Gzip
  else
    let first := decode_ascii (match find_idx (Z.eqb 10) head with Some k => take k head | None => head end) in
    let label := strip (drop 60 first) in
    if bool_decide (label = str "CRINEX VERS   / TYPE") then Crinex
    else if bool_decide (label = str "RINEX VERSION / TYPE") then (if bool_decide (upper (slice 20 21 first) = str "O") then RinexObs else RinexNav)
    else Raw.

(** ** Seconds *)

Lemma seconds_worth s d : 0 <= s < 60 -> 0 <= d < MINUTE ->
  exists r, worth (of_decimal false (s * MINUTE + d) (- 7)) r /\ 2 ^ 23 * Z.abs (r * MINUTE - (s * MINUTE + d) * ONE) <= ONE /\ (d = 0 -> r = s * ONE).
Proof.
  intros Hs Hd. pose proof one_big. unfold MINUTE in *. unfold of_decimal. destruct (_ =? 0) eqn:E0; zbool.
  { assert (s = 0 /\ d = 0) as [-> ->] by lia. exists 0. split; [apply worth_zero|]. split; [change (Z.abs _) with 0; lia|done]. }
  change (10 ^ Z.max 0 (- - 7)) with 10000000. change (10 ^ Z.max 0 (- 7)) with 1. rewrite Z.mul_1_r.
  destruct (round_ratio_worth (s * 10000000 + d) 10000000) as (r & Hr & Herr & Hex); [lia|done| |].
  { apply Z.le_lt_trans with (60 * 10000000); [lia|]. lia. }
  exists r. split; [done|]. assert ((s * 10000000 + d) * ONE <= 600000000 * ONE) by (apply Z.mul_le_mono_nonneg_r; lia). split; [lia|].
  intros ->. specialize (Hex s 0 ltac:(lia) ltac:(lia)). change (2 ^ (0 + 1074)) with ONE in Hex. lia.
Qed.

Lemma million : f64 MILLION = FFin false (1000000 * 2 ^ 33) (-33).
Proof. vm_compute. reflexivity. Qed.

(** Seconds with seven decimals: the whole ones, and the microseconds nearest to the rest. *)
Lemma seconds_read s d : 0 <= s < 60 -> 0 <= d < 9999995 ->
  let sec := of_decimal false (s * MINUTE + d) (- 7) in
  (exists m e, f64 sec = FFin false m e) /\ truncated sec = Some s /\ 0 <= micros sec s < 1000000 /\ Z.abs (10 * micros sec s - d) <= 5.
Proof.
  intros Hs Hd sec. pose proof one_pos as H1. pose proof one_big as HB.
  destruct (seconds_worth s d Hs ltac:(unfold MINUTE; lia)) as (r & Hr & Herr & H0). fold sec in Hr. unfold MINUTE in Herr.
  assert (Hq : s * ONE <= r < (s + 1) * ONE).
  { destruct (decide (d = 0)) as [->|Hd0]; [rewrite H0 by done; lia|]. nia. }
  assert (Hdiv : r / ONE = s) by (symmetry; apply (Z.div_unique r ONE s (r - s * ONE)); lia).
  assert (Hmod : r mod ONE = r - s * ONE) by (rewrite Z.mod_eq by lia; rewrite Hdiv; lia).
  destruct Hr as (Hb & m & e & E & He & Hm & Hu). split; [by eauto|].
  split. { unfold truncated. rewrite E. cbn [signed]. by rewrite (units_div m e r He Hu), Hdiv. }
  assert (Hfr : worth (fsub sec (of_int s)) (r - s * ONE)).
  { rewrite <- Hmod. pose proof (of_int_worth s ltac:(lia)) as [Hs1 Hs2]. unfold fsub, fneg. rewrite (proj2 (Z.leb_gt _ _)) by lia.
    apply fraction_worth; [split; [done|by exists m, e]|]. rewrite Hdiv. by split. }
  set (a := r - s * ONE) in *.
  destruct (fmul_worth _ MILLION a _ _ 33 Hfr million) as (r2 & Hr2 & Herr2); [done|done|done|lia|].
  replace (r2 * 2 ^ 33 - a * (1000000 * 2 ^ 33)) with (2 ^ 33 * (r2 - 1000000 * a)) in Herr2 by ring.
  rewrite Z.abs_mul in Herr2. change (Z.abs (2 ^ 33)) with (2 ^ 33) in Herr2.
  assert (Ha : 0 <= a < ONE) by lia. pose proof (worth_nonneg _ _ Hr2) as Hr20.
  destruct Hr2 as (_ & m2 & e2 & E2 & He2 & Hm2 & Hu2).
  assert (Er : rounded (fmul (fsub sec (of_int s)) MILLION) = rne r2 ONE).
  { unfold rounded. rewrite E2. cbn [signed]. rewrite <- (Z.mul_1_r (m2 * pow2 e2)), (units_rne m2 e2 r2 1 He2 Hu2). by rewrite Z.mul_1_r. }
  pose proof (rne_spec r2 ONE H1) as Hrne. set (us := rne r2 ONE) in *.
  assert (Hus0 : 0 <= us) by (apply rne_not_negative; lia).
  assert (Hclose : Z.abs (10 * us - d) <= 5) by nia.
  unfold micros. rewrite Er, Z.mod_small by lia. split; [lia|done].
Qed.

(** A fraction that rounds up to the next second is read as a whole second less: the microseconds wrap. *)
Lemma second_lost :
  _header_time (str "  2026    09    18    20    23   27.9999999     GPS") = Value 1789763007000000
  /\ _header_time (str "  2026    09    18    20    23   28.0000000     GPS") = Value 1789763008000000.
Proof. vm_compute. done. Qed.

(** ** The text of a time *)

(** [w] writes [v], with any number of leading zeros. *)
Definition numeral (w : bytes) (v : Z) : Prop := exists k, w = fixed_digits 10 (S k) v /\ 0 <= v < 10 ^ Z.of_nat (S k).
Definition blanks (n : nat) : bytes := repeat 32 n.
(** Seconds with seven decimals. *)
Definition seconds_text (w : bytes) (d : Z) : bytes := w ++ 46 :: fixed_digits 10 7 d.
(** What may follow a word: white space or the end. *)
Definition ends (s : bytes) : Prop := match s with c :: _ => is_space c = true | [] => True end.
Definition solid (s : bytes) : Prop := s <> [] /\ Forall (fun c => is_space c = false) s.

Lemma digit_solid d : 0 <= d < 10 -> 48 <= digit_char d <= 57.
Proof. intros H. unfold digit_char. rewrite (proj2 (Z.ltb_lt _ _)) by lia. lia. Qed.

Lemma numeral_digits w v : numeral w v -> w <> [] /\ Forall (fun c => 48 <= c <= 57) w.
Proof.
  intros (k & -> & _). split.
  - intros E. apply (f_equal length) in E. by rewrite length_fixed_digits in E.
  - apply fixed_digits_chars; [by left|]. apply digit_solid.
Qed.

Lemma digit_not_space c : 46 <= c <= 57 -> is_space c = false.
Proof.
  intros H. unfold is_space, mem_byte. cbn [existsb].
  repeat match goal with |- context [?a <=? ?b] => destruct (Z.leb_spec a b) | |- context [?a =? ?b] => destruct (Z.eqb_spec a b) end; try lia; done.
Qed.

Lemma digits_solid w : w <> [] -> Forall (fun c => 46 <= c <= 57) w -> solid w.
Proof. intros H1 H2. split; [done|]. eapply Forall_impl; [apply digit_not_space|exact H2]. Qed.

Lemma numeral_solid w v : numeral w v -> solid w.
Proof. intros H. destruct (numeral_digits w v H) as [H1 H2]. apply digits_solid; [done|]. eapply Forall_impl; [|exact H2]. cbv beta. lia. Qed.

Lemma split_ws_fuel n m s : (length s <= n)%nat -> (length s <= m)%nat -> split_ws n s = split_ws m s.
Proof.
  assert (Hd : forall p s, (length (drop_while p s) <= length s)%nat) by (intros p t; induction t as [|c t IH]; simpl; [done|]; destruct (p c); simpl; lia).
  revert m s. induction n as [|n IH]; intros m s Hn Hm.
  - destruct s; [|simpl in Hn; lia]. by destruct m.
  - destruct m as [|m]; [destruct s; [done|simpl in Hm; lia]|]. cbn [split_ws].
    pose proof (Hd is_space s) as H1. destruct (drop_while is_space s) as [|c r] eqn:E; [done|]. f_equal. apply IH.
    all: assert (is_space c = false) by (clear -E; induction s as [|x s IHs]; [done|]; cbn [drop_while] in E; destruct (is_space x) eqn:Ex; [by apply IHs|by injection E as -> _]).
    all: cbn [drop_while]; rewrite H; cbn [negb]; pose proof (Hd (fun c => negb (is_space c)) r); simpl in H1; lia.
Qed.

Lemma drop_blanks n s : drop_while is_space (blanks n ++ s) = drop_while is_space s.
Proof. induction n as [|n IH]; [done|]. exact IH. Qed.

(** A word, and the words after it. *)
Lemma words_cons n w s : solid w -> ends s -> words (blanks n ++ w ++ s) = w :: words s.
Proof.
  intros [Hne Hw] Hs. unfold words.
  destruct w as [|c w]; [done|]. apply list.Forall_cons in Hw as [Hc Hw].
  rewrite (split_ws_fuel (length (blanks n ++ (c :: w) ++ s)) (S (length (blanks n ++ (c :: w) ++ s)))) by lia.
  cbn [split_ws]. rewrite drop_blanks. cbn [app drop_while]. rewrite Hc. cbn [take_while drop_while]. rewrite Hc. cbn [negb].
  assert (Ht : take_while (fun c => negb (is_space c)) (w ++ s) = w /\ drop_while (fun c => negb (is_space c)) (w ++ s) = s).
  { induction Hw as [|x w Hx Hw IH]; cbn [app take_while drop_while].
    - destruct s as [|x s]; [done|]. cbn [take_while drop_while]. simpl in Hs. by rewrite Hs.
    - rewrite Hx. cbn [negb]. destruct IH as [-> ->]; done. }
  destruct Ht as [-> ->]. f_equal. apply split_ws_fuel; rewrite ?length_app; simpl; rewrite ?length_app; lia.
Qed.

Lemma numeral_int w v : numeral w v -> py_int 10 w = Some v.
Proof. intros (k & -> & H). apply py_int_fixed; [by left|lia|done]. Qed.

Lemma dec_value_app a b : dec_value (a ++ b) = dec_value a * 10 ^ len b + dec_value b.
Proof.
  unfold dec_value. rewrite foldl_app. generalize (foldl (fun v c => v * 10 + (c - 48)) 0 a). intros x.
  enough (H : forall x, foldl (fun v c => v * 10 + (c - 48)) x b = x * 10 ^ len b + foldl (fun v c => v * 10 + (c - 48)) 0 b) by apply H.
  clear. induction b as [|c b IH]; intros x; cbn [foldl]; [change (10 ^ len []) with 1; lia|].
  rewrite IH, (IH (0 * 10 + (c - 48))). change (length (c :: b)) with (S (length b)). rewrite Nat2Z.inj_succ, Z.pow_succ_r by lia. ring.
Qed.

Lemma dec_value_fixed k v : 0 <= v < 10 ^ Z.of_nat k -> dec_value (fixed_digits 10 k v) = v.
Proof.
  revert v. induction k as [|k IH]; intros v Hv; [simpl in Hv; change (0 = v); lia|].
  rewrite Nat2Z.inj_succ, Z.pow_succ_r in Hv by lia. cbn [fixed_digits]. rewrite dec_value_app.
  rewrite IH by (split; [apply Z.div_pos; lia|apply Z.div_lt_upper_bound; lia]).
  pose proof (Z.mod_pos_bound v 10 ltac:(lia)). pose proof (Z.div_mod v 10 ltac:(lia)).
  change (len [digit_char (v mod 10)]) with 1. unfold dec_value, digit_char. cbn [foldl]. rewrite (proj2 (Z.ltb_lt _ _)) by lia. lia.
Qed.

Lemma digits_of_run w s : Forall (fun c => 48 <= c <= 57) w -> match s with c :: _ => is_digit10 c = false | [] => True end -> digits_of (w ++ s) = (w, s).
Proof.
  intros Hw Hs. induction Hw as [|c w Hc Hw IH].
  - cbn [app]. destruct s as [|c s]; [done|]. cbn [digits_of]. by rewrite Hs.
  - cbn [app digits_of]. unfold is_digit10 at 1, ascii_digit. rewrite !(proj2 (Z.leb_le _ _)) by lia. by rewrite IH.
Qed.

Definition text_char (c : Z) : Prop := 46 <= c <= 57.

Lemma strip_solid s : Forall (fun c => is_space c = false) s -> strip s = s.
Proof.
  intros H. assert (Hd : forall s, Forall (fun c => is_space c = false) s -> drop_while is_space s = s) by (intros t Ht; destruct Ht as [|c t Hc Ht]; [done|]; cbn [drop_while]; by rewrite Hc).
  unfold strip, rstrip. rewrite (Hd s H), Hd by (by apply Forall_rev). apply rev_involutive.
Qed.

Lemma no_underscores s b : Forall text_char s -> underscores_ok b s = true /\ List.filter (fun c => negb (c =? 95)) s = s.
Proof.
  intros H. revert b. induction H as [|c s Hc H IH]; intros b; [done|]. unfold text_char in Hc. cbn [underscores_ok List.filter].
  rewrite (proj2 (Z.eqb_neq _ _)) by lia. destruct (IH (is_digit10 c)) as [-> ->]. done.
Qed.

Lemma seconds_chars w s d : numeral w s -> Forall text_char (seconds_text w d).
Proof.
  intros H. destruct (numeral_digits w s H) as [_ Hw]. apply Forall_app_2; [eapply Forall_impl; [|exact Hw]; unfold text_char; cbv beta; lia|].
  constructor; [unfold text_char; lia|]. apply fixed_digits_chars; [by left|]. intros x Hx. pose proof (digit_solid x Hx). unfold text_char. lia.
Qed.

Lemma seconds_solid w s d : numeral w s -> solid (seconds_text w d).
Proof.
  intros H. apply digits_solid; [|by eapply seconds_chars]. destruct (numeral_digits w s H) as [Hw _]. by destruct w.
Qed.

(** The double a text of seconds is read as. *)
Lemma seconds_float w s d : numeral w s -> 0 <= d < MINUTE -> py_float (seconds_text w d) = Some (of_decimal false (s * MINUTE + d) (- 7)).
Proof.
  intros Hn Hd. pose proof (seconds_chars w s d Hn) as Hc. destruct (numeral_digits w s Hn) as [Hne Hw].
  unfold py_float. rewrite strip_solid by (by eapply seconds_solid). destruct (no_underscores _ false Hc) as [-> ->]. cbn [negb].
  unfold seconds_text in *. destruct w as [|c w]; [done|]. pose proof (proj1 (proj1 (list.Forall_cons _ _ _) Hw)) as Hc0. cbv beta in Hc0.
  cbn [app sign_of]. rewrite !(proj2 (Z.eqb_neq _ _)) by lia.
  assert (Hl : exists r, lower (c :: w ++ 46 :: fixed_digits 10 7 d) = c :: r).
  { exists (lower (w ++ 46 :: fixed_digits 10 7 d)). unfold lower. cbn [map]. f_equal. unfold lower_char, in_range. by rewrite (proj2 (Z.leb_gt 65 c)), (proj2 (Z.leb_gt 192 c)) by lia. }
  destruct Hl as [r ->]. rewrite !bool_decide_eq_false_2 by (intros E; apply (f_equal (fun l => nth 0 l 0)) in E; cbv in E; lia). cbn [orb].
  change (c :: w ++ 46 :: fixed_digits 10 7 d) with ((c :: w) ++ 46 :: fixed_digits 10 7 d).
  rewrite digits_of_run by done. change (46 =? 46) with true. cbv iota.
  rewrite <- (app_nil_r (fixed_digits 10 7 d)), digits_of_run by (done || (apply fixed_digits_chars; [by left|apply digit_solid])).
  rewrite bool_decide_eq_false_2 by done. cbn [exponent_of]. cbn [mbind option_bind].
  rewrite dec_value_app, length_fixed_digits, (dec_value_fixed 7) by (unfold MINUTE in Hd; lia).
  destruct Hn as (k & -> & Hk). rewrite dec_value_fixed by done. done.
Qed.

Lemma datetime_ranges y mo d h mi s t : make_datetime y mo d h mi s = Some t -> forallb c_int [y; mo; d; h; mi; s] = true /\ 0 <= s < 60.
Proof.
  unfold make_datetime. destruct (_ && _) eqn:E; [|done]. intros _. zbool.
  assert (d <= 31) by (unfold days_in_month in *; repeat case_match; lia).
  split; [|lia]. unfold c_int. cbn [forallb]. rewrite !andb_true_iff, !Z.leb_le, !Z.ltb_lt. lia.
Qed.

(** The six fields of a time, each after its blanks: what a header line and an epoch record have. *)
Definition time_text (gap : nat -> nat) (wy wmo wd wh wmi ws : bytes) (f : Z) (tail : bytes) : bytes :=
  blanks (gap 0%nat) ++ wy ++ blanks (S (gap 1%nat)) ++ wmo ++ blanks (S (gap 2%nat)) ++ wd ++ blanks (S (gap 3%nat)) ++ wh
  ++ blanks (S (gap 4%nat)) ++ wmi ++ blanks (S (gap 5%nat)) ++ seconds_text ws f ++ tail.

(** The time a header line or a RINEX 3 epoch record writes is the time that is read
    of it: for any padding of the fields, by blanks or by zeros, and any text after them, the result is
    the date and the whole second written, and the microseconds nearest to the seven decimals (within
    half a microsecond), although they go through doubles; for decimals that would round up to the next
    second see [second_lost]. *)
Theorem header_time_read gap wy wmo wd wh wmi ws y mo d h mi s f tail t :
  numeral wy y -> numeral wmo mo -> numeral wd d -> numeral wh h -> numeral wmi mi -> numeral ws s ->
  make_datetime y mo d h mi s = Some t -> 0 <= f < 9999995 -> ends tail ->
  let text := time_text gap wy wmo wd wh wmi ws f tail in
  exists us, _header_time text = Value (t + us) /\ _epoch_time (62 :: text) = Value (t + us) /\ 0 <= us < 1000000 /\ Z.abs (10 * us - f) <= 5.
Proof.
  intros Hy Hmo Hd Hh Hmi Hs Ht Hf Hend text.
  destruct (datetime_ranges _ _ _ _ _ _ _ Ht) as [Hci Hs60]. pose proof (seconds_read s f Hs60 Hf) as ((m & e & Ef) & Etr & Hus & Herr).
  set (sec := of_decimal _ _ _) in *. exists (micros sec s).
  enough (H : _header_time text = Value (t + micros sec s)) by (split; [done|]; split; [exact H|]; done).
  unfold _header_time, text, time_text.
  rewrite (words_cons _ wy), (words_cons _ wmo), (words_cons _ wd), (words_cons _ wh), (words_cons _ wmi), (words_cons _ (seconds_text ws f));
    try done; try (by eapply numeral_solid); [|by eapply seconds_solid].
  rewrite (numeral_int wy y), (numeral_int wmo mo), (numeral_int wd d), (numeral_int wh h), (numeral_int wmi mi) by done.
  rewrite (seconds_float ws s f) by (done || (unfold MINUTE; lia)). fold sec.
  unfold time_of. rewrite Ef, Etr, Hci. cbn [negb]. unfold datetime. by rewrite Ht.
Qed.

Lemma header_time_read_witness :
  exists us, _header_time (str "  2026    09    18    20    23   27.9980000     GPS") = Value (1789763007000000 + us)
    /\ _epoch_time (str ">  2026    09    18    20    23   27.9980000     GPS") = Value (1789763007000000 + us) /\ 0 <= us < 1000000 /\ Z.abs (10 * us - 9980000) <= 5.
Proof.
  assert (N : forall k v, 0 <= v < 10 ^ Z.of_nat (S k) -> numeral (fixed_digits 10 (S k) v) v) by (intros k v H; by exists k).
  refine (header_time_read (fun n => match n with O => 2 | 5%nat => 2 | _ => 3 end)%nat (fixed_digits 10 4 2026) (fixed_digits 10 2 9) (fixed_digits 10 2 18)
            (fixed_digits 10 2 20) (fixed_digits 10 2 23) (fixed_digits 10 2 27) 2026 9 18 20 23 27 9980000 (str "     GPS") 1789763007000000 _ _ _ _ _ _ _ _ _).
  all: try (apply N; lia); try (vm_compute; done).
Defined.

(** ** The span of the epochs *)

(** The times of the epochs that are read. *)
Definition times (epoch : bytes -> Read Datetime) (lines : list bytes) : list Datetime :=
  omap (fun l => match epoch l with Value t => Some t | _ => None end) lines.
Fixpoint after_header (lines : list bytes) : list bytes :=
  match lines with [] => [] | l :: lines => if bool_decide (label_of l = END_OF_HEADER) then lines else after_header lines end.

Lemma span_records epoch lines first last : Forall (fun l => epoch l <> Raises) lines ->
  span_of epoch false lines first last
  = Some (match first with Some f => Some f | None => head (times epoch lines) end, match list.last (times epoch lines) with Some t => Some t | None => last end).
Proof.
  intros H. revert first last. induction H as [|l lines Hl H IH]; intros first last; [by destruct first|].
  cbn [span_of times omap list_omap]. fold (times epoch lines). destruct (epoch l) as [t| |] eqn:E; [| |done]; rewrite IH.
  - cbn [head]. f_equal. f_equal; [by destruct first|]. fold (times epoch lines). destruct (times epoch lines) as [|u ts] eqn:Et; [done|].
    change (list.last (t :: u :: ts)) with (list.last (u :: ts)). destruct (list.last (u :: ts)) eqn:El; [done|]. by apply list.last_None in El.
  - done.
Qed.

(** A file whose header has neither time is spanned by the first and the last of its epochs. *)
Lemma span_of_epochs file info : read_header file = Some info -> first_obs info = None -> 
  let epoch := if startswith (version info) (str "2") then _epoch_time_v2 else _epoch_time in
  Forall (fun l => epoch l <> Raises) (after_header file) ->
  obs_span file = Some (match head (times epoch (after_header file)), list.last (times epoch (after_header file)) with Some f, Some l => Some (f, l) | _, _ => None end).
Proof.
  intros Hr Hf epoch H. unfold obs_span. rewrite Hr. cbn [mbind option_bind]. rewrite Hf. fold epoch.
  assert (E : forall first last, span_of epoch true file first last = span_of epoch false (after_header file) first last).
  { clear. intros first last. induction file as [|l file IH]; [done|]. cbn [span_of after_header]. destruct (bool_decide _); [done|exact IH]. }
  rewrite E, span_records by done. cbn [mbind option_bind]. f_equal. by destruct (list.last _).
Qed.
