(* ===== verification/PpkTrack.v ===== *)
(** * Solution tracks ([ppk/pos.py])

    The lines of a solution file into records, the summary of a track with its outages, and the
    table and the map features that are written of it. A float is the pattern of a double; text
    is ASCII; the KML document is left out. *)

From Stdlib Require Import String.
From stdpp Require Import sets list sorting.
From S2P Require Import Prelude.
From S2P Require Import PyBytes.
From S2P Require Import PyText.
From S2P Require Import PyFloat.
From S2P Require Import PyRound.
From S2P Require Import PyCodecs.
From S2P Require Import Calendar.
From S2P Require Import Nmea.
From S2P Require Import RinexHeader.

#[local] Open Scope string_scope.
#[local] Open Scope list_scope.
#[local] Open Scope Z_scope.

Definition Q_NAMES : list (Z * bytes) :=
  [(1, str "fixed"); (2, str "float"); (3, str "sbas"); (4, str "dgps"); (5, str "single"); (6, str "ppp")].
Definition _MIN_COLUMNS : nat := 15.

Record PosRecord := mkPos {
  time : Datetime; lat : Z; lon : Z; height : Z; q : Z; ns : Z; sdn : Z; sde : Z; sdu : Z; sdne : Z; sdeu : Z; sdun : Z; age : Z; ratio : Z
}.

Definition quality (r : PosRecord) : bytes :=
  match find (fun p : Z * bytes => p.1 =? q r) Q_NAMES with Some p => p.2 | None => str_int (q r) end.

(** ** Reading *)

(** A field of [strptime]: one or two digits, within its bounds. *)
Definition two_digits (lo hi : Z) (s : bytes) : option Z :=
  if negb (bool_decide (s = [])) && (length s <=? 2)%nat && forallb ascii_digit s && in_range lo hi (dec_value s) then Some (dec_value s) else None.
(** [%Y] and [%f]: four digits, and up to six that count from the left. *)
Definition year_digits (s : bytes) : option Z := if (length s =? 4)%nat && forallb ascii_digit s then Some (dec_value s) else None.
Definition micro_digits (s : bytes) : option Z :=
  if negb (bool_decide (s = [])) && (length s <=? 6)%nat && forallb ascii_digit s then Some (dec_value (s ++ repeat 48 (6 - length s))) else None.

(** [%S] takes 60 and 61, which [datetime] then refuses. *)
Definition _parse_time (date clock : bytes) : option Datetime :=
  '(y, date) ← cut 47 date;
  '(mo, d) ← cut 47 date;
  '(h, clock) ← cut 58 clock;
  '(mi, s) ← cut 58 clock;
  let '(s, f) := match cut 46 s with Some (s, f) => (s, micro_digits f) | None => (s, Some 0) end in
  y ← year_digits y; mo ← two_digits 1 12 mo; d ← two_digits 1 31 d; h ← two_digits 0 23 h; mi ← two_digits 0 59 mi; s ← two_digits 0 61 s; us ← f;
  datetime y mo d h mi s us.

(** One line: a record, nothing, or the exception of [int] on a quality that is not a number. *)
Definition line_record (raw : bytes) : Read PosRecord :=
  let line := strip raw in
  if bool_decide (line = []) || startswith line (str "%") then Nothing
  else
    match words line with
    | date :: clock :: values =>
        if (length values <? _MIN_COLUMNS - 2)%nat then Nothing
        else
          match _parse_time date clock, mapM py_float (take (_MIN_COLUMNS - 2) values) with
          | Some t, Some [a; b; c; d; e; f; g; h; i; j; k; l; m] =>
              match truncated d, truncated e with
              | Some q, Some ns => Value (mkPos t a b c q ns f g h i j k l m)
              | _, _ => Raises
              end
          | _, _ => Nothing
          end
    | _ => Nothing
    end.

(** The records that come before the exception, if there is one. *)
Fixpoint iter_pos (lines : list bytes) : list PosRecord * bool :=
  match lines with
  | [] => ([], true)
  | l :: lines =>
      match line_record l with
      | Value r => let '(rs, ok) := iter_pos lines in (r :: rs, ok)
      | Nothing => iter_pos lines
      | Raises => ([], false)
      end
  end.
Definition parse_pos (lines : list bytes) : option (list PosRecord) := let '(rs, ok) := iter_pos lines in if ok : bool then Some rs else None.

(** ** Summary *)

(** [(b - a).total_seconds()], and [a > b] of floats. *)
Definition seconds_between (a b : Datetime) : Z := fdiv_int (b - a) 1000000.
Definition fgt (a b : Z) : bool := fge a b && negb (fge b a).
(** [max(a, b)]. *)
Definition fmax (a b : Z) : Z := if fgt b a then b else a.

Definition pairwise {A} (l : list A) : list (A * A) := combine l (tail l).
Definition steps_of (records : list PosRecord) : list Z := map (fun p : PosRecord * PosRecord => time p.2 - time p.1) (pairwise records).

Definition ONE_AND_A_HALF : Z := Eval vm_compute in of_decimal false 15 (- 1).
(** Steps sort as their seconds do. *)
Definition _median_step (records : list PosRecord) : option Z :=
  match sort_by (fun d => d) (steps_of records) with
  | [] => None
  | ds => Some (fdiv_int (nth (length ds / 2) ds 0) 1000000)
  end.
Definition _gap_limit (step : option Z) (gap_s : Z) : Z := match step with Some s => fmax gap_s (fmul ONE_AND_A_HALF s) | None => gap_s end.
Definition gap_threshold (records : list PosRecord) (gap_s : Z) : Z := _gap_limit (_median_step records) gap_s.

Record PpkSummary := mkSummary {
  epochs : Z; duration_s : Z; interval_s : option Z; fixed_pct : Z; float_pct : Z; single_pct : Z; mean_sd_fixed : option (Z * Z * Z);
  gaps : list (Datetime * Datetime * Z); first_time : option Datetime; last_time : option Datetime
}.

Definition _pct (count total : Z) : Z := round_to 2 (fdiv_int (100 * count) total).
Definition count_q (k : Z) (records : list PosRecord) : Z := len (List.filter (fun r => q r =? k) records).
(** [sum(...) / k] to five places. *)
Definition mean_of (l : list Z) : Z := round_to 5 (fdiv_pos (fsum l) (len l)).
Definition fixed_means (records : list PosRecord) : option (Z * Z * Z) :=
  match List.filter (fun r => q r =? 1) records with
  | [] => None
  | fixed => Some (mean_of (map sdn fixed), mean_of (map sde fixed), mean_of (map sdu fixed))
  end.
Definition gaps_over (limit : Z) (records : list PosRecord) : list (Datetime * Datetime * Z) :=
  omap (fun p : PosRecord * PosRecord =>
    let dt := seconds_between (time p.1) (time p.2) in if fgt dt limit then Some (time p.1, time p.2, dt) else None) (pairwise records).

Definition summarize (records : list PosRecord) (gap_s : Z) : PpkSummary :=
  let records := sort_by time records in
  match records, list.last records with
  | r :: _, Some r' =>
      let interval := _median_step records in
      let n := len records in
      mkSummary n (seconds_between (time r) (time r')) interval (_pct (count_q 1 records) n) (_pct (count_q 2 records) n) (_pct (count_q 5 records) n)
        (fixed_means records) (gaps_over (_gap_limit interval gap_s) records) (Some (time r)) (Some (time r'))
  | _, _ => mkSummary 0 0 None 0 0 0 None [] None None
  end.

(** ** What is written *)

Definition iso_date (t : Datetime) : bytes := fmt_Y t ++ str "-" ++ fmt_m t ++ str "-" ++ fmt_d t.
Definition iso_clock (t : Datetime) : bytes :=
  fmt_digits 10 2 (hour (fields t)) ++ str ":" ++ fmt_digits 10 2 (minute (fields t)) ++ str ":" ++ fmt_digits 10 2 (second (fields t)).
Definition _gpst_label (t : Datetime) : bytes := iso_date t ++ str "T" ++ iso_clock t ++ str "." ++ fmt_digits 10 3 (micro (fields t) / 1000).

(** [csv.writer] of fields that hold no comma, quote or line end. *)
Fixpoint csv_row (fs : list bytes) : bytes := match fs with [] => [10] | [f] => f ++ [10] | f :: fs => f ++ str "," ++ csv_row fs end.

Definition TRACK_COLUMNS : list bytes :=
  [str "time_gpst"; str "lat"; str "lon"; str "height_m"; str "q"; str "quality"; str "ns"; str "sdn_m"; str "sde_m"; str "sdu_m"; str "age_s"; str "ratio"].
Definition track_row (r : PosRecord) : bytes :=
  csv_row [_gpst_label (time r); fmt_fixed 9 (lat r); fmt_fixed 9 (lon r); fmt_fixed 4 (height r); str_int (q r); quality r; str_int (ns r);
           fmt_fixed 4 (sdn r); fmt_fixed 4 (sde r); fmt_fixed 4 (sdu r); fmt_fixed 2 (age r); fmt_fixed 1 (ratio r)].
Definition track_csv (records : list PosRecord) : bytes := csv_row TRACK_COLUMNS ++ flat_map track_row records.

(** [_runs], newest run first while they are collected. *)
Definition linked (limit : Z) (a b : PosRecord) : bool := (q a =? q b) && fge limit (seconds_between (time a) (time b)).
Fixpoint runs_from (limit : Z) (run : list PosRecord) (last : PosRecord) (records : list PosRecord) : list (list PosRecord) :=
  match records with
  | [] => [run]
  | r :: records => if linked limit last r then runs_from limit (run ++ [r]) r records else run :: runs_from limit [r] r records
  end.
Definition _runs (records : list PosRecord) (gap_s : Z) : list (list PosRecord) :=
  match records with [] => [] | r :: rs => runs_from (gap_threshold records gap_s) [r] r rs end.

Inductive Feature :=
| LineString (coordinates : list (Z * Z * Z)) (q : Z) (quality : bytes) (start end_ : Datetime) (epochs : Z)
| Point (coordinates : Z * Z * Z) (time : Datetime) (q : Z) (quality : bytes) (ns sdn sde sdu : Z).

Definition coords (r : PosRecord) : Z * Z * Z := (lon r, lat r, height r).
Definition line_feature (run : list PosRecord) : option Feature :=
  match run, list.last run with
  | r :: _, Some r' =>
      let cs := map coords run in
      Some (LineString (match cs with [c] => [c; c] | _ => cs end) (q r) (quality r) (time r) (time r') (len run))
  | _, _ => None
  end.
Definition point_feature (r : PosRecord) : Feature := Point (coords r) (time r) (q r) (quality r) (ns r) (sdn r) (sde r) (sdu r).
Fixpoint every (step i : Z) (records : list PosRecord) : list PosRecord :=
  match records with [] => [] | r :: records => if i mod step =? 0 then r :: every step (i + 1) records else every step (i + 1) records end.
Definition track_geojson (records : list PosRecord) (point_every gap_s : Z) : list Feature :=
  omap line_feature (_runs records gap_s) ++ map point_feature (every (Z.max 1 point_every) 0 records).

(** ** Pairs *)

Lemma pairwise_snoc {A} (l : list A) a b : list.last l = Some a -> pairwise (l ++ [b]) = pairwise l ++ [(a, b)].
Proof.
  induction l as [|x l IH]; [done|]. destruct l as [|y l]; [intros [= ->]; done|]. intros H. unfold pairwise in *. cbn [app tail combine] in *. by rewrite IH.
Qed.

Lemma pairwise_elem {A} (l : list A) a b : (a, b) ∈ pairwise l -> a ∈ l /\ b ∈ l.
Proof.
  induction l as [|x l IH]; [intros H; inversion H|]. destruct l as [|y l]; [intros H; inversion H|].
  change (pairwise (x :: y :: l)) with ((x, y) :: pairwise (y :: l)). rewrite elem_of_cons. intros [[= -> ->]|H]; [set_solver|].
  destruct (IH H). set_solver.
Qed.

Section Keyed.
Context {A : Type} (key : A -> Z).

(** Of a sorted list, neighbours have nothing between them. *)
Lemma sorted_pair l a b : sorted_by key l -> (a, b) ∈ pairwise l -> key a <= key b /\ forall x, x ∈ l -> key x <= key a \/ key b <= key x.
Proof.
  unfold sorted_by. induction 1 as [|x l Hs IH Hx]; [intros H; inversion H|]. destruct l as [|y l]; [intros H; inversion H|].
  change (pairwise (x :: y :: l)) with ((x, y) :: pairwise (y :: l)). rewrite elem_of_cons. rewrite list.Forall_forall in Hx. intros [[= -> ->]|H].
  - split; [apply Hx; set_solver|]. intros z. rewrite elem_of_cons. intros [->|Hz]; [left; lia|]. right.
    rewrite elem_of_cons in Hz. destruct Hz as [->|Hz]; [lia|]. inversion Hs as [|? ? ? Hy]; subst. rewrite list.Forall_forall in Hy. by apply Hy.
  - destruct (IH H) as [H1 H2]. split; [done|]. intros z. rewrite elem_of_cons. intros [->|Hz]; [|by apply H2]. left. apply Hx. by apply (pairwise_elem _ a b).
Qed.

(** Two keys of a sorted list with none between them are neighbours. *)
Lemma sorted_neighbours l a b : sorted_by key l -> a ∈ l -> b ∈ l -> key a < key b -> (forall x, x ∈ l -> key x <= key a \/ key b <= key x) ->
  exists a' b', (a', b') ∈ pairwise l /\ key a' = key a /\ key b' = key b.
Proof.
  unfold sorted_by. intros Hsort. revert a. induction Hsort as [|x l Hs IH Hx]; intros a Ha Hb Hlt Hn; [inversion Ha|]. rewrite list.Forall_forall in Hx.
  apply elem_of_cons in Hb as [->|Hb]; [apply elem_of_cons in Ha as [->|Ha]; [lia|]; specialize (Hx a Ha); lia|].
  destruct l as [|y l]; [inversion Hb|]. change (pairwise (x :: y :: l)) with ((x, y) :: pairwise (y :: l)).
  assert (Hs0 : forall z, z ∈ y :: l -> key y <= key z).
  { inversion Hs as [|? ? ? Hy]; subst. rewrite list.Forall_forall in Hy. intros z. rewrite elem_of_cons. intros [->|Hz]; [lia|by apply Hy]. }
  destruct (decide (key y <= key a)) as [Hy|Hy].
  - assert (Hc : exists c, c ∈ y :: l /\ key c = key a).
    { apply elem_of_cons in Ha as [->|Ha]; [|by exists a]. exists y. split; [set_solver|]. specialize (Hx y ltac:(set_solver)). lia. }
    destruct Hc as (c & Hc & Ec). destruct (IH c Hc Hb ltac:(lia)) as (a' & b' & H & E1 & E2); [intros z Hz; rewrite Ec; apply Hn; set_solver|].
    exists a', b'. rewrite elem_of_cons. split; [by right|]. split; [lia|done].
  - apply elem_of_cons in Ha as [->|Ha]; [|specialize (Hs0 a Ha); lia]. exists x, y. split; [set_solver|]. split; [done|].
    specialize (Hs0 b Hb). destruct (Hn y ltac:(set_solver)); lia.
Qed.

(** With distinct keys the sorted list does not depend on the order. *)
Lemma sort_by_unique l l' : l ≡ₚ l' -> NoDup (map key l) -> sort_by key l = sort_by key l'.
Proof.
  intros Hp Hd. apply (StronglySorted_unique_strong (fun x y => key x <= key y)); [|apply sort_by_sorted..|by rewrite !sort_by_perm].
  intros x y. rewrite !sort_by_perm, <- Hp. intros Hx Hy H1 H2. assert (E : key x = key y) by lia. clear -Hd Hx Hy E.
  induction l as [|z l IH]; [inversion Hx|]. cbn [map] in Hd. apply list.NoDup_cons in Hd as [Hz Hd].
  assert (Hin : forall w, w ∈ l -> key w ∈ map key l) by (intros w Hw; apply list_elem_of_In, in_map, list_elem_of_In; done).
  apply elem_of_cons in Hx as [->|Hx], Hy as [->|Hy]; [done|..|by apply IH].
  - destruct Hz. rewrite E. by apply Hin.
  - destruct Hz. rewrite <- E. by apply Hin.
Qed.
End Keyed.

(** ** Runs *)

Section Runs.
Context (limit : Z).

(** Every step of a run is short and keeps the quality. *)
Definition is_run (run : list PosRecord) : Prop := run <> [] /\ Forall (fun p => linked limit p.1 p.2 = true) (pairwise run).
(** Two runs in a row could not be one. *)
Definition broken (p : list PosRecord * list PosRecord) : Prop := exists a b, list.last p.1 = Some a /\ head p.2 = Some b /\ linked limit a b = false.

Lemma runs_from_spec run last rs : is_run run -> list.last run = Some last ->
  let runs := runs_from limit run last rs in
  concat runs = run ++ rs /\ Forall is_run runs /\ Forall broken (pairwise runs) /\ exists r0 runs', runs = r0 :: runs' /\ head r0 = head run.
Proof.
  revert run last. induction rs as [|r rs IH]; intros run last Hr Hl; cbn [runs_from].
  - cbn [concat]. split; [done|]. split; [by constructor|]. split; [constructor|]. by eexists _, _.
  - destruct (linked limit last r) eqn:E.
    + destruct (IH (run ++ [r]) r) as (H1 & H2 & H3 & r0 & runs' & E0 & H0); [|by rewrite last_snoc|].
      { split; [by destruct run|]. rewrite (pairwise_snoc run last r Hl). apply Forall_app_2; [by destruct Hr|by constructor]. }
      split; [by rewrite H1, <- app_assoc|]. split; [done|]. split; [done|]. exists r0, runs'. split; [done|]. rewrite H0. destruct Hr as [Hr _]. by destruct run.
    + destruct (IH [r] r) as (H1 & H2 & H3 & r0 & runs' & E0 & H0); [split; [done|constructor]|done|].
      cbn [concat]. rewrite H1. split; [done|]. split; [by constructor|]. split; [|by eexists _, _].
      rewrite E0 in *. change (pairwise (run :: r0 :: runs')) with ((run, r0) :: pairwise (r0 :: runs')). constructor; [|done]. by exists last, r.
Qed.
End Runs.

(** The lines that are drawn of a track are its maximal stretches: put together they are
    the track, within one every step keeps the quality and is no longer than the limit of an outage,
    and no two in a row could be joined. *)
Theorem track_runs records gap_s :
  let limit := gap_threshold records gap_s in
  concat (_runs records gap_s) = records /\ Forall (is_run limit) (_runs records gap_s) /\ Forall (broken limit) (pairwise (_runs records gap_s)).
Proof.
  intros limit. unfold _runs. destruct records as [|r rs]; [by repeat constructor|].
  destruct (runs_from_spec limit [r] r rs) as (H1 & H2 & H3 & _); [by repeat constructor|done|]. done.
Qed.

(** ** The summary *)

Lemma gaps_over_elem limit rs a b dt : (a, b, dt) ∈ gaps_over limit rs <->
  exists r r', (r, r') ∈ pairwise rs /\ a = time r /\ b = time r' /\ dt = seconds_between a b /\ fgt dt limit = true.
Proof.
  unfold gaps_over. rewrite list_elem_of_omap. split.
  - intros ((r & r') & Hp & H). cbn [fst snd] in H. destruct (fgt _ _) eqn:E; [|done]. injection H as <- <- <-. by exists r, r'.
  - intros (r & r' & Hp & -> & -> & -> & H). exists (r, r'). split; [done|]. cbn [fst snd]. by rewrite H.
Qed.

(** The summary of a track does not depend on the order of its epochs (when no two share
    a time), it counts them all, its span holds every one and is reached at both ends, and its gaps are
    exactly the stretches between two epochs, with none inside, that last longer than the limit. *)
Theorem track_summary records gap_s : records <> [] ->
  let s := summarize records gap_s in
  let limit := _gap_limit (interval_s s) gap_s in
  epochs s = len records
  /\ (exists r r', r ∈ records /\ r' ∈ records /\ first_time s = Some (time r) /\ last_time s = Some (time r') /\ duration_s s = seconds_between (time r) (time r')
      /\ forall x, x ∈ records -> time r <= time x <= time r')
  /\ (forall a b dt, a < b -> (a, b, dt) ∈ gaps s <->
        (exists r r', r ∈ records /\ r' ∈ records /\ a = time r /\ b = time r') /\ (forall x, x ∈ records -> time x <= a \/ b <= time x)
        /\ dt = seconds_between a b /\ fgt dt limit = true)
  /\ (forall records', records ≡ₚ records' -> NoDup (map time records) -> summarize records' gap_s = s).
Proof.
  intros Hne s limit.
  assert (Hu : forall records', records ≡ₚ records' -> NoDup (map time records) -> summarize records' gap_s = s).
  { intros records' Hp Hd. unfold s, summarize. by rewrite (sort_by_unique time records records'). }
  pose proof (sort_by_perm time records) as Hp. pose proof (sort_by_sorted time records) as Hs. unfold limit, s, summarize in *. clear limit s.
  set (l := sort_by time records) in *. clearbody l. destruct l as [|r0 l]; [by apply Permutation_nil_l in Hp|].
  destruct (list.last (r0 :: l)) as [r1|] eqn:El; [|by apply list.last_None in El]. cbn [epochs first_time last_time duration_s gaps interval_s].
  split; [by rewrite Hp|]. split; [|split; [|done]].
  - exists r0, r1. assert (H1 : r1 ∈ r0 :: l) by (by apply last_Some_elem_of). split; [rewrite <- Hp; set_solver|]. split; [by rewrite <- Hp|]. do 3 (split; [done|]).
    intros x. rewrite <- Hp. intros Hx. split.
    + inversion Hs as [|? ? ? Hh]; subst. rewrite list.Forall_forall in Hh. apply elem_of_cons in Hx as [->|Hx]; [lia|by apply Hh].
    + apply last_Some in El as [l' El]. rewrite El in Hs, Hx. unfold sorted_by in Hs. apply StronglySorted_app in Hs as (Hs & _ & _).
      rewrite elem_of_app, list_elem_of_singleton in Hx. destruct Hx as [Hx| ->]; [|lia]. apply Hs; [done|set_solver].
  - intros a b dt Hab. rewrite gaps_over_elem. split.
    + intros (r & r' & Hr & -> & -> & Hdt). destruct (sorted_pair time _ _ _ Hs Hr) as [_ Hn]. destruct (pairwise_elem _ _ _ Hr) as [Ha Hb].
      split; [exists r, r'; by rewrite <- !Hp|]. split; [|done]. intros x. rewrite <- Hp. apply Hn.
    + intros ((r & r' & Hr & Hr' & -> & ->) & Hn & Hdt). rewrite <- Hp in Hr, Hr'.
      destruct (sorted_neighbours time _ r r' Hs Hr Hr' Hab) as (a' & b' & Hpair & E1 & E2); [intros x Hx; apply Hn; by rewrite <- Hp|].
      exists a', b'. by rewrite E1, E2.
Qed.

(** ** Times of a solution *)

(** [2026/09/18] and [20:23:27.998]. *)
Definition date_text (y mo d : Z) : bytes := fixed_digits 10 4 y ++ 47 :: fixed_digits 10 2 mo ++ 47 :: fixed_digits 10 2 d.
Definition clock_text (h mi s ms : Z) : bytes := fixed_digits 10 2 h ++ 58 :: fixed_digits 10 2 mi ++ 58 :: fixed_digits 10 2 s ++ 46 :: fixed_digits 10 3 ms.

Lemma fixed_all k v : forallb ascii_digit (fixed_digits 10 k v) = true.
Proof.
  apply forallb_forall. intros x Hx. assert (H : Forall (fun c => 48 <= c <= 57) (fixed_digits 10 k v)) by (apply fixed_digits_chars; [by left|apply digit_solid]).
  rewrite List.Forall_forall in H. specialize (H x Hx). cbv beta in H. unfold ascii_digit. rewrite andb_true_iff, !Z.leb_le. lia.
Qed.

Lemma fixed_no c k v : ~ 48 <= c <= 57 -> Forall (fun x => x <> c) (fixed_digits 10 k v).
Proof. intros Hc. apply fixed_digits_chars; [by left|]. intros x Hx. pose proof (digit_solid x Hx). lia. Qed.

Lemma two_digits_fixed lo hi v : lo <= v <= hi -> 0 <= v < 100 -> two_digits lo hi (fixed_digits 10 2 v) = Some v.
Proof.
  intros H Hv. unfold two_digits. rewrite bool_decide_eq_false_2 by (intros E; apply (f_equal length) in E; by rewrite length_fixed_digits in E).
  rewrite length_fixed_digits, fixed_all, dec_value_fixed by done. unfold in_range. by rewrite !(proj2 (Z.leb_le _ _)) by lia.
Qed.

(** A time with milliseconds is read as it is written. *)
Lemma pos_time_read y mo d h mi s ms t : make_datetime y mo d h mi s = Some t -> 0 <= ms < 1000 ->
  _parse_time (date_text y mo d) (clock_text h mi s ms) = Some (t + ms * 1000).
Proof.
  intros Ht Hms. pose proof Ht as H. unfold make_datetime in H. destruct (_ && _) eqn:E in H; [|done]. clear H. zbool.
  assert (d <= 31) by (unfold days_in_month in *; repeat case_match; lia).
  unfold _parse_time, date_text, clock_text.
  repeat (rewrite cut_app by (apply fixed_no; lia); cbn [mbind option_bind]).
  assert (Ey : year_digits (fixed_digits 10 4 y) = Some y).
  { unfold year_digits. rewrite length_fixed_digits, fixed_all, dec_value_fixed by (change (10 ^ Z.of_nat 4) with 10000; lia). done. }
  assert (Eu : micro_digits (fixed_digits 10 3 ms) = Some (ms * 1000)).
  { unfold micro_digits. rewrite bool_decide_eq_false_2 by (intros E'; apply (f_equal length) in E'; by rewrite length_fixed_digits in E').
    rewrite length_fixed_digits, fixed_all. cbn [negb andb Nat.leb]. rewrite dec_value_app, dec_value_fixed by (change (10 ^ Z.of_nat 3) with 1000; lia).
    change (10 ^ len (repeat 48 (6 - 3))) with 1000. change (dec_value (repeat 48 (6 - 3))) with 0. f_equal. lia. }
  rewrite Ey, Eu. cbn [mbind option_bind]. rewrite !two_digits_fixed by lia. cbn [mbind option_bind]. unfold datetime. by rewrite Ht.
Qed.

(** ** Examples *)

Definition demo_lines : list bytes :=
  [str "% program   : RTKLIB"; str "2026/09/18 20:23:29.000   23.810000001   90.410000001    12.3456   2  14   0.0100   0.0100   0.0200   0.0000   0.0000   0.0000   0.00    1.2";
   str "2026/09/18 20:23:27.000   23.810000000   90.410000000    12.3000   1  14   0.0100   0.0100   0.0200   0.0000   0.0000   0.0000   0.00   99.9"; [];
   str "2026/09/18 20:23:34.500   23.810000002   90.410000002    12.3999   1  14   0.0100   0.0100   0.0200   0.0000   0.0000   0.0000   0.00   99.9"].
Definition demo_track : list PosRecord := Eval vm_compute in default [] (parse_pos demo_lines).
Definition TWO : Z := Eval vm_compute in of_int 2.

Lemma demo_track_read : parse_pos demo_lines = Some demo_track /\ map time demo_track = [1789763009000000; 1789763007000000; 1789763014500000].
Proof. vm_compute. done. Qed.

(** A gap of 5.5 s: more than one and a half of the steps, whose median is the longer of the two. *)
Lemma demo_gaps : gaps (summarize demo_track TWO) = [] /\ interval_s (summarize demo_track TWO) = Some (of_decimal false 55 (- 1)).
Proof. vm_compute. done. Qed.

Lemma track_summary_witness :
  demo_track <> [] /\ epochs (summarize demo_track TWO) = 3 /\ summarize (rev demo_track) TWO = summarize demo_track TWO.
Proof.
  split; [done|]. destruct (track_summary demo_track TWO) as (H1 & _ & _ & H2); [done|]. split; [exact H1|].
  apply H2; [apply Permutation_rev|]. apply (bool_decide_unpack _). vm_compute. done.
Defined.

(** A quality that is not a number raises, although malformed lines are to be skipped. *)
Lemma nan_quality :
  line_record (str "2026/09/18 20:23:29.000 23.8 90.4 12.3 nan 14 0.01 0.01 0.02 0 0 0 0 1.2") = Raises
  /\ line_record (str "2026/09/18 20:23:29.000 23.8 90.4 12.3 one 14 0.01 0.01 0.02 0 0 0 0 1.2") = Nothing.
Proof. vm_compute. done. Qed.
