(* ===== verification/PpkEvents.v ===== *)
(** * Camera events ([ppk/events.py])

    Time marks out of raw logs, their times on the GPS scale, and their places on a track by
    interpolation between neighbouring epochs. The names of messages and the parser of TIM-TM2 are
    parameters; the number of unparseable frames and the other warnings are left out, as is the
    GeoJSON form. *)

From Stdlib Require Import String.
From stdpp Require Import sets list sorting.
From S2P Require Import Prelude.
From S2P Require Import PyBytes.
From S2P Require Import PyFloat.
From S2P Require Import PyRound.
From S2P Require Import PyCodecs.
From S2P Require Import Calendar.
From S2P Require Import Checksums.
From S2P Require Import Framing.
From S2P Require Import Frames.
From S2P Require Import Replay.
From S2P Require Import Nmea.
From S2P Require Import RinexHeader.
From S2P Require Import PpkTrack.

#[local] Open Scope string_scope.
#[local] Open Scope list_scope.
#[local] Open Scope Z_scope.

Definition GPS_EPOCH : Datetime := Eval vm_compute in days_from_civil 1980 1 6 * DAY.
Definition WEEK_S : Z := 604800.
Definition GPS_UTC_LEAP_S : Z := 18.
Definition TIME_BASE_RECEIVER : Z := 0.
Definition TIME_BASE_UTC : Z := 2.
Definition COUNT_MODULO : Z := 2 ^ 16.
Definition _READ_CHUNK : nat := Z.to_nat 262144.
Definition FRAMER_BUFFER : Z := 1048576.

(** What a parsed TIM-TM2 holds. *)
Record TimTm2 := mkTm2 { newRisingEdge : bool; time_valid : bool; count : Z; wnR : Z; towMsR : Z; towSubMsR : Z; timeBase : Z; accEst : Z }.
Record RawTimeMark := mkMark { mk_count : Z; week : Z; tow_s : Z; acc_est_ns : Z }.
Record EventFix := mkFix {
  n : Z; ev_count : Z; ev_week : Z; ev_tow : Z; ev_time : Datetime; position : option (Z * Z * Z); ev_q : option Z; sigmas : option (Z * Z * Z);
  gap_s : option Z; status : bytes
}.

(** [GPS_EPOCH + timedelta(weeks=week, seconds=tow_s)], for seconds that are not negative. *)
Definition gpst_datetime (week tow_s : Z) : Datetime :=
  let whole := default 0 (truncated tow_s) in
  GPS_EPOCH + week * (WEEK_S * US) + whole * US + rounded (fmul (fsub tow_s (of_int whole)) MILLION).

(** ** Marks *)

Definition Key : Type := Z * Z * Z * Z.
Definition key_of (m : TimTm2) : Key := (count m, wnR m, towMsR m, towSubMsR m).
(** [int / 1000 + int / 1e9]. *)
Definition raw_tow (m : TimTm2) : Z := fadd (fdiv_int (towMsR m) 1000) (fdiv_int (towSubMsR m) 1000000000).
Definition mark_of (m : TimTm2) : RawTimeMark :=
  let tow := raw_tow m in
  if timeBase m =? TIME_BASE_UTC then
    let tow := fadd tow (of_int GPS_UTC_LEAP_S) in
    if fge tow (of_int WEEK_S) then mkMark (count m) (wnR m + 1) (fsub tow (of_int WEEK_S)) (accEst m) else mkMark (count m) (wnR m) tow (accEst m)
  else mkMark (count m) (wnR m) tow (accEst m).
(** Sorting by week and time of week: floats that are not negative have the order of their patterns. *)
Definition mark_key (mk : RawTimeMark) : Z := week mk * 2 ^ 64 + tow_s mk.

Section Extraction.
Context (identity : bytes -> bytes) (parse : bytes -> option TimTm2).

(** The edge a frame reports. *)
Definition edge_of (f : Frame) : option TimTm2 :=
  if negb (bool_decide (proto f = UBX)) || negb (bool_decide (identity (raw f) = str "TIM-TM2")) then None
  else m ← parse (raw f); if newRisingEdge m && time_valid m then Some m else None.

(** One frame of the loop: the marks by their keys, in the order they came, and those on the receiver's own time. *)
Definition mark_frame (acc : list (Key * RawTimeMark) * Z) (f : Frame) : list (Key * RawTimeMark) * Z :=
  let '(marks, receiver_base) := acc in
  match edge_of f with
  | None => acc
  | Some m =>
      if bool_decide (key_of m ∈ map fst marks) then acc
      else (marks ++ [(key_of m, mark_of m)], if timeBase m =? TIME_BASE_RECEIVER then receiver_base + 1 else receiver_base)
  end.

(** [while chunk := fh.read(_READ_CHUNK)]. *)
Fixpoint chunks_of (fuel : nat) (content : bytes) : list bytes :=
  match fuel, content with
  | S fuel, _ :: _ => take _READ_CHUNK content :: chunks_of fuel (drop _READ_CHUNK content)
  | _, _ => []
  end.
Definition Extraction : Type := Framer * (list (Key * RawTimeMark) * Z).
Definition read_chunk (s : Extraction) (chunk : bytes) : Extraction :=
  let '(framer, acc) := s in let '(framer, frames) := framer_feed chunk framer in (framer, foldl mark_frame acc frames).
Definition read_log (s : Extraction) (content : bytes) : Extraction := foldl read_chunk s (chunks_of (length content) content).
Definition extract_time_marks (logs : list bytes) : list RawTimeMark :=
  sort_by mark_key (map snd (foldl read_log (new_framer FRAMER_BUFFER, ([], 0)) logs).2.1).
End Extraction.

Definition missed_pulses (marks : list RawTimeMark) : Z :=
  foldr Z.add 0 (map (fun p : RawTimeMark * RawTimeMark => Z.max 0 ((mk_count p.2 - mk_count p.1) mod COUNT_MODULO - 1)) (pairwise marks)).

(** ** Interpolation *)

Definition F180 : Z := Eval vm_compute in of_int 180.
Definition F360 : Z := Eval vm_compute in of_int 360.
Definition _lerp (a b f : Z) : Z := fadd a (fmul (fsub b a) f).
Definition _lerp_lon (a b f : Z) : Z :=
  let b := if fgt (fsub b a) F180 then fsub b F360 else if fgt (fsub a b) F180 then fadd b F360 else b in
  let lon := _lerp a b f in
  if fgt lon F180 then fsub lon F360 else if fgt (fneg F180) lon then fadd lon F360 else lon.

(** [bisect.bisect_left]. *)
Fixpoint bisect_from (fuel : nat) (times : list Datetime) (t : Datetime) (lo hi : nat) : nat :=
  match fuel with
  | O => lo
  | S fuel =>
      if (lo <? hi)%nat then
        let mid := ((lo + hi) / 2)%nat in
        if nth mid times 0 <? t then bisect_from fuel times t (S mid) hi else bisect_from fuel times t lo mid
      else lo
  end.
Definition bisect_left (times : list Datetime) (t : Datetime) : nat := bisect_from (S (length times)) times t 0 (length times).

Definition F0 : Z := 0.
Definition place (recs : list PosRecord) (max_gap_s : Z) (i : Z) (mk : RawTimeMark) : EventFix :=
  let t := gpst_datetime (week mk) (tow_s mk) in
  let fix_ := mkFix i (mk_count mk) (week mk) (tow_s mk) t in
  let idx := bisect_left (map time recs) t in
  match recs !! idx, (if (idx =? 0)%nat then None else recs !! Nat.pred idx) with
  | Some r, before =>
      if time r =? t then fix_ (Some (lat r, lon r, height r)) (Some (q r)) (Some (sdn r, sde r, sdu r)) (Some F0) (str "ok")
      else
        match before with
        | None => fix_ None None None None (str "no_neighbours")
        | Some a =>
            let gap := seconds_between (time a) (time r) in
            if fgt gap max_gap_s then fix_ None None None (Some gap) (str "gap_too_large")
            else
              let f := fdiv (seconds_between (time a) t) gap in
              fix_ (Some (_lerp (lat a) (lat r) f, _lerp_lon (lon a) (lon r) f, _lerp (height a) (height r) f)) (Some (Z.max (q a) (q r)))
                (Some (fmax (sdn a) (sdn r), fmax (sde a) (sde r), fmax (sdu a) (sdu r))) (Some gap) (str "ok")
        end
  | None, _ => fix_ None None None None (str "no_neighbours")
  end.
Fixpoint place_all (recs : list PosRecord) (max_gap_s i : Z) (marks : list RawTimeMark) : list EventFix :=
  match marks with [] => [] | mk :: marks => place recs max_gap_s i mk :: place_all recs max_gap_s (i + 1) marks end.
Definition interpolate_events (marks : list RawTimeMark) (records : list PosRecord) (max_gap_s : Z) : list EventFix :=
  place_all (sort_by time records) max_gap_s 1 marks.

(** ** The table *)

(** [isoformat(timespec="microseconds")]. *)
Definition gpst_label (t : Datetime) : bytes := iso_date t ++ str "T" ++ iso_clock t ++ str "." ++ fmt_digits 10 6 (micro (fields t)).
Definition utc_label (t : Datetime) : bytes := gpst_label (t - GPS_UTC_LEAP_S * US) ++ str "+00:00".
Definition _fmt (dp : nat) (value : option Z) : bytes := match value with None => [] | Some v => fmt_fixed dp v end.
Definition CSV_COLUMNS : list bytes :=
  [str "n"; str "count"; str "gps_week"; str "gps_tow_s"; str "time_gpst"; str "lat"; str "lon"; str "height_m"; str "q"; str "sdn_m"; str "sde_m";
   str "sdu_m"; str "interp_gap_s"; str "status"; str "time_utc"].
Definition event_row (e : EventFix) : bytes :=
  csv_row [str_int (n e); str_int (ev_count e); str_int (ev_week e); fmt_fixed 6 (ev_tow e); gpst_label (ev_time e);
           _fmt 9 ((fun p => p.1.1) <$> position e); _fmt 9 ((fun p => p.1.2) <$> position e); _fmt 4 (snd <$> position e);
           (match ev_q e with None => [] | Some q => str_int q end);
           _fmt 4 ((fun p => p.1.1) <$> sigmas e); _fmt 4 ((fun p => p.1.2) <$> sigmas e); _fmt 4 (snd <$> sigmas e);
           _fmt 3 (gap_s e); status e; utc_label (ev_time e)].
Definition events_csv (events : list EventFix) : bytes := csv_row CSV_COLUMNS ++ flat_map event_row events.

(** ** Bisection *)

Lemma sorted_nth (l : list Datetime) i j : StronglySorted Z.le l -> (i <= j < length l)%nat -> nth i l 0 <= nth j l 0.
Proof.
  intros H. revert i j. induction H as [|x l Hs IH Hx]; intros i j Hij; [simpl in Hij; lia|]. rewrite List.Forall_forall in Hx.
  destruct i as [|i], j as [|j]; cbn [nth]; simpl in Hij; [lia| |lia|apply IH; lia]. apply Hx, nth_In. lia.
Qed.

Lemma bisect_from_spec times t : StronglySorted Z.le times -> forall fuel lo hi, (hi - lo < fuel)%nat -> (lo <= hi <= length times)%nat ->
  (forall j, (j < lo)%nat -> nth j times 0 < t) -> (forall j, (hi <= j < length times)%nat -> t <= nth j times 0) ->
  let i := bisect_from fuel times t lo hi in
  (i <= length times)%nat /\ (forall j, (j < i)%nat -> nth j times 0 < t) /\ (forall j, (i <= j < length times)%nat -> t <= nth j times 0).
Proof.
  intros Hs fuel. induction fuel as [|fuel IH]; intros lo hi Hf Hb Hlo Hhi; [lia|]. cbn [bisect_from].
  destruct (Nat.ltb_spec lo hi) as [Hlt|Hge]; [|split; [lia|]; split; [done|]; intros j Hj; apply Hhi; lia].
  assert (Hmid : (lo <= (lo + hi) / 2 < hi)%nat) by (split; [apply Nat.div_le_lower_bound; lia|apply Nat.Div0.div_lt_upper_bound; lia]).
  set (mid := ((lo + hi) / 2)%nat) in *. clearbody mid. destruct (Z.ltb_spec (nth mid times 0) t) as [H|H]; apply IH; try lia; try done.
  - intros j Hj. pose proof (sorted_nth times j mid Hs ltac:(lia)). lia.
  - intros j Hj. pose proof (sorted_nth times mid j Hs ltac:(lia)). lia.
Qed.

(** ** Placing *)

Lemma sorted_times (l : list PosRecord) : sorted_by time l -> StronglySorted Z.le (map time l).
Proof.
  unfold sorted_by. induction 1 as [|x l Hs IH Hx]; cbn [map]; [constructor|]. constructor; [done|].
  apply List.Forall_map. exact Hx.
Qed.

(** What the event of a mark is, of the track as a set: the epoch of its time, the two epochs around it
    with none between, or nothing. *)
Inductive placed (records : list PosRecord) (max_gap_s i : Z) (mk : RawTimeMark) (t : Datetime) : EventFix -> Prop :=
| on_epoch r : r ∈ records -> time r = t ->
    placed records max_gap_s i mk t (mkFix i (mk_count mk) (week mk) (tow_s mk) t (Some (lat r, lon r, height r)) (Some (q r)) (Some (sdn r, sde r, sdu r)) (Some F0) (str "ok"))
| outside : (forall r, r ∈ records -> t < time r) \/ (forall r, r ∈ records -> time r < t) ->
    placed records max_gap_s i mk t (mkFix i (mk_count mk) (week mk) (tow_s mk) t None None None None (str "no_neighbours"))
| in_gap a b gap : a ∈ records -> b ∈ records -> time a < t < time b -> (forall x, x ∈ records -> time x <= time a \/ time b <= time x) ->
    gap = seconds_between (time a) (time b) -> fgt gap max_gap_s = true ->
    placed records max_gap_s i mk t (mkFix i (mk_count mk) (week mk) (tow_s mk) t None None None (Some gap) (str "gap_too_large"))
| between a b gap f : a ∈ records -> b ∈ records -> time a < t < time b -> (forall x, x ∈ records -> time x <= time a \/ time b <= time x) ->
    gap = seconds_between (time a) (time b) -> fgt gap max_gap_s = false -> f = fdiv (seconds_between (time a) t) gap ->
    placed records max_gap_s i mk t (mkFix i (mk_count mk) (week mk) (tow_s mk) t
      (Some (_lerp (lat a) (lat b) f, _lerp_lon (lon a) (lon b) f, _lerp (height a) (height b) f)) (Some (Z.max (q a) (q b)))
      (Some (fmax (sdn a) (sdn b), fmax (sde a) (sde b), fmax (sdu a) (sdu b))) (Some gap) (str "ok")).

Lemma place_placed recs records max_gap_s i mk : sorted_by time recs -> recs ≡ₚ records ->
  placed records max_gap_s i mk (gpst_datetime (week mk) (tow_s mk)) (place recs max_gap_s i mk).
Proof.
  intros Hs Hp. unfold place. set (t := gpst_datetime _ _). clearbody t.
  destruct (bisect_from_spec (map time recs) t (sorted_times recs Hs) (S (length (map time recs))) 0 (length (map time recs))) as (Hi & Hlo & Hhi); [lia|lia|lia|lia|].
  fold (bisect_left (map time recs) t) in *. set (idx := bisect_left (map time recs) t) in *. clearbody idx. rewrite length_map in *.
  assert (Hn : forall j r, recs !! j = Some r -> nth j (map time recs) 0 = time r).
  { intros j r Hj. apply nth_lookup_Some. rewrite list_lookup_fmap. by rewrite Hj. }
  assert (Hin : forall r, r ∈ records -> exists j, recs !! j = Some r /\ (j < length recs)%nat).
  { intros r Hr. rewrite <- Hp in Hr. apply list_elem_of_lookup in Hr as [j Hj]. exists j. split; [done|]. by eapply lookup_lt_Some. }
  assert (Hmem : forall j r, recs !! j = Some r -> r ∈ records) by (intros j r Hj; rewrite <- Hp; by eapply list_elem_of_lookup_2).
  destruct (recs !! idx) as [b|] eqn:Eb.
  - destruct (Z.eqb_spec (time b) t) as [Et|Et]; [eapply on_epoch; eauto|].
    pose proof (lookup_lt_Some _ _ _ Eb) as Hlt. assert (Htb : t < time b) by (rewrite <- (Hn _ _ Eb) in *; specialize (Hhi idx ltac:(lia)); lia).
    assert (Hafter : forall j r, recs !! j = Some r -> (idx <= j)%nat -> time b <= time r).
    { intros j r Hj Hij. rewrite <- (Hn _ _ Hj), <- (Hn _ _ Eb). apply sorted_nth; [by apply sorted_times|]. rewrite length_map. apply lookup_lt_Some in Hj. lia. }
    destruct (Nat.eqb_spec idx 0) as [E0|E0].
    + apply outside. left. intros r Hr. destruct (Hin r Hr) as (j & Hj & _). specialize (Hafter j r Hj ltac:(lia)). lia.
    + destruct (recs !! Nat.pred idx) as [a|] eqn:Ea; [|apply lookup_ge_None in Ea; lia].
      assert (Hta : time a < t) by (rewrite <- (Hn _ _ Ea); apply Hlo; lia).
      assert (Hbetween : forall x, x ∈ records -> time x <= time a \/ time b <= time x).
      { intros x Hx. destruct (Hin x Hx) as (j & Hj & _). destruct (decide (idx <= j)%nat) as [Hij|Hij]; [right; by eapply Hafter|left].
        rewrite <- (Hn _ _ Hj), <- (Hn _ _ Ea). apply sorted_nth; [by apply sorted_times|]. rewrite length_map. lia. }
      pose proof (Hmem _ _ Ea). pose proof (Hmem _ _ Eb). by destruct (fgt _ _) eqn:Eg; [apply (in_gap _ _ _ _ _ a b)|apply (between _ _ _ _ _ a b)].
  - apply lookup_ge_None in Eb. apply outside. right. intros r Hr. destruct (Hin r Hr) as (j & Hj & Hlt). rewrite <- (Hn _ _ Hj). apply Hlo. lia.
Qed.

(** C38.  Every mark gets its event, numbered in the order of the marks, whatever the order of
    the epochs: on an epoch of its very time it is that epoch; between two epochs, with none inside, it
    is interpolated when they are close enough, with the worse quality and the worse sigmas of the two,
    and only has the gap when they are not; before or after the whole track it has no neighbours. *)
Theorem events_placed marks records max_gap_s k mk : marks !! k = Some mk ->
  length (interpolate_events marks records max_gap_s) = length marks
  /\ exists e, interpolate_events marks records max_gap_s !! k = Some e
      /\ placed records max_gap_s (Z.of_nat k + 1) mk (gpst_datetime (week mk) (tow_s mk)) e.
Proof.
  intros Hk. unfold interpolate_events. set (recs := sort_by time records).
  assert (Hl : forall i ms, length (place_all recs max_gap_s i ms) = length ms) by (intros i ms; revert i; induction ms as [|m ms IH]; intros i; [done|]; cbn [place_all length]; by rewrite IH).
  split; [apply Hl|]. clear Hl. replace (Z.of_nat k + 1) with (1 + Z.of_nat k) by lia. revert k Hk. generalize 1.
  induction marks as [|m marks IH]; intros i k Hk; [done|]. cbn [place_all]. destruct k as [|k].
  - injection Hk as ->. exists (place recs max_gap_s i mk). rewrite Z.add_0_r. split; [done|]. apply place_placed; [apply sort_by_sorted|apply sort_by_perm].
  - destruct (IH (i + 1) k Hk) as (e & He & H). exists e. split; [exact He|]. by replace (i + Z.of_nat (S k)) with (i + 1 + Z.of_nat k) by lia.
Qed.

(** ** Extraction *)

Section Extracted.
Context (identity : bytes -> bytes) (parse : bytes -> option TimTm2).

(** The first edge of each key. *)
Fixpoint first_edges (seen : list Key) (ms : list TimTm2) : list TimTm2 :=
  match ms with
  | [] => []
  | m :: ms => if bool_decide (key_of m ∈ seen) then first_edges seen ms else m :: first_edges (seen ++ [key_of m]) ms
  end.
Definition edges (fs : list Frame) : list TimTm2 := omap (edge_of identity parse) fs.
Definition entry (m : TimTm2) : Key * RawTimeMark := (key_of m, mark_of m).

Lemma mark_frames fs : forall acc n, (foldl (mark_frame identity parse) (acc, n) fs).1 = acc ++ map entry (first_edges (map fst acc) (edges fs)).
Proof.
  induction fs as [|f fs IH]; intros acc n; [by rewrite app_nil_r|]. cbn [foldl edges omap list_omap]. fold (edges fs). unfold mark_frame at 2.
  destruct (edge_of identity parse f) as [m|]; [|by rewrite IH]. cbn [first_edges].
  case_bool_decide; rewrite IH; [done|]. rewrite map_app. cbn [map fst]. by rewrite <- app_assoc.
Qed.

Lemma first_edges_spec ms : forall seen, NoDup seen ->
  NoDup (seen ++ map key_of (first_edges seen ms)) /\ (forall m, m ∈ ms -> key_of m ∈ seen ++ map key_of (first_edges seen ms)) /\ first_edges seen ms `sublist_of` ms.
Proof.
  induction ms as [|m ms IH]; intros seen Hs; cbn [first_edges].
  { cbn [map]. rewrite app_nil_r. split; [done|]. split; [intros m Hm; inversion Hm|apply sublist_nil_l]. }
  case_bool_decide as Hm.
  - destruct (IH seen Hs) as (H1 & H2 & H3). split; [done|]. split; [|by constructor]. intros x. rewrite elem_of_cons. intros [->|Hx]; [set_solver|by apply H2].
  - destruct (IH (seen ++ [key_of m])) as (H1 & H2 & H3).
    { apply list.NoDup_app. split; [done|]. split; [set_solver|apply list.NoDup_singleton]. }
    cbn [map]. rewrite <- app_assoc in H1, H2. cbn [app] in H1, H2. split; [done|]. split; [|by constructor].
    intros x. rewrite elem_of_cons. intros [->|Hx]; [set_solver|by apply H2].
Qed.

Lemma chunks_small fuel content : Forall (fun c => len c <= 262144) (chunks_of fuel content).
Proof.
  revert content. induction fuel as [|fuel IH]; intros content; cbn [chunks_of]; [constructor|]. destruct content as [|b content]; [constructor|].
  constructor; [|apply IH]. rewrite length_take. unfold _READ_CHUNK. lia.
Qed.

Lemma chunk_pos : (0 < _READ_CHUNK)%nat.
Proof. unfold _READ_CHUNK. lia. Qed.
#[local] Opaque _READ_CHUNK.

Lemma log_chunks_concat fuel content : (length content <= fuel)%nat -> concat (chunks_of fuel content) = content.
Proof.
  revert content. induction fuel as [|fuel IH]; intros content Hl; [by destruct content; [|cbn [length] in Hl; lia]|]. cbn [chunks_of].
  destruct content as [|b content]; [done|]. cbn [concat]. rewrite IH; [by rewrite take_drop|].
  pose proof chunk_pos. rewrite length_drop. cbn [length] in *. lia.
Qed.

(** The chunks of a part of the logs, read in any state on the way. *)
Lemma read_chunks cs e : forall fs r st acc, Replay.clean fs -> Forall (fun c => len c <= 262144) cs -> r ++ concat cs ++ e = flat_map raw fs -> front r fs ->
  exists fs1 fs2 r' st', fs = fs1 ++ fs2 /\ foldl (read_chunk identity parse) (mkFramer r FRAMER_BUFFER st, acc) cs
      = (mkFramer r' FRAMER_BUFFER st', foldl (mark_frame identity parse) acc fs1) /\ r' ++ e = flat_map raw fs2 /\ front r' fs2.
Proof.
  induction cs as [|c cs IH]; intros fs r st acc Hc Hl E Hr; [by exists [], fs, r, st|].
  apply list.Forall_cons in Hl as [Hl Hls]. cbn [concat] in E. rewrite <- app_assoc in E.
  destruct (front_bounded r fs Hc Hr) as [Hb _].
  destruct (clean_feed fs r c (concat cs ++ e) FRAMER_BUFFER st Hc E) as (fs1 & fs2 & r' & st' & -> & Hf & E2 & Hr2 & _).
  { rewrite length_app. unfold FRAMER_BUFFER. lia. }
  apply Forall_app in Hc as [_ Hc2]. destruct (IH fs2 r' st' (foldl (mark_frame identity parse) acc fs1) Hc2 Hls E2 Hr2) as (fs3 & fs4 & r4 & st4 & -> & H4 & E4 & Hr4).
  exists (fs1 ++ fs3), fs4, r4, st4. split; [by rewrite app_assoc|]. cbn [foldl]. unfold read_chunk at 2. rewrite Hf, H4, foldl_app. done.
Qed.

Lemma read_logs logs e : forall fs r st acc, Replay.clean fs -> r ++ concat logs ++ e = flat_map raw fs -> front r fs ->
  exists fs1 fs2 r' st', fs = fs1 ++ fs2 /\ foldl (read_log identity parse) (mkFramer r FRAMER_BUFFER st, acc) logs
      = (mkFramer r' FRAMER_BUFFER st', foldl (mark_frame identity parse) acc fs1) /\ r' ++ e = flat_map raw fs2 /\ front r' fs2.
Proof.
  induction logs as [|c logs IH]; intros fs r st acc Hc E Hr; [by exists [], fs, r, st|].
  cbn [concat] in E. rewrite <- app_assoc in E.
  destruct (read_chunks (chunks_of (length c) c) (concat logs ++ e) fs r st acc Hc (chunks_small _ _)) as (fs1 & fs2 & r' & st' & -> & Hf & E2 & Hr2);
    [by rewrite log_chunks_concat|done|].
  apply Forall_app in Hc as [_ Hc2]. destruct (IH fs2 r' st' (foldl (mark_frame identity parse) acc fs1) Hc2 E2 Hr2) as (fs3 & fs4 & r4 & st4 & -> & H4 & E4 & Hr4).
  exists (fs1 ++ fs3), fs4, r4, st4. split; [by rewrite app_assoc|]. cbn [foldl]. unfold read_log at 2. rewrite Hf, H4, foldl_app. done.
Qed.

(** The marks of a session depend on its frames only, not on how the stream is cut into
    files and reads: they are the first edges of their keys (each key once, none left out), sorted by
    time. *)
Theorem marks_extracted logs fs : Replay.clean fs -> concat logs = flat_map raw fs ->
  let firsts := first_edges [] (edges fs) in
  extract_time_marks identity parse logs = sort_by mark_key (map mark_of firsts)
  /\ NoDup (map key_of firsts) /\ firsts `sublist_of` edges fs /\ (forall m, m ∈ edges fs -> key_of m ∈ map key_of firsts)
  /\ sorted_by mark_key (extract_time_marks identity parse logs).
Proof.
  intros Hc E firsts. destruct (first_edges_spec (edges fs) [] ltac:(constructor)) as (H1 & H2 & H3). cbn [app] in H1, H2.
  split; [|do 3 (split; [done|]); apply sort_by_sorted].
  destruct (read_logs logs [] fs [] (mkStats 0 0 0 0 0) ([], 0) Hc) as (fs1 & fs2 & r & st & -> & Hf & E2 & Hr); [by rewrite app_nil_r|by left|].
  assert (fs2 = []) as ->.
  { rewrite app_nil_r in E2. apply Forall_app in Hc as [_ Hc]. destruct fs2 as [|f fs2]; [done|]. exfalso. apply list.Forall_cons in Hc as [[Hv _] _].
    destruct (wire_valid_first f Hv) as [Hl _]. apply (f_equal length) in E2. cbn [flat_map] in E2. rewrite length_app in E2.
    destruct Hr as [->|(g & gs & p & [= <- <-] & Eg & Hq)]; [simpl in E2; lia|]. rewrite Eg, length_app in E2. destruct p; [done|simpl in E2; lia]. }
  unfold extract_time_marks. change (new_framer FRAMER_BUFFER) with (mkFramer [] FRAMER_BUFFER (mkStats 0 0 0 0 0)). rewrite Hf. cbn [fst snd].
  rewrite mark_frames. cbn [app map]. rewrite map_map. unfold firsts. by rewrite app_nil_r.
Qed.
End Extracted.

(** ** Times *)

(** A sum of two floats, and the difference of a larger and a smaller one: the error of one rounding. *)
Lemma sum_worth x y u s m' e' : worth x u -> f64 y = FFin s m' e' -> -1074 <= e' -> 0 <= m' -> m' * 2 ^ (e' + 1074) <= (if s then u else 2 ^ 800 * ONE) -> u <= 2 ^ 800 * ONE ->
  exists r, worth (fadd x y) r /\ 2 * 2 ^ 52 * Z.abs (r - (u + signed s m' * 2 ^ (e' + 1074))) <= Z.max (2 ^ 52) (u + signed s m' * 2 ^ (e' + 1074)).
Proof.
  intros (_ & m & e & E & He & Hm & Hu) E' He' Hm' Hw Hlt. pose proof one_pos as H1. unfold fadd. rewrite E, E'. cbn [signed andb].
  assert (Ht : -1074 <= Z.min e e' <= e /\ Z.min e e' <= e') by lia. set (t := Z.min e e') in *. clearbody t.
  set (v := m * 2 ^ (e - t) + signed s m' * 2 ^ (e' - t)).
  assert (Hv : v * 2 ^ (t + 1074) = u + signed s m' * 2 ^ (e' + 1074)).
  { rewrite Hu. unfold v. replace (e + 1074) with ((e - t) + (t + 1074)) by lia. replace (e' + 1074) with ((e' - t) + (t + 1074)) by lia.
    rewrite (Z.pow_add_r 2 (e - t)), (Z.pow_add_r 2 (e' - t)) by lia. ring. }
  assert (HT : 0 < 2 ^ (t + 1074)) by (apply Z.pow_pos_nonneg; lia). rewrite <- Hv.
  assert (Hv0 : 0 <= v * 2 ^ (t + 1074)).
  { rewrite Hv. assert (0 < 2 ^ (e' + 1074)) by (apply Z.pow_pos_nonneg; lia). assert (0 <= u) by (rewrite Hu; apply Z.mul_nonneg_nonneg; [lia|apply Z.pow_nonneg; lia]).
    destruct s; cbn [signed]; [|nia]. rewrite Z.mul_opp_l. lia. }
  destruct (decide (v = 0)) as [Hz|Hz].
  - rewrite Hz. exists 0. split; [apply worth_zero|]. rewrite Z.mul_0_l. change (Z.abs (0 - 0)) with 0. lia.
  - assert (Hpos : 0 < v) by nia. pose proof (pow2_pos (- t)) as HA.
    destruct (of_dyadic_worth v t 0) as (r & Hr & Herr & _); [done|lia|lia| |].
    { apply (Z.mul_lt_mono_pos_r ONE); [done|]. rewrite (units_ratio v t (v * 2 ^ (t + 1074))) by (done || lia).
      rewrite <- Z.mul_assoc. apply Z.mul_lt_mono_pos_l; [done|]. rewrite Hv.
      apply Z.le_lt_trans with (2 ^ 801 * ONE); [|apply Z.mul_lt_mono_pos_r; [done|]; apply Z.pow_lt_mono_r; lia].
      change (2 ^ 801) with (2 ^ 800 + 2 ^ 800). rewrite Z.mul_add_distr_r. destruct s; cbn [signed]; [|lia].
      rewrite Z.mul_opp_l. assert (0 <= m' * 2 ^ (e' + 1074)) by (apply Z.mul_nonneg_nonneg; [done|apply Z.pow_nonneg; lia]). assert (0 <= 2 ^ 800 * ONE) by lia. lia. }
    exists r. split; [done|]. rewrite Z.add_0_r in Herr. change (2 ^ 0) with 1 in Herr. rewrite !Z.mul_1_r in Herr. exact Herr.
Qed.

Lemma fadd_worth x y u w : worth x u -> worth y w -> u <= 2 ^ 800 * ONE -> w <= 2 ^ 800 * ONE ->
  exists r, worth (fadd x y) r /\ 2 * 2 ^ 52 * Z.abs (r - (u + w)) <= Z.max (2 ^ 52) (u + w).
Proof. intros Hx (_ & m & e & E & He & Hm & ->) Hu Hw. exact (sum_worth x y u false m e Hx E He (proj1 Hm) Hw Hu). Qed.

Lemma fsub_worth x y u w : worth x u -> worth y w -> w <= u -> u <= 2 ^ 800 * ONE ->
  exists r, worth (fsub x y) r /\ 2 * 2 ^ 52 * Z.abs (r - (u - w)) <= Z.max (2 ^ 52) (u - w).
Proof.
  intros Hx (Hy & m & e & E & He & Hm & ->) Hw Hu. unfold fsub, fneg. rewrite (proj2 (Z.leb_gt _ _)) by lia. apply f64_sign in E; [|done].
  destruct (sum_worth x _ u true m e Hx E He (proj1 Hm) Hw Hu) as (r & Hr & Herr). exists r. split; [done|].
  cbn [signed] in Herr. rewrite Z.mul_opp_l in Herr. exact Herr.
Qed.

Lemma fdiv_int_worth i j : 0 <= i < 2 ^ 60 -> 0 < j < 2 ^ 60 ->
  exists r, worth (fdiv_int i j) r /\ 2 * 2 ^ 52 * Z.abs (r * j - i * ONE) <= Z.max (j * 2 ^ 52) (i * ONE).
Proof.
  intros Hi Hj. unfold fdiv_int. destruct (Z.eqb_spec i 0) as [->|Hn].
  - exists 0. split; [apply worth_zero|]. change (Z.abs (0 * j - 0 * ONE)) with 0. lia.
  - rewrite (proj2 (Z.ltb_ge i 0)), Z.abs_eq by lia. destruct (round_ratio_worth i j) as (r & Hr & Herr & _); [lia|lia| |by exists r].
    apply Z.lt_le_trans with (1 * 2 ^ 900); [|apply Z.mul_le_mono_nonneg_r; lia]. apply Z.lt_trans with (2 ^ 60); [lia|]. rewrite Z.mul_1_l. apply Z.pow_lt_mono_r; lia.
Qed.

(** A time of week is off by half a microsecond at most. *)
Lemma gpst_near w x r : worth x r -> r < 2 ^ 20 * ONE ->
  1000 * Z.abs ((gpst_datetime w x - GPS_EPOCH - w * (WEEK_S * US)) * ONE - 1000000 * r) <= 501 * ONE.
Proof.
  intros Hr Hlt. pose proof one_pos as H1. pose proof one_big as HB. pose proof (worth_nonneg _ _ Hr) as Hr0.
  pose proof (Z.div_mod r ONE ltac:(lia)) as Hdm. pose proof (Z.mod_pos_bound r ONE H1) as Ha.
  assert (Hw0 : 0 <= r / ONE < 2 ^ 53) by (split; [apply Z.div_pos; lia|apply Z.div_lt_upper_bound; lia]).
  assert (Hfr : worth (fsub x (of_int (r / ONE))) (r mod ONE)).
  { pose proof (of_int_worth (r / ONE) Hw0) as [Hs1 Hs2]. unfold fsub, fneg. rewrite (proj2 (Z.leb_gt _ _)) by lia. apply fraction_worth; [done|]. by split. }
  destruct Hr as (_ & m & e & E & He & Hm & Hu).
  assert (Et : truncated x = Some (r / ONE)) by (unfold truncated; rewrite E; cbn [signed]; by rewrite (units_div m e r He Hu)).
  unfold gpst_datetime. rewrite Et. change (default 0 (Some (r / ONE))) with (r / ONE). cbv zeta. set (s := r / ONE) in *. set (a := r mod ONE) in *.
  destruct (fmul_worth _ MILLION a _ _ 33 Hfr million) as (r2 & Hr2 & Herr2); [done|done|done|lia|].
  replace (r2 * 2 ^ 33 - a * (1000000 * 2 ^ 33)) with (2 ^ 33 * (r2 - 1000000 * a)) in Herr2 by ring.
  rewrite Z.abs_mul in Herr2. change (Z.abs (2 ^ 33)) with (2 ^ 33) in Herr2.
  destruct Hr2 as (_ & m2 & e2 & E2 & He2 & Hm2 & Hu2).
  assert (Er : rounded (fmul (fsub x (of_int s)) MILLION) = rne r2 ONE).
  { unfold rounded. rewrite E2. cbn [signed]. rewrite <- (Z.mul_1_r (m2 * pow2 e2)), (units_rne m2 e2 r2 1 He2 Hu2). by rewrite Z.mul_1_r. }
  pose proof (rne_spec r2 ONE H1) as Hrne. rewrite Er. set (us := rne r2 ONE) in *. clearbody us s a. unfold US.
  replace ((GPS_EPOCH + w * (WEEK_S * 1000000) + s * 1000000 + us - GPS_EPOCH - w * (WEEK_S * 1000000)) * ONE - 1000000 * r)
    with (us * ONE - 1000000 * a) by (rewrite Hdm; ring).
  assert (H2 : 2 ^ 53 * Z.abs (r2 - 1000000 * a) <= 1000000 * ONE) by lia. lia.
Qed.

(** The raw time of week, within a fifth of a nanosecond. *)
Lemma raw_tow_near m : 0 <= towMsR m < 604800000 -> 0 <= towSubMsR m < 1000000 ->
  exists r, worth (raw_tow m) r /\ 5 * Z.abs (1000000000 * r - (towMsR m * 1000000 + towSubMsR m) * ONE) <= ONE.
Proof.
  intros Hms Hsub. pose proof one_pos as H1. pose proof one_big as HB. unfold raw_tow.
  destruct (fdiv_int_worth (towMsR m) 1000) as (ra & Ha & Hea); [lia|lia|].
  destruct (fdiv_int_worth (towSubMsR m) 1000000000) as (rb & Hb & Heb); [lia|lia|].
  assert (Hms1 : 0 <= towMsR m * ONE <= 604800000 * ONE) by (split; [apply Z.mul_nonneg_nonneg; lia|apply Z.mul_le_mono_nonneg_r; lia]).
  assert (Hsub1 : 0 <= towSubMsR m * ONE <= 1000000 * ONE) by (split; [apply Z.mul_nonneg_nonneg; lia|apply Z.mul_le_mono_nonneg_r; lia]).
  set (A := towMsR m * ONE) in *. set (B := towSubMsR m * ONE) in *. replace ((towMsR m * 1000000 + towSubMsR m) * ONE) with (1000000 * A + B) by (unfold A, B; ring).
  clearbody A B. assert (Hra : ra <= 2 ^ 20 * ONE) by lia. assert (Hrb : rb <= 2 ^ 20 * ONE) by lia.
  assert (H800 : 2 ^ 20 * ONE <= 2 ^ 800 * ONE) by (apply Z.mul_le_mono_nonneg_r; [lia|apply Z.pow_le_mono_r; lia]).
  destruct (fadd_worth _ _ ra rb Ha Hb) as (r & Hr & Her); [lia|lia|].
  exists r. split; [done|]. pose proof (worth_nonneg _ _ Ha). pose proof (worth_nonneg _ _ Hb).
  assert (2 ^ 53 * Z.abs (r - (ra + rb)) <= 700000 * ONE) by lia.
  assert (2 ^ 53 * Z.abs (ra * 1000 - A) <= 604800000 * ONE) by lia.
  assert (2 ^ 53 * Z.abs (rb * 1000000000 - B) <= 1000000 * ONE) by lia. lia.
Qed.

Lemma week_worth : worth (of_int WEEK_S) (604800 * ONE).
Proof. apply of_int_worth. done. Qed.

(** C39.  The time of a mark is the time its message reports, with the leap seconds added to
    one on the UTC time base, carried into the next week when they reach it: exact to half a
    microsecond (and a nanosecond), through the doubles of seconds; and its time of week is less than
    a week. *)
Theorem mark_time_exact m : 0 <= towMsR m < 604800000 -> 0 <= towSubMsR m < 1000000 ->
  let mk := mark_of m in
  let nanoseconds := wnR m * (604800 * 1000000000) + towMsR m * 1000000 + towSubMsR m + (if timeBase m =? TIME_BASE_UTC then 18 * 1000000000 else 0) in
  Z.abs (1000 * (gpst_datetime (week mk) (tow_s mk) - GPS_EPOCH) - nanoseconds) <= 501 /\ fge (tow_s mk) (of_int WEEK_S) = false.
Proof.
  intros Hms Hsub mk ns. pose proof one_pos as H1. pose proof one_big as HB.
  destruct (raw_tow_near m Hms Hsub) as (r & Hr & Her). set (N := towMsR m * 1000000 + towSubMsR m) in *.
  assert (HN : 0 <= N < 604800000 * 1000000) by (unfold N; lia).
  assert (HN1 : 0 <= N * ONE <= (604800000 * 1000000 - 1) * ONE) by (split; [apply Z.mul_nonneg_nonneg; lia|apply Z.mul_le_mono_nonneg_r; lia]).
  enough (H : exists r', worth (tow_s mk) r' /\ r' < 604800 * ONE /\
     2 * Z.abs (1000000000 * r' + (week mk * (604800 * 1000000000)) * ONE - ns * ONE) <= ONE).
  { destruct H as (r' & Hr' & Hlt & He). split; [|rewrite (fge_worth _ _ r' (604800 * ONE) Hr' week_worth); by apply Z.leb_gt].
    pose proof (gpst_near (week mk) _ r' Hr' ltac:(lia)) as Hg. unfold WEEK_S, US in Hg. set (T := gpst_datetime _ _ - GPS_EPOCH) in *.
    set (w := week mk) in *. clearbody T w ns. set (X := 1000 * T - ns) in *.
    assert (HX : 1000 * ((T - w * (604800 * 1000000)) * ONE - 1000000 * r') = X * ONE - (1000000000 * r' + w * (604800 * 1000000000) * ONE - ns * ONE)) by (unfold X; ring).
    assert (Hz : Z.abs (X * ONE) < 502 * ONE) by lia. rewrite Z.abs_mul, (Z.abs_eq ONE) in Hz by lia.
    apply Z.mul_lt_mono_pos_r in Hz; [lia|done]. }
  unfold mk, mark_of, ns. fold N. destruct (_ =? TIME_BASE_UTC).
  - assert (H800 : 2 ^ 21 * ONE <= 2 ^ 800 * ONE) by (apply Z.mul_le_mono_nonneg_r; [lia|apply Z.pow_le_mono_r; lia]).
    destruct (fadd_worth _ _ r (18 * ONE) Hr (of_int_worth 18 ltac:(lia))) as (r1 & Hr1 & He1); [lia|lia|].
    pose proof (worth_nonneg _ _ Hr). assert (He1' : 2 ^ 53 * Z.abs (r1 - (r + 18 * ONE)) <= 700000 * ONE) by lia. clear He1. unfold GPS_UTC_LEAP_S.
    rewrite (fge_worth _ _ r1 (604800 * ONE) Hr1 week_worth). destruct (Z.leb_spec (604800 * ONE) r1) as [Hge|Hlt]; cbn [week tow_s].
    + destruct (fsub_worth _ _ r1 (604800 * ONE) Hr1 week_worth) as (r2 & Hr2 & He2); [done|lia|]. exists r2. split; [done|]. split; [lia|].
      replace (1000000000 * r2 + (wnR m + 1) * (604800 * 1000000000) * ONE - (wnR m * (604800 * 1000000000) + towMsR m * 1000000 + towSubMsR m + 18 * 1000000000) * ONE)
        with (1000000000 * r2 + 604800 * 1000000000 * ONE - N * ONE - 18 * 1000000000 * ONE) by (unfold N; ring). lia.
    + exists r1. split; [done|]. split; [done|].
      replace (1000000000 * r1 + wnR m * (604800 * 1000000000) * ONE - (wnR m * (604800 * 1000000000) + towMsR m * 1000000 + towSubMsR m + 18 * 1000000000) * ONE)
        with (1000000000 * r1 - N * ONE - 18 * 1000000000 * ONE) by (unfold N; ring). lia.
  - cbn [week tow_s]. exists r. split; [done|]. split; [lia|].
    replace (1000000000 * r + wnR m * (604800 * 1000000000) * ONE - (wnR m * (604800 * 1000000000) + towMsR m * 1000000 + towSubMsR m + 0) * ONE)
      with (1000000000 * r - N * ONE) by (unfold N; ring). lia.
Qed.

(** ** Examples *)

(** TIM-TM2: flags, count, week and time of the rising edge, accuracy. *)
Definition le (l : bytes) : Z := foldr (fun b v => b + 256 * v) 0 l.
Definition demo_identity (r : bytes) : bytes := if (r.[2] =? 0x0D) && (r.[3] =? 3) then str "TIM-TM2" else [].
Definition demo_parse (r : bytes) : option TimTm2 :=
  let p := drop 6 r in
  Some (mkTm2 (Z.testbit (p.[1]) 7) (Z.testbit (p.[1]) 6) (le (slice 2 4 p)) (le (slice 4 6 p)) (le (slice 8 12 p)) (le (slice 12 16 p)) (Z.shiftr (p.[1]) 3 mod 4) (le (slice 24 28 p))).
Definition demo_payload (count sub : Z) : bytes := [0; 0xD0; count; 0; 0x6A; 9; 0; 0; 0; 0; 0; 0x10; sub; 0; 0; 0; 0; 0; 0; 0; 0; 0; 0; 0; 20; 0; 0; 0].
Definition demo_frame (count sub : Z) : Frame :=
  mkFrame UBX ([UBX_SYNC1; UBX_SYNC2] ++ ubx_body 0x0D 3 (demo_payload count sub) ++ ubx_checksum (ubx_body 0x0D 3 (demo_payload count sub))).
Definition demo_stream : list Frame := [demo_frame 7 5; demo_frame 6 4; demo_frame 7 5].

Lemma demo_clean : Replay.clean demo_stream.
Proof.
  assert (H : forall c s, is_byte c -> is_byte s -> wire_valid (demo_frame c s) /\ short (demo_frame c s)).
  { intros c s Hc Hs. split; [|done]. apply wire_ubx; try (unfold is_byte; lia); [|done].
    unfold demo_payload. repeat (constructor; [first [exact Hc | exact Hs | unfold is_byte; lia]|]). constructor. }
  unfold Replay.clean, demo_stream. repeat (constructor; [apply H; unfold is_byte; lia|]). constructor.
Qed.

(** Three reports of two edges, cut in the middle of one. *)
Lemma marks_extracted_witness :
  extract_time_marks demo_identity demo_parse [take 50 (flat_map raw demo_stream); drop 50 (flat_map raw demo_stream)]
  = map mark_of [mkTm2 true true 6 2410 268435456 4 2 20; mkTm2 true true 7 2410 268435456 5 2 20].
Proof.
  destruct (marks_extracted demo_identity demo_parse [take 50 (flat_map raw demo_stream); drop 50 (flat_map raw demo_stream)] demo_stream demo_clean) as [E _].
  - cbn [concat]. by rewrite app_nil_r, take_drop.
  - etransitivity; [exact E|]. vm_compute. reflexivity.
Defined.

Lemma mark_time_exact_witness :
  let m := mkTm2 true true 7 2410 604799999 5 2 20 in
  Z.abs (1000 * (gpst_datetime (week (mark_of m)) (tow_s (mark_of m)) - GPS_EPOCH) - (2411 * (604800 * 1000000000) + 17999000005)) <= 501.
Proof. destruct (mark_time_exact (mkTm2 true true 7 2410 604799999 5 2 20)) as [H _]; [done|done|]. exact H. Defined.

(** A second after one epoch and a second before the next: close enough. *)
Lemma events_placed_witness : exists e,
  interpolate_events [mkMark 7 2436 (of_decimal false 505408000 (- 3)) 20] demo_track TWO !! 0%nat = Some e
  /\ placed demo_track TWO 1 (mkMark 7 2436 (of_decimal false 505408000 (- 3)) 20) 1789763008000000 e /\ status e = str "ok" /\ ev_q e = Some 2 /\ gap_s e = Some TWO.
Proof.
  destruct (events_placed [mkMark 7 2436 (of_decimal false 505408000 (- 3)) 20] demo_track TWO 0 _ eq_refl) as (_ & e & He & Hp).
  exists e. split; [exact He|]. split; [exact Hp|]. vm_compute in He. injection He as <-. repeat split.
Defined.
