(* ===== verification/RinexFiles.v ===== *)
(** * RINEX file names and spliced raw logs ([rinex/naming.py], [rinex/splice.py])

    The codes and names of RINEX files, and the concatenation of the hourly logs of a window. Times
    are UTC instants, so the refusal of naive ones has no counterpart; durations and intervals are
    doubles. A splice is given what the file system answers: to opening and reading each log, to the
    writes, to the renaming and to the removal of the part file. *)

From Stdlib Require Import String.
From stdpp Require Import sets list.
From S2P Require Import Prelude.
From S2P Require Import PyBytes.
From S2P Require Import PyText.
From S2P Require Import PyFloat.
From S2P Require Import PyRound.
From S2P Require Import PyCodecs.
From S2P Require Import Calendar.
From S2P Require Import WsHub.
From S2P Require Import RawLog.
From S2P Require Import RawIndex.
From S2P Require Import Nmea.
From S2P Require Import RinexHeader.
From S2P Require Import PpkTrack.
From S2P Require Import PpkEvents.

#[local] Open Scope string_scope.
#[local] Open Scope list_scope.
#[local] Open Scope Z_scope.

(** ** Codes *)

Definition _UNITS : list (bytes * Z) := [(str "D", 86400); (str "H", 3600); (str "M", 60); (str "S", 1)].
Definition code (n : Z) (unit : bytes) : bytes := fmt_0d 2 n ++ unit.

(** [math.ceil(s / size)]. *)
Definition ceil (x : Z) : Z := match f64 x with FFin neg m e => - ((- signed neg m) * pow2 e / pow2 (- e)) | _ => 0 end.
Definition units_of (s size : Z) : Z := ceil (fdiv_int s size).

(** The count and the unit of a whole number of seconds. *)
Definition exact_unit (s : Z) : option (Z * bytes) :=
  match find (fun u : bytes * Z => (s mod u.2 =? 0) && (s / u.2 <=? 99)) _UNITS with Some u => Some (s / u.2, u.1) | None => None end.
Definition rounded_unit (s : Z) : option (Z * bytes) :=
  match find (fun u : bytes * Z => units_of s u.2 <=? 99) (rev _UNITS) with Some u => Some (units_of s u.2, u.1) | None => None end.
Definition duration_unit (s : Z) : Z * bytes :=
  match exact_unit s with Some u => u | None => match rounded_unit s with Some u => u | None => (99, str "D") end end.
Definition duration_code (seconds : Z) : bytes := let '(n, unit) := duration_unit (Z.max 1 (rounded seconds)) in code n unit.

Definition CENTI_SLACK : Z := Eval vm_compute in of_decimal false 1 (- 6).
Definition SECOND_SLACK : Z := Eval vm_compute in of_decimal false 1 (- 9).
Definition F1 : Z := Eval vm_compute in of_int 1.
Definition F100 : Z := Eval vm_compute in of_int 100.
(** [a < b] and [a <= b]. *)
Definition flt (a b : Z) : bool := fgt b a.

(** [period_code]; [None] is its [ValueError]. *)
Definition period_code (seconds : option Z) : option bytes :=
  match seconds with
  | None => Some (str "00U")
  | Some x =>
      if fge 0 x then Some (str "00U")
      else if negb (isfinite x) then None
      else if flt x F1 then
        let cs := fmul x F100 in
        if flt (fabs (fsub cs (of_int (rounded cs)))) CENTI_SLACK && (1 <=? rounded cs) && (rounded cs <=? 99) then Some (code (rounded cs) (str "C")) else None
      else if fgt (fabs (fsub x (of_int (rounded x)))) SECOND_SLACK then None
      else '(n, unit) ← exact_unit (rounded x); Some (code n unit)
  end.

(** ** Names *)

(** [^[A-Z0-9]{4}$] and [^[A-Z]{3}$]: the end is before a last line feed as well. *)
Definition letter (c : Z) : bool := in_range 65 90 c.
Definition before_lf (s : bytes) : bytes := match list.last s with Some c => if c =? 10 then take (length s - 1) s else s | None => s end.
Definition matches (n : nat) (p : Z -> bool) (s : bytes) : bool := ((length s =? n)%nat && forallb p s) || ((length (before_lf s) =? n)%nat && forallb p (before_lf s)).
Definition _station (station : bytes) : option bytes := let c := upper station in if matches 4 (fun b => letter b || ascii_digit b) c then Some c else None.

Definition rinex3_name (station country : bytes) (start : Datetime) (duration_s : Z) (interval_s : option Z) (kind source : bytes) : option bytes :=
  c ← _station station;
  let ccc := upper country in
  if negb (matches 3 letter ccc) then None
  else if negb (bool_decide (source ∈ [str "R"; str "S"; str "U"])) then None
  else
    let base := c ++ str "00" ++ ccc ++ str "_" ++ source ++ str "_" ++ fmt_Y start ++ fmt_j start ++ fmt_H start
                ++ fmt_digits 10 2 (minute (fields start)) ++ str "_" ++ duration_code duration_s in
    if bool_decide (kind = str "MO") then p ← period_code interval_s; Some (base ++ str "_" ++ p ++ str "_MO.rnx")
    else Some (base ++ str "_" ++ kind ++ str ".rnx").

Definition DAY_S : Z := Eval vm_compute in of_int 86400.
Definition rinex2_name (station : bytes) (start : Datetime) (duration_s : Z) (kind : bytes) : option bytes :=
  c ← _station station;
  let session := if fge duration_s DAY_S then str "0" else [97 + hour (fields start)] in
  Some (lower c ++ fmt_j start ++ session ++ str "." ++ fmt_digits 10 2 (year (fields start) mod 100) ++ kind).

(** ** Splicing *)

Inductive SpliceError := EmptyWindow | NegativeLead | NoData | Disappeared (lf : LogFile) | MixedStations (stations : list bytes) | CannotRead (lf : LogFile) | WriteFailed.
Record SpliceResult := mkResult { sp_files : list LogFile; sp_bytes : Z; sp_lead_hours : Z }.

(** The destination and its part file. *)
Record Place := mkPlace { dest : option bytes; part : option bytes }.

(** What the file system answers. *)
Record Fs := mkFs {
  open_log : LogFile -> option (bytes * bool); (** what can be read of a log, and whether an error follows *)
  room : Z; (** the bytes that can be written *)
  make_parent : bool;
  open_part : bool;
  replace_ok : bool;
  unlink_ok : bool
}.

Definition overlaps (start end_ : Datetime) (lf : LogFile) : bool := (lf_hour_utc lf <? end_) && (start <? hour_end lf).

(** [sorted({...})] of the stations. *)
Definition stations_of (files : list LogFile) : list bytes := sorted_strs (remove_dups (map lf_station_id files)).

(** The loop over the logs: what was written so far, and how it ended. *)
Fixpoint copy_logs (fs : Fs) (files : list LogFile) (out : bytes) : bytes * option SpliceError :=
  match files with
  | [] => (out, None)
  | lf :: files =>
      match open_log fs lf with
      | None => (out, Some (Disappeared lf))
      | Some (content, failing) =>
          if room fs <? len (out ++ content) then (take (Z.to_nat (room fs)) (out ++ content), Some WriteFailed)
          else if failing : bool then (out ++ content, Some (CannotRead lf))
          else copy_logs fs files (out ++ content)
      end
  end.

Definition wanted (logs : list LogFile) (station : option bytes) : list LogFile :=
  match station with Some s => List.filter (fun lf => bool_decide (lf_station_id lf = s)) logs | None => logs end.

Definition splice_window (fs : Fs) (d : Disk) (glob : list bytes) (start end_ lead_hours : Z) (station : option bytes) (p : Place) : Place * (SpliceError + SpliceResult) :=
  if end_ <=? start then (p, inl EmptyWindow)
  else if lead_hours <? 0 then (p, inl NegativeLead)
  else
    let files := wanted (files_for_window d glob (start - lead_hours * HOUR) end_) station in
    if negb (existsb (overlaps start end_) files) then (p, inl NoData)
    else if (1 <? length (stations_of files))%nat then (p, inl (MixedStations (stations_of files)))
    else if negb (make_parent fs) then (p, inl WriteFailed)
    else
      let removed out := mkPlace (dest p) (if unlink_ok fs then None else out) in
      if negb (open_part fs) then (removed (part p), inl WriteFailed)
      else
        match copy_logs fs files [] with
        | (out, Some e) => (removed (Some out), inl e)
        | (out, None) => if replace_ok fs then (mkPlace (Some out) None, inr (mkResult files (len out) lead_hours)) else (removed (Some out), inl WriteFailed)
        end.

(** ** Units *)

Lemma ceil_worth x u : worth x u -> ceil x = - (- u / ONE).
Proof.
  intros (_ & m & e & E & He & Hm & Hu). unfold ceil. rewrite E. cbn [signed]. f_equal. apply units_div; [done|]. rewrite Hu. ring.
Qed.

(** The ceiling of the float quotient is that of the quotient. *)
Lemma units_of_exact s size : 0 < s < 2 ^ 40 -> 0 < size < 2 ^ 20 -> units_of s size = - (- s / size).
Proof.
  intros Hs Hz. pose proof one_pos as H1. pose proof one_big as HB. unfold units_of, fdiv_int.
  rewrite (proj2 (Z.eqb_neq _ _)), (proj2 (Z.ltb_ge s 0)), Z.abs_eq by lia.
  destruct (round_ratio_worth s size) as (r & Hr & Herr & Hex); [lia|lia| |].
  { apply Z.lt_le_trans with (1 * 2 ^ 900); [|apply Z.mul_le_mono_nonneg_r; lia]. apply Z.lt_trans with (2 ^ 40); [lia|]. rewrite Z.mul_1_l. apply Z.pow_lt_mono_r; lia. }
  rewrite (ceil_worth _ r Hr). f_equal.
  pose proof (Z.div_mod (- s) size ltac:(lia)) as Hd. pose proof (Z.mod_pos_bound (- s) size ltac:(lia)) as Hm.
  set (k := - s / size) in *. set (a := - s mod size) in *. clearbody k a.
  assert (Hso : s * ONE <= 2 ^ 40 * ONE) by (apply Z.mul_le_mono_nonneg_r; lia).
  destruct (decide (a = 0)) as [->|Ha].
  - assert (Er : r * size = s * ONE).
    { apply (Hex (- k) 0); [nia|lia|]. change (2 ^ (0 + 1074)) with ONE. nia. }
    assert (r = - k * ONE) by nia. symmetry. apply (Z.div_unique _ _ k 0); lia.
  - assert (Herr' : 2 ^ 12 * Z.abs (r * size - s * ONE) < ONE) by lia.
    assert (Hlow : size * (- r - k * ONE) > 0) by nia. assert (Hup : size * (- r - k * ONE) < size * ONE) by nia.
    symmetry. apply (Z.div_unique _ _ k (- r - k * ONE)); nia.
Qed.

(** The code of a duration covers it by less than a unit: exactly when some unit can, and by the smallest
    unit that reaches it otherwise. *)
Theorem duration_covers s : 0 < s <= 99 * 86400 ->
  exists size, ((duration_unit s).2, size) ∈ _UNITS /\ 1 <= (duration_unit s).1 <= 99 /\ s <= (duration_unit s).1 * size < s + size
    /\ ((exists v, v ∈ _UNITS /\ s mod v.2 = 0 /\ s / v.2 <= 99) -> (duration_unit s).1 * size = s)
    /\ ((duration_unit s).1 * size <> s -> forall v, v ∈ _UNITS -> v.2 < size -> 99 * v.2 < s).
Proof.
  intros Hs. assert (Hpos : forall v, v ∈ _UNITS -> 0 < v.2 <= 86400) by (apply list.Forall_forall; unfold _UNITS; repeat (constructor; [cbn; lia|]); constructor).
  unfold duration_unit, exact_unit. destruct (find _ _UNITS) as [[u size]|] eqn:Ef.
  - apply find_some in Ef as [Hin Ef]. cbn [fst snd] in *. zbool. apply list_elem_of_In in Hin. pose proof (Hpos _ Hin) as Hz. cbn [snd] in Hz.
    pose proof (Z.div_mod s size ltac:(lia)) as Hd. exists size. assert (Es : s / size * size = s) by lia.
    split; [done|]. split; [nia|]. split; [lia|]. done.
  - assert (Hne : ~ exists v, v ∈ _UNITS /\ s mod v.2 = 0 /\ s / v.2 <= 99).
    { intros (v & Hv & H1 & H2). apply list_elem_of_In in Hv. pose proof (find_none _ _ Ef v Hv) as H. cbv beta in H.
      rewrite (proj2 (Z.eqb_eq _ _)), (proj2 (Z.leb_le _ _)) in H by done. done. }
    assert (HU : forall v, v ∈ _UNITS -> units_of s v.2 = - (- s / v.2)) by (intros v Hv; pose proof (Hpos v Hv); apply units_of_exact; lia).
    assert (HQ : forall size, 0 < size -> size * (- (- s / size)) - size < s <= size * (- (- s / size))).
    { intros size Hz. pose proof (Z.div_mod (- s) size ltac:(lia)). pose proof (Z.mod_pos_bound (- s) size Hz). lia. }
    unfold rounded_unit. unfold _UNITS. cbn [rev app find snd fst].
    pose proof (HU (str "S", 1) ltac:(unfold _UNITS; set_solver)) as U1. pose proof (HU (str "M", 60) ltac:(unfold _UNITS; set_solver)) as U2.
    pose proof (HU (str "H", 3600) ltac:(unfold _UNITS; set_solver)) as U3. pose proof (HU (str "D", 86400) ltac:(unfold _UNITS; set_solver)) as U4.
    cbn [snd] in *. rewrite U1, U2, U3, U4. pose proof (HQ 1 ltac:(lia)). pose proof (HQ 60 ltac:(lia)). pose proof (HQ 3600 ltac:(lia)). pose proof (HQ 86400 ltac:(lia)).
    assert (Hall : forall size, size <= 86400 -> (size = 1 \/ 99 * 1 < s /\ (size = 60 \/ 99 * 60 < s /\ (size = 3600 \/ 99 * 3600 < s /\ size = 86400))) ->
      forall v, v ∈ _UNITS -> v.2 < size -> 99 * v.2 < s).
    { intros size _ Hz v Hv Hlt. unfold _UNITS in Hv. rewrite !elem_of_cons in Hv. destruct Hv as [->|[->|[->|[->|Hv]]]]; cbn [snd] in *; [lia..|inversion Hv]. }
    destruct (Z.leb_spec (- (- s / 1)) 99); [exists 1|destruct (Z.leb_spec (- (- s / 60)) 99); [exists 60|destruct (Z.leb_spec (- (- s / 3600)) 99); [exists 3600|
      rewrite (proj2 (Z.leb_le (- (- s / 86400)) 99)) by lia; exists 86400]]]; cbn [fst snd];
      (split; [unfold _UNITS; set_solver|]; split; [lia|]; split; [lia|]; split; [intros Hv; by destruct Hne|]; intros _; apply Hall; lia).
Qed.

Lemma duration_covers_witness : duration_code (of_int 9000) = str "03H" /\ duration_code (of_int 5400) = str "90M" /\ 9000 <= (duration_unit 9000).1 * 3600 < 9000 + 3600.
Proof.
  split; [vm_compute; done|]. split; [vm_compute; done|]. destruct (duration_covers 9000 ltac:(lia)) as (size & Hin & _ & H & _).
  assert (size = 3600) as ->; [|exact H]. replace ((duration_unit 9000).2) with (str "H") in Hin by (vm_compute; reflexivity).
  unfold _UNITS in Hin. rewrite !elem_of_cons in Hin. destruct Hin as [E|[E|[E|[E|E]]]]; [| | | |inversion E]; apply (f_equal (fun p : bytes * Z => (p.1.[0], p.2))) in E; vm_compute in E; congruence.
Defined.

(** ** The splice *)

(** What is read of the logs when nothing fails. *)
Definition contents (fs : Fs) (files : list LogFile) : option bytes := (@concat Z) <$> mapM (fun lf => match open_log fs lf with Some (c, false) => Some c | _ => None end) files.

Lemma copy_logs_done fs files out : (copy_logs fs files out).2 = None -> exists c, contents fs files = Some c /\ (copy_logs fs files out).1 = out ++ c.
Proof.
  revert out. induction files as [|lf files IH]; intros out H; cbn [copy_logs] in *; [exists []; by rewrite app_nil_r|].
  unfold contents in *. cbn [mapM]. destruct (open_log fs lf) as [[c []]|]; [by destruct (_ <? _)| |done].
  destruct (_ <? _); [done|]. destruct (IH _ H) as (c' & E & ->). destruct (mapM _ files) as [cs|]; [|done]. injection E as <-.
  exists (c ++ concat cs). split; [done|]. by rewrite app_assoc.
Qed.

Lemma copy_logs_ok fs files out c : contents fs files = Some c -> len (out ++ c) <= room fs -> copy_logs fs files out = (out ++ c, None).
Proof.
  revert out c. induction files as [|lf files IH]; intros out c E Hl; unfold contents in *; cbn [mapM copy_logs] in *.
  - injection E as <-. by rewrite app_nil_r.
  - destruct (open_log fs lf) as [[x []]|]; [done| |done]. destruct (mapM _ files) as [cs|]; [|done]. injection E as <-. cbn [concat].
    rewrite (proj2 (Z.ltb_ge _ _)) by (rewrite !length_app in *; cbn [concat] in Hl; rewrite ?length_app in Hl; lia).
    rewrite (IH _ (concat cs)); [by rewrite app_assoc|done|]. by rewrite <- app_assoc.
Qed.

Lemma sorted_strs_perm l : sorted_strs l ≡ₚ l.
Proof.
  induction l as [|x l IH]; [done|]. cbn [sorted_strs foldr]. fold (sorted_strs l). rewrite <- IH at 2. clear IH. induction (sorted_strs l) as [|y r IH]; [done|].
  cbn [insert_str]. destruct (str_leb x y); [done|]. rewrite IH. constructor.
Qed.

Lemma one_station files : (1 <? length (stations_of files))%nat = false <-> forall a b, a ∈ files -> b ∈ files -> lf_station_id a = lf_station_id b.
Proof.
  unfold stations_of. rewrite (Permutation_length (sorted_strs_perm _)), Nat.ltb_ge.
  assert (Hin : forall a, a ∈ files -> lf_station_id a ∈ remove_dups (map lf_station_id files)).
  { intros a Ha. apply elem_of_remove_dups, list_elem_of_In, in_map, list_elem_of_In, Ha. }
  pose proof (NoDup_remove_dups (map lf_station_id files)) as Hd. split.
  - intros Hl a b Ha Hb. apply Hin in Ha, Hb. destruct (remove_dups _) as [|x [|y l]]; [inversion Ha| |simpl in Hl; lia].
    apply list_elem_of_singleton in Ha, Hb. congruence.
  - intros Hs. destruct (remove_dups (map lf_station_id files)) as [|x [|y l]] eqn:E; [simpl; lia..|]. exfalso.
    assert (Hback : forall z, z ∈ x :: y :: l -> exists a, a ∈ files /\ lf_station_id a = z).
    { intros z. rewrite <- E, elem_of_remove_dups, list_elem_of_In, in_map_iff. intros (a & <- & Ha). exists a. by rewrite list_elem_of_In. }
    destruct (Hback x ltac:(set_solver)) as (a & Ha & <-). destruct (Hback y ltac:(set_solver)) as (b & Hb & <-). rewrite (Hs a b Ha Hb) in Hd.
    apply list.NoDup_cons in Hd as [Hd _]. set_solver.
Qed.

Lemma filtered_sublist {A} (f : A -> bool) l : List.filter f l `sublist_of` l.
Proof. induction l as [|x l IH]; cbn [List.filter]; [constructor|]. destruct (f x); by constructor. Qed.

Lemma wanted_sublist l station : wanted l station `sublist_of` l.
Proof. unfold wanted. destruct station; [apply filtered_sublist|done]. Qed.

(** C40.  Splicing a window is all or nothing. When it succeeds, the destination is the contents
    of the logs of the window and its lead hours, whole and by the hour, all of one station and one at
    least in the window itself, and no part file is left; when it fails, for any reason, the
    destination is as it was, and the part file is gone unless it could not be removed. It succeeds
    when there is such a log, only one station, and the file system does what it is asked. *)
Theorem splice_atomic fs d glob start end_ lead_hours station p :
  let files := wanted (files_for_window d glob (start - lead_hours * HOUR) end_) station in
  let '(p', result) := splice_window fs d glob start end_ lead_hours station p in
  match result with
  | inr r => sp_files r = files /\ sorted_by lf_hour_utc files /\ part p' = None
      /\ (exists c, contents fs files = Some c /\ dest p' = Some c /\ sp_bytes r = len c)
      /\ (exists lf, lf ∈ files /\ lf_hour_utc lf < end_ /\ start < hour_end lf) /\ (forall a b, a ∈ files -> b ∈ files -> lf_station_id a = lf_station_id b)
  | inl _ => dest p' = dest p /\ (part p' = part p \/ part p' = None \/ unlink_ok fs = false)
  end
  /\ (forall c lf, start < end_ -> 0 <= lead_hours -> lf ∈ files -> lf_hour_utc lf < end_ -> start < hour_end lf ->
        (forall a b, a ∈ files -> b ∈ files -> lf_station_id a = lf_station_id b) ->
        make_parent fs = true -> open_part fs = true -> contents fs files = Some c -> len c <= room fs -> replace_ok fs = true ->
        exists r, result = inr r).
Proof.
  intros files. unfold splice_window. fold files.
  assert (Hsorted : sorted_by lf_hour_utc files).
  { eapply sorted_by_sublist; [apply wanted_sublist|]. eapply sorted_by_sublist; [apply filtered_sublist|apply sort_by_sorted]. }
  destruct (Z.leb_spec end_ start); [split; [by auto|intros; lia]|].
  destruct (Z.ltb_spec lead_hours 0); [split; [by auto|intros; lia]|].
  destruct (existsb (overlaps start end_) files) eqn:Eo; cbn [negb].
  2: { split; [by auto|]. intros c lf _ _ Hin H1 H2. exfalso. apply not_true_iff_false in Eo. apply Eo, existsb_exists. exists lf.
       split; [by apply list_elem_of_In|]. unfold overlaps. by rewrite !(proj2 (Z.ltb_lt _ _)) by done. }
  apply existsb_exists in Eo as (lf0 & Hlf0 & Eo). apply list_elem_of_In in Hlf0. unfold overlaps in Eo. zbool.
  destruct (1 <? length (stations_of files))%nat eqn:Es.
  { split; [by auto|]. intros c lf _ _ _ _ _ Hs. apply one_station in Hs. congruence. }
  pose proof (proj1 (one_station files) Es) as Hone.
  assert (Hu : forall o, let p' := mkPlace (dest p) (if unlink_ok fs then None else o) in dest p' = dest p /\ (part p' = part p \/ part p' = None \/ unlink_ok fs = false))
    by (intros o; cbn [dest part]; destruct (unlink_ok fs); auto).
  destruct (make_parent fs) eqn:Ep; cbn [negb]; [|split; [by auto|done]].
  destruct (open_part fs) eqn:Eop; cbn [negb]; [|split; [by apply Hu|done]].
  destruct (copy_logs fs files []) as [out [e|]] eqn:Ec.
  - split; [by apply Hu|]. intros c lf _ _ _ _ _ _ _ _ Hc Hl _. rewrite (copy_logs_ok fs files [] c Hc Hl) in Ec. done.
  - destruct (copy_logs_done fs files [] ltac:(by rewrite Ec)) as (c & Hc & E). rewrite Ec in E. cbn [fst app] in E. subst out.
    destruct (replace_ok fs) eqn:Er; [|split; [by apply Hu|done]].
    cbn [sp_files sp_bytes dest part]. split; [|by eauto]. do 3 (split; [done|]). split; [by exists c|]. split; [by exists lf0|done].
Qed.

(** ** Example *)

Definition demo_glob : list bytes := [str "/raw/ubx/2026/09/BASE_20260918_20.ubx"; str "/raw/ubx/2026/09/BASE_20260918_19.ubx"].
Definition demo_disk : Disk := mkDisk {[ str "/raw/ubx/2026/09/BASE_20260918_20.ubx" := [3; 4]; str "/raw/ubx/2026/09/BASE_20260918_19.ubx" := [1; 2] ]} ∅.
Definition demo_fs : Fs := mkFs (fun lf => content ← files demo_disk !! lf_path lf; Some (content, false)) 1000 true true true true.
(** 20:10 to 20:20. *)
Definition demo_start : Z := 1789762200000000.

Lemma splice_atomic_witness :
  exists r, splice_window demo_fs demo_disk demo_glob demo_start (demo_start + 600 * 1000000) 1 (Some (str "BASE")) (mkPlace None None)
    = (mkPlace (Some [1; 2; 3; 4]) None, inr r) /\ sp_bytes r = 4.
Proof.
  pose proof (splice_atomic demo_fs demo_disk demo_glob demo_start (demo_start + 600 * 1000000) 1 (Some (str "BASE")) (mkPlace None None)) as H.
  set (fl := wanted _ _) in H. assert (Ec : contents demo_fs fl = Some [1; 2; 3; 4]) by (vm_compute; reflexivity).
  destruct (splice_window _ _ _ _ _ _ _ _) as [p' result] eqn:E. destruct H as [H1 H2].
  assert (Hlf : exists lf, lf ∈ fl /\ lf_hour_utc lf < demo_start + 600 * 1000000 /\ demo_start < hour_end lf).
  { assert (Hx : existsb (overlaps demo_start (demo_start + 600 * 1000000)) fl = true) by (vm_compute; reflexivity).
    apply existsb_exists in Hx as (lf & Hin & Hx). apply list_elem_of_In in Hin. unfold overlaps in Hx. apply andb_true_iff in Hx as [Ha Hb].
    exists lf. split; [exact Hin|]. split; apply Z.ltb_lt; [exact Ha|exact Hb]. }
  destruct Hlf as (lf & Hlf & Ha & Hb).
  assert (Hone : forall a b, a ∈ fl -> b ∈ fl -> lf_station_id a = lf_station_id b) by (apply one_station; vm_compute; reflexivity).
  destruct (H2 [1; 2; 3; 4] lf ltac:(unfold demo_start; lia) ltac:(lia) Hlf Ha Hb Hone eq_refl eq_refl Ec ltac:(vm_compute; discriminate) eq_refl) as [r ->].
  destruct H1 as (_ & _ & Hp & (c & Hc & Hd & Hs) & _). rewrite Ec in Hc. injection Hc as <-. exists r. destruct p'. cbn [dest part] in *. subst. split; [reflexivity|exact Hs].
Defined.

(** A station code with a line feed after it passes, and the line feed ends up in the name. *)
Lemma station_line_feed : 10 ∈ default [] (rinex2_name (str "BASE" ++ [10]) demo_start (of_int 86400) (str "o")) /\ _station (str "BASES") = None.
Proof. split; [apply (bool_decide_unpack _); vm_compute; done|vm_compute; done]. Qed.
