(* ===== verification/InsCapture.v ===== *)
(** * INS raw capture and state adapter ([rover/drivers/ins_common.py])

    The hourly capture of a vendor's raw stream with its sidecars, and the publishing side of the
    adapters. Clocks are whole microseconds where the code has floats; the file system does what it
    is asked; a sidecar that this program did not write is unreadable. The fields [_path], [_hour] and
    [_side] are read only while a file is open, so they are part of the open file. *)

From Stdlib Require Import String.
From stdpp Require Import gmap sets list.
From S2P Require Import Prelude.
From S2P Require Import PyBytes.
From S2P Require Import Calendar.
From S2P Require Import RawLog.

#[local] Open Scope string_scope.
#[local] Open Scope list_scope.
#[local] Open Scope Z_scope.

Definition PENDING_CAP_BYTES : Z := 8 * 1024 * 1024.
Definition BACKSTEP_HOLD : Z := 5 * US.
Definition SIDECAR_EVERY : Z := 10 * US.
Definition MIN_VALID_YEAR : Z := 2020.

Record Side := mkSide { hour_utc : Datetime; start_utc : option Datetime; end_utc : option Datetime; side_host : bool; side_bytes : Z; side_frames : Z }.
Inductive SideFile := Written (s : Side) | Foreign.
Record OpenFile := mkOpen { o_path : bytes; o_hour : Datetime; o_side : Side }.
(** [_utc] and [_utc_mono], which are set together; [_back_since], [_warned_implausible], and whether [_time_source] is the host. *)
Record Clock := mkClock { utc : option (Datetime * Z); back_since : option Datetime; warned : bool; by_host : bool }.
Record Capture := mkCapture {
  clock : Clock; side_dumped : Z; pending : bytes; pending_frames : Z; file : option OpenFile;
  files : gmap bytes bytes; sides : gmap bytes SideFile; rotated : list bytes
}.

Section Capture.
Context (root station_id suffix : bytes).

Definition new_capture (fs : gmap bytes bytes) (ss : gmap bytes SideFile) : Capture := mkCapture (mkClock None None false false) 0 [] 0 None fs ss [].

Definition path_for (hour : Datetime) : bytes :=
  root ++ str "/ins/" ++ fmt_Y hour ++ str "/" ++ fmt_j hour ++ str "/" ++ station_id ++ str "_" ++ (fmt_Y hour ++ fmt_m hour ++ fmt_d hour)
  ++ str "_" ++ fmt_H hour ++ str "." ++ suffix.

Definition current_path (c : Capture) : option bytes := o_path <$> file c.

Definition with_clock (k : Clock) (c : Capture) : Capture := mkCapture k (side_dumped c) (pending c) (pending_frames c) (file c) (files c) (sides c) (rotated c).

(** [_dump_sidecar]. *)
Definition dump_sidecar (now : Z) (o : OpenFile) (c : Capture) : Capture :=
  mkCapture (clock c) now (pending c) (pending_frames c) (file c) (files c) (<[sidecar_path (o_path o) := Written (o_side o)]> (sides c)) (rotated c).
Definition flush (now : Z) (c : Capture) : Capture := match file c with Some o => dump_sidecar now o c | None => c end.

Definition set_end (t : option Datetime) (s : Side) : Side := mkSide (hour_utc s) (start_utc s) t (side_host s) (side_bytes s) (side_frames s).
Definition close (now : Z) (c : Capture) : Capture :=
  match file c with
  | None => c
  | Some o =>
      let o := mkOpen (o_path o) (o_hour o) (set_end (fst <$> utc (clock c)) (o_side o)) in
      dump_sidecar now o (mkCapture (clock c) (side_dumped c) (pending c) (pending_frames c) None (files c) (sides c) (rotated c))
  end.

(** [self._fh.write(data)] with its counters. *)
Definition append (data : bytes) (frames : Z) (o : OpenFile) (c : Capture) : Capture :=
  let s := o_side o in
  mkCapture (clock c) (side_dumped c) (pending c) (pending_frames c)
    (Some (mkOpen (o_path o) (o_hour o) (mkSide (hour_utc s) (start_utc s) (end_utc s) (side_host s) (side_bytes s + len data) (side_frames s + frames))))
    (<[o_path o := default [] (files c !! o_path o) ++ data]> (files c)) (sides c) (rotated c).

Definition opened_side (hour : Datetime) (c : Capture) : Side :=
  let p := path_for hour in
  let fresh := fst <$> utc (clock c) in
  let '(start, frames) :=
    match files c !! p, sides c !! sidecar_path p with
    | Some _, Some (Written prev) => (match start_utc prev with Some t => Some t | None => fresh end, side_frames prev)
    | _, _ => (fresh, 0)
    end in
  mkSide hour start None (by_host (clock c)) (match files c !! p with Some old => len old | None => 0 end) frames.

(** [_rotate]. *)
Definition rotate (now hour : Z) (c : Capture) : Capture :=
  let c := close now c in
  let o := mkOpen (path_for hour) hour (opened_side hour c) in
  let c := mkCapture (clock c) (side_dumped c) (pending c) (pending_frames c) (Some o) (<[o_path o := default [] (files c !! o_path o)]> (files c)) (sides c) (rotated c) in
  let c := dump_sidecar now o c in
  let c :=
    match pending c with
    | [] => c
    | data =>
        let c' := append data (pending_frames c) o c in
        mkCapture (clock c') (side_dumped c') [] 0 (file c') (files c') (sides c') (rotated c')
    end in
  mkCapture (clock c) (side_dumped c) (pending c) (pending_frames c) (file c) (files c) (sides c) (rotated c ++ [o_path o]).

(** [_advance_hour]. *)
Definition advance_hour (now host : Z) (c : Capture) : Capture :=
  let k := clock c in
  let projected := if by_host k then Some host else match utc k with Some (t, m) => Some (t + (now - m)) | None => None end in
  match projected, file c with
  | Some t, Some o =>
      let hour := floor_hour t in
      if o_hour o <? hour then rotate now hour (with_clock (mkClock (Some (t, now)) (back_since k) (warned k) (by_host k)) c) else c
  | _, _ => c
  end.

Definition note_utc (now : Z) (t : Datetime) (c : Capture) : Capture :=
  let k := clock c in
  if year (fields t) <? MIN_VALID_YEAR then with_clock (mkClock (utc k) (back_since k) true (by_host k)) c
  else
    let hour := floor_hour t in
    let back := match file c with Some o => hour <? o_hour o | None => false end in
    let since := default t (back_since k) in
    if back && (t - since <? BACKSTEP_HOLD) then with_clock (mkClock (utc k) (Some since) (warned k) (by_host k)) c
    else
      let c := with_clock (mkClock (Some (t, now)) None (warned k) false) c in
      match file c with
      | Some o => if o_hour o =? hour then c else rotate now hour c
      | None => rotate now hour c
      end.

Definition write (now host : Z) (data : bytes) (c : Capture) : Capture :=
  match file c with
  | None =>
      let c := mkCapture (clock c) (side_dumped c) (pending c ++ data) (pending_frames c + 1) None (files c) (sides c) (rotated c) in
      if PENDING_CAP_BYTES <? len (pending c) then
        rotate now (floor_hour host) (with_clock (mkClock (Some (host, now)) (back_since (clock c)) (warned (clock c)) true) c)
      else c
  | Some _ =>
      let c := advance_hour now host c in
      match file c with
      | Some o => let c := append data 1 o c in if SIDECAR_EVERY <=? now - side_dumped c then flush now c else c
      | None => c
      end
  end.

Inductive Event := NoteUtc (now t : Z) | Write (now host : Z) (data : bytes) | Flush (now : Z) | Close (now : Z).
Definition step (c : Capture) (e : Event) : Capture :=
  match e with NoteUtc now t => note_utc now t c | Write now host data => write now host data c | Flush now => flush now c | Close now => close now c end.

(** ** Nothing is lost *)

(** What was appended to each file, in order. *)
Definition to_path (p : bytes) (apps : list (bytes * bytes)) : bytes := flat_map (fun a => if bool_decide (a.1 = p) then a.2 else []) apps.

Lemma to_path_app p a b : to_path p (a ++ b) = to_path p a ++ to_path p b.
Proof. apply flat_map_app. Qed.

Record capturing (fs0 : gmap bytes bytes) (data : bytes) (apps : list (bytes * bytes)) (c : Capture) : Prop := mkCapturing {
  cp_all : concat (map snd apps) ++ pending c = data;
  cp_files : forall p, default [] (files c !! p) = default [] (fs0 !! p) ++ to_path p apps;
  cp_open : forall o, file c = Some o -> pending c = [] /\ side_bytes (o_side o) = len (default [] (files c !! o_path o)) /\ is_Some (files c !! o_path o);
}.

Lemma capturing_quiet fs0 data apps c c' : pending c' = pending c -> files c' = files c -> file c' = file c \/ file c' = None ->
  capturing fs0 data apps c -> capturing fs0 data apps c'.
Proof.
  intros E1 E2 E3 [H1 H2 H3]. split.
  - by rewrite E1.
  - by rewrite E2.
  - intros o Ho. destruct E3 as [E3|E3]; [|congruence]. rewrite E1, E2. apply H3. congruence.
Qed.

Lemma close_facts now c : pending (close now c) = pending c /\ files (close now c) = files c /\ file (close now c) = None.
Proof. unfold close. destruct (file c) as [o|] eqn:E; by rewrite ?E. Qed.

Lemma append_capturing fs0 data apps n x o c : capturing fs0 data apps c -> file c = Some o -> capturing fs0 (data ++ x) (apps ++ [(o_path o, x)]) (append x n o c).
Proof.
  intros [H1 H2 H3] Ho. destruct (H3 o Ho) as (Hp & Hs & Hf). split; unfold append; cbn [pending files file].
  - rewrite map_app, concat_app. cbn [map concat snd]. rewrite <- H1, Hp, !app_nil_r. done.
  - intros p. rewrite to_path_app. cbn [to_path flat_map fst snd]. rewrite app_nil_r. destruct (decide (o_path o = p)) as [<-|Hne].
    + rewrite lookup_insert_eq, bool_decide_eq_true_2, H2 by done. by rewrite app_assoc.
    + rewrite lookup_insert_ne, bool_decide_eq_false_2, app_nil_r by done. apply H2.
  - intros o' [= <-]. cbn [o_path o_side side_bytes]. rewrite lookup_insert_eq. split; [done|]. split; [|by eexists]. rewrite Hs. cbn [default from_option id]. rewrite length_app. lia.
Qed.

Lemma rotate_capturing fs0 data apps now hour c : capturing fs0 data apps c -> exists apps', capturing fs0 data apps' (rotate now hour c) /\ is_Some (file (rotate now hour c)).
Proof.
  intros H. destruct (close_facts now c) as (E1 & E2 & E3).
  assert (Hc : capturing fs0 data apps (close now c)) by (apply (capturing_quiet fs0 data apps c); auto).
  unfold rotate. set (c1 := close now c) in *. clearbody c1. cbn [o_path]. set (p := path_for hour).
  assert (H2 : forall q, default [] (<[p := default [] (files c1 !! p)]> (files c1) !! q) = default [] (files c1 !! q)).
  { intros q. destruct (decide (p = q)) as [<-|Hn]; [by rewrite lookup_insert_eq|by rewrite lookup_insert_ne]. }
  assert (Hb : side_bytes (opened_side hour c1) = len (default [] (files c1 !! p))).
  { clear. unfold opened_side. fold p. destruct (files c1 !! p); [destruct (sides c1 !! sidecar_path p) as [[]|]|]; done. }
  destruct Hc as [G1 G2 G3]. unfold dump_sidecar. cbn [pending pending_frames clock side_dumped file files sides rotated o_path o_side].
  destruct (pending c1) as [|b data'] eqn:Ep.
  - exists apps. split; [|by eexists]. split; cbn [pending files file].
    + by rewrite <- G1.
    + intros q. rewrite H2. apply G2.
    + intros o [= <-]. cbn [o_path o_side]. split; [done|]. split; [by rewrite H2|]. rewrite lookup_insert_eq. by eexists.
  - exists (apps ++ [(p, b :: data')]). split; [|by eexists]. unfold append. cbn [pending pending_frames clock side_dumped file files sides rotated o_path o_side o_hour].
    split; cbn [pending files file].
    + rewrite map_app, concat_app. cbn [map concat snd]. by rewrite !app_nil_r, <- G1.
    + intros q. rewrite to_path_app. cbn [to_path flat_map fst snd]. rewrite app_nil_r. destruct (decide (p = q)) as [<-|Hne].
      * rewrite lookup_insert_eq, bool_decide_eq_true_2, app_assoc by done. cbn [default from_option id]. f_equal. rewrite H2. apply G2.
      * rewrite lookup_insert_ne, bool_decide_eq_false_2, app_nil_r by done. rewrite H2. apply G2.
    + intros o [= <-]. cbn [o_path o_side side_bytes]. rewrite lookup_insert_eq. split; [done|]. split; [|by eexists].
      transitivity (side_bytes (opened_side hour c1) + len (b :: data')); [done|]. cbn [default from_option id]. rewrite length_app, Nat2Z.inj_add. f_equal. rewrite Hb. f_equal. f_equal. symmetry. apply H2.
Qed.

Definition data_of (e : Event) : bytes := match e with Write _ _ d => d | _ => [] end.

Lemma step_capturing fs0 data apps c e : capturing fs0 data apps c -> exists apps', capturing fs0 (data ++ data_of e) apps' (step c e).
Proof.
  intros H. destruct e as [now t|now host x|now|now]; cbn [data_of step]; rewrite ?app_nil_r.
  - unfold note_utc. destruct (_ <? MIN_VALID_YEAR); [exists apps; apply (capturing_quiet _ _ _ c); auto|].
    destruct (_ && _); [exists apps; apply (capturing_quiet _ _ _ c); auto|].
    set (c1 := with_clock _ c). assert (H1 : capturing fs0 data apps c1) by (apply (capturing_quiet _ _ _ c); auto).
    destruct (file c1) as [o|]; [destruct (_ =? _); [by exists apps|]|]; destruct (rotate_capturing fs0 data apps now (floor_hour t) c1 H1) as (apps' & Ha & _); by exists apps'.
  - unfold write. destruct (file c) as [o|] eqn:Ef.
    + assert (Ha : exists apps', capturing fs0 data apps' (advance_hour now host c) /\ is_Some (file (advance_hour now host c))).
      { unfold advance_hour. rewrite Ef. destruct (if by_host (clock c) then _ else _) as [t|]; [|exists apps; by rewrite Ef].
        destruct (_ <? _); [|exists apps; by rewrite Ef]. apply rotate_capturing with (apps := apps). apply (capturing_quiet _ _ _ c); auto. }
      destruct Ha as (apps1 & Ha & o1 & Ho). rewrite Ho. pose proof (append_capturing fs0 data apps1 1 x o1 _ Ha Ho) as Hb.
      exists (apps1 ++ [(o_path o1, x)]). destruct (_ <=? _); [|done]. eapply capturing_quiet; [..|exact Hb]; unfold flush; by destruct (file _); auto.
    + set (c1 := mkCapture _ _ (pending c ++ x) _ _ _ _ _).
      assert (H1 : capturing fs0 (data ++ x) apps c1).
      { destruct H as [G1 G2 G3]. split; cbn [pending files file c1]; [by rewrite <- G1, app_assoc|done|done]. }
      destruct (_ <? _); [|by exists apps].
      destruct (rotate_capturing fs0 (data ++ x) apps now (floor_hour host) (with_clock (mkClock (Some (host, now)) (back_since (clock c1)) (warned (clock c1)) true) c1)) as (apps' & Ha & _);
        [apply (capturing_quiet _ _ _ c1); auto|by exists apps'].
  - exists apps. apply (capturing_quiet _ _ _ c); unfold flush; destruct (file c) eqn:E; auto.
  - destruct (close_facts now c) as (E1 & E2 & E3). exists apps. by apply (capturing_quiet _ _ _ c); auto.
Qed.

Lemma rotate_pending now hour c : pending (rotate now hour c) = [].
Proof.
  unfold rotate, dump_sidecar. cbn [pending file files sides clock side_dumped rotated pending_frames].
  by destruct (pending (close now c)).
Qed.

Lemma step_pending c e : len (pending c) <= PENDING_CAP_BYTES -> len (pending (step c e)) <= PENDING_CAP_BYTES.
Proof.
  assert (H0 : 0 <= PENDING_CAP_BYTES) by done. assert (Hr : forall now hour c, len (pending (rotate now hour c)) <= PENDING_CAP_BYTES) by (intros; by rewrite rotate_pending).
  intros H. destruct e as [now t|now host x|now|now]; cbn [step].
  - unfold note_utc. destruct (_ <? MIN_VALID_YEAR); [done|]. destruct (_ && _); [done|]. destruct (file _); [destruct (_ =? _); [done|apply Hr]|apply Hr].
  - unfold write. destruct (file c).
    + assert (Ha : len (pending (advance_hour now host c)) <= PENDING_CAP_BYTES).
      { unfold advance_hour. destruct (if by_host (clock c) then _ else _); [|done]. destruct (file c); [|done]. destruct (_ <? _); [apply Hr|done]. }
      destruct (file (advance_hour now host c)); [|done]. destruct (_ <=? _); [|done]. unfold flush. by destruct (file _).
    + destruct (Z.ltb_spec PENDING_CAP_BYTES (len (pending (mkCapture (clock c) (side_dumped c) (pending c ++ x) (pending_frames c + 1) None (files c) (sides c) (rotated c))))); [apply Hr|done].
  - unfold flush. by destruct (file c).
  - by destruct (close_facts now c) as (-> & _ & _).
Qed.

(** The capture loses nothing and changes nothing: every byte it was given is, in order,
    either appended to one of its files or still waiting for a time (never more than the cap, and never
    while a file is open), each file is what it was with its own appends after it, and the sidecar that
    closing leaves counts the bytes of its file. *)
Theorem capture_lossless fs ss es now :
  let c := foldl step (new_capture fs ss) es in
  (exists apps, concat (map snd apps) ++ pending c = flat_map data_of es
     /\ forall p, default [] (files c !! p) = default [] (fs !! p) ++ to_path p apps)
  /\ len (pending c) <= PENDING_CAP_BYTES
  /\ (forall o, file c = Some o -> pending c = []
       /\ exists s, sides (close now c) !! sidecar_path (o_path o) = Some (Written s) /\ side_bytes s = len (default [] (files (close now c) !! o_path o))
            /\ end_utc s = fst <$> utc (clock c)).
Proof.
  intros c.
  assert (H : forall es c0 data apps, capturing fs data apps c0 -> exists apps', capturing fs (data ++ flat_map data_of es) apps' (foldl step c0 es)).
  { clear. intros es. induction es as [|e es IH]; intros c0 data apps H; [exists apps; by rewrite app_nil_r|].
    destruct (step_capturing fs data apps c0 e H) as (apps1 & H1). cbn [foldl flat_map]. rewrite app_assoc. by apply (IH _ _ apps1). }
  destruct (H es (new_capture fs ss) [] []) as (apps & [H1 H2 H3]); [split; [done|intros p; by rewrite app_nil_r|done]|]. cbn [app] in H1.
  split; [by exists apps|]. split.
  - subst c. clear. assert (H0 : len (pending (new_capture fs ss)) <= PENDING_CAP_BYTES) by done. revert H0. generalize (new_capture fs ss).
    induction es as [|e es IH]; intros c H; [exact H|]. cbn [foldl]. apply IH. by apply step_pending.
  - intros o Ho. destruct (H3 o Ho) as (Hp & Hs & _). split; [exact Hp|]. unfold close. fold c in Ho |- *. rewrite Ho. unfold dump_sidecar. cbn [sides files o_path o_side].
    rewrite lookup_insert_eq. eexists. split; [reflexivity|]. cbn [side_bytes end_utc set_end]. by split.
Qed.

(** A unit clock that steps back over the hour does not switch files before it has stayed there for five
    seconds, counted from the first such reading. *)
Lemma backstep_held now t c o : file c = Some o -> floor_hour t < o_hour o -> MIN_VALID_YEAR <= year (fields t) ->
  t - default t (back_since (clock c)) < BACKSTEP_HOLD ->
  file (note_utc now t c) = Some o /\ files (note_utc now t c) = files c /\ back_since (clock (note_utc now t c)) = Some (default t (back_since (clock c))).
Proof.
  intros Ho Hh Hy Hs. unfold note_utc. rewrite (proj2 (Z.ltb_ge _ _)) by done. rewrite Ho, !(proj2 (Z.ltb_lt _ _)) by done. done.
Qed.
End Capture.

(** A restart within the hour: the file is appended to, its sidecar goes on. *)
Lemma capture_lossless_witness :
  let c := foldl (step (str "/d") (str "ROV1") (str "vnraw")) (new_capture ∅ ∅) [Write 0 0 [1; 2]; NoteUtc 1 1789762200000000; Write 2 0 [3]] in
  len (pending c) <= PENDING_CAP_BYTES /\ file c <> None.
Proof.
  destruct (capture_lossless (str "/d") (str "ROV1") (str "vnraw") ∅ ∅ [Write 0 0 [1; 2]; NoteUtc 1 1789762200000000; Write 2 0 [3]] 5) as (_ & H & _).
  split; [exact H|]. vm_compute. done.
Defined.

(** ** The state adapter *)

Section Adapter.
Context {Mark : Type} (new_rising : Mark -> bool) (MAX_TIME_MARKS : nat).
(** [1.0 / nav_hz_cap], in microseconds. *)
Context (period : Z).

Inductive Publication := PubRtk | PubEpoch (n : Z) (at_ : Z) | PubMark (m : Mark) | PubSection (name : bytes).
Record Adapter := mkAdapter {
  epoch_count : Z; last_epoch : option Z; last_rtcm : option Z; corr_age : option Z; last_epoch_pub : option Z; time_marks : list Mark; published : list Publication
}.
Definition new_adapter : Adapter := mkAdapter 0 None None None None [] [].

Definition end_epoch (now : Z) (a : Adapter) : Adapter :=
  let age := match last_rtcm a with Some r => Some (Z.max 0 (now - r)) | None => corr_age a end in
  let n := epoch_count a + 1 in
  if match last_epoch_pub a with Some l => now - l <? period - 1 | None => false end then
    mkAdapter n (Some now) (last_rtcm a) age (last_epoch_pub a) (time_marks a) (published a)
  else
    mkAdapter n (Some now) (last_rtcm a) age (Some now) (time_marks a)
      (published a ++ match last_rtcm a with Some _ => [PubRtk] | None => [] end ++ [PubEpoch n now]).
Definition note_rtcm_injected (now : Z) (a : Adapter) : Adapter :=
  mkAdapter (epoch_count a) (last_epoch a) (Some now) (corr_age a) (last_epoch_pub a) (time_marks a) (published a).
Definition publish_sections (names : list bytes) (a : Adapter) : Adapter :=
  mkAdapter (epoch_count a) (last_epoch a) (last_rtcm a) (corr_age a) (last_epoch_pub a) (time_marks a) (published a ++ map PubSection names).
Definition push_time_mark (m : Mark) (a : Adapter) : Adapter :=
  let marks := time_marks a ++ [m] in
  let marks := drop (length marks - MAX_TIME_MARKS) marks in
  publish_sections [str "time_marks"]
    (mkAdapter (epoch_count a) (last_epoch a) (last_rtcm a) (corr_age a) (last_epoch_pub a) marks (published a ++ if new_rising m then [PubMark m] else [])).

Inductive Change := EndEpoch (now : Z) | Injected (now : Z) | Pushed (m : Mark) | Sections (names : list bytes).
Definition change (a : Adapter) (e : Change) : Adapter :=
  match e with EndEpoch now => end_epoch now a | Injected now => note_rtcm_injected now a | Pushed m => push_time_mark m a | Sections names => publish_sections names a end.

Definition epochs_of (l : list Publication) : list (Z * Z) := omap (fun p => match p with PubEpoch n t => Some (n, t) | _ => None end) l.
Definition marks_of (es : list Change) : list Mark := omap (fun e => match e with Pushed m => Some m | _ => None end) es.
Definition count_of (es : list Change) : Z := len (List.filter (fun e => match e with EndEpoch _ => true | _ => false end) es).

(** The epochs are spaced, none is counted twice, and the marks are the latest. *)
Inductive spaced : list (Z * Z) -> Prop :=
| spaced_nil : spaced []
| spaced_one p : spaced [p]
| spaced_snoc l p q : spaced (l ++ [p]) -> p.2 + period - 1 <= q.2 -> p.1 < q.1 -> spaced (l ++ [p; q]).

Lemma drop_more {A} (all : list A) m x : drop (length (drop (length all - m) all ++ [x]) - m) (drop (length all - m) all ++ [x]) = drop (length (all ++ [x]) - m) (all ++ [x]).
Proof.
  rewrite !length_app, length_drop. cbn [length]. destruct (decide (length all <= m)%nat).
  - replace (length all - m)%nat with 0%nat by lia. rewrite drop_0. f_equal. lia.
  - replace (length all - (length all - m) + 1 - m)%nat with 1%nat by lia. replace (length all + 1 - m)%nat with (S (length all - m)) by lia.
    destruct m as [|m].
    + rewrite !Nat.sub_0_r, drop_all. rewrite (drop_ge (all ++ [x])) by (rewrite length_app; simpl; lia). done.
    + rewrite !(drop_app_le _ [x]) by (rewrite ?length_drop; lia). rewrite drop_drop. do 2 f_equal. lia.
Qed.

(** Consumers see no more than the rate they asked for, and the books stay right: two
    published epochs are a period apart (less a microsecond), every epoch is counted whether it is
    published or not, and the marks that are kept are the last ones, all of them until the limit. *)
Theorem adapter_books es :
  let a := foldl change new_adapter es in
  spaced (epochs_of (published a)) /\ epoch_count a = count_of es
  /\ (forall n t, list.last (epochs_of (published a)) = Some (n, t) -> last_epoch_pub a = Some t /\ n <= epoch_count a)
  /\ time_marks a = drop (length (marks_of es) - MAX_TIME_MARKS) (marks_of es).
Proof.
  induction es as [|e es IH] using rev_ind; [by repeat constructor|]. cbn zeta in *. rewrite foldl_app. cbn [foldl].
  set (a := foldl change new_adapter es) in *. clearbody a. destruct IH as (H1 & H2 & H3 & H4).
  unfold count_of, marks_of in *. rewrite filter_app, omap_app. cbn [List.filter omap list_omap].
  destruct e as [now|now|m|names]; cbn [change]; rewrite ?app_nil_r.
  - rewrite length_app, Nat2Z.inj_add. cbn [length]. unfold end_epoch.
    assert (Hno : epochs_of (published a) = [] \/ exists l p, epochs_of (published a) = l ++ [p] /\ last_epoch_pub a = Some p.2 /\ p.1 <= epoch_count a).
    { destruct (list.last (epochs_of (published a))) as [[n t]|] eqn:El; [|left; by apply list.last_None in El]. right.
      destruct (H3 n t eq_refl) as [E1 E2]. apply list.last_Some in El as [l El]. by exists l, (n, t). }
    destruct (match last_epoch_pub a with Some l => _ | None => false end) eqn:Eg; cbn [epoch_count published last_epoch_pub time_marks].
    + split; [done|]. split; [lia|]. split; [|done]. intros n t El. destruct (H3 n t El). split; [done|lia].
    + unfold epochs_of in *. rewrite !omap_app. replace (omap _ (match last_rtcm a with Some _ => [PubRtk] | None => [] end)) with (@nil (Z * Z)) by (by destruct (last_rtcm a)).
      cbn [app omap list_omap]. split; [|split; [lia|split; [|done]]].
      * destruct Hno as [->|(l & p & Hl & Ep & Hp)]; [constructor|]. rewrite Hl. rewrite <- app_assoc. cbn [app]. constructor; [by rewrite Hl in H1|..].
        -- rewrite Ep in Eg. cbn [snd]. apply Z.ltb_ge in Eg. lia.
        -- cbn [fst]. lia.
      * intros n t. rewrite list.last_snoc. intros [= <- <-]. split; [done|lia].
  - done.
  - unfold push_time_mark, publish_sections. cbn [epoch_count published last_epoch_pub time_marks]. unfold epochs_of in *. rewrite !omap_app.
    replace (omap _ (if new_rising m then [PubMark m] else [])) with (@nil (Z * Z)) by (by destruct (new_rising m)). cbn [app omap list_omap]. rewrite !app_nil_r.
    split; [done|]. split; [done|]. split; [done|]. rewrite H4. apply drop_more.
  - unfold publish_sections. cbn [epoch_count published last_epoch_pub time_marks]. unfold epochs_of in *. rewrite !omap_app.
    replace (omap _ (map PubSection names)) with (@nil (Z * Z)) by (clear; by induction names). rewrite app_nil_r. done.
Qed.
End Adapter.
