(* ===== verification/VnConfig.v ===== *)
(** * VectorNav configuration ([rover/drivers/vectornav/config.py], [driver.py])

    The profile, and the run that reads the unit and brings it to the profile. The unit answers the
    reads, the writes, the wait for a frame and the save; an answer is a value, a refusal with its code,
    silence, a reply that cannot be decoded, or the loss of the link, which is the only one that is
    raised. Messages are the item and the kind of what is reported. *)

From Stdlib Require Import String.
From stdpp Require Import gmap sets list.
From S2P Require Import Prelude.
From S2P Require Import PyBytes.
From S2P Require Import PyFloat.
From S2P Require Import PyRound.
From S2P Require Import PyCodecs.
From S2P Require Import VnFields.
From S2P Require Import VnParse.
From S2P Require Import VnRegisters.
From S2P Require Import Nmea.
From S2P Require Import RinexHeader.
From S2P Require Import PpkTrack.
From S2P Require Import InsLink.

#[local] Open Scope string_scope.
#[local] Open Scope list_scope.
#[local] Open Scope Z_scope.

Definition IMU_RATE_HZ : Z := 800.
Definition SUPPORTED_HZ : list Z := [1; 2; 4; 5; 8; 10; 16; 20; 25; 32; 40; 50; 80; 100; 160; 200; 400; 800].
Definition DIVISORS : list Z := Eval vm_compute in sort_by (fun d => d) (map (fun hz => IMU_RATE_HZ / hz) SUPPORTED_HZ).
Definition DEFAULT_ASYNC_MODE : Z := 1.
Definition FALLBACK_ERRORS : list Z := [6; 7; 12].
Definition SATINFO : Z := 2 ^ 14.
Definition FLOAT_TOL : Z := Eval vm_compute in of_decimal false 1 (- 4).
Definition STREAM_WAIT_S : Z := Eval vm_compute in of_int 2.
Definition BUDGET_SATS : Z := 25.
Definition BUDGET_MEAS : Z := 50.
Definition BUDGET_SHARE : Z := Eval vm_compute in of_decimal false 8 (- 1).
Definition DEFAULT_FIELDS : gmap bytes Z :=
  list_to_map [(str "time", 0x02DE); (str "imu", 0x0611); (str "gps", 0x7ABA); (str "attitude", 0x0103); (str "ins", 0x0613)].

(** ** The profile *)

(** [None] is the [ValueError]. *)
Definition divisor_for_hz (hz : Z) : option Z :=
  if hz <=? 0 then None
  else
    let ideal := fdiv_int IMU_RATE_HZ hz in
    Some (match list.last (List.filter (fun d => fge ideal (of_int d)) DIVISORS) with Some d => d | None => 1 end).

Definition field_total (name : bytes) (mask : Z) : Z :=
  match find (fun kv : bytes * nat => bool_decide (kv.1 = name)) GROUP_BITS with
  | Some (_, g) => foldr Z.add 0 (map (fun bit => if Z.land mask (2 ^ Z.of_nat bit) =? 0 then 0 else nth bit (FIELD_SIZES g) 0) (seq 0 15))
  | None => 0
  end.
Definition frame_bytes (fields : gmap bytes Z) (gps_ext : option Z) (sats meas : Z) : Z :=
  let ext := match gps_ext with Some e => e | None => 0 end in
  foldr (fun kv total =>
    total + 2 + field_total kv.1 kv.2
    + (if bool_decide (kv.1 = str "gps") then
         (if Z.land kv.2 SATINFO =? 0 then 0 else SATINFO_RECORD * sats)
         + (if ext =? 0 then 0 else 2 + (if Z.land ext EXT_RAWMEAS =? 0 then 0 else RAWMEAS_HEADER + RAWMEAS_RECORD * meas))
       else 0)) 4 (map_to_list fields).

Inductive Note :=
| Rounded (hz divisor : Z) | Budget | MotionProfile | KeptMode (mode : Z) | RefusedPart (code : Z) | AsciiLeftOn | RamOnly | NotSaved | SavedEarlier.

Record Settings := mkSettings {
  ins_output_hz : Z; ins_baud : Z; ins_raw_gnss : bool; ins_motion_general : bool; ins_vn_vpe : option bytes; ins_vn_scenario : option Z;
  ins_vn_ahrs_aiding : option bool; ins_vn_ref_rotation : option bytes; ins_lever_arm_gnss1 : option (list Z); ins_apply_config : bool
}.
Record VnProfile := mkProfile {
  p_divisor : Z; p_fields : gmap bytes Z; p_gps_ext : option Z; antenna_offset : option (list Z); vpe : option (list Z);
  ins_basic : option (option Z * option bool); ref_rotation : option (list Z); p_notes : list Note
}.

(** [_budget_note]: the need at the rate, against the share of the line. *)
Definition _budget_note (baud divisor : Z) (fields : gmap bytes Z) (ext : option Z) : list Note :=
  let hz := fdiv_int IMU_RATE_HZ divisor in
  let line := fdiv_int baud 10 in
  let need := fmul (of_int (frame_bytes fields ext BUDGET_SATS BUDGET_MEAS)) hz in
  if fge (fmul BUDGET_SHARE line) need then [] else [Budget].

(** [vn_profile]; [None] is the [ValueError] of a rate or of a list that does not parse. *)
Definition vn_profile (s : Settings) : option VnProfile :=
  let hz := ins_output_hz s in
  divisor ← divisor_for_hz hz;
  let ext := if ins_raw_gnss s then Some EXT_RAWMEAS else None in
  vpe ← match ins_vn_vpe s with
        | None => Some None
        | Some text => v ← mapM (py_int 10) (split_on (str ",") text); if (length v =? 4)%nat then Some (Some v) else None
        end;
  rotation ← match ins_vn_ref_rotation s with None => Some None | Some text => Some <$> mapM py_float (split_on (str ",") text) end;
  Some (mkProfile divisor DEFAULT_FIELDS ext (ins_lever_arm_gnss1 s) vpe
    (match ins_vn_scenario s, ins_vn_ahrs_aiding s with None, None => None | a, b => Some (a, b) end) rotation
    ((if negb (IMU_RATE_HZ / divisor =? hz) || negb (IMU_RATE_HZ mod divisor =? 0) then [Rounded hz divisor] else [])
     ++ _budget_note (ins_baud s) divisor DEFAULT_FIELDS ext ++ (if ins_motion_general s then [] else [MotionProfile]))).

(** ** The unit *)

Inductive Ident := Model | HardwareRevision | Serial | Firmware.
Inductive Reg := RBinary | RAsync | RAntenna | RBasic | RVpe | RRotation.
#[export] Instance Reg_eq_dec : EqDecision Reg.
Proof. solve_decision. Defined.
#[export] Instance Conf_eq_dec : EqDecision BinaryOutputConf.
Proof. solve_decision. Defined.

(** What a register holds: the configuration of binary output 1, or numbers (doubles where they are floats). *)
Inductive Val := VConf (c : BinaryOutputConf) | Nums (l : list Z).
#[export] Instance Val_eq_dec : EqDecision Val.
Proof. solve_decision. Defined.

(** The answers. [Unreadable] is an error of the typed reader of a register: identities, which are texts, writes
    and the save have none. *)
Inductive Reply (A : Type) := Got (a : A) | Refusal (code : Z) | Silence | Unreadable | LinkLost.
Arguments Got {A}. Arguments Refusal {A}. Arguments Silence {A}. Arguments Unreadable {A}. Arguments LinkLost {A}.

Class Unit_ (W : Type) := {
  do_ident : Ident -> W -> W * Reply bytes;
  do_read : Reg -> W -> W * Reply Val;
  do_write : Reg -> Val -> W -> W * Reply unit;
  do_stream : Z -> W -> W * Reply bool;
  do_save : W -> W * Reply unit
}.

Inductive Sent := SIdent (i : Ident) | SRead (r : Reg) | SWrite (r : Reg) (v : Val) | SStream (ok : bool) | SSave.

Definition name_of (r : Reg) : bytes :=
  match r with RBinary => str "binary_output_1" | RAsync => str "async_output_type" | RAntenna => str "antenna_offset" | RBasic => str "ins_basic" | RVpe => str "vpe" | RRotation => str "ref_rotation" end.

Inductive What := IdentFailed (i : Ident) | ReadFailed | ReadUnreadable | WriteFailed | ReadBackDiffers | RefusedAll | NoStream | SaveFailed | ShortReply.
Record Complaint := mkComplaint { about : option Reg; what : What; alert : bool }.

Record Report := mkReport {
  applied : list Reg; unchanged : list Reg; mismatched : list Reg; pending_ : list Reg; errors : list Complaint; notes : list Note;
  current : list (Reg * Val); wanted : list (Reg * Val); sat_info : option bool; raw_meas : option bool; saved : bool
}.
Definition new_report (ns : list Note) : Report := mkReport [] [] [] [] [] ns [] [] None None false.

(** The run, with what outlives it: the driver's [saved_this_run] and the markers of RAM-only applies. *)
Record Run (W : Type) := mkRun {
  world : W; info : option (list (Ident * bytes)); report : Report; streaming : bool; saved_this_run : bool; markers : gset bytes; sent : list Sent
}.
Arguments mkRun {W}. Arguments world {W}. Arguments info {W}. Arguments report {W}. Arguments streaming {W}. Arguments saved_this_run {W}.
Arguments markers {W}. Arguments sent {W}.

Section Run.
Context {W : Type} {unit_ : Unit_ W}.
Context (profile : VnProfile) (apply : bool) (save_allowed : bool).

(** ** A state monad in which only the loss of the link is raised *)

Definition M (A : Type) : Type := Run W -> Run W * option A.
#[export] Instance M_ret : MRet M := fun A a s => (s, Some a).
#[export] Instance M_bind : MBind M := fun A B f m s => match m s with (s, Some a) => f a s | (s, None) => (s, None) end.

Definition get {A} (f : Run W -> A) : M A := fun s => (s, Some (f s)).
Definition modify (f : Run W -> Run W) : M unit := fun s => (f s, Some tt).
Definition set_report (r : Report) (s : Run W) : Run W := mkRun (world s) (info s) r (streaming s) (saved_this_run s) (markers s) (sent s).
Definition on_report (f : Report -> Report) : M unit := modify (fun s => set_report (f (report s)) s).
(** One exchange with the unit, and the record of it. *)
Definition ask {A} (what : A -> list Sent) (none : list Sent) (f : W -> W * Reply A) : M (Reply A) := fun s =>
  let '(w, r) := f (world s) in
  let s := mkRun w (info s) (report s) (streaming s) (saved_this_run s) (markers s) (sent s ++ match r with Got a => what a | _ => none end) in
  (s, match r with LinkLost => None | r => Some r end).
Definition read_reg (r : Reg) : M (Reply Val) := ask (fun _ => [SRead r]) [SRead r] (do_read r).
Definition write_reg (r : Reg) (v : Val) : M (Reply unit) := ask (fun _ => [SWrite r v]) [SWrite r v] (do_write r v).

Definition add_error (about : option Reg) (what : What) (alert : bool) : M unit := on_report (fun r =>
  mkReport (applied r) (unchanged r) (mismatched r) (pending_ r) (errors r ++ [mkComplaint about what alert]) (notes r) (current r) (wanted r) (sat_info r) (raw_meas r) (saved r)).
Definition add_note (n : Note) : M unit := on_report (fun r =>
  mkReport (applied r) (unchanged r) (mismatched r) (pending_ r) (errors r) (notes r ++ [n]) (current r) (wanted r) (sat_info r) (raw_meas r) (saved r)).
(** Assignments to a key of a dict. *)
Definition without (k : Reg) (l : list (Reg * Val)) : list (Reg * Val) := List.filter (fun kv => negb (bool_decide (kv.1 = k))) l.
Fixpoint put (k : Reg) (v : Val) (l : list (Reg * Val)) : list (Reg * Val) :=
  match l with [] => [(k, v)] | (x, y) :: l => if bool_decide (x = k) then (k, v) :: l else (x, y) :: put k v l end.
Definition lookup_val (k : Reg) (l : list (Reg * Val)) : option Val := snd <$> find (fun kv => bool_decide (kv.1 = k)) l.
Definition set_current (k : Reg) (v : Val) : M unit := on_report (fun r =>
  mkReport (applied r) (unchanged r) (mismatched r) (pending_ r) (errors r) (notes r) (put k v (current r)) (wanted r) (sat_info r) (raw_meas r) (saved r)).
Definition set_wanted (k : Reg) (v : option Val) : M unit := on_report (fun r =>
  mkReport (applied r) (unchanged r) (mismatched r) (pending_ r) (errors r) (notes r) (current r) (match v with Some v => put k v (wanted r) | None => without k (wanted r) end) (sat_info r) (raw_meas r) (saved r)).
Inductive Verdict := VApplied | VUnchanged | VMismatched | VPending.
Definition file_under (v : Verdict) (k : Reg) : M unit := on_report (fun r =>
  mkReport (applied r ++ match v with VApplied => [k] | _ => [] end) (unchanged r ++ match v with VUnchanged => [k] | _ => [] end)
    (mismatched r ++ match v with VMismatched => [k] | _ => [] end) (pending_ r ++ match v with VPending => [k] | _ => [] end)
    (errors r) (notes r) (current r) (wanted r) (sat_info r) (raw_meas r) (saved r)).
Definition set_streaming (b : bool) : M unit := modify (fun s => mkRun (world s) (info s) (report s) b (saved_this_run s) (markers s) (sent s)).

(** ** Reading, changing and verifying an item *)

Definition _close (a b : list Z) : bool := (length a =? length b)%nat && forallb (fun p : Z * Z => fge FLOAT_TOL (fabs (fsub p.1 p.2))) (combine a b).
(** The comparison of each item; a value of the wrong shape is not the same. *)
Definition same (r : Reg) (a b : Val) : bool :=
  match r, a, b with
  | RAntenna, Nums a, Nums b | RRotation, Nums a, Nums b => _close a b
  | RVpe, Nums a, Nums b => (4 <=? length a)%nat && bool_decide (take 4 a = b)
  | RBasic, Nums (a0 :: a1 :: _), Nums (b0 :: b1 :: _) => (a0 =? b0) && Bool.eqb (negb (a1 =? 0)) (negb (b1 =? 0))
  | RBinary, _, _ | RAsync, _, _ => bool_decide (a = b)
  | _, _, _ => false
  end.

Definition read (k : Reg) : M (option Val) :=
  r ← read_reg k;
  match r with
  | Got v => mret (Some v)
  | Unreadable => add_error (Some k) ReadUnreadable false;; mret None
  | _ => add_error (Some k) ReadFailed false;; mret None
  end.

Definition verify (k : Reg) (desired : Val) : M bool :=
  back ← read k;
  match back with
  | None => mret false
  | Some v =>
      set_current k v;;
      if same k v desired then (file_under VApplied k;; mret true)
      else (file_under VMismatched k;; add_error (Some k) ReadBackDiffers true;; mret false)
  end.

Definition change (k : Reg) (cur desired : Val) : M unit :=
  if same k cur desired then file_under VUnchanged k
  else
    set_wanted k (Some desired);;
    if negb apply then file_under VPending k
    else
      r ← write_reg k desired;
      match r with
      | Got _ => verify k desired;; mret tt
      | _ => add_error (Some k) WriteFailed true
      end.

Definition item (k : Reg) (desired : option Val) : M unit :=
  v ← read k;
  match v with
  | None => mret tt
  | Some v => set_current k v;; match desired with None => mret tt | Some d => change k v d end
  end.

(** ** Identity *)

Definition put_info (i : Ident) (v : bytes) (l : list (Ident * bytes)) : list (Ident * bytes) := l ++ [(i, v)].
Fixpoint identify (ids : list Ident) (known : list (Ident * bytes)) : M (bool * list (Ident * bytes)) :=
  match ids with
  | [] => mret (true, known)
  | i :: ids =>
      r ← ask (fun _ => [SIdent i]) [SIdent i] (do_ident i);
      match r with
      | Got v => identify ids (put_info i v known)
      | Silence => add_error None (IdentFailed i) true;; match i with Model => mret (false, known) | _ => identify ids known end
      | _ => add_error None (IdentFailed i) false;; identify ids known
      end
  end.
Definition read_info : M bool :=
  r ← identify [Model; HardwareRevision; Serial; Firmware] [];
  modify (fun s => mkRun (world s) (Some r.2) (report s) (streaming s) (saved_this_run s) (markers s) (sent s));;
  mret r.1.

(** ** Binary output 1 *)

Definition _outputs (c : BinaryOutputConf) : bool * bool :=
  match async_mode c =? 0, fields c !! str "gps" with
  | false, Some m => (negb (Z.land m SATINFO =? 0), negb (Z.land (default 0 (gps_ext c)) EXT_RAWMEAS =? 0))
  | _, _ => (false, false)
  end.
Definition _follow (c : BinaryOutputConf) : M unit := on_report (fun r =>
  mkReport (applied r) (unchanged r) (mismatched r) (pending_ r) (errors r) (notes r) (current r) (wanted r) (Some (_outputs c).1) (Some (_outputs c).2) (saved r)).

Definition without_sat : gmap bytes Z := <[str "gps" := Z.land (default 0 (p_fields profile !! str "gps")) (Z.lnot SATINFO)]> (p_fields profile).
Definition candidates (mode : Z) : list BinaryOutputConf :=
  mkConf mode (p_divisor profile) (p_fields profile) (p_gps_ext profile)
  :: (match p_gps_ext profile with Some _ => [mkConf mode (p_divisor profile) (p_fields profile) None] | None => [] end)
  ++ [mkConf mode (p_divisor profile) without_sat None].

Fixpoint try_candidates (cur : BinaryOutputConf) (cs : list BinaryOutputConf) (refused : option Z) : M (option BinaryOutputConf) :=
  match cs with
  | [] => add_error (Some RBinary) RefusedAll true;; mret None
  | want :: cs =>
      if bool_decide (want = cur) then (file_under VUnchanged RBinary;; set_wanted RBinary None;; mret (Some cur))
      else
        r ← write_reg RBinary (VConf want);
        match r with
        | Refusal code =>
            if bool_decide (code ∈ FALLBACK_ERRORS) then try_candidates cur cs (Some code)
            else (add_error (Some RBinary) WriteFailed true;; mret None)
        | Got _ =>
            (match refused with Some code => add_note (RefusedPart code) | None => mret tt end);;
            set_wanted RBinary (Some (VConf want));;
            ok ← verify RBinary (VConf want);
            if (ok : bool) then (_follow want;; set_current RBinary (VConf want);; mret (Some want)) else mret None
        | _ => add_error (Some RBinary) WriteFailed true;; mret None
        end
  end.

Definition binary_output : M (option BinaryOutputConf) :=
  v ← read RBinary;
  match v with
  | Some (VConf cur) =>
      set_current RBinary (VConf cur);;
      _follow cur;;
      let mode := if async_mode cur =? 0 then DEFAULT_ASYNC_MODE else async_mode cur in
      (if async_mode cur =? 0 then mret tt else add_note (KeptMode mode));;
      match candidates mode with
      | want :: _ =>
          if bool_decide (cur = want) then (file_under VUnchanged RBinary;; mret (Some cur))
          else
            set_wanted RBinary (Some (VConf want));;
            if negb apply then (file_under VPending RBinary;; mret None) else try_candidates cur (candidates mode) None
      | [] => mret None
      end
  | _ => mret None
  end.

(** [max(STREAM_WAIT_S, 2.0 * divisor / IMU_RATE_HZ)]. *)
Definition stream_wait (divisor : Z) : Z := fmax STREAM_WAIT_S (fdiv_pos (fmul STREAM_WAIT_S (of_int divisor)) IMU_RATE_HZ).
Definition check_stream (c : BinaryOutputConf) : M bool :=
  r ← ask (fun ok : bool => [SStream ok]) [SStream false] (do_stream (stream_wait (divisor c)));
  match r with
  | Got true => mret true
  | _ => add_error (Some RBinary) NoStream true;; mret false
  end.

Definition async_output : M unit :=
  v ← read RAsync;
  match v with
  | None => mret tt
  | Some v =>
      set_current RAsync v;;
      on ← get streaming;
      if apply && negb (bool_decide (v = Nums [0])) && negb on then add_note AsciiLeftOn else change RAsync v (Nums [0])
  end.

Definition _ins_basic (w : option Z * option bool) : M unit :=
  v ← read RBasic;
  match v with
  | None => mret tt
  | Some v =>
      set_current RBasic v;;
      match v with
      | Nums (c0 :: c1 :: _) =>
          let aiding := match w.2 with Some b => b | None => negb (c1 =? 0) end in
          change RBasic v (Nums [default c0 w.1; if aiding then 1 else 0])
      | _ => add_error (Some RBasic) ShortReply false
      end
  end.

(** ** Flash *)

(** [ram_only_marker]: the part of its name that is the serial number (ASCII), which is not empty. *)
Definition marker_char (c : Z) : bool := ascii_digit c || in_range 65 90 c || in_range 97 122 c || (c =? 45) || (c =? 95).
Definition ident_text (i : Ident) (l : list (Ident * bytes)) : bytes :=
  match find (fun kv : Ident * bytes => match kv.1, i with Model, Model | HardwareRevision, HardwareRevision | Serial, Serial | Firmware, Firmware => true | _, _ => false end) l with
  | Some kv => kv.2 | None => [] end.
Definition marker (s : Run W) : option bytes :=
  l ← info s;
  match List.filter marker_char (ident_text Serial l) with [] => None | m => Some m end.
Definition set_markers (f : gset bytes -> gset bytes) : M unit := modify (fun s => mkRun (world s) (info s) (report s) (streaming s) (saved_this_run s) (f (markers s)) (sent s)).
Definition set_saved : M unit :=
  modify (fun s => mkRun (world s) (info s) (report s) (streaming s) true (markers s) (sent s));;
  on_report (fun r => mkReport (applied r) (unchanged r) (mismatched r) (pending_ r) (errors r) (notes r) (current r) (wanted r) (sat_info r) (raw_meas r) true).

Definition none_of (l : list Reg) : bool := match l with [] => true | _ => false end.
Definition save : M unit :=
  m ← get marker;
  r ← get report;
  on ← get streaming;
  ms ← get markers;
  already ← get saved_this_run;
  let ram_only := match m with Some m => bool_decide (m ∈ ms) | None => false end && none_of (applied r) && none_of (mismatched r) && none_of (pending_ r) && on in
  if negb (apply && (negb (none_of (applied r)) || ram_only)) || already then mret tt
  else if negb save_allowed then
    if none_of (applied r) then mret tt
    else (set_markers (fun ms => match m with Some m => ms ∪ {[m]} | None => ms end);; add_note RamOnly)
  else if negb (none_of (mismatched r)) || negb on then add_note NotSaved
  else
    w ← ask (fun _ => [SSave]) [SSave] do_save;
    match w with
    | Got _ =>
        set_saved;;
        (if ram_only then add_note SavedEarlier else mret tt);;
        set_markers (fun ms => match m with Some m => ms ∖ {[m]} | None => ms end)
    | _ => add_error None SaveFailed true
    end.

(** ** The run *)

Definition maybe {A} (o : option A) (f : A -> M unit) : M unit := match o with Some a => f a | None => mret tt end.
Definition items : M unit :=
  c ← binary_output;
  (match c with Some c => b ← check_stream c; set_streaming b | None => mret tt end);;
  async_output;;
  item RAntenna (Nums <$> antenna_offset profile);;
  maybe (ins_basic profile) _ins_basic;;
  maybe (vpe profile) (fun v => item RVpe (Some (Nums v)));;
  maybe (ref_rotation profile) (fun v => item RRotation (Some (Nums v))).
Definition run : M unit := ok ← read_info; if negb ok then mret tt else (items;; save).

(** ** What a run keeps *)

Definition keeps {A} (P : Run W -> Prop) (m : M A) (Q : Run W -> Prop) : Prop := forall s, P s -> Q (m s).1.

Lemma hoare_ret {A} (a : A) (P Q : Run W -> Prop) : (forall s, P s -> Q s) -> keeps P (mret a) Q.
Proof. intros H s Hs. by apply H. Qed.

Lemma hoare_bind {A B} (m : M A) (f : A -> M B) P R Q : keeps P m R -> (forall a, keeps R (f a) Q) -> (forall s, R s -> Q s) -> keeps P (m ≫= f) Q.
Proof.
  intros Hm Hf Hq s Hs. specialize (Hm s Hs). unfold mbind, M_bind. destruct (m s) as [s1 [a|]]; cbn [fst] in *; [by apply Hf|by apply Hq].
Qed.

Lemma hoare_get {A B} (g : Run W -> A) (f : A -> M B) P Q : (forall a, keeps (fun s => P s /\ g s = a) (f a) Q) -> keeps P (get g ≫= f) Q.
Proof. intros H s Hs. by apply H. Qed.

Lemma hoare_pre {A} (m : M A) (P P' Q : Run W -> Prop) : (forall s, P s -> P' s) -> keeps P' m Q -> keeps P m Q.
Proof. intros H Hm s Hs. by apply Hm, H. Qed.

(** What may be sent only once binary output 1 streams here. *)
Definition needs_stream (x : Sent) : Prop := match x with SWrite RAsync _ | SSave => True | _ => False end.
Definition guarded (l : list Sent) : Prop := forall l1 x l2, l = l1 ++ x :: l2 -> needs_stream x -> SStream true ∈ l1.
Definition harmless (x : Sent) : Prop := match x with SWrite _ _ | SSave => False | _ => True end.

Lemma guarded_snoc l x : guarded l -> (needs_stream x -> SStream true ∈ l) -> guarded (l ++ [x]).
Proof.
  intros Hl Hx l1 y l2 E Hy. destruct l2 as [|z l2 _] using rev_ind.
  - apply app_inj_tail in E as [-> ->]. by apply Hx.
  - rewrite app_comm_cons, app_assoc in E. apply app_inj_tail in E as [E _]. by apply (Hl l1 y l2).
Qed.

(** An applied item was written, and read back as it was wanted. *)
Definition evidenced (s : Run W) (r : Reg) : Prop :=
  exists v d, lookup_val r (current (report s)) = Some v /\ lookup_val r (wanted (report s)) = Some d /\ same r v d = true /\ SWrite r d ∈ sent s.

Record sound (done_ : list Reg) (s : Run W) : Prop := mkSound {
  so_guarded : guarded (sent s);
  so_stream : streaming s = true -> SStream true ∈ sent s;
  so_quiet : apply = false -> Forall harmless (sent s);
  so_applied : forall r, r ∈ applied (report s) -> r ∈ done_ /\ evidenced s r
}.

Lemma sound_more r d s : sound d s -> sound (r :: d) s.
Proof. intros [H1 H2 H3 H4]. split; [done..|]. intros x Hx. destruct (H4 x Hx). split; [set_solver|done]. Qed.

Lemma lookup_put_ne k k' v l : k <> k' -> lookup_val k (put k' v l) = lookup_val k l.
Proof.
  intros Hn. unfold lookup_val. f_equal. induction l as [|[x y] l IH]; cbn [put find fst].
  - by rewrite bool_decide_eq_false_2 by congruence.
  - case_bool_decide as Hx; cbn [find fst]; [|by rewrite IH]. subst x. by rewrite bool_decide_eq_false_2 by congruence.
Qed.

Lemma lookup_without_ne k k' l : k <> k' -> lookup_val k (without k' l) = lookup_val k l.
Proof.
  intros Hn. unfold lookup_val, without. f_equal. induction l as [|[x y] l IH]; cbn [List.filter find fst]; [done|].
  destruct (decide (x = k')) as [->|Hx].
  - rewrite (bool_decide_eq_true_2 (k' = k')), (bool_decide_eq_false_2 (k' = k)) by congruence. exact IH.
  - rewrite (bool_decide_eq_false_2 (x = k')) by done. cbn [negb find fst]. by destruct (bool_decide (x = k)).
Qed.

Lemma lookup_put k v l : lookup_val k (put k v l) = Some v.
Proof.
  unfold lookup_val. induction l as [|[x y] l IH]; cbn [put find fst].
  - by rewrite bool_decide_eq_true_2.
  - case_bool_decide as Hx; cbn [find fst]; [by rewrite bool_decide_eq_true_2|]. by rewrite (bool_decide_eq_false_2 (x = k)).
Qed.

(** Entries about an item that is not yet done touch no evidence. *)
Lemma on_report_sound d k f : k ∉ d ->
  (forall r, applied (f r) = applied r /\ (forall x, x <> k -> lookup_val x (current (f r)) = lookup_val x (current r) /\ lookup_val x (wanted (f r)) = lookup_val x (wanted r))) ->
  forall s, sound d s -> sound d (set_report (f (report s)) s).
Proof.
  intros Hk Hf s [H1 H2 H3 H4]. destruct (Hf (report s)) as [E Hl]. split; [done..|]. cbn [set_report report]. rewrite E. intros x Hx.
  destruct (H4 x Hx) as (Hd & v & w & Hv & Hw & Hs). split; [done|]. exists v, w. cbn [set_report report sent]. assert (x <> k) by set_solver.
  destruct (Hl x) as [-> ->]; done.
Qed.

Lemma set_current_sound d k v : k ∉ d -> keeps (sound d) (set_current k v) (sound d).
Proof. intros Hk s Hs. eapply (on_report_sound d k _ Hk); [|exact Hs]. intros r. split; [done|]. intros x Hx. cbn [current wanted]. by rewrite lookup_put_ne. Qed.
Lemma set_wanted_sound d k v : k ∉ d -> keeps (sound d) (set_wanted k v) (sound d).
Proof.
  intros Hk s Hs. eapply (on_report_sound d k _ Hk); [|exact Hs]. intros r. split; [done|]. intros x Hx. cbn [current wanted].
  destruct v; by rewrite ?lookup_put_ne, ?lookup_without_ne.
Qed.

Lemma plain_sound d f : (forall r, applied (f r) = applied r /\ current (f r) = current r /\ wanted (f r) = wanted r) -> keeps (sound d) (on_report f) (sound d).
Proof.
  intros Hf s [H1 H2 H3 H4]. destruct (Hf (report s)) as (E1 & E2 & E3). split; [done..|]. cbn. rewrite E1. intros x Hx.
  destruct (H4 x Hx) as (Hd & v & w & Hv & Hw & Hs). split; [done|]. exists v, w. cbn. by rewrite E2, E3.
Qed.
Lemma add_error_sound d a w b : keeps (sound d) (add_error a w b) (sound d).
Proof. by apply plain_sound. Qed.
Lemma add_note_sound d n : keeps (sound d) (add_note n) (sound d).
Proof. by apply plain_sound. Qed.
Lemma follow_sound d c : keeps (sound d) (_follow c) (sound d).
Proof. by apply plain_sound. Qed.
Lemma file_sound d v k : v <> VApplied -> keeps (sound d) (file_under v k) (sound d).
Proof. intros Hv. apply plain_sound. intros r. cbn. destruct v; [done|by rewrite app_nil_r..]. Qed.

Lemma ask_sound {A} d (what : A -> list Sent) none f :
  (forall a, exists x, what a = [x] /\ harmless x) -> (exists x, none = [x] /\ harmless x) -> keeps (sound d) (ask what none f) (sound d).
Proof.
  intros Hw Hn s [H1 H2 H3 H4]. unfold ask. destruct (f (world s)) as [w r]. cbn [fst].
  assert (Hx : exists x, match r with Got a => what a | _ => none end = [x] /\ harmless x) by (destruct r; [apply Hw|exact Hn..]).
  destruct Hx as (x & -> & Hx). split; cbn [sent streaming report].
  - apply guarded_snoc; [done|]. by destruct x.
  - intros Hs. apply elem_of_app. left. by apply H2.
  - intros Ha. apply Forall_app_2; [by apply H3|by constructor].
  - intros y Hy. destruct (H4 y Hy) as (Hd & v & z & Hv & Hz & Hs & Hi). split; [done|]. exists v, z. cbn. set_solver.
Qed.

Lemma read_sound d k : keeps (sound d) (read k) (sound d).
Proof.
  unfold read. eapply hoare_bind; [apply ask_sound; by eexists| |done].
  intros [v|c| | |]; try (apply hoare_ret; done); (eapply hoare_bind; [apply add_error_sound|intros; by apply hoare_ret|done]).
Qed.

(** What was written and is now wanted. *)
Definition written (d : list Reg) (k : Reg) (v : Val) (s : Run W) : Prop := sound d s /\ lookup_val k (wanted (report s)) = Some v /\ SWrite k v ∈ sent s.

Lemma write_sound d k v : apply = true -> keeps (fun s => sound d s /\ lookup_val k (wanted (report s)) = Some v /\ (k = RAsync -> SStream true ∈ sent s)) (write_reg k v) (written d k v).
Proof.
  intros Ha s ([H1 H2 H3 H4] & Hw & Hk). unfold write_reg, ask. destruct (do_write k v (world s)) as [w r]. cbn [fst].
  replace (match r with Got _ => [SWrite k v] | _ => [SWrite k v] end) with [SWrite k v] by (by destruct r).
  split; [|cbn; split; [done|set_solver]]. split; cbn [sent streaming report].
  - apply guarded_snoc; [done|]. destruct k; try done. intros _. by apply Hk.
  - intros Hs. apply elem_of_app. left. by apply H2.
  - congruence.
  - intros y Hy. destruct (H4 y Hy) as (Hd & u & z & Hv & Hz & Hs & Hi). split; [done|]. exists u, z. cbn. set_solver.
Qed.

Lemma verify_sound d k v : k ∉ d -> keeps (written d k v) (verify k v) (sound (k :: d)).
Proof.
  intros Hk s (Hs & Hw & Hi). unfold verify.
  assert (Hr : forall s, written d k v s -> written d k v (read k s).1).
  { clear. intros s (Hs & Hw & Hi). split; [by apply read_sound|]. unfold read, read_reg, ask, mbind, M_bind. destruct (do_read k (world s)) as [w r].
    destruct r; cbn; (split; [done|set_solver]). }
  pose proof (Hr s (conj Hs (conj Hw Hi))) as (Hs1 & Hw1 & Hi1). clear Hs Hw Hi. unfold mbind, M_bind. destruct (read k s) as [s1 [[b|]|]]; cbn [fst] in *.
  2,3: by apply sound_more.
  pose proof (set_current_sound d k b Hk s1 Hs1) as Hs2. cbn in Hs2 |- *. destruct (same k b v) eqn:Es.
  - cbn. destruct Hs2 as [G1 G2 G3 G4]. split; [exact G1|exact G2|exact G3|]. cbn [report applied]. intros x Hx. apply elem_of_app in Hx as [Hx|Hx].
    + destruct (G4 x Hx) as [Hd He]. split; [set_solver|exact He].
    + apply list_elem_of_singleton in Hx as ->. split; [set_solver|]. exists b, v. split; [apply lookup_put|]. split; [exact Hw1|]. split; [exact Es|exact Hi1].
  - apply sound_more. cbn. destruct Hs2 as [G1 G2 G3 G4]. split; [exact G1|exact G2|exact G3|]. cbn [report applied]. rewrite app_nil_r. exact G4.
Qed.

Lemma change_sound d k cur v : k ∉ d -> keeps (fun s => sound d s /\ (apply = true -> same k cur v = false -> k = RAsync -> SStream true ∈ sent s)) (change k cur v) (sound (k :: d)).
Proof.
  intros Hk. unfold change. destruct (same k cur v) eqn:Es.
  - eapply (hoare_pre _ _ (sound d)); [by intros ? []|]. intros s Hs. apply sound_more. by apply (file_sound d VUnchanged k).
  - eapply (hoare_bind _ _ _ (fun s => sound d s /\ lookup_val k (wanted (report s)) = Some v /\ (apply = true -> k = RAsync -> SStream true ∈ sent s))).
    + intros s [Hs Ha]. split; [by apply set_wanted_sound|]. split; [apply lookup_put|]. intros Hap. by apply Ha.
    + intros _. destruct apply eqn:Ea; cbn [negb].
      * eapply hoare_bind; [eapply hoare_pre; [|by apply (write_sound d k v)]; intros s (H1 & H2 & H3); split; [exact H1|]; split; [exact H2|]; intros Hx; by apply H3| |intros s (Hs & _); by apply sound_more].
        intros [a|c| | |]; try (intros s (Hs & _); apply sound_more; by apply add_error_sound).
        eapply hoare_bind; [by apply verify_sound|intros; by apply hoare_ret|done].
      * intros s (Hs & _). apply sound_more. by apply (file_sound d VPending k).
    + intros s (Hs & _). by apply sound_more.
Qed.

Lemma item_sound d k v : k ∉ d -> k <> RAsync -> keeps (sound d) (item k v) (sound (k :: d)).
Proof.
  intros Hk Ha. unfold item. eapply hoare_bind; [apply read_sound| |apply sound_more]. intros [c|]; [|apply hoare_ret, sound_more].
  eapply hoare_bind; [by apply set_current_sound| |apply sound_more]. intros _. destruct v as [v|]; [|apply hoare_ret, sound_more].
  eapply hoare_pre; [|by apply change_sound]. intros s Hs. by split.
Qed.

Lemma async_sound d : RAsync ∉ d -> keeps (sound d) async_output (sound (RAsync :: d)).
Proof.
  intros Hk. unfold async_output. eapply hoare_bind; [apply read_sound| |apply sound_more]. intros [v|]; [|apply hoare_ret, sound_more].
  eapply hoare_bind; [by apply set_current_sound| |apply sound_more]. intros _. apply hoare_get. intros on. destruct (_ && _) eqn:E.
  - intros s [Hs _]. apply sound_more. by apply add_note_sound.
  - eapply hoare_pre; [|by apply change_sound]. intros s [Hs Hon]. split; [done|]. intros Ha Hd _. apply (so_stream _ _ Hs).
    rewrite Ha in E. cbn [andb same] in *. rewrite Hd in E. cbn in E. by apply negb_false_iff in E as ->.
Qed.

Lemma identify_sound d ids : forall known, keeps (sound d) (identify ids known) (sound d).
Proof.
  induction ids as [|i ids IH]; intros known; cbn [identify]; [by apply hoare_ret|].
  eapply hoare_bind; [apply ask_sound; by eexists| |done]. intros [v|c| | |]; [apply IH|..]; (eapply hoare_bind; [apply add_error_sound| |done]; intros _); try apply IH.
  destruct i; try apply IH. by apply hoare_ret.
Qed.

Lemma frame_sound d f : (forall s, report (f s) = report s /\ streaming (f s) = streaming s /\ sent (f s) = sent s) -> keeps (sound d) (modify f) (sound d).
Proof.
  intros Hf s [H1 H2 H3 H4]. destruct (Hf s) as (E1 & E2 & E3). cbn. split; rewrite ?E1, ?E2, ?E3; try done.
  intros r Hr. destruct (H4 r Hr) as (Hd & v & w & Hv & Hw & Hs & Hi). split; [done|]. exists v, w. by rewrite E1, E3.
Qed.

Lemma info_sound d : keeps (sound d) read_info (sound d).
Proof.
  unfold read_info. eapply hoare_bind; [apply identify_sound| |done]. intros [ok known]. eapply hoare_bind; [by apply frame_sound|intros; by apply hoare_ret|done].
Qed.

Lemma write_sent d k v : apply = true -> k <> RAsync -> keeps (sound d) (write_reg k v) (fun s => sound d s /\ SWrite k v ∈ sent s).
Proof.
  intros Ha Hk s [H1 H2 H3 H4]. unfold write_reg, ask. destruct (do_write k v (world s)) as [w r]. cbn [fst].
  replace (match r with Got _ => [SWrite k v] | _ => [SWrite k v] end) with [SWrite k v] by (by destruct r).
  split; [|cbn; set_solver]. split; cbn [sent streaming report].
  - apply guarded_snoc; [done|]. by destruct k.
  - intros Hs. apply elem_of_app. left. by apply H2.
  - congruence.
  - intros y Hy. destruct (H4 y Hy) as (Hd & u & z & Hv & Hz & Hs & Hi). split; [done|]. exists u, z. cbn. set_solver.
Qed.

(** Verifying changes neither what is wanted nor what was written. *)
Definition stands (k : Reg) (v : Val) (s : Run W) : Prop := lookup_val k (wanted (report s)) = Some v /\ SWrite k v ∈ sent s.
Lemma verify_stands k v : keeps (stands k v) (verify k v) (stands k v).
Proof.
  intros s (Hw & Hi). unfold verify, read, read_reg, ask, mbind, M_bind. destruct (do_read k (world s)) as [w r].
  destruct r as [b|c| | |]; cbn; try (split; [exact Hw|set_solver]). destruct (same k b v); cbn; (split; [exact Hw|set_solver]).
Qed.

Lemma set_current_again d k v : k ∈ d -> same k v v = true -> keeps (fun s => sound d s /\ stands k v s) (set_current k v) (sound d).
Proof.
  intros Hk Hs s ([H1 H2 H3 H4] & Hw & Hi). split; [done..|]. cbn [set_current on_report modify fst report set_report applied]. intros r Hr.
  destruct (H4 r Hr) as (Hd & He). split; [done|]. destruct (decide (r = k)) as [->|Hn].
  - exists v, v. split; [apply lookup_put|]. done.
  - destruct He as (u & w & Hu & Hwr & Hss & Hir). exists u, w. cbn [set_current on_report modify fst report set_report current wanted sent]. by rewrite lookup_put_ne.
Qed.

Lemma try_sound d cur cs : apply = true -> RBinary ∉ d -> forall refused, keeps (sound d) (try_candidates cur cs refused) (sound (RBinary :: d)).
Proof.
  intros Ha Hk. induction cs as [|want cs IH]; intros refused; cbn [try_candidates].
  - eapply hoare_bind; [apply add_error_sound|intros; apply hoare_ret, sound_more|apply sound_more].
  - case_bool_decide.
    + eapply hoare_bind; [by apply file_sound| |apply sound_more]. intros _. eapply hoare_bind; [by apply set_wanted_sound|intros; apply hoare_ret, sound_more|apply sound_more].
    + eapply hoare_bind; [by apply (write_sent d RBinary (VConf want))| |intros s [Hs _]; by apply sound_more].
      assert (Hfail : keeps (fun s => sound d s /\ SWrite RBinary (VConf want) ∈ sent s) (add_error (Some RBinary) WriteFailed true;; mret (@None BinaryOutputConf)) (sound (RBinary :: d))).
      { eapply hoare_pre; [intros s [Hs _]; exact Hs|]. eapply hoare_bind; [apply add_error_sound|intros; apply hoare_ret, sound_more|apply sound_more]. }
      intros [a|c| | |]; try exact Hfail.
      * eapply (hoare_bind _ _ _ (fun s => sound d s /\ SWrite RBinary (VConf want) ∈ sent s)); [|intros _|intros s [Hs _]; by apply sound_more].
        { destruct refused as [code|]; [|by apply hoare_ret]. intros s [Hs Hi]. split; [by apply add_note_sound|exact Hi]. }
        eapply (hoare_bind _ _ _ (written d RBinary (VConf want))); [|intros _|intros s [Hs _]; by apply sound_more].
        { intros s [Hs Hi]. split; [by apply set_wanted_sound|]. split; [apply lookup_put|exact Hi]. }
        eapply (hoare_bind _ _ _ (fun s => sound (RBinary :: d) s /\ stands RBinary (VConf want) s)); [|intros [|]|by intros s []].
        { intros s Hs. split; [by apply verify_sound|apply verify_stands; by destruct Hs]. }
        -- eapply (hoare_bind _ _ _ (fun s => sound (RBinary :: d) s /\ stands RBinary (VConf want) s)); [|intros _|by intros s []].
           { intros s [Hs Hst]. split; [by apply follow_sound|exact Hst]. }
           eapply hoare_bind; [apply set_current_again; [set_solver|by apply bool_decide_eq_true_2]|intros; by apply hoare_ret|done].
        -- apply hoare_ret. by intros s [].
      * case_bool_decide; [|exact Hfail]. eapply hoare_pre; [intros s [Hs _]; exact Hs|]. apply IH.
Qed.

Lemma binary_sound d : RBinary ∉ d -> keeps (sound d) binary_output (sound (RBinary :: d)).
Proof.
  intros Hk. unfold binary_output. eapply hoare_bind; [apply read_sound| |apply sound_more]. intros [[cur|l]|]; try (apply hoare_ret, sound_more).
  eapply hoare_bind; [by apply set_current_sound| |apply sound_more]. intros _. eapply hoare_bind; [apply follow_sound| |apply sound_more]. intros _.
  eapply hoare_bind; [|intros _|apply sound_more]; [destruct (_ =? 0); [by apply hoare_ret|apply add_note_sound]|].
  generalize (if async_mode cur =? 0 then DEFAULT_ASYNC_MODE else async_mode cur). intros mode.
  destruct (candidates mode) as [|want cs]; [apply hoare_ret, sound_more|]. case_bool_decide.
  - eapply hoare_bind; [by apply file_sound|intros; apply hoare_ret, sound_more|apply sound_more].
  - eapply hoare_bind; [by apply set_wanted_sound| |apply sound_more]. intros _. destruct apply eqn:Ea; cbn [negb].
    + by apply try_sound.
    + eapply hoare_bind; [by apply file_sound|intros; apply hoare_ret, sound_more|apply sound_more].
Qed.

Lemma stream_sound d c : keeps (sound d) (b ← check_stream c; set_streaming b) (sound d).
Proof.
  intros s Hs. unfold check_stream, mbind, M_bind.
  pose proof (ask_sound d (fun ok : bool => [SStream ok]) [SStream false] (do_stream (stream_wait (divisor c))) ltac:(by eexists) ltac:(by eexists) s Hs) as H.
  unfold ask in *. destruct (do_stream _ (world s)) as [w r]. cbn [fst] in H.
  assert (Hf : forall s, sound d s -> sound d (mkRun (world s) (info s) (report s) false (saved_this_run s) (markers s) (sent s))) by (intros s0 [G1 G2 G3 G4]; by split).
  destruct r as [[]|co| | |].
  - destruct H as [G1 G2 G3 G4]. split; [done| |done|done]. intros _. cbn. set_solver.
  - apply Hf. exact (add_error_sound d (Some RBinary) NoStream true _ H).
  - apply Hf. exact (add_error_sound d (Some RBinary) NoStream true _ H).
  - apply Hf. exact (add_error_sound d (Some RBinary) NoStream true _ H).
  - apply Hf. exact (add_error_sound d (Some RBinary) NoStream true _ H).
  - exact H.
Qed.

Lemma basic_sound d w : RBasic ∉ d -> keeps (sound d) (_ins_basic w) (sound (RBasic :: d)).
Proof.
  intros Hk. unfold _ins_basic. eapply hoare_bind; [apply read_sound| |apply sound_more]. intros [v|]; [|apply hoare_ret, sound_more].
  eapply hoare_bind; [by apply set_current_sound| |apply sound_more]. intros _.
  assert (He : keeps (sound d) (add_error (Some RBasic) ShortReply false) (sound (RBasic :: d))) by (intros s Hs; apply sound_more; by apply add_error_sound).
  destruct v as [c|[|c0 [|c1 l]]]; try exact He. eapply hoare_pre; [|by apply change_sound]. intros s Hs. by split.
Qed.

(** What a save takes. *)
Definition may_save (s0 s : Run W) : Prop :=
  apply = true /\ save_allowed = true /\ saved_this_run s0 = false /\ mismatched (report s) = [] /\ streaming s = true.

Lemma save_sound d s0 : sound d s0 -> SSave ∉ sent s0 ->
  let s := (save s0).1 in
  sound d s /\ applied (report s) = applied (report s0) /\ mismatched (report s) = mismatched (report s0) /\ streaming s = streaming s0
  /\ (sent s = sent s0 \/ sent s = sent s0 ++ [SSave] /\ may_save s0 s)
  /\ (saved_this_run s = true -> saved_this_run s0 = true \/ SSave ∈ sent s).
Proof.
  intros Hs Hn. unfold save, get, modify, mbind, M_bind, mret, M_ret. cbv beta iota zeta.
  destruct (_ || saved_this_run s0) eqn:E1; [cbn; auto 10|]. apply orb_false_iff in E1 as [E1 Esv]. apply negb_false_iff, andb_true_iff in E1 as [Ea _].
  destruct (negb save_allowed) eqn:E2.
  { destruct (none_of _) eqn:E3; [cbn; auto 10|]. cbn. split; [|by auto 10]. destruct Hs as [G1 G2 G3 G4]. by split. }
  apply negb_false_iff in E2. destruct (negb (none_of (mismatched (report s0))) || negb (streaming s0)) eqn:E3.
  { cbn. split; [|by auto 10]. exact (add_note_sound d _ s0 Hs). }
  apply orb_false_iff in E3 as [E3 E4]. apply negb_false_iff in E3, E4.
  assert (Em : mismatched (report s0) = []) by (by destruct (mismatched (report s0))).
  assert (Hstream : SStream true ∈ sent s0) by (by apply (so_stream _ _ Hs)).
  unfold ask. destruct (do_save (world s0)) as [w r]. cbv beta iota zeta.
  replace (match r with Got _ => [SSave] | _ => [SSave] end) with [SSave] by (by destruct r).
  assert (Hs1 : forall i sv ms rp, applied rp = applied (report s0) -> current rp = current (report s0) -> wanted rp = wanted (report s0) ->
     sound d (mkRun (W := W) w i rp (streaming s0) sv ms (sent s0 ++ [SSave]))).
  { intros i sv ms rp F1 F2 F3. destruct Hs as [G1 G2 G3 G4]. split; cbn [sent streaming report].
    - apply guarded_snoc; [done|]. done.
    - set_solver.
    - congruence.
    - rewrite F1. intros x Hx. destruct (G4 x Hx) as (Hd & u & z & Hv & Hz & Hsm & Hi). split; [done|]. exists u, z. cbn. rewrite F2, F3. set_solver. }
  destruct r as [[]|c| | |]; unfold add_error, add_note, set_saved, set_markers, on_report, modify, set_report; cbn [fst snd report streaming sent saved_this_run info markers world].
  1: destruct (_ && streaming s0); unfold mret, M_ret; cbn [fst snd report streaming sent saved_this_run info markers world applied mismatched].
  all: split; [by apply Hs1|]; split; [reflexivity|]; split; [reflexivity|]; split; [reflexivity|].
  all: split; [right; split; [reflexivity|]; split_and!; first [done|exact Em]|]; intros _; right; set_solver.
Qed.

Lemma items_sound : keeps (sound []) items (sound [RRotation; RVpe; RBasic; RAntenna; RAsync; RBinary]).
Proof.
  unfold items.
  eapply hoare_bind; [apply binary_sound; set_solver| |intros s Hs; repeat first [exact Hs|apply sound_more]]. intros c.
  eapply hoare_bind; [destruct c; [apply stream_sound|by apply hoare_ret]| |intros s Hs; repeat first [exact Hs|apply sound_more]]. intros _.
  eapply hoare_bind; [apply async_sound; set_solver| |intros s Hs; repeat first [exact Hs|apply sound_more]]. intros _.
  eapply hoare_bind; [apply item_sound; [set_solver|done]| |intros s Hs; repeat first [exact Hs|apply sound_more]]. intros _.
  eapply hoare_bind; [instantiate (1 := sound [RBasic; RAntenna; RAsync; RBinary]); unfold maybe; destruct (ins_basic profile); [apply basic_sound; set_solver|apply hoare_ret, sound_more]| |intros s Hs; repeat first [exact Hs|apply sound_more]]. intros _.
  eapply hoare_bind; [instantiate (1 := sound [RVpe; RBasic; RAntenna; RAsync; RBinary]); unfold maybe; destruct (vpe profile); [apply item_sound; [set_solver|done]|apply hoare_ret, sound_more]| |intros s Hs; repeat first [exact Hs|apply sound_more]]. intros _.
  unfold maybe. destruct (ref_rotation profile); [apply item_sound; [set_solver|done]|apply hoare_ret, sound_more].
Qed.

(** Until the end nothing is saved. *)
Section Calm.
Context (s0 : Run W).
Definition calm (s : Run W) : Prop := SSave ∉ sent s /\ saved_this_run s = saved_this_run s0.

Lemma calm_bind {A B} (m : M A) (f : A -> M B) : keeps calm m calm -> (forall a, keeps calm (f a) calm) -> keeps calm (m ≫= f) calm.
Proof. intros H1 H2. by eapply hoare_bind. Qed.
Lemma calm_get {A B} (g : Run W -> A) (f : A -> M B) : (forall a, keeps calm (f a) calm) -> keeps calm (get g ≫= f) calm.
Proof. intros H s Hs. by apply H. Qed.
Lemma calm_ask {A} (what : A -> list Sent) none f : (forall a, SSave ∉ what a) -> SSave ∉ none -> keeps calm (ask what none f) calm.
Proof. intros Hw Hn s [H1 H2]. unfold ask. destruct (f (world s)) as [w r]. split; [|exact H2]. cbn. rewrite elem_of_app. intros [H|H]; [done|]. by destruct r as [a| | | |]; [destruct (Hw a)|..]. Qed.
Lemma calm_report f : keeps calm (on_report f) calm.
Proof. by intros s []. Qed.
Lemma calm_ret {A} (a : A) : keeps calm (mret a) calm.
Proof. by intros s []. Qed.

Ltac unsaved := let H := fresh in intros H%list_elem_of_In; cbn in H; intuition discriminate.
Ltac calm := repeat first
  [ match goal with |- keeps _ (mbind ?f ?m) _ => lazymatch m with get _ => apply calm_get; intros ? | _ => apply calm_bind; [|intros ?] end end
  | apply calm_ret | apply calm_report
  | refine (calm_ask _ _ _ _ _); [intros ?; unsaved|unsaved]
  | match goal with
    | |- keeps _ (match ?x with _ => _ end) _ => destruct x
    | |- keeps _ (if ?x then _ else _) _ => destruct x
    end ].

Lemma calm_read k : keeps calm (read k) calm.
Proof. unfold read, read_reg, add_error. calm. Qed.
Lemma calm_verify k v : keeps calm (verify k v) calm.
Proof. unfold verify. apply calm_bind; [apply calm_read|]. intros r. unfold set_current, file_under, add_error. calm. Qed.
Lemma calm_change k c v : keeps calm (change k c v) calm.
Proof. unfold change, file_under, set_wanted, write_reg, add_error. calm; try apply calm_verify. Qed.
Lemma calm_item k v : keeps calm (item k v) calm.
Proof. unfold item. apply calm_bind; [apply calm_read|]. intros r. unfold set_current. calm. apply calm_change. Qed.
Lemma calm_try cur cs : forall refused, keeps calm (try_candidates cur cs refused) calm.
Proof.
  induction cs as [|want cs IH]; intros refused; cbn [try_candidates].
  - apply calm_bind; [apply calm_report|intros; apply calm_ret].
  - case_bool_decide; [apply calm_bind; [apply calm_report|intros; apply calm_bind; [apply calm_report|intros; apply calm_ret]]|].
    assert (Hf : keeps calm (add_error (Some RBinary) WriteFailed true;; mret (@None BinaryOutputConf)) calm) by (apply calm_bind; [apply calm_report|intros; apply calm_ret]).
    apply calm_bind; [unfold write_reg; refine (calm_ask _ _ _ _ _); [intros ?; unsaved|unsaved]|]. intros [a|c| | |]; try exact Hf.
    + apply calm_bind; [destruct refused; [apply calm_report|apply calm_ret]|intros _]. apply calm_bind; [apply calm_report|intros _].
      apply calm_bind; [apply calm_verify|intros [|]; [|apply calm_ret]]. apply calm_bind; [apply calm_report|intros _]. apply calm_bind; [apply calm_report|intros; apply calm_ret].
    + case_bool_decide; [apply IH|exact Hf].
Qed.
Lemma calm_items : keeps calm items calm.
Proof.
  unfold items, maybe. calm; try apply calm_item.
  - unfold binary_output. apply calm_bind; [apply calm_read|]. intros r. unfold set_current, _follow, add_note, file_under, set_wanted. calm; apply calm_try.
  - unfold check_stream, add_error. calm.
  - unfold set_streaming. by intros s [].
  - unfold async_output. apply calm_bind; [apply calm_read|]. intros r. unfold set_current, add_note. calm. apply calm_change.
  - unfold _ins_basic. apply calm_bind; [apply calm_read|]. intros r. unfold set_current, add_error. calm; apply calm_change.
Qed.
Lemma calm_info : keeps calm read_info calm.
Proof.
  unfold read_info. apply calm_bind; [|intros r; apply calm_bind; [by intros s []|intros; apply calm_ret]].
  generalize [Model; HardwareRevision; Serial; Firmware]. intros ids. generalize (@nil (Ident * bytes)). induction ids as [|i ids IH]; intros known; cbn [identify]; [apply calm_ret|].
  unfold add_error. calm; apply IH.
Qed.
End Calm.

Definition fresh (s : Run W) : Prop := applied (report s) = [] /\ streaming s = false /\ sent s = [].

(** A run that only looks sends no write and no save. One that applies turns the ASCII
    output off, and saves to flash, only after a binary frame has arrived on this port; it files under
    applied only what it wrote and then read back as wanted; and it saves at most once, when it may,
    when no run before it has in this process, and when nothing read back differently. *)
Theorem vn_configured s0 : fresh s0 ->
  let s := (run s0).1 in
  (apply = false -> Forall harmless (sent s)) /\ guarded (sent s) /\ (forall r, r ∈ applied (report s) -> evidenced s r)
  /\ (forall l1 l2, sent s = l1 ++ SSave :: l2 ->
        l2 = [] /\ SSave ∉ l1 /\ apply = true /\ save_allowed = true /\ saved_this_run s0 = false /\ mismatched (report s) = []).
Proof.
  intros (Ha & Hst & Hse) s.
  assert (H0 : sound [] s0).
  { split; [|by rewrite Hst|by rewrite Hse|rewrite Ha; set_solver]. rewrite Hse. intros l1 x l2 E. by apply app_cons_not_nil in E. }
  assert (C0 : calm s0 s0) by (split; [rewrite Hse; set_solver|done]).
  pose proof (info_sound [] s0 H0) as H1. pose proof (calm_info s0 s0 C0) as C1. unfold s, run, mbind, M_bind. clear s.
  assert (Hdone : forall d s, sound d s -> calm s0 s ->
    (apply = false -> Forall harmless (sent s)) /\ guarded (sent s) /\ (forall r, r ∈ applied (report s) -> evidenced s r) /\
    (forall l1 l2, sent s = l1 ++ SSave :: l2 -> l2 = [] /\ SSave ∉ l1 /\ apply = true /\ save_allowed = true /\ saved_this_run s0 = false /\ mismatched (report s) = [])).
  { intros d s [G1 G2 G3 G4] [C _]. split; [done|]. split; [done|]. split; [intros r Hr; by apply G4|]. intros l1 l2 E. destruct C. rewrite E. set_solver. }
  destruct (read_info s0) as [s1 [ok|]]; cbn [fst] in *; [|by apply (Hdone [])].
  destruct ok; cbn [negb]; [|by apply (Hdone [])].
  pose proof (items_sound s1 H1) as H2. pose proof (calm_items s0 s1 C1) as C2. destruct (items s1) as [s2 [u|]]; cbn [fst] in *; [|by eapply Hdone].
  destruct C2 as [C2 C3]. destruct (save_sound _ s2 H2 C2) as ([G1 G2 G3 G4] & Eap & Emis & Estr & Hsent & _). cbn zeta in *. set (s := (save s2).1) in *. clearbody s.
  split; [done|]. split; [done|]. split; [intros r Hr; by apply G4|]. intros l1 l2 E. destruct Hsent as [Es|[Es (M1 & M2 & M3 & M4 & _)]].
  - destruct C2. rewrite <- Es, E. set_solver.
  - assert (l2 = [] /\ l1 = sent s2) as [-> ->].
    { rewrite Es in E. destruct l2 as [|z l2 _] using rev_ind; [by apply app_inj_tail in E as [-> _]|]. exfalso. rewrite app_comm_cons, app_assoc in E. apply app_inj_tail in E as [E _]. apply C2. rewrite E. set_solver. }
    split; [done|]. split; [done|]. rewrite <- C3. done.
Qed.
End Run.

(** A unit that takes what it is given and streams: the run sets binary output 1, turns the ASCII output off and
    saves once. One that does not stream here keeps talking ASCII, and is not saved. *)
Module Bench.
Record Bench := mkBench { regs : list (Reg * Val); streams : bool }.
#[local] Instance bench : Unit_ Bench := {|
  do_ident i w := (w, Got (str "VN-200"));
  do_read r w := (w, match lookup_val r (regs w) with Some v => Got v | None => Refusal 8 end);
  do_write r v w := (mkBench (put r v (regs w)) (streams w), Got tt);
  do_stream _ w := (w, Got (streams w));
  do_save w := (w, Got tt)
|}.
Definition profile : VnProfile := mkProfile 80 DEFAULT_FIELDS None None None None None [].
Definition start (streams : bool) : Run Bench :=
  mkRun (mkBench [(RBinary, VConf (mkConf 0 80 ∅ None)); (RAsync, Nums [14]); (RAntenna, Nums [0; 0; 0])] streams) None (new_report []) false false ∅ [].
Definition shown (s : Run Bench) : list Reg * list Reg * bool := (applied (report s), mismatched (report s), saved (report s)).

Example bench_streaming : shown (run profile true true (start true)).1 = ([RBinary; RAsync], [], true).
Proof. vm_compute. reflexivity. Qed.
Example bench_silent : shown (run profile true true (start false)).1 = ([RBinary], [], false).
Proof. vm_compute. reflexivity. Qed.
Example bench_fresh : fresh (start true).
Proof. done. Qed.
End Bench.
